(* ===== verification/_CoqProject ===== *)
-Q . S2P
Prelude.v
Pmm.v
PmmCalls.v
Multiboot.v
Memory.v
Kmm.v
Ring.v
Heap.v
VfsTypes.v
Pipe.v
OpenFiles.v
PipeSys.v
FdCalls.v
Initramfs.v
Names.v
Paths.v
Keyboard.v
Process.v
Signal.v
Serial.v
Tty.v
Sched.v
Paging.v
PageMaps.v
PageSpec.v
Reach.v
Loader.v
PageClone.v
PageFree.v
PageNew.v
PageScratch.v
PageFork.v
ForkSpace.v
Kernel.v
ProcSpec.v
MemCalls.v
MemSpec.v
PageHuge.v
UserMem.v
FileCalls.v
FileSpec.v
Arena.v
ArenaSpec.v
Elf.v
ElfCheck.v
ElfPages.v
ElfSpec.v
ExecPages.v
Exec.v
ExecSpec.v
ExecCall.v
Syscall.v
SyscallSpec.v
Interrupts.v
InterruptSpec.v
Console.v
BootMem.v
BootPages.v
BootSpec.v
Gdt.v
Framebuffer.v
Devices.v
Evidence.v
EvidenceSpec.v
Room.v
SpawnSpec.v
BootRoom.v
BootFiles.v
Boot.v
BootRun.v
SelfTests.v
SelfTestSpec.v
CloneTest.v
