(* ===== verification/Prelude.v ===== *)
(** * VIBIX: a verification development of the kernel

    VIBIX (src/kernel_rust/src) is a small 64-bit UNIX-like kernel in Rust: one processor,
    four-level paging, round-robin scheduling, ELF and flat user programs, pipes, a terminal
    on the serial line and the keyboard, and a read-only archive as its file system.  This
    library translates the kernel into executable definitions and proves what they do.

    ** The parts and how they interact

    The boot code ([kernel_main], lib.rs) reads the memory map of the boot loader
    (multiboot.rs), sets up the bitmap of physical pages (pmm.rs), the kernel heap (kmm.rs),
    the page tables (paging.rs), interrupts, segments and the system call entry
    (interrupts.rs, gdt.rs, syscall.rs), mounts the file systems (vfs/), builds process 1
    from the archive (process.rs, elf.rs) and starts the scheduler.  From then on the kernel
    runs on a timer tick (the scheduler saves the frame of the current process, polls the
    terminal, chooses the next process and restores its frame) or on a system call (the
    dispatcher checks for signals and runs a handler of the table).  The state that these
    handlers share is [Kernel.kernel]: terminal and serial line, process table and processor
    state, memory with its bitmap, and the open files.

    ** Files

    Shared foundations
    - Prelude: machine integers, outcomes ([Ret], [Panic], [Hang], [Fault]), checked arrays,
      the lemmas on lists, bits and integers, the tactics and the hint databases.
    - Memory: words of memory by address.  Ring: ring buffers and their contents.

    Physical memory and the kernel heap
    - Pmm (pmm.rs), PmmCalls (any sequence of calls on it), Multiboot (multiboot.rs), Kmm
      (kmm.rs; headers and free list as words of memory), Heap (the clients' interface of the
      heap as a class, and its instance).

    File systems
    - VfsTypes (data of vfs/mod.rs), Pipe and PipeSys (vfs/pipe.rs), OpenFiles
      (vfs/open_file.rs and the descriptor calls), FdCalls (sequences of descriptor calls),
      Initramfs (vfs/initramfs.rs), Names (mounts, devices, devfs, rootfs), Paths (path
      resolution and [vfs_init]), UserMem (bytes of user memory), FileCalls and FileSpec
      (the system calls on files).

    Devices
    - Keyboard (keyboard.rs), Serial (serial.rs), Tty (vfs/tty.rs), Interrupts and
      InterruptSpec (interrupts.rs, pit.rs), Gdt (gdt.rs), Framebuffer (fb.rs),
      Devices (the programming of the serial port and of the keyboard controller), Console
      (the printing of numbers and of the memory map, the heartbeat, the panic message).

    Processes
    - Process (the table and the choice of the scheduler), Signal (signal.rs), Sched
      ([scheduler_tick], [scheduler_switch_exit]), Kernel and ProcSpec (fork, waitpid, exit),
      SpawnSpec (the first two processes and the start of the scheduler), Evidence and EvidenceSpec (scheduler_evidence.rs).

    Address spaces and programs
    - Paging (paging.rs), PageMaps and PageSpec (trees of tables; map, unmap, translate),
      Reach (the mapping operations with every access checked against the active address space), Loader (the
      tables of boot.asm), PageClone, PageNew, PageFree (building and tearing down address spaces), PageHuge (the
      identity map of large pages), PageScratch, PageFork and ForkSpace (the scratch page, the
      copy of an address space and what the copy is), MemCalls and MemSpec (brk, mmap), Arena
      and ArenaSpec (the records of a load), Elf, ElfCheck, ElfPages, ElfSpec (elf.rs), ExecPages, Exec, ExecSpec, ExecCall
      (program images and exec), Syscall and SyscallSpec (the dispatcher).

    Boot
    - BootMem, BootPages, BootSpec (the memory phase of [kernel_main] with its self-tests),
      BootFiles (the file systems as the boot leaves them), Boot (the phases of [kernel_main]
      and their composition), Room and BootRoom (the free pages each step takes), BootRun (the
      whole run, from the boot loader's machine to the first process).
    - SelfTests and SelfTestSpec (the self-tests of the loaders in the debug build), CloneTest
      (the injected failures of fork and its self-test).

    A file named after a component holds its data, its operations in the order of the source
    and, when short, its theorems; the files ending in Spec hold the theorems.

    ** What the theorems show

    - Memory is never handed out twice and never lost: [alloc] and [alloc_pages] give pages
      that were free and mark exactly those, the memory map frees exactly the available
      pages, [kmalloc] and [kfree] keep the free list sorted, disjoint, coalesced and in
      step with the live blocks.
    - Page tables: mapping and unmapping change the translation of exactly one page and keep
      the tables a tree of distinct pages, and unmapping gives back exactly the tables that become empty; a new address space shares the kernel and nothing
      else; a forked one has its own copy of every user page below 512 GiB but for the second GiB, which is left out; tearing one down frees exactly
      what it owns; brk maps zeroed pages of its own.
    - Boot: from the machine the boot loader leaves, with a usable memory map, an archive
      that has /sbin/init and enough pages free behind the kernel within reach of the identity map (Room and BootRoom count them),
      [kernel_main] neither panics nor faults and, if init's program fits, enters init with interrupts, system calls, page tables, files and the scheduler in
      the states that the theorems on the running kernel start from.
    - Programs: the header checks accept exactly the files in order; a load maps exactly the
      pages of the segments with the bytes of the file or undoes everything; exec refuses a bad path with its error,
      and else replaces the whole image or changes nothing.
    - Processes: a tick or a switch always resumes a process with its own stack and address
      space, no ready process starves, fork makes one child, waitpid reaps a zombie once and
      is woken by the exit it waits for; signals are delivered as configured, SIGKILL always
      terminates, and a handler returns to the interrupted registers; a round trip that the
      evidence of the debug build counts has taken place.
    - Files: descriptors and open files stay consistent along every sequence of calls, a pipe
      is a bounded queue, the archive reads back what was written, paths whose normal form can be walked resolve to
      what that walk finds, data passes unchanged from one process to another.
    - Devices: the terminal implements its line discipline, the keyboard its map, interrupt
      vectors, segments and system call registers hold what the processor needs, and drawing
      stays on the screen; the numbers of the boot messages and of an exception report read back as the number.
    - Self-tests: what the tests of the debug build compare is so on every machine that can
      build a program, and on the machine of the boot loader they all pass.
    - Where the code does not do what it says, a theorem shows it (the theorems without a
      claim number that name a concrete case).

    ** Memory through the identity map

    The kernel uses physical addresses as pointers: it clears and fills page tables and frames through the
    address space that is active, in which boot.asm maps the first 4 MiB to themselves and the boot sequence the first
    32 MiB.  Paging and the files on it work on the words of physical memory, as if every
    table and frame could be reached.  Reach has the operations with each access checked: one to an address that the active address space does
    not map to itself is a [Fault] (the processor faults, or the access goes to somebody else's page).
    The checked operations are what the memory phase of the boot ([BootMem]: the paging test and the extension of the identity
    map) and brk and mmap ([MemCalls]) run, and [Exec.fill_frame] makes the same check for the frames
    of flat programs; their theorems therefore ask that the lowest free pages lie in the identity map ([low_first], [reached], [enough]), and show that no access
    leaves it.  Reach proves that under these conditions the checked and the direct operations
    agree.  The building, copying and destruction of address spaces and the loads of ELF programs use the direct
    operations: their theorems are about physical memory, and hold of the running
    kernel as long as the pages in use lie below 32 MiB, which the theorem on the boot shows of the state it ends in.  That
    the page manager does hand out pages beyond is shown by [MemSpec.brk_frame_out_of_reach] and [BootSpec.paging_test_out_of_reach].  The memory map of the boot loader is read as a
    function from addresses to words, without a check.

    ** Conventions, bounds and fuel

    Integers are [Z] with the wrap-around of their width written out; an operation that may
    panic, hang or fault returns an [outcome], and theorems that promise a result exclude the
    other three.  Loops are structural in a bound the source gives (512 entries of a table,
    64 slots of the process table, pages of a region, 16 stack pages).  The loops without
    one: the walk of the free list takes the number of pages of the heap as fuel, enough
    because the list is sorted; the dispatch loop of the scheduler takes 65 rounds, one more
    than there are slots, because each round ends a process; the mapping loops take one more
    than the number of pages, because each round takes a page; a load runs the exact number
    of rounds of a segment; chains of records have at most [CHAIN] = 65 links; a directory at
    most [DIR_MAX] entries; nanosleep takes the readings of the clock it makes.  Theorems
    show in each case that the fuel is not what ends the loop.

    ** Parameters

    The contents of frames as the memory manager hands them out, the clock, the addresses of
    the assembly entry points, of the boot information and of the kernel's end ([Boot.layout]),
    the values the video adapter and the PCI bus return, and the device registers behind the ports (class [Ports] with the laws of
    the interrupt controllers, with an instance).

    ** Not modelled

    TLB invalidation (translations are always those of the tables), the interrupt flag as a
    source of interleaving (system calls and interrupt handlers run with interrupts masked, so
    each is one step; the boot code, which runs with interrupts enabled at its end, has a
    theorem on what a tick does there), the assembly entry code and the loading of the
    descriptor tables, the text of debug traces and the dumps of the debug build ([debug_dump_walk] and the
    extended output of the exception handler).  User memory as a process sees it is a map per
    address space, kept apart from the words of the tables; the loaders, brk, mmap and the copy of fork
    also fill the frames.  Pages that two address spaces share (user pages that mmap with MAP_FIXED put below the user's code, and
    ELF segments above 512 GiB) are not shared in these maps.  User pointers are taken to be mapped, as the code takes them.
*)

From Stdlib Require Import ZArith Lia.
From stdpp Require Import base numbers list list_numbers option gmap fin_maps.

#[global] Set Default Goal Selector "!".
#[global] Open Scope Z_scope.

(** ** Machine integers

    Registers, addresses, sizes and indices are [Z]; an operation that the
    release build lets wrap is written with its wrap-around. *)

Definition u8 (x : Z) : Z := x mod 2 ^ 8.
Definition u16 (x : Z) : Z := x mod 2 ^ 16.
Definition u32 (x : Z) : Z := x mod 2 ^ 32.
Definition u64 (x : Z) : Z := x mod 2 ^ 64.

(** [x as i64] / [x as i32] for an [x] in the unsigned range. *)
Definition i64 (x : Z) : Z := (x + 2 ^ 63) mod 2 ^ 64 - 2 ^ 63.
Definition i32 (x : Z) : Z := (x + 2 ^ 31) mod 2 ^ 32 - 2 ^ 31.

(** [u64::MAX], the all-ones error value of several syscalls. *)
Definition U64_MAX : Z := 2 ^ 64 - 1.

(** [a & !b] at any width: the bits of [a] that [b] does not have. *)
Definition and_not (a b : Z) : Z := Z.ldiff a b.

(** [1 << k]. *)
Definition bit (k : Z) : Z := Z.shiftl 1 k.

(** ** Outcomes

    [Ret] is a normal return, [Panic] a Rust panic (an index out of bounds, or
    an explicit [panic!]), [Hang] a [loop { hlt }] with no way out (or a loop that
    exceeds the fuel), [Fault] an access through a null or dangling pointer. *)

Inductive outcome (A : Type) : Type :=
| Ret (a : A)
| Panic
| Hang
| Fault.
Arguments Ret {A} a.
Arguments Panic {A}.
Arguments Hang {A}.
Arguments Fault {A}.

#[global] Instance outcome_ret : MRet outcome := λ A a, Ret a.
#[global] Instance outcome_bind : MBind outcome := λ A B f m,
  match m with Ret a => f a | Panic => Panic | Hang => Hang | Fault => Fault end.

(** A checked array access: [l[i]] panics out of range. *)
Definition index {A} (l : list A) (i : Z) : outcome A :=
  match l !! Z.to_nat i with Some x => Ret x | None => Panic end.

(** A checked array store: [l[i] = x]. *)
Definition store {A} (l : list A) (i : Z) (x : A) : outcome (list A) :=
  match l !! Z.to_nat i with Some _ => Ret (<[Z.to_nat i := x]> l) | None => Panic end.

(** The pointee of a pointer into a typed store. *)
Definition deref {A} (o : option A) : outcome A :=
  match o with Some x => Ret x | None => Fault end.

(** The number of elements of a list that satisfy a test. *)
Fixpoint countb {A} (P : A → bool) (l : list A) : Z :=
  match l with [] => 0 | x :: l => Z.b2z (P x) + countb P l end.

(** ** Automation *)

Create HintDb vibix discriminated.

(** Splits every boolean comparison in sight into its arithmetic meaning. *)
Ltac bool_arith :=
  repeat match goal with
  | H : (_ <? _) = true |- _ => apply Z.ltb_lt in H
  | H : (_ <? _) = false |- _ => apply Z.ltb_ge in H
  | H : (_ <=? _) = true |- _ => apply Z.leb_le in H
  | H : (_ <=? _) = false |- _ => apply Z.leb_gt in H
  | H : (_ =? _) = true |- _ => apply Z.eqb_eq in H
  | H : (_ =? _) = false |- _ => apply Z.eqb_neq in H
  | H : negb _ = true |- _ => apply negb_true_iff in H
  | H : negb _ = false |- _ => apply negb_false_iff in H
  | H : (_ && _) = true |- _ => apply andb_true_iff in H; destruct H
  | H : (_ || _) = false |- _ => apply orb_false_iff in H; destruct H
  end.

(** Decides the scrutinee of the first [if] of the goal. *)
Ltac case_if :=
  match goal with
  | |- context [if ?b then _ else _] => destruct b eqn:?; bool_arith
  end.

(** Decides every integer comparison of the goal and closes the arithmetic. *)
Ltac zcases :=
  repeat match goal with
  | |- context [?a <=? ?b] => destruct (Z.leb_spec a b)
  | |- context [?a <? ?b] => destruct (Z.ltb_spec a b)
  | |- context [?a =? ?b] => destruct (Z.eqb_spec a b)
  | |- context [?a >=? ?b] => rewrite (Z.geb_leb a b)
  | |- context [?a >? ?b] => rewrite (Z.gtb_ltb a b)
  end; simpl; try done; try lia.

(** ** Generic lemmas *)

Lemma u64_small (x : Z) : 0 ≤ x < 2 ^ 64 → u64 x = x.
Proof. intros. unfold u64. by rewrite Z.mod_small. Qed.

Lemma u64_range (x : Z) : 0 ≤ u64 x < 2 ^ 64.
Proof. apply Z.mod_pos_bound. lia. Qed.

Lemma index_ret {A} (l : list A) i x :
  l !! Z.to_nat i = Some x → index l i = Ret x.
Proof. unfold index. by intros ->. Qed.

Lemma index_in_range {A} (l : list A) i :
  0 ≤ i < Z.of_nat (length l) → ∃ x, l !! Z.to_nat i = Some x ∧ index l i = Ret x.
Proof.
  intros Hi. destruct (lookup_lt_is_Some_2 l (Z.to_nat i)) as [x Hx]; [lia|].
  exists x. split; [done|by apply index_ret].
Qed.

Lemma store_in_range {A} (l : list A) i x :
  0 ≤ i < Z.of_nat (length l) → store l i x = Ret (<[Z.to_nat i := x]> l).
Proof.
  intros Hi. unfold store.
  destruct (lookup_lt_is_Some_2 l (Z.to_nat i)) as [y ->]; [lia|done].
Qed.

Lemma store_app {A} (l : list A) x y l' i : i = Z.of_nat (length l) → store (l ++ x :: l') i y = Ret (l ++ y :: l').
Proof. intros ->. rewrite store_in_range by (rewrite length_app; cbn; lia). by rewrite Nat2Z.id, insert_app_r_alt, Nat.sub_diag by lia. Qed.

Lemma land_bit_eqb b k : 0 ≤ k → (Z.land b (bit k) =? 0) = negb (Z.testbit b k).
Proof.
  intros Hk. unfold bit.
  destruct (Z.testbit b k) eqn:E; simpl.
  - apply Z.eqb_neq. intros H.
    assert (Z.testbit (Z.land b (Z.shiftl 1 k)) k = false) as H0
      by (rewrite H; apply Z.testbit_0_l).
    rewrite Z.land_spec, E, Z.shiftl_spec, Z.sub_diag in H0 by lia. done.
  - apply Z.eqb_eq. apply Z.bits_inj'. intros n Hn.
    rewrite Z.land_spec, Z.testbit_0_l, Z.shiftl_spec by lia.
    destruct (decide (n = k)) as [->|]; [by rewrite E|].
    replace 1 with (2 ^ 0) by done.
    rewrite Z.pow2_bits_eqb by lia.
    destruct (0 =? n - k) eqn:E2; bool_arith; [lia|apply andb_false_r].
Qed.

Lemma bit_spec k n : 0 ≤ k → Z.testbit (bit k) n = (k =? n).
Proof.
  intros Hk. unfold bit. rewrite Z.shiftl_1_l. by apply Z.pow2_bits_eqb.
Qed.

Lemma lor_bit_spec b k n :
  0 ≤ k → Z.testbit (Z.lor b (bit k)) n = (k =? n) || Z.testbit b n.
Proof. intros. rewrite Z.lor_spec, bit_spec by done. apply orb_comm. Qed.

Lemma and_not_bit_spec b k n :
  0 ≤ k → Z.testbit (and_not b (bit k)) n = negb (k =? n) && Z.testbit b n.
Proof.
  intros. unfold and_not. rewrite Z.ldiff_spec, bit_spec by done. apply andb_comm.
Qed.

(** Two [w]-bit values with the same low [w] bits are equal. *)
Lemma bits_ext w x y :
  0 ≤ w → 0 ≤ x < 2 ^ w → 0 ≤ y < 2 ^ w →
  (∀ n, 0 ≤ n < w → Z.testbit x n = Z.testbit y n) → x = y.
Proof.
  intros Hw Hx Hy H. apply Z.bits_inj'. intros n Hn.
  destruct (decide (n < w)) as [|Hge]; [apply H; lia|].
  rewrite <- (Z.mod_small x (2 ^ w)), <- (Z.mod_small y (2 ^ w)) by done.
  by rewrite !Z.mod_pow2_bits_high by lia.
Qed.

(** A non-negative value is below [2 ^ w] when its bits from [w] on are zero. *)
Lemma bits_bound w x :
  0 ≤ w → 0 ≤ x → (∀ n, w ≤ n → Z.testbit x n = false) → 0 ≤ x < 2 ^ w.
Proof.
  intros Hw Hx H. split; [done|].
  destruct (decide (x = 0)) as [->|Hx0]; [by apply Z.pow_pos_nonneg|].
  apply Z.log2_lt_pow2; [lia|].
  destruct (decide (Z.log2 x < w)) as [|Hge]; [done|].
  specialize (H (Z.log2 x) ltac:(lia)). rewrite Z.bit_log2 in H by lia. done.
Qed.

Lemma testbit_high w x n : 0 ≤ w → 0 ≤ x < 2 ^ w → w ≤ n → Z.testbit x n = false.
Proof.
  intros Hw Hx Hn. rewrite <- (Z.mod_small x (2 ^ w)) by done.
  by apply Z.mod_pow2_bits_high; lia.
Qed.

Lemma lor_bit_byte b k : 0 ≤ b < 2 ^ 8 → 0 ≤ k < 8 → 0 ≤ Z.lor b (bit k) < 2 ^ 8.
Proof.
  intros Hb Hk. apply bits_bound; [lia| |].
  - apply Z.lor_nonneg. split; [lia|]. unfold bit. rewrite Z.shiftl_nonneg. lia.
  - intros n Hn. rewrite lor_bit_spec by lia.
    rewrite (testbit_high 8 b n) by lia.
    destruct (k =? n) eqn:E; bool_arith; [lia|done].
Qed.

Lemma and_not_byte b m : 0 ≤ b < 2 ^ 8 → 0 ≤ and_not b m < 2 ^ 8.
Proof.
  intros Hb. unfold and_not. apply bits_bound; [lia| |].
  - apply Z.ldiff_nonneg. lia.
  - intros n Hn. rewrite Z.ldiff_spec, (testbit_high 8 b n) by lia. done.
Qed.

#[export] Hint Resolve u64_range : vibix.

(** [b & !(2^n - 1)] rounds down to a multiple of [2 ^ n]. *)
Lemma and_not_ones b n : 0 ≤ n → and_not b (2 ^ n - 1) = b - b mod 2 ^ n.
Proof.
  intros Hn. unfold and_not. rewrite Z.sub_1_r, <- Z.ones_equiv.
  rewrite Z.ldiff_ones_r, Z.shiftl_mul_pow2, Z.shiftr_div_pow2 by lia.
  assert (0 < 2 ^ n) by (apply Z.pow_pos_nonneg; lia).
  pose proof (Z.div_mod b (2 ^ n)). lia.
Qed.

Lemma and_not_page b : and_not b 4095 = b - b mod 4096.
Proof. apply (and_not_ones b 12). lia. Qed.

(** ** Counting *)

Lemma countb_bound {A} (P : A → bool) l : 0 ≤ countb P l ≤ Z.of_nat (length l).
Proof. induction l as [|x l IH]; simpl; [lia|]. destruct (P x); simpl; lia. Qed.

Lemma countb_app {A} (P : A → bool) l1 l2 : countb P (l1 ++ l2) = countb P l1 + countb P l2.
Proof. induction l1 as [|x l1 IH]; simpl; lia. Qed.

Lemma countb_insert {A} (P : A → bool) l i x y :
  l !! i = Some x → countb P (<[i := y]> l) = countb P l - Z.b2z (P x) + Z.b2z (P y).
Proof.
  revert i. induction l as [|z l IH]; intros [|i] H; simpl in *; simplify_eq; [lia|].
  rewrite (IH i H). lia.
Qed.

Lemma countb_ext {A} (P Q : A → bool) l :
  (∀ i x, l !! i = Some x → P x = Q x) → countb P l = countb Q l.
Proof.
  induction l as [|x l IH]; intros H; simpl; [done|].
  rewrite (H 0%nat x eq_refl), IH; [done|]. intros i y Hy. by apply (H (S i)).
Qed.

Lemma countb_zero {A} (P : A → bool) l :
  countb P l = 0 ↔ ∀ i x, l !! i = Some x → P x = false.
Proof.
  induction l as [|x l IH]; simpl.
  { split; [by intros|done]. }
  pose proof (countb_bound P l). split.
  - intros H0 [|i] y Hy; simpl in Hy; simplify_eq; destruct (P _) eqn:E in H0; simpl in H0;
      try lia; [done|]. eapply IH; [lia|done].
  - intros H0. rewrite (H0 0%nat x eq_refl). simpl. apply IH. intros i y. apply (H0 (S i)).
Qed.

Lemma countb_pos {A} (P : A → bool) l i x :
  l !! i = Some x → P x = true → 1 ≤ countb P l.
Proof.
  intros Hi Hx. pose proof (countb_bound P l).
  destruct (decide (countb P l = 0)) as [H0|]; [|lia].
  rewrite (proj1 (countb_zero P l) H0 i x Hi) in Hx. done.
Qed.

Lemma countb_lt {A} (P Q : A → bool) l i x :
  (∀ i y, l !! i = Some y → P y = true → Q y = true) →
  l !! i = Some x → P x = false → Q x = true → countb P l < countb Q l.
Proof.
  assert (∀ l, (∀ i y, l !! i = Some y → P y = true → Q y = true) → countb P l ≤ countb Q l) as Hle.
  { clear. intros l. induction l as [|y l IH]; intros H; simpl; [lia|].
    specialize (IH (λ i, H (S i))). specialize (H 0%nat y eq_refl).
    destruct (P y), (Q y); simpl; try lia; by specialize (H eq_refl). }
  revert i. induction l as [|y l IH]; intros i H Hi Hp Hq; [done|]. destruct i as [|i]; simpl in *.
  - simplify_eq. rewrite Hp, Hq. specialize (Hle l (λ i, H (S i))). simpl. lia.
  - specialize (IH i (λ i, H (S i)) Hi Hp Hq). specialize (H 0%nat y eq_refl).
    destruct (P y), (Q y); simpl; try lia; by specialize (H eq_refl).
Qed.
