(* ===== verification/Pmm.v ===== *)
(** * Physical memory manager (src/kernel_rust/src/pmm.rs)

    The bitmap allocator: one static bitmap of 8192 bytes, bit [i] of which is 1
    when page [i] is allocated, and allocator handles ([PmmAllocator]) that give
    the managed range.  The boot code's handle and [GLOBAL_PMM] share the one
    bitmap, so every operation takes the handle and the bitmap and returns the
    new bitmap. *)

From Stdlib Require Import ZArith Lia.
From stdpp Require Import base numbers list option.
From S2P Require Import Prelude.

Local Open Scope Z_scope.

Definition PMM_PAGE_SIZE : Z := 4096.
Definition PMM_MAX_PAGES : Z := 65536.
Definition BITMAP_SIZE : Z := PMM_MAX_PAGES / 8.

Record PmmAllocator := mkPmm { total_pages : Z; memory_start : Z }.

(** [PMM_BITMAP], the static array in BSS. *)
Abbreviation bitmap := (list Z).

Definition PmmAllocator_new : PmmAllocator := mkPmm 0 0.

(** [init_global]: the global handle takes the range of the boot handle. *)
Definition init_global (local : PmmAllocator) (_global : PmmAllocator) : PmmAllocator :=
  mkPmm (total_pages local) (memory_start local).

(** The range computation of [init] and [init_all_used]. *)
Definition clamp_pages (start stop : Z) : Z :=
  let n := u64 (stop - start) / PMM_PAGE_SIZE in
  if n >? PMM_MAX_PAGES then PMM_MAX_PAGES else n.

Definition bm_set (bm : bitmap) (i : Z) : outcome bitmap :=
  b ← index bm (i / 8); store bm (i / 8) (Z.lor b (bit (i mod 8))).

Definition bm_clear (bm : bitmap) (i : Z) : outcome bitmap :=
  b ← index bm (i / 8); store bm (i / 8) (and_not b (bit (i mod 8))).

(** [for i in from..from+n { bm[i/8] |= 1 << (i%8) }]. *)
Fixpoint set_range (bm : bitmap) (from : Z) (n : nat) : outcome bitmap :=
  match n with
  | O => Ret bm
  | S n => bm' ← bm_set bm from; set_range bm' (from + 1) n
  end.

(** [for i in from..from+n { bm[i/8] &= !(1 << (i%8)) }]. *)
Fixpoint clear_range (bm : bitmap) (from : Z) (n : nat) : outcome bitmap :=
  match n with
  | O => Ret bm
  | S n => bm' ← bm_clear bm from; clear_range bm' (from + 1) n
  end.

Definition init (start stop : Z) (bm : bitmap) : outcome (PmmAllocator * bitmap) :=
  bm' ← set_range ((λ _, 0) <$> bm) 0 4;
  Ret (mkPmm (clamp_pages start stop) start, bm').

Definition init_all_used (start stop : Z) (bm : bitmap) : PmmAllocator * bitmap :=
  (mkPmm (clamp_pages start stop) start, (λ _, 255) <$> bm).

Fixpoint alloc_loop (a : PmmAllocator) (bm : bitmap) (i : Z) (n : nat)
    : outcome (Z * bitmap) :=
  match n with
  | O => Ret (0, bm)
  | S n =>
      b ← index bm (i / 8);
      if Z.land b (bit (i mod 8)) =? 0 then
        bm' ← bm_set bm i;
        Ret (u64 (memory_start a + i * PMM_PAGE_SIZE), bm')
      else alloc_loop a bm (i + 1) n
  end.

(** [alloc]: the first free page, or 0 (null) when there is none. *)
Definition alloc (a : PmmAllocator) (bm : bitmap) : outcome (Z * bitmap) :=
  alloc_loop a bm 0 (Z.to_nat (total_pages a)).

Definition free (a : PmmAllocator) (bm : bitmap) (addr : Z) : outcome bitmap :=
  if addr <? memory_start a then Ret bm
  else
    let page := (addr - memory_start a) / PMM_PAGE_SIZE in
    if page >=? PMM_MAX_PAGES then Ret bm
    else bm_clear bm page.

(** The rollback loop [for j in 0..i { free(first_addr + j * PAGE) }]. *)
Fixpoint free_run (a : PmmAllocator) (bm : bitmap) (first j : Z) (n : nat)
    : outcome bitmap :=
  match n with
  | O => Ret bm
  | S n =>
      bm' ← free a bm (u64 (first + j * PMM_PAGE_SIZE));
      free_run a bm' first (j + 1) n
  end.

(** The loop [for i in 1..count] of [alloc_pages]; [n] pages are still to be
    taken, the next one is page [i] of the run. *)
Fixpoint alloc_more (a : PmmAllocator) (bm : bitmap) (first i : Z) (n : nat)
    : outcome (Z * bitmap) :=
  match n with
  | O => Ret (first, bm)
  | S n =>
      '(p, bm1) ← alloc a bm;
      if (p =? 0) || negb (p =? u64 (first + i * PMM_PAGE_SIZE)) then
        bm2 ← (if negb (p =? 0) then free a bm1 p else Ret bm1);
        bm3 ← free_run a bm2 first 0 (Z.to_nat i);
        Ret (0, bm3)
      else alloc_more a bm1 first (i + 1) n
  end.

Definition alloc_pages (a : PmmAllocator) (bm : bitmap) (count : Z)
    : outcome (Z * bitmap) :=
  if count =? 0 then Ret (0, bm)
  else
    '(first, bm1) ← alloc a bm;
    if first =? 0 then Ret (0, bm1)
    else alloc_more a bm1 first 1 (Z.to_nat (count - 1)).

(** The last page of [base, base+size), as [reserve] and [init_region] have it. *)
Definition region_end (a : PmmAllocator) (base size : Z) : Z :=
  if size =? 0 then (base - memory_start a) / PMM_PAGE_SIZE
  else
    let e := u64 (base - memory_start a + size - 1) / PMM_PAGE_SIZE in
    if e >=? PMM_MAX_PAGES then PMM_MAX_PAGES - 1 else e.

Definition reserve (a : PmmAllocator) (bm : bitmap) (base size : Z) : outcome bitmap :=
  if base <? memory_start a then Ret bm
  else
    let start_page := (base - memory_start a) / PMM_PAGE_SIZE in
    set_range bm start_page (Z.to_nat (region_end a base size + 1 - start_page)).

Definition init_region (a : PmmAllocator) (bm : bitmap) (base size : Z) : outcome bitmap :=
  if base <? memory_start a then Ret bm
  else
    let start_page := (base - memory_start a) / PMM_PAGE_SIZE in
    clear_range bm start_page (Z.to_nat (region_end a base size + 1 - start_page)).

Fixpoint available_loop (bm : bitmap) (i : Z) (n : nat) (acc : Z) : outcome Z :=
  match n with
  | O => Ret acc
  | S n =>
      b ← index bm (i / 8);
      available_loop bm (i + 1) n
        (if Z.land b (bit (i mod 8)) =? 0 then acc + 1 else acc)
  end.

Definition available_pages (a : PmmAllocator) (bm : bitmap) : outcome Z :=
  available_loop bm 0 (Z.to_nat (total_pages a)) 0.

(** The self-test [test], with the verdict it prints. *)
Inductive TestResult := AllocationFailed | ReallocationFailed | TestPassed.

Definition test (a : PmmAllocator) (bm : bitmap) : outcome (TestResult * bitmap) :=
  '(p1, bm) ← alloc a bm;
  '(p2, bm) ← alloc a bm;
  '(p3, bm) ← alloc a bm;
  if (p1 =? 0) || (p2 =? 0) || (p3 =? 0) then Ret (AllocationFailed, bm)
  else
    bm ← free a bm p2;
    '(p4, bm) ← alloc a bm;
    if negb (p4 =? p2) then Ret (ReallocationFailed, bm)
    else
      bm ← free a bm p1; bm ← free a bm p3; bm ← free a bm p4;
      Ret (TestPassed, bm).

(** ** Abstraction: which pages are in use *)

Definition used (bm : bitmap) (i : Z) : bool :=
  match bm !! Z.to_nat (i / 8) with
  | Some b => Z.testbit b (i mod 8)
  | None => true
  end.

Definition bm_wf (bm : bitmap) : Prop :=
  Z.of_nat (length bm) = BITMAP_SIZE ∧ Forall (λ b, 0 ≤ b < 2 ^ 8) bm.

(** The handle's range: page-aligned, off the null page, inside the bitmap and
    the address space.  [init] and [init_all_used] establish it. *)
Definition pmm_wf (a : PmmAllocator) : Prop :=
  0 ≤ total_pages a ≤ PMM_MAX_PAGES ∧
  0 < memory_start a ∧
  memory_start a + PMM_MAX_PAGES * PMM_PAGE_SIZE < 2 ^ 64.

Definition page_addr (a : PmmAllocator) (i : Z) : Z :=
  memory_start a + i * PMM_PAGE_SIZE.

Definition in_range (i : Z) : Prop := 0 ≤ i < PMM_MAX_PAGES.

Lemma byte_index (i : Z) :
  in_range i → 0 ≤ i / 8 < BITMAP_SIZE ∧ 0 ≤ i mod 8 < 8.
Proof.
  unfold in_range, PMM_MAX_PAGES. intros Hi. split.
  - change BITMAP_SIZE with 8192. split; [apply Z.div_pos; lia|].
    apply Z.div_lt_upper_bound; lia.
  - apply Z.mod_pos_bound. lia.
Qed.

Lemma bm_lookup bm i :
  bm_wf bm → in_range i →
  ∃ b, bm !! Z.to_nat (i / 8) = Some b ∧ 0 ≤ b < 2 ^ 8.
Proof.
  intros [Hlen Hall] [Hi _]%byte_index.
  destruct (index_in_range bm (i / 8)) as (b & Hb & _); [lia|].
  exists b. split; [done|].
  exact (Forall_lookup_1 _ bm _ b Hall Hb).
Qed.

Lemma pair_index (i j : Z) : i / 8 = j / 8 → i mod 8 = j mod 8 → i = j.
Proof. intros. rewrite (Z.div_mod i 8), (Z.div_mod j 8) by lia. congruence. Qed.

(** Bitmaps are determined by the pages in use. *)
Lemma bm_ext bm1 bm2 :
  bm_wf bm1 → bm_wf bm2 → (∀ i, in_range i → used bm1 i = used bm2 i) → bm1 = bm2.
Proof.
  intros [Hl1 Hw1] [Hl2 Hw2] H. apply (list_eq_same_length _ _ (length bm1));
    [lia|lia|].
  intros k x y Hk Hx Hy.
  rewrite Forall_lookup in Hw1, Hw2.
  apply (bits_ext 8); [lia|by eapply Hw1|by eapply Hw2|].
  intros n Hn.
  assert (in_range (8 * Z.of_nat k + n)) as Hr.
  { unfold in_range. change BITMAP_SIZE with 8192 in Hl1.
    unfold PMM_MAX_PAGES. lia. }
  specialize (H _ Hr). unfold used in H.
  replace ((8 * Z.of_nat k + n) / 8) with (Z.of_nat k) in H
    by (apply Z.div_unique with n; lia).
  replace ((8 * Z.of_nat k + n) mod 8) with n in H
    by (apply Z.mod_unique with (Z.of_nat k); lia).
  rewrite Nat2Z.id in H. by rewrite Hx, Hy in H.
Qed.

(** A byte rewritten at the index of page [i] changes page [i] only, when the
    new byte differs from the old one at the bit of [i] only. *)
Lemma used_store bm i b b' c :
  bm_wf bm → in_range i → bm !! Z.to_nat (i / 8) = Some b →
  0 ≤ b' < 2 ^ 8 →
  (∀ n, 0 ≤ n < 8 → Z.testbit b' n = if i mod 8 =? n then c else Z.testbit b n) →
  bm_wf (<[Z.to_nat (i / 8) := b']> bm) ∧
  ∀ j, in_range j →
    used (<[Z.to_nat (i / 8) := b']> bm) j = if i =? j then c else used bm j.
Proof.
  intros Hwf Hi Hb Hb' Hspec. pose proof (byte_index i Hi) as [Hi8 _].
  destruct Hwf as [Hlen Hall].
  split.
  { split; [by rewrite length_insert|]. by apply Forall_insert. }
  intros j Hj. pose proof (byte_index j Hj) as [Hj8 Hjm]. unfold used.
  destruct (decide (i / 8 = j / 8)) as [Heq|Hne].
  - rewrite <- Heq, list_lookup_insert_eq by lia. rewrite Hb, Hspec by done.
    destruct (i =? j) eqn:E; bool_arith.
    + subst. by rewrite Z.eqb_refl.
    + destruct (i mod 8 =? j mod 8) eqn:E2; bool_arith; [|done].
      exfalso. eauto using pair_index.
  - rewrite list_lookup_insert_ne by lia.
    destruct (i =? j) eqn:E; bool_arith; [|done]. by subst.
Qed.

Lemma bm_set_spec bm i :
  bm_wf bm → in_range i →
  ∃ bm', bm_set bm i = Ret bm' ∧ bm_wf bm' ∧
    ∀ j, in_range j → used bm' j = if i =? j then true else used bm j.
Proof.
  intros Hwf Hi. destruct (bm_lookup bm i Hwf Hi) as (b & Hb & Hbr).
  pose proof (byte_index i Hi) as [Hi8 Him].
  eexists. split.
  - unfold bm_set. rewrite (index_ret _ _ b) by done. simpl.
    apply store_in_range. destruct Hwf as [-> _]. lia.
  - apply (used_store _ _ b); try done; [by apply lor_bit_byte|].
    intros n Hn. rewrite lor_bit_spec by lia. by destruct (_ =? _).
Qed.

Lemma bm_clear_spec bm i :
  bm_wf bm → in_range i →
  ∃ bm', bm_clear bm i = Ret bm' ∧ bm_wf bm' ∧
    ∀ j, in_range j → used bm' j = if i =? j then false else used bm j.
Proof.
  intros Hwf Hi. destruct (bm_lookup bm i Hwf Hi) as (b & Hb & Hbr).
  pose proof (byte_index i Hi) as [Hi8 Him].
  eexists. split.
  - unfold bm_clear. rewrite (index_ret _ _ b) by done. simpl.
    apply store_in_range. destruct Hwf as [-> _]. lia.
  - apply (used_store _ _ b); try done; [by apply and_not_byte|].
    intros n Hn. rewrite and_not_bit_spec by lia. by destruct (_ =? _).
Qed.

Lemma page_addr_u64 a i : pmm_wf a → in_range i →
  u64 (page_addr a i) = page_addr a i ∧ 0 < page_addr a i.
Proof.
  unfold pmm_wf, in_range, page_addr, PMM_MAX_PAGES, PMM_PAGE_SIZE.
  intros (? & ? & ?) ?. split; [apply u64_small|]; lia.
Qed.

Lemma page_addr_inj a i j : page_addr a i = page_addr a j → i = j.
Proof. unfold page_addr, PMM_PAGE_SIZE. lia. Qed.

Lemma free_page a bm i :
  pmm_wf a → in_range i → free a bm (page_addr a i) = bm_clear bm i.
Proof.
  unfold pmm_wf, in_range, free, page_addr. intros (? & ? & ?) Hi.
  assert ((memory_start a + i * PMM_PAGE_SIZE - memory_start a) / PMM_PAGE_SIZE = i) as ->.
  { unfold PMM_PAGE_SIZE. rewrite Z.add_simpl_l. apply Z.div_mul. lia. }
  case_if; [unfold PMM_PAGE_SIZE in *; lia|].
  destruct (i >=? PMM_MAX_PAGES) eqn:E; [|done].
  unfold PMM_MAX_PAGES in *. lia.
Qed.

Lemma test_bit bm i b :
  in_range i → bm !! Z.to_nat (i / 8) = Some b →
  (Z.land b (bit (i mod 8)) =? 0) = negb (used bm i).
Proof.
  intros Hi Hb. unfold used. rewrite Hb. apply land_bit_eqb.
  by apply byte_index in Hi as [_ ?]; lia.
Qed.

Lemma alloc_loop_spec a bm n : ∀ i,
  bm_wf bm → 0 ≤ i → i + Z.of_nat n ≤ PMM_MAX_PAGES →
  (∃ k, i ≤ k < i + Z.of_nat n ∧ used bm k = false ∧
     (∀ j, i ≤ j < k → used bm j = true) ∧
     alloc_loop a bm i n = (bm' ← bm_set bm k; Ret (u64 (page_addr a k), bm'))) ∨
  ((∀ j, i ≤ j < i + Z.of_nat n → used bm j = true) ∧ alloc_loop a bm i n = Ret (0, bm)).
Proof.
  induction n as [|n IH]; intros i Hwf Hi Hn; simpl.
  { right. split; [lia|done]. }
  assert (in_range i) as Hr by (unfold in_range; lia).
  destruct (bm_lookup bm i Hwf Hr) as (b & Hb & _).
  rewrite (index_ret _ _ b) by done. simpl. rewrite (test_bit _ _ b) by done.
  destruct (used bm i) eqn:Eu; simpl.
  - destruct (IH (i + 1)) as [(k & Hk & Hf & Hlt & ->)|[Hall ->]];
      [done|lia|lia| |].
    + left. exists k. split; [lia|]. split; [done|]. split; [|done].
      intros j Hj. destruct (decide (j = i)) as [->|]; [done|]. apply Hlt. lia.
    + right. split; [|done]. intros j Hj.
      destruct (decide (j = i)) as [->|]; [done|]. apply Hall. lia.
  - left. exists i. split; [lia|]. split; [done|]. split; [lia|done].
Qed.

(** [bm] is [bm0] with the pages of [lo, hi) taken. *)
Definition taken (bm0 : bitmap) (lo hi : Z) (bm : bitmap) : Prop :=
  bm_wf bm ∧
  ∀ j, in_range j → used bm j = ((lo <=? j) && (j <? hi)) || used bm0 j.

Lemma taken_set bm0 lo hi bm bm' :
  taken bm0 lo hi bm → lo ≤ hi → in_range hi → bm_set bm hi = Ret bm' →
  taken bm0 lo (hi + 1) bm'.
Proof.
  intros [Hwf Hu] Hle Hr Hset. destruct (bm_set_spec bm hi) as (bm'' & E & Hwf' & Hu');
    [done..|]. rewrite E in Hset. simplify_eq.
  split; [done|]. intros j Hj. rewrite Hu', Hu by done.
  zcases.
Qed.

Lemma alloc_cases a bm :
  pmm_wf a → bm_wf bm →
  (∃ k bm', 0 ≤ k < total_pages a ∧ used bm k = false ∧
     (∀ j, 0 ≤ j < k → used bm j = true) ∧
     alloc a bm = Ret (page_addr a k, bm') ∧ bm_set bm k = Ret bm' ∧
     taken bm k (k + 1) bm') ∨
  ((∀ j, 0 ≤ j < total_pages a → used bm j = true) ∧ alloc a bm = Ret (0, bm)).
Proof.
  intros Ha Hwf. pose proof Ha as (Ht & _).
  destruct (alloc_loop_spec a bm (Z.to_nat (total_pages a)) 0)
    as [(k & Hk & Hf & Hlt & E)|[Hall E]]; [done|lia|lia| |].
  - left. assert (in_range k) as Hr by (unfold in_range; lia).
    destruct (bm_set_spec bm k) as (bm' & Es & Hwf' & Hu); [done..|].
    exists k, bm'. split; [lia|]. split; [done|]. split; [done|]. split; [|split; [done|]].
    + unfold alloc. rewrite E, Es. simpl. by rewrite (proj1 (page_addr_u64 a k Ha Hr)).
    + split; [done|]. intros j Hj. rewrite Hu by done.
      zcases.
  - right. split; [|done]. intros j Hj. apply Hall. lia.
Qed.

Lemma free_run_spec a k n : ∀ bm j,
  pmm_wf a → bm_wf bm → 0 ≤ k → 0 ≤ j → k + j + Z.of_nat n ≤ PMM_MAX_PAGES →
  ∃ bm', free_run a bm (page_addr a k) j n = Ret bm' ∧ bm_wf bm' ∧
    ∀ x, in_range x →
      used bm' x = if (k + j <=? x) && (x <? k + j + Z.of_nat n) then false else used bm x.
Proof.
  induction n as [|n IH]; intros bm j Ha Hwf Hk Hj Hn; simpl.
  { exists bm. split; [done|]. split; [done|]. intros x Hx.
    zcases. }
  assert (in_range (k + j)) as Hr by (unfold in_range; lia).
  replace (page_addr a k + j * PMM_PAGE_SIZE) with (page_addr a (k + j))
    by (unfold page_addr; lia).
  rewrite (proj1 (page_addr_u64 a _ Ha Hr)), free_page by done.
  destruct (bm_clear_spec bm (k + j)) as (bm1 & -> & Hwf1 & Hu1); [done..|]. simpl.
  destruct (IH bm1 (j + 1)) as (bm2 & -> & Hwf2 & Hu2); [done|done|lia|lia|lia|].
  exists bm2. split; [done|]. split; [done|]. intros x Hx. rewrite Hu2, Hu1 by done.
  destruct (k + j =? x) eqn:E0, (k + j <=? x) eqn:E1, (k + (j + 1) <=? x) eqn:E2,
    (x <? k + (j + 1) + Z.of_nat n) eqn:E3, (x <? k + j + Z.of_nat (S n)) eqn:E4;
    bool_arith; simpl; try done; lia.
Qed.

(** The rollback of [alloc_pages] after [i] pages from [k] were taken. *)
Lemma rollback_run a bm0 bm k i :
  pmm_wf a → bm_wf bm0 → 0 ≤ k → 0 ≤ i → k + i ≤ PMM_MAX_PAGES →
  (∀ j, k ≤ j < k + i → used bm0 j = false) →
  taken bm0 k (k + i) bm →
  free_run a bm (page_addr a k) 0 (Z.to_nat i) = Ret bm0.
Proof.
  intros Ha Hwf0 Hk Hi Hle Hfree [Hwf Hu].
  destruct (free_run_spec a k (Z.to_nat i) bm 0) as (bm' & -> & Hwf' & Hu');
    [done|done|lia|lia|lia|].
  f_equal. apply bm_ext; [done..|]. intros x Hx. rewrite Hu', Hu by done.
  rewrite Z.add_0_r, Z2Nat.id by lia.
  zcases.
  by rewrite Hfree.
Qed.

(** All of [lo, hi) is free in [bm]. *)
Definition run_free (a : PmmAllocator) (bm : bitmap) (lo hi : Z) : Prop :=
  hi ≤ total_pages a ∧ ∀ j, lo ≤ j < hi → used bm j = false.

Lemma alloc_more_spec a bm0 k n : ∀ bm i,
  pmm_wf a → bm_wf bm0 → 0 ≤ k → 0 ≤ i → k + i ≤ total_pages a →
  (∀ j, 0 ≤ j < k → used bm0 j = true) →
  (∀ j, k ≤ j < k + i → used bm0 j = false) →
  taken bm0 k (k + i) bm →
  (run_free a bm0 k (k + i + Z.of_nat n) ∧
   ∃ bm', alloc_more a bm (page_addr a k) i n = Ret (page_addr a k, bm') ∧
     taken bm0 k (k + i + Z.of_nat n) bm') ∨
  (¬ run_free a bm0 k (k + i + Z.of_nat n) ∧
   alloc_more a bm (page_addr a k) i n = Ret (0, bm0)).
Proof.
  induction n as [|n IH]; intros bm i Ha Hwf0 Hk Hi Hle Hlow Hrun Htk; simpl.
  { left. rewrite Z.add_0_r. split; [by split|]. by exists bm. }
  pose proof Ha as (Ht & _). pose proof Htk as [Hwf Hu].
  replace (page_addr a k + i * PMM_PAGE_SIZE) with (page_addr a (k + i))
    by (unfold page_addr; lia).
  destruct (alloc_cases a bm Ha Hwf) as [(k' & bm1 & Hk' & Hf & Hlt & -> & Hset & Htk1)|[Hall ->]];
    simpl.
  - assert (in_range k') as Hr' by (unfold in_range; lia).
    pose proof (page_addr_u64 a k' Ha Hr') as [_ Hpos].
    assert (k + i ≤ k' ∧ used bm0 k' = false) as [Hge Hf0].
    { rewrite Hu in Hf by done. apply orb_false_iff in Hf as [Hf1 Hf2].
      split; [|done]. destruct (decide (k' < k)) as [Hc|Hc].
      - rewrite Hlow in Hf2 by lia. done.
      - destruct (k <=? k') eqn:E1, (k' <? k + i) eqn:E2; bool_arith; simpl in *; lia || done. }
    assert (in_range (k + i)) as Hr by (unfold in_range; lia).
    rewrite (proj1 (page_addr_u64 a _ Ha Hr)).
    destruct (page_addr a k' =? 0) eqn:E0; bool_arith; [lia|]. simpl.
    destruct (page_addr a k' =? page_addr a (k + i)) eqn:E1; bool_arith; simpl.
    + apply page_addr_inj in E1. subst k'.
      destruct (IH bm1 (i + 1)) as [[Hrf (bm' & -> & Htk')]|[Hnf ->]]; try done; try lia.
      * intros j Hj. destruct (decide (j = k + i)) as [->|]; [done|]. apply Hrun. lia.
      * replace (k + (i + 1)) with (k + i + 1) by lia.
        apply (taken_set bm0 k (k + i) bm bm1); [done|lia|done|done].
      * left. replace (k + i + Z.of_nat (S n)) with (k + (i + 1) + Z.of_nat n) by lia.
        split; [done|]. by exists bm'.
      * right. by replace (k + i + Z.of_nat (S n)) with (k + (i + 1) + Z.of_nat n) by lia.
    + right. split.
      { intros [Htot Hfr]. specialize (Hlt (k + i)).
        destruct (decide (k' = k + i)) as [->|]; [done|].
        assert (used bm (k + i) = true) as Hc by (apply Hlt; lia).
        rewrite Hu in Hc by done.
        assert (used bm0 (k + i) = false) as Hc2 by (apply Hfr; lia).
        rewrite Hc2, orb_false_r in Hc. bool_arith. lia. }
      rewrite free_page by done.
      destruct (bm_clear_spec bm1 k') as (bm2 & -> & Hwf2 & Hu2);
        [by apply Htk1|done|]. simpl.
      assert (bm2 = bm) as ->.
      { apply bm_ext; [done|done|]. intros x Hx. rewrite Hu2, (proj2 Htk1) by done.
        zcases. subst. by rewrite Hf. }
      rewrite (rollback_run a bm0 bm k i); try done. lia.
  - right. split.
    { intros [Htot Hfr].
      assert (used bm (k + i) = true) as Hc by (apply Hall; lia).
      assert (in_range (k + i)) as Hr by (unfold in_range; lia).
      rewrite Hu in Hc by done. rewrite (Hfr (k + i)), orb_false_r in Hc by lia.
      bool_arith. lia. }
    rewrite (rollback_run a bm0 bm k i); try done. lia.
Qed.

Lemma set_range_spec n : ∀ bm from,
  bm_wf bm → 0 ≤ from → from + Z.of_nat n ≤ PMM_MAX_PAGES →
  ∃ bm', set_range bm from n = Ret bm' ∧ taken bm from (from + Z.of_nat n) bm'.
Proof.
  induction n as [|n IH]; intros bm from Hwf Hf Hn; simpl.
  { exists bm. split; [done|]. split; [done|]. intros j Hj.
    zcases. }
  destruct (bm_set_spec bm from) as (bm1 & -> & Hwf1 & Hu1); [done|unfold in_range; lia|].
  simpl. destruct (IH bm1 (from + 1)) as (bm2 & -> & Hwf2 & Hu2); [done|lia|lia|].
  exists bm2. split; [done|]. split; [done|]. intros j Hj. rewrite Hu2, Hu1 by done.
  destruct (from =? j) eqn:E0, (from <=? j) eqn:E1, (from + 1 <=? j) eqn:E2,
    (j <? from + 1 + Z.of_nat n) eqn:E3, (j <? from + Z.of_nat (S n)) eqn:E4;
    bool_arith; simpl; try done; lia.
Qed.

Lemma clear_range_spec n : ∀ bm from,
  bm_wf bm → 0 ≤ from → from + Z.of_nat n ≤ PMM_MAX_PAGES →
  ∃ bm', clear_range bm from n = Ret bm' ∧ bm_wf bm' ∧
    ∀ j, in_range j →
      used bm' j = negb ((from <=? j) && (j <? from + Z.of_nat n)) && used bm j.
Proof.
  induction n as [|n IH]; intros bm from Hwf Hf Hn; simpl.
  { exists bm. split; [done|]. split; [done|]. intros j Hj.
    zcases. }
  destruct (bm_clear_spec bm from) as (bm1 & -> & Hwf1 & Hu1); [done|unfold in_range; lia|].
  simpl. destruct (IH bm1 (from + 1)) as (bm2 & -> & Hwf2 & Hu2); [done|lia|lia|].
  exists bm2. split; [done|]. split; [done|]. intros j Hj. rewrite Hu2, Hu1 by done.
  destruct (from =? j) eqn:E0, (from <=? j) eqn:E1, (from + 1 <=? j) eqn:E2,
    (j <? from + 1 + Z.of_nat n) eqn:E3, (j <? from + Z.of_nat (S n)) eqn:E4;
    bool_arith; simpl; try done; lia.
Qed.

Lemma fill_wf bm b : 0 ≤ b < 2 ^ 8 → bm_wf bm → bm_wf ((λ _, b) <$> bm).
Proof.
  intros Hb [Hl _]. split; [by rewrite length_fmap|].
  apply Forall_fmap, Forall_true. intros. done.
Qed.

Lemma clamp_pages_range start stop : 0 ≤ clamp_pages start stop ≤ PMM_MAX_PAGES.
Proof.
  unfold clamp_pages. pose proof (u64_range (stop - start)).
  assert (0 ≤ u64 (stop - start) / PMM_PAGE_SIZE) by (apply Z.div_pos; [lia|done]).
  destruct (_ >? _) eqn:E; unfold PMM_MAX_PAGES in *; lia.
Qed.

(** The number of whole pages a region touches, when it lies inside the bitmap. *)
Lemma region_end_inside a base size :
  pmm_wf a → memory_start a ≤ base → 0 < size →
  base + size ≤ page_addr a PMM_MAX_PAGES →
  region_end a base size = (base + size - 1 - memory_start a) / PMM_PAGE_SIZE ∧
  (base - memory_start a) / PMM_PAGE_SIZE ≤ region_end a base size < PMM_MAX_PAGES.
Proof.
  unfold pmm_wf, page_addr, region_end. intros (_ & Hs & Hhi) Hb Hsz Hin.
  destruct (size =? 0) eqn:E0; bool_arith; [lia|].
  rewrite u64_small by (unfold PMM_MAX_PAGES, PMM_PAGE_SIZE in *; lia).
  replace (base - memory_start a + size - 1) with (base + size - 1 - memory_start a) by lia.
  assert ((base + size - 1 - memory_start a) / PMM_PAGE_SIZE < PMM_MAX_PAGES) as Hlt.
  { apply Z.div_lt_upper_bound; [done|]. unfold PMM_MAX_PAGES, PMM_PAGE_SIZE in *. lia. }
  assert ((base - memory_start a) / PMM_PAGE_SIZE
          ≤ (base + size - 1 - memory_start a) / PMM_PAGE_SIZE) as Hle
    by (apply Z.div_le_mono; [done|lia]).
  destruct (_ >=? _) eqn:E1; [lia|]. done.
Qed.

(** Page [j] meets the byte range [base, base+size). *)
Definition touches (a : PmmAllocator) (base size j : Z) : bool :=
  (page_addr a j <? base + size) && (base <? page_addr a (j + 1)).

Lemma touches_iff a base size j :
  memory_start a ≤ base → 0 < size →
  touches a base size j =
    ((base - memory_start a) / PMM_PAGE_SIZE <=? j) &&
    (j <? (base + size - 1 - memory_start a) / PMM_PAGE_SIZE + 1).
Proof.
  intros Hb Hs. unfold touches, page_addr, PMM_PAGE_SIZE.
  rewrite andb_comm. f_equal; apply eq_true_iff_eq.
  - rewrite Z.ltb_lt, Z.leb_le. split; intros H.
    + assert ((base - memory_start a) / 4096 < j + 1); [|lia].
      apply Z.div_lt_upper_bound; lia.
    + pose proof (Z.div_mod (base - memory_start a) 4096).
      pose proof (Z.mod_pos_bound (base - memory_start a) 4096). lia.
  - rewrite !Z.ltb_lt. split; intros H.
    + assert (j ≤ (base + size - 1 - memory_start a) / 4096); [|lia].
      apply Z.div_le_lower_bound; lia.
    + pose proof (Z.div_mod (base + size - 1 - memory_start a) 4096).
      pose proof (Z.mod_pos_bound (base + size - 1 - memory_start a) 4096). lia.
Qed.

Lemma init_region_inside a bm base size :
  pmm_wf a → bm_wf bm → memory_start a ≤ base → 0 < size →
  base + size ≤ page_addr a PMM_MAX_PAGES →
  ∃ bm', init_region a bm base size = Ret bm' ∧ bm_wf bm' ∧
    ∀ j, in_range j → used bm' j = negb (touches a base size j) && used bm j.
Proof.
  intros Ha Hwf Hb Hs Hin.
  destruct (region_end_inside a base size) as [He Her]; [done..|].
  unfold init_region. case_if; [lia|].
  assert (0 ≤ (base - memory_start a) / PMM_PAGE_SIZE) by (apply Z.div_pos; [lia|done]).
  destruct (clear_range_spec
      (Z.to_nat (region_end a base size + 1 - (base - memory_start a) / PMM_PAGE_SIZE))
      bm ((base - memory_start a) / PMM_PAGE_SIZE)) as (bm' & -> & Hwf' & Hu);
    [done|lia|lia|].
  exists bm'. split; [done|]. split; [done|]. intros j Hj. rewrite Hu by done.
  rewrite touches_iff, <- He by done.
  replace (_ + Z.of_nat _) with (region_end a base size + 1) by lia. done.
Qed.

Lemma alloc_pages_cases a bm count :
  pmm_wf a → bm_wf bm → 0 < count →
  (∃ k bm', 0 ≤ k ∧ (∀ j, 0 ≤ j < k → used bm j = true) ∧
     k + count ≤ total_pages a ∧ (∀ j, k ≤ j < k + count → used bm j = false) ∧
     alloc_pages a bm count = Ret (page_addr a k, bm') ∧ bm_wf bm' ∧
     ∀ j, in_range j → used bm' j = ((k <=? j) && (j <? k + count)) || used bm j) ∨
  (alloc_pages a bm count = Ret (0, bm) ∧
   ∀ k, 0 ≤ k → (∀ j, 0 ≤ j < k → used bm j = true) →
     ¬ (k + count ≤ total_pages a ∧ ∀ j, k ≤ j < k + count → used bm j = false)).
Proof.
  intros Ha Hbm Hc.   unfold alloc_pages. destruct (Z.eqb_spec count 0); [lia|].
  destruct (alloc_cases a bm Ha Hbm) as [(k & bm1 & Hk & Hf & Hlow & -> & _ & Htk)|[Hall ->]];
    simpl.
  - pose proof Ha as (Ht & _).
    pose proof (page_addr_u64 a k Ha ltac:(unfold in_range; lia)) as [_ Hpos].
    destruct (Z.eqb_spec (page_addr a k) 0); [lia|].
    destruct (alloc_more_spec a bm k (Z.to_nat (count - 1)) bm1 1)
      as [[[Htot Hfr] (bm' & -> & Hwf' & Hu')]|[Hnf ->]]; try done; try lia.
    + intros j Hj. by replace j with k by lia.
    + rewrite Z2Nat.id in Htot, Hfr, Hu' by lia.
      replace (k + 1 + (count - 1)) with (k + count) in Htot, Hfr, Hu' by lia.
      left. exists k, bm'. split; [lia|]. done.
    + right. split; [done|]. rewrite Z2Nat.id in Hnf by lia.
      replace (k + 1 + (count - 1)) with (k + count) in Hnf by lia.
      intros k' Hk' Hlow' [Htot Hfr].
      assert (k' = k) as ->; [|by apply Hnf].
      destruct (Z.lt_trichotomy k' k) as [Hlt|[|Hgt]]; [|done|].
      * specialize (Hfr k' ltac:(lia)). by rewrite Hlow in Hfr by lia.
      * by rewrite Hlow' in Hf by lia.
  - right. split; [done|]. intros k Hk Hlow [Htot Hfr].
    specialize (Hfr k ltac:(lia)). by rewrite Hall in Hfr by lia.
Qed.

(** ** Properties *)

(** C11: [alloc] never panics; it returns the address of the lowest free page of
    the range and marks that page and no other, or, exactly when every page of
    the range is in use, returns null and leaves the bitmap alone. *)
Theorem alloc_spec (a : PmmAllocator) (bm : bitmap) (Ha : pmm_wf a) (Hbm : bm_wf bm) :
  (∃ k bm', 0 ≤ k < total_pages a ∧ used bm k = false ∧
     (∀ j, 0 ≤ j < k → used bm j = true) ∧
     alloc a bm = Ret (page_addr a k, bm') ∧ page_addr a k ≠ 0 ∧ bm_wf bm' ∧
     ∀ j, in_range j → used bm' j = (k =? j) || used bm j) ∨
  ((∀ j, 0 ≤ j < total_pages a → used bm j = true) ∧ alloc a bm = Ret (0, bm)).
Proof.
  destruct (alloc_cases a bm Ha Hbm) as [(k & bm' & Hk & Hf & Hlt & E & _ & Hwf & Hu)|H];
    [left|by right].
  pose proof Ha as (Ht & _).
  pose proof (page_addr_u64 a k Ha ltac:(unfold in_range; lia)) as [_ Hpos].
  exists k, bm'. split; [done|]. split; [done|]. split; [done|]. split; [done|].
  split; [lia|]. split; [done|]. intros j Hj. rewrite Hu by done. zcases.
Qed.

(** A range of four pages and a bitmap whose page 0 is taken. *)
Definition demo_pmm : PmmAllocator := mkPmm 4 1048576.
Definition demo_bm (b : Z) : bitmap := b :: replicate (Z.to_nat 8191) 0.

Lemma demo_pmm_wf : pmm_wf demo_pmm.
Proof. vm_compute. repeat split; discriminate || reflexivity. Qed.

Lemma demo_bm_wf b : 0 ≤ b < 2 ^ 8 → bm_wf (demo_bm b).
Proof.
  intros Hb. unfold bm_wf, demo_bm. rewrite length_cons, length_replicate.
  split; [done|]. constructor; [done|]. apply Forall_replicate. lia.
Qed.

Lemma alloc_spec_witness :
  alloc demo_pmm (demo_bm 1) = Ret (1052672, demo_bm 3) ∧
  ((∃ k bm', 0 ≤ k < total_pages demo_pmm ∧ used (demo_bm 1) k = false ∧
     (∀ j, 0 ≤ j < k → used (demo_bm 1) j = true) ∧
     alloc demo_pmm (demo_bm 1) = Ret (page_addr demo_pmm k, bm') ∧
     page_addr demo_pmm k ≠ 0 ∧ bm_wf bm' ∧
     ∀ j, in_range j → used bm' j = (k =? j) || used (demo_bm 1) j) ∨
  ((∀ j, 0 ≤ j < total_pages demo_pmm → used (demo_bm 1) j = true) ∧
   alloc demo_pmm (demo_bm 1) = Ret (0, demo_bm 1))).
Proof.
  split; [vm_compute; reflexivity|].
  apply (alloc_spec demo_pmm (demo_bm 1)); [apply demo_pmm_wf|apply demo_bm_wf; lia].
Defined.

(** A page handed out by [alloc] and given back with [free] leaves the
    bitmap exactly as it was. *)
Theorem alloc_free_roundtrip (a : PmmAllocator) (bm bm' : bitmap) (p : Z)
    (Ha : pmm_wf a) (Hbm : bm_wf bm) (Hp : alloc a bm = Ret (p, bm')) (Hnn : p ≠ 0) :
  free a bm' p = Ret bm.
Proof.
  destruct (alloc_cases a bm Ha Hbm) as [(k & bm1 & Hk & Hf & _ & E & _ & Htk)|[_ E]];
    rewrite E in Hp; simplify_eq.
  pose proof Ha as (Ht & _).
  assert (in_range k) as Hr by (unfold in_range; lia).
  rewrite free_page by done.
  destruct (bm_clear_spec bm' k) as (bm2 & -> & Hwf2 & Hu2); [apply Htk|done|].
  f_equal. apply bm_ext; [done..|]. intros x Hx.
  rewrite Hu2, (proj2 Htk) by done. zcases. by subst.
Qed.

Lemma alloc_free_roundtrip_witness :
  free demo_pmm (demo_bm 3) 1052672 = Ret (demo_bm 1).
Proof.
  apply (alloc_free_roundtrip demo_pmm (demo_bm 1) (demo_bm 3) 1052672);
    [apply demo_pmm_wf|apply demo_bm_wf; lia|vm_compute; reflexivity|lia].
Defined.

(** [alloc_pages] for a positive count, on every branch.  With [k] the lowest
    free page: when the [count] pages from [k] are all free and in range it returns
    the address of [k] and takes exactly those pages; otherwise, and when no page
    is free, it returns null and the rollback restores the bitmap bit for bit. *)
Theorem alloc_pages_spec (a : PmmAllocator) (bm : bitmap) (count : Z)
    (Ha : pmm_wf a) (Hbm : bm_wf bm) (Hc : 0 < count) :
  (∃ k bm', 0 ≤ k ∧ (∀ j, 0 ≤ j < k → used bm j = true) ∧
     k + count ≤ total_pages a ∧ (∀ j, k ≤ j < k + count → used bm j = false) ∧
     alloc_pages a bm count = Ret (page_addr a k, bm') ∧ bm_wf bm' ∧
     ∀ j, in_range j → used bm' j = ((k <=? j) && (j <? k + count)) || used bm j) ∨
  (alloc_pages a bm count = Ret (0, bm) ∧
   ∀ k, 0 ≤ k → (∀ j, 0 ≤ j < k → used bm j = true) →
     ¬ (k + count ≤ total_pages a ∧ ∀ j, k ≤ j < k + count → used bm j = false)).
Proof. by apply alloc_pages_cases. Qed.

Lemma alloc_pages_spec_witness :
  alloc_pages demo_pmm (demo_bm 1) 2 = Ret (1052672, demo_bm 7) ∧
  ((∃ k bm', 0 ≤ k ∧ (∀ j, 0 ≤ j < k → used (demo_bm 1) j = true) ∧
     k + 2 ≤ total_pages demo_pmm ∧ (∀ j, k ≤ j < k + 2 → used (demo_bm 1) j = false) ∧
     alloc_pages demo_pmm (demo_bm 1) 2 = Ret (page_addr demo_pmm k, bm') ∧ bm_wf bm' ∧
     ∀ j, in_range j → used bm' j = ((k <=? j) && (j <? k + 2)) || used (demo_bm 1) j) ∨
  (alloc_pages demo_pmm (demo_bm 1) 2 = Ret (0, demo_bm 1) ∧
   ∀ k, 0 ≤ k → (∀ j, 0 ≤ j < k → used (demo_bm 1) j = true) →
     ¬ (k + 2 ≤ total_pages demo_pmm ∧
        ∀ j, k ≤ j < k + 2 → used (demo_bm 1) j = false))).
Proof.
  split; [vm_compute; reflexivity|].
  apply (alloc_pages_spec demo_pmm (demo_bm 1) 2); [apply demo_pmm_wf|apply demo_bm_wf; lia|lia].
Defined.

(** [alloc_pages] looks at the run from the lowest free page only: with page 0
    free, page 1 taken and pages 2 and 3 free it answers null for two pages, with
    the bitmap restored, although a run of two free pages exists. *)
Theorem alloc_pages_misses_later_run :
  alloc_pages demo_pmm (demo_bm 2) 2 = Ret (0, demo_bm 2) ∧
  used (demo_bm 2) 2 = false ∧ used (demo_bm 2) 3 = false ∧ 2 + 2 ≤ total_pages demo_pmm.
Proof. vm_compute. repeat split; discriminate. Qed.

Lemma init_all_used_wf start stop bm :
  bm_wf bm → 0 < start → start + PMM_MAX_PAGES * PMM_PAGE_SIZE < 2 ^ 64 →
  pmm_wf (init_all_used start stop bm).1 ∧ bm_wf (init_all_used start stop bm).2 ∧
  ∀ j, in_range j → used (init_all_used start stop bm).2 j = true.
Proof.
  intros Hwf Hs Hhi. simpl.
  split; [split; [apply clamp_pages_range|done]|].
  split; [apply fill_wf; [lia|done]|].
  intros j Hj. destruct (bm_lookup bm j Hwf Hj) as (b & Hb & _). unfold used.
  rewrite list_lookup_fmap, Hb. simpl. apply byte_index in Hj as [_ Hm].
  change 255 with (Z.ones 8). rewrite Z.testbit_ones_nonneg by lia. zcases.
Qed.

(** ** The self-test and the reservation *)

(** [alloc_cases] with the bitmap after it by the page taken. *)
Lemma alloc_take a bm : pmm_wf a → bm_wf bm →
  (∃ k bm', 0 ≤ k < total_pages a ∧ used bm k = false ∧ (∀ j, 0 ≤ j < k → used bm j = true) ∧
     alloc a bm = Ret (page_addr a k, bm') ∧ (page_addr a k =? 0) = false ∧ bm_wf bm' ∧ ∀ j, in_range j → used bm' j = (k =? j) || used bm j) ∨
  ((∀ j, 0 ≤ j < total_pages a → used bm j = true) ∧ alloc a bm = Ret (0, bm)).
Proof.
  intros Ha Hwf. destruct (alloc_cases a bm Ha Hwf) as [(k & bm' & Hk & Hf & Hl & E & _ & Hwf' & Hu)|]; [left|by right].
  exists k, bm'. split; [done|]. split; [done|]. split; [done|]. split; [done|]. split; [|split; [done|]].
  - apply Z.eqb_neq. pose proof Ha as (? & _). pose proof (page_addr_u64 a k Ha ltac:(unfold in_range; lia)). lia.
  - intros j Hj. rewrite Hu by done. f_equal. zcases.
Qed.

(** With three free pages the test passes and leaves the bitmap as it was. *)
Lemma test_ok a bm : pmm_wf a → bm_wf bm →
  (∃ k1 k2 k3, 0 ≤ k1 < k2 ∧ k2 < k3 < total_pages a ∧ used bm k1 = false ∧ used bm k2 = false ∧ used bm k3 = false) →
  test a bm = Ret (TestPassed, bm).
Proof.
  intros Ha Hwf (k1 & k2 & k3 & H1 & H2 & F1 & F2 & F3). pose proof Ha as (Ht & _). unfold test.
  assert (∀ k, 0 ≤ k < total_pages a → in_range k) as Hr by (unfold in_range; lia).
  destruct (alloc_take a bm Ha Hwf) as [(i1 & b1 & I1 & G1 & L1 & -> & N1 & Hw1 & U1)|[Hall _]]; [|rewrite Hall in F1; [done|lia]].
  cbn [mbind outcome_bind].
  destruct (alloc_take a b1 Ha Hw1) as [(i2 & b2 & I2 & G2 & L2 & -> & N2 & Hw2 & U2)|[Hall _]].
  2:{ pose proof (Hall k1 ltac:(lia)) as A1. pose proof (Hall k2 ltac:(lia)) as A2. rewrite U1 in A1, A2 by (apply Hr; lia).
      rewrite F1 in A1. rewrite F2 in A2. revert A1 A2. zcases. }
  cbn [mbind outcome_bind].
  destruct (alloc_take a b2 Ha Hw2) as [(i3 & b3 & I3 & G3 & L3 & -> & N3 & Hw3 & U3)|[Hall _]].
  2:{ pose proof (Hall k1 ltac:(lia)) as A1. pose proof (Hall k2 ltac:(lia)) as A2. pose proof (Hall k3 ltac:(lia)) as A3.
      rewrite U2, U1 in A1, A2, A3 by (apply Hr; lia). rewrite F1 in A1. rewrite F2 in A2. rewrite F3 in A3. revert A1 A2 A3. zcases. }
  cbn [mbind outcome_bind]. rewrite N1, N2, N3. cbn [orb]. rewrite free_page by auto.
  destruct (bm_clear_spec b3 i2 Hw3 (Hr i2 I2)) as (b4 & -> & Hw4 & U4). cbn [mbind outcome_bind].
  assert (used b4 i2 = false) as F4 by (rewrite U4 by auto; by rewrite Z.eqb_refl).
  destruct (alloc_take a b4 Ha Hw4) as [(i4 & b5 & I4 & G4 & L4 & -> & N4 & Hw5 & U5)|[Hall _]]; [|rewrite Hall in F4; done].
  cbn [mbind outcome_bind]. assert (i4 = i2) as ->.
  { destruct (Z.lt_trichotomy i4 i2) as [Hlt|[->|Hlt]]; [|done|rewrite L4 in F4; [done|lia]].
    rewrite U4, U3, U2, L2 in G4 by (lia || (apply Hr; lia)). rewrite !orb_true_r in G4. revert G4. zcases. }
  rewrite Z.eqb_refl. cbn [negb]. rewrite free_page by auto.
  destruct (bm_clear_spec b5 i1 Hw5 (Hr i1 I1)) as (b6 & -> & Hw6 & U6). cbn [mbind outcome_bind].
  rewrite free_page by auto. destruct (bm_clear_spec b6 i3 Hw6 (Hr i3 I3)) as (b7 & -> & Hw7 & U7). cbn [mbind outcome_bind].
  rewrite free_page by auto. destruct (bm_clear_spec b7 i2 Hw7 (Hr i2 I2)) as (b8 & -> & Hw8 & U8). cbn [mbind outcome_bind].
  do 2 f_equal. apply bm_ext; [done|done|]. intros j Hj. rewrite U8, U7, U6, U5, U4, U3, U2, U1 by done.
  rewrite U2, U1 in G3 by auto. rewrite U1 in G2 by auto. apply orb_false_elim in G3 as [_ [_ G3]%orb_false_elim]. apply orb_false_elim in G2 as [_ G2].
  destruct (Z.eqb_spec i1 j) as [->|], (Z.eqb_spec i2 j) as [->|], (Z.eqb_spec i3 j) as [->|]; by rewrite ?G1, ?G2, ?G3.
Qed.

Lemma reserve_inside a bm base size : pmm_wf a → bm_wf bm → memory_start a ≤ base → 0 < size →
  base + size ≤ page_addr a PMM_MAX_PAGES →
  ∃ bm', reserve a bm base size = Ret bm' ∧ bm_wf bm' ∧ ∀ j, in_range j → used bm' j = touches a base size j || used bm j.
Proof.
  intros Ha Hwf Hb Hs Hin. destruct (region_end_inside a base size) as [He Her]; [done..|].
  unfold reserve. case_if; [lia|].
  assert (0 ≤ (base - memory_start a) / PMM_PAGE_SIZE) by (apply Z.div_pos; [lia|done]).
  destruct (set_range_spec (Z.to_nat (region_end a base size + 1 - (base - memory_start a) / PMM_PAGE_SIZE))
      bm ((base - memory_start a) / PMM_PAGE_SIZE)) as (bm' & -> & Hwf' & Hu); [done|lia|lia|].
  exists bm'. split; [done|]. split; [done|]. intros j Hj. rewrite Hu by done.
  rewrite touches_iff, <- He by done. by replace (_ + Z.of_nat _) with (region_end a base size + 1) by lia.
Qed.
