(* ===== verification/PmmCalls.v ===== *)
(** * Any sequence of calls on the page manager

    The operations of [PmmAllocator] as calls with arguments of their machine types, run one after
    another.  Whatever the arguments, the bitmap stays an array of 8192 bytes and every answer is
    of the kind its caller relies on; the one exception is an empty region behind the bitmap. *)

From Stdlib Require Import ZArith Lia.
From stdpp Require Import base numbers list option.
From S2P Require Import Prelude Pmm.

Local Open Scope Z_scope.

Inductive pmm_call :=
  | CallAlloc
  | CallAllocPages (count : Z)
  | CallFree (addr : Z)
  | CallReserve (base size : Z)
  | CallInitRegion (base size : Z)
  | CallAvailable
  | CallTest.

(** The answers: an address, a number of pages, a verdict, or nothing. *)
Inductive pmm_answer := AnAddress (p : Z) | ACount (n : Z) | AVerdict (r : TestResult) | NoAnswer.

Definition pmm_step (a : PmmAllocator) (bm : bitmap) (c : pmm_call) : outcome (pmm_answer * bitmap) :=
  match c with
  | CallAlloc => '(p, bm) ← alloc a bm; Ret (AnAddress p, bm)
  | CallAllocPages count => '(p, bm) ← alloc_pages a bm count; Ret (AnAddress p, bm)
  | CallFree addr => bm ← free a bm addr; Ret (NoAnswer, bm)
  | CallReserve base size => bm ← reserve a bm base size; Ret (NoAnswer, bm)
  | CallInitRegion base size => bm ← init_region a bm base size; Ret (NoAnswer, bm)
  | CallAvailable => n ← available_pages a bm; Ret (ACount n, bm)
  | CallTest => '(r, bm) ← test a bm; Ret (AVerdict r, bm)
  end.

Fixpoint pmm_run (a : PmmAllocator) (bm : bitmap) (cs : list pmm_call) : outcome (list pmm_answer * bitmap) :=
  match cs with
  | [] => Ret ([], bm)
  | c :: cs =>
      '(r, bm) ← pmm_step a bm c;
      '(rs, bm) ← pmm_run a bm cs;
      Ret (r :: rs, bm)
  end.

(** Arguments of type [usize]; a region is not empty. *)
Definition call_typed (c : pmm_call) : Prop :=
  match c with
  | CallAllocPages n | CallFree n => 0 ≤ n < 2 ^ 64
  | CallReserve base size | CallInitRegion base size => 0 ≤ base < 2 ^ 64 ∧ 0 < size < 2 ^ 64
  | CallAlloc | CallAvailable | CallTest => True
  end.

(** Null, or [n] pages of the handle's range, all of them below 2^64. *)
Definition pages_or_null (a : PmmAllocator) (n p : Z) : Prop :=
  p = 0 ∨ ∃ k, 0 ≤ k ∧ k + n ≤ total_pages a ∧ p = page_addr a k ∧ 0 < p ∧ p + n * PMM_PAGE_SIZE < 2 ^ 64.

Definition answer_typed (a : PmmAllocator) (c : pmm_call) (r : pmm_answer) : Prop :=
  match c, r with
  | CallAlloc, AnAddress p => pages_or_null a 1 p
  | CallAllocPages n, AnAddress p => pages_or_null a n p
  | (CallFree _ | CallReserve _ _ | CallInitRegion _ _), NoAnswer => True
  | CallAvailable, ACount n => 0 ≤ n ≤ total_pages a
  | CallTest, AVerdict _ => True
  | _, _ => False
  end.

Section typed.
Context (a : PmmAllocator) (Ha : pmm_wf a).

Lemma pages_typed k n : 0 ≤ k → k + n ≤ total_pages a → pages_or_null a n (page_addr a k).
Proof using Ha.
  intros Hk Hn. pose proof Ha as (Ht & Hm & Hhi). right. exists k. split; [done|]. split; [done|]. split; [done|].
  unfold page_addr, PMM_PAGE_SIZE, PMM_MAX_PAGES in *. lia.
Qed.

Lemma alloc_typed bm : bm_wf bm → ∃ p bm', alloc a bm = Ret (p, bm') ∧ bm_wf bm' ∧ pages_or_null a 1 p.
Proof using Ha.
  intros Hwf. destruct (alloc_take a bm Ha Hwf) as [(k & b & Hk & _ & _ & E & _ & Hb & _)|[_ E]].
  - exists (page_addr a k), b. split; [done|]. split; [done|]. apply pages_typed; lia.
  - exists 0, bm. split; [done|]. split; [done|]. by left.
Qed.

Lemma alloc_pages_typed bm n : bm_wf bm → 0 ≤ n → ∃ p bm', alloc_pages a bm n = Ret (p, bm') ∧ bm_wf bm' ∧ pages_or_null a n p.
Proof using Ha.
  intros Hwf Hn. destruct (decide (n = 0)) as [->|Hne]; [exists 0, bm; split; [done|]; split; [done|]; by left|].
  destruct (alloc_pages_cases a bm n Ha Hwf ltac:(lia)) as [(k & b & Hk & _ & Ht & _ & E & Hb & _)|[E _]].
  - exists (page_addr a k), b. split; [done|]. split; [done|]. by apply pages_typed.
  - exists 0, bm. split; [done|]. split; [done|]. by left.
Qed.

Lemma free_typed bm addr : bm_wf bm → ∃ bm', free a bm addr = Ret bm' ∧ bm_wf bm'.
Proof using Ha.
  intros Hwf. unfold free. destruct (Z.ltb_spec addr (memory_start a)); [by exists bm|].
  rewrite Z.geb_leb. destruct (Z.leb_spec PMM_MAX_PAGES ((addr - memory_start a) / PMM_PAGE_SIZE)); [by exists bm|].
  destruct (bm_clear_spec bm ((addr - memory_start a) / PMM_PAGE_SIZE) Hwf) as (b & -> & Hb & _); [|by exists b].
  split; [apply Z.div_pos; [lia|done]|done].
Qed.

(** The last page of a region that is not empty has a bit. *)
Lemma region_end_bound base size : 0 < size → region_end a base size < PMM_MAX_PAGES.
Proof using.
  intros Hs. unfold region_end. destruct (Z.eqb_spec size 0); [lia|]. cbv zeta. rewrite Z.geb_leb.
  destruct (Z.leb_spec PMM_MAX_PAGES (u64 (base - memory_start a + size - 1) / PMM_PAGE_SIZE)); unfold PMM_MAX_PAGES in *; lia.
Qed.

Lemma region_typed (f : bitmap → Z → nat → outcome bitmap) bm base size :
  (∀ n bm from, bm_wf bm → 0 ≤ from → from + Z.of_nat n ≤ PMM_MAX_PAGES → ∃ bm', f bm from n = Ret bm' ∧ bm_wf bm') →
  (∀ bm from, f bm from 0%nat = Ret bm) → bm_wf bm → memory_start a ≤ base → 0 < size →
  let start_page := (base - memory_start a) / PMM_PAGE_SIZE in
  ∃ bm', f bm start_page (Z.to_nat (region_end a base size + 1 - start_page)) = Ret bm' ∧ bm_wf bm'.
Proof using.
  intros Hf H0 Hwf Hb Hs. cbv zeta. pose proof (region_end_bound base size Hs) as He.
  assert (0 ≤ (base - memory_start a) / PMM_PAGE_SIZE) by (apply Z.div_pos; [lia|done]).
  destruct (Z.le_gt_cases (region_end a base size + 1) ((base - memory_start a) / PMM_PAGE_SIZE)) as [Hle|Hgt].
  - replace (Z.to_nat _) with 0%nat by lia. exists bm. by rewrite H0.
  - apply Hf; [done|done|lia].
Qed.

Lemma reserve_typed bm base size : bm_wf bm → 0 < size → ∃ bm', reserve a bm base size = Ret bm' ∧ bm_wf bm'.
Proof using.
  intros Hwf Hs. unfold reserve. destruct (Z.ltb_spec base (memory_start a)); [by exists bm|].
  apply region_typed; [|done|done|done|done]. intros n b from Hb Hf Hn.
  destruct (set_range_spec n b from Hb Hf Hn) as (b' & E & Hb' & _). by exists b'.
Qed.

Lemma init_region_typed bm base size : bm_wf bm → 0 < size → ∃ bm', init_region a bm base size = Ret bm' ∧ bm_wf bm'.
Proof using.
  intros Hwf Hs. unfold init_region. destruct (Z.ltb_spec base (memory_start a)); [by exists bm|].
  apply region_typed; [|done|done|done|done]. intros n b from Hb Hf Hn.
  destruct (clear_range_spec n b from Hb Hf Hn) as (b' & E & Hb' & _). by exists b'.
Qed.

Lemma available_loop_typed bm n : bm_wf bm → ∀ i acc, 0 ≤ i → i + Z.of_nat n ≤ PMM_MAX_PAGES →
  ∃ r, available_loop bm i n acc = Ret r ∧ acc ≤ r ≤ acc + Z.of_nat n.
Proof using.
  intros Hwf. induction n as [|n IH]; intros i acc Hi Hn; cbn [available_loop]; [exists acc; split; [done|lia]|].
  destruct (bm_lookup bm i Hwf ltac:(unfold in_range; lia)) as (b & Hb & _).
  rewrite (index_ret bm (i / 8) b Hb). cbn [mbind outcome_bind].
  destruct (IH (i + 1) (if Z.land b (bit (i mod 8)) =? 0 then acc + 1 else acc)) as (r & -> & Hr); [lia|lia|].
  exists r. split; [done|]. destruct (Z.land b (bit (i mod 8)) =? 0); lia.
Qed.

Lemma test_typed bm : bm_wf bm → ∃ r bm', test a bm = Ret (r, bm') ∧ bm_wf bm'.
Proof using Ha.
  intros Hwf. unfold test. destruct (alloc_typed bm Hwf) as (p1 & b1 & -> & Hb1 & _). cbn [mbind outcome_bind].
  destruct (alloc_typed b1 Hb1) as (p2 & b2 & -> & Hb2 & _). cbn [mbind outcome_bind].
  destruct (alloc_typed b2 Hb2) as (p3 & b3 & -> & Hb3 & _). cbn [mbind outcome_bind].
  destruct (_ || _); [by exists AllocationFailed, b3|]. destruct (free_typed b3 p2 Hb3) as (b4 & -> & Hb4). cbn [mbind outcome_bind].
  destruct (alloc_typed b4 Hb4) as (p4 & b5 & -> & Hb5 & _). cbn [mbind outcome_bind].
  destruct (negb _); [by exists ReallocationFailed, b5|]. destruct (free_typed b5 p1 Hb5) as (b6 & -> & Hb6). cbn [mbind outcome_bind].
  destruct (free_typed b6 p3 Hb6) as (b7 & -> & Hb7). cbn [mbind outcome_bind].
  destruct (free_typed b7 p4 Hb7) as (b8 & -> & Hb8). by exists TestPassed, b8.
Qed.

Lemma step_typed bm c : bm_wf bm → call_typed c → ∃ r bm', pmm_step a bm c = Ret (r, bm') ∧ bm_wf bm' ∧ answer_typed a c r.
Proof using Ha.
  intros Hwf Hc. destruct c as [|n|x|b n|b n| |]; cbn [pmm_step call_typed] in *.
  - destruct (alloc_typed bm Hwf) as (p & b & -> & Hb & Hp). by exists (AnAddress p), b.
  - destruct (alloc_pages_typed bm n Hwf ltac:(lia)) as (p & b & -> & Hb & Hp). by exists (AnAddress p), b.
  - destruct (free_typed bm x Hwf) as (b' & -> & Hb). by exists NoAnswer, b'.
  - destruct (reserve_typed bm b n Hwf ltac:(lia)) as (b' & -> & Hb). by exists NoAnswer, b'.
  - destruct (init_region_typed bm b n Hwf ltac:(lia)) as (b' & -> & Hb). by exists NoAnswer, b'.
  - pose proof Ha as (Ht & _). unfold available_pages.
    destruct (available_loop_typed bm (Z.to_nat (total_pages a)) Hwf 0 0) as (r & -> & Hr); [lia|lia|]. exists (ACount r), bm. cbn. split_and!; try done; lia.
  - destruct (test_typed bm Hwf) as (r & b & -> & Hb). by exists (AVerdict r), b.
Qed.

Lemma run_typed cs : ∀ bm, bm_wf bm → Forall call_typed cs → ∃ rs bm', pmm_run a bm cs = Ret (rs, bm') ∧ bm_wf bm' ∧ Forall2 (answer_typed a) cs rs.
Proof using Ha.
  induction cs as [|c cs IH]; intros bm Hwf Hcs; cbn [pmm_run]; [by exists [], bm|].
  inversion Hcs as [|? ? Hc Hcs']; subst. destruct (step_typed bm c Hwf Hc) as (r & b & -> & Hb & Hr). cbn [mbind outcome_bind].
  destruct (IH b Hb Hcs') as (rs & b' & -> & Hb' & Hrs). exists (r :: rs), b'. split; [done|]. split; [done|]. by constructor.
Qed.
End typed.

(** C12: Whatever calls are made on the page manager in whatever order, with any arguments of their machine types and regions
    that are not empty, none of them panics: the bitmap stays an array of 8192 bytes, every address handed out is null or the
    first of that many pages inside the handle's range, without wrapping round, and every count is at most the number of pages. *)
Theorem pmm_calls_typed (a : PmmAllocator) (bm : bitmap) (cs : list pmm_call) (Ha : pmm_wf a) (Hbm : bm_wf bm) (Hcs : Forall call_typed cs) :
  ∃ rs bm', pmm_run a bm cs = Ret (rs, bm') ∧ bm_wf bm' ∧ Forall2 (answer_typed a) cs rs.
Proof. by apply run_typed. Qed.

Definition demo_calls : list pmm_call :=
  [CallTest; CallAllocPages 3; CallAlloc; CallAlloc; CallFree 12345678; CallReserve 0 (2 ^ 64 - 1); CallInitRegion 1048577 4096; CallInitRegion (2 ^ 64 - 1) (2 ^ 64 - 1); CallAvailable].

Lemma pmm_calls_typed_witness : ∃ bm', pmm_run demo_pmm (demo_bm 0) demo_calls =
    Ret ([AVerdict TestPassed; AnAddress 1048576; AnAddress 1060864; AnAddress 0; NoAnswer; NoAnswer; NoAnswer; NoAnswer; ACount 2], bm') ∧ bm_wf bm'.
Proof.
  assert (Forall call_typed demo_calls) as Hcs by (repeat constructor; lia).
  destruct (pmm_calls_typed demo_pmm (demo_bm 0) demo_calls demo_pmm_wf (demo_bm_wf 0 ltac:(lia)) Hcs) as (rs & bm' & E & Hb & _).
  exists bm'. split; [|exact Hb]. assert (fst <$> (match pmm_run demo_pmm (demo_bm 0) demo_calls with Ret x => Some x | _ => None end) =
    Some [AVerdict TestPassed; AnAddress 1048576; AnAddress 1060864; AnAddress 0; NoAnswer; NoAnswer; NoAnswer; NoAnswer; ACount 2]) as R by (vm_compute; reflexivity).
  rewrite E in R |- *. cbn in R. by injection R as ->.
Defined.

(** An empty region behind the bitmap is not refused: the index is out of bounds. *)
Lemma empty_region_panics (a : PmmAllocator) (bm : bitmap) (base : Z) : bm_wf bm → page_addr a PMM_MAX_PAGES ≤ base →
  reserve a bm base 0 = Panic ∧ init_region a bm base 0 = Panic.
Proof.
  intros [Hl _] Hb. unfold page_addr, PMM_MAX_PAGES, PMM_PAGE_SIZE in Hb. unfold reserve, init_region, region_end. rewrite Z.eqb_refl.
  destruct (Z.ltb_spec base (memory_start a)); [lia|]. replace (_ + 1 - _) with 1 by lia. change (Z.to_nat 1) with 1%nat. cbn [set_range clear_range].
  assert (8192 ≤ (base - memory_start a) / PMM_PAGE_SIZE / 8) as Hi by (apply Z.div_le_lower_bound; [lia|]; apply Z.div_le_lower_bound; unfold PMM_PAGE_SIZE; lia).
  unfold bm_set, bm_clear. unfold index. rewrite lookup_ge_None_2 by (change BITMAP_SIZE with 8192 in Hl; lia). done.
Qed.
