(* ===== verification/Multiboot.v ===== *)
(** * Multiboot memory map (src/kernel_rust/src/multiboot.rs)

    The parser that turns the boot loader's memory map into the state of the
    physical memory manager.  Physical memory is a function [rd32] from an
    address to the [u32] stored there. *)

From Stdlib Require Import ZArith Lia.
From stdpp Require Import base numbers list option.
From S2P Require Import Prelude Pmm.

Local Open Scope Z_scope.

Section Multiboot.
Context (rd32 : Z → Z).

(** [get_mbi_ptr]: the pointer the boot stub leaves at 0x5000. *)
Definition get_mbi_ptr : Z := rd32 20480.

Definition has_mmap (mbi : Z) : bool :=
  if mbi =? 0 then false else negb (Z.land (rd32 mbi) (bit 6) =? 0).

(** [MmapEntry], a packed record of six [u32]s. *)
Record MmapEntry := mkEntry {
  e_size : Z; base_low : Z; base_high : Z;
  length_low : Z; length_high : Z; region_type : Z
}.

Definition read_entry (p : Z) : MmapEntry :=
  mkEntry (rd32 p) (rd32 (p + 4)) (rd32 (p + 8))
          (rd32 (p + 12)) (rd32 (p + 16)) (rd32 (p + 20)).

Definition e_base (e : MmapEntry) : Z := Z.lor (base_low e) (Z.shiftl (base_high e) 32).
Definition e_length (e : MmapEntry) : Z := Z.lor (length_low e) (Z.shiftl (length_high e) 32).

(** First pass: the base of the first Available region and the highest end.
    [Hang] stands for a loop that has not ended within the fuel. *)
Fixpoint scan_mmap (addr len : Z) (offset : Z) (first : option Z) (highest : Z) (fuel : nat)
    : outcome (option Z * Z) :=
  match fuel with
  | O => Hang
  | S fuel =>
      if offset <? len then
        let e := read_entry (u32 (addr + offset)) in
        let entry_size := u32 (e_size e + 4) in
        let '(first', highest') :=
          if region_type e =? 1 then
            let base := e_base e in
            let e_end := u64 (base + e_length e) in
            (match first with None => Some base | Some b => Some b end,
             if e_end >? highest then e_end else highest)
          else (first, highest) in
        scan_mmap addr len (u32 (offset + entry_size)) first' highest' fuel
      else Ret (first, highest)
  end.

(** Second pass: free every Available region, clamped to the managed range. *)
Fixpoint free_mmap (a : PmmAllocator) (addr len memory_end : Z) (offset : Z) (bm : bitmap)
    (fuel : nat) : outcome bitmap :=
  match fuel with
  | O => Hang
  | S fuel =>
      if offset <? len then
        let e := read_entry (u32 (addr + offset)) in
        let entry_size := u32 (e_size e + 4) in
        bm' ← (if region_type e =? 1 then
                 let base := e_base e in
                 let clamp_base := if base <? memory_start a then memory_start a else base in
                 let clamp_end := Z.min (u64 (base + e_length e)) memory_end in
                 if clamp_end >? clamp_base
                 then init_region a bm clamp_base (clamp_end - clamp_base)
                 else Ret bm
               else Ret bm);
        free_mmap a addr len memory_end (u32 (offset + entry_size)) bm' fuel
      else Ret bm
  end.

(** [apply_mmap_to_pmm]: [None] for the [false] answer (no map, or no Available
    region), which leaves the manager untouched. *)
Definition apply_mmap_to_pmm (mbi : Z) (bm : bitmap) (fuel : nat)
    : outcome (option (PmmAllocator * bitmap)) :=
  if negb (has_mmap mbi) then Ret None
  else
    let mmap_length := rd32 (mbi + 44) in
    let mmap_addr := rd32 (mbi + 48) in
    '(first, highest) ← scan_mmap mmap_addr mmap_length 0 None 0 fuel;
    match first with
    | None => Ret None
    | Some b =>
        let page_base := and_not b 4095 in
        let start := if page_base <? 1048576 then 1048576 else page_base in
        let memory_end := Z.min highest 268435456 in
        let '(a, bm1) := init_all_used start memory_end bm in
        bm2 ← free_mmap a mmap_addr mmap_length memory_end 0 bm1 fuel;
        Ret (Some (a, bm2))
    end.

(** The offsets the two loops visit, while the map is walked without wrap-around. *)
Inductive walk (addr len : Z) : Z → list MmapEntry → Prop :=
| walk_end o : len ≤ o → walk addr len o []
| walk_step o e l :
    o < len → e = read_entry (u32 (addr + o)) →
    0 < e_size e + 4 → e_size e + 4 + o < 2 ^ 32 →
    walk addr len (o + (e_size e + 4)) l →
    walk addr len o (e :: l).

Lemma walk_step_size e o :
  0 ≤ o → 0 < e_size e + 4 → e_size e + 4 + o < 2 ^ 32 →
  u32 (o + u32 (e_size e + 4)) = o + (e_size e + 4).
Proof.
  intros. unfold u32. rewrite (Z.mod_small (e_size e + 4)), Z.mod_small; lia.
Qed.

(** What the first pass computes from the list of entries. *)
Definition scan_step (acc : option Z * Z) (e : MmapEntry) : option Z * Z :=
  if region_type e =? 1 then
    (match acc.1 with None => Some (e_base e) | Some b => Some b end,
     Z.max acc.2 (u64 (e_base e + e_length e)))
  else acc.

Lemma scan_mmap_walk addr len o l :
  walk addr len o l → 0 ≤ o → ∀ first highest fuel, (length l < fuel)%nat →
  scan_mmap addr len o first highest fuel = Ret (foldl scan_step (first, highest) l).
Proof.
  induction 1 as [o Ho|o e l Ho He Hs Hw _ IH]; intros Hpos first highest [|fuel] Hf;
    cbn [scan_mmap length foldl] in *; try lia.
  { destruct (Z.ltb_spec o len); [lia|done]. }
  destruct (Z.ltb_spec o len); [|lia].
  rewrite <- He. cbv zeta. rewrite walk_step_size by done.
  unfold scan_step at 2. destruct (region_type e =? 1); rewrite IH by lia; [|done].
  f_equal. f_equal. f_equal. simpl. rewrite Z.gtb_ltb. zcases.
Qed.

(** Page [j] lies in the clamped image of the Available entry [e]. *)
Definition frees (a : PmmAllocator) (memory_end : Z) (e : MmapEntry) (j : Z) : bool :=
  let lo := Z.max (e_base e) (memory_start a) in
  let hi := Z.min (u64 (e_base e + e_length e)) memory_end in
  (region_type e =? 1) && (lo <? hi) && touches a lo (hi - lo) j.

Lemma free_mmap_walk a addr len memory_end o l :
  walk addr len o l → 0 ≤ o → pmm_wf a → memory_end ≤ page_addr a PMM_MAX_PAGES →
  ∀ bm fuel, bm_wf bm → (length l < fuel)%nat →
  ∃ bm', free_mmap a addr len memory_end o bm fuel = Ret bm' ∧ bm_wf bm' ∧
    ∀ j, in_range j →
      used bm' j = negb (existsb (λ e, frees a memory_end e j) l) && used bm j.
Proof.
  induction 1 as [o Ho|o e l Ho He Hs Hw _ IH]; intros Hpos Ha Hend bm [|fuel] Hbm Hf;
    cbn [free_mmap length existsb] in *; try lia.
  { destruct (Z.ltb_spec o len); [lia|]. by exists bm. }
  destruct (Z.ltb_spec o len); [|lia]. rewrite <- He. cbv zeta. rewrite walk_step_size by done.
  assert (∃ bm1, (if region_type e =? 1 then
        let clamp_base := if e_base e <? memory_start a then memory_start a else e_base e in
        let clamp_end := Z.min (u64 (e_base e + e_length e)) memory_end in
        if clamp_end >? clamp_base
        then init_region a bm clamp_base (clamp_end - clamp_base) else Ret bm
      else Ret bm) = Ret bm1 ∧ bm_wf bm1 ∧
      ∀ j, in_range j → used bm1 j = negb (frees a memory_end e j) && used bm j)
    as (bm1 & E1 & Hwf1 & Hu1).
  { unfold frees. destruct (region_type e =? 1); [|by exists bm]. simpl.
    replace (if e_base e <? memory_start a then memory_start a else e_base e)
      with (Z.max (e_base e) (memory_start a)) by (zcases).
    rewrite Z.gtb_ltb.
    destruct (Z.ltb_spec (Z.max (e_base e) (memory_start a))
      (Z.min (u64 (e_base e + e_length e)) memory_end)) as [Hlt|]; [|by exists bm].
    apply init_region_inside; [done|done|lia|lia|lia]. }
  simpl in E1. rewrite E1. simpl.
  destruct (IH ltac:(lia) Ha Hend bm1 fuel) as (bm2 & -> & Hwf2 & Hu2); [done|lia|].
  exists bm2. split; [done|]. split; [done|]. intros j Hj. rewrite Hu2, Hu1 by done.
  destruct (existsb _ l), (frees a memory_end e j), (used bm j); done.
Qed.

(** The Available entries of a map, in its order, and the highest end among them. *)
Definition available (l : list MmapEntry) : list MmapEntry := filter (λ e, region_type e = 1) l.
Definition highest_end (l : list MmapEntry) : Z := foldr Z.max 0 ((λ e, u64 (e_base e + e_length e)) <$> available l).

Lemma highest_end_nonneg l : 0 ≤ highest_end l.
Proof. unfold highest_end. induction (_ <$> available l); simpl; lia. Qed.

Lemma scan_fold l : ∀ first h, 0 ≤ h →
  foldl scan_step (first, h) l =
    (match first with Some b => Some b | None => e_base <$> head (available l) end, Z.max h (highest_end l)).
Proof.
  unfold highest_end, available. induction l as [|e l IH]; intros first h Hh; simpl; [rewrite Z.max_l by done; by destruct first|].
  unfold scan_step at 2. simpl. rewrite filter_cons. destruct (Z.eqb_spec (region_type e) 1) as [Ht|Ht].
  - rewrite decide_True, IH by (done || lia). simpl. rewrite Z.max_assoc. by destruct first.
  - by rewrite decide_False, IH.
Qed.

Lemma page_down_range b : 0 ≤ b < 2 ^ 63 → 0 ≤ and_not b 4095 ≤ b.
Proof.
  intros Hb. rewrite and_not_page.
  pose proof (Z.mod_pos_bound b 4096). pose proof (Z.mod_le b 4096). lia.
Qed.

(** C21: for a memory map that is walked without wrap-around, [apply_mmap_to_pmm] ends within one
    step per entry.  Without an Available region it answers false.  Otherwise the managed range
    starts at the page of the first Available entry, or at 1 MiB if that is higher, and ends at
    the highest end of an Available entry, or at 256 MiB if that is lower; the manager is
    well-formed, and the free pages are exactly those that meet an Available region clamped to
    that range. *)
Theorem apply_mmap_spec (mbi : Z) (bm : bitmap) (fuel : nat) (l : list MmapEntry)
    (Hbm : bm_wf bm) (Hmap : has_mmap mbi = true)
    (Hwalk : walk (rd32 (mbi + 48)) (rd32 (mbi + 44)) 0 l)
    (Hfuel : (length l < fuel)%nat)
    (Hbases : ∀ e, e ∈ l → 0 ≤ e_base e < 2 ^ 63) :
  match available l with
  | [] => apply_mmap_to_pmm mbi bm fuel = Ret None
  | e0 :: _ =>
      let start := Z.max 1048576 (and_not (e_base e0) 4095) in
      let memory_end := Z.min (highest_end l) 268435456 in
      let a := mkPmm (clamp_pages start memory_end) start in
      ∃ bm', apply_mmap_to_pmm mbi bm fuel = Ret (Some (a, bm')) ∧ pmm_wf a ∧ bm_wf bm' ∧
        ∀ j, in_range j → used bm' j = negb (existsb (λ e, frees a memory_end e j) l)
  end.
Proof.
  unfold apply_mmap_to_pmm. rewrite Hmap. cbn -[init_all_used].
  rewrite (scan_mmap_walk _ _ _ _ Hwalk) by (done || lia). rewrite scan_fold by done. cbn -[init_all_used].
  destruct (available l) as [|e0 l0] eqn:Ea; [done|]. cbn -[init_all_used]. rewrite Z.max_r by apply highest_end_nonneg.
  assert (e0 ∈ l) as He by (apply (list_elem_of_filter (λ e, region_type e = 1)); unfold available in Ea; rewrite Ea; constructor).
  pose proof (page_down_range _ (Hbases e0 He)) as Hpd. specialize (Hbases e0 He).
  replace (if and_not (e_base e0) 4095 <? 1048576 then 1048576 else and_not (e_base e0) 4095)
    with (Z.max 1048576 (and_not (e_base e0) 4095)) by zcases.
  set (start := Z.max 1048576 _). set (stop := Z.min (highest_end l) 268435456).
  assert (1048576 ≤ start < 2 ^ 63) as Hstart by (unfold start; lia).
  destruct (init_all_used_wf start stop bm) as (Hawf & Hbwf & Hall);
    [done|lia|unfold PMM_MAX_PAGES, PMM_PAGE_SIZE; lia|].
  cbn [init_all_used fst snd] in *.
  destruct (free_mmap_walk (mkPmm (clamp_pages start stop) start) _ _ stop 0 l Hwalk ltac:(lia) Hawf) with (bm := (λ _ : Z, 255) <$> bm) (fuel := fuel)
    as (bm2 & E2 & Hwf2 & Hu2); [|done|done|].
  { unfold page_addr, stop, PMM_MAX_PAGES, PMM_PAGE_SIZE. cbn [memory_start]. lia. }
  exists bm2. rewrite E2. split; [done|]. split; [done|]. split; [done|].
  intros j Hj. rewrite Hu2, Hall by done. apply andb_true_r.
Qed.
End Multiboot.

(** A map of two entries at 0x9000, described by an info block at 0x8000: the
    region given by [b1]/[l1] first, then the one given by [b2]/[l2]. *)
Definition demo_rd32 (b1 l1 b2 l2 : Z) (p : Z) : Z :=
  match p with
  | 32768 => 64 | 32812 => 48 | 32816 => 36864
  | 36864 => 20 | 36868 => b1 | 36876 => l1 | 36884 => 1
  | 36888 => 20 | 36892 => b2 | 36900 => l2 | 36908 => 1
  | _ => 0
  end.

Definition demo_entries (b1 l1 b2 l2 : Z) : list MmapEntry :=
  [mkEntry 20 b1 0 l1 0 1; mkEntry 20 b2 0 l2 0 1].

Lemma demo_walk b1 l1 b2 l2 :
  walk (demo_rd32 b1 l1 b2 l2) 36864 48 0 (demo_entries b1 l1 b2 l2).
Proof.
  apply walk_step; [lia|reflexivity|cbn; lia|cbn; lia|].
  apply walk_step; [cbn; lia|reflexivity|cbn; lia|cbn; lia|].
  apply walk_end. cbn. lia.
Qed.

Lemma apply_mmap_spec_witness :
  ∃ bm', apply_mmap_to_pmm (demo_rd32 2097152 4096 4194304 8192) 32768 (demo_bm 0) 3
      = Ret (Some (mkPmm 514 2097152, bm')) ∧ bm_wf bm' ∧
    used bm' 0 = false ∧ used bm' 1 = true ∧ used bm' 511 = true ∧ used bm' 512 = false ∧ used bm' 513 = false.
Proof.
  pose proof (apply_mmap_spec (demo_rd32 2097152 4096 4194304 8192) 32768 (demo_bm 0) 3
           (demo_entries 2097152 4096 4194304 8192)) as S.
  destruct S as (bm' & E & _ & Hw & Hu).
  - apply demo_bm_wf. lia.
  - reflexivity.
  - apply demo_walk.
  - simpl. lia.
  - intros e He. unfold demo_entries in He.
    repeat (apply elem_of_cons in He as [->|He]; [vm_compute; split; discriminate || reflexivity|]).
    by apply elem_of_nil in He.
  - exists bm'. split; [exact E|]. split; [exact Hw|].
    assert (∀ j, 0 ≤ j < 65536 → used bm' j = negb (existsb (λ e, frees (mkPmm 514 2097152) 4202496 e j) (demo_entries 2097152 4096 4194304 8192))) as Hf by exact Hu.
    rewrite !Hf by lia. vm_compute. auto 6.
Defined.

(** The managed range starts at the first Available region of the map, not at
    the lowest one: with a region at 4 MiB listed before one at 2 MiB the manager
    starts at 4 MiB and the lower region is never handed out. *)
Theorem apply_mmap_first_not_lowest :
  ∃ bm', apply_mmap_to_pmm (demo_rd32 4194304 8192 2097152 4096) 32768 (demo_bm 0) 3
           = Ret (Some (mkPmm 2 4194304, bm')).
Proof. eexists. vm_compute. reflexivity. Qed.

(** A region that ends inside a page frees the whole page: a 2 KiB Available
    region at 2 MiB makes the 4 KiB page there allocatable, its second half
    included, which no Available region covers. *)
Theorem apply_mmap_frees_partial_page :
  match apply_mmap_to_pmm (demo_rd32 2097152 2048 4194304 8192) 32768 (demo_bm 0) 3 with
  | Ret (Some (a, bm')) => memory_start a = 2097152 ∧ used bm' 0 = false
  | _ => False
  end.
Proof. vm_compute. done. Qed.
