(* ===== verification/Memory.v ===== *)
(** * Word memory

    The parts of memory the kernel addresses through typed pointers (heap block
    headers, page tables, saved register frames) as a finite map from the address
    of an 8-byte word to its value; a word never stored reads 0.  All the
    accesses modelled on it are 8-byte aligned. *)

From Stdlib Require Import ZArith Lia.
From stdpp Require Import base numbers list option gmap.
From S2P Require Import Prelude.

Local Open Scope Z_scope.

Abbreviation mem := (gmap Z Z).

Definition ld64 (m : mem) (a : Z) : Z := default 0 (m !! a).
Definition st64 (m : mem) (a v : Z) : mem := <[a := v]> m.

(** A [u32] field at the low half of the word at [a]. *)
Definition ld32 (m : mem) (a : Z) : Z := ld64 m a mod 2 ^ 32.
Definition st32 (m : mem) (a v : Z) : mem := st64 m a (ld64 m a / 2 ^ 32 * 2 ^ 32 + v).

Lemma ld_st_eq m a v : ld64 (st64 m a v) a = v.
Proof. unfold ld64, st64. by rewrite lookup_insert_eq. Qed.

Lemma ld_st_ne m a b v : a ≠ b → ld64 (st64 m a v) b = ld64 m b.
Proof. intros. unfold ld64, st64. by rewrite lookup_insert_ne. Qed.

Lemma ld32_st_ne m a b v : a ≠ b → ld32 (st64 m a v) b = ld32 m b.
Proof. intros. unfold ld32. by rewrite ld_st_ne. Qed.

Lemma ld_st32_ne m a b v : a ≠ b → ld64 (st32 m a v) b = ld64 m b.
Proof. intros. unfold st32. by rewrite ld_st_ne. Qed.

Lemma ld32_st32_ne m a b v : a ≠ b → ld32 (st32 m a v) b = ld32 m b.
Proof. intros. unfold ld32. by rewrite ld_st32_ne. Qed.

Lemma ld32_st32_eq m a v : 0 ≤ v < 2 ^ 32 → ld32 (st32 m a v) a = v.
Proof.
  intros. unfold ld32, st32. rewrite ld_st_eq.
  rewrite Z.add_comm, Z.mod_add by lia. by apply Z.mod_small.
Qed.

(** Two memories agree on the words of [lo, hi). *)
Definition agree (m m' : mem) (lo hi : Z) : Prop :=
  ∀ x, lo ≤ x < hi → ld64 m x = ld64 m' x.

Lemma agree_refl m lo hi : agree m m lo hi.
Proof. by intros x Hx. Qed.

Lemma agree_sym m m' lo hi : agree m m' lo hi → agree m' m lo hi.
Proof. intros H x Hx. by rewrite H. Qed.

Lemma agree_trans m1 m2 m3 lo hi : agree m1 m2 lo hi → agree m2 m3 lo hi → agree m1 m3 lo hi.
Proof. intros H1 H2 x Hx. by rewrite H1, H2. Qed.

Lemma agree_sub m m' lo hi lo' hi' : lo ≤ lo' → hi' ≤ hi → agree m m' lo hi → agree m m' lo' hi'.
Proof. intros ?? H x Hx. apply H. lia. Qed.

Lemma agree_st64 m a v lo hi : a < lo ∨ hi ≤ a → agree m (st64 m a v) lo hi.
Proof. intros Ha x Hx. by rewrite ld_st_ne by lia. Qed.

Lemma agree_st32 m a v lo hi : a < lo ∨ hi ≤ a → agree m (st32 m a v) lo hi.
Proof. intros. by apply agree_st64. Qed.

Create HintDb mem discriminated.
Create Rewrite HintDb mem.
#[export] Hint Resolve agree_refl agree_st64 agree_st32 : mem.
#[export] Hint Rewrite ld_st_eq : mem.
#[export] Hint Rewrite ld_st_ne ld_st32_ne ld32_st_ne ld32_st32_ne using lia : mem.
