(* ===== verification/Kmm.v ===== *)
(** * Kernel heap (src/kernel_rust/src/kmm.rs)

    The first-fit free-list allocator.  A block is a 24-byte header (magic at
    offset 0, size at 8, next at 16) followed by its data; free blocks are linked
    in address order from [FREE_LIST].  The abstraction is the sequence of tiles,
    free or allocated, that covers the heap from [HEAP_LOW] to [HEAP_HIGH]. *)

From Stdlib Require Import ZArith Lia.
From stdpp Require Import base numbers list option gmap.
From S2P Require Import Prelude Memory Pmm.

Local Open Scope Z_scope.

Definition MAGIC : Z := 1447774273. (* 0x564B_4841 *)
Definition MIN_BLOCK_SIZE : Z := 64.
Definition KMALLOC_ALIGN : Z := 8.
Definition HEADER_SIZE : Z := 24.
Definition INITIAL_HEAP_PAGES : Z := 256.

(** The fields of the [BlockHeader] at address [b]. *)
Definition h_magic (m : mem) (b : Z) : Z := ld32 m b.
Definition h_size (m : mem) (b : Z) : Z := ld64 m (b + 8).
Definition h_next (m : mem) (b : Z) : Z := ld64 m (b + 16).
Definition set_magic (m : mem) (b v : Z) : mem := st32 m b v.
Definition set_size (m : mem) (b v : Z) : mem := st64 m (b + 8) v.
Definition set_next (m : mem) (b v : Z) : mem := st64 m (b + 16) v.

(** [BlockHeader::data_ptr] and [BlockHeader::end]. *)
Definition data_ptr (b : Z) : Z := u64 (b + HEADER_SIZE).
Definition block_end (m : mem) (b : Z) : Z := u64 (b + h_size m b).

(** The allocator's statics. *)
Record heap := mkHeap { FREE_LIST : Z; HEAP_LOW : Z; HEAP_HIGH : Z }.

Definition set_free_list (h : heap) (p : Z) : heap := mkHeap p (HEAP_LOW h) (HEAP_HIGH h).

(** [init]: one free block over [INITIAL_HEAP_PAGES] pages of the PMM. *)
Definition kmm_init (a : PmmAllocator) (bm : bitmap) (m : mem) (h : heap)
    : outcome (bitmap * mem * heap) :=
  '(heap_base, bm) ← alloc_pages a bm INITIAL_HEAP_PAGES;
  if heap_base =? 0 then Ret (bm, m, h)
  else
    let heap_size := INITIAL_HEAP_PAGES * PMM_PAGE_SIZE in
    let m := set_magic m heap_base MAGIC in
    let m := set_size m heap_base heap_size in
    let m := set_next m heap_base 0 in
    Ret (bm, m, mkHeap heap_base heap_base (u64 (heap_base + heap_size))).

Definition aligned_size (size : Z) : Z := and_not (u64 (size + KMALLOC_ALIGN - 1)) (KMALLOC_ALIGN - 1).
Definition needed_size (size : Z) : Z := u64 (HEADER_SIZE + aligned_size size).

(** Takes [needed] bytes of the free block [curr], whose predecessor on the free
    list is [prev] (0 for none). *)
Definition take_block (m : mem) (h : heap) (needed prev curr : Z) : mem * heap :=
  let remainder := h_size m curr - needed in
  let '(m, h) :=
    if MIN_BLOCK_SIZE <=? remainder then
      let m := set_size m curr needed in
      let new_free := u64 (curr + needed) in
      let m := set_magic m new_free MAGIC in
      let m := set_size m new_free remainder in
      let m := set_next m new_free (h_next m curr) in
      let m := set_next m curr new_free in
      if prev =? 0 then (m, set_free_list h new_free)
      else (set_next m prev new_free, h)
    else
      if prev =? 0 then (m, set_free_list h (h_next m curr))
      else (set_next m prev (h_next m curr), h) in
  (set_magic m curr MAGIC, h).

(** The first-fit walk; [Hang] when the list has not ended within the fuel. *)
Fixpoint kmalloc_walk (m : mem) (h : heap) (needed prev curr : Z) (fuel : nat)
    : outcome (Z * mem * heap) :=
  match fuel with
  | O => Hang
  | S fuel =>
      if curr =? 0 then Ret (0, m, h)
      else if needed <=? h_size m curr then
        let '(m', h') := take_block m h needed prev curr in
        Ret (data_ptr curr, m', h')
      else kmalloc_walk m h needed curr (h_next m curr) fuel
  end.

Definition kmalloc (size : Z) (m : mem) (h : heap) (fuel : nat) : outcome (Z * mem * heap) :=
  if size =? 0 then Ret (0, m, h)
  else kmalloc_walk m h (needed_size size) 0 (FREE_LIST h) fuel.

(** The walk of [kfree] to the insertion point: the last free block below
    [block] (0 for none) and the first one at or above it. *)
Fixpoint kfree_walk (m : mem) (block prev curr : Z) (fuel : nat) : outcome (Z * Z) :=
  match fuel with
  | O => Hang
  | S fuel =>
      if negb (curr =? 0) && (curr <? block)
      then kfree_walk m block curr (h_next m curr) fuel
      else Ret (prev, curr)
  end.

(** Links [block] between [prev] and [curr], merging with adjacent blocks. *)
Definition insert_block (m : mem) (h : heap) (block prev curr : Z) : mem * heap :=
  let m :=
    if negb (curr =? 0) && (block_end m block =? curr) then
      let m := set_size m block (u64 (h_size m block + h_size m curr)) in
      set_next m block (h_next m curr)
    else set_next m block curr in
  if negb (prev =? 0) && (block_end m prev =? block) then
    let m := set_size m prev (u64 (h_size m prev + h_size m block)) in
    (set_next m prev (h_next m block), h)
  else if prev =? 0 then (m, set_free_list h block)
  else (set_next m prev block, h).

Definition kfree (ptr : Z) (m : mem) (h : heap) (fuel : nat) : outcome (mem * heap) :=
  if ptr =? 0 then Ret (m, h)
  else
    let block := u64 (ptr - HEADER_SIZE) in
    if negb (h_magic m block =? MAGIC) then Ret (m, h)
    else
      '(prev, curr) ← kfree_walk m block 0 (FREE_LIST h) fuel;
      Ret (insert_block m h block prev curr).

(** [compute_free_bytes]: the total of the free list. *)
Fixpoint free_bytes_walk (m : mem) (curr total : Z) (fuel : nat) : outcome Z :=
  match fuel with
  | O => Hang
  | S fuel =>
      if curr =? 0 then Ret total
      else free_bytes_walk m (h_next m curr) (u64 (total + h_size m curr)) fuel
  end.

Definition compute_free_bytes (m : mem) (h : heap) (fuel : nat) : outcome Z :=
  free_bytes_walk m (FREE_LIST h) 0 fuel.

(** The free-list length that [dump_stats] and [test] count. *)
Fixpoint count_walk (m : mem) (curr count : Z) (fuel : nat) : outcome Z :=
  match fuel with
  | O => Hang
  | S fuel => if curr =? 0 then Ret count else count_walk m (h_next m curr) (u64 (count + 1)) fuel
  end.

(** [dump_stats]: the numbers it prints (total, used, free bytes, list length). *)
Definition dump_stats (m : mem) (h : heap) (fuel : nat) : outcome (Z * Z * Z * Z) :=
  free_bytes ← compute_free_bytes m h fuel;
  let total_bytes := u64 (HEAP_HIGH h - HEAP_LOW h) in
  let used_bytes := u64 (total_bytes - free_bytes) in
  count ← count_walk m (FREE_LIST h) 0 fuel;
  Ret (total_bytes, used_bytes, free_bytes, count).

(** [test]: the verdict it prints (block reused, length of the final free list),
    [None] for the failed allocation; the patterns it writes go to the payloads. *)
Definition test (m : mem) (h : heap) (fuel : nat)
    : outcome (option (bool * Z) * mem * heap) :=
  '(p1, m, h) ← kmalloc 32 m h fuel;
  '(p2, m, h) ← kmalloc 64 m h fuel;
  '(p3, m, h) ← kmalloc 128 m h fuel;
  if (p1 =? 0) || (p2 =? 0) || (p3 =? 0) then Ret (None, m, h)
  else
    let m := st64 m p1 16045690984503098046 in (* 0xDEAD_BEEF_CAFE_BABE *)
    let m := st64 m p2 1311768467463790320 in  (* 0x1234_5678_9ABC_DEF0 *)
    let m := st64 m p3 1085102592319205616 in  (* 0x0F0F_0F0F_F0F0_F0F0 *)
    '(m, h) ← kfree p2 m h fuel;
    '(p4, m, h) ← kmalloc 64 m h fuel;
    '(m, h) ← kfree p1 m h fuel;
    '(m, h) ← kfree p3 m h fuel;
    '(m, h) ← kfree p4 m h fuel;
    count ← count_walk m (FREE_LIST h) 0 fuel;
    Ret (Some (p4 =? p2, count), m, h).

(** ** Abstraction: the tiles of the heap *)

(** A tile is its size and whether it is free. *)
Abbreviation tile := (Z * bool)%type.

Fixpoint span (ts : list tile) : Z :=
  match ts with [] => 0 | t :: ts => t.1 + span ts end.

(** The address of the first free tile from [a], or [nx]. *)
Fixpoint first_free (a : Z) (ts : list tile) (nx : Z) : Z :=
  match ts with
  | [] => nx
  | (s, true) :: _ => a
  | (s, false) :: ts => first_free (a + s) ts nx
  end.

(** The address of the last free tile from [a], or [pv]. *)
Fixpoint last_free (a : Z) (ts : list tile) (pv : Z) : Z :=
  match ts with
  | [] => pv
  | (s, f) :: ts => last_free (a + s) ts (if f then a else pv)
  end.

(** The headers in memory describe the tiles from [a]; the free ones are chained,
    the last to [nx]. *)
Fixpoint seg (m : mem) (a : Z) (ts : list tile) (nx : Z) : Prop :=
  match ts with
  | [] => True
  | (s, f) :: ts =>
      HEADER_SIZE ≤ s ∧ s mod 8 = 0 ∧ h_magic m a = MAGIC ∧ h_size m a = s ∧
      (if f then h_next m a = first_free (a + s) ts nx else True) ∧
      seg m (a + s) ts nx
  end.

(** No two free tiles touch. *)
Fixpoint no_adj (ts : list tile) : Prop :=
  match ts with
  | (_, true) :: (((_, true) :: _) as ts') => False
  | _ :: ts' => no_adj ts'
  | [] => True
  end.

(** The heap invariant: the tiles cover the heap, the free list threads the free
    ones in address order, and free neighbours have been merged. *)
Record heap_inv (m : mem) (h : heap) (ts : list tile) : Prop := mkInv {
  inv_low : 0 < HEAP_LOW h;
  inv_align : HEAP_LOW h mod 8 = 0;
  inv_high : HEAP_HIGH h < 2 ^ 64;
  inv_cover : HEAP_LOW h + span ts = HEAP_HIGH h;
  inv_seg : seg m (HEAP_LOW h) ts 0;
  inv_head : FREE_LIST h = first_free (HEAP_LOW h) ts 0;
  inv_merged : no_adj ts
}.

(** ** Lemmas on tiles *)

Lemma span_app ts1 ts2 : span (ts1 ++ ts2) = span ts1 + span ts2.
Proof. induction ts1 as [|t ts1 IH]; simpl; lia. Qed.

Lemma first_free_app a ts1 ts2 nx :
  first_free a (ts1 ++ ts2) nx = first_free a ts1 (first_free (a + span ts1) ts2 nx).
Proof.
  revert a. induction ts1 as [|[s f] ts1 IH]; intros a; simpl; [by rewrite Z.add_0_r|].
  destruct f; [done|]. rewrite IH. do 2 f_equal. lia.
Qed.

Lemma last_free_app a ts1 ts2 pv :
  last_free a (ts1 ++ ts2) pv = last_free (a + span ts1) ts2 (last_free a ts1 pv).
Proof.
  revert a pv. induction ts1 as [|[s f] ts1 IH]; intros a pv; simpl; [by rewrite Z.add_0_r|].
  rewrite IH. f_equal. lia.
Qed.

Lemma seg_app m a ts1 ts2 nx :
  seg m a (ts1 ++ ts2) nx ↔
  seg m a ts1 (first_free (a + span ts1) ts2 nx) ∧ seg m (a + span ts1) ts2 nx.
Proof.
  revert a. induction ts1 as [|[s f] ts1 IH]; intros a; simpl.
  { rewrite Z.add_0_r. tauto. }
  rewrite IH, first_free_app, !Z.add_assoc. tauto.
Qed.

Lemma seg_span m a ts nx : seg m a ts nx → 0 ≤ span ts ∧ (span ts) mod 8 = 0.
Proof.
  revert a. induction ts as [|[s f] ts IH]; intros a; simpl; [done|].
  intros (Hs & H8 & _ & _ & _ & Hseg). apply IH in Hseg as [H0 Hm].
  unfold HEADER_SIZE in Hs. split; [lia|]. rewrite Z.add_mod, H8, Hm by lia. done.
Qed.

Lemma seg_cons m a s f ts nx :
  seg m a ((s, f) :: ts) nx ↔
  HEADER_SIZE ≤ s ∧ s mod 8 = 0 ∧ h_magic m a = MAGIC ∧ h_size m a = s ∧
  (if f then h_next m a = first_free (a + s) ts nx else True) ∧ seg m (a + s) ts nx.
Proof. done. Qed.

(** [seg] depends on the words of its own range only. *)
Lemma seg_agree m m' a ts nx :
  agree m m' a (a + span ts) → seg m a ts nx → seg m' a ts nx.
Proof.
  revert a. induction ts as [|[s f] ts IH]; intros a Hag Hs; simpl in *; [done|].
  destruct Hs as (H24 & H8 & Hm & Hsz & Hn & Hs). pose proof (seg_span _ _ _ _ Hs) as [Hsp _].
  unfold HEADER_SIZE, h_magic, h_size, h_next, ld32 in *.
  rewrite <- !Hag by lia. do 5 (split; [done|]).
  apply IH; [|done]. apply (agree_sub _ _ a (a + (s + span ts))); [lia|lia|done].
Qed.

Lemma first_free_range m a ts nx :
  seg m a ts nx →
  first_free a ts nx = nx ∨ a ≤ first_free a ts nx < a + span ts.
Proof.
  revert a. induction ts as [|[s f] ts IH]; intros a Hs; simpl in *; [by left|].
  destruct Hs as (H24 & _ & _ & _ & _ & Hs). pose proof (seg_span _ _ _ _ Hs) as [Hsp _].
  unfold HEADER_SIZE in *. destruct f; [right; lia|].
  destruct (IH _ Hs); [by left|right; lia].
Qed.

Lemma last_free_range m a ts nx pv :
  seg m a ts nx →
  last_free a ts pv = pv ∨ a ≤ last_free a ts pv ∧ last_free a ts pv + 24 ≤ a + span ts.
Proof.
  revert a pv. induction ts as [|[s f] ts IH]; intros a pv Hs; simpl in *; [by left|].
  destruct Hs as (H24 & _ & _ & _ & _ & Hs). pose proof (seg_span _ _ _ _ Hs) as [Hsp _].
  unfold HEADER_SIZE in *.
  destruct (IH (a + s) (if f then a else pv) Hs) as [->|]; [|right; lia].
  destruct f; [right; lia|by left].
Qed.

(** Redirecting the last free tile of a segment (or, when it has none, whatever
    pointed to it) moves the end of the chain. *)
Lemma seg_relink m a ts nx nx' pv :
  seg m a ts nx → 0 < a → pv < a →
  (last_free a ts pv = pv ∧ seg m a ts nx' ∧ first_free a ts nx' = nx' ∧
     first_free a ts nx = nx) ∨
  (pv < last_free a ts pv ∧ a ≤ last_free a ts pv ∧
   last_free a ts pv + 24 ≤ a + span ts ∧
   seg (set_next m (last_free a ts pv) nx') a ts nx' ∧
   first_free a ts nx' = first_free a ts nx ∧ a ≤ first_free a ts nx < a + span ts).
Proof.
  revert a pv. induction ts as [|[s f] ts IH]; intros a pv Hs Ha Hpv; simpl in *; [by left|].
  destruct Hs as (H24 & H8 & Hm & Hsz & Hn & Hs).
  pose proof (seg_span _ _ _ _ Hs) as [Hsp _]. unfold HEADER_SIZE in *.
  destruct f.
  - right. destruct (IH (a + s) a Hs) as [(-> & Hs' & E1 & E2)|(Hl1 & Hl2 & Hl3 & Hs' & E1 & Hr)];
      [lia|lia| |].
    + split; [lia|]. split; [lia|]. split; [lia|]. split; [|split; [done|lia]].
      unfold h_magic, h_size, h_next, set_next in *. autorewrite with mem.
      rewrite E1. do 5 (split; [done|]).
      apply (seg_agree m); [|done]. apply agree_st64. lia.
    + split; [lia|]. split; [lia|]. split; [lia|]. split; [|split; [done|lia]].
      unfold h_magic, h_size, h_next, set_next in *. autorewrite with mem.
      rewrite E1. do 5 (split; [done|]). done.
  - destruct (IH (a + s) pv Hs) as [(-> & Hs' & E1 & E2)|(Hl1 & Hl2 & Hl3 & Hs' & E1 & Hr)];
      [lia|lia| |].
    + left. done.
    + right. split; [done|]. split; [lia|]. split; [lia|]. split; [|split; [done|lia]].
      unfold h_magic, h_size, h_next, set_next in *. autorewrite with mem.
      do 5 (split; [done|]). done.
Qed.

(** The pointer update of both operations: the successor of [prev], or the head
    of the list when [prev] is null. *)
Definition link (m : mem) (h : heap) (prev x : Z) : mem * heap :=
  if prev =? 0 then (m, set_free_list h x) else (set_next m prev x, h).

(** Replacing the tiles after [ts1] by [new]: once the headers of [new ++ ts2] are
    in place, relinking the last free tile of [ts1] completes the chain. *)
Lemma splice m m1 h a ts1 old new ts2 :
  0 < a → seg m a (ts1 ++ old) 0 → FREE_LIST h = first_free a (ts1 ++ old) 0 →
  agree m m1 a (a + span ts1) → seg m1 (a + span ts1) (new ++ ts2) 0 →
  ∃ m2 h2,
    link m1 h (last_free a ts1 0) (first_free (a + span ts1) (new ++ ts2) 0) = (m2, h2) ∧
    seg m2 a (ts1 ++ new ++ ts2) 0 ∧
    FREE_LIST h2 = first_free a (ts1 ++ new ++ ts2) 0 ∧
    HEAP_LOW h2 = HEAP_LOW h ∧ HEAP_HIGH h2 = HEAP_HIGH h.
Proof.
  intros Ha Hseg Hfl Hag Hnew. apply seg_app in Hseg as [Hs1 _].
  rewrite first_free_app in Hfl. rewrite (first_free_app a ts1 (new ++ ts2)).
  set (nx' := first_free (a + span ts1) (new ++ ts2) 0) in *.
  assert (seg m1 a ts1 (first_free (a + span ts1) old 0)) as Hs1' by (by eapply seg_agree).
  destruct (seg_relink m1 a ts1 _ nx' 0 Hs1') as
    [(E & Hr & Ef & _)|(Hl1 & Hl2 & Hl3 & Hr & Ef & _)]; [done|done| |]; unfold link.
  - rewrite E. simpl. exists m1, (set_free_list h nx'). split; [done|].
    split; [by apply seg_app|]. rewrite Ef. done.
  - destruct (Z.eqb_spec (last_free a ts1 0) 0); [lia|].
    eexists _, h. split; [done|]. split; [|split; [by rewrite Hfl, Ef|done]].
    apply seg_app. split; [done|]. apply (seg_agree m1); [|done].
    apply agree_st64. lia.
Qed.

Definition unfit (needed : Z) (t : tile) : Prop := t.2 = true → t.1 < needed.

Lemma kmalloc_walk_spec m h needed ts : ∀ a pv fuel,
  seg m a ts 0 → 0 < a → (length ts < fuel)%nat →
  (Forall (unfit needed) ts ∧
   kmalloc_walk m h needed pv (first_free a ts 0) fuel = Ret (0, m, h)) ∨
  (∃ ts1 s ts2, ts = ts1 ++ (s, true) :: ts2 ∧ Forall (unfit needed) ts1 ∧ needed ≤ s ∧
   kmalloc_walk m h needed pv (first_free a ts 0) fuel =
     let '(m', h') := take_block m h needed (last_free a ts1 pv) (a + span ts1) in
     Ret (data_ptr (a + span ts1), m', h')).
Proof.
  induction ts as [|[s f] ts IH]; intros a pv [|fuel] Hs Ha Hf; simpl in Hf; try lia.
  { left. done. }
  destruct Hs as (H24 & H8 & Hm & Hsz & Hn & Hs). unfold HEADER_SIZE in H24. destruct f.
  - cbn [first_free kmalloc_walk].
    destruct (Z.eqb_spec a 0); [lia|]. rewrite Hsz.
    destruct (Z.leb_spec needed s) as [Hfit|Hno].
    { right. exists [], s, ts. simpl. rewrite Z.add_0_r. done. }
    rewrite Hn. destruct (IH (a + s) a fuel) as [[Hall ->]|(ts1 & s1 & ts2 & -> & Hall & Hfit & ->)];
      [done|lia|lia| |].
    + left. split; [|done]. constructor; [by unfold unfit|done].
    + right. exists ((s, true) :: ts1), s1, ts2. simpl. rewrite !Z.add_assoc.
      split; [done|]. split; [|done]. constructor; [by unfold unfit|done].
  - cbn [first_free].
    destruct (IH (a + s) pv (S fuel)) as [[Hall ->]|(ts1 & s1 & ts2 & -> & Hall & Hfit & ->)];
      [done|lia|lia| |].
    + left. split; [|done]. by constructor.
    + right. exists ((s, false) :: ts1), s1, ts2. simpl. rewrite !Z.add_assoc.
      split; [done|]. split; [|done]. by constructor.
Qed.

Lemma set_magic_id m b : h_magic m b = MAGIC → set_magic m b MAGIC = m.
Proof.
  unfold h_magic, set_magic, st32, ld32, st64. intros H.
  replace (ld64 m b / 2 ^ 32 * 2 ^ 32 + MAGIC) with (ld64 m b)
    by (rewrite <- H, (Z.div_mod (ld64 m b) (2 ^ 32)) at 1 by lia; lia).
  unfold ld64 in *. destruct (m !! b) as [v|] eqn:E; [by apply insert_id|done].
Qed.

(** Replacing tiles keeps [no_adj] when the outer tiles of the replacement are no
    freer than the old ones were. *)
Definition starts_free (ts : list tile) : bool :=
  match ts with (_, f) :: _ => f | [] => false end.
Definition ends_free (ts : list tile) : bool := starts_free (reverse ts).

Lemma ends_free_snoc ts s f : ends_free (ts ++ [(s, f)]) = f.
Proof. unfold ends_free. by rewrite reverse_snoc. Qed.

Lemma no_adj_app ts1 ts2 :
  no_adj (ts1 ++ ts2) ↔
  no_adj ts1 ∧ no_adj ts2 ∧ (ends_free ts1 && starts_free ts2 = false).
Proof.
  induction ts1 as [|[s f] ts1 IH].
  { simpl. tauto. }
  destruct ts1 as [|[s2 f2] ts1].
  - change (ends_free [(s, f)]) with f.
    destruct f, ts2 as [|[? []] ?]; simpl; intuition done.
  - assert (ends_free ((s, f) :: (s2, f2) :: ts1) = ends_free ((s2, f2) :: ts1)) as ->.
    { unfold ends_free. rewrite !reverse_cons.
      by destruct (reverse ts1) as [|[??] ?]. }
    simpl in *. destruct f, f2; intuition done.
Qed.

(** ** The operations on tiles *)

Lemma needed_size_spec size :
  0 < size ≤ 2 ^ 64 - 32 →
  needed_size size = HEADER_SIZE + 8 * ((size + 7) / 8) ∧
  size + HEADER_SIZE ≤ needed_size size < size + HEADER_SIZE + 8 ∧
  needed_size size mod 8 = 0.
Proof.
  intros Hs. unfold needed_size, aligned_size, KMALLOC_ALIGN, HEADER_SIZE.
  rewrite (u64_small (size + 8 - 1)) by lia. rewrite (and_not_ones _ 3) by lia.
  change (2 ^ 3) with 8. replace (size + 8 - 1) with (size + 7) by lia.
  pose proof (Z.div_mod (size + 7) 8). pose proof (Z.mod_pos_bound (size + 7) 8).
  replace (size + 7 - (size + 7) mod 8) with (8 * ((size + 7) / 8)) by lia.
  rewrite u64_small by lia. split; [done|]. split; [lia|].
  replace (24 + 8 * ((size + 7) / 8)) with ((3 + (size + 7) / 8) * 8) by lia.
  apply Z.mod_mul. lia.
Qed.

(** What [kmalloc] does to the free tile it takes. *)
Definition split_tile (s needed : Z) : list tile :=
  if MIN_BLOCK_SIZE <=? s - needed then [(needed, false); (s - needed, true)]
  else [(s, false)].

Lemma split_tile_span s needed : span (split_tile s needed) = s.
Proof. unfold split_tile. destruct (_ <=? _); simpl; lia. Qed.

Lemma no_adj_split ts1 s needed ts2 :
  no_adj (ts1 ++ (s, true) :: ts2) → no_adj (ts1 ++ split_tile s needed ++ ts2).
Proof.
  rewrite !no_adj_app. intros (H1 & H2 & H3). unfold split_tile.
  assert (no_adj ts2 ∧ starts_free ts2 = false) as [Hn Hst].
  { destruct ts2 as [|[? []] ?]; simpl in *; tauto. }
  split; [done|]. split.
  - destruct (_ <=? _); simpl; [|split; [done|]]; destruct ts2 as [|[? []] ?]; simpl in *; done.
  - destruct (_ <=? _); simpl; apply andb_false_r.
Qed.

Section Blocks.
Context (m : mem) (h : heap) (ts1 ts2 : list tile) (s : Z).

(** The tile under consideration starts at [b]. *)
Let b : Z := HEAP_LOW h + span ts1.

Lemma block_bounds f :
  heap_inv m h (ts1 ++ (s, f) :: ts2) →
  0 < HEAP_LOW h ≤ b ∧ 24 ≤ s ∧ s mod 8 = 0 ∧ b mod 8 = 0 ∧
  b + s + span ts2 = HEAP_HIGH h ∧ 0 ≤ span ts2 ∧ HEAP_HIGH h < 2 ^ 64.
Proof.
  intros [Hlow Hal Hhigh Hcov Hseg _ _]. apply seg_app in Hseg as [Hs1 Hs2].
  apply seg_span in Hs1 as [Hp1 Hm1]. cbn [seg] in Hs2.
  destruct Hs2 as (H24 & H8 & _ & _ & _ & Hs2). apply seg_span in Hs2 as [Hp2 _].
  rewrite span_app in Hcov. cbn [span fst] in Hcov. unfold HEADER_SIZE in *.
  subst b. split; [lia|]. split; [lia|]. split; [done|].
  split; [by rewrite Z.add_mod, Hal, Hm1 by lia|]. lia.
Qed.

Lemma take_block_spec needed :
  heap_inv m h (ts1 ++ (s, true) :: ts2) → 24 ≤ needed ≤ s → needed mod 8 = 0 →
  ∃ m' h', take_block m h needed (last_free (HEAP_LOW h) ts1 0) b = (m', h') ∧
    heap_inv m' h' (ts1 ++ split_tile s needed ++ ts2) ∧ HEAP_LOW h' = HEAP_LOW h.
Proof.
  intros Hinv Hneed Hn8. pose proof (block_bounds _ Hinv) as (Hlb & H24 & H8 & Hb8 & Hcov & Hp2 & Hhi).
  pose proof Hinv as [Hlow Hal Hhigh Hcov' Hseg Hhead Hmerged].
  pose proof (proj1 (seg_app _ _ _ _ _) Hseg) as [Hs1 Hs2]. fold b in Hs1, Hs2.
  cbn [seg] in Hs2. destruct Hs2 as (_ & _ & Hmg & Hsz & Hnx & Hs2).
  assert (∃ m1, agree m m1 (HEAP_LOW h) b ∧ h_magic m1 b = MAGIC ∧
    seg m1 b (split_tile s needed ++ ts2) 0 ∧
    take_block m h needed (last_free (HEAP_LOW h) ts1 0) b =
      (let '(m', h') := link m1 h (last_free (HEAP_LOW h) ts1 0)
                          (first_free b (split_tile s needed ++ ts2) 0) in
       (set_magic m' b MAGIC, h'))) as (m1 & Hag & Hmg1 & Hseg1 & ->).
  { unfold take_block, split_tile, link. rewrite Hsz, Hnx. unfold MIN_BLOCK_SIZE.
    destruct (Z.leb_spec 64 (s - needed)) as [Hsplit|Hno].
    - rewrite u64_small by lia. eexists. split; [|split; [|split; [|simpl; reflexivity]]].
      + unfold set_next, set_size, set_magic.
        repeat (eapply agree_trans; [|apply agree_st64 || apply agree_st32; lia]).
        apply agree_refl.
      + unfold h_magic, set_next, set_size, set_magic. by autorewrite with mem.
      + cbn [app seg first_free]. unfold HEADER_SIZE, h_magic, h_size, h_next,
          set_next, set_size, set_magic in *. autorewrite with mem.
        split; [lia|]. split; [done|]. split; [done|]. split; [done|]. split; [done|].
        split; [lia|]. split; [by rewrite Zminus_mod, H8, Hn8|].
        rewrite ld32_st32_eq by (vm_compute; split; discriminate || reflexivity).
        replace (b + needed + (s - needed)) with (b + s) by lia.
        split; [done|]. split; [done|]. split; [by rewrite <- Hnx|].
        eapply seg_agree; [|exact Hs2].
        repeat (eapply agree_trans; [|apply agree_st64 || apply agree_st32; lia]).
        apply agree_refl.
    - exists m. split; [apply agree_refl|]. split; [done|]. split; [|done].
      cbn [app seg]. unfold HEADER_SIZE. by repeat (split; [done|]). }
  destruct (splice m m1 h (HEAP_LOW h) ts1 ((s, true) :: ts2) (split_tile s needed) ts2)
    as (m2 & h2 & E & Hseg2 & Hhead2 & Hl2 & Hh2); try done.
  fold b in E. rewrite E. exists m2, h2.
  assert (h_magic m2 b = MAGIC) as Hmg2.
  { apply seg_app in Hseg2 as [_ Hseg2]. fold b in Hseg2. unfold split_tile in Hseg2.
    destruct (_ <=? _); cbn [app seg] in Hseg2; tauto. }
  rewrite set_magic_id by done. split; [done|]. split; [|done].
  constructor; rewrite ?Hl2, ?Hh2; try done.
  - rewrite !span_app, split_tile_span. rewrite span_app in Hcov'. simpl in Hcov'. lia.
  - by apply no_adj_split.
Qed.
End Blocks.

(** ** Freeing *)

(** The tiles after freeing the one of size [s] between [ts1] and [ts2]. *)
Definition merge_next (s : Z) (ts2 : list tile) : Z * list tile :=
  match ts2 with (s2, true) :: r => (s + s2, r) | _ => (s, ts2) end.
Definition merge_prev (ts1 : list tile) (s : Z) : list tile :=
  match reverse ts1 with
  | (p, true) :: r => reverse r ++ [(p + s, true)]
  | _ => ts1 ++ [(s, true)]
  end.
Definition coalesce (ts1 : list tile) (s : Z) (ts2 : list tile) : list tile :=
  let '(s', r) := merge_next s ts2 in merge_prev ts1 s' ++ r.

Lemma kfree_walk_spec m ts1 ts2 : ∀ a pv fuel,
  seg m a (ts1 ++ ts2) 0 → 0 < a → (length ts1 < fuel)%nat →
  kfree_walk m (a + span ts1) pv (first_free a (ts1 ++ ts2) 0) fuel
    = Ret (last_free a ts1 pv, first_free (a + span ts1) ts2 0).
Proof.
  induction ts1 as [|[s f] ts1 IH]; intros a pv [|fuel] Hs Ha Hf; simpl in Hf; try lia.
  - cbn [app span last_free kfree_walk] in *. rewrite Z.add_0_r.
    destruct (first_free_range _ _ _ _ Hs) as [->|Hr]; [done|].
    destruct (Z.eqb_spec (first_free a ts2 0) 0), (Z.ltb_spec (first_free a ts2 0) a);
      simpl; done || lia.
  - cbn [app seg] in Hs. destruct Hs as (H24 & _ & _ & _ & Hn & Hs). unfold HEADER_SIZE in H24.
    pose proof (proj1 (seg_app _ _ _ _ _) Hs) as [Hs1 _]. apply seg_span in Hs1 as [Hp1 _].
    cbn [app span last_free first_free fst]. replace (a + (s + span ts1)) with (a + s + span ts1) by lia.
    destruct f.
    + cbn [kfree_walk]. destruct (Z.eqb_spec a 0), (Z.ltb_spec a (a + s + span ts1));
        simpl; try lia.
      rewrite Hn. apply IH; [done|lia|lia].
    + apply IH; [done|lia|lia].
Qed.

Lemma last_free_end m a ts nx pv :
  seg m a ts nx → last_free a ts pv = pv ∨
  a ≤ last_free a ts pv ∧ 24 ≤ h_size m (last_free a ts pv) ∧
  last_free a ts pv + h_size m (last_free a ts pv) ≤ a + span ts.
Proof.
  revert a pv. induction ts as [|[s f] ts IH]; intros a pv Hs; simpl in *; [by left|].
  destruct Hs as (H24 & _ & _ & Hsz & _ & Hs). pose proof (seg_span _ _ _ _ Hs) as [Hsp _].
  unfold HEADER_SIZE in *.
  destruct (IH (a + s) (if f then a else pv) Hs) as [->|]; [|right; lia].
  destruct f; [right; lia|by left].
Qed.

(** When the last tile is allocated, the last free block ends before it. *)
Lemma last_free_gap m a ts nx pv :
  seg m a ts nx → ends_free ts = false → last_free a ts pv = pv ∨
  a ≤ last_free a ts pv ∧ 24 ≤ h_size m (last_free a ts pv) ∧
  last_free a ts pv + h_size m (last_free a ts pv) < a + span ts.
Proof.
  destruct ts as [|[p f] ts' _] using rev_ind; [by left|].
  rewrite ends_free_snoc, last_free_app, span_app. intros Hs ->. simpl.
  apply seg_app in Hs as [Hs Hp]. apply seg_cons in Hp as (H24 & _).
  unfold HEADER_SIZE in H24.
  destruct (last_free_end _ _ _ _ pv Hs) as [|]; [by left|right; lia].
Qed.

Lemma merge_prev_cases ts1 :
  (∃ ts1' p, ts1 = ts1' ++ [(p, true)] ∧
     ∀ s, merge_prev ts1 s = ts1' ++ [(p + s, true)]) ∨
  (ends_free ts1 = false ∧ ∀ s, merge_prev ts1 s = ts1 ++ [(s, true)]).
Proof.
  unfold merge_prev, ends_free.
  destruct (reverse ts1) as [|[p []] r] eqn:E; [right; done| |right; done].
  left. exists (reverse r), p. split; [|done].
  rewrite <- (reverse_involutive ts1), E. by rewrite reverse_cons.
Qed.

Lemma coalesce_no_adj ts1 s ts2 :
  no_adj (ts1 ++ (s, false) :: ts2) → no_adj (coalesce ts1 s ts2).
Proof.
  intros (H1 & H2 & _)%no_adj_app. unfold coalesce.
  assert (∃ s' r, merge_next s ts2 = (s', r) ∧ no_adj r ∧ starts_free r = false)
    as (s' & r & -> & Hr & Hst).
  { destruct ts2 as [|[s2 []] ts2]; simpl in *; eexists _, _; (split; [done|]); try done.
    destruct ts2 as [|[? []] ?]; simpl in *; tauto. }
  destruct (merge_prev_cases ts1) as [(ts1' & p & -> & ->)|[He ->]].
  - apply no_adj_app in H1 as (H1 & _ & H3). change (starts_free [(p, true)]) with true in H3.
    rewrite <- app_assoc. apply no_adj_app. split; [done|]. split; [|done].
    simpl. destruct r as [|[? []] ?]; simpl in *; done.
  - rewrite <- app_assoc. apply no_adj_app. split; [done|]. split.
    + simpl. destruct r as [|[? []] ?]; simpl in *; done.
    + by rewrite He.
Qed.

Lemma coalesce_span ts1 s ts2 : span (coalesce ts1 s ts2) = span ts1 + s + span ts2.
Proof.
  unfold coalesce.
  destruct (merge_prev_cases ts1) as [(ts1' & p & -> & E)|[_ E]];
    destruct ts2 as [|[s2 []] ts2]; simpl; rewrite E, !span_app; simpl; lia.
Qed.

(** The forward half of [insert_block]: the freed block takes in a free
    successor, or points to the next free block. *)
Lemma insert_forward m h ts1 s ts2 s' r :
  heap_inv m h (ts1 ++ (s, false) :: ts2) → merge_next s ts2 = (s', r) →
  let b := HEAP_LOW h + span ts1 in
  let curr := first_free (b + s) ts2 0 in
  ∃ m1, (if negb (curr =? 0) && (block_end m b =? curr) then
           set_next (set_size m b (u64 (h_size m b + h_size m curr))) b
             (h_next (set_size m b (u64 (h_size m b + h_size m curr))) curr)
         else set_next m b curr) = m1 ∧
    agree m m1 (HEAP_LOW h) b ∧ seg m1 b ((s', true) :: r) 0.
Proof.
  intros Hinv Hmerge b curr.
  pose proof (block_bounds _ _ _ _ _ _ Hinv) as (Hlb & H24 & H8 & Hb8 & Hcov & Hp2 & Hhi).
  fold b in Hlb, Hb8, Hcov.
  pose proof Hinv as [_ _ _ _ Hseg _ _].
  apply seg_app in Hseg as [_ Hs2]. fold b in Hs2. cbn [seg] in Hs2.
  destruct Hs2 as (_ & _ & Hmg & Hsz & _ & Hs2).
  eexists. split; [done|]. unfold block_end. rewrite Hsz, u64_small by lia.
  assert ((negb (curr =? 0) && (b + s =? curr)) = starts_free ts2) as ->.
  { unfold curr. destruct ts2 as [|[s2 []] ts2]; cbn [first_free starts_free]; [zcases..|].
    cbn [seg] in Hs2. destruct Hs2 as (H24' & _ & _ & _ & _ & Hs2). unfold HEADER_SIZE in H24'.
    destruct (first_free_range _ _ _ _ Hs2) as [->|Hr]; zcases. }
  destruct ts2 as [|[s2 []] ts2]; simpl in Hmerge; injection Hmerge as <- <-; cbn [starts_free].
  2: {
    cbn [seg] in Hs2. destruct Hs2 as (H24' & H8' & _ & Hsz' & Hnx' & Hs2).
    unfold HEADER_SIZE in *. cbn [span fst] in *. pose proof (seg_span _ _ _ _ Hs2) as [Hp2' _].
    change curr with (b + s) in *.
    assert (s + s2 < 2 ^ 64) by lia.
    unfold h_magic, h_size, h_next, set_next, set_size in *. split.
    { repeat (eapply agree_trans; [|apply agree_st64; lia]). apply agree_refl. }
    cbn [seg]. unfold HEADER_SIZE, h_magic, h_size, h_next in *. autorewrite with mem.
    rewrite Hsz', u64_small, Hnx' by lia.
    split; [lia|]. split; [by rewrite Z.add_mod, H8, H8'|]. split; [done|]. split; [done|].
    rewrite Z.add_assoc. split; [done|].
    eapply seg_agree; [|exact Hs2].
    repeat (eapply agree_trans; [|apply agree_st64; lia]). apply agree_refl. }
  all: split; [apply agree_st64; lia|]; apply seg_cons; unfold HEADER_SIZE, h_magic,
    h_size, h_next, set_next in *; autorewrite with mem; do 5 (split; [done|]).
  { done. }
  apply (seg_agree m); [|exact Hs2]. apply agree_st64. lia.
Qed.

(** The backward half: a free tile of size [p] right before the freed block. *)
Lemma insert_backward m1 h ts1 p s' r nx :
  0 < HEAP_LOW h → HEAP_LOW h + span ts1 + p + s' + span r < 2 ^ 64 →
  let pb := HEAP_LOW h + span ts1 in
  let b := pb + p in
  seg m1 (HEAP_LOW h) (ts1 ++ [(p, true)]) nx → seg m1 b ((s', true) :: r) 0 →
  negb (pb =? 0) && (block_end m1 pb =? b) = true ∧
  seg (set_next (set_size m1 pb (u64 (h_size m1 pb + h_size m1 b))) pb
         (h_next (set_size m1 pb (u64 (h_size m1 pb + h_size m1 b))) b))
    (HEAP_LOW h) (ts1 ++ (p + s', true) :: r) 0.
Proof.
  intros Hlow Hhi pb b Hsa Hs1. apply seg_app in Hsa as [Hsa Hsp]. fold pb in Hsa, Hsp.
  apply seg_cons in Hsp as (Hp24 & Hp8 & Hpm & Hpsz & _ & _).
  apply seg_cons in Hs1 as (H24' & H8' & Hmg & Hsz & Hnx & Hsr).
  pose proof (seg_span _ _ _ _ Hsa) as [Hsp1 _]. pose proof (seg_span _ _ _ _ Hsr) as [Hsr1 _].
  unfold HEADER_SIZE, block_end in *. rewrite Hpsz, Hsz, !u64_small by (subst b pb; lia).
  split; [zcases|].
  replace (h_next (set_size m1 pb (p + s')) b) with (h_next m1 b)
    by (unfold h_next, set_size; rewrite ld_st_ne by lia; done).
  assert (agree m1 (set_next (set_size m1 pb (p + s')) pb (h_next m1 b)) (HEAP_LOW h) pb ∧
          agree m1 (set_next (set_size m1 pb (p + s')) pb (h_next m1 b))
            (b + s') (b + s' + span r)) as [Hag1 Hag2].
  { unfold set_next, set_size. split;
      repeat (eapply agree_trans; [|apply agree_st64; lia]); apply agree_refl. }
  apply seg_app. fold pb. cbn [first_free]. split; [by apply (seg_agree m1)|].
  apply seg_cons. replace (pb + (p + s')) with (b + s') by (subst b; lia).
  split; [unfold HEADER_SIZE; lia|]. split; [by rewrite Z.add_mod, Hp8, H8'|].
  unfold h_magic, h_size, h_next, set_next, set_size in *. autorewrite with mem.
  do 3 (split; [done|]). by apply (seg_agree m1).
Qed.

(** The whole of [insert_block]: the freed tile, merged with its free neighbours. *)
Lemma insert_block_spec m h ts1 s ts2 :
  heap_inv m h (ts1 ++ (s, false) :: ts2) →
  let b := HEAP_LOW h + span ts1 in
  ∃ m' h', insert_block m h b (last_free (HEAP_LOW h) ts1 0) (first_free (b + s) ts2 0) = (m', h') ∧
    heap_inv m' h' (coalesce ts1 s ts2) ∧ HEAP_LOW h' = HEAP_LOW h.
Proof.
  intros Hinv b. pose proof Hinv as [Hlow Hal Hhigh Hcov Hseg Hhead Hmerged].
  destruct (merge_next s ts2) as [s' r] eqn:Hmerge.
  destruct (insert_forward m h ts1 s ts2 s' r Hinv Hmerge) as (m1 & E1 & Hag & Hs1).
  fold b in E1, Hag, Hs1. unfold insert_block. cbv zeta. rewrite E1. clear E1.
  pose proof (proj1 (seg_app _ _ _ _ _) Hseg) as [Hsa _]. fold b in Hsa.
  apply (seg_agree _ m1) in Hsa; [|done].
  pose proof (coalesce_span ts1 s ts2) as Hspan. pose proof (coalesce_no_adj _ _ _ Hmerged) as Hadj.
  unfold coalesce in Hspan, Hadj |- *. rewrite Hmerge in Hspan, Hadj |- *.
  rewrite span_app in Hcov. cbn [span fst] in Hcov.
  destruct (merge_prev_cases ts1) as [(ts1' & p & -> & Em)|[Hne Em]];
    rewrite Em, <- app_assoc in Hspan, Hadj; rewrite Em, <- app_assoc.
  - rewrite last_free_app. cbn [last_free].
    rewrite !span_app in Hspan. cbn [app span fst] in Hspan. rewrite span_app in Hcov. simpl in Hcov.
    assert (b = HEAP_LOW h + span ts1' + p) as Hb by (subst b; rewrite span_app; simpl; lia).
    edestruct (insert_backward m1 h ts1' p s' r) as [Etest Hseg']; [done|lia|exact Hsa|by rewrite <- Hb|].
    rewrite <- Hb in Etest. rewrite Etest. rewrite <- Hb in Hseg'.
    eexists _, h. split; [done|]. split; [|done].
    constructor; try done; [rewrite span_app; simpl; lia|].
    rewrite Hhead, <- app_assoc, !first_free_app. done.
  - destruct (splice m m1 h (HEAP_LOW h) ts1 ((s, false) :: ts2) [(s', true)] r)
      as (m2 & h2 & El & Hseg2 & Hhead2 & Hl2 & Hh2); try done.
    cbn [app first_free] in El. fold b in El. unfold link in El.
    assert (negb (last_free (HEAP_LOW h) ts1 0 =? 0) &&
            (block_end m1 (last_free (HEAP_LOW h) ts1 0) =? b) = false) as ->.
    { destruct (last_free_gap m1 _ ts1 _ 0 Hsa Hne) as [->|(?&?&Hend)]; [done|].
      fold b in Hend. unfold block_end. pose proof (block_bounds _ _ _ _ _ _ Hinv).
      fold b in H1. rewrite u64_small by lia. zcases. }
    rewrite El. exists m2, h2. split; [done|]. split; [|done].
    constructor; rewrite ?Hl2, ?Hh2; try done. simpl in *. lia.
Qed.

(** ** Properties *)

Lemma kmalloc_cases m h ts size fuel :
  heap_inv m h ts → 0 < size ≤ 2 ^ 64 - 32 → (length ts < fuel)%nat →
  (∃ ts1 s ts2 m' h', ts = ts1 ++ (s, true) :: ts2 ∧
     Forall (unfit (needed_size size)) ts1 ∧ needed_size size ≤ s ∧
     kmalloc size m h fuel = Ret (HEAP_LOW h + span ts1 + HEADER_SIZE, m', h') ∧
     (HEAP_LOW h + span ts1 + HEADER_SIZE) mod KMALLOC_ALIGN = 0 ∧
     heap_inv m' h' (ts1 ++ split_tile s (needed_size size) ++ ts2) ∧
     HEAP_LOW h' = HEAP_LOW h) ∨
  (Forall (unfit (needed_size size)) ts ∧ kmalloc size m h fuel = Ret (0, m, h)).
Proof.
  intros Hinv Hsize Hfuel. pose proof (needed_size_spec size Hsize) as (_ & Hn & Hn8).
  unfold kmalloc. destruct (Z.eqb_spec size 0); [lia|]. rewrite (inv_head _ _ _ Hinv).
  destruct (kmalloc_walk_spec m h (needed_size size) ts (HEAP_LOW h) 0 fuel)
    as [H|(ts1 & s & ts2 & -> & Hall & Hfit & ->)];
    [apply Hinv|apply Hinv|done|by right|left].
  destruct (take_block_spec m h ts1 ts2 s (needed_size size) Hinv) as (m' & h' & -> & Hinv' & Hl);
    [unfold HEADER_SIZE in *; lia|done|].
  pose proof (block_bounds _ _ _ _ _ _ Hinv) as (Hlb & H24 & _ & Hb8 & Hcov & Hp2 & Hhi).
  exists ts1, s, ts2, m', h'. do 3 (split; [done|]). unfold data_ptr.
  rewrite u64_small by (unfold HEADER_SIZE; lia). split; [done|]. split; [|done].
  unfold HEADER_SIZE, KMALLOC_ALIGN. by rewrite Z.add_mod, Hb8 by lia.
Qed.

Lemma kfree_cases m h ts1 s ts2 fuel :
  heap_inv m h (ts1 ++ (s, false) :: ts2) → (length ts1 < fuel)%nat →
  ∃ m' h', kfree (HEAP_LOW h + span ts1 + HEADER_SIZE) m h fuel = Ret (m', h') ∧
    heap_inv m' h' (coalesce ts1 s ts2) ∧ HEAP_LOW h' = HEAP_LOW h.
Proof.
  intros Hinv Hfuel. pose proof (block_bounds _ _ _ _ _ _ Hinv) as (Hlb & H24 & _ & _ & Hcov & Hp2 & Hhi).
  pose proof Hinv as [Hlow _ _ _ Hseg Hhead _]. unfold kfree, HEADER_SIZE.
  destruct (Z.eqb_spec (HEAP_LOW h + span ts1 + 24) 0); [lia|].
  rewrite Z.add_simpl_r, u64_small by lia. cbv zeta.
  pose proof (proj1 (seg_app _ _ _ _ _) Hseg) as [_ Hs2].
  apply seg_cons in Hs2 as (_ & _ & -> & _). rewrite Z.eqb_refl. simpl.
  rewrite Hhead, kfree_walk_spec by done. simpl.
  destruct (insert_block_spec m h ts1 s ts2 Hinv) as (m' & h' & -> & ?); eauto.
Qed.

(** A heap of 1 KiB at 0x10000: one free block. *)
Definition demo_mem : mem := {[ 65536 := MAGIC; 65544 := 1024; 65552 := 0 ]}.
Definition demo_heap : heap := mkHeap 65536 65536 66560.

Lemma demo_heap_inv : heap_inv demo_mem demo_heap [(1024, true)].
Proof. constructor; vm_compute; repeat split; done. Qed.

(** C18: [kmalloc] terminates on a well-formed heap and is first-fit.  It takes the
    first free tile that can hold the header and the size rounded up to 8, splits
    it when at least 64 bytes remain, returns the 8-aligned address after its
    header and re-establishes the heap invariant; every other tile stays as it is.
    It returns null, with nothing changed, exactly when no free tile is large
    enough. *)
Theorem kmalloc_spec (m : mem) (h : heap) (ts : list tile) (size : Z) (fuel : nat)
    (Hinv : heap_inv m h ts) (Hsize : 0 < size ≤ 2 ^ 64 - 32)
    (Hfuel : (length ts < fuel)%nat) :
  (∃ ts1 s ts2 m' h', ts = ts1 ++ (s, true) :: ts2 ∧
     Forall (unfit (needed_size size)) ts1 ∧ needed_size size ≤ s ∧
     kmalloc size m h fuel = Ret (HEAP_LOW h + span ts1 + HEADER_SIZE, m', h') ∧
     (HEAP_LOW h + span ts1 + HEADER_SIZE) mod KMALLOC_ALIGN = 0 ∧
     size + HEADER_SIZE ≤ needed_size size ∧
     heap_inv m' h' (ts1 ++ split_tile s (needed_size size) ++ ts2)) ∨
  (Forall (unfit (needed_size size)) ts ∧ kmalloc size m h fuel = Ret (0, m, h)).
Proof.
  destruct (kmalloc_cases m h ts size fuel Hinv Hsize Hfuel)
    as [(ts1 & s & ts2 & m' & h' & H)|]; [left|by right].
  pose proof (needed_size_spec size Hsize).
  exists ts1, s, ts2, m', h'. tauto.
Qed.

Lemma kmalloc_spec_witness :
  (∃ ts1 s ts2 m' h', [(1024, true)] = ts1 ++ (s, true) :: ts2 ∧
     Forall (unfit (needed_size 100)) ts1 ∧ needed_size 100 ≤ s ∧
     kmalloc 100 demo_mem demo_heap 2
       = Ret (HEAP_LOW demo_heap + span ts1 + HEADER_SIZE, m', h') ∧
     (HEAP_LOW demo_heap + span ts1 + HEADER_SIZE) mod KMALLOC_ALIGN = 0 ∧
     100 + HEADER_SIZE ≤ needed_size 100 ∧
     heap_inv m' h' (ts1 ++ split_tile s (needed_size 100) ++ ts2)) ∨
  (Forall (unfit (needed_size 100)) [(1024, true)] ∧
   kmalloc 100 demo_mem demo_heap 2 = Ret (0, demo_mem, demo_heap)).
Proof.
  apply (kmalloc_spec demo_mem demo_heap [(1024, true)] 100 2);
    [apply demo_heap_inv|lia|simpl; lia].
Defined.

(** C10: [kfree] of an allocated block terminates and makes its tile free, merged
    with a free tile on either side, with the invariant (free list in address
    order, tiles covering the heap, no two free tiles adjacent) re-established. *)
Theorem kfree_spec (m : mem) (h : heap) (ts1 : list tile) (s : Z) (ts2 : list tile)
    (fuel : nat) (Hinv : heap_inv m h (ts1 ++ (s, false) :: ts2))
    (Hfuel : (length ts1 < fuel)%nat) :
  ∃ m' h', kfree (HEAP_LOW h + span ts1 + HEADER_SIZE) m h fuel = Ret (m', h') ∧
    heap_inv m' h' (coalesce ts1 s ts2).
Proof.
  destruct (kfree_cases m h ts1 s ts2 fuel Hinv Hfuel) as (m' & h' & ? & ? & _). eauto.
Qed.

(** The demo heap after two allocations of 40 bytes. *)
Definition demo_mem2 : mem :=
  {[ 65536 := MAGIC; 65544 := 64; 65552 := 65600;
     65600 := MAGIC; 65608 := 64; 65616 := 65664;
     65664 := MAGIC; 65672 := 896; 65680 := 0 ]}.
Definition demo_heap2 : heap := mkHeap 65664 65536 66560.

Lemma demo_heap2_inv :
  heap_inv demo_mem2 demo_heap2 ([(64, false)] ++ (64, false) :: [(896, true)]).
Proof. constructor; vm_compute; repeat split; done. Qed.

Lemma kfree_spec_witness :
  ∃ m' h', kfree (HEAP_LOW demo_heap2 + span [(64, false)] + HEADER_SIZE)
             demo_mem2 demo_heap2 4 = Ret (m', h') ∧
    heap_inv m' h' (coalesce [(64, false)] 64 [(896, true)]).
Proof.
  apply (kfree_spec demo_mem2 demo_heap2 [(64, false)] 64 [(896, true)] 4);
    [apply demo_heap2_inv|simpl; lia].
Defined.

Lemma coalesce_split ts1 s needed ts2 :
  no_adj (ts1 ++ (s, true) :: ts2) →
  match split_tile s needed with
  | (n, _) :: rest => coalesce ts1 n (rest ++ ts2) = ts1 ++ (s, true) :: ts2
  | [] => False
  end.
Proof.
  intros (H1 & H2 & H3)%no_adj_app. rewrite andb_true_r in H3.
  destruct (merge_prev_cases ts1) as [(ts1' & p & -> & _)|[_ Em]];
    [by rewrite ends_free_snoc in H3|].
  unfold split_tile, coalesce. destruct (_ <=? _); simpl.
  - rewrite Em, <- app_assoc. simpl. do 3 f_equal. lia.
  - assert (merge_next s ts2 = (s, ts2)) as ->.
    { destruct ts2 as [|[? []] ?]; simpl in *; done. }
    by rewrite Em, <- app_assoc.
Qed.

(** Freeing what [kmalloc] returned brings the heap back to the very tiling it
    had before, for every size the rounding does not overflow on. *)
Theorem kmalloc_kfree_roundtrip (m : mem) (h : heap) (ts : list tile) (size : Z)
    (fuel : nat) (p : Z) (m' : mem) (h' : heap)
    (Hinv : heap_inv m h ts) (Hsize : 0 < size ≤ 2 ^ 64 - 32)
    (Hfuel : (length ts < fuel)%nat)
    (Hp : kmalloc size m h fuel = Ret (p, m', h')) (Hnn : p ≠ 0) :
  ∃ m'' h'', kfree p m' h' fuel = Ret (m'', h'') ∧ heap_inv m'' h'' ts.
Proof.
  destruct (kmalloc_cases m h ts size fuel Hinv Hsize Hfuel)
    as [(ts1 & s & ts2 & m1 & h1 & -> & _ & _ & E & _ & Hinv1 & Hl)|[_ E]];
    rewrite E in Hp; simplify_eq.
  rewrite length_app in Hfuel. pose proof (coalesce_split _ _ (needed_size size) _ (inv_merged _ _ _ Hinv)) as Hc.
  assert (∃ n rest, split_tile s (needed_size size) = (n, false) :: rest) as (n & rest & Es)
    by (unfold split_tile; destruct (_ <=? _); eauto).
  rewrite Es in Hc, Hinv1. simpl in Hinv1.
  destruct (kfree_cases m' h' ts1 n (rest ++ ts2) fuel Hinv1) as (m2 & h2 & Ef & Hinv2 & _);
    [lia|].
  rewrite Hc in Hinv2. rewrite Hl in Ef. eauto.
Qed.

Lemma kmalloc_kfree_roundtrip_witness :
  ∃ m'' h'', kfree 65560
    (fst (fst (match kmalloc 100 demo_mem demo_heap 2 with
               | Ret (_, m, h) => (m, h, 0) | _ => (demo_mem, demo_heap, 0) end)))
    (snd (fst (match kmalloc 100 demo_mem demo_heap 2 with
               | Ret (_, m, h) => (m, h, 0) | _ => (demo_mem, demo_heap, 0) end))) 2
    = Ret (m'', h'') ∧ heap_inv m'' h'' [(1024, true)].
Proof.
  apply (kmalloc_kfree_roundtrip demo_mem demo_heap [(1024, true)] 100 2);
    [apply demo_heap_inv|lia|simpl; lia|reflexivity|lia].
Defined.

(** The rounding of the request is not checked for overflow: a request of
    [2^64 - 1] bytes wraps to a zero-byte payload, and [kmalloc] answers with a
    non-null pointer to a block of 24 bytes, its header. *)
Theorem kmalloc_huge_request_wraps :
  needed_size (2 ^ 64 - 1) = HEADER_SIZE ∧
  match kmalloc (2 ^ 64 - 1) demo_mem demo_heap 2 with
  | Ret (p, m', _) => p = 65560 ∧ h_size m' 65536 = HEADER_SIZE
  | _ => False
  end.
Proof. vm_compute. done. Qed.

(** ** Accounting *)

(** The bytes and the number of the free tiles. *)
Fixpoint free_total (ts : list tile) : Z :=
  match ts with [] => 0 | (s, f) :: ts => (if f then s else 0) + free_total ts end.
Fixpoint free_count (ts : list tile) : Z :=
  match ts with [] => 0 | (_, f) :: ts => (if f then 1 else 0) + free_count ts end.

Lemma free_total_le m a ts nx : seg m a ts nx → 0 ≤ free_count ts ≤ free_total ts ≤ span ts.
Proof.
  revert a. induction ts as [|[s f] ts IH]; intros a; simpl; [lia|].
  intros (Hs & _ & _ & _ & _ & Hseg). apply IH in Hseg. unfold HEADER_SIZE in Hs.
  destruct f; lia.
Qed.

Lemma free_walks m a ts total count fuel :
  seg m a ts 0 → 0 < a → 0 ≤ total → total + free_total ts < 2 ^ 64 →
  0 ≤ count → count + free_count ts < 2 ^ 64 → (length ts < fuel)%nat →
  free_bytes_walk m (first_free a ts 0) total fuel = Ret (total + free_total ts) ∧
  count_walk m (first_free a ts 0) count fuel = Ret (count + free_count ts).
Proof.
  revert a total count fuel. induction ts as [|[s f] ts IH]; intros a total count fuel Hseg Ha Ht Htl Hc Hcl Hf.
  { destruct fuel; [simpl in Hf; lia|]. simpl. by rewrite !Z.add_0_r. }
  apply seg_cons in Hseg as (Hs & H8 & Hm & Hsz & Hn & Hseg). unfold HEADER_SIZE in Hs.
  pose proof (free_total_le _ _ _ _ Hseg). cbn [length free_total free_count] in *.
  destruct f; cbn [first_free].
  - destruct fuel as [|fuel]; [lia|]. cbn [free_bytes_walk count_walk].
    destruct (Z.eqb_spec a 0); [lia|]. rewrite Hsz, Hn, !u64_small by lia.
    destruct (IH (a + s) (total + s) (count + 1) fuel) as [-> ->]; try done; try lia.
    by rewrite !Z.add_assoc.
  - apply IH; try done; lia.
Qed.

(** The figures [dump_stats] prints are those of the tiling: it terminates, the
    free bytes and the list length are those of the free tiles, and the used
    bytes are exactly the allocated tiles, so used plus free is the heap. *)
Theorem dump_stats_spec (m : mem) (h : heap) (ts : list tile) (fuel : nat)
    (Hinv : heap_inv m h ts) (Hfuel : (length ts < fuel)%nat) :
  dump_stats m h fuel = Ret (span ts, span ts - free_total ts, free_total ts, free_count ts).
Proof.
  destruct Hinv as [Hl Ha Hh Hc Hseg Hhd Hmg].
  pose proof (free_total_le _ _ _ _ Hseg).
  unfold dump_stats, compute_free_bytes. rewrite Hhd.
  destruct (free_walks m (HEAP_LOW h) ts 0 0 fuel) as [-> ->]; try done; try lia.
  unfold mbind, outcome_bind. rewrite !Z.add_0_l.
  replace (HEAP_HIGH h - HEAP_LOW h) with (span ts) by lia.
  by rewrite !u64_small by lia.
Qed.

(** [kmm_init] on a PMM with 256 free pages from its lowest free page. *)
Lemma init_block_inv m b hi :
  0 < b → b mod 4096 = 0 → hi = b + 1048576 → hi < 2 ^ 64 →
  heap_inv (set_next (set_size (set_magic m b MAGIC) b 1048576) b 0) (mkHeap b b hi)
    [(1048576, true)].
Proof.
  intros Hb Hm -> Hh. split; simpl; try done; try lia.
  - apply Z.mod_divide in Hm as [k ->]; [|lia]. apply Z.mod_divide; [lia|]. exists (k * 512). lia.
  - unfold h_magic, h_size, h_next, set_next, set_size, set_magic.
    autorewrite with mem. rewrite ld32_st32_eq by done. unfold HEADER_SIZE, MAGIC. auto with lia.
Qed.

Lemma dump_stats_spec_witness :
  dump_stats demo_mem2 demo_heap2 4 = Ret (1024, 128, 896, 1).
Proof.
  apply (dump_stats_spec demo_mem2 demo_heap2 ([(64, false)] ++ (64, false) :: [(896, true)]) 4);
    [apply demo_heap2_inv|simpl; lia].
Defined.

(** [init] takes a run of 256 pages from the PMM and establishes the heap
    invariant with one free block over all of it; when the PMM has no such run
    from its lowest free page, the heap statics and the memory stay as they were. *)
Theorem kmm_init_spec (a : PmmAllocator) (bm : bitmap) (m : mem) (h : heap)
    (Ha : pmm_wf a) (Halign : memory_start a mod 4096 = 0) (Hbm : bm_wf bm) :
  (∃ k bm' m' h', (∀ j, k ≤ j < k + 256 → used bm j = false) ∧
     kmm_init a bm m h = Ret (bm', m', h') ∧ HEAP_LOW h' = page_addr a k ∧
     heap_inv m' h' [(1048576, true)] ∧
     ∀ j, in_range j → used bm' j = ((k <=? j) && (j <? k + 256)) || used bm j) ∨
  (kmm_init a bm m h = Ret (bm, m, h) ∧
   ∀ k, 0 ≤ k → (∀ j, 0 ≤ j < k → used bm j = true) →
     ¬ (k + 256 ≤ total_pages a ∧ ∀ j, k ≤ j < k + 256 → used bm j = false)).
Proof.
  unfold kmm_init, INITIAL_HEAP_PAGES.
  destruct (alloc_pages_cases a bm 256 Ha Hbm eq_refl)
    as [(k & bm' & Hk & _ & Hle & Hf & -> & _ & Hu)|[-> Hno]]; simpl; [left|by right].
  pose proof Ha as (Ht & Hs & Hw). unfold PMM_MAX_PAGES, PMM_PAGE_SIZE in Ht, Hw.
  assert (page_addr a k = memory_start a + k * 4096) as Hp by done.
  destruct (Z.eqb_spec (page_addr a k) 0); [lia|].
  exists k, bm'. eexists _, _. split; [done|]. split; [done|]. split; [done|]. split; [|done].
  unfold PMM_PAGE_SIZE. rewrite u64_small by lia. apply init_block_inv; try lia.
  rewrite Hp, Z.mod_add by lia. done.
Qed.

Definition wide_pmm : PmmAllocator := mkPmm 512 1048576.

Lemma kmm_init_spec_witness :
  (∃ k bm' m' h', (∀ j, k ≤ j < k + 256 → used (demo_bm 1) j = false) ∧
     kmm_init wide_pmm (demo_bm 1) ∅ (mkHeap 0 0 0) = Ret (bm', m', h') ∧
     HEAP_LOW h' = page_addr wide_pmm k ∧ heap_inv m' h' [(1048576, true)] ∧
     ∀ j, in_range j → used bm' j = ((k <=? j) && (j <? k + 256)) || used (demo_bm 1) j) ∨
  (kmm_init wide_pmm (demo_bm 1) ∅ (mkHeap 0 0 0) = Ret (demo_bm 1, ∅, mkHeap 0 0 0) ∧
   ∀ k, 0 ≤ k → (∀ j, 0 ≤ j < k → used (demo_bm 1) j = true) →
     ¬ (k + 256 ≤ total_pages wide_pmm ∧
        ∀ j, k ≤ j < k + 256 → used (demo_bm 1) j = false)).
Proof.
  apply (kmm_init_spec wide_pmm (demo_bm 1) ∅ (mkHeap 0 0 0));
    [unfold pmm_wf, wide_pmm, PMM_MAX_PAGES, PMM_PAGE_SIZE; simpl; lia|done
    |apply demo_bm_wf; lia].
Defined.

(** The self-test on the demo heap: the freed block is reused and the free list
    ends as one block. *)
Example test_demo :
  match test demo_mem demo_heap 6 with
  | Ret (Some (reused, count), _, _) => reused = true ∧ count = 1
  | _ => False
  end.
Proof. vm_compute. done. Qed.

(** ** The self-test at boot *)

(** Writing to the first word of an allocated block. *)
Lemma payload_write m h ts1 s ts2 v : heap_inv m h (ts1 ++ (s, false) :: ts2) → HEADER_SIZE + 8 ≤ s →
  heap_inv (st64 m (HEAP_LOW h + span ts1 + HEADER_SIZE) v) h (ts1 ++ (s, false) :: ts2).
Proof.
  intros [Hl Ha Hh Hc Hs Hhd Hm] H32. split; try done. apply seg_app in Hs as [Hs1 Hs2]. apply seg_app.
  pose proof (seg_span _ _ _ _ Hs1) as [Hsp _]. pose proof Hs2 as (H24 & _ & _ & _ & _ & Hs3). pose proof (seg_span _ _ _ _ Hs3) as [Hsp3 _].
  unfold HEADER_SIZE in *. split.
  - apply (seg_agree m); [|done]. intros x Hx. rewrite ld_st_ne; [done|lia].
  - apply seg_cons in Hs2 as (? & ? & Hmg & Hsz & Hn & _). apply seg_cons. unfold HEADER_SIZE, h_magic, h_size, ld32 in *.
    rewrite !ld_st_ne by lia. do 5 (split; [done|]). apply (seg_agree m); [|done]. intros x Hx. rewrite ld_st_ne; [done|lia].
Qed.

Lemma first_fit_unique n ts1 s ts2 ts1' s' ts2' : ts1 ++ (s, true) :: ts2 = ts1' ++ (s', true) :: ts2' →
  Forall (unfit n) ts1 → Forall (unfit n) ts1' → n ≤ s → n ≤ s' → ts1 = ts1' ∧ s = s' ∧ ts2 = ts2'.
Proof.
  revert ts1'. induction ts1 as [|t ts1 IH]; intros [|t' ts1'] E F F' Hs Hs'; cbn in E; simplify_eq; try done.
  - inversion_clear F' as [|? ? Hu]. specialize (Hu eq_refl). cbn in Hu. lia.
  - inversion_clear F as [|? ? Hu]. specialize (Hu eq_refl). cbn in Hu. lia.
  - inversion_clear F. inversion_clear F'. by destruct (IH ts1') as (-> & -> & ->).
Qed.

Lemma kmalloc_at m h ts1 s ts2 size fuel : heap_inv m h (ts1 ++ (s, true) :: ts2) → 0 < size ≤ 2 ^ 64 - 32 →
  (length (ts1 ++ (s, true) :: ts2) < fuel)%nat → Forall (unfit (needed_size size)) ts1 → needed_size size ≤ s →
  ∃ m' h', kmalloc size m h fuel = Ret (HEAP_LOW h + span ts1 + HEADER_SIZE, m', h') ∧
    heap_inv m' h' (ts1 ++ split_tile s (needed_size size) ++ ts2) ∧ HEAP_LOW h' = HEAP_LOW h.
Proof.
  intros Hi Hs Hf Hu Hn. destruct (kmalloc_cases m h _ size fuel Hi Hs Hf) as [(ts1' & s' & ts2' & m' & h' & E & Hu' & Hn' & Ek & _ & Hi' & Hl)|[Hall _]].
  - destruct (first_fit_unique _ _ _ _ _ _ _ E Hu Hu' Hn Hn') as (<- & <- & <-). eauto.
  - apply Forall_app in Hall as [_ Hall]. inversion_clear Hall as [|? ? Hbad]. specialize (Hbad eq_refl). cbn in Hbad. lia.
Qed.

(** On a heap of one free block the test finds its block again and leaves one free block. *)
Lemma test_fresh m h S fuel : heap_inv m h [(S, true)] → 4096 ≤ S → (6 < fuel)%nat →
  ∃ m' h', test m h fuel = Ret (Some (true, 1), m', h') ∧ heap_inv m' h' [(S, true)] ∧ HEAP_LOW h' = HEAP_LOW h.
Proof.
  intros I0 HS Hf. pose proof (inv_low _ _ _ I0) as Hlow. unfold test.
  destruct (kmalloc_at m h [] S [] 32 fuel I0 ltac:(lia) ltac:(cbn; lia) ltac:(constructor) ltac:(vm_compute needed_size; lia))
    as (m1 & h1 & -> & I1 & L1). change (needed_size 32) with 56 in I1. unfold split_tile in I1.
  rewrite (proj2 (Z.leb_le _ _)) in I1 by (unfold MIN_BLOCK_SIZE; lia). cbn [app mbind outcome_bind] in I1 |- *.
  destruct (kmalloc_at m1 h1 [(56, false)] (S - 56) [] 64 fuel I1 ltac:(lia) ltac:(cbn; lia) ltac:(by repeat constructor) ltac:(vm_compute needed_size; lia))
    as (m2 & h2 & -> & I2 & L2). change (needed_size 64) with 88 in I2. unfold split_tile in I2.
  rewrite (proj2 (Z.leb_le _ _)) in I2 by (unfold MIN_BLOCK_SIZE; lia). cbn [app mbind outcome_bind] in I2 |- *.
  destruct (kmalloc_at m2 h2 [(56, false); (88, false)] (S - 56 - 88) [] 128 fuel I2 ltac:(lia) ltac:(cbn; lia) ltac:(by repeat constructor) ltac:(vm_compute needed_size; lia))
    as (m3 & h3 & -> & I3 & L3). change (needed_size 128) with 152 in I3. unfold split_tile in I3.
  rewrite (proj2 (Z.leb_le _ _)) in I3 by (unfold MIN_BLOCK_SIZE; lia). cbn [app mbind outcome_bind] in I3 |- *.
  cbn [span fst]. rewrite !(proj2 (Z.eqb_neq _ 0)) by (unfold HEADER_SIZE; lia). cbn [orb].
  apply (payload_write m3 h3 [] 56 _ 16045690984503098046) in I3; [|done]. cbn [app span] in I3.
  apply (payload_write _ h3 [(56, false)] 88 _ 1311768467463790320) in I3; [|done]. cbn [app span fst] in I3.
  apply (payload_write _ h3 [(56, false); (88, false)] 152 _ 1085102592319205616) in I3; [|done]. cbn [app span fst] in I3.
  rewrite L3, L2, L1 in *. set (m4 := st64 _ _ _) in *. cbv zeta.
  destruct (kfree_cases m4 h3 [(56, false)] 88 _ fuel I3 ltac:(cbn; lia)) as (m5 & h5 & E5 & I5 & L5).
  cbn [span fst] in E5. rewrite ?L3 in E5, L5. rewrite E5. cbn [mbind outcome_bind]. cbn in I5.
  destruct (kmalloc_at m5 h5 [(56, false)] 88 _ 64 fuel I5 ltac:(lia) ltac:(cbn; lia) ltac:(by repeat constructor) ltac:(done))
    as (m6 & h6 & -> & I6 & L6). change (needed_size 64) with 88 in I6. change (split_tile 88 88) with [(88, false)] in I6. cbn [app mbind outcome_bind] in I6 |- *.
  destruct (kfree_cases m6 h6 [] 56 _ fuel I6 ltac:(cbn; lia)) as (m7 & h7 & E7 & I7 & L7).
  cbn [span fst] in E7 |- *. rewrite L6, L5 in E7, L7. rewrite ?L5. rewrite E7. cbn [mbind outcome_bind]. cbn in I7.
  destruct (kfree_cases m7 h7 [(56, true); (88, false)] 152 _ fuel I7 ltac:(cbn; lia)) as (m8 & h8 & E8 & I8 & L8).
  cbn [span fst] in E8. rewrite L7 in E8, L8. rewrite E8. cbn [mbind outcome_bind]. cbn in I8.
  destruct (kfree_cases m8 h8 [(56, true)] 88 _ fuel I8 ltac:(cbn; lia)) as (m9 & h9 & E9 & I9 & L9).
  cbn [span fst] in E9. rewrite L8 in E9, L9. rewrite E9. cbn [mbind outcome_bind]. cbn in I9.
  replace (56 + (88 + (152 + (S - 56 - 88 - 152)))) with S in I9 by lia.
  pose proof I9 as [Hl _ _ _ Hseg Hhd _]. rewrite Hhd.
  destruct (free_walks m9 (HEAP_LOW h9) [(S, true)] 0 0 fuel) as [_ ->]; try done; try (cbn; lia).
  { pose proof (inv_cover _ _ _ I9). pose proof (inv_high _ _ _ I9). cbn in *. lia. }
  cbn [mbind outcome_bind]. rewrite Z.eqb_refl. eexists _, _. split; [done|]. split; [done|congruence].
Qed.

(** [kmm_init] when the lowest free page starts a run of 256. *)
Lemma kmm_init_at a bm m h k : pmm_wf a → memory_start a mod 4096 = 0 → bm_wf bm → 0 ≤ k → k + 256 ≤ total_pages a →
  (∀ j, 0 ≤ j < k → used bm j = true) → (∀ j, k ≤ j < k + 256 → used bm j = false) →
  ∃ bm' m' h', kmm_init a bm m h = Ret (bm', m', h') ∧ HEAP_LOW h' = page_addr a k ∧ heap_inv m' h' [(1048576, true)] ∧
    bm_wf bm' ∧ ∀ j, in_range j → used bm' j = ((k <=? j) && (j <? k + 256)) || used bm j.
Proof.
  intros Ha Hal Hbm Hk Ht Hlow Hrun. unfold kmm_init, INITIAL_HEAP_PAGES.
  destruct (alloc_pages_cases a bm 256 Ha Hbm eq_refl) as [(k' & bm' & Hk' & Hlow' & Hle & Hf & -> & Hwf & Hu)|[_ Hno]].
  2:{ exfalso. by apply (Hno k Hk Hlow). }
  assert (k' = k) as ->.
  { destruct (Z.lt_trichotomy k' k) as [Hlt|[?|Hlt]]; [|done|].
    - specialize (Hlow k' ltac:(lia)). rewrite Hf in Hlow by lia. done.
    - specialize (Hlow' k ltac:(lia)). rewrite Hrun in Hlow' by lia. done. }
  pose proof Ha as (Htp & Hs & Hw). unfold PMM_MAX_PAGES, PMM_PAGE_SIZE in Htp, Hw.
  assert (page_addr a k = memory_start a + k * 4096) as Hp by done. cbn [mbind outcome_bind].
  destruct (Z.eqb_spec (page_addr a k) 0); [lia|]. eexists _, _, _. split; [done|]. split; [done|]. split; [|by split].
  unfold PMM_PAGE_SIZE. rewrite u64_small by lia. apply init_block_inv; try lia. rewrite Hp, Z.mod_add by lia. done.
Qed.
