(* ===== verification/Ring.v ===== *)
(** * Ring buffers

    What the circular buffers of the kernel (pipe, terminal, keyboard) have in
    common: the bytes held between [tail] and [head] of an array of [N] bytes, one
    of which always stays empty, as a list, oldest byte first. *)

From Stdlib Require Import ZArith Lia.
From stdpp Require Import base numbers list list_numbers option.
From S2P Require Import Prelude.

Local Open Scope Z_scope.

(** The byte at index [i], 0 out of range. *)
Definition byte_at (buf : list Z) (i : Z) : Z := default 0 (buf !! Z.to_nat i).

(** The bytes from [tail] up to [head]. *)
Definition contents (N : Z) (buf : list Z) (head tail : Z) : list Z :=
  (λ i, byte_at buf ((tail + i) mod N)) <$> seqZ 0 ((head - tail) mod N).

Section ring.
Context (N : Z) (HN : 0 < N).

(** The shape every ring operation keeps. *)
Definition ring_wf (buf : list Z) (head tail : Z) : Prop :=
  Z.of_nat (length buf) = N ∧ 0 ≤ head < N ∧ 0 ≤ tail < N.

Lemma contents_length buf head tail :
  Z.of_nat (length (contents N buf head tail)) = (head - tail) mod N.
Proof.
  unfold contents. rewrite length_fmap, length_seqZ.
  pose proof (Z.mod_pos_bound (head - tail) N HN). lia.
Qed.

Lemma contents_nil buf head : contents N buf head head = [].
Proof. unfold contents. by rewrite Z.sub_diag, Z.mod_0_l by lia. Qed.

Lemma used_zero head tail : 0 ≤ head < N → 0 ≤ tail < N →
  (head - tail) mod N = 0 ↔ head = tail.
Proof.
  intros Hh Ht. split; [|intros ->; by rewrite Z.sub_diag, Z.mod_0_l by lia].
  intros H. apply Z.mod_divide in H as [k Hk]; [|lia].
  assert (k < 1) by nia. assert (-1 < k) by nia. nia.
Qed.

(** The number of bytes held after one more. *)
Lemma used_succ head tail : 0 ≤ head < N → 0 ≤ tail < N → (head + 1) mod N ≠ tail →
  ((head + 1) mod N - tail) mod N = (head - tail) mod N + 1.
Proof.
  intros Hh Ht Hne. rewrite Zminus_mod_idemp_l.
  replace (head + 1 - tail) with (head - tail + 1) by lia.
  pose proof (Z.mod_pos_bound (head - tail) N HN).
  rewrite <- Zplus_mod_idemp_l.
  destruct (decide ((head - tail) mod N + 1 = N)) as [E|]; [|by apply Z.mod_small; lia].
  exfalso. apply Hne.
  pose proof (Z.div_mod (head - tail) N ltac:(lia)) as Hd.
  replace (head + 1) with (tail + (((head - tail) / N) + 1) * N) by nia.
  rewrite Z.mod_add by lia. by apply Z.mod_small.
Qed.

(** Writing at [head] and advancing it appends a byte. *)
Lemma contents_push buf head tail b :
  ring_wf buf head tail → (head + 1) mod N ≠ tail →
  contents N (<[Z.to_nat head := b]> buf) ((head + 1) mod N) tail
  = contents N buf head tail ++ [b].
Proof.
  intros (Hl & Hh & Ht) Hne. unfold contents. rewrite used_succ by done.
  pose proof (Z.mod_pos_bound (head - tail) N HN) as Hb.
  rewrite seqZ_app, fmap_app by lia. f_equal.
  - apply list_fmap_ext. intros k i Hi. apply lookup_seqZ in Hi as [-> Hk].
    unfold byte_at. rewrite list_lookup_insert_ne; [done|]. intros Heq.
    rewrite Z.add_0_l in Heq.
    pose proof (Z.mod_pos_bound (tail + Z.of_nat k) N HN).
    assert (head = (tail + Z.of_nat k) mod N) as -> by lia.
    rewrite Zminus_mod_idemp_l in Hk.
    replace (tail + Z.of_nat k - tail) with (Z.of_nat k) in Hk by lia.
    pose proof (Z.mod_le (Z.of_nat k) N). lia.
  - unfold seqZ. rewrite Z.add_0_l. simpl. unfold byte_at. rewrite Z.add_0_l.
    rewrite Zplus_mod_idemp_r. replace (tail + (head - tail)) with head by lia.
    rewrite Z.mod_small by done. rewrite list_lookup_insert_eq by lia. done.
Qed.

(** Reading at [tail] and advancing it takes the oldest byte. *)
Lemma contents_pop buf head tail :
  ring_wf buf head tail → head ≠ tail →
  contents N buf head tail = byte_at buf tail :: contents N buf head ((tail + 1) mod N).
Proof.
  intros (Hl & Hh & Ht) Hne. unfold contents.
  pose proof (Z.mod_pos_bound (head - tail) N HN) as Hb.
  assert ((head - tail) mod N ≠ 0) by (rewrite used_zero by done; lia).
  rewrite (seqZ_cons 0) by lia. cbn [fmap list_fmap].
  rewrite Z.add_0_r, Z.mod_small by done. f_equal.
  assert ((head - (tail + 1) mod N) mod N = Z.pred ((head - tail) mod N)) as ->.
  { rewrite Zminus_mod_idemp_r. replace (head - (tail + 1)) with (head - tail - 1) by lia.
    rewrite <- Zminus_mod_idemp_l. rewrite Z.mod_small by lia. lia. }
  change (Z.succ 0) with (1 + 0). rewrite <- (fmap_add_seqZ 1 0).
  rewrite <- list_fmap_compose. apply list_fmap_ext. intros k i _. simpl.
  unfold byte_at. f_equal. f_equal. f_equal.
  rewrite Zplus_mod_idemp_l. f_equal. lia.
Qed.

Lemma ring_wf_push buf head tail b :
  ring_wf buf head tail → ring_wf (<[Z.to_nat head := b]> buf) ((head + 1) mod N) tail.
Proof.
  intros (? & ? & ?). unfold ring_wf. rewrite length_insert.
  pose proof (Z.mod_pos_bound (head + 1) N HN). auto.
Qed.

Lemma ring_wf_pop buf head tail :
  ring_wf buf head tail → ring_wf buf head ((tail + 1) mod N).
Proof.
  intros (? & ? & ?). unfold ring_wf. pose proof (Z.mod_pos_bound (tail + 1) N HN). auto.
Qed.

(** Full is one byte short of the array. *)
Lemma ring_full buf head tail : ring_wf buf head tail →
  ((head + 1) mod N = tail ↔ Z.of_nat (length (contents N buf head tail)) = N - 1).
Proof.
  intros (Hl & Hh & Ht). rewrite contents_length. split.
  - intros <-. rewrite Zminus_mod_idemp_r. replace (head - (head + 1)) with (-1) by lia.
    replace (-1) with (N - 1 + (-1) * N) by lia. rewrite Z.mod_add by lia. apply Z.mod_small. lia.
  - intros E. destruct (decide ((head + 1) mod N = tail)) as [|Hne]; [done|].
    pose proof (used_succ head tail Hh Ht Hne) as Hs.
    pose proof (Z.mod_pos_bound ((head + 1) mod N - tail) N HN). lia.
Qed.

Lemma contents_bound buf head tail : Z.of_nat (length (contents N buf head tail)) < N.
Proof. rewrite contents_length. apply Z.mod_pos_bound. lia. Qed.
End ring.

#[export] Hint Resolve ring_wf_push ring_wf_pop : vibix.
