(* ===== verification/Heap.v ===== *)
(** * The heap as its clients see it

    What [kmm.rs] promises the subsystems that call [kmalloc] and [kfree] (pipes,
    initramfs): a class of heap states with the map of live blocks, from the
    pointer handed out to the usable bytes behind it.  The clients are verified
    against the class; the free list of [Kmm] is shown to implement it. *)

From Stdlib Require Import ZArith Lia.
From stdpp Require Import base numbers list option gmap fin_maps.
From S2P Require Import Prelude Memory Kmm.

Local Open Scope Z_scope.

Class KHeap (H : Type) := {
  kmalloc_op : Z → H → outcome (Z * H);
  kfree_op : Z → H → outcome H;
  heap_rep : H → gmap Z Z → Prop
}.

Class KHeapLaws (H : Type) `{KHeap H} := {
  rep_nonnull : ∀ s L, heap_rep s L → L !! 0 = None;
  kmalloc_law : ∀ s L size, heap_rep s L → 0 < size ≤ 2 ^ 64 - 32 →
    kmalloc_op size s = Ret (0, s) ∨
    ∃ p n s', kmalloc_op size s = Ret (p, s') ∧ p ≠ 0 ∧ L !! p = None ∧ size ≤ n ∧
      heap_rep s' (<[p := n]> L);
  kfree_law : ∀ s L p, heap_rep s L → is_Some (L !! p) →
    ∃ s', kfree_op p s = Ret s' ∧ heap_rep s' (delete p L)
}.

(** ** The free list implements it *)

(** Every tile has at least a header, so this many steps exhaust the free list. *)
Definition heap_fuel (h : heap) : nat := S (Z.to_nat ((HEAP_HIGH h - HEAP_LOW h) / HEADER_SIZE)).

(** The pointers handed out for the allocated tiles, with their usable bytes. *)
Fixpoint allocs (a : Z) (ts : list tile) : list (Z * Z) :=
  match ts with
  | [] => []
  | (s, f) :: ts =>
      (if f then [] else [(a + HEADER_SIZE, s - HEADER_SIZE)]) ++ allocs (a + s) ts
  end.

#[global] Instance kmm_heap : KHeap (mem * heap) := {
  kmalloc_op size s :=
    '(p, m, h) ← kmalloc size s.1 s.2 (heap_fuel s.2); Ret (p, (m, h));
  kfree_op p s := kfree p s.1 s.2 (heap_fuel s.2);
  heap_rep s L := ∃ ts, heap_inv s.1 s.2 ts ∧ L = list_to_map (allocs (HEAP_LOW s.2) ts)
}.

Lemma tiles_fuel m h ts : heap_inv m h ts → (length ts < heap_fuel h)%nat.
Proof.
  intros [_ _ _ Hc Hseg _ _]. unfold heap_fuel, HEADER_SIZE.
  assert (Z.of_nat (length ts) * 24 ≤ span ts) as Hl.
  { clear Hc. revert Hseg. generalize (HEAP_LOW h).
    induction ts as [|[s f] ts IH]; intros a; simpl; [lia|].
    intros (Hs & _ & _ & _ & _ & Hseg). apply IH in Hseg. unfold HEADER_SIZE in Hs. lia. }
  replace (HEAP_HIGH h - HEAP_LOW h) with (span ts) by lia.
  apply Nat.lt_succ_r, Nat2Z.inj_le. rewrite Z2Nat.id by (apply Z.div_pos; lia).
  apply Z.div_le_lower_bound; lia.
Qed.

Lemma allocs_app a ts1 ts2 : allocs a (ts1 ++ ts2) = allocs a ts1 ++ allocs (a + span ts1) ts2.
Proof.
  revert a. induction ts1 as [|[s f] ts1 IH]; intros a; simpl; [by rewrite Z.add_0_r|].
  rewrite IH, <- app_assoc. do 3 f_equal. lia.
Qed.

Lemma allocs_range m a ts nx p n :
  seg m a ts nx → (p, n) ∈ allocs a ts → a + HEADER_SIZE ≤ p ≤ a + span ts.
Proof.
  revert a. induction ts as [|[s f] ts IH]; intros a; cbn [allocs span fst].
  { intros _ H. by apply elem_of_nil in H. }
  intros (Hs & _ & _ & _ & _ & Hseg) Hin. pose proof (seg_span _ _ _ _ Hseg) as [? _].
  unfold HEADER_SIZE in *. apply elem_of_app in Hin as [Hin|Hin].
  - destruct f; [by apply elem_of_nil in Hin|].
    apply list_elem_of_singleton in Hin. simplify_eq. lia.
  - specialize (IH _ Hseg Hin). lia.
Qed.

Lemma allocs_nodup m a ts nx : seg m a ts nx → NoDup ((allocs a ts).*1).
Proof.
  revert a. induction ts as [|[s f] ts IH]; intros a; cbn [allocs]; [constructor|].
  intros (Hs & _ & _ & _ & _ & Hseg). destruct f; simpl; [by apply IH|].
  apply NoDup_cons. split; [|by apply IH]. intros Hin.
  apply list_elem_of_fmap in Hin as ([p n] & Heq & Hin). simpl in Heq. subst p.
  apply (allocs_range _ _ _ _ _ _ Hseg) in Hin. unfold HEADER_SIZE in *. lia.
Qed.

Lemma allocs_split a ts p n : (p, n) ∈ allocs a ts →
  ∃ ts1 s ts2, ts = ts1 ++ (s, false) :: ts2 ∧ p = a + span ts1 + HEADER_SIZE ∧
    n = s - HEADER_SIZE.
Proof.
  revert a. induction ts as [|[s f] ts IH]; intros a; cbn [allocs].
  { intros H. by apply elem_of_nil in H. }
  intros Hin. apply elem_of_app in Hin as [Hin|Hin].
  - destruct f; [by apply elem_of_nil in Hin|].
    apply list_elem_of_singleton in Hin. simplify_eq.
    exists [], s, ts. simpl. split; [done|]. split; [lia|done].
  - destruct (IH _ Hin) as (ts1 & s' & ts2 & -> & -> & ->).
    exists ((s, f) :: ts1), s', ts2. simpl. split; [done|]. split; [lia|done].
Qed.

Lemma allocs_coalesce a ts1 s ts2 :
  allocs a (coalesce ts1 s ts2) = allocs a ts1 ++ allocs (a + span ts1 + s) ts2.
Proof.
  unfold coalesce.
  assert (∀ s' r, merge_next s ts2 = (s', r) →
            allocs (a + span ts1 + s') r = allocs (a + span ts1 + s) ts2) as Hn.
  { intros s' r. destruct ts2 as [|[s2 []] ts2]; simpl; intros [= <- <-]; try done.
    f_equal. lia. }
  destruct (merge_next s ts2) as [s' r]. rewrite <- (Hn s' r eq_refl), allocs_app.
  destruct (merge_prev_cases ts1) as [(ts1' & p & -> & ->)|[_ ->]];
    rewrite allocs_app, !span_app; simpl; rewrite ?app_nil_r; [|f_equal; f_equal; lia].
  rewrite allocs_app. simpl. rewrite app_nil_r. f_equal. f_equal. lia.
Qed.

(** Taking or giving back one block changes the live map at its pointer only. *)
Lemma live_middle (A1 A2 : list (Z * Z)) p n :
  NoDup ((A1 ++ (p, n) :: A2).*1) →
  (list_to_map (A1 ++ (p, n) :: A2) : gmap Z Z) = <[p := n]> (list_to_map (A1 ++ A2)) ∧
  (list_to_map (A1 ++ A2) : gmap Z Z) !! p = None.
Proof.
  intros Hnd. split.
  - rewrite (list_to_map_proper _ ((p, n) :: A1 ++ A2)); [done|done|].
    by rewrite Permutation_middle.
  - apply not_elem_of_list_to_map_1. rewrite fmap_app in *. simpl in Hnd.
    rewrite <- Permutation_middle in Hnd. by apply NoDup_cons in Hnd as [? _].
Qed.

Lemma heap_inv_nodup m h ts : heap_inv m h ts → NoDup ((allocs (HEAP_LOW h) ts).*1).
Proof. intros Hinv. eapply allocs_nodup, Hinv. Qed.

Lemma allocs_take a ts1 s ts2 needed : ∃ n,
  allocs a (ts1 ++ split_tile s needed ++ ts2) =
    allocs a ts1 ++ (a + span ts1 + HEADER_SIZE, n) :: allocs (a + span ts1 + s) ts2 ∧
  (needed ≤ s → needed - HEADER_SIZE ≤ n).
Proof.
  rewrite !allocs_app, split_tile_span. unfold split_tile.
  destruct (_ <=? _); simpl; eexists; (split; [done|]); lia.
Qed.

#[global] Instance kmm_heap_laws : KHeapLaws (mem * heap).
Proof.
  split.
  - intros [m h] L (ts & Hinv & ->). apply not_elem_of_list_to_map_1.
    intros ([p n] & Heq & Hin)%list_elem_of_fmap. simpl in *. subst p.
    apply (allocs_range _ _ _ _ _ _ (inv_seg _ _ _ Hinv)) in Hin.
    pose proof (inv_low _ _ _ Hinv). unfold HEADER_SIZE in *. lia.
  - intros [m h] L size (ts & Hinv & ->) Hsize. simpl in *.
    destruct (kmalloc_cases m h ts size (heap_fuel h) Hinv Hsize (tiles_fuel _ _ _ Hinv))
      as [(ts1 & s & ts2 & m' & h' & -> & _ & Hfit & -> & _ & Hinv' & Hl)|[_ ->]];
      simpl; [right|by left].
    pose proof (needed_size_spec size Hsize) as (_ & Hge & _).
    destruct (allocs_take (HEAP_LOW h) ts1 s ts2 (needed_size size)) as (n & En & Hn).
    pose proof (heap_inv_nodup _ _ _ Hinv') as Hnd. rewrite Hl, En in Hnd.
    apply live_middle in Hnd as [Hm Hf].
    assert (allocs (HEAP_LOW h) (ts1 ++ (s, true) :: ts2)
            = allocs (HEAP_LOW h) ts1 ++ allocs (HEAP_LOW h + span ts1 + s) ts2) as ->
      by (by rewrite allocs_app).
    pose proof (seg_span _ _ _ _ (proj1 (proj1 (seg_app _ _ _ _ _) (inv_seg _ _ _ Hinv)))).
    pose proof (inv_low _ _ _ Hinv). eexists _, n, _. split; [done|].
    split; [unfold HEADER_SIZE; lia|]. split; [done|].
    split; [lia|]. exists (ts1 ++ split_tile s (needed_size size) ++ ts2).
    split; [done|]. simpl. by rewrite Hl, En.
  - intros [m h] L p (ts & Hinv & ->) [n Hp]. simpl in *.
    apply elem_of_list_to_map_2, allocs_split in Hp as (ts1 & s & ts2 & -> & -> & ->).
    pose proof (tiles_fuel _ _ _ Hinv) as Hf. rewrite length_app in Hf.
    destruct (kfree_cases m h ts1 s ts2 (heap_fuel h) Hinv) as (m' & h' & -> & Hinv' & Hl); [lia|].
    exists (m', h'). split; [done|]. eexists. split; [done|]. simpl.
    pose proof (heap_inv_nodup _ _ _ Hinv) as Hnd. rewrite allocs_app in Hnd |- *. simpl in Hnd |- *.
    apply live_middle in Hnd as [-> Hfr]. rewrite Hl, allocs_coalesce. by rewrite delete_insert_id.
Qed.
