(* ===== verification/VfsTypes.v ===== *)
(** * VFS data (src/kernel_rust/src/vfs/mod.rs, open_file.rs and the ops tables)

    Constants, vnodes, operation tables and file descriptor tables shared by the
    filesystem components.  A vnode reference is either one of the kernel's static
    vnodes or a pointer returned by [kmalloc]; an operations table is named by the
    static it is the address of, and its function pointers by the functions. *)

From Stdlib Require Import ZArith Lia.
From stdpp Require Import base numbers list option gmap countable.
From S2P Require Import Prelude.

Local Open Scope Z_scope.

Definition V_DIR : Z := 16384.  (* 0o040000 *)
Definition V_FILE : Z := 32768. (* 0o100000 *)
Definition V_CHR : Z := 8192.   (* 0o020000 *)

Definition O_RDONLY : Z := 0.
Definition O_WRONLY : Z := 1.
Definition O_RDWR : Z := 2.

Definition MAX_FDS : Z := 16.
Definition OFT_SIZE : Z := 64.
Definition MAX_MOUNTS : Z := 4.
Definition PATH_MAX : Z := 256.
Definition VFS_MAX_COMPONENTS : Z := 16.

Definition ENOENT : Z := 2.
Definition EBADF : Z := 9.
Definition ENOMEM : Z := 12.
Definition EFAULT : Z := 14.
Definition ENODEV : Z := 19.
Definition ENOTDIR : Z := 20.
Definition EINVAL : Z := 22.
Definition ENFILE : Z := 23.
Definition EMFILE : Z := 24.
Definition ENOTTY : Z := 25.
Definition ESPIPE : Z := 29.
Definition ENAMETOOLONG : Z := 36.

(** [Result<T, i32>]. *)
Abbreviation res A := (A + Z)%type.

(** ** Operation tables *)

Inductive VnOpen := devfs_open_fn | rootfs_open_fn | tty_open_fn.
Inductive VnClose := devfs_close_fn | rootfs_close_fn | tty_close_fn | pipe_close_fn.
Inductive VnRead := devfs_read_fn | tty_read_fn | initramfs_read_fn | pipe_read_fn.
Inductive VnWrite := devfs_write_fn | tty_write_fn | pipe_write_fn.
Inductive VnLseek := devfs_lseek_fn | pipe_lseek_fn.
Inductive VnReaddir := devfs_readdir_fn | rootfs_readdir_fn.
Inductive VnIoctl := devfs_ioctl_fn | tty_ioctl_fn.

Record VnodeOps := mkOps {
  op_open : option VnOpen;
  op_close : option VnClose;
  op_read : option VnRead;
  op_write : option VnWrite;
  op_lseek : option VnLseek;
  op_readdir : option VnReaddir;
  op_ioctl : option VnIoctl
}.

Definition DEVFS_OPS : VnodeOps :=
  mkOps (Some devfs_open_fn) (Some devfs_close_fn) (Some devfs_read_fn)
    (Some devfs_write_fn) (Some devfs_lseek_fn) None (Some devfs_ioctl_fn).
Definition DEVFS_DIR_OPS : VnodeOps :=
  mkOps (Some devfs_open_fn) (Some devfs_close_fn) None None None (Some devfs_readdir_fn) None.
Definition ROOTFS_DIR_OPS : VnodeOps :=
  mkOps (Some rootfs_open_fn) (Some rootfs_close_fn) None None None
    (Some rootfs_readdir_fn) None.
Definition INITRAMFS_FILE_OPS : VnodeOps :=
  mkOps None None (Some initramfs_read_fn) None None None None.
Definition TTY_OPS : VnodeOps :=
  mkOps (Some tty_open_fn) (Some tty_close_fn) (Some tty_read_fn) (Some tty_write_fn)
    None None (Some tty_ioctl_fn).
Definition PIPE_READ_OPS : VnodeOps :=
  mkOps None (Some pipe_close_fn) (Some pipe_read_fn) None (Some pipe_lseek_fn) None None.
Definition PIPE_WRITE_OPS : VnodeOps :=
  mkOps None (Some pipe_close_fn) None (Some pipe_write_fn) (Some pipe_lseek_fn) None None.

(** The address of an operations table. *)
Inductive ops_ptr :=
| at_DEVFS_OPS | at_DEVFS_DIR_OPS | at_ROOTFS_DIR_OPS | at_INITRAMFS_FILE_OPS
| at_TTY_OPS | at_PIPE_READ_OPS | at_PIPE_WRITE_OPS.

#[global] Instance ops_ptr_eq_dec : EqDecision ops_ptr.
Proof. solve_decision. Defined.

Definition deref_ops (p : ops_ptr) : VnodeOps :=
  match p with
  | at_DEVFS_OPS => DEVFS_OPS
  | at_DEVFS_DIR_OPS => DEVFS_DIR_OPS
  | at_ROOTFS_DIR_OPS => ROOTFS_DIR_OPS
  | at_INITRAMFS_FILE_OPS => INITRAMFS_FILE_OPS
  | at_TTY_OPS => TTY_OPS
  | at_PIPE_READ_OPS => PIPE_READ_OPS
  | at_PIPE_WRITE_OPS => PIPE_WRITE_OPS
  end.

(** ** Vnodes *)

Inductive FsType := RootFS | DevFS | InitramFS.

(** The kernel's static vnodes. *)
Inductive static_vnode :=
| ROOT_DIR | SBIN_DIR | BIN_DIR | ETC_DIR | DEV_DIR
| DEVFS_ROOT | DEV_NULL_VNODE | DEV_ZERO_VNODE | DEV_TTYS0_VNODE.

#[global] Instance static_vnode_eq_dec : EqDecision static_vnode.
Proof. solve_decision. Defined.

(** [&'static mut Vnode]: a static, or the result of [kmalloc]. *)
Inductive vref := VStatic (s : static_vnode) | VHeap (p : Z).

#[global] Instance vref_eq_dec : EqDecision vref.
Proof. solve_decision. Defined.

(** The [data] field, an untyped pointer: a small integer (null is 0), a
    NUL-terminated string constant, a position in the archive, or a pipe. *)
Inductive vdata :=
| DInt (n : Z)
| DStr (s : list Z)
| DArchive (off : Z)
| DPipe (p : Z).

Definition data_is_null (d : vdata) : bool := match d with DInt 0 => true | _ => false end.

Record Vnode := mkVnode {
  vn_ops : ops_ptr;
  vn_mode : Z;
  vn_ino : Z;
  vn_size : Z;
  vn_fs_type : FsType;
  vn_data : vdata;
  vn_mount : option vref
}.

(** ** Stat *)

Record Stat := mkStat {
  st_dev : Z; st_ino : Z; st_nlink : Z; st_mode : Z; st_uid : Z; st_gid : Z;
  st_rdev : Z; st_size : Z; st_blksize : Z; st_blocks : Z
}.

(** [stat_from_vnode]; the padding, the six time fields and the reserved words,
    all set to 0, are left out of the record. *)
Definition stat_from_vnode (vn : Vnode) : Stat :=
  {| st_dev := 0;
     st_ino := vn_ino vn;
     st_nlink := 1;
     st_mode := vn_mode vn;
     st_uid := 0;
     st_gid := 0;
     st_rdev := if negb (Z.land (vn_mode vn) V_CHR =? 0) then 257 else 0;
     st_size := i64 (vn_size vn);
     st_blksize := 512;
     st_blocks := i64 (u64 (vn_size vn + 511) / 512) |}.

(** ** Descriptors *)

(** A process's [fd_table.fds]: 16 indices into the open file table, -1 unused. *)
Abbreviation FdTable := (list Z).
Definition FdTable_new : FdTable := replicate (Z.to_nat MAX_FDS) (-1).

Record OpenFile := mkOF {
  of_vnode : option vref;
  of_offset : Z;
  of_flags : Z;
  of_mode : Z;
  of_refcount : Z
}.

Definition set_offset (f : OpenFile) (o : Z) : OpenFile :=
  mkOF (of_vnode f) o (of_flags f) (of_mode f) (of_refcount f).
Definition set_refcount (f : OpenFile) (r : Z) : OpenFile :=
  mkOF (of_vnode f) (of_offset f) (of_flags f) (of_mode f) r.

(** The open file table: [OFT_SIZE] optional entries. *)
Abbreviation OpenFileTable := (list (option OpenFile)).
Definition OpenFileTable_new : OpenFileTable := replicate (Z.to_nat OFT_SIZE) None.

(** The first index whose entry satisfies [P], counting from [i]:
    [iter().position]. *)
Fixpoint position {A} (P : A → bool) (l : list A) (i : Z) : option Z :=
  match l with
  | [] => None
  | x :: l => if P x then Some i else position P l (i + 1)
  end.

Lemma position_spec {A} (P : A → bool) l i :
  match position P l i with
  | Some j => ∃ x, i ≤ j < i + Z.of_nat (length l) ∧ l !! Z.to_nat (j - i) = Some x ∧ P x = true ∧
      ∀ k y, (k < Z.to_nat (j - i))%nat → l !! k = Some y → P y = false
  | None => ∀ k y, l !! k = Some y → P y = false
  end.
Proof.
  revert i. induction l as [|x l IH]; intros i; simpl; [by intros|].
  destruct (P x) eqn:E.
  - exists x. rewrite Z.sub_diag. simpl. split_and!; [lia|lia|done|done|lia].
  - specialize (IH (i + 1)). destruct (position P l (i + 1)) as [j|].
    + destruct IH as (y & Hj & Hl & Hy & Hlow). exists y.
      replace (Z.to_nat (j - i)) with (S (Z.to_nat (j - (i + 1)))) by lia.
      split_and!; [lia|lia|done|done|]. intros [|k] z Hk Hz; simpl in Hz; [by simplify_eq|].
      apply (Hlow k z); [lia|done].
    + intros [|k] y Hy; simpl in Hy; [by simplify_eq|]. by apply (IH k y).
Qed.
