(* ===== verification/Pipe.v ===== *)
(** * Pipe buffers (src/kernel_rust/src/vfs/pipe.rs)

    The shared ring buffer with its absolute positions, its read and write
    operations, and their refinement of a bounded FIFO queue of 4095 bytes.  The
    creation and the closing of pipes are in [OpenFiles]. *)

From Stdlib Require Import ZArith Lia.
From stdpp Require Import base numbers list list_numbers option.
From S2P Require Import Prelude Ring VfsTypes.

Local Open Scope Z_scope.

Definition PIPE_BUF_SIZE : Z := 4096.

Record PipeBuf := mkPipe {
  pb_buf : list Z;
  read_off : Z;
  write_off : Z;
  pb_refcount : Z
}.

(** A zeroed [PipeBuf] with two references. *)
Definition ZERO_BUF : list Z := replicate (Z.to_nat PIPE_BUF_SIZE) 0.
#[global] Arguments ZERO_BUF : simpl never.
Definition PipeBuf_new : PipeBuf := mkPipe ZERO_BUF 0 0 2.

Definition pb_used (pb : PipeBuf) : Z := u64 (write_off pb - read_off pb).

(** The loop of [pipe_read]: [n] bytes, oldest first. *)
Fixpoint pipe_read_loop (pb : PipeBuf) (n : nat) : outcome (list Z * PipeBuf) :=
  match n with
  | O => Ret ([], pb)
  | S n =>
      b ← index (pb_buf pb) (read_off pb mod PIPE_BUF_SIZE);
      let pb := mkPipe (pb_buf pb) (u64 (read_off pb + 1)) (write_off pb) (pb_refcount pb) in
      '(bs, pb) ← pipe_read_loop pb n;
      Ret (b :: bs, pb)
  end.

(** [pipe_read] of [len] bytes: the return value, the bytes stored to the caller's
    buffer, the new state. *)
Definition pipe_read (pb : PipeBuf) (len : Z) : outcome (Z * list Z * PipeBuf) :=
  let avail := pb_used pb in
  if avail =? 0 then Ret (0, [], pb)
  else
    let to_read := Z.min len avail in
    '(bs, pb) ← pipe_read_loop pb (Z.to_nat to_read);
    Ret (i64 to_read, bs, pb).

(** The loop of [pipe_write], over the first bytes of the caller's buffer. *)
Fixpoint pipe_write_loop (pb : PipeBuf) (bytes : list Z) : outcome PipeBuf :=
  match bytes with
  | [] => Ret pb
  | b :: bytes =>
      buf ← store (pb_buf pb) (write_off pb mod PIPE_BUF_SIZE) b;
      pipe_write_loop (mkPipe buf (read_off pb) (u64 (write_off pb + 1)) (pb_refcount pb)) bytes
  end.

(** [pipe_write] of the caller's [bytes]. *)
Definition pipe_write (pb : PipeBuf) (bytes : list Z) : outcome (Z * PipeBuf) :=
  let used := pb_used pb in
  let space := u64 (PIPE_BUF_SIZE - 1 - used) in
  if space =? 0 then Ret (0, pb)
  else
    let to_write := Z.min (Z.of_nat (length bytes)) space in
    pb ← pipe_write_loop pb (take (Z.to_nat to_write) bytes);
    Ret (i64 to_write, pb).

(** [pipe_lseek]. *)
Definition pipe_lseek (offset whence : Z) : Z := - ESPIPE.

(** ** The queue a pipe stands for *)

(** The bytes in the pipe, oldest first. *)
Definition pipe_queue (pb : PipeBuf) : list Z :=
  contents PIPE_BUF_SIZE (pb_buf pb) (write_off pb mod PIPE_BUF_SIZE)
    (read_off pb mod PIPE_BUF_SIZE).

Definition pipe_wf (pb : PipeBuf) : Prop :=
  Z.of_nat (length (pb_buf pb)) = PIPE_BUF_SIZE ∧
  0 ≤ read_off pb < 2 ^ 64 ∧ 0 ≤ write_off pb < 2 ^ 64 ∧
  pb_used pb < PIPE_BUF_SIZE.

(** The wrapping positions and their residues count the same bytes, because the
    buffer size divides [2 ^ 64]. *)
Lemma mod_mod_size x : (x mod 2 ^ 64) mod PIPE_BUF_SIZE = x mod PIPE_BUF_SIZE.
Proof.
  unfold PIPE_BUF_SIZE. apply Z.mod_mod_divide. by exists (2 ^ 52).
Qed.

Lemma pipe_used_mod pb : pipe_wf pb →
  pb_used pb = (write_off pb mod PIPE_BUF_SIZE - read_off pb mod PIPE_BUF_SIZE) mod PIPE_BUF_SIZE.
Proof.
  intros (_ & Hr & Hw & Hu). rewrite <- Zminus_mod.
  rewrite <- mod_mod_size. symmetry. apply Z.mod_small.
  split; [apply Z.mod_pos_bound; lia|done].
Qed.

Lemma pipe_queue_length pb : pipe_wf pb → Z.of_nat (length (pipe_queue pb)) = pb_used pb.
Proof.
  intros Hwf. unfold pipe_queue. rewrite contents_length by done. by rewrite pipe_used_mod.
Qed.

Lemma pipe_ring_wf pb : pipe_wf pb →
  ring_wf PIPE_BUF_SIZE (pb_buf pb) (write_off pb mod PIPE_BUF_SIZE)
    (read_off pb mod PIPE_BUF_SIZE).
Proof. intros (Hl & _). split; [done|]. split; apply Z.mod_pos_bound; done. Qed.

Lemma u64_succ_mod x : u64 (x + 1) mod PIPE_BUF_SIZE = (x mod PIPE_BUF_SIZE + 1) mod PIPE_BUF_SIZE.
Proof. unfold u64. by rewrite mod_mod_size, Zplus_mod_idemp_l. Qed.

(** One byte out. *)
Lemma pipe_pop pb : pipe_wf pb → pb_used pb ≠ 0 →
  ∃ b pb', pipe_read_loop pb 1 = Ret ([b], pb') ∧ pipe_wf pb' ∧
    pipe_queue pb = b :: pipe_queue pb' ∧ pb_refcount pb' = pb_refcount pb ∧
    pb_used pb' = pb_used pb - 1.
Proof.
  intros Hwf Hne. pose proof (pipe_ring_wf pb Hwf) as Hring.
  pose proof Hwf as (Hl & Hr & Hw & Hu).
  assert (write_off pb mod PIPE_BUF_SIZE ≠ read_off pb mod PIPE_BUF_SIZE) as Hd.
  { intros E. apply Hne. rewrite pipe_used_mod, E, Z.sub_diag by done. done. }
  destruct (index_in_range (pb_buf pb) (read_off pb mod PIPE_BUF_SIZE)) as (b & Hb & Hi).
  { rewrite Hl. apply Z.mod_pos_bound. done. }
  exists b, (mkPipe (pb_buf pb) (u64 (read_off pb + 1)) (write_off pb) (pb_refcount pb)).
  assert (pb_used (mkPipe (pb_buf pb) (u64 (read_off pb + 1)) (write_off pb) (pb_refcount pb))
          = pb_used pb - 1) as Hused.
  { unfold pb_used, u64 in *. simpl. rewrite Zminus_mod_idemp_r.
    replace (write_off pb - (read_off pb + 1)) with (write_off pb - read_off pb - 1) by lia.
    rewrite <- Zminus_mod_idemp_l.
    pose proof (Z.mod_pos_bound (write_off pb - read_off pb) (2 ^ 64) ltac:(lia)).
    apply Z.mod_small. lia. }
  split; [simpl; by rewrite Hi|]. split; [|split; [|by split]].
  - split; [done|]. simpl. pose proof (u64_range (read_off pb + 1)). split; [done|].
    split; [done|]. rewrite Hused. lia.
  - unfold pipe_queue. rewrite contents_pop by done. simpl. rewrite u64_succ_mod.
    f_equal. unfold byte_at. by rewrite Hb.
Qed.

(** One byte in. *)
Lemma pipe_push pb b : pipe_wf pb → pb_used pb < PIPE_BUF_SIZE - 1 →
  ∃ pb', pipe_write_loop pb [b] = Ret pb' ∧ pipe_wf pb' ∧
    pipe_queue pb' = pipe_queue pb ++ [b] ∧ pb_refcount pb' = pb_refcount pb ∧
    pb_used pb' = pb_used pb + 1.
Proof.
  intros Hwf Hsp. pose proof (pipe_ring_wf pb Hwf) as Hring.
  pose proof Hwf as (Hl & Hr & Hw & Hu).
  assert ((write_off pb mod PIPE_BUF_SIZE + 1) mod PIPE_BUF_SIZE ≠ read_off pb mod PIPE_BUF_SIZE)
    as Hd.
  { intros E. rewrite pipe_used_mod, <- E, Zminus_mod_idemp_r in Hsp by done.
    replace (_ - (_ + 1)) with (- (1)) in Hsp by lia. done. }
  assert (pb_used (mkPipe (<[Z.to_nat (write_off pb mod PIPE_BUF_SIZE) := b]> (pb_buf pb))
            (read_off pb) (u64 (write_off pb + 1)) (pb_refcount pb)) = pb_used pb + 1) as Hused.
  { unfold pb_used, u64 in *. simpl. rewrite Zminus_mod_idemp_l.
    replace (write_off pb + 1 - read_off pb) with (write_off pb - read_off pb + 1) by lia.
    rewrite <- Zplus_mod_idemp_l. unfold PIPE_BUF_SIZE in *.
    pose proof (Z.mod_pos_bound (write_off pb - read_off pb) (2 ^ 64) ltac:(lia)).
    apply Z.mod_small. lia. }
  eexists. split.
  { cbn [pipe_write_loop]. rewrite store_in_range; [done|]. rewrite Hl. apply Z.mod_pos_bound. done. }
  split; [|split; [|by split]].
  - split; [simpl; by rewrite length_insert|]. pose proof (u64_range (write_off pb + 1)).
    split; [done|]. split; [done|]. rewrite Hused. lia.
  - unfold pipe_queue. cbn [pb_buf write_off read_off]. rewrite u64_succ_mod. by apply contents_push.
Qed.

Lemma pipe_read_loop_spec n pb : pipe_wf pb → Z.of_nat n ≤ pb_used pb →
  ∃ pb', pipe_read_loop pb n = Ret (take n (pipe_queue pb), pb') ∧ pipe_wf pb' ∧
    pipe_queue pb' = drop n (pipe_queue pb) ∧ pb_refcount pb' = pb_refcount pb.
Proof.
  revert pb. induction n as [|n IH]; intros pb Hwf Hn.
  { exists pb. by rewrite take_0, drop_0. }
  destruct (pipe_pop pb Hwf) as (b & pb1 & Hrd & Hwf1 & Hq & Hrc & Hu); [lia|].
  destruct (IH pb1 Hwf1) as (pb' & Hloop & Hwf' & Hq' & Hrc'); [lia|].
  exists pb'. rewrite Hq. simpl in Hrd |- *.
  destruct (index _ _) as [x| | |]; simpl in *; simplify_eq. rewrite Hloop. simpl.
  rewrite Hrc'. done.
Qed.

Lemma pipe_write_loop_spec bytes pb :
  pipe_wf pb → pb_used pb + Z.of_nat (length bytes) ≤ PIPE_BUF_SIZE - 1 →
  ∃ pb', pipe_write_loop pb bytes = Ret pb' ∧ pipe_wf pb' ∧
    pipe_queue pb' = pipe_queue pb ++ bytes ∧ pb_refcount pb' = pb_refcount pb.
Proof.
  revert pb. induction bytes as [|b bytes IH]; intros pb Hwf Hn; simpl in Hn.
  { exists pb. by rewrite app_nil_r. }
  destruct (pipe_push pb b Hwf) as (pb1 & Hwr & Hwf1 & Hq & Hrc & Hu); [lia|].
  destruct (IH pb1 Hwf1) as (pb' & Hloop & Hwf' & Hq' & Hrc'); [lia|].
  exists pb'. simpl in Hwr |- *. destruct (store _ _ _); simpl in *; simplify_eq.
  rewrite Hloop, Hq', Hq, <- app_assoc, Hrc'. done.
Qed.

Lemma pipe_read_cases pb len : pipe_wf pb → 0 ≤ len →
  ∃ pb', pipe_read pb len
    = Ret (Z.min len (pb_used pb), take (Z.to_nat len) (pipe_queue pb), pb') ∧ pipe_wf pb' ∧
    pipe_queue pb' = drop (Z.to_nat len) (pipe_queue pb) ∧ pb_refcount pb' = pb_refcount pb.
Proof.
  intros Hwf Hlen. pose proof (pipe_queue_length pb Hwf) as Hql.
  unfold pipe_read. destruct (Z.eqb_spec (pb_used pb) 0) as [E|E].
  { exists pb. assert (pipe_queue pb = []) as -> by (apply nil_length_inv; lia).
    rewrite take_nil, drop_nil, E, Z.min_r by lia. done. }
  pose proof Hwf as (_ & _ & _ & Hu). unfold PIPE_BUF_SIZE in Hu.
  destruct (pipe_read_loop_spec (Z.to_nat (Z.min len (pb_used pb))) pb Hwf) as (pb' & -> & Hwf' & Hq & Hrc);
    [lia|].
  simpl. exists pb'. unfold i64. rewrite Z.mod_small, Z.add_simpl_r by lia.
  destruct (decide (len ≤ pb_used pb)).
  - by rewrite Z.min_l in * by lia.
  - rewrite Z.min_r in * by lia. rewrite !take_ge by lia. rewrite !drop_ge in * by lia. done.
Qed.

Lemma pipe_write_cases pb bytes : pipe_wf pb → Z.of_nat (length bytes) < 2 ^ 63 →
  let acc := take (Z.to_nat (PIPE_BUF_SIZE - 1 - pb_used pb)) bytes in
  ∃ pb', pipe_write pb bytes = Ret (Z.of_nat (length acc), pb') ∧ pipe_wf pb' ∧
    pipe_queue pb' = pipe_queue pb ++ acc ∧ pb_refcount pb' = pb_refcount pb.
Proof.
  intros Hwf Hlen acc. pose proof (pipe_queue_length pb Hwf) as Hql.
  pose proof Hwf as (_ & _ & _ & Hu). unfold PIPE_BUF_SIZE in Hu.
  unfold pipe_write. unfold PIPE_BUF_SIZE in *. rewrite u64_small by lia.
  destruct (Z.eqb_spec (4096 - 1 - pb_used pb) 0) as [E|E].
  { exists pb. unfold acc. rewrite E. simpl. rewrite app_nil_r. done. }
  assert (take (Z.to_nat (Z.min (Z.of_nat (length bytes)) (4096 - 1 - pb_used pb))) bytes = acc) as Ea.
  { unfold acc. destruct (decide (Z.of_nat (length bytes) ≤ 4096 - 1 - pb_used pb)).
    - by rewrite !take_ge by lia.
    - by rewrite Z.min_r by lia. }
  destruct (pipe_write_loop_spec acc pb Hwf) as (pb' & Hloop & Hwf' & Hq & Hrc).
  { unfold acc, PIPE_BUF_SIZE. rewrite length_take. lia. }
  rewrite Ea, Hloop. simpl. exists pb'. split; [|done]. unfold i64.
  rewrite Z.mod_small, Z.add_simpl_r by lia. do 2 f_equal. unfold acc. rewrite length_take. lia.
Qed.

(** ** Sequences of operations *)

Inductive pipe_op := PRead (len : Z) | PWrite (bytes : list Z).

(** What the caller sees: the result and the bytes transferred. *)
Inductive pipe_ret := GotBytes (n : Z) (bs : list Z) | Accepted (n : Z).

Fixpoint run_pipe (pb : PipeBuf) (l : list pipe_op) : outcome (list pipe_ret * PipeBuf) :=
  match l with
  | [] => Ret ([], pb)
  | PRead len :: l =>
      '(n, bs, pb) ← pipe_read pb len;
      '(rs, pb) ← run_pipe pb l;
      Ret (GotBytes n bs :: rs, pb)
  | PWrite bytes :: l =>
      '(n, pb) ← pipe_write pb bytes;
      '(rs, pb) ← run_pipe pb l;
      Ret (Accepted n :: rs, pb)
  end.

(** The specification: a FIFO queue of at most 4095 bytes. *)
Fixpoint run_fifo (q : list Z) (l : list pipe_op) : list pipe_ret * list Z :=
  match l with
  | [] => ([], q)
  | PRead len :: l =>
      let bs := take (Z.to_nat len) q in
      let '(rs, q') := run_fifo (drop (Z.to_nat len) q) l in
      (GotBytes (Z.of_nat (length bs)) bs :: rs, q')
  | PWrite bytes :: l =>
      let acc := take (4095 - length q) bytes in
      let '(rs, q') := run_fifo (q ++ acc) l in
      (Accepted (Z.of_nat (length acc)) :: rs, q')
  end.

Definition op_ok (o : pipe_op) : Prop :=
  match o with PRead len => 0 ≤ len | PWrite bytes => Z.of_nat (length bytes) < 2 ^ 63 end.

(** C14: a pipe is a bounded FIFO queue.  For every sequence of reads and writes,
    starting from any well-formed buffer (its positions may be anywhere, also about
    to wrap around at [2 ^ 64]), no operation panics and every result and every
    byte transferred is that of a queue of at most 4095 bytes. *)
Theorem pipe_refines_fifo (pb : PipeBuf) (l : list pipe_op)
    (Hwf : pipe_wf pb) (Hok : Forall op_ok l) :
  ∃ pb' rs, run_pipe pb l = Ret (rs, pb') ∧ pipe_wf pb' ∧
    run_fifo (pipe_queue pb) l = (rs, pipe_queue pb').
Proof.
  revert pb Hwf. induction Hok as [|o l Ho Hok IH]; intros pb Hwf; simpl; [by eauto|].
  pose proof (pipe_queue_length pb Hwf) as Hql.
  destruct o as [len|bytes]; simpl in Ho.
  - destruct (pipe_read_cases pb len Hwf Ho) as (pb1 & -> & Hwf1 & Hq & _). simpl.
    destruct (IH pb1 Hwf1) as (pb' & rs & -> & Hwf' & E). simpl.
    rewrite <- Hq, E. eexists _, _. split; [done|]. split; [done|].
    do 3 f_equal. rewrite length_take. lia.
  - destruct (pipe_write_cases pb bytes Hwf Ho) as (pb1 & -> & Hwf1 & Hq & _). simpl.
    destruct (IH pb1 Hwf1) as (pb' & rs & -> & Hwf' & E). simpl.
    assert (Z.to_nat (PIPE_BUF_SIZE - 1 - pb_used pb) = 4095 - length (pipe_queue pb))%nat as Hn
      by (unfold PIPE_BUF_SIZE; lia).
    rewrite Hn in *. rewrite <- Hq, E. eauto.
Qed.

Lemma PipeBuf_new_wf : pipe_wf PipeBuf_new.
Proof. unfold pipe_wf. vm_compute. split_and!; done || lia. Qed.

Lemma pipe_refines_fifo_witness :
  ∃ pb' rs, run_pipe PipeBuf_new [PWrite [1; 2; 3]; PRead 2; PRead 5] = Ret (rs, pb') ∧
    pipe_wf pb' ∧
    run_fifo (pipe_queue PipeBuf_new) [PWrite [1; 2; 3]; PRead 2; PRead 5] = (rs, pipe_queue pb').
Proof.
  apply (pipe_refines_fifo PipeBuf_new [PWrite [1; 2; 3]; PRead 2; PRead 5]);
    [apply PipeBuf_new_wf|by repeat (apply List.Forall_cons; [simpl; lia|])].
Defined.
