(* ===== verification/OpenFiles.v ===== *)
(** * Open files (src/kernel_rust/src/vfs/open_file.rs, pipe.rs, and the descriptor
      syscalls of vfs/mod.rs and syscall.rs)

    The open file table with its reference counts, the creation and closing of
    pipes, and the syscalls that move descriptors around (open's installation step,
    close, dup, dup2, pipe).  A descriptor operation takes the caller's descriptor
    table and returns the new one.  The heap is any implementation of [KHeap]. *)

From Stdlib Require Import ZArith Lia.
From stdpp Require Import base numbers list list_numbers option gmap fin_maps.
From S2P Require Import Prelude Heap Ring VfsTypes Pipe.

Local Open Scope Z_scope.

(** [size_of::<PipeBuf>()] and [size_of::<Vnode>()]. *)
Definition SIZEOF_PIPEBUF : Z := 4120.
Definition SIZEOF_VNODE : Z := 56.

(** The files state: the open file table, the vnodes and pipe buffers at their heap
    addresses, the heap, and the static vnodes. *)
Record fstate (H : Type) := mkFs {
  fs_oft : OpenFileTable;
  fs_vnodes : gmap Z Vnode;
  fs_pipes : gmap Z PipeBuf;
  fs_heap : H;
  fs_statics : static_vnode → Vnode
}.
Arguments mkFs {H} _ _ _ _ _.
Arguments fs_oft {H} _.
Arguments fs_vnodes {H} _.
Arguments fs_pipes {H} _.
Arguments fs_heap {H} _.
Arguments fs_statics {H} _.

Section files.
  Context {H : Type} `{HL : KHeapLaws H}.
  Implicit Types (s : fstate H) (fds : FdTable).

Definition set_oft s o : fstate H :=
  mkFs o (fs_vnodes s) (fs_pipes s) (fs_heap s) (fs_statics s).
Definition set_vnodes s v : fstate H :=
  mkFs (fs_oft s) v (fs_pipes s) (fs_heap s) (fs_statics s).
Definition set_pipes s p : fstate H :=
  mkFs (fs_oft s) (fs_vnodes s) p (fs_heap s) (fs_statics s).
Definition set_heap s h : fstate H :=
  mkFs (fs_oft s) (fs_vnodes s) (fs_pipes s) h (fs_statics s).

(** The vnode a reference points to. *)
Definition get_vnode s (v : vref) : outcome Vnode :=
  match v with
  | VStatic x => Ret (fs_statics s x)
  | VHeap p => deref (fs_vnodes s !! p)
  end.

(** [kfree] of an object of the state. *)
Definition kfree_vnode s (p : Z) : outcome (fstate H) :=
  h ← kfree_op p (fs_heap s);
  Ret (set_vnodes (set_heap s h) (delete p (fs_vnodes s))).
Definition kfree_pipe s (p : Z) : outcome (fstate H) :=
  h ← kfree_op p (fs_heap s);
  Ret (set_pipes (set_heap s h) (delete p (fs_pipes s))).

(** [pipe_close]. *)
Definition pipe_close s (v : vref) : outcome (fstate H) :=
  vn ← get_vnode s v;
  match v, vn_data vn with
  | VHeap p, DPipe q =>
      pb ← deref (fs_pipes s !! q);
      let pb := mkPipe (pb_buf pb) (read_off pb) (write_off pb) (u32 (pb_refcount pb - 1)) in
      let s := set_pipes s (<[q := pb]> (fs_pipes s)) in
      let need_free_pb := pb_refcount pb =? 0 in
      s ← kfree_vnode s p;
      if need_free_pb then kfree_pipe s q else Ret s
  | _, _ => Fault
  end.

(** The [close] operation of a vnode; all but the pipe's return 0 at once. *)
Definition call_close s (v : vref) : outcome (fstate H) :=
  vn ← get_vnode s v;
  match op_close (deref_ops (vn_ops vn)) with
  | Some pipe_close_fn => pipe_close s v
  | _ => Ret s
  end.

Definition is_none {A} (o : option A) : bool := match o with None => true | Some _ => false end.

Definition oft_alloc s (vnode : vref) (flags mode : Z) : outcome (res Z * fstate H) :=
  match position is_none (fs_oft s) 0 with
  | Some i =>
      o ← store (fs_oft s) i (Some (mkOF (Some vnode) 0 flags mode 1));
      Ret (inl i, set_oft s o)
  | None => Ret (inr ENFILE, s)
  end.

Definition oft_decref s (idx : Z) : outcome (fstate H) :=
  if OFT_SIZE <=? idx then Ret s
  else
    entry ← index (fs_oft s) idx;
    match entry with
    | None => Ret s
    | Some f =>
        let f := if 0 <? of_refcount f then set_refcount f (of_refcount f - 1) else f in
        o ← store (fs_oft s) idx (Some f);
        let s := set_oft s o in
        if of_refcount f =? 0 then
          s ← match of_vnode f with Some v => call_close s v | None => Ret s end;
          o ← store (fs_oft s) idx None;
          Ret (set_oft s o)
        else Ret s
    end.

Definition oft_incref s (idx : Z) : outcome (fstate H) :=
  if idx <? OFT_SIZE then
    entry ← index (fs_oft s) idx;
    match entry with
    | None => Ret s
    | Some f =>
        o ← store (fs_oft s) idx (Some (set_refcount f (Z.min (of_refcount f + 1) (2 ^ 32 - 1))));
        Ret (set_oft s o)
    end
  else Ret s.

Definition oft_get s (idx : Z) : outcome (option OpenFile) :=
  if OFT_SIZE <=? idx then Ret None else index (fs_oft s) idx.

(** The first unused descriptor. *)
Definition free_fd fds : option Z := position (λ fd, fd <? 0) fds 0.

(** The part of [sys_open] after the path has been resolved.  The [open]
    operations all return 0. *)
Definition open_vnode s fds (vnode : vref) (flags mode : Z)
    : outcome (Z * FdTable * fstate H) :=
  '(r, s) ← oft_alloc s vnode flags mode;
  match r with
  | inr e => Ret (u64 (- e), fds, s)
  | inl oft_idx =>
      match free_fd fds with
      | Some fd => fds ← store fds fd oft_idx; Ret (fd, fds, s)
      | None => s ← oft_decref s oft_idx; Ret (u64 (- EMFILE), fds, s)
      end
  end.

Definition sys_close s fds (fd : Z) : outcome (Z * FdTable * fstate H) :=
  if MAX_FDS <=? fd then Ret (u64 (- EBADF), fds, s)
  else
    oft_idx ← index fds fd;
    if oft_idx <? 0 then Ret (u64 (- EBADF), fds, s)
    else
      fds ← store fds fd (-1);
      s ← oft_decref s oft_idx;
      Ret (0, fds, s).

Definition sys_dup s fds (old_fd : Z) : outcome (Z * FdTable * fstate H) :=
  if MAX_FDS <=? old_fd then Ret (u64 (- EBADF), fds, s)
  else
    oft_idx ← index fds old_fd;
    if oft_idx <? 0 then Ret (u64 (- EBADF), fds, s)
    else
      match free_fd fds with
      | Some new_fd =>
          fds ← store fds new_fd oft_idx;
          s ← oft_incref s oft_idx;
          Ret (new_fd, fds, s)
      | None => Ret (u64 (- EMFILE), fds, s)
      end.

Definition sys_dup2 s fds (old_fd new_fd : Z) : outcome (Z * FdTable * fstate H) :=
  if (MAX_FDS <=? old_fd) || (MAX_FDS <=? new_fd) then Ret (u64 (- EBADF), fds, s)
  else
    oft_idx ← index fds old_fd;
    if oft_idx <? 0 then Ret (u64 (- EBADF), fds, s)
    else
      e ← oft_get s oft_idx;
      if is_none e then Ret (u64 (- EBADF), fds, s)
      else if old_fd =? new_fd then Ret (new_fd, fds, s)
      else
        new_oft_idx ← index fds new_fd;
        '(fds, s) ←
          (if 0 <=? new_oft_idx then
             fds ← store fds new_fd (-1);
             s ← oft_decref s new_oft_idx;
             Ret (fds, s)
           else Ret (fds, s));
        fds ← store fds new_fd oft_idx;
        s ← oft_incref s oft_idx;
        Ret (new_fd, fds, s).

(** Steps 4 to 7 of [sys_pipe]: the two open file entries, then the two descriptors,
    with the roll-back of each failure. *)
Definition pipe_publish s fds (pb rvn wvn : Z)
    : outcome (Z * FdTable * option (Z * Z) * fstate H) :=
  '(r, s) ← oft_alloc s (VHeap rvn) O_RDONLY 384;
  match r with
  | inr e =>
      s ← kfree_pipe s pb;
      s ← kfree_vnode s rvn;
      s ← kfree_vnode s wvn;
      Ret (- e, fds, None, s)
  | inl read_idx =>
      '(r, s) ← oft_alloc s (VHeap wvn) O_WRONLY 384;
      match r with
      | inr e =>
          s ← oft_decref s read_idx;
          s ← kfree_pipe s pb;
          s ← kfree_vnode s wvn;
          Ret (- e, fds, None, s)
      | inl write_idx =>
          match free_fd fds with
          | None =>
              s ← oft_decref s read_idx;
              s ← oft_decref s write_idx;
              Ret (- EMFILE, fds, None, s)
          | Some read_fd =>
              fds ← store fds read_fd read_idx;
              match free_fd fds with
              | None =>
                  fds ← store fds read_fd (-1);
                  s ← oft_decref s read_idx;
                  s ← oft_decref s write_idx;
                  Ret (- EMFILE, fds, None, s)
              | Some write_fd =>
                  fds ← store fds write_fd write_idx;
                  Ret (0, fds, Some (read_fd, write_fd), s)
              end
          end
      end
  end.

(** [sys_pipe]: the result, the descriptor table, and the two descriptors stored at
    [pipefd] on success. *)
Definition sys_pipe s fds (pipefd : Z) : outcome (Z * FdTable * option (Z * Z) * fstate H) :=
  if pipefd =? 0 then Ret (- EINVAL, fds, None, s)
  else
    '(pb, h) ← kmalloc_op SIZEOF_PIPEBUF (fs_heap s);
    let s := set_heap s h in
    if pb =? 0 then Ret (- ENOMEM, fds, None, s)
    else
      let s := set_pipes s (<[pb := PipeBuf_new]> (fs_pipes s)) in
      '(rvn, h) ← kmalloc_op SIZEOF_VNODE (fs_heap s);
      let s := set_heap s h in
      if rvn =? 0 then s ← kfree_pipe s pb; Ret (- ENOMEM, fds, None, s)
      else
        let s := set_vnodes s (<[rvn := mkVnode at_PIPE_READ_OPS (Z.lor V_CHR 384) 0 0 DevFS
                                          (DPipe pb) None]> (fs_vnodes s)) in
        '(wvn, h) ← kmalloc_op SIZEOF_VNODE (fs_heap s);
        let s := set_heap s h in
        if wvn =? 0 then
          s ← kfree_pipe s pb;
          s ← kfree_vnode s rvn;
          Ret (- ENOMEM, fds, None, s)
        else
          let s := set_vnodes s (<[wvn := mkVnode at_PIPE_WRITE_OPS (Z.lor V_CHR 384) 0 0 DevFS
                                            (DPipe pb) None]> (fs_vnodes s)) in
          pipe_publish s fds pb rvn wvn.

(** The loop of [sys_fork] that shares the parent's open files with the child. *)
Fixpoint incref_fds s (fds : list Z) : outcome (fstate H) :=
  match fds with
  | [] => Ret s
  | fd_entry :: fds =>
      s ← (if 0 <=? fd_entry then oft_incref s fd_entry else Ret s);
      incref_fds s fds
  end.

(** Closes the [n] descriptors from [fd] on: the loop of [cleanup_fds] (from 0) and
    the one at the end of [sys_exec] (from 3). *)
Fixpoint close_fds s fds (fd : Z) (n : nat) : outcome (FdTable * fstate H) :=
  match n with
  | O => Ret (fds, s)
  | S n =>
      oft_idx ← index fds fd;
      if 0 <=? oft_idx then
        fds ← store fds fd (-1);
        s ← oft_decref s oft_idx;
        close_fds s fds (fd + 1) n
      else close_fds s fds (fd + 1) n
  end.

Definition cleanup_fds s fds : outcome (FdTable * fstate H) := close_fds s fds 0 (Z.to_nat MAX_FDS).
Definition exec_close_fds s fds : outcome (FdTable * fstate H) :=
  close_fds s fds 3 (Z.to_nat (MAX_FDS - 3)).

(** The vnode of an archive entry, written to a block of the heap
    ([initramfs_build_vnode] after the entry has been found). *)
Definition alloc_file_vnode s (data size entry_type : Z) : outcome (option vref * fstate H) :=
  '(p, h) ← kmalloc_op SIZEOF_VNODE (fs_heap s);
  let s := set_heap s h in
  if p =? 0 then Ret (None, s)
  else
    let is_dir := entry_type =? 53 in
    let vn := mkVnode at_INITRAMFS_FILE_OPS
                (if is_dir then Z.lor V_DIR 493 else Z.lor V_FILE 420) 0 size InitramFS
                (DArchive data) None in
    Ret (Some (VHeap p), set_vnodes s (<[p := vn]> (fs_vnodes s))).

(** ** The invariant *)

(** Is this vnode the end of a pipe? *)
Definition is_pipe_vn (vn : Vnode) : bool :=
  match op_close (deref_ops (vn_ops vn)) with Some pipe_close_fn => true | _ => false end.

(** The pipe buffer an open file is an end of. *)
Definition pipe_of (vns : gmap Z Vnode) (e : option OpenFile) : option Z :=
  f ← e;
  v ← of_vnode f;
  match v with
  | VStatic _ => None
  | VHeap p => vn ← vns !! p; match vn_data vn with DPipe q => Some q | _ => None end
  end.

Definition is_end (vns : gmap Z Vnode) (q : Z) (e : option OpenFile) : bool :=
  bool_decide (pipe_of vns e = Some q).

(** The open ends of the pipe at [q]. *)
Definition ends s (q : Z) : Z := countb (is_end (fs_vnodes s) q) (fs_oft s).

(** The reference an entry holds is valid. *)
Definition vref_ok s (v : vref) : Prop :=
  match v with VStatic _ => True | VHeap p => is_Some (fs_vnodes s !! p) end.

(** What the table promises when [r i] references to entry [i] are held: counts are
    exact, an entry is in use exactly while referenced, no entry dangles, every
    pipe buffer counts its open ends, and the heap blocks in use are the vnodes,
    the pipe buffers and the others [X] - nothing leaks. *)
Record files_inv (X : gset Z) (r : Z → Z) (s : fstate H) : Prop := mkFI {
  fi_len : Z.of_nat (length (fs_oft s)) = OFT_SIZE;
  fi_refs : ∀ i f, fs_oft s !! Z.to_nat i = Some (Some f) → 0 ≤ i →
    of_refcount f = r i ∧ 0 < r i < 2 ^ 32 ∧ ∃ v, of_vnode f = Some v ∧ vref_ok s v;
  fi_free : ∀ i, fs_oft s !! Z.to_nat i = Some None → 0 ≤ i → r i = 0;
  fi_inj : ∀ i j f g p, fs_oft s !! i = Some (Some f) → fs_oft s !! j = Some (Some g) →
    of_vnode f = Some (VHeap p) → of_vnode g = Some (VHeap p) → i = j;
  fi_static : ∀ x, is_pipe_vn (fs_statics s x) = false;
  fi_vnode : ∀ p vn, fs_vnodes s !! p = Some vn →
    if is_pipe_vn vn
    then (∃ q, vn_data vn = DPipe q ∧ is_Some (fs_pipes s !! q)) ∧
         (∃ i f, fs_oft s !! i = Some (Some f) ∧ of_vnode f = Some (VHeap p))
    else ∀ q, vn_data vn ≠ DPipe q;
  fi_pipe : ∀ q pb, fs_pipes s !! q = Some pb →
    pipe_wf pb ∧ pb_refcount pb = ends s q ∧ 0 < pb_refcount pb;
  fi_disj : dom (fs_vnodes s) ## dom (fs_pipes s) ∧ X ## dom (fs_vnodes s) ∧
    X ## dom (fs_pipes s);
  fi_heap : ∃ L, heap_rep (fs_heap s) L ∧ dom L = X ∪ dom (fs_vnodes s) ∪ dom (fs_pipes s)
}.

Lemma files_inv_ext X r r' s :
  (∀ i, 0 ≤ i < OFT_SIZE → r i = r' i) → files_inv X r s → files_inv X r' s.
Proof.
  intros Hr [Hlen Hrefs Hfree ??????]. split; try done.
  - intros i f Hf Hi. rewrite <- Hr; [by apply Hrefs|].
    apply lookup_lt_Some in Hf. lia.
  - intros i Hn Hi. rewrite <- Hr; [by apply Hfree|]. apply lookup_lt_Some in Hn. lia.
Qed.

(** ** What [oft_decref] does, case by case *)

Lemma oft_index s i e :
  0 ≤ i < OFT_SIZE → fs_oft s !! Z.to_nat i = Some e →
  (OFT_SIZE <=? i) = false ∧ index (fs_oft s) i = Ret e ∧
  ∀ x, store (fs_oft s) i x = Ret (<[Z.to_nat i := x]> (fs_oft s)).
Proof.
  intros Hi He. split; [apply Z.leb_gt; lia|]. split; [by apply index_ret|].
  intros x. unfold store. by rewrite He.
Qed.

Lemma store_insert_oft (o : OpenFileTable) i x y e :
  o !! Z.to_nat i = Some e →
  store (<[Z.to_nat i := x]> o) i y = Ret (<[Z.to_nat i := y]> o).
Proof.
  intros He. unfold store. rewrite list_lookup_insert_eq by (by eapply lookup_lt_Some).
  by rewrite list_insert_insert_eq.
Qed.

Lemma decref_keep s i f :
  0 ≤ i < OFT_SIZE → fs_oft s !! Z.to_nat i = Some (Some f) → 1 < of_refcount f →
  oft_decref s i
  = Ret (set_oft s (<[Z.to_nat i := Some (set_refcount f (of_refcount f - 1))]> (fs_oft s))).
Proof.
  intros Hi Hf Hr. destruct (oft_index s i _ Hi Hf) as (H1 & H2 & H3).
  unfold oft_decref. rewrite H1, H2. simpl. destruct (Z.ltb_spec 0 (of_refcount f)); [|lia].
  rewrite H3. simpl. destruct (Z.eqb_spec (of_refcount f - 1) 0); [lia|done].
Qed.

Lemma call_close_plain s o v vn :
  get_vnode s v = Ret vn → is_pipe_vn vn = false →
  call_close (set_oft s o) v = Ret (set_oft s o).
Proof.
  intros Hg Hp. unfold call_close.
  assert (get_vnode (set_oft s o) v = Ret vn) as -> by (by destruct v). simpl.
  unfold is_pipe_vn in Hp. destruct (op_close _) as [[]|]; done.
Qed.

Lemma decref_plain s i f v vn :
  0 ≤ i < OFT_SIZE → fs_oft s !! Z.to_nat i = Some (Some f) → of_refcount f = 1 →
  of_vnode f = Some v → get_vnode s v = Ret vn → is_pipe_vn vn = false →
  oft_decref s i = Ret (set_oft s (<[Z.to_nat i := None]> (fs_oft s))).
Proof.
  intros Hi Hf Hr Hv Hg Hp. destruct (oft_index s i _ Hi Hf) as (H1 & H2 & H3).
  unfold oft_decref. rewrite H1, H2. simpl. rewrite Hr. simpl. rewrite H3. simpl. rewrite Hv.
  rewrite (call_close_plain _ _ _ vn) by done.
  simpl. by rewrite (store_insert_oft _ _ _ _ _ Hf).
Qed.

(** Closing the last reference of a pipe end frees its vnode, and the buffer with
    the last end. *)
Lemma decref_pipe s i f p vn q pb L :
  0 ≤ i < OFT_SIZE → fs_oft s !! Z.to_nat i = Some (Some f) → of_refcount f = 1 →
  of_vnode f = Some (VHeap p) → fs_vnodes s !! p = Some vn → is_pipe_vn vn = true →
  vn_data vn = DPipe q → fs_pipes s !! q = Some pb → 0 < pb_refcount pb < 2 ^ 32 →
  heap_rep (fs_heap s) L → is_Some (L !! p) → is_Some (L !! q) → p ≠ q →
  ∃ h', let last := pb_refcount pb =? 1 in
    oft_decref s i
    = Ret (mkFs (<[Z.to_nat i := None]> (fs_oft s)) (delete p (fs_vnodes s))
        (if last then delete q (fs_pipes s)
         else <[q := mkPipe (pb_buf pb) (read_off pb) (write_off pb) (pb_refcount pb - 1)]>
                (fs_pipes s)) h' (fs_statics s)) ∧
    heap_rep h' (if last then delete q (delete p L) else delete p L).
Proof.
  intros Hi Hf Hr Hv Hvn Hp Hd Hq Hrc HLp HpL HqL Hpq.
  destruct (oft_index s i _ Hi Hf) as (H1 & H2 & H3).
  destruct (kfree_law _ _ _ HLp HpL) as (h1 & Ek1 & HL1).
  assert (is_Some (delete p L !! q)) as HqL1 by (by rewrite lookup_delete_ne).
  destruct (kfree_law _ _ _ HL1 HqL1) as (h2 & Ek2 & HL2).
  exists (if pb_refcount pb =? 1 then h2 else h1).
  unfold oft_decref. rewrite H1, H2. simpl. rewrite Hr. simpl. rewrite H3. simpl. rewrite Hv.
  unfold call_close, pipe_close. simpl. rewrite Hvn. simpl.
  unfold is_pipe_vn in Hp. destruct (op_close (deref_ops (vn_ops vn))) as [[]|]; try done.
  simpl. rewrite Hd, Hq. simpl. unfold kfree_vnode, kfree_pipe. simpl. rewrite Ek1. simpl.
  unfold u32. rewrite Z.mod_small by lia.
  destruct (Z.eqb_spec (pb_refcount pb - 1) 0), (Z.eqb_spec (pb_refcount pb) 1); try lia; simpl.
  - rewrite Ek2. simpl. rewrite (store_insert_oft _ _ _ _ _ Hf). simpl.
    unfold set_oft. simpl. by rewrite delete_insert_eq.
  - rewrite (store_insert_oft _ _ _ _ _ Hf). simpl. done.
Qed.

(** ** Preservation of the invariant by the table operations *)

Definition upd (r : Z → Z) (i v : Z) : Z → Z := λ j, if j =? i then v else r j.

Lemma upd_eq r i v : upd r i v i = v.
Proof. unfold upd. by rewrite Z.eqb_refl. Qed.

Lemma upd_ne r i j v : i ≠ j → upd r i v j = r j.
Proof. intros. unfold upd. by destruct (Z.eqb_spec j i). Qed.

(** Lookup in a table one of whose entries was replaced. *)
Lemma oft_insert_cases (o : OpenFileTable) i e j x :
  <[i := e]> o !! j = Some x → (j = i ∧ x = e) ∨ (j ≠ i ∧ o !! j = Some x).
Proof.
  intros Hj. destruct (decide (j = i)) as [->|]; [left|right].
  - split; [done|]. rewrite list_lookup_insert_eq in Hj; [by simplify_eq|].
    apply lookup_lt_Some in Hj. by rewrite length_insert in Hj.
  - split; [done|]. by rewrite list_lookup_insert_ne in Hj.
Qed.

Lemma is_end_vnode vns q f g : of_vnode f = of_vnode g →
  is_end vns q (Some f) = is_end vns q (Some g).
Proof. unfold is_end, pipe_of. simpl. by intros ->. Qed.

(** An entry is replaced by one for the same vnode. *)
Lemma inv_same_vnode X r s i f g n :
  files_inv X r s → 0 ≤ i → fs_oft s !! Z.to_nat i = Some (Some f) →
  of_vnode g = of_vnode f → of_refcount g = n → 0 < n < 2 ^ 32 →
  files_inv X (upd r i n) (set_oft s (<[Z.to_nat i := Some g]> (fs_oft s))).
Proof.
  intros [Hlen Hrefs Hfree Hinj Hst Hvn Hpipe Hdisj Hheap] Hi Hf Hv Hg Hn.
  split; try done; simpl.
  - by rewrite length_insert.
  - intros j f' Hj Hj0. apply oft_insert_cases in Hj as [[E [= ->]]|[Hne Hj]].
    + assert (j = i) as -> by lia. rewrite upd_eq, Hv, <- Hg.
      split; [done|]. rewrite Hg. split; [done|]. by apply (Hrefs i f).
    + rewrite upd_ne by (intros ->; done). by apply Hrefs.
  - intros j Hj Hj0. apply oft_insert_cases in Hj as [[? ?]|[Hne Hj]]; [done|].
    rewrite upd_ne by (intros ->; done). by apply Hfree.
  - intros j k f1 f2 p Hj Hk H1 H2.
    apply oft_insert_cases in Hj as [[-> [= ->]]|[Hj0 Hj]];
      apply oft_insert_cases in Hk as [[-> [= ->]]|[Hk0 Hk]]; [done| | |by eapply Hinj].
    + rewrite Hv in H1. by eapply Hinj.
    + rewrite Hv in H2. by eapply Hinj.
  - intros p vn Hp. specialize (Hvn p vn Hp). destruct (is_pipe_vn vn); [|done].
    destruct Hvn as [? (j & f' & Hj & Hfv)]. split; [done|].
    destruct (decide (j = Z.to_nat i)) as [->|].
    + exists (Z.to_nat i), g. rewrite list_lookup_insert_eq by (by eapply lookup_lt_Some).
      split; [done|]. rewrite Hv. by simplify_eq.
    + exists j, f'. by rewrite list_lookup_insert_ne.
  - intros q pb Hq. destruct (Hpipe q pb Hq) as (? & Hrc & ?). split; [done|]. split; [|done].
    rewrite Hrc. unfold ends. simpl. rewrite (countb_insert _ _ _ _ _ Hf).
    rewrite (is_end_vnode _ _ g f) by done. lia.
Qed.

(** An entry that is not the end of a pipe is dropped. *)
Lemma inv_drop_plain X r s i f :
  files_inv X r s → 0 ≤ i → fs_oft s !! Z.to_nat i = Some (Some f) →
  pipe_of (fs_vnodes s) (Some f) = None →
  files_inv X (upd r i 0) (set_oft s (<[Z.to_nat i := None]> (fs_oft s))).
Proof.
  intros [Hlen Hrefs Hfree Hinj Hst Hvn Hpipe Hdisj Hheap] Hi Hf Hnp.
  split; try done; simpl.
  - by rewrite length_insert.
  - intros j f' Hj Hj0. apply oft_insert_cases in Hj as [[_ ?]|[Hne Hj]]; [done|].
    rewrite upd_ne by (intros ->; done). by apply Hrefs.
  - intros j Hj Hj0. apply oft_insert_cases in Hj as [[E _]|[Hne Hj]].
    + assert (j = i) as -> by lia. apply upd_eq.
    + rewrite upd_ne by (intros ->; done). by apply Hfree.
  - intros j k f1 f2 p Hj Hk.
    apply oft_insert_cases in Hj as [[? ?]|[_ Hj]]; [done|].
    apply oft_insert_cases in Hk as [[? ?]|[_ Hk]]; [done|]. by eapply Hinj.
  - intros p vn Hp. pose proof (Hvn p vn Hp) as Hv. destruct (is_pipe_vn vn); [|done].
    destruct Hv as [(q & Hd & ?) (j & f' & Hj & Hfv)]. split; [by eauto|].
    exists j, f'. rewrite list_lookup_insert_ne; [done|]. intros <-. simplify_eq.
    unfold pipe_of in Hnp. simpl in Hnp. rewrite Hfv in Hnp. simpl in Hnp.
    rewrite Hp in Hnp. simpl in Hnp. by rewrite Hd in Hnp.
  - intros q pb Hq. destruct (Hpipe q pb Hq) as (? & Hrc & ?). split; [done|]. split; [|done].
    rewrite Hrc. unfold ends. simpl. rewrite (countb_insert _ _ _ _ _ Hf).
    assert (is_end (fs_vnodes s) q (Some f) = false) as ->
      by (unfold is_end; rewrite Hnp; done).
    simpl. lia.
Qed.

(** With the vnode of a dropped pipe end gone, the other ends count as before. *)
Lemma ends_drop X r s i f p vn q :
  files_inv X r s → fs_oft s !! i = Some (Some f) → of_vnode f = Some (VHeap p) →
  fs_vnodes s !! p = Some vn → vn_data vn = DPipe q →
  ∀ q', countb (is_end (delete p (fs_vnodes s)) q') (<[i := None]> (fs_oft s))
        = ends s q' - Z.b2z (q =? q').
Proof.
  intros Hinv Hf Hv Hp Hd q'. unfold ends.
  rewrite (countb_ext _ (is_end (fs_vnodes s) q')).
  - rewrite (countb_insert _ _ _ _ _ Hf).
    assert (is_end (fs_vnodes s) q' None = false) as -> by done.
    assert (is_end (fs_vnodes s) q' (Some f) = (q =? q')) as ->; [|simpl; lia].
    unfold is_end, pipe_of. simpl. rewrite Hv. simpl. rewrite Hp. simpl. rewrite Hd.
    destruct (Z.eqb_spec q q') as [->|Hne]; [by rewrite bool_decide_true|].
    rewrite bool_decide_false; [done|]. intros [= ?]. done.
  - intros j [g|] Hj; [|done]. apply oft_insert_cases in Hj as [[? ?]|[Hne Hj]]; [done|].
    unfold is_end, pipe_of. simpl. destruct (of_vnode g) as [[x|p']|] eqn:Hg; simpl; try done.
    rewrite lookup_delete_ne; [done|]. intros <-. apply Hne.
    by eapply (fi_inj _ _ _ Hinv).
Qed.

(** The last reference to a pipe end is dropped; its vnode goes, and the buffer
    with its last end. *)
Lemma inv_drop_pipe X r s i f p vn q pb pipes' h' L' :
  files_inv X r s → 0 ≤ i → fs_oft s !! Z.to_nat i = Some (Some f) →
  of_vnode f = Some (VHeap p) → fs_vnodes s !! p = Some vn → vn_data vn = DPipe q →
  fs_pipes s !! q = Some pb →
  pipes' = (if pb_refcount pb =? 1 then delete q (fs_pipes s)
            else <[q := mkPipe (pb_buf pb) (read_off pb) (write_off pb) (pb_refcount pb - 1)]>
                   (fs_pipes s)) →
  heap_rep h' L' → dom L' = X ∪ dom (delete p (fs_vnodes s)) ∪ dom pipes' →
  files_inv X (upd r i 0)
    (mkFs (<[Z.to_nat i := None]> (fs_oft s)) (delete p (fs_vnodes s)) pipes' h' (fs_statics s)).
Proof.
  intros Hinv Hi Hf Hv Hp Hd Hq Hpipes Hrep HdomL.
  pose proof (ends_drop X r s _ f p vn q Hinv Hf Hv Hp Hd) as Hends.
  destruct Hinv as [Hlen Hrefs Hfree Hinj Hst Hvn Hpipe Hdisj _].
  destruct (Hpipe q pb Hq) as (Hwf & Hrc & Hpos).
  assert (dom pipes' ⊆ dom (fs_pipes s)) as Hsub.
  { subst pipes'. destruct (_ =? _); [apply subseteq_dom, delete_subseteq|]. rewrite dom_insert.
    apply union_subseteq. split; [|done]. apply singleton_subseteq_l, elem_of_dom. eauto. }
  split; simpl; try done.
  - by rewrite length_insert.
  - intros j f' Hj Hj0. apply oft_insert_cases in Hj as [[_ ?]|[Hne Hj]]; [done|].
    rewrite upd_ne by (intros ->; done). destruct (Hrefs j f' Hj Hj0) as (? & ? & v & Hv' & Hok).
    split; [done|]. split; [done|]. exists v. split; [done|]. destruct v as [x|p']; [done|].
    simpl in *. rewrite lookup_delete_ne; [done|]. intros <-. apply Hne. by eapply Hinj.
  - intros j Hj Hj0. apply oft_insert_cases in Hj as [[E _]|[Hne Hj]].
    + assert (j = i) as -> by lia. apply upd_eq.
    + rewrite upd_ne by (intros ->; done). by apply Hfree.
  - intros j k f1 f2 p0 Hj Hk.
    apply oft_insert_cases in Hj as [[? ?]|[_ Hj]]; [done|].
    apply oft_insert_cases in Hk as [[? ?]|[_ Hk]]; [done|]. by eapply Hinj.
  - intros p' vn' Hp'. apply lookup_delete_Some in Hp' as [Hpp Hp'].
    specialize (Hvn p' vn' Hp'). destruct (is_pipe_vn vn'); [|done].
    destruct Hvn as [(q' & Hd' & [pb' Hq']) (j & f' & Hj & Hfv)].
    assert (j ≠ Z.to_nat i) as Hji by (intros ->; simplify_eq).
    split; [|exists j, f'; by rewrite list_lookup_insert_ne].
    exists q'. split; [done|]. subst pipes'. destruct (Z.eqb_spec (pb_refcount pb) 1) as [E|].
    + rewrite lookup_delete_ne; [by eauto|]. intros <-.
      pose proof (Hends q) as He0. rewrite Z.eqb_refl, <- Hrc, E in He0. simpl in He0.
      pose proof (proj1 (countb_zero _ _) He0 j (Some f')) as Hz.
      rewrite list_lookup_insert_ne in Hz by done. specialize (Hz Hj).
      unfold is_end, pipe_of in Hz. simpl in Hz. rewrite Hfv in Hz. simpl in Hz.
      rewrite lookup_delete_ne, Hp' in Hz by done. simpl in Hz. rewrite Hd' in Hz.
      by rewrite bool_decide_true in Hz.
    + destruct (decide (q = q')) as [<-|]; [rewrite lookup_insert_eq|rewrite lookup_insert_ne by done]; eauto.
  - intros q' pb' Hq'. unfold ends. simpl. rewrite Hends. subst pipes'.
    destruct (Z.eqb_spec (pb_refcount pb) 1).
    + apply lookup_delete_Some in Hq' as [Hne Hq']. destruct (Hpipe q' pb' Hq') as (? & Hr & ?).
      rewrite (proj2 (Z.eqb_neq q q')) by done. simpl. split; [done|]. split; lia.
    + apply lookup_insert_Some in Hq' as [[<- <-]|[Hne Hq']].
      * rewrite Z.eqb_refl. simpl. split; [done|]. split; lia.
      * destruct (Hpipe q' pb' Hq') as (? & Hr & ?).
        rewrite (proj2 (Z.eqb_neq q q')) by done. simpl. split; [done|]. split; lia.
  - destruct Hdisj as (? & ? & ?). split_and!; set_solver.
  - exists L'. done.
Qed.

Lemma ends_bound X r s q : files_inv X r s → 0 ≤ ends s q ≤ 64.
Proof.
  intros Hinv. pose proof (countb_bound (is_end (fs_vnodes s) q) (fs_oft s)).
  pose proof (fi_len _ _ _ Hinv). unfold ends, OFT_SIZE in *. lia.
Qed.

Lemma inv_entry X r s i :
  files_inv X r s → 0 ≤ i < OFT_SIZE → 0 < r i →
  ∃ f v, fs_oft s !! Z.to_nat i = Some (Some f) ∧ of_refcount f = r i ∧ r i < 2 ^ 32 ∧
    of_vnode f = Some v ∧ vref_ok s v.
Proof.
  intros Hinv Hi Hr. pose proof (fi_len _ _ _ Hinv) as Hl.
  destruct (lookup_lt_is_Some_2 (fs_oft s) (Z.to_nat i)) as [[f|] Hf]; [lia| |].
  - destruct (fi_refs _ _ _ Hinv i f Hf) as (? & ? & v & ? & ?); [lia|].
    exists f, v. split_and!; done || lia.
  - pose proof (fi_free _ _ _ Hinv i Hf). lia.
Qed.

(** [oft_decref] of a held reference never faults and gives it up. *)
Lemma oft_decref_inv X r s i :
  files_inv X r s → 0 ≤ i < OFT_SIZE → 0 < r i →
  ∃ s', oft_decref s i = Ret s' ∧ files_inv X (upd r i (r i - 1)) s' ∧
    fs_statics s' = fs_statics s.
Proof.
  intros Hinv Hi Hr. destruct (inv_entry X r s i Hinv Hi Hr) as (f & v & Hf & Hrc & Hb & Hv & Hok).
  destruct (decide (r i = 1)) as [E1|].
  2:{ rewrite (decref_keep s i f) by (done || lia). eexists. split; [done|]. split; [|done].
      rewrite Hrc. eapply inv_same_vnode; [done|lia|done|done|done|lia]. }
  rewrite E1, Z.sub_diag. rewrite E1 in Hrc.
  assert (∃ vn, get_vnode s v = Ret vn) as [vn Hvn].
  { destruct v as [x|p]; simpl; [by eauto|]. destruct Hok as [vn ->]. by exists vn. }
  destruct (is_pipe_vn vn) eqn:Hpv.
  2:{ rewrite (decref_plain s i f v vn) by done. eexists. split; [done|]. split; [|done].
      eapply inv_drop_plain; [done|lia|done|]. unfold pipe_of. simpl. rewrite Hv. simpl.
      destruct v as [x|p]; [done|]. simpl in Hvn. destruct (fs_vnodes s !! p) as [vn'|] eqn:Hp; [|done].
      simpl in *. simplify_eq. pose proof (fi_vnode _ _ _ Hinv p vn Hp) as Hnd.
      rewrite Hpv in Hnd. destruct (vn_data vn) eqn:E; try done. by destruct (Hnd p0). }
  destruct v as [x|p]; simpl in Hvn; simplify_eq.
  { by rewrite (fi_static _ _ _ Hinv) in Hpv. }
  destruct (fs_vnodes s !! p) as [vn'|] eqn:Hp; simpl in Hvn; simplify_eq.
  pose proof (fi_vnode _ _ _ Hinv p vn Hp) as Hnd. rewrite Hpv in Hnd.
  destruct Hnd as [(q & Hd & [pb Hq]) _].
  destruct (fi_pipe _ _ _ Hinv q pb Hq) as (_ & Hrq & Hpos).
  pose proof (ends_bound X r s q Hinv). destruct (fi_heap _ _ _ Hinv) as (L & HLr & HLd).
  assert (is_Some (L !! p)) by (apply elem_of_dom; rewrite HLd; apply elem_of_dom_2 in Hp; set_solver).
  assert (is_Some (L !! q)) by (apply elem_of_dom; rewrite HLd; apply elem_of_dom_2 in Hq; set_solver).
  destruct (fi_disj _ _ _ Hinv) as (Hd1 & Hd2 & Hd3).
  assert (p ≠ q) by (intros ->; apply elem_of_dom_2 in Hp, Hq; set_solver).
  destruct (decref_pipe s i f p vn q pb L) as (h' & -> & HL'); try done; [lia|].
  eexists. split; [done|]. split; [|done].
  eapply (inv_drop_pipe X r s i f p vn q pb); try done; [lia|].
  apply elem_of_dom_2 in Hp, Hq.
  destruct (pb_refcount pb =? 1); rewrite ?dom_delete_L, ?dom_insert_L, HLd;
    apply set_eq; intros y; specialize (Hd1 y); specialize (Hd2 y); specialize (Hd3 y);
    set_unfold; destruct (decide (y = p)), (decide (y = q)); naive_solver.
Qed.

Lemma oft_incref_inv X r s i :
  files_inv X r s → 0 ≤ i < OFT_SIZE → 0 < r i → r i < 2 ^ 32 - 1 →
  ∃ s', oft_incref s i = Ret s' ∧ files_inv X (upd r i (r i + 1)) s' ∧
    fs_vnodes s' = fs_vnodes s.
Proof.
  intros Hinv Hi Hr Hmax. destruct (inv_entry X r s i Hinv Hi Hr) as (f & v & Hf & Hrc & _).
  destruct (oft_index s i _ Hi Hf) as (_ & Hix & Hs). unfold oft_incref.
  destruct (Z.ltb_spec i OFT_SIZE); [|lia]. rewrite Hix. simpl. rewrite Hs. simpl.
  eexists. split; [done|]. split; [|done].
  eapply inv_same_vnode; [done|lia|done|done|simpl; lia|lia].
Qed.

(** An entry for a vnode that no entry holds yet, and that is not a pipe end. *)
Definition openable s (v : vref) : Prop :=
  match v with
  | VStatic _ => True
  | VHeap p => ∃ vn, fs_vnodes s !! p = Some vn ∧ is_pipe_vn vn = false ∧
      ∀ i f, fs_oft s !! i = Some (Some f) → of_vnode f ≠ Some (VHeap p)
  end.

Lemma inv_add_entry X r s i v fl md :
  files_inv X r s → 0 ≤ i → fs_oft s !! Z.to_nat i = Some None → openable s v →
  files_inv X (upd r i 1)
    (set_oft s (<[Z.to_nat i := Some (mkOF (Some v) 0 fl md 1)]> (fs_oft s))).
Proof.
  intros Hinv Hi Hn Hop. pose proof Hinv as [Hlen Hrefs Hfree Hinj Hst Hvn Hpipe Hdisj Hheap].
  split; try done; simpl.
  - by rewrite length_insert.
  - intros j f Hj Hj0. apply oft_insert_cases in Hj as [[E [= ->]]|[Hne Hj]].
    + assert (j = i) as -> by lia. rewrite upd_eq. simpl. split; [done|]. split; [lia|].
      exists v. split; [done|]. destruct v as [x|p]; [done|].
      destruct Hop as (vn & Hp & _). simpl. by rewrite Hp.
    + rewrite upd_ne by (intros ->; done). by apply Hrefs.
  - intros j Hj Hj0. apply oft_insert_cases in Hj as [[? ?]|[Hne Hj]]; [done|].
    rewrite upd_ne by (intros ->; done). by apply Hfree.
  - intros j k f1 f2 p Hj Hk H1 H2.
    apply oft_insert_cases in Hj as [[-> [= ->]]|[Hj0 Hj]];
      apply oft_insert_cases in Hk as [[-> [= ->]]|[Hk0 Hk]]; simpl in *; simplify_eq;
      [done| | |by eapply Hinj]; destruct Hop as (vn & _ & _ & Hno); by edestruct Hno.
  - intros p vn Hp. specialize (Hvn p vn Hp). destruct (is_pipe_vn vn); [|done].
    destruct Hvn as [? (j & f' & Hj & Hfv)]. split; [done|]. exists j, f'.
    rewrite list_lookup_insert_ne; [done|]. intros <-. by simplify_eq.
  - intros q pb Hq. destruct (Hpipe q pb Hq) as (? & Hrc & ?). split; [done|]. split; [|done].
    rewrite Hrc. unfold ends. simpl. rewrite (countb_insert _ _ _ _ _ Hn).
    assert (is_end (fs_vnodes s) q (Some (mkOF (Some v) 0 fl md 1)) = false) as ->; [|simpl; lia].
    unfold is_end, pipe_of. simpl. destruct v as [x|p]; [done|].
    destruct Hop as (vn & Hp & Hnp & _). rewrite Hp. simpl. specialize (Hvn p vn Hp).
    rewrite Hnp in Hvn. destruct (vn_data vn) as [| | |q'] eqn:E; try done. by destruct (Hvn q').
Qed.

(** What [oft_alloc] does: the first free entry, or [ENFILE]. *)
Lemma oft_alloc_cases s v fl md :
  (∃ i, 0 ≤ i < Z.of_nat (length (fs_oft s)) ∧ fs_oft s !! Z.to_nat i = Some None ∧
     (∀ k e, (k < Z.to_nat i)%nat → fs_oft s !! k = Some e → e ≠ None) ∧
     oft_alloc s v fl md
     = Ret (inl i, set_oft s (<[Z.to_nat i := Some (mkOF (Some v) 0 fl md 1)]> (fs_oft s)))) ∨
  ((∀ k e, fs_oft s !! k = Some e → e ≠ None) ∧ oft_alloc s v fl md = Ret (inr ENFILE, s)).
Proof.
  unfold oft_alloc. pose proof (position_spec is_none (fs_oft s) 0) as Hp.
  destruct (position is_none (fs_oft s) 0) as [i|]; [left|right].
  - destruct Hp as (x & Hi & Hx & Hn & Hlow). rewrite Z.sub_0_r in *. destruct x; [done|].
    exists i. split; [lia|]. split; [done|]. split.
    + intros k e Hk He. specialize (Hlow k e Hk He). by destruct e.
    + rewrite store_in_range by lia. done.
  - split; [|done]. intros k e He. specialize (Hp k e He). by destruct e.
Qed.

(** ** The descriptor tables of all processes *)

(** How many descriptors refer to entry [i]. *)
Fixpoint refs (tabs : list FdTable) (i : Z) : Z :=
  match tabs with [] => 0 | t :: tabs => countb (λ fd, fd =? i) t + refs tabs i end.

Definition fd_ok (fd : Z) : Prop := -1 ≤ fd < OFT_SIZE.

(** At most 64 processes of at most 16 descriptors (an empty table for a free
    process slot), each -1 or an index of the open file table. *)
Definition tabs_ok (tabs : list FdTable) : Prop :=
  (length tabs ≤ 64)%nat ∧
  Forall (λ t, (length t ≤ 16)%nat ∧ Forall fd_ok t) tabs.

Definition files_wf (X : gset Z) (tabs : list FdTable) (s : fstate H) : Prop :=
  tabs_ok tabs ∧ files_inv X (refs tabs) s.

Lemma refs_bound tabs i : tabs_ok tabs → 0 ≤ refs tabs i ≤ 1024.
Proof.
  intros [Hl Hf]. assert (0 ≤ refs tabs i ≤ 16 * Z.of_nat (length tabs)); [|lia].
  clear Hl. induction Hf as [|t tabs [Ht _] _ IH]; simpl; [lia|].
  pose proof (countb_bound (λ fd, fd =? i) t). lia.
Qed.

Lemma refs_insert tabs c t t' i : tabs !! c = Some t →
  refs (<[c := t']> tabs) i
  = refs tabs i - countb (λ fd, fd =? i) t + countb (λ fd, fd =? i) t'.
Proof.
  revert c. induction tabs as [|x tabs IH]; intros [|c] Hc; simpl in *; simplify_eq; [lia|].
  rewrite (IH c Hc). lia.
Qed.

Lemma refs_ge tabs c t i : tabs !! c = Some t → countb (λ fd, fd =? i) t ≤ refs tabs i.
Proof.
  assert (∀ tabs', 0 ≤ refs tabs' i) as Hp.
  { intros tabs'. induction tabs' as [|y tabs' IH]; simpl; [lia|].
    pose proof (countb_bound (λ fd, fd =? i) y). lia. }
  revert c. induction tabs as [|x tabs IH]; intros [|c] Hc; simpl in *; simplify_eq.
  - specialize (Hp tabs). lia.
  - pose proof (countb_bound (λ fd, fd =? i) x). specialize (IH c Hc). lia.
Qed.

Lemma refs_pos tabs c t k i : tabs !! c = Some t → t !! k = Some i → 0 < refs tabs i.
Proof.
  intros Hc Hk. pose proof (refs_ge tabs c t i Hc).
  pose proof (countb_pos (λ fd, fd =? i) t k i Hk (Z.eqb_refl i)). lia.
Qed.

(** One descriptor changes from [v] to [w]. *)
Lemma refs_set tabs c t k v w i : tabs !! c = Some t → t !! k = Some v →
  refs (<[c := <[k := w]> t]> tabs) i = refs tabs i - Z.b2z (v =? i) + Z.b2z (w =? i).
Proof.
  intros Hc Hk. rewrite (refs_insert _ _ _ _ _ Hc), (countb_insert _ _ _ _ _ Hk). lia.
Qed.

Lemma tabs_ok_lookup tabs c t k v :
  tabs_ok tabs → tabs !! c = Some t → t !! k = Some v → -1 ≤ v < OFT_SIZE.
Proof.
  intros [_ Hf] Hc Hk. rewrite Forall_lookup in Hf. destruct (Hf c t Hc) as [_ Ht].
  rewrite Forall_lookup in Ht. by eapply Ht.
Qed.

Lemma tabs_ok_insert tabs c t : tabs_ok tabs → (length t ≤ 16)%nat → Forall fd_ok t →
  tabs_ok (<[c := t]> tabs).
Proof.
  intros [Hl Hf] Ht1 Ht2. split; [by rewrite length_insert|]. by apply Forall_insert.
Qed.

Lemma tabs_ok_set tabs c t k w :
  tabs_ok tabs → tabs !! c = Some t → -1 ≤ w < OFT_SIZE → tabs_ok (<[c := <[k := w]> t]> tabs).
Proof.
  intros Hok Hc Hw. pose proof Hok as [_ Hf]. rewrite Forall_lookup in Hf.
  destruct (Hf c t Hc) as [Hl Ht]. apply tabs_ok_insert; [done|by rewrite length_insert|].
  by apply Forall_insert.
Qed.

(** A descriptor is closed. *)
Lemma drop_fd X tabs c fds k i s :
  files_wf X tabs s → tabs !! c = Some fds → fds !! k = Some i → 0 ≤ i →
  ∃ s', oft_decref s i = Ret s' ∧ files_wf X (<[c := <[k := -1]> fds]> tabs) s'.
Proof.
  intros [Hok Hinv] Hc Hk Hi. pose proof (tabs_ok_lookup _ _ _ _ _ Hok Hc Hk).
  pose proof (refs_pos _ _ _ _ _ Hc Hk).
  destruct (oft_decref_inv X (refs tabs) s i Hinv) as (s' & -> & Hinv' & _); [lia|lia|].
  exists s'. split; [done|]. split; [apply tabs_ok_set; [done|done|unfold OFT_SIZE; lia]|].
  eapply files_inv_ext; [|done]. intros j Hj. rewrite (refs_set _ _ _ _ _ _ _ Hc Hk).
  unfold upd. zcases; subst; lia.
Qed.

(** An unused descriptor becomes a copy of one that refers to [i]. *)
Lemma dup_fd X tabs c fds k v i s :
  files_wf X tabs s → tabs !! c = Some fds → fds !! k = Some v → v < 0 →
  0 ≤ i < OFT_SIZE → 0 < refs tabs i →
  ∃ s', oft_incref s i = Ret s' ∧ files_wf X (<[c := <[k := i]> fds]> tabs) s'.
Proof.
  intros [Hok Hinv] Hc Hk Hv Hi Hr. pose proof (refs_bound tabs i Hok).
  destruct (oft_incref_inv X (refs tabs) s i Hinv) as (s' & -> & Hinv' & _); [done|lia|lia|].
  exists s'. split; [done|]. split; [apply tabs_ok_set; [done|done|lia]|].
  eapply files_inv_ext; [|done]. intros j Hj. rewrite (refs_set _ _ _ _ _ _ _ Hc Hk).
  unfold upd. zcases; subst; lia.
Qed.

(** A reference held by the kernel is handed to an unused descriptor. *)
Lemma install_fd X tabs c fds k v i s :
  tabs_ok tabs → files_inv X (upd (refs tabs) i (refs tabs i + 1)) s → tabs !! c = Some fds →
  fds !! k = Some v → v < 0 → 0 ≤ i < OFT_SIZE →
  files_wf X (<[c := <[k := i]> fds]> tabs) s.
Proof.
  intros Hok Hinv Hc Hk Hv Hi. split; [apply tabs_ok_set; [done|done|lia]|].
  eapply files_inv_ext; [|done]. intros j Hj. rewrite (refs_set _ _ _ _ _ _ _ Hc Hk).
  unfold upd. zcases; subst; lia.
Qed.

Lemma tabs_same X tabs c fds s :
  files_wf X tabs s → tabs !! c = Some fds → files_wf X (<[c := fds]> tabs) s.
Proof. intros Hwf Hc. by rewrite list_insert_id. Qed.

(** ** The descriptor syscalls *)

Lemma fd_index fds fd : length fds = 16%nat → 0 ≤ fd < MAX_FDS →
  ∃ v, fds !! Z.to_nat fd = Some v ∧ index fds fd = Ret v ∧
    ∀ w, store fds fd w = Ret (<[Z.to_nat fd := w]> fds).
Proof.
  intros Hl Hfd. unfold MAX_FDS in Hfd.
  destruct (index_in_range fds fd) as (v & Hv & Hi); [lia|]. exists v. split; [done|].
  split; [done|]. intros w. apply store_in_range. lia.
Qed.

Lemma free_fd_cases fds : length fds = 16%nat →
  (∃ k v, 0 ≤ k < MAX_FDS ∧ fds !! Z.to_nat k = Some v ∧ v < 0 ∧ free_fd fds = Some k ∧
     ∀ j w, (j < Z.to_nat k)%nat → fds !! j = Some w → 0 ≤ w) ∨
  (free_fd fds = None ∧ ∀ j w, fds !! j = Some w → 0 ≤ w).
Proof.
  intros Hl. unfold free_fd, MAX_FDS. pose proof (position_spec (λ fd, fd <? 0) fds 0) as Hp.
  destruct (position _ fds 0) as [k|]; [left|right].
  - destruct Hp as (v & Hk & Hv & Hneg & Hlow). rewrite Z.sub_0_r in *.
    exists k, v. bool_arith. split; [lia|]. split_and!; try done.
    intros j w Hj Hw. specialize (Hlow j w Hj Hw). simpl in Hlow. bool_arith. done.
  - split; [done|]. intros j w Hw. specialize (Hp j w Hw). simpl in Hp. bool_arith. done.
Qed.

Lemma sys_close_cases X tabs c fds s fd :
  files_wf X tabs s → tabs !! c = Some fds → length fds = 16%nat → 0 ≤ fd →
  (∃ s' i, fds !! Z.to_nat fd = Some i ∧ 0 ≤ i ∧
     sys_close s fds fd = Ret (0, <[Z.to_nat fd := -1]> fds, s') ∧
     files_wf X (<[c := <[Z.to_nat fd := -1]> fds]> tabs) s') ∨
  ((MAX_FDS ≤ fd ∨ ∃ i, fds !! Z.to_nat fd = Some i ∧ i < 0) ∧
   sys_close s fds fd = Ret (u64 (- EBADF), fds, s)).
Proof.
  intros Hwf Hc Hl Hfd. unfold sys_close. destruct (Z.leb_spec MAX_FDS fd); [by right; eauto|].
  destruct (fd_index fds fd Hl) as (i & Hk & -> & Hst); [lia|]. simpl.
  destruct (Z.ltb_spec i 0); [by right; eauto|].
  left. rewrite Hst. simpl.
  destruct (drop_fd X tabs c fds (Z.to_nat fd) i s Hwf Hc Hk) as (s' & -> & Hwf'); [lia|].
  simpl. eauto 10.
Qed.

Lemma sys_dup_inv X tabs c fds s fd :
  files_wf X tabs s → tabs !! c = Some fds → length fds = 16%nat → 0 ≤ fd →
  ∃ rc fds' s', sys_dup s fds fd = Ret (rc, fds', s') ∧ length fds' = 16%nat ∧
    files_wf X (<[c := fds']> tabs) s'.
Proof.
  intros Hwf Hc Hl Hfd. pose proof (tabs_same X tabs c fds s Hwf Hc).
  unfold sys_dup. destruct (Z.leb_spec MAX_FDS fd); [by eauto 10|].
  destruct (fd_index fds fd Hl) as (i & Hk & -> & _); [lia|]. simpl.
  destruct (Z.ltb_spec i 0); [by eauto 10|].
  destruct (free_fd_cases fds Hl) as [(k & v & Hkr & Hkv & Hneg & -> & _)|[-> _]]; [|by eauto 10].
  destruct (fd_index fds k Hl Hkr) as (v' & _ & _ & ->). simpl.
  pose proof (tabs_ok_lookup _ _ _ _ _ (proj1 Hwf) Hc Hk).
  destruct (dup_fd X tabs c fds (Z.to_nat k) v i s Hwf Hc Hkv Hneg) as (s' & -> & Hwf');
    [lia|by eapply refs_pos|].
  simpl. eexists _, _, _. split; [done|]. by rewrite length_insert.
Qed.

(** The part of [dup2] after its checks: [new_fd] ends up as a copy of [old_fd]. *)
Lemma sys_dup2_cases X tabs c fds s old new i :
  files_wf X tabs s → tabs !! c = Some fds → length fds = 16%nat →
  0 ≤ old < MAX_FDS → 0 ≤ new < MAX_FDS → old ≠ new →
  fds !! Z.to_nat old = Some i → 0 ≤ i →
  ∃ s', sys_dup2 s fds old new = Ret (new, <[Z.to_nat new := i]> fds, s') ∧
    files_wf X (<[c := <[Z.to_nat new := i]> fds]> tabs) s'.
Proof.
  intros Hwf Hc Hl Ho Hn Hne Hi Hi0. pose proof Hwf as [Hok Hinv].
  pose proof (tabs_ok_lookup _ _ _ _ _ Hok Hc Hi) as Hi64.
  pose proof (refs_pos _ _ _ _ _ Hc Hi) as Hpos.
  unfold sys_dup2. destruct (Z.leb_spec MAX_FDS old); [lia|]. destruct (Z.leb_spec MAX_FDS new); [lia|].
  simpl. rewrite (index_ret _ _ _ Hi). simpl. destruct (Z.ltb_spec i 0); [lia|].
  destruct (inv_entry X _ s i Hinv) as (f & w & Hf & _); [lia|done|].
  unfold oft_get. destruct (oft_index s i _ ltac:(lia) Hf) as (-> & -> & _). simpl.
  destruct (Z.eqb_spec old new); [lia|].
  destruct (fd_index fds new Hl Hn) as (j & Hj & -> & Hst). simpl.
  assert (Z.to_nat old ≠ Z.to_nat new) as Hnn by lia.
  assert (Z.to_nat new < length fds)%nat as Hnl by (by eapply lookup_lt_Some).
  destruct (Z.leb_spec 0 j).
  - rewrite Hst. simpl. destruct (drop_fd X tabs c fds (Z.to_nat new) j s Hwf Hc Hj) as (s1 & -> & Hwf1); [lia|].
    simpl. rewrite store_in_range by (rewrite length_insert; lia). simpl.
    rewrite list_insert_insert_eq.
    assert (<[c:=<[Z.to_nat new:=-1]> fds]> tabs !! c = Some (<[Z.to_nat new:=-1]> fds)) as Hc1
      by (by rewrite list_lookup_insert_eq by (by eapply lookup_lt_Some)).
    destruct (dup_fd X _ c _ (Z.to_nat new) (-1) i s1 Hwf1 Hc1) as (s2 & -> & Hwf2); [|lia|lia| |].
    + by rewrite list_lookup_insert_eq.
    + eapply (refs_pos _ c _ (Z.to_nat old)); [done|]. by rewrite list_lookup_insert_ne.
    + simpl. rewrite !list_insert_insert_eq in Hwf2. eauto.
  - simpl. rewrite Hst. simpl.
    destruct (dup_fd X tabs c fds (Z.to_nat new) j i s Hwf Hc Hj) as (s2 & -> & Hwf2); [lia|lia|done|].
    simpl. eauto.
Qed.

Lemma sys_dup2_inv X tabs c fds s old new :
  files_wf X tabs s → tabs !! c = Some fds → length fds = 16%nat → 0 ≤ old → 0 ≤ new →
  ∃ rc fds' s', sys_dup2 s fds old new = Ret (rc, fds', s') ∧ length fds' = 16%nat ∧
    files_wf X (<[c := fds']> tabs) s'.
Proof.
  intros Hwf Hc Hl Ho Hn. pose proof (tabs_same X tabs c fds s Hwf Hc).
  destruct (decide (MAX_FDS ≤ old ∨ MAX_FDS ≤ new)) as [Hbad|Hgood].
  { unfold sys_dup2. assert ((MAX_FDS <=? old) || (MAX_FDS <=? new) = true) as ->.
    { destruct Hbad as [Hb|Hb]; apply Z.leb_le in Hb; rewrite Hb; [done|apply orb_true_r]. }
    eauto 10. }
  destruct (fd_index fds old Hl) as (i & Hi & Hix & _); [lia|].
  destruct (decide (i < 0)) as [|].
  { unfold sys_dup2. destruct (Z.leb_spec MAX_FDS old), (Z.leb_spec MAX_FDS new); try lia. simpl.
    rewrite Hix. simpl. destruct (Z.ltb_spec i 0); [|lia]. eauto 10. }
  destruct (decide (old = new)) as [->|Hne].
  - unfold sys_dup2. destruct (Z.leb_spec MAX_FDS new); [lia|]. simpl. rewrite Hix. simpl.
    destruct (Z.ltb_spec i 0); [lia|]. pose proof Hwf as [Hok Hinv].
    pose proof (tabs_ok_lookup _ _ _ _ _ Hok Hc Hi).
    destruct (inv_entry X _ s i Hinv) as (f & w & Hf & _); [lia|by eapply refs_pos|].
    unfold oft_get. destruct (oft_index s i _ ltac:(lia) Hf) as (-> & -> & _). simpl.
    rewrite Z.eqb_refl. eauto 10.
  - destruct (sys_dup2_cases X tabs c fds s old new i) as (s' & -> & Hwf'); try done; try lia.
    eexists _, _, _. split; [done|]. by rewrite length_insert.
Qed.

Lemma open_vnode_inv X tabs c fds s v fl md :
  files_wf X tabs s → tabs !! c = Some fds → length fds = 16%nat → openable s v →
  ∃ rc fds' s', open_vnode s fds v fl md = Ret (rc, fds', s') ∧ length fds' = 16%nat ∧
    files_wf X (<[c := fds']> tabs) s'.
Proof.
  intros Hwf Hc Hl Hv. pose proof (tabs_same X tabs c fds s Hwf Hc) as Hsame.
  pose proof Hwf as [Hok Hinv]. unfold open_vnode.
  destruct (oft_alloc_cases s v fl md) as [(i & Hi & Hn & _ & ->)|[_ ->]]; simpl; [|by eauto 10].
  rewrite (fi_len _ _ _ Hinv) in Hi.
  pose proof (fi_free _ _ _ Hinv i Hn ltac:(lia)) as Hri.
  pose proof (inv_add_entry X _ s i v fl md Hinv ltac:(lia) Hn Hv) as Hadd.
  destruct (free_fd_cases fds Hl) as [(k & w & Hk & Hkw & Hneg & -> & _)|[-> _]].
  - destruct (fd_index fds k Hl Hk) as (w' & _ & _ & ->). simpl.
    eexists _, _, _. split; [done|]. rewrite length_insert. split; [done|].
    eapply install_fd; try done. by rewrite Hri.
  - destruct (oft_decref_inv X _ _ i Hadd ltac:(lia)) as (s' & -> & Hinv' & _); [rewrite upd_eq; lia|].
    simpl. eexists _, _, _. split; [done|]. split; [done|]. rewrite list_insert_id by done.
    split; [done|]. eapply files_inv_ext; [|done]. intros j Hj. unfold upd. zcases. subst. by rewrite Hri.
Qed.

Lemma close_fds_inv X c n : ∀ tabs fds s fd,
  files_wf X tabs s → tabs !! c = Some fds → length fds = 16%nat → 0 ≤ fd →
  fd + Z.of_nat n ≤ MAX_FDS →
  ∃ fds' s', close_fds s fds fd n = Ret (fds', s') ∧ length fds' = 16%nat ∧
    files_wf X (<[c := fds']> tabs) s' ∧
    ∀ j w, fds' !! j = Some w →
      if decide (fd ≤ Z.of_nat j < fd + Z.of_nat n) then w < 0 else fds !! j = Some w.
Proof.
  induction n as [|n IH]; intros tabs fds s fd Hwf Hc Hl Hfd Hle.
  { eexists _, _. split; [done|]. split; [done|]. split; [by apply tabs_same|].
    intros j w Hw. case_decide; [lia|done]. }
  simpl. destruct (fd_index fds fd Hl) as (i & Hi & -> & Hst); [lia|]. simpl.
  destruct (Z.leb_spec 0 i) as [Hi0|Hi0].
  - rewrite Hst. simpl. destruct (drop_fd X tabs c fds _ i s Hwf Hc Hi Hi0) as (s1 & -> & Hwf1). simpl.
    destruct (IH (<[c := <[Z.to_nat fd := -1]> fds]> tabs) (<[Z.to_nat fd := -1]> fds) s1 (fd + 1) Hwf1)
      as (fds' & s' & -> & Hl' & Hwf' & Hcl); [|by rewrite length_insert|lia|lia|].
    { by rewrite list_lookup_insert_eq by (by eapply lookup_lt_Some). }
    rewrite list_insert_insert_eq in Hwf'. eexists _, _. split; [done|]. split; [done|]. split; [done|].
    intros j w Hw. specialize (Hcl j w Hw). repeat case_decide; try lia; try done.
    + apply list_lookup_insert_Some in Hcl as [(? & ? & ?)|[? ?]]; lia.
    + by rewrite list_lookup_insert_ne in Hcl by lia.
  - destruct (IH tabs fds s (fd + 1)) as (fds' & s' & -> & Hl' & Hwf' & Hcl); try done; try lia.
    eexists _, _. split; [done|]. split; [done|]. split; [done|].
    intros j w Hw. specialize (Hcl j w Hw). repeat case_decide; try lia; try done.
    assert (j = Z.to_nat fd) as -> by lia. simplify_eq. done.
Qed.

Lemma incref_fds_inv X fds : ∀ r s,
  files_inv X r s → (∀ i, 0 ≤ i < OFT_SIZE → r i + Z.of_nat (length fds) < 2 ^ 32) →
  Forall (λ fd, fd < OFT_SIZE ∧ (0 ≤ fd → 0 < r fd)) fds →
  ∃ s', incref_fds s fds = Ret s' ∧ files_inv X (λ i, r i + countb (λ fd, fd =? i) fds) s'.
Proof.
  induction fds as [|fd fds IH]; intros r s Hinv Hb Hf; simpl.
  { exists s. split; [done|]. eapply files_inv_ext; [|done]. intros. lia. }
  apply Forall_cons in Hf as [[Hfd Hpos] Hf]. simpl in Hb.
  destruct (Z.leb_spec 0 fd) as [H0fd|H0fd].
  - specialize (Hpos H0fd). pose proof (Hb fd ltac:(lia)).
    destruct (oft_incref_inv X r s fd Hinv) as (s1 & -> & Hinv1 & _); [lia|lia|lia|]. simpl.
    destruct (IH _ s1 Hinv1) as (s' & -> & Hinv').
    + intros i Hi. specialize (Hb i Hi). unfold upd. zcases.
    + eapply Forall_impl; [done|]. simpl. intros x [? Hx]. split; [done|]. intros Hx0.
      unfold upd. zcases.
    + exists s'. split; [done|]. eapply files_inv_ext; [|done]. intros i Hi. simpl. unfold upd.
      destruct (Z.eqb_spec i fd), (Z.eqb_spec fd i); simpl; subst; lia.
  - simpl. destruct (IH r s Hinv) as (s' & -> & Hinv'); [|done|].
    + intros i Hi. specialize (Hb i Hi). lia.
    + exists s'. split; [done|]. eapply files_inv_ext; [|done]. intros i Hi. simpl.
      destruct (Z.eqb_spec fd i); simpl; lia.
Qed.

(** [fork] copies the descriptors of [c] into the empty slot [d]. *)
Lemma fork_fds_inv X tabs c d fds s :
  files_wf X tabs s → tabs !! c = Some fds → tabs !! d = Some [] →
  ∃ s', incref_fds s fds = Ret s' ∧ files_wf X (<[d := fds]> tabs) s'.
Proof.
  intros [Hok Hinv] Hc Hd. pose proof Hok as [_ Hf]. rewrite Forall_lookup in Hf.
  destruct (Hf c fds Hc) as [Hlen Hlt].
  destruct (incref_fds_inv X fds (refs tabs) s Hinv) as (s' & -> & Hinv').
  - intros i Hi. pose proof (refs_bound tabs i Hok). lia.
  - apply Forall_lookup. intros k v Hv. rewrite Forall_lookup in Hlt.
    split; [by eapply Hlt|]. intros _. by apply (refs_pos tabs c fds k).
  - exists s'. split; [done|]. split; [by apply tabs_ok_insert|].
    eapply files_inv_ext; [|done]. intros i Hi. rewrite (refs_insert _ _ _ _ _ Hd). simpl. lia.
Qed.

(** [waitpid] closes the descriptors of the reaped process and frees its slot. *)
Lemma cleanup_fds_inv X tabs c fds s :
  files_wf X tabs s → tabs !! c = Some fds → length fds = 16%nat →
  ∃ fds' s', cleanup_fds s fds = Ret (fds', s') ∧ files_wf X (<[c := []]> tabs) s'.
Proof.
  intros Hwf Hc Hl.
  destruct (close_fds_inv X c (Z.to_nat MAX_FDS) tabs fds s 0 Hwf Hc Hl)
    as (fds' & s' & E & Hl' & [Hok' Hinv'] & Hcl); [lia|done|].
  exists fds', s'. split; [done|]. destruct Hwf as [Hok _].
  split; [apply tabs_ok_insert; [done|simpl; lia|done]|].
  eapply files_inv_ext; [|done]. intros i Hi. rewrite !(refs_insert _ _ _ _ _ Hc). simpl.
  assert (countb (λ fd, fd =? i) fds' = 0); [|lia].
  apply countb_zero. intros j w Hw. specialize (Hcl j w Hw).
  apply lookup_lt_Some in Hw. unfold MAX_FDS in Hcl. case_decide; [|lia]. apply Z.eqb_neq. lia.
Qed.

(** A fresh heap block becomes the vnode of an archive entry. *)
Lemma alloc_file_vnode_inv X r s data size ty :
  files_inv X r s →
  ∃ o s', alloc_file_vnode s data size ty = Ret (o, s') ∧ files_inv X r s' ∧
    match o with Some v => openable s' v | None => s' = s end.
Proof.
  intros Hinv. destruct (fi_heap _ _ _ Hinv) as (L & HLr & HLd). unfold alloc_file_vnode.
  destruct (kmalloc_law _ _ SIZEOF_VNODE HLr) as [->|(p & n & h' & -> & Hp0 & HpL & _ & HL')];
    [unfold SIZEOF_VNODE; lia| |]; simpl.
  { eexists None, _. split; [done|]. destruct s. split; done. }
  destruct (Z.eqb_spec p 0); [done|].
  pose proof Hinv as [Hlen Hrefs Hfree Hinj Hst Hvn Hpipe (Hd1 & Hd2 & Hd3) _].
  assert (p ∉ X ∪ dom (fs_vnodes s) ∪ dom (fs_pipes s)) as Hfr
    by (rewrite <- HLd; by apply not_elem_of_dom).
  assert (fs_vnodes s !! p = None) as Hpv by (apply not_elem_of_dom; set_solver).
  assert (∀ i f, fs_oft s !! i = Some (Some f) → of_vnode f ≠ Some (VHeap p)) as Hno.
  { intros i f Hf Hfv. destruct (Hrefs (Z.of_nat i) f) as (_ & _ & v & Hv & Hok);
      [by rewrite Nat2Z.id|lia|]. simplify_eq. simpl in Hok. rewrite Hpv in Hok.
    by destruct Hok. }
  eexists (Some _), _. split; [done|]. split; [|simpl; eexists; rewrite lookup_insert_eq; by eauto].
  split; simpl; try done.
  - intros i f Hf Hi. destruct (Hrefs i f Hf Hi) as (? & ? & v & ? & Hok). split; [done|].
    split; [done|]. exists v. split; [done|]. destruct v as [|p']; [done|]. simpl in *.
    destruct (decide (p = p')) as [<-|]; [by rewrite lookup_insert_eq|by rewrite lookup_insert_ne].
  - intros p' vn' Hp'. apply lookup_insert_Some in Hp' as [[<- <-]|[? Hp']]; [done|by apply Hvn].
  - intros q pb Hq. destruct (Hpipe q pb Hq) as (? & Hrc & ?). split; [done|]. split; [|done].
    rewrite Hrc. unfold ends. simpl. apply countb_ext. intros i [f|] Hf; [|done].
    unfold is_end, pipe_of. simpl. destruct (of_vnode f) as [[|p']|] eqn:Hfv; simpl; try done.
    rewrite lookup_insert_ne; [done|]. intros <-. by eapply Hno.
  - rewrite dom_insert_L. split_and!; set_solver.
  - exists (<[p := n]> L). split; [done|]. rewrite !dom_insert_L, HLd. set_solver.
Qed.
End files.
