(* ===== verification/PipeSys.v ===== *)
(** * Creating pipes (src/kernel_rust/src/vfs/pipe.rs, [sys_pipe])

    What [sys_pipe] does on every branch: on success two new descriptors share a new
    empty pipe; on each of the six error paths the open files, the vnodes and the
    pipes are as before and every block taken from the heap has been given back. *)

From Stdlib Require Import ZArith Lia.
From stdpp Require Import base numbers list list_numbers option gmap fin_maps.
From S2P Require Import Prelude Heap Ring VfsTypes Pipe OpenFiles.

Local Open Scope Z_scope.

Section files.
  Context {H : Type} `{HL : KHeapLaws H}.
  Implicit Types (s : fstate H) (fds : FdTable).

(** ** Creating a pipe *)

Lemma inv_set_heap X r s h L :
  files_inv X r s → heap_rep h L → dom L = X ∪ dom (fs_vnodes s) ∪ dom (fs_pipes s) →
  files_inv X r (set_heap s h).
Proof. intros [??????? ? _] HLr HLd. split; try done. by exists L. Qed.

Lemma kfree_pipe_ok s p L : heap_rep (fs_heap s) L → is_Some (L !! p) →
  ∃ h, kfree_pipe s p = Ret (set_pipes (set_heap s h) (delete p (fs_pipes s))) ∧
    heap_rep h (delete p L).
Proof.
  intros HLr Hp. destruct (kfree_law _ _ _ HLr Hp) as (h & E & ?). exists h.
  unfold kfree_pipe. by rewrite E.
Qed.

Lemma kfree_vnode_ok s p L : heap_rep (fs_heap s) L → is_Some (L !! p) →
  ∃ h, kfree_vnode s p = Ret (set_vnodes (set_heap s h) (delete p (fs_vnodes s))) ∧
    heap_rep h (delete p L).
Proof.
  intros HLr Hp. destruct (kfree_law _ _ _ HLr Hp) as (h & E & ?). exists h.
  unfold kfree_vnode. by rewrite E.
Qed.

Definition pipe_vnode (o : ops_ptr) (pb : Z) : Vnode :=
  mkVnode o (Z.lor V_CHR 384) 0 0 DevFS (DPipe pb) None.

(** The state with a pipe whose two ends are the entries [i] and [j]. *)
Definition with_pipe s (pb rvn wvn i j : Z) (h : H) : fstate H :=
  mkFs (<[Z.to_nat j := Some (mkOF (Some (VHeap wvn)) 0 O_WRONLY 384 1)]>
          (<[Z.to_nat i := Some (mkOF (Some (VHeap rvn)) 0 O_RDONLY 384 1)]> (fs_oft s)))
    (<[wvn := pipe_vnode at_PIPE_WRITE_OPS pb]>
       (<[rvn := pipe_vnode at_PIPE_READ_OPS pb]> (fs_vnodes s)))
    (<[pb := PipeBuf_new]> (fs_pipes s)) h (fs_statics s).

(** The three blocks of a new pipe are fresh and distinct. *)
Definition fresh3 (X : gset Z) s (pb rvn wvn : Z) : Prop :=
  (pb ∉ X ∪ dom (fs_vnodes s) ∪ dom (fs_pipes s)) ∧
  (rvn ∉ X ∪ dom (fs_vnodes s) ∪ dom (fs_pipes s)) ∧
  (wvn ∉ X ∪ dom (fs_vnodes s) ∪ dom (fs_pipes s)) ∧
  pb ≠ rvn ∧ pb ≠ wvn ∧ rvn ≠ wvn.

Lemma fresh_not_open X r s p : files_inv X r s → p ∉ dom (fs_vnodes s) →
  ∀ i f, fs_oft s !! i = Some (Some f) → of_vnode f ≠ Some (VHeap p).
Proof.
  intros Hinv Hp i f Hf Hv. destruct (fi_refs _ _ _ Hinv (Z.of_nat i) f) as (_ & _ & v & Hv' & Hok);
    [by rewrite Nat2Z.id|lia|]. simplify_eq. by apply Hp, elem_of_dom.
Qed.

(** The new ends are ends of the new buffer only. *)
Lemma with_pipe_ends X r s pb rvn wvn i j h :
  files_inv X r s → fresh3 X s pb rvn wvn → i ≠ j → 0 ≤ i → 0 ≤ j →
  fs_oft s !! Z.to_nat i = Some None → fs_oft s !! Z.to_nat j = Some None →
  ∀ q, ends (with_pipe s pb rvn wvn i j h) q = ends s q + 2 * Z.b2z (pb =? q).
Proof.
  intros Hinv (Hf1 & Hf2 & Hf3 & Hn1 & Hn2 & Hn3) Hij Hi0 Hj0 Hi Hj q. unfold ends. simpl.
  set (vns := <[wvn:=_]> _).
  assert (<[Z.to_nat i:=Some (mkOF (Some (VHeap rvn)) 0 O_RDONLY 384 1)]> (fs_oft s) !! Z.to_nat j = Some None)
    as Hj' by (by rewrite list_lookup_insert_ne by lia).
  rewrite (countb_insert _ _ _ _ _ Hj'), (countb_insert _ _ _ _ _ Hi).
  assert (vns !! rvn = Some (pipe_vnode at_PIPE_READ_OPS pb)) as Hr
    by (unfold vns; by rewrite lookup_insert_ne, lookup_insert_eq).
  assert (vns !! wvn = Some (pipe_vnode at_PIPE_WRITE_OPS pb)) as Hw
    by (unfold vns; by rewrite lookup_insert_eq).
  assert (∀ e fl md, vns !! e = Some (pipe_vnode fl pb) →
            is_end vns q (Some (mkOF (Some (VHeap e)) 0 md 384 1)) = (pb =? q)) as He.
  { intros e fl md Hev. unfold is_end, pipe_of. simpl. rewrite Hev. simpl.
    destruct (Z.eqb_spec pb q) as [->|]; [by rewrite bool_decide_true|].
    rewrite bool_decide_false; [done|]. by intros [= ?]. }
  rewrite (He rvn _ _ Hr), (He wvn _ _ Hw).
  assert (is_end vns q None = false) as -> by done.
  rewrite (countb_ext _ (is_end (fs_vnodes s) q)); [simpl; lia|].
  intros k [f|] Hk; [|done]. unfold is_end, pipe_of. simpl.
  destruct (of_vnode f) as [[x|p]|] eqn:Hfv; simpl; try done.
  unfold vns. rewrite !lookup_insert_ne; [done| |]; intros <-;
    (eapply (fresh_not_open X r s); [done| |done|done]); set_solver.
Qed.

Lemma inv_with_pipe X r s pb rvn wvn i j h L :
  files_inv X r s → fresh3 X s pb rvn wvn → i ≠ j → 0 ≤ i → 0 ≤ j →
  fs_oft s !! Z.to_nat i = Some None → fs_oft s !! Z.to_nat j = Some None →
  heap_rep h L → dom L = {[pb; rvn; wvn]} ∪ (X ∪ dom (fs_vnodes s) ∪ dom (fs_pipes s)) →
  files_inv X (upd (upd r i 1) j 1) (with_pipe s pb rvn wvn i j h).
Proof.
  intros Hinv Hfr Hij Hi0 Hj0 Hi Hj HLr HLd.
  pose proof (with_pipe_ends X r s pb rvn wvn i j h Hinv Hfr Hij Hi0 Hj0 Hi Hj) as Hends.
  pose proof (fresh_not_open X r s) as Hno.
  destruct Hfr as (Hf1 & Hf2 & Hf3 & Hn1 & Hn2 & Hn3).
  assert (fs_vnodes s !! rvn = None ∧ fs_vnodes s !! wvn = None ∧ fs_pipes s !! pb = None)
    as (Hrv & Hwv & Hpb) by (split_and!; apply not_elem_of_dom; set_solver).
  pose proof (Hno rvn Hinv ltac:(by apply not_elem_of_dom)) as Hnor.
  pose proof (Hno wvn Hinv ltac:(by apply not_elem_of_dom)) as Hnow. clear Hno.
  assert (Z.to_nat i ≠ Z.to_nat j) as Hnij by lia.
  assert (Z.to_nat i < length (fs_oft s))%nat as Hil by (by eapply lookup_lt_Some).
  assert (Z.to_nat j < length (fs_oft s))%nat as Hjl by (by eapply lookup_lt_Some).
  pose proof Hinv as [Hlen Hrefs Hfree Hinj Hst Hvn Hpipe (Hd1 & Hd2 & Hd3) _].
  split; simpl; try done.
  - by rewrite !length_insert.
  - intros k f Hk Hk0. apply oft_insert_cases in Hk as [[E [= ->]]|[Hne Hk]].
    { assert (k = j) as -> by lia. rewrite upd_eq. simpl. split; [done|]. split; [lia|].
      eexists. split; [done|]. simpl. by rewrite lookup_insert_eq. }
    rewrite upd_ne by (intros ->; done). apply oft_insert_cases in Hk as [[E [= ->]]|[Hne' Hk]].
    { assert (k = i) as -> by lia. rewrite upd_eq. simpl. split; [done|]. split; [lia|].
      eexists. split; [done|]. simpl. by rewrite lookup_insert_ne, lookup_insert_eq. }
    rewrite upd_ne by (intros ->; done). destruct (Hrefs k f Hk Hk0) as (? & ? & v & ? & Hok).
    split; [done|]. split; [done|]. exists v. split; [done|]. destruct v as [|p]; [done|].
    simpl in *. rewrite !lookup_insert_ne; [done| |]; intros <-; rewrite ?Hrv, ?Hwv in Hok; by destruct Hok.
  - intros k Hk Hk0. apply oft_insert_cases in Hk as [[? ?]|[Hne Hk]]; [done|].
    apply oft_insert_cases in Hk as [[? ?]|[Hne' Hk]]; [done|].
    rewrite !upd_ne by (intros ->; done). by apply Hfree.
  - intros k l f g p Hk Hl Hfv Hgv.
    apply oft_insert_cases in Hk as [[-> [= ->]]|[_ Hk]]; [|apply oft_insert_cases in Hk as [[-> [= ->]]|[_ Hk]]];
    (apply oft_insert_cases in Hl as [[-> [= ->]]|[_ Hl]]; [|apply oft_insert_cases in Hl as [[-> [= ->]]|[_ Hl]]]);
      simpl in *; simplify_eq; try done; try (by eapply Hinj);
      first [by destruct (Hnor _ _ Hk)|by destruct (Hnow _ _ Hk)|by destruct (Hnor _ _ Hl)|by destruct (Hnow _ _ Hl)].
  - intros p vn Hp. apply lookup_insert_Some in Hp as [[<- <-]|[Hpw Hp]].
    { split; [exists pb; split; [done|by rewrite lookup_insert_eq]|].
      eexists (Z.to_nat j), _. rewrite list_lookup_insert_eq by (by rewrite length_insert). done. }
    apply lookup_insert_Some in Hp as [[<- <-]|[Hpr Hp]].
    { split; [exists pb; split; [done|by rewrite lookup_insert_eq]|].
      eexists (Z.to_nat i), _. rewrite list_lookup_insert_ne by done.
      rewrite list_lookup_insert_eq by done. done. }
    specialize (Hvn p vn Hp). destruct (is_pipe_vn vn); [|done].
    destruct Hvn as [(q & Hd & Hq) (k & f & Hk & Hfv)]. split.
    + exists q. split; [done|]. destruct (decide (pb = q)) as [<-|]; [by rewrite lookup_insert_eq|].
      by rewrite lookup_insert_ne.
    + exists k, f. rewrite !list_lookup_insert_ne; [done| |]; intros <-; by simplify_eq.
  - intros q b Hq. rewrite Hends. apply lookup_insert_Some in Hq as [[<- <-]|[Hne Hq]].
    + split; [apply PipeBuf_new_wf|]. rewrite Z.eqb_refl. split; [|simpl; lia].
      assert (ends s pb = 0) as ->; [|done]. apply countb_zero. intros k [f|] Hk; [|done].
      unfold is_end. apply bool_decide_eq_false_2. unfold pipe_of. simpl.
      destruct (of_vnode f) as [[x|p]|] eqn:Hfv; simpl; try done.
      destruct (fs_vnodes s !! p) as [vn|] eqn:Hp; [|done]. simpl.
      destruct (vn_data vn) as [| | |q] eqn:Hdt; try done. intros [= ->].
      specialize (Hvn p vn Hp). destruct (is_pipe_vn vn); [|by eapply Hvn].
      destruct Hvn as [(q' & Hd' & Hs) _]. rewrite Hdt in Hd'. injection Hd' as <-.
      rewrite Hpb in Hs. by destruct Hs.
    + destruct (Hpipe q b Hq) as (? & ? & ?). rewrite (proj2 (Z.eqb_neq pb q)) by done.
      simpl. split; [done|]. split; lia.
  - rewrite !dom_insert_L. split_and!; set_solver.
  - exists L. split; [done|]. rewrite HLd, !dom_insert_L. set_solver.
Qed.

(** The state with the read end closed again. *)
Definition half_pipe s (pb wvn j : Z) (h : H) : fstate H :=
  mkFs (<[Z.to_nat j := Some (mkOF (Some (VHeap wvn)) 0 O_WRONLY 384 1)]> (fs_oft s))
    (<[wvn := pipe_vnode at_PIPE_WRITE_OPS pb]> (fs_vnodes s))
    (<[pb := mkPipe ZERO_BUF 0 0 1]> (fs_pipes s)) h (fs_statics s).

Section undo.
  Context (s : fstate H) (pb rvn wvn i j : Z).
  Context (Hi : 0 ≤ i < OFT_SIZE) (Hj : 0 ≤ j < OFT_SIZE) (Hij : i ≠ j).
  Context (Hni : fs_oft s !! Z.to_nat i = Some None) (Hnj : fs_oft s !! Z.to_nat j = Some None).
  Context (Hn1 : pb ≠ rvn) (Hn2 : pb ≠ wvn) (Hn3 : rvn ≠ wvn).
  Context (Hp0 : fs_pipes s !! pb = None) (Hr0 : fs_vnodes s !! rvn = None)
    (Hw0 : fs_vnodes s !! wvn = None).

Lemma close_read_end h L :
  heap_rep h L → is_Some (L !! pb) → is_Some (L !! rvn) →
  ∃ h', oft_decref (with_pipe s pb rvn wvn i j h) i = Ret (half_pipe s pb wvn j h') ∧
    heap_rep h' (delete rvn L).
Proof.
  intros HLr HLp HLrv. assert (Z.to_nat i ≠ Z.to_nat j) as Hnij by lia.
  assert (Z.to_nat i < length (fs_oft s))%nat by (by eapply lookup_lt_Some).
  destruct (decref_pipe (with_pipe s pb rvn wvn i j h) i (mkOF (Some (VHeap rvn)) 0 O_RDONLY 384 1)
    rvn (pipe_vnode at_PIPE_READ_OPS pb) pb PipeBuf_new L) as (h1 & E1 & HL1); simpl; try done; try lia.
  { rewrite list_lookup_insert_ne, list_lookup_insert_eq by done. done. }
  { by rewrite lookup_insert_ne, lookup_insert_eq by done. }
  { by rewrite lookup_insert_eq. }
  exists h1. split; [|done]. rewrite E1. simpl. unfold half_pipe. f_equal. f_equal.
  - rewrite (list_insert_insert_ne _ (Z.to_nat i) (Z.to_nat j)), list_insert_insert_eq by done.
    by rewrite (list_insert_id _ (Z.to_nat i)).
  - rewrite delete_insert_ne by done. by rewrite delete_insert_id.
  - by rewrite insert_insert_eq.
Qed.

Lemma close_write_end h L :
  heap_rep h L → is_Some (L !! pb) → is_Some (L !! wvn) →
  ∃ h', oft_decref (half_pipe s pb wvn j h) j = Ret (set_heap s h') ∧
    heap_rep h' (delete pb (delete wvn L)).
Proof.
  intros HLr HLp HLw. assert (Z.to_nat j < length (fs_oft s))%nat by (by eapply lookup_lt_Some).
  destruct (decref_pipe (half_pipe s pb wvn j h) j (mkOF (Some (VHeap wvn)) 0 O_WRONLY 384 1)
    wvn (pipe_vnode at_PIPE_WRITE_OPS pb) pb (mkPipe ZERO_BUF 0 0 1) L) as (h1 & E1 & HL1);
    simpl; try done; try lia.
  { by rewrite list_lookup_insert_eq. }
  { by rewrite lookup_insert_eq. }
  { by rewrite lookup_insert_eq. }
  exists h1. split; [|done]. rewrite E1. simpl. unfold set_heap. f_equal. f_equal.
  - by rewrite list_insert_insert_eq, list_insert_id.
  - by rewrite delete_insert_id.
  - by rewrite delete_insert_id.
Qed.

(** The failure of the second [oft_alloc]: the read end is closed, then the buffer
    and the write vnode are freed. *)
Lemma undo_half_open h L :
  heap_rep h L → is_Some (L !! pb) → is_Some (L !! rvn) → is_Some (L !! wvn) →
  ∃ s1 s2 h', oft_decref (mkFs
      (<[Z.to_nat i := Some (mkOF (Some (VHeap rvn)) 0 O_RDONLY 384 1)]> (fs_oft s))
      (<[wvn := pipe_vnode at_PIPE_WRITE_OPS pb]>
         (<[rvn := pipe_vnode at_PIPE_READ_OPS pb]> (fs_vnodes s)))
      (<[pb := PipeBuf_new]> (fs_pipes s)) h (fs_statics s)) i = Ret s1 ∧
    kfree_pipe s1 pb = Ret s2 ∧ kfree_vnode s2 wvn = Ret (set_heap s h') ∧
    heap_rep h' (delete wvn (delete pb (delete rvn L))).
Proof.
  intros HLr HLp HLrv HLw.
  assert (Z.to_nat i < length (fs_oft s))%nat by (by eapply lookup_lt_Some).
  match goal with |- ∃ s1 s2 h', oft_decref ?s0 i = _ ∧ _ => set (s0' := s0) end.
  destruct (decref_pipe s0' i (mkOF (Some (VHeap rvn)) 0 O_RDONLY 384 1)
    rvn (pipe_vnode at_PIPE_READ_OPS pb) pb PipeBuf_new L) as (h1 & E1 & HL1); simpl; try done; try lia.
  { by rewrite list_lookup_insert_eq. }
  { by rewrite lookup_insert_ne, lookup_insert_eq by done. }
  { by rewrite lookup_insert_eq. }
  simpl in E1, HL1.
  destruct (kfree_law h1 _ pb HL1) as (h2 & E2 & HL2); [by rewrite lookup_delete_ne|].
  destruct (kfree_law h2 _ wvn HL2) as (h3 & E3 & HL3); [by rewrite !lookup_delete_ne|].
  eexists. eexists. exists h3. split; [exact E1|].
  unfold kfree_pipe at 1. simpl. rewrite E2. simpl. split; [reflexivity|].
  unfold kfree_vnode. simpl. rewrite E3. simpl. split; [|exact HL3].
  unfold set_heap, set_vnodes. simpl. f_equal. f_equal.
  - by rewrite list_insert_insert_eq, list_insert_id.
  - rewrite (delete_insert_ne _ rvn wvn) by done. rewrite (delete_insert_id _ rvn) by done.
    by rewrite delete_insert_id.
  - rewrite insert_insert_eq. by rewrite delete_insert_id.
Qed.
End undo.

(** Nothing but the free blocks of the heap has changed. *)
Definition unchanged (X : gset Z) (tabs : list FdTable) s s' : Prop :=
  files_wf X tabs s' ∧ ∃ h, s' = set_heap s h.

Lemma unchanged_heap X tabs s h L :
  files_wf X tabs s → heap_rep h L → dom L = X ∪ dom (fs_vnodes s) ∪ dom (fs_pipes s) →
  unchanged X tabs s (set_heap s h).
Proof. intros [Hok Hinv] HLr HLd. split; [|by exists h]. split; [done|]. by eapply inv_set_heap. Qed.

(** The error returns of [sys_pipe]. *)
Definition pipe_fails (X : gset Z) (tabs : list FdTable) s fds
    (o : outcome (Z * FdTable * option (Z * Z) * fstate H)) : Prop :=
  ∃ e s', o = Ret (- e, fds, None, s') ∧ e ∈ [EINVAL; ENOMEM; ENFILE; EMFILE] ∧
    unchanged X tabs s s'.

(** The success of [sys_pipe]: the two lowest unused descriptors are the ends of a
    new, empty pipe. *)
Definition pipe_made (X : gset Z) (tabs : list FdTable) (c : nat) s fds
    (o : outcome (Z * FdTable * option (Z * Z) * fstate H)) : Prop :=
  ∃ pb rvn wvn i j h rfd wfd,
    let fds1 := <[Z.to_nat rfd := i]> fds in
    let fds2 := <[Z.to_nat wfd := j]> fds1 in
    o = Ret (0, fds2, Some (rfd, wfd), with_pipe s pb rvn wvn i j h) ∧
    free_fd fds = Some rfd ∧ free_fd fds1 = Some wfd ∧
    files_wf X (<[c := fds2]> tabs) (with_pipe s pb rvn wvn i j h).

(** The state with the three blocks of a pipe in place, before it is published. *)
Definition built_pipe s (pb rvn wvn : Z) (h : H) : fstate H :=
  mkFs (fs_oft s)
    (<[wvn := pipe_vnode at_PIPE_WRITE_OPS pb]>
       (<[rvn := pipe_vnode at_PIPE_READ_OPS pb]> (fs_vnodes s)))
    (<[pb := PipeBuf_new]> (fs_pipes s)) h (fs_statics s).

(** No open file entry at all: the three blocks are given back. *)
Lemma publish_no_entry X tabs s fds pb rvn wvn h L :
  files_wf X tabs s → fresh3 X s pb rvn wvn → heap_rep h L →
  dom L = {[pb; rvn; wvn]} ∪ (X ∪ dom (fs_vnodes s) ∪ dom (fs_pipes s)) →
  ∃ s1 s2 s3, kfree_pipe (built_pipe s pb rvn wvn h) pb = Ret s1 ∧ kfree_vnode s1 rvn = Ret s2 ∧
    kfree_vnode s2 wvn = Ret s3 ∧ unchanged X tabs s s3.
Proof.
  intros Hwf (Hf1 & Hf2 & Hf3 & Hn1 & Hn2 & Hn3) HLr HLd.
  assert (∀ p, p ∈ dom L → is_Some (L !! p)) as HLs by (intros p; apply elem_of_dom).
  destruct (kfree_law h L pb HLr) as (h1 & E1 & HL1); [apply HLs; set_solver|].
  destruct (kfree_law h1 _ rvn HL1) as (h2 & E2 & HL2); [rewrite lookup_delete_ne by done; apply HLs; set_solver|].
  destruct (kfree_law h2 _ wvn HL2) as (h3 & E3 & HL3);
    [rewrite !lookup_delete_ne by done; apply HLs; set_solver|].
  unfold kfree_pipe, kfree_vnode. simpl. rewrite E1. simpl. eexists _, _, _.
  split; [done|]. simpl. rewrite E2. simpl. split; [done|]. simpl. rewrite E3. simpl. split; [done|].
  assert (fs_vnodes s !! rvn = None ∧ fs_vnodes s !! wvn = None ∧ fs_pipes s !! pb = None)
    as (Hrv & Hwv & Hpb) by (split_and!; apply not_elem_of_dom; set_solver).
  match goal with |- unchanged _ _ _ ?s' => assert (s' = set_heap s h3) as -> end.
  { unfold set_heap, set_vnodes, set_pipes. simpl. f_equal.
    - rewrite (delete_insert_ne _ rvn wvn) by done. rewrite (delete_insert_id _ rvn) by done.
      by rewrite delete_insert_id.
    - by rewrite delete_insert_id. }
  eapply unchanged_heap; [done|done|]. rewrite !dom_delete_L, HLd. set_solver.
Qed.

Section publish.
  Context (X : gset Z) (tabs : list FdTable) (c : nat) (fds : FdTable) (s : fstate H).
  Context (Hwf : files_wf X tabs s) (Hc : tabs !! c = Some fds) (Hl : length fds = 16%nat).
  Context (pb rvn wvn : Z) (h : H) (L : gmap Z Z).
  Context (Hfr : fresh3 X s pb rvn wvn) (HLr : heap_rep h L)
    (HLd : dom L = {[pb; rvn; wvn]} ∪ (X ∪ dom (fs_vnodes s) ∪ dom (fs_pipes s))).

Lemma fresh3_lookup :
  fs_vnodes s !! rvn = None ∧ fs_vnodes s !! wvn = None ∧ fs_pipes s !! pb = None ∧
  is_Some (L !! pb) ∧ is_Some (L !! rvn) ∧ is_Some (L !! wvn).
Proof.
  destruct Hfr as (Hf1 & Hf2 & Hf3 & _).
  split_and!; try (apply not_elem_of_dom; set_solver);
    apply elem_of_dom; rewrite HLd; set_solver.
Qed.

Lemma dom_given_back (L' : gmap Z Z) : dom L' = dom L ∖ {[pb; rvn; wvn]} →
  dom L' = X ∪ dom (fs_vnodes s) ∪ dom (fs_pipes s).
Proof. intros ->. rewrite HLd. destruct Hfr as (? & ? & ? & _). set_solver. Qed.

(** The descriptor table is full: both entries are closed again. *)
Lemma publish_no_fd i j :
  0 ≤ i < OFT_SIZE → 0 ≤ j < OFT_SIZE → i ≠ j →
  fs_oft s !! Z.to_nat i = Some None → fs_oft s !! Z.to_nat j = Some None →
  ∃ s1 s2, oft_decref (with_pipe s pb rvn wvn i j h) i = Ret s1 ∧ oft_decref s1 j = Ret s2 ∧
    unchanged X tabs s s2.
Proof.
  intros Hi Hj Hij Hni Hnj. destruct fresh3_lookup as (Hrv & Hwv & Hpb & HLp & HLrv & HLw).
  pose proof Hfr as (_ & _ & _ & Hn1 & Hn2 & Hn3).
  destruct (close_read_end s pb rvn wvn i j Hi Hj Hij Hni Hn1 Hn2 Hn3 Hrv h L HLr HLp HLrv)
    as (h1 & E1 & HL1).
  destruct (close_write_end s pb wvn j Hj Hnj Hn2 Hpb Hwv h1 _ HL1) as (h2 & E2 & HL2);
    [by rewrite lookup_delete_ne..|].
  eexists _, _. split; [exact E1|]. split; [exact E2|].
  eapply unchanged_heap; [done|done|]. apply dom_given_back. rewrite !dom_delete_L. set_solver.
Qed.

(** Both entries and both descriptors. *)
Lemma publish_ok i j k w k' w' :
  0 ≤ i < OFT_SIZE → 0 ≤ j < OFT_SIZE → i ≠ j →
  fs_oft s !! Z.to_nat i = Some None → fs_oft s !! Z.to_nat j = Some None →
  fds !! Z.to_nat k = Some w → w < 0 →
  <[Z.to_nat k := i]> fds !! Z.to_nat k' = Some w' → w' < 0 →
  files_wf X (<[c := <[Z.to_nat k' := j]> (<[Z.to_nat k := i]> fds)]> tabs)
    (with_pipe s pb rvn wvn i j h).
Proof.
  intros Hi Hj Hij Hni Hnj Hk Hw Hk' Hw'. pose proof Hwf as [Hok Hinv].
  pose proof (inv_with_pipe X _ s pb rvn wvn i j h L Hinv Hfr Hij ltac:(lia) ltac:(lia) Hni Hnj HLr HLd)
    as Hnew.
  pose proof (fi_free _ _ _ Hinv i Hni ltac:(lia)) as Hri.
  pose proof (fi_free _ _ _ Hinv j Hnj ltac:(lia)) as Hrj.
  split.
  - rewrite <- (list_insert_insert_eq tabs c _ (<[Z.to_nat k := i]> fds)).
    apply tabs_ok_set; [by apply tabs_ok_set; [| |lia]| |lia].
    by rewrite list_lookup_insert_eq by (by eapply lookup_lt_Some).
  - eapply files_inv_ext; [|exact Hnew]. intros y Hy.
    rewrite (refs_insert _ _ _ _ _ Hc), (countb_insert _ _ _ _ _ Hk'), (countb_insert _ _ _ _ _ Hk).
    unfold upd. zcases; subst; lia.
Qed.

Lemma publish_cases :
  let o := pipe_publish (built_pipe s pb rvn wvn h) fds pb rvn wvn in
  pipe_fails X tabs s fds o ∨ pipe_made X tabs c s fds o.
Proof.
  intros o. subst o. unfold pipe_publish. pose proof Hwf as [_ Hinv].
  destruct fresh3_lookup as (Hrv & Hwv & Hpb & HLp & HLrv & HLw).
  pose proof Hfr as (_ & _ & _ & Hn1 & Hn2 & Hn3). pose proof (fi_len _ _ _ Hinv) as Hlen.
  destruct (oft_alloc_cases (built_pipe s pb rvn wvn h) (VHeap rvn) O_RDONLY 384)
    as [(i & Hi & Hni & _ & ->)|[_ ->]]; simpl in *.
  2:{ left. destruct (publish_no_entry X tabs s fds pb rvn wvn h L Hwf Hfr HLr HLd)
        as (s1 & s2 & s3 & -> & E2 & E3 & Hu).
      simpl. rewrite E2. simpl. rewrite E3. simpl. eexists _, _. split; [done|]. split; [|done]. set_solver. }
  match goal with |- context [oft_alloc ?s0 (VHeap wvn) O_WRONLY 384] =>
    destruct (oft_alloc_cases s0 (VHeap wvn) O_WRONLY 384)
      as [(j & Hj & Hnj & _ & Ej)|[_ Ej]]; rewrite Ej; simpl in * end.
  2:{ left. destruct (undo_half_open s pb rvn wvn i ltac:(lia) Hni Hn1 Hn2 Hn3 Hpb Hrv Hwv h L HLr HLp HLrv HLw)
        as (s1 & s2 & h' & E1 & E2 & E3 & HL').
      unfold set_oft, built_pipe. simpl. rewrite E1. simpl. rewrite E2. simpl. rewrite E3. simpl.
      eexists _, _. split; [done|]. split; [set_solver|].
      eapply unchanged_heap; [done|done|]. apply dom_given_back. rewrite !dom_delete_L. set_solver. }
  rewrite length_insert in Hj.
  apply oft_insert_cases in Hnj as [[_ ?]|[Hne Hnj]]; [done|].
  assert (i ≠ j) as Hij by (intros ->; done).
  destruct (publish_no_fd i j ltac:(lia) ltac:(lia) Hij Hni Hnj) as (s1 & s2 & E1 & E2 & Hu).
  change (set_oft _ _) with (with_pipe s pb rvn wvn i j h).
  destruct (free_fd_cases fds Hl) as [(k & w & Hk & Hkw & Hneg & Ek & _)|[Ek _]]; rewrite Ek.
  2:{ left. rewrite E1. simpl. rewrite E2. simpl. eexists _, _. split; [done|]. split; [set_solver|done]. }
  destruct (fd_index fds k Hl Hk) as (? & _ & _ & ->). simpl.
  destruct (free_fd_cases (<[Z.to_nat k := i]> fds)) as [(k' & w' & Hk' & Hkw' & Hneg' & Ek' & _)|[Ek' _]];
    [by rewrite length_insert| |]; rewrite Ek'.
  2:{ left. rewrite store_in_range by (rewrite length_insert; unfold MAX_FDS in Hk; lia). simpl.
      assert (w = -1) as -> by (pose proof (tabs_ok_lookup _ _ _ _ _ (proj1 Hwf) Hc Hkw); lia).
      rewrite list_insert_insert_eq, list_insert_id by done.
      rewrite E1. simpl. rewrite E2. simpl. eexists _, _. split; [done|]. split; [set_solver|done]. }
  right. rewrite store_in_range by (rewrite length_insert; unfold MAX_FDS in Hk'; lia). simpl.
  eexists pb, rvn, wvn, i, j, h, k, k'. split; [done|]. split; [done|]. split; [done|].
  eapply publish_ok; eauto; lia.
Qed.
End publish.

(** [sys_pipe] on every branch. *)
Lemma sys_pipe_cases X tabs c fds s pipefd :
  files_wf X tabs s → tabs !! c = Some fds → length fds = 16%nat →
  pipe_fails X tabs s fds (sys_pipe s fds pipefd) ∨
  pipe_made X tabs c s fds (sys_pipe s fds pipefd).
Proof.
  intros Hwf Hc Hl. pose proof Hwf as [_ Hinv]. unfold sys_pipe.
  destruct (fi_heap _ _ _ Hinv) as (L & HLr & HLd).
  assert (∀ h, heap_rep h L → unchanged X tabs s (set_heap s h)) as Hback
    by (intros h Hh; by eapply unchanged_heap).
  destruct (Z.eqb_spec pipefd 0) as [_|_].
  { left. eexists _, _. split; [done|]. split; [set_solver|]. split; [done|].
    exists (fs_heap s). by destruct s. }
  destruct (kmalloc_law _ _ SIZEOF_PIPEBUF HLr) as [->|(pb & n1 & h1 & -> & H10 & H1L & _ & HL1)];
    [unfold SIZEOF_PIPEBUF; lia| |]; simpl.
  { left. eexists _, _. split; [done|]. split; [set_solver|]. by apply Hback. }
  destruct (Z.eqb_spec pb 0); [done|].
  destruct (kmalloc_law _ _ SIZEOF_VNODE HL1) as [->|(rvn & n2 & h2 & -> & H20 & H2L & _ & HL2)];
    [unfold SIZEOF_VNODE; lia| |]; simpl.
  { left. destruct (kfree_law _ _ pb HL1) as (h' & E & HL'); [by rewrite lookup_insert_eq|].
    unfold kfree_pipe. simpl. rewrite E. simpl. rewrite delete_insert_id in HL' by done.
    eexists _, _. split; [done|]. split; [set_solver|].
    assert (fs_pipes s !! pb = None) by (apply not_elem_of_dom; apply not_elem_of_dom in H1L; set_solver).
    unfold set_pipes, set_heap. simpl. rewrite delete_insert_id by done. by apply Hback. }
  destruct (Z.eqb_spec rvn 0); [done|].
  apply lookup_insert_None in H2L as [H2L Hn1].
  destruct (kmalloc_law _ _ SIZEOF_VNODE HL2) as [->|(wvn & n3 & h3 & -> & H30 & H3L & _ & HL3)];
    [unfold SIZEOF_VNODE; lia| |]; simpl.
  { left. destruct (kfree_law _ _ pb HL2) as (h' & E & HL'); [by rewrite lookup_insert_ne, lookup_insert_eq|].
    destruct (kfree_law _ _ rvn HL') as (h'' & E' & HL''); [by rewrite lookup_delete_ne, lookup_insert_eq|].
    unfold kfree_pipe, kfree_vnode. simpl. rewrite E. simpl. rewrite E'. simpl.
    rewrite delete_insert_ne in HL'' by done. rewrite (delete_insert_id _ pb) in HL'' by done.
    rewrite delete_insert_id in HL'' by done.
    eexists _, _. split; [done|]. split; [set_solver|].
    apply not_elem_of_dom in H1L, H2L.
    assert (fs_pipes s !! pb = None) by (apply not_elem_of_dom; set_solver).
    assert (fs_vnodes s !! rvn = None) by (apply not_elem_of_dom; set_solver).
    unfold set_pipes, set_heap, set_vnodes. simpl. rewrite !delete_insert_id by done. by apply Hback. }
  destruct (Z.eqb_spec wvn 0); [done|].
  apply lookup_insert_None in H3L as [H3L Hn3]. apply lookup_insert_None in H3L as [H3L Hn2].
  eapply (publish_cases X tabs c fds s Hwf Hc Hl pb rvn wvn h3); [|exact HL3|].
  - apply not_elem_of_dom in H1L, H2L, H3L. rewrite HLd in *. by split_and!.
  - rewrite !dom_insert_L, HLd. set_solver.
Qed.
End files.
