(* ===== verification/FdCalls.v ===== *)
(** * Sequences of descriptor calls

    The descriptor operations of all processes together: any interleaving of open,
    close, dup, dup2, pipe, fork, exec and reaping keeps the open file table, the
    pipes and the heap consistent, and what is no longer referenced is gone. *)

From Stdlib Require Import ZArith Lia.
From stdpp Require Import base numbers list list_numbers option gmap fin_maps.
From S2P Require Import Prelude Memory Kmm Heap Ring VfsTypes Pipe OpenFiles PipeSys.

Local Open Scope Z_scope.

(** What a process can do with descriptors.  [COpenStatic] opens one of the static
    vnodes, [COpenEntry] an archive file, for which a vnode is allocated first. *)
Inductive fcall :=
| CClose (fd : Z)
| CDup (fd : Z)
| CDup2 (old_fd new_fd : Z)
| CPipe (pipefd : Z)
| COpenStatic (v : static_vnode) (flags mode : Z)
| COpenEntry (data size entry_type flags mode : Z)
| CFork
| CExec
| CReap.

Section calls.
  Context {H : Type} `{HL : KHeapLaws H}.

(** The tables of all processes (an empty one for a free slot) and the files. *)
Abbreviation fworld := (list FdTable * fstate H)%type.

Definition put (tabs : list FdTable) (c : nat) (r : Z * FdTable * fstate H) : fworld :=
  let '(_, fds, s) := r in (<[c := fds]> tabs, s).

(** The call [k] by the process in slot [c]; a slot without a process makes none. *)
Definition run_fcall (c : nat) (k : fcall) (w : fworld) : outcome fworld :=
  let '(tabs, s) := w in
  match tabs !! c with
  | None => Ret w
  | Some fds =>
      if negb (Nat.eqb (length fds) 16) then Ret w
      else
        match k with
        | CClose fd => r ← sys_close s fds fd; Ret (put tabs c r)
        | CDup fd => r ← sys_dup s fds fd; Ret (put tabs c r)
        | CDup2 a b => r ← sys_dup2 s fds a b; Ret (put tabs c r)
        | CPipe p => '(rc, fds, _, s) ← sys_pipe s fds p; Ret (<[c := fds]> tabs, s)
        | COpenStatic v fl md => r ← open_vnode s fds (VStatic v) fl md; Ret (put tabs c r)
        | COpenEntry d z ty fl md =>
            '(o, s) ← alloc_file_vnode s d z ty;
            match o with
            | None => Ret (tabs, s)
            | Some v => r ← open_vnode s fds v fl md; Ret (put tabs c r)
            end
        | CFork =>
            match position (λ t : FdTable, Nat.eqb (length t) 0) tabs 0 with
            | None => Ret w
            | Some d => s ← incref_fds s fds; Ret (<[Z.to_nat d := fds]> tabs, s)
            end
        | CExec => '(fds, s) ← exec_close_fds s fds; Ret (<[c := fds]> tabs, s)
        | CReap => '(_, s) ← cleanup_fds s fds; Ret (<[c := []]> tabs, s)
        end
  end.

Fixpoint run_fcalls (l : list (nat * fcall)) (w : fworld) : outcome fworld :=
  match l with
  | [] => Ret w
  | (c, k) :: l => w ← run_fcall c k w; run_fcalls l w
  end.

(** Register arguments are unsigned. *)
Definition fcall_ok (k : fcall) : Prop :=
  match k with
  | CClose fd | CDup fd => 0 ≤ fd
  | CDup2 a b => 0 ≤ a ∧ 0 ≤ b
  | _ => True
  end.

Lemma run_fcall_inv X c k tabs s :
  files_wf X tabs s → fcall_ok k →
  ∃ tabs' s', run_fcall c k (tabs, s) = Ret (tabs', s') ∧ files_wf X tabs' s'.
Proof.
  intros Hwf Hk. simpl. destruct (tabs !! c) as [fds|] eqn:Hc; [|by eauto].
  destruct (Nat.eqb_spec (length fds) 16) as [Hl|]; [|by eauto]. simpl.
  destruct k as [fd|fd|a b|p|v fl md|d z ty fl md| | |]; simpl in Hk.
  - destruct (sys_close_cases X tabs c fds s fd Hwf Hc Hl Hk) as [(s' & i & _ & _ & -> & ?)|[_ ->]];
      simpl; eauto using tabs_same.
  - destruct (sys_dup_inv X tabs c fds s fd Hwf Hc Hl Hk) as (rc & fds' & s' & -> & _ & ?).
    simpl. eauto.
  - destruct Hk. destruct (sys_dup2_inv X tabs c fds s a b Hwf Hc Hl) as (rc & fds' & s' & -> & _ & ?);
      [done..|]. simpl. eauto.
  - destruct (sys_pipe_cases X tabs c fds s p Hwf Hc Hl)
      as [(e & s' & -> & _ & [? _])|(pb & r & w & i & j & h & rf & wf & -> & _ & _ & ?)]; simpl;
      eauto using tabs_same.
  - destruct (open_vnode_inv X tabs c fds s (VStatic v) fl md Hwf Hc Hl I)
      as (rc & fds' & s' & -> & _ & ?). simpl. eauto.
  - destruct Hwf as [Hok Hinv]. destruct (alloc_file_vnode_inv X _ s d z ty Hinv)
      as ([v|] & s1 & -> & Hinv1 & Hv); simpl; [|by eexists _, _; split; [done|split]].
    destruct (open_vnode_inv X tabs c fds s1 v fl md (conj Hok Hinv1) Hc Hl Hv)
      as (rc & fds' & s' & -> & _ & ?). simpl. eauto.
  - pose proof (position_spec (λ t : FdTable, Nat.eqb (length t) 0) tabs 0) as Hp.
    destruct (position _ tabs 0) as [d|]; [|by eauto].
    destruct Hp as (t & _ & Hd & Ht & _). rewrite Z.sub_0_r in Hd.
    apply Nat.eqb_eq, nil_length_inv in Ht as ->.
    destruct (fork_fds_inv X tabs c (Z.to_nat d) fds s Hwf Hc Hd) as (s' & -> & ?). simpl. eauto.
  - destruct (close_fds_inv X c (Z.to_nat (MAX_FDS - 3)) tabs fds s 3 Hwf Hc Hl)
      as (fds' & s' & E & _ & ? & _); [done|done|]. unfold exec_close_fds. rewrite E. simpl. eauto.
  - destruct (cleanup_fds_inv X tabs c fds s Hwf Hc Hl) as (fds' & s' & -> & ?). simpl. eauto.
Qed.

Lemma run_fcalls_inv X l : ∀ tabs s,
  files_wf X tabs s → Forall (λ ck, fcall_ok ck.2) l →
  ∃ tabs' s', run_fcalls l (tabs, s) = Ret (tabs', s') ∧ files_wf X tabs' s'.
Proof.
  induction l as [|[c k] l IH]; intros tabs s Hwf Hl; simpl; [by eauto|].
  apply Forall_cons in Hl as [Hk Hl].
  destruct (run_fcall_inv X c k tabs s Hwf Hk) as (tabs1 & s1 & E & Hwf1).
  cbn [run_fcall] in E. rewrite E. by apply IH.
Qed.

(** With every descriptor closed, nothing of the files is left but the vnodes of
    archive files, which the code never frees. *)
Lemma closed_all_gone X tabs s :
  files_wf X tabs s → (∀ t fd, t ∈ tabs → fd ∈ t → fd < 0) →
  (∀ i, 0 ≤ i < OFT_SIZE → fs_oft s !! Z.to_nat i = Some None) ∧ fs_pipes s = ∅ ∧
  (∀ p vn, fs_vnodes s !! p = Some vn → is_pipe_vn vn = false) ∧
  ∃ L, heap_rep (fs_heap s) L ∧ dom L = X ∪ dom (fs_vnodes s).
Proof.
  intros [Hok Hinv] Hneg.
  assert (∀ i, 0 ≤ i → refs tabs i = 0) as Hz.
  { intros i Hi. clear Hok Hinv. induction tabs as [|t tabs IH]; [done|]. simpl.
    rewrite IH by (intros t' fd Ht Hfd; apply (Hneg t' fd); [by apply elem_of_cons; right|done]).
    rewrite Z.add_0_r. apply countb_zero. intros j fd Hfd. apply Z.eqb_neq.
    assert (fd < 0); [|lia]. apply (Hneg t fd); [by apply elem_of_cons; left|].
    by eapply list_elem_of_lookup_2. }
  assert (∀ i f, fs_oft s !! i ≠ Some (Some f)) as Hnone.
  { intros i f Hf. destruct (fi_refs _ _ _ Hinv (Z.of_nat i) f) as (_ & Hr & _);
      [by rewrite Nat2Z.id|lia|]. rewrite Hz in Hr by lia. lia. }
  assert (fs_pipes s = ∅) as Hpe.
  { apply map_eq. intros q. rewrite lookup_empty. destruct (fs_pipes s !! q) as [pb|] eqn:Hq; [|done].
    destruct (fi_pipe _ _ _ Hinv q pb Hq) as (_ & Hrc & Hpos).
    assert (ends s q = 0); [|lia]. apply countb_zero. intros i [f|] Hf; [|done]. by destruct (Hnone i f). }
  split; [|split; [done|split]].
  - intros i Hi. pose proof (fi_len _ _ _ Hinv).
    destruct (lookup_lt_is_Some_2 (fs_oft s) (Z.to_nat i)) as [[f|] Hf]; [lia| |done].
    by destruct (Hnone _ _ Hf).
  - intros p vn Hp. pose proof (fi_vnode _ _ _ Hinv p vn Hp) as Hv.
    destruct (is_pipe_vn vn); [|done]. destruct Hv as [_ (i & f & Hf & _)]. by destruct (Hnone i f).
  - destruct (fi_heap _ _ _ Hinv) as (L & ? & HLd). exists L. split; [done|].
    rewrite HLd, Hpe, dom_empty_L. set_solver.
Qed.
End calls.

(** C8: any interleaving of descriptor calls by any processes (close, dup, dup2,
    pipe, open, fork, exec, reaping) returns normally - no panic, no access to a
    freed vnode or pipe, no double free - and keeps the invariant: every open file
    counts exactly the descriptors that refer to it, every pipe its open ends, and
    the heap holds exactly the vnodes and pipe buffers in use.  When in the end
    every descriptor is closed, no open file, pipe end or pipe buffer is left: what is
    left on the heap is what was there for other uses and the vnodes that path resolution
    made for files of the archive, which are never freed. *)
Theorem descriptor_calls_safe (H : Type) `(HL : KHeapLaws H) (X : gset Z)
    (l : list (nat * fcall)) (tabs : list FdTable) (s : fstate H)
    (Hwf : files_wf X tabs s) (Hok : Forall (λ ck, fcall_ok ck.2) l) :
  ∃ tabs' s', run_fcalls l (tabs, s) = Ret (tabs', s') ∧ files_wf X tabs' s' ∧
    ((∀ t fd, t ∈ tabs' → fd ∈ t → fd < 0) →
     (∀ i, 0 ≤ i < OFT_SIZE → fs_oft s' !! Z.to_nat i = Some None) ∧ fs_pipes s' = ∅ ∧
     (∀ p vn, fs_vnodes s' !! p = Some vn → is_pipe_vn vn = false) ∧
     ∃ L, heap_rep (fs_heap s') L ∧ dom L = X ∪ dom (fs_vnodes s')).
Proof.
  destruct (run_fcalls_inv X l tabs s Hwf Hok) as (tabs' & s' & E & Hwf').
  exists tabs', s'. split; [done|]. split; [done|]. by apply closed_all_gone.
Qed.

(** A fresh system: two process slots, one in use; a heap of 16 KiB. *)
Definition fresh_heap : mem * heap :=
  ({[ 65536 := MAGIC; 65544 := 16384; 65552 := 0 ]}, mkHeap 65536 65536 81920).
Definition fresh_files : fstate (mem * heap) :=
  mkFs OpenFileTable_new ∅ ∅ fresh_heap
    (λ _, mkVnode at_TTY_OPS 8630 0 0 DevFS (DInt 0) None).
Definition fresh_tabs : list FdTable := [FdTable_new; []].

Lemma fresh_heap_rep : heap_rep fresh_heap ∅.
Proof. exists [(16384, true)]. split; [|done]. constructor; vm_compute; repeat split; done. Qed.

Lemma fresh_files_wf : files_wf ∅ fresh_tabs fresh_files.
Proof.
  split.
  - split; [simpl; lia|]. apply List.Forall_cons; [split; [simpl; lia|]|].
    + apply Forall_replicate. unfold fd_ok, OFT_SIZE. lia.
    + apply List.Forall_cons; [split; [simpl; lia|done]|done].
  - assert (∀ i e, OpenFileTable_new !! i = Some e → e = None) as Hn.
    { intros i e He. by apply lookup_replicate in He as [-> _]. }
    split; simpl; try done.
    + intros i f Hf. by apply Hn in Hf.
    + intros i _ Hi. destruct (Z.eqb_spec (-1) i); [lia|]. by destruct i.
    + intros i j f g p Hf. by apply Hn in Hf.
    + exists ∅. split; [apply fresh_heap_rep|]. rewrite !dom_empty_L. set_solver.
Qed.

Definition demo_calls : list (nat * fcall) :=
  [(0%nat, CPipe 4096); (0%nat, CFork); (0%nat, CClose 0); (1%nat, CDup2 1 5); (1%nat, CReap)].

Lemma descriptor_calls_safe_witness :
  ∃ tabs' s', run_fcalls demo_calls (fresh_tabs, fresh_files) = Ret (tabs', s') ∧
    files_wf ∅ tabs' s' ∧
    ((∀ t fd, t ∈ tabs' → fd ∈ t → fd < 0) →
     (∀ i, 0 ≤ i < OFT_SIZE → fs_oft s' !! Z.to_nat i = Some None) ∧ fs_pipes s' = ∅ ∧
     (∀ p vn, fs_vnodes s' !! p = Some vn → is_pipe_vn vn = false) ∧
     ∃ L, heap_rep (fs_heap s') L ∧ dom L = ∅ ∪ dom (fs_vnodes s')).
Proof.
  apply (descriptor_calls_safe (mem * heap) kmm_heap_laws ∅ demo_calls fresh_tabs fresh_files
           fresh_files_wf).
  repeat (apply List.Forall_cons; [simpl; lia || done|]); done.
Defined.

(** C22: [sys_pipe] on every branch.  It fails with [EINVAL], [ENOMEM], [ENFILE] or
    [EMFILE], and then the descriptors, the open files, the vnodes and the pipes
    are untouched and every block taken has been freed; or it returns 0 and the
    two lowest unused descriptors, which are the read end and the write end of a
    new empty pipe with two references. *)
Theorem sys_pipe_spec (H : Type) `(HL : KHeapLaws H) (X : gset Z) (tabs : list FdTable)
    (c : nat) (fds : FdTable) (s : fstate H) (pipefd : Z)
    (Hwf : files_wf X tabs s) (Hc : tabs !! c = Some fds) (Hl : length fds = 16%nat) :
  pipe_fails X tabs s fds (sys_pipe s fds pipefd) ∨
  pipe_made X tabs c s fds (sys_pipe s fds pipefd).
Proof. by apply sys_pipe_cases. Qed.

Lemma sys_pipe_spec_witness :
  pipe_fails ∅ fresh_tabs fresh_files FdTable_new (sys_pipe fresh_files FdTable_new 4096) ∨
  pipe_made ∅ fresh_tabs 0 fresh_files FdTable_new (sys_pipe fresh_files FdTable_new 4096).
Proof.
  apply (sys_pipe_spec (mem * heap) kmm_heap_laws ∅ fresh_tabs 0 FdTable_new fresh_files 4096
           fresh_files_wf); done.
Defined.

(** [dup2] between two different valid descriptors makes [new_fd] a second
    reference to the open file of [old_fd], whatever [new_fd] was before (also when
    both already share it), closes what [new_fd] referred to, and keeps all counts
    exact. *)
Theorem sys_dup2_spec (H : Type) `(HL : KHeapLaws H) (X : gset Z) (tabs : list FdTable)
    (c : nat) (fds : FdTable) (s : fstate H) (old new i : Z)
    (Hwf : files_wf X tabs s) (Hc : tabs !! c = Some fds) (Hl : length fds = 16%nat)
    (Ho : 0 ≤ old < MAX_FDS) (Hn : 0 ≤ new < MAX_FDS) (Hne : old ≠ new)
    (Hi : fds !! Z.to_nat old = Some i) (Hi0 : 0 ≤ i) :
  ∃ s', sys_dup2 s fds old new = Ret (new, <[Z.to_nat new := i]> fds, s') ∧
    files_wf X (<[c := <[Z.to_nat new := i]> fds]> tabs) s'.
Proof. by apply sys_dup2_cases. Qed.

(** The fresh system after opening a device on descriptor 0. *)
Definition opened_fds : FdTable := <[0%nat := 0]> FdTable_new.
Definition opened_files : fstate (mem * heap) :=
  set_oft fresh_files
    (<[0%nat := Some (mkOF (Some (VStatic DEV_NULL_VNODE)) 0 0 0 1)]> OpenFileTable_new).

Lemma opened_files_wf : files_wf ∅ (<[0%nat := opened_fds]> fresh_tabs) opened_files.
Proof.
  destruct fresh_files_wf as [Hok Hinv].
  apply (install_fd ∅ fresh_tabs 0 FdTable_new 0 (-1) 0 opened_files); try done.
  apply (inv_add_entry ∅ (refs fresh_tabs) fresh_files 0 (VStatic DEV_NULL_VNODE) 0 0); done.
Qed.

Lemma sys_dup2_spec_witness :
  ∃ s', sys_dup2 opened_files opened_fds 0 3
        = Ret (3, <[Z.to_nat 3 := 0]> opened_fds, s') ∧
    files_wf ∅ (<[0%nat := <[Z.to_nat 3 := 0]> opened_fds]> (<[0%nat := opened_fds]> fresh_tabs)) s'.
Proof.
  apply (sys_dup2_spec (mem * heap) kmm_heap_laws ∅ (<[0%nat := opened_fds]> fresh_tabs) 0
           opened_fds opened_files 0 3 0 opened_files_wf); done.
Defined.
