(* ===== verification/Initramfs.v ===== *)
(** * The initial archive (src/kernel_rust/src/vfs/initramfs.rs)

    The ustar parser, lookup by path and the read operation.  The archive is its
    list of bytes; a pointer into it is an offset.  The parser is shown to agree
    with a ustar encoder on every archive of at most 128 files. *)

From Stdlib Require Import ZArith Lia.
From stdpp Require Import base numbers list list_numbers option gmap.
From S2P Require Import Prelude Ring Heap VfsTypes.

Local Open Scope Z_scope.

Definition USTAR_MAGIC : list Z := [117; 115; 116; 97; 114; 0]. (* "ustar\0" *)
Definition USTAR_BLOCK_SIZE : Z := 512.
Definition MAX_INITRAMFS_ENTRIES : Z := 128.

Record InitramfsEntry := mkEntry {
  e_name : Z;
  e_data : Z;
  e_size : Z;
  e_type : Z
}.

(** [size_of::<InitramfsEntry>()]. *)
Definition SIZEOF_ENTRY : Z := 32.

(** The [n] bytes of the archive from offset [off]. *)
Definition slice (arc : list Z) (off n : Z) : list Z :=
  (λ i, byte_at arc (off + i)) <$> seqZ 0 n.

(** Octal digits up to the first NUL or space; other bytes are skipped. *)
Fixpoint parse_octal_from (val : Z) (bytes : list Z) : Z :=
  match bytes with
  | [] => val
  | b :: bytes =>
      if (48 <=? b) && (b <=? 55) then parse_octal_from (u64 (u64 (val * 8) + (b - 48))) bytes
      else if (b =? 0) || (b =? 32) then val
      else parse_octal_from val bytes
  end.
Definition parse_octal (bytes : list Z) : Z := parse_octal_from 0 bytes.

Definition is_valid_header (arc : list Z) (off : Z) : bool :=
  bool_decide (slice arc (off + 257) 6 = USTAR_MAGIC).

Definition is_zero_block (arc : list Z) (off : Z) : bool :=
  forallb (λ b, b =? 0) (slice arc off 512).

(** The length of the name field. *)
Fixpoint name_len (arc : list Z) (off len : Z) (fuel : nat) : Z :=
  match fuel with
  | O => len
  | S fuel => if negb (byte_at arc (off + len) =? 0) then name_len arc off (len + 1) fuel else len
  end.
Definition header_name (arc : list Z) (off : Z) : list Z := slice arc off (name_len arc off 0 100).

Definition header_size (arc : list Z) (off : Z) : Z := parse_octal (slice arc (off + 124) 12).
Definition header_typeflag (arc : list Z) (off : Z) : Z := byte_at arc (off + 156).

(** Where the next header is, after the one at [off] with [sz] bytes of data. *)
Definition next_header (off sz : Z) : Z :=
  let off := u64 (off + USTAR_BLOCK_SIZE) in
  if 0 <? sz
  then u64 (off + u64 (sz + USTAR_BLOCK_SIZE - 1) / USTAR_BLOCK_SIZE * USTAR_BLOCK_SIZE)
  else off.

Abbreviation archive_len arc := (Z.of_nat (length arc)).

(** First pass: the number of entries. *)
Fixpoint count_entries (arc : list Z) (off count : Z) (fuel : nat) : outcome Z :=
  match fuel with
  | O => Hang
  | S fuel =>
      if u64 (off + USTAR_BLOCK_SIZE) <=? archive_len arc then
        if is_zero_block arc off then Ret count
        else if negb (is_valid_header arc off)
        then count_entries arc (u64 (off + USTAR_BLOCK_SIZE)) count fuel
        else
          let count := u64 (count + 1) in
          let off := next_header off (header_size arc off) in
          if MAX_INITRAMFS_ENTRIES <=? count then Ret count
          else count_entries arc off count fuel
      else Ret count
  end.

(** Second pass: the entries, at most [count] of them. *)
Fixpoint fill_entries (arc : list Z) (off idx count : Z) (fuel : nat)
    : outcome (list InitramfsEntry) :=
  match fuel with
  | O => Hang
  | S fuel =>
      if (u64 (off + USTAR_BLOCK_SIZE) <=? archive_len arc) && (idx <? count) then
        if is_zero_block arc off then Ret []
        else if negb (is_valid_header arc off)
        then fill_entries arc (u64 (off + USTAR_BLOCK_SIZE)) idx count fuel
        else
          let size_val := header_size arc off in
          let e := mkEntry off (u64 (off + USTAR_BLOCK_SIZE)) size_val (header_typeflag arc off) in
          l ← fill_entries arc (next_header off size_val) (u64 (idx + 1)) count fuel;
          Ret (e :: l)
      else Ret []
  end.

Section init.
  Context {H : Type} `{KHeap H}.

(** [initramfs_init]: the new value of [INITRAMFS_ENTRIES] ([None] for null) with
    [INITRAMFS_COUNT] its length, and the heap.  [old] is the value before. *)
Definition initramfs_init (arc : list Z) (old : option (list InitramfsEntry)) (h : H)
    (fuel : nat) : outcome (option (list InitramfsEntry) * H) :=
  if archive_len arc <? USTAR_BLOCK_SIZE then Ret (None, h)
  else
    count ← count_entries arc 0 0 fuel;
    if count =? 0 then Ret (old, h)
    else
      '(p, h) ← kmalloc_op (u64 (count * SIZEOF_ENTRY)) h;
      if p =? 0 then Ret (old, h)
      else
        l ← fill_entries arc 0 0 count fuel;
        Ret (Some l, h).
End init.

(** Does the NUL-terminated name at [off] equal [path], from its [j]-th byte on? *)
Fixpoint name_matches (arc : list Z) (off : Z) (path : list Z) (j : Z) : bool :=
  match path with
  | [] => byte_at arc (off + j) =? 0
  | c :: path =>
      let ec := byte_at arc (off + j) in
      if ec =? 0 then false
      else if negb (ec =? c) then false
      else name_matches arc off path (j + 1)
  end.

(** [initramfs_find]: data, size and type of the first entry named [path]. *)
Fixpoint find_entry (arc : list Z) (l : list InitramfsEntry) (path : list Z)
    : option (Z * Z * Z) :=
  match l with
  | [] => None
  | e :: l =>
      if name_matches arc (e_name e) path 0 then Some (e_data e, e_size e, e_type e)
      else find_entry arc l path
  end.
Definition initramfs_find (arc : list Z) (entries : option (list InitramfsEntry)) (path : list Z)
    : option (Z * Z * Z) :=
  match entries with None => None | Some l => find_entry arc l path end.

(** [initramfs_read] of [len] bytes at [offset] of a file: the result, the bytes
    stored to the caller's buffer, the new offset. *)
Definition initramfs_read (arc : list Z) (data size len offset : Z) : Z * list Z * Z :=
  let remain := Z.max 0 (size - offset) in
  let copy_len := Z.min len remain in
  if copy_len =? 0 then (0, [], offset)
  else (i64 copy_len, slice arc (data + offset) copy_len, u64 (offset + copy_len)).

(** ** Lemmas on slices *)

Lemma byte_at_app a b i : 0 ≤ i → byte_at (a ++ b) (Z.of_nat (length a) + i) = byte_at b i.
Proof. intros Hi. unfold byte_at. rewrite lookup_app_r by lia. do 2 f_equal. lia. Qed.

Lemma slice_app_skip a b off n : 0 ≤ off →
  slice (a ++ b) (Z.of_nat (length a) + off) n = slice b off n.
Proof.
  intros Hoff. unfold slice. apply list_fmap_ext. intros k i Hi.
  apply lookup_seqZ in Hi as [-> _]. rewrite <- Z.add_assoc. apply byte_at_app. lia.
Qed.

Lemma slice_prefix a b : slice (a ++ b) 0 (Z.of_nat (length a)) = a.
Proof.
  unfold slice. apply list_eq. intros k. rewrite list_lookup_fmap.
  destruct (decide (k < length a)%nat) as [Hk|Hk].
  - rewrite lookup_seqZ_lt by lia. simpl. unfold byte_at.
    replace (Z.to_nat _) with k by lia. rewrite lookup_app_l by done.
    destruct (lookup_lt_is_Some_2 a k Hk) as [x ->]. done.
  - rewrite lookup_seqZ_ge by lia. simpl. symmetry. apply lookup_ge_None_2. lia.
Qed.

(** The field [b] of a structure [a ++ b ++ c]. *)
Lemma slice_field a b c : slice (a ++ b ++ c) (Z.of_nat (length a)) (Z.of_nat (length b)) = b.
Proof.
  rewrite <- (Z.add_0_r (Z.of_nat (length a))), slice_app_skip by lia. apply slice_prefix.
Qed.

Lemma slice_length arc off n : 0 ≤ n → Z.of_nat (length (slice arc off n)) = n.
Proof. intros. unfold slice. rewrite length_fmap, length_seqZ. lia. Qed.

Lemma slice_slice arc off n o k : 0 ≤ o → 0 ≤ k → o + k ≤ n →
  slice (slice arc off n) o k = slice arc (off + o) k.
Proof.
  intros Ho Hk Hle. unfold slice at 1 3. apply list_fmap_ext. intros j i Hi.
  apply lookup_seqZ in Hi as [-> Hj]. unfold byte_at at 1, slice. rewrite list_lookup_fmap.
  rewrite lookup_seqZ_lt by lia. simpl. f_equal. lia.
Qed.

(** ** The encoder *)

(** [n] in [k] octal digits. *)
Fixpoint octal (k : nat) (n : Z) : list Z :=
  match k with O => [] | S k => octal k (n / 8) ++ [48 + n mod 8] end.

Record tar_file := mkTar { t_name : list Z; t_content : list Z; t_type : Z }.

Abbreviation t_size f := (Z.of_nat (length (t_content f))).

(** Padding to whole blocks. *)
Definition padding (n : Z) : nat := Z.to_nat ((- n) mod 512).

Definition tar_header (f : tar_file) : list Z :=
  (t_name f ++ replicate (124 - length (t_name f)) 0) ++ (octal 11 (t_size f) ++ [0]) ++
  replicate 20 0 ++ [t_type f] ++ replicate 100 0 ++ USTAR_MAGIC ++ replicate 249 0.

Definition tar_entry (f : tar_file) : list Z :=
  tar_header f ++ t_content f ++ replicate (padding (t_size f)) 0.

(** An archive ends with two zero blocks. *)
Definition tar_encode (fs : list tar_file) : list Z :=
  mjoin (tar_entry <$> fs) ++ replicate 1024 0.

Definition tar_ok (f : tar_file) : Prop :=
  (length (t_name f) < 100)%nat ∧ Forall (λ b, b ≠ 0) (t_name f) ∧ t_size f < 8 ^ 11.

(** The entry the parser should make of [f] at offset [off], and of the files that
    follow each other from there. *)
Definition entry_of (off : Z) (f : tar_file) : InitramfsEntry :=
  mkEntry off (off + 512) (t_size f) (t_type f).
Fixpoint entries_from (off : Z) (fs : list tar_file) : list InitramfsEntry :=
  match fs with
  | [] => []
  | f :: fs => entry_of off f :: entries_from (off + Z.of_nat (length (tar_entry f))) fs
  end.

Lemma octal_length k n : length (octal k n) = k.
Proof. revert n. induction k as [|k IH]; intros n; simpl; [done|]. rewrite length_app, IH. simpl. lia. Qed.

Lemma parse_octal_digit v d bytes : 0 ≤ d < 8 → 0 ≤ v → v * 8 + d < 2 ^ 64 →
  parse_octal_from v ((48 + d) :: bytes) = parse_octal_from (v * 8 + d) bytes.
Proof.
  intros Hd Hv Hb. simpl. destruct (Z.leb_spec 48 (48 + d)), (Z.leb_spec (48 + d) 55); try lia.
  simpl. f_equal. rewrite (u64_small (v * 8)) by lia. rewrite u64_small; lia.
Qed.

Lemma parse_octal_digits k : ∀ n v rest,
  0 ≤ n < 8 ^ Z.of_nat k → 0 ≤ v → v * 8 ^ Z.of_nat k + n < 2 ^ 64 →
  parse_octal_from v (octal k n ++ rest) = parse_octal_from (v * 8 ^ Z.of_nat k + n) rest.
Proof.
  induction k as [|k IH]; intros n v rest Hn Hv Hb; cbn [octal].
  { change (8 ^ Z.of_nat 0) with 1 in *. simpl. f_equal. lia. }
  rewrite Nat2Z.inj_succ, Z.pow_succ_r in * by lia.
  pose proof (Z.div_mod n 8 ltac:(lia)). pose proof (Z.mod_pos_bound n 8 ltac:(lia)).
  assert (0 < 8 ^ Z.of_nat k) by (apply Z.pow_pos_nonneg; lia).
  assert (0 ≤ n / 8 < 8 ^ Z.of_nat k)
    by (split; [apply Z.div_pos; lia|apply Z.div_lt_upper_bound; lia]).
  rewrite <- app_assoc, IH by nia. simpl app.
  rewrite parse_octal_digit by nia. f_equal. nia.
Qed.

Lemma tar_header_length f : tar_ok f → length (tar_header f) = 512%nat.
Proof.
  intros (Hn & _). unfold tar_header. rewrite !length_app, !length_replicate, octal_length. simpl. lia.
Qed.

Lemma tar_entry_length f : tar_ok f →
  Z.of_nat (length (tar_entry f)) = 512 + (t_size f + 511) / 512 * 512.
Proof.
  intros Hok. unfold tar_entry, padding. rewrite !length_app, tar_header_length by done.
  rewrite length_replicate.
  pose proof (Z.mod_pos_bound (- t_size f) 512 ltac:(lia)).
  pose proof (Z.div_mod (- t_size f) 512 ltac:(lia)).
  assert ((t_size f + 511) / 512 = - (- t_size f / 512)) as ->; [|lia].
  symmetry. apply (Z.div_unique _ _ _ (511 - (- t_size f) mod 512)); lia.
Qed.

Section header.
Context (pre : list Z) (f : tar_file) (rest : list Z) (Hok : tar_ok f).
Let arc := pre ++ tar_entry f ++ rest.
Let off := Z.of_nat (length pre).

Lemma header_field a b c :
  tar_entry f ++ rest = a ++ b ++ c → ∀ o n, o = Z.of_nat (length a) → n = Z.of_nat (length b) →
  slice arc (off + o) n = b.
Proof.
  intros E o n -> ->. unfold arc, off. rewrite slice_app_skip by lia. rewrite E. apply slice_field.
Qed.

(** The header up to its type flag. *)
Let upto_type : list Z :=
  (t_name f ++ replicate (124 - length (t_name f)) 0) ++ (octal 11 (t_size f) ++ [0]) ++ replicate 20 0.

Lemma upto_type_length : Z.of_nat (length upto_type) = 156.
Proof.
  destruct Hok as (Hn & _). unfold upto_type.
  rewrite !length_app, !length_replicate, octal_length. simpl. lia.
Qed.

Lemma header_magic : slice arc (off + 257) 6 = USTAR_MAGIC.
Proof.
  apply (header_field (upto_type ++ [t_type f] ++ replicate 100 0) USTAR_MAGIC
    (replicate 249 0 ++ t_content f ++ replicate (padding (t_size f)) 0 ++ rest)).
  - unfold tar_entry, tar_header, upto_type. by rewrite <- !app_assoc.
  - pose proof upto_type_length. rewrite !length_app, length_replicate. simpl. lia.
  - done.
Qed.

Lemma header_valid : is_valid_header arc off = true.
Proof. apply bool_decide_eq_true, header_magic. Qed.

Lemma header_not_zero : is_zero_block arc off = false.
Proof.
  unfold is_zero_block. destruct (forallb _ _) eqn:E; [|done]. exfalso.
  rewrite forallb_forall in E.
  assert (byte_at arc (off + 257) = 117) as Hb.
  { assert (slice arc (off + 257) 6 !! 0%nat = Some 117) as Hm by (by rewrite header_magic).
    unfold slice in Hm. rewrite list_lookup_fmap, lookup_seqZ_lt in Hm by lia.
    simpl in Hm. rewrite Z.add_0_r in Hm. by simplify_eq. }
  specialize (E 117). change (117 =? 0) with false in E. discriminate E.
  apply list_elem_of_In. unfold slice. apply list_elem_of_fmap. exists 257. split; [done|].
  apply elem_of_seqZ. lia.
Qed.

Lemma header_type : header_typeflag arc off = t_type f.
Proof.
  assert (slice arc (off + 156) 1 = [t_type f]) as Hs.
  { apply (header_field upto_type [t_type f]
      (replicate 100 0 ++ USTAR_MAGIC ++ replicate 249 0 ++ t_content f ++
       replicate (padding (t_size f)) 0 ++ rest)).
    - unfold tar_entry, tar_header, upto_type. by rewrite <- !app_assoc.
    - by rewrite upto_type_length.
    - done. }
  apply (f_equal (λ l, l !! 0%nat)) in Hs. unfold slice in Hs.
  rewrite list_lookup_fmap, lookup_seqZ_lt in Hs by lia. simpl in Hs. rewrite Z.add_0_r in Hs.
  unfold header_typeflag. by simplify_eq.
Qed.

Lemma header_size_ok : header_size arc off = t_size f.
Proof.
  destruct Hok as (Hn & _ & Hsz). unfold header_size.
  rewrite (header_field (t_name f ++ replicate (124 - length (t_name f)) 0)
    (octal 11 (t_size f) ++ [0])
    (replicate 20 0 ++ [t_type f] ++ replicate 100 0 ++ USTAR_MAGIC ++ replicate 249 0 ++
     t_content f ++ replicate (padding (t_size f)) 0 ++ rest)).
  - unfold parse_octal. rewrite parse_octal_digits by (change (Z.of_nat 11) with 11; lia). done.
  - unfold tar_entry, tar_header. by rewrite <- !app_assoc.
  - rewrite length_app, length_replicate. lia.
  - rewrite length_app, octal_length. done.
Qed.

Lemma next_header_ok : Z.of_nat (length arc) < 2 ^ 63 →
  next_header off (header_size arc off) = off + Z.of_nat (length (tar_entry f)).
Proof.
  intros Hb. rewrite header_size_ok, tar_entry_length by done. pose proof (tar_entry_length f Hok) as Hl.
  unfold arc in Hb. rewrite !length_app in Hb. unfold next_header, USTAR_BLOCK_SIZE, off in *.
  assert (t_size f ≤ (t_size f + 511) / 512 * 512).
  { pose proof (Z.div_mod (t_size f + 511) 512 ltac:(lia)).
    pose proof (Z.mod_pos_bound (t_size f + 511) 512 ltac:(lia)). lia. }
  destruct (Z.ltb_spec 0 (t_size f)) as [Hpos|Hz].
  - rewrite (u64_small (t_size f + 512 - 1)) by lia.
    replace (t_size f + 512 - 1) with (t_size f + 511) by lia.
    rewrite (u64_small (Z.of_nat (length pre) + 512)) by lia. rewrite u64_small by lia. lia.
  - assert (t_size f = 0) as -> by lia. rewrite u64_small by lia. done.
Qed.
End header.

Lemma zero_block_end pre : is_zero_block (pre ++ replicate 1024 0) (Z.of_nat (length pre)) = true.
Proof.
  unfold is_zero_block. rewrite <- (Z.add_0_r (Z.of_nat (length pre))), slice_app_skip by lia. done.
Qed.

(** The header after [pre] fits into the archive. *)
Lemma header_fits (pre tail : list Z) : (512 ≤ length tail)%nat → Z.of_nat (length (pre ++ tail)) < 2 ^ 63 →
  (u64 (Z.of_nat (length pre) + USTAR_BLOCK_SIZE) <=? archive_len (pre ++ tail)) = true.
Proof.
  rewrite length_app. intros Hl Hb. unfold USTAR_BLOCK_SIZE. rewrite u64_small by lia.
  apply Z.leb_le. lia.
Qed.

Lemma tar_entry_min f rest : tar_ok f → (512 ≤ length (tar_entry f ++ rest))%nat.
Proof. intros Hok. unfold tar_entry. rewrite !length_app, tar_header_length by done. lia. Qed.

Lemma mjoin_tar f fs : mjoin (tar_entry <$> f :: fs) = tar_entry f ++ mjoin (tar_entry <$> fs).
Proof. done. Qed.

Lemma count_encode fs : ∀ pre count fuel arc,
  arc = pre ++ mjoin (tar_entry <$> fs) ++ replicate 1024 0 →
  Forall tar_ok fs → archive_len arc < 2 ^ 63 → 0 ≤ count →
  count + Z.of_nat (length fs) ≤ MAX_INITRAMFS_ENTRIES → (length fs < fuel)%nat →
  count_entries arc (Z.of_nat (length pre)) count fuel = Ret (count + Z.of_nat (length fs)).
Proof.
  unfold MAX_INITRAMFS_ENTRIES.
  induction fs as [|f fs IH]; intros pre count [|fuel] arc -> Hok Hb Hc Hm Hf; cbn [length] in *; try lia.
  - cbn [fmap list_fmap mjoin list_join app] in *. cbn [count_entries].
    rewrite header_fits by (rewrite ?length_replicate; lia || done).
    rewrite zero_block_end. f_equal. lia.
  - apply Forall_cons in Hok as [Hok1 Hok]. rewrite mjoin_tar, <- app_assoc in *.
    cbn [count_entries]. rewrite header_fits by (done || by apply tar_entry_min).
    rewrite header_not_zero, header_valid, next_header_ok by done. cbn [negb].
    rewrite (u64_small (count + 1)) by lia. unfold MAX_INITRAMFS_ENTRIES.
    destruct (Z.leb_spec 128 (count + 1)); [f_equal; lia|].
    rewrite <- Nat2Z.inj_add, <- length_app, (app_assoc pre). rewrite IH; try done; try lia.
    + f_equal. lia.
    + by rewrite <- (app_assoc pre).
Qed.

Lemma fill_encode fs : ∀ pre idx count fuel arc,
  arc = pre ++ mjoin (tar_entry <$> fs) ++ replicate 1024 0 →
  Forall tar_ok fs → archive_len arc < 2 ^ 63 → 0 ≤ idx →
  idx + Z.of_nat (length fs) = count → count ≤ MAX_INITRAMFS_ENTRIES → (length fs < fuel)%nat →
  fill_entries arc (Z.of_nat (length pre)) idx count fuel
  = Ret (entries_from (Z.of_nat (length pre)) fs).
Proof.
  unfold MAX_INITRAMFS_ENTRIES.
  induction fs as [|f fs IH]; intros pre idx count [|fuel] arc -> Hok Hb Hi Hc Hm Hf; cbn [length] in *; try lia.
  - cbn [fill_entries]. destruct (Z.ltb_spec idx count); [lia|]. by rewrite andb_false_r.
  - apply Forall_cons in Hok as [Hok1 Hok]. rewrite mjoin_tar, <- app_assoc in *.
    cbn [fill_entries]. rewrite header_fits by (done || by apply tar_entry_min).
    destruct (Z.ltb_spec idx count); [|lia]. cbn [andb].
    rewrite header_not_zero, header_valid, next_header_ok, header_type, header_size_ok by done. cbn [negb].
    rewrite (u64_small (idx + 1)) by lia.
    rewrite <- Nat2Z.inj_add, <- length_app, (app_assoc pre). rewrite IH; try done; try lia.
    + cbn [mbind outcome_bind entries_from]. unfold entry_of, USTAR_BLOCK_SIZE.
      rewrite !length_app, Nat2Z.inj_add in *. rewrite u64_small by lia. done.
    + by rewrite <- (app_assoc pre).
Qed.

(** ** Lookup *)

(** The file named [path] that comes first. *)
Definition find_tar (fs : list tar_file) (path : list Z) : option tar_file :=
  find (λ f, bool_decide (t_name f = path)) fs.

(** The name field of a header: the name and at least one NUL. *)
Lemma name_matches_spec name rest path pre : Forall (λ b, b ≠ 0) name → Forall (λ b, b ≠ 0) path →
  name_matches (pre ++ name ++ 0 :: rest) 0 path (Z.of_nat (length pre)) = bool_decide (name = path).
Proof.
  revert path pre. induction name as [|b name IH]; intros path pre Hn Hp.
  - assert (byte_at (pre ++ [] ++ 0 :: rest) (0 + Z.of_nat (length pre)) = 0) as Hb.
    { rewrite Z.add_0_l, <- (Z.add_0_r (Z.of_nat _)). by rewrite byte_at_app. }
    destruct path as [|c path]; cbn [name_matches]; rewrite Hb; done.
  - apply Forall_cons in Hn as [Hb0 Hn].
    assert (byte_at (pre ++ (b :: name) ++ 0 :: rest) (0 + Z.of_nat (length pre)) = b) as Hb.
    { rewrite Z.add_0_l, <- (Z.add_0_r (Z.of_nat _)). by rewrite byte_at_app. }
    destruct path as [|c path]; cbn [name_matches]; rewrite Hb;
      destruct (Z.eqb_spec b 0); try done.
    apply Forall_cons in Hp as [Hc0 Hp]. destruct (Z.eqb_spec b c) as [->|Hne]; cbn [negb].
    + replace (Z.of_nat (length pre) + 1) with (Z.of_nat (length (pre ++ [c])))
        by (rewrite length_app; simpl; lia).
      change (pre ++ (c :: name) ++ 0 :: rest) with (pre ++ [c] ++ (name ++ 0 :: rest)).
      rewrite app_assoc, IH by done.
      destruct (decide (name = path)) as [->|]; [by rewrite !bool_decide_true|].
      rewrite !bool_decide_false by congruence. done.
    + by rewrite bool_decide_false by congruence.
Qed.

Lemma name_matches_shift arc off path : ∀ j,
  name_matches arc off path j = name_matches arc 0 path (off + j).
Proof.
  induction path as [|c path IH]; intros j; cbn [name_matches]; rewrite Z.add_0_l; [done|].
  by rewrite IH, Z.add_assoc.
Qed.

Lemma header_name_matches pre f rest path : tar_ok f → Forall (λ b, b ≠ 0) path →
  name_matches (pre ++ tar_entry f ++ rest) (Z.of_nat (length pre)) path 0
  = bool_decide (t_name f = path).
Proof.
  intros (Hn & Hz & _) Hp. rewrite name_matches_shift, Z.add_0_r.
  unfold tar_entry, tar_header. rewrite <- !app_assoc.
  destruct (124 - length (t_name f))%nat as [|k] eqn:E; [lia|]. cbn [replicate app].
  by apply name_matches_spec.
Qed.

Lemma content_slice pre f rest : tar_ok f →
  slice (pre ++ tar_entry f ++ rest) (Z.of_nat (length pre) + 512) (t_size f) = t_content f.
Proof.
  intros Hok. rewrite slice_app_skip by lia. unfold tar_entry. rewrite <- !app_assoc.
  assert (512 = Z.of_nat (length (tar_header f))) as -> by (by rewrite tar_header_length).
  apply slice_field.
Qed.

(** What looking up [path] finds: the first file of that name, whose data is its
    content. *)
Definition found (arc : list Z) (r : option (Z * Z * Z)) (o : option tar_file) : Prop :=
  match o with
  | None => r = None
  | Some f => ∃ data, 0 ≤ data ∧ r = Some (data, t_size f, t_type f) ∧
      slice arc data (t_size f) = t_content f ∧ data + t_size f ≤ archive_len arc
  end.

Lemma find_encode path fs : ∀ pre arc,
  arc = pre ++ mjoin (tar_entry <$> fs) ++ replicate 1024 0 →
  Forall tar_ok fs → Forall (λ b, b ≠ 0) path →
  found arc (find_entry arc (entries_from (Z.of_nat (length pre)) fs) path) (find_tar fs path).
Proof.
  induction fs as [|f fs IH]; intros pre arc -> Hok Hp; [done|].
  apply Forall_cons in Hok as [Hok1 Hok]. rewrite mjoin_tar, <- app_assoc.
  cbn [entries_from find_entry find_tar find entry_of e_name e_data e_size e_type].
  rewrite header_name_matches by done.
  case_bool_decide; [|].
  - eexists. split; [|split; [done|]]; [lia|]. split; [by apply content_slice|].
    rewrite !length_app. unfold tar_entry at 1. rewrite !length_app, tar_header_length by done. lia.
  - rewrite <- Nat2Z.inj_add, <- length_app. apply IH; try done. by rewrite <- (app_assoc pre).
Qed.

Lemma slice_drop_take l off n : 0 ≤ off → 0 ≤ n → off + n ≤ Z.of_nat (length l) →
  slice l off n = take (Z.to_nat n) (drop (Z.to_nat off) l).
Proof.
  intros Ho Hn Hle. apply list_eq. intros k. unfold slice. rewrite list_lookup_fmap.
  destruct (decide (k < Z.to_nat n)%nat) as [Hk|Hk].
  - rewrite lookup_take_lt, lookup_drop, lookup_seqZ_lt by lia. simpl. unfold byte_at.
    replace (Z.to_nat (off + (0 + Z.of_nat k))) with (Z.to_nat off + k)%nat by lia.
    destruct (lookup_lt_is_Some_2 l (Z.to_nat off + k)) as [x ->]; [lia|done].
  - rewrite lookup_seqZ_ge by lia. symmetry. apply lookup_ge_None_2. rewrite length_take. lia.
Qed.

(** Reading a file whose data is [content]. *)
Lemma read_content arc data content len offset :
  slice arc data (Z.of_nat (length content)) = content → 0 ≤ len < 2 ^ 63 → 0 ≤ offset < 2 ^ 63 →
  let bs := take (Z.to_nat len) (drop (Z.to_nat offset) content) in
  initramfs_read arc data (Z.of_nat (length content)) len offset
  = (Z.of_nat (length bs), bs, offset + Z.of_nat (length bs)).
Proof.
  intros Hs Hl Ho bs. unfold initramfs_read.
  assert (Z.min len (Z.max 0 (Z.of_nat (length content) - offset)) = Z.of_nat (length bs)) as ->.
  { unfold bs. rewrite length_take, length_drop. lia. }
  destruct (Z.eqb_spec (Z.of_nat (length bs)) 0) as [E|E].
  { rewrite E, Z.add_0_r. f_equal. f_equal. symmetry. apply nil_length_inv. lia. }
  pose proof (length_take (drop (Z.to_nat offset) content) (Z.to_nat len)) as Hbl.
  fold bs in Hbl. rewrite length_drop in Hbl.
  rewrite <- (slice_slice arc data (Z.of_nat (length content))) by lia. rewrite Hs.
  rewrite slice_drop_take by lia. unfold i64.
  rewrite Z.mod_small, u64_small by lia. f_equal. f_equal; [lia|].
  rewrite Nat2Z.id. unfold bs. rewrite length_take, length_drop.
  destruct (decide (Z.to_nat len ≤ length content - Z.to_nat offset)%nat).
  - by rewrite Nat.min_l by done.
  - rewrite Nat.min_r by lia. by rewrite !take_ge by (rewrite length_drop; lia).
Qed.

Section theorem.
  Context {H : Type} `{KHeap H}.

Lemma initramfs_init_ok (fs : list tar_file) (old : option (list InitramfsEntry)) (h h' : H) (p : Z) (fuel : nat) :
  Forall tar_ok fs → (0 < length fs ≤ 128)%nat → archive_len (tar_encode fs) < 2 ^ 63 → (length fs < fuel)%nat →
  kmalloc_op (Z.of_nat (length fs) * SIZEOF_ENTRY) h = Ret (p, h') → p ≠ 0 →
  initramfs_init (tar_encode fs) old h fuel = Ret (Some (entries_from 0 fs), h').
Proof.
  intros Hok Hlen Hsize Hfuel Halloc Hp.
  unfold initramfs_init. destruct (Z.ltb_spec (archive_len (tar_encode fs)) USTAR_BLOCK_SIZE) as [Hlt|_].
  { unfold tar_encode, USTAR_BLOCK_SIZE in Hlt. rewrite length_app, length_replicate in Hlt. lia. }
  pose proof (count_encode fs [] 0 fuel (tar_encode fs) eq_refl Hok Hsize) as Hcnt.
  pose proof (fill_encode fs [] 0 (Z.of_nat (length fs)) fuel (tar_encode fs) eq_refl Hok Hsize) as Hfill.
  unfold MAX_INITRAMFS_ENTRIES in *. change (archive_len []) with 0 in *.
  rewrite Hcnt by lia. cbn [mbind outcome_bind]. rewrite Z.add_0_l. destruct (Z.eqb_spec (Z.of_nat (length fs)) 0); [lia|].
  rewrite u64_small by (unfold SIZEOF_ENTRY; lia). rewrite Halloc. cbn [mbind outcome_bind].
  destruct (Z.eqb_spec p 0); [done|].
  by rewrite Hfill by lia.
Qed.

(** C16: the archive round trip.  For every archive of 1 to 128 files in ustar format
    (names under 100 bytes, sizes under [8 ^ 11]), [initramfs_init] terminates and
    parses every file; looking up a path then finds the first file of exactly that
    name with its type and size, or nothing, and reading it at any offset returns
    exactly the bytes of its content from there. *)
Theorem ustar_roundtrip (fs : list tar_file) (old : option (list InitramfsEntry)) (h h' : H)
    (p : Z) (fuel : nat)
    (Hok : Forall tar_ok fs) (Hlen : (0 < length fs ≤ 128)%nat)
    (Hsize : archive_len (tar_encode fs) < 2 ^ 63) (Hfuel : (length fs < fuel)%nat)
    (Halloc : kmalloc_op (Z.of_nat (length fs) * SIZEOF_ENTRY) h = Ret (p, h')) (Hp : p ≠ 0) :
  ∃ entries, initramfs_init (tar_encode fs) old h fuel = Ret (Some entries, h') ∧
    ∀ path, Forall (λ b, b ≠ 0) path →
      match find_tar fs path with
      | None => initramfs_find (tar_encode fs) (Some entries) path = None
      | Some f => ∃ data,
          initramfs_find (tar_encode fs) (Some entries) path = Some (data, t_size f, t_type f) ∧
          ∀ len offset, 0 ≤ len < 2 ^ 63 → 0 ≤ offset < 2 ^ 63 →
            let bs := take (Z.to_nat len) (drop (Z.to_nat offset) (t_content f)) in
            initramfs_read (tar_encode fs) data (t_size f) len offset
            = (Z.of_nat (length bs), bs, offset + Z.of_nat (length bs))
      end.
Proof.
  exists (entries_from 0 fs). split.
  - by apply (initramfs_init_ok fs old h h' p fuel).
  - intros path Hpath. pose proof (find_encode path fs [] (tar_encode fs) eq_refl Hok Hpath) as Hf.
    unfold found in Hf. simpl. destruct (find_tar fs path) as [f|]; [|done].
    destruct Hf as (data & Hd & Hfind & Hs & _). exists data. split; [done|].
    intros len offset Hl Ho. by apply read_content.
Qed.
End theorem.

(** An archive of two files of the same name, and a heap that always succeeds. *)
Definition demo_tar : list tar_file :=
  [mkTar [98; 105; 110] [] 53; mkTar [97] [1; 2; 3] 48; mkTar [97] [9] 48].

#[local] Instance counter_heap : KHeap Z := {
  kmalloc_op size s := Ret (s, s + size);
  kfree_op p s := Ret s;
  heap_rep _ _ := True
}.

Lemma ustar_roundtrip_witness :
  ∃ entries, initramfs_init (tar_encode demo_tar) None 4096 5 = Ret (Some entries, 4192) ∧
    ∀ path, Forall (λ b, b ≠ 0) path →
      match find_tar demo_tar path with
      | None => initramfs_find (tar_encode demo_tar) (Some entries) path = None
      | Some f => ∃ data,
          initramfs_find (tar_encode demo_tar) (Some entries) path = Some (data, t_size f, t_type f) ∧
          ∀ len offset, 0 ≤ len < 2 ^ 63 → 0 ≤ offset < 2 ^ 63 →
            let bs := take (Z.to_nat len) (drop (Z.to_nat offset) (t_content f)) in
            initramfs_read (tar_encode demo_tar) data (t_size f) len offset
            = (Z.of_nat (length bs), bs, offset + Z.of_nat (length bs))
      end.
Proof.
  apply (ustar_roundtrip demo_tar None 4096 4192 4096 5); try done.
  - repeat (apply List.Forall_cons; [repeat split; try (simpl; lia);
      repeat (apply List.Forall_cons; [lia|]); done|]); done.
  - simpl. lia.
  - simpl. lia.
Defined.
