(* ===== verification/Names.v ===== *)
(** * Names and filesystems (src/kernel_rust/src/vfs/mount.rs, chardev.rs, devfs.rs,
      rootfs.rs and the lookup part of mod.rs)

    The mount table, the character-device registry, the two in-memory filesystems,
    and path resolution.  A path is the list of its bytes without the NUL. *)

From Stdlib Require Import ZArith Lia.
From stdpp Require Import base numbers list list_numbers option gmap.
From S2P Require Import Prelude Heap Ring VfsTypes Pipe OpenFiles Initramfs.

Local Open Scope Z_scope.

(** ** Mount table *)

Record MountEntry := mkMount {
  mt_path : list Z;
  mt_root : option vref;
  mt_fs_type : FsType;
  mt_flags : Z
}.
Record MountTable := mkMounts { mounts : list (option MountEntry); mount_count : Z }.
Definition MountTable_new : MountTable := mkMounts (replicate (Z.to_nat MAX_MOUNTS) None) 0.

Definition mount_add (t : MountTable) (path : list Z) (root : vref) (fs_type : FsType) (flags : Z)
    : outcome (Z * MountTable) :=
  if MAX_MOUNTS <=? mount_count t then Ret (- ENOMEM, t)
  else
    l ← store (mounts t) (mount_count t) (Some (mkMount path (Some root) fs_type flags));
    Ret (0, mkMounts l (u64 (mount_count t + 1))).

(** A mount path without a trailing NUL. *)
Definition strip_nul (p : list Z) : list Z :=
  match last p with Some 0 => removelast p | _ => p end.

Fixpoint mount_find_in (l : list (option MountEntry)) (path : list Z) : option vref :=
  match l with
  | [] => None
  | Some e :: l =>
      if bool_decide (path = strip_nul (mt_path e)) then
        match mt_root e with Some v => Some v | None => mount_find_in l path end
      else mount_find_in l path
  | None :: l => mount_find_in l path
  end.
Definition mount_find (t : MountTable) (path : list Z) : option vref := mount_find_in (mounts t) path.

Definition mount_get_root (t : MountTable) : outcome (option vref) :=
  if mount_count t =? 0 then Ret None
  else
    e ← index (mounts t) 0;
    Ret (e ← e; mt_root e).

(** ** Character devices *)

Definition MAX_CHARDEVS : Z := 8.
Record Chardev := mkChardev { cd_name : list Z; cd_name_len : Z; cd_dev_id : Z }.
Record ChardevTable := mkChardevs { chardevs : list Chardev; chardev_count : Z }.
Definition ChardevTable_new : ChardevTable :=
  mkChardevs (replicate (Z.to_nat MAX_CHARDEVS) (mkChardev (replicate 32 0) 0 0)) 0.

Definition register_chardev (t : ChardevTable) (name : list Z) (dev_id : Z)
    : outcome (Z * ChardevTable) :=
  let count := chardev_count t in
  if MAX_CHARDEVS <=? count then Ret (- ENFILE, t)
  else
    entry ← index (chardevs t) count;
    let copy_len := Z.min (Z.of_nat (length name)) 31 in
    let n := take (Z.to_nat copy_len) name ++ drop (Z.to_nat copy_len) (cd_name entry) in
    n ← store n copy_len 0;
    l ← store (chardevs t) count (mkChardev n copy_len dev_id);
    Ret (0, mkChardevs l (u64 (count + 1))).

Fixpoint chardev_find_in (l : list Chardev) (n : nat) (name : list Z) : option Z :=
  match n, l with
  | S n, e :: l =>
      if bool_decide (take (Z.to_nat (cd_name_len e)) (cd_name e) = name) then Some (cd_dev_id e)
      else chardev_find_in l n name
  | _, _ => None
  end.
Definition chardev_find (t : ChardevTable) (name : list Z) : option Z :=
  chardev_find_in (chardevs t) (Z.to_nat (chardev_count t)) name.

(** ** Directory entries *)

Record Dirent := mkDirent {
  d_ino : Z;
  d_off : Z;
  d_reclen : Z;
  d_type : Z;
  d_name : list Z
}.

(** [size_of::<Dirent>()]: 8 + 8 + 2 + 1 + 256, padded to 8. *)
Definition SIZEOF_DIRENT : Z := 280.

(** A name in the 256-byte field, zero-filled. *)
Definition name_field (name : list Z) : list Z := name ++ replicate (256 - length name) 0.

Definition n_dot : list Z := [46].
Definition n_dotdot : list Z := [46; 46].
Definition n_null : list Z := [110; 117; 108; 108].
Definition n_zero : list Z := [122; 101; 114; 111].
Definition n_ttyS0 : list Z := [116; 116; 121; 83; 48].
Definition n_sbin : list Z := [115; 98; 105; 110].
Definition n_bin : list Z := [98; 105; 110].
Definition n_etc : list Z := [101; 116; 99].
Definition n_dev : list Z := [100; 101; 118].

(** ** devfs *)

Inductive DevId := Null | Zero | TtyS0.
Definition dev_id_num (d : DevId) : Z := match d with Null => 0 | Zero => 1 | TtyS0 => 2 end.

(** [dev_id]: the device of a vnode, from its [data] taken as an integer. *)
Definition dev_id (vn : Vnode) : DevId :=
  match vn_data vn with
  | DInt n => if u32 n =? 0 then Null else if u32 n =? 1 then Zero else Null
  | _ => Null
  end.

(** [devfs_read]: the result and the bytes stored. *)
Definition devfs_read (vn : Vnode) (len : Z) : Z * list Z :=
  match dev_id vn with
  | Null => (0, [])
  | Zero => (i64 len, replicate (Z.to_nat len) 0)
  | TtyS0 => (0, [])
  end.

Definition devfs_write (vn : Vnode) (len : Z) : Z :=
  match dev_id vn with Null | Zero => i64 len | TtyS0 => i64 len end.

Definition devfs_lseek (offset whence : Z) : Z :=
  if whence =? 0 then offset else if whence =? 1 then offset else - EINVAL.

(** [devfs_readdir]: the entry at [index], [None] past the end. *)
Definition devfs_readdir (idx : Z) : option Dirent :=
  let ent name dtype :=
    Some (mkDirent (u32 (idx + 1)) 0 SIZEOF_DIRENT (u8 dtype) (name_field name)) in
  if idx =? 0 then ent n_dot V_DIR
  else if idx =? 1 then ent n_dotdot V_DIR
  else if idx =? 2 then ent n_null V_CHR
  else if idx =? 3 then ent n_zero V_CHR
  else if idx =? 4 then ent n_ttyS0 V_CHR
  else None.

Definition devfs_get_vnode (d : DevId) : static_vnode :=
  match d with Null => DEV_NULL_VNODE | Zero => DEV_ZERO_VNODE | TtyS0 => DEV_TTYS0_VNODE end.

Definition devfs_lookup (t : ChardevTable) (name : list Z) : option vref :=
  id ← chardev_find t name;
  if id =? 0 then Some (VStatic (devfs_get_vnode Null))
  else if id =? 1 then Some (VStatic (devfs_get_vnode Zero))
  else if id =? 2 then Some (VStatic (devfs_get_vnode TtyS0))
  else None.

(** ** rootfs *)

Definition rootfs_readdir (vn : Vnode) (idx : Z) : option Dirent :=
  let ent ino name dtype := Some (mkDirent ino 0 SIZEOF_DIRENT (u8 dtype) (name_field name)) in
  if idx =? 0 then ent (vn_ino vn) n_dot V_DIR
  else if idx =? 1 then ent 0 n_dotdot V_DIR
  else if vn_ino vn =? 0 then
    let child_idx := idx - 2 in
    if child_idx =? 0 then ent 1 n_sbin V_DIR
    else if child_idx =? 1 then ent 2 n_bin V_DIR
    else if child_idx =? 2 then ent 3 n_etc V_DIR
    else if child_idx =? 3 then ent 4 n_dev V_DIR
    else None
  else None.

(** What [rootfs_init] writes to the static vnodes of its own. *)
Definition rootfs_init (x : static_vnode) : option Vnode :=
  let dir ino data := Some (mkVnode at_ROOTFS_DIR_OPS (Z.lor V_DIR 493) ino 0 RootFS data None) in
  match x with
  | ROOT_DIR => dir 0 (DInt 0)
  | SBIN_DIR => dir 1 (DStr n_sbin)
  | BIN_DIR => dir 2 (DStr n_bin)
  | ETC_DIR => dir 3 (DStr n_etc)
  | DEV_DIR => dir 4 (DInt 0)
  | _ => None
  end.

(** What [devfs_init] writes to the others. *)
Definition devfs_vnodes (x : static_vnode) : Vnode :=
  let dev o ino d := mkVnode o (Z.lor V_CHR 438) ino 0 DevFS (DInt (dev_id_num d)) None in
  match x with
  | DEV_NULL_VNODE => dev at_DEVFS_OPS 1 Null
  | DEV_ZERO_VNODE => dev at_DEVFS_OPS 2 Zero
  | DEV_TTYS0_VNODE => dev at_TTY_OPS 3 TtyS0
  | _ => mkVnode at_DEVFS_DIR_OPS (Z.lor V_DIR 493) 0 0 DevFS (DInt 0) None
  end.

(** After both; the mount point of [/dev] is not set yet. *)
Definition static_init (x : static_vnode) : Vnode :=
  match rootfs_init x with Some vn => vn | None => devfs_vnodes x end.

Definition set_mount (vn : Vnode) (m : option vref) : Vnode :=
  mkVnode (vn_ops vn) (vn_mode vn) (vn_ino vn) (vn_size vn) (vn_fs_type vn) (vn_data vn) m.

(** [path_eq]: a name against the NUL-terminated string at a pointer, [None] when it is null. *)
Fixpoint path_eq_from (name : list Z) (cstr : Z → Z) (i : Z) : bool :=
  match name with
  | [] => cstr i =? 0
  | b :: name =>
      let c := cstr i in
      if c =? 0 then false
      else if negb (b =? c) then false
      else path_eq_from name cstr (i + 1)
  end.

Definition path_eq (name : list Z) (cstr : option (Z → Z)) : bool :=
  match cstr with
  | Some c => if bool_decide (name = []) then false else path_eq_from name c 0
  | None => false
  end.

(** It is equality with the string, for a string that is not empty. *)
Lemma path_eq_from_ok name cstr s : ∀ i, (∀ j : nat, (j < length s)%nat → cstr (i + Z.of_nat j) = s !!! j) →
  cstr (i + Z.of_nat (length s)) = 0 → Forall (λ c, c ≠ 0) s → path_eq_from name cstr i = bool_decide (name = s).
Proof.
  revert s. induction name as [|b name IH]; intros s i Hs Hz Hf; cbn [path_eq_from].
  - destruct s as [|c s]; [rewrite Z.add_0_r in Hz; by rewrite Hz|].
    specialize (Hs 0%nat ltac:(cbn; lia)). rewrite Z.add_0_r in Hs. rewrite Hs. apply Forall_cons in Hf as [Hc _]. cbn.
    by rewrite (proj2 (Z.eqb_neq _ _) Hc).
  - destruct s as [|c s]; [rewrite Z.add_0_r in Hz; by rewrite Hz|]. apply Forall_cons in Hf as [Hc Hf].
    pose proof (Hs 0%nat ltac:(cbn; lia)) as H0. rewrite Z.add_0_r in H0. rewrite H0. cbn [lookup_total list_lookup_total].
    rewrite (proj2 (Z.eqb_neq _ _) Hc). destruct (Z.eqb_spec b c) as [->|Hne]; cbn [negb].
    + rewrite (IH s (i + 1)); [|intros j Hj; specialize (Hs (S j) ltac:(cbn; lia)); by replace (i + 1 + Z.of_nat j) with (i + Z.of_nat (S j)) by lia| |done].
      * apply bool_decide_ext. split; [by intros ->|by intros [= ->]].
      * cbn [length] in Hz. by replace (i + 1 + Z.of_nat (length s)) with (i + Z.of_nat (S (length s))) by lia.
    + symmetry. apply bool_decide_eq_false. by intros [= ->].
Qed.

(** ** Lookup *)

Record nstate (H : Type) := mkNs {
  ns_files : fstate H;
  ns_mounts : MountTable;
  ns_chardevs : ChardevTable;
  ns_arc : list Z;
  ns_entries : option (list InitramfsEntry)
}.
Arguments mkNs {H} _ _ _ _ _.
Arguments ns_files {H} _.
Arguments ns_mounts {H} _.
Arguments ns_chardevs {H} _.
Arguments ns_arc {H} _.
Arguments ns_entries {H} _.

Definition SLASH : Z := 47.

(** [while pos < path.len() && path[pos] == b'/']. *)
Fixpoint skip_slashes (path : list Z) (pos : Z) (fuel : nat) : Z :=
  match fuel with
  | O => pos
  | S fuel =>
      if (pos <? Z.of_nat (length path)) && (byte_at path pos =? SLASH)
      then skip_slashes path (pos + 1) fuel else pos
  end.

(** [while pos < path.len() && path[pos] != b'/']. *)
Fixpoint skip_name (path : list Z) (pos : Z) (fuel : nat) : Z :=
  match fuel with
  | O => pos
  | S fuel =>
      if (pos <? Z.of_nat (length path)) && negb (byte_at path pos =? SLASH)
      then skip_name path (pos + 1) fuel else pos
  end.

(** The bytes [path[a..b]]. *)
Definition sub_path (path : list Z) (a b : Z) : list Z :=
  take (Z.to_nat (b - a)) (drop (Z.to_nat a) path).

(** Pass 1 of [vfs_resolve]: the stack of components as pairs of positions, top
    last; [.] is skipped and [..] pops. *)
Fixpoint collect (path : list Z) (pos : Z) (comps : list (Z * Z)) (fuel : nat)
    : outcome (res (list (Z * Z))) :=
  match fuel with
  | O => Hang
  | S fuel =>
      if pos <? Z.of_nat (length path) then
        let cs := skip_slashes path pos (length path) in
        if Z.of_nat (length path) <=? cs then Ret (inl comps)
        else
          let pos := skip_name path cs (length path) in
          if Z.of_nat (length comps) <? VFS_MAX_COMPONENTS then
            let name := sub_path path cs pos in
            if bool_decide (name = n_dotdot) then collect path pos (removelast comps) fuel
            else if negb (bool_decide (name = n_dot))
            then collect path pos (comps ++ [(cs, pos)]) fuel
            else collect path pos comps fuel
          else Ret (inr ENAMETOOLONG)
      else Ret (inl comps)
  end.

Section names.
  Context {H : Type} `{HL : KHeapLaws H}.
  Implicit Types (n : nstate H).

Definition set_files n s : nstate H :=
  mkNs s (ns_mounts n) (ns_chardevs n) (ns_arc n) (ns_entries n).

(** [initramfs_build_vnode]. *)
Definition initramfs_build_vnode n (path : list Z) : outcome (option vref * nstate H) :=
  match initramfs_find (ns_arc n) (ns_entries n) path with
  | None => Ret (None, n)
  | Some (data, size, entry_type) =>
      '(o, s) ← alloc_file_vnode (ns_files n) data size entry_type;
      Ret (o, set_files n s)
  end.

(** The directory prefix [rootfs_lookup] copies, with the separator. *)
Definition dir_prefix (d : vdata) : outcome (list Z) :=
  if data_is_null d then Ret []
  else
    match d with
    | DStr s =>
        let p := take (Z.to_nat (PATH_MAX - 2)) s in
        if (0 <? Z.of_nat (length p)) && (Z.of_nat (length p) <? PATH_MAX - 1)
        then Ret (p ++ [SLASH]) else Ret p
    | _ => Fault
    end.

Definition rootfs_lookup n (dir : Vnode) (name : list Z) : outcome (res vref * nstate H) :=
  if (vn_ino dir =? 0) && bool_decide (name = n_sbin) then Ret (inl (VStatic SBIN_DIR), n)
  else if (vn_ino dir =? 0) && bool_decide (name = n_bin) then Ret (inl (VStatic BIN_DIR), n)
  else if (vn_ino dir =? 0) && bool_decide (name = n_etc) then Ret (inl (VStatic ETC_DIR), n)
  else if (vn_ino dir =? 0) && bool_decide (name = n_dev) then Ret (inl (VStatic DEV_DIR), n)
  else
    prefix ← dir_prefix (vn_data dir);
    let child_path := prefix ++ name in
    if PATH_MAX <? Z.of_nat (length child_path) then Ret (inr ENAMETOOLONG, n)
    else
      match initramfs_find (ns_arc n) (ns_entries n) child_path with
      | Some (_, _, entry_type) =>
          if entry_type =? 53 then Ret (inr ENOENT, n)
          else
            '(o, n) ← initramfs_build_vnode n child_path;
            match o with Some v => Ret (inl v, n) | None => Ret (inr ENOMEM, n) end
      | None => Ret (inr ENOENT, n)
      end.

Definition vfs_lookup n (dir : vref) (name : list Z) : outcome (res vref * nstate H) :=
  if bool_decide (name = []) || bool_decide (name = n_dot) then Ret (inr EINVAL, n)
  else if bool_decide (name = n_dotdot) then Ret (inr EINVAL, n)
  else
    vn ← get_vnode (ns_files n) dir;
    match vn_fs_type vn with
    | RootFS => rootfs_lookup n vn name
    | DevFS =>
        match devfs_lookup (ns_chardevs n) name with
        | Some v => Ret (inl v, n)
        | None => Ret (inr ENOENT, n)
        end
    | InitramFS => Ret (inr ENOENT, n)
    end.

(** Pass 2 of [vfs_resolve]: [start] is the position of the first component. *)
Fixpoint resolve_components n (path : list Z) (start : Z) (current : vref) (comps : list (Z * Z))
    : outcome (res vref * nstate H) :=
  match comps with
  | [] => Ret (inl current, n)
  | (cs, ce) :: comps =>
      '(r, n) ← vfs_lookup n current (sub_path path cs ce);
      match r with
      | inl next =>
          vn ← get_vnode (ns_files n) next;
          match vn_mount vn with
          | Some mounted => resolve_components n path start mounted comps
          | None => resolve_components n path start next comps
          end
      | inr e =>
          let accumulated := sub_path path start ce in
          if bool_decide (accumulated = []) then Ret (inr e, n)
          else
            '(o, n) ← initramfs_build_vnode n accumulated;
            match o with Some v => Ret (inl v, n) | None => Ret (inr e, n) end
      end
  end.

Definition vfs_resolve n (path : list Z) : outcome (res vref * nstate H) :=
  r ← mount_get_root (ns_mounts n);
  match r with
  | None => Ret (inr ENODEV, n)
  | Some root =>
      if bool_decide (path = []) || bool_decide (path = [SLASH]) then Ret (inl root, n)
      else
        let start := skip_slashes path 0 (length path) in
        if Z.of_nat (length path) <=? start then Ret (inl root, n)
        else
          c ← collect path start [] (S (length path));
          match c with
          | inr e => Ret (inr e, n)
          | inl comps => resolve_components n path start root comps
          end
  end.

(** [vfs_resolve_relative]: the path is resolved after [cwd] and a separator. *)
Definition join_cwd (cwd path : list Z) : outcome (res (list Z)) :=
  if PATH_MAX <? Z.of_nat (length cwd) then Panic
  else
    let sep := match last cwd with Some c => negb (c =? SLASH) | None => true end in
    if sep && (PATH_MAX - 1 <=? Z.of_nat (length cwd)) then Ret (inr ENAMETOOLONG)
    else
      let base := if sep then cwd ++ [SLASH] else cwd in
      if PATH_MAX <? Z.of_nat (length (base ++ path)) then Ret (inr ENAMETOOLONG)
      else Ret (inl (base ++ path)).

Definition vfs_resolve_relative n (cwd path : list Z) : outcome (res vref * nstate H) :=
  match path with
  | c :: _ =>
      if c =? SLASH then vfs_resolve n path
      else
        b ← join_cwd cwd path;
        match b with inr e => Ret (inr e, n) | inl p => vfs_resolve n p end
  | [] =>
      b ← join_cwd cwd path;
      match b with inr e => Ret (inr e, n) | inl p => vfs_resolve n p end
  end.

Definition devfs_init (cds : ChardevTable) : outcome ChardevTable :=
  '(_, cds) ← register_chardev cds n_null (dev_id_num Null);
  '(_, cds) ← register_chardev cds n_zero (dev_id_num Zero);
  '(_, cds) ← register_chardev cds n_ttyS0 (dev_id_num TtyS0);
  Ret cds.

Definition n_slash_dev : list Z := [47; 100; 101; 118].

(** [vfs_init] without the registration of the syscalls; the archive is the embedded one. *)
Definition vfs_init n (fuel : nat) : outcome (nstate H) :=
  let s := ns_files n in
  '(entries, h) ← initramfs_init (ns_arc n) (ns_entries n) (fs_heap s) fuel;
  cds ← devfs_init (ns_chardevs n);
  '(_, mt) ← mount_add (ns_mounts n) [SLASH] (VStatic ROOT_DIR) RootFS 0;
  '(rc, mt) ← mount_add mt n_slash_dev (VStatic DEVFS_ROOT) DevFS 0;
  let statics :=
    if negb (rc =? 0) then static_init
    else
      match mount_find mt n_slash_dev with
      | Some dev_mnt => λ x,
          if decide (x = DEV_DIR) then set_mount (static_init DEV_DIR) (Some dev_mnt)
          else static_init x
      | None => static_init
      end in
  Ret (mkNs (mkFs (fs_oft s) (fs_vnodes s) (fs_pipes s) h statics) mt cds (ns_arc n) entries).
End names.
