(* ===== verification/Paths.v ===== *)
(** * Path resolution: normal forms

    The two passes of [vfs_resolve] against a definition on lists of names: a path
    is split at its slashes, [.] is dropped and [..] removes the name before it, and
    the names that remain are looked up one after the other from the root. *)

From Stdlib Require Import ZArith Lia.
From stdpp Require Import base numbers list list_numbers option gmap.
From S2P Require Import Prelude Memory Kmm Heap Ring VfsTypes Pipe OpenFiles PipeSys FdCalls Initramfs Names.

Local Open Scope Z_scope.

(** The names of a path, empty ones left out; [cur] is the one being read. *)
Fixpoint split_path (cur : list Z) (p : list Z) : list (list Z) :=
  let done := match cur with [] => [] | _ => [cur] end in
  match p with
  | [] => done
  | c :: p => if c =? SLASH then done ++ split_path [] p else split_path (cur ++ [c]) p
  end.

(** The stack of names, top last, after [.] and [..]. *)
Fixpoint normalise (st : list (list Z)) (l : list (list Z)) : list (list Z) :=
  match l with
  | [] => st
  | x :: l =>
      if bool_decide (x = n_dotdot) then normalise (removelast st) l
      else if bool_decide (x = n_dot) then normalise st l
      else normalise (st ++ [x]) l
  end.

(** The length of the longest prefix all of whose bytes satisfy [P]. *)
Fixpoint lead (P : Z → bool) (l : list Z) : nat :=
  match l with [] => 0 | c :: l => if P c then S (lead P l) else 0 end.

Definition is_slash (c : Z) : bool := c =? SLASH.
Definition not_slash (c : Z) : bool := negb (c =? SLASH).

Lemma not_slash_eqb c : not_slash c = negb (c =? SLASH).
Proof. done. Qed.

Lemma lead_le P l : (lead P l ≤ length l)%nat.
Proof. induction l as [|c l IH]; simpl; [done|]. destruct (P c); lia. Qed.

(** A loop that advances while the byte satisfies [P]. *)
Lemma skip_lead (skip : list Z → Z → nat → Z) P path :
  (∀ pos fuel, skip path pos fuel =
     match fuel with
     | O => pos
     | S fuel => if (pos <? Z.of_nat (length path)) && P (byte_at path pos)
                 then skip path (pos + 1) fuel else pos
     end) →
  ∀ fuel pos, 0 ≤ pos → (length path - Z.to_nat pos ≤ fuel)%nat →
    skip path pos fuel = pos + Z.of_nat (lead P (drop (Z.to_nat pos) path)).
Proof.
  intros Heq. induction fuel as [|fuel IH]; intros pos Hpos Hf; rewrite Heq.
  - rewrite drop_ge by lia. simpl. lia.
  - destruct (Z.ltb_spec pos (Z.of_nat (length path))) as [Hlt|Hge]; simpl.
    + destruct (lookup_lt_is_Some_2 path (Z.to_nat pos)) as [c Hc]; [lia|].
      assert (byte_at path pos = c) as -> by (unfold byte_at; by rewrite Hc).
      rewrite (drop_S _ _ _ Hc). simpl. destruct (P c); [|simpl; lia].
      rewrite IH by lia. replace (Z.to_nat (pos + 1)) with (S (Z.to_nat pos)) by lia. lia.
    + rewrite drop_ge by lia. simpl. lia.
Qed.

Lemma skip_slashes_lead path pos : 0 ≤ pos →
  skip_slashes path pos (length path) = pos + Z.of_nat (lead is_slash (drop (Z.to_nat pos) path)).
Proof.
  intros. apply skip_lead; [|done|lia]. intros p [|f]; reflexivity.
Qed.

Lemma skip_name_lead path pos : 0 ≤ pos →
  skip_name path pos (length path) = pos + Z.of_nat (lead not_slash (drop (Z.to_nat pos) path)).
Proof.
  intros. apply skip_lead; [|done|lia]. intros p [|f]; reflexivity.
Qed.

Lemma split_path_cur cur l :
  split_path cur l =
    match cur ++ take (lead not_slash l) l with
    | [] => []
    | name => [name]
    end ++ split_path [] (drop (lead not_slash l) l).
Proof.
  revert cur. induction l as [|c l IH]; intros cur.
  { simpl. rewrite !app_nil_r. by destruct cur. }
  cbn [lead split_path]. rewrite not_slash_eqb. destruct (Z.eqb_spec c SLASH) as [->|Hc]; cbn [negb].
  - rewrite take_0, app_nil_r, drop_0. cbn [split_path]. rewrite Z.eqb_refl. by destruct cur.
  - cbn [take drop]. rewrite IH, <- app_assoc. simpl.
    reflexivity.
Qed.

Lemma split_path_slashes l : split_path [] l = split_path [] (drop (lead is_slash l) l).
Proof.
  induction l as [|c l IH]; [done|]. cbn [lead]. unfold is_slash at 1.
  destruct (Z.eqb_spec c SLASH) as [->|Hc]; [|done]. cbn [drop split_path]. rewrite Z.eqb_refl. done.
Qed.

(** The first name of a path and what follows it. *)
Lemma split_path_step l :
  let l1 := drop (lead is_slash l) l in
  split_path [] l =
    match l1 with
    | [] => []
    | _ => take (lead not_slash l1) l1 :: split_path [] (drop (lead not_slash l1) l1)
    end.
Proof.
  intros l1. rewrite split_path_slashes. fold l1. destruct l1 as [|c l2] eqn:E; [done|].
  rewrite split_path_cur.
  assert (c ≠ SLASH) as Hc.
  { intros ->. revert E. unfold l1. clear. induction l as [|d l IH]; [done|]. cbn [lead]. unfold is_slash at 1.
    destruct (Z.eqb_spec d SLASH) as [->|Hd]; cbn [drop]; [done|]. by intros [= -> _]. }
  cbn [lead]. rewrite not_slash_eqb. destruct (Z.eqb_spec c SLASH); done.
Qed.

(** The names a list of component positions stands for. *)
Definition names (path : list Z) (comps : list (Z * Z)) : list (list Z) :=
  (λ ab, sub_path path ab.1 ab.2) <$> comps.

Lemma removelast_fmap {A B} (f : A → B) l : f <$> removelast l = removelast (f <$> l).
Proof.
  induction l as [|x l IH]; [done|]. destruct l as [|y l]; [done|].
  change (f <$> removelast (x :: y :: l)) with (f x :: (f <$> removelast (y :: l))). by rewrite IH.
Qed.

Lemma removelast_length {A} (l : list A) : (length (removelast l) ≤ length l)%nat.
Proof. induction l as [|x [|y l] IH]; simpl in *; lia. Qed.

Lemma sub_path_lead path cs : 0 ≤ cs →
  sub_path path cs (cs + Z.of_nat (lead not_slash (drop (Z.to_nat cs) path)))
  = take (lead not_slash (drop (Z.to_nat cs) path)) (drop (Z.to_nat cs) path).
Proof. intros. unfold sub_path. f_equal. lia. Qed.

(** Pass 1 computes the normal form, for paths of at most 16 names. *)
Lemma collect_spec path fuel : ∀ pos comps,
  0 ≤ pos → (length path - Z.to_nat pos < fuel)%nat →
  (length comps + length (split_path [] (drop (Z.to_nat pos) path)) ≤ 16)%nat →
  ∃ comps', collect path pos comps fuel = Ret (inl comps') ∧
    names path comps' = normalise (names path comps) (split_path [] (drop (Z.to_nat pos) path)).
Proof.
  induction fuel as [|fuel IH]; intros pos comps Hpos Hf Hn; [lia|].
  rewrite split_path_step in *. set (l := drop (Z.to_nat pos) path) in *.
  cbn [collect]. destruct (Z.ltb_spec pos (Z.of_nat (length path))) as [Hlt|Hge].
  2:{ exists comps. split; [done|]. unfold l. rewrite (drop_ge path) by lia. done. }
  rewrite skip_slashes_lead by done. fold l. set (cs := pos + Z.of_nat (lead is_slash l)).
  assert (drop (lead is_slash l) l = drop (Z.to_nat cs) path) as Hl1.
  { unfold cs, l. rewrite drop_drop. f_equal. lia. }
  rewrite Hl1 in *. set (l1 := drop (Z.to_nat cs) path) in *.
  destruct (Z.leb_spec (Z.of_nat (length path)) cs) as [Hle|Hgt].
  { exists comps. split; [done|]. unfold l1. rewrite (drop_ge path) by lia. done. }
  destruct l1 as [|c l2] eqn:El1.
  { exfalso. pose proof (length_drop path (Z.to_nat cs)) as Hd. fold l1 in Hd. rewrite El1 in Hd.
    simpl in Hd. lia. }
  rewrite <- El1 in *. fold l1 in Hl1. cbn [length] in Hn.
  assert (1 ≤ lead not_slash l1)%nat as Hk.
  { rewrite El1. cbn [lead]. rewrite not_slash_eqb. destruct (Z.eqb_spec c SLASH) as [->|]; [|simpl; lia].
    exfalso. clear -Hl1 El1. revert Hl1. rewrite El1. generalize l. intros l0.
    induction l0 as [|d l0 IH]; [done|]. cbn [lead]. unfold is_slash at 1.
    destruct (Z.eqb_spec d SLASH) as [->|Hd]; cbn [drop]; [done|]. by intros [= -> _]. }
  rewrite skip_name_lead by lia. fold l1.
  set (pos' := cs + Z.of_nat (lead not_slash l1)).
  assert (drop (lead not_slash l1) l1 = drop (Z.to_nat pos') path) as Hl2.
  { unfold pos', l1. rewrite drop_drop. f_equal. lia. }
  rewrite Hl2 in *. unfold VFS_MAX_COMPONENTS.
  destruct (Z.ltb_spec (Z.of_nat (length comps)) 16); [|lia].
  assert (sub_path path cs pos' = take (lead not_slash l1) l1) as Hsub
    by (by apply sub_path_lead; lia).
  rewrite Hsub. cbn [normalise].
  assert (0 ≤ pos') by lia. assert (length path - Z.to_nat pos' < fuel)%nat by lia.
  case_bool_decide; [|case_bool_decide; cbn [negb]].
  - destruct (IH pos' (removelast comps)) as (comps' & -> & Hnm); [done|done| |].
    + pose proof (removelast_length comps). lia.
    + exists comps'. split; [done|]. rewrite Hnm. unfold names. by rewrite removelast_fmap.
  - destruct (IH pos' comps) as (comps' & -> & ?); [done|done|lia|by exists comps'].
  - destruct (IH pos' (comps ++ [(cs, pos')])) as (comps' & -> & Hnm); [done|done| |].
    + rewrite length_app. simpl. lia.
    + exists comps'. split; [done|]. rewrite Hnm. unfold names. rewrite fmap_app. simpl. by rewrite Hsub.
Qed.

(** ** Resolution over names *)

Section walk.
  Context {H : Type} `{KHeap H}.

(** Looks the names up one after the other, following mount points. *)
Fixpoint walk (n : nstate H) (current : vref) (l : list (list Z)) : outcome (res vref * nstate H) :=
  match l with
  | [] => Ret (inl current, n)
  | name :: l =>
      '(r, n) ← vfs_lookup n current name;
      match r with
      | inl next =>
          vn ← get_vnode (ns_files n) next;
          walk n (default next (vn_mount vn)) l
      | inr e => Ret (inr e, n)
      end
  end.

Lemma resolve_components_walk path start comps : ∀ n current v n',
  walk n current (names path comps) = Ret (inl v, n') →
  resolve_components n path start current comps = Ret (inl v, n').
Proof.
  induction comps as [|[cs ce] comps IH]; intros n current v n'; [done|].
  cbn [names fmap list_fmap walk resolve_components]. cbn [fst snd].
  destruct (vfs_lookup n current (sub_path path cs ce)) as [[[next|e] n1]| | |]; simpl; try done.
  destruct (get_vnode (ns_files n1) next) as [vn| | |]; simpl; try done.
  destruct (vn_mount vn); simpl; apply IH.
Qed.

Lemma vfs_resolve_walk n path root v n' :
  mount_get_root (ns_mounts n) = Ret (Some root) → (length (split_path [] path) ≤ 16)%nat →
  walk n root (normalise [] (split_path [] path)) = Ret (inl v, n') →
  vfs_resolve n path = Ret (inl v, n').
Proof.
  intros Hroot Hlen Hwalk.
  unfold vfs_resolve. rewrite Hroot. cbn [mbind outcome_bind].
  case_bool_decide as E1; [subst path; done|]. case_bool_decide as E2; [subst path; done|]. cbn [orb].
  rewrite skip_slashes_lead by lia. change (drop (Z.to_nat 0) path) with path. rewrite Z.add_0_l.
  rewrite split_path_slashes in Hwalk, Hlen.
  destruct (Z.leb_spec (Z.of_nat (length path)) (Z.of_nat (lead is_slash path))).
  { rewrite drop_ge in Hwalk by lia. done. }
  destruct (collect_spec path (S (length path)) (Z.of_nat (lead is_slash path)) [])
    as (comps & -> & Hnm); [lia|lia|by rewrite Nat2Z.id|].
  rewrite Nat2Z.id in Hnm. apply resolve_components_walk. by rewrite Hnm.
Qed.
(** C20: [vfs_resolve] depends on a path through its normal form only.  For a path of
    at most 16 names, whatever its leading, doubled and trailing slashes and its [.]
    and [..] names, when looking the names of the normal form up from the root
    succeeds, [vfs_resolve] terminates with exactly that vnode. *)
Theorem vfs_resolve_normalises (n : nstate H) (path : list Z) (root v : vref) (n' : nstate H)
    (Hroot : mount_get_root (ns_mounts n) = Ret (Some root))
    (Hlen : (length (split_path [] path) ≤ 16)%nat)
    (Hwalk : walk n root (normalise [] (split_path [] path)) = Ret (inl v, n')) :
  vfs_resolve n path = Ret (inl v, n').
Proof. by apply (vfs_resolve_walk n path root). Qed.
End walk.

(** ** The system after [vfs_init] *)

Section boot.
  Context {H : Type} `{KHeap H}.

(** The state [vfs_init] starts from. *)
Definition boot_ns (arc : list Z) (h : H) : nstate H :=
  mkNs (mkFs OpenFileTable_new ∅ ∅ h static_init) MountTable_new ChardevTable_new arc None.

(** The directories and devices every boot provides. *)
Definition boot_names : list (list (list Z) * static_vnode) :=
  [([], ROOT_DIR); ([n_sbin], SBIN_DIR); ([n_bin], BIN_DIR); ([n_etc], ETC_DIR);
   ([n_dev], DEVFS_ROOT); ([n_dev; n_null], DEV_NULL_VNODE); ([n_dev; n_zero], DEV_ZERO_VNODE);
   ([n_dev; n_ttyS0], DEV_TTYS0_VNODE)].

Definition booted (arc : list Z) (entries : option (list InitramfsEntry)) (h : H) : nstate H :=
  mkNs (mkFs OpenFileTable_new ∅ ∅ h
          (λ x, if decide (x = DEV_DIR) then set_mount (static_init DEV_DIR) (Some (VStatic DEVFS_ROOT))
                else static_init x))
    (mkMounts [Some (mkMount [SLASH] (Some (VStatic ROOT_DIR)) RootFS 0);
               Some (mkMount n_slash_dev (Some (VStatic DEVFS_ROOT)) DevFS 0); None; None] 2)
    (mkChardevs
       ([mkChardev (n_null ++ replicate 28 0) 4 0; mkChardev (n_zero ++ replicate 28 0) 4 1;
         mkChardev (n_ttyS0 ++ replicate 27 0) 5 2] ++ replicate 5 (mkChardev (replicate 32 0) 0 0)) 3)
    arc entries.

Lemma vfs_init_booted arc h h' entries fuel :
  initramfs_init arc None h fuel = Ret (entries, h') →
  vfs_init (boot_ns arc h) fuel = Ret (booted arc entries h').
Proof. intros E. unfold vfs_init. cbn [boot_ns ns_arc ns_entries ns_files fs_heap]. rewrite E. reflexivity. Qed.

Lemma booted_walk arc entries h l x : (l, x) ∈ boot_names →
  walk (booted arc entries h) (VStatic ROOT_DIR) l = Ret (inl (VStatic x), booted arc entries h).
Proof.
  unfold boot_names. intros Hin.
  repeat (apply elem_of_cons in Hin as [Hin|Hin]; [injection Hin as -> ->; reflexivity|]).
  by apply elem_of_nil in Hin.
Qed.

(** After [vfs_init], for any archive the parser accepts, every spelling of [/],
    [/sbin], [/bin], [/etc], [/dev], [/dev/null], [/dev/zero] and [/dev/ttyS0]
    resolves to its vnode - [/dev] through the mount point to the devfs root - and
    nothing is allocated. *)
Theorem vfs_init_resolves (arc : list Z) (h h' : H) (entries : option (list InitramfsEntry))
    (fuel : nat) (path : list Z) (x : static_vnode)
    (Hinit : initramfs_init arc None h fuel = Ret (entries, h'))
    (Hlen : (length (split_path [] path) ≤ 16)%nat)
    (Hname : (normalise [] (split_path [] path), x) ∈ boot_names) :
  ∃ n, vfs_init (boot_ns arc h) fuel = Ret n ∧ vfs_resolve n path = Ret (inl (VStatic x), n).
Proof.
  exists (booted arc entries h'). split; [by apply vfs_init_booted|].
  apply (vfs_resolve_walk _ path (VStatic ROOT_DIR)); [done|done|]. by apply booted_walk.
Qed.
End boot.

(** The spelling [//dev/./x/../null/]. *)
Definition odd_null : list Z :=
  [47; 47; 100; 101; 118; 47; 46; 47; 120; 47; 46; 46; 47; 110; 117; 108; 108; 47].

Lemma vfs_resolve_normalises_witness :
  vfs_resolve (booted [] None (demo_mem, demo_heap)) odd_null
  = Ret (inl (VStatic DEV_NULL_VNODE), booted [] None (demo_mem, demo_heap)).
Proof.
  apply (vfs_resolve_normalises (booted [] None (demo_mem, demo_heap)) odd_null (VStatic ROOT_DIR));
    [reflexivity|simpl; lia|reflexivity].
Defined.

Lemma vfs_init_resolves_witness :
  ∃ n, vfs_init (boot_ns [] (demo_mem, demo_heap)) 1 = Ret n ∧
    vfs_resolve n odd_null = Ret (inl (VStatic DEV_NULL_VNODE), n).
Proof.
  apply (vfs_init_resolves [] (demo_mem, demo_heap) (demo_mem, demo_heap) None 1 odd_null);
    [reflexivity|simpl; lia|].
  apply (list_elem_of_lookup_2 _ 5). reflexivity.
Defined.

(** An archive with a directory entry [d] and nothing below it. *)
Definition dir_only : list tar_file := [mkTar [100] [] 53].

(** The fallback of [vfs_resolve] to the archive returns at once, whatever names
    are left: with a directory [d] in the archive and nothing in it, the path
    [/d/nope] does not fail with [ENOENT] but resolves to the directory [d]. *)
Theorem resolve_stops_at_archive_dir :
  match vfs_resolve (booted (tar_encode dir_only) (Some (entries_from 0 dir_only)) fresh_heap)
          [47; 100; 47; 110; 111; 112; 101] with
  | Ret (inl (VHeap p), n) => ∃ vn, fs_vnodes (ns_files n) !! p = Some vn ∧
      vn_mode vn = Z.lor V_DIR 493 ∧ vn_fs_type vn = InitramFS
  | _ => False
  end ∧
  initramfs_find (tar_encode dir_only) (Some (entries_from 0 dir_only)) [100; 47; 110; 111; 112; 101]
  = None.
Proof. vm_compute. split; [|done]. eexists. done. Qed.
