(* ===== verification/Keyboard.v ===== *)
(** * Keyboard (src/kernel_rust/src/keyboard.rs)

    The interrupt handler that turns scan codes into bytes of a 256-byte ring, and
    the non-blocking read.  The two port reads of the handler (status, then data)
    are its arguments. *)

From Stdlib Require Import ZArith Lia.
From stdpp Require Import base numbers list list_numbers option.
From S2P Require Import Prelude Ring.

Local Open Scope Z_scope.

Module Keyboard.

Definition BUF_SIZE : Z := 256.
Definition STATUS_OUTPUT_FULL : Z := 1.

Record kbd := mkKbd { BUF : list Z; HEAD : Z; TAIL : Z; SHIFT : bool }.
Definition kbd_new : kbd := mkKbd (replicate (Z.to_nat BUF_SIZE) 0) 0 0 false.

(** The entries of a table from scan code [first] on. *)
Definition row (first : Z) (bytes : list Z) (code : Z) : option Z :=
  if (first <=? code) && (code <? first + Z.of_nat (length bytes))
  then Some (byte_at bytes (code - first)) else None.

(** [SCANCODE_MAKE]: digits, three letter rows, space, enter, backspace, tab. *)
Definition SCANCODE_MAKE (code : Z) : option Z :=
  match row 2 [49; 50; 51; 52; 53; 54; 55; 56; 57; 48] code with
  | Some b => Some b
  | None =>
      match row 16 [113; 119; 101; 114; 116; 121; 117; 105; 111; 112] code with
      | Some b => Some b
      | None =>
          match row 30 [97; 115; 100; 102; 103; 104; 106; 107; 108] code with
          | Some b => Some b
          | None =>
              match row 44 [122; 120; 99; 118; 98; 110; 109] code with
              | Some b => Some b
              | None =>
                  if code =? 57 then Some 32
                  else if code =? 28 then Some 10
                  else if code =? 14 then Some 8
                  else if code =? 15 then Some 9
                  else None
              end
          end
      end
  end.

(** [SCANCODE_MAKE_SHIFT]: symbols and capitals. *)
Definition SCANCODE_MAKE_SHIFT (code : Z) : option Z :=
  match row 2 [33; 64; 35; 36; 37; 94; 38; 42; 40; 41] code with
  | Some b => Some b
  | None =>
      match row 16 [81; 87; 69; 82; 84; 89; 85; 73; 79; 80] code with
      | Some b => Some b
      | None =>
          match row 30 [65; 83; 68; 70; 71; 72; 74; 75; 76] code with
          | Some b => Some b
          | None => row 44 [90; 88; 67; 86; 66; 78; 77] code
          end
      end
  end.

Definition set_shift (k : kbd) (b : bool) : kbd := mkKbd (BUF k) (HEAD k) (TAIL k) b.

Definition push (k : kbd) (byte : Z) : outcome kbd :=
  let next_head := (HEAD k + 1) mod BUF_SIZE in
  if negb (next_head =? TAIL k) then
    b ← store (BUF k) (HEAD k) byte;
    Ret (mkKbd b next_head (TAIL k) (SHIFT k))
  else Ret k.

(** [handle_keyboard] with the values the two ports return. *)
Definition handle_keyboard (k : kbd) (status scancode : Z) : outcome kbd :=
  if Z.land status STATUS_OUTPUT_FULL =? 0 then Ret k
  else if (scancode =? 224) || (scancode =? 225) then Ret k
  else if (scancode =? 42) || (scancode =? 54) then Ret (set_shift k true)
  else if (scancode =? 170) || (scancode =? 182) then Ret (set_shift k false)
  else if negb (Z.land scancode 128 =? 0) then Ret k
  else if 59 <=? scancode then Ret k
  else
    let table := if SHIFT k then SCANCODE_MAKE_SHIFT else SCANCODE_MAKE in
    match table scancode with
    | Some byte => push k byte
    | None => Ret k
    end.

(** [read] into a buffer of [len] bytes; [fuel] bounds the loop. *)
Fixpoint read (k : kbd) (len : Z) (fuel : nat) : outcome (list Z * kbd) :=
  match fuel with
  | O => Hang
  | S fuel =>
      if negb (HEAD k =? TAIL k) && (0 <? len) then
        b ← index (BUF k) (TAIL k);
        '(bs, k) ← read (mkKbd (BUF k) (HEAD k) ((TAIL k + 1) mod BUF_SIZE) (SHIFT k)) (len - 1) fuel;
        Ret (b :: bs, k)
      else Ret ([], k)
  end.

(** ** The queue the ring stands for *)

Definition kbd_wf (k : kbd) : Prop := ring_wf BUF_SIZE (BUF k) (HEAD k) (TAIL k).
Definition queue (k : kbd) : list Z := contents BUF_SIZE (BUF k) (HEAD k) (TAIL k).

Lemma full_iff k : kbd_wf k →
  ((HEAD k + 1) mod BUF_SIZE = TAIL k ↔ length (queue k) = 255%nat).
Proof. intros Hwf. rewrite (ring_full BUF_SIZE ltac:(done) _ _ _ Hwf). unfold queue, BUF_SIZE. lia. Qed.

Lemma push_spec k b : kbd_wf k →
  ∃ k', push k b = Ret k' ∧ kbd_wf k' ∧ SHIFT k' = SHIFT k ∧
    queue k' = if decide (length (queue k) = 255%nat) then queue k else queue k ++ [b].
Proof.
  intros Hwf. pose proof (full_iff k Hwf) as Hf. unfold push.
  destruct (Z.eqb_spec ((HEAD k + 1) mod BUF_SIZE) (TAIL k)) as [E|E]; simpl.
  - exists k. split; [done|]. split; [done|]. split; [done|]. by rewrite decide_True by tauto.
  - pose proof Hwf as (Hl & Hh & Ht). rewrite store_in_range by (rewrite Hl; lia). simpl.
    eexists. split; [done|]. split; [by apply ring_wf_push|]. split; [done|].
    rewrite decide_False by tauto. by apply contents_push.
Qed.

Lemma read_spec k len fuel : kbd_wf k → 0 ≤ len → (length (queue k) < fuel)%nat →
  ∃ k', read k len fuel = Ret (take (Z.to_nat len) (queue k), k') ∧ kbd_wf k' ∧
    queue k' = drop (Z.to_nat len) (queue k) ∧ SHIFT k' = SHIFT k.
Proof.
  revert k len. induction fuel as [|fuel IH]; intros k len Hwf Hlen Hf; [lia|].
  cbn [read]. destruct (Z.eqb_spec (HEAD k) (TAIL k)) as [E|E].
  { exists k. unfold queue. rewrite E, contents_nil, take_nil, drop_nil by done. done. }
  destruct (Z.ltb_spec 0 len); simpl.
  2:{ exists k. replace (Z.to_nat len) with 0%nat by lia. by rewrite take_0, drop_0. }
  pose proof Hwf as (Hl & Hh & Ht).
  destruct (index_in_range (BUF k) (TAIL k)) as (b & Hb & ->); [rewrite Hl; lia|]. simpl.
  pose proof (contents_pop BUF_SIZE ltac:(done) _ _ _ Hwf E) as Hq. fold (queue k) in Hq.
  assert (byte_at (BUF k) (TAIL k) = b) as Hbb by (unfold byte_at; by rewrite Hb). rewrite Hbb in Hq.
  destruct (IH (mkKbd (BUF k) (HEAD k) ((TAIL k + 1) mod BUF_SIZE) (SHIFT k)) (len - 1))
    as (k' & -> & Hwf' & Hq' & Hs'); [by apply ring_wf_pop|lia|rewrite Hq in Hf; unfold queue; simpl in *; lia|].
  simpl. exists k'. replace (Z.to_nat len) with (S (Z.to_nat (len - 1))) by lia.
  rewrite Hq. done.
Qed.

(** ** What typing means *)

(** The byte an event types, and the shift state after it. *)
Definition decode (shift : bool) (ev : Z * Z) : option Z * bool :=
  let '(status, code) := ev in
  if Z.land status STATUS_OUTPUT_FULL =? 0 then (None, shift)
  else if (code =? 224) || (code =? 225) then (None, shift)
  else if (code =? 42) || (code =? 54) then (None, true)
  else if (code =? 170) || (code =? 182) then (None, false)
  else if negb (Z.land code 128 =? 0) || (59 <=? code) then (None, shift)
  else ((if shift then SCANCODE_MAKE_SHIFT else SCANCODE_MAKE) code, shift).

Fixpoint typed (shift : bool) (evs : list (Z * Z)) : list Z :=
  match evs with
  | [] => []
  | ev :: evs =>
      let '(o, shift) := decode shift ev in
      match o with Some b => b :: typed shift evs | None => typed shift evs end
  end.

Fixpoint interrupts (k : kbd) (evs : list (Z * Z)) : outcome kbd :=
  match evs with
  | [] => Ret k
  | (status, code) :: evs => k ← handle_keyboard k status code; interrupts k evs
  end.

Lemma handle_spec k status code : kbd_wf k →
  ∃ k', handle_keyboard k status code = Ret k' ∧ kbd_wf k' ∧
    SHIFT k' = snd (decode (SHIFT k) (status, code)) ∧
    queue k' = match fst (decode (SHIFT k) (status, code)) with
               | Some b => if decide (length (queue k) = 255%nat) then queue k else queue k ++ [b]
               | None => queue k
               end.
Proof.
  intros Hwf. unfold handle_keyboard, decode.
  destruct (Z.land status STATUS_OUTPUT_FULL =? 0); [by exists k|].
  destruct ((code =? 224) || (code =? 225)); [by exists k|].
  destruct ((code =? 42) || (code =? 54)); [by exists (set_shift k true)|].
  destruct ((code =? 170) || (code =? 182)); [by exists (set_shift k false)|].
  destruct (negb (Z.land code 128 =? 0)); [by exists k|].
  destruct (59 <=? code); [by exists k|]. simpl.
  destruct ((if SHIFT k then SCANCODE_MAKE_SHIFT else SCANCODE_MAKE) code) as [b|]; [|by exists k].
  destruct (push_spec k b Hwf) as (k' & ? & ? & ? & ?). by exists k'.
Qed.

Lemma queue_bound k : kbd_wf k → (length (queue k) ≤ 255)%nat.
Proof.
  intros Hwf. pose proof (contents_length BUF_SIZE ltac:(done) (BUF k) (HEAD k) (TAIL k)) as Hc.
  fold (queue k) in Hc. pose proof (Z.mod_pos_bound (HEAD k - TAIL k) BUF_SIZE ltac:(done)).
  unfold BUF_SIZE in *. lia.
Qed.

Lemma interrupts_spec evs : ∀ k, kbd_wf k →
  ∃ k', interrupts k evs = Ret k' ∧ kbd_wf k' ∧
    queue k' = take 255 (queue k ++ typed (SHIFT k) evs).
Proof.
  induction evs as [|[status code] evs IH]; intros k Hwf; simpl.
  { exists k. rewrite app_nil_r, take_ge by (by apply queue_bound). done. }
  destruct (handle_spec k status code Hwf) as (k1 & -> & Hwf1 & Hs & Hq). cbn [mbind outcome_bind].
  destruct (IH k1 Hwf1) as (k' & -> & Hwf' & Hq'). exists k'. split; [done|]. split; [done|].
  rewrite Hq', Hs, Hq. change (if Z.land status STATUS_OUTPUT_FULL =? 0 then _ else _)
    with (decode (SHIFT k) (status, code)).
  destruct (decode (SHIFT k) (status, code)) as [[b|] sh]; simpl; [|done].
  case_decide as E; [|by rewrite <- app_assoc].
  rewrite !take_app_le, !take_ge by lia. done.
Qed.

(** C23: the keyboard buffer is the text typed.  For any sequence of keyboard
    interrupts, the buffer holds what was typed - each make code decoded under the
    shift state at that moment, break codes, extended prefixes and spurious
    interrupts ignored - in order, keeping the first 255 unread bytes; a read then
    returns the oldest bytes first and leaves the rest. *)
Theorem keyboard_types (k : kbd) (evs : list (Z * Z)) (len : Z)
    (Hwf : kbd_wf k) (Hlen : 0 ≤ len) :
  let text := take 255 (queue k ++ typed (SHIFT k) evs) in
  ∃ k1 k2, interrupts k evs = Ret k1 ∧ read k1 len 256 = Ret (take (Z.to_nat len) text, k2) ∧
    queue k2 = drop (Z.to_nat len) text ∧ kbd_wf k2.
Proof.
  destruct (interrupts_spec evs k Hwf) as (k1 & E1 & Hwf1 & Hq1).
  pose proof (queue_bound k1 Hwf1).
  destruct (read_spec k1 len 256 Hwf1 Hlen) as (k2 & E2 & Hwf2 & Hq2 & _); [lia|].
  exists k1, k2. rewrite Hq1 in *. done.
Qed.

(** Shift down, [h], shift up, [i], break of [i]. *)
Lemma keyboard_types_witness :
  let evs := [(1, 42); (1, 35); (1, 170); (1, 23); (1, 151)] in
  let text := take 255 (queue kbd_new ++ typed (SHIFT kbd_new) evs) in
  ∃ k1 k2, interrupts kbd_new evs = Ret k1 ∧ read k1 64 256 = Ret (take (Z.to_nat 64) text, k2) ∧
    queue k2 = drop (Z.to_nat 64) text ∧ kbd_wf k2.
Proof.
  apply (keyboard_types kbd_new [(1, 42); (1, 35); (1, 170); (1, 23); (1, 151)] 64).
  - repeat split; simpl; lia.
  - lia.
Defined.

(** With shift held, the keys space, enter, backspace and tab type nothing. *)
Example shift_drops_control_keys :
  SCANCODE_MAKE_SHIFT 57 = None ∧ SCANCODE_MAKE_SHIFT 28 = None ∧
  SCANCODE_MAKE_SHIFT 14 = None ∧ SCANCODE_MAKE_SHIFT 15 = None ∧
  typed false [(1, 42); (1, 35); (1, 57); (1, 35)] = [72; 72].
Proof. done. Qed.
End Keyboard.
