(* ===== verification/Process.v ===== *)
(** * Processes (src/kernel_rust/src/process.rs: the table, the frames, the scheduler's
      choice)

    The process table of 64 slots, lookup by pid, zombies and the wake-up of waiting
    parents, the synthetic register frames, and [sched_next].  [machine] gathers the
    statics the process code works on: the table, the current pid, the words of
    kernel memory, the user words of each address space, and the CPU and assembly
    globals it sets. *)

From Stdlib Require Import ZArith Lia.
From stdpp Require Import base numbers list list_numbers option gmap.
From S2P Require Import Prelude Memory VfsTypes.

Local Open Scope Z_scope.

Definition MAX_PROCS : Z := 64.
Definition KERNEL_STACK_SIZE : Z := 12288.
Definition USER_CODE_ADDR : Z := 33554432.  (* 0x2000000 *)
Definition BRK_START : Z := 83886080.       (* 0x5000000 *)
Definition BRK_MAX : Z := 268435456.        (* 0x10000000 *)
Definition FLAT_USER_LIMIT : Z := BRK_START.
Definition WNOHANG : Z := 1.

Inductive ProcessState := Ready | Running | Blocked | Zombie.

#[global] Instance process_state_eq_dec : EqDecision ProcessState.
Proof. solve_decision. Defined.

(** Per-signal disposition; [Default] is [SIG_DFL]. *)
Record SigAction := mkSig { sa_handler : Z; sa_mask : Z; sa_flags : Z }.
Definition SigAction_default : SigAction := mkSig 0 0 0.

Record Process := mkProc {
  pid : Z;
  pml4_phys : Z;
  state : ProcessState;
  entry : Z;
  user_rsp : Z;
  kernel_stack_top : Z;
  kernel_rsp : Z;
  kernel_stack_base : Z;
  parent_pid : Z;
  exit_code : Z;
  wait_for_pid : Z;
  brk : Z;
  errno : Z;
  sig_pending : Z;
  sigactions : list SigAction;
  in_signal : bool;
  sigframe_rsp : Z;
  stack_low : Z;
  name : list Z;
  fd_table : FdTable;
  cwd : list Z
}.

Definition set_state (s : ProcessState) (p : Process) : Process :=
  mkProc (pid p) (pml4_phys p) s (entry p) (user_rsp p) (kernel_stack_top p) (kernel_rsp p)
    (kernel_stack_base p) (parent_pid p) (exit_code p) (wait_for_pid p) (brk p) (errno p)
    (sig_pending p) (sigactions p) (in_signal p) (sigframe_rsp p) (stack_low p) (name p)
    (fd_table p) (cwd p).
Definition set_kernel_rsp (r : Z) (p : Process) : Process :=
  mkProc (pid p) (pml4_phys p) (state p) (entry p) (user_rsp p) (kernel_stack_top p) r
    (kernel_stack_base p) (parent_pid p) (exit_code p) (wait_for_pid p) (brk p) (errno p)
    (sig_pending p) (sigactions p) (in_signal p) (sigframe_rsp p) (stack_low p) (name p)
    (fd_table p) (cwd p).
Definition set_exit_code (c : Z) (p : Process) : Process :=
  mkProc (pid p) (pml4_phys p) (state p) (entry p) (user_rsp p) (kernel_stack_top p) (kernel_rsp p)
    (kernel_stack_base p) (parent_pid p) c (wait_for_pid p) (brk p) (errno p)
    (sig_pending p) (sigactions p) (in_signal p) (sigframe_rsp p) (stack_low p) (name p)
    (fd_table p) (cwd p).
Definition set_wait_for (w : Z) (p : Process) : Process :=
  mkProc (pid p) (pml4_phys p) (state p) (entry p) (user_rsp p) (kernel_stack_top p) (kernel_rsp p)
    (kernel_stack_base p) (parent_pid p) (exit_code p) w (brk p) (errno p)
    (sig_pending p) (sigactions p) (in_signal p) (sigframe_rsp p) (stack_low p) (name p)
    (fd_table p) (cwd p).
Definition set_brk (b : Z) (p : Process) : Process :=
  mkProc (pid p) (pml4_phys p) (state p) (entry p) (user_rsp p) (kernel_stack_top p) (kernel_rsp p)
    (kernel_stack_base p) (parent_pid p) (exit_code p) (wait_for_pid p) b (errno p)
    (sig_pending p) (sigactions p) (in_signal p) (sigframe_rsp p) (stack_low p) (name p)
    (fd_table p) (cwd p).
Definition set_errno (e : Z) (p : Process) : Process :=
  mkProc (pid p) (pml4_phys p) (state p) (entry p) (user_rsp p) (kernel_stack_top p) (kernel_rsp p)
    (kernel_stack_base p) (parent_pid p) (exit_code p) (wait_for_pid p) (brk p) e
    (sig_pending p) (sigactions p) (in_signal p) (sigframe_rsp p) (stack_low p) (name p)
    (fd_table p) (cwd p).
Definition set_sig_pending (s : Z) (p : Process) : Process :=
  mkProc (pid p) (pml4_phys p) (state p) (entry p) (user_rsp p) (kernel_stack_top p) (kernel_rsp p)
    (kernel_stack_base p) (parent_pid p) (exit_code p) (wait_for_pid p) (brk p) (errno p)
    s (sigactions p) (in_signal p) (sigframe_rsp p) (stack_low p) (name p)
    (fd_table p) (cwd p).
Definition set_sigactions (l : list SigAction) (p : Process) : Process :=
  mkProc (pid p) (pml4_phys p) (state p) (entry p) (user_rsp p) (kernel_stack_top p) (kernel_rsp p)
    (kernel_stack_base p) (parent_pid p) (exit_code p) (wait_for_pid p) (brk p) (errno p)
    (sig_pending p) l (in_signal p) (sigframe_rsp p) (stack_low p) (name p)
    (fd_table p) (cwd p).
Definition set_in_signal (b : bool) (r : Z) (p : Process) : Process :=
  mkProc (pid p) (pml4_phys p) (state p) (entry p) (user_rsp p) (kernel_stack_top p) (kernel_rsp p)
    (kernel_stack_base p) (parent_pid p) (exit_code p) (wait_for_pid p) (brk p) (errno p)
    (sig_pending p) (sigactions p) b r (stack_low p) (name p)
    (fd_table p) (cwd p).
Definition set_fd_table (f : FdTable) (p : Process) : Process :=
  mkProc (pid p) (pml4_phys p) (state p) (entry p) (user_rsp p) (kernel_stack_top p) (kernel_rsp p)
    (kernel_stack_base p) (parent_pid p) (exit_code p) (wait_for_pid p) (brk p) (errno p)
    (sig_pending p) (sigactions p) (in_signal p) (sigframe_rsp p) (stack_low p) (name p)
    f (cwd p).
Definition set_cwd (c : list Z) (p : Process) : Process :=
  mkProc (pid p) (pml4_phys p) (state p) (entry p) (user_rsp p) (kernel_stack_top p) (kernel_rsp p)
    (kernel_stack_base p) (parent_pid p) (exit_code p) (wait_for_pid p) (brk p) (errno p)
    (sig_pending p) (sigactions p) (in_signal p) (sigframe_rsp p) (stack_low p) (name p)
    (fd_table p) c.

Record ProcessTable := mkTable {
  slots : list (option Process);
  next_pid : Z;
  count : Z
}.

Record SyscallSavedState := mkSaved { sv_rsp : Z; sv_rflags : Z; sv_rip : Z }.

Record machine := mkM {
  m_table : ProcessTable;
  CURRENT_PID : Z;
  should_schedule : Z;
  m_kmem : mem;
  m_umem : gmap Z mem;
  m_cr3 : Z;
  m_rsp0 : Z;
  current_proc_kernel_rsp : Z;
  syscall_state : SyscallSavedState;
  sigreturn_frame : list Z;
  sigreturn_pending : Z
}.

Definition set_table (t : ProcessTable) (m : machine) : machine :=
  mkM t (CURRENT_PID m) (should_schedule m) (m_kmem m) (m_umem m) (m_cr3 m) (m_rsp0 m)
    (current_proc_kernel_rsp m) (syscall_state m) (sigreturn_frame m) (sigreturn_pending m).
Definition set_current_pid (c : Z) (m : machine) : machine :=
  mkM (m_table m) c (should_schedule m) (m_kmem m) (m_umem m) (m_cr3 m) (m_rsp0 m)
    (current_proc_kernel_rsp m) (syscall_state m) (sigreturn_frame m) (sigreturn_pending m).
Definition set_should_schedule (s : Z) (m : machine) : machine :=
  mkM (m_table m) (CURRENT_PID m) s (m_kmem m) (m_umem m) (m_cr3 m) (m_rsp0 m)
    (current_proc_kernel_rsp m) (syscall_state m) (sigreturn_frame m) (sigreturn_pending m).
Definition set_kmem (k : mem) (m : machine) : machine :=
  mkM (m_table m) (CURRENT_PID m) (should_schedule m) k (m_umem m) (m_cr3 m) (m_rsp0 m)
    (current_proc_kernel_rsp m) (syscall_state m) (sigreturn_frame m) (sigreturn_pending m).
Definition set_umem (u : gmap Z mem) (m : machine) : machine :=
  mkM (m_table m) (CURRENT_PID m) (should_schedule m) (m_kmem m) u (m_cr3 m) (m_rsp0 m)
    (current_proc_kernel_rsp m) (syscall_state m) (sigreturn_frame m) (sigreturn_pending m).
Definition write_cr3 (c : Z) (m : machine) : machine :=
  mkM (m_table m) (CURRENT_PID m) (should_schedule m) (m_kmem m) (m_umem m) c (m_rsp0 m)
    (current_proc_kernel_rsp m) (syscall_state m) (sigreturn_frame m) (sigreturn_pending m).
Definition set_rsp0 (r : Z) (m : machine) : machine :=
  mkM (m_table m) (CURRENT_PID m) (should_schedule m) (m_kmem m) (m_umem m) (m_cr3 m) r
    (current_proc_kernel_rsp m) (syscall_state m) (sigreturn_frame m) (sigreturn_pending m).
Definition set_syscall_kstack (r : Z) (m : machine) : machine :=
  mkM (m_table m) (CURRENT_PID m) (should_schedule m) (m_kmem m) (m_umem m) (m_cr3 m) (m_rsp0 m)
    r (syscall_state m) (sigreturn_frame m) (sigreturn_pending m).
Definition set_sigreturn (f : list Z) (s : Z) (m : machine) : machine :=
  mkM (m_table m) (CURRENT_PID m) (should_schedule m) (m_kmem m) (m_umem m) (m_cr3 m) (m_rsp0 m)
    (current_proc_kernel_rsp m) (syscall_state m) f s.

(** User words of the address space in [cr3]. *)
Definition uld64 (m : machine) (a : Z) : Z := ld64 (default ∅ (m_umem m !! m_cr3 m)) a.
Definition ust64 (m : machine) (a v : Z) : machine :=
  set_umem (<[m_cr3 m := st64 (default ∅ (m_umem m !! m_cr3 m)) a v]> (m_umem m)) m.

(** ** The table *)

Definition has_pid (q : Z) (o : option Process) : bool :=
  match o with Some p => pid p =? q | None => false end.

(** The slot of the process with pid [q]. *)
Definition find_slot (l : list (option Process)) (q : Z) : option Z := position (has_pid q) l 0.

Definition lookup_proc (l : list (option Process)) (q : Z) : option Process :=
  i ← find_slot l q;
  o ← l !! Z.to_nat i;
  o.

(** [process]: panics when there is no such process. *)
Definition process (m : machine) (q : Z) : outcome Process :=
  match lookup_proc (slots (m_table m)) q with Some p => Ret p | None => Panic end.

(** The effect of assignments through [process_mut(q)]. *)
Definition update_slots (l : list (option Process)) (q : Z) (f : Process → Process)
    : option (list (option Process)) :=
  i ← find_slot l q;
  o ← l !! Z.to_nat i;
  p ← o;
  Some (<[Z.to_nat i := Some (f p)]> l).

Definition process_mut (m : machine) (q : Z) (f : Process → Process) : outcome machine :=
  match update_slots (slots (m_table m)) q f with
  | Some l => Ret (set_table (mkTable l (next_pid (m_table m)) (count (m_table m))) m)
  | None => Panic
  end.

(** [process_mut_if]. *)
Definition process_mut_if (m : machine) (q : Z) : option Process :=
  lookup_proc (slots (m_table m)) q.

Definition mark_zombie (m : machine) (q code : Z) : outcome machine :=
  m ← process_mut m q (λ p, set_exit_code code (set_state Zombie p));
  child ← process m q;
  if parent_pid child =? 0 then Ret m
  else
    match process_mut_if m (parent_pid child) with
    | None => Ret m
    | Some parent =>
        if bool_decide (state parent = Blocked) && (wait_for_pid parent =? q) then
          let m := if negb (kernel_rsp parent =? 0)
                   then set_kmem (st64 (m_kmem m) (kernel_rsp parent) 0) m else m in
          process_mut m (parent_pid child) (λ p, set_wait_for 0 (set_state Ready p))
        else Ret m
    end.

(** ** Register frames *)

(** [ptr.sub(i).write(w)] for the words of [ws], from [ptr.sub(i)] downwards. *)
Fixpoint push_words (k : mem) (ptr i : Z) (ws : list Z) : mem :=
  match ws with
  | [] => k
  | w :: ws => push_words (st64 k (ptr - 8 * i) w) ptr (i + 1) ws
  end.

Definition build_init_frame (k : mem) (kernel_stack_top user_entry user_rsp command_id : Z) : Z * mem :=
  (kernel_stack_top - 8 * 22,
   push_words k kernel_stack_top 1
     ([27; user_rsp; 514; 35; user_entry;     (* SS, RSP, RFLAGS, CS, RIP *)
       0; 0;                                  (* err_code, int_no *)
       0; 0; 0; 0; 0; 0; 0; 0;                (* R15 .. R8 *)
       command_id;                            (* RDI *)
       0; 0; 0; 0; 0; 0])).                   (* RSI, RBP, RBX, RDX, RCX, RAX *)

Definition build_fork_frame (k : mem) (s : SyscallSavedState) (kstack_top : Z) : Z * mem :=
  (kstack_top - 8 * 22,
   push_words k kstack_top 1
     ([27; sv_rsp s; 514; 35; sv_rip s;
       0; 0;
       0; 0; 0; 0; 0; 0; 0; 0;
       0;
       0; 0; 0; 0; 0; 0])).

(** ** The scheduler's choice *)

Definition is_ready (o : option Process) : option Z :=
  match o with
  | Some p => if bool_decide (state p = Ready) then Some (pid p) else None
  | None => None
  end.

(** The first pass: slots [start + offset], [start + offset + 1], ... modulo the table
    size, [n] of them. *)
Fixpoint sched_scan (l : list (option Process)) (start offset : Z) (n : nat) : outcome (option Z) :=
  match n with
  | O => Ret None
  | S n =>
      o ← index l ((start + offset) mod MAX_PROCS);
      match is_ready o with
      | Some q => if negb (q =? 2) then Ret (Some q) else sched_scan l start (offset + 1) n
      | None => sched_scan l start (offset + 1) n
      end
  end.

(** The second pass: is idle ready? *)
Fixpoint idle_ready (l : list (option Process)) : bool :=
  match l with
  | [] => false
  | o :: l => match is_ready o with
              | Some q => if q =? 2 then true else idle_ready l
              | None => idle_ready l
              end
  end.

Definition sched_next (m : machine) : outcome Z :=
  let l := slots (m_table m) in
  let start := default 0 (find_slot l (CURRENT_PID m)) in
  r ← sched_scan l start 1 (Z.to_nat (MAX_PROCS - 1));
  Ret (match r with
       | Some q => q
       | None => if idle_ready l then 2 else CURRENT_PID m
       end).

(** ** Lookup and update by pid *)

Abbreviation procs m := (lookup_proc (slots (m_table m))).

(** The pids of the slots, which lookup depends on. *)
Definition shape (l : list (option Process)) : list (option Z) := (λ o : option Process, pid <$> o) <$> l.

Lemma find_slot_shape l l' q : shape l = shape l' → find_slot l q = find_slot l' q.
Proof.
  unfold find_slot, shape. generalize 0. revert l'.
  induction l as [|o l IH]; intros [|o' l'] i Hs; try done.
  cbn in Hs. injection Hs as Ho Hl. cbn [position].
  assert (has_pid q o = has_pid q o') as ->
    by (destruct o, o'; cbn in *; congruence).
  destruct (has_pid q o'); [done|]. by apply IH.
Qed.

Lemma find_slot_Some l q i : find_slot l q = Some i →
  ∃ p, 0 ≤ i < Z.of_nat (length l) ∧ l !! Z.to_nat i = Some (Some p) ∧ pid p = q.
Proof.
  intros H. unfold find_slot in H. pose proof (position_spec (has_pid q) l 0) as Hs.
  rewrite H in Hs. destruct Hs as (o & Hi & Hl & Ho & _).
  rewrite Z.sub_0_r in Hl. destruct o as [p|]; [|done]. exists p.
  cbn in Ho. apply Z.eqb_eq in Ho. auto with lia.
Qed.

Lemma lookup_proc_Some l q p : lookup_proc l q = Some p ↔
  ∃ i, find_slot l q = Some i ∧ l !! Z.to_nat i = Some (Some p).
Proof.
  unfold lookup_proc. split.
  - destruct (find_slot l q) as [i|]; [|done]. cbn. intros H. exists i. split; [done|].
    by destruct (l !! Z.to_nat i) as [[]|]; cbn in H; simplify_eq.
  - intros (i & -> & Hl). cbn. by rewrite Hl.
Qed.

Lemma lookup_proc_pid l q p : lookup_proc l q = Some p → pid p = q.
Proof.
  intros (i & Hi & Hl)%lookup_proc_Some. apply find_slot_Some in Hi as (p' & _ & Hl' & Hp).
  congruence.
Qed.

Lemma update_slots_spec l q f p i : (∀ p, pid (f p) = pid p) →
  find_slot l q = Some i → l !! Z.to_nat i = Some (Some p) →
  update_slots l q f = Some (<[Z.to_nat i := Some (f p)]> l) ∧
  shape (<[Z.to_nat i := Some (f p)]> l) = shape l ∧
  ∀ q', lookup_proc (<[Z.to_nat i := Some (f p)]> l) q'
        = if q' =? q then Some (f p) else lookup_proc l q'.
Proof.
  intros Hf Hi Hl.
  assert (shape (<[Z.to_nat i := Some (f p)]> l) = shape l) as Hs.
  { unfold shape. rewrite list_fmap_insert. apply list_insert_id.
    rewrite list_lookup_fmap, Hl. cbn. by rewrite Hf. }
  split_and!; [unfold update_slots; rewrite Hi; cbn; by rewrite Hl|done|].
  intros q'. unfold lookup_proc. rewrite (find_slot_shape _ l q' Hs).
  destruct (Z.eqb_spec q' q) as [->|Hne].
  - rewrite Hi. cbn. rewrite list_lookup_insert_eq by (eapply lookup_lt_Some; eauto). done.
  - destruct (find_slot l q') as [j|] eqn:Hj; [|done]. cbn.
    rewrite list_lookup_insert_ne; [done|]. intros Heq.
    apply find_slot_Some in Hj as (p' & _ & Hl' & Hp'). rewrite <- Heq, Hl in Hl'.
    apply find_slot_Some in Hi as (p'' & _ & Hl'' & Hp''). congruence.
Qed.

(** The machine after assignments through [process_mut]. *)
Definition upd (m : machine) (q : Z) (f : Process → Process) : machine :=
  set_table (mkTable (default (slots (m_table m)) (update_slots (slots (m_table m)) q f))
               (next_pid (m_table m)) (count (m_table m))) m.

Lemma process_ret m q p : procs m q = Some p → process m q = Ret p.
Proof. unfold process. by intros ->. Qed.

Lemma process_mut_ret m q p f : procs m q = Some p → process_mut m q f = Ret (upd m q f).
Proof.
  intros (i & Hi & Hl)%lookup_proc_Some. unfold process_mut, upd, update_slots.
  rewrite Hi. cbn. by rewrite Hl.
Qed.

Lemma procs_upd m q p f q' : (∀ p, pid (f p) = pid p) → procs m q = Some p →
  procs (upd m q f) q' = if q' =? q then Some (f p) else procs m q'.
Proof.
  intros Hf (i & Hi & Hl)%lookup_proc_Some.
  destruct (update_slots_spec _ q f p i Hf Hi Hl) as (Hu & _ & Hp).
  unfold upd. cbn [m_table slots set_table]. rewrite Hu. apply Hp.
Qed.

Lemma shape_upd m q f : (∀ p, pid (f p) = pid p) →
  shape (slots (m_table (upd m q f))) = shape (slots (m_table m)).
Proof.
  intros Hf. unfold upd. cbn [m_table slots set_table].
  destruct (procs m q) as [p|] eqn:E.
  - apply lookup_proc_Some in E as (i & Hi & Hl).
    destruct (update_slots_spec _ q f p i Hf Hi Hl) as (-> & Hs & _). done.
  - unfold update_slots, lookup_proc in *. destruct (find_slot _ q); [|done]. cbn in *.
    match goal with |- context [slots _ !! ?k] => destruct (slots (m_table m) !! k) as [[]|] end;
      by cbn in *.
Qed.

Lemma upd_slot m q i p f : find_slot (slots (m_table m)) q = Some i →
  slots (m_table m) !! Z.to_nat i = Some (Some p) →
  upd m q f = set_table (mkTable (<[Z.to_nat i := Some (f p)]> (slots (m_table m)))
                           (next_pid (m_table m)) (count (m_table m))) m.
Proof. intros Hi Hl. unfold upd, update_slots. rewrite Hi. cbn. by rewrite Hl. Qed.

Lemma upd_ext m q p f g : procs m q = Some p → f p = g p → upd m q f = upd m q g.
Proof.
  intros (i & Hi & Hl)%lookup_proc_Some He. by rewrite !(upd_slot m q i p), He by done.
Qed.

Lemma upd_upd m q f g : (∀ p, pid (f p) = pid p) → upd (upd m q f) q g = upd m q (λ p, g (f p)).
Proof.
  intros Hf. destruct (procs m q) as [p|] eqn:E.
  - apply lookup_proc_Some in E as (i & Hi & Hl). rewrite !(upd_slot m q i p) by done.
    rewrite (upd_slot _ q i (f p)).
    + unfold set_table. cbn. by rewrite list_insert_insert_eq.
    + cbn. rewrite <- Hi. apply find_slot_shape.
      by destruct (update_slots_spec _ q f p i Hf Hi Hl) as (_ & -> & _).
    + cbn. by rewrite list_lookup_insert_eq by (eapply lookup_lt_Some; eauto).
  - assert (∀ f, update_slots (slots (m_table m)) q f = None) as Hn.
    { intros h. unfold lookup_proc, update_slots in *. destruct (find_slot _ q); [|done]. cbn in *.
      match goal with |- context [slots _ !! ?k] => destruct (slots (m_table m) !! k) as [[]|] end;
      by cbn in *. }
    assert (∀ f, upd m q f = m) as Hu
      by (intros h; unfold upd; rewrite Hn; by destruct m as [[]]).
    by rewrite !Hu.
Qed.

Lemma upd_id m q f p : procs m q = Some p → f p = p → upd m q f = m.
Proof.
  intros (i & Hi & Hl)%lookup_proc_Some He. rewrite (upd_slot m q i p), He by done.
  rewrite list_insert_id by done. by destruct m as [[]].
Qed.

(** Does the parent of [p] wait for [q]? *)
Definition wakes (m : machine) (q : Z) (p : Process) : bool :=
  negb (parent_pid p =? 0) && negb (parent_pid p =? q) &&
  match procs m (parent_pid p) with
  | Some parent => bool_decide (state parent = Blocked) && (wait_for_pid parent =? q)
  | None => false
  end.

(** What [mark_zombie] leaves: the process is a zombie; a parent blocked on it is ready
    again, with the result 0 in its saved frame; nothing else changes. *)
Definition zombified (m : machine) (q code : Z) (p : Process) (m' : machine) : Prop :=
  (∀ q', procs m' q' =
     if q' =? q then Some (set_exit_code code (set_state Zombie p))
     else if (q' =? parent_pid p) && wakes m q p
          then (λ x, set_wait_for 0 (set_state Ready x)) <$> procs m q'
          else procs m q') ∧
  shape (slots (m_table m')) = shape (slots (m_table m)) ∧
  m_kmem m' = match procs m (parent_pid p) with
              | Some x => if wakes m q p && negb (kernel_rsp x =? 0)
                          then st64 (m_kmem m) (kernel_rsp x) 0 else m_kmem m
              | None => m_kmem m
              end ∧
  m' = set_kmem (m_kmem m') (set_table (m_table m') m) ∧
  next_pid (m_table m') = next_pid (m_table m) ∧ count (m_table m') = count (m_table m).

Lemma mark_zombie_cases m q code p : procs m q = Some p →
  ∃ m', mark_zombie m q code = Ret m' ∧ zombified m q code p m'.
Proof.
  intros Hp. unfold mark_zombie. rewrite (process_mut_ret m q p _ Hp). cbn [mbind outcome_bind].
  set (fz := λ p, set_exit_code code (set_state Zombie p)).
  assert (∀ q', procs (upd m q fz) q' = if q' =? q then Some (fz p) else procs m q') as Hz
    by (intros; by apply procs_upd).
  rewrite (process_ret _ q (fz p)) by (rewrite Hz; by rewrite Z.eqb_refl).
  cbn [mbind outcome_bind]. change (parent_pid (fz p)) with (parent_pid p).
  unfold process_mut_if. rewrite Hz.
  unfold zombified, wakes.
  destruct (Z.eqb_spec (parent_pid p) 0) as [E0|E0]; [|destruct (Z.eqb_spec (parent_pid p) q) as [Eq|Eq]].
  1,2: eexists; split; [done|]; split_and!; [|by apply shape_upd|..|done|done|done];
    [intros q'; rewrite Hz; rewrite ?andb_false_r; done|by destruct (procs m (parent_pid p))].
  destruct (procs m (parent_pid p)) as [x|] eqn:Hx; [|].
  2: eexists; split; [done|]; split_and!; [|by apply shape_upd|..|done|done|done];
    [intros q'; rewrite Hz, ?andb_false_r; done|done].
  destruct (bool_decide (state x = Blocked) && (wait_for_pid x =? q)) eqn:Hw.
  2: eexists; split; [done|]; split_and!; [|by apply shape_upd|..|done|done|done];
    [intros q'; rewrite Hz, ?andb_false_r; done|done].
  match goal with |- context [process_mut ?m' _ ?f] => set (m1 := m'); set (fr := f) end.
  assert (m_table m1 = m_table (upd m q fz)) as Ht
    by (subst m1; by destruct (negb (kernel_rsp x =? 0))).
  assert (procs m1 (parent_pid p) = Some x) as Hx1.
  { rewrite Ht, Hz. by destruct (Z.eqb_spec (parent_pid p) q). }
  exists (upd m1 (parent_pid p) fr). split; [by apply (process_mut_ret _ _ x)|].
  split_and!.
  - intros q'. rewrite (procs_upd _ _ x) by done. rewrite Ht, Hz.
    destruct (Z.eqb_spec q' (parent_pid p)), (Z.eqb_spec q' q); try congruence; cbn;
      by subst; rewrite ?Hx.
  - rewrite shape_upd by done. rewrite Ht. by apply shape_upd.
  - subst m1. by destruct (negb (kernel_rsp x =? 0)).
  - subst m1. by destruct (negb (kernel_rsp x =? 0)).
  - cbn. by rewrite Ht.
  - cbn. by rewrite Ht.
Qed.

(** ** The choice *)

(** The non-idle process that is ready in slot [i]. *)
Definition runnable (l : list (option Process)) (i : Z) : option Z :=
  o ← l !! Z.to_nat i;
  q ← is_ready o;
  if q =? 2 then None else Some q.

Definition table_full_size (l : list (option Process)) : Prop := Z.of_nat (length l) = MAX_PROCS.

Lemma sched_scan_spec l start off n : table_full_size l → 
  match sched_scan l start off n with
  | Ret (Some q) => ∃ k, off ≤ k < off + Z.of_nat n ∧ runnable l ((start + k) mod MAX_PROCS) = Some q ∧
      ∀ k', off ≤ k' < k → runnable l ((start + k') mod MAX_PROCS) = None
  | Ret None => ∀ k', off ≤ k' < off + Z.of_nat n → runnable l ((start + k') mod MAX_PROCS) = None
  | _ => False
  end.
Proof.
  intros Hl. revert off. induction n as [|n IH]; intros off; cbn [sched_scan]; [intros k' Hk'; lia|].
  pose proof (Z.mod_pos_bound (start + off) MAX_PROCS ltac:(done)) as Hb.
  destruct (index_in_range l ((start + off) mod MAX_PROCS)) as (o & Ho & ->); [red in Hl; lia|].
  cbn [mbind outcome_bind].
  assert (runnable l ((start + off) mod MAX_PROCS)
          = (q ← is_ready o; if q =? 2 then None else Some q)) as Hr
    by (unfold runnable; by rewrite Ho).
  assert (runnable l ((start + off) mod MAX_PROCS) = None →
    match sched_scan l start (off + 1) n with
    | Ret (Some q) => ∃ k, off ≤ k < off + Z.of_nat (S n) ∧
        runnable l ((start + k) mod MAX_PROCS) = Some q ∧
        ∀ k', off ≤ k' < k → runnable l ((start + k') mod MAX_PROCS) = None
    | Ret None => ∀ k', off ≤ k' < off + Z.of_nat (S n) →
        runnable l ((start + k') mod MAX_PROCS) = None
    | _ => False
    end) as Hskip.
  { intros Hn. specialize (IH (off + 1)). destruct (sched_scan l start (off + 1) n) as [[q|]| | |]; try done.
    - destruct IH as (k & Hk & Hq & Hlow). exists k. split_and!; [lia|lia|done|].
      intros k' Hk'. destruct (decide (k' = off)) as [->|]; [done|]. apply Hlow. lia.
    - intros k' Hk'. destruct (decide (k' = off)) as [->|]; [done|]. apply IH. lia. }
  destruct (is_ready o) as [q|]; [|by apply Hskip].
  cbn in Hr. destruct (q =? 2); cbn [negb]; [by apply Hskip|].
  exists off. split_and!; [lia|lia|done|]. intros k' Hk'. lia.
Qed.

Lemma idle_ready_spec l : idle_ready l = true ↔ ∃ i p, l !! i = Some (Some p) ∧ state p = Ready ∧ pid p = 2.
Proof.
  induction l as [|o l IH]; cbn [idle_ready]; [split; [done|by intros (i & p & H & _)]|].
  assert (idle_ready l = true ↔ ∃ i p, (o :: l) !! S i = Some (Some p) ∧ state p = Ready ∧ pid p = 2)
    as Ht by done. clear IH.
  destruct (is_ready o) as [q|] eqn:E.
  - destruct o as [p|]; [|done]. cbn in E. case_bool_decide; [|done]. injection E as <-.
    destruct (Z.eqb_spec (pid p) 2); [split; [|done]; intros _; by exists 0%nat, p|].
    rewrite Ht. split; [intros (i & ?); by exists (S i)|].
    intros ([|i] & p' & Hl & Hs & Hq); [cbn in Hl; congruence|by exists i, p'].
  - rewrite Ht. split; [intros (i & ?); by exists (S i)|].
    intros ([|i] & p' & Hl & Hs & Hq); [|by exists i, p'].
    cbn in Hl. simplify_eq. cbn in E. by case_bool_decide.
Qed.

(** [sched_next] in one step. *)
Lemma sched_next_cases m : table_full_size (slots (m_table m)) →
  let l := slots (m_table m) in
  let start := default 0 (find_slot l (CURRENT_PID m)) in
  (∃ q k, sched_next m = Ret q ∧ 1 ≤ k < MAX_PROCS ∧ runnable l ((start + k) mod MAX_PROCS) = Some q ∧
     ∀ k', 1 ≤ k' < k → runnable l ((start + k') mod MAX_PROCS) = None) ∨
  (sched_next m = Ret (if idle_ready l then 2 else CURRENT_PID m) ∧
     ∀ k', 1 ≤ k' < MAX_PROCS → runnable l ((start + k') mod MAX_PROCS) = None).
Proof.
  intros Hl l start. unfold sched_next. fold l start.
  pose proof (sched_scan_spec l start 1 (Z.to_nat (MAX_PROCS - 1)) Hl) as Hs.
  change (1 + Z.of_nat (Z.to_nat (MAX_PROCS - 1))) with MAX_PROCS in Hs.
  destruct (sched_scan l start 1 _) as [[q|]| | |]; try done; cbn [mbind outcome_bind].
  - left. destruct Hs as (k & ?). by exists q, k.
  - by right.
Qed.

(** ** The table invariant and bounded waiting *)

Definition pids_unique (l : list (option Process)) : Prop :=
  ∀ i j p q, l !! i = Some (Some p) → l !! j = Some (Some q) → pid p = pid q → i = j.

Record pt_wf (t : ProcessTable) : Prop := {
  pt_size : table_full_size (slots t);
  pt_unique : pids_unique (slots t);
  pt_pids : ∀ i p, slots t !! i = Some (Some p) → 0 < pid p < next_pid t;
  pt_count : count t = countb (λ o, bool_decide (is_Some o)) (slots t)
}.

Lemma find_slot_is l q i p : pids_unique l → 0 ≤ i → l !! Z.to_nat i = Some (Some p) → pid p = q →
  find_slot l q = Some i.
Proof.
  intros Hu Hi Hl <-. destruct (find_slot l (pid p)) as [j|] eqn:Hj.
  - apply find_slot_Some in Hj as (p' & Hj & Hl' & Hp'). f_equal.
    assert (Z.to_nat j = Z.to_nat i) by (eapply Hu; eauto). lia.
  - unfold find_slot in Hj. pose proof (position_spec (has_pid (pid p)) l 0) as Hs.
    rewrite Hj in Hs. specialize (Hs _ _ Hl). cbn in Hs. by rewrite Z.eqb_refl in Hs.
Qed.

Lemma runnable_Some l i q : runnable l i = Some q →
  ∃ p, l !! Z.to_nat i = Some (Some p) ∧ pid p = q ∧ state p = Ready ∧ q ≠ 2.
Proof.
  unfold runnable. destruct (l !! Z.to_nat i) as [[p|]|]; cbn; [|done..].
  case_bool_decide; [|done]. cbn. intros H'. exists p.
  destruct (Z.eqb_spec (pid p) 2); [done|]. by simplify_eq.
Qed.

Definition start_slot (m : machine) : Z := default 0 (find_slot (slots (m_table m)) (CURRENT_PID m)).

(** How many slots the scan visits before it reaches slot [j]: between 1 and 64. *)
Definition distance (m : machine) (j : Z) : Z := (j - start_slot m - 1) mod MAX_PROCS + 1.

Lemma distance_spec m j k : 0 ≤ j < MAX_PROCS → 1 ≤ k ≤ MAX_PROCS →
  (start_slot m + k) mod MAX_PROCS = j ↔ distance m j = k.
Proof.
  intros Hj Hk. unfold distance.
  assert ((start_slot m + k) mod MAX_PROCS = j mod MAX_PROCS ↔
          (j - start_slot m - 1) mod MAX_PROCS = (k - 1) mod MAX_PROCS) as He.
  { unfold MAX_PROCS. split; intros H; Z.div_mod_to_equations; lia. }
  rewrite (Z.mod_small j), (Z.mod_small (k - 1)) in He by lia. rewrite He. lia.
Qed.

Lemma distance_bound m j : 1 ≤ distance m j ≤ MAX_PROCS.
Proof. unfold distance. pose proof (Z.mod_pos_bound (j - start_slot m - 1) MAX_PROCS). unfold MAX_PROCS in *. lia. Qed.

(** A choice other than the waiting process brings the scan closer to it. *)
Section closer.
Context (m m' : machine) (j q r : Z).
Context (Hwf : pt_wf (m_table m)) (Hj : 0 ≤ j < MAX_PROCS).
Context (Hq : runnable (slots (m_table m)) j = Some q) (Hne : r ≠ q).
Context (Hcur : CURRENT_PID m' = r).
Context (Hslot : find_slot (slots (m_table m')) r = find_slot (slots (m_table m)) r).

Lemma distance_slot : (start_slot m + distance m j) mod MAX_PROCS = j.
Proof. apply distance_spec; [done|apply distance_bound|done]. Qed.

Lemma closer_scan k : 1 ≤ k < MAX_PROCS →
  runnable (slots (m_table m)) ((start_slot m + k) mod MAX_PROCS) = Some r →
  (∀ k', 1 ≤ k' < k → runnable (slots (m_table m)) ((start_slot m + k') mod MAX_PROCS) = None) →
  is_Some (procs m r) ∧ distance m' j < distance m j.
Proof using All.
  intros Hk Hrun Hlow. pose proof (distance_bound m j) as Hd. pose proof distance_slot as Hdj.
  pose proof (runnable_Some _ _ _ Hrun) as (pr & Hlr & Hpr & _ & _).
  pose proof (Z.mod_pos_bound (start_slot m + k) MAX_PROCS ltac:(done)) as Hb.
  assert (find_slot (slots (m_table m)) r = Some ((start_slot m + k) mod MAX_PROCS)) as Hf
    by (eapply find_slot_is; eauto using pt_unique; lia).
  split; [exists pr; apply lookup_proc_Some; eauto|].
  assert (distance m j > k).
  { destruct (Z.lt_trichotomy (distance m j) k) as [Hlt|[Heq|]]; [| |lia].
    - specialize (Hlow (distance m j) ltac:(lia)). by rewrite Hdj, Hq in Hlow.
    - rewrite <- Heq, Hdj, Hq in Hrun. congruence. }
  assert (distance m' j = distance m j - k) as ->; [|lia].
  apply distance_spec; [done|unfold MAX_PROCS in *; lia|].
  unfold start_slot at 1. rewrite Hcur, Hslot, Hf. cbn [default from_option id].
  rewrite Zplus_mod_idemp_l. rewrite <- Hdj at 2. f_equal. lia.
Qed.

(** Without another candidate the current process is the waiting one, and idle is chosen. *)
Lemma closer_idle : is_Some (procs m (CURRENT_PID m)) →
  r = (if idle_ready (slots (m_table m)) then 2 else CURRENT_PID m) →
  (∀ k', 1 ≤ k' < MAX_PROCS → runnable (slots (m_table m)) ((start_slot m + k') mod MAX_PROCS) = None) →
  is_Some (procs m r) ∧ distance m' j < distance m j.
Proof using All.
  intros [pc Hc] Hr Hlow. pose proof (distance_bound m j) as Hd. pose proof distance_slot as Hdj.
  pose proof (runnable_Some _ _ _ Hq) as (pq & Hlq & Hpq & _ & Hq2).
  assert (distance m j = MAX_PROCS) as HdM.
  { destruct (decide (distance m j < MAX_PROCS)); [|lia].
    specialize (Hlow (distance m j) ltac:(lia)). by rewrite Hdj, Hq in Hlow. }
  apply lookup_proc_Some in Hc as (i & Hi & Hl).
  apply find_slot_Some in Hi as Hi'. destruct Hi' as (p & Hib & Hlp & Hpc).
  pose proof (pt_size _ Hwf) as Hsz. red in Hsz.
  assert (i = j) as ->.
  { rewrite <- Hdj, HdM. unfold start_slot. rewrite Hi. cbn [default from_option id].
    rewrite <- (Z.mul_1_l MAX_PROCS) at 1. rewrite Z.mod_add by done. symmetry. apply Z.mod_small. lia. }
  destruct (idle_ready (slots (m_table m))) eqn:Hidle; [|congruence].
  apply idle_ready_spec in Hidle as (i & p2 & Hl2 & _ & Hp2).
  assert (find_slot (slots (m_table m)) 2 = Some (Z.of_nat i)) as Hf
    by (eapply find_slot_is; eauto using pt_unique; [lia|by rewrite Nat2Z.id]).
  split; [rewrite Hr; exists p2; apply lookup_proc_Some; exists (Z.of_nat i); by rewrite Nat2Z.id|].
  rewrite HdM. pose proof (distance_bound m' j).
  assert (distance m' j ≠ MAX_PROCS); [|lia]. intros He.
  assert ((start_slot m' + MAX_PROCS) mod MAX_PROCS = j) as Hj' by (apply distance_spec; done).
  unfold start_slot in Hj'. rewrite Hcur, Hslot, Hr, Hf in Hj'. cbn [default from_option id] in Hj'.
  rewrite <- (Z.mul_1_l MAX_PROCS), Z.mod_add in Hj' by done.
  apply lookup_lt_Some in Hl2 as Hi2.
  rewrite Z.mod_small in Hj' by lia. subst j. rewrite Nat2Z.id in Hlq. congruence.
Qed.

Lemma sched_next_closer : is_Some (procs m (CURRENT_PID m)) → sched_next m = Ret r →
  is_Some (procs m r) ∧ distance m' j < distance m j.
Proof using All.
  intros Hc Hr.
  destruct (sched_next_cases m (pt_size _ Hwf)) as [(r' & k & Hr' & Hk & Hrun & Hlow)|(Hr' & Hlow)];
    fold (start_slot m) in *; rewrite Hr in Hr'; injection Hr' as Hr'.
  - subst r'. eauto using closer_scan.
  - eauto using closer_idle.
Qed.
End closer.

(** Consecutive decisions: each chosen process is the current one at the next decision and
    keeps its slot. *)
Fixpoint decisions (m : machine) (ms : list machine) : Prop :=
  match ms with
  | [] => True
  | m' :: ms => sched_next m = Ret (CURRENT_PID m') ∧
      find_slot (slots (m_table m')) (CURRENT_PID m') = find_slot (slots (m_table m)) (CURRENT_PID m') ∧
      decisions m' ms
  end.

Lemma bounded_wait j q ms : ∀ m, 0 ≤ j < MAX_PROCS →
  Forall (λ m, pt_wf (m_table m) ∧ runnable (slots (m_table m)) j = Some q) (m :: ms) →
  is_Some (procs m (CURRENT_PID m)) → decisions m ms → distance m j ≤ Z.of_nat (length (m :: ms)) →
  ∃ m', m' ∈ m :: ms ∧ sched_next m' = Ret q.
Proof.
  induction ms as [|m' ms IH]; intros m Hj HF Hc Hd Hlen; apply Forall_cons in HF as [(Hwf & Hq) HF].
  all: assert (∃ r, sched_next m = Ret r) as [r Hr]
    by (destruct (sched_next_cases m (pt_size _ Hwf)) as [(? & ? & -> & _)|(-> & _)]; eauto).
  all: destruct (decide (r = q)) as [->|Hne]; [exists m; split; [set_solver|done]|].
  - pose proof (distance_bound (set_current_pid r m) j).
    pose proof (sched_next_closer m (set_current_pid r m) j q r Hwf Hj Hq Hne eq_refl eq_refl Hc Hr) as [_ Hlt].
    cbn in Hlen. lia.
  - destruct Hd as (Hr' & Hslot & Hd). rewrite Hr in Hr'. injection Hr' as Hr'.
    rewrite <- Hr' in Hslot.
    pose proof (sched_next_closer m m' j q r Hwf Hj Hq Hne (eq_sym Hr') Hslot Hc Hr) as [[pr Hpr] Hlt].
    destruct (IH m') as (m'' & Hin & ?); [done|done| |done|cbn in *; lia|exists m''; set_solver].
    apply Forall_cons in HF as [(Hwf' & _) _].
    apply lookup_proc_Some in Hpr as (i & Hi & _). rewrite <- Hslot in Hi.
    apply find_slot_Some in Hi as Hi'. destruct Hi' as (p & _ & Hl & _).
    exists p. apply lookup_proc_Some. rewrite <- Hr'. eauto.
Qed.

(** C17: Round-robin scheduling is free of starvation.  Take any 64 consecutive scheduling
    decisions, between which the table may change in any way that keeps the chosen process in
    its slot; if the process [q] in slot [j] (not idle) is ready at each of them, one of them
    chooses [q]. *)
Theorem sched_no_starvation (j q : Z) (m : machine) (ms : list machine)
  (Hj : 0 ≤ j < MAX_PROCS)
  (Hready : Forall (λ m, pt_wf (m_table m) ∧ runnable (slots (m_table m)) j = Some q) (m :: ms))
  (Hcur : is_Some (procs m (CURRENT_PID m)))
  (Hrun : decisions m ms)
  (Hlen : Z.of_nat (length (m :: ms)) = MAX_PROCS) :
  ∃ m', m' ∈ m :: ms ∧ sched_next m' = Ret q.
Proof. eapply bounded_wait; eauto. rewrite Hlen. apply distance_bound. Qed.

(** What [sched_next] chooses: a process ready in the first slot after the current
    process's slot, in cyclic order, that holds a ready process other than idle; if there is
    none besides the current process itself, idle when it is ready, and otherwise the current
    pid.  It never panics, and what it chooses is a ready process of the table unless nothing
    else is ready. *)
Theorem sched_next_spec (m : machine) (Hwf : pt_wf (m_table m)) :
  ∃ q, sched_next m = Ret q ∧
    ((∃ k, 1 ≤ k < MAX_PROCS ∧ runnable (slots (m_table m)) ((start_slot m + k) mod MAX_PROCS) = Some q ∧
       (∀ k', 1 ≤ k' < k → runnable (slots (m_table m)) ((start_slot m + k') mod MAX_PROCS) = None) ∧
       ∃ p, procs m q = Some p ∧ state p = Ready) ∨
     (∀ k, 1 ≤ k < MAX_PROCS → runnable (slots (m_table m)) ((start_slot m + k) mod MAX_PROCS) = None) ∧
       if idle_ready (slots (m_table m)) then q = 2 ∧ ∃ p, procs m 2 = Some p ∧ state p = Ready
       else q = CURRENT_PID m).
Proof.
  destruct (sched_next_cases m (pt_size _ Hwf)) as [(q & k & Hr & Hk & Hrun & Hlow)|(Hr & Hlow)];
    fold (start_slot m) in *; eexists; (split; [done|]).
  - left. exists k. split_and!; [lia|lia|done|done|].
    apply runnable_Some in Hrun as (p & Hl & Hp & Hs & _). exists p. split; [|done].
    apply lookup_proc_Some. eexists. split; [|done].
    pose proof (Z.mod_pos_bound (start_slot m + k) MAX_PROCS ltac:(done)).
    eapply find_slot_is; eauto using pt_unique. lia.
  - right. split; [done|]. destruct (idle_ready (slots (m_table m))) eqn:E; [|done].
    split; [done|]. apply idle_ready_spec in E as (i & p & Hl & Hs & Hp). exists p. split; [|done].
    apply lookup_proc_Some. exists (Z.of_nat i). rewrite Nat2Z.id. split; [|done].
    eapply find_slot_is; eauto using pt_unique; [lia|by rewrite Nat2Z.id].
Qed.

(** The words of a frame, from the address of [RAX] up. *)
Definition read_frame (k : mem) (krsp : Z) : list Z := (λ i, ld64 k (krsp + 8 * i)) <$> seqZ 0 22.

(** ** Steps that only move processes forward

    What a process keeps through scheduling, delivery and wake-ups. *)
Definition keep (p p' : Process) : Prop :=
  pid p' = pid p ∧ pml4_phys p' = pml4_phys p ∧ kernel_stack_top p' = kernel_stack_top p ∧
  kernel_rsp p' = kernel_rsp p ∧ sigactions p' = sigactions p ∧ parent_pid p' = parent_pid p.

(** States only change from blocked to ready. *)
Record evolves (m m' : machine) : Prop := {
  ev_current : CURRENT_PID m' = CURRENT_PID m;
  ev_shape : shape (slots (m_table m')) = shape (slots (m_table m));
  ev_next : next_pid (m_table m') = next_pid (m_table m);
  ev_count : count (m_table m') = count (m_table m);
  ev_procs : ∀ q p, procs m q = Some p → ∃ p', procs m' q = Some p' ∧ keep p p' ∧
    (state p' = state p ∨ state p = Blocked ∧ state p' = Ready)
}.

Lemma keep_refl p : keep p p.
Proof. done. Qed.

Lemma evolves_refl m : evolves m m.
Proof. split; eauto using keep_refl. Qed.

Lemma evolves_trans m1 m2 m3 : evolves m1 m2 → evolves m2 m3 → evolves m1 m3.
Proof.
  intros [] []. split; [congruence..|]. intros q p Hp.
  destruct (ev_procs0 q p Hp) as (p' & Hp' & (? & ? & ? & ? & ? & ?) & Hs).
  destruct (ev_procs1 q p' Hp') as (p'' & Hp'' & (? & ? & ? & ? & ? & ?) & Hs').
  exists p''. split; [done|]. split; [split_and!; congruence|]. intuition congruence.
Qed.

Lemma evolves_upd m q p f : procs m q = Some p → (∀ p, pid (f p) = pid p) → keep p (f p) →
  state (f p) = state p ∨ state p = Blocked ∧ state (f p) = Ready → evolves m (upd m q f).
Proof.
  intros Hp Hf Hk Hs. split; [done|by apply shape_upd|done|done|].
  intros q' p' Hp'. rewrite (procs_upd _ _ p) by done.
  destruct (Z.eqb_spec q' q) as [->|]; [|eauto using keep_refl].
  rewrite Hp in Hp'. simplify_eq. eauto.
Qed.

(** The table invariant depends on the pids in the slots only. *)
Lemma shape_lookup l l' i p : shape l = shape l' → l !! i = Some (Some p) →
  ∃ p', l' !! i = Some (Some p') ∧ pid p' = pid p.
Proof.
  intros Hs Hl. assert (shape l !! i = Some (Some (pid p))) as Hi
    by (unfold shape; by rewrite list_lookup_fmap, Hl).
  rewrite Hs in Hi. unfold shape in Hi. rewrite list_lookup_fmap in Hi.
  destruct (l' !! i) as [[p'|]|]; cbn in Hi; simplify_eq. eauto.
Qed.

Lemma pt_wf_shape t t' : shape (slots t') = shape (slots t) → next_pid t' = next_pid t →
  count t' = count t → pt_wf t → pt_wf t'.
Proof.
  intros Hs Hn Hc [Hsz Hu Hp Hct]. split.
  - unfold table_full_size, shape in *. apply (f_equal length) in Hs. by rewrite !length_fmap in Hs; rewrite Hs.
  - intros i j p q Hi Hj He.
    destruct (shape_lookup _ _ _ _ Hs Hi) as (p' & Hi' & Hp'), (shape_lookup _ _ _ _ Hs Hj) as (q' & Hj' & Hq').
    eapply Hu; eauto. congruence.
  - intros i p Hi. destruct (shape_lookup _ _ _ _ Hs Hi) as (p' & Hi' & Hp').
    rewrite Hn, <- Hp'. eauto.
  - rewrite Hc, Hct. clear -Hs. revert Hs. generalize (slots t) as l, (slots t') as l'.
    unfold shape. intros l. induction l as [|o l IH]; intros [|o' l'] Hs; try done.
    cbn in Hs. injection Hs as Ho Hl. cbn [countb]. rewrite (IH _ Hl). f_equal. f_equal.
    apply bool_decide_ext. destruct o, o'; cbn in Ho; try done; split; eauto.
Qed.

Lemma evolves_wf m m' : evolves m m' → pt_wf (m_table m) → pt_wf (m_table m').
Proof. intros []. by apply pt_wf_shape. Qed.

(** ** Examples *)

Definition demo_proc (q : Z) (s : ProcessState) : Process :=
  mkProc q 4096 s 0 0 0 0 0 0 0 0 0 0 0 (replicate 32 SigAction_default) false 0 0 [] (FdTable_new) [].

Definition demo_slots (l : list Process) : list (option Process) :=
  (Some <$> l) ++ replicate (64 - length l) None.

Definition demo_machine (cur : Z) (l : list Process) : machine :=
  mkM (mkTable (demo_slots l) (Z.of_nat (length l) + 1) (Z.of_nat (length l))) cur 0 ∅ ∅ 0 0 0
    (mkSaved 0 0 0) [] 0.

(** The table in [m]: its first slots hold the processes [l] with pids 1, 2, ... *)
Lemma demo_wf cur l : (length l ≤ 64)%nat → pid <$> l = seqZ 1 (Z.of_nat (length l)) →
  pt_wf (m_table (demo_machine cur l)).
Proof.
  intros Hlen Hp.
  assert (∀ i p, demo_slots l !! i = Some (Some p) → pid p = 1 + Z.of_nat i ∧ (i < length l)%nat) as Hs.
  { unfold demo_slots. intros i p [H|[_ H]]%lookup_app_Some.
    - rewrite list_lookup_fmap in H. destruct (l !! i) as [p'|] eqn:E; [|done]. simplify_eq/=.
      split; [|by eapply lookup_lt_Some].
      assert ((pid <$> l) !! i = Some (pid p)) as Hi by (by rewrite list_lookup_fmap, E).
      rewrite Hp in Hi. apply lookup_seqZ in Hi. lia.
    - by apply lookup_replicate in H as [? _]. }
  split; cbn [m_table demo_machine slots next_pid count].
  - unfold table_full_size, demo_slots. rewrite length_app, length_fmap, length_replicate.
    unfold MAX_PROCS. lia.
  - intros i j p q Hi Hj Heq. apply Hs in Hi, Hj. lia.
  - intros i p Hi. apply Hs in Hi. lia.
  - unfold demo_slots. rewrite countb_app. replace (countb _ (replicate _ None)) with 0.
    + clear. induction l as [|p l IH]; [done|]. cbn [fmap list_fmap countb length].
      rewrite bool_decide_true by eauto. cbn in *. lia.
    + symmetry. apply countb_zero. intros i o [-> _]%lookup_replicate.
      apply bool_decide_false. by intros [? ?].
Qed.

Definition demo_three : machine :=
  demo_machine 1 [demo_proc 1 Running; demo_proc 2 Ready; demo_proc 3 Ready].

Definition demo_run : list machine :=
  mjoin (replicate 31 [set_current_pid 3 demo_three; set_current_pid 2 demo_three])
  ++ [set_current_pid 3 demo_three].

Lemma sched_no_starvation_witness :
  ∃ m', m' ∈ demo_three :: demo_run ∧ sched_next m' = Ret 3.
Proof.
  apply (sched_no_starvation 2 3 demo_three demo_run).
  - done.
  - apply Forall_forall. intros m Hm.
    assert (m_table m = m_table demo_three) as ->.
    { change (In m (demo_three :: demo_run)) in Hm || apply list_elem_of_In in Hm.
      vm_compute in Hm. repeat (destruct Hm as [<-|Hm]; [reflexivity|]). destruct Hm. }
    split; [apply demo_wf; [cbn; lia|reflexivity]|reflexivity].
  - eexists. reflexivity.
  - vm_compute. repeat split.
  - reflexivity.
Defined.

Lemma sched_next_spec_witness :
  pt_wf (m_table demo_three) ∧ ∃ q, sched_next demo_three = Ret q ∧ q = 3.
Proof.
  assert (pt_wf (m_table demo_three)) as H by (apply demo_wf; [cbn; lia|reflexivity]).
  split; [exact H|]. destruct (sched_next_spec demo_three H) as (q & Hq & _).
  exists q. split; [exact Hq|]. vm_compute in Hq. congruence.
Defined.

(** A process that is the only runnable one does not keep the processor: the scan for
    "any Ready process that isn't idle" leaves out the slot of the current process, so the
    decision goes to idle although the current process is ready. *)
Theorem sched_next_skips_current :
  sched_next (demo_machine 1 [demo_proc 1 Ready; demo_proc 2 Ready]) = Ret 2.
Proof. reflexivity. Qed.
