(* ===== verification/Signal.v ===== *)
(** * Signals (src/kernel_rust/src/signal.rs)

    Dispositions, the two delivery points, kill, sigaction and sigreturn, on the
    [machine] of [Process].  A signal frame is 20 words of the user memory of the
    address space in [cr3]; the interrupted registers are a frame of kernel memory. *)

From Stdlib Require Import ZArith Lia.
From stdpp Require Import base numbers list list_numbers option gmap.
From S2P Require Import Prelude Memory Ring VfsTypes Process.

Local Open Scope Z_scope.

Definition SIG_DFL : Z := 0.
Definition SIG_IGN : Z := 1.
Definition SIGINT : Z := 2.
Definition SIGKILL : Z := 9.
Definition SIGUSR1 : Z := 10.
Definition SIGUSR2 : Z := 12.
Definition NUM_SIGS : Z := 32.
Definition SIGFRAME_SIZE : Z := 160.
Definition ESRCH : Z := 3.

Inductive SignalResult := SigNone | Terminated | CustomPending.

(** ** The interrupt frame

    Offsets of the fields of [InterruptFrame] from the saved [RAX]. *)
Definition f_rdi : Z := 48.
Definition f_rip : Z := 136.
Definition f_cs : Z := 144.
Definition f_rflags : Z := 152.
Definition f_user_rsp : Z := 160.

(** [proc.sig_pending &= !(1 << sig)]. *)
Definition clear_sig (sig : Z) (p : Process) : Process :=
  set_sig_pending (and_not (sig_pending p) (bit sig)) p.

(** What the loops over the signals decide about [sig]. *)
Inductive verdict := NotPending | Discard | Fatal | Custom (handler : Z).

Definition judge (p : Process) (sig : Z) : outcome verdict :=
  if Z.land (sig_pending p) (bit sig) =? 0 then Ret NotPending
  else
    action ← index (sigactions p) sig;
    if sa_handler action =? SIG_IGN then Ret Discard
    else if sa_handler action =? SIG_DFL then
      if (sig =? SIGKILL) || (sig =? SIGINT) || (sig =? SIGUSR1) || (sig =? SIGUSR2)
      then Ret Fatal else Ret Discard
    else Ret (Custom (sa_handler action)).

(** [for sig in 1..NUM_SIGS]. *)
Definition all_sigs : list Z := seqZ 1 (NUM_SIGS - 1).

(** ** The check before a system call *)

Fixpoint check_loop (m : machine) (q : Z) (sigs : list Z) (result : SignalResult)
    : outcome (SignalResult * machine) :=
  match sigs with
  | [] => Ret (result, m)
  | sig :: sigs =>
      proc ← process m q;
      v ← judge proc sig;
      match v with
      | NotPending => check_loop m q sigs result
      | Discard => m ← process_mut m q (clear_sig sig); check_loop m q sigs result
      | Fatal =>
          m ← process_mut m q (clear_sig sig);
          m ← mark_zombie m q (128 + sig);
          Ret (Terminated, m)
      | Custom _ => check_loop m q sigs CustomPending
      end
  end.

Definition check_signals_syscall (m : machine) (q : Z) : outcome (SignalResult * machine) :=
  if (q =? 0) || (q =? 2) then Ret (SigNone, m)
  else
    proc ← process m q;
    if sig_pending proc =? 0 then Ret (SigNone, m)
    else if in_signal proc then
      if negb (Z.land (sig_pending proc) (bit SIGKILL) =? 0) then
        m ← process_mut m q (clear_sig SIGKILL);
        m ← mark_zombie m q (128 + SIGKILL);
        Ret (Terminated, m)
      else Ret (SigNone, m)
    else check_loop m q all_sigs SigNone.

(** ** Delivery by the scheduler *)

(** [ws] written to consecutive user words from [a]. *)
Fixpoint ust_words (m : machine) (a : Z) (ws : list Z) : machine :=
  match ws with
  | [] => m
  | w :: ws => ust_words (ust64 m a w) (a + 8) ws
  end.

Definition kld_words (k : mem) (a n : Z) : list Z := (λ i, ld64 k (a + 8 * i)) <$> seqZ 0 n.

(** The 20 words saved for [sigreturn]. *)
Definition sigframe_words (m : machine) (krsp sig pending : Z) : list Z :=
  let k := m_kmem m in
  kld_words k krsp 15 ++
  [ld64 k (krsp + f_rflags); ld64 k (krsp + f_user_rsp); ld64 k (krsp + f_rip); sig; pending].

(** The branch of a custom handler: a signal frame below the user stack pointer, and the
    interrupted frame redirected to the handler. *)
Definition deliver_custom (m : machine) (q krsp user_rsp sig handler : Z)
    : outcome (bool * Z * machine) :=
  m ← process_mut m q (clear_sig sig);
  proc ← process m q;
  if user_rsp <? u64 (stack_low proc + SIGFRAME_SIZE) then
    m ← mark_zombie m q (128 + SIGKILL);
    Ret (true, krsp, m)
  else
    let frame_rsp := u64 (user_rsp - SIGFRAME_SIZE) in
    let m := ust_words m frame_rsp (sigframe_words m krsp sig (sig_pending proc)) in
    m ← process_mut m q (set_in_signal true frame_rsp);
    let k := st64 (m_kmem m) (krsp + f_rdi) sig in
    let k := st64 k (krsp + f_rip) handler in
    let k := st64 k (krsp + f_user_rsp) frame_rsp in
    Ret (false, krsp, set_kmem k m).

Fixpoint deliver_loop (m : machine) (q krsp user_rsp : Z) (sigs : list Z)
    : outcome (bool * Z * machine) :=
  match sigs with
  | [] => Ret (false, krsp, m)
  | sig :: sigs =>
      proc ← process m q;
      v ← judge proc sig;
      match v with
      | NotPending => deliver_loop m q krsp user_rsp sigs
      | Discard => m ← process_mut m q (clear_sig sig); deliver_loop m q krsp user_rsp sigs
      | Fatal =>
          m ← process_mut m q (clear_sig sig);
          m ← mark_zombie m q (128 + sig);
          Ret (true, krsp, m)
      | Custom handler => deliver_custom m q krsp user_rsp sig handler
      end
  end.

(** The result: was the process killed, and the kernel stack pointer to resume with. *)
Definition deliver_pending_signals (m : machine) (q krsp : Z) : outcome (bool * Z * machine) :=
  if (q =? 0) || (q =? 2) then Ret (false, krsp, m)
  else
    proc ← process m q;
    if sig_pending proc =? 0 then Ret (false, krsp, m)
    else if in_signal proc then
      if negb (Z.land (sig_pending proc) (bit SIGKILL) =? 0) then
        m ← process_mut m q (clear_sig SIGKILL);
        m ← mark_zombie m q (128 + SIGKILL);
        Ret (true, krsp, m)
      else Ret (false, krsp, m)
    else if negb (Z.land (ld64 (m_kmem m) (krsp + f_cs)) 3 =? 3) then Ret (false, krsp, m)
    else deliver_loop m q krsp (ld64 (m_kmem m) (krsp + f_user_rsp)) all_sigs.

(** ** System calls *)

Definition sys_kill (m : machine) (q sig : Z) : outcome (Z * machine) :=
  if (q =? 0) || (sig =? 0) || (32 <=? sig) then Ret (-22, m)
  else if q =? 2 then Ret (0, m)
  else
    proc ← process m q;
    if bool_decide (state proc = Zombie) then Ret (-3, m)
    else
      m ← process_mut m q (λ p,
        let p := set_sig_pending (Z.lor (sig_pending p) (bit sig)) p in
        if bool_decide (state p = Blocked) then set_state Ready p else p);
      Ret (0, m).

Definition sys_sigaction (m : machine) (signum act oldact : Z) : outcome (Z * machine) :=
  if (signum =? 0) || (32 <=? signum) then Ret (-22, m)
  else if signum =? SIGKILL then Ret (-22, m)
  else
    proc ← process m (CURRENT_PID m);
    old ← index (sigactions proc) signum;
    let m := if negb (oldact =? 0)
             then ust_words m oldact [sa_handler old; sa_mask old; sa_flags old] else m in
    if negb (act =? 0) then
      let new_action := mkSig (uld64 m act) (uld64 m (act + 8)) (uld64 m (act + 16)) in
      l ← store (sigactions proc) signum new_action;
      m ← process_mut m (CURRENT_PID m) (set_sigactions l);
      Ret (0, m)
    else Ret (0, m).

Definition sys_sigreturn (m : machine) : outcome (Z * machine) :=
  proc ← process m (CURRENT_PID m);
  if sigframe_rsp proc =? 0 then Ret (0, m)
  else
    let buf := (λ i, uld64 m (sigframe_rsp proc + 8 * i)) <$> seqZ 0 20 in
    saved_rip ← index buf 17;
    saved_rsp ← index buf 16;
    saved_rflags ← index buf 15;
    saved_mask ← index buf 19;
    let m := set_sigreturn (take 15 buf ++ [saved_rip; saved_rsp; saved_rflags]) 1 m in
    m ← process_mut m (CURRENT_PID m) (λ p, set_sig_pending saved_mask (set_in_signal false 0 p));
    Ret (0, set_should_schedule 1 m).

(** ** Dispositions *)

Definition fatal_by_default (sig : Z) : bool :=
  (sig =? SIGKILL) || (sig =? SIGINT) || (sig =? SIGUSR1) || (sig =? SIGUSR2).

Definition handler_of (p : Process) (sig : Z) : Z :=
  match sigactions p !! Z.to_nat sig with Some a => sa_handler a | None => SIG_DFL end.

Definition verdict_of (p : Process) (sig : Z) : verdict :=
  if negb (Z.testbit (sig_pending p) sig) then NotPending
  else if handler_of p sig =? SIG_IGN then Discard
  else if handler_of p sig =? SIG_DFL then if fatal_by_default sig then Fatal else Discard
  else Custom (handler_of p sig).

(** Signals that the scheduler acts on: fatal ones and those with a handler. *)
Definition acting (p : Process) (sig : Z) : bool :=
  match verdict_of p sig with Fatal | Custom _ => true | _ => false end.

Definition sigs_wf (p : Process) : Prop := length (sigactions p) = 32%nat.

Lemma judge_spec p sig : sigs_wf p → 0 ≤ sig < 32 → judge p sig = Ret (verdict_of p sig).
Proof.
  intros Hp Hs. unfold judge, verdict_of, handler_of. rewrite land_bit_eqb by lia.
  destruct (Z.testbit (sig_pending p) sig); [|done]. cbn [negb].
  destruct (index_in_range (sigactions p) sig) as (a & -> & ->); [rewrite Hp; lia|].
  cbn [mbind outcome_bind]. unfold fatal_by_default. by repeat case_if.
Qed.

(** The bits [a .. b-1]. *)
Definition sig_range (a b : Z) : Z := Z.shiftl (Z.ones (b - a)) a.

Lemma sig_range_spec a b n : 0 ≤ a ≤ b → 0 ≤ n → Z.testbit (sig_range a b) n = (a <=? n) && (n <? b).
Proof.
  intros Hab Hn. unfold sig_range. rewrite Z.shiftl_spec by lia.
  destruct (Z.leb_spec a n); [|by rewrite Z.testbit_neg_r by lia].
  rewrite Z.testbit_ones_nonneg by lia. cbn. zcases; lia || done.
Qed.

Lemma and_not_spec a b n : 0 ≤ n → Z.testbit (and_not a b) n = Z.testbit a n && negb (Z.testbit b n).
Proof. intros. apply Z.ldiff_spec. Qed.

Ltac bits_eq :=
  apply Z.bits_inj'; intros ?n ?Hn;
  rewrite ?and_not_spec, ?sig_range_spec, ?bit_spec by lia.

Lemma sig_range_nil x a : 0 ≤ a → and_not x (sig_range a a) = x.
Proof. intros. bits_eq. zcases; try lia; cbn; by rewrite ?andb_true_r. Qed.

Lemma sig_range_step x a s : 0 ≤ a < s →
  and_not (and_not x (bit a)) (sig_range (a + 1) s) = and_not x (sig_range a s).
Proof.
  intros. bits_eq. destruct (Z.testbit x n); zcases; cbn; try lia; try done.
Qed.

Lemma sig_range_skip x a s : 0 ≤ a < s → Z.testbit x a = false →
  and_not x (sig_range (a + 1) s) = and_not x (sig_range a s).
Proof.
  intros Ha Hx. bits_eq. destruct (decide (n = a)) as [->|]; [by rewrite Hx|].
  zcases; try lia; done.
Qed.

(** Clearing other bits does not change the verdict on a signal. *)
Lemma verdict_of_pending p x s : Z.testbit x s = Z.testbit (sig_pending p) s →
  verdict_of (set_sig_pending x p) s = verdict_of p s.
Proof. intros H. unfold verdict_of. cbn. by rewrite H. Qed.

(** The process with the pending signals [a .. b-1] cleared. *)
Definition clear_range (a b : Z) (p : Process) : Process :=
  set_sig_pending (and_not (sig_pending p) (sig_range a b)) p.

Lemma clear_range_step a s p : 0 ≤ a < s → clear_range (a + 1) s (clear_sig a p) = clear_range a s p.
Proof. intros. unfold clear_range, clear_sig. cbn. by rewrite sig_range_step. Qed.

Lemma clear_range_one a p : 0 ≤ a → clear_range a (a + 1) p = clear_sig a p.
Proof.
  intros. rewrite <- clear_range_step by lia. unfold clear_range, clear_sig. cbn.
  by rewrite sig_range_nil by lia.
Qed.

Lemma clear_range_last a s p : 0 ≤ a ≤ s → clear_sig s (clear_range a s p) = clear_range a (s + 1) p.
Proof.
  intros. unfold clear_range, clear_sig. cbn [sig_pending set_sig_pending].
  assert (and_not (and_not (sig_pending p) (sig_range a s)) (bit s)
          = and_not (sig_pending p) (sig_range a (s + 1))) as ->; [|done].
  bits_eq. destruct (Z.testbit (sig_pending p) n); zcases; cbn; lia || done.
Qed.

Lemma verdict_clear_range p a b s : 0 ≤ a ≤ b → 0 ≤ s → s < a ∨ b ≤ s →
  verdict_of (clear_range a b p) s = verdict_of p s.
Proof.
  intros. apply verdict_of_pending. rewrite and_not_spec, sig_range_spec by lia.
  zcases; try lia; by rewrite ?andb_true_r.
Qed.

(** The outcome [r] of looking at the signals [a .. b-1] of [p]: the lowest acting one is acted
    on after the ones below it have been discarded. *)
Definition delivered (m : machine) (q : Z) (p : Process) (krsp ursp a b : Z)
    (r : outcome (bool * Z * machine)) : Prop :=
  ((∀ s, a ≤ s < b → acting p s = false) ∧ r = Ret (false, krsp, upd m q (clear_range a b))) ∨
  (∃ s, a ≤ s < b ∧ (∀ s', a ≤ s' < s → acting p s' = false) ∧
   ((verdict_of p s = Fatal ∧
     r = (m ← mark_zombie (upd m q (clear_range a (s + 1))) q (128 + s); Ret (true, krsp, m))) ∨
    (∃ h, verdict_of p s = Custom h ∧ r = deliver_custom (upd m q (clear_range a s)) q krsp ursp s h))).

Lemma delivered_skip m m1 q p p1 krsp ursp a b r : a < b → acting p a = false →
  (∀ s, a < s → upd m1 q (clear_range (a + 1) s) = upd m q (clear_range a s)) →
  (∀ s, a < s → verdict_of p1 s = verdict_of p s) →
  delivered m1 q p1 krsp ursp (a + 1) b r → delivered m q p krsp ursp a b r.
Proof.
  intros Hab Ha Hu Hv.
  assert (∀ s' s, (∀ x, a + 1 ≤ x < s → acting p1 x = false) → a ≤ s' < s → acting p s' = false) as Hact.
  { intros s' s Hs Hs'. destruct (decide (s' = a)) as [->|]; [done|].
    unfold acting. rewrite <- Hv by lia. apply Hs. lia. }
  intros [(Hn & ->)|(s & Hs & Hlow & [(Hf & ->)|(h & Hc & ->)])].
  - left. rewrite Hu by lia. eauto.
  - right. exists s. rewrite Hu, <- Hv by lia. split; [lia|]. eauto.
  - right. exists s. rewrite Hu, <- Hv by lia. split; [lia|]. eauto 6.
Qed.

Lemma clear_range_nil m q p a : 0 ≤ a → procs m q = Some p → upd m q (clear_range a a) = m.
Proof.
  intros Ha Hp. apply (upd_id m q _ p Hp). unfold clear_range. rewrite sig_range_nil by lia.
  by destruct p.
Qed.

Lemma verdict_not_pending p s : verdict_of p s = NotPending → Z.testbit (sig_pending p) s = false.
Proof. unfold verdict_of. destruct (Z.testbit (sig_pending p) s); [|done]. cbn. by repeat case_match. Qed.

Lemma deliver_loop_cases q krsp ursp n : ∀ a m p, 1 ≤ a → a + Z.of_nat n ≤ 32 →
  procs m q = Some p → sigs_wf p →
  delivered m q p krsp ursp a (a + Z.of_nat n) (deliver_loop m q krsp ursp (seqZ a (Z.of_nat n))).
Proof.
  induction n as [|n IH]; intros a m p Ha Hn Hp Hwf.
  - left. split; [lia|]. change (Z.of_nat 0) with 0. rewrite Z.add_0_r.
    by rewrite (clear_range_nil m q p) by (done || lia).
  - rewrite seqZ_cons by lia. replace (Z.pred (Z.of_nat (S n))) with (Z.of_nat n) by lia.
    replace (Z.succ a) with (a + 1) by lia. replace (a + Z.of_nat (S n)) with (a + 1 + Z.of_nat n) by lia.
    cbn [deliver_loop]. rewrite (process_ret _ _ _ Hp). cbn [mbind outcome_bind].
    rewrite judge_spec by (done || lia). cbn [mbind outcome_bind].
    destruct (verdict_of p a) as [| | |h] eqn:Hv.
    + apply (delivered_skip m m q p p); [lia|unfold acting; by rewrite Hv| |done|apply IH; done || lia].
      intros s Hs. apply (upd_ext _ _ p); [done|]. unfold clear_range.
      by rewrite sig_range_skip by (lia || by apply verdict_not_pending).
    + rewrite (process_mut_ret _ _ p) by done. cbn [mbind outcome_bind].
      apply (delivered_skip m (upd m q (clear_sig a)) q p (clear_sig a p));
        [lia|unfold acting; by rewrite Hv|..].
      * intros s Hs. rewrite upd_upd by done. apply (upd_ext _ _ p); [done|]. apply clear_range_step. lia.
      * intros s Hs. rewrite <- clear_range_one by lia. apply verdict_clear_range; lia.
      * apply IH; [lia|lia| |done]. rewrite (procs_upd _ _ p) by done. by rewrite Z.eqb_refl.
    + right. exists a. split; [lia|]. split; [lia|]. left. split; [done|].
      rewrite (process_mut_ret _ _ p) by done. cbn [mbind outcome_bind].
      by rewrite (upd_ext _ _ p _ (clear_range a (a + 1)) Hp) by (by rewrite clear_range_one by lia).
    + right. exists a. split; [lia|]. split; [lia|]. right. exists h. split; [done|].
      by rewrite (clear_range_nil m q p) by (done || lia).
Qed.

(** ** The signal frame in user memory *)

Lemma uld_ust_eq m a v : uld64 (ust64 m a v) a = v.
Proof. unfold uld64, ust64. cbn. rewrite lookup_insert_eq. apply ld_st_eq. Qed.

Lemma uld_ust_ne m a b v : a ≠ b → uld64 (ust64 m a v) b = uld64 m b.
Proof. intros. unfold uld64, ust64. cbn. rewrite lookup_insert_eq. by apply ld_st_ne. Qed.

Lemma uld_ust_words_below m a b ws : b < a → uld64 (ust_words m a ws) b = uld64 m b.
Proof.
  revert m a. induction ws as [|w ws IH]; intros m a Hb; [done|]. cbn.
  rewrite IH by lia. by rewrite uld_ust_ne by lia.
Qed.

Lemma uld_ust_words m a ws i w : ws !! i = Some w → uld64 (ust_words m a ws) (a + 8 * Z.of_nat i) = w.
Proof.
  revert m a i. induction ws as [|x ws IH]; intros m a [|i] Hi; cbn in Hi; simplify_eq; cbn [ust_words].
  - rewrite Z.add_0_r, uld_ust_words_below by lia. apply uld_ust_eq.
  - replace (a + 8 * Z.of_nat (S i)) with (a + 8 + 8 * Z.of_nat i) by lia. by apply IH.
Qed.

Lemma ust_words_umem m a ws : ∃ u, ust_words m a ws = set_umem u m.
Proof.
  revert m a. induction ws as [|w ws IH]; intros m a; cbn; [exists (m_umem m); by destruct m|].
  destruct (IH (ust64 m a w) (a + 8)) as [u ->]. by exists u.
Qed.

(** The machine after a handler has been set up for [s]. *)
Definition handler_entered (m : machine) (q krsp s h : Z) (p : Process) : machine :=
  let fr := u64 (ld64 (m_kmem m) (krsp + f_user_rsp) - SIGFRAME_SIZE) in
  let m1 := ust_words (upd m q (clear_range 1 (s + 1))) fr
              (sigframe_words m krsp s (sig_pending (clear_range 1 (s + 1) p))) in
  set_kmem (st64 (st64 (st64 (m_kmem m) (krsp + f_rdi) s) (krsp + f_rip) h) (krsp + f_user_rsp) fr)
    (upd m1 q (set_in_signal true fr)).

Lemma deliver_custom_cases m q krsp s h p : procs m q = Some p → 1 ≤ s →
  deliver_custom (upd m q (clear_range 1 s)) q krsp (ld64 (m_kmem m) (krsp + f_user_rsp)) s h =
  if ld64 (m_kmem m) (krsp + f_user_rsp) <? u64 (stack_low p + SIGFRAME_SIZE)
  then m ← mark_zombie (upd m q (clear_range 1 (s + 1))) q (128 + SIGKILL); Ret (true, krsp, m)
  else Ret (false, krsp, handler_entered m q krsp s h p).
Proof.
  intros Hp Hs. unfold deliver_custom.
  assert (∀ f, (∀ p, pid (f p) = pid p) → procs (upd m q f) q = Some (f p)) as Hu.
  { intros f Hf. rewrite (procs_upd _ _ p) by done. by rewrite Z.eqb_refl. }
  rewrite (process_mut_ret _ _ (clear_range 1 s p)) by (by apply Hu). cbn [mbind outcome_bind].
  rewrite upd_upd by done.
  assert (upd m q (λ p, clear_sig s (clear_range 1 s p)) = upd m q (clear_range 1 (s + 1))) as ->.
  { apply (upd_ext _ _ p); [done|]. apply clear_range_last. lia. }
  rewrite (process_ret _ _ (clear_range 1 (s + 1) p)) by (by apply Hu). cbn [mbind outcome_bind].
  change (stack_low (clear_range 1 (s + 1) p)) with (stack_low p).
  destruct (_ <? _); [done|].
  set (fr := u64 _). set (ws := sigframe_words _ _ _ _).
  destruct (ust_words_umem (upd m q (clear_range 1 (s + 1))) fr ws) as [u Eu].
  rewrite (process_mut_ret _ _ (clear_range 1 (s + 1) p)) by (rewrite Eu; by apply Hu).
  cbn [mbind outcome_bind]. unfold handler_entered. fold fr.
  change (sigframe_words m krsp s (sig_pending (clear_range 1 (s + 1) p))) with ws.
  rewrite Eu. done.
Qed.

(** ** The check before a system call *)

(** [x]: the pending signals of [p] without those of [a .. b-1] that are discarded. *)
Definition without_discarded (p : Process) (a b x : Z) : Prop :=
  ∀ s, 0 ≤ s → Z.testbit x s =
    Z.testbit (sig_pending p) s &&
    negb ((a <=? s) && (s <? b) && match verdict_of p s with Discard => true | _ => false end).

Definition customs (p : Process) (a b : Z) : Prop := ∃ s h, a ≤ s < b ∧ verdict_of p s = Custom h.

Definition checked (m : machine) (q : Z) (p : Process) (a b : Z) (result : SignalResult)
    (r : outcome (SignalResult * machine)) : Prop :=
  (∃ s x, a ≤ s < b ∧ verdict_of p s = Fatal ∧ (∀ s', a ≤ s' < s → verdict_of p s' ≠ Fatal) ∧
     without_discarded p a s x ∧
     r = (m ← mark_zombie (upd m q (λ p, clear_sig s (set_sig_pending x p))) q (128 + s);
          Ret (Terminated, m))) ∨
  ((∀ s, a ≤ s < b → verdict_of p s ≠ Fatal) ∧
   ∃ x res, without_discarded p a b x ∧ r = Ret (res, upd m q (set_sig_pending x)) ∧
     (customs p a b ∧ res = CustomPending ∨ ¬ customs p a b ∧ res = result)).

Definition discards (p : Process) (s : Z) : bool :=
  match verdict_of p s with Discard => true | _ => false end.

Section skip.
Context (m m1 : machine) (q a b : Z) (p p1 : Process) (res res1 : SignalResult).
Context (Hab : 0 ≤ a < b) (Hnf : verdict_of p a ≠ Fatal).
Context (Hv : ∀ s, s ≠ a → 0 ≤ s → verdict_of p1 s = verdict_of p s).
Context (Hp : ∀ s, 0 ≤ s →
  Z.testbit (sig_pending p1) s = Z.testbit (sig_pending p) s && negb ((a =? s) && discards p s)).
Context (Hu : ∀ x g, upd m1 q (λ p, g (set_sig_pending x p)) = upd m q (λ p, g (set_sig_pending x p))).
Context (Hres : (∀ h, verdict_of p a ≠ Custom h) ∧ res1 = res ∨
                (∃ h, verdict_of p a = Custom h) ∧ res1 = CustomPending).

Lemma without_discarded_skip c x : a < c → without_discarded p1 (a + 1) c x → without_discarded p a c x.
Proof using Hab Hp Hv.
  intros Hc Hx s Hs. rewrite (Hx s Hs), Hp by done. fold (discards p1 s) (discards p s).
  destruct (decide (s = a)) as [->|Hne].
  - rewrite Z.eqb_refl. destruct (discards p a); zcases; try lia; by rewrite ?andb_true_r.
  - assert (discards p1 s = discards p s) as -> by (unfold discards; by rewrite Hv).
    destruct (Z.testbit (sig_pending p) s), (discards p s); zcases; cbn; lia || done.
Qed.

Lemma customs_skip : customs p a b ↔ customs p1 (a + 1) b ∨ ∃ h, verdict_of p a = Custom h.
Proof using Hab Hv.
  split.
  - intros (s & h & Hs & He). destruct (decide (s = a)) as [->|]; [eauto|].
    left. exists s, h. rewrite Hv by lia. split; [lia|done].
  - intros [(s & h & Hs & He)|[h He]]; [|exists a, h; split; [lia|done]].
    exists s, h. rewrite Hv in He by lia. split; [lia|done].
Qed.

Lemma checked_skip r : checked m1 q p1 (a + 1) b res1 r → checked m q p a b res r.
Proof using All.
  assert (∀ s c, (∀ s', a + 1 ≤ s' < c → verdict_of p1 s' ≠ Fatal) → a ≤ s < c → verdict_of p s ≠ Fatal) as Hlow.
  { intros s c Hs Hsc. destruct (decide (s = a)) as [->|]; [done|]. rewrite <- Hv by lia. apply Hs. lia. }
  intros [(s & x & Hs & Hf & Hl & Hx & ->)|(Hn & x & re & Hx & -> & Hc)].
  - left. exists s, x. rewrite <- Hv by lia. split_and!; [lia|lia|done|eauto| |].
    + apply without_discarded_skip; [lia|done].
    + by rewrite (Hu x (clear_sig s)).
  - right. split; [eauto|]. exists x, re. split_and!; [apply without_discarded_skip; [lia|done]| |].
    + pose proof (Hu x id) as Hi. cbn in Hi. f_equal. by f_equal.
    + rewrite customs_skip. destruct Hres as [(Hnc & ->)|(Hcu & ->)]; [|naive_solver].
      assert (¬ ∃ h, verdict_of p a = Custom h) by naive_solver. naive_solver.
Qed.
End skip.

Lemma without_discarded_nil p a : without_discarded p a a (sig_pending p).
Proof. intros s Hs. zcases; try lia; cbn; by rewrite ?andb_true_r. Qed.

Lemma check_loop_cases q n : ∀ a m p result, 1 ≤ a → a + Z.of_nat n ≤ 32 →
  procs m q = Some p → sigs_wf p →
  checked m q p a (a + Z.of_nat n) result (check_loop m q (seqZ a (Z.of_nat n)) result).
Proof.
  induction n as [|n IH]; intros a m p result Ha Hn Hp Hwf.
  - right. split; [lia|]. change (Z.of_nat 0) with 0. rewrite Z.add_0_r. exists (sig_pending p), result.
    split; [apply without_discarded_nil|]. split; [|right; split; [intros (? & ? & ? & ?); lia|done]].
    rewrite (upd_id _ _ _ p); [done|done|by destruct p].
  - rewrite seqZ_cons by lia. replace (Z.pred (Z.of_nat (S n))) with (Z.of_nat n) by lia.
    replace (Z.succ a) with (a + 1) by lia. replace (a + Z.of_nat (S n)) with (a + 1 + Z.of_nat n) by lia.
    cbn [check_loop]. rewrite (process_ret _ _ _ Hp). cbn [mbind outcome_bind].
    rewrite judge_spec by (done || lia). cbn [mbind outcome_bind].
    assert (∀ s, negb ((a =? s) && discards p s) = true ∨ discards p a = true ∧ s = a) as Hdis.
    { intros s. destruct (Z.eqb_spec a s) as [<-|]; [|by left]. destruct (discards p a); auto. }
    assert (verdict_of p a ≠ Discard → ∀ s, negb ((a =? s) && discards p s) = true) as Hnd.
    { intros Hvd s. destruct (Hdis s) as [|(Hd & ->)]; [done|]. unfold discards in Hd.
      by destruct (verdict_of p a). }
    destruct (verdict_of p a) as [| | |h] eqn:Hv.
    + apply (checked_skip m m q a _ p p result result); try done; try lia; try congruence; auto.
      * intros s Hs. by rewrite Hnd, andb_true_r.
      * left. split; [congruence|done].
      * apply IH; done || lia.
    + rewrite (process_mut_ret _ _ p) by done. cbn [mbind outcome_bind].
      apply (checked_skip m (upd m q (clear_sig a)) q a _ p (clear_sig a p) result result); try lia; try congruence.
      * intros s Hne Hs. apply verdict_of_pending. rewrite and_not_bit_spec by lia.
        destruct (Z.eqb_spec a s); [lia|done].
      * intros s Hs. unfold clear_sig. cbn [sig_pending set_sig_pending]. rewrite and_not_bit_spec by lia.
        unfold discards. destruct (Z.eqb_spec a s) as [<-|]; [rewrite Hv|]; cbn; by rewrite ?andb_false_r, ?andb_true_r.
      * intros x g. rewrite upd_upd by done. done.
      * left. split; [congruence|done].
      * apply IH; [lia|lia| |done]. rewrite (procs_upd _ _ p) by done. by rewrite Z.eqb_refl.
    + left. exists a, (sig_pending p). split_and!; [lia|lia|done|lia|apply without_discarded_nil|].
      rewrite (process_mut_ret _ _ p) by done. cbn [mbind outcome_bind].
      by rewrite (upd_ext _ _ p _ (λ p0, clear_sig a (set_sig_pending (sig_pending p) p0)) Hp).
    + apply (checked_skip m m q a _ p p result CustomPending); try done; try lia; try congruence; auto.
      * intros s Hs. by rewrite Hnd, andb_true_r.
      * right. eauto.
      * apply IH; done || lia.
Qed.

(** ** What delivery does *)

Lemma deliver_user_mode m q krsp p : q ≠ 0 → q ≠ 2 → procs m q = Some p → sig_pending p ≠ 0 →
  in_signal p = false → Z.land (ld64 (m_kmem m) (krsp + f_cs)) 3 = 3 → sigs_wf p →
  delivered m q p krsp (ld64 (m_kmem m) (krsp + f_user_rsp)) 1 32 (deliver_pending_signals m q krsp).
Proof.
  intros H0 H2 Hp Hpend Hin Hcs Hwf. unfold deliver_pending_signals.
  rewrite (proj2 (Z.eqb_neq q 0) H0), (proj2 (Z.eqb_neq q 2) H2). cbn [orb].
  rewrite (process_ret _ _ _ Hp). cbn [mbind outcome_bind].
  rewrite (proj2 (Z.eqb_neq _ 0) Hpend), Hin, Hcs. cbn [negb Z.eqb Pos.eqb].
  apply (deliver_loop_cases q krsp _ 31 1 m p); done || lia.
Qed.

Lemma zombie_ret m q f p code : (∀ p, pid (f p) = pid p) → procs m q = Some p →
  ∃ m', mark_zombie (upd m q f) q code = Ret m' ∧ zombified (upd m q f) q code (f p) m'.
Proof. intros Hf Hp. apply mark_zombie_cases. rewrite (procs_upd _ _ p) by done. by rewrite Z.eqb_refl. Qed.

(** C19: Delivery to a process about to return to user mode.  The lowest pending signal that is
    neither ignored nor harmless by default decides: signals below it are discarded, it is
    cleared, and it either terminates the process with exit code [128 + s] (waking a parent
    that waits for it), or redirects the interrupted frame to the process's handler with the
    interrupted registers saved in 160 bytes below the user stack pointer, or, when those do
    not fit above [stack_low], terminates the process as SIGKILL does.  If no pending signal
    acts, all of them are discarded and the frame is unchanged.  Delivery never panics and
    never moves the kernel stack pointer. *)
Theorem signal_delivery_spec (m : machine) (q krsp : Z) (p : Process)
  (Hq : q ≠ 0 ∧ q ≠ 2) (Hp : procs m q = Some p) (Hpend : sig_pending p ≠ 0)
  (Hin : in_signal p = false) (Hcs : Z.land (ld64 (m_kmem m) (krsp + f_cs)) 3 = 3) (Hwf : sigs_wf p) :
  ∃ killed m', deliver_pending_signals m q krsp = Ret (killed, krsp, m') ∧
    ((∀ s, 1 ≤ s < 32 → acting p s = false) ∧ killed = false ∧ m' = upd m q (clear_range 1 32) ∨
     ∃ s, 1 ≤ s < 32 ∧ (∀ s', 1 ≤ s' < s → acting p s' = false) ∧
       let m1 := upd m q (clear_range 1 (s + 1)) in
       let p1 := clear_range 1 (s + 1) p in
       (verdict_of p s = Fatal ∧ killed = true ∧ zombified m1 q (128 + s) p1 m' ∨
        ∃ h, verdict_of p s = Custom h ∧
          if ld64 (m_kmem m) (krsp + f_user_rsp) <? u64 (stack_low p + SIGFRAME_SIZE)
          then killed = true ∧ zombified m1 q (128 + SIGKILL) p1 m'
          else killed = false ∧ m' = handler_entered m q krsp s h p)).
Proof.
  destruct Hq as [H0 H2].
  destruct (deliver_user_mode m q krsp p H0 H2 Hp Hpend Hin Hcs Hwf)
    as [(Hn & ->)|(s & Hs & Hlow & [(Hf & ->)|(h & Hc & ->)])].
  - eauto 8.
  - destruct (zombie_ret m q (clear_range 1 (s + 1)) p (128 + s)) as (m' & -> & Hz); [done|done|].
    eexists _, _. split; [done|]. right. exists s. split_and!; [lia|lia|done|]. left. done.
  - rewrite (deliver_custom_cases _ _ _ _ _ p) by (done || lia).
    destruct (_ <? _).
    + destruct (zombie_ret m q (clear_range 1 (s + 1)) p (128 + SIGKILL)) as (m' & -> & Hz); [done|done|].
      eexists _, _. split; [done|]. right. exists s. split_and!; [lia|lia|done|]. right. exists h.
      done.
    + eexists _, _. split; [done|]. right. exists s. split_and!; [lia|lia|done|]. right. exists h.
      done.
Qed.

(** What [sigreturn] makes of the 20 words at the signal frame. *)
Lemma sigreturn_cases m p ws : procs m (CURRENT_PID m) = Some p → sigframe_rsp p ≠ 0 →
  length ws = 20%nat →
  (∀ i w, ws !! i = Some w → uld64 m (sigframe_rsp p + 8 * Z.of_nat i) = w) →
  sys_sigreturn m = Ret (0, set_should_schedule 1 (set_sigreturn
    (take 15 ws ++ [byte_at ws 17; byte_at ws 16; byte_at ws 15]) 1
    (upd m (CURRENT_PID m) (λ p, set_sig_pending (byte_at ws 19) (set_in_signal false 0 p))))).
Proof.
  intros Hp Hf Hlen Hw. unfold sys_sigreturn. rewrite (process_ret _ _ _ Hp). cbn [mbind outcome_bind].
  rewrite (proj2 (Z.eqb_neq _ 0) Hf).
  assert ((λ i, uld64 m (sigframe_rsp p + 8 * i)) <$> seqZ 0 20 = ws) as ->.
  { apply list_eq_same_length with 20%nat; [done|by rewrite length_fmap, length_seqZ|].
    intros i x y Hi Hx Hy. rewrite list_lookup_fmap, lookup_seqZ_lt in Hx by lia. cbn in Hx.
    injection Hx as <-. rewrite Z.add_0_l. by apply Hw. }
  assert (∀ i, 0 ≤ i < 20 → index ws i = Ret (byte_at ws i)) as Hi.
  { intros i Hi. unfold byte_at. destruct (index_in_range ws i) as (w & -> & ->); [lia|done]. }
  rewrite !Hi by lia. cbn [mbind outcome_bind].
  by rewrite (process_mut_ret _ _ p) by done.
Qed.

Lemma sigframe_length m krsp s x : length (sigframe_words m krsp s x) = 20%nat.
Proof. reflexivity. Qed.

(** C13: A handler returns to the interrupted computation.  Suppose delivery set up a handler
    for signal [s] on the frame at [krsp], and the handler then runs: any state [m2] in which
    the same process is current, its signal context is still the one delivery recorded, and
    the handler has left the 20 words of the signal frame alone.  Then [sys_sigreturn] fills
    the frame the assembly restores from with the 15 general registers, [RIP], [RSP] and
    [RFLAGS] of the interrupted frame, ends the signal context, and asks for rescheduling. *)
Theorem signal_roundtrip (m m2 : machine) (q krsp s h : Z) (p p2 : Process)
  (Hp : procs m q = Some p) (Hs : 1 ≤ s < 32)
  (Hspace : u64 (ld64 (m_kmem m) (krsp + f_user_rsp) - SIGFRAME_SIZE) ≠ 0)
  (Hcur : CURRENT_PID m2 = q) (Hp2 : procs m2 q = Some p2)
  (Hctx : sigframe_rsp <$> procs (handler_entered m q krsp s h p) q = Some (sigframe_rsp p2))
  (Hframe : ∀ i, 0 ≤ i < 20 →
     uld64 m2 (sigframe_rsp p2 + 8 * i) = uld64 (handler_entered m q krsp s h p) (sigframe_rsp p2 + 8 * i)) :
  ∃ m3, sys_sigreturn m2 = Ret (0, m3) ∧
    sigreturn_frame m3 = kld_words (m_kmem m) krsp 15 ++
      [ld64 (m_kmem m) (krsp + f_rip); ld64 (m_kmem m) (krsp + f_user_rsp); ld64 (m_kmem m) (krsp + f_rflags)] ∧
    sigreturn_pending m3 = 1 ∧ should_schedule m3 = 1 ∧ m_kmem m3 = m_kmem m2 ∧
    procs m3 q = Some (set_sig_pending (sig_pending (clear_range 1 (s + 1) p)) (set_in_signal false 0 p2)).
Proof.
  set (ws := sigframe_words m krsp s (sig_pending (clear_range 1 (s + 1) p))).
  set (fr := u64 (ld64 (m_kmem m) (krsp + f_user_rsp) - SIGFRAME_SIZE)) in *.
  destruct (ust_words_umem (upd m q (clear_range 1 (s + 1))) fr ws) as [u Eu].
  assert (sigframe_rsp p2 = fr) as Hfr.
  { unfold handler_entered in Hctx. fold fr ws in Hctx. rewrite Eu in Hctx. cbn [m_table set_kmem] in Hctx.
    rewrite (procs_upd _ _ (clear_range 1 (s + 1) p)), Z.eqb_refl in Hctx; [by injection Hctx|done|].
    cbn [m_table set_umem]. rewrite (procs_upd _ _ p) by done. by rewrite Z.eqb_refl. }
  rewrite Hfr in Hframe. subst q.
  eexists. split; [eapply (sigreturn_cases m2 p2 ws)|]; [done|by rewrite Hfr|done|..].
  - intros i w Hi. rewrite Hfr. apply lookup_lt_Some in Hi as Hlt.
    rewrite Hframe by (change (length ws) with 20%nat in Hlt; lia).
    etransitivity; [|by apply (uld_ust_words (upd m (CURRENT_PID m2) (clear_range 1 (s + 1))) fr ws i w)].
    unfold handler_entered. fold fr ws. rewrite Eu. reflexivity.
  - split_and!; [done..|]. cbn [m_table set_should_schedule set_sigreturn].
    rewrite (procs_upd _ _ p2) by done. by rewrite Z.eqb_refl.
Qed.

(** ** SIGKILL *)

(** SIGKILL has its default disposition. *)
Definition kill_default (p : Process) : Prop := sigs_wf p ∧ handler_of p SIGKILL = SIG_DFL.

Lemma kill_verdict p : kill_default p → Z.testbit (sig_pending p) SIGKILL = true →
  verdict_of p SIGKILL = Fatal.
Proof. intros [_ Hh] Hb. unfold verdict_of. by rewrite Hb, Hh. Qed.

Lemma pending_nonzero x s : Z.testbit x s = true → (x =? 0) = false.
Proof. intros H. apply Z.eqb_neq. intros ->. by rewrite Z.bits_0 in H. Qed.

(** [sigaction] on every branch. *)
Lemma sigaction_cases m signum act oldact p : procs m (CURRENT_PID m) = Some p → sigs_wf p →
  0 ≤ signum →
  if (signum =? 0) || (32 <=? signum) || (signum =? SIGKILL)
  then sys_sigaction m signum act oldact = Ret (-22, m)
  else ∃ old u, sigactions p !! Z.to_nat signum = Some old ∧
    (if oldact =? 0 then set_umem u m = m
     else set_umem u m = ust_words m oldact [sa_handler old; sa_mask old; sa_flags old]) ∧
    sys_sigaction m signum act oldact = Ret (0,
      if act =? 0 then set_umem u m
      else upd (set_umem u m) (CURRENT_PID m) (set_sigactions
        (<[Z.to_nat signum := mkSig (uld64 (set_umem u m) act) (uld64 (set_umem u m) (act + 8))
             (uld64 (set_umem u m) (act + 16))]> (sigactions p)))).
Proof.
  intros Hp Hwf Hn. unfold sys_sigaction.
  destruct ((signum =? 0) || (32 <=? signum)) eqn:E1; [done|].
  apply orb_false_iff in E1 as [E1 E2]. bool_arith.
  destruct (signum =? SIGKILL) eqn:E3; [done|]. cbn [orb].
  rewrite (process_ret _ _ _ Hp). cbn [mbind outcome_bind].
  destruct (index_in_range (sigactions p) signum) as (old & Hold & ->); [rewrite Hwf; lia|].
  cbn [mbind outcome_bind].
  destruct (ust_words_umem m oldact [sa_handler old; sa_mask old; sa_flags old]) as [u Eu].
  exists old, (if oldact =? 0 then m_umem m else u).
  destruct (oldact =? 0); cbn [negb]; [|rewrite Eu]; (split; [done|]);
    (split; [by destruct m|]); destruct (act =? 0); cbn [negb]; try (by destruct m);
    rewrite store_in_range by (rewrite Hwf; lia); cbn [mbind outcome_bind];
    (rewrite (process_mut_ret _ _ p) by done); by destruct m.
Qed.

(** SIGKILL cannot be caught, ignored or blocked.  A [sigaction] call keeps SIGKILL's
    default disposition whatever its arguments; and while it has that disposition, a system
    call made with SIGKILL pending does not go ahead: the check finds a fatal signal and
    terminates the process, in a handler or not, its exit code being 128 plus the lowest
    fatal signal pending (SIGKILL itself inside a handler). *)
Theorem sigkill_is_fatal (m : machine) (q signum act oldact : Z) (p : Process)
  (Hp : procs m q = Some p) (Hcur : CURRENT_PID m = q) (Hk : kill_default p) (Hn : 0 ≤ signum)
  (Hq : q ≠ 0 ∧ q ≠ 2) :
  (∃ r m' p', sys_sigaction m signum act oldact = Ret (r, m') ∧ procs m' q = Some p' ∧ kill_default p') ∧
  (Z.testbit (sig_pending p) SIGKILL = true →
   ∃ m' s p1, check_signals_syscall m q = Ret (Terminated, m') ∧ verdict_of p s = Fatal ∧
     (in_signal p = true → s = SIGKILL) ∧
     procs m' q = Some p1 ∧ state p1 = Zombie ∧ exit_code p1 = 128 + s).
Proof.
  pose proof Hk as [Hwf Hh]. split.
  - subst q. pose proof (sigaction_cases m signum act oldact p Hp Hwf Hn) as Hc.
    destruct ((signum =? 0) || (32 <=? signum) || (signum =? SIGKILL)) eqn:E; [rewrite Hc; eauto 6|].
    apply orb_false_iff in E as [_ E]. bool_arith.
    destruct Hc as (old & u & _ & _ & ->). eexists _, _, (if act =? 0 then p else _).
    split; [done|]. destruct (act =? 0); [done|].
    split; [rewrite (procs_upd _ _ p) by done; by rewrite Z.eqb_refl|].
    split; [unfold sigs_wf; cbn; by rewrite length_insert|].
    unfold handler_of. cbn. rewrite list_lookup_insert_ne by (unfold SIGKILL in *; lia). done.
  - intros Hb. destruct Hq as [H0 H2]. unfold check_signals_syscall.
    rewrite (proj2 (Z.eqb_neq q 0) H0), (proj2 (Z.eqb_neq q 2) H2). cbn [orb].
    rewrite (process_ret _ _ _ Hp). cbn [mbind outcome_bind]. rewrite (pending_nonzero _ _ Hb).
    destruct (in_signal p) eqn:Hin.
    + rewrite land_bit_eqb, Hb by done. cbn [negb]. rewrite (process_mut_ret _ _ p) by done.
      cbn [mbind outcome_bind].
      destruct (zombie_ret m q (clear_sig SIGKILL) p (128 + SIGKILL)) as (m' & -> & Hz & _); [done|done|].
      eexists _, SIGKILL, _. split; [done|]. split; [by apply kill_verdict|]. split; [done|].
      rewrite Hz, Z.eqb_refl. done.
    + destruct (check_loop_cases q 31 1 m p SigNone) as [(s & x & Hs & Hf & _ & _ & Hr)|(Hnf & _)];
        [lia|lia|done|done|..].
      * destruct (zombie_ret m q (λ p, clear_sig s (set_sig_pending x p)) p (128 + s)) as (m' & Hm & Hz & _);
          [done|done|].
        change (seqZ 1 (Z.of_nat 31)) with all_sigs in Hr. rewrite Hr, Hm. cbn [mbind outcome_bind].
        eexists _, s, _. split; [done|]. split; [done|]. split; [done|].
        rewrite Hz, Z.eqb_refl. done.
      * exfalso. apply (Hnf SIGKILL); [done|by apply kill_verdict].
Qed.

(** ** Examples *)

(** A process with a handler at 0x400000 for SIGUSR1, SIGINT ignored, and SIGINT and SIGUSR1
    pending; its interrupted frame is at 65536. *)
Definition sig_proc : Process :=
  set_sig_pending (bit SIGUSR1 + bit SIGINT) (set_sigactions
    (<[2%nat := mkSig SIG_IGN 0 0]> (<[10%nat := mkSig 4194304 0 0]> (replicate 32 SigAction_default)))
    (demo_proc 1 Ready)).

Definition sig_machine (p : Process) : machine :=
  set_kmem (st64 (st64 (st64 (st64 ∅ (65536 + f_cs) 35) (65536 + f_user_rsp) 8192) (65536 + f_rip) 5000)
              (65536 + 0) 77) (demo_machine 1 [p]).

Lemma signal_delivery_spec_witness :
  ∃ m', deliver_pending_signals (sig_machine sig_proc) 1 65536 = Ret (false, 65536, m') ∧
    ld64 (m_kmem m') (65536 + f_rip) = 4194304 ∧ uld64 m' (8192 - 160 + 8 * 17) = 5000.
Proof.
  destruct (signal_delivery_spec (sig_machine sig_proc) 1 65536 sig_proc) as (killed & m' & Hd & _);
    [lia|reflexivity|discriminate|reflexivity|reflexivity|reflexivity|].
  assert (deliver_pending_signals (sig_machine sig_proc) 1 65536
    = Ret (false, 65536, handler_entered (sig_machine sig_proc) 1 65536 10 4194304 sig_proc)) as He
    by (vm_compute; reflexivity).
  rewrite He in Hd. injection Hd as _ Hm. exists m'. rewrite He, Hm. split; [reflexivity|].
  rewrite <- Hm. split; vm_compute; reflexivity.
Defined.

Definition sig_entered : machine := handler_entered (sig_machine sig_proc) 1 65536 10 4194304 sig_proc.

Lemma signal_roundtrip_witness :
  ∃ m3, sys_sigreturn sig_entered = Ret (0, m3) ∧ index (sigreturn_frame m3) 15 = Ret 5000 ∧
    index (sigreturn_frame m3) 0 = Ret 77.
Proof.
  destruct (signal_roundtrip (sig_machine sig_proc) sig_entered 1 65536 10 4194304 sig_proc
    (set_in_signal true (8192 - 160) (clear_range 1 11 sig_proc))) as (m3 & Hr & Hf & _).
  - reflexivity.
  - lia.
  - vm_compute. discriminate.
  - reflexivity.
  - vm_compute. reflexivity.
  - vm_compute. reflexivity.
  - intros i Hi. reflexivity.
  - exists m3. split; [exact Hr|]. rewrite Hf. split; vm_compute; reflexivity.
Defined.

Lemma sigkill_is_fatal_witness :
  ∃ m' s p1, check_signals_syscall (demo_machine 1 [set_sig_pending (bit SIGKILL) (demo_proc 1 Running)]) 1
    = Ret (Terminated, m') ∧ exit_code p1 = 128 + s.
Proof.
  destruct (sigkill_is_fatal (demo_machine 1 [set_sig_pending (bit SIGKILL) (demo_proc 1 Running)]) 1 9 0 0
    (set_sig_pending (bit SIGKILL) (demo_proc 1 Running))) as [_ Hk];
    [reflexivity|reflexivity|split; reflexivity|lia|lia|].
  destruct Hk as (m' & s & p1 & Hc & _ & _ & _ & _ & He); [reflexivity|]. exists m', s, p1. auto.
Defined.

(** A signal sent while a handler runs is lost: [sys_sigreturn] overwrites the pending set
    with the copy saved at delivery, so SIGUSR2 sent to the process in its handler is no
    longer pending after it returns, although it was never delivered. *)
Theorem sigreturn_loses_signal :
  (r ← sys_kill sig_entered 1 SIGUSR2;
   s ← sys_sigreturn r.2;
   p1 ← process r.2 1;
   p2 ← process s.2 1;
   Ret (Z.testbit (sig_pending p1) SIGUSR2, Z.testbit (sig_pending p2) SIGUSR2))
  = Ret (true, false).
Proof. vm_compute. reflexivity. Qed.

(** [kill] with a pid that no process has stops the kernel. *)
Theorem sys_kill_missing_pid_panics : sys_kill (sig_machine sig_proc) 99 SIGINT = Panic.
Proof. vm_compute. reflexivity. Qed.
