(* ===== verification/Serial.v ===== *)
(** * The serial port (src/kernel_rust/src/serial.rs)

    COM1 as the kernel sees it: the bytes the receiver has ready, the bytes sent so
    far, and, for each byte to send, how many times the line status register is
    polled before it reports the transmitter empty (none recorded: it is at once). *)

From Stdlib Require Import ZArith Lia.
From stdpp Require Import base numbers list list_numbers option.
From S2P Require Import Prelude.

Local Open Scope Z_scope.

Record serial := mkSerial { rx : list Z; tx : list Z; thr_waits : list Z }.

Definition PUTCHAR_TIMEOUT : Z := 1000000.

(** The wait for the transmitter: false when [PUTCHAR_TIMEOUT] polls found it busy. *)
Definition wait_thr (s : serial) : bool * serial :=
  (default 0 (head (thr_waits s)) <? PUTCHAR_TIMEOUT, mkSerial (rx s) (tx s) (tail (thr_waits s))).

Definition send (s : serial) (b : Z) : serial := mkSerial (rx s) (tx s ++ [b]) (thr_waits s).

(** A character is a byte here; a newline is followed by a carriage return. *)
Definition putchar (s : serial) (c : Z) : serial :=
  let (ok, s) := wait_thr s in
  if negb ok then s
  else
    let s := send s c in
    if c =? 10 then
      let (ok, s) := wait_thr s in
      if negb ok then s else send s 13
    else s.

(** [serial_write], [write_str] and [writestrs]: one [putchar] per byte. *)
Fixpoint serial_write (s : serial) (buf : list Z) : serial :=
  match buf with
  | [] => s
  | b :: buf => serial_write (putchar s b) buf
  end.

Definition getchar (s : serial) : option Z * serial :=
  match rx s with
  | [] => (None, s)
  | b :: rest => (Some b, mkSerial rest (tx s) (thr_waits s))
  end.

(** [read] into a buffer of [len] bytes. *)
Fixpoint serial_read (s : serial) (len : nat) : list Z * serial :=
  match len with
  | O => ([], s)
  | S len =>
      match getchar s with
      | (Some b, s) => let (l, s) := serial_read s len in (b :: l, s)
      | (None, s) => ([], s)
      end
  end.

Lemma serial_read_spec s len :
  serial_read s len = (take len (rx s), mkSerial (drop len (rx s)) (tx s) (thr_waits s)).
Proof.
  revert s. induction len as [|len IH]; intros [r t w]; [done|]. cbn [serial_read].
  unfold getchar. cbn. destruct r as [|b r]; [done|]. by rewrite IH.
Qed.

(** Sending does not touch the receiver. *)
Lemma serial_write_rx s buf : rx (serial_write s buf) = rx s.
Proof.
  revert s. induction buf as [|b buf IH]; intros s; [done|]. cbn. rewrite IH. unfold putchar.
  unfold wait_thr. by repeat case_match; simplify_eq.
Qed.

(** What a terminal on the other end is sent for [buf]. *)
Definition on_wire (buf : list Z) : list Z :=
  mjoin ((λ b, if b =? 10 then [10; 13] else [b]) <$> buf).

Lemma serial_write_tx s buf : Forall (λ w, w < PUTCHAR_TIMEOUT) (thr_waits s) →
  tx (serial_write s buf) = tx s ++ on_wire buf.
Proof.
  revert s. induction buf as [|b buf IH]; intros s Hw; cbn [serial_write]; [cbn; by rewrite app_nil_r|].
  assert (∀ s, Forall (λ w, w < PUTCHAR_TIMEOUT) (thr_waits s) →
    wait_thr s = (true, mkSerial (rx s) (tx s) (tail (thr_waits s))) ∧
    Forall (λ w, w < PUTCHAR_TIMEOUT) (tail (thr_waits s))) as Hok.
  { intros [r t [|w ws]] Hf; cbn [thr_waits rx tx] in *; [done|]. inversion Hf as [|? ? Hw1 Hf2]; subst.
    unfold wait_thr. cbn. rewrite (proj2 (Z.ltb_lt w PUTCHAR_TIMEOUT) Hw1); done. }
  destruct (Hok s Hw) as (E & Hw1). unfold putchar. rewrite E. cbn [negb].
  destruct (b =? 10) eqn:E10.
  - destruct (Hok (send (mkSerial (rx s) (tx s) (tail (thr_waits s))) b) Hw1) as (E2 & Hw2).
    rewrite E2. cbn [negb]. rewrite IH by done. cbn [send tx].
    unfold on_wire. cbn [fmap list_fmap mjoin list_join]. rewrite E10.
    rewrite <- !app_assoc. apply Z.eqb_eq in E10 as ->. done.
  - rewrite IH by done. cbn [send tx]. rewrite <- app_assoc. unfold on_wire.
    cbn [fmap list_fmap mjoin list_join]. by rewrite E10.
Qed.
