(* ===== verification/Tty.v ===== *)
(** * The terminal (src/kernel_rust/src/vfs/tty.rs)

    The line discipline between keyboard and serial input and the readers of the
    terminal: partial line, ring of completed bytes, echo, Ctrl+C, and the one process
    recorded as waiting.  [io] is the state the terminal code works on. *)

From Stdlib Require Import ZArith Lia.
From stdpp Require Import base numbers list list_numbers option gmap.
From S2P Require Import Prelude Memory Ring VfsTypes Keyboard Process Signal Serial.

Local Open Scope Z_scope.

Module Tty.

Definition BUF_SIZE : Z := 4096.
Definition LINE_MAX : Z := 255.

Record Tty := mkTty {
  buf : list Z;
  head : Z;
  tail : Z;
  line : list Z;
  line_len : Z;
  echo : bool;
  canonical : bool;
  waiting_pid : Z
}.

Definition new : Tty :=
  mkTty (replicate (Z.to_nat BUF_SIZE) 0) 0 0 (replicate (Z.to_nat LINE_MAX) 0) 0 true true 0.

Definition set_ring (b : list Z) (h : Z) (t : Tty) : Tty :=
  mkTty b h (tail t) (line t) (line_len t) (echo t) (canonical t) (waiting_pid t).
Definition set_tail (x : Z) (t : Tty) : Tty :=
  mkTty (buf t) (head t) x (line t) (line_len t) (echo t) (canonical t) (waiting_pid t).
Definition set_line (l : list Z) (n : Z) (t : Tty) : Tty :=
  mkTty (buf t) (head t) (tail t) l n (echo t) (canonical t) (waiting_pid t).
Definition set_waiting (w : Z) (t : Tty) : Tty :=
  mkTty (buf t) (head t) (tail t) (line t) (line_len t) (echo t) (canonical t) w.

Record io := mkIo { kb : Keyboard.kbd; com1 : serial; tty : Tty; mach : machine }.

Definition set_tty (t : Tty) (s : io) : io := mkIo (kb s) (com1 s) t (mach s).
Definition set_com1 (c : serial) (s : io) : io := mkIo (kb s) c (tty s) (mach s).
Definition set_mach (m : machine) (s : io) : io := mkIo (kb s) (com1 s) (tty s) m.

(** ** The completed-byte ring *)

(** Wake the process recorded as waiting. *)
Definition wake_reader (s : io) : outcome io :=
  if negb (waiting_pid (tty s) =? 0) then
    let q := waiting_pid (tty s) in
    let s := set_tty (set_waiting 0 (tty s)) s in
    match process_mut_if (mach s) q with
    | Some proc =>
        if bool_decide (state proc = Blocked) then
          m ← process_mut (mach s) q (set_state Ready);
          Ret (set_mach (set_should_schedule 1 m) s)
        else Ret s
    | None => Ret s
    end
  else Ret s.

Definition push_byte (s : io) (b : Z) : outcome io :=
  let t := tty s in
  let next := (head t + 1) mod BUF_SIZE in
  s ← (if negb (next =? tail t) then
         l ← store (buf t) (head t) b;
         Ret (set_tty (set_ring l next t) s)
       else Ret s);
  wake_reader s.

(** ** The line discipline *)

Definition echo_bytes (s : io) (l : list Z) : io :=
  if echo (tty s) then set_com1 (serial_write (com1 s) l) s else s.

Definition handle_backspace (s : io) : outcome io :=
  let t := tty s in
  if 0 <? line_len t
  then Ret (echo_bytes (set_tty (set_line (line t) (line_len t - 1) t) s) [8; 32; 8])
  else Ret s.

(** Terminal SIGINT for the recorded reader, if it is still blocked. *)
Definition interrupt_reader (s : io) (reader_pid : Z) : outcome io :=
  if negb (reader_pid =? 0) then
    match process_mut_if (mach s) reader_pid with
    | Some proc =>
        if bool_decide (state proc = Blocked) then
          m ← process_mut (mach s) reader_pid
                (λ p, set_sig_pending (Z.lor (sig_pending p) (bit SIGINT)) p);
          Ret (set_mach m s)
        else Ret (set_tty (set_waiting 0 (tty s)) s)
    | None => Ret (set_tty (set_waiting 0 (tty s)) s)
    end
  else Ret s.

Definition handle_ctrlc (s : io) : outcome io :=
  let reader_pid := waiting_pid (tty s) in
  let s := set_tty (set_line (line (tty s)) 0 (tty s)) s in
  let s := echo_bytes s [94; 67; 13; 10] in
  s ← interrupt_reader s reader_pid;
  push_byte s 10.

(** [for i in i..i+n]: push the bytes of the line. *)
Fixpoint push_line (s : io) (i : Z) (n : nat) : outcome io :=
  match n with
  | O => Ret s
  | S n =>
      b ← index (line (tty s)) i;
      s ← push_byte s b;
      push_line s (i + 1) n
  end.

Definition handle_enter (s : io) : outcome io :=
  let s := echo_bytes s [13; 10] in
  s ← push_line s 0 (Z.to_nat (line_len (tty s)));
  s ← push_byte s 10;
  Ret (set_tty (set_line (line (tty s)) 0 (tty s)) s).

Definition append_line (s : io) (c : Z) : outcome io :=
  let t := tty s in
  l ← store (line t) (line_len t) c;
  Ret (set_tty (set_line l (line_len t + 1) t) s).

Definition handle_tab (s : io) : outcome io :=
  let s := echo_bytes s [9] in
  if line_len (tty s) <? LINE_MAX then append_line s 9 else Ret s.

Definition handle_char (s : io) (c : Z) : outcome io :=
  if line_len (tty s) <? LINE_MAX then
    s ← append_line s c;
    Ret (echo_bytes s [c])
  else Ret s.

Definition process_byte (s : io) (c : Z) : outcome io :=
  if negb (canonical (tty s)) then push_byte s c
  else if (c =? 8) || (c =? 127) then handle_backspace s
  else if c =? 3 then handle_ctrlc s
  else if (c =? 13) || (c =? 10) then handle_enter s
  else if c =? 9 then handle_tab s
  else if c =? 27 then Ret s
  else if 32 <=? c then handle_char s c
  else Ret s.

Fixpoint process_bytes (s : io) (l : list Z) : outcome io :=
  match l with
  | [] => Ret s
  | c :: l => s ← process_byte s c; process_bytes s l
  end.

(** Keyboard first, then the serial receiver, 64 bytes of each at most. *)
Definition process_input (s : io) : outcome io :=
  '(scratch, k) ← Keyboard.read (kb s) 64 (Z.to_nat Keyboard.BUF_SIZE);
  s ← process_bytes (mkIo k (com1 s) (tty s) (mach s)) scratch;
  let '(scratch, c) := serial_read (com1 s) 64 in
  process_bytes (set_com1 c s) scratch.

Definition poll_input (s : io) : outcome io := process_input s.

(** ** Reading and writing *)

(** The copy loop of [read], [n] bytes at most. *)
Fixpoint read_ring (t : Tty) (n : nat) : outcome (list Z * Tty) :=
  match n with
  | O => Ret ([], t)
  | S n =>
      if negb (tail t =? head t) then
        b ← index (buf t) (tail t);
        '(l, t) ← read_ring (set_tail ((tail t + 1) mod BUF_SIZE) t) n;
        Ret (b :: l, t)
      else Ret ([], t)
  end.

(** [read] into a buffer of [len] bytes: the bytes read; none and the caller blocked when
    there is nothing. *)
Definition read (s : io) (len : Z) : outcome (list Z * io) :=
  s ← process_input s;
  if negb (tail (tty s) =? head (tty s)) then
    '(l, t) ← read_ring (tty s) (Z.to_nat len);
    Ret (l, set_tty t s)
  else
    let q := CURRENT_PID (mach s) in
    if negb (q =? 0) then
      m ← process_mut (mach s) q (set_state Blocked);
      Ret ([], set_mach (set_should_schedule 1 m) (set_tty (set_waiting q (tty s)) s))
    else Ret ([], s).

Definition write (s : io) (l : list Z) : Z * io :=
  (Z.of_nat (length l), set_com1 (serial_write (com1 s) l) s).

(** [tty_ioctl]: the status and the bytes written at [arg]. *)
Definition tty_ioctl (request arg : Z) : Z * list Z :=
  if arg =? 0 then (- EFAULT, [])
  else if u32 request =? 21523 then (0, [25; 0; 80; 0; 0; 0; 0; 0])
  else if u32 request =? 21505 then
    (0, replicate 8 0 ++ [253; 11; 0; 0] ++ [203; 3; 0; 0] ++ replicate 44 0)
  else if u32 request =? 21506 then (0, [])
  else (- ENOTTY, []).

(** ** The line discipline as a specification

    Completed bytes in order, at most 4095 of them, and the line being typed. *)

Record ldisc := mkLd { l_ready : list Z; l_line : list Z }.

Definition enq (r : list Z) (b : Z) : list Z := if (Z.of_nat (length r) =? 4095) then r else r ++ [b].

Definition type_char (d : ldisc) (c : Z) : ldisc :=
  if Z.of_nat (length (l_line d)) <? 255 then mkLd (l_ready d) (l_line d ++ [c]) else d.

Definition ld_step (canon : bool) (d : ldisc) (c : Z) : ldisc :=
  if negb canon then mkLd (enq (l_ready d) c) (l_line d)
  else if (c =? 8) || (c =? 127) then mkLd (l_ready d) (removelast (l_line d))
  else if c =? 3 then mkLd (enq (l_ready d) 10) []
  else if (c =? 13) || (c =? 10) then mkLd (fold_left enq (l_line d ++ [10]) (l_ready d)) []
  else if c =? 9 then type_char d c
  else if c =? 27 then d
  else if 32 <=? c then type_char d c
  else d.

(** Bytes that publish input to readers. *)
Definition completes (canon : bool) (c : Z) : bool :=
  negb canon || (c =? 3) || (c =? 13) || (c =? 10).

(** ** The terminal's state *)

Definition ready (t : Tty) : list Z := contents BUF_SIZE (buf t) (head t) (tail t).
Definition partial (t : Tty) : list Z := take (Z.to_nat (line_len t)) (line t).
Definition abs (t : Tty) : ldisc := mkLd (ready t) (partial t).

Definition tty_shape (t : Tty) : Prop :=
  ring_wf BUF_SIZE (buf t) (head t) (tail t) ∧ length (line t) = 255%nat ∧ 0 ≤ line_len t ≤ 255.

(** A reader is recorded as waiting only while there is nothing to read. *)
Definition tty_wf (t : Tty) : Prop := tty_shape t ∧ (waiting_pid t ≠ 0 → head t = tail t).

Definition blocked (m : machine) (q : Z) : bool :=
  match procs m q with Some p => bool_decide (state p = Blocked) | None => false end.

Definition woken (m : machine) (q : Z) : machine :=
  if negb (q =? 0) && blocked m q then set_should_schedule 1 (upd m q (set_state Ready)) else m.

Definition interrupted (m : machine) (q : Z) : machine :=
  if negb (q =? 0) && blocked m q
  then upd m q (λ p, set_sig_pending (Z.lor (sig_pending p) (bit SIGINT)) p) else m.

Lemma wake_reader_spec s :
  wake_reader s = Ret (mkIo (kb s) (com1 s) (set_waiting 0 (tty s)) (woken (mach s) (waiting_pid (tty s)))).
Proof.
  unfold wake_reader, woken, blocked, process_mut_if.
  destruct (Z.eqb_spec (waiting_pid (tty s)) 0) as [E|E]; cbn [negb andb].
  { destruct s as [k c [] m]. cbn in *. by subst. }
  cbn [mach set_tty]. destruct (procs (mach s) (waiting_pid (tty s))) as [p|] eqn:Hp; [|done].
  destruct (bool_decide (state p = Blocked)); [|done].
  by rewrite (process_mut_ret _ _ p).
Qed.

Lemma woken_0 m : woken m 0 = m.
Proof. done. Qed.

(** What every step keeps. *)
Definition same_mode (s s' : io) : Prop :=
  kb s' = kb s ∧ rx (com1 s') = rx (com1 s) ∧
  canonical (tty s') = canonical (tty s) ∧ echo (tty s') = echo (tty s).

Lemma push_byte_spec s b : tty_shape (tty s) →
  ∃ s', push_byte s b = Ret s' ∧ tty_wf (tty s') ∧ same_mode s s' ∧
    abs (tty s') = mkLd (enq (ready (tty s)) b) (partial (tty s)) ∧ line (tty s') = line (tty s) ∧
    waiting_pid (tty s') = 0 ∧ mach s' = woken (mach s) (waiting_pid (tty s)).
Proof.
  intros (Hr & Hl & Hn). unfold push_byte.
  pose proof (ring_full BUF_SIZE ltac:(done) _ _ _ Hr) as Hf. fold (ready (tty s)) in Hf.
  destruct (Z.eqb_spec ((head (tty s) + 1) mod BUF_SIZE) (tail (tty s))) as [E|E]; cbn [negb].
  - cbn [mbind outcome_bind]. rewrite wake_reader_spec. eexists. split; [done|].
    split; [done|]. split; [done|]. split; [|done].
    unfold abs, enq. rewrite (proj2 (Z.eqb_eq _ 4095)); [done|]. apply Hf in E. unfold BUF_SIZE in E. lia.
  - pose proof Hr as (Hlen & Hh & _). rewrite store_in_range by lia. cbn [mbind outcome_bind].
    rewrite wake_reader_spec. eexists. split; [done|].
    split; [split; [split; [by apply ring_wf_push|done]|done]|]. split; [done|]. split; [|done].
    unfold abs, enq, ready. cbn [tty buf head tail set_tty set_ring set_waiting].
    rewrite (contents_push BUF_SIZE) by done. fold (ready (tty s)).
    rewrite (proj2 (Z.eqb_neq _ 4095)); [done|].
    intros Hc. apply E, Hf. unfold BUF_SIZE. lia.
Qed.

Lemma same_mode_trans s1 s2 s3 : same_mode s1 s2 → same_mode s2 s3 → same_mode s1 s3.
Proof. intros (? & ? & ? & ?) (? & ? & ? & ?). split_and!; congruence. Qed.

Lemma abs_ready t d : abs t = d → ready t = l_ready d.
Proof. by intros <-. Qed.
Lemma abs_partial t d : abs t = d → partial t = l_line d.
Proof. by intros <-. Qed.

(** Pushing the line from index [i] on; the first byte wakes the reader. *)
Lemma push_line_spec n : ∀ s i w, tty_wf (tty s) → 0 ≤ i → i + Z.of_nat n ≤ 255 →
  waiting_pid (tty s) = w →
  ∃ s', push_line s i n = Ret s' ∧ tty_wf (tty s') ∧ same_mode s s' ∧ line (tty s') = line (tty s) ∧
    abs (tty s') = mkLd (fold_left enq (take n (drop (Z.to_nat i) (line (tty s)))) (ready (tty s)))
                     (partial (tty s)) ∧
    mach s' = (if decide (n = 0%nat) then mach s else woken (mach s) w) ∧
    waiting_pid (tty s') = (if decide (n = 0%nat) then w else 0).
Proof.
  induction n as [|n IH]; intros s i w Hwf Hi Hn Hw; cbn [push_line]; [by exists s|].
  pose proof Hwf as ((_ & Hl & _) & _).
  destruct (index_in_range (line (tty s)) i) as (b & Hb & ->); [lia|]. cbn [mbind outcome_bind].
  destruct (push_byte_spec s b) as (s1 & -> & Hwf1 & Hm1 & Ha1 & Hl1 & Hw1 & Hmach1); [apply Hwf|].
  cbn [mbind outcome_bind].
  destruct (IH s1 (i + 1) 0) as (s2 & -> & Hwf2 & Hm2 & Hl2 & Ha2 & Hmach2 & Hw2); [done|lia|lia|done|].
  exists s2. split; [done|]. split; [done|]. split; [by eapply same_mode_trans|]. split; [congruence|].
  rewrite Ha2, (abs_ready _ _ Ha1), (abs_partial _ _ Ha1), Hl1. cbn [l_ready l_line].
  rewrite (drop_S _ b (Z.to_nat i)) by done. replace (Z.to_nat (i + 1)) with (S (Z.to_nat i)) by lia.
  split; [done|]. rewrite Hmach2, Hmach1, Hw, Hw2, woken_0. by case_decide.
Qed.

(** Effect of a byte on the processes. *)
Definition reader_effect (canon : bool) (c : Z) (m : machine) (w : Z) : machine :=
  if completes canon c then woken (if canon && (c =? 3) then interrupted m w else m) w else m.

(** The contract of one input byte. *)
Definition byte_spec (s : io) (c : Z) (r : outcome io) : Prop :=
  ∃ s', r = Ret s' ∧ tty_wf (tty s') ∧ same_mode s s' ∧
    abs (tty s') = ld_step (canonical (tty s)) (abs (tty s)) c ∧
    mach s' = reader_effect (canonical (tty s)) c (mach s) (waiting_pid (tty s)) ∧
    waiting_pid (tty s') = (if completes (canonical (tty s)) c then 0 else waiting_pid (tty s)).

Lemma echo_mode s l : same_mode s (echo_bytes s l) ∧ tty (echo_bytes s l) = tty s ∧
  mach (echo_bytes s l) = mach s.
Proof.
  unfold echo_bytes, same_mode. destruct (echo (tty s)) eqn:E; [|done].
  cbn. by rewrite serial_write_rx.
Qed.

Lemma partial_length t : tty_shape t → Z.of_nat (length (partial t)) = line_len t.
Proof. intros (_ & Hl & Hn). unfold partial. rewrite length_take, Hl. lia. Qed.

Lemma take_removelast (l : list Z) n : (n < length l)%nat → removelast (take (S n) l) = take n l.
Proof.
  revert n. induction l as [|x l IH]; intros n Hn; cbn in Hn; [lia|].
  destruct n as [|n]; [by destruct l|]. specialize (IH n ltac:(lia)).
  destruct l as [|y l]; [cbn in *; lia|]. cbn [take] in *. cbn [removelast] in *. by rewrite IH.
Qed.

Lemma handle_backspace_spec s c : tty_wf (tty s) → canonical (tty s) = true → c = 8 ∨ c = 127 →
  byte_spec s c (handle_backspace s).
Proof.
  intros Hwf Hc Hbs. pose proof Hwf as ((Hr & Hl & Hn) & Hw). unfold handle_backspace, byte_spec.
  assert (ld_step (canonical (tty s)) (abs (tty s)) c = mkLd (ready (tty s)) (removelast (partial (tty s)))
    ∧ completes (canonical (tty s)) c = false) as [-> Hco]
    by (rewrite Hc; by destruct Hbs as [-> | ->]).
  unfold reader_effect. rewrite Hco.
  destruct (Z.ltb_spec 0 (line_len (tty s))).
  - set (s1 := set_tty _ s). destruct (echo_mode s1 [8; 32; 8]) as (Hm & Ht & Hma).
    eexists. split; [done|]. rewrite Ht, Hma. split; [split; [split_and!; cbn; try done; lia|done]|].
    split; [done|]. split; [|done]. unfold abs. f_equal. unfold partial. cbn [tty set_tty line line_len set_line s1].
    replace (Z.to_nat (line_len (tty s))) with (S (Z.to_nat (line_len (tty s) - 1))) by lia.
    rewrite take_removelast; [done|lia].
  - exists s. split; [done|]. split; [done|]. split; [done|]. split; [|done].
    unfold abs. f_equal. unfold partial. by replace (Z.to_nat (line_len (tty s))) with 0%nat by lia.
Qed.

Lemma append_line_spec s c : tty_wf (tty s) → line_len (tty s) < 255 →
  ∃ t', append_line s c = Ret (set_tty t' s) ∧ tty_wf t' ∧
    abs t' = mkLd (ready (tty s)) (partial (tty s) ++ [c]) ∧ canonical t' = canonical (tty s) ∧
    echo t' = echo (tty s) ∧ waiting_pid t' = waiting_pid (tty s).
Proof.
  intros ((Hr & Hl & Hn) & Hw) Hlt. unfold append_line. rewrite store_in_range by lia.
  eexists. split; [done|]. split; [|split; [|done]].
  - split; [|done]. split_and!; cbn [line line_len set_line]; [done|by rewrite length_insert|lia|lia].
  - unfold abs. f_equal. unfold partial. cbn [line line_len set_line].
    replace (Z.to_nat (line_len (tty s) + 1)) with (S (Z.to_nat (line_len (tty s)))) by lia.
    rewrite (take_S_r _ _ c) by (apply list_lookup_insert_eq; lia).
    by rewrite take_insert_ge by lia.
Qed.

(** Bytes that only extend the line; [r] stores it, with or without an echo. *)
Lemma type_spec s s1 c : tty_wf (tty s) → canonical (tty s) = true → completes true c = false →
  ld_step true (abs (tty s)) c = type_char (abs (tty s)) c →
  same_mode s s1 → tty s1 = tty s → mach s1 = mach s →
  ∀ (post : io → io), (∀ x, same_mode x (post x) ∧ tty (post x) = tty x ∧ mach (post x) = mach x) →
  byte_spec s c (if line_len (tty s1) <? LINE_MAX then (x ← append_line s1 c; Ret (post x)) else Ret s1).
Proof.
  intros Hwf Hc Hco Hld Hm Ht Hma post Hpost. unfold byte_spec, reader_effect. rewrite Hc, Hco, Hld.
  unfold type_char. cbn [abs l_line l_ready]. rewrite partial_length by apply Hwf. rewrite Ht.
  change LINE_MAX with 255. destruct (Z.ltb_spec (line_len (tty s)) 255).
  - destruct (append_line_spec s1 c) as (t' & -> & Hwf' & Ha & Hca & He & Hw); [by rewrite Ht|by rewrite Ht|].
    cbn [mbind outcome_bind]. destruct (Hpost (set_tty t' s1)) as (Hm2 & Ht2 & Hma2).
    eexists. split; [done|]. rewrite Ht2, Hma2. split; [done|].
    split; [eapply same_mode_trans; [exact Hm|]; eapply same_mode_trans; [|exact Hm2];
      by split_and!|].
    rewrite Ht in *. split_and!; try done; by rewrite <- Hma.
  - exists s1. rewrite Ht. auto 10.
Qed.

Lemma bind_ret {A} (x : outcome A) : (a ← x; Ret a) = x.
Proof. by destruct x. Qed.

Lemma handle_tab_spec s : tty_wf (tty s) → canonical (tty s) = true → byte_spec s 9 (handle_tab s).
Proof.
  intros Hwf Hc. destruct (echo_mode s [9]) as (Hm & Ht & Hma). unfold handle_tab.
  rewrite <- (bind_ret (append_line _ _)). by apply (type_spec s _ 9 Hwf Hc eq_refl eq_refl Hm Ht Hma id).
Qed.

Lemma handle_char_spec s c : tty_wf (tty s) → canonical (tty s) = true → 32 ≤ c → c ≠ 127 →
  byte_spec s c (handle_char s c).
Proof.
  intros Hwf Hc H32 H127. unfold handle_char.
  apply (type_spec s s c Hwf Hc); [| |done..|].
  - unfold completes. zcases; lia || done.
  - unfold ld_step. zcases; lia || done.
  - intros x. apply echo_mode.
Qed.

Lemma interrupt_reader_spec s : tty_shape (tty s) →
  ∃ s', interrupt_reader s (waiting_pid (tty s)) = Ret s' ∧ same_mode s s' ∧ tty_shape (tty s') ∧
    abs (tty s') = abs (tty s) ∧ line (tty s') = line (tty s) ∧
    woken (mach s') (waiting_pid (tty s')) = woken (interrupted (mach s) (waiting_pid (tty s))) (waiting_pid (tty s)).
Proof.
  intros Hsh. unfold interrupt_reader, interrupted, blocked, process_mut_if.
  destruct (Z.eqb_spec (waiting_pid (tty s)) 0) as [E|E]; cbn [negb andb].
  { exists s. rewrite E. done. }
  destruct (procs (mach s) (waiting_pid (tty s))) as [p|] eqn:Hp.
  - destruct (bool_decide (state p = Blocked)) eqn:Hb.
    + rewrite (process_mut_ret _ _ p) by done. cbn [mbind outcome_bind]. by eexists.
    + eexists. split; [done|]. split; [done|]. split; [done|]. split; [done|]. split; [done|].
      unfold woken, blocked. cbn [mach set_tty]. by rewrite Hp, Hb, andb_false_r.
  - eexists. split; [done|]. split; [done|]. split; [done|]. split; [done|]. split; [done|].
    unfold woken, blocked. cbn [mach set_tty]. by rewrite Hp, andb_false_r.
Qed.

Lemma handle_ctrlc_spec s : tty_wf (tty s) → canonical (tty s) = true → byte_spec s 3 (handle_ctrlc s).
Proof.
  intros ((Hr & Hl & Hn) & Hw) Hc. unfold handle_ctrlc, byte_spec. rewrite Hc.
  change (completes true 3) with true. cbn [reader_effect completes].
  set (s1 := set_tty (set_line (line (tty s)) 0 (tty s)) s).
  destruct (echo_mode s1 [94; 67; 13; 10]) as (Hm & Ht & Hma).
  set (s2 := echo_bytes s1 _) in *.
  assert (waiting_pid (tty s) = waiting_pid (tty s2)) as -> by (by rewrite Ht).
  assert (mach s = mach s2) as -> by (by rewrite Hma).
  destruct (interrupt_reader_spec s2) as (s3 & -> & Hm3 & Hsh3 & Ha3 & Hl3 & Hwk);
    [rewrite Ht; split_and!; cbn; try done; lia|]. cbn [mbind outcome_bind].
  destruct (push_byte_spec s3 10 Hsh3) as (s4 & -> & Hwf4 & Hm4 & Ha4 & Hl4 & Hw4 & Hma4).
  exists s4. split; [done|]. split; [done|].
  split; [apply (same_mode_trans s s1); [done|]; eapply same_mode_trans; [exact Hm|];
          eapply same_mode_trans; [exact Hm3|exact Hm4]|].
  split; [|split; [by rewrite Hma4, Hwk|done]].
  rewrite Ha4, (abs_ready _ _ Ha3), (abs_partial _ _ Ha3), Ht. done.
Qed.

Lemma handle_enter_spec s c : tty_wf (tty s) → canonical (tty s) = true → c = 13 ∨ c = 10 →
  byte_spec s c (handle_enter s).
Proof.
  intros Hwf Hc Hcr. unfold handle_enter, byte_spec.
  assert (ld_step (canonical (tty s)) (abs (tty s)) c
    = mkLd (fold_left enq (partial (tty s) ++ [10]) (ready (tty s))) [] ∧
    completes (canonical (tty s)) c = true ∧ (canonical (tty s) && (c =? 3)) = false) as (-> & Hco & H3)
    by (rewrite Hc; by destruct Hcr as [-> | ->]).
  unfold reader_effect. rewrite Hco, H3.
  destruct (echo_mode s [13; 10]) as (Hm & Ht & Hma). set (s1 := echo_bytes s _) in *.
  pose proof Hwf as ((Hr & Hl & Hn) & Hw).
  destruct (push_line_spec (Z.to_nat (line_len (tty s1))) s1 0 (waiting_pid (tty s)))
    as (s2 & -> & Hwf2 & Hm2 & Hl2 & Ha2 & Hma2 & Hw2); [by rewrite Ht|lia|rewrite Ht; lia|by rewrite Ht|].
  cbn [mbind outcome_bind].
  destruct (push_byte_spec s2 10) as (s3 & -> & Hwf3 & Hm3 & Ha3 & Hl3 & Hw3 & Hma3); [apply Hwf2|].
  cbn [mbind outcome_bind]. eexists. split; [done|].
  pose proof Hwf3 as ((Hr3 & Hln3 & _) & _).
  split; [split; [split_and!; cbn; try done; lia|done]|].
  split; [eapply same_mode_trans; [exact Hm|]; eapply same_mode_trans; [exact Hm2|exact Hm3]|].
  split; [|split; [|done]].
  - unfold abs. f_equal. change (ready (set_line _ 0 (tty s3))) with (ready (tty s3)).
    etransitivity; [apply (abs_ready _ _ Ha3)|]. rewrite (abs_ready _ _ Ha2), Ht. cbn [l_ready].
    rewrite fold_left_app. done.
  - cbn [mach set_tty]. rewrite Hma3, Hma2, Hw2, Hma, Ht. clear. case_decide; [done|apply woken_0].
Qed.

Lemma process_byte_spec s c : tty_wf (tty s) → byte_spec s c (process_byte s c).
Proof.
  intros Hwf. unfold process_byte. destruct (canonical (tty s)) eqn:Hc; cbn [negb].
  2:{ destruct (push_byte_spec s c) as (s' & -> & Hwf' & Hm & Ha & Hl & Hw & Hma); [apply Hwf|].
      exists s'. unfold reader_effect. by rewrite Hc. }
  assert (∀ r, r = Ret s → completes true c = false → ld_step true (abs (tty s)) c = abs (tty s) →
    byte_spec s c r) as Hskip.
  { intros r -> Hco Hld. exists s. unfold reader_effect. by rewrite Hc, Hco, Hld. }
  destruct ((c =? 8) || (c =? 127)) eqn:E1.
  { apply handle_backspace_spec; [done|done|]. apply orb_true_iff in E1 as [|]; bool_arith; auto. }
  destruct (Z.eqb_spec c 3) as [->|E2]; [by apply handle_ctrlc_spec|].
  destruct ((c =? 13) || (c =? 10)) eqn:E3.
  { apply handle_enter_spec; [done|done|]. apply orb_true_iff in E3 as [|]; bool_arith; auto. }
  destruct (Z.eqb_spec c 9) as [->|E4]; [by apply handle_tab_spec|].
  apply orb_false_iff in E1 as [E1 E1']. apply orb_false_iff in E3 as [E3 E3']. bool_arith.
  assert (completes true c = false) as Hco by (unfold completes; zcases; lia || done).
  destruct (Z.eqb_spec c 27) as [->|E5]; [by apply Hskip|].
  destruct (Z.leb_spec 32 c); [by apply handle_char_spec|].
  apply Hskip; [done|done|]. unfold ld_step. zcases; lia || done.
Qed.

(** ** Sequences of bytes *)

Lemma process_bytes_spec l : ∀ s, tty_wf (tty s) →
  ∃ s', process_bytes s l = Ret s' ∧ tty_wf (tty s') ∧ same_mode s s' ∧
    abs (tty s') = fold_left (ld_step (canonical (tty s))) l (abs (tty s)) ∧
    (waiting_pid (tty s') = waiting_pid (tty s) ∧ mach s' = mach s ∨
     existsb (completes (canonical (tty s))) l = true ∧ waiting_pid (tty s') = 0 ∧
     ∃ c, completes (canonical (tty s)) c = true ∧
       mach s' = reader_effect (canonical (tty s)) c (mach s) (waiting_pid (tty s))) ∧
    (existsb (completes (canonical (tty s))) l = true → waiting_pid (tty s') = 0).
Proof.
  induction l as [|c l IH]; intros s Hwf; cbn [process_bytes].
  { exists s. split; [done|]. split; [done|]. split; [done|]. split; [done|]. split; [by left|done]. }
  destruct (process_byte_spec s c Hwf) as (s1 & -> & Hwf1 & Hm1 & Ha1 & Hma1 & Hw1).
  cbn [mbind outcome_bind].
  destruct (IH s1 Hwf1) as (s2 & -> & Hwf2 & Hm2 & Ha2 & Hma2 & Hw2).
  exists s2. split; [done|]. split; [done|]. split; [by eapply same_mode_trans|].
  pose proof Hm1 as (_ & _ & Hc & _). rewrite Hc in *. cbn [fold_left existsb]. rewrite <- Ha1.
  split; [done|]. unfold reader_effect in Hma1.
  destruct (completes (canonical (tty s)) c) eqn:Hco; cbn [orb].
  - rewrite Hw1 in *.
    assert (waiting_pid (tty s2) = 0) as E0 by (destruct Hma2 as [[-> _]|(_ & -> & _)]; done).
    split; [|done]. right. split; [done|]. split; [done|]. exists c. split; [done|].
    unfold reader_effect. rewrite Hco, <- Hma1.
    destruct Hma2 as [[_ ->]|(_ & _ & c' & Hc' & ->)]; [done|].
    unfold reader_effect. rewrite Hc'. by destruct (canonical (tty s) && (c' =? 3)).
  - rewrite Hw1, Hma1 in *. split; [done|done].
Qed.

(** The bytes one round of polling takes in. *)
Definition polled (s : io) : list Z := take 64 (Keyboard.queue (kb s)) ++ take 64 (rx (com1 s)).

Lemma process_bytes_app l1 l2 s : process_bytes s (l1 ++ l2) = (s ← process_bytes s l1; process_bytes s l2).
Proof.
  revert s. induction l1 as [|c l1 IH]; intros s; [done|]. cbn. destruct (process_byte s c); try done.
  apply IH.
Qed.

Lemma woken_evolves m w : evolves m (woken m w).
Proof.
  unfold woken, blocked. destruct (negb (w =? 0)); [|apply evolves_refl].
  destruct (procs m w) as [p|] eqn:Hp; [|apply evolves_refl]. cbn.
  case_bool_decide; [|apply evolves_refl].
  assert (evolves m (upd m w (set_state Ready))) as [] by (apply (evolves_upd m w p); auto; done).
  by split.
Qed.

Lemma interrupted_evolves m w : evolves m (interrupted m w).
Proof.
  unfold interrupted, blocked. destruct (negb (w =? 0)); [|apply evolves_refl].
  destruct (procs m w) as [p|] eqn:Hp; [|apply evolves_refl]. cbn.
  case_bool_decide; [|apply evolves_refl]. apply (evolves_upd m w p); auto; done.
Qed.

Lemma reader_effect_evolves canon c m w : evolves m (reader_effect canon c m w).
Proof.
  unfold reader_effect. destruct (completes canon c); [|apply evolves_refl].
  destruct (canon && (c =? 3)); [|apply woken_evolves].
  eapply evolves_trans; [apply interrupted_evolves|apply woken_evolves].
Qed.

Lemma same_mode_com1 s c : rx c = rx (com1 s) → same_mode s (set_com1 c s).
Proof. by intros. Qed.

(** One round of polling. *)
Lemma process_input_spec s : tty_wf (tty s) → Keyboard.kbd_wf (kb s) →
  ∃ s', process_input s = Ret s' ∧ tty_wf (tty s') ∧ Keyboard.kbd_wf (kb s') ∧
    Keyboard.queue (kb s') = drop 64 (Keyboard.queue (kb s)) ∧ rx (com1 s') = drop 64 (rx (com1 s)) ∧
    abs (tty s') = fold_left (ld_step (canonical (tty s))) (polled s) (abs (tty s)) ∧
    canonical (tty s') = canonical (tty s) ∧ evolves (mach s) (mach s').
Proof.
  intros Hwf Hk. unfold process_input.
  destruct (Keyboard.read_spec (kb s) 64 (Z.to_nat Keyboard.BUF_SIZE) Hk) as (k' & -> & Hk' & Hq & _); [done| |].
  { pose proof (Keyboard.queue_bound (kb s) Hk). change (Z.to_nat Keyboard.BUF_SIZE) with 256%nat. lia. }
  cbn [mbind outcome_bind]. change (Z.to_nat 64) with 64%nat.
  set (s1 := mkIo k' (com1 s) (tty s) (mach s)).
  destruct (process_bytes_spec (take 64 (Keyboard.queue (kb s))) s1 Hwf)
    as (s2 & -> & Hwf2 & (Hkb2 & Hrx2 & Hc2 & _) & Ha2 & Hma2 & _).
  cbn [mbind outcome_bind]. rewrite serial_read_spec.
  destruct (process_bytes_spec (take 64 (rx (com1 s2))) (set_com1 (mkSerial (drop 64 (rx (com1 s2))) (tx (com1 s2)) (thr_waits (com1 s2))) s2) Hwf2)
    as (s3 & -> & Hwf3 & (Hkb3 & Hrx3 & Hc3 & _) & Ha3 & Hma3 & _).
  exists s3. split; [done|]. split; [done|]. rewrite Hkb3. cbn [kb set_com1]. rewrite Hkb2.
  split; [done|]. split; [done|]. rewrite Hrx3. cbn [com1 set_com1 rx]. rewrite Hrx2.
  split; [done|]. split; [|split].
  - rewrite Ha3. cbn [tty set_com1]. rewrite Ha2, Hc2. unfold polled. by rewrite fold_left_app, Hrx2.
  - by rewrite Hc3.
  - apply (evolves_trans _ (mach s2)).
    + destruct Hma2 as [[_ E]|(_ & _ & c & _ & E)]; rewrite E; [apply evolves_refl|apply reader_effect_evolves].
    + destruct Hma3 as [[_ E]|(_ & _ & c & _ & E)]; rewrite E; [apply evolves_refl|apply reader_effect_evolves].
Qed.

Lemma read_ring_spec n : ∀ t, tty_wf t →
  ∃ t', read_ring t n = Ret (take n (ready t), t') ∧ tty_wf t' ∧
    abs t' = mkLd (drop n (ready t)) (partial t) ∧ canonical t' = canonical t ∧
    waiting_pid t' = waiting_pid t.
Proof.
  induction n as [|n IH]; intros t Hwf; cbn [read_ring]; [by exists t|].
  pose proof Hwf as ((Hring & Hl) & Hw). pose proof Hring as (Hlen & Hh & Ht). unfold ready.
  destruct (Z.eqb_spec (tail t) (head t)) as [E|E]; cbn [negb].
  { exists t. rewrite E, contents_nil by done. split; [done|]. split; [done|]. split; [|done].
    unfold abs, ready. by rewrite E, contents_nil by done. }
  destruct (index_in_range (buf t) (tail t)) as (b & Hb & ->); [lia|]. cbn [mbind outcome_bind].
  rewrite (contents_pop BUF_SIZE ltac:(done) _ _ _ Hring) by congruence.
  assert (byte_at (buf t) (tail t) = b) as -> by (unfold byte_at; by rewrite Hb).
  destruct (IH (set_tail ((tail t + 1) mod BUF_SIZE) t)) as (t' & -> & Hwf' & Ha & Hc & Hw').
  { split; [split; [by apply ring_wf_pop|done]|].
    cbn. intros Hne. specialize (Hw Hne). congruence. }
  cbn [mbind outcome_bind]. exists t'. done.
Qed.

(** C15: Reading the terminal.  [read] first runs everything the keyboard and the serial port
    have ready (64 bytes of each) through the line discipline, exactly as the specification
    [ld_step] says: backspace, Ctrl+C, line completion, the 255-byte line limit, the 4095-byte
    limit on completed input.  If completed bytes are available, it returns the oldest ones, up
    to the length asked for, leaves the rest, and records no waiting reader; otherwise it returns
    none, and the calling process is blocked, recorded as the waiting reader, and a reschedule
    requested.  The machine is otherwise what the input left: states only go from blocked to ready
    there, so a caller that was not blocked is blocked after the read if and only if there was
    nothing to return. *)
Theorem tty_read_spec (s : io) (len : Z) (p : Process)
  (Hwf : tty_wf (tty s)) (Hk : Keyboard.kbd_wf (kb s)) (Hlen : 0 ≤ len)
  (Hcur : CURRENT_PID (mach s) ≠ 0) (Hp : procs (mach s) (CURRENT_PID (mach s)) = Some p) :
  ∃ l s', read s len = Ret (l, s') ∧ tty_wf (tty s') ∧ Keyboard.kbd_wf (kb s') ∧
    let d := fold_left (ld_step (canonical (tty s))) (polled s) (abs (tty s)) in
    let none := bool_decide (l_ready d = []) in
    l = take (Z.to_nat len) (l_ready d) ∧
    abs (tty s') = mkLd (drop (Z.to_nat len) (l_ready d)) (l_line d) ∧
    waiting_pid (tty s') = (if none then CURRENT_PID (mach s) else 0) ∧
    (∃ m, evolves (mach s) m ∧
      mach s' = if none then set_should_schedule 1 (upd m (CURRENT_PID (mach s)) (set_state Blocked)) else m) ∧
    (state p ≠ Blocked → blocked (mach s') (CURRENT_PID (mach s)) = none).
Proof.
  unfold read. destruct (process_input_spec s Hwf Hk) as (s1 & -> & Hwf1 & Hk1 & _ & _ & Ha & Hc & Hev).
  cbn [mbind outcome_bind]. rewrite <- Ha. cbn [abs l_ready l_line].
  pose proof Hwf1 as ((Hring & Hl) & Hw). destruct (ev_procs _ _ Hev _ _ Hp) as (p1 & Hp1 & _ & Hst).
  destruct (Z.eqb_spec (tail (tty s1)) (head (tty s1))) as [E|E]; cbn [negb].
  - assert (ready (tty s1) = []) as Hr by (unfold ready; by rewrite E, contents_nil).
    rewrite (ev_current _ _ Hev), (proj2 (Z.eqb_neq _ 0) Hcur). cbn [negb].
    rewrite (process_mut_ret _ _ p1) by done. cbn [mbind outcome_bind].
    eexists _, _. split; [done|]. rewrite Hr, take_nil, drop_nil, (bool_decide_eq_true_2 ([] = [])) by done.
    split; [split; [apply Hwf1|done]|]. split; [done|]. split; [done|]. split; [by rewrite <- Hr|].
    split; [done|]. split; [by exists (mach s1)|]. intros _. unfold blocked. cbn [mach set_mach m_table set_should_schedule].
    rewrite (procs_upd _ _ p1), Z.eqb_refl by done. by rewrite bool_decide_true.
  - destruct (read_ring_spec (Z.to_nat len) (tty s1) Hwf1) as (t' & -> & Hwf' & Ha' & _ & Hwt).
    cbn [mbind outcome_bind]. eexists _, _. split; [done|]. rewrite (bool_decide_eq_false_2 (ready (tty s1) = [])).
    2: { unfold ready. by rewrite (contents_pop BUF_SIZE ltac:(done) _ _ _ Hring) by congruence. }
    do 4 (split; [done|]). split; [|split; [by exists (mach s1)|]].
    + cbn [tty set_tty]. rewrite Hwt. destruct (decide (waiting_pid (tty s1) = 0)); [done|]. by rewrite Hw in E.
    + intros Hnb. unfold blocked. cbn [mach set_tty]. rewrite Hp1. apply bool_decide_eq_false_2. intuition congruence.
Qed.

(** C24: No wake-up is lost.  A reader blocked on the terminal becomes ready as soon as input
    that completes a line (or Ctrl+C, or any byte in raw mode) is among the bytes processed,
    whatever other bytes come before or after it; and until then it stays recorded. *)
Theorem tty_no_lost_wakeup (s : io) (l : list Z) (p : Process)
  (Hwf : tty_wf (tty s)) (Hw : waiting_pid (tty s) ≠ 0)
  (Hp : procs (mach s) (waiting_pid (tty s)) = Some p) (Hb : state p = Blocked) :
  ∃ s' p', process_bytes s l = Ret s' ∧ procs (mach s') (waiting_pid (tty s)) = Some p' ∧
    if existsb (completes (canonical (tty s))) l
    then state p' = Ready ∧ should_schedule (mach s') = 1
    else p' = p ∧ waiting_pid (tty s') = waiting_pid (tty s).
Proof.
  destruct (process_bytes_spec l s Hwf) as (s' & Hr & _ & _ & _ & Hma & Hw0).
  set (w := waiting_pid (tty s)) in *.
  destruct (existsb (completes (canonical (tty s))) l) eqn:Hex.
  - specialize (Hw0 eq_refl). destruct Hma as [[He _]|(_ & _ & c & Hc & Hma)]; [congruence|].
    unfold reader_effect in Hma. rewrite Hc in Hma.
    set (m1 := if canonical (tty s) && (c =? 3) then interrupted (mach s) w else mach s) in *.
    assert (∃ p1, procs m1 w = Some p1 ∧ state p1 = Blocked) as (p1 & Hp1 & Hb1).
    { subst m1. destruct (canonical (tty s) && (c =? 3)); [|eauto]. unfold interrupted, blocked.
      rewrite Hp, (proj2 (Z.eqb_neq w 0) Hw), bool_decide_true by done. cbn [negb andb].
      rewrite (procs_upd _ _ p) by done. rewrite Z.eqb_refl. eauto. }
    exists s', (set_state Ready p1). split; [done|]. rewrite Hma. unfold woken, blocked.
    rewrite Hp1, (proj2 (Z.eqb_neq w 0) Hw), bool_decide_true by done. cbn [negb andb].
    split; [|done]. cbn [m_table set_should_schedule]. rewrite (procs_upd _ _ p1) by done. by rewrite Z.eqb_refl.
  - exists s', p. split; [done|]. destruct Hma as [(He & ->)|(He & _)]; [done|congruence].
Qed.

(** ** Examples *)

(** "ab" typed, corrected to "ac", entered; and a byte of the next line. *)
Definition demo_io (m : machine) : io :=
  mkIo Keyboard.kbd_new (mkSerial [97; 98; 8; 99; 13; 100] [] []) new m.

Lemma new_wf : tty_wf new.
Proof. split; [split_and!; done|done]. Qed.

Lemma tty_read_spec_witness :
  ∃ s', read (demo_io (demo_machine 1 [demo_proc 1 Running])) 10 = Ret ([97; 99; 10], s') ∧
    partial (tty s') = [100] ∧ blocked (mach s') 1 = false.
Proof.
  destruct (tty_read_spec (demo_io (demo_machine 1 [demo_proc 1 Running])) 10 (demo_proc 1 Running))
    as (l & s' & Hr & _ & _ & Hl & Ha & _ & _ & Hnb);
    [apply new_wf|split_and!; done|done|done|reflexivity|].
  exists s'. rewrite Hr, Hl. split; [vm_compute; reflexivity|].
  split; [rewrite (abs_partial _ _ Ha); vm_compute; reflexivity|].
  change 1 with (CURRENT_PID (demo_machine 1 [demo_proc 1 Running])) at 1. etransitivity; [apply Hnb; discriminate|vm_compute; reflexivity].
Defined.

Definition waiting_io : io :=
  mkIo Keyboard.kbd_new (mkSerial [] [] []) (set_waiting 1 new) (demo_machine 2 [demo_proc 1 Blocked; demo_proc 2 Running]).

Lemma tty_no_lost_wakeup_witness :
  ∃ s' p', process_bytes waiting_io [97; 10; 98] = Ret s' ∧ procs (mach s') 1 = Some p' ∧ state p' = Ready.
Proof.
  destruct (tty_no_lost_wakeup waiting_io [97; 10; 98] (demo_proc 1 Blocked)) as (s' & p' & Hr & Hp & Hs & _).
  - split; [split_and!; done|done].
  - done.
  - reflexivity.
  - reflexivity.
  - exists s', p'. split; [exact Hr|]. split; [exact Hp|exact Hs].
Defined.

(** Only one reader is recorded: when a second process blocks on the terminal, the first is
    forgotten, and completed input wakes only the second. *)
Theorem second_reader_strands_first :
  ('(_, s) ← read (demo_io (demo_machine 1 [demo_proc 1 Running; demo_proc 2 Ready; demo_proc 3 Ready])) 10;
   '(_, s) ← read (set_mach (set_current_pid 1 (mach s)) s) 10;
   '(_, s) ← read (set_mach (set_current_pid 3 (mach s)) s) 10;
   s ← process_bytes s [97; 10];
   Ret (blocked (mach s) 1, blocked (mach s) 3, waiting_pid (tty s))) = Ret (true, false, 0).
Proof. vm_compute. reflexivity. Qed.
End Tty.
