(* ===== verification/Sched.v ===== *)
(** * The scheduler (src/kernel_rust/src/process.rs: scheduler_tick, scheduler_switch_exit)

    Both entry points save the interrupted process and then repeat: choose a process,
    load its address space and kernel stack, deliver its signals; a process that
    its signals terminate is skipped and another one chosen. *)

From Stdlib Require Import ZArith Lia.
From stdpp Require Import base numbers list list_numbers option gmap.
From S2P Require Import Prelude Memory Ring VfsTypes Keyboard Process Signal Serial Tty.

Local Open Scope Z_scope.

(** The common loop: the stack pointer to resume with.  Halting with nothing ready is
    [Hang].  Each round but the last terminates a process, so 65 rounds are enough. *)
Fixpoint dispatch (m : machine) (fuel : nat) : outcome (Z * machine) :=
  match fuel with
  | O => Hang
  | S fuel =>
      next_pid ← sched_next m;
      let m := set_current_pid next_pid m in
      next ← process m next_pid;
      if negb (bool_decide (state next = Ready)) then Hang
      else
        let m := set_rsp0 (kernel_stack_top next) m in
        let m := set_syscall_kstack (kernel_stack_top next) m in
        let m := write_cr3 (pml4_phys next) m in
        let krsp := kernel_rsp next in
        '(killed, final_krsp, m) ← deliver_pending_signals m next_pid krsp;
        if (killed : bool) then dispatch m fuel
        else
          m ← process_mut m next_pid (set_state Running);
          Ret (final_krsp, m)
  end.

Definition ROUNDS : nat := 65.

Definition scheduler_tick (s : Tty.io) (current_rsp : Z) : outcome (Z * Tty.io) :=
  s ← Tty.poll_input s;
  let cur_pid := CURRENT_PID (Tty.mach s) in
  if cur_pid =? 0 then Ret (current_rsp, s)
  else
    m ← process_mut (Tty.mach s) cur_pid (λ p, set_state Ready (set_kernel_rsp current_rsp p));
    '(krsp, m) ← dispatch m ROUNDS;
    Ret (krsp, Tty.set_mach m s).

Definition scheduler_switch_exit (m : machine) (current_rsp : Z) : outcome (Z * machine) :=
  let cur_pid := CURRENT_PID m in
  m ← process_mut m cur_pid (λ p,
        let p := set_kernel_rsp current_rsp p in
        if bool_decide (state p = Running) then set_state Ready p else p);
  dispatch m ROUNDS.

(** ** Delivery and the process table *)

(** What delivery leaves alone, and what a killed process's death changes. *)
Definition delivery_keeps (m : machine) (q : Z) (killed : bool) (m' : machine) : Prop :=
  (m_cr3 m' = m_cr3 m ∧ m_rsp0 m' = m_rsp0 m ∧ current_proc_kernel_rsp m' = current_proc_kernel_rsp m ∧
   CURRENT_PID m' = CURRENT_PID m ∧ shape (slots (m_table m')) = shape (slots (m_table m)) ∧
   next_pid (m_table m') = next_pid (m_table m) ∧ count (m_table m') = count (m_table m)) ∧
  ∀ q' p, procs m q' = Some p → ∃ p', procs m' q' = Some p' ∧ keep p p' ∧
    if killed && (q' =? q) then state p' = Zombie
    else state p' = state p ∨ killed = true ∧ state p = Blocked ∧ state p' = Ready.

Lemma zombified_keeps m q code f p m' : procs m q = Some p → (∀ p, pid (f p) = pid p) → keep p (f p) →
  zombified (upd m q f) q code (f p) m' → delivery_keeps m q true m'.
Proof.
  intros Hp Hf (? & ? & ? & ? & ? & ?) (Hz & Hs & Hk & Hm & Hn & Hc). split.
  - rewrite Hm. cbn. rewrite Hs, Hn, Hc, shape_upd by done. done.
  - intros q' p' Hp'. rewrite Hz, (procs_upd _ _ p) by done.
    destruct (Z.eqb_spec q' q) as [->|Hne].
    + rewrite Hp in Hp'. simplify_eq. eexists. split; [done|]. done.
    + cbn [andb]. rewrite Hp'.
      destruct ((q' =? parent_pid (f p)) && wakes (upd m q f) q (f p)) eqn:Hw; [|eauto using keep_refl].
      eexists. split; [done|]. split; [done|]. right. split; [done|]. split; [|done].
      apply andb_true_iff in Hw as [Hq Hw]. bool_arith. unfold wakes in Hw.
      rewrite <- Hq, (procs_upd _ _ p), (proj2 (Z.eqb_neq q' q) Hne), Hp' in Hw by done.
      destruct (negb (q' =? 0)); [|done]. cbn in Hw.
      by apply andb_true_iff in Hw as [?%bool_decide_eq_true _].
Qed.

Lemma upd_keeps m q f p : procs m q = Some p → (∀ p, pid (f p) = pid p) → keep p (f p) → state (f p) = state p →
  delivery_keeps m q false (upd m q f).
Proof.
  intros Hp Hf Hk Hs. split; [by rewrite shape_upd|].
  intros q' p' Hp'. rewrite (procs_upd _ _ p) by done. cbn [andb].
  destruct (Z.eqb_spec q' q) as [->|]; [|eauto using keep_refl].
  rewrite Hp in Hp'. simplify_eq. eauto.
Qed.

Lemma handler_entered_keeps m q krsp s h p : procs m q = Some p →
  delivery_keeps m q false (handler_entered m q krsp s h p).
Proof.
  intros Hp. unfold handler_entered. set (fr := u64 _). set (ws := sigframe_words _ _ _ _).
  destruct (ust_words_umem (upd m q (clear_range 1 (s + 1))) fr ws) as [u ->].
  assert (procs (upd m q (clear_range 1 (s + 1))) q = Some (clear_range 1 (s + 1) p)) as Hp1
    by (rewrite (procs_upd _ _ p), Z.eqb_refl; done).
  split.
  - cbn [m_table set_kmem]. rewrite shape_upd by done. cbn [m_table set_umem]. by rewrite shape_upd.
  - intros q' p' Hp'. cbn [m_table set_kmem]. rewrite (procs_upd _ _ (clear_range 1 (s + 1) p)) by done.
    cbn [m_table set_umem]. rewrite (procs_upd _ _ p) by done. cbn [andb].
    destruct (Z.eqb_spec q' q) as [->|]; [|eauto using keep_refl].
    rewrite Hp in Hp'. simplify_eq. eexists. split; [done|]. split; [done|]. by left.
Qed.

Lemma same_keeps m q p : procs m q = Some p → delivery_keeps m q false m.
Proof. intros Hp. split; [done|]. cbn [andb]. eauto using keep_refl. Qed.

Lemma deliver_keeps m q krsp p : procs m q = Some p → sigs_wf p →
  ∃ killed m', deliver_pending_signals m q krsp = Ret (killed, krsp, m') ∧
    delivery_keeps m q killed m' ∧ (killed = true → q ≠ 2).
Proof.
  intros Hp Hwf.
  assert (∀ f code, (∀ p, pid (f p) = pid p) → keep p (f p) → q ≠ 2 →
    ∃ killed m', (m ← mark_zombie (upd m q f) q code; Ret (true, krsp, m)) = Ret (killed, krsp, m') ∧
      delivery_keeps m q killed m' ∧ (killed = true → q ≠ 2)) as Hkill.
  { intros f code Hf Hk H2. destruct (zombie_ret m q f p code Hf Hp) as (m' & -> & Hz).
    exists true, m'. eauto using zombified_keeps. }
  destruct (decide (q = 0 ∨ q = 2)) as [E|E].
  { unfold deliver_pending_signals. replace ((q =? 0) || (q =? 2)) with true by (zcases; lia || done).
    exists false, m. eauto using same_keeps. }
  destruct (decide (sig_pending p = 0 ∨ in_signal p = true ∨
                    Z.land (ld64 (m_kmem m) (krsp + f_cs)) 3 ≠ 3)) as [Hn|Hd].
  - unfold deliver_pending_signals. replace ((q =? 0) || (q =? 2)) with false by (zcases; lia || done).
    rewrite (process_ret _ _ _ Hp). cbn [mbind outcome_bind].
    destruct (Z.eqb_spec (sig_pending p) 0); [exists false, m; eauto using same_keeps|].
    destruct (in_signal p) eqn:Hin.
    + destruct (negb _); [|exists false, m; eauto using same_keeps].
      rewrite (process_mut_ret _ _ p) by done. cbn [mbind outcome_bind].
      apply (Hkill (clear_sig SIGKILL)); [done|done|lia].
    + rewrite (proj2 (Z.eqb_neq _ 3)) by (destruct Hn as [|[|]]; done).
      exists false, m. eauto using same_keeps.
  - assert (sig_pending p ≠ 0 ∧ in_signal p = false ∧ Z.land (ld64 (m_kmem m) (krsp + f_cs)) 3 = 3)
      as (Hpe & Hin & Hcs).
    { split_and!; [intros ?; auto|destruct (in_signal p); [exfalso|]; auto|].
      destruct (decide (Z.land (ld64 (m_kmem m) (krsp + f_cs)) 3 = 3)); [done|exfalso; auto]. }
    destruct (deliver_user_mode m q krsp p) as [(_ & ->)|(s & Hs & _ & [(_ & ->)|(h & _ & ->)])];
      [lia|lia|done..| | |].
    + exists false, (upd m q (clear_range 1 32)). split; [done|]. split; [|done]. by apply (upd_keeps m q _ p).
    + apply Hkill; [done|done|lia].
    + rewrite (deliver_custom_cases _ _ _ _ _ p) by (done || lia). destruct (_ <? _).
      * apply Hkill; [done|done|lia].
      * exists false, (handler_entered m q krsp s h p). eauto using handler_entered_keeps.
Qed.

(** ** The scheduler's invariant *)

(** What holds whenever user code or idle runs: a well-formed table, the current process in
    it, no other process marked running, and idle never blocked or dead. *)
Record sched_inv (m : machine) : Prop := {
  si_wf : pt_wf (m_table m);
  si_sigs : ∀ q p, procs m q = Some p → sigs_wf p;
  si_current : is_Some (procs m (CURRENT_PID m));
  si_running : ∀ q p, procs m q = Some p → state p = Running → q = CURRENT_PID m;
  si_idle : ∃ p, procs m 2 = Some p ∧ (state p = Ready ∨ state p = Running)
}.

(** Inside the scheduler nothing is running and idle is ready. *)
Record quiet (m : machine) : Prop := {
  qu_wf : pt_wf (m_table m);
  qu_sigs : ∀ q p, procs m q = Some p → sigs_wf p;
  qu_none : ∀ q p, procs m q = Some p → state p ≠ Running;
  qu_idle : ∃ p, procs m 2 = Some p ∧ state p = Ready
}.

Definition alive (m : machine) (o : option Z) : bool :=
  match q ← o; procs m q with Some p => negb (bool_decide (state p = Zombie)) | None => false end.

Definition live (m : machine) : Z := countb (alive m) (shape (slots (m_table m))).

Lemma procs_shape m m' q : shape (slots (m_table m')) = shape (slots (m_table m)) →
  is_Some (procs m' q) → is_Some (procs m q).
Proof.
  intros Hs [p (i & Hi & Hl)%lookup_proc_Some]. rewrite (find_slot_shape _ _ _ Hs) in Hi.
  apply find_slot_Some in Hi as Hi'. destruct Hi' as (p' & _ & Hl' & _).
  exists p'. apply lookup_proc_Some. eauto.
Qed.

Lemma find_slot_None_shape l q i : shape l !! i = Some (Some q) → is_Some (lookup_proc l q).
Proof.
  intros Hs. unfold shape in Hs. rewrite list_lookup_fmap in Hs.
  destruct (l !! i) as [[p|]|] eqn:Hl; cbn in Hs; simplify_eq.
  destruct (find_slot l (pid p)) as [j|] eqn:Hj.
  - apply find_slot_Some in Hj as Hj'. destruct Hj' as (p' & _ & Hl' & _).
    exists p'. apply lookup_proc_Some. eauto.
  - unfold find_slot in Hj. pose proof (position_spec (has_pid (pid p)) l 0) as Hn.
    rewrite Hj in Hn. specialize (Hn _ _ Hl). cbn in Hn. by rewrite Z.eqb_refl in Hn.
Qed.

(** Killing a process keeps the scheduler going with one live process less. *)
Lemma killed_quiet m q m' p : quiet m → delivery_keeps m q true m' → q ≠ 2 →
  procs m q = Some p → state p = Ready → quiet m' ∧ live m' < live m.
Proof.
  intros [Hwf Hsg Hno (p2 & Hp2 & Hr2)] ((_ & _ & _ & _ & Hs & Hn & Hc) & Hk) H2 Hp Hr.
  assert (∀ q' p', procs m' q' = Some p' → ∃ p0, procs m q' = Some p0 ∧ keep p0 p' ∧
    if q' =? q then state p' = Zombie else state p' = state p0 ∨ state p0 = Blocked ∧ state p' = Ready) as Hb.
  { intros q' p' Hp'. destruct (procs_shape m m' q' Hs) as [p0 Hp0]; [eauto|].
    exists p0. split; [done|]. destruct (Hk q' p0 Hp0) as (p1 & Hp1 & Hkeep & Hst). simplify_eq.
    cbn in Hst. destruct (q' =? q); [done|]. intuition. }
  split; [split|].
  - by apply (pt_wf_shape (m_table m)).
  - intros q' p' Hp'. destruct (Hb q' p' Hp') as (p0 & Hp0 & (_ & _ & _ & _ & Hsa & _) & _).
    unfold sigs_wf. rewrite Hsa. by apply (Hsg q').
  - intros q' p' Hp'. destruct (Hb q' p' Hp') as (p0 & Hp0 & _ & Hst).
    specialize (Hno q' p0 Hp0). destruct (q' =? q); intuition congruence.
  - destruct (Hk 2 p2 Hp2) as (p2' & Hp2' & _ & Hst). exists p2'. split; [done|].
    rewrite (proj2 (Z.eqb_neq 2 q)) in Hst by lia. cbn in Hst. intuition congruence.
  - unfold live. rewrite Hs. apply lookup_proc_Some in Hp as Hi. destruct Hi as (i & _ & Hl).
    assert (shape (slots (m_table m)) !! Z.to_nat i = Some (Some q)) as Hi.
    { unfold shape. rewrite list_lookup_fmap, Hl. cbn. by rewrite (lookup_proc_pid _ _ _ Hp). }
    eapply countb_lt; [|exact Hi|..].
    + intros j [q'|] Hj Ha; [|done]. unfold alive in *. cbn in *.
      destruct (procs m' q') as [p'|] eqn:Hp'; [|done].
      destruct (Hb q' p' Hp') as (p0 & -> & _ & Hst). case_bool_decide; [done|].
      destruct (q' =? q); [done|]. rewrite bool_decide_false; [done|]. intuition congruence.
    + unfold alive. cbn. destruct (Hk q p Hp) as (p' & -> & _ & Hst). rewrite Z.eqb_refl in Hst.
      cbn in Hst. by rewrite bool_decide_true.
    + unfold alive. cbn. rewrite Hp. rewrite bool_decide_false; [done|congruence].
Qed.

(** A quiet machine always has a ready process to choose. *)
Lemma quiet_choice m : quiet m → ∃ q p, sched_next m = Ret q ∧ procs m q = Some p ∧ state p = Ready.
Proof.
  intros [Hwf _ _ (p2 & Hp2 & Hr2)].
  destruct (sched_next_cases m (pt_size _ Hwf)) as [(q & k & Hr & Hk & Hrun & _)|(Hr & _)].
  - exists q. apply runnable_Some in Hrun as (p & Hl & Hp & Hs & _). exists p. split; [done|]. split; [|done].
    pose proof (Z.mod_pos_bound (default 0 (find_slot (slots (m_table m)) (CURRENT_PID m)) + k) MAX_PROCS ltac:(done)).
    apply lookup_proc_Some. eexists. split; [|done]. eapply find_slot_is; eauto using pt_unique. lia.
  - exists 2, p2. split; [|done]. apply lookup_proc_Some in Hp2 as Hi. destruct Hi as (i & Hi & Hl).
    rewrite Hr. assert (idle_ready (slots (m_table m)) = true) as ->; [|done].
    apply idle_ready_spec. exists (Z.to_nat i), p2. split; [done|]. split; [done|].
    by apply (lookup_proc_pid _ _ _ Hp2).
Qed.

(** What the loop leaves: the chosen process runs, on its own stack and address space. *)
Definition dispatched (m : machine) (krsp : Z) (m' : machine) : Prop :=
  sched_inv m' ∧ CURRENT_PID m' ≠ 0 ∧
  ∃ p, procs m' (CURRENT_PID m') = Some p ∧ state p = Running ∧ krsp = kernel_rsp p ∧
    m_cr3 m' = pml4_phys p ∧ m_rsp0 m' = kernel_stack_top p ∧
    current_proc_kernel_rsp m' = kernel_stack_top p.

Lemma keep_trans p1 p2 p3 : keep p1 p2 → keep p2 p3 → keep p1 p3.
Proof. intros (? & ? & ? & ? & ? & ?) (? & ? & ? & ? & ? & ?). split_and!; congruence. Qed.

(** The last round. *)
Lemma dispatch_last m q p m2 : quiet m → procs m q = Some p → state p = Ready → CURRENT_PID m2 = q →
  delivery_keeps m q false m2 → m_cr3 m2 = pml4_phys p → m_rsp0 m2 = kernel_stack_top p →
  current_proc_kernel_rsp m2 = kernel_stack_top p →
  let m3 := upd m2 q (set_state Running) in
  process_mut m2 q (set_state Running) = Ret m3 ∧ dispatched m (kernel_rsp p) m3 ∧
  ∀ q' p', procs m q' = Some p' → ∃ p'', procs m3 q' = Some p'' ∧ keep p' p'' ∧
    (state p' = Zombie → state p'' = Zombie).
Proof.
  intros [Hwf Hsg Hno (p2 & Hp2 & Hr2)] Hp Hpr Hcur ((_ & _ & _ & _ & Hs & Hn & Hc) & Hk) Hcr3 Hrsp0 Hks m3.
  destruct (Hk q p Hp) as (pq & Hpq & Hkq & _).
  assert (∀ q', procs m3 q' = if q' =? q then Some (set_state Running pq) else procs m2 q') as H3
    by (intros; by apply procs_upd).
  assert (∀ q' p', procs m2 q' = Some p' → ∃ p0, procs m q' = Some p0 ∧ keep p0 p' ∧ state p' = state p0) as Hb.
  { intros q' p' Hp'. destruct (procs_shape m m2 q' Hs) as [p0 Hp0]; [eauto|].
    destruct (Hk q' p0 Hp0) as (p1 & Hp1 & ? & [?|[? _]]); simplify_eq; eauto. }
  split; [by apply (process_mut_ret _ _ pq)|]. split.
  - split; [split|].
    + apply (pt_wf_shape (m_table m)); [|done..]. subst m3. by rewrite shape_upd.
    + intros q' p'. rewrite H3. destruct (Z.eqb_spec q' q) as [->|].
      * intros [= <-]. destruct Hkq as (_ & _ & _ & _ & Hsa & _). unfold sigs_wf. cbn. rewrite Hsa. exact (Hsg _ _ Hp).
      * intros Hp'. destruct (Hb _ _ Hp') as (p0 & Hp0 & (_ & _ & _ & _ & Hsa & _) & _).
        unfold sigs_wf. rewrite Hsa. by apply (Hsg q').
    + change (CURRENT_PID m3) with (CURRENT_PID m2). rewrite Hcur, H3, Z.eqb_refl. eauto.
    + intros q' p'. change (CURRENT_PID m3) with (CURRENT_PID m2). rewrite Hcur, H3.
      destruct (Z.eqb_spec q' q) as [->|]; [done|]. intros Hp' Hrun.
      destruct (Hb _ _ Hp') as (p0 & Hp0 & _ & Hst). by rewrite Hst in Hrun; apply (Hno q' p0) in Hp0.
    + destruct (Hk 2 p2 Hp2) as (p2' & Hp2' & _ & [Hst|[? _]]); [|done]. rewrite H3.
      destruct (2 =? q); [eauto|]. exists p2'. rewrite Hst. eauto.
    + change (CURRENT_PID m3) with (CURRENT_PID m2). rewrite Hcur. split.
      * apply lookup_proc_Some in Hp as Hi. destruct Hi as (i & _ & Hl).
        pose proof (pt_pids _ Hwf _ _ Hl). pose proof (lookup_proc_pid _ _ _ Hp). lia.
      * exists (set_state Running pq). rewrite H3, Z.eqb_refl. destruct Hkq as (_ & E1 & E2 & E3 & _ & _).
        cbn. rewrite E1, E2, E3. done.
  - intros q' p' Hp'. destruct (Hk _ _ Hp') as (p1 & Hp1 & Hkeep & Hst). rewrite H3. cbn [andb] in Hst.
    destruct (Z.eqb_spec q' q) as [->|].
    + simplify_eq. eexists. split; [done|]. split; [done|]. congruence.
    + exists p1. split; [done|]. split; [done|]. intuition congruence.
Qed.

Lemma dispatch_spec fuel : ∀ m, quiet m → live m < Z.of_nat fuel →
  ∃ krsp m', dispatch m fuel = Ret (krsp, m') ∧ dispatched m krsp m' ∧
    ∀ q p, procs m q = Some p → ∃ p', procs m' q = Some p' ∧ keep p p' ∧
      (state p = Zombie → state p' = Zombie).
Proof.
  induction fuel as [|fuel IH]; intros m Hq Hf.
  { pose proof (countb_bound (alive m) (shape (slots (m_table m)))). unfold live in Hf. lia. }
  cbn [dispatch]. destruct (quiet_choice m Hq) as (q & p & -> & Hp & Hr). cbn [mbind outcome_bind].
  rewrite (process_ret _ q p) by done. cbn [mbind outcome_bind]. rewrite bool_decide_true by done. cbn [negb].
  set (m1 := write_cr3 _ _).
  assert (quiet m1 ∧ live m1 = live m) as [Hq1 Hl1] by (destruct Hq; by split).
  destruct (deliver_keeps m1 q (kernel_rsp p) p Hp) as (killed & m2 & -> & Hk & H2); [by eapply qu_sigs|].
  cbn [mbind outcome_bind]. destruct killed.
  - destruct (killed_quiet m1 q m2 p) as [Hq2 Hlt]; auto.
    destruct (IH m2 Hq2) as (krsp & m3 & -> & Hd & Hkeep); [lia|].
    exists krsp, m3. split; [done|]. split; [exact Hd|]. intros q' p' Hp'.
    destruct Hk as (_ & Hk). destruct (Hk q' p' Hp') as (p'' & Hp'' & Hk1 & Hst).
    destruct (Hkeep q' p'' Hp'') as (p3 & Hp3 & ? & Hz). exists p3. split; [done|].
    split; [eauto using keep_trans|]. intros Hzo. apply Hz. cbn in Hst.
    destruct (q' =? q); [done|]. intuition congruence.
  - pose proof Hk as ((E1 & E2 & E3 & E4 & _) & _).
    destruct (dispatch_last m1 q p m2 Hq1 Hp Hr) as (-> & Hd & Hkeep); [by rewrite E4|done|by rewrite E1|by rewrite E2|by rewrite E3|].
    cbn [mbind outcome_bind]. eexists _, _. split; [done|]. auto.
Qed.

Lemma live_bound m : pt_wf (m_table m) → live m < Z.of_nat ROUNDS.
Proof.
  intros Hwf. pose proof (countb_bound (alive m) (shape (slots (m_table m)))) as Hb. unfold live.
  assert (length (shape (slots (m_table m))) = length (slots (m_table m))) as Hl by apply length_fmap.
  pose proof (pt_size _ Hwf) as Hs. red in Hs.
  unfold MAX_PROCS in Hs. unfold ROUNDS. lia.
Qed.

(** Saving the current process makes the machine quiet. *)
Lemma save_quiet m f p : sched_inv m → procs m (CURRENT_PID m) = Some p → (∀ p, pid (f p) = pid p) →
  sigactions (f p) = sigactions p → state (f p) ≠ Running →
  (state p = Running → state (f p) = Ready) → (state p = Ready → state (f p) = Ready) →
  quiet (upd m (CURRENT_PID m) f).
Proof.
  intros [Hwf Hsg _ Hrun (p2 & Hp2 & Hr2)] Hp Hf Hsa Hnr HR HR'.
  assert (∀ q', procs (upd m (CURRENT_PID m) f) q' = if q' =? CURRENT_PID m then Some (f p) else procs m q') as Hu
    by (intros; by apply procs_upd).
  split.
  - apply (pt_wf_shape (m_table m)); [by rewrite shape_upd|done..].
  - intros q' p'. rewrite Hu. destruct (q' =? CURRENT_PID m); [|by apply Hsg].
    intros [= <-]. unfold sigs_wf. rewrite Hsa. exact (Hsg _ _ Hp).
  - intros q' p'. rewrite Hu. destruct (Z.eqb_spec q' (CURRENT_PID m)) as [->|Hne].
    + by intros [= <-].
    + intros Hp' Hr. eauto.
  - rewrite Hu. destruct (Z.eqb_spec 2 (CURRENT_PID m)) as [E|Hne].
    + rewrite <- E, Hp2 in Hp. simplify_eq. exists (f p). split; [done|]. destruct Hr2; auto.
    + exists p2. split; [done|]. destruct Hr2 as [|Hr]; [done|]. by apply (Hrun 2 p2 Hp2) in Hr.
Qed.

(** Wake-ups and other input keep the invariant. *)
Lemma evolves_inv m m1 : evolves m m1 → sched_inv m → sched_inv m1.
Proof.
  intros Hev [Hwf Hsg [pc Hpc] Hrun (p2 & Hp2 & Hr2)].
  assert (∀ q p, procs m1 q = Some p → ∃ p0, procs m q = Some p0 ∧ keep p0 p ∧
    (state p = state p0 ∨ state p0 = Blocked ∧ state p = Ready)) as Hb.
  { intros q p Hp. destruct (procs_shape m m1 q (ev_shape _ _ Hev)) as [p0 Hp0]; [eauto|].
    destruct (ev_procs _ _ Hev _ _ Hp0) as (p1 & Hp1 & ?). simplify_eq. eauto. }
  split; [by apply (evolves_wf _ _ Hev)|..].
  - intros q p Hp. destruct (Hb q p Hp) as (p0 & Hp0 & (_ & _ & _ & _ & Hsa & _) & _).
    unfold sigs_wf. rewrite Hsa. by apply (Hsg q).
  - rewrite (ev_current _ _ Hev). destruct (ev_procs _ _ Hev _ _ Hpc) as (pc1 & Hpc1 & _). eauto.
  - intros q p Hp Hr. rewrite (ev_current _ _ Hev). destruct (Hb q p Hp) as (p0 & Hp0 & _ & Hst).
    apply (Hrun q p0 Hp0). intuition congruence.
  - destruct (ev_procs _ _ Hev _ _ Hp2) as (p21 & Hp21 & _ & Hst2). exists p21. split; [done|].
    intuition congruence.
Qed.

(** Saving the current process with [f] and choosing the next one. *)
Lemma save_and_dispatch m f p : sched_inv m → procs m (CURRENT_PID m) = Some p → (∀ p, pid (f p) = pid p) →
  sigactions (f p) = sigactions p → state (f p) ≠ Running →
  (state p = Running → state (f p) = Ready) → (state p = Ready → state (f p) = Ready) →
  ∃ krsp m', (m ← process_mut m (CURRENT_PID m) f; dispatch m ROUNDS) = Ret (krsp, m') ∧
    dispatched m krsp m' ∧ ∃ p', procs m' (CURRENT_PID m) = Some p' ∧ kernel_rsp p' = kernel_rsp (f p) ∧
      (state (f p) = Zombie → state p' = Zombie).
Proof.
  intros Hinv Hp Hf Hsa Hnr HR HR'. rewrite (process_mut_ret _ _ p) by done. cbn [mbind outcome_bind].
  destruct (dispatch_spec ROUNDS (upd m (CURRENT_PID m) f)) as (krsp & m2 & -> & Hd & Hkeep).
  - by apply (save_quiet m f p).
  - apply live_bound. apply (pt_wf_shape (m_table m)); [by rewrite shape_upd|done..|apply Hinv].
  - eexists _, _. split; [done|]. split; [exact Hd|].
    destruct (Hkeep (CURRENT_PID m) (f p)) as (p' & Hp' & (_ & _ & _ & Hk & _) & Hz); [|eauto 6].
    rewrite (procs_upd _ _ p) by done. by rewrite Z.eqb_refl.
Qed.

Lemma scheduler_tick_ok (s : Tty.io) (current_rsp : Z)
  (Hinv : sched_inv (Tty.mach s)) (Htty : Tty.tty_wf (Tty.tty s)) (Hkb : Keyboard.kbd_wf (Tty.kb s))
  (Hcur : CURRENT_PID (Tty.mach s) ≠ 0) :
  ∃ krsp s', scheduler_tick s current_rsp = Ret (krsp, s') ∧
    Tty.tty_wf (Tty.tty s') ∧ Keyboard.kbd_wf (Tty.kb s') ∧ dispatched (Tty.mach s) krsp (Tty.mach s') ∧
    ∃ p, procs (Tty.mach s') (CURRENT_PID (Tty.mach s)) = Some p ∧ kernel_rsp p = current_rsp.
Proof.
  unfold scheduler_tick, Tty.poll_input.
  destruct (Tty.process_input_spec s Htty Hkb) as (s1 & -> & Htty1 & Hkb1 & _ & _ & _ & _ & Hev).
  cbn [mbind outcome_bind]. cbv zeta.
  destruct (si_current _ Hinv) as [pc Hpc]. pose proof (evolves_inv _ _ Hev Hinv) as Hinv1.
  destruct (ev_procs _ _ Hev _ _ Hpc) as (pc1 & Hpc1 & _).
  rewrite <- (ev_current _ _ Hev) in Hcur, Hpc1 |- *. rewrite (proj2 (Z.eqb_neq _ 0) Hcur).
  destruct (save_and_dispatch (Tty.mach s1) (λ p, set_state Ready (set_kernel_rsp current_rsp p)) pc1)
    as (krsp & m2 & Hr & Hd & p & Hp & Hk & _); [done..|].
  rewrite (process_mut_ret _ _ pc1) in Hr |- * by done. cbn [mbind outcome_bind] in Hr |- *.
  rewrite Hr. cbn [mbind outcome_bind]. eexists _, _. split; [done|]. split; [done|]. split; [done|].
  split; [exact Hd|by exists p].
Qed.

(** C9: A timer tick.  From a state satisfying the scheduler's invariant, the tick takes in
    terminal input, saves the interrupted process's stack pointer, and always resumes some
    process: it does not panic or halt, because idle can always run and every process a
    signal terminates is one live process less.  Afterwards the process resumed is the only
    one marked running, it is the current one, [cr3], [rsp0] and the system-call stack are
    its own, the stack pointer returned is the one saved for it, the interrupted process
    keeps the stack pointer saved for it, and the invariant holds again. *)
Theorem scheduler_tick_spec (s : Tty.io) (current_rsp : Z)
  (Hinv : sched_inv (Tty.mach s)) (Htty : Tty.tty_wf (Tty.tty s)) (Hkb : Keyboard.kbd_wf (Tty.kb s))
  (Hcur : CURRENT_PID (Tty.mach s) ≠ 0) :
  ∃ krsp s', scheduler_tick s current_rsp = Ret (krsp, s') ∧
    Tty.tty_wf (Tty.tty s') ∧ Keyboard.kbd_wf (Tty.kb s') ∧ dispatched (Tty.mach s) krsp (Tty.mach s') ∧
    ∃ p, procs (Tty.mach s') (CURRENT_PID (Tty.mach s)) = Some p ∧ kernel_rsp p = current_rsp.
Proof. by apply scheduler_tick_ok. Qed.

(** C25: The switch at the end of a system call (exit, a blocking read, waitpid, a signal to
    deliver).  Whatever state the handler left the current process in, the switch resumes some
    process as a tick does, never panics or halts, and re-establishes the invariant; a process
    that has exited is not resumed. *)
Theorem scheduler_switch_exit_spec (m : machine) (current_rsp : Z) (p : Process)
  (Hinv : sched_inv m) (Hp : procs m (CURRENT_PID m) = Some p) :
  ∃ krsp m', scheduler_switch_exit m current_rsp = Ret (krsp, m') ∧ dispatched m krsp m' ∧
    (∃ p', procs m' (CURRENT_PID m) = Some p' ∧ kernel_rsp p' = current_rsp) ∧
    (state p = Zombie → CURRENT_PID m' ≠ CURRENT_PID m).
Proof.
  unfold scheduler_switch_exit. cbv zeta.
  set (f := λ p, if bool_decide (state (set_kernel_rsp current_rsp p) = Running)
                 then set_state Ready (set_kernel_rsp current_rsp p) else set_kernel_rsp current_rsp p).
  assert (∀ p, pid (f p) = pid p ∧ kernel_rsp (f p) = current_rsp ∧ sigactions (f p) = sigactions p ∧
    state (f p) = if bool_decide (state p = Running) then Ready else state p) as Hf.
  { intros x. subst f. cbn. by case_bool_decide. }
  destruct (Hf p) as (_ & Ek & Esa & Es).
  destruct (save_and_dispatch m f p) as (krsp & m' & Hr & Hd & p' & Hp' & Hk & Hz); [done|done|apply Hf|done|..].
  1-3: rewrite Es; case_bool_decide; congruence.
  exists krsp, m'. split; [done|]. split; [done|]. split; [exists p'; split; [done|congruence]|].
  intros Hzo Heq. destruct Hd as (_ & _ & p1 & Hp1 & Hrun & _). rewrite Heq, Hp' in Hp1. simplify_eq.
  rewrite Hz in Hrun; [done|]. rewrite Es, Hzo. by rewrite bool_decide_false.
Qed.

(** ** Examples *)

(** Init interrupted with SIGKILL pending for the process after it. *)
Definition sched_demo : machine :=
  demo_machine 1 [set_kernel_rsp 1000 (demo_proc 1 Running); set_kernel_rsp 2000 (demo_proc 2 Ready);
                  set_sig_pending (bit SIGKILL) (set_in_signal true 64 (demo_proc 3 Ready))].

Lemma demo_inv l p0 : (length l ≤ 61)%nat → pid <$> l = seqZ 3 (Z.of_nat (length l)) →
  Forall (λ p, sigs_wf p ∧ state p ≠ Running) l → pid p0 = 1 → sigs_wf p0 →
  sched_inv (demo_machine 1 (p0 :: set_kernel_rsp 2000 (demo_proc 2 Ready) :: l)).
Proof.
  intros Hl Hpid Hall Hp0 Hs0. set (ps := p0 :: _ :: l).
  assert (pid <$> ps = seqZ 1 (Z.of_nat (length ps))) as Hps.
  { subst ps. cbn [fmap list_fmap length]. rewrite Hp0.
    replace (Z.of_nat (S (S (length l)))) with (2 + Z.of_nat (length l)) by lia.
    rewrite seqZ_app by lia. change (seqZ 1 2) with [1; 2]. cbn. by rewrite Hpid. }
  pose proof (demo_wf 1 ps ltac:(cbn; lia) Hps) as Hwf.
  assert (∀ q p, procs (demo_machine 1 ps) q = Some p → p ∈ ps ∧ pid p = q) as Hin.
  { intros q p Hp. pose proof (lookup_proc_pid _ _ _ Hp) as Hq. split; [|done].
    apply lookup_proc_Some in Hp as (i & _ & Hi). cbn [demo_machine m_table slots] in Hi.
    unfold demo_slots in Hi. apply lookup_app_Some in Hi as [Hi|[_ [? _]%lookup_replicate]]; [|done].
    rewrite list_lookup_fmap in Hi. destruct (ps !! Z.to_nat i) eqn:E; [|done]. cbn in Hi. simplify_eq.
    by eapply list_elem_of_lookup_2. }
  rewrite Forall_forall in Hall.
  split; [done|..].
  - intros q p [Hp _]%Hin. apply elem_of_cons in Hp as [->|[->|Hp]%elem_of_cons]; [done|done|by apply Hall].
  - exists p0. unfold lookup_proc, find_slot. cbn. by rewrite Hp0.
  - intros q p [Hp Hq]%Hin Hr. apply elem_of_cons in Hp as [->|[->|Hp]%elem_of_cons]; [cbn; congruence|done|].
    by destruct (Hall p Hp).
  - exists (set_kernel_rsp 2000 (demo_proc 2 Ready)). split; [|by left].
    unfold lookup_proc, find_slot. cbn. by rewrite Hp0.
Qed.

Lemma sched_demo_inv : sched_inv sched_demo.
Proof.
  apply demo_inv; [cbn; lia|reflexivity| |reflexivity|reflexivity].
  repeat constructor; done.
Qed.

Lemma scheduler_tick_spec_witness :
  ∃ krsp s', scheduler_tick (Tty.demo_io sched_demo) 5000 = Ret (krsp, s') ∧ krsp = 5000.
Proof.
  destruct (scheduler_tick_spec (Tty.demo_io sched_demo) 5000) as (krsp & s' & Hr & _);
    [apply sched_demo_inv|apply Tty.new_wf|split_and!; done|done|].
  exists krsp, s'. split; [exact Hr|].
  assert (fst <$> (match scheduler_tick (Tty.demo_io sched_demo) 5000 with Ret x => Some x | _ => None end) = Some 5000)
    as Hk by (vm_compute; reflexivity).
  rewrite Hr in Hk. cbn in Hk. congruence.
Defined.

Lemma scheduler_switch_exit_spec_witness :
  ∃ krsp m', scheduler_switch_exit sched_demo 5000 = Ret (krsp, m') ∧ sched_inv m'.
Proof.
  destruct (scheduler_switch_exit_spec sched_demo 5000 (set_kernel_rsp 1000 (demo_proc 1 Running)))
    as (krsp & m' & Hr & (Hi & _) & _); [apply sched_demo_inv|reflexivity|].
  exists krsp, m'. split; [exact Hr|exact Hi].
Defined.
