(* ===== verification/Paging.v ===== *)
(** * Page tables (src/kernel_rust/src/paging.rs)

    Four-level tables in physical memory, which the kernel reads and writes through
    its identity map; here the words are accessed directly, and Reach has the accesses checked.  [pg] holds the words of physical memory, the bitmap of the physical
    memory manager and the root in [cr3]; the handle [a] of the memory manager is fixed.
    TLB invalidation and the interrupt flag have no effect in this sequential model. *)

From Stdlib Require Import ZArith Lia.
From stdpp Require Import base numbers list list_numbers option gmap.
From S2P Require Import Prelude Pmm Memory.

Local Open Scope Z_scope.

Definition PAGE_PRESENT : Z := bit 0.
Definition PAGE_WRITABLE : Z := bit 1.
Definition PAGE_USER : Z := bit 2.
Definition PAGE_ACCESSED : Z := bit 5.
Definition PAGE_DIRTY : Z := bit 6.
Definition PAGE_HUGE : Z := bit 7.
Definition PAGE_GLOBAL : Z := bit 8.
Definition PAGE_NO_EXEC : Z := bit 63.
Definition PAGE_KERNEL : Z := Z.lor PAGE_PRESENT PAGE_WRITABLE.
Definition PAGE_KERNEL_HUGE : Z := Z.lor (Z.lor PAGE_PRESENT PAGE_WRITABLE) PAGE_HUGE.
Definition PAGE_USER_RW : Z := Z.lor (Z.lor PAGE_PRESENT PAGE_WRITABLE) PAGE_USER.
Definition PAGE_USER_RO : Z := Z.lor PAGE_PRESENT PAGE_USER.

Definition ADDR_MASK : Z := 4503599627366400.        (* 0x000FFFFF_FFFFF000 *)
Definition KERNEL_SCRATCH_VA : Z := 1073741824.      (* 0x4000_0000 *)
Definition PAGING_USER_CODE_ADDR : Z := 33554432.    (* 0x2000000 *)

Definition overlaps_kernel_scratch (start stop : Z) : bool :=
  (start <? KERNEL_SCRATCH_VA + 4096) && (KERNEL_SCRATCH_VA <? stop).

(** [saturating_add] on [u64]. *)
Definition sat_add (x y : Z) : Z := Z.min (x + y) U64_MAX.

Definition has (e flag : Z) : bool := negb (Z.land e flag =? 0).
Definition entry_addr (e : Z) : Z := Z.land e ADDR_MASK.

(** The address of entry [i] of the table at [t]. *)
Definition slot (t i : Z) : Z := t + 8 * i.

Record pg := mkPg { pg_mem : mem; pg_bm : bitmap; pg_cr3 : Z }.

Definition set_mem (m : mem) (s : pg) : pg := mkPg m (pg_bm s) (pg_cr3 s).
Definition set_bm (b : bitmap) (s : pg) : pg := mkPg (pg_mem s) b (pg_cr3 s).
Definition set_cr3 (c : Z) (s : pg) : pg := mkPg (pg_mem s) (pg_bm s) c.
Definition pg_ld (s : pg) (x : Z) : Z := ld64 (pg_mem s) x.
Definition pg_st (s : pg) (x v : Z) : pg := set_mem (st64 (pg_mem s) x v) s.

Definition read_cr3 (s : pg) : Z := entry_addr (pg_cr3 s).

Definition index_at (vaddr k : Z) : Z := Z.land (Z.shiftr vaddr k) 511.
Definition indices (vaddr : Z) : Z * Z * Z * Z :=
  (index_at vaddr 39, index_at vaddr 30, index_at vaddr 21, index_at vaddr 12).

(** Zero [n] words from [x]. *)
Fixpoint zero_words (m : mem) (x : Z) (n : nat) : mem :=
  match n with
  | O => m
  | S n => zero_words (st64 m x 0) (x + 8) n
  end.

(** The words of the physical page [page].  The code uses the physical address as a pointer; [Reach.zero_table_via] is this with
    every store checked against the active address space. *)
Definition zero_table (s : pg) (page : Z) : pg := set_mem (zero_words (pg_mem s) page 512) s.

(** [table.iter().all(|slot| *slot == 0)], from entry [i] on. *)
Fixpoint all_zero (m : mem) (t i : Z) (n : nat) : bool :=
  match n with
  | O => true
  | S n => (ld64 m (slot t i) =? 0) && all_zero m t (i + 1) n
  end.

Definition table_empty (s : pg) (t : Z) : bool := all_zero (pg_mem s) t 0 512.

Section pmm.
Context (a : PmmAllocator).

Definition pmm_alloc (s : pg) : outcome (Z * pg) :=
  '(page, b) ← alloc a (pg_bm s); Ret (page, set_bm b s).

Definition pmm_free (s : pg) (addr : Z) : outcome pg :=
  b ← free a (pg_bm s) addr; Ret (set_bm b s).

(** ** Walking and creating tables *)

(** [get_or_create_table] on the entry at address [entry]; halts when memory is exhausted.  The entry and the new table are words of
    physical memory; [Reach.get_or_create_table_via] checks that the active address space maps them to themselves. *)
Definition get_or_create_table (s : pg) (entry : Z) : outcome (Z * pg) :=
  if has (pg_ld s entry) PAGE_PRESENT then Ret (entry_addr (pg_ld s entry), s)
  else
    '(page, s) ← pmm_alloc s;
    if page =? 0 then Hang
    else
      let s := zero_table s page in
      Ret (page, pg_st s entry (Z.lor (Z.lor page PAGE_KERNEL) PAGE_USER)).

Definition try_get_or_create_table (s : pg) (entry : Z) : outcome (option Z * pg) :=
  if has (pg_ld s entry) PAGE_PRESENT then Ret (Some (entry_addr (pg_ld s entry)), s)
  else
    '(page, s) ← pmm_alloc s;
    if page =? 0 then Ret (None, s)
    else
      let s := zero_table s page in
      Ret (Some page, pg_st s entry (Z.lor (Z.lor page PAGE_KERNEL) PAGE_USER)).

(** ** Translation *)

Definition translate_in_pml4 (s : pg) (vaddr pml4_phys : Z) : option Z :=
  let '(l4i, l3i, l2i, l1i) := indices vaddr in
  let e4 := pg_ld s (slot pml4_phys l4i) in
  if negb (has e4 PAGE_PRESENT) then None
  else
    let e3 := pg_ld s (slot (entry_addr e4) l3i) in
    if negb (has e3 PAGE_PRESENT) then None
    else
      let e2 := pg_ld s (slot (entry_addr e3) l2i) in
      if negb (has e2 PAGE_PRESENT) then None
      else if has e2 PAGE_HUGE then Some (Z.lor (entry_addr e2) (Z.land vaddr 2097151))
      else
        let e1 := pg_ld s (slot (entry_addr e2) l1i) in
        if negb (has e1 PAGE_PRESENT) then None
        else Some (Z.lor (entry_addr e1) (Z.land vaddr 4095)).

Definition translate (s : pg) (vaddr : Z) : option Z := translate_in_pml4 s vaddr (read_cr3 s).

(** ** Mapping *)

(** [*entry |= PAGE_USER]. *)
Definition set_user (s : pg) (entry : Z) : pg := pg_st s entry (Z.lor (pg_ld s entry) PAGE_USER).

Definition map_4k (s : pg) (vaddr paddr flags : Z) : outcome pg :=
  if has flags PAGE_USER && overlaps_kernel_scratch vaddr (sat_add vaddr 4096) then Ret s
  else
    let '(l4i, l3i, l2i, l1i) := indices vaddr in
    let l4 := read_cr3 s in
    '(l3, s) ← get_or_create_table s (slot l4 l4i);
    '(l2, s) ← get_or_create_table s (slot l3 l3i);
    '(l1, s) ← get_or_create_table s (slot l2 l2i);
    let s := pg_st s (slot l1 l1i) (Z.lor paddr flags) in
    if has flags PAGE_USER
    then Ret (set_user (set_user (set_user s (slot l4 l4i)) (slot l3 l3i)) (slot l2 l2i))
    else Ret s.

Definition try_map_4k (s : pg) (vaddr paddr flags : Z) : outcome (bool * pg) :=
  if has flags PAGE_USER && overlaps_kernel_scratch vaddr (sat_add vaddr 4096) then Ret (false, s)
  else
    match translate_in_pml4 s vaddr (read_cr3 s) with
    | Some _ => Ret (false, s)
    | None =>
        let '(l4i, l3i, l2i, l1i) := indices vaddr in
        let l4 := read_cr3 s in
        '(o3, s) ← try_get_or_create_table s (slot l4 l4i);
        match o3 with
        | None => Ret (false, s)
        | Some l3 =>
            '(o2, s) ← try_get_or_create_table s (slot l3 l3i);
            match o2 with
            | None => Ret (false, s)
            | Some l2 =>
                '(o1, s) ← try_get_or_create_table s (slot l2 l2i);
                match o1 with
                | None => Ret (false, s)
                | Some l1 =>
                    let s := pg_st s (slot l1 l1i) (Z.lor paddr flags) in
                    if has flags PAGE_USER
                    then Ret (true, set_user (set_user (set_user s (slot l4 l4i)) (slot l3 l3i)) (slot l2 l2i))
                    else Ret (true, s)
                end
            end
        end
    end.

(** Run [f] with [cr3] switched to [target]. *)
Definition with_cr3 {A} (f : pg → outcome (A * pg)) (s : pg) (target : Z) : outcome (A * pg) :=
  let saved_cr3 := read_cr3 s in
  if target =? saved_cr3 then f s
  else
    '(r, s) ← f (set_cr3 target s);
    Ret (r, set_cr3 saved_cr3 s).

Definition map_4k_target (s : pg) (vaddr paddr flags target : Z) : outcome pg :=
  '(_, s) ← with_cr3 (λ s, s ← map_4k s vaddr paddr flags; Ret ((), s)) s target; Ret s.

Definition try_map_4k_target (s : pg) (vaddr paddr flags target : Z) : outcome (bool * pg) :=
  with_cr3 (λ s, try_map_4k s vaddr paddr flags) s target.

Definition map_2m (s : pg) (vaddr paddr flags : Z) : outcome pg :=
  let '(l4i, l3i, l2i, _) := indices vaddr in
  '(l3, s) ← get_or_create_table s (slot (read_cr3 s) l4i);
  '(l2, s) ← get_or_create_table s (slot l3 l3i);
  if negb (has (pg_ld s (slot l2 l2i)) PAGE_PRESENT)
  then Ret (pg_st s (slot l2 l2i) (Z.lor paddr flags)) else Ret s.

(** [for i in i..i+n] of [map_range_2m]. *)
Fixpoint map_2m_loop (s : pg) (vstart pstart flags i : Z) (n : nat) : outcome pg :=
  match n with
  | O => Ret s
  | S n =>
      s ← map_2m s (u64 (vstart + i * 2097152)) (u64 (pstart + i * 2097152)) flags;
      map_2m_loop s vstart pstart flags (i + 1) n
  end.

Definition map_range_2m (s : pg) (vaddr_start paddr_start size flags : Z) : outcome pg :=
  let vstart := and_not vaddr_start 2097151 in
  let pstart := and_not paddr_start 2097151 in
  let vend := and_not (u64 (u64 (vaddr_start + size) + 2097151)) 2097151 in
  let count := u64 (vend - vstart) / 2097152 in
  map_2m_loop s vstart pstart flags 0 (Z.to_nat count).

Definition extend_kernel_identity (s : pg) (size : Z) : outcome pg :=
  map_range_2m s 0 0 size PAGE_KERNEL_HUGE.

(** ** Unmapping *)

Definition unmap (s : pg) (vaddr : Z) : option Z * pg :=
  let '(l4i, l3i, l2i, l1i) := indices vaddr in
  let e4 := pg_ld s (slot (read_cr3 s) l4i) in
  if negb (has e4 PAGE_PRESENT) then (None, s)
  else
    let e3 := pg_ld s (slot (entry_addr e4) l3i) in
    if negb (has e3 PAGE_PRESENT) then (None, s)
    else
      let l2 := entry_addr e3 in
      let e2 := pg_ld s (slot l2 l2i) in
      if negb (has e2 PAGE_PRESENT) then (None, s)
      else if has e2 PAGE_HUGE then (Some e2, pg_st s (slot l2 l2i) 0)
      else
        let l1 := entry_addr e2 in
        let e1 := pg_ld s (slot l1 l1i) in
        if negb (has e1 PAGE_PRESENT) then (None, s)
        else (Some e1, pg_st s (slot l1 l1i) 0).

Definition unmap_and_free_empty (s : pg) (vaddr : Z) : outcome (option Z * pg) :=
  let '(l4i, l3i, l2i, l1i) := indices vaddr in
  let l4 := read_cr3 s in
  let e4 := pg_ld s (slot l4 l4i) in
  if negb (has e4 PAGE_PRESENT) then Ret (None, s)
  else
    let l3 := entry_addr e4 in
    let e3 := pg_ld s (slot l3 l3i) in
    if negb (has e3 PAGE_PRESENT) then Ret (None, s)
    else
      let l2 := entry_addr e3 in
      let e2 := pg_ld s (slot l2 l2i) in
      if negb (has e2 PAGE_PRESENT) || has e2 PAGE_HUGE then Ret (unmap s vaddr)
      else
        let l1 := entry_addr e2 in
        let e1 := pg_ld s (slot l1 l1i) in
        if negb (has e1 PAGE_PRESENT) then Ret (None, s)
        else
          let s := pg_st s (slot l1 l1i) 0 in
          if table_empty s l1 then
            s ← pmm_free (pg_st s (slot l2 l2i) 0) l1;
            if table_empty s l2 then
              s ← pmm_free (pg_st s (slot l3 l3i) 0) l2;
              if table_empty s l3 then
                s ← pmm_free (pg_st s (slot l4 l4i) 0) l3;
                Ret (Some e1, s)
              else Ret (Some e1, s)
            else Ret (Some e1, s)
          else Ret (Some e1, s).

(** ** The kernel scratch mapping *)

Record ScratchProvision := mkProvision { new_pd : Z; new_pt : Z }.

(** Undo the page directory made by [provision_kernel_scratch]. *)
Definition undo_pd (s : pg) (l3 l3i new_pd : Z) : outcome pg :=
  if negb (new_pd =? 0) then pmm_free (pg_st s (slot l3 l3i) 0) new_pd else Ret s.

(** From the page directory at [l2] on. *)
Definition provision_pt (s : pg) (l3 new_pd : Z) : outcome (option ScratchProvision * pg) :=
  let '(_, l3i, l2i, l1i) := indices KERNEL_SCRATCH_VA in
  let l2 := entry_addr (pg_ld s (slot l3 l3i)) in
  let e2 := pg_ld s (slot l2 l2i) in
  '(r, s) ←
    (if negb (has e2 PAGE_PRESENT) then
       '(page, s) ← pmm_alloc s;
       if page =? 0 then Ret (None, s)
       else
         let s := zero_table s page in
         Ret (Some page, pg_st s (slot l2 l2i) (Z.lor page PAGE_KERNEL))
     else if has e2 PAGE_HUGE then Ret (None, s)
     else Ret (Some 0, s));
  match r with
  | None => s ← undo_pd s l3 l3i new_pd; Ret (None, s)
  | Some new_pt =>
      let pt := entry_addr (pg_ld s (slot l2 l2i)) in
      let e1 := pg_ld s (slot pt l1i) in
      if has e1 PAGE_PRESENT || negb (e1 =? 0) then
        s ← (if negb (new_pt =? 0) then pmm_free (pg_st s (slot l2 l2i) 0) new_pt else Ret s);
        s ← undo_pd s l3 l3i new_pd;
        Ret (None, s)
      else Ret (Some (mkProvision new_pd new_pt), s)
  end.

Definition provision_kernel_scratch (s : pg) : outcome (option ScratchProvision * pg) :=
  let '(l4i, l3i, _, _) := indices KERNEL_SCRATCH_VA in
  let e4 := pg_ld s (slot (read_cr3 s) l4i) in
  if negb (has e4 PAGE_PRESENT) || has e4 PAGE_HUGE then Ret (None, s)
  else
    let l3 := entry_addr e4 in
    let e3 := pg_ld s (slot l3 l3i) in
    if negb (has e3 PAGE_PRESENT) then
      '(page, s) ← pmm_alloc s;
      if page =? 0 then Ret (None, s)
      else
        let s := zero_table s page in
        provision_pt (pg_st s (slot l3 l3i) (Z.lor page PAGE_KERNEL)) l3 page
    else if has e3 PAGE_HUGE then Ret (None, s)
    else provision_pt s l3 0.

(** Reclaim the table [owned] that the entry points to, if it is empty. *)
Definition reclaim_owned (s : pg) (entry owned : Z) : outcome pg :=
  let e := pg_ld s entry in
  if negb (owned =? 0) && (entry_addr e =? owned) && negb (has e PAGE_HUGE) then
    if table_empty s (entry_addr e) then pmm_free (pg_st s entry 0) owned else Ret s
  else Ret s.

Definition cleanup_kernel_scratch (s : pg) (provision : ScratchProvision) : outcome pg :=
  if (new_pd provision =? 0) && (new_pt provision =? 0) then Ret s
  else
    let '(l4i, l3i, l2i, _) := indices KERNEL_SCRATCH_VA in
    let e4 := pg_ld s (slot (read_cr3 s) l4i) in
    if negb (has e4 PAGE_PRESENT) || has e4 PAGE_HUGE then Ret s
    else
      let l3 := entry_addr e4 in
      let e3 := pg_ld s (slot l3 l3i) in
      if negb (has e3 PAGE_PRESENT) || has e3 PAGE_HUGE then Ret s
      else
        s ← reclaim_owned s (slot (entry_addr e3) l2i) (new_pt provision);
        reclaim_owned s (slot l3 l3i) (new_pd provision).

(** The address of the scratch page-table entry. *)
Definition kernel_scratch_pte (s : pg) : option Z :=
  let '(l4i, l3i, l2i, l1i) := indices KERNEL_SCRATCH_VA in
  let e4 := pg_ld s (slot (read_cr3 s) l4i) in
  if negb (has e4 PAGE_PRESENT) || has e4 PAGE_HUGE then None
  else
    let e3 := pg_ld s (slot (entry_addr e4) l3i) in
    if negb (has e3 PAGE_PRESENT) || has e3 PAGE_HUGE then None
    else
      let e2 := pg_ld s (slot (entry_addr e3) l2i) in
      if negb (has e2 PAGE_PRESENT) || has e2 PAGE_HUGE then None
      else Some (slot (entry_addr e2) l1i).

(** Copy [n] words between physical addresses. *)
Fixpoint copy_words (m : mem) (src dst : Z) (n : nat) : mem :=
  match n with
  | O => m
  | S n => copy_words (st64 m dst (ld64 m src)) (src + 8) (dst + 8) n
  end.

(** The copy reads and writes through the page tables in [cr3]; an unmapped address faults. *)
Definition copy_user_page_through_scratch (s : pg) (src_vaddr child_page : Z) : outcome (bool * pg) :=
  match kernel_scratch_pte s with
  | None => Ret (false, s)
  | Some pte =>
      if has (pg_ld s pte) PAGE_PRESENT then Ret (false, s)
      else
        let s := pg_st s pte (Z.lor child_page PAGE_KERNEL) in
        src ← deref (translate s src_vaddr);
        dst ← deref (translate s KERNEL_SCRATCH_VA);
        let s := set_mem (copy_words (pg_mem s) src dst 512) s in
        Ret (true, pg_st s pte 0)
  end.

(** ** Destroying an address space *)

Record Pml4Handle := mkHandle { phys : Z; owns_user_leaves : bool }.

(** [for pte in pt.iter()], from entry [k] on. *)
Fixpoint free_leaves (s : pg) (owns : bool) (pt k : Z) (n : nat) : outcome pg :=
  match n with
  | O => Ret s
  | S n =>
      let pte := pg_ld s (slot pt k) in
      s ← (if owns && has pte PAGE_PRESENT && has pte PAGE_USER then pmm_free s (entry_addr pte) else Ret s);
      free_leaves s owns pt (k + 1) n
  end.

Fixpoint free_pd (s : pg) (owns : bool) (pdpt_idx pd pd_idx : Z) (n : nat) : outcome pg :=
  match n with
  | O => Ret s
  | S n =>
      let vaddr := Z.lor (Z.shiftl pdpt_idx 30) (Z.shiftl pd_idx 21) in
      let pde := pg_ld s (slot pd pd_idx) in
      s ← (if negb (has pde PAGE_PRESENT) then Ret s
           else if vaddr <? PAGING_USER_CODE_ADDR then Ret s
           else if has pde PAGE_HUGE then
             if owns && has pde PAGE_USER then pmm_free s (entry_addr pde) else Ret s
           else
             let pt := entry_addr pde in
             s ← free_leaves s owns pt 0 512;
             pmm_free s pt);
      free_pd s owns pdpt_idx pd (pd_idx + 1) n
  end.

Fixpoint free_pdpt (s : pg) (owns : bool) (pdpt pdpt_idx : Z) (n : nat) : outcome pg :=
  match n with
  | O => Ret s
  | S n =>
      let pdpte := pg_ld s (slot pdpt pdpt_idx) in
      s ← (if negb (has pdpte PAGE_PRESENT) || has pdpte PAGE_HUGE then Ret s
           else
             let pd := entry_addr pdpte in
             s ← free_pd s owns pdpt_idx pd 0 512;
             pmm_free s pd);
      free_pdpt s owns pdpt (pdpt_idx + 1) n
  end.

Definition destroy_uncommitted_pml4 (s : pg) (handle : Pml4Handle) : outcome pg :=
  let e0 := pg_ld s (slot (phys handle) 0) in
  if negb (has e0 PAGE_PRESENT) then pmm_free s (phys handle)
  else
    let pdpt := entry_addr e0 in
    s ← free_pdpt s (owns_user_leaves handle) pdpt 0 512;
    s ← pmm_free s pdpt;
    pmm_free s (phys handle).

(** ** Creating an address space *)

(** [for i in i..i+n { new[i] = src[i] }]. *)
Fixpoint copy_entries (m : mem) (src new i : Z) (n : nat) : mem :=
  match n with
  | O => m
  | S n => copy_entries (st64 m (slot new i) (ld64 m (slot src i))) src new (i + 1) n
  end.

Definition table_flags (e : Z) : Z :=
  and_not (Z.land e (Z.lor (Z.lor (Z.lor (Z.lor (Z.lor (Z.lor (Z.lor PAGE_PRESENT PAGE_WRITABLE) PAGE_USER)
    PAGE_ACCESSED) PAGE_DIRTY) PAGE_HUGE) PAGE_GLOBAL) PAGE_NO_EXEC))
    (Z.lor (Z.lor PAGE_ACCESSED PAGE_DIRTY) PAGE_HUGE).

(** The private copy of a user page table; [false] is a failed construction. *)
Fixpoint clone_pt (s : pg) (vaddr src_pt new_pt k : Z) (n : nat) : outcome (bool * pg) :=
  match n with
  | O => Ret (true, s)
  | S n =>
      let src_pte := pg_ld s (slot src_pt k) in
      if negb (has src_pte PAGE_PRESENT) || negb (has src_pte PAGE_USER)
      then clone_pt (pg_st s (slot new_pt k) src_pte) vaddr src_pt new_pt (k + 1) n
      else
        '(child_leaf, s) ← pmm_alloc s;
        if child_leaf =? 0 then Ret (false, s)
        else
          '(copied, s) ← copy_user_page_through_scratch s (u64 (vaddr + k * 4096)) child_leaf;
          if negb copied then
            s ← pmm_free s child_leaf;
            Ret (false, s)
          else
            clone_pt (pg_st s (slot new_pt k) (Z.lor child_leaf (and_not src_pte ADDR_MASK)))
              vaddr src_pt new_pt (k + 1) n
  end.

(** One entry of a page directory. *)
Definition clone_pde (s : pg) (copy_user : bool) (vaddr src_pde new_pd pd_idx : Z) : outcome (bool * pg) :=
  if copy_user && has src_pde PAGE_HUGE && has src_pde PAGE_USER &&
     (PAGING_USER_CODE_ADDR <? sat_add vaddr (Z.shiftl 1 21)) then Ret (false, s)
  else if (PAGING_USER_CODE_ADDR <=? vaddr) && negb copy_user then Ret (true, s)
  else if copy_user && (PAGING_USER_CODE_ADDR <=? vaddr) && negb (has src_pde PAGE_HUGE) then
    '(new_pt, s) ← pmm_alloc s;
    if new_pt =? 0 then Ret (false, s)
    else
      let s := zero_table s new_pt in
      let s := pg_st s (slot new_pd pd_idx) (Z.lor new_pt (and_not src_pde ADDR_MASK)) in
      clone_pt s vaddr (entry_addr src_pde) new_pt 0 512
  else if copy_user && (PAGING_USER_CODE_ADDR <=? vaddr) && has src_pde PAGE_HUGE then
    if has src_pde PAGE_USER then Ret (false, s)
    else Ret (true, pg_st s (slot new_pd pd_idx) src_pde)
  else Ret (true, pg_st s (slot new_pd pd_idx) src_pde).

Fixpoint clone_pd (s : pg) (copy_user : bool) (pdpt_idx src_pd new_pd pd_idx : Z) (n : nat)
    : outcome (bool * pg) :=
  match n with
  | O => Ret (true, s)
  | S n =>
      let src_pde := pg_ld s (slot src_pd pd_idx) in
      if negb (has src_pde PAGE_PRESENT) then clone_pd s copy_user pdpt_idx src_pd new_pd (pd_idx + 1) n
      else
        let vaddr := Z.lor (Z.shiftl pdpt_idx 30) (Z.shiftl pd_idx 21) in
        '(ok, s) ← clone_pde s copy_user vaddr src_pde new_pd pd_idx;
        if negb ok then Ret (false, s)
        else clone_pd s copy_user pdpt_idx src_pd new_pd (pd_idx + 1) n
  end.

(** One entry of the low PDPT. *)
Definition clone_pdpte (s : pg) (copy_user : bool) (src_pdpte new_pdpt pdpt_idx : Z) : outcome (bool * pg) :=
  let base_vaddr := Z.shiftl pdpt_idx 30 in
  if overlaps_kernel_scratch base_vaddr (u64 (base_vaddr + Z.shiftl 1 30)) then Ret (true, s)
  else if has src_pdpte PAGE_HUGE then
    let huge_end := sat_add base_vaddr (Z.shiftl 1 30) in
    if copy_user && has src_pdpte PAGE_USER && (PAGING_USER_CODE_ADDR <? huge_end) then Ret (false, s)
    else if (PAGING_USER_CODE_ADDR <=? base_vaddr) && negb copy_user then Ret (true, s)
    else Ret (true, pg_st s (slot new_pdpt pdpt_idx) (and_not src_pdpte (Z.lor PAGE_ACCESSED PAGE_DIRTY)))
  else
    '(new_pd, s) ← pmm_alloc s;
    if new_pd =? 0 then Ret (false, s)
    else
      let s := zero_table s new_pd in
      let s := pg_st s (slot new_pdpt pdpt_idx) (Z.lor new_pd (table_flags src_pdpte)) in
      clone_pd s copy_user pdpt_idx (entry_addr src_pdpte) new_pd 0 512.

Fixpoint clone_pdpt (s : pg) (copy_user : bool) (src_pdpt new_pdpt pdpt_idx : Z) (n : nat)
    : outcome (bool * pg) :=
  match n with
  | O => Ret (true, s)
  | S n =>
      let src_pdpte := pg_ld s (slot src_pdpt pdpt_idx) in
      if negb (has src_pdpte PAGE_PRESENT) then clone_pdpt s copy_user src_pdpt new_pdpt (pdpt_idx + 1) n
      else
        '(ok, s) ← clone_pdpte s copy_user src_pdpte new_pdpt pdpt_idx;
        if negb ok then Ret (false, s)
        else clone_pdpt s copy_user src_pdpt new_pdpt (pdpt_idx + 1) n
  end.

(** The low half: a private PDPT under entry 0. *)
Definition clone_low (s : pg) (copy_user : bool) (src_l4 new_l4 : Z) : outcome (bool * pg) :=
  let src_pml4e_0 := pg_ld s (slot src_l4 0) in
  if negb (has src_pml4e_0 PAGE_PRESENT) then Ret (true, s)
  else
    '(new_pdpt, s) ← pmm_alloc s;
    if new_pdpt =? 0 then Ret (false, s)
    else
      let s := zero_table s new_pdpt in
      let s := pg_st s (slot new_l4 0) (Z.lor new_pdpt (table_flags src_pml4e_0)) in
      clone_pdpt s copy_user (entry_addr src_pml4e_0) new_pdpt 0 512.

Definition cleanup_if (s : pg) (o : option ScratchProvision) : outcome pg :=
  match o with Some p => cleanup_kernel_scratch s p | None => Ret s end.

(** [create_pml4_inner] without an injected failure; a failure in [clone_low] destroys what was
    built. *)
Definition create_pml4 (s : pg) (copy_user : bool) : outcome (option Pml4Handle * pg) :=
  '(provisioned, scratch, s) ←
    (if copy_user then
       '(r, s) ← provision_kernel_scratch s;
       Ret (match r with Some p => (true, Some p, s) | None => (false, None, s) end)
     else Ret (true, None, s));
  if negb (provisioned : bool) then Ret (None, s)
  else
    let src_l4 := read_cr3 s in
    '(new_l4, s) ← pmm_alloc s;
    if new_l4 =? 0 then s ← cleanup_if s scratch; Ret (None, s)
    else
      let s := zero_table s new_l4 in
      let s := set_mem (copy_entries (pg_mem s) src_l4 new_l4 1 511) s in
      '(ok, s) ← clone_low s copy_user src_l4 new_l4;
      if negb ok then
        s ← destroy_uncommitted_pml4 s (mkHandle new_l4 true);
        s ← cleanup_if s scratch;
        Ret (None, s)
      else
        s ← cleanup_if s scratch;
        Ret (Some (mkHandle new_l4 true), s).
End pmm.
