(* ===== verification/PageMaps.v ===== *)
(** * Mapping and translation

    The tables below a root as a tree of distinct pages, and what mapping and unmapping
    a page do to translation. *)

From Stdlib Require Import ZArith Lia.
From stdpp Require Import base numbers list list_numbers option gmap.
From S2P Require Import Prelude Pmm Memory Paging.

Local Open Scope Z_scope.

(** ** Entries *)

Lemma has_bit e k : 0 ≤ k → has e (bit k) = Z.testbit e k.
Proof. intros. unfold has. by rewrite land_bit_eqb, negb_involutive. Qed.

Lemma mask_bit n : 0 ≤ n → Z.testbit ADDR_MASK n = (12 <=? n) && (n <? 52).
Proof.
  intros Hn. change ADDR_MASK with (Z.shiftl (Z.ones 40) 12). rewrite Z.shiftl_spec by lia.
  destruct (Z.leb_spec 12 n); [|by rewrite Z.testbit_neg_r by lia].
  rewrite Z.testbit_ones_nonneg by lia. cbn. zcases; lia || done.
Qed.

Lemma entry_addr_bit e n : 0 ≤ n →
  Z.testbit (entry_addr e) n = Z.testbit e n && ((12 <=? n) && (n <? 52)).
Proof. intros. unfold entry_addr. by rewrite Z.land_spec, mask_bit. Qed.

(** A physical page address an entry can hold. *)
Definition page_ok (t : Z) : Prop := t mod 4096 = 0 ∧ 0 ≤ t < 2 ^ 52.

Lemma page_ok_low t n : page_ok t → 0 ≤ n → n < 12 ∨ 52 ≤ n → Z.testbit t n = false.
Proof.
  intros [Hm Hr] Hn [|]; [|by eapply (testbit_high 52)].
  rewrite (Z.div_mod t 4096), Hm, Z.add_0_r by lia. rewrite Z.mul_comm.
  change 4096 with (2 ^ 12). by apply Z.mul_pow2_bits_low.
Qed.

Lemma entry_addr_page t f : page_ok t → (∀ n, 12 ≤ n < 52 → Z.testbit f n = false) →
  entry_addr (Z.lor t f) = t.
Proof.
  intros Ht Hf. apply Z.bits_inj'. intros n Hn. rewrite entry_addr_bit, Z.lor_spec by done.
  destruct (decide (12 ≤ n < 52)) as [Hin|Hout].
  - rewrite Hf, orb_false_r by done. zcases; lia || by rewrite andb_true_r.
  - rewrite (page_ok_low t) by (done || lia). zcases; try lia; by rewrite ?andb_false_r.
Qed.

Lemma entry_addr_ok e : page_ok (entry_addr e).
Proof.
  unfold entry_addr. split.
  - change 4096 with (2 ^ 12). apply Z.bits_inj'. intros n Hn. rewrite Z.bits_0.
    destruct (decide (n < 12)).
    + rewrite Z.mod_pow2_bits_low, Z.land_spec, mask_bit by lia. zcases; cbn; by rewrite ?andb_false_r.
    + by apply Z.mod_pow2_bits_high; lia.
  - apply bits_bound; [lia|apply Z.land_nonneg; by right|].
    intros n Hn. rewrite Z.land_spec, mask_bit by lia. zcases; cbn; by rewrite ?andb_false_r.
Qed.

(** ** Walks *)

Definition link (e : Z) : bool := has e PAGE_PRESENT && negb (has e PAGE_HUGE).

Definition next (m : mem) (t i : Z) : option Z :=
  if link (ld64 m (slot t i)) then Some (entry_addr (ld64 m (slot t i))) else None.

(** The table reached from [t] along the indices [path]. *)
Definition walk (m : mem) (t : Z) (path : list Z) : option Z :=
  fold_left (λ o i, t ← o; next m t i) path (Some t).

Lemma walk_nil m t : walk m t [] = Some t.
Proof. done. Qed.

Lemma walk_snoc m t path i : walk m t (path ++ [i]) = (t' ← walk m t path; next m t' i).
Proof. unfold walk. by rewrite fold_left_app. Qed.

Lemma walk3 m t a b c : walk m t [a; b; c] = (t' ← walk m t [a; b]; next m t' c).
Proof. apply (walk_snoc m t [a; b] c). Qed.

Definition ok_path (path : list Z) : Prop := (length path ≤ 3)%nat ∧ Forall (λ i, 0 ≤ i < 512) path.

Lemma ok_path_snoc path i : ok_path (path ++ [i]) → ok_path path ∧ 0 ≤ i < 512 ∧ (length path ≤ 2)%nat.
Proof.
  intros [Hl Hf]. rewrite length_app in Hl. apply Forall_app in Hf as [Hf Hi].
  apply Forall_cons in Hi as [Hi _]. cbn in Hl. split; [split; [lia|done]|]. split; [done|lia].
Qed.

Lemma ok_path_prefix vp path : ok_path vp → path `prefix_of` vp → ok_path path.
Proof. intros [Hl Hf] [k ->]. rewrite length_app in Hl. apply Forall_app in Hf as [Hf _]. split; [lia|done]. Qed.

(** The tables of the address [v], from the root on. *)
Definition path_of (v : Z) : list Z := [index_at v 39; index_at v 30; index_at v 21].

(** Two pages have no slot in common. *)
Lemma slot_inj t t' i j : page_ok t → page_ok t' → 0 ≤ i < 512 → 0 ≤ j < 512 →
  slot t i = slot t' j → t = t' ∧ i = j.
Proof.
  intros [Ht _] [Ht' _] Hi Hj He. unfold slot in He.
  apply Z.mod_divide in Ht as [k ->]; [|lia]. apply Z.mod_divide in Ht' as [k' ->]; [|lia]. lia.
Qed.

(** The tables below [r] are distinct pages. *)
Record tree (m : mem) (r : Z) : Prop := {
  tr_ok : ∀ path t, ok_path path → walk m r path = Some t → page_ok t;
  tr_inj : ∀ p1 p2 t, ok_path p1 → ok_path p2 → walk m r p1 = Some t → walk m r p2 = Some t → p1 = p2;
  tr_nohuge : ∀ path t i, ok_path (path ++ [i]) → (length path ≤ 1)%nat → walk m r path = Some t →
    has (ld64 m (slot t i)) PAGE_PRESENT = true → has (ld64 m (slot t i)) PAGE_HUGE = false
}.

Lemma zero_words_ld m x n y : ld64 (zero_words m x n) y =
  if (x <=? y) && (y <? x + 8 * Z.of_nat n) && ((y - x) mod 8 =? 0) then 0 else ld64 m y.
Proof.
  revert m x. induction n as [|n IH]; intros m x; cbn [zero_words].
  - zcases; cbn; try done; lia.
  - rewrite IH. destruct (decide (y = x)) as [->|Hne].
    + rewrite Z.sub_diag. zcases; try lia; cbn; rewrite ?ld_st_eq; done.
    + rewrite ld_st_ne by done.
      replace ((y - (x + 8)) mod 8) with ((y - x) mod 8)
        by (replace (y - (x + 8)) with (y - x + (-1) * 8) by lia; by rewrite Z.mod_add by lia).
      destruct (Z.eqb_spec ((y - x) mod 8) 0) as [E|E]; [|by rewrite !andb_false_r].
      rewrite !andb_true_r. zcases; try lia; try done.
      assert (y < x + 8) by lia. assert (x < y) by lia.
      rewrite Z.mod_small in E by lia. lia.
Qed.

(** ** Adding a table *)

Section create.
Context (m m' : mem) (r t i n e : Z) (rho : list Z).
Context (Htree : tree m r) (Hrho : ok_path (rho ++ [i])) (Hwalk : walk m r rho = Some t).
Context (Hnone : has (ld64 m (slot t i)) PAGE_PRESENT = false).
Context (Hn : page_ok n) (Hfresh : ∀ path t', ok_path path → walk m r path = Some t' → t' ≠ n).
Context (He : link e = true) (Hea : entry_addr e = n).
Context (Hm_slot : ld64 m' (slot t i) = e).
Context (Hm_new : ∀ j, 0 ≤ j < 512 → ld64 m' (slot n j) = 0).
Context (Hm_old : ∀ t' j, page_ok t' → t' ≠ n → 0 ≤ j < 512 → slot t' j ≠ slot t i →
  ld64 m' (slot t' j) = ld64 m (slot t' j)).

Lemma has_0 f : has 0 f = false.
Proof. unfold has. by rewrite Z.land_0_l. Qed.

Lemma next_new j : 0 ≤ j < 512 → next m' n j = None.
Proof using Hm_new. intros Hj. unfold next, link. rewrite Hm_new, has_0 by done. done. Qed.

Lemma next_old path t' j : ok_path (path ++ [j]) → walk m r path = Some t' → path ++ [j] ≠ rho ++ [i] →
  next m' t' j = next m t' j.
Proof using Htree Hrho Hwalk Hfresh Hm_old.
  intros Hok Hw Hne. apply ok_path_snoc in Hok as (Hp & Hj & _).
  pose proof (ok_path_snoc _ _ Hrho) as (Hr & Hi & _).
  pose proof (tr_ok _ _ Htree _ _ Hp Hw). pose proof (tr_ok _ _ Htree _ _ Hr Hwalk).
  unfold next. rewrite Hm_old; [done|done|exact (Hfresh _ _ Hp Hw)|done|].
  intros Hs. apply slot_inj in Hs as [-> ->]; [|done..].
  apply Hne. f_equal. by eapply (tr_inj _ _ Htree).
Qed.

(** The walks after the addition. *)
Lemma walk_create path : ok_path path →
  walk m' r path = if decide (rho ++ [i] `prefix_of` path)
                   then if decide (path = rho ++ [i]) then Some n else None
                   else walk m r path.
Proof using All.
  induction path as [|j path IH] using rev_ind; intros Hok.
  - rewrite decide_False; [done|]. intros Hk%prefix_length. rewrite length_app in Hk. cbn in Hk. lia.
  - pose proof (ok_path_snoc _ _ Hok) as (Hp & Hj & _). rewrite walk_snoc, IH by done.
    destruct (decide (rho ++ [i] `prefix_of` path)) as [Hpre|Hpre].
    + rewrite (decide_True (P := _ `prefix_of` _)) by (by apply prefix_app_r).
      rewrite (decide_False (P := path ++ [j] = rho ++ [i])).
      * case_decide; [|done]. cbn. by apply next_new.
      * intros Heq. apply (f_equal length) in Heq. apply prefix_length in Hpre.
        rewrite !length_app in *. cbn in *. lia.
    + destruct (decide (path ++ [j] = rho ++ [i])) as [Heq|Hne].
      * rewrite (decide_True (P := _ `prefix_of` _)) by (by rewrite Heq).
        apply app_inj_2 in Heq as [-> [= ->]]; [|done].
        rewrite Hwalk. cbn. unfold next. by rewrite Hm_slot, He, Hea.
      * rewrite (decide_False (P := _ `prefix_of` _)).
        { rewrite walk_snoc. destruct (walk m r path) as [t'|] eqn:Hw; [|done]. cbn. by eapply next_old. }
        intros [k Hk]. destruct k as [|x k] using rev_ind.
        -- rewrite app_nil_r in Hk. done.
        -- rewrite app_assoc in Hk. apply app_inj_2 in Hk as [-> _]; [|done].
           apply Hpre. by apply prefix_app_r.
Qed.

Lemma tree_create : tree m' r.
Proof using All.
  assert (∀ path t', ok_path path → walk m' r path = Some t' →
    path = rho ++ [i] ∧ t' = n ∨ walk m r path = Some t' ∧ path ≠ rho ++ [i]) as Hw.
  { intros path t' Hok. rewrite walk_create by done. repeat case_decide; try done.
    - intros [= <-]. by left.
    - intros ?. right. split; [done|]. by intros ->. }
  split.
  - intros path t' Hok [[_ ->]|[? _]]%Hw; eauto using tr_ok.
  - intros p1 p2 t' H1 H2 [[-> ->]|[W1 ?]]%Hw [[-> ?]|[W2 ?]]%Hw; try done.
    + by apply Hfresh in W2.
    + subst. by apply Hfresh in W1.
    + by eapply (tr_inj _ _ Htree).
  - intros path t' j Hok Hlen [[Hpath ->]|[W _]]%Hw; [| |by apply ok_path_snoc in Hok as (? & _)..].
    + pose proof (ok_path_snoc _ _ Hok) as (_ & Hj & _). rewrite Hm_new, has_0 by done. done.
    + pose proof (ok_path_snoc _ _ Hok) as (Hp & Hj & _).
      destruct (decide (path ++ [j] = rho ++ [i])) as [Heq|Hne].
      * apply app_inj_2 in Heq as [-> [= ->]]; [|done].
        rewrite Hwalk in W. injection W as <-. rewrite Hm_slot. unfold link in He. apply andb_true_iff in He as [_ He'].
        by apply negb_true_iff in He'.
      * rewrite Hm_old; [by apply (tr_nohuge _ _ Htree path)|exact (tr_ok _ _ Htree _ _ Hp W)|exact (Hfresh _ _ Hp W)|done|].
        intros Hs. pose proof (ok_path_snoc _ _ Hrho) as (Hr & Hi & _).
        apply slot_inj in Hs as [-> ->]; [|exact (tr_ok _ _ Htree _ _ Hp W)|exact (tr_ok _ _ Htree _ _ Hr Hwalk)|done|done].
        apply Hne. f_equal. by eapply (tr_inj _ _ Htree).
Qed.
End create.

(** ** Changing an entry without changing its link *)

Lemma walk_ext m m' r : (∀ path t i, ok_path (path ++ [i]) → walk m r path = Some t →
    next m' t i = next m t i) →
  ∀ path, ok_path path → walk m' r path = walk m r path.
Proof.
  intros Hn path. induction path as [|j path IH] using rev_ind; intros Hok; [done|].
  pose proof (ok_path_snoc _ _ Hok) as (Hp & _). rewrite !walk_snoc, IH by done.
  destruct (walk m r path) as [t|] eqn:Hw; [|done]. cbn. by eapply Hn.
Qed.

(** Entries that differ in their accessory bits only. *)
Definition same_link (e e' : Z) : Prop :=
  has e' PAGE_PRESENT = has e PAGE_PRESENT ∧ has e' PAGE_HUGE = has e PAGE_HUGE ∧ entry_addr e' = entry_addr e.

Lemma same_link_refl e : same_link e e.
Proof. done. Qed.

Lemma tree_same m m' r : tree m r →
  (∀ path t i, ok_path (path ++ [i]) → walk m r path = Some t →
     same_link (ld64 m (slot t i)) (ld64 m' (slot t i))) →
  tree m' r ∧ ∀ path, ok_path path → walk m' r path = walk m r path.
Proof.
  intros [Hok Hinj Hnh] Hs.
  assert (∀ path, ok_path path → walk m' r path = walk m r path) as Hw.
  { apply walk_ext. intros path t i Hp Hw. destruct (Hs path t i Hp Hw) as (E1 & E2 & E3).
    unfold next, link. by rewrite E1, E2, E3. }
  split; [|done]. split.
  - intros path t Hp. rewrite Hw by done. eauto.
  - intros p1 p2 t H1 H2. rewrite !Hw by done. eauto.
  - intros path t i Hp Hlen. rewrite Hw by (by apply ok_path_snoc in Hp as (? & _)). intros Hwk.
    destruct (Hs path t i Hp Hwk) as (E1 & E2 & _). rewrite E1, E2. eauto.
Qed.

Lemma same_link_user e : same_link e (Z.lor e PAGE_USER).
Proof.
  unfold same_link, PAGE_USER, PAGE_PRESENT, PAGE_HUGE. rewrite !has_bit by lia.
  rewrite !lor_bit_spec by lia. split; [done|]. split; [done|].
  apply Z.bits_inj'. intros n Hn. rewrite !entry_addr_bit, lor_bit_spec by lia.
  zcases; by rewrite ?andb_false_r.
Qed.

(** ** Translation in terms of walks *)

(** The physical address, and whether a 4 KiB page gives the user access. *)
Definition xlate (m : mem) (r : Z) (idx : Z * Z * Z * Z) (v : Z) : option (Z * bool) :=
  let '(a, b, c, d) := idx in
  match walk m r [a; b; c] with
  | Some l1 =>
      if has (ld64 m (slot l1 d)) PAGE_PRESENT
      then Some (Z.lor (entry_addr (ld64 m (slot l1 d))) (Z.land v 4095), has (ld64 m (slot l1 d)) PAGE_USER) else None
  | None =>
      l2 ← walk m r [a; b];
      if has (ld64 m (slot l2 c)) PAGE_PRESENT && has (ld64 m (slot l2 c)) PAGE_HUGE
      then Some (Z.lor (entry_addr (ld64 m (slot l2 c))) (Z.land v 2097151), false) else None
  end.

Lemma index_at_range v k : 0 ≤ index_at v k < 512.
Proof.
  unfold index_at. change 511 with (Z.ones 9). rewrite Z.land_ones by lia.
  apply Z.mod_pos_bound. lia.
Qed.

Definition idx_ok (idx : Z * Z * Z * Z) : Prop :=
  let '(a, b, c, d) := idx in 0 ≤ a < 512 ∧ 0 ≤ b < 512 ∧ 0 ≤ c < 512 ∧ 0 ≤ d < 512.

Lemma indices_ok v : idx_ok (indices v).
Proof. repeat split; apply index_at_range. Qed.

Lemma ok3 a b c : 0 ≤ a < 512 → 0 ≤ b < 512 → 0 ≤ c < 512 → ok_path [a; b; c].
Proof. intros. split; [cbn; lia|]. by rewrite !Forall_cons, Forall_nil. Qed.
Lemma ok2 a b : 0 ≤ a < 512 → 0 ≤ b < 512 → ok_path [a; b].
Proof. intros. split; [cbn; lia|]. by rewrite ?Forall_cons, Forall_nil. Qed.
Lemma ok1 a : 0 ≤ a < 512 → ok_path [a].
Proof. intros. split; [cbn; lia|]. by rewrite ?Forall_cons, Forall_nil. Qed.
#[export] Hint Resolve ok1 ok2 ok3 : vibix.

Lemma translate_walk s v r : tree (pg_mem s) r →
  translate_in_pml4 s v r = fst <$> xlate (pg_mem s) r (indices v) v.
Proof.
  intros Ht. pose proof (indices_ok v) as Hi. unfold translate_in_pml4, xlate.
  destruct (indices v) as [[[a b] c] d]. destruct Hi as (Ha & Hb & Hc & Hd). unfold pg_ld.
  set (m := pg_mem s) in *.
  assert (walk m r [a; b; c] = (t ← walk m r [a; b]; next m t c)) as -> by apply (walk_snoc m r [a; b] c).
  assert (walk m r [a; b] = (t ← walk m r [a]; next m t b)) as Hab by apply (walk_snoc m r [a] b).
  assert (walk m r [a] = next m r a) as Hwa by done.
  destruct (has (ld64 m (slot r a)) PAGE_PRESENT) eqn:P4; cbn [negb].
  2:{ rewrite Hab, Hwa. unfold next, link. by rewrite P4. }
  pose proof (tr_nohuge _ _ Ht [] r a (ok1 a Ha) ltac:(cbn; lia) eq_refl P4) as N4.
  set (l3 := entry_addr (ld64 m (slot r a))) in *.
  assert (walk m r [a] = Some l3) as W1 by (rewrite Hwa; unfold next, link; by rewrite P4, N4).
  rewrite W1 in Hab. cbn [mbind option_bind] in Hab.
  destruct (has (ld64 m (slot l3 b)) PAGE_PRESENT) eqn:P3; cbn [negb].
  2:{ rewrite Hab. unfold next, link. by rewrite P3. }
  pose proof (tr_nohuge _ _ Ht [a] l3 b (ok2 a b Ha Hb) ltac:(cbn; lia) W1 P3) as N3.
  set (l2 := entry_addr (ld64 m (slot l3 b))) in *.
  assert (walk m r [a; b] = Some l2) as W2 by (rewrite Hab; unfold next, link; by rewrite P3, N3).
  rewrite W2. cbn [mbind option_bind]. unfold next, link.
  destruct (has (ld64 m (slot l2 c)) PAGE_PRESENT); cbn [negb andb]; [|done].
  destruct (has (ld64 m (slot l2 c)) PAGE_HUGE); cbn [negb]; [done|].
  by destruct (has (ld64 m (slot (entry_addr (ld64 m (slot l2 c))) d)) PAGE_PRESENT).
Qed.

(** [m'] is [m] with an empty table on the fresh page [n] linked at the end of the path. *)
Definition created (m m' : mem) (r : Z) (rho : list Z) (i n : Z) : Prop :=
  tree m r ∧ ok_path (rho ++ [i]) ∧ page_ok n ∧
  (∀ path t', ok_path path → walk m r path = Some t' → t' ≠ n) ∧
  ∃ t e, walk m r rho = Some t ∧ has (ld64 m (slot t i)) PAGE_PRESENT = false ∧
    link e = true ∧ entry_addr e = n ∧ ld64 m' (slot t i) = e ∧
    (∀ j, 0 ≤ j < 512 → ld64 m' (slot n j) = 0) ∧
    (∀ t' j, page_ok t' → t' ≠ n → 0 ≤ j < 512 → slot t' j ≠ slot t i →
       ld64 m' (slot t' j) = ld64 m (slot t' j)).

Lemma created_walk m m' r rho i n path : created m m' r rho i n → ok_path path →
  walk m' r path = if decide (rho ++ [i] `prefix_of` path)
                   then if decide (path = rho ++ [i]) then Some n else None
                   else walk m r path.
Proof. intros (? & ? & ? & ? & t & e & ? & ? & ? & ? & ? & ? & ?) Hok. by eapply (walk_create m m' r t i n e). Qed.

Lemma created_tree m m' r rho i n : created m m' r rho i n → tree m' r.
Proof. intros (? & ? & ? & ? & t & e & ? & ? & ? & ? & ? & ? & ?). by eapply (tree_create m m' r t i n e). Qed.

(** Paths below the new table led nowhere before. *)
Lemma created_none m m' r rho i n path : created m m' r rho i n → rho ++ [i] `prefix_of` path →
  walk m r path = None.
Proof.
  intros (_ & _ & _ & _ & t & e & Hw & Hp & _) [k ->].
  assert (walk m r (rho ++ [i]) = None) as Hn.
  { rewrite walk_snoc, Hw. cbn. unfold next, link. by rewrite Hp. }
  induction k as [|j k IH] using rev_ind; [by rewrite app_nil_r|].
  by rewrite app_assoc, walk_snoc, IH.
Qed.

(** An empty table does not change any translation. *)
Lemma created_xlate m m' r rho i n idx v : created m m' r rho i n → idx_ok idx →
  xlate m' r idx v = xlate m r idx v.
Proof.
  intros Hc Hi. destruct idx as [[[a b] c] d]. destruct Hi as (Ha & Hb & Hc' & Hd). unfold xlate.
  pose proof Hc as (Ht & Hrho & Hn & Hfresh & t & e & Hw & Hnp & _ & _ & Hs & Hz & Ho).
  pose proof (ok_path_snoc _ _ Hrho) as (Hr & Hir & _).
  assert (∀ path t' j, ok_path path → walk m r path = Some t' → 0 ≤ j < 512 → path ++ [j] ≠ rho ++ [i] →
    ld64 m' (slot t' j) = ld64 m (slot t' j)) as Hold.
  { intros path t' j Hp Hwp Hj Hne. apply Ho; [exact (tr_ok _ _ Ht _ _ Hp Hwp)|exact (Hfresh _ _ Hp Hwp)|done|].
    intros Hsl. apply slot_inj in Hsl as [-> ->]; [|exact (tr_ok _ _ Ht _ _ Hp Hwp)|exact (tr_ok _ _ Ht _ _ Hr Hw)|done|done].
    apply Hne. f_equal. exact (tr_inj _ _ Ht _ _ _ Hp Hr Hwp Hw). }
  rewrite !(created_walk m m' r rho i n) by auto with vibix.
  destruct (decide (rho ++ [i] `prefix_of` [a; b; c])) as [P3|P3].
  - rewrite (created_none m m' r rho i n [a; b; c]) by done.
    destruct (decide (rho ++ [i] `prefix_of` [a; b])) as [P2|P2].
    + rewrite (created_none m m' r rho i n [a; b]) by done.
      rewrite (decide_False (P := [a; b; c] = rho ++ [i])).
      2:{ intros He. rewrite <- He in P2. apply prefix_length in P2. cbn in P2. lia. }
      case_decide; [|done]. cbn [mbind option_bind]. by rewrite Hz, has_0 by done.
    + assert ([a; b; c] = rho ++ [i]) as He.
      { destruct P3 as [k Hk]. destruct k as [|x k] using rev_ind; [by rewrite app_nil_r in Hk|].
        rewrite app_assoc in Hk. change [a; b; c] with ([a; b] ++ [c]) in Hk.
        apply app_inj_2 in Hk as [Hk _]; [|done]. exfalso. apply P2. rewrite Hk. by apply prefix_app_r. }
      rewrite (decide_True (P := [a; b; c] = rho ++ [i])) by done. rewrite Hz, has_0 by done.
      change [a; b; c] with ([a; b] ++ [c]) in He. apply app_inj_2 in He as [<- [= ->]]; [|done].
      rewrite Hw. cbn [mbind option_bind]. by rewrite Hnp.
  - rewrite (decide_False (P := _ `prefix_of` [a; b])).
    2:{ intros H. apply P3. change [a; b; c] with ([a; b] ++ [c]). by apply prefix_app_r. }
    destruct (walk m r [a; b; c]) as [l1|] eqn:W3.
    + rewrite (Hold [a; b; c]); [done|by apply ok3|done|done|].
      intros He. destruct Hrho as [Hl _]. rewrite <- He in Hl. cbn in Hl. lia.
    + destruct (walk m r [a; b]) as [l2|] eqn:W2; [|done]. cbn [mbind option_bind].
      rewrite (Hold [a; b]); [done|by apply ok2|done|done|]. intros He. apply P3. by rewrite <- He.
Qed.

(** ** Writing a leaf *)

Lemma leaf_write m r a b c d l1 e : tree m r → idx_ok (a, b, c, d) → walk m r [a; b; c] = Some l1 →
  let m' := st64 m (slot l1 d) e in
  tree m' r ∧ (∀ path, ok_path path → walk m' r path = walk m r path) ∧
  ∀ idx v, idx_ok idx → xlate m' r idx v =
    if decide (idx = (a, b, c, d))
    then if has e PAGE_PRESENT then Some (Z.lor (entry_addr e) (Z.land v 4095), has e PAGE_USER) else None
    else xlate m r idx v.
Proof.
  intros Ht (Ha & Hb & Hc & Hd) Hw m'.
  pose proof (tr_ok _ _ Ht _ _ (ok3 a b c Ha Hb Hc) Hw) as Hl1.
  assert (∀ path t i, ok_path path → 0 ≤ i < 512 → walk m r path = Some t → (path, i) ≠ ([a; b; c], d) →
    ld64 m' (slot t i) = ld64 m (slot t i)) as Hold.
  { intros path t i Hp Hi Hwp Hne. subst m'. rewrite ld_st_ne; [done|]. intros Hs. symmetry in Hs.
    apply slot_inj in Hs as [-> ->]; [|exact (tr_ok _ _ Ht _ _ Hp Hwp)|done..]. apply Hne. f_equal.
    eapply (tr_inj _ _ Ht); eauto with vibix. }
  destruct (tree_same m m' r Ht) as [Ht' Hw'].
  { intros path t i Hp Hwp. pose proof (ok_path_snoc _ _ Hp) as (Hp' & Hi & Hlen).
    rewrite (Hold path); [apply same_link_refl|done..|]. intros [= -> ->]. cbn in Hlen. lia. }
  split; [done|]. split; [done|]. intros [[[a' b'] c'] d'] v (Ha' & Hb' & Hc' & Hd'). unfold xlate.
  rewrite !Hw' by auto with vibix.
  destruct (decide ((a', b', c', d') = (a, b, c, d))) as [[= -> -> -> ->]|Hne].
  - rewrite Hw. subst m'. by rewrite ld_st_eq.
  - destruct (walk m r [a'; b'; c']) as [l1'|] eqn:W3.
    + rewrite (Hold [a'; b'; c']); [done|auto with vibix|done|done|]. intros [= -> -> -> ->]. done.
    + destruct (walk m r [a'; b']) as [l2|] eqn:W2; [|done]. cbn [mbind option_bind].
      rewrite (Hold [a'; b']); [done|auto with vibix|done|done|]. done.
Qed.

(** ** The invariant of an address space *)

Section inv.
Context (a : PmmAllocator).

(** [t] is not a page the memory manager could hand out. *)
Definition not_free (bm : bitmap) (t : Z) : Prop :=
  ∀ k, 0 ≤ k < total_pages a → t = page_addr a k → used bm k = true.

Record pt_inv (s : pg) : Prop := {
  pi_pmm : pmm_wf a;
  pi_range : memory_start a mod 4096 = 0 ∧ memory_start a + PMM_MAX_PAGES * PMM_PAGE_SIZE ≤ 2 ^ 52;
  pi_bm : bm_wf (pg_bm s);
  pi_tree : tree (pg_mem s) (read_cr3 s);
  pi_used : ∀ path t, ok_path path → walk (pg_mem s) (read_cr3 s) path = Some t → not_free (pg_bm s) t
}.

Lemma page_addr_ok s k : pt_inv s → 0 ≤ k < total_pages a → page_ok (page_addr a k).
Proof.
  intros Hi Hk. destruct (pi_pmm _ Hi) as (Ht & Hm & _). destruct (pi_range _ Hi) as [Ha Hb].
  unfold page_ok, page_addr, PMM_PAGE_SIZE, PMM_MAX_PAGES in *. split; [|lia].
  rewrite Z.mod_add by lia. done.
Qed.

(** No 2 MiB page covers [v]. *)
Definition not_huge (s : pg) (v : Z) : Prop :=
  ∀ l2, walk (pg_mem s) (read_cr3 s) [index_at v 39; index_at v 30] = Some l2 →
    has (pg_ld s (slot l2 (index_at v 21))) PAGE_PRESENT = true →
    has (pg_ld s (slot l2 (index_at v 21))) PAGE_HUGE = false.

(** One translation in the same 2 MiB that stays the same is enough to see that no huge page came up. *)
Lemma not_huge_keep s s' v d x : read_cr3 s' = read_cr3 s →
  let idx := (index_at v 39, index_at v 30, index_at v 21, d) in
  xlate (pg_mem s') (read_cr3 s) idx x = xlate (pg_mem s) (read_cr3 s) idx x →
  (∀ t, walk (pg_mem s) (read_cr3 s) [index_at v 39; index_at v 30; index_at v 21] = Some t →
     walk (pg_mem s') (read_cr3 s) [index_at v 39; index_at v 30; index_at v 21] = Some t ∨
     xlate (pg_mem s) (read_cr3 s) idx x = None) →
  not_huge s v → not_huge s' v.
Proof.
  intros Hc idx Hx Hw Hnh l2 W2 Hp. rewrite Hc in W2.
  destruct (has (pg_ld s' (slot l2 (index_at v 21))) PAGE_HUGE) eqn:Hh; [exfalso|done].
  assert (walk (pg_mem s') (read_cr3 s) [index_at v 39; index_at v 30; index_at v 21] = None) as W3.
  { rewrite walk3, W2. cbn [mbind option_bind]. unfold next, link.
    change (ld64 (pg_mem s') ?x) with (pg_ld s' x). by rewrite Hp, Hh. }
  unfold idx in *. cbn [xlate] in Hx, Hw. rewrite W3, W2 in Hx. cbn [mbind option_bind] in Hx.
  change (ld64 (pg_mem s') ?x) with (pg_ld s' x) in Hx. rewrite Hp, Hh in Hx. cbn [andb] in Hx.
  destruct (walk (pg_mem s) (read_cr3 s) [index_at v 39; index_at v 30; index_at v 21]) as [l1|] eqn:W3'.
  - destruct (Hw l1 eq_refl) as [Hx'|Hx']; congruence.
  - destruct (walk (pg_mem s) (read_cr3 s) [index_at v 39; index_at v 30]) as [l2'|] eqn:W2'; [|done].
    cbn [mbind option_bind] in Hx. change (ld64 (pg_mem s) ?x) with (pg_ld s x) in Hx.
    destruct (has (pg_ld s (slot l2' (index_at v 21))) PAGE_PRESENT) eqn:Hp'; [|done].
    by rewrite (Hnh l2' W2' Hp') in Hx.
Qed.

(** [x] is a page of the tables. *)
Definition tbl (s : pg) (x : Z) : Prop :=
  ∃ path, ok_path path ∧ walk (pg_mem s) (read_cr3 s) path = Some x.

(** What building tables does to the memory manager: the pages taken become tables, and every
    new table is on a page that was free. *)
Record grew (s s' : pg) : Prop := {
  gw_used : ∀ k, 0 ≤ k < total_pages a → used (pg_bm s) k = true → used (pg_bm s') k = true;
  gw_new : ∀ k, 0 ≤ k < total_pages a → used (pg_bm s') k = true → used (pg_bm s) k = true ∨ tbl s' (page_addr a k);
  gw_keep : ∀ x, tbl s x → tbl s' x;
  gw_tbl : ∀ x, tbl s' x → tbl s x ∨ ∃ k, 0 ≤ k < total_pages a ∧ x = page_addr a k ∧ used (pg_bm s) k = false;
  gw_huge : ∀ v, not_huge s v → not_huge s' v
}.

Lemma grew_refl s : grew s s.
Proof. split; auto. Qed.

Lemma grew_trans s s1 s2 : grew s s1 → grew s1 s2 → grew s s2.
Proof.
  intros [U1 N1 K1 T1 G1] [U2 N2 K2 T2 G2]. split; auto.
  - intros k Hk [Hu|]%N2; [|auto|done]. destruct (N1 k Hk Hu); auto.
  - intros x [Hx|(k & Hk & -> & Hu)]%T2; [by apply T1|]. right. exists k. split; [done|]. split; [done|].
    destruct (used (pg_bm s) k) eqn:E; [|done]. rewrite U1 in Hu by done. done.
Qed.

(** Writes that leave all paths and the bitmap as they are. *)
Lemma grew_same s s' : pg_bm s' = pg_bm s → pg_cr3 s' = pg_cr3 s →
  (∀ path, ok_path path → walk (pg_mem s') (read_cr3 s) path = walk (pg_mem s) (read_cr3 s) path) →
  (∀ v, not_huge s v → not_huge s' v) → grew s s'.
Proof.
  intros Hb Hc Hw Hh. assert (∀ x, tbl s' x ↔ tbl s x) as Ht.
  { intros x. unfold tbl. assert (read_cr3 s' = read_cr3 s) as -> by (unfold read_cr3; by rewrite Hc).
    split; intros (path & Hp & Hx); exists path; (split; [done|]); [by rewrite <- Hw|by rewrite Hw]. }
  split; rewrite ?Hb; auto; intros x Hx; [by apply Ht|left; by apply Ht].
Qed.

(** ** Protected pages *)

(** No page of [P] is free, or a table on the path [vp]. *)
Record guard (P : Z → Prop) (vp : list Z) (s : pg) : Prop := {
  gd_hold : ∀ k, 0 ≤ k < total_pages a → P (page_addr a k) → used (pg_bm s) k = true;
  gd_path : ∀ path t, path `prefix_of` vp → walk (pg_mem s) (read_cr3 s) path = Some t → ¬ P t
}.

Record kept_by (P : Z → Prop) (vp : list Z) (s s' : pg) : Prop := {
  kb_guard : guard P vp s';
  kb_mem : ∀ t j, page_ok t → P t → 0 ≤ j < 512 → ld64 (pg_mem s') (slot t j) = ld64 (pg_mem s) (slot t j);
  kb_off : ∀ path t, ok_path path → ¬ path `prefix_of` vp → walk (pg_mem s') (read_cr3 s') path = Some t →
    walk (pg_mem s) (read_cr3 s) path = Some t
}.

(** A run that only touches the tables on the path [vp] and pages that were free: whatever set of
    other pages is protected, it keeps their contents, and it adds no table off the path. *)
Definition confined (vp : list Z) (s s' : pg) : Prop := ∀ P, guard P vp s → kept_by P vp s s'.

Lemma confined_refl vp s : confined vp s s.
Proof. intros P G. by split. Qed.

Lemma confined_trans vp s s1 s2 : confined vp s s1 → confined vp s1 s2 → confined vp s s2.
Proof.
  intros C1 C2 P G. destruct (C1 P G) as [G1 M1 O1]. destruct (C2 P G1) as [G2 M2 O2]. split; [done| |auto].
  intros t j Ht Hp Hj. by rewrite M2, M1.
Qed.

(** Writes to tables on the path that change no link. *)
Lemma confined_write vp s s' : pg_bm s' = pg_bm s → pg_cr3 s' = pg_cr3 s → ok_path vp →
  (∀ path, ok_path path → walk (pg_mem s') (read_cr3 s) path = walk (pg_mem s) (read_cr3 s) path) →
  (∀ t j, page_ok t → 0 ≤ j < 512 → (∀ path, path `prefix_of` vp → walk (pg_mem s) (read_cr3 s) path ≠ Some t) →
     ld64 (pg_mem s') (slot t j) = ld64 (pg_mem s) (slot t j)) → confined vp s s'.
Proof.
  intros Hb Hc Hvp Hw Hm P [Gh Gp]. assert (read_cr3 s' = read_cr3 s) as E by (unfold read_cr3; by rewrite Hc). split.
  - split; [by rewrite Hb|]. intros path t Hp. rewrite E, Hw; [by apply Gp|]. by apply (ok_path_prefix vp).
  - intros t j Ht HP Hj. apply Hm; [done|done|]. intros path Hp Hx. by apply (Gp path t).
  - intros path t Hp _. by rewrite E, Hw.
Qed.

Definition exhausted (s : pg) : Prop := ∀ k, 0 ≤ k < total_pages a → used (pg_bm s) k = true.

Lemma link_new n : page_ok n → link (Z.lor (Z.lor n PAGE_KERNEL) PAGE_USER) = true ∧
  entry_addr (Z.lor (Z.lor n PAGE_KERNEL) PAGE_USER) = n.
Proof.
  intros Hn. split.
  - unfold link, PAGE_KERNEL, PAGE_USER, PAGE_PRESENT, PAGE_WRITABLE, PAGE_HUGE. rewrite !has_bit by lia.
    rewrite !Z.lor_spec, !bit_spec, (page_ok_low n 7) by (done || lia). cbn. by rewrite !orb_true_r.
  - rewrite <- Z.lor_assoc. apply entry_addr_page; [done|]. intros k Hk.
    unfold PAGE_KERNEL, PAGE_USER, PAGE_PRESENT, PAGE_WRITABLE. rewrite !Z.lor_spec, !bit_spec by lia.
    zcases.
Qed.

(** Zeroing a fresh page and linking it. *)
Lemma linked_created m r rho i t n e : tree m r → ok_path (rho ++ [i]) → walk m r rho = Some t →
  has (ld64 m (slot t i)) PAGE_PRESENT = false → page_ok n →
  (∀ path t', ok_path path → walk m r path = Some t' → t' ≠ n) → link e = true → entry_addr e = n →
  created m (st64 (zero_words m n 512) (slot t i) e) r rho i n.
Proof.
  intros Htr Hok Hw Hp Hn Hfr Hlink Haddr. pose proof (ok_path_snoc _ _ Hok) as (Hrho & Hir & _).
  pose proof (tr_ok _ _ Htr _ _ Hrho Hw) as Htok.
  split; [done|]. split; [done|]. split; [done|]. split; [done|].
  exists t. eexists. split; [done|]. split; [done|]. split; [exact Hlink|]. split; [done|].
  split; [by rewrite ld_st_eq|]. split.
  - intros j Hj. rewrite ld_st_ne, zero_words_ld.
    + unfold slot. zcases. rewrite Z.add_simpl_l, Z.mul_comm, Z.mod_mul in * by lia. lia.
    + intros He. apply slot_inj in He as [-> _]; [|done..]. by apply (Hfr rho n).
  - intros t' j Ht' Hne Hj Hs. rewrite ld_st_ne, zero_words_ld by done.
    destruct (Z.eqb_spec ((slot t' j - n) mod 8) 0); [|by rewrite andb_false_r].
    destruct Ht' as [Ht' _], Hn as [Hn _]. unfold slot.
    apply Z.mod_divide in Ht' as [x ->]; [|lia]. apply Z.mod_divide in Hn as [y ->]; [|lia].
    zcases.
Qed.

Lemma new_table_created m r rho i t n : tree m r → ok_path (rho ++ [i]) → walk m r rho = Some t →
  has (ld64 m (slot t i)) PAGE_PRESENT = false → page_ok n →
  (∀ path t', ok_path path → walk m r path = Some t' → t' ≠ n) →
  created m (st64 (zero_words m n 512) (slot t i) (Z.lor (Z.lor n PAGE_KERNEL) PAGE_USER)) r rho i n.
Proof. intros. by apply linked_created; try done; apply link_new. Qed.

(** What a table look-up that may create the table does. *)
Definition got (s : pg) (rho : list Z) (i : Z) (o : option Z) (s' : pg) : Prop :=
  pt_inv s' ∧ pg_cr3 s' = pg_cr3 s ∧
  (∀ idx v, idx_ok idx → xlate (pg_mem s') (read_cr3 s) idx v = xlate (pg_mem s) (read_cr3 s) idx v) ∧
  (∀ path t, ok_path path → walk (pg_mem s) (read_cr3 s) path = Some t →
     walk (pg_mem s') (read_cr3 s) path = Some t) ∧
  match o with
  | Some n => walk (pg_mem s') (read_cr3 s) (rho ++ [i]) = Some n
  | None => exhausted s'
  end ∧ grew s s' ∧ ∀ vp, ok_path vp → rho ++ [i] `prefix_of` vp → confined vp s s'.

(** A new table on the path. *)
Lemma created_confined s s1 m' rho i n k vp : created (pg_mem s) m' (read_cr3 s) rho i n → pg_cr3 s1 = pg_cr3 s →
  0 ≤ k < total_pages a → n = page_addr a k → used (pg_bm s) k = false →
  (∀ j, 0 ≤ j < total_pages a → used (pg_bm s) j = true → used (pg_bm s1) j = true) →
  ok_path vp → rho ++ [i] `prefix_of` vp → confined vp s (set_mem m' s1).
Proof.
  intros Hcr Hc Hk Hn Hf Hu Hvp Hpre P [Gh Gp].
  assert (read_cr3 (set_mem m' s1) = read_cr3 s) as E by (unfold read_cr3; cbn; by rewrite Hc).
  assert (¬ P n) as HnP by (rewrite Hn; intros HP%Gh; [congruence|done]).
  split.
  - split; [cbn; auto|]. intros path t Hp Hw. rewrite E in Hw. cbn [pg_mem set_mem] in Hw.
    rewrite (created_walk _ _ _ _ _ _ _ Hcr) in Hw by (by apply (ok_path_prefix vp)).
    repeat case_decide; [by injection Hw as <-|done|by apply (Gp path)].
  - intros t j Ht HP Hj. destruct Hcr as (Htr & Hrho & _ & _ & x & e & Hw & _ & _ & _ & _ & _ & Ho). cbn [pg_mem set_mem].
    apply Ho; [done|by intros ->|done|]. intros Es.
    assert (rho `prefix_of` vp) as Hr by (etransitivity; [|exact Hpre]; by apply prefix_app_r).
    pose proof (ok_path_snoc _ _ Hrho) as (Hro & Hi & _).
    apply slot_inj in Es as [-> _]; [|done|exact (tr_ok _ _ Htr _ _ Hro Hw)|done|done]. by apply (Gp rho x).
  - intros path t Hp Hnp Hw. rewrite E in Hw. cbn [pg_mem set_mem] in Hw. rewrite (created_walk _ _ _ _ _ _ _ Hcr) in Hw by done.
    repeat case_decide; [subst path; done|done|done].
Qed.

Lemma try_get_spec s rho i t : pt_inv s → ok_path (rho ++ [i]) →
  walk (pg_mem s) (read_cr3 s) rho = Some t →
  (has (pg_ld s (slot t i)) PAGE_PRESENT = true → has (pg_ld s (slot t i)) PAGE_HUGE = false) →
  ∃ o s', try_get_or_create_table a s (slot t i) = Ret (o, s') ∧ got s rho i o s'.
Proof.
  intros Hi Hok Hw Hnh. unfold try_get_or_create_table, pmm_alloc.
  destruct (has (pg_ld s (slot t i)) PAGE_PRESENT) eqn:Hp.
  { eexists _, s. split; [done|]. split_and!; try done; try apply grew_refl; try (intros; apply confined_refl). rewrite walk_snoc, Hw. cbn. unfold next, link.
    change (ld64 (pg_mem s) (slot t i)) with (pg_ld s (slot t i)). by rewrite Hp, Hnh. }
  destruct (alloc_cases a (pg_bm s) (pi_pmm _ Hi) (pi_bm _ Hi))
    as [(k & bm' & Hk & Hfree & _ & -> & _ & Hbm & Hu)|(Hall & ->)]; cbn [mbind outcome_bind].
  2:{ eexists None, _. split; [done|]. split_and!; try (by destruct s); try (by apply grew_same); by apply confined_write. }
  pose proof (page_addr_ok s k Hi Hk) as Hn. set (n := page_addr a k) in *.
  destruct (pi_pmm _ Hi) as (Htp & Hms & _).
  assert (0 < n) by (subst n; unfold page_addr, PMM_PAGE_SIZE; lia).
  rewrite (proj2 (Z.eqb_neq n 0)) by lia.
  assert (∀ path t', ok_path path → walk (pg_mem s) (read_cr3 s) path = Some t' → t' ≠ n) as Hfr.
  { intros path t' Hp' Hw' ->. pose proof (pi_used _ Hi _ _ Hp' Hw' k Hk eq_refl). congruence. }
  set (m' := st64 (zero_words (pg_mem s) n 512) (slot t i) (Z.lor (Z.lor n PAGE_KERNEL) PAGE_USER)).
  assert (created (pg_mem s) m' (read_cr3 s) rho i n) as Hcr by (apply new_table_created; auto; apply Hi).
  exists (Some n). eexists. split; [done|]. split.
  - split; cbn [pg_mem pg_bm set_bm pg_st zero_table set_mem]; try apply Hi; [done|by apply (created_tree _ _ _ _ _ _ Hcr)|].
    intros path t' Hp' Hw' k' Hk' Hte. rewrite Hu by (unfold in_range; lia).
    change (walk m' (read_cr3 s) path = Some t') in Hw'. rewrite (created_walk _ _ _ _ _ _ _ Hcr) in Hw' by done.
    repeat case_decide; [injection Hw' as <-|done|].
    + apply page_addr_inj in Hte as ->. zcases.
    + rewrite (pi_used _ Hi _ _ Hp' Hw' k' Hk' Hte). by rewrite orb_true_r.
  - split; [done|]. split; [|split; [|split; [|split]]].
    + intros idx v Hix. by apply (created_xlate _ _ _ _ _ _ _ _ Hcr).
    + intros path t' Hp' Hw'. change (walk m' (read_cr3 s) path = Some t').
      rewrite (created_walk _ _ _ _ _ _ _ Hcr) by done.
      destruct (decide (rho ++ [i] `prefix_of` path)) as [Hpre|]; [|done].
      by rewrite (created_none _ _ _ _ _ _ _ Hcr Hpre) in Hw'.
    + change (walk m' (read_cr3 s) (rho ++ [i]) = Some n). rewrite (created_walk _ _ _ _ _ _ _ Hcr) by done.
      by rewrite !decide_True.
    + assert (∀ x, (∃ path, ok_path path ∧ walk m' (read_cr3 s) path = Some x) ↔ tbl s x ∨ x = n) as Ht.
      { intros x. split.
        - intros (path & Hp' & Hw'). rewrite (created_walk _ _ _ _ _ _ _ Hcr) in Hw' by done.
          repeat case_decide; [injection Hw' as <-; by right|done|left; by exists path].
        - intros [(path & Hp' & Hw')| ->].
          + exists path. split; [done|]. rewrite (created_walk _ _ _ _ _ _ _ Hcr) by done.
            destruct (decide (rho ++ [i] `prefix_of` path)) as [Hpre|]; [|done].
            by rewrite (created_none _ _ _ _ _ _ _ Hcr Hpre) in Hw'.
          + exists (rho ++ [i]). split; [done|]. rewrite (created_walk _ _ _ _ _ _ _ Hcr) by done. by rewrite !decide_True. }
      split.
      * intros j Hj Hu'. cbn. rewrite Hu by (unfold in_range; lia). rewrite Hu'. by rewrite orb_true_r.
      * intros j Hj Hu'. cbn in Hu'. rewrite Hu in Hu' by (unfold in_range; lia).
        destruct (decide (j = k)) as [->|Hne]; [right; apply Ht; by right|left]. revert Hu'. zcases.
      * intros x Hx. apply Ht. by left.
      * intros x [Hx| ->]%Ht; [by left|right]. by exists k.
      * intros v. apply (not_huge_keep _ _ v (index_at v 12) v); [done|by apply (created_xlate _ _ _ _ _ _ _ _ Hcr), indices_ok|].
        intros t' Hw'. left. cbn [pg_mem set_bm pg_st zero_table set_mem]. fold m'.
        pose proof (index_at_range v 39). pose proof (index_at_range v 30). pose proof (index_at_range v 21).
        rewrite (created_walk _ _ _ _ _ _ _ Hcr) by auto with vibix.
        case_decide as Hpre; [|done]. by rewrite (created_none _ _ _ _ _ _ _ Hcr Hpre) in Hw'.
    + intros vp Hvp Hpre. apply (created_confined s (set_bm bm' s) m' rho i n k vp); try done.
      * intros j Hj. rewrite Hu by (unfold in_range; lia). intros ->. apply orb_true_r.
Qed.

(** Setting the user bit of a table entry changes nothing about the tree. *)
Lemma set_user_spec s rho i t : pt_inv s → ok_path (rho ++ [i]) →
  walk (pg_mem s) (read_cr3 s) rho = Some t →
  let s' := set_user s (slot t i) in
  pt_inv s' ∧ (∀ path, ok_path path → walk (pg_mem s') (read_cr3 s) path = walk (pg_mem s) (read_cr3 s) path) ∧
  (∀ idx v, idx_ok idx → xlate (pg_mem s') (read_cr3 s) idx v = xlate (pg_mem s) (read_cr3 s) idx v).
Proof.
  intros Hi Hok Hw s'. pose proof (ok_path_snoc _ _ Hok) as (Hrho & Hir & Hlen).
  set (m := pg_mem s) in *. set (r := read_cr3 s) in *. pose proof (pi_tree _ Hi) as Ht. fold m r in Ht.
  assert (∀ path t' j, ok_path path → 0 ≤ j < 512 → walk m r path = Some t' →
    same_link (ld64 m (slot t' j)) (ld64 (pg_mem s') (slot t' j)) ∧
    (length path = 3%nat → ld64 (pg_mem s') (slot t' j) = ld64 m (slot t' j))) as Hsame.
  { intros path t' j Hp Hj Hwp. subst s'. cbn [set_user pg_st set_mem pg_mem].
    destruct (decide (slot t' j = slot t i)) as [He|Hne].
    - rewrite He, ld_st_eq. split; [apply same_link_user|]. intros Hl.
      apply slot_inj in He as [-> _]; [|exact (tr_ok _ _ Ht _ _ Hp Hwp)|exact (tr_ok _ _ Ht _ _ Hrho Hw)|done|done].
      rewrite (tr_inj _ _ Ht _ _ _ Hp Hrho Hwp Hw) in Hl. lia.
    - rewrite ld_st_ne by congruence. split; [apply same_link_refl|done]. }
  destruct (tree_same m (pg_mem s') r Ht) as [Ht' Hw'].
  { intros path t' j Hp Hwp. pose proof (ok_path_snoc _ _ Hp) as (Hp' & Hj & _). by eapply Hsame. }
  split; [|split; [done|]].
  - split; try apply Hi; [done|]. intros path t' Hp. change (read_cr3 s') with r. rewrite Hw' by done.
    by apply (pi_used _ Hi).
  - intros [[[a4 b] c] d] v (Ha & Hb & Hc & Hd). unfold xlate. rewrite !Hw' by auto with vibix.
    destruct (walk m r [a4; b; c]) as [l1|] eqn:W3.
    + destruct (Hsame [a4; b; c] l1 d) as [_ E]; auto with vibix. by rewrite E.
    + destruct (walk m r [a4; b]) as [l2|] eqn:W2; [|done]. cbn [mbind option_bind].
      destruct (Hsame [a4; b] l2 c) as [(E1 & E2 & E3) _]; auto with vibix. by rewrite E1, E2, E3.
Qed.

Lemma set_user_not_huge s rho i t v : pt_inv s → ok_path (rho ++ [i]) →
  walk (pg_mem s) (read_cr3 s) rho = Some t → not_huge s v → not_huge (set_user s (slot t i)) v.
Proof.
  intros Hi Hok Hw. destruct (set_user_spec s rho i t Hi Hok Hw) as (_ & Hw' & Hx').
  apply (not_huge_keep _ _ v (index_at v 12) v); [done|by apply Hx', (indices_ok v)|]. intros t' Ht'. left.
  pose proof (index_at_range v 39). pose proof (index_at_range v 30). pose proof (index_at_range v 21).
  by rewrite Hw' by auto with vibix.
Qed.

(** The last steps of a mapping: the leaf, then the user bits above it. *)
Definition finish (s : pg) (idx : Z * Z * Z * Z) (l4 l3 l2 l1 e : Z) (user : bool) : pg :=
  let '(l4i, l3i, l2i, l1i) := idx in
  let s := pg_st s (slot l1 l1i) e in
  if user then set_user (set_user (set_user s (slot l4 l4i)) (slot l3 l3i)) (slot l2 l2i) else s.

Lemma prefix_cut (l k : list Z) : l `prefix_of` l ++ k.
Proof. by exists k. Qed.

Lemma finish_spec s i4 i3 i2 i1 l3 l2 l1 e user : pt_inv s → idx_ok (i4, i3, i2, i1) →
  walk (pg_mem s) (read_cr3 s) [i4] = Some l3 → walk (pg_mem s) (read_cr3 s) [i4; i3] = Some l2 →
  walk (pg_mem s) (read_cr3 s) [i4; i3; i2] = Some l1 →
  let s' := finish s (i4, i3, i2, i1) (read_cr3 s) l3 l2 l1 e user in
  pt_inv s' ∧ pg_cr3 s' = pg_cr3 s ∧
  (∀ idx v, idx_ok idx → xlate (pg_mem s') (read_cr3 s) idx v =
    if decide (idx = (i4, i3, i2, i1))
    then if has e PAGE_PRESENT then Some (Z.lor (entry_addr e) (Z.land v 4095), has e PAGE_USER) else None
    else xlate (pg_mem s) (read_cr3 s) idx v) ∧ grew s s' ∧ confined [i4; i3; i2] s s'.
Proof.
  intros Hi Hix W1 W2 W3 s'. pose proof Hix as (H4 & H3 & H2 & H1).
  destruct (leaf_write _ _ i4 i3 i2 i1 l1 e (pi_tree _ Hi) Hix W3) as (Ht & Hw & Hx).
  set (s1 := pg_st s (slot l1 i1) e) in *.
  assert (pt_inv s1) as Hi1.
  { split; try apply Hi; [done|]. intros path t Hp. change (read_cr3 s1) with (read_cr3 s).
    change (pg_mem s1) with (st64 (pg_mem s) (slot l1 i1) e). rewrite Hw by done. by apply (pi_used _ Hi). }
  assert (∀ v, not_huge s v → not_huge s1 v) as Hh1.
  { intros v. apply (not_huge_keep _ _ v (if decide (i1 = 0) then 1 else 0) v); [done| |].
    - rewrite Hx by (pose proof (index_at_range v 39); pose proof (index_at_range v 30); pose proof (index_at_range v 21);
        unfold idx_ok; destruct (decide (i1 = 0)); lia).
      rewrite decide_False; [done|]. intros [= _ _ _ E]. destruct (decide (i1 = 0)); lia.
    - intros t Hwt. left. cbn [pg_mem s1 pg_st set_mem]. rewrite Hw; [done|].
      pose proof (index_at_range v 39); pose proof (index_at_range v 30); pose proof (index_at_range v 21). auto with vibix. }
  assert (∀ t j, page_ok t → 0 ≤ j < 512 → (∀ path, path `prefix_of` [i4; i3; i2] → walk (pg_mem s) (read_cr3 s) path ≠ Some t) →
    ld64 (pg_mem s') (slot t j) = ld64 (pg_mem s) (slot t j)) as Hmem.
  { intros t j Htk Hj Hoff. assert (∀ path x i, path `prefix_of` [i4; i3; i2] → walk (pg_mem s) (read_cr3 s) path = Some x → 0 ≤ i < 512 →
      slot x i ≠ slot t j) as Hne.
    { intros path x i Hp Hwx Hii Hs. apply slot_inj in Hs as [-> _]; [by apply (Hoff path)| |done..].
      apply (tr_ok _ _ (pi_tree _ Hi) path); [|done]. by apply (ok_path_prefix [i4; i3; i2]); [apply ok3|]. }
    pose proof (Hne [] (read_cr3 s) i4 (prefix_nil _) eq_refl H4). pose proof (Hne [i4] l3 i3 (prefix_cut [i4] [i3; i2]) W1 H3).
    pose proof (Hne [i4; i3] l2 i2 (prefix_cut [i4; i3] [i2]) W2 H2). pose proof (Hne [i4; i3; i2] l1 i1 (prefix_cut [i4; i3; i2] []) W3 H1).
    subst s'. unfold finish. destruct user; unfold set_user, pg_st, pg_ld; cbn [pg_mem set_mem]; by rewrite !ld_st_ne. }
  destruct user.
  2: { split; [done|]. split; [done|]. split; [done|]. split; [by apply grew_same|]. by apply confined_write; auto with vibix. }
  assert (∀ path, ok_path path → walk (pg_mem s1) (read_cr3 s) path = walk (pg_mem s) (read_cr3 s) path) as Hw1 by done.
  destruct (set_user_spec s1 [] i4 (read_cr3 s)) as (Hi2 & Hw2 & Hx2); [done|by apply ok1|done|].
  destruct (set_user_spec (set_user s1 (slot (read_cr3 s) i4)) [i4] i3 l3) as (Hi3 & Hw3 & Hx3);
    [done|by apply ok2|change (read_cr3 (set_user _ _)) with (read_cr3 s1); by rewrite Hw2, Hw1 by auto with vibix|].
  destruct (set_user_spec (set_user (set_user s1 (slot (read_cr3 s) i4)) (slot l3 i3)) [i4; i3] i2 l2) as (Hi4 & Hw4 & Hx4);
    [done|by apply ok3| |].
  { change (read_cr3 (set_user _ _)) with (read_cr3 s1) in *. by rewrite Hw3, Hw2, Hw1 by auto with vibix. }
  split; [done|]. split; [done|].
  change (read_cr3 (set_user _ _)) with (read_cr3 s) in *. change (read_cr3 s1) with (read_cr3 s) in *.
  subst s'. unfold finish in *. fold s1 in Hmem |- *. split; [|split].
  3: { apply confined_write; [done..|by apply ok3| |done]. intros path Hp. by rewrite Hw4, Hw3, Hw2, Hw1. }
  - intros idx v Hidx. by rewrite Hx4, Hx3, Hx2, Hx.
  - apply grew_same; [done..| |].
    + intros path Hp. by rewrite Hw4, Hw3, Hw2, Hw1.
    + intros v Hv%Hh1. apply (set_user_not_huge _ [] i4 (read_cr3 s) v Hi1 (ok1 _ H4) eq_refl) in Hv.
      apply (set_user_not_huge _ [i4] i3 l3 v Hi2 (ok2 _ _ H4 H3)) in Hv; [|change (read_cr3 (set_user _ _)) with (read_cr3 s); by rewrite Hw2, Hw1 by auto with vibix].
      apply (set_user_not_huge _ [i4; i3] i2 l2 v Hi3 (ok3 _ _ _ H4 H3 H2)) in Hv; [done|].
      change (read_cr3 (set_user _ _)) with (read_cr3 s). by rewrite Hw3, Hw2, Hw1 by auto with vibix.
Qed.

(** The three tables of an address, created as needed. *)
Definition tables (s : pg) (v : Z) : outcome (option (Z * Z * Z) * pg) :=
  let '(l4i, l3i, l2i, _) := indices v in
  '(o3, s1) ← try_get_or_create_table a s (slot (read_cr3 s) l4i);
  match o3 with
  | None => Ret (None, s1)
  | Some l3 =>
      '(o2, s2) ← try_get_or_create_table a s1 (slot l3 l3i);
      match o2 with
      | None => Ret (None, s2)
      | Some l2 =>
          '(o1, s3) ← try_get_or_create_table a s2 (slot l2 l2i);
          Ret (match o1 with None => None | Some l1 => Some (l3, l2, l1) end, s3)
      end
  end.

Lemma try_map_tables s v p f : try_map_4k a s v p f =
  if has f PAGE_USER && overlaps_kernel_scratch v (sat_add v 4096) then Ret (false, s)
  else match translate s v with
       | Some _ => Ret (false, s)
       | None =>
           '(o, s1) ← tables s v;
           Ret (match o with
                | None => (false, s1)
                | Some (l3, l2, l1) =>
                    (true, finish s1 (indices v) (read_cr3 s) l3 l2 l1 (Z.lor p f) (has f PAGE_USER))
                end)
       end.
Proof.
  unfold try_map_4k, tables, finish, translate. destruct (_ && _); [done|].
  destruct (translate_in_pml4 s v (read_cr3 s)); [done|]. destruct (indices v) as [[[i4 i3] i2] i1].
  destruct (try_get_or_create_table a s _) as [[[l3|] s1]| | |]; try done; cbn [mbind outcome_bind].
  destruct (try_get_or_create_table a s1 _) as [[[l2|] s2]| | |]; try done; cbn [mbind outcome_bind].
  destruct (try_get_or_create_table a s2 _) as [[[l1|] s3]| | |]; try done; cbn [mbind outcome_bind].
  by destruct (has f PAGE_USER).
Qed.

Lemma get_or_create_try s e : get_or_create_table a s e =
  '(o, s) ← try_get_or_create_table a s e; match o with Some t => Ret (t, s) | None => Hang end.
Proof.
  unfold get_or_create_table, try_get_or_create_table. destruct (has _ _); [done|].
  destruct (pmm_alloc a s) as [[page s1]| | |]; try done. cbn. by destruct (page =? 0).
Qed.

Lemma map_tables s v p f : map_4k a s v p f =
  if has f PAGE_USER && overlaps_kernel_scratch v (sat_add v 4096) then Ret s
  else '(o, s1) ← tables s v;
       match o with
       | None => Hang
       | Some (l3, l2, l1) => Ret (finish s1 (indices v) (read_cr3 s) l3 l2 l1 (Z.lor p f) (has f PAGE_USER))
       end.
Proof.
  unfold map_4k, tables, finish. destruct (_ && _); [done|]. destruct (indices v) as [[[i4 i3] i2] i1].
  rewrite get_or_create_try.
  destruct (try_get_or_create_table a s _) as [[[l3|] s1]| | |]; try done; cbn [mbind outcome_bind].
  rewrite get_or_create_try.
  destruct (try_get_or_create_table a s1 _) as [[[l2|] s2]| | |]; try done; cbn [mbind outcome_bind].
  rewrite get_or_create_try.
  destruct (try_get_or_create_table a s2 _) as [[[l1|] s3]| | |]; try done; cbn [mbind outcome_bind].
  by destruct (has f PAGE_USER).
Qed.

Lemma got_nohuge s rho i o s1 t j : got s rho i o s1 → ok_path ((rho ++ [i]) ++ [j]) → (length rho ≤ 0)%nat →
  walk (pg_mem s1) (read_cr3 s) (rho ++ [i]) = Some t →
  has (pg_ld s1 (slot t j)) PAGE_PRESENT = true → has (pg_ld s1 (slot t j)) PAGE_HUGE = false.
Proof.
  intros (Hi & Hc & _) Hok Hl Hw. assert (read_cr3 s1 = read_cr3 s) as E by (unfold read_cr3; by rewrite Hc).
  apply (tr_nohuge _ _ (pi_tree _ Hi) (rho ++ [i])); [done|rewrite length_app; cbn; lia|by rewrite E].
Qed.

(** Creating tables keeps huge pages where they are. *)
Lemma got_not_huge s rho i o s1 v : got s rho i o s1 → not_huge s v → not_huge s1 v.
Proof. intros (_ & _ & _ & _ & _ & G & _). apply G. Qed.

Lemma got_cr3 s rho i o s1 : got s rho i o s1 → read_cr3 s1 = read_cr3 s.
Proof. intros (_ & Hc & _). unfold read_cr3. by rewrite Hc. Qed.

Lemma tables_spec s v : pt_inv s → not_huge s v →
  ∃ o s', tables s v = Ret (o, s') ∧ pt_inv s' ∧ pg_cr3 s' = pg_cr3 s ∧
    (∀ idx x, idx_ok idx → xlate (pg_mem s') (read_cr3 s) idx x = xlate (pg_mem s) (read_cr3 s) idx x) ∧
    match o with
    | Some (l3, l2, l1) =>
        walk (pg_mem s') (read_cr3 s) [index_at v 39] = Some l3 ∧
        walk (pg_mem s') (read_cr3 s) [index_at v 39; index_at v 30] = Some l2 ∧
        walk (pg_mem s') (read_cr3 s) [index_at v 39; index_at v 30; index_at v 21] = Some l1
    | None => exhausted s'
    end ∧ grew s s' ∧ confined (path_of v) s s'.
Proof.
  intros Hi Hnh. unfold tables. cbn [indices].
  pose proof (index_at_range v 39) as R4. pose proof (index_at_range v 30) as R3. pose proof (index_at_range v 21) as R2.
  destruct (try_get_spec s [] (index_at v 39) (read_cr3 s)) as (o3 & s1 & -> & G1); [done|by apply ok1|done| |].
  { apply (tr_nohuge _ _ (pi_tree _ Hi) []); [by apply ok1|cbn; lia|done]. }
  cbn [mbind outcome_bind]. pose proof G1 as (Hi1 & Hc1 & Hx1 & Hw1 & Ho1 & A1 & C1). pose proof (got_cr3 _ _ _ _ _ G1) as E1.
  pose proof (ok3 _ _ _ R4 R3 R2 : ok_path (path_of v)) as Hvp.
  assert (∀ (l : list Z) k, path_of v = l ++ k → l `prefix_of` path_of v) as Hpre by (intros l k ->; apply prefix_cut).
  specialize (C1 (path_of v) Hvp (Hpre [index_at v 39] [index_at v 30; index_at v 21] eq_refl)).
  destruct o3 as [l3|]; [|eexists None, s1; by split_and!].
  destruct (try_get_spec s1 [index_at v 39] (index_at v 30) l3) as (o2 & s2 & -> & G2);
    [done|by apply ok2|by rewrite E1|by eapply (got_nohuge s [] (index_at v 39)); [exact G1|by apply ok2|cbn; lia|]|].
  cbn [mbind outcome_bind]. pose proof G2 as (Hi2 & Hc2 & Hx2 & Hw2 & Ho2 & A2 & C2). pose proof (got_cr3 _ _ _ _ _ G2) as E2.
  specialize (C2 (path_of v) Hvp (Hpre [index_at v 39; index_at v 30] [index_at v 21] eq_refl)).
  rewrite E1 in *.
  destruct o2 as [l2|].
  2:{ eexists None, s2. split_and!; [done|done|congruence| |done|by eapply grew_trans|by eapply confined_trans]. intros idx x Hidx. by rewrite Hx2, Hx1. }
  destruct (try_get_spec s2 [index_at v 39; index_at v 30] (index_at v 21) l2) as (o1 & s3 & -> & G3);
    [done|by apply ok3|by rewrite E2| |].
  { apply (got_not_huge _ _ _ _ _ v G2); [|by rewrite E2]. by apply (got_not_huge _ _ _ _ _ v G1). }
  cbn [mbind outcome_bind]. pose proof G3 as (Hi3 & Hc3 & Hx3 & Hw3 & Ho3 & A3 & C3). rewrite E2 in *.
  eexists _, s3. split; [done|]. split; [done|]. split; [congruence|].
  split; [intros idx x Hidx; by rewrite Hx3, Hx2, Hx1|].
  specialize (C3 (path_of v) Hvp (Hpre [index_at v 39; index_at v 30; index_at v 21] [] eq_refl)).
  split; [|by split; [eapply grew_trans; [|eapply grew_trans]|eapply confined_trans; [|eapply confined_trans]]]. destruct o1 as [l1|]; [|done]. split; [|split; [|done]].
  - apply Hw3; [by apply ok1|]. apply Hw2; [by apply ok1|]. done.
  - apply Hw3; [by apply ok2|]. done.
Qed.

Lemma translate_xlate s v : pt_inv s → translate s v = fst <$> xlate (pg_mem s) (read_cr3 s) (indices v) v.
Proof. intros Hi. apply translate_walk. apply Hi. Qed.

(** What an address leads to, with the user bit of its page. *)
Definition leaf (s : pg) (v : Z) : option (Z * bool) := xlate (pg_mem s) (read_cr3 s) (indices v) v.

Lemma translate_leaf s v : pt_inv s → translate s v = fst <$> leaf s v.
Proof. apply translate_xlate. Qed.

Lemma leaf_none s v : pt_inv s → translate s v = None ↔ leaf s v = None.
Proof. intros Hi. rewrite translate_leaf by done. by destruct (leaf s v). Qed.

(** Flags without address bits, that make an entry present. *)
Definition flags_ok (f : Z) : Prop :=
  has f PAGE_PRESENT = true ∧ ∀ n, 12 ≤ n < 52 → Z.testbit f n = false.

Lemma leaf_entry p f : page_ok p → flags_ok f →
  has (Z.lor p f) PAGE_PRESENT = true ∧ entry_addr (Z.lor p f) = p ∧ has (Z.lor p f) PAGE_USER = has f PAGE_USER.
Proof.
  intros Hp [Hf Hb]. unfold PAGE_PRESENT, PAGE_USER in *. rewrite !has_bit in * by lia. rewrite !Z.lor_spec, Hf, orb_true_r.
  split; [done|]. split; [by apply entry_addr_page|]. by rewrite (page_ok_low p 2) by (done || lia || (left; lia)).
Qed.

(** After the tables are there, the mapping is complete. *)
Lemma mapped_spec s s1 v p f l3 l2 l1 user : pt_inv s → pt_inv s1 → pg_cr3 s1 = pg_cr3 s →
  (∀ idx x, idx_ok idx → xlate (pg_mem s1) (read_cr3 s) idx x = xlate (pg_mem s) (read_cr3 s) idx x) →
  walk (pg_mem s1) (read_cr3 s) [index_at v 39] = Some l3 →
  walk (pg_mem s1) (read_cr3 s) [index_at v 39; index_at v 30] = Some l2 →
  walk (pg_mem s1) (read_cr3 s) [index_at v 39; index_at v 30; index_at v 21] = Some l1 →
  page_ok p → flags_ok f →
  let s' := finish s1 (indices v) (read_cr3 s) l3 l2 l1 (Z.lor p f) user in
  pt_inv s' ∧ pg_cr3 s' = pg_cr3 s ∧
  (∀ v', indices v' ≠ indices v → leaf s' v' = leaf s v') ∧
  leaf s' v = Some (Z.lor p (Z.land v 4095), has f PAGE_USER) ∧ grew s1 s' ∧ not_huge s' v ∧ confined (path_of v) s1 s'.
Proof.
  intros Hi Hi1 Hc Hx W1 W2 W3 Hp Hf. cbv zeta.
  assert (read_cr3 s1 = read_cr3 s) as E by (unfold read_cr3; by rewrite Hc). rewrite <- E in *.
  destruct (finish_spec s1 (index_at v 39) (index_at v 30) (index_at v 21) (index_at v 12) l3 l2 l1 (Z.lor p f) user)
    as (Hi' & Hc' & Hx' & Hg & Hcf); [done|apply (indices_ok v)|done..|].
  change (index_at v 39, index_at v 30, index_at v 21, index_at v 12) with (indices v) in *.
  set (s' := finish s1 (indices v) (read_cr3 s1) l3 l2 l1 (Z.lor p f) user) in *.
  assert (read_cr3 s' = read_cr3 s1) as E' by (unfold read_cr3; by rewrite Hc').
  destruct (leaf_entry p f Hp Hf) as (Hpr & Had & Hus).
  assert (not_huge s1 v) as Hnh.
  { intros l2' W2' _. rewrite W2 in W2'. injection W2' as <-. rewrite walk3, W2 in W3. cbn [mbind option_bind] in W3.
    unfold next, link in W3. change (ld64 (pg_mem s1) ?x) with (pg_ld s1 x) in W3.
    by destruct (has (pg_ld s1 (slot l2 (index_at v 21))) PAGE_HUGE); [rewrite andb_false_r in W3|]. }
  split; [done|]. split; [congruence|]. split; [|split; [|split; [done|split; [by apply Hg|done]]]].
  - intros v' Hne. unfold leaf. rewrite E', <- E. rewrite Hx' by apply indices_ok.
    rewrite decide_False by done. by apply Hx, indices_ok.
  - unfold leaf. rewrite E', Hx' by apply indices_ok. rewrite decide_True by done.
    by rewrite Hpr, Had, Hus.
Qed.

Lemma untranslated_not_huge s v : pt_inv s → translate s v = None → not_huge s v.
Proof.
  intros Hi Hn l2 W2 Hp. rewrite translate_xlate in Hn by done. cbn [indices xlate] in Hn.
  destruct (has (pg_ld s (slot l2 (index_at v 21))) PAGE_HUGE) eqn:Hh; [exfalso|done].
  rewrite walk3, W2 in Hn. cbn [mbind option_bind] in Hn. unfold next, link in Hn.
  change (ld64 (pg_mem s) ?x) with (pg_ld s x) in Hn. by rewrite Hp, Hh in Hn.
Qed.
End inv.

(** ** Removing an empty table *)

Section remove.
Context (m : mem) (r t i n : Z) (rho : list Z).
Context (Htree : tree m r) (Hrho : ok_path (rho ++ [i])).
Context (Hwalk : walk m r rho = Some t) (Hnext : walk m r (rho ++ [i]) = Some n).
Context (Hempty : ∀ j, 0 ≤ j < 512 → ld64 m (slot n j) = 0).

Lemma removed_next path t' j : ok_path (path ++ [j]) → walk m r path = Some t' → path ++ [j] ≠ rho ++ [i] →
  slot t' j ≠ slot t i.
Proof using Htree Hrho Hwalk.
  intros Hok Hw Hne Hs. apply ok_path_snoc in Hok as (Hp & Hj & _).
  pose proof (ok_path_snoc _ _ Hrho) as (Hr & Hi & _).
  apply slot_inj in Hs as [-> ->]; [|exact (tr_ok _ _ Htree _ _ Hp Hw)|exact (tr_ok _ _ Htree _ _ Hr Hwalk)|done|done].
  apply Hne. f_equal. exact (tr_inj _ _ Htree _ _ _ Hp Hr Hw Hwalk).
Qed.

Lemma prefix_snoc (l path : list Z) j : l `prefix_of` path ++ [j] → l = path ++ [j] ∨ l `prefix_of` path.
Proof.
  intros [k Hk]. destruct k as [|x k] using rev_ind; [left; by rewrite app_nil_r in Hk|right].
  rewrite app_assoc in Hk. apply app_inj_2 in Hk as [-> _]; [|done]. by apply prefix_app_r.
Qed.

Lemma removed_walk path : ok_path path →
  walk (st64 m (slot t i) 0) r path = if decide (rho ++ [i] `prefix_of` path) then None else walk m r path.
Proof using Htree Hrho Hwalk.
  induction path as [|j path IH] using rev_ind; intros Hok.
  - rewrite decide_False; [done|]. intros Hk%prefix_length. rewrite length_app in Hk. cbn in Hk. lia.
  - pose proof (ok_path_snoc _ _ Hok) as (Hp & Hj & _). rewrite walk_snoc, IH by done.
    destruct (decide (rho ++ [i] `prefix_of` path)) as [Hpre|Hpre].
    { by rewrite (decide_True (P := _ `prefix_of` _)) by (by apply prefix_app_r). }
    destruct (decide (rho ++ [i] `prefix_of` path ++ [j])) as [Hx|Hx].
    + apply prefix_snoc in Hx as [Hx|]; [|done]. apply app_inj_2 in Hx as [<- [= <-]]; [|done].
      rewrite Hwalk. cbn [mbind option_bind]. unfold next, link. by rewrite ld_st_eq, has_0.
    + rewrite walk_snoc. destruct (walk m r path) as [t'|] eqn:Hw; [|done]. cbn [mbind option_bind].
      unfold next. rewrite ld_st_ne; [done|]. intros Hs. symmetry in Hs.
      eapply removed_next; eauto. intros He. apply Hx. by rewrite He.
Qed.

Lemma removed_created : created (st64 m (slot t i) 0) m r rho i n.
Proof using All.
  pose proof (ok_path_snoc _ _ Hrho) as (Hr & Hi & _).
  assert (∀ path t', ok_path path → walk (st64 m (slot t i) 0) r path = Some t' →
    walk m r path = Some t' ∧ ¬ rho ++ [i] `prefix_of` path) as Hw.
  { intros path t' Hp. rewrite removed_walk by done. by case_decide. }
  split; [split|].
  - intros path t' Hp [Hwp _]%Hw; [|done]. exact (tr_ok _ _ Htree _ _ Hp Hwp).
  - intros p1 p2 t' H1 H2 [W1 _]%Hw [W2 _]%Hw; [|done..]. exact (tr_inj _ _ Htree _ _ _ H1 H2 W1 W2).
  - intros path t' j Hp Hlen [Wp _]%Hw; [|by apply ok_path_snoc in Hp as (? & _)].
    destruct (decide (slot t i = slot t' j)) as [<-|Hne]; [by rewrite ld_st_eq, has_0|].
    rewrite ld_st_ne by done. by apply (tr_nohuge _ _ Htree path).
  - split; [done|]. split; [exact (tr_ok _ _ Htree _ _ Hrho Hnext)|]. split.
    { intros path t' Hp [Wp Hn]%Hw ->; [|done]. apply Hn. by rewrite (tr_inj _ _ Htree _ _ _ Hp Hrho Wp Hnext). }
    rewrite walk_snoc, Hwalk in Hnext. cbn [mbind option_bind] in Hnext. unfold next in Hnext.
    destruct (link (ld64 m (slot t i))) eqn:Hl; [|done]. injection Hnext as Hn.
    exists t, (ld64 m (slot t i)). split.
    { rewrite removed_walk by done. rewrite decide_False; [done|]. intros Hx%prefix_length.
      rewrite length_app in Hx. cbn in Hx. lia. }
    split; [by rewrite ld_st_eq, has_0|]. split_and!; try done.
    intros t' j _ _ _ Hs. by rewrite ld_st_ne.
Qed.
End remove.

Lemma all_zero_spec m t n : ∀ i, all_zero m t i n = true ↔ ∀ j, i ≤ j < i + Z.of_nat n → ld64 m (slot t j) = 0.
Proof.
  induction n as [|n IH]; intros i; cbn [all_zero]; [split; [lia|done]|].
  rewrite andb_true_iff, Z.eqb_eq, IH. split.
  - intros [H0 H] j Hj. destruct (decide (j = i)) as [->|]; [done|]. apply H. lia.
  - intros H. split; [apply H; lia|]. intros j Hj. apply H. lia.
Qed.

Section reclaim.
Context (a : PmmAllocator).

(** Freeing a table page that is no longer linked. *)
Lemma free_table s n : pt_inv a s → page_ok n →
  ∃ s', pmm_free a s n = Ret s' ∧ pg_mem s' = pg_mem s ∧ pg_cr3 s' = pg_cr3 s ∧ bm_wf (pg_bm s') ∧
    (∀ k, in_range k → page_addr a k ≠ n → used (pg_bm s') k = used (pg_bm s) k) ∧
    (∀ k, 0 ≤ k < total_pages a → page_addr a k = n → used (pg_bm s') k = false).
Proof.
  intros Hi [Hn Hr]. destruct (pi_pmm _ _ Hi) as (Htp & Hms & _). destruct (pi_range _ _ Hi) as [Ha _].
  unfold pmm_free, free. destruct (Z.ltb_spec n (memory_start a)).
  { eexists. split; [done|]. split_and!; try done; [apply Hi|]. intros k Hk <-. unfold page_addr, PMM_PAGE_SIZE in *. lia. }
  destruct ((n - memory_start a) / PMM_PAGE_SIZE >=? PMM_MAX_PAGES) eqn:E; rewrite Z.geb_leb in E.
  { eexists. split; [done|]. split_and!; try done; [apply Hi|]. intros k Hk <-. apply Z.leb_le in E.
    unfold page_addr in E. rewrite Z.add_simpl_l, Z.div_mul in E by done. lia. }
  bool_arith. assert (0 ≤ (n - memory_start a) / PMM_PAGE_SIZE) by (apply Z.div_pos; [lia|done]).
  destruct (bm_clear_spec (pg_bm s) ((n - memory_start a) / PMM_PAGE_SIZE)) as (bm' & -> & Hwf & Hu);
    [apply Hi|unfold in_range; lia|].
  eexists. split; [done|]. split_and!; try done; cbn [pg_bm set_bm].
  2: { intros k Hk <-. rewrite Hu by (unfold in_range; lia). unfold page_addr. rewrite Z.add_simpl_l, Z.div_mul by done. by rewrite Z.eqb_refl. }
  intros k Hk Hne. rewrite Hu by done. destruct (Z.eqb_spec ((n - memory_start a) / PMM_PAGE_SIZE) k) as [<-|]; [|done].
  exfalso. apply Hne. unfold page_addr, PMM_PAGE_SIZE.
  apply Z.mod_divide in Hn as [x ->]; [|lia]. apply Z.mod_divide in Ha as [y Hy]; [|lia].
  rewrite Hy, <- Z.mul_sub_distr_r, Z.div_mul by lia. lia.
Qed.

(** What taking tables away does to the memory manager: only table pages are freed. *)
Record shrank (s s' : pg) : Prop := {
  sh_tbl : ∀ x, tbl s' x → tbl s x;
  sh_used : ∀ k, 0 ≤ k < total_pages a → used (pg_bm s') k = true → used (pg_bm s) k = true;
  sh_keep : ∀ k, 0 ≤ k < total_pages a → ¬ tbl s (page_addr a k) → used (pg_bm s') k = used (pg_bm s) k;
  sh_gone : ∀ k, 0 ≤ k < total_pages a → tbl s (page_addr a k) → used (pg_bm s') k = true → tbl s' (page_addr a k);
  sh_huge : ∀ v, not_huge s v → not_huge s' v
}.

Lemma shrank_trans s s1 s2 : shrank s s1 → shrank s1 s2 → shrank s s2.
Proof. intros [T1 U1 K1 D1 G1] [T2 U2 K2 D2 G2]. split; auto. intros k Hk Hn. rewrite K2, K1; auto. Qed.

(** Writes that leave all paths and the bitmap as they are. *)
Lemma shrank_same s s' : pg_bm s' = pg_bm s → pg_cr3 s' = pg_cr3 s →
  (∀ path, ok_path path → walk (pg_mem s') (read_cr3 s) path = walk (pg_mem s) (read_cr3 s) path) →
  (∀ v, not_huge s v → not_huge s' v) → shrank s s'.
Proof.
  intros Hb Hc Hw Hh. assert (read_cr3 s' = read_cr3 s) as E by (unfold read_cr3; by rewrite Hc).
  split; rewrite ?Hb; auto.
  - intros x (path & Hp & Hx). exists path. split; [done|]. by rewrite E, Hw in Hx.
  - intros k _ (path & Hp & Hx) _. exists path. split; [done|]. by rewrite E, Hw.
Qed.

Lemma shrank_refl s : shrank s s.
Proof. split; auto. Qed.

(** One level of reclaiming. *)
Lemma reclaim_spec s rho i t n : pt_inv a s → ok_path (rho ++ [i]) →
  walk (pg_mem s) (read_cr3 s) rho = Some t → walk (pg_mem s) (read_cr3 s) (rho ++ [i]) = Some n →
  table_empty s n = true →
  ∃ s', pmm_free a (pg_st s (slot t i) 0) n = Ret s' ∧ pt_inv a s' ∧ pg_cr3 s' = pg_cr3 s ∧
    (∀ path, ok_path path → ¬ rho ++ [i] `prefix_of` path →
       walk (pg_mem s') (read_cr3 s) path = walk (pg_mem s) (read_cr3 s) path) ∧
    (∀ idx v, idx_ok idx → xlate (pg_mem s') (read_cr3 s) idx v = xlate (pg_mem s) (read_cr3 s) idx v) ∧
    shrank s s' ∧ ∀ vp, ok_path vp → rho ++ [i] `prefix_of` vp → confined a vp s s'.
Proof.
  intros Hi Hok Hw Hn He. assert (∀ j, 0 ≤ j < 512 → ld64 (pg_mem s) (slot n j) = 0) as Hz.
  { intros j Hj. by apply (all_zero_spec (pg_mem s) n 512 0). }
  pose proof (removed_created _ _ t i n rho (pi_tree _ _ Hi) Hok Hw Hn Hz) as Hcr.
  pose proof (tr_ok _ _ (pi_tree _ _ Hi) _ _ Hok Hn) as Hpn.
  pose proof Hcr as (Htr & _ & _ & Hfr & _).
  assert (∀ path, ok_path path → walk (st64 (pg_mem s) (slot t i) 0) (read_cr3 s) path =
    if decide (rho ++ [i] `prefix_of` path) then None else walk (pg_mem s) (read_cr3 s) path) as Hrw
    by (intros; by apply (removed_walk _ _ t i rho (pi_tree _ _ Hi))).
  set (s1 := pg_st s (slot t i) 0).
  assert (pt_inv a s1) as Hi1.
  { split; try apply Hi; [done|]. intros path t' Hp. change (pg_mem s1) with (st64 (pg_mem s) (slot t i) 0).
    change (read_cr3 s1) with (read_cr3 s). rewrite Hrw by done. case_decide; [done|]. by apply (pi_used _ _ Hi). }
  destruct (free_table s1 n Hi1 Hpn) as (s' & -> & Hm & Hc & Hwf & Hu & Hfreed).
  assert (read_cr3 s' = read_cr3 s) as E by (unfold read_cr3; by rewrite Hc).
  assert (tbl s n) as Hnt by (by exists (rho ++ [i])).
  exists s'. split; [done|]. split; [|split; [done|split; [|split; [|split]]]].
  5: { destruct (pi_pmm _ _ Hi) as (Htp & _). intros vp Hvp Hpre P [Gh Gp]. pose proof (ok_path_snoc _ _ Hok) as (Hro & Hii & _). split.
    - split; [|intros path x Hp; rewrite Hm, E; cbn [pg_st set_mem pg_mem s1]; rewrite Hrw by (by apply (ok_path_prefix vp));
        case_decide; [done|by apply Gp]].
      intros k Hk HP. rewrite Hu; [by apply Gh|unfold in_range; lia|]. intros Hx. rewrite Hx in HP. by apply (Gp (rho ++ [i]) n).
    - intros x j Hx HP Hj. rewrite Hm. cbn [pg_st set_mem pg_mem s1]. apply ld_st_ne. intros Es.
      assert (rho `prefix_of` vp) by (etransitivity; [|exact Hpre]; by apply prefix_app_r).
      apply slot_inj in Es as [<- _]; [by apply (Gp rho t)|exact (tr_ok _ _ (pi_tree _ _ Hi) _ _ Hro Hw)|done..].
    - intros path x Hp _. rewrite Hm, E. cbn [pg_st set_mem pg_mem s1]. rewrite Hrw by done. by case_decide. }
  - split; try apply Hi; [done|by rewrite Hm, E|]. intros path t' Hp Hwp k Hk Htk. rewrite Hm, E in Hwp.
    rewrite Hu.
    + by apply (pi_used _ _ Hi1 path t' Hp Hwp).
    + destruct (pi_pmm _ _ Hi) as (Htp & _). unfold in_range. lia.
    + rewrite <- Htk. by apply (Hfr path).
  - intros path Hp Hnp. rewrite Hm. change (pg_mem s1) with (st64 (pg_mem s) (slot t i) 0).
    rewrite Hrw by done. by rewrite decide_False.
  - intros idx v Hidx. rewrite Hm. symmetry. by apply (created_xlate _ _ _ _ _ _ _ _ Hcr).
  - destruct (pi_pmm _ _ Hi) as (Htp & _). split.
    + intros x (path & Hp & Hx). rewrite Hm, E in Hx. cbn [pg_st set_mem pg_mem s1] in Hx. rewrite Hrw in Hx by done.
      case_decide; [done|]. by exists path.
    + intros k Hk Hu'. destruct (decide (page_addr a k = n)) as [<-|Hne].
      * by apply (pi_used _ _ Hi _ _ Hok Hn).
      * rewrite Hu in Hu' by (done || unfold in_range; lia). done.
    + intros k Hk Hnk. apply Hu; [unfold in_range; lia|]. intros Hx. apply Hnk. by rewrite Hx.
    + intros k Hk (path & Hp & Hx) Hu'. exists path. split; [done|]. rewrite Hm, E.
      pose proof Hx as Hx'. rewrite (created_walk _ _ _ _ _ _ _ Hcr) in Hx by done.
      repeat case_decide; [|done|exact Hx]. injection Hx as Hx. rewrite Hfreed in Hu'; done.
    + intros v. pose proof (index_at_range v 39). pose proof (index_at_range v 30). pose proof (index_at_range v 21).
      apply (not_huge_keep _ _ v (index_at v 12) v); [done| |].
      * rewrite Hm. symmetry. by apply (created_xlate _ _ _ _ _ _ _ _ Hcr), (indices_ok v).
      * intros l1 W3. rewrite Hm. pose proof W3 as W3'.
        rewrite (created_walk _ _ _ _ _ _ _ Hcr) in W3' by auto with vibix.
        destruct (decide (rho ++ [i] `prefix_of` _)); [|left; exact W3'].
        right. case_decide; [|done]. injection W3' as <-. cbn [xlate]. rewrite W3.
        change (ld64 (pg_mem s) ?x) with (pg_ld s x). unfold pg_ld. by rewrite Hz, has_0 by apply index_at_range.
Qed.
End reclaim.
