(* ===== verification/PageSpec.v ===== *)
(** * What mapping and unmapping promise

    The contracts of the mapping functions of [Paging], in terms of translation. *)

From Stdlib Require Import ZArith Lia.
From stdpp Require Import base numbers list list_numbers option gmap.
From S2P Require Import Prelude Pmm Memory Paging PageMaps.

Local Open Scope Z_scope.

(** The contract of [try_map_4k], with what it does to the memory manager. *)
Lemma try_map_ok (a : PmmAllocator) (s : pg) (v p f : Z)
  (Hi : pt_inv a s) (Hp : page_ok p) (Hf : flags_ok f) :
  ∃ b s', try_map_4k a s v p f = Ret (b, s') ∧ pt_inv a s' ∧ pg_cr3 s' = pg_cr3 s ∧
    (∀ v', indices v' ≠ indices v → leaf s' v' = leaf s v') ∧
    (if (b : bool) then translate s v = None ∧ leaf s' v = Some (Z.lor p (Z.land v 4095), has f PAGE_USER)
     else (∀ v', leaf s' v' = leaf s v') ∧
       (has f PAGE_USER && overlaps_kernel_scratch v (sat_add v 4096) = true ∨
        is_Some (translate s v) ∨ exhausted a s')) ∧
    (has f PAGE_USER && overlaps_kernel_scratch v (sat_add v 4096) = false → translate s v = None →
     map_4k a s v p f = if b then Ret s' else Hang) ∧ grew a s s' ∧ (b = true → not_huge s' v) ∧ confined a (path_of v) s s'.
Proof.
  rewrite try_map_tables, map_tables.
  destruct (has f PAGE_USER && _); [exists false, s; by split_and!; auto using grew_refl, confined_refl|].
  destruct (translate s v) as [x|] eqn:Ht; [exists false, s; by split_and!; eauto using grew_refl, confined_refl|].
  destruct (tables_spec a s v Hi (untranslated_not_huge a s v Hi Ht)) as (o & s1 & -> & Hi1 & Hc & Hx & Ho & A1 & C1).
  cbn [mbind outcome_bind]. destruct o as [[[l3 l2] l1]|].
  - destruct Ho as (W1 & W2 & W3).
    destruct (mapped_spec a s s1 v p f l3 l2 l1 (has f PAGE_USER)) as (Hi' & Hc' & Ho' & Hv & A2 & Hnh & C2); [done..|].
    eexists true, _. split; [done|]. split_and!; try done; [by eapply grew_trans|by eapply confined_trans].
  - assert (read_cr3 s1 = read_cr3 s) as E by (unfold read_cr3; by rewrite Hc).
    assert (∀ v', leaf s1 v' = leaf s v') as Hsame.
    { intros v'. unfold leaf. rewrite E. by apply Hx, indices_ok. }
    exists false, s1. split; [done|]. split; [done|]. split; [done|]. split; [auto|].
    split; [|by split_and!]. auto.
Qed.

(** C26: Mapping a page.  On a well-formed address space [try_map_4k] always returns.  When it
    reports success, the page was unmapped before and now translates to the given frame; when
    it reports failure, the address is the reserved scratch page asked for with user access, or
    was mapped already, or physical memory is exhausted, and the address translates as before.  In
    every case no other page's translation changes, the address space stays well-formed (its
    tables are distinct pages that the memory manager has handed out), and [map_4k] on an
    unmapped page does the same, halting where [try_map_4k] fails for lack of memory. *)
Theorem try_map_4k_spec (a : PmmAllocator) (s : pg) (v p f : Z)
  (Hi : pt_inv a s) (Hp : page_ok p) (Hf : flags_ok f) :
  ∃ b s', try_map_4k a s v p f = Ret (b, s') ∧ pt_inv a s' ∧ pg_cr3 s' = pg_cr3 s ∧
    (∀ v', indices v' ≠ indices v → translate s' v' = translate s v') ∧
    (if (b : bool) then translate s v = None ∧ translate s' v = Some (Z.lor p (Z.land v 4095))
     else translate s' v = translate s v ∧
       (has f PAGE_USER && overlaps_kernel_scratch v (sat_add v 4096) = true ∨
        is_Some (translate s v) ∨ exhausted a s')) ∧
    (has f PAGE_USER && overlaps_kernel_scratch v (sat_add v 4096) = false → translate s v = None →
     map_4k a s v p f = if b then Ret s' else Hang).
Proof.
  destruct (try_map_ok a s v p f Hi Hp Hf) as (b & s' & ? & ? & ? & Ho & Hb & ? & _). exists b, s'. split_and!; try done.
  - intros v' Hne. rewrite !(translate_leaf a) by done. by rewrite Ho.
  - destruct b; destruct Hb as [Hb Hl].
    + split; [done|]. by rewrite (translate_leaf a s'), Hl.
    + split; [|done]. by rewrite (translate_leaf a s'), Hb, (translate_leaf a s).
Qed.

Lemma unmap_walk (a : PmmAllocator) s v l1 : pt_inv a s →
  walk (pg_mem s) (read_cr3 s) [index_at v 39; index_at v 30; index_at v 21] = Some l1 →
  ∃ l3 l2, walk (pg_mem s) (read_cr3 s) [index_at v 39] = Some l3 ∧
    walk (pg_mem s) (read_cr3 s) [index_at v 39; index_at v 30] = Some l2 ∧
    has (pg_ld s (slot (read_cr3 s) (index_at v 39))) PAGE_PRESENT = true ∧
    entry_addr (pg_ld s (slot (read_cr3 s) (index_at v 39))) = l3 ∧
    has (pg_ld s (slot l3 (index_at v 30))) PAGE_PRESENT = true ∧
    entry_addr (pg_ld s (slot l3 (index_at v 30))) = l2 ∧
    has (pg_ld s (slot l2 (index_at v 21))) PAGE_PRESENT = true ∧
    has (pg_ld s (slot l2 (index_at v 21))) PAGE_HUGE = false ∧
    entry_addr (pg_ld s (slot l2 (index_at v 21))) = l1.
Proof.
  intros Hi. rewrite walk3. destruct (walk _ _ [_; _]) as [l2|] eqn:W2; [|done].
  cbn [mbind option_bind]. intros H1.
  assert (∀ t i x, next (pg_mem s) t i = Some x →
    has (pg_ld s (slot t i)) PAGE_PRESENT = true ∧ has (pg_ld s (slot t i)) PAGE_HUGE = false ∧
    entry_addr (pg_ld s (slot t i)) = x) as Hn.
  { intros t i x. unfold next, link, pg_ld. destruct (has (ld64 (pg_mem s) (slot t i)) PAGE_PRESENT); [|done].
    destruct (has (ld64 (pg_mem s) (slot t i)) PAGE_HUGE); [done|]. by intros [= <-]. }
  destruct (Hn _ _ _ H1) as (? & ? & ?).
  change [index_at v 39; index_at v 30] with ([index_at v 39] ++ [index_at v 30]) in W2.
  pose proof W2 as W2'. rewrite walk_snoc in W2. destruct (walk _ _ [_]) as [l3|] eqn:W1; [|done].
  cbn [mbind option_bind] in W2. destruct (Hn _ _ _ W2) as (? & ? & ?).
  change (next (pg_mem s) (read_cr3 s) (index_at v 39) = Some l3) in W1. destruct (Hn _ _ _ W1) as (? & ? & ?).
  exists l3, l2. split_and!; done.
Qed.

(** The cascade after the leaf is cleared. *)
Definition reclaim_levels (a : PmmAllocator) (s : pg) (v l3 l2 l1 : Z) : outcome pg :=
  if table_empty s l1 then
    s ← pmm_free a (pg_st s (slot l2 (index_at v 21)) 0) l1;
    if table_empty s l2 then
      s ← pmm_free a (pg_st s (slot l3 (index_at v 30)) 0) l2;
      if table_empty s l3 then pmm_free a (pg_st s (slot (read_cr3 s) (index_at v 39)) 0) l3 else Ret s
    else Ret s
  else Ret s.

Lemma reclaim_levels_spec a s v l3 l2 l1 : pt_inv a s →
  walk (pg_mem s) (read_cr3 s) [index_at v 39] = Some l3 →
  walk (pg_mem s) (read_cr3 s) [index_at v 39; index_at v 30] = Some l2 →
  walk (pg_mem s) (read_cr3 s) [index_at v 39; index_at v 30; index_at v 21] = Some l1 →
  ∃ s', reclaim_levels a s v l3 l2 l1 = Ret s' ∧ pt_inv a s' ∧ pg_cr3 s' = pg_cr3 s ∧
    (∀ idx x, idx_ok idx → xlate (pg_mem s') (read_cr3 s) idx x = xlate (pg_mem s) (read_cr3 s) idx x) ∧ shrank a s s' ∧ confined a (path_of v) s s'.
Proof.
  intros Hi W1 W2 W3. unfold reclaim_levels.
  pose proof (index_at_range v 39). pose proof (index_at_range v 30). pose proof (index_at_range v 21).
  assert (∀ (l l' : list Z), (length l' < length l)%nat → ¬ l `prefix_of` l') as Hnp.
  { intros l l' Hl Hp%prefix_length. lia. }
  destruct (table_empty s l1) eqn:E1; [|exists s; by split_and!; auto using shrank_refl, confined_refl].
  destruct (reclaim_spec a s [index_at v 39; index_at v 30] (index_at v 21) l2 l1)
    as (s1 & -> & Hi1 & Hc1 & Hw1 & Hx1 & A1 & C1); [done|by apply ok3|done..|]. cbn [mbind outcome_bind].
  assert (read_cr3 s1 = read_cr3 s) as R1 by (unfold read_cr3; by rewrite Hc1).
  assert (ok_path (path_of v)) as Hvp by (by apply ok3).
  assert (∀ (l : list Z) k, path_of v = l ++ k → l `prefix_of` path_of v) as Hpre by (intros l k ->; apply prefix_cut).
  specialize (C1 (path_of v) Hvp (Hpre [index_at v 39; index_at v 30; index_at v 21] [] eq_refl)).
  destruct (table_empty s1 l2) eqn:E2; [|by exists s1].
  destruct (reclaim_spec a s1 [index_at v 39] (index_at v 30) l3 l2)
    as (s2 & -> & Hi2 & Hc2 & Hw2 & Hx2 & A2 & C2); [done|by apply ok2| | |done|].
  1,2: rewrite R1, Hw1; [done|by apply ok1 || by apply ok2|apply Hnp; cbn; lia].
  specialize (C2 (path_of v) Hvp (Hpre [index_at v 39; index_at v 30] [index_at v 21] eq_refl)).
  cbn [mbind outcome_bind]. rewrite R1 in *.
  assert (read_cr3 s2 = read_cr3 s) as R2 by (unfold read_cr3; by rewrite Hc2, Hc1).
  destruct (table_empty s2 l3) eqn:E3.
  2:{ exists s2. split; [done|]. split; [done|]. split; [congruence|]. split; [|by split; [eapply shrank_trans|eapply confined_trans]]. intros. by rewrite Hx2, Hx1. }
  destruct (reclaim_spec a s2 [] (index_at v 39) (read_cr3 s2) l3)
    as (s3 & -> & Hi3 & Hc3 & _ & Hx3 & A3 & C3); [done|by apply ok1|done| |done|].
  { rewrite R2. change ([] ++ [index_at v 39]) with [index_at v 39].
    rewrite Hw2, Hw1; [done|auto with vibix|apply Hnp; cbn; lia|auto with vibix|apply Hnp; cbn; lia]. }
  exists s3. split; [done|]. split; [done|]. split; [congruence|]. rewrite R2 in Hx3.
  specialize (C3 (path_of v) Hvp (Hpre [index_at v 39] [index_at v 30; index_at v 21] eq_refl)).
  split; [intros; by rewrite Hx3, Hx2, Hx1|]. by split; [eapply shrank_trans; [|eapply shrank_trans]|eapply confined_trans; [|eapply confined_trans]].
Qed.

(** When no table leads to [v]. *)
Lemma unmap_nothing a s v : pt_inv a s → not_huge s v →
  walk (pg_mem s) (read_cr3 s) [index_at v 39; index_at v 30; index_at v 21] = None →
  unmap_and_free_empty a s v = Ret (None, s) ∧ translate s v = None.
Proof.
  intros Hi Hnh W3. assert (translate s v = None) as Ht.
  { rewrite (translate_xlate a) by done. cbn [indices xlate]. rewrite W3.
    destruct (walk _ _ [_; _]) as [l2|] eqn:W2; [|done]. cbn [mbind option_bind].
    change (ld64 (pg_mem s) ?x) with (pg_ld s x).
    destruct (has (pg_ld s (slot l2 (index_at v 21))) PAGE_PRESENT) eqn:Hp; [|done].
    by rewrite (Hnh l2 W2 Hp). }
  split; [|done]. unfold unmap_and_free_empty, unmap. cbn [indices].
  pose proof (index_at_range v 39) as R4. pose proof (index_at_range v 30) as R3.
  destruct (has (pg_ld s (slot (read_cr3 s) (index_at v 39))) PAGE_PRESENT) eqn:P4; cbn [negb]; [|done].
  set (l3 := entry_addr _).
  assert (walk (pg_mem s) (read_cr3 s) [index_at v 39] = Some l3) as W1.
  { unfold walk. cbn. unfold next, link. change (ld64 (pg_mem s) ?x) with (pg_ld s x).
    pose proof (tr_nohuge _ _ (pi_tree _ _ Hi) [] _ _ (ok1 _ R4) ltac:(cbn; lia) eq_refl P4) as N4.
    change (ld64 (pg_mem s) ?x) with (pg_ld s x) in N4. by rewrite P4, N4. }
  destruct (has (pg_ld s (slot l3 (index_at v 30))) PAGE_PRESENT) eqn:P3; cbn [negb]; [|done].
  set (l2 := entry_addr _).
  assert (walk (pg_mem s) (read_cr3 s) [index_at v 39; index_at v 30] = Some l2) as W2.
  { change [index_at v 39; index_at v 30] with ([index_at v 39] ++ [index_at v 30]). rewrite walk_snoc, W1. cbn [mbind option_bind]. unfold next, link.
    change (ld64 (pg_mem s) ?x) with (pg_ld s x).
    pose proof (tr_nohuge _ _ (pi_tree _ _ Hi) [index_at v 39] _ _ (ok2 _ _ R4 R3) ltac:(cbn; lia) W1 P3) as N3.
    change (ld64 (pg_mem s) ?x) with (pg_ld s x) in N3. by rewrite P3, N3. }
  destruct (has (pg_ld s (slot l2 (index_at v 21))) PAGE_PRESENT) eqn:P2; cbn [negb orb]; [|done].
  exfalso. rewrite walk3, W2 in W3. cbn [mbind option_bind] in W3. unfold next, link in W3.
  change (ld64 (pg_mem s) ?x) with (pg_ld s x) in W3. by rewrite P2, (Hnh l2 W2 P2) in W3.
Qed.

(** When the tables lead to [v], the call clears the leaf and then goes up the levels. *)
Lemma unmap_eq a s v l1 : pt_inv a s → walk (pg_mem s) (read_cr3 s) [index_at v 39; index_at v 30; index_at v 21] = Some l1 →
  ∃ l3 l2, walk (pg_mem s) (read_cr3 s) [index_at v 39] = Some l3 ∧
    walk (pg_mem s) (read_cr3 s) [index_at v 39; index_at v 30] = Some l2 ∧
    unmap_and_free_empty a s v =
      if has (pg_ld s (slot l1 (index_at v 12))) PAGE_PRESENT
      then s' ← reclaim_levels a (pg_st s (slot l1 (index_at v 12)) 0) v l3 l2 l1;
           Ret (Some (pg_ld s (slot l1 (index_at v 12))), s')
      else Ret (None, s).
Proof.
  intros Hi W3. destruct (unmap_walk a s v l1 Hi W3) as (l3 & l2 & W1 & W2 & P4 & E4 & P3 & E3 & P2 & N2 & E2).
  exists l3, l2. split; [done|]. split; [done|]. unfold unmap_and_free_empty, reclaim_levels. cbn [indices].
  rewrite P4, E4, P3, E3, P2, N2, E2. cbn [negb orb].
  destruct (has (pg_ld s (slot l1 (index_at v 12))) PAGE_PRESENT); [|done]. cbn [negb].
  destruct (table_empty _ l1); [|done]. unfold pmm_free.
  destruct (free a _ l1); try done. cbn [mbind outcome_bind].
  destruct (table_empty _ l2); [|done]. destruct (free a _ l2); try done. cbn [mbind outcome_bind].
  destruct (table_empty _ l3); [|done]. by destruct (free a _ l3).
Qed.

(** The contract of [unmap_and_free_empty], with what it does to the memory manager. *)
Lemma unmap_ok (a : PmmAllocator) (s : pg) (v : Z)
  (Hi : pt_inv a s) (Hnh : not_huge s v) :
  ∃ o s', unmap_and_free_empty a s v = Ret (o, s') ∧ pt_inv a s' ∧ pg_cr3 s' = pg_cr3 s ∧
    (∀ v', indices v' ≠ indices v → leaf s' v' = leaf s v') ∧ translate s' v = None ∧
    translate s v = (λ e, Z.lor (entry_addr e) (Z.land v 4095)) <$> o ∧ shrank a s s' ∧ confined a (path_of v) s s'.
Proof.
  destruct (walk (pg_mem s) (read_cr3 s) [index_at v 39; index_at v 30; index_at v 21]) as [l1|] eqn:W3.
  2:{ destruct (unmap_nothing a s v Hi Hnh W3) as [-> Ht]. exists None, s. by split_and!; auto using shrank_refl, confined_refl. }
  destruct (unmap_eq a s v l1 Hi W3) as (l3 & l2 & W1 & W2 & E).
  assert (translate s v = if has (pg_ld s (slot l1 (index_at v 12))) PAGE_PRESENT
    then Some (Z.lor (entry_addr (pg_ld s (slot l1 (index_at v 12)))) (Z.land v 4095)) else None) as Ht.
  { rewrite (translate_xlate a) by done. cbn [indices xlate]. rewrite W3. unfold pg_ld. by destruct (has (ld64 (pg_mem s) (slot l1 (index_at v 12))) PAGE_PRESENT). }
  rewrite E.
  destruct (has (pg_ld s (slot l1 (index_at v 12))) PAGE_PRESENT); [|exists None, s; by split_and!; auto using shrank_refl, confined_refl].
  destruct (finish_spec a s (index_at v 39) (index_at v 30) (index_at v 21) (index_at v 12) l3 l2 l1 0 false)
    as (Hi1 & Hc1 & Hx1 & G1 & C1); [done|apply (indices_ok v)|done..|]. cbn [finish] in Hi1, Hc1, Hx1.
  destruct (leaf_write _ _ (index_at v 39) (index_at v 30) (index_at v 21) (index_at v 12) l1 0 (pi_tree _ _ Hi)
    (indices_ok v) W3) as (_ & Hw & _).
  destruct (reclaim_levels_spec a (pg_st s (slot l1 (index_at v 12)) 0) v l3 l2 l1) as (s' & -> & Hi' & Hc' & Hx' & A' & C');
    [done|..].
  1-3: change (read_cr3 (pg_st _ _ _)) with (read_cr3 s); cbn [pg_mem pg_st set_mem]; rewrite Hw;
    [done|pose proof (index_at_range v 39); pose proof (index_at_range v 30); pose proof (index_at_range v 21); auto with vibix].
  cbn [mbind outcome_bind]. eexists _, s'. split; [done|]. split; [done|].
  change (read_cr3 (pg_st _ _ _)) with (read_cr3 s) in *.
  assert (read_cr3 s' = read_cr3 s) as R by (unfold read_cr3; by rewrite Hc').
  assert (∀ v', leaf s' v' = if decide (indices v' = indices v) then None else leaf s v') as Htr.
  { intros v'. unfold leaf. rewrite R, Hx', Hx1 by apply indices_ok.
    change (index_at v 39, index_at v 30, index_at v 21, index_at v 12) with (indices v). by rewrite has_0. }
  split; [done|]. split; [intros v' Hne; by rewrite Htr, decide_False|].
  split; [by rewrite (leaf_none a), Htr, decide_True|]. split; [done|]. split; [|by eapply confined_trans; [exact C1|exact C']].
  eapply shrank_trans; [|exact A']. by apply shrank_same; [..|apply (gw_huge _ _ _ G1)].
Qed.

(** The four entries that lead to the page of [v], from the root on. *)
Definition way (v : Z) : list Z := path_of v ++ [index_at v 12].

(** The way to [v] is cut at its entry [n - 1]: the tables from [n] on along it are gone, which held nothing but this way; all
    others are where they were, with the words they had but for the entries of the way that were cleared. *)
Record cut (v : Z) (n : nat) (s s' : pg) : Prop := {
  ct_walk : ∀ path, ok_path path → walk (pg_mem s') (read_cr3 s) path =
    if decide (take n (way v) `prefix_of` path) then None else walk (pg_mem s) (read_cr3 s) path;
  ct_only : ∀ j t i, (n ≤ j ≤ 3)%nat → walk (pg_mem s) (read_cr3 s) (take j (way v)) = Some t → 0 ≤ i < 512 → way v !! j ≠ Some i →
    ld64 (pg_mem s) (slot t i) = 0;
  ct_mem : ∀ t i, page_ok t → 0 ≤ i < 512 →
    (∀ j, (n - 1 ≤ j ≤ 3)%nat → walk (pg_mem s) (read_cr3 s) (take j (way v)) = Some t → way v !! j ≠ Some i) →
    ld64 (pg_mem s') (slot t i) = ld64 (pg_mem s) (slot t i)
}.

Lemma way_ok v n : (n ≤ 3)%nat → ok_path (take n (way v)).
Proof.
  intros Hn. apply (ok_path_prefix (path_of v)); [apply ok3; apply index_at_range|].
  unfold way. rewrite take_app_le by done. apply prefix_take.
Qed.

Lemma way_lookup v j i : way v !! j = Some i → 0 ≤ i < 512.
Proof. destruct j as [|[|[|[|j]]]]; cbn; intros [= <-]; apply index_at_range. Qed.

(** Clearing the leaf. *)
Lemma cut_leaf a s v l1 : pt_inv a s → walk (pg_mem s) (read_cr3 s) (path_of v) = Some l1 →
  cut v 4 s (pg_st s (slot l1 (index_at v 12)) 0).
Proof.
  intros Hi W. destruct (leaf_write _ _ (index_at v 39) (index_at v 30) (index_at v 21) (index_at v 12) l1 0 (pi_tree _ _ Hi) (indices_ok v) W) as (_ & Hw & _).
  split; cbn [pg_mem pg_st set_mem].
  - intros path Hp. rewrite decide_False; [by apply Hw|]. intros Hk%prefix_length. destruct Hp as [Hp _]. cbn in Hk. lia.
  - lia.
  - intros t i Ht Hii Hj. apply ld_st_ne. intros Es. pose proof (index_at_range v 12). apply slot_inj in Es as [<- <-]; try done.
    + by apply (Hj 3%nat); [lia|exact W|].
    + exact (tr_ok _ _ (pi_tree _ _ Hi) (path_of v) l1 (way_ok v 3 ltac:(lia)) W).
Qed.

(** Taking the next table away. *)
Lemma cut_table a v n i s s1 s2 t x : pt_inv a s → pt_inv a s1 → read_cr3 s1 = read_cr3 s → cut v (S n) s s1 → (1 ≤ n ≤ 3)%nat → way v !! (n - 1)%nat = Some i →
  walk (pg_mem s1) (read_cr3 s) (take (n - 1) (way v)) = Some t → walk (pg_mem s1) (read_cr3 s) (take n (way v)) = Some x → table_empty s1 x = true →
  pg_mem s2 = st64 (pg_mem s1) (slot t i) 0 → cut v n s s2.
Proof.
  intros Hi Hi1 Hr C Hn Hin Wt Wx He Hm. assert (take n (way v) = take (n - 1) (way v) ++ [i]) as Et.
  { replace n with (S (n - 1)) at 1 by lia. by apply take_S_r. }
  pose proof (way_ok v n ltac:(lia)) as Hok. pose proof (way_ok v (n - 1) ltac:(lia)) as Hok'.
  assert (∀ k, (k ≤ n)%nat → walk (pg_mem s1) (read_cr3 s) (take k (way v)) = walk (pg_mem s) (read_cr3 s) (take k (way v))) as Hk.
  { intros k Hk. rewrite (ct_walk _ _ _ _ C) by (apply way_ok; lia). rewrite decide_False; [done|]. intros Hp%prefix_length. rewrite !length_take in Hp. cbn in Hp. lia. }
  rewrite Hk in Wt, Wx by lia. split; rewrite ?Hm.
  - intros path Hp. rewrite <- Hr. rewrite Et in Hok |- *. rewrite (removed_walk _ _ t i (take (n - 1) (way v)) (pi_tree _ _ Hi1) Hok) by (rewrite ?Hr, ?Hk; done || lia).
    case_decide as Hd; [done|]. rewrite Hr, (ct_walk _ _ _ _ C) by done. rewrite decide_False; [done|]. intros Hd'. apply Hd. rewrite <- Et.
    etransitivity; [|exact Hd']. replace (take n (way v)) with (take n (take (S n) (way v))) by (rewrite take_take; f_equal; lia). apply prefix_take.
  - intros j t' i' Hj W' Hi' Hne. destruct (decide (j = n)) as [->|]; [|apply (ct_only _ _ _ _ C j); [lia|done..]].
    assert (t' = x) as -> by congruence. rewrite <- (ct_mem _ _ _ _ C x i'); [by apply (all_zero_spec (pg_mem s1) x 512 0); [|lia]|exact (tr_ok _ _ (pi_tree _ _ Hi) _ _ Hok Wx)|done|].
    intros j Hj' Wj. destruct (decide (j = n)) as [->|Hjn]; [done|]. exfalso. apply Hjn.
    pose proof (f_equal length (tr_inj _ _ (pi_tree _ _ Hi) _ _ x (way_ok v j ltac:(lia)) Hok Wj Wx)) as Hl. rewrite !length_take in Hl. cbn in Hl. lia.
  - intros t' i' Ht' Hi' Hj. rewrite ld_st_ne.
    + apply (ct_mem _ _ _ _ C); [done|done|]. intros j Hj'. apply Hj. lia.
    + intros Es. apply slot_inj in Es as [-> ->]; try done; [by apply (Hj (n - 1)%nat); [lia|..]|exact (tr_ok _ _ (pi_tree _ _ Hi) _ _ Hok' Wt)|by eapply way_lookup].
Qed.

Lemma pmm_free_mem a s x s' : pmm_free a s x = Ret s' → pg_mem s' = pg_mem s.
Proof. unfold pmm_free. destruct (free a (pg_bm s) x); cbn; try discriminate. by intros [= <-]. Qed.

(** A table on a way that goes on is not empty. *)
Lemma next_not_empty s t i t' : next (pg_mem s) t i = Some t' → 0 ≤ i < 512 → table_empty s t = false.
Proof.
  intros Hn Hi. apply not_true_iff_false. intros He. assert (ld64 (pg_mem s) (slot t i) = 0) as Hz by (by apply (all_zero_spec (pg_mem s) t 512 0)).
  unfold next, link in Hn. by rewrite Hz, has_0 in Hn.
Qed.

(** What is left of a way that was cut behind a table with other entries. *)
Definition way_kept (v : Z) (n : nat) (s' : pg) : Prop :=
  ∀ j t, (1 ≤ j < n)%nat → walk (pg_mem s') (read_cr3 s') (take j (way v)) = Some t → table_empty s' t = false.

Lemma cut_kept v n s s' l1 : cut v n s s' → read_cr3 s' = read_cr3 s → (1 ≤ n ≤ 4)%nat → walk (pg_mem s) (read_cr3 s) (path_of v) = Some l1 →
  (∀ t, (2 ≤ n)%nat → walk (pg_mem s') (read_cr3 s) (take (n - 1) (way v)) = Some t → table_empty s' t = false) → way_kept v n s'.
Proof.
  intros C Hr Hn W Hlast j t Hj Wj. rewrite Hr in Wj. destruct (decide (j = (n - 1)%nat)) as [->|Hjn]; [apply Hlast; [lia|done]|].
  destruct (lookup_lt_is_Some_2 (way v) j) as [i Hw]; [cbn; lia|].
  assert (∃ t', walk (pg_mem s') (read_cr3 s) (take (S j) (way v)) = Some t') as [t' Ht'].
  { rewrite (ct_walk _ _ _ _ C) by (apply way_ok; lia). rewrite decide_False by (intros Hp%prefix_length; rewrite !length_take in Hp; cbn in Hp; lia).
    assert (path_of v = take (S j) (way v) ++ drop (S j) (path_of v)) as Ep by (unfold way; rewrite take_app_le by (cbn; lia); by rewrite take_drop).
    rewrite Ep in W. unfold walk in W |- *. rewrite fold_left_app in W. destruct (fold_left _ (take (S j) (way v)) _) as [x|]; [by exists x|].
    exfalso. clear -W. induction (drop (S j) (path_of v)); [done|]. by apply IHl. }
  rewrite (take_S_r _ _ i Hw), walk_snoc, Wj in Ht'. cbn [mbind option_bind] in Ht'. eapply next_not_empty; [exact Ht'|by eapply way_lookup].
Qed.

(** Going up the levels cuts the way at the first table with other entries. *)
Lemma reclaim_levels_cut a s s0 v l3 l2 l1 s' : pt_inv a s → pt_inv a s0 → read_cr3 s0 = read_cr3 s → cut v 4 s s0 →
  walk (pg_mem s) (read_cr3 s) [index_at v 39] = Some l3 → walk (pg_mem s) (read_cr3 s) [index_at v 39; index_at v 30] = Some l2 →
  walk (pg_mem s) (read_cr3 s) (path_of v) = Some l1 → reclaim_levels a s0 v l3 l2 l1 = Ret s' →
  ∃ n, (1 ≤ n ≤ 4)%nat ∧ cut v n s s' ∧ way_kept v n s'.
Proof.
  intros Hi Hi0 Hr C W1 W2 W3. unfold reclaim_levels.
  pose proof (index_at_range v 39) as R4. pose proof (index_at_range v 30) as R3. pose proof (index_at_range v 21) as R2.
  assert (∀ k n s1, cut v n s s1 → (k < n ≤ 4)%nat → walk (pg_mem s1) (read_cr3 s) (take k (way v)) = walk (pg_mem s) (read_cr3 s) (take k (way v))) as Hk.
  { intros k n s1 C' Hkn. rewrite (ct_walk _ _ _ _ C') by (apply way_ok; lia). rewrite decide_False; [done|].
    intros Hp%prefix_length. rewrite !length_take in Hp. cbn in Hp. lia. }
  assert (∀ n s1 x, cut v n s s1 → read_cr3 s1 = read_cr3 s → (2 ≤ n ≤ 4)%nat → walk (pg_mem s) (read_cr3 s) (take (n - 1) (way v)) = Some x → table_empty s1 x = false → way_kept v n s1) as Hend.
  { intros n s1 x C' Hr' Hn Wx He. apply (cut_kept v n s s1 l1); [done|done|lia|done|]. intros t _ Wt. rewrite (Hk _ n) in Wt by (done || lia). congruence. }
  destruct (table_empty s0 l1) eqn:E1; [|intros [= <-]; exists 4%nat; split; [lia|]; split; [done|]; by apply (Hend 4%nat s0 l1); [..|lia| |]].
  destruct (reclaim_spec a s0 [index_at v 39; index_at v 30] (index_at v 21) l2 l1) as (s1 & F1 & Hi1 & Hc1 & _);
    [done|by apply ok3|rewrite Hr; exact (eq_trans (Hk 2%nat 4%nat s0 C ltac:(lia)) W2)|rewrite Hr; exact (eq_trans (Hk 3%nat 4%nat s0 C ltac:(lia)) W3)|done|]. rewrite F1. cbn [mbind outcome_bind].
  assert (read_cr3 s1 = read_cr3 s) as Hr1 by (rewrite <- Hr; unfold read_cr3; by rewrite Hc1).
  assert (cut v 3 s s1) as C1.
  { apply (cut_table a v 3 (index_at v 21) s s0 s1 l2 l1); try done; [lia|exact (eq_trans (Hk 2%nat 4%nat s0 C ltac:(lia)) W2)|exact (eq_trans (Hk 3%nat 4%nat s0 C ltac:(lia)) W3)|by apply pmm_free_mem in F1]. }
  destruct (table_empty s1 l2) eqn:E2; [|intros [= <-]; exists 3%nat; split; [lia|]; split; [done|]; by apply (Hend 3%nat s1 l2); [..|lia| |]].
  destruct (reclaim_spec a s1 [index_at v 39] (index_at v 30) l3 l2) as (s2 & F2 & Hi2 & Hc2 & _);
    [done|by apply ok2|rewrite Hr1; exact (eq_trans (Hk 1%nat 3%nat s1 C1 ltac:(lia)) W1)|rewrite Hr1; exact (eq_trans (Hk 2%nat 3%nat s1 C1 ltac:(lia)) W2)|done|]. rewrite F2. cbn [mbind outcome_bind].
  assert (read_cr3 s2 = read_cr3 s) as Hr2 by (rewrite <- Hr1; unfold read_cr3; by rewrite Hc2).
  assert (cut v 2 s s2) as C2.
  { apply (cut_table a v 2 (index_at v 30) s s1 s2 l3 l2); try done; [lia|exact (eq_trans (Hk 1%nat 3%nat s1 C1 ltac:(lia)) W1)|exact (eq_trans (Hk 2%nat 3%nat s1 C1 ltac:(lia)) W2)|by apply pmm_free_mem in F2]. }
  destruct (table_empty s2 l3) eqn:E3; [|intros [= <-]; exists 2%nat; split; [lia|]; split; [done|]; by apply (Hend 2%nat s2 l3); [..|lia| |]].
  intros F3. exists 1%nat. split; [lia|]. rewrite Hr2 in F3. split; [|intros j t Hj; lia].
  apply (cut_table a v 1 (index_at v 39) s s2 s' (read_cr3 s) l3); try done; [lia|exact (eq_trans (Hk 1%nat 2%nat s2 C2 ltac:(lia)) W1)|by apply pmm_free_mem in F3].
Qed.

Lemma unmap_cut a s v e s' : pt_inv a s → not_huge s v → unmap_and_free_empty a s v = Ret (Some e, s') →
  ∃ n, (1 ≤ n ≤ 4)%nat ∧ cut v n s s' ∧ way_kept v n s'.
Proof.
  intros Hi Hnh. destruct (walk (pg_mem s) (read_cr3 s) (path_of v)) as [l1|] eqn:W3.
  2: { destruct (unmap_nothing a s v Hi Hnh W3) as [-> _]. discriminate. }
  destruct (unmap_eq a s v l1 Hi W3) as (l3 & l2 & W1 & W2 & ->).
  destruct (has (pg_ld s (slot l1 (index_at v 12))) PAGE_PRESENT); [|discriminate].
  destruct (reclaim_levels _ _ _ _ _ _) as [s1| | |] eqn:E; cbn [mbind outcome_bind]; try discriminate. intros [= _ <-].
  destruct (finish_spec a s (index_at v 39) (index_at v 30) (index_at v 21) (index_at v 12) l3 l2 l1 0 false)
    as (Hi1 & _); [done|apply (indices_ok v)|done..|]. cbn [finish] in Hi1.
  by apply (reclaim_levels_cut a s (pg_st s (slot l1 (index_at v 12)) 0) v l3 l2 l1); [..|apply (cut_leaf a)| | | |].
Qed.

Lemma unmap_none a s v s' : pt_inv a s → not_huge s v → unmap_and_free_empty a s v = Ret (None, s') → s' = s.
Proof.
  intros Hi Hnh. destruct (walk (pg_mem s) (read_cr3 s) (path_of v)) as [l1|] eqn:W3.
  2: { destruct (unmap_nothing a s v Hi Hnh W3) as [-> _]. by intros [= <-]. }
  destruct (unmap_eq a s v l1 Hi W3) as (l3 & l2 & W1 & W2 & ->).
  destruct (has (pg_ld s (slot l1 (index_at v 12))) PAGE_PRESENT); [|by intros [= <-]].
  by destruct (reclaim_levels _ _ _ _ _ _).
Qed.

(** C27: Unmapping a page, with the reclaiming of tables that become empty.  Outside 2 MiB
    mappings, [unmap_and_free_empty] always returns: nothing, with nothing changed, if the page was not mapped, and else the
    leaf entry that was there.  Afterwards the page does not translate, every
    other page has the translation and the access it had, and the address space is well-formed.  The way to the page is
    cut at some entry ([cut]): the tables behind it are gone, and each held nothing but the way to this page; the tables before it
    stay and none of them is empty ([way_kept]), so all the tables that become empty are reclaimed; no other word of a table is
    written.  The pages given back to the memory manager are exactly those of the tables that are gone: the frame that was mapped is not. *)
Theorem unmap_and_free_empty_spec (a : PmmAllocator) (s : pg) (v : Z)
  (Hi : pt_inv a s) (Hnh : not_huge s v) :
  ∃ o s', unmap_and_free_empty a s v = Ret (o, s') ∧ pt_inv a s' ∧ pg_cr3 s' = pg_cr3 s ∧
    (∀ v', indices v' ≠ indices v → translate s' v' = translate s v' ∧ leaf s' v' = leaf s v') ∧ translate s' v = None ∧
    translate s v = (λ e, Z.lor (entry_addr e) (Z.land v 4095)) <$> o ∧
    (∀ k, 0 ≤ k < total_pages a → used (pg_bm s') k = true ↔ used (pg_bm s) k = true ∧ (tbl s (page_addr a k) → tbl s' (page_addr a k))) ∧
    match o with
    | None => s' = s
    | Some _ => ∃ n, (1 ≤ n ≤ 4)%nat ∧ cut v n s s' ∧ way_kept v n s'
    end.
Proof.
  destruct (unmap_ok a s v Hi Hnh) as (o & s' & E & Hi' & Hc & Ho & Ht & Hs & Hsh & _). exists o, s'. split_and!; try done.
  - intros v' Hne. split; [|by apply Ho]. rewrite !(translate_leaf a) by done. by rewrite Ho.
  - intros k Hk. split; [intros Hu; split; [by apply (sh_used _ _ _ Hsh)|intros Htb; by apply (sh_gone _ _ _ Hsh)]|].
    intros [Hu Htb]. destruct (used (pg_bm s') k) eqn:Eu; [done|]. exfalso.
    assert (¬ tbl s (page_addr a k)) as Hn; [|rewrite (sh_keep _ _ _ Hsh) in Eu by done; congruence].
    intros (path & Hp & Hw)%Htb. pose proof (pi_used _ _ Hi' path _ Hp Hw k Hk eq_refl). congruence.
  - destruct o as [e|]; [by apply (unmap_cut a s v e)|]. by apply (unmap_none a s v s').
Qed.

(** ** Examples *)

(** Memory without any entry, and a root on a page outside the managed range. *)
Lemma tree_empty r : page_ok r → tree ∅ r.
Proof.
  intros Hr. assert (∀ path t, walk ∅ r path = Some t → path = [] ∧ t = r) as Hw.
  { intros path. induction path as [|j path IH] using rev_ind; intros t Ht; [by injection Ht|].
    rewrite walk_snoc in Ht. destruct (walk ∅ r path) as [t'|]; [|done]. done. }
  split.
  - by intros path t _ [_ ->]%Hw.
  - by intros p1 p2 t _ _ [-> _]%Hw [-> _]%Hw.
  - intros path t i _ _ _. done.
Qed.

Definition demo_handle : PmmAllocator := mkPmm 16 1048576.
Definition demo_space : pg := mkPg ∅ (replicate (Z.to_nat BITMAP_SIZE) 0) 4096.

Lemma demo_space_inv : pt_inv demo_handle demo_space.
Proof.
  split; [split_and!; done|split; done| |by apply tree_empty|].
  - split; [done|]. by apply Forall_replicate.
  - intros path t _ Hw k Hk ->. exfalso.
    assert (page_addr demo_handle k = 4096) as He; [|unfold page_addr, demo_handle, PMM_PAGE_SIZE in *; cbn in *; lia].
    revert Hw. generalize (page_addr demo_handle k). intros t Hw.
    destruct path as [|j path] using rev_ind; [by injection Hw|].
    rewrite walk_snoc in Hw. by destruct (walk _ _ path).
Qed.

Definition demo_mapped : pg :=
  match try_map_4k demo_handle demo_space 41943040 2097152 PAGE_USER_RW with Ret (_, s) => s | _ => demo_space end.

Lemma try_map_4k_spec_witness :
  ∃ s', try_map_4k demo_handle demo_space 41943040 2097152 PAGE_USER_RW = Ret (true, s') ∧
    translate s' 41943040 = Some 2097152.
Proof.
  destruct (try_map_4k_spec demo_handle demo_space 41943040 2097152 PAGE_USER_RW) as (b & s' & Hr & _ & _ & _ & Hb & _).
  - apply demo_space_inv.
  - split; done.
  - split; [done|]. intros n Hn. apply (testbit_high 3); [lia|done|lia].
  - assert (fst <$> (match try_map_4k demo_handle demo_space 41943040 2097152 PAGE_USER_RW with Ret x => Some x | _ => None end)
      = Some true) as Ht by (vm_compute; reflexivity).
    rewrite Hr in Ht. cbn in Ht. injection Ht as ->. exists s'. split; [exact Hr|]. apply Hb.
Defined.

Lemma demo_mapped_inv : pt_inv demo_handle demo_mapped.
Proof.
  unfold demo_mapped.
  destruct (try_map_ok demo_handle demo_space 41943040 2097152 PAGE_USER_RW demo_space_inv) as (b & s' & -> & Hi & _); [split; done| |done].
  split; [done|]. intros n Hn. apply (testbit_high 3); [lia|done|lia].
Qed.

(** The page mapped above is unmapped: its entry comes back, and the tables made for it, on the first three pages, are free again. *)
Lemma unmap_and_free_empty_spec_witness :
  ∃ s', unmap_and_free_empty demo_handle demo_mapped 41943040 = Ret (Some 2097159, s') ∧ translate s' 41943040 = None ∧
    used (pg_bm demo_mapped) 0 = true ∧ used (pg_bm s') 0 = false ∧ ∃ n, (1 ≤ n ≤ 4)%nat ∧ cut 41943040 n demo_mapped s' ∧ way_kept 41943040 n s'.
Proof.
  assert (match unmap_and_free_empty demo_handle demo_mapped 41943040 with Ret (o, s) => (o, used (pg_bm s) 0) | _ => (None, true) end = (Some 2097159, false)) as He
    by (vm_compute; reflexivity).
  destruct (unmap_and_free_empty_spec demo_handle demo_mapped 41943040 demo_mapped_inv) as (o & s' & Hr & _ & _ & _ & Ht & _ & _ & Ho).
  - intros l2 Hw _. vm_compute in Hw. injection Hw as <-. vm_compute. reflexivity.
  - rewrite Hr in He. injection He as -> Hu. exists s'. split; [exact Hr|]. split; [exact Ht|]. split; [vm_compute; reflexivity|]. split; [exact Hu|exact Ho].
Defined.

(** Unmapping the page mapped above gives its three tables back. *)
Example map_unmap_demo :
  match unmap_and_free_empty demo_handle demo_mapped 41943040 with
  | Ret (Some e, s) => e = 2097159 ∧ pg_bm s = pg_bm demo_space ∧ pg_bm demo_mapped ≠ pg_bm demo_space
  | _ => False
  end.
Proof. vm_compute. split; [reflexivity|]. split; [reflexivity|discriminate]. Qed.
