(* ===== verification/Reach.v ===== *)
(** * Memory through the identity map (src/kernel_rust/src/paging.rs, syscall.rs)

    The kernel reaches physical memory by using a physical address as a pointer, so every access to a
    page table or to a frame goes through the address space that is active.  [Paging] reads and writes
    the words of physical memory directly.  Here are the same operations with each access checked: an address the active address
    space does not map to itself faults, or is somebody else's memory, and the run ends in [Fault].
    As long as the first [L] bytes are mapped to themselves and the pages the
    memory manager hands out lie below [L], both agree. *)

From Stdlib Require Import ZArith Lia.
From stdpp Require Import base numbers list list_numbers option gmap.
From S2P Require Import Prelude Pmm Memory Paging PageMaps PageSpec.

Local Open Scope Z_scope.

(** ** Checked access *)

(** The pointer [x] leads to the physical address [x]. *)
Definition direct (s : pg) (x : Z) : bool := bool_decide (translate s x = Some x).

Definition ld_via (s : pg) (x : Z) : outcome Z := if direct s x then Ret (pg_ld s x) else Fault.
Definition st_via (s : pg) (x v : Z) : outcome pg := if direct s x then Ret (pg_st s x v) else Fault.

Fixpoint zero_words_via (s : pg) (x : Z) (n : nat) : outcome pg :=
  match n with
  | O => Ret s
  | S n => s ← st_via s x 0; zero_words_via s (x + 8) n
  end.

(** [for entry in table.iter_mut() { *entry = 0 }], and [write_bytes(page, 0, 4096)]. *)
Definition zero_table_via (s : pg) (page : Z) : outcome pg := zero_words_via s page 512.

Definition set_user_via (s : pg) (entry : Z) : outcome pg :=
  e ← ld_via s entry; st_via s entry (Z.lor e PAGE_USER).

Section pmm.
Context (a : PmmAllocator).

Definition get_or_create_table_via (s : pg) (entry : Z) : outcome (Z * pg) :=
  e ← ld_via s entry;
  if has e PAGE_PRESENT then Ret (entry_addr e, s)
  else
    '(page, s) ← pmm_alloc a s;
    if page =? 0 then Hang
    else
      s ← zero_table_via s page;
      s ← st_via s entry (Z.lor (Z.lor page PAGE_KERNEL) PAGE_USER);
      Ret (page, s).

Definition map_4k_via (s : pg) (vaddr paddr flags : Z) : outcome pg :=
  if has flags PAGE_USER && overlaps_kernel_scratch vaddr (sat_add vaddr 4096) then Ret s
  else
    let '(l4i, l3i, l2i, l1i) := indices vaddr in
    let l4 := read_cr3 s in
    '(l3, s) ← get_or_create_table_via s (slot l4 l4i);
    '(l2, s) ← get_or_create_table_via s (slot l3 l3i);
    '(l1, s) ← get_or_create_table_via s (slot l2 l2i);
    s ← st_via s (slot l1 l1i) (Z.lor paddr flags);
    if has flags PAGE_USER then
      s ← set_user_via s (slot l4 l4i);
      s ← set_user_via s (slot l3 l3i);
      set_user_via s (slot l2 l2i)
    else Ret s.

Definition map_2m_via (s : pg) (vaddr paddr flags : Z) : outcome pg :=
  let '(l4i, l3i, l2i, _) := indices vaddr in
  '(l3, s) ← get_or_create_table_via s (slot (read_cr3 s) l4i);
  '(l2, s) ← get_or_create_table_via s (slot l3 l3i);
  e ← ld_via s (slot l2 l2i);
  if negb (has e PAGE_PRESENT) then st_via s (slot l2 l2i) (Z.lor paddr flags) else Ret s.

Fixpoint map_2m_loop_via (s : pg) (vstart pstart flags i : Z) (n : nat) : outcome pg :=
  match n with
  | O => Ret s
  | S n =>
      s ← map_2m_via s (u64 (vstart + i * 2097152)) (u64 (pstart + i * 2097152)) flags;
      map_2m_loop_via s vstart pstart flags (i + 1) n
  end.

Definition map_range_2m_via (s : pg) (vaddr_start paddr_start size flags : Z) : outcome pg :=
  let vstart := and_not vaddr_start 2097151 in
  let pstart := and_not paddr_start 2097151 in
  let vend := and_not (u64 (u64 (vaddr_start + size) + 2097151)) 2097151 in
  let count := u64 (vend - vstart) / 2097152 in
  map_2m_loop_via s vstart pstart flags 0 (Z.to_nat count).

Definition extend_kernel_identity_via (s : pg) (size : Z) : outcome pg :=
  map_range_2m_via s 0 0 size PAGE_KERNEL_HUGE.

Definition unmap_via (s : pg) (vaddr : Z) : outcome (option Z * pg) :=
  let '(l4i, l3i, l2i, l1i) := indices vaddr in
  e4 ← ld_via s (slot (read_cr3 s) l4i);
  if negb (has e4 PAGE_PRESENT) then Ret (None, s)
  else
    e3 ← ld_via s (slot (entry_addr e4) l3i);
    if negb (has e3 PAGE_PRESENT) then Ret (None, s)
    else
      let l2 := entry_addr e3 in
      e2 ← ld_via s (slot l2 l2i);
      if negb (has e2 PAGE_PRESENT) then Ret (None, s)
      else if has e2 PAGE_HUGE then s ← st_via s (slot l2 l2i) 0; Ret (Some e2, s)
      else
        let l1 := entry_addr e2 in
        e1 ← ld_via s (slot l1 l1i);
        if negb (has e1 PAGE_PRESENT) then Ret (None, s)
        else s ← st_via s (slot l1 l1i) 0; Ret (Some e1, s).
End pmm.

(** ** The lowest free pages *)

(** The free pages before page [k]. *)
Definition free_before (bm : bitmap) (k : Z) : Z := countb (λ j, negb (used bm j)) (seqZ 0 k).

Lemma countb_all {A} (P : A → bool) l : Forall (λ x, P x = true) l → countb P l = Z.of_nat (length l).
Proof. induction 1 as [|x l Hx _ IH]; [done|]. cbn. rewrite Hx, IH. cbn. lia. Qed.

Lemma countb_mono {A} (P Q : A → bool) l : (∀ x, x ∈ l → P x = true → Q x = true) → countb P l ≤ countb Q l.
Proof.
  induction l as [|x l IH]; intros Hx; cbn [countb]; [lia|]. specialize (IH ltac:(intros y Hy; apply Hx; by apply elem_of_cons; right)).
  pose proof (Hx x ltac:(by apply elem_of_cons; left)) as Hx'. destruct (P x); [rewrite Hx' by done; cbn; lia|destruct (Q x); cbn; lia].
Qed.

Lemma free_before_run bm n m k : 0 ≤ n → 0 ≤ m → n + m ≤ k → (∀ j, n ≤ j < n + m → used bm j = false) → m ≤ free_before bm k.
Proof.
  intros Hn Hm Ht Hf. unfold free_before. replace k with (n + (m + (k - n - m))) by lia.
  rewrite seqZ_app, seqZ_app, !countb_app by lia. rewrite (countb_all _ (seqZ (0 + n) m)).
  - rewrite length_seqZ. pose proof (countb_bound (λ j, negb (used bm j)) (seqZ 0 n)).
    pose proof (countb_bound (λ j, negb (used bm j)) (seqZ (0 + n + m) (k - n - m))). lia.
  - apply Forall_forall. intros j Hj%elem_of_seqZ. rewrite Hf by lia. done.
Qed.

Lemma countb_drop_one (P Q : Z → bool) l k : NoDup l → k ∈ l → P k = true →
  (∀ j, j ∈ l → Q j = P j && negb (j =? k)) → countb Q l = countb P l - 1.
Proof.
  induction l as [|x l IH]; intros Hd Hk HP HQ; [by apply elem_of_nil in Hk|].
  apply NoDup_cons in Hd as [Hx Hd]. cbn [countb]. rewrite (HQ x) by set_solver.
  apply elem_of_cons in Hk as [->|Hk].
  - rewrite Z.eqb_refl, HP. cbn. rewrite (countb_ext Q P); [lia|].
    intros i y Hy%list_elem_of_lookup_2. rewrite (HQ y) by set_solver.
    destruct (Z.eqb_spec y x); [congruence|]. by rewrite andb_true_r.
  - rewrite IH; [|done..|set_solver]. destruct (Z.eqb_spec x k); [congruence|]. rewrite andb_true_r. lia.
Qed.

(** ** Writes that are not to a table *)

(** No table is on the page [f]. *)
Definition untouched_frame (s : pg) (f : Z) : Prop := ∀ path t, ok_path path → walk (pg_mem s) (read_cr3 s) path = Some t → t ≠ f.

(** A write to a page that is no table. *)
Lemma data_write a s f i x : pt_inv a s → page_ok f → 0 ≤ i < 512 → untouched_frame s f →
  let s' := pg_st s (slot f i) x in
  pt_inv a s' ∧ (∀ path, ok_path path → walk (pg_mem s') (read_cr3 s) path = walk (pg_mem s) (read_cr3 s) path) ∧
  (∀ v, leaf s' v = leaf s v) ∧ ∀ v, not_huge s v → not_huge s' v.
Proof.
  intros Hi Hf Hfi Hne s'. pose proof (pi_tree _ _ Hi) as Ht.
  assert (∀ path t i, ok_path path → 0 ≤ i < 512 → walk (pg_mem s) (read_cr3 s) path = Some t →
    ld64 (pg_mem s') (slot t i) = ld64 (pg_mem s) (slot t i)) as Hold.
  { intros path t k Hp Hir Hw. cbn [pg_mem s' pg_st set_mem]. rewrite ld_st_ne; [done|]. intros E. apply (Hne path t Hp Hw).
    symmetry in E. by apply slot_inj in E as [-> _]; [|exact (tr_ok _ _ Ht _ _ Hp Hw)|..]. }
  destruct (tree_same (pg_mem s) (pg_mem s') (read_cr3 s) Ht) as [Ht' Hw'].
  { intros path t k Hp Hw. pose proof (ok_path_snoc _ _ Hp) as (? & ? & _). rewrite (Hold path) by done. apply same_link_refl. }
  split; [|split; [done|split]].
  - split; try apply Hi; [done|]. change (read_cr3 s') with (read_cr3 s). intros path t Hp Hw. rewrite Hw' in Hw by done. by apply (pi_used _ _ Hi path).
  - intros v. unfold leaf, xlate, indices. change (read_cr3 s') with (read_cr3 s).
    pose proof (index_at_range v 39). pose proof (index_at_range v 30). pose proof (index_at_range v 21). pose proof (index_at_range v 12).
    rewrite !Hw' by auto using ok2, ok3. destruct (walk _ _ [_; _; _]) as [l1|] eqn:W3.
    + by rewrite (Hold [index_at v 39; index_at v 30; index_at v 21]) by auto using ok3.
    + destruct (walk _ _ [_; _]) as [l2|] eqn:W2; [|done]. cbn [mbind option_bind].
      by rewrite (Hold [index_at v 39; index_at v 30]) by auto using ok2.
  - intros v Hv l2. change (read_cr3 s') with (read_cr3 s). pose proof (index_at_range v 39). pose proof (index_at_range v 30).
    pose proof (index_at_range v 21). rewrite Hw' by auto using ok2. intros W2. unfold pg_ld.
    rewrite (Hold [index_at v 39; index_at v 30]) by auto using ok2. by apply Hv.
Qed.

Section reach.
Context (a : PmmAllocator) (L : Z).

(** The [n] lowest free pages, or all of them if there are fewer, lie below [L]: a free page further up has at least [n] free pages before it. *)
Definition low_first (n : Z) (bm : bitmap) : Prop :=
  ∀ k, 0 ≤ k < total_pages a → used bm k = false → L < page_addr a k + 4096 → n ≤ free_before bm k.

Lemma low_first_less n n' bm : low_first n bm → n' ≤ n → low_first n' bm.
Proof. intros Hl Hn k Hk Hu HL. pose proof (Hl k Hk Hu HL). lia. Qed.

(** The next page handed out is below [L]. *)
Lemma low_first_alloc n bm k bm' : low_first n bm → pmm_wf a → 0 ≤ k < total_pages a → used bm k = false → (∀ j, 0 ≤ j < k → used bm j = true) →
  (∀ j, in_range j → used bm' j = (k =? j) || used bm j) → low_first (n - 1) bm' ∧ (1 ≤ n → page_addr a k + 4096 ≤ L).
Proof.
  intros Hl (Ht & _) Hk Hf Hlow Hu. split.
  - intros j Hj Huj HL. rewrite Hu in Huj by (unfold in_range; lia). apply orb_false_iff in Huj as [Hne Huj]. apply Z.eqb_neq in Hne.
    assert (k < j) as Hkj by (destruct (Z.lt_trichotomy j k) as [Hlt|[?|]]; [rewrite Hlow in Huj by lia; done|lia|done]).
    pose proof (Hl j Hj Huj HL) as Hc. unfold free_before in *.
    rewrite (countb_drop_one (λ j, negb (used bm j)) (λ j, negb (used bm' j)) _ k); [lia|apply NoDup_seqZ|apply elem_of_seqZ; lia|by rewrite Hf|].
    intros i Hi%elem_of_seqZ. rewrite Hu by (unfold in_range; lia). rewrite Z.eqb_sym. destruct (i =? k), (used bm i); done.
  - intros Hn. destruct (Z.le_gt_cases (page_addr a k + 4096) L) as [|HL]; [done|]. exfalso.
    pose proof (Hl k Hk Hf ltac:(lia)) as Hc. unfold free_before in Hc. enough (countb (λ j, negb (used bm j)) (seqZ 0 k) = 0) by lia. apply countb_zero.
    intros i j Hj%list_elem_of_lookup_2%elem_of_seqZ. by rewrite Hlow by lia.
Qed.

(** Giving a page below [L] back. *)
Lemma low_first_free n bm k bm' : low_first n bm → pmm_wf a → page_addr a k + 4096 ≤ L → (∀ j, in_range j → used bm' j = negb (k =? j) && used bm j) → low_first n bm'.
Proof.
  intros Hl (Ht & _) HL Hu j Hj Huj HjL. rewrite Hu in Huj by (unfold in_range; lia). destruct (Z.eqb_spec k j) as [->|Hne]; [lia|]. cbn [negb andb] in Huj.
  etransitivity; [by apply (Hl j)|]. apply countb_mono. intros x Hx%elem_of_seqZ. rewrite Hu by (unfold in_range; lia).
  destruct (used bm x); [done|]. by rewrite andb_false_r.
Qed.

(** ** Where both agree *)

(** The first [L] bytes are mapped to themselves, and the tables lie there. *)
Record reached (s : pg) : Prop := {
  re_inv : pt_inv a s;
  re_id : ∀ x, 0 ≤ x < L → translate s x = Some x;
  re_low : ∀ path t, ok_path path → walk (pg_mem s) (read_cr3 s) path = Some t → t + 4096 ≤ L
}.

(** What keeps translations and adds no table keeps that. *)
Lemma reached_same s s' : reached s → pt_inv a s' → pg_cr3 s' = pg_cr3 s → (∀ x, 0 ≤ x < L → leaf s' x = leaf s x) →
  (∀ path t, ok_path path → walk (pg_mem s') (read_cr3 s) path = Some t → walk (pg_mem s) (read_cr3 s) path = Some t ∨ t + 4096 ≤ L) → reached s'.
Proof.
  intros [Hi Hid Hlow] Hi' Hc Hl Hw. assert (read_cr3 s' = read_cr3 s) as E by (unfold read_cr3; by rewrite Hc). split; [done| |].
  - intros x Hx. by rewrite (translate_leaf a), Hl, <- (translate_leaf a), Hid by done.
  - intros path t Hp Hwp. rewrite E in Hwp. destruct (Hw path t Hp Hwp) as [Ho|]; [by apply (Hlow path)|done].
Qed.

Lemma reached_bm s b : reached s → pt_inv a (set_bm b s) → reached (set_bm b s).
Proof. intros R Hi. apply (reached_same s); [done|done|done|done|]. intros path t _ Hw. by left. Qed.

Lemma slot_below t i : page_ok t → t + 4096 ≤ L → 0 ≤ i < 512 → 0 ≤ slot t i < L.
Proof using Type. intros [_ Ht] HL Hi. unfold slot. lia. Qed.

Lemma direct_below s x : reached s → 0 ≤ x < L → direct s x = true.
Proof. intros R Hx. apply bool_decide_eq_true_2. by apply R. Qed.

Lemma ld_slot s path t i : reached s → ok_path path → walk (pg_mem s) (read_cr3 s) path = Some t → 0 ≤ i < 512 → ld_via s (slot t i) = Ret (pg_ld s (slot t i)).
Proof.
  intros R Hp Hw Hi. unfold ld_via. rewrite direct_below; [done|done|]. apply slot_below; [exact (tr_ok _ _ (pi_tree _ _ (re_inv _ R)) _ _ Hp Hw)|by apply (re_low _ R path)|done].
Qed.

Lemma st_slot s path t i v : reached s → ok_path path → walk (pg_mem s) (read_cr3 s) path = Some t → 0 ≤ i < 512 → st_via s (slot t i) v = Ret (pg_st s (slot t i) v).
Proof.
  intros R Hp Hw Hi. unfold st_via. rewrite direct_below; [done|done|]. apply slot_below; [exact (tr_ok _ _ (pi_tree _ _ (re_inv _ R)) _ _ Hp Hw)|by apply (re_low _ R path)|done].
Qed.


Lemma reached_data s f i x : reached s → page_ok f → 0 ≤ i < 512 → untouched_frame s f → reached (pg_st s (slot f i) x) ∧ untouched_frame (pg_st s (slot f i) x) f.
Proof.
  intros R Hf Hi Hu. destruct (data_write a s f i x (re_inv _ R) Hf Hi Hu) as (Hi' & Hw & Hl & _). split.
  - apply (reached_same s); [done..|]. intros path t Hp. rewrite Hw by done. auto.
  - intros path t Hp. change (read_cr3 (pg_st s _ _)) with (read_cr3 s). rewrite Hw by done. by apply Hu.
Qed.

Lemma zero_words_agree f n : page_ok f → f + 4096 ≤ L → ∀ s i, reached s → untouched_frame s f → 0 ≤ i → i + Z.of_nat n ≤ 512 →
  let s' := set_mem (zero_words (pg_mem s) (slot f i) n) s in zero_words_via s (slot f i) n = Ret s' ∧ reached s' ∧ untouched_frame s' f.
Proof.
  intros Hf HL. induction n as [|n IH]; intros s i R Hu Hi Hn; cbn [zero_words_via zero_words]; [by destruct s|].
  destruct (reached_data s f i 0 R Hf ltac:(lia) Hu) as [R' Hu'].
  unfold st_via. rewrite direct_below by (done || (apply slot_below; [done|done|lia])). cbn [mbind outcome_bind].
  replace (slot f i + 8) with (slot f (i + 1)) by (unfold slot; lia). apply (IH (pg_st s (slot f i) 0)); [done|done|lia|lia].
Qed.

Lemma zero_table_agree s f : reached s → page_ok f → f + 4096 ≤ L → untouched_frame s f →
  zero_table_via s f = Ret (zero_table s f) ∧ reached (zero_table s f) ∧ untouched_frame (zero_table s f) f.
Proof.
  intros R Hf HL Hu. unfold zero_table_via, zero_table. pose proof (zero_words_agree f 512 Hf HL s 0 R Hu) as Z. unfold slot in Z.
  rewrite Z.mul_0_r, Z.add_0_r in Z. by apply Z.
Qed.

(** A page that was free is no table. *)
Lemma free_untouched s k b : pt_inv a s → 0 ≤ k < total_pages a → used (pg_bm s) k = false → untouched_frame (set_bm b s) (page_addr a k).
Proof. intros Hi Hk Hf path t Hp Hw ->. rewrite (pi_used _ _ Hi _ _ Hp Hw k Hk eq_refl) in Hf. done. Qed.

(** A look-up that creates the table where it has to. *)
Lemma get_agree s rho i t n : reached s → low_first n (pg_bm s) → 1 ≤ n → ok_path (rho ++ [i]) → walk (pg_mem s) (read_cr3 s) rho = Some t →
  (has (pg_ld s (slot t i)) PAGE_PRESENT = true → has (pg_ld s (slot t i)) PAGE_HUGE = false) →
  get_or_create_table_via a s (slot t i) = get_or_create_table a s (slot t i) ∧
  ∀ l s', get_or_create_table a s (slot t i) = Ret (l, s') →
    reached s' ∧ low_first (n - 1) (pg_bm s') ∧ got a s rho i (Some l) s'.
Proof.
  intros R Hlow Hn Hok Hw Hnh. pose proof (re_inv _ R) as Hi. pose proof (ok_path_snoc _ _ Hok) as (Hrho & Hir & _).
  assert (∀ l s', get_or_create_table a s (slot t i) = Ret (l, s') → got a s rho i (Some l) s') as Hgot.
  { intros l s'. rewrite get_or_create_try. destruct (try_get_spec a s rho i t Hi Hok Hw Hnh) as (o & s1 & -> & G). cbn [mbind outcome_bind].
    destruct o; [by intros [= <- <-]|done]. }
  unfold get_or_create_table_via. rewrite (ld_slot s rho) by done. cbn [mbind outcome_bind].
  unfold get_or_create_table in *. destruct (has (pg_ld s (slot t i)) PAGE_PRESENT) eqn:Hp.
  { split; [done|]. intros l s' E. pose proof (Hgot l s' E) as G. injection E as <- <-. split; [done|]. split; [by apply (low_first_less n); [|lia]|done]. }
  unfold pmm_alloc in *. destruct (alloc_take a (pg_bm s) (pi_pmm _ _ Hi) (pi_bm _ _ Hi)) as [(k & b & Hk & Hf & Hlo & E & Hnz & Hb & Hu)|[_ E]];
    rewrite E in *; cbn [mbind outcome_bind] in *; [rewrite Hnz in *|done].
  destruct (low_first_alloc n _ _ b Hlow (pi_pmm _ _ Hi) Hk Hf Hlo Hu) as [Hlow' HL]. specialize (HL Hn).
  pose proof (page_addr_ok a s k Hi Hk) as Hpo. pose proof (free_untouched s k b Hi Hk Hf) as Hun.
  assert (reached (set_bm b s)) as R1.
  { apply reached_bm; [done|]. split; try apply Hi; [done|]. intros path x Hpa Hx j Hj ->. cbn. pose proof (pi_pmm _ _ Hi) as (? & _).
    rewrite Hu by (unfold in_range; lia). rewrite (pi_used _ _ Hi path _ Hpa Hx j Hj eq_refl). apply orb_true_r. }
  destruct (zero_table_agree (set_bm b s) (page_addr a k)) as (-> & R2 & _); [done..|]. cbn [mbind outcome_bind].
  assert (new_table_walk : created (pg_mem s) (st64 (zero_words (pg_mem s) (page_addr a k) 512) (slot t i) (Z.lor (Z.lor (page_addr a k) PAGE_KERNEL) PAGE_USER))
    (read_cr3 s) rho i (page_addr a k)) by (apply new_table_created; try done; apply (pi_tree _ _ Hi)).
  set (s' := pg_st (zero_table (set_bm b s) (page_addr a k)) (slot t i) _) in *.
  assert (st_via (zero_table (set_bm b s) (page_addr a k)) (slot t i) (Z.lor (Z.lor (page_addr a k) PAGE_KERNEL) PAGE_USER) = Ret s') as ->.
  { unfold st_via. rewrite direct_below; [done|done|]. apply slot_below; [exact (tr_ok _ _ (pi_tree _ _ Hi) _ _ Hrho Hw)|by apply (re_low _ R rho)|done]. }
  split; [done|]. intros l s'' [= <- <-]. pose proof (Hgot _ _ eq_refl) as G. split; [|by split].
  destruct G as (Hi' & Hc' & Hx & _). apply (reached_same s); [done|done|done| |].
  - intros x _. unfold leaf. change (read_cr3 s') with (read_cr3 s). by apply Hx, indices_ok.
  - intros path x Hpa Hwx. change (pg_mem s') with (st64 (zero_words (pg_mem s) (page_addr a k) 512) (slot t i) (Z.lor (Z.lor (page_addr a k) PAGE_KERNEL) PAGE_USER)) in Hwx.
    rewrite (created_walk _ _ _ _ _ _ _ new_table_walk Hpa) in Hwx. repeat case_decide; [|done|by left]. injection Hwx as <-. by right.
Qed.

(** The two upper levels on the way to [v]. *)
Lemma upper_agree s v n : reached s → low_first n (pg_bm s) → 2 ≤ n →
  get_or_create_table_via a s (slot (read_cr3 s) (index_at v 39)) = get_or_create_table a s (slot (read_cr3 s) (index_at v 39)) ∧
  ∀ l3 s1, get_or_create_table a s (slot (read_cr3 s) (index_at v 39)) = Ret (l3, s1) →
    get_or_create_table_via a s1 (slot l3 (index_at v 30)) = get_or_create_table a s1 (slot l3 (index_at v 30)) ∧
    ∀ l2 s2, get_or_create_table a s1 (slot l3 (index_at v 30)) = Ret (l2, s2) →
      reached s2 ∧ low_first (n - 2) (pg_bm s2) ∧ pg_cr3 s2 = pg_cr3 s ∧ (∀ x, leaf s2 x = leaf s x) ∧ (not_huge s v → not_huge s2 v) ∧
      walk (pg_mem s2) (read_cr3 s) [index_at v 39] = Some l3 ∧ walk (pg_mem s2) (read_cr3 s) [index_at v 39; index_at v 30] = Some l2.
Proof.
  intros R Hl Hn. pose proof (index_at_range v 39) as R4. pose proof (index_at_range v 30) as R3. pose proof (re_inv _ R) as Hi.
  destruct (get_agree s [] (index_at v 39) (read_cr3 s) n R Hl ltac:(lia) (ok1 _ R4) eq_refl) as [E1 H1].
  { apply (tr_nohuge _ _ (pi_tree _ _ Hi) []); [by apply ok1|cbn; lia|done]. }
  split; [done|]. intros l3 s1 G1. destruct (H1 l3 s1 G1) as (Rs1 & Hl1 & G). pose proof G as (Hi1 & Hc1 & Hx1 & Hw1 & Ho1 & A1 & _). pose proof (got_cr3 _ _ _ _ _ _ G) as Er1.
  destruct (get_agree s1 [index_at v 39] (index_at v 30) l3 (n - 1) Rs1 Hl1 ltac:(lia) (ok2 _ _ R4 R3)) as [E2 H2];
    [by rewrite Er1|by eapply (got_nohuge a s [] (index_at v 39)); [exact G|by apply ok2|cbn; lia|]|].
  split; [done|]. intros l2 s2 G2. destruct (H2 l2 s2 G2) as (Rs2 & Hl2 & G'). pose proof G' as (Hi2 & Hc2 & Hx2 & Hw2 & Ho2 & A2 & _). pose proof (got_cr3 _ _ _ _ _ _ G') as Er2. rewrite Er1 in *.
  split; [done|]. split; [by replace (n - 2) with (n - 1 - 1) by lia|]. split; [congruence|]. split.
  { intros x. unfold leaf. rewrite Er2, Hx2, Hx1 by apply indices_ok. done. }
  split; [intros Hh; by apply (gw_huge _ _ _ A2), (gw_huge _ _ _ A1)|]. split; [|done]. apply Hw2; [by apply ok1|done].
Qed.

Lemma set_user_agree s rho i t : reached s → ok_path (rho ++ [i]) → walk (pg_mem s) (read_cr3 s) rho = Some t →
  set_user_via s (slot t i) = Ret (set_user s (slot t i)) ∧ reached (set_user s (slot t i)) ∧
  ∀ path, ok_path path → walk (pg_mem (set_user s (slot t i))) (read_cr3 s) path = walk (pg_mem s) (read_cr3 s) path.
Proof.
  intros R Hok Hw. pose proof (ok_path_snoc _ _ Hok) as (Hrho & Hir & _). destruct (set_user_spec a s rho i t (re_inv _ R) Hok Hw) as (Hi & Hws & Hx).
  unfold set_user_via. rewrite (ld_slot s rho) by done. cbn [mbind outcome_bind]. rewrite (st_slot s rho) by done. split; [done|]. split; [|done].
  apply (reached_same s); [done|done|done| |].
  - intros x _. unfold leaf. change (read_cr3 (set_user s _)) with (read_cr3 s). by apply Hx, indices_ok.
  - intros path x Hp. rewrite Hws by done. by left.
Qed.

(** An address that leads nowhere is not one of the first [L]. *)
Lemma off_identity s v x : reached s → leaf s v = None → 0 ≤ x < L → indices x ≠ indices v.
Proof.
  intros R Hv Hx E. pose proof (re_id _ R x Hx) as Ht. rewrite (translate_leaf a) in Ht by apply R. revert Ht Hv.
  unfold leaf. rewrite E. destruct (indices v) as [[[i4 i3] i2] i1]. unfold xlate. destruct (walk _ _ [_; _; _]) as [l1|].
  - by destruct (has _ PAGE_PRESENT).
  - destruct (walk _ _ [_; _]) as [l2|]; [|done]. cbn [mbind option_bind]. by destruct (_ && _).
Qed.

Lemma map_agree s v p f n : reached s → low_first n (pg_bm s) → 3 ≤ n → translate s v = None →
  map_4k_via a s v p f = map_4k a s v p f ∧ ∀ s', map_4k a s v p f = Ret s' → reached s' ∧ low_first (n - 3) (pg_bm s').
Proof.
  intros R Hl Hn Ht. pose proof (re_inv _ R) as Hi. pose proof (untranslated_not_huge a s v Hi Ht) as Hnh. apply (leaf_none a) in Ht; [|done].
  unfold map_4k_via, map_4k. destruct (_ && _); [split; [done|]; intros s' [= <-]; split; [done|by apply (low_first_less n); [|lia]]|]. cbn [indices].
  pose proof (indices_ok v) as Hix. pose proof Hix as (R4 & R3 & R2 & R1). destruct (upper_agree s v n R Hl ltac:(lia)) as [-> U].
  destruct (get_or_create_table a s _) as [[l3 s1]| | |] eqn:G1; [|by split..]. destruct (U l3 s1 eq_refl) as [E2 U2]. cbn [mbind outcome_bind]. rewrite E2. clear U E2.
  destruct (get_or_create_table a s1 _) as [[l2 s2]| | |] eqn:G2; [|by split..]. destruct (U2 l2 s2 eq_refl) as (Rs2 & Hl2 & Hc2 & Hlf & Hh & W1 & W2). cbn [mbind outcome_bind]. clear U2 G1 G2 s1.
  assert (read_cr3 s2 = read_cr3 s) as Er by (unfold read_cr3; by rewrite Hc2). rewrite <- Er in *.
  destruct (get_agree s2 [index_at v 39; index_at v 30] (index_at v 21) l2 (n - 2) Rs2 Hl2 ltac:(lia) (ok3 _ _ _ R4 R3 R2) W2) as [-> H3].
  { by apply Hh. }
  destruct (get_or_create_table a s2 _) as [[l1 s3]| | |]; [|by split..]. destruct (H3 l1 s3 eq_refl) as (Rs3 & Hl3 & G). cbn [mbind outcome_bind]. clear H3.
  pose proof G as (Hi3 & Hc3 & Hx3 & Hw3 & W3 & _). pose proof (got_cr3 _ _ _ _ _ _ G) as Er3. rewrite <- Er3 in *.
  apply Hw3 in W1; [|by apply ok1]. apply Hw3 in W2; [|by apply ok2]. cbn [app] in W3.
  rewrite (st_slot s3 [index_at v 39; index_at v 30; index_at v 21]) by (done || by apply ok3). cbn [mbind outcome_bind].
  destruct (leaf_write _ _ (index_at v 39) (index_at v 30) (index_at v 21) (index_at v 12) l1 (Z.lor p f) (pi_tree _ _ Hi3) Hix W3) as (Ht4 & Hw4 & Hx4).
  set (s4 := pg_st s3 (slot l1 (index_at v 12)) (Z.lor p f)) in *.
  assert (reached s4) as R4'.
  { apply (reached_same s3); [done| |done| |].
    - split; try apply Hi3; [done|]. intros path t Hp. change (read_cr3 s4) with (read_cr3 s3). change (pg_mem s4) with (st64 (pg_mem s3) (slot l1 (index_at v 12)) (Z.lor p f)).
      rewrite Hw4 by done. by apply (pi_used _ _ Hi3).
    - intros x Hx. unfold leaf. change (read_cr3 s4) with (read_cr3 s3). change (pg_mem s4) with (st64 (pg_mem s3) (slot l1 (index_at v 12)) (Z.lor p f)).
      rewrite Hx4 by apply indices_ok. rewrite decide_False; [done|]. by apply (off_identity s).
    - intros path t Hp. change (pg_mem s4) with (st64 (pg_mem s3) (slot l1 (index_at v 12)) (Z.lor p f)). rewrite Hw4 by done. by left. }
  assert (pg_bm s4 = pg_bm s3) as Eb by done. replace (n - 3) with (n - 2 - 1) by lia.
  destruct (has f PAGE_USER); [|split; [done|]; intros s' [= <-]; by rewrite Eb].
  assert (∀ path, ok_path path → walk (pg_mem s4) (read_cr3 s4) path = walk (pg_mem s3) (read_cr3 s3) path) as Hw4' by exact Hw4.
  rewrite <- Hw4' in W1, W2 by (by apply ok1 || by apply ok2). change (read_cr3 s3) with (read_cr3 s4).
  destruct (set_user_agree s4 [] (index_at v 39) (read_cr3 s4) R4' (ok1 _ R4) eq_refl) as (-> & R5 & Hw5). cbn [mbind outcome_bind].
  destruct (set_user_agree _ [index_at v 39] (index_at v 30) l3 R5 (ok2 _ _ R4 R3)) as (-> & R6 & Hw6); [change (read_cr3 (set_user s4 _)) with (read_cr3 s4); by rewrite Hw5 by (by apply ok1)|]. cbn [mbind outcome_bind].
  destruct (set_user_agree _ [index_at v 39; index_at v 30] (index_at v 21) l2 R6 (ok3 _ _ _ R4 R3 R2)) as (-> & R7 & _).
  { change (read_cr3 (set_user (set_user s4 _) _)) with (read_cr3 (set_user s4 (slot (read_cr3 s4) (index_at v 39)))). rewrite Hw6 by (by apply ok2).
    change (read_cr3 (set_user s4 _)) with (read_cr3 s4). by rewrite Hw5 by (by apply ok2). }
  split; [done|]. intros s' [= <-]. by split.
Qed.

(** An entry that is present and not huge is the next table. *)
Lemma walk_entry s rho i t : walk (pg_mem s) (read_cr3 s) rho = Some t → has (pg_ld s (slot t i)) PAGE_PRESENT = true → has (pg_ld s (slot t i)) PAGE_HUGE = false →
  walk (pg_mem s) (read_cr3 s) (rho ++ [i]) = Some (entry_addr (pg_ld s (slot t i))).
Proof using Type.
  intros Hw Hp Hh. rewrite walk_snoc, Hw. cbn [mbind option_bind]. unfold next, link. change (ld64 (pg_mem s) (slot t i)) with (pg_ld s (slot t i)). by rewrite Hp, Hh.
Qed.

Lemma unmap_agree s v : reached s → unmap_via s v = Ret (unmap s v).
Proof.
  intros R. pose proof (pi_tree _ _ (re_inv _ R)) as Ht. pose proof (indices_ok v) as (R4 & R3 & R2 & R1). unfold unmap_via, unmap. cbn [indices].
  rewrite (ld_slot s []) by (done || (split; [cbn; lia|done])). cbn [mbind outcome_bind].
  destruct (has (pg_ld s (slot (read_cr3 s) (index_at v 39))) PAGE_PRESENT) eqn:P4; cbn [negb]; [|done].
  assert (walk (pg_mem s) (read_cr3 s) [index_at v 39] = Some (entry_addr (pg_ld s (slot (read_cr3 s) (index_at v 39))))) as W1.
  { apply (walk_entry s []); [done|done|]. apply (tr_nohuge _ _ Ht []); [by apply ok1|cbn; lia|done|done]. }
  set (l3 := entry_addr _) in *. rewrite (ld_slot s [index_at v 39]) by (done || by apply ok1). cbn [mbind outcome_bind].
  destruct (has (pg_ld s (slot l3 (index_at v 30))) PAGE_PRESENT) eqn:P3; cbn [negb]; [|done].
  assert (walk (pg_mem s) (read_cr3 s) [index_at v 39; index_at v 30] = Some (entry_addr (pg_ld s (slot l3 (index_at v 30))))) as W2.
  { apply (walk_entry s [index_at v 39]); [done|done|]. apply (tr_nohuge _ _ Ht [index_at v 39]); [by apply ok2|cbn; lia|done|done]. }
  set (l2 := entry_addr (pg_ld s (slot l3 _))) in *. rewrite (ld_slot s [index_at v 39; index_at v 30]) by (done || by apply ok2). cbn [mbind outcome_bind].
  destruct (has (pg_ld s (slot l2 (index_at v 21))) PAGE_PRESENT) eqn:P2; cbn [negb]; [|done].
  destruct (has (pg_ld s (slot l2 (index_at v 21))) PAGE_HUGE) eqn:H2.
  { by rewrite (st_slot s [index_at v 39; index_at v 30]) by (done || by apply ok2). }
  pose proof (walk_entry s [index_at v 39; index_at v 30] (index_at v 21) l2 W2 P2 H2) as W3. cbn [app] in W3. set (l1 := entry_addr (pg_ld s (slot l2 _))) in *.
  rewrite (ld_slot s [index_at v 39; index_at v 30; index_at v 21]) by (done || by apply ok3). cbn [mbind outcome_bind].
  destruct (has (pg_ld s (slot l1 (index_at v 12))) PAGE_PRESENT); cbn [negb]; [|done].
  by rewrite (st_slot s [index_at v 39; index_at v 30; index_at v 21]) by (done || by apply ok3).
Qed.

(** ** What the operations take of the lowest pages *)

(** At most [c] pages, the lowest. *)
Definition takes (c : Z) (b b' : bitmap) : Prop := bm_wf b → bm_wf b' ∧ ∀ n, low_first n b → low_first (n - c) b'.

Lemma takes_none c b : 0 ≤ c → takes c b b.
Proof. intros Hc Hb. split; [done|]. intros n Hn. apply (low_first_less n); [done|lia]. Qed.

Lemma takes_trans c d b b1 b2 : takes c b b1 → takes d b1 b2 → takes (c + d) b b2.
Proof.
  intros T1 T2 Hb. destruct (T1 Hb) as [Hb1 H1]. destruct (T2 Hb1) as [Hb2 H2]. split; [done|]. intros n Hn.
  replace (n - (c + d)) with (n - c - d) by lia. by apply H2, H1.
Qed.

Lemma alloc_takes b p b' : pmm_wf a → alloc a b = Ret (p, b') → takes 1 b b'.
Proof.
  intros Ha E Hb. destruct (alloc_take a b Ha Hb) as [(k & b1 & Hk & Hf & Hlo & E1 & _ & Hb1 & Hu)|[_ E1]]; rewrite E1 in E; injection E as <- <-.
  - split; [done|]. intros n Hn. by destruct (low_first_alloc n b k b1 Hn Ha Hk Hf Hlo Hu).
  - by apply takes_none.
Qed.

Lemma pmm_alloc_takes s p s' : pmm_wf a → pmm_alloc a s = Ret (p, s') → takes 1 (pg_bm s) (pg_bm s').
Proof.
  intros Ha. unfold pmm_alloc. destruct (alloc a (pg_bm s)) as [[x b]| | |] eqn:E; cbn [mbind outcome_bind]; try discriminate. intros [= _ <-].
  by apply (alloc_takes _ x).
Qed.

Lemma try_table_takes s e o s' : pmm_wf a → try_get_or_create_table a s e = Ret (o, s') → takes 1 (pg_bm s) (pg_bm s').
Proof.
  intros Ha. unfold try_get_or_create_table. destruct (has (pg_ld s e) PAGE_PRESENT); [intros [= _ <-]; by apply takes_none|].
  destruct (pmm_alloc a s) as [[p s1]| | |] eqn:E; cbn [mbind outcome_bind]; try discriminate. apply pmm_alloc_takes in E; [|done].
  destruct (p =? 0); intros [= _ <-]; exact E.
Qed.

Lemma try_map_takes s v p f b s' : pmm_wf a → try_map_4k a s v p f = Ret (b, s') → takes 3 (pg_bm s) (pg_bm s').
Proof.
  intros Ha. rewrite try_map_tables. destruct (_ && _); [intros [= _ <-]; by apply takes_none|]. destruct (translate s v); [intros [= _ <-]; by apply takes_none|].
  unfold tables. destruct (indices v) as [[[i4 i3] i2] i1].
  destruct (try_get_or_create_table a s _) as [[o3 s1]| | |] eqn:E1; cbn [mbind outcome_bind]; try discriminate. apply try_table_takes in E1; [|done].
  destruct o3 as [l3|]; cbn [mbind outcome_bind].
  2:{ intros [= _ <-]. change 3 with (1 + 2). eapply takes_trans; [exact E1|by apply takes_none]. }
  destruct (try_get_or_create_table a s1 _) as [[o2 s2]| | |] eqn:E2; cbn [mbind outcome_bind]; try discriminate. apply try_table_takes in E2; [|done].
  destruct o2 as [l2|]; cbn [mbind outcome_bind].
  2:{ intros [= _ <-]. change 3 with (1 + (1 + 1)). eapply takes_trans; [exact E1|]. eapply takes_trans; [exact E2|by apply takes_none]. }
  destruct (try_get_or_create_table a s2 _) as [[o1 s3]| | |] eqn:E3; cbn [mbind outcome_bind]; try discriminate. apply try_table_takes in E3; [|done].
  assert (takes 3 (pg_bm s) (pg_bm s3)) as T by (change 3 with (1 + (1 + 1)); eapply takes_trans; [exact E1|]; by eapply takes_trans).
  destruct o1 as [l1|]; cbn [mbind outcome_bind]; intros [= _ <-]; [|exact T]. unfold finish. by destruct (has f PAGE_USER).
Qed.

Lemma try_map_target_takes s v p f t b s' : pmm_wf a → try_map_4k_target a s v p f t = Ret (b, s') → takes 3 (pg_bm s) (pg_bm s').
Proof.
  intros Ha. unfold try_map_4k_target, with_cr3. destruct (t =? read_cr3 s); [by apply try_map_takes|].
  destruct (try_map_4k a (set_cr3 t s) v p f) as [[b1 s1]| | |] eqn:E; cbn [mbind outcome_bind]; try discriminate. intros [= _ <-].
  by apply (try_map_takes (set_cr3 t s)) in E.
Qed.

Lemma clone_pd_bm i src new n : ∀ s k ok s', clone_pd a s false i src new k n = Ret (ok, s') → ok = true ∧ pg_bm s' = pg_bm s.
Proof using Type.
  induction n as [|n IH]; intros s k ok s'; cbn [clone_pd]; cbv zeta; [by intros [= <- <-]|]. destruct (negb _); [apply IH|].
  unfold clone_pde. cbn [andb]. rewrite andb_true_r. destruct (_ <=? _); cbn [mbind outcome_bind negb]; [apply IH|]. intros E%IH. exact E.
Qed.

Lemma clone_pdpt_takes src new n : pmm_wf a → ∀ s k ok s', clone_pdpt a s false src new k n = Ret (ok, s') → takes (Z.of_nat n) (pg_bm s) (pg_bm s').
Proof.
  intros Ha. induction n as [|n IH]; intros s k ok s'; cbn [clone_pdpt]; cbv zeta; [intros [= _ <-]; by apply takes_none|].
  replace (Z.of_nat (S n)) with (1 + Z.of_nat n) by lia.
  destruct (negb _); [intros E%IH; eapply takes_trans; [by apply takes_none|exact E]|].
  destruct (clone_pdpte a s false _ new k) as [[ok1 s1]| | |] eqn:E; cbn [mbind outcome_bind]; try discriminate.
  assert (takes 1 (pg_bm s) (pg_bm s1)) as T1.
  { revert E. unfold clone_pdpte. cbv zeta. destruct (overlaps_kernel_scratch _ _); [intros [= _ <-]; by apply takes_none|].
    destruct (has _ PAGE_HUGE). { cbn [andb]. destruct (_ && _); intros [= _ <-]; by apply takes_none. }
    destruct (pmm_alloc a s) as [[p s2]| | |] eqn:Ea; cbn [mbind outcome_bind]; try discriminate. apply pmm_alloc_takes in Ea; [|done].
    destruct (p =? 0); [intros [= _ <-]; exact Ea|]. intros [_ Eb]%clone_pd_bm. by rewrite Eb. }
  destruct ok1; cbn [negb]; [intros E2%IH; by eapply takes_trans|]. intros [= _ <-]. eapply takes_trans; [exact T1|by apply takes_none; lia].
Qed.

(** A new address space: a root, a directory pointer table and its 512 directories. *)
Lemma create_takes s h s' : pmm_wf a → create_pml4 a s false = Ret (Some h, s') → takes 514 (pg_bm s) (pg_bm s').
Proof.
  intros Ha. unfold create_pml4. cbn [mbind outcome_bind negb]. destruct (pmm_alloc a s) as [[l4 s1]| | |] eqn:E1; cbn [mbind outcome_bind]; try discriminate.
  apply pmm_alloc_takes in E1; [|done]. destruct (l4 =? 0); [discriminate|]. set (s2 := set_mem _ (zero_table _ _)). assert (pg_bm s2 = pg_bm s1) as Eb by done. clearbody s2.
  destruct (clone_low a s2 false (read_cr3 s) l4) as [[ok s3]| | |] eqn:E3; cbn [mbind outcome_bind]; try discriminate. destruct ok; cbn [negb cleanup_if mbind outcome_bind].
  2:{ destruct (destroy_uncommitted_pml4 a s3 _); cbn [mbind outcome_bind]; discriminate. }
  intros [= _ <-]. change 514 with (1 + 513). eapply takes_trans; [exact E1|]. rewrite <- Eb. revert E3. unfold clone_low.
  destruct (negb _); [intros [= <-]; by apply takes_none|]. destruct (pmm_alloc a s2) as [[pdpt s4]| | |] eqn:E4; cbn [mbind outcome_bind]; try discriminate.
  apply pmm_alloc_takes in E4; [|done]. change 513 with (1 + 512). destruct (pdpt =? 0); [discriminate|]. intros E. eapply takes_trans; [exact E4|].
  by apply clone_pdpt_takes in E.
Qed.
End reach.
