(* ===== verification/Loader.v ===== *)
(** * The address space of the boot loader (src/boot.asm)

    What it takes to write a 2 MiB page into a tree of tables, and the three tables
    boot.asm leaves: they map the first 4 MiB to themselves and nothing else. *)

From Stdlib Require Import ZArith Lia.
From stdpp Require Import base numbers list list_numbers option gmap.
From S2P Require Import Prelude Pmm Memory Paging PageMaps PageSpec Reach.

Local Open Scope Z_scope.

(** ** A huge page in a table *)

Lemma huge_write m r a b c l2 e : tree m r → 0 ≤ a < 512 → 0 ≤ b < 512 → 0 ≤ c < 512 → walk m r [a; b] = Some l2 →
  has (ld64 m (slot l2 c)) PAGE_PRESENT = false → has e PAGE_PRESENT = true → has e PAGE_HUGE = true →
  let m' := st64 m (slot l2 c) e in
  tree m' r ∧ (∀ path, ok_path path → walk m' r path = walk m r path) ∧
  ∀ a' b' c' d' v, idx_ok (a', b', c', d') → xlate m' r (a', b', c', d') v =
    if decide ((a', b', c') = (a, b, c)) then Some (Z.lor (entry_addr e) (Z.land v 2097151), false)
    else xlate m r (a', b', c', d') v.
Proof.
  intros Ht Ha Hb Hc Hw Hnp Hp Hh m'.
  pose proof (tr_ok _ _ Ht _ _ (ok2 a b Ha Hb) Hw) as Hl2.
  assert (∀ path t i, ok_path path → 0 ≤ i < 512 → walk m r path = Some t → (path, i) ≠ ([a; b], c) →
    ld64 m' (slot t i) = ld64 m (slot t i)) as Hold.
  { intros path t i Hpa Hi Hwp Hne. subst m'. rewrite ld_st_ne; [done|]. intros Hs. symmetry in Hs.
    apply slot_inj in Hs as [-> ->]; [|exact (tr_ok _ _ Ht _ _ Hpa Hwp)|done..]. apply Hne. f_equal.
    eapply (tr_inj _ _ Ht); eauto with vibix. }
  assert (∀ path, ok_path path → walk m' r path = walk m r path) as Hw'.
  { apply walk_ext. intros path t i Hpa Hwp. pose proof (ok_path_snoc _ _ Hpa) as (Hp' & Hi & Hlen).
    unfold next. destruct (decide ((path, i) = ([a; b], c))) as [[= -> ->]|Hne].
    - rewrite Hw in Hwp. injection Hwp as <-. unfold link. subst m'. by rewrite ld_st_eq, Hnp, Hp, Hh.
    - by rewrite (Hold path). }
  split; [|split; [done|]].
  - split.
    + intros path t Hpa. rewrite Hw' by done. by apply Ht.
    + intros p1 p2 t H1 H2. rewrite !Hw' by done. by apply Ht.
    + intros path t i Hpa Hlen. pose proof (ok_path_snoc _ _ Hpa) as (Hp' & Hi & _). rewrite Hw' by done. intros Hwp.
      rewrite (Hold path) by (done || (intros [= -> ->]; cbn in Hlen; lia)). by apply (tr_nohuge _ _ Ht path).
  - intros a' b' c' d' v (Ha' & Hb' & Hc' & Hd'). unfold xlate. rewrite !Hw' by auto with vibix.
    destruct (decide ((a', b', c') = (a, b, c))) as [[= -> -> ->]|Hne].
    + rewrite walk3, Hw. cbn [mbind option_bind]. unfold next, link. rewrite Hnp. cbn [andb]. subst m'. by rewrite ld_st_eq, Hp, Hh.
    + destruct (walk m r [a'; b'; c']) as [l1'|] eqn:W3.
      * rewrite (Hold [a'; b'; c']); [done|auto with vibix|done|done|done].
      * destruct (walk m r [a'; b']) as [l2'|] eqn:W2; [|done]. cbn [mbind option_bind].
        rewrite (Hold [a'; b']); [done|auto with vibix|done|done|]. intros [= -> -> ->]. done.
Qed.

Definition HUGE : Z := 2097152.

Lemma path_block v v' : 0 ≤ v < 2 ^ 48 → 0 ≤ v' < 2 ^ 48 → path_of v = path_of v' ↔ v / HUGE = v' / HUGE.
Proof.
  assert (∀ x, index_at x 21 = (x / HUGE) mod 512 ∧ index_at x 30 = (x / HUGE / 512) mod 512 ∧ index_at x 39 = (x / HUGE / 512 / 512) mod 512) as Hx.
  { intros x. unfold index_at, HUGE. change 511 with (Z.ones 9). rewrite !Z.land_ones, !Z.shiftr_div_pow2, !Z.div_div by lia. done. }
  intros Hv Hv'. unfold path_of. destruct (Hx v) as (-> & -> & ->). destruct (Hx v') as (-> & -> & ->).
  assert (∀ x, 0 ≤ x < 2 ^ 48 → 0 ≤ x / HUGE < 134217728) as Hr.
  { intros x Hx'. unfold HUGE. split; [apply Z.div_pos; lia|apply Z.div_lt_upper_bound; lia]. }
  pose proof (Hr v Hv). pose proof (Hr v' Hv'). generalize dependent (v / HUGE). generalize dependent (v' / HUGE). clear. intros x Hx y Hy.
  split; [|by intros ->]. intros [= E1 E2 E3]. revert E1 E2 E3. Z.to_euclidean_division_equations. lia.
Qed.

Lemma huge_addr base v : base mod HUGE = 0 → base ≤ v < base + HUGE → Z.lor base (Z.land v 2097151) = v.
Proof.
  unfold HUGE. intros Hb Hv. apply Z.mod_divide in Hb as [k ->]; [|lia].
  assert (k = v / 2 ^ 21) as -> by (apply (Z.div_unique_pos _ _ _ (v - k * 2097152)); lia).
  change 2097151 with (Z.ones 21). change 2097152 with (2 ^ 21). rewrite <- Z.shiftr_div_pow2, <- Z.shiftl_mul_pow2 by lia.
  apply Z.bits_inj'. intros n Hn. rewrite Z.lor_spec, Z.land_spec, Z.shiftl_spec, Z.testbit_ones_nonneg by lia.
  destruct (Z.ltb_spec n 21); [rewrite Z.testbit_neg_r by lia; by rewrite andb_true_r|].
  rewrite Z.shiftr_spec, andb_false_r, orb_false_r by lia. f_equal. lia.
Qed.

(** ** The tables *)

(** Three tables and two huge pages, for the first 4 MiB. *)
Definition loader_l4 : Z := 2101248.
Definition loader_l3 : Z := 2105344.
Definition loader_l2 : Z := 2109440.
Definition loader_mem2 : mem :=
  let m := st64 (zero_words ∅ loader_l3 512) (slot loader_l4 0) (Z.lor loader_l3 7) in
  st64 (zero_words m loader_l2 512) (slot loader_l3 0) (Z.lor loader_l2 7).
Definition loader_mem : mem := st64 (st64 loader_mem2 (slot loader_l2 0) 131) (slot loader_l2 1) (Z.lor HUGE 131).
Definition loader_pages : pg := mkPg loader_mem (replicate (Z.to_nat BITMAP_SIZE) 0) loader_l4.

Lemma loader_ok : page_ok loader_l4 ∧ page_ok loader_l3 ∧ page_ok loader_l2.
Proof. done. Qed.

Lemma empty_walk r path : walk ∅ r path = if decide (path = []) then Some r else None.
Proof.
  induction path as [|j path IH] using rev_ind; [done|]. rewrite walk_snoc, IH. rewrite (decide_False (P := path ++ [j] = [])) by (by intros []%app_nil).
  by destruct (decide (path = [])).
Qed.

Lemma loader_walk2 : tree loader_mem2 loader_l4 ∧ ∀ path, ok_path path → walk loader_mem2 loader_l4 path =
  if decide (path = []) then Some loader_l4 else if decide (path = [0]) then Some loader_l3 else if decide (path = [0; 0]) then Some loader_l2 else None.
Proof.
  destruct loader_ok as (H4 & H3 & H2).
  assert (created ∅ (st64 (zero_words ∅ loader_l3 512) (slot loader_l4 0) (Z.lor loader_l3 7)) loader_l4 [] 0 loader_l3) as C1.
  { apply linked_created; [by apply tree_empty|by apply ok1|done|done|done| |done|done].
    intros path t _. rewrite empty_walk. case_decide; [|done]. by intros [= <-]. }
  set (m1 := st64 (zero_words ∅ loader_l3 512) _ _) in *. pose proof (created_tree _ _ _ _ _ _ C1) as T1.
  assert (∀ path, ok_path path → walk m1 loader_l4 path =
    if decide (path = []) then Some loader_l4 else if decide (path = [0]) then Some loader_l3 else None) as W1.
  { intros path Hp. rewrite (created_walk _ _ _ _ _ _ _ C1 Hp), empty_walk. cbn [app].
    destruct path as [|i path]; [done|]. repeat case_decide; simplify_eq; try done. all: exfalso; naive_solver eauto using prefix_nil. }
  assert (created m1 loader_mem2 loader_l4 [0] 0 loader_l2) as C2.
  { apply linked_created; [done|by apply ok2| | |done| |done|done].
    - by rewrite W1 by (by apply ok1).
    - subst m1. rewrite ld_st_ne by done. by rewrite zero_words_ld.
    - intros path t Hp. rewrite W1 by done. repeat case_decide; try done; by intros [= <-]. }
  split; [by apply (created_tree _ _ _ _ _ _ C2)|].
  intros path Hp. rewrite (created_walk _ _ _ _ _ _ _ C2 Hp), W1 by done. cbn [app].
  destruct path as [|i [|j [|k path]]]; [done|..].
  - rewrite (decide_False (P := [0; 0] `prefix_of` [i])) by (intros H%prefix_length; cbn in H; lia). by repeat case_decide.
  - destruct (decide ([i; j] = [0; 0])) as [->|Hne]; [done|].
    rewrite (decide_False (P := [0; 0] `prefix_of` [i; j])); [by repeat case_decide|].
    intros H. apply Hne. symmetry. by apply prefix_length_eq.
  - rewrite !(decide_False (P := i :: j :: k :: path = _)) by done. by case_decide.
Qed.

Lemma two_huge m r l2 e0 e1 : tree m r → walk m r [0; 0] = Some l2 → (∀ j, 0 ≤ j < 512 → ld64 m (slot l2 j) = 0) →
  has e0 PAGE_PRESENT = true → has e0 PAGE_HUGE = true → has e1 PAGE_PRESENT = true → has e1 PAGE_HUGE = true →
  let m' := st64 (st64 m (slot l2 0) e0) (slot l2 1) e1 in
  tree m' r ∧ (∀ path, ok_path path → walk m' r path = walk m r path) ∧
  ∀ x y z d v, idx_ok (x, y, z, d) → xlate m' r (x, y, z, d) v =
    if decide ((x, y, z) = (0, 0, 1)) then Some (Z.lor (entry_addr e1) (Z.land v 2097151), false)
    else if decide ((x, y, z) = (0, 0, 0)) then Some (Z.lor (entry_addr e0) (Z.land v 2097151), false) else xlate m r (x, y, z, d) v.
Proof.
  intros T W Z0 P0 H0 P1 H1. assert (has 0 PAGE_PRESENT = false) as N by done.
  destruct (huge_write m r 0 0 0 l2 e0 T ltac:(lia) ltac:(lia) ltac:(lia) W ltac:(by rewrite Z0) P0 H0) as (T1 & W1 & X1).
  destruct (huge_write (st64 m (slot l2 0) e0) r 0 0 1 l2 e1 T1 ltac:(lia) ltac:(lia) ltac:(lia)) as (T2 & W2 & X2);
    [by rewrite W1 by (by apply ok2)|rewrite ld_st_ne by (unfold slot; lia); by rewrite Z0|done|done|].
  split; [done|]. split; [intros path Hp; by rewrite W2, W1|]. intros x y z d v Hidx. rewrite X2 by done. case_decide; [done|]. by rewrite X1.
Qed.

Lemma loader_l2_zero j : 0 ≤ j < 512 → ld64 loader_mem2 (slot loader_l2 j) = 0.
Proof.
  intros Hj. unfold loader_mem2. rewrite ld_st_ne by (unfold slot, loader_l2, loader_l3; lia). rewrite zero_words_ld.
  rewrite (proj2 (Z.leb_le _ _)), (proj2 (Z.ltb_lt _ _)) by (unfold slot; lia). replace (slot loader_l2 j - loader_l2) with (j * 8) by (unfold slot; lia).
  by rewrite Z.mod_mul.
Qed.

Lemma loader_xlate2 x y z d v : idx_ok (x, y, z, d) → xlate loader_mem2 loader_l4 (x, y, z, d) v = None.
Proof.
  intros (Hx & Hy & Hz & Hd). destruct loader_walk2 as [_ W]. unfold xlate. rewrite (W [x; y; z]), (W [x; y]) by auto using ok2, ok3.
  rewrite !decide_False by done. case_decide; [|done]. cbn [mbind option_bind]. rewrite loader_l2_zero by done. exact eq_refl.
Qed.

Lemma loader_walk : tree loader_mem loader_l4 ∧
  (∀ path, ok_path path → walk loader_mem loader_l4 path = walk loader_mem2 loader_l4 path) ∧
  ∀ x y z d v, idx_ok (x, y, z, d) → xlate loader_mem loader_l4 (x, y, z, d) v =
    if decide ((x, y, z) = (0, 0, 1)) then Some (Z.lor HUGE (Z.land v 2097151), false)
    else if decide ((x, y, z) = (0, 0, 0)) then Some (Z.lor 0 (Z.land v 2097151), false) else None.
Proof.
  destruct loader_walk2 as [T W].
  destruct (two_huge loader_mem2 loader_l4 loader_l2 131 (Z.lor HUGE 131) T) as (T' & W' & X').
  - rewrite W by (by apply ok2). exact eq_refl.
  - exact loader_l2_zero.
  - exact eq_refl.
  - exact eq_refl.
  - exact eq_refl.
  - exact eq_refl.
  - split; [exact T'|]. split; [exact W'|]. intros x y z d v Hidx. unfold loader_mem. rewrite X' by exact Hidx. rewrite loader_xlate2 by exact Hidx. exact eq_refl.
Qed.

Lemma low_indices v : 0 ≤ v < 2 ^ 30 → index_at v 39 = 0 ∧ index_at v 30 = 0 ∧ index_at v 21 = v / HUGE.
Proof.
  intros Hv. unfold index_at, HUGE. change 511 with (Z.ones 9). rewrite !Z.land_ones, !Z.shiftr_div_pow2 by lia.
  rewrite (Z.div_small v (2 ^ 39)), (Z.div_small v (2 ^ 30)) by lia. split; [done|]. split; [done|].
  apply Z.mod_small. split; [apply Z.div_pos; lia|apply Z.div_lt_upper_bound; lia].
Qed.

Lemma loader_lookup b v : 0 ≤ v < 2 ^ 30 → translate (mkPg loader_mem b loader_l4) v = if v <? 4194304 then Some v else None.
Proof.
  intros Hv. destruct loader_walk as (T & _ & X). unfold translate. change (read_cr3 (mkPg loader_mem b loader_l4)) with loader_l4.
  rewrite (translate_walk (mkPg loader_mem b loader_l4) v loader_l4 T). cbn [pg_mem].
  pose proof (indices_ok v) as Hi. unfold indices in *. destruct (low_indices v Hv) as (E4 & E3 & E2). rewrite E4, E3, E2 in *.
  rewrite X by exact Hi. clear X T Hi E4 E3 E2.
  pose proof (Z.div_mod v HUGE ltac:(done)) as D. pose proof (Z.mod_pos_bound v HUGE ltac:(done)) as M. unfold HUGE in D, M.
  destruct (decide ((0, 0, v / HUGE) = (0, 0, 1))) as [[= E]|H1]; [|destruct (decide ((0, 0, v / HUGE) = (0, 0, 0))) as [[= E]|H0]]; cbn [fmap option_fmap option_map fst].
  - unfold HUGE in E. rewrite E in D. rewrite (proj2 (Z.ltb_lt _ _)) by lia. f_equal. apply (huge_addr HUGE); [done|unfold HUGE; lia].
  - unfold HUGE in E. rewrite E in D. rewrite (proj2 (Z.ltb_lt _ _)) by lia. f_equal. apply (huge_addr 0); [done|unfold HUGE; lia].
  - rewrite (proj2 (Z.ltb_ge _ _)); [done|]. assert (v / HUGE ≠ 1) by congruence. assert (v / HUGE ≠ 0) by congruence. unfold HUGE in *.
    assert (0 ≤ v / 2097152) by (apply Z.div_pos; lia). lia.
Qed.


Lemma loader_translate v : 0 ≤ v < 2 ^ 30 → translate loader_pages v = if v <? 4194304 then Some v else None.
Proof. exact (loader_lookup _ v). Qed.

Lemma loader_tables path t : ok_path path → walk loader_mem loader_l4 path = Some t → t = loader_l4 ∨ t = loader_l3 ∨ t = loader_l2.
Proof.
  intros Hp. destruct loader_walk as (_ & W & _). destruct loader_walk2 as (_ & W2). rewrite W, W2 by exact Hp. repeat case_decide; intros [= <-]; auto.
Qed.

(** With any handle that does not hand out the tables. *)
Lemma loader_reached a b : pmm_wf a → memory_start a mod 4096 = 0 → memory_start a + PMM_MAX_PAGES * PMM_PAGE_SIZE ≤ 2 ^ 52 → bm_wf b →
  (∀ t, t = loader_l4 ∨ t = loader_l3 ∨ t = loader_l2 → not_free a b t) → reached a 4194304 (mkPg loader_mem b loader_l4).
Proof.
  intros Ha Hm Ht Hb Hn. destruct loader_walk as (T & _). split.
  - split; [done|done|done|exact T|]. intros path t Hp Hw. by apply Hn, (loader_tables path).
  - intros x Hx. rewrite loader_lookup by lia. by rewrite (proj2 (Z.ltb_lt _ _)) by lia.
  - intros path t Hp Hw. destruct (loader_tables path t Hp Hw) as [->|[->| ->]]; unfold loader_l4, loader_l3, loader_l2; lia.
Qed.
