(* ===== verification/PageClone.v ===== *)
(** * What the page-table operations leave alone

    [create_pml4] works through the page tables in [cr3] and never switches them,
    and neither does tearing an address space down. *)

From Stdlib Require Import ZArith Lia.
From stdpp Require Import base numbers list list_numbers option gmap.
From S2P Require Import Prelude Pmm Memory Paging.

Local Open Scope Z_scope.

(** If [o] returns, the state in its result satisfies [P]. *)
Definition keeps {A} (get : A → pg) (P : pg → Prop) (o : outcome A) : Prop :=
  match o with Ret x => P (get x) | _ => True end.

Lemma keeps_bind {A B} (get : A → pg) (get' : B → pg) P o (f : A → outcome B) :
  keeps get P o → (∀ x, P (get x) → keeps get' P (f x)) → keeps get' P (o ≫= f).
Proof. destruct o; cbn; auto. Qed.

Lemma keeps_ret {A} (get : A → pg) P o x : keeps get P o → o = Ret x → P (get x).
Proof. by intros H ->. Qed.

Abbreviation keeps_pg c := (keeps id (λ s, pg_cr3 s = c)).
Abbreviation keeps_snd c := (keeps snd (λ s, pg_cr3 s = c)).

Create HintDb cr3 discriminated.

(** Follows the binds and the branches of a run. *)
Ltac keeps_step :=
  match goal with
  | |- keeps _ _ (Ret _) => cbn; assumption
  | |- keeps _ _ Hang => exact I
  | |- keeps _ _ Fault => exact I
  | |- keeps _ _ (mbind _ _) =>
      first [ eapply (keeps_bind snd); [|intros [? ?] ?; cbn beta iota delta [snd] in *]
            | eapply (keeps_bind id); [|intros ? ?; cbn beta iota delta [id] in *] ]
  | |- keeps _ _ (if ?b then _ else _) => destruct b
  | |- keeps _ _ (match ?o with Some _ => _ | None => _ end) => destruct o
  | |- keeps _ _ (let '(_, _) := ?p in _) => destruct p
  | |- keeps _ _ _ => solve [auto with cr3]
  end.
Ltac keeps_run := cbv zeta; repeat keeps_step.

Section cr3.
Context (a : PmmAllocator) (c : Z).
Implicit Types s : pg.

Lemma keeps_alloc s : pg_cr3 s = c → keeps_snd c (pmm_alloc a s).
Proof. intros <-. unfold pmm_alloc. by destruct (alloc a (pg_bm s)) as [[]| | |]. Qed.

Lemma keeps_free s x : pg_cr3 s = c → keeps_pg c (pmm_free a s x).
Proof. intros <-. unfold pmm_free. by destruct (free a (pg_bm s) x). Qed.

Lemma st_cr3 s x v : pg_cr3 s = c → pg_cr3 (pg_st s x v) = c.
Proof. done. Qed.

Lemma zero_cr3 s x : pg_cr3 s = c → pg_cr3 (zero_table s x) = c.
Proof. done. Qed.

Lemma set_mem_cr3 s m : pg_cr3 s = c → pg_cr3 (set_mem m s) = c.
Proof. done. Qed.

#[local] Hint Resolve keeps_alloc keeps_free st_cr3 zero_cr3 set_mem_cr3 : cr3.

Lemma keeps_undo s l3 l3i p : pg_cr3 s = c → keeps_pg c (undo_pd a s l3 l3i p).
Proof. intros. unfold undo_pd. keeps_run. Qed.
#[local] Hint Resolve keeps_undo : cr3.

Lemma keeps_provision_pt s l3 p : pg_cr3 s = c → keeps_snd c (provision_pt a s l3 p).
Proof. intros. unfold provision_pt. keeps_run. Qed.
#[local] Hint Resolve keeps_provision_pt : cr3.

Lemma keeps_provision s : pg_cr3 s = c → keeps_snd c (provision_kernel_scratch a s).
Proof. intros. unfold provision_kernel_scratch. keeps_run. Qed.

Lemma keeps_reclaim s e o : pg_cr3 s = c → keeps_pg c (reclaim_owned a s e o).
Proof. intros. unfold reclaim_owned. keeps_run. Qed.
#[local] Hint Resolve keeps_provision keeps_reclaim : cr3.

Lemma keeps_cleanup s o : pg_cr3 s = c → keeps_pg c (cleanup_if a s o).
Proof.
  intros. unfold cleanup_if, cleanup_kernel_scratch. keeps_run.
Qed.

Lemma keeps_copy s x p : pg_cr3 s = c → keeps_snd c (copy_user_page_through_scratch s x p).
Proof.
  intros. unfold copy_user_page_through_scratch. destruct (kernel_scratch_pte s); [|done].
  destruct (has _ _); [done|]. cbv zeta.
  destruct (translate _ x); [|done]. cbn [deref mbind outcome_bind]. by destruct (translate _ _).
Qed.
#[local] Hint Resolve keeps_cleanup keeps_copy : cr3.

Lemma keeps_leaves owns pt n : ∀ s k, pg_cr3 s = c → keeps_pg c (free_leaves a s owns pt k n).
Proof. induction n as [|n IH]; intros; cbn [free_leaves]; keeps_run. Qed.
#[local] Hint Resolve keeps_leaves : cr3.

Lemma keeps_free_pd owns i pd n : ∀ s k, pg_cr3 s = c → keeps_pg c (free_pd a s owns i pd k n).
Proof. induction n as [|n IH]; intros; cbn [free_pd]; keeps_run. Qed.
#[local] Hint Resolve keeps_free_pd : cr3.

Lemma keeps_free_pdpt owns pd n : ∀ s k, pg_cr3 s = c → keeps_pg c (free_pdpt a s owns pd k n).
Proof. induction n as [|n IH]; intros; cbn [free_pdpt]; keeps_run. Qed.
#[local] Hint Resolve keeps_free_pdpt : cr3.

Lemma keeps_destroy s h : pg_cr3 s = c → keeps_pg c (destroy_uncommitted_pml4 a s h).
Proof. intros. unfold destroy_uncommitted_pml4. keeps_run. Qed.
#[local] Hint Resolve keeps_destroy : cr3.

Lemma keeps_clone_pt v src new n : ∀ s k, pg_cr3 s = c → keeps_snd c (clone_pt a s v src new k n).
Proof. induction n as [|n IH]; intros; cbn [clone_pt]; keeps_run. Qed.
#[local] Hint Resolve keeps_clone_pt : cr3.

Lemma keeps_clone_pde s u v e new i : pg_cr3 s = c → keeps_snd c (clone_pde a s u v e new i).
Proof. intros. unfold clone_pde. keeps_run. Qed.
#[local] Hint Resolve keeps_clone_pde : cr3.

Lemma keeps_clone_pd u i src new n : ∀ s k, pg_cr3 s = c → keeps_snd c (clone_pd a s u i src new k n).
Proof. induction n as [|n IH]; intros; cbn [clone_pd]; keeps_run. Qed.
#[local] Hint Resolve keeps_clone_pd : cr3.

Lemma keeps_clone_pdpte s u e new i : pg_cr3 s = c → keeps_snd c (clone_pdpte a s u e new i).
Proof. intros. unfold clone_pdpte. keeps_run. Qed.
#[local] Hint Resolve keeps_clone_pdpte : cr3.

Lemma keeps_clone_pdpt u src new n : ∀ s k, pg_cr3 s = c → keeps_snd c (clone_pdpt a s u src new k n).
Proof. induction n as [|n IH]; intros; cbn [clone_pdpt]; keeps_run. Qed.
#[local] Hint Resolve keeps_clone_pdpt : cr3.

Lemma keeps_clone_low s u src new : pg_cr3 s = c → keeps_snd c (clone_low a s u src new).
Proof. intros. unfold clone_low. keeps_run. Qed.
#[local] Hint Resolve keeps_clone_low : cr3.

Lemma keeps_create s u : pg_cr3 s = c → keeps_snd c (create_pml4 a s u).
Proof.
  intros Hc. unfold create_pml4. eapply (keeps_bind (λ x : bool * option ScratchProvision * pg, x.2)).
  - destruct u; [|done]. eapply (keeps_bind snd); [by apply keeps_provision|].
    intros [[] s'] E; done.
  - intros [[ok scratch] s'] E. cbn in E. keeps_run.
Qed.
End cr3.

Lemma create_pml4_cr3 a s u o s' : create_pml4 a s u = Ret (o, s') → pg_cr3 s' = pg_cr3 s.
Proof. exact (keeps_ret snd (λ t, pg_cr3 t = pg_cr3 s) _ (o, s') (keeps_create a _ s u eq_refl)). Qed.

Lemma destroy_pml4_cr3 a s h s' : destroy_uncommitted_pml4 a s h = Ret s' → pg_cr3 s' = pg_cr3 s.
Proof. exact (keeps_ret id (λ t, pg_cr3 t = pg_cr3 s) _ s' (keeps_destroy a _ s h eq_refl)). Qed.
