(* ===== verification/PageFree.v ===== *)
(** * What tearing down an address space frees

    [destroy_uncommitted_pml4] only reads the tables and returns pages to the memory
    manager; [owned] says which. *)

From Stdlib Require Import ZArith Lia.
From stdpp Require Import base numbers list list_numbers option gmap.
From S2P Require Import Prelude Pmm Memory Paging.

Local Open Scope Z_scope.

(** The page of the memory manager that the address [x] lies in. *)
Definition hits (a : PmmAllocator) (x j : Z) : Prop :=
  memory_start a ≤ x ∧ (x - memory_start a) / PMM_PAGE_SIZE = j.

(** A run that frees the addresses in [P] and does nothing else. *)
Record frees (a : PmmAllocator) (s : pg) (P : Z → Prop) (s' : pg) : Prop := {
  fr_same : s' = set_bm (pg_bm s') s;
  fr_wf : bm_wf (pg_bm s');
  fr_used : ∀ j, in_range j →
    used (pg_bm s') j = true ↔ used (pg_bm s) j = true ∧ ∀ x, P x → ¬ hits a x j
}.

Section frees.
Context (a : PmmAllocator).
Implicit Types s : pg.

Lemma frees_nothing s (P : Z → Prop) : bm_wf (pg_bm s) → (∀ x, ¬ P x) → frees a s P s.
Proof.
  intros Hwf HP. split; [by destruct s|done|]. intros j _. split; [|by intros []].
  intros Hu. split; [done|]. intros x Hx. by destruct (HP x).
Qed.

Lemma frees_app s s1 s2 (P Q R : Z → Prop) : frees a s P s1 → frees a s1 Q s2 →
  (∀ x, R x ↔ P x ∨ Q x) → frees a s R s2.
Proof.
  intros [E1 W1 U1] [E2 W2 U2] HR. split; [|done|].
  - rewrite E2, E1. by destruct s.
  - intros j Hj. rewrite (U2 j Hj), (U1 j Hj). setoid_rewrite HR. naive_solver.
Qed.

Lemma free_spec bm x : bm_wf bm → ∃ bm', free a bm x = Ret bm' ∧ bm_wf bm' ∧
  ∀ j, in_range j → used bm' j = true ↔ used bm j = true ∧ ¬ hits a x j.
Proof.
  intros Hwf. unfold free, hits. destruct (Z.ltb_spec x (memory_start a)) as [Hx|Hx].
  { exists bm. split; [done|]. split; [done|]. intros j _. split; [|by intros []]. by split; [|lia]. }
  set (q := (x - memory_start a) / PMM_PAGE_SIZE).
  rewrite Z.geb_leb. destruct (Z.leb_spec PMM_MAX_PAGES q) as [Hq|Hq].
  { exists bm. split; [done|]. split; [done|]. intros j Hj. unfold in_range in Hj.
    split; [|by intros []]. intros Hu. split; [done|lia]. }
  assert (0 ≤ q) as Hq0 by (apply Z.div_pos; [lia|done]).
  destruct (bm_clear_spec bm q Hwf) as (bm' & -> & Hwf' & Hu); [done|].
  exists bm'. split; [done|]. split; [done|]. intros j Hj. rewrite (Hu j Hj).
  destruct (Z.eqb_spec q j); split; [done|naive_solver|naive_solver|naive_solver].
Qed.

Lemma pmm_free_spec s x : bm_wf (pg_bm s) → ∃ s', pmm_free a s x = Ret s' ∧ frees a s (λ y, y = x) s'.
Proof.
  intros Hwf. unfold pmm_free. destruct (free_spec (pg_bm s) x Hwf) as (bm' & -> & Hwf' & Hu).
  eexists. split; [done|]. split; [done|done|]. intros j Hj. rewrite (Hu j Hj). naive_solver.
Qed.

(** A loop whose step [i] frees [P i]. *)
Lemma frees_loop (step : pg → Z → outcome pg) (loop : pg → Z → nat → outcome pg) (P : Z → Z → Prop) (m : mem) :
  (∀ s k, loop s k O = Ret s) →
  (∀ s k n, loop s k (S n) = s ← step s k; loop s (k + 1) n) →
  (∀ s k, pg_mem s = m → bm_wf (pg_bm s) → ∃ s', step s k = Ret s' ∧ frees a s (P k) s') →
  ∀ n s k, pg_mem s = m → bm_wf (pg_bm s) →
  ∃ s', loop s k n = Ret s' ∧ frees a s (λ x, ∃ i, k ≤ i < k + Z.of_nat n ∧ P i x) s'.
Proof.
  intros H0 HS Hstep n. induction n as [|n IH]; intros s k Hm Hwf.
  - exists s. split; [apply H0|]. apply frees_nothing; [done|]. intros x (i & Hi & _). lia.
  - rewrite HS. destruct (Hstep s k Hm Hwf) as (s1 & -> & F1). cbn [mbind outcome_bind].
    destruct (IH s1 (k + 1)) as (s2 & -> & F2); [by rewrite (fr_same _ _ _ _ F1)|apply F1|].
    exists s2. split; [done|]. eapply frees_app; [done..|]. intros x. split.
    + intros (i & Hi & Hx). destruct (decide (i = k)) as [->|]; [by left|]. right. exists i. by split; [lia|].
    + intros [Hx|(i & Hi & Hx)]; [exists k|exists i]; (split; [lia|done]).
Qed.

(** ** Which pages belong to an address space *)

(** The frame an entry of a page table maps for the user. *)
Definition owns_leaf (m : mem) (owns : bool) (pt k x : Z) : Prop :=
  let pte := ld64 m (slot pt k) in
  owns && has pte PAGE_PRESENT && has pte PAGE_USER = true ∧ x = entry_addr pte.

(** A page table, or a large page of the user, under entry [j] of a page directory. *)
Definition owns_pde (m : mem) (owns : bool) (i pd j x : Z) : Prop :=
  let pde := ld64 m (slot pd j) in
  has pde PAGE_PRESENT = true ∧ PAGING_USER_CODE_ADDR ≤ Z.lor (Z.shiftl i 30) (Z.shiftl j 21) ∧
  if has pde PAGE_HUGE then owns && has pde PAGE_USER = true ∧ x = entry_addr pde
  else x = entry_addr pde ∨ ∃ k, 0 ≤ k < 512 ∧ owns_leaf m owns (entry_addr pde) k x.

Definition owns_pdpte (m : mem) (owns : bool) (pdpt i x : Z) : Prop :=
  let pdpte := ld64 m (slot pdpt i) in
  has pdpte PAGE_PRESENT = true ∧ has pdpte PAGE_HUGE = false ∧
  (x = entry_addr pdpte ∨ ∃ j, 0 ≤ j < 512 ∧ owns_pde m owns i (entry_addr pdpte) j x).

(** The pages of the address space rooted at [root]: the root, and the tables under its
    first entry with the user's frames; the page tables below [USER_CODE_ADDR] are the
    kernel's and shared. *)
Definition owned (m : mem) (h : Pml4Handle) (x : Z) : Prop :=
  let e0 := ld64 m (slot (phys h) 0) in
  x = phys h ∨ has e0 PAGE_PRESENT = true ∧
  (x = entry_addr e0 ∨ ∃ i, 0 ≤ i < 512 ∧ owns_pdpte m (owns_user_leaves h) (entry_addr e0) i x).

Lemma free_leaves_spec s owns pt : bm_wf (pg_bm s) →
  ∃ s', free_leaves a s owns pt 0 512 = Ret s' ∧
    frees a s (λ x, ∃ k, 0 ≤ k < 512 ∧ owns_leaf (pg_mem s) owns pt k x) s'.
Proof.
  intros Hwf.
  refine (frees_loop (λ s k, let pte := pg_ld s (slot pt k) in
            if owns && has pte PAGE_PRESENT && has pte PAGE_USER then pmm_free a s (entry_addr pte) else Ret s)
           (λ s k n, free_leaves a s owns pt k n) _ (pg_mem s) _ _ _ 512 s 0 eq_refl Hwf); [done..|].
  intros s' k Hm Hwf'. unfold owns_leaf, pg_ld. rewrite Hm. cbv zeta. destruct (owns && _ && _).
  - destruct (pmm_free_spec s' (entry_addr (ld64 (pg_mem s) (slot pt k))) Hwf') as (s2 & -> & F).
    exists s2. split; [done|]. eapply frees_app; [apply (frees_nothing _ (λ _, False))|exact F|]; naive_solver.
  - exists s'. split; [done|]. apply frees_nothing; naive_solver.
Qed.

(** Freeing more after a run. *)
Lemma then_free s (P : Z → Prop) s' x : frees a s P s' →
  ∃ s2, pmm_free a s' x = Ret s2 ∧ frees a s (λ y, y = x ∨ P y) s2.
Proof.
  intros F. destruct (pmm_free_spec s' x (fr_wf _ _ _ _ F)) as (s2 & -> & F2).
  exists s2. split; [done|]. eapply frees_app; [done..|]. naive_solver.
Qed.

Lemma frees_iff s (P Q : Z → Prop) s' : (∀ x, P x ↔ Q x) → frees a s P s' → frees a s Q s'.
Proof. intros HPQ []. split; [done..|]. intros j Hj. setoid_rewrite <- HPQ. auto. Qed.

Lemma free_pd_spec s owns i pd : bm_wf (pg_bm s) →
  ∃ s', free_pd a s owns i pd 0 512 = Ret s' ∧
    frees a s (λ x, ∃ j, 0 ≤ j < 512 ∧ owns_pde (pg_mem s) owns i pd j x) s'.
Proof.
  intros Hwf.
  refine (frees_loop _ (λ s k n, free_pd a s owns i pd k n) _ (pg_mem s) _ _ _ 512 s 0 eq_refl Hwf);
    [done|intros; reflexivity|].
  intros s' j Hm Hwf'. unfold owns_pde, pg_ld. cbv beta zeta. rewrite Hm.
  set (pde := ld64 (pg_mem s) (slot pd j)). destruct (has pde PAGE_PRESENT); cbn [negb].
  2: { exists s'. split; [done|]. apply frees_nothing; naive_solver. }
  destruct (Z.ltb_spec (Z.lor (Z.shiftl i 30) (Z.shiftl j 21)) PAGING_USER_CODE_ADDR).
  { exists s'. split; [done|]. apply frees_nothing; [done|]. intros x (_ & ? & _). lia. }
  destruct (has pde PAGE_HUGE).
  - destruct (owns && has pde PAGE_USER).
    + destruct (pmm_free_spec s' (entry_addr pde) Hwf') as (s2 & -> & F).
      exists s2. split; [done|]. revert F. apply frees_iff. naive_solver.
    + exists s'. split; [done|]. apply frees_nothing; naive_solver.
  - destruct (free_leaves_spec s' owns (entry_addr pde) Hwf') as (s1 & -> & F1). cbn [mbind outcome_bind].
    destruct (then_free _ _ _ (entry_addr pde) F1) as (s2 & -> & F2). exists s2. split; [done|].
    revert F2. apply frees_iff. rewrite Hm. naive_solver.
Qed.

Lemma free_pdpt_spec s owns pdpt : bm_wf (pg_bm s) →
  ∃ s', free_pdpt a s owns pdpt 0 512 = Ret s' ∧
    frees a s (λ x, ∃ i, 0 ≤ i < 512 ∧ owns_pdpte (pg_mem s) owns pdpt i x) s'.
Proof.
  intros Hwf.
  refine (frees_loop _ (λ s k n, free_pdpt a s owns pdpt k n) _ (pg_mem s) _ _ _ 512 s 0 eq_refl Hwf);
    [done|intros; reflexivity|].
  intros s' i Hm Hwf'. unfold owns_pdpte, pg_ld. cbv beta zeta. rewrite Hm.
  set (e := ld64 (pg_mem s) (slot pdpt i)). destruct (has e PAGE_PRESENT); cbn [negb orb].
  2: { exists s'. split; [done|]. apply frees_nothing; naive_solver. }
  destruct (has e PAGE_HUGE); [exists s'; split; [done|]; apply frees_nothing; naive_solver|].
  destruct (free_pd_spec s' owns i (entry_addr e) Hwf') as (s1 & -> & F1). cbn [mbind outcome_bind].
  destruct (then_free _ _ _ (entry_addr e) F1) as (s2 & -> & F2). exists s2. split; [done|].
  revert F2. apply frees_iff. rewrite Hm. naive_solver.
Qed.

Lemma destroy_frees s h : bm_wf (pg_bm s) →
  ∃ s', destroy_uncommitted_pml4 a s h = Ret s' ∧ frees a s (owned (pg_mem s) h) s'.
Proof.
  intros Hwf. unfold destroy_uncommitted_pml4, owned, pg_ld. cbv zeta.
  set (e0 := ld64 (pg_mem s) (slot (phys h) 0)). destruct (has e0 PAGE_PRESENT); cbn [negb].
  - destruct (free_pdpt_spec s (owns_user_leaves h) (entry_addr e0) Hwf) as (s1 & -> & F1).
    cbn [mbind outcome_bind]. destruct (then_free _ _ _ (entry_addr e0) F1) as (s2 & -> & F2).
    cbn [mbind outcome_bind]. destruct (then_free _ _ _ (phys h) F2) as (s3 & -> & F3).
    exists s3. split; [done|]. revert F3. apply frees_iff. naive_solver.
  - destruct (pmm_free_spec s (phys h) Hwf) as (s2 & -> & F). exists s2. split; [done|].
    revert F. apply frees_iff. naive_solver.
Qed.
End frees.

(** C31: Tearing an address space down always returns, whatever the tables hold.  The memory, the
    loaded page tables and every page outside the address space stay as they were; every page the
    address space owns (its root, its tables under entry 0, the page tables of the user range
    and, when the handle owns them, the user's frames) that the memory manager manages is free afterwards.
    The page tables of the kernel's range, which all address spaces share, are kept. *)
Theorem destroy_pml4_spec (a : PmmAllocator) (s : pg) (h : Pml4Handle) (Hwf : bm_wf (pg_bm s)) :
  ∃ s', destroy_uncommitted_pml4 a s h = Ret s' ∧ bm_wf (pg_bm s') ∧
    pg_mem s' = pg_mem s ∧ pg_cr3 s' = pg_cr3 s ∧
    (∀ j x, in_range j → owned (pg_mem s) h x → hits a x j → used (pg_bm s') j = false) ∧
    (∀ j, in_range j → (∀ x, owned (pg_mem s) h x → ¬ hits a x j) → used (pg_bm s') j = used (pg_bm s) j).
Proof.
  destruct (destroy_frees a s h Hwf) as (s' & -> & [E W U]). exists s'.
  split; [done|]. split; [done|]. rewrite E. split; [done|]. split; [done|]. split; cbn.
  - intros j x Hj Hx Hh. apply not_true_is_false. intros [_ Hn]%U; [|done]. by eapply Hn.
  - intros j Hj Hn. apply eq_true_iff_eq. rewrite (U j Hj). naive_solver.
Qed.

(** An address space with a user frame at 0x2800000; the memory manager starts at 1 MiB. *)
Definition doomed : pg :=
  mkPg (list_to_map [(1048576, 1052679); (1052672, 1056775); (1056928, 1060871); (1060864, 1064967)])
    (31 :: replicate (Z.to_nat 8191) 0) 4096.

Lemma destroy_pml4_spec_witness :
  ∃ s', destroy_uncommitted_pml4 (mkPmm 16 1048576) doomed (mkHandle 1048576 true) = Ret s' ∧
    used (pg_bm doomed) 4 = true ∧ used (pg_bm s') 4 = false.
Proof.
  destruct (destroy_pml4_spec (mkPmm 16 1048576) doomed (mkHandle 1048576 true)) as (s' & Hr & _ & _ & _ & Hf & _).
  - split; [reflexivity|]. apply List.Forall_cons; [done|]. by apply Forall_replicate.
  - exists s'. split; [exact Hr|]. split; [reflexivity|].
    apply (Hf 4 1064960); [split; done| |split; done].
    right. split; [reflexivity|]. right. exists 0. split; [lia|]. split; [reflexivity|]. split; [reflexivity|].
    right. exists 20. split; [lia|]. split; [reflexivity|]. split; [vm_compute; discriminate|]. cbv zeta.
    replace (has _ PAGE_HUGE) with false by reflexivity. right. exists 0. split; [lia|]. split; reflexivity.
Defined.
