(* ===== verification/PageNew.v ===== *)
(** * The address space of a new program

    What [create_pml4] without user pages builds: a root that shares the kernel's part of
    the active address space and maps nothing from [USER_CODE_ADDR] on; and that a
    construction that runs out of memory gives back what it took. *)

From Stdlib Require Import ZArith Lia.
From stdpp Require Import base numbers list list_numbers option gmap.
From S2P Require Import Prelude Pmm Memory Paging PageMaps PageSpec PageFree.

Local Open Scope Z_scope.

(** The first address under entry [j] of page directory [i]. *)
Definition vbase (i j : Z) : Z := Z.lor (Z.shiftl i 30) (Z.shiftl j 21).

(** The entry the new page directory gets. *)
Definition new_pde (m : mem) (i src_pd j : Z) : Z :=
  let e := ld64 m (slot src_pd j) in
  if has e PAGE_PRESENT && (vbase i j <? PAGING_USER_CODE_ADDR) then e else 0.

Lemma vbase_eq i j : 0 ≤ j < 512 → vbase i j = i * 2 ^ 30 + j * 2 ^ 21.
Proof.
  intros Hj. unfold vbase. rewrite <- (Z.shiftl_mul_pow2 i), <- (Z.shiftl_mul_pow2 j) by lia.
  assert (Z.land (Z.shiftl i 30) (Z.shiftl j 21) = 0) as E; [|pose proof (Z.add_lor_land (Z.shiftl i 30) (Z.shiftl j 21)); lia].
  apply Z.bits_inj'. intros n Hn. rewrite Z.land_spec, !Z.shiftl_spec, Z.bits_0 by done.
  destruct (decide (n < 30)); [by rewrite (Z.testbit_neg_r i) by lia|].
  rewrite (testbit_high 9 j) by lia. apply andb_false_r.
Qed.

(** An address from its indices. *)
Lemma index_parts v : 0 ≤ v < 2 ^ 48 →
  index_at v 39 * 2 ^ 39 ≤ v < (index_at v 39 + 1) * 2 ^ 39 ∧
  (index_at v 39 = 0 → index_at v 30 * 2 ^ 30 ≤ v < (index_at v 30 + 1) * 2 ^ 30) ∧
  (index_at v 39 = 0 → index_at v 30 * 2 ^ 30 + index_at v 21 * 2 ^ 21 ≤ v) ∧
  (index_at v 39 = 0 → v < index_at v 30 * 2 ^ 30 + (index_at v 21 + 1) * 2 ^ 21).
Proof.
  intros Hv. unfold index_at. change 511 with (Z.ones 9). rewrite !Z.land_ones, !Z.shiftr_div_pow2 by lia.
  change (2 ^ 9) with 512.
  assert (0 ≤ v / 2 ^ 39 < 512) as H39 by (split; [apply Z.div_pos; lia|apply Z.div_lt_upper_bound; lia]).
  rewrite (Z.mod_small (v / 2 ^ 39)) by done. pose proof (Z.div_mod v (2 ^ 39)). pose proof (Z.mod_pos_bound v (2 ^ 39)).
  split; [lia|].
  assert (v / 2 ^ 39 = 0 → (v / 2 ^ 30) mod 512 = v / 2 ^ 30) as E30.
  { intros E. apply Z.mod_small. split; [apply Z.div_pos; lia|apply Z.div_lt_upper_bound; lia]. }
  pose proof (Z.div_mod v (2 ^ 30)). pose proof (Z.mod_pos_bound v (2 ^ 30)).
  assert (v / 2 ^ 30 = v / 2 ^ 21 / 512) as E21 by (rewrite Z.div_div by lia; done).
  pose proof (Z.div_mod (v / 2 ^ 21) 512). pose proof (Z.div_mod v (2 ^ 21)). pose proof (Z.mod_pos_bound v (2 ^ 21)).
  split; [intros E; rewrite (E30 E); lia|]. split; intros E; rewrite (E30 E); lia.
Qed.

(** The addresses of user pages that belong to one address space. *)
Definition room (v : Z) : Prop := PAGING_USER_CODE_ADDR ≤ v < 2 ^ 39.

Lemma room_index v : room v → index_at v 39 = 0 ∧ PAGING_USER_CODE_ADDR ≤ vbase (index_at v 30) (index_at v 21).
Proof.
  intros [Hlo Hhi]. change PAGING_USER_CODE_ADDR with (16 * 2 ^ 21) in *. destruct (index_parts v) as (H4 & H3 & H2 & H1); [lia|].
  pose proof (index_at_range v 39). assert (index_at v 39 = 0) as E by lia. split; [done|].
  rewrite vbase_eq by apply index_at_range. specialize (H2 E). specialize (H1 E). lia.
Qed.

Lemma index_of i j : 0 ≤ i < 512 → 0 ≤ j < 512 →
  let v := i * 2 ^ 30 + j * 2 ^ 21 in index_at v 39 = 0 ∧ index_at v 30 = i ∧ index_at v 21 = j.
Proof.
  intros Hi Hj v. unfold index_at. change 511 with (Z.ones 9). rewrite !Z.land_ones, !Z.shiftr_div_pow2 by lia. change (2 ^ 9) with 512.
  assert (v / 2 ^ 39 = 0) as -> by (apply Z.div_small; unfold v; lia).
  assert (v / 2 ^ 30 = i) as -> by (symmetry; apply (Z.div_unique _ _ _ (j * 2 ^ 21)); unfold v; lia).
  assert (v / 2 ^ 21 = i * 512 + j) as -> by (symmetry; apply (Z.div_unique _ _ _ 0); unfold v; lia).
  rewrite Z.add_comm, Z.mod_add, !Z.mod_small by lia. done.
Qed.

(** ** Copying entries *)

Lemma copy_entries_ld src new : page_ok src → page_ok new → src ≠ new → ∀ n m i t j, 0 ≤ i → i + Z.of_nat n ≤ 512 →
  page_ok t → 0 ≤ j < 512 →
  ld64 (copy_entries m src new i n) (slot t j) =
    if bool_decide (t = new) && (i <=? j) && (j <? i + Z.of_nat n) then ld64 m (slot src j) else ld64 m (slot t j).
Proof.
  intros Hs Hn Hne n. induction n as [|n IH]; intros m i t j Hi Hin Ht Hj; cbn [copy_entries].
  { zcases; try lia; by rewrite ?andb_false_r. }
  rewrite IH by (done || lia).
  assert (∀ t j, page_ok t → 0 ≤ j < 512 → ld64 (st64 m (slot new i) (ld64 m (slot src i))) (slot t j) =
    if bool_decide (t = new) && (j =? i) then ld64 m (slot src i) else ld64 m (slot t j)) as Hst.
  { intros t' j' Ht' Hj'. case_bool_decide as E; cbn [andb].
    - subst t'. destruct (Z.eqb_spec j' i) as [->|]; [by rewrite ld_st_eq|]. rewrite ld_st_ne; [done|]. unfold slot. lia.
    - rewrite ld_st_ne; [done|]. intros E'. apply slot_inj in E' as [? _]; try done. lia. }
  rewrite !Hst by done. rewrite (bool_decide_eq_false_2 (src = new)) by done. cbn [andb].
  case_bool_decide; cbn [andb]; [|done]. destruct (Z.eqb_spec j i) as [->|]; zcases; try lia; try done.
Qed.

Lemma zero_table_ld s p t j : page_ok p → page_ok t → 0 ≤ j < 512 →
  ld64 (pg_mem (zero_table s p)) (slot t j) = if bool_decide (t = p) then 0 else ld64 (pg_mem s) (slot t j).
Proof.
  intros Hp Ht Hj. unfold zero_table. cbn [pg_mem set_mem]. rewrite zero_words_ld. unfold slot. case_bool_decide as E.
  - subst t. replace (p + 8 * j - p) with (j * 8) by lia. rewrite Z.mod_mul by lia. zcases; try lia; done.
  - destruct Hp as [Hp _], Ht as [Ht _]. apply Z.mod_divide in Hp as [c ->]; [|lia]. apply Z.mod_divide in Ht as [d ->]; [|lia].
    zcases; try lia; done.
Qed.

(** ** Flags of the new tables *)

Lemma table_flags_bit e n : 0 ≤ n → Z.testbit (table_flags e) n =
  Z.testbit e n && ((n =? 0) || (n =? 1) || (n =? 2) || (n =? 8) || (n =? 63)).
Proof.
  intros Hn. unfold table_flags, and_not.
  rewrite Z.ldiff_spec, Z.land_spec. rewrite <- andb_assoc. f_equal.
  unfold PAGE_PRESENT, PAGE_WRITABLE, PAGE_USER, PAGE_ACCESSED, PAGE_DIRTY, PAGE_HUGE, PAGE_GLOBAL, PAGE_NO_EXEC.
  rewrite !Z.lor_spec, !bit_spec by lia. rewrite !(Z.eqb_sym n).
  destruct (Z.eqb_spec 5 n) as [<-|_]; [done|]. destruct (Z.eqb_spec 6 n) as [<-|_]; [done|].
  destruct (Z.eqb_spec 7 n) as [<-|_]; [done|]. cbn [orb negb]. by rewrite andb_true_r, !orb_false_r.
Qed.

Lemma new_table_entry p e : page_ok p → has e PAGE_PRESENT = true →
  has (Z.lor p (table_flags e)) PAGE_PRESENT = true ∧ has (Z.lor p (table_flags e)) PAGE_HUGE = false ∧
  entry_addr (Z.lor p (table_flags e)) = p.
Proof.
  unfold PAGE_PRESENT, PAGE_HUGE. rewrite !has_bit by lia. intros Hp He.
  rewrite !Z.lor_spec, !table_flags_bit, He, (page_ok_low p 7) by (done || lia || (left; lia)).
  rewrite !orb_true_r || rewrite orb_true_r. split; [done|]. split; [by rewrite andb_false_r|].
  apply entry_addr_page; [done|]. intros n Hn. rewrite table_flags_bit by lia. rewrite !(proj2 (Z.eqb_neq n _)) by lia. apply andb_false_r.
Qed.

(** ** The construction *)

Section new.
Context (a : PmmAllocator) (s0 : pg) (Hi0 : pt_inv a s0).
Abbreviation m0 := (pg_mem s0).
Abbreviation src := (read_cr3 s0).

(** [s] has taken the pages [N], which were free, and written nowhere else. *)
Record fresh (N : list Z) (s : pg) : Prop := {
  fh_nodup : NoDup N;
  fh_cr3 : pg_cr3 s = pg_cr3 s0;
  fh_bm : bm_wf (pg_bm s);
  fh_new : ∀ t, t ∈ N → ∃ k, 0 ≤ k < total_pages a ∧ t = page_addr a k ∧ used (pg_bm s0) k = false;
  fh_used : ∀ j, in_range j → used (pg_bm s) j = true ↔ used (pg_bm s0) j = true ∨ page_addr a j ∈ N;
  fh_mem : ∀ t i, page_ok t → t ∉ N → 0 ≤ i < 512 → ld64 (pg_mem s) (slot t i) = ld64 m0 (slot t i)
}.

Lemma fresh_nil : fresh [] s0.
Proof using Hi0.
  split; auto; [apply NoDup_nil_2|apply Hi0|by intros t ?%not_elem_of_nil|].
  intros j _. split; [by left|]. by intros [|?%not_elem_of_nil].
Qed.

Lemma fresh_ok N s t : fresh N s → t ∈ N → page_ok t.
Proof using Hi0. intros F Ht. destruct (fh_new _ _ F t Ht) as (k & Hk & -> & _). by apply (page_addr_ok a s0). Qed.

(** A page in use before is not one of them. *)
Lemma fresh_old N s t : fresh N s → not_free a (pg_bm s0) t → t ∉ N.
Proof. intros F Hn Ht. destruct (fh_new _ _ F t Ht) as (k & Hk & E & Hu). rewrite (Hn k Hk E) in Hu. done. Qed.

Lemma fresh_walk N s path t : fresh N s → ok_path path → walk m0 src path = Some t → (t ∉ N) ∧ page_ok t.
Proof using Hi0.
  intros F Hp Hw. split; [|by apply (tr_ok _ _ (pi_tree _ _ Hi0) path)].
  apply (fresh_old N s); [done|]. by apply (pi_used _ _ Hi0 path).
Qed.

(** Writes to the new pages. *)
Lemma fresh_write N s m : fresh N s →
  (∀ t i, page_ok t → t ∉ N → 0 ≤ i < 512 → ld64 m (slot t i) = ld64 (pg_mem s) (slot t i)) → fresh N (set_mem m s).
Proof. intros F Hm. split; try apply F. intros t i Ht Hn Hi. cbn. rewrite Hm by done. by apply (fh_mem _ _ F). Qed.

Lemma st_ld m p i v t j : page_ok p → page_ok t → 0 ≤ i < 512 → 0 ≤ j < 512 →
  ld64 (st64 m (slot p i) v) (slot t j) = if bool_decide (t = p) && (j =? i) then v else ld64 m (slot t j).
Proof.
  intros Hp Ht Hi Hj. case_bool_decide as E; cbn [andb].
  - subst t. destruct (Z.eqb_spec j i) as [->|]; [apply ld_st_eq|]. apply ld_st_ne. unfold slot. lia.
  - apply ld_st_ne. intros E'. by apply slot_inj in E' as [? _].
Qed.

Lemma fresh_st N s p i v : fresh N s → p ∈ N → 0 ≤ i < 512 → fresh N (pg_st s (slot p i) v).
Proof using Hi0.
  intros F Hp Hi. apply fresh_write; [done|]. intros t j Ht Hn Hj. rewrite st_ld by (done || by eapply fresh_ok).
  case_bool_decide; [by subst|done].
Qed.

Lemma fresh_alloc N s : fresh N s →
  (∃ p s1, pmm_alloc a s = Ret (p, s1) ∧ p ≠ 0 ∧ page_ok p ∧ (p ∉ N) ∧
     fresh (p :: N) (zero_table s1 p) ∧ pg_mem s1 = pg_mem s) ∨
  pmm_alloc a s = Ret (0, s) ∧ exhausted a s.
Proof using Hi0.
  intros F. pose proof (pi_pmm _ _ Hi0) as Ha. pose proof Ha as (Htp & _). unfold pmm_alloc.
  destruct (alloc_cases a (pg_bm s) Ha (fh_bm _ _ F)) as [(k & bm' & Hk & Hfree & _ & -> & _ & Hwf & Hu)|(Hall & ->)];
    cbn [mbind outcome_bind]; [left|right; by destruct s].
  assert (in_range k) as Hr by (unfold in_range; lia).
  assert (¬ (used (pg_bm s0) k = true ∨ page_addr a k ∈ N)) as Hn by (rewrite <- (fh_used _ _ F) by done; congruence).
  destruct (page_addr_u64 a k Ha Hr) as [_ Hpos]. pose proof (page_addr_ok a s0 k Hi0 Hk) as Hok.
  exists (page_addr a k), (set_bm bm' s). split; [done|]. split; [lia|]. split; [done|]. split; [tauto|]. split; [|done].
  split; cbn [pg_bm pg_cr3 zero_table set_mem set_bm].
  - apply NoDup_cons. split; [tauto|apply F].
  - apply F.
  - done.
  - intros t [->|Ht]%elem_of_cons; [|by apply (fh_new _ _ F)]. exists k. split; [done|]. split; [done|].
    apply not_true_is_false. tauto.
  - intros j Hj. rewrite Hu by done. rewrite orb_true_iff, elem_of_cons, (fh_used _ _ F j Hj).
    assert ((k <=? j) && (j <? k + 1) = true ↔ page_addr a j = page_addr a k) as ->; [|tauto].
    split; [intros E; f_equal; revert E; zcases|intros E; apply page_addr_inj in E as ->; zcases].
  - intros t i Ht Hni Hi. change (ld64 (pg_mem (zero_table (set_bm bm' s) (page_addr a k))) (slot t i) = ld64 m0 (slot t i)).
    rewrite zero_table_ld by done. apply not_elem_of_cons in Hni as [Hne Hni]. rewrite bool_decide_eq_false_2 by done.
    by apply (fh_mem _ _ F).
Qed.

(** ** One page directory *)

Lemma clone_pd_new i src_pd new_pd : page_ok src_pd → page_ok new_pd → src_pd ≠ new_pd →
  ∀ n s k, 0 ≤ k → k + Z.of_nat n ≤ 512 →
  (∀ j, 0 ≤ j < 512 → ld64 (pg_mem s) (slot src_pd j) = ld64 m0 (slot src_pd j)) →
  (∀ j, k ≤ j < k + Z.of_nat n → ld64 (pg_mem s) (slot new_pd j) = 0) →
  ∃ m, clone_pd a s false i src_pd new_pd k n = Ret (true, set_mem m s) ∧
    ∀ t j, page_ok t → 0 ≤ j < 512 → ld64 m (slot t j) =
      if bool_decide (t = new_pd) && (k <=? j) && (j <? k + Z.of_nat n) then new_pde m0 i src_pd j else ld64 (pg_mem s) (slot t j).
Proof.
  intros Hs Hn Hne n. induction n as [|n IH]; intros s k Hk Hkn Hsrc Hz.
  { exists (pg_mem s). split; [by destruct s|]. intros t j Ht Hj. zcases; try lia; by rewrite ?andb_false_r. }
  assert (∃ m, clone_pd a s false i src_pd new_pd k (S n) = clone_pd a (set_mem m s) false i src_pd new_pd (k + 1) n ∧
    ∀ t j, page_ok t → 0 ≤ j < 512 → ld64 m (slot t j) =
      if bool_decide (t = new_pd) && (j =? k) then new_pde m0 i src_pd j else ld64 (pg_mem s) (slot t j)) as (m & -> & Hm).
  { cbn [clone_pd]. unfold pg_ld at 1 2. rewrite Hsrc by lia. set (e := ld64 m0 (slot src_pd k)).
    assert (∀ t j, page_ok t → 0 ≤ j < 512 → new_pde m0 i src_pd k = 0 → ld64 (pg_mem s) (slot t j) =
      if bool_decide (t = new_pd) && (j =? k) then new_pde m0 i src_pd j else ld64 (pg_mem s) (slot t j)) as Hskip.
    { intros t j Ht Hj E. case_bool_decide; cbn [andb]; [|done]. destruct (Z.eqb_spec j k) as [->|]; [|done].
      subst t. rewrite Hz, E by lia. done. }
    assert (new_pde m0 i src_pd k = if has e PAGE_PRESENT && (vbase i k <? PAGING_USER_CODE_ADDR) then e else 0) as He by done.
    destruct (has e PAGE_PRESENT); cbn [negb andb] in *.
    2: { exists (pg_mem s). split; [by destruct s|]. intros t j Ht Hj. by apply Hskip. }
    unfold clone_pde. fold (vbase i k). cbn [andb negb]. rewrite andb_true_r.
    destruct (Z.ltb_spec (vbase i k) PAGING_USER_CODE_ADDR) as [Hlt|Hge].
    - rewrite (proj2 (Z.leb_gt _ _) Hlt). cbn [mbind outcome_bind negb]. eexists. split; [done|].
      intros t j Ht Hj. rewrite st_ld by (done || lia). case_bool_decide; cbn [andb]; [|done].
      destruct (Z.eqb_spec j k) as [->|]; [by rewrite He|done].
    - rewrite (proj2 (Z.leb_le _ _) Hge). cbn [mbind outcome_bind negb].
      exists (pg_mem s). split; [by destruct s|]. intros t j Ht Hj. by apply Hskip. }
  destruct (IH (set_mem m s) (k + 1)) as (m' & -> & Hm'); [lia|lia| | |].
  { intros j Hj. cbn. rewrite Hm, bool_decide_eq_false_2 by done. by apply Hsrc. }
  { intros j Hj. cbn. rewrite Hm by (done || lia). rewrite (proj2 (Z.eqb_neq j k)), andb_false_r by lia. apply Hz. lia. }
  exists m'. split; [done|]. intros t j Ht Hj. rewrite Hm' by done. cbn [pg_mem set_mem]. rewrite Hm by done.
  case_bool_decide; cbn [andb]; [|done]. zcases; try lia; done.
Qed.

(** ** The directories below entry 0 *)

Abbreviation e0 := (ld64 m0 (slot src 0)).
Abbreviation src_pdpt := (entry_addr e0).
Context (Hlow : has e0 PAGE_PRESENT = true).

(** The directories built so far, by index. *)
Record built (l4 pdpt : Z) (L : list (Z * Z)) (s : pg) : Prop := {
  bu_fresh : fresh (L.*2 ++ [pdpt; l4]) s;
  bu_idx : NoDup L.*1;
  bu_in : ∀ i pd, (i, pd) ∈ L → 0 ≤ i < 512 ∧ i ≠ 1 ∧ has (ld64 m0 (slot src_pdpt i)) PAGE_PRESENT = true ∧
    ld64 (pg_mem s) (slot pdpt i) = Z.lor pd (table_flags (ld64 m0 (slot src_pdpt i))) ∧
    ∀ j, 0 ≤ j < 512 → ld64 (pg_mem s) (slot pd j) = new_pde m0 i (entry_addr (ld64 m0 (slot src_pdpt i))) j;
  bu_out : ∀ i, 0 ≤ i < 512 → i ∉ L.*1 → ld64 (pg_mem s) (slot pdpt i) = 0;
  bu_low : ld64 (pg_mem s) (slot l4 0) = Z.lor pdpt (table_flags e0);
  bu_high : ∀ i, 1 ≤ i < 512 → ld64 (pg_mem s) (slot l4 i) = ld64 m0 (slot src i)
}.

Lemma src_walk1 : walk m0 src [0] = Some src_pdpt.
Proof using Hi0 Hlow.
  change (next m0 src 0 = Some src_pdpt). unfold next, link.
  by rewrite Hlow, (tr_nohuge _ _ (pi_tree _ _ Hi0) [] src 0 (ok1 0 ltac:(lia)) ltac:(cbn; lia) eq_refl Hlow).
Qed.

Lemma src_nohuge i : 0 ≤ i < 512 → has (ld64 m0 (slot src_pdpt i)) PAGE_PRESENT = true →
  has (ld64 m0 (slot src_pdpt i)) PAGE_HUGE = false.
Proof using Hi0 Hlow.
  intros Hi. apply (tr_nohuge _ _ (pi_tree _ _ Hi0) [0] src_pdpt i (ok2 0 i ltac:(lia) Hi) ltac:(cbn; lia) src_walk1).
Qed.

Lemma src_walk2 i : 0 ≤ i < 512 → has (ld64 m0 (slot src_pdpt i)) PAGE_PRESENT = true →
  walk m0 src [0; i] = Some (entry_addr (ld64 m0 (slot src_pdpt i))).
Proof using Hi0 Hlow.
  intros Hi Hp. change (walk m0 src ([0] ++ [i]) = Some (entry_addr (ld64 m0 (slot src_pdpt i)))). rewrite walk_snoc, src_walk1. cbn [mbind option_bind].
  unfold next, link. by rewrite Hp, src_nohuge.
Qed.

Lemma scratch_index i : 0 ≤ i < 512 →
  overlaps_kernel_scratch (Z.shiftl i 30) (u64 (Z.shiftl i 30 + Z.shiftl 1 30)) = bool_decide (i = 1).
Proof.
  intros Hi. rewrite !Z.shiftl_mul_pow2 by lia. rewrite u64_small by lia. unfold overlaps_kernel_scratch, KERNEL_SCRATCH_VA.
  case_bool_decide; zcases; lia.
Qed.

(** One entry: a directory is added, the entry is skipped, or there is no page left. *)
Lemma clone_pdpte_new l4 pdpt L s i : built l4 pdpt L s → 0 ≤ i < 512 → i ∉ L.*1 →
  has (ld64 m0 (slot src_pdpt i)) PAGE_PRESENT = true →
  ∃ ok s', clone_pdpte a s false (ld64 m0 (slot src_pdpt i)) pdpt i = Ret (ok, s') ∧
    if (ok : bool) then (i = 1 ∧ built l4 pdpt L s') ∨ i ≠ 1 ∧ ∃ pd, built l4 pdpt ((i, pd) :: L) s'
    else built l4 pdpt L s' ∧ exhausted a s'.
Proof using Hi0 Hlow.
  intros B Hi Hni Hp. unfold clone_pdpte. rewrite scratch_index by done. set (e := ld64 m0 (slot src_pdpt i)) in *.
  case_bool_decide as E1; [exists true, s; split; [done|left; done]|].
  rewrite (src_nohuge i Hi Hp : has e PAGE_HUGE = false). pose proof (bu_fresh _ _ _ _ B) as F.
  set (N := L.*2 ++ [pdpt; l4]) in *.
  destruct (fresh_alloc N s F) as [(p & s1 & -> & Hp0 & Hpok & HpN & F1 & Hm1)|[-> Hex]]; cbn [mbind outcome_bind].
  2: { exists false, s. by rewrite Z.eqb_refl. }
  rewrite (proj2 (Z.eqb_neq p 0) Hp0).
  assert (pdpt ∈ N ∧ l4 ∈ N) as [Hpd Hl4] by (split; apply elem_of_app; right; set_solver).
  assert (l4 ≠ pdpt) as H4.
  { intros ->. pose proof (fh_nodup _ _ F) as Hd. unfold N in Hd. apply NoDup_app in Hd as (_ & _ & Hd).
    apply NoDup_cons in Hd as [Hd _]. apply Hd, list_elem_of_here. }
  pose proof (fresh_ok _ _ _ F Hpd) as Hpdok. pose proof (fresh_ok _ _ _ F Hl4) as Hl4ok.
  assert (p ≠ pdpt ∧ p ≠ l4) as [Hne Hne4] by (split; intros ->; done).
  destruct (fresh_walk _ _ [0; i] (entry_addr e) F1 (ok2 0 i ltac:(lia) Hi) (src_walk2 i Hi Hp)) as [[Hsp HsN]%not_elem_of_cons Hsok].
  set (s2 := pg_st (zero_table s1 p) (slot pdpt i) (Z.lor p (table_flags e))).
  assert (fresh (p :: N) s2) as F2 by (apply fresh_st; [done|by apply list_elem_of_further|done]).
  assert (∀ t j, page_ok t → 0 ≤ j < 512 → ld64 (pg_mem s2) (slot t j) =
    if bool_decide (t = pdpt) && (j =? i) then Z.lor p (table_flags e)
    else if bool_decide (t = p) then 0 else ld64 (pg_mem s) (slot t j)) as Hld2.
  { intros t j Ht Hj. unfold s2. cbn [pg_st pg_mem set_mem]. rewrite st_ld, zero_table_ld by done. by rewrite Hm1. }
  destruct (clone_pd_new i (entry_addr e) p Hsok Hpok Hsp 512 s2 0) as (m & -> & Hm); [lia|lia| | |].
  { intros j Hj. rewrite Hld2 by done. rewrite !bool_decide_eq_false_2 by (done || intros E; by rewrite E in HsN). cbn [andb].
    by apply (fh_mem _ _ F). }
  { intros j Hj. rewrite Hld2 by (done || lia). by rewrite (bool_decide_eq_false_2 (p = pdpt)), (bool_decide_eq_true_2 (p = p)). }
  exists true. eexists. split; [done|]. right. split; [done|]. exists p.
  assert (∀ t j, page_ok t → 0 ≤ j < 512 → ld64 m (slot t j) =
    if bool_decide (t = p) then new_pde m0 i (entry_addr e) j
    else if bool_decide (t = pdpt) && (j =? i) then Z.lor p (table_flags e) else ld64 (pg_mem s) (slot t j)) as Hld.
  { intros t j Ht Hj. rewrite Hm, Hld2 by done. rewrite (proj2 (Z.leb_le 0 j)), (proj2 (Z.ltb_lt j _)), !andb_true_r by lia.
    case_bool_decide; [done|]. done. }
  split; cbn [pg_mem set_mem].
  - change (((i, p) :: L).*2 ++ [pdpt; l4]) with (p :: N). apply fresh_write; [done|]. intros t j Ht Hn Hj.
    apply not_elem_of_cons in Hn as [? _]. rewrite Hm by done. by rewrite bool_decide_eq_false_2.
  - cbn [fmap list_fmap fst]. apply NoDup_cons. split; [done|apply B].
  - intros i' pd [[= -> ->]|Hin]%elem_of_cons.
    + split; [done|]. split; [done|]. split; [done|]. split.
      * rewrite Hld by done. rewrite bool_decide_eq_false_2, bool_decide_eq_true_2, Z.eqb_refl by done. done.
      * intros j Hj. rewrite Hld by done. by rewrite bool_decide_eq_true_2.
    + destruct (bu_in _ _ _ _ B i' pd Hin) as (Hi' & Hi1 & Hp' & He' & Hpds).
      assert (pd ∈ N) as HpdN by (apply elem_of_app; left; apply list_elem_of_fmap; by exists (i', pd)).
      assert (i' ≠ i) by (intros ->; apply Hni, list_elem_of_fmap; by exists (i, pd)).
      assert (pd ≠ pdpt) by (intros ->; pose proof (fh_nodup _ _ F) as Hd; unfold N in Hd; apply NoDup_app in Hd as (_ & Hd & _);
        apply (Hd pdpt); [apply list_elem_of_fmap; by exists (i', pdpt)|apply list_elem_of_here]).
      split; [done|]. split; [done|]. split; [done|]. split.
      * rewrite Hld by done. rewrite bool_decide_eq_false_2 by done. rewrite (proj2 (Z.eqb_neq i' i)), andb_false_r by done. done.
      * intros j Hj. assert (pd ≠ p) by (intros ->; done). rewrite Hld by (done || by apply (fresh_ok N s)).
        rewrite !bool_decide_eq_false_2 by done. cbn [andb]. by apply Hpds.
  - intros i' Hi' [Hne' Hni']%not_elem_of_cons. cbn [fst] in Hne'. rewrite Hld by done. rewrite bool_decide_eq_false_2 by done.
    rewrite (proj2 (Z.eqb_neq i' i)), andb_false_r by done. by apply (bu_out _ _ _ _ B).
  - rewrite Hld by (done || lia). rewrite !bool_decide_eq_false_2 by done. apply (bu_low _ _ _ _ B).
  - intros j Hj. rewrite Hld by (done || lia). rewrite !bool_decide_eq_false_2 by done. by apply (bu_high _ _ _ _ B).
Qed.

Lemma clone_pdpt_new l4 pdpt n : ∀ s k L, built l4 pdpt L s → 0 ≤ k → k + Z.of_nat n = 512 → (∀ i, i ∈ L.*1 → i < k) →
  ∃ ok s' L', clone_pdpt a s false src_pdpt pdpt k n = Ret (ok, s') ∧ built l4 pdpt L' s' ∧ (∀ i, i ∈ L.*1 → i ∈ L'.*1) ∧
    if (ok : bool) then ∀ i, k ≤ i < 512 → has (ld64 m0 (slot src_pdpt i)) PAGE_PRESENT = true → i ≠ 1 → i ∈ L'.*1
    else exhausted a s'.
Proof using Hi0 Hlow.
  induction n as [|n IH]; intros s k L B Hk Hkn Hlt.
  { exists true, s, L. split; [done|]. split; [done|]. split; [done|]. intros i Hi. lia. }
  cbn [clone_pdpt]. unfold pg_ld. pose proof (bu_fresh _ _ _ _ B) as F.
  destruct (fresh_walk _ _ [0] src_pdpt F (ok1 0 ltac:(lia)) src_walk1) as [HsN Hsok].
  rewrite (fh_mem _ _ F src_pdpt k) by (done || lia).
  destruct (has (ld64 m0 (slot src_pdpt k)) PAGE_PRESENT) eqn:Hp; cbn [negb].
  2: { destruct (IH s (k + 1) L B) as (ok & s' & L' & -> & B' & Hin & Hr); [lia|lia|intros i Hi; specialize (Hlt i Hi); lia|].
       exists ok, s', L'. split; [done|]. split; [done|]. split; [done|]. destruct ok; [|done].
       intros i Hi Hp' Hi1. destruct (decide (i = k)) as [->|]; [congruence|]. apply Hr; [lia|done..]. }
  destruct (clone_pdpte_new l4 pdpt L s k B ltac:(lia) ltac:(intros ?%Hlt; lia) Hp) as (ok & s1 & -> & Hr). cbn [mbind outcome_bind].
  destruct ok; cbn [negb].
  2: { destruct Hr. exists false, s1, L. done. }
  assert (∃ L1, built l4 pdpt L1 s1 ∧ (∀ i, i ∈ L1.*1 → i < k + 1) ∧ (∀ i, i ∈ L.*1 → i ∈ L1.*1) ∧ (k ≠ 1 → k ∈ L1.*1)) as (L1 & B1 & Hlt1 & Hin1 & Hk1).
  { destruct Hr as [[-> B1]|(Hk1 & pd & B1)].
    - exists L. split; [done|]. split; [intros i Hi; specialize (Hlt i Hi); lia|]. done.
    - exists ((k, pd) :: L). split; [done|]. split; [|split].
      + intros i [->|Hi]%elem_of_cons; [cbn; lia|]. specialize (Hlt i Hi). lia.
      + intros i Hi. by apply list_elem_of_further.
      + intros _. apply list_elem_of_here. }
  destruct (IH s1 (k + 1) L1 B1) as (ok & s' & L' & -> & B' & Hin & Hr'); [lia|lia|done|].
  exists ok, s', L'. split; [done|]. split; [done|]. split; [auto|]. destruct ok; [|done].
  intros i Hi Hp' Hi1. destruct (decide (i = k)) as [->|]; [auto|]. apply Hr'; [lia|done..].
Qed.

(** ** Giving everything back *)

Lemma hits_page k j : hits a (page_addr a k) j ↔ memory_start a ≤ page_addr a k ∧ k = j.
Proof.
  unfold hits, page_addr. rewrite Z.add_simpl_l, Z.div_mul by done. tauto.
Qed.

(** A run that frees all the new pages. *)
Lemma fresh_freed N s P s' : fresh N s → frees a s P s' → (∀ x, P x ↔ x ∈ N) →
  ∀ j, in_range j → used (pg_bm s') j = used (pg_bm s0) j.
Proof.
  intros F Fr HP j Hj. apply eq_true_iff_eq. rewrite (fr_used _ _ _ _ Fr j Hj), (fh_used _ _ F j Hj). split.
  - intros [[Hu|Hin] Hn]; [done|]. exfalso. destruct (fh_new _ _ F _ Hin) as (k & Hk & E & _).
    apply (Hn (page_addr a j)); [by apply HP|]. apply hits_page. split; [|done]. unfold page_addr, in_range, PMM_PAGE_SIZE in *. lia.
  - intros Hu. split; [by left|]. intros x Hx Hh. apply HP in Hx. destruct (fh_new _ _ F x Hx) as (k & Hk & -> & Hf).
    apply hits_page in Hh as [_ ->]. congruence.
Qed.

(** What a construction that fails leaves. *)
Record undone (s' : pg) : Prop := {
  ud_cr3 : pg_cr3 s' = pg_cr3 s0;
  ud_bm : bm_wf (pg_bm s');
  ud_used : ∀ j, in_range j → used (pg_bm s') j = used (pg_bm s0) j;
  ud_mem : ∀ t i, page_ok t → not_free a (pg_bm s0) t → 0 ≤ i < 512 → ld64 (pg_mem s') (slot t i) = ld64 m0 (slot t i)
}.

Lemma fresh_undone N s P s' : fresh N s → frees a s P s' → (∀ x, P x ↔ x ∈ N) → undone s'.
Proof.
  intros F Fr HP. pose proof (fr_same _ _ _ _ Fr) as E. split.
  - rewrite E. apply F.
  - apply Fr.
  - by eapply fresh_freed.
  - intros t i Ht Hn Hi. rewrite E. cbn. apply (fh_mem _ _ F); [done|by eapply fresh_old|done].
Qed.

Lemma low_pde_kept i src_pd j : has (new_pde m0 i src_pd j) PAGE_PRESENT = true → vbase i j < PAGING_USER_CODE_ADDR.
Proof. unfold new_pde. destruct (_ && _) eqn:E; [|by rewrite has_0]. intros _. apply andb_true_iff in E as [_ E]. by apply Z.ltb_lt. Qed.

Lemma built_owned l4 pdpt L s x : built l4 pdpt L s → owned (pg_mem s) (mkHandle l4 true) x ↔ x ∈ L.*2 ++ [pdpt; l4].
Proof using Hi0 Hlow.
  intros B. pose proof (bu_fresh _ _ _ _ B) as F. unfold owned. cbn [phys owns_user_leaves]. rewrite (bu_low _ _ _ _ B).
  assert (page_ok pdpt) as Hpd by (apply (fresh_ok _ _ _ F), elem_of_app; right; apply list_elem_of_here).
  destruct (new_table_entry pdpt e0 Hpd Hlow) as (-> & _ & ->). rewrite elem_of_app, !elem_of_cons. split.
  - intros [->|[_ [->|(i & Hi & Hx)]]]; [tauto|tauto|]. left. unfold owns_pdpte in Hx. destruct Hx as (Hp & _ & Hx).
    destruct (decide (i ∈ L.*1)) as [Hin|Hn]; [|by rewrite (bu_out _ _ _ _ B i Hi Hn), has_0 in Hp].
    apply list_elem_of_fmap in Hin as ([i' pd] & -> & Hin). cbn [fst] in *.
    destruct (bu_in _ _ _ _ B i' pd Hin) as (_ & _ & Hp' & E & Hpde). rewrite E in Hx.
    assert (page_ok pd) as Hpdo by (apply (fresh_ok _ _ _ F), elem_of_app; left; apply list_elem_of_fmap; by exists (i', pd)).
    destruct (new_table_entry pd _ Hpdo Hp') as (_ & _ & Ea). rewrite Ea in Hx.
    destruct Hx as [->|(j & Hj & Hpr & Hv & _)]; [apply list_elem_of_fmap; by exists (i', pd)|]. exfalso.
    rewrite Hpde in Hpr by done. apply low_pde_kept in Hpr. unfold vbase in Hpr. lia.
  - intros [([i pd] & -> & Hin)%list_elem_of_fmap|[->|[->|?%not_elem_of_nil]]]; [|right; split; [done|by left]|by left|done].
    destruct (bu_in _ _ _ _ B i pd Hin) as (Hi & _ & Hp' & E & Hpde). right. split; [done|right]. exists i. split; [done|].
    assert (page_ok pd) as Hpdo by (apply (fresh_ok _ _ _ F), elem_of_app; left; apply list_elem_of_fmap; by exists (i, pd)).
    unfold owns_pdpte. rewrite E. destruct (new_table_entry pd _ Hpdo Hp') as (-> & -> & ->). cbn. auto.
Qed.

(** ** The whole construction *)

(** The finished address space. *)
Definition whole (l4 pdpt : Z) (L : list (Z * Z)) (s : pg) : Prop :=
  built l4 pdpt L s ∧ ∀ i, 0 ≤ i < 512 → has (ld64 m0 (slot src_pdpt i)) PAGE_PRESENT = true → i ≠ 1 → i ∈ L.*1.

Lemma clone_low_new l4 s : fresh [l4] s → ld64 (pg_mem s) (slot l4 0) = 0 →
  (∀ i, 1 ≤ i < 512 → ld64 (pg_mem s) (slot l4 i) = ld64 m0 (slot src i)) →
  ∃ ok s', clone_low a s false src l4 = Ret (ok, s') ∧
    if (ok : bool) then ∃ pdpt L, whole l4 pdpt L s'
    else ∃ s'', destroy_uncommitted_pml4 a s' (mkHandle l4 true) = Ret s'' ∧ undone s''.
Proof using Hi0 Hlow.
  intros F Hz Hhigh. unfold clone_low, pg_ld. destruct (fresh_walk _ _ [] src F) as [HsN Hsok]; [split; [cbn; lia|by apply Forall_nil]|done|].
  rewrite (fh_mem _ _ F src 0) by (done || lia). rewrite Hlow. cbn [negb].
  destruct (fresh_alloc [l4] s F) as [(p & s1 & -> & Hp0 & Hpok & HpN & F1 & Hm1)|[-> Hex]]; cbn [mbind outcome_bind].
  2: { rewrite Z.eqb_refl. exists false, s. split; [done|]. destruct (destroy_frees a s (mkHandle l4 true) (fh_bm _ _ F)) as (s'' & -> & Fr).
       exists s''. split; [done|]. eapply (fresh_undone [l4]); [done..|]. intros x. unfold owned. cbn [phys].
       rewrite Hz, has_0, list_elem_of_singleton. naive_solver. }
  rewrite (proj2 (Z.eqb_neq p 0) Hp0). apply not_elem_of_cons in HpN as [Hne _].
  assert (page_ok l4) as Hl4 by (apply (fresh_ok _ _ _ F), list_elem_of_here).
  set (s2 := pg_st (zero_table s1 p) (slot l4 0) (Z.lor p (table_flags e0))).
  assert (∀ t j, page_ok t → 0 ≤ j < 512 → ld64 (pg_mem s2) (slot t j) =
    if bool_decide (t = l4) && (j =? 0) then Z.lor p (table_flags e0)
    else if bool_decide (t = p) then 0 else ld64 (pg_mem s) (slot t j)) as Hld.
  { intros t j Ht Hj. unfold s2. cbn [pg_st pg_mem set_mem]. rewrite st_ld, zero_table_ld by (done || lia). by rewrite Hm1. }
  assert (built l4 p [] s2) as B.
  { split.
    - apply fresh_st; [done|apply list_elem_of_further, list_elem_of_here|lia].
    - apply NoDup_nil_2.
    - by intros i pd ?%not_elem_of_nil.
    - intros i Hi _. rewrite Hld by done. by rewrite bool_decide_eq_false_2, bool_decide_eq_true_2.
    - rewrite Hld by (done || lia). by rewrite bool_decide_eq_true_2.
    - intros i Hi. rewrite Hld by (done || lia). rewrite (bool_decide_eq_true_2 (l4 = l4)), (bool_decide_eq_false_2 (l4 = p)) by done.
      rewrite (proj2 (Z.eqb_neq i 0)) by lia. by apply Hhigh. }
  destruct (clone_pdpt_new l4 p 512 s2 0 [] B) as (ok & s' & L & -> & B' & _ & Hr); [lia|lia|by intros i ?%not_elem_of_nil|].
  exists ok, s'. split; [done|]. destruct ok; [by exists p, L|].
  destruct (destroy_frees a s' (mkHandle l4 true) (fh_bm _ _ (bu_fresh _ _ _ _ B'))) as (s'' & -> & Fr).
  exists s''. split; [done|]. eapply fresh_undone; [apply B'|done|]. intros x. by apply built_owned.
Qed.

(** A new root, empty but for the entries other than 0 of the active one. *)
Lemma new_root p s1 : p ≠ src → page_ok p → fresh [p] (zero_table s1 p) → pg_mem s1 = m0 →
  let s := set_mem (copy_entries (pg_mem (zero_table s1 p)) src p 1 511) (zero_table s1 p) in
  fresh [p] s ∧ ld64 (pg_mem s) (slot p 0) = 0 ∧ ∀ i, 1 ≤ i < 512 → ld64 (pg_mem s) (slot p i) = ld64 m0 (slot src i).
Proof using Hi0.
  intros Hne Hpok F1 Hm1. destruct (fresh_walk _ _ [] src F1) as [_ Hsok]; [split; [cbn; lia|by apply Forall_nil]|done|].
  assert (∀ t j, page_ok t → 0 ≤ j < 512 → ld64 (pg_mem (zero_table s1 p)) (slot t j) =
    if bool_decide (t = p) then 0 else ld64 m0 (slot t j)) as Hz by (intros; rewrite zero_table_ld, Hm1; done).
  revert Hz F1. generalize (zero_table s1 p). intros s1z Hz F1. cbv zeta. cbn [pg_mem set_mem].
  set (m2 := copy_entries (pg_mem s1z) src p 1 511).
  assert (∀ t j, page_ok t → 0 ≤ j < 512 → ld64 m2 (slot t j) =
    if bool_decide (t = p) then if j =? 0 then 0 else ld64 m0 (slot src j) else ld64 m0 (slot t j)) as Hld.
  { intros t j Ht Hj. unfold m2. rewrite copy_entries_ld, !Hz by (done || lia).
    rewrite (bool_decide_eq_false_2 (src = p)) by done. case_bool_decide; cbn [andb]; [|done]. zcases; try lia; done. }
  clearbody m2. split; [|split].
  - apply fresh_write; [done|]. intros t i Ht Hn Hi. apply not_elem_of_cons in Hn as [Hn _].
    rewrite Hld, Hz by done. by rewrite !bool_decide_eq_false_2.
  - rewrite Hld by (done || lia). by rewrite bool_decide_eq_true_2.
  - intros i Hi. rewrite Hld by (done || lia). rewrite bool_decide_eq_true_2 by done. by rewrite (proj2 (Z.eqb_neq i 0)) by lia.
Qed.

Lemma create_new : ∃ o s', create_pml4 a s0 false = Ret (o, s') ∧
  match o with
  | None => undone s'
  | Some h => owns_user_leaves h = true ∧ ∃ pdpt L, whole (phys h) pdpt L s'
  end.
Proof using Hi0 Hlow.
  unfold create_pml4. cbn [mbind outcome_bind negb]. destruct (fresh_alloc [] s0 fresh_nil) as [(p & s1 & -> & Hp0 & Hpok & _ & F1 & Hm1)|[-> Hex]];
    cbn [mbind outcome_bind].
  2: { exists None, s0. rewrite Z.eqb_refl. split; [done|]. split; auto. apply Hi0. }
  rewrite (proj2 (Z.eqb_neq p 0) Hp0).
  destruct (fresh_walk _ _ [] src F1) as [[Hne _]%not_elem_of_cons _]; [split; [cbn; lia|by apply Forall_nil]|done|].
  destruct (new_root p s1 ltac:(done) Hpok F1 Hm1) as (F2 & E0 & Eh).
  revert F2 E0 Eh. generalize (set_mem (copy_entries (pg_mem (zero_table s1 p)) src p 1 511) (zero_table s1 p)). intros s2 F2 E0 Eh.
  destruct (clone_low_new p s2 F2 E0 Eh) as (ok & s' & -> & Hr). cbn [mbind outcome_bind]. destruct ok; cbn [negb].
  - exists (Some (mkHandle p true)), s'. done.
  - destruct Hr as (s'' & -> & Hu). cbn [mbind outcome_bind cleanup_if]. by exists None, s''.
Qed.

(** ** The new tables as a tree *)

Section whole.
Context (l4 pdpt : Z) (L : list (Z * Z)) (s : pg) (W : whole l4 pdpt L s).
Abbreviation N := (L.*2 ++ [pdpt; l4]).

Lemma wh_fresh : fresh N s.
Proof using W. apply W. Qed.

Lemma wh_l4 : l4 ∈ N.
Proof. apply elem_of_app. right. apply list_elem_of_further, list_elem_of_here. Qed.

Lemma wh_pdpt : pdpt ∈ N.
Proof. apply elem_of_app. right. apply list_elem_of_here. Qed.

Lemma wh_pd i pd : (i, pd) ∈ L → pd ∈ N.
Proof. intros Hin. apply elem_of_app. left. apply list_elem_of_fmap. by exists (i, pd). Qed.

Hint Resolve wh_fresh wh_l4 wh_pdpt wh_pd fresh_ok : core.

Definition new_at (path : list Z) (t : Z) : Prop :=
  (path = [] ∧ t = l4) ∨ (path = [0] ∧ t = pdpt) ∨ ∃ i, path = [0; i] ∧ (i, t) ∈ L.

Lemma new_at_in path t : new_at path t → t ∈ N.
Proof. intros [[_ ->]|[[_ ->]|(i & _ & Hin)]]; eauto. Qed.

Lemma new_at_inj p1 p2 t : new_at p1 t → new_at p2 t → p1 = p2.
Proof using Hi0 W.
  pose proof (fh_nodup _ _ wh_fresh) as Hd. apply NoDup_app in Hd as (Hd1 & Hd2 & Hd3). apply NoDup_cons in Hd3 as [Hd3 _].
  assert (∀ i, (i, pdpt) ∉ L) as Hn1 by (intros i Hin; apply (Hd2 pdpt); [apply list_elem_of_fmap; by exists (i, pdpt)|apply list_elem_of_here]).
  assert (∀ i, (i, l4) ∉ L) as Hn2
    by (intros i Hin; apply (Hd2 l4); [apply list_elem_of_fmap; by exists (i, l4)|apply list_elem_of_further, list_elem_of_here]).
  assert (pdpt ≠ l4) as Hn3 by (intros E; apply Hd3; rewrite E; apply list_elem_of_here).
  intros [[-> E1]|[[-> E1]|(i & -> & E1)]] [[-> E2]|[[-> E2]|(j & -> & E2)]]; subst; try done; try (by destruct (Hn1 _ E1));
    try (by destruct (Hn1 _ E2)); try (by destruct (Hn2 _ E1)); try (by destruct (Hn2 _ E2)).
  apply list_elem_of_lookup in E1 as [x E1], E2 as [y E2].
  assert (x = y) as ->; [|rewrite E1 in E2; by injection E2 as ->].
  eapply (NoDup_lookup L.*2); [done|by rewrite list_lookup_fmap, E1|by rewrite list_lookup_fmap, E2].
Qed.

(** An entry of the new PDPT. *)
Lemma pdpt_entry i : 0 ≤ i < 512 →
  (ld64 (pg_mem s) (slot pdpt i) = 0 ∧ (i ∉ L.*1)) ∨
  ∃ pd, (i, pd) ∈ L ∧ let e := ld64 (pg_mem s) (slot pdpt i) in
    has e PAGE_PRESENT = true ∧ has e PAGE_HUGE = false ∧ entry_addr e = pd.
Proof using Hi0 W.
  intros Hi. destruct W as [B _]. destruct (decide (i ∈ L.*1)) as [Hin|Hn]; [right|left; by rewrite (bu_out _ _ _ _ B i Hi Hn)].
  apply list_elem_of_fmap in Hin as ([i' pd] & -> & Hin). cbn [fst] in *. exists pd. split; [done|]. cbv zeta.
  destruct (bu_in _ _ _ _ B _ pd Hin) as (_ & _ & Hp & -> & _). apply new_table_entry; eauto.
Qed.

Lemma l4_entry : let e := ld64 (pg_mem s) (slot l4 0) in
  has e PAGE_PRESENT = true ∧ has e PAGE_HUGE = false ∧ entry_addr e = pdpt.
Proof using Hi0 Hlow W. cbv zeta. rewrite (bu_low _ _ _ _ (proj1 W)). apply new_table_entry; eauto. Qed.

Lemma wh_walk1 : walk (pg_mem s) l4 [0] = Some pdpt.
Proof using Hi0 Hlow W. change (next (pg_mem s) l4 0 = Some pdpt). unfold next, link. destruct l4_entry as (-> & -> & ->). done. Qed.

Lemma wh_walk2 i t : 0 ≤ i < 512 → walk (pg_mem s) l4 [0; i] = Some t → (i, t) ∈ L.
Proof using Hi0 Hlow W.
  intros Hi. change [0; i] with ([0] ++ [i]). rewrite walk_snoc, wh_walk1. cbn [mbind option_bind]. unfold next, link.
  destruct (pdpt_entry i Hi) as [[-> _]|(pd & Hin & -> & -> & ->)]; [by rewrite has_0|]. by intros [= <-].
Qed.

Lemma whole_walk path t : ok_path path → walk (pg_mem s) l4 path = Some t →
  new_at path t ∨ (t ∉ N) ∧ walk m0 src path = Some t.
Proof using Hi0 Hlow W.
  revert t. induction path as [|i path IH] using rev_ind; intros t Hp Hw; [injection Hw as <-; left; by left|].
  pose proof (ok_path_snoc _ _ Hp) as (Hp' & Hi & Hlen). rewrite walk_snoc in Hw. destruct (walk (pg_mem s) l4 path) as [t'|] eqn:Hw'; [|done].
  cbn [mbind option_bind] in Hw.
  assert (∀ t'', walk m0 src path = Some t'' → next m0 t'' i = Some t → (t ∉ N) ∧ walk m0 src (path ++ [i]) = Some t) as Hold.
  { intros t'' H1 H2. assert (walk m0 src (path ++ [i]) = Some t) as H3 by (rewrite walk_snoc, H1; done). split; [|done].
    by destruct (fresh_walk _ _ _ _ wh_fresh Hp H3). }
  destruct (IH t' Hp' eq_refl) as [[[-> ->]|[[-> ->]|(i' & -> & Hin)]]|[Hn Hw0]].
  - destruct (decide (i = 0)) as [->|Hne].
    + left. right. left. split; [done|]. revert Hw. unfold next, link. destruct l4_entry as (-> & -> & ->). by intros [=].
    + right. apply (Hold src); [done|]. revert Hw. unfold next. rewrite (bu_high _ _ _ _ (proj1 W)) by lia. done.
  - destruct (pdpt_entry i Hi) as [[E _]|(pd & Hin & H1 & H2 & H3)]; revert Hw; unfold next, link; [by rewrite E, has_0|].
    rewrite H1, H2, H3. intros [= <-]. left. right. right. by exists i.
  - right. destruct (bu_in _ _ _ _ (proj1 W) i' t' Hin) as (Hi' & _ & Hp2 & _ & Hpde).
    apply (Hold (entry_addr (ld64 m0 (slot src_pdpt i')))); [by apply src_walk2|].
    revert Hw. unfold next. rewrite Hpde by done. unfold new_pde. destruct (_ && _); [done|]. unfold link. by rewrite has_0.
  - right. apply (Hold t'); [done|]. destruct (fresh_walk _ _ _ _ wh_fresh Hp' Hw0) as [_ Hok].
    revert Hw. unfold next. by rewrite (fh_mem _ _ wh_fresh t' i).
Qed.

Lemma whole_tree : tree (pg_mem s) l4.
Proof using Hi0 Hlow W.
  split.
  - intros path t Hp [Hn|[Hn Hw]]%(whole_walk _ _ Hp); [eapply fresh_ok; [apply wh_fresh|by eapply new_at_in]|].
    by apply (tr_ok _ _ (pi_tree _ _ Hi0) path).
  - intros p1 p2 t H1 H2 [N1|[N1 W1]]%(whole_walk _ _ H1) [N2|[N2 W2]]%(whole_walk _ _ H2).
    + by eapply new_at_inj.
    + by destruct N2; eapply new_at_in.
    + by destruct N1; eapply new_at_in.
    + by eapply (tr_inj _ _ (pi_tree _ _ Hi0)).
  - intros path t i Hp Hlen Hw Hpr. pose proof (ok_path_snoc _ _ Hp) as (Hp' & Hi & _).
    destruct (whole_walk _ _ Hp' Hw) as [[[-> ->]|[[-> ->]|(i' & -> & _)]]|[Hn Hw0]]; [| |cbn in Hlen; lia|].
    + destruct (decide (i = 0)) as [->|Hne]; [apply l4_entry|]. revert Hpr. rewrite (bu_high _ _ _ _ (proj1 W)) by lia.
      by apply (tr_nohuge _ _ (pi_tree _ _ Hi0) [] src i).
    + destruct (pdpt_entry i Hi) as [[E _]|(pd & _ & _ & H2 & _)]; [by rewrite E, has_0 in Hpr|done].
    + destruct (fresh_walk _ _ _ _ wh_fresh Hp' Hw0) as [_ Hok]. revert Hpr. rewrite (fh_mem _ _ wh_fresh t i) by done.
      by apply (tr_nohuge _ _ (pi_tree _ _ Hi0) path t i).
Qed.

Lemma whole_root : read_cr3 (set_cr3 l4 s) = l4.
Proof using Hi0 W.
  unfold read_cr3. cbn. rewrite <- (Z.lor_0_r l4) at 1. apply entry_addr_page; [eauto|]. intros. apply Z.bits_0.
Qed.

Lemma used_mono j : 0 ≤ j < total_pages a → used (pg_bm s0) j = true → used (pg_bm s) j = true.
Proof using Hi0 W.
  intros Hj Hu. pose proof (pi_pmm _ _ Hi0) as (Htp & _). apply (fh_used _ _ wh_fresh); [unfold in_range; lia|by left].
Qed.

Lemma whole_inv : pt_inv a (set_cr3 l4 s).
Proof using Hi0 Hlow W.
  split; try apply Hi0; [apply wh_fresh|rewrite whole_root; apply whole_tree|]. rewrite whole_root.
  intros path t Hp [Hn|[Hn Hw]]%(whole_walk _ _ Hp) k Hk E; cbn [pg_bm set_cr3].
  - pose proof (pi_pmm _ _ Hi0) as (Htp & _). apply (fh_used _ _ wh_fresh); [unfold in_range; lia|right]. rewrite <- E. by eapply new_at_in.
  - apply used_mono; [done|]. by apply (pi_used _ _ Hi0 path t).
Qed.

Lemma whole_translate v : 0 ≤ v < 2 ^ 48 → translate_in_pml4 s v l4 =
  if (PAGING_USER_CODE_ADDR <=? v) && (v <? 2 ^ 39) then None else translate s0 v.
Proof using Hi0 Hlow W.
  intros Hv. destruct (index_parts v Hv) as (H4 & H3 & H2 & Hlo). pose proof (index_at_range v 39). pose proof (index_at_range v 30).
  pose proof (index_at_range v 21). pose proof (index_at_range v 12). unfold translate, translate_in_pml4, indices, pg_ld.
  set (i4 := index_at v 39) in *. set (i3 := index_at v 30) in *. set (i2 := index_at v 21) in *. set (i1 := index_at v 12) in *.
  assert (∀ path t j, ok_path path → walk m0 src path = Some t → 0 ≤ j < 512 → ld64 (pg_mem s) (slot t j) = ld64 m0 (slot t j)) as Hsame.
  { intros path t j Hp Hw Hj. destruct (fresh_walk _ _ _ _ wh_fresh Hp Hw). by apply (fh_mem _ _ wh_fresh). }
  destruct (decide (i4 = 0)) as [E4|N4].
  - rewrite E4. destruct l4_entry as (-> & _ & ->). cbn [negb]. rewrite Hlow. cbn [negb].
    rewrite (proj2 (Z.ltb_lt v (2 ^ 39))), andb_true_r by lia.
    assert (vbase i3 i2 = i3 * 2 ^ 30 + i2 * 2 ^ 21) as Hb by (by apply vbase_eq).
    assert (PAGING_USER_CODE_ADDR ≤ v ↔ PAGING_USER_CODE_ADDR ≤ vbase i3 i2) as Hu
      by (change PAGING_USER_CODE_ADDR with (16 * 2 ^ 21); lia).
    assert (i3 = 1 → PAGING_USER_CODE_ADDR ≤ vbase i3 i2) as Hone by (intros E; rewrite Hb, E; change PAGING_USER_CODE_ADDR with (16 * 2 ^ 21); lia).
    destruct (pdpt_entry i3 ltac:(done)) as [[-> Hn]|(pd & Hin & -> & _ & ->)].
    + rewrite has_0. cbn [negb]. destruct (Z.leb_spec PAGING_USER_CODE_ADDR v); [done|].
      destruct (has (ld64 m0 (slot src_pdpt i3)) PAGE_PRESENT) eqn:Hp; [|done]. exfalso. apply Hn, (proj2 W); [done|done|]. intros E. lia.
    + cbn [negb]. destruct (bu_in _ _ _ _ (proj1 W) i3 pd Hin) as (_ & _ & Hp & _ & Hpde). rewrite Hpde, Hp by done. cbn [negb].
      unfold new_pde. set (e := ld64 m0 (slot (entry_addr (ld64 m0 (slot src_pdpt i3))) i2)).
      destruct (Z.leb_spec PAGING_USER_CODE_ADDR v) as [Hge|Hlt].
      { rewrite (proj2 (Z.ltb_ge _ _)), andb_false_r, has_0 by lia. done. }
      rewrite (proj2 (Z.ltb_lt _ _)), andb_true_r by lia. destruct (has e PAGE_PRESENT) eqn:Hpe; [|by rewrite has_0].
      cbn [negb]. destruct (has e PAGE_HUGE) eqn:Hhe; [by rewrite Hpe|]. rewrite Hpe. cbn [negb].
      rewrite (Hsame [0; i3; i2]); [done|by apply ok3; [lia|..]| |done].
      rewrite walk3, (src_walk2 i3) by done. cbn [mbind option_bind]. unfold next, link. fold e. by rewrite Hpe, Hhe.
  - rewrite (bu_high _ _ _ _ (proj1 W)) by lia. rewrite (proj2 (Z.ltb_ge v (2 ^ 39))), andb_false_r by lia.
    destruct (has (ld64 m0 (slot src i4)) PAGE_PRESENT) eqn:P4; cbn [negb]; [|done].
    pose proof (tr_nohuge _ _ (pi_tree _ _ Hi0) [] src i4 (ok1 i4 ltac:(done)) ltac:(cbn; lia) eq_refl P4) as G4.
    assert (walk m0 src [i4] = Some (entry_addr (ld64 m0 (slot src i4)))) as W1 by (change (next m0 src i4 = Some (entry_addr (ld64 m0 (slot src i4)))); unfold next, link; by rewrite P4, G4).
    rewrite (Hsame [i4]) by auto with vibix. set (e3 := ld64 m0 (slot (entry_addr (ld64 m0 (slot src i4))) i3)) in *.
    destruct (has e3 PAGE_PRESENT) eqn:P3; cbn [negb]; [|done].
    pose proof (tr_nohuge _ _ (pi_tree _ _ Hi0) [i4] _ i3 (ok2 i4 i3 ltac:(done) ltac:(done)) ltac:(cbn; lia) W1 P3) as G3. fold e3 in G3.
    assert (walk m0 src [i4; i3] = Some (entry_addr e3)) as W2 by (change [i4; i3] with ([i4] ++ [i3]); rewrite walk_snoc, W1; cbn [mbind option_bind];
      unfold next, link; fold e3; by rewrite P3, G3).
    rewrite (Hsame [i4; i3]) by auto with vibix. set (e2 := ld64 m0 (slot (entry_addr e3) i2)) in *.
    destruct (has e2 PAGE_PRESENT) eqn:P2; cbn [negb]; [|done]. destruct (has e2 PAGE_HUGE) eqn:G2; [done|].
    rewrite (Hsame [i4; i3; i2]); [done|by auto with vibix| |done].
    rewrite walk3, W2. cbn [mbind option_bind]. unfold next, link. fold e2. by rewrite P2, G2.
Qed.

(** The tables on the way to a user page are new; all others were in use before. *)
Lemma whole_room v path t : room v → path `prefix_of` path_of v → walk (pg_mem s) l4 path = Some t → t ∈ N.
Proof using Hi0 Hlow W.
  intros Hv Hp Hw. pose proof (index_at_range v 39). pose proof (index_at_range v 30). pose proof (index_at_range v 21).
  assert (ok_path path) as Hok by (apply (ok_path_prefix (path_of v)); [by apply ok3|done]).
  destruct (room_index v Hv) as [Hz Hb].
  destruct (whole_walk path t Hok Hw) as [Hn|[Hn _]]; [by eapply new_at_in|].
  unfold path_of in Hp. rewrite Hz in Hp. destruct Hp as [k Hk]. destruct path as [|x [|y [|z path]]].
  - injection Hw as <-. eauto.
  - injection Hk as <- Hk. rewrite wh_walk1 in Hw. injection Hw as <-. eauto.
  - injection Hk as <- <- Hk. apply wh_walk2 in Hw; eauto.
  - injection Hk as <- <- <- Hk. destruct path; [|done]. exfalso. rewrite walk3 in Hw.
    destruct (walk (pg_mem s) l4 [0; index_at v 30]) as [t'|] eqn:Hw'; [|done]. cbn [mbind option_bind] in Hw.
    apply wh_walk2 in Hw'; [|done]. destruct (bu_in _ _ _ _ (proj1 W) _ _ Hw') as (_ & _ & _ & _ & Hpde).
    unfold next, link in Hw. rewrite Hpde in Hw by done.
    unfold new_pde in Hw. rewrite (proj2 (Z.ltb_ge _ _)), andb_false_r, has_0 in Hw by lia. done.
Qed.

Lemma whole_off path t : ok_path path → walk (pg_mem s) l4 path = Some t →
  not_free a (pg_bm s0) t ∨ ∃ v, room v ∧ path `prefix_of` path_of v.
Proof using Hi0 Hlow W.
  intros Hp Hw. destruct (whole_walk path t Hp Hw) as [Hn|[_ Hw0]]; [right|left; by apply (pi_used _ _ Hi0 path)].
  assert (∀ i, 0 ≤ i < 512 → ∃ v, room v ∧ [0; i] `prefix_of` path_of v) as Hv.
  { intros i Hi. exists (i * 2 ^ 30 + 511 * 2 ^ 21). destruct (index_of i 511) as (E4 & E3 & E2); [lia|lia|]. split.
    - unfold room. change PAGING_USER_CODE_ADDR with (16 * 2 ^ 21). lia.
    - unfold path_of. rewrite E4, E3, E2. by exists [511]. }
  destruct Hn as [[-> _]|[[-> _]|(i & -> & Hin)]].
  - destruct (Hv 0) as (v & Hr & _); [lia|]. exists v. split; [done|apply prefix_nil].
  - destruct (Hv 0) as (v & Hr & Hpre); [lia|]. exists v. split; [done|]. etransitivity; [|done]. by exists [0].
  - apply Hv. by apply (bu_in _ _ _ _ (proj1 W) i t).
Qed.

Lemma whole_guard v : room v → guard a (not_free a (pg_bm s0)) (path_of v) (set_cr3 l4 s).
Proof using Hi0 Hlow W.
  intros Hv. split.
  - intros k Hk Hn. apply used_mono; [done|]. by apply Hn.
  - rewrite whole_root. intros path t Hp Hw Hn. pose proof (whole_room v path t Hv Hp Hw) as Hin.
    by apply (fresh_old N s t wh_fresh).
Qed.

Lemma whole_owned x : owned (pg_mem s) (mkHandle l4 true) x → tbl (set_cr3 l4 s) x.
Proof using Hi0 Hlow W.
  rewrite (built_owned _ _ _ _ _ (proj1 W)). unfold tbl. rewrite whole_root. cbn [pg_mem set_cr3].
  pose proof wh_walk1 as W1.
  rewrite elem_of_app, !elem_of_cons. intros [([i pd] & -> & Hin)%list_elem_of_fmap|[->|[->|?%not_elem_of_nil]]]; [| | |done].
  - destruct (bu_in _ _ _ _ (proj1 W) i pd Hin) as (Hi & _ & Hp & E & _). exists [0; i]. split; [by apply ok2; [lia|]|].
    change [0; i] with ([0] ++ [i]). rewrite walk_snoc, W1. cbn [mbind option_bind]. unfold next, link. cbn [pg_mem set_cr3]. rewrite E.
    destruct (new_table_entry pd _ ltac:(eauto) Hp) as (-> & -> & ->). done.
  - exists [0]. split; [apply ok1; lia|done].
  - exists []. split; [split; [cbn; lia|by apply Forall_nil]|done].
Qed.
End whole.

(** ** The active address space *)

(** Nothing that the active tables consist of has changed. *)
Lemma active_same s : pg_cr3 s = pg_cr3 s0 → bm_wf (pg_bm s) →
  (∀ j, 0 ≤ j < total_pages a → used (pg_bm s0) j = true → used (pg_bm s) j = true) →
  (∀ t i, page_ok t → not_free a (pg_bm s0) t → 0 ≤ i < 512 → ld64 (pg_mem s) (slot t i) = ld64 m0 (slot t i)) →
  pt_inv a s ∧ ∀ v, translate s v = translate s0 v.
Proof using Hi0.
  intros Hc Hwf Hu Hm. assert (read_cr3 s = src) as Er by (unfold read_cr3; by rewrite Hc).
  assert (∀ path t i, ok_path path → walk m0 src path = Some t → 0 ≤ i < 512 → ld64 (pg_mem s) (slot t i) = ld64 m0 (slot t i)) as Hld.
  { intros path t i Hp Hw Hi. apply Hm; [|by apply (pi_used _ _ Hi0 path)|done]. by apply (tr_ok _ _ (pi_tree _ _ Hi0) path). }
  assert (∀ path, ok_path path → walk (pg_mem s) src path = walk m0 src path) as Hwalk.
  { apply (walk_ext m0 (pg_mem s) src). intros path t i Hp Hw. pose proof (ok_path_snoc _ _ Hp) as (Hp' & Hi & _).
    unfold next. by rewrite (Hld path). }
  assert (tree (pg_mem s) src) as Ht.
  { apply (tree_same m0); [apply Hi0|]. intros path t i Hp Hw. pose proof (ok_path_snoc _ _ Hp) as (Hp' & Hi & _).
    rewrite (Hld path) by done. apply same_link_refl. }
  split.
  - split; try apply Hi0; [done|by rewrite Er|]. rewrite Er. intros path t Hp Hw k Hk E. apply Hu; [done|].
    rewrite Hwalk in Hw by done. by apply (pi_used _ _ Hi0 path t).
  - intros v. unfold translate. rewrite Er, !translate_walk by (done || apply Hi0). pose proof (indices_ok v) as Hx.
    destruct (indices v) as [[[i4 i3] i2] i1]. destruct Hx as (H4 & H3 & H2 & H1). cbn [xlate].
    rewrite !Hwalk by auto with vibix. destruct (walk m0 src [i4; i3; i2]) as [l1|] eqn:E3.
    + by rewrite (Hld [i4; i3; i2]) by auto with vibix.
    + destruct (walk m0 src [i4; i3]) as [l2|] eqn:E2; [|done]. cbn [mbind option_bind]. by rewrite (Hld [i4; i3]) by auto with vibix.
Qed.
End new.

(** The contract of [create_pml4] for a program that starts empty. *)
Lemma create_new_ok (a : PmmAllocator) (s : pg) (Hi : pt_inv a s)
  (Hlow : has (ld64 (pg_mem s) (slot (read_cr3 s) 0)) PAGE_PRESENT = true) :
  ∃ o s', create_pml4 a s false = Ret (o, s') ∧ pg_cr3 s' = pg_cr3 s ∧ pt_inv a s' ∧
    (∀ v, translate s' v = translate s v) ∧
    (∀ t i, page_ok t → not_free a (pg_bm s) t → 0 ≤ i < 512 → ld64 (pg_mem s') (slot t i) = ld64 (pg_mem s) (slot t i)) ∧
    match o with
    | None => ∀ j, in_range j → used (pg_bm s') j = used (pg_bm s) j
    | Some h => owns_user_leaves h = true ∧ page_ok (phys h) ∧ pt_inv a (set_cr3 (phys h) s') ∧
        (∀ v, 0 ≤ v < 2 ^ 48 → translate (set_cr3 (phys h) s') v =
           if (PAGING_USER_CODE_ADDR <=? v) && (v <? 2 ^ 39) then None else translate s v) ∧
        (∀ x, owned (pg_mem s') h x → ∃ j, 0 ≤ j < total_pages a ∧ x = page_addr a j ∧ used (pg_bm s) j = false) ∧
        (∀ j, in_range j → used (pg_bm s') j = true ↔ used (pg_bm s) j = true ∨ owned (pg_mem s') h (page_addr a j)) ∧
        (∀ x, owned (pg_mem s') h x → tbl (set_cr3 (phys h) s') x) ∧
        (∀ v, room v → guard a (not_free a (pg_bm s)) (path_of v) (set_cr3 (phys h) s')) ∧
        (∀ path t, ok_path path → walk (pg_mem s') (phys h) path = Some t →
           not_free a (pg_bm s) t ∨ ∃ v, room v ∧ path `prefix_of` path_of v)
    end.
Proof.
  destruct (create_new a s Hi Hlow) as (o & s' & -> & Hr). exists o, s'. split; [done|].
  pose proof (pi_pmm _ _ Hi) as (Htp & _). destruct o as [[l4 owns]|]; cbn [phys owns_user_leaves] in *.
  - destruct Hr as (-> & pdpt & L & W). pose proof (wh_fresh a s l4 pdpt L s' W) as F.
    pose proof (whole_root a s Hi l4 pdpt L s' W) as Er. split; [apply F|].
    destruct (active_same a s Hi s') as [Hi' Ht'].
    { apply F. } { apply F. }
    { intros j Hj Hu. apply (fh_used _ _ _ _ F); [unfold in_range; lia|by left]. }
    { intros t i Ht Hn Hi'. apply (fh_mem _ _ _ _ F); [done|by eapply fresh_old|done]. }
    split; [done|]. split; [done|].
    split; [intros t i Ht Hn Hi''; apply (fh_mem _ _ _ _ F); [done|by eapply fresh_old|done]|].
    split; [done|]. split; [rewrite <- Er; apply entry_addr_ok|].
    split; [by apply (whole_inv a s Hi Hlow l4 pdpt L)|]. split.
    { intros v Hv. unfold translate. rewrite Er. by apply (whole_translate a s Hi Hlow l4 pdpt L s' W). }
    split; [|split; [|split; [|split]]].
    + intros x Hx%(built_owned a s Hi Hlow _ _ _ _ _ (proj1 W)). by apply (fh_new _ _ _ _ F).
    + intros j Hj. rewrite (built_owned a s Hi Hlow _ _ _ _ _ (proj1 W)). by apply (fh_used _ _ _ _ F).
    + intros x. by apply (whole_owned a s Hi Hlow l4 pdpt L).
    + intros v. by apply (whole_guard a s Hi Hlow l4 pdpt L).
    + intros path t. by apply (whole_off a s Hi Hlow l4 pdpt L).
  - destruct Hr as [Hc Hwf Hu Hm]. split; [done|]. destruct (active_same a s Hi s' Hc Hwf) as [Hi' Ht']; [|done|done].
    intros j Hj. rewrite Hu; [done|]. unfold in_range. lia.
Qed.

(** C6: Building the address space of a new program always returns and leaves the active address
    space well-formed with every translation as it was.  When it succeeds, the new root is
    well-formed, maps nothing from the start of the user's code to 512 GiB and translates every
    other address as the active one; the pages it owns were free and are the only ones taken.
    When memory runs out on the way, every page taken has been given back. *)
Theorem create_pml4_new_spec (a : PmmAllocator) (s : pg) (Hi : pt_inv a s)
  (Hlow : has (ld64 (pg_mem s) (slot (read_cr3 s) 0)) PAGE_PRESENT = true) :
  ∃ o s', create_pml4 a s false = Ret (o, s') ∧ pg_cr3 s' = pg_cr3 s ∧ pt_inv a s' ∧
    (∀ v, translate s' v = translate s v) ∧
    match o with
    | None => ∀ j, in_range j → used (pg_bm s') j = used (pg_bm s) j
    | Some h => owns_user_leaves h = true ∧ page_ok (phys h) ∧ pt_inv a (set_cr3 (phys h) s') ∧
        (∀ v, 0 ≤ v < 2 ^ 48 → translate (set_cr3 (phys h) s') v =
           if (PAGING_USER_CODE_ADDR <=? v) && (v <? 2 ^ 39) then None else translate s v) ∧
        (∀ x, owned (pg_mem s') h x → ∃ j, 0 ≤ j < total_pages a ∧ x = page_addr a j ∧ used (pg_bm s) j = false) ∧
        (∀ j, in_range j → used (pg_bm s') j = true ↔ used (pg_bm s) j = true ∨ owned (pg_mem s') h (page_addr a j))
    end.
Proof.
  destruct (create_new_ok a s Hi Hlow) as (o & s' & ? & ? & ? & ? & _ & Hr). exists o, s'. split_and!; try done.
  destruct o; [|done]. naive_solver.
Qed.

(** A user page at 0x2800000 of the active address space is not in the new one. *)
Lemma create_pml4_new_spec_witness :
  ∃ h s', create_pml4 demo_handle demo_mapped false = Ret (Some h, s') ∧
    translate demo_mapped 41943040 = Some 2097152 ∧ translate (set_cr3 (phys h) s') 41943040 = None.
Proof.
  destruct (create_pml4_new_spec demo_handle demo_mapped demo_mapped_inv) as (o & s' & E & _ & _ & _ & Hr).
  - vm_compute. reflexivity.
  - assert ((match create_pml4 demo_handle demo_mapped false with Ret (Some _, _) => true | _ => false end) = true) as Hs
      by (vm_compute; reflexivity).
    rewrite E in Hs. destruct o as [h|]; [|discriminate]. exists h, s'. split; [exact E|]. split; [vm_compute; reflexivity|].
    destruct Hr as (_ & _ & _ & Ht & _). rewrite Ht by lia. reflexivity.
Defined.
