(* ===== verification/PageScratch.v ===== *)
(** * The scratch mapping of [fork]

    Before it copies user pages, [create_pml4] makes sure that the active address space has the
    tables for the kernel's scratch page, and removes the ones it made afterwards.  Neither
    changes any translation. *)

From Stdlib Require Import ZArith Lia.
From stdpp Require Import base numbers list list_numbers option gmap.
From S2P Require Import Prelude Pmm Memory Paging PageMaps PageFree PageNew.

Local Open Scope Z_scope.

Lemma scratch_indices : indices KERNEL_SCRATCH_VA = (0, 1, 0, 0).
Proof. done. Qed.

Lemma link_kernel n : page_ok n → link (Z.lor n PAGE_KERNEL) = true ∧ entry_addr (Z.lor n PAGE_KERNEL) = n.
Proof.
  intros Hn. split.
  - unfold link, PAGE_KERNEL, PAGE_PRESENT, PAGE_WRITABLE, PAGE_HUGE. rewrite !has_bit by lia.
    rewrite !Z.lor_spec, !bit_spec, (page_ok_low n 7) by (done || lia). cbn. by rewrite !orb_true_r.
  - apply entry_addr_page; [done|]. intros k Hk. unfold PAGE_KERNEL, PAGE_PRESENT, PAGE_WRITABLE.
    rewrite !Z.lor_spec, !bit_spec by lia. zcases.
Qed.

Lemma walk_stop m r path l : walk m r path = None → walk m r (path ++ l) = None.
Proof. intros E. induction l as [|j l IH] using rev_ind; [by rewrite app_nil_r|]. by rewrite app_assoc, walk_snoc, IH. Qed.

Section scratch.
Context (a : PmmAllocator).
Implicit Types s : pg.

(** ** Adding one table *)

Record took (n : Z) (s s' : pg) : Prop := {
  tk_page : ∃ k, 0 ≤ k < total_pages a ∧ n = page_addr a k ∧ used (pg_bm s) k = false;
  tk_used : ∀ j, in_range j → used (pg_bm s') j = true ↔ used (pg_bm s) j = true ∨ page_addr a j = n
}.

Lemma alloc_link s rho i t : pt_inv a s → ok_path (rho ++ [i]) → walk (pg_mem s) (read_cr3 s) rho = Some t →
  has (pg_ld s (slot t i)) PAGE_PRESENT = false →
  pmm_alloc a s = Ret (0, s) ∨
  ∃ n s1, pmm_alloc a s = Ret (n, s1) ∧ n ≠ 0 ∧
    let s2 := pg_st (zero_table s1 n) (slot t i) (Z.lor n PAGE_KERNEL) in
    pt_inv a s2 ∧ pg_cr3 s2 = pg_cr3 s ∧ took n s s2 ∧ created (pg_mem s) (pg_mem s2) (read_cr3 s) rho i n ∧
    (∀ t' j, page_ok t' → t' ≠ n → 0 ≤ j < 512 → (t', j) ≠ (t, i) → ld64 (pg_mem s2) (slot t' j) = ld64 (pg_mem s) (slot t' j)).
Proof.
  intros Hi Hok Hw Hnp. unfold pmm_alloc.
  destruct (alloc_cases a (pg_bm s) (pi_pmm _ _ Hi) (pi_bm _ _ Hi))
    as [(k & bm' & Hk & Hfree & _ & -> & _ & Hbm & Hu)|(Hall & ->)]; cbn [mbind outcome_bind]; [right|left; by destruct s].
  pose proof (page_addr_ok a s k Hi Hk) as Hn. set (n := page_addr a k) in *. destruct (pi_pmm _ _ Hi) as (Htp & Hms & _).
  assert (0 < n) by (subst n; unfold page_addr, PMM_PAGE_SIZE; lia).
  exists n, (set_bm bm' s). split; [done|]. split; [lia|]. cbv zeta.
  assert (∀ path t', ok_path path → walk (pg_mem s) (read_cr3 s) path = Some t' → t' ≠ n) as Hfr.
  { intros path t' Hp' Hw' ->. pose proof (pi_used _ _ Hi _ _ Hp' Hw' k Hk eq_refl). congruence. }
  destruct (link_kernel n Hn) as [Hl Ha].
  pose proof (linked_created _ _ rho i t n _ (pi_tree _ _ Hi) Hok Hw Hnp Hn Hfr Hl Ha) as Hcr.
  set (m' := st64 _ _ _) in Hcr. change (pg_mem (pg_st (zero_table (set_bm bm' s) n) (slot t i) (Z.lor n PAGE_KERNEL))) with m'.
  split; [|split; [done|split; [|split; [done|]]]].
  - split; cbn [pg_mem pg_bm set_bm pg_st zero_table set_mem]; try apply Hi; [done|by apply (created_tree _ _ _ _ _ _ Hcr)|].
    intros path t' Hp' Hw' k' Hk' Hte. rewrite Hu by (unfold in_range; lia).
    change (walk m' (read_cr3 s) path = Some t') in Hw'. rewrite (created_walk _ _ _ _ _ _ _ Hcr) in Hw' by done.
    repeat case_decide; [injection Hw' as <-|done|].
    + apply page_addr_inj in Hte as ->. zcases.
    + rewrite (pi_used _ _ Hi _ _ Hp' Hw' k' Hk' Hte). by rewrite orb_true_r.
  - split; [by exists k|]. intros j Hj. change (pg_bm _) with bm' at 1. rewrite Hu by done.
    rewrite orb_true_iff. assert ((k <=? j) && (j <? k + 1) = true ↔ page_addr a j = n) as ->; [|tauto].
    split; [intros E; unfold n; f_equal; revert E; zcases|intros E; apply page_addr_inj in E as ->; zcases].
  - destruct Hcr as (_ & _ & _ & _ & t1 & e & Hw1 & _ & _ & _ & _ & _ & Ho). rewrite Hw in Hw1. injection Hw1 as <-.
    intros t' j Ht' Hne Hj Hs. apply Ho; [done..|]. intros E. pose proof (ok_path_snoc _ _ Hok) as (Hrho & Hir & _).
    apply slot_inj in E as [-> ->]; [done|done|exact (tr_ok _ _ (pi_tree _ _ Hi) _ _ Hrho Hw)|done..].
Qed.

(** ** Removing one table *)

Lemma reclaim_step s rho i t n k : pt_inv a s → ok_path (rho ++ [i]) → walk (pg_mem s) (read_cr3 s) rho = Some t →
  walk (pg_mem s) (read_cr3 s) (rho ++ [i]) = Some n → (∀ j, 0 ≤ j < 512 → ld64 (pg_mem s) (slot n j) = 0) →
  0 ≤ k < total_pages a → n = page_addr a k →
  ∃ s', reclaim_owned a s (slot t i) n = Ret s' ∧ pmm_free a (pg_st s (slot t i) 0) n = Ret s' ∧
    pt_inv a s' ∧ pg_cr3 s' = pg_cr3 s ∧
    pg_mem s' = st64 (pg_mem s) (slot t i) 0 ∧
    (∀ path, ok_path path → ¬ rho ++ [i] `prefix_of` path →
       walk (pg_mem s') (read_cr3 s) path = walk (pg_mem s) (read_cr3 s) path) ∧
    (∀ idx v, idx_ok idx → xlate (pg_mem s') (read_cr3 s) idx v = xlate (pg_mem s) (read_cr3 s) idx v) ∧
    (∀ j, in_range j → used (pg_bm s') j = true ↔ used (pg_bm s) j = true ∧ page_addr a j ≠ n).
Proof.
  intros Hi Hok Hw Hn Hz Hk En. pose proof (pi_pmm _ _ Hi) as (Htp & Hms & _).
  assert (table_empty s n = true) as He by (by apply (all_zero_spec (pg_mem s) n 512 0)).
  destruct (reclaim_spec a s rho i t n Hi Hok Hw Hn He) as (s' & Ef & Hi' & Hc & Hwk & Hx & _ & _).
  destruct (pmm_free_spec a (pg_st s (slot t i) 0) n (pi_bm _ _ Hi)) as (s1 & Ef1 & Fr). rewrite Ef in Ef1. injection Ef1 as <-.
  exists s'. split; [|split; [done|split; [done|split; [done|split; [|split; [done|split; [done|]]]]]]].
  - unfold reclaim_owned. rewrite walk_snoc, Hw in Hn. cbn [mbind option_bind] in Hn. unfold next, link, pg_ld in *.
    destruct (has (ld64 (pg_mem s) (slot t i)) PAGE_PRESENT), (has (ld64 (pg_mem s) (slot t i)) PAGE_HUGE); try done.
    cbn [andb negb] in Hn. injection Hn as Hn. rewrite Hn, Z.eqb_refl. cbn [negb andb]. rewrite !andb_true_r.
    rewrite (proj2 (Z.eqb_neq n 0)) by (rewrite En; unfold page_addr, PMM_PAGE_SIZE; lia). cbn [negb]. by rewrite He.
  - rewrite (fr_same _ _ _ _ Fr). done.
  - intros j Hj. rewrite (fr_used _ _ _ _ Fr j Hj). change (pg_bm (pg_st s (slot t i) 0)) with (pg_bm s).
    subst n. assert (memory_start a ≤ page_addr a k) as Hle by (unfold page_addr, PMM_PAGE_SIZE; lia). split.
    + intros [Hu Hh]. split; [done|]. intros E. apply page_addr_inj in E as ->. apply (Hh _ eq_refl). by apply hits_page.
    + intros [Hu Hne]. split; [done|]. intros x -> [_ <-]%hits_page. done.
Qed.
(** ** The active address space with more tables *)

(** [s'] has taken the pages [A], which were free, some of them as tables of the active address
    space, and translates as [s] does; what is in use and no table is as it was. *)
Record grown (A : Z → Prop) (s s' : pg) : Prop := {
  gn_inv : pt_inv a s';
  gn_cr3 : pg_cr3 s' = pg_cr3 s;
  gn_xlate : ∀ idx v, idx_ok idx → xlate (pg_mem s') (read_cr3 s) idx v = xlate (pg_mem s) (read_cr3 s) idx v;
  gn_keep : ∀ path t, ok_path path → walk (pg_mem s) (read_cr3 s) path = Some t → walk (pg_mem s') (read_cr3 s) path = Some t;
  gn_walk : ∀ path t, ok_path path → walk (pg_mem s') (read_cr3 s) path = Some t →
    walk (pg_mem s) (read_cr3 s) path = Some t ∨ A t;
  gn_new : ∀ t, A t → ∃ k, 0 ≤ k < total_pages a ∧ t = page_addr a k ∧ used (pg_bm s) k = false;
  gn_used : ∀ j, in_range j → used (pg_bm s') j = true ↔ used (pg_bm s) j = true ∨ A (page_addr a j);
  gn_mem : ∀ t i, page_ok t → not_free a (pg_bm s) t → ¬ tbl s t → 0 ≤ i < 512 →
    ld64 (pg_mem s') (slot t i) = ld64 (pg_mem s) (slot t i)
}.

Lemma scratch_grown_refl s : pt_inv a s → grown (λ _, False) s s.
Proof. intros Hi. split; try done; [by left|]. naive_solver. Qed.

Lemma grown_iff (A B : Z → Prop) s s' : (∀ x, A x ↔ B x) → grown A s s' → grown B s s'.
Proof.
  intros HAB G. split; try apply G.
  - intros path t Hp [|]%(gn_walk _ _ _ G); [by left|right; by apply HAB|done].
  - intros t Ht. apply (gn_new _ _ _ G). by apply HAB.
  - intros j Hj. rewrite (gn_used _ _ _ G j Hj), HAB. done.
Qed.

Lemma grown_root A s s' : grown A s s' → read_cr3 s' = read_cr3 s.
Proof. intros G. unfold read_cr3. by rewrite (gn_cr3 _ _ _ G). Qed.

Lemma new_not_old A s s' t : grown A s s' → A t → ¬ not_free a (pg_bm s) t.
Proof. intros G Ht Hn. destruct (gn_new _ _ _ G t Ht) as (k & Hk & E & Hu). rewrite (Hn k Hk E) in Hu. done. Qed.

Lemma grown_add A s s1 s2 rho i t n : pt_inv a s → grown A s s1 → walk (pg_mem s1) (read_cr3 s1) rho = Some t → ok_path (rho ++ [i]) →
  pt_inv a s2 → pg_cr3 s2 = pg_cr3 s1 → took n s1 s2 → created (pg_mem s1) (pg_mem s2) (read_cr3 s1) rho i n →
  (∀ t' j, page_ok t' → t' ≠ n → 0 ≤ j < 512 → (t', j) ≠ (t, i) → ld64 (pg_mem s2) (slot t' j) = ld64 (pg_mem s1) (slot t' j)) →
  grown (λ x, x = n ∨ A x) s s2.
Proof.
  intros Hi G Hw Hok Hi2 Hc2 [(k & Hk & En & Hf) Hu] Hcr Hm. pose proof (grown_root _ _ _ G) as Er. rewrite Er in *.
  destruct (pi_pmm _ _ Hi) as (Htp & _).
  assert (used (pg_bm s) k = false ∧ ¬ A n) as [Hf0 HnA].
  { pose proof (gn_used _ _ _ G k ltac:(unfold in_range; lia)) as Hg. rewrite <- En in Hg. rewrite Hf in Hg.
    split; [apply not_true_is_false|]; intros ?; by apply diff_false_true, Hg; auto. }
  split; [done|by rewrite Hc2; apply G| | | | | |].
  - intros idx v Hidx. rewrite (created_xlate _ _ _ _ _ _ _ _ Hcr) by done. by apply (gn_xlate _ _ _ G).
  - intros path x Hp Hx. rewrite (created_walk _ _ _ _ _ _ _ Hcr) by done. apply (gn_keep _ _ _ G) in Hx; [|done].
    case_decide as Hpre; [|done]. by rewrite (created_none _ _ _ _ _ _ _ Hcr Hpre) in Hx.
  - intros path x Hp. rewrite (created_walk _ _ _ _ _ _ _ Hcr) by done. repeat case_decide; [intros [= <-]; by right; left|done|].
    intros [|]%(gn_walk _ _ _ G); [by left|by right; right|done].
  - intros x [->|Hx]; [by exists k|by apply (gn_new _ _ _ G)].
  - intros j Hj. rewrite Hu, (gn_used _ _ _ G) by done. naive_solver.
  - intros x j Hx Hn Hnt Hj. rewrite Hm; [by apply (gn_mem _ _ _ G)|done| |done|].
    + intros ->. rewrite (Hn k Hk En) in Hf0. done.
    + intros [= -> ->]. pose proof (ok_path_snoc _ _ Hok) as (Hro & _).
      destruct (gn_walk _ _ _ G rho t Hro Hw) as [Hw0|HA]; [apply Hnt; by exists rho|]. by apply (new_not_old _ _ _ _ G HA).
Qed.

Lemma grown_remove (A : Z → Prop) s s1 rho i t n : pt_inv a s → grown A s s1 → A n → ok_path (rho ++ [i]) →
  walk (pg_mem s1) (read_cr3 s) rho = Some t → walk (pg_mem s1) (read_cr3 s) (rho ++ [i]) = Some n →
  (∀ j, 0 ≤ j < 512 → ld64 (pg_mem s1) (slot n j) = 0) →
  ∃ s2, reclaim_owned a s1 (slot t i) n = Ret s2 ∧ pmm_free a (pg_st s1 (slot t i) 0) n = Ret s2 ∧
    grown (λ x, A x ∧ x ≠ n) s s2 ∧ pg_mem s2 = st64 (pg_mem s1) (slot t i) 0 ∧
    (∀ path, ok_path path → ¬ rho ++ [i] `prefix_of` path → walk (pg_mem s2) (read_cr3 s) path = walk (pg_mem s1) (read_cr3 s) path) ∧
    ∀ path, ok_path path → rho ++ [i] `prefix_of` path → walk (pg_mem s2) (read_cr3 s) path = None.
Proof.
  intros Hi G HA Hok Hw Hn Hz. destruct (gn_new _ _ _ G n HA) as (k & Hk & En & Hf). pose proof (grown_root _ _ _ G) as Er.
  pose proof (pi_tree _ _ (gn_inv _ _ _ G)) as Ht. rewrite Er in Ht. pose proof (ok_path_snoc _ _ Hok) as (Hro & Hii & _).
  destruct (reclaim_step s1 rho i t n k (gn_inv _ _ _ G) Hok) as (s2 & E & E2 & Hi2 & Hc & Hm & Hwk & Hx & Hu);
    [by rewrite Er|by rewrite Er|done..|]. rewrite Er in Hwk, Hx. exists s2.
  assert (∀ path, ok_path path → rho ++ [i] `prefix_of` path → walk (pg_mem s2) (read_cr3 s) path = None) as Hnone.
  { intros path Hp Hpre. rewrite Hm, (removed_walk _ _ t i rho Ht Hok Hw) by done. by rewrite decide_True. }
  split; [done|]. split; [done|]. split; [|done]. split; [done|by rewrite Hc; apply G| | | | | |].
  - intros idx v Hidx. rewrite Hx by done. by apply (gn_xlate _ _ _ G).
  - intros path x Hp Hw0. pose proof (gn_keep _ _ _ G path x Hp Hw0) as Hw1.
    destruct (decide (rho ++ [i] `prefix_of` path)) as [[l ->]|Hnp]; [|by rewrite Hwk].
    exfalso. assert (walk (pg_mem s) (read_cr3 s) (rho ++ [i]) = Some n) as Hn0.
    { destruct (walk (pg_mem s) (read_cr3 s) (rho ++ [i])) as [y|] eqn:E0.
      - rewrite (gn_keep _ _ _ G _ _ Hok E0) in Hn. by injection Hn as ->.
      - by rewrite (walk_stop _ _ _ _ E0) in Hw0. }
    by rewrite (pi_used _ _ Hi _ _ Hok Hn0 k Hk En) in Hf.
  - intros path x Hp Hw2. destruct (decide (rho ++ [i] `prefix_of` path)) as [Hpre|Hnp]; [by rewrite Hnone in Hw2|].
    rewrite Hwk in Hw2 by done. destruct (gn_walk _ _ _ G path x Hp Hw2) as [|HAx]; [by left|right; split; [done|]].
    intros ->. apply Hnp. by rewrite (tr_inj _ _ Ht _ _ _ Hp Hok Hw2 Hn).
  - intros x [Hx' _]. by apply (gn_new _ _ _ G).
  - intros j Hj. rewrite Hu, (gn_used _ _ _ G) by done. split; [tauto|]. intros [Hu0|]; [|tauto]. split; [by left|].
    rewrite En. intros ->%page_addr_inj. congruence.
  - intros x j Hx' Hnf Hnt Hj. rewrite Hm, ld_st_ne; [by apply (gn_mem _ _ _ G)|]. intros Es.
    apply slot_inj in Es as [<- _]; [|exact (tr_ok _ _ Ht _ _ Hro Hw)|done..].
    destruct (gn_walk _ _ _ G rho t Hro Hw) as [Hw0|HAt]; [apply Hnt; by exists rho|]. by apply (new_not_old _ _ _ _ G HAt).
Qed.
(** ** Making the scratch page mappable *)

Definition made (prov : ScratchProvision) (x : Z) : Prop := x ≠ 0 ∧ (x = new_pd prov ∨ x = new_pt prov).

Record ready (prov : ScratchProvision) (s s1 : pg) (l3 l2 spt : Z) : Prop := {
  rd_grown : grown (made prov) s s1;
  rd_l3 : walk (pg_mem s1) (read_cr3 s) [0] = Some l3;
  rd_l2 : walk (pg_mem s1) (read_cr3 s) [0; 1] = Some l2;
  rd_spt : walk (pg_mem s1) (read_cr3 s) [0; 1; 0] = Some spt;
  rd_free : ld64 (pg_mem s1) (slot spt 0) = 0;
  rd_pt : new_pt prov ≠ 0 → new_pt prov = spt ∧ ∀ j, 0 ≤ j < 512 → ld64 (pg_mem s1) (slot spt j) = 0;
  rd_pd : new_pd prov ≠ 0 → new_pt prov ≠ 0 ∧ new_pd prov = l2 ∧ ∀ j, 1 ≤ j < 512 → ld64 (pg_mem s1) (slot l2 j) = 0
}.

Lemma ok01 : ok_path ([0] ++ [1]).
Proof. by apply ok2. Qed.
Lemma ok010 : ok_path ([0; 1] ++ [0]).
Proof. by apply ok3. Qed.
Hint Resolve ok01 ok010 : vibix.

Lemma next_link m t i n : next m t i = Some n → has (ld64 m (slot t i)) PAGE_PRESENT = true ∧
  has (ld64 m (slot t i)) PAGE_HUGE = false ∧ entry_addr (ld64 m (slot t i)) = n.
Proof. unfold next, link. destruct (has _ PAGE_PRESENT), (has _ PAGE_HUGE); try done. by intros [= ->]. Qed.

Lemma undo_spec s s1 l3 l2 pd : pt_inv a s → grown (λ x, x ≠ 0 ∧ x = pd) s s1 →
  walk (pg_mem s1) (read_cr3 s) [0] = Some l3 → walk (pg_mem s1) (read_cr3 s) [0; 1] = Some l2 →
  (pd ≠ 0 → pd = l2 ∧ ∀ j, 0 ≤ j < 512 → ld64 (pg_mem s1) (slot l2 j) = 0) →
  ∃ s2, undo_pd a s1 l3 1 pd = Ret s2 ∧ grown (λ _, False) s s2.
Proof.
  intros Hi G W3 W2 Hpd. unfold undo_pd. destruct (Z.eqb_spec pd 0) as [->|Hne]; cbn [negb].
  - exists s1. split; [done|]. revert G. apply grown_iff. naive_solver.
  - destruct (Hpd Hne) as [-> Hz].
    destruct (grown_remove _ s s1 [0] 1 l3 l2 Hi G (conj Hne eq_refl) ok01 W3 W2 Hz) as (s2 & _ & -> & G2 & _).
    exists s2. split; [done|]. revert G2. apply grown_iff. naive_solver.
Qed.

Lemma provision_pt_spec s s1 l3 l2 pd : pt_inv a s → grown (λ x, x ≠ 0 ∧ x = pd) s s1 →
  walk (pg_mem s1) (read_cr3 s) [0] = Some l3 → walk (pg_mem s1) (read_cr3 s) [0; 1] = Some l2 →
  (pd ≠ 0 → pd = l2 ∧ ∀ j, 0 ≤ j < 512 → ld64 (pg_mem s1) (slot l2 j) = 0) →
  ∃ o s2, provision_pt a s1 l3 pd = Ret (o, s2) ∧
    match o with None => grown (λ _, False) s s2 | Some prov => ∃ l3 l2 spt, ready prov s s2 l3 l2 spt end.
Proof.
  intros Hi G W3 W2 Hpd. unfold provision_pt. rewrite scratch_indices. cbn iota beta. pose proof (grown_root _ _ _ G) as Er.
  pose proof W2 as W2'. rewrite (walk_snoc _ _ [0] 1), W3 in W2'. cbn [mbind option_bind] in W2'. destruct (next_link _ _ _ _ W2') as (_ & _ & E2).
  unfold pg_ld. rewrite E2. destruct (has (ld64 (pg_mem s1) (slot l2 0)) PAGE_PRESENT) eqn:Hp; cbn [negb].
  - assert (pd = 0) as ->.
    { destruct (decide (pd = 0)) as [|Hne]; [done|]. destruct (Hpd Hne) as [_ Hz]. by rewrite Hz, has_0 in Hp by lia. }
    assert (grown (λ _, False) s s1) as G0 by (revert G; apply grown_iff; naive_solver).
    destruct (has (ld64 (pg_mem s1) (slot l2 0)) PAGE_HUGE) eqn:Hh; cbn [mbind outcome_bind]; unfold undo_pd; cbn [Z.eqb negb mbind outcome_bind]; [by exists None, s1|].
    unfold pg_ld. set (spt := entry_addr (ld64 (pg_mem s1) (slot l2 0))).
    assert (walk (pg_mem s1) (read_cr3 s) [0; 1; 0] = Some spt) as W1.
    { rewrite walk3, W2. cbn [mbind option_bind]. unfold next, link. by rewrite Hp, Hh. }
    destruct (has (ld64 (pg_mem s1) (slot spt 0)) PAGE_PRESENT || negb (ld64 (pg_mem s1) (slot spt 0) =? 0)) eqn:E.
    + by exists None, s1.
    + apply orb_false_iff in E as [_ E]. apply negb_false_iff, Z.eqb_eq in E. exists (Some (mkProvision 0 0)), s1. split; [done|].
      exists l3, l2, spt. split; try done. revert G0. apply grown_iff. unfold made. cbn. naive_solver.
  - destruct (alloc_link s1 [0; 1] 0 l2 (gn_inv _ _ _ G) ok010) as [->|(n & s1' & -> & Hn0 & Hr)]; [by rewrite Er|done| |]; cbn [mbind outcome_bind].
    { cbn [Z.eqb mbind outcome_bind]. destruct (undo_spec s s1 l3 l2 pd Hi G W3 W2 Hpd) as (s2 & -> & G2). by exists None, s2. }
    rewrite (proj2 (Z.eqb_neq n 0) Hn0). cbn [mbind outcome_bind]. cbv zeta in Hr. set (s2 := pg_st _ _ _) in *.
    destruct Hr as (Hi2 & Hc2 & Htk & Hcr & Hm). clearbody s2.
    pose proof (grown_add _ s s1 s2 [0; 1] 0 l2 n Hi G ltac:(by rewrite Er) ok010 Hi2 Hc2 Htk Hcr Hm) as G2. rewrite Er in Hcr.
    assert (walk (pg_mem s2) (read_cr3 s) [0; 1; 0] = Some n) as W1
      by (rewrite (created_walk _ _ _ _ _ _ _ Hcr) by (by apply ok010); by rewrite !decide_True).
    assert (walk (pg_mem s2) (read_cr3 s) [0; 1] = Some l2) as W2s by (rewrite (created_walk _ _ _ _ _ _ _ Hcr) by (by apply ok01); done).
    assert (walk (pg_mem s2) (read_cr3 s) [0] = Some l3) as W3s by (rewrite (created_walk _ _ _ _ _ _ _ Hcr) by (by apply ok1); done).
    pose proof W1 as W1'. rewrite walk3, W2s in W1'. cbn [mbind option_bind] in W1'. destruct (next_link _ _ _ _ W1') as (_ & _ & ->).
    destruct Hcr as (Htr & _ & Hnok & _ & t & e & _ & _ & _ & _ & _ & Hz & _).
    unfold pg_ld. rewrite Hz by lia. cbn [Z.eqb negb orb]. rewrite has_0. cbn [orb].
    exists (Some (mkProvision pd n)), s2. split; [done|]. exists l3, l2, n. split; cbn [new_pd new_pt]; try done.
    + revert G2. apply grown_iff. intros x. unfold made. cbn. naive_solver.
    + by apply Hz.
    + intros Hne. destruct (Hpd Hne) as [-> Hzl]. split; [done|]. split; [done|]. intros j Hj.
      rewrite Hm; [apply Hzl; lia|exact (tr_ok _ _ Htr _ _ ok01 W2)| |lia|intros [=]; lia].
      intros <-. pose proof (pi_tree _ _ Hi2) as Ht2. rewrite (grown_root _ _ _ G2) in Ht2. by pose proof (tr_inj _ _ Ht2 _ _ _ ok01 ok010 W2s W1).
Qed.
Lemma provision_spec s : pt_inv a s →
  ∃ o s1, provision_kernel_scratch a s = Ret (o, s1) ∧
    match o with None => grown (λ _, False) s s1 | Some prov => ∃ l3 l2 spt, ready prov s s1 l3 l2 spt end.
Proof.
  intros Hi. pose proof (scratch_grown_refl s Hi) as G0. pose proof (pi_tree _ _ Hi) as Ht. unfold provision_kernel_scratch. rewrite scratch_indices.
  unfold pg_ld. destruct (has (ld64 (pg_mem s) (slot (read_cr3 s) 0)) PAGE_PRESENT) eqn:P4; cbn [negb orb]; [|by exists None, s].
  rewrite (tr_nohuge _ _ Ht [] (read_cr3 s) 0 (ok1 0 ltac:(lia)) ltac:(cbn; lia) eq_refl P4).
  set (l3 := entry_addr (ld64 (pg_mem s) (slot (read_cr3 s) 0))).
  assert (walk (pg_mem s) (read_cr3 s) [0] = Some l3) as W3.
  { change (next (pg_mem s) (read_cr3 s) 0 = Some l3). unfold next, link.
    by rewrite P4, (tr_nohuge _ _ Ht [] (read_cr3 s) 0 (ok1 0 ltac:(lia)) ltac:(cbn; lia) eq_refl P4). }
  destruct (has (ld64 (pg_mem s) (slot l3 1)) PAGE_PRESENT) eqn:P3; cbn [negb].
  - pose proof (tr_nohuge _ _ Ht [0] l3 1 ok01 ltac:(cbn; lia) W3 P3) as N3. rewrite N3.
    apply (provision_pt_spec s s l3 (entry_addr (ld64 (pg_mem s) (slot l3 1)))); [done| |done| |done].
    + revert G0. apply grown_iff. naive_solver.
    + rewrite (walk_snoc _ _ [0] 1), W3. cbn [mbind option_bind]. unfold next, link. by rewrite P3, N3.
  - destruct (alloc_link s [0] 1 l3 Hi ok01 W3 P3) as [->|(n & s1' & -> & Hn0 & Hr)]; cbn [mbind outcome_bind].
    { cbn [Z.eqb]. by exists None, s. }
    rewrite (proj2 (Z.eqb_neq n 0) Hn0). cbv zeta in Hr. set (s2 := pg_st _ _ _) in *. destruct Hr as (Hi2 & Hc2 & Htk & Hcr & Hm). clearbody s2.
    pose proof (grown_add _ s s s2 [0] 1 l3 n Hi G0 W3 ok01 Hi2 Hc2 Htk Hcr Hm) as G2.
    apply (provision_pt_spec s s2 l3 n); [done| | | |].
    + revert G2. apply grown_iff. naive_solver.
    + by rewrite (created_walk _ _ _ _ _ _ _ Hcr) by (by apply ok1).
    + rewrite (created_walk _ _ _ _ _ _ _ Hcr) by (by apply ok01). by rewrite !decide_True.
    + intros _. split; [done|]. destruct Hcr as (_ & _ & _ & _ & t & e & _ & _ & _ & _ & _ & Hz & _). exact Hz.
Qed.

(** ** Removing what was made *)

Lemma cleanup_spec prov s s1 s2 l3 l2 spt (B : Z → Prop) : pt_inv a s → ready prov s s1 l3 l2 spt →
  grown B s s2 → (∀ x, made prov x → B x) →
  (∀ path t j, ok_path path → walk (pg_mem s1) (read_cr3 s) path = Some t → 0 ≤ j < 512 →
     ld64 (pg_mem s2) (slot t j) = ld64 (pg_mem s1) (slot t j)) →
  ∃ s3, cleanup_kernel_scratch a s2 prov = Ret s3 ∧ grown (λ x, B x ∧ ¬ made prov x) s s3 ∧
    ∀ t j, page_ok t → t ≠ l3 → t ≠ l2 → 0 ≤ j < 512 → ld64 (pg_mem s3) (slot t j) = ld64 (pg_mem s2) (slot t j).
Proof.
  intros Hi R G HB Hm. pose proof (grown_root _ _ _ G) as Er. pose proof (pi_tree _ _ (gn_inv _ _ _ G)) as Ht2. rewrite Er in Ht2.
  assert (∀ path, ok_path path → walk (pg_mem s2) (read_cr3 s) path = walk (pg_mem s1) (read_cr3 s) path) as Hw.
  { apply walk_ext. intros path t i Hp Hx. pose proof (ok_path_snoc _ _ Hp) as (Hp' & Hi' & _). unfold next. by rewrite (Hm path). }
  assert (walk (pg_mem s2) (read_cr3 s) [0] = Some l3) as W3 by (rewrite Hw; [exact (rd_l3 _ _ _ _ _ _ R)|by apply ok1]).
  assert (walk (pg_mem s2) (read_cr3 s) [0; 1] = Some l2) as W2 by (rewrite Hw; [exact (rd_l2 _ _ _ _ _ _ R)|by apply ok01]).
  assert (walk (pg_mem s2) (read_cr3 s) [0; 1; 0] = Some spt) as W1 by (rewrite Hw; [exact (rd_spt _ _ _ _ _ _ R)|by apply ok010]).
  unfold cleanup_kernel_scratch. destruct (Z.eqb_spec (new_pt prov) 0) as [E0|Hpt].
  { destruct (Z.eqb_spec (new_pd prov) 0) as [E1|Hpd]; [|by destruct (rd_pd _ _ _ _ _ _ R Hpd)]. cbn [andb].
    exists s2. split; [done|]. split; [|done]. revert G. apply grown_iff. unfold made. naive_solver. }
  rewrite andb_false_r, scratch_indices, Er. cbn iota beta. unfold pg_ld.
  destruct (next_link (pg_mem s2) (read_cr3 s) 0 l3 W3) as (-> & -> & ->). cbn [negb orb].
  pose proof W2 as W2'. rewrite (walk_snoc _ _ [0] 1), W3 in W2'. cbn [mbind option_bind] in W2'.
  destruct (next_link _ _ _ _ W2') as (-> & -> & ->). cbn [negb orb].
  destruct (rd_pt _ _ _ _ _ _ R Hpt) as [E Hz]. rewrite E in *.
  destruct (grown_remove B s s2 [0; 1] 0 l2 spt Hi G) as (s3 & -> & _ & G3 & Hm3 & Hw3 & _);
    [apply HB; split; [done|by right]|apply ok010|done|done| |].
  { intros j Hj. rewrite (Hm [0; 1; 0]); [by apply Hz|apply ok010|exact (rd_spt _ _ _ _ _ _ R)|done]. }
  cbn [mbind outcome_bind].
  assert (page_ok l2 ∧ page_ok l3) as [Hl2 Hl3]
    by (split; [exact (tr_ok _ _ Ht2 [0; 1] _ ok01 W2)|exact (tr_ok _ _ Ht2 [0] _ (ok1 0 ltac:(lia)) W3)]).
  destruct (decide (new_pd prov = 0)) as [E1|Hpd].
  - unfold reclaim_owned. rewrite E1, Z.eqb_refl. cbn [negb andb]. exists s3. split; [done|]. split.
    + revert G3. apply grown_iff. unfold made. rewrite E1, E. naive_solver.
    + intros t j Htok _ Hne Hj. rewrite Hm3, ld_st_ne; [done|]. intros Es. by apply slot_inj in Es as [? _].
  - destruct (rd_pd _ _ _ _ _ _ R Hpd) as (_ & E2 & Hzl). rewrite E2.
    assert (l2 ≠ spt) as Hne by (intros <-; by pose proof (tr_inj _ _ Ht2 _ _ _ ok01 ok010 W2 W1)).
    destruct (grown_remove _ s s3 [0] 1 l3 l2 Hi G3) as (s4 & -> & _ & G4 & Hm4 & _); [|apply ok01| | | |].
    + split; [|done]. apply HB. split; [by rewrite <- E2|left; congruence].
    + rewrite Hw3; [done|by apply ok1|]. intros Hx%prefix_length; cbn in Hx; lia.
    + rewrite Hw3; [done|by apply ok01|]. intros Hx%prefix_length. cbn in Hx. lia.
    + intros j Hj. rewrite Hm3, st_ld by (done || lia). rewrite bool_decide_eq_true_2 by done. cbn [andb].
      destruct (Z.eqb_spec j 0); [done|]. rewrite (Hm [0; 1]); [apply Hzl; lia|apply ok01|exact (rd_l2 _ _ _ _ _ _ R)|done].
    + exists s4. split; [done|]. split.
      * revert G4. apply grown_iff. unfold made. rewrite E2, E. intros x. destruct (decide (x = l2)), (decide (x = spt)); naive_solver.
      * intros t j Htok N3 N2 Hj. rewrite Hm4, Hm3, !ld_st_ne; [done|..]; intros Es; by apply slot_inj in Es as [? _].
Qed.
End scratch.
