(* ===== verification/PageFork.v ===== *)
(** * Copying the user's pages: the loops of [create_pml4] for [fork]

    The loops visit the entries of the tables under entry 0 in depth-first order.  A cursor, the
    indices of the entry that comes next, says which entries of the new tables are still to be
    filled; the list [D] says which page was taken for which path. *)

From Stdlib Require Import ZArith Lia.
From stdpp Require Import base numbers list list_numbers option gmap.
From S2P Require Import Prelude Pmm Memory Paging PageMaps PageFree PageNew.

Local Open Scope Z_scope.

(** ** The order of the visit *)

(** [c] does not come after [p]; a path comes before its extensions. *)
Fixpoint lexb (c p : list Z) : bool :=
  match c, p with
  | [], _ => true
  | _ :: _, [] => false
  | x :: c, y :: p => (x <? y) || (x =? y) && lexb c p
  end.

(** The entry at [p] is still to be filled when the visit is at [c]; the entries of the root
    other than 0 are filled at the start. *)
Definition pend (c p : list Z) : bool := bool_decide (head p = Some 0) && lexb c p.

Definition in_tables (p : list Z) : Prop := Forall (λ i, 0 ≤ i < 512) p.

Lemma in_tables_snoc q i : in_tables (q ++ [i]) ↔ in_tables q ∧ 0 ≤ i < 512.
Proof. unfold in_tables. by rewrite Forall_app, Forall_singleton. Qed.

Lemma lexb_prefix c r : lexb c (c ++ r) = true.
Proof. induction c as [|x c IH]; cbn; [done|]. rewrite Z.eqb_refl, IH. by destruct (x <? x). Qed.

Lemma lexb_next path k : ∀ p, (∀ r, r ≠ [] → p ≠ (path ++ [k]) ++ r) →
  lexb (path ++ [k + 1]) p = if decide (p = path ++ [k]) then false else lexb (path ++ [k]) p.
Proof.
  induction path as [|x path IH]; intros [|y p] Hp; cbn [lexb app].
  - by rewrite decide_False.
  - destruct (decide (y :: p = [k])) as [[= -> ->]|Hne]; [zcases; try lia; done|].
    destruct (decide (y = k)) as [->|Hk]; [by destruct p as [|z p]; [|destruct (Hp (z :: p))]|].
    rewrite !andb_true_r. zcases; try lia; done.
  - by rewrite decide_False.
  - destruct (decide (x = y)) as [->|Hxy].
    + rewrite Z.ltb_irrefl, Z.eqb_refl. cbn [orb andb]. rewrite IH.
      * repeat case_decide; congruence.
      * intros r Hr ->. by apply (Hp r Hr).
    + rewrite (proj2 (Z.eqb_neq x y) Hxy). cbn [andb]. rewrite decide_False by congruence. done.
Qed.

Lemma lexb_down c : ∀ p, in_tables p → lexb (c ++ [0]) p = if decide (p = c) then false else lexb c p.
Proof.
  induction c as [|x c IH]; intros [|y p] Hp; cbn [lexb app].
  - done.
  - apply Forall_cons in Hp as [Hy _]. rewrite decide_False, andb_true_r by done. zcases; lia.
  - by rewrite decide_False.
  - apply Forall_cons in Hp as [_ Hp]. destruct (decide (x = y)) as [->|Hxy].
    + rewrite Z.ltb_irrefl, Z.eqb_refl. cbn [orb andb]. rewrite IH by done.
      repeat case_decide; congruence.
    + rewrite (proj2 (Z.eqb_neq x y) Hxy). cbn [andb]. rewrite decide_False by congruence. done.
Qed.

Lemma lexb_up path k : ∀ p, in_tables p → lexb ((path ++ [k]) ++ [512]) p = lexb (path ++ [k + 1]) p.
Proof.
  induction path as [|x path IH]; intros [|y p] Hp; cbn [lexb app]; try done; apply Forall_cons in Hp as [_ Hp].
  - destruct p as [|z p]; [rewrite andb_true_r, andb_false_r; zcases; lia|]. apply Forall_cons in Hp as [Hz _].
    rewrite !andb_true_r. zcases; lia.
  - by rewrite IH.
Qed.

(** ** What happens to an entry *)

Inductive action := Skip | Share | Stop | Clone (flags : Z).

(** The entry [i] of the table at [path] holds [e]. *)
Definition act (path : list Z) (i e : Z) : action :=
  match path with
  | [] => if i =? 0 then Clone (table_flags e) else Share
  | [_] => if negb (has e PAGE_PRESENT) || (i =? 1) then Skip else Clone (table_flags e)
  | [_; i3] =>
      if negb (has e PAGE_PRESENT) then Skip
      else if has e PAGE_HUGE && has e PAGE_USER && (PAGING_USER_CODE_ADDR <? sat_add (vbase i3 i) (Z.shiftl 1 21)) then Stop
      else if (PAGING_USER_CODE_ADDR <=? vbase i3 i) && negb (has e PAGE_HUGE) then Clone (and_not e ADDR_MASK)
      else Share
  | [_; _; _] => if has e PAGE_PRESENT && has e PAGE_USER then Clone (and_not e ADDR_MASK) else Share
  | _ => Skip
  end.

Lemma keep_flags_bit e n : 0 ≤ n → Z.testbit (and_not e ADDR_MASK) n = Z.testbit e n && negb ((12 <=? n) && (n <? 52)).
Proof. intros Hn. unfold and_not. by rewrite Z.ldiff_spec, mask_bit by done. Qed.

Lemma keep_flags_entry p e : page_ok p →
  has (Z.lor p (and_not e ADDR_MASK)) PAGE_PRESENT = has e PAGE_PRESENT ∧
  has (Z.lor p (and_not e ADDR_MASK)) PAGE_HUGE = has e PAGE_HUGE ∧
  has (Z.lor p (and_not e ADDR_MASK)) PAGE_USER = has e PAGE_USER ∧
  entry_addr (Z.lor p (and_not e ADDR_MASK)) = p.
Proof.
  intros Hp. unfold PAGE_PRESENT, PAGE_HUGE, PAGE_USER. rewrite !has_bit by lia. rewrite !Z.lor_spec, !keep_flags_bit by lia.
  rewrite !(page_ok_low p) by (done || lia). cbn. rewrite !andb_true_r. split_and!; try done.
  apply entry_addr_page; [done|]. intros n Hn. rewrite keep_flags_bit by lia. zcases; try lia; apply andb_false_r.
Qed.

Section fork.
Context (a : PmmAllocator) (s0 : pg) (Hi0 : pt_inv a s0).
Abbreviation m0 := (pg_mem s0).
Abbreviation src := (read_cr3 s0).
Abbreviation e0 := (ld64 m0 (slot src 0)).
Context (Hlow : has e0 PAGE_PRESENT = true).

Lemma act_clone path i u f : in_tables path → (length path ≤ 3)%nat → walk m0 src path = Some u → 0 ≤ i < 512 →
  act path i (ld64 m0 (slot u i)) = Clone f →
  has (ld64 m0 (slot u i)) PAGE_PRESENT = true ∧
  ((length path ≤ 2)%nat → walk m0 src (path ++ [i]) = Some (entry_addr (ld64 m0 (slot u i)))) ∧
  ∀ p, page_ok p → has (Z.lor p f) PAGE_PRESENT = true ∧ entry_addr (Z.lor p f) = p ∧
    ((length path ≤ 2)%nat → has (Z.lor p f) PAGE_HUGE = false) ∧
    (length path = 3%nat → has (Z.lor p f) PAGE_USER = true).
Proof using Hi0 Hlow.
  intros Hp Hlen Hw Hi. set (e := ld64 m0 (slot u i)).
  assert ((length path ≤ 1)%nat → has e PAGE_PRESENT = true → has e PAGE_HUGE = false) as Hnh.
  { intros Hl He. apply (tr_nohuge _ _ (pi_tree _ _ Hi0) path u i); [|done|done|done].
    split; [rewrite length_app; cbn; lia|]. apply Forall_app. split; [done|]. by apply Forall_singleton. }
  assert (has e PAGE_PRESENT = true → has e PAGE_HUGE = false → walk m0 src (path ++ [i]) = Some (entry_addr e)) as Hnext.
  { intros H1 H2. rewrite walk_snoc, Hw. cbn [mbind option_bind]. unfold next, link. fold e. by rewrite H1, H2. }
  destruct path as [|x [|y [|z [|]]]]; cbn [act length] in *; try lia.
  - destruct (Z.eqb_spec i 0) as [->|]; [|done]. intros [= <-]. injection Hw as <-. split; [done|]. split; [auto|].
    intros p Hpo. destruct (new_table_entry p e Hpo Hlow) as (? & ? & ?). split_and!; done || lia.
  - destruct (has e PAGE_PRESENT) eqn:He; cbn [negb orb]; [|done]. destruct (i =? 1); [done|]. intros [= <-]. split; [done|]. split; [auto|].
    intros p Hpo. destruct (new_table_entry p e Hpo He) as (? & ? & ?). split_and!; done || lia.
  - destruct (has e PAGE_PRESENT) eqn:He; cbn [negb]; [|done]. destruct (has e PAGE_HUGE && _ && _); [done|].
    destruct (has e PAGE_HUGE) eqn:Hh; [by rewrite andb_false_r|]. destruct (_ && _); [|done]. intros [= <-]. split; [done|]. split; [auto|].
    intros p Hpo. destruct (keep_flags_entry p e Hpo) as (-> & -> & _ & ->). split_and!; done || lia.
  - destruct (has e PAGE_PRESENT) eqn:He, (has e PAGE_USER) eqn:Hu; cbn [andb]; try done. intros [= <-]. split; [done|]. split; [lia|].
    intros p Hpo. destruct (keep_flags_entry p e Hpo) as (-> & _ & -> & ->). split_and!; done || lia.
Qed.

(** ** The state of the copy *)

Record cloned (l4 : Z) (D : list (list Z * Z)) (c : list Z) (s : pg) : Prop := {
  cl_fresh : fresh a s0 D.*2 s;
  cl_paths : NoDup D.*1;
  cl_root : ([], l4) ∈ D;
  cl_ok : ∀ path t, (path, t) ∈ D → in_tables path;
  cl_up : ∀ path i t, (path ++ [i], t) ∈ D → pend c (path ++ [i]) = false ∧ (length path ≤ 3)%nat ∧
    ∃ t' u f, (path, t') ∈ D ∧ walk m0 src path = Some u ∧ act path i (ld64 m0 (slot u i)) = Clone f;
  cl_entry : ∀ path t u i, (path, t) ∈ D → (length path ≤ 3)%nat → walk m0 src path = Some u → 0 ≤ i < 512 →
    if pend c (path ++ [i]) then ld64 (pg_mem s) (slot t i) = 0
    else match act path i (ld64 m0 (slot u i)) with
         | Skip => ld64 (pg_mem s) (slot t i) = 0
         | Share => ld64 (pg_mem s) (slot t i) = ld64 m0 (slot u i)
         | Stop => False
         | Clone f => ∃ p, (path ++ [i], p) ∈ D ∧ ld64 (pg_mem s) (slot t i) = Z.lor p f
         end;
  cl_leaf : ∀ path i p u j, (path ++ [i], p) ∈ D → length path = 3%nat → walk m0 src path = Some u → 0 ≤ j < 512 →
    ld64 (pg_mem s) (slot p j) = ld64 m0 (slot (entry_addr (ld64 m0 (slot u i))) j)
}.

Lemma cl_in l4 D c s path t : cloned l4 D c s → (path, t) ∈ D → t ∈ D.*2.
Proof. intros _ Hin. apply list_elem_of_fmap. by exists (path, t). Qed.

Lemma cl_page l4 D c s path t : cloned l4 D c s → (path, t) ∈ D → page_ok t.
Proof using Hi0. intros C Hin. apply (fresh_ok a s0 Hi0 D.*2 s); [apply C|by eapply cl_in]. Qed.

Lemma cl_fun l4 D c s path t t' : cloned l4 D c s → (path, t) ∈ D → (path, t') ∈ D → t = t'.
Proof.
  intros C [x E1]%list_elem_of_lookup [y E2]%list_elem_of_lookup.
  assert (x = y) as ->; [|rewrite E1 in E2; by injection E2].
  eapply (NoDup_lookup D.*1); [apply C|by rewrite list_lookup_fmap, E1|by rewrite list_lookup_fmap, E2].
Qed.

Lemma cl_inj l4 D c s path path' t : cloned l4 D c s → (path, t) ∈ D → (path', t) ∈ D → path = path'.
Proof.
  intros C [x E1]%list_elem_of_lookup [y E2]%list_elem_of_lookup.
  assert (x = y) as ->; [|rewrite E1 in E2; by injection E2].
  eapply (NoDup_lookup D.*2); [apply (fh_nodup _ _ _ _ (cl_fresh _ _ _ _ C))|by rewrite list_lookup_fmap, E1|by rewrite list_lookup_fmap, E2].
Qed.

(** Nothing is below an entry that is still to be filled. *)
Lemma cl_below l4 D c s q t r : cloned l4 D c s → head c = Some 0 → (q, t) ∈ D → q ≠ c ++ r.
Proof.
  intros C Hc Hin ->. destruct c as [|x c]; [done|]. injection Hc as ->.
  destruct (exists_last (l := (0 :: c) ++ r)) as (q & i & E); [done|].
  rewrite E in Hin. destruct (cl_up _ _ _ _ C _ _ _ Hin) as [Hp _]. rewrite <- E in Hp.
  unfold pend in Hp. rewrite lexb_prefix in Hp. done.
Qed.
(** ** Moving on *)

(** The visit has gone from [c] to [c'], past the entry at [c] only. *)
Definition passed (D : list (list Z * Z)) (c c' : list Z) : Prop := ∀ q i t, (q, t) ∈ D → 0 ≤ i < 512 →
  pend c' (q ++ [i]) = if decide (q ++ [i] = c) then false else pend c (q ++ [i]).

Lemma pass_next l4 D path k s : cloned l4 D (path ++ [k]) s → head (path ++ [k]) = Some 0 → passed D (path ++ [k]) (path ++ [k + 1]).
Proof.
  intros C Hc q i t Hin Hi. unfold pend. rewrite lexb_next; [case_decide; by rewrite ?andb_false_r|].
  intros r Hr E. destruct (exists_last Hr) as (r' & x & ->). rewrite app_assoc in E. apply app_inj_2 in E as [E _]; [|done].
  by apply (cl_below l4 D (path ++ [k]) s q t r').
Qed.

Lemma pass_down l4 D c s : cloned l4 D c s → passed D c (c ++ [0]).
Proof.
  intros C q i t Hin Hi. unfold pend. rewrite lexb_down; [case_decide; by rewrite ?andb_false_r|].
  apply in_tables_snoc. split; [by eapply (cl_ok _ _ _ _ C)|done].
Qed.

Lemma pend_here c r : head c = Some 0 → pend c (c ++ r) = true.
Proof. intros Hc. unfold pend. rewrite lexb_prefix. destruct c; [done|]. cbn in *. by rewrite bool_decide_eq_true_2. Qed.

Lemma pend_new c i : head c = Some 0 → 0 ≤ i < 512 → pend (c ++ [0]) (c ++ [i]) = true.
Proof.
  intros Hc Hi. unfold pend. rewrite bool_decide_eq_true_2 by (by destruct c). cbn [andb]. clear Hc.
  induction c as [|x c IH]; cbn [app lexb]; [rewrite andb_true_r; zcases; lia|]. rewrite IH, Z.eqb_refl. by rewrite orb_true_r.
Qed.

(** Another name for the place of the visit. *)
Lemma cl_at l4 D c c' s : cloned l4 D c s → (∀ p, in_tables p → pend c' p = pend c p) → cloned l4 D c' s.
Proof.
  intros C Hp. split; try apply C.
  - intros path i t Hin. rewrite Hp by (by eapply (cl_ok _ _ _ _ C)). by eapply (cl_up _ _ _ _ C).
  - intros path t u i Hin Hl Hw Hi. rewrite Hp; [by apply (cl_entry _ _ _ _ C)|].
    apply in_tables_snoc. split; [by eapply (cl_ok _ _ _ _ C)|done].
Qed.

Lemma cl_leave l4 D path k s : cloned l4 D ((path ++ [k]) ++ [512]) s → cloned l4 D (path ++ [k + 1]) s.
Proof. intros C. eapply cl_at; [done|]. intros p Hp. unfold pend. by rewrite lexb_up. Qed.

(** A table entry is skipped or shared. *)
Lemma settle_old l4 D path k s t u m : cloned l4 D (path ++ [k]) s → head (path ++ [k]) = Some 0 → (path, t) ∈ D →
  (length path ≤ 3)%nat → walk m0 src path = Some u → 0 ≤ k < 512 →
  (∀ t' j, page_ok t' → 0 ≤ j < 512 → (t', j) ≠ (t, k) → ld64 m (slot t' j) = ld64 (pg_mem s) (slot t' j)) →
  match act path k (ld64 m0 (slot u k)) with
  | Skip => ld64 m (slot t k) = 0 | Share => ld64 m (slot t k) = ld64 m0 (slot u k) | _ => False
  end → cloned l4 D (path ++ [k + 1]) (set_mem m s).
Proof using Hi0.
  intros C Hc Hin Hlen Hw Hk Hm Hv. pose proof (pass_next _ _ _ _ _ C Hc) as Hpass. split; try apply C.
  - apply fresh_write; [apply C|]. intros t' j Ht' Hn Hj. apply Hm; [done|done|]. intros [= -> ->]. by destruct Hn; eapply cl_in.
  - intros q i t' Hq. destruct (cl_up _ _ _ _ C _ _ _ Hq) as (Hp & Hl & t1 & u1 & f & Hq1 & Hu1 & Hf).
    split; [|eauto 10]. assert (in_tables (q ++ [i])) as Hok by (by eapply (cl_ok _ _ _ _ C)). apply in_tables_snoc in Hok as [_ Hok].
    rewrite (Hpass q i t1 Hq1 Hok). by case_decide.
  - intros q t' u' i Hq Hl Hw' Hi. rewrite (Hpass q i t') by done. cbn [pg_mem set_mem]. case_decide as E.
    + apply app_inj_2 in E as [-> [= ->]]; [|done]. rewrite Hw in Hw'. injection Hw' as <-.
      rewrite (cl_fun _ _ _ _ _ _ _ C Hq Hin). by destruct (act path k _).
    + rewrite Hm; [by apply (cl_entry _ _ _ _ C)|by eapply cl_page|done|]. intros [= -> ->]. by destruct E; rewrite (cl_inj _ _ _ _ _ _ _ C Hq Hin).
  - intros q i p u' j Hq Hl Hw' Hj. cbn [pg_mem set_mem]. rewrite Hm; [by eapply (cl_leaf _ _ _ _ C)|by eapply cl_page|done|].
    intros [= -> ->]. rewrite <- (cl_inj _ _ _ _ _ _ _ C Hq Hin), length_app in Hlen. cbn in Hlen. lia.
Qed.

(** A page is taken for the entry. *)
Lemma settle_new l4 D path k s t u f p c' s' : cloned l4 D (path ++ [k]) s → head (path ++ [k]) = Some 0 → (path, t) ∈ D →
  (length path ≤ 3)%nat → walk m0 src path = Some u → 0 ≤ k < 512 → act path k (ld64 m0 (slot u k)) = Clone f →
  fresh a s0 (p :: D.*2) s' →
  (∀ t' j, page_ok t' → t' ≠ p → 0 ≤ j < 512 → (t', j) ≠ (t, k) → ld64 (pg_mem s') (slot t' j) = ld64 (pg_mem s) (slot t' j)) →
  ld64 (pg_mem s') (slot t k) = Z.lor p f →
  passed D (path ++ [k]) c' →
  ((length path ≤ 2)%nat → ∀ j, 0 ≤ j < 512 → ld64 (pg_mem s') (slot p j) = 0 ∧ pend c' ((path ++ [k]) ++ [j]) = true) →
  (length path = 3%nat → ∀ j, 0 ≤ j < 512 → ld64 (pg_mem s') (slot p j) = ld64 m0 (slot (entry_addr (ld64 m0 (slot u k))) j)) →
  cloned l4 ((path ++ [k], p) :: D) c' s'.
Proof using Hi0.
  intros C Hc Hin Hlen Hw Hk Hf F Hm Hv Hpass Htab Hleaf.
  pose proof (fh_nodup _ _ _ _ F) as [HpD _]%NoDup_cons.
  assert (∀ q t', (q, t') ∈ D → t' ≠ p) as Hne by (intros q t' Hq ->; by destruct HpD; eapply cl_in).
  split; [done| |by apply list_elem_of_further, C| | | |].
  - cbn [fmap list_fmap fst]. apply NoDup_cons. split; [|apply C]. intros ([q t'] & E & Hq)%list_elem_of_fmap. cbn in E.
    apply (cl_below l4 D (path ++ [k]) s q t' [] C Hc Hq). by rewrite app_nil_r.
  - intros q t' [[= -> ->]|Hq]%elem_of_cons; [|by eapply (cl_ok _ _ _ _ C)].
    apply in_tables_snoc. split; [by eapply (cl_ok _ _ _ _ C)|done].
  - intros q i t' [[= E _]|Hq]%elem_of_cons.
    + apply app_inj_2 in E as [-> [= ->]]; [|done]. split; [rewrite (Hpass path k t), decide_True; done|]. split; [done|].
      exists t, u, f. split; [by apply list_elem_of_further|done].
    + destruct (cl_up _ _ _ _ C _ _ _ Hq) as (Hp & Hl & t1 & u1 & f1 & Hq1 & Hu1 & Hf1). split; [|split; [done|]].
      * assert (in_tables (q ++ [i])) as Hok by (by eapply (cl_ok _ _ _ _ C)). apply in_tables_snoc in Hok as [_ Hok].
        rewrite (Hpass q i t1 Hq1 Hok). by case_decide.
      * exists t1, u1, f1. split; [by apply list_elem_of_further|done].
  - intros q t' u' i [[= -> ->]|Hq]%elem_of_cons Hl Hw' Hi.
    + rewrite length_app in Hl. cbn in Hl. destruct (Htab ltac:(lia) i Hi) as [E ->]. done.
    + rewrite (Hpass q i t') by done. case_decide as E.
      * apply app_inj_2 in E as [-> [= ->]]; [|done]. rewrite Hw in Hw'. injection Hw' as <-. rewrite (cl_fun _ _ _ _ _ _ _ C Hq Hin), Hf.
        exists p. split; [apply list_elem_of_here|done].
      * pose proof (cl_entry _ _ _ _ C q t' u' i Hq Hl Hw' Hi) as Ho.
        rewrite Hm; [|by eapply cl_page|by eapply Hne|done|intros [= -> ->]; by destruct E; rewrite (cl_inj _ _ _ _ _ _ _ C Hq Hin)].
        destruct (pend _ _); [done|]. destruct (act q i _); try done. destruct Ho as (x & Hx & ?). exists x. split; [by apply list_elem_of_further|done].
  - intros q i t' u' j [[= E ->]|Hq]%elem_of_cons Hl Hw' Hj.
    + apply app_inj_2 in E as [-> [= ->]]; [|done]. rewrite Hw in Hw'. injection Hw' as <-. by apply Hleaf.
    + rewrite Hm; [by eapply (cl_leaf _ _ _ _ C)|by eapply cl_page|by eapply Hne|done|].
      intros [= -> ->]. rewrite <- (cl_inj _ _ _ _ _ _ _ C Hq Hin), length_app in Hlen. cbn in Hlen. lia.
Qed.
(** ** Copying one page *)

Lemma fresh_root N s : fresh a s0 N s → read_cr3 s = src.
Proof. intros F. unfold read_cr3. by rewrite (fh_cr3 _ _ _ _ F). Qed.

Lemma fresh_walks N s : fresh a s0 N s → tree (pg_mem s) src ∧ ∀ path, ok_path path → walk (pg_mem s) src path = walk m0 src path.
Proof using Hi0.
  intros F. apply (tree_same m0); [apply Hi0|]. intros path t i Hp Hw. pose proof (ok_path_snoc _ _ Hp) as (Hp' & Hi & _).
  destruct (fresh_walk a s0 Hi0 _ _ _ _ F Hp' Hw) as [Hn Hok]. rewrite (fh_mem _ _ _ _ F) by done. apply same_link_refl.
Qed.

Lemma leaf_indices i j k : 0 ≤ i < 512 → 0 ≤ j < 512 → 0 ≤ k < 512 →
  u64 (vbase i j + k * 4096) = vbase i j + k * 4096 ∧ indices (vbase i j + k * 4096) = (0, i, j, k) ∧
  Z.land (vbase i j + k * 4096) 4095 = 0.
Proof.
  intros Hi Hj Hk. rewrite vbase_eq by done. set (v := i * 2 ^ 30 + j * 2 ^ 21 + k * 4096).
  split; [apply u64_small; unfold v; lia|]. unfold indices, index_at. change 511 with (Z.ones 9). change 4095 with (Z.ones 12).
  rewrite !Z.land_ones, !Z.shiftr_div_pow2 by lia. change (2 ^ 9) with 512.
  assert (v / 2 ^ 39 = 0) as -> by (apply Z.div_small; unfold v; lia).
  assert (v / 2 ^ 30 = i) as -> by (symmetry; apply (Z.div_unique _ _ _ (j * 2 ^ 21 + k * 4096)); unfold v; lia).
  assert (v / 2 ^ 21 = j + i * 512) as -> by (symmetry; apply (Z.div_unique _ _ _ (k * 4096)); unfold v; lia).
  assert (v / 2 ^ 12 = k + (j + i * 512) * 512) as -> by (symmetry; apply (Z.div_unique _ _ _ 0); unfold v; lia).
  rewrite !Z.mod_add, !Z.mod_small by lia. split; [done|]. unfold v.
  replace (i * 2 ^ 30 + j * 2 ^ 21 + k * 4096) with ((i * 2 ^ 18 + j * 2 ^ 9 + k) * 2 ^ 12) by lia. apply Z.mod_mul. lia.
Qed.

Lemma copy_words_entries src' dst n : ∀ m i, copy_words m (slot src' i) (slot dst i) n = copy_entries m src' dst i n.
Proof.
  induction n as [|n IH]; intros m i; cbn [copy_words copy_entries]; [done|].
  rewrite <- IH. unfold slot. f_equal; lia.
Qed.

Context (spt : Z) (Hspt : walk m0 src [0; 1; 0] = Some spt) (Hsp0 : ld64 m0 (slot spt 0) = 0).

Lemma scratch_pte N s : fresh a s0 N s → kernel_scratch_pte s = Some (slot spt 0).
Proof using Hi0 Hspt.
  intros F. destruct (fresh_walks N s F) as [Ht Hw]. unfold kernel_scratch_pte. rewrite (fresh_root N s F).
  change (indices KERNEL_SCRATCH_VA) with (0, 1, 0, 0). cbn iota beta. unfold pg_ld.
  pose proof (Hw [0; 1; 0] (ok3 0 1 0 ltac:(lia) ltac:(lia) ltac:(lia))) as W. rewrite Hspt, walk3 in W.
  rewrite (walk_snoc _ _ [0] 1) in W. change (walk (pg_mem s) src [0]) with (next (pg_mem s) src 0) in W.
  unfold next, link in W. destruct (has (ld64 (pg_mem s) (slot src 0)) PAGE_PRESENT), (has (ld64 (pg_mem s) (slot src 0)) PAGE_HUGE); try done.
  cbn [andb negb mbind option_bind orb] in *. set (t3 := entry_addr (ld64 (pg_mem s) (slot src 0))) in *.
  destruct (has (ld64 (pg_mem s) (slot t3 1)) PAGE_PRESENT), (has (ld64 (pg_mem s) (slot t3 1)) PAGE_HUGE); try done.
  cbn [andb negb mbind option_bind orb] in *. set (t2 := entry_addr (ld64 (pg_mem s) (slot t3 1))) in *.
  destruct (has (ld64 (pg_mem s) (slot t2 0)) PAGE_PRESENT), (has (ld64 (pg_mem s) (slot t2 0)) PAGE_HUGE); try done.
  cbn [andb negb orb] in *. by injection W as ->.
Qed.

Lemma copy_page N s i j k u p : fresh a s0 N s → p ∈ N → 0 ≤ i < 512 → 0 ≤ j < 512 → 0 ≤ k < 512 → i ≠ 1 →
  walk m0 src [0; i; j] = Some u → has (ld64 m0 (slot u k)) PAGE_PRESENT = true →
  not_free a (pg_bm s0) (entry_addr (ld64 m0 (slot u k))) → ¬ tbl s0 (entry_addr (ld64 m0 (slot u k))) →
  ∃ m, copy_user_page_through_scratch s (u64 (vbase i j + k * 4096)) p = Ret (true, set_mem m s) ∧
    ∀ t x, page_ok t → 0 ≤ x < 512 → ld64 m (slot t x) =
      if bool_decide (t = p) then ld64 m0 (slot (entry_addr (ld64 m0 (slot u k))) x) else ld64 (pg_mem s) (slot t x).
Proof using Hi0 Hspt Hsp0.
  intros F Hp Hi Hj Hk Hi1 Hu He Hnf Hnt. set (x := entry_addr (ld64 m0 (slot u k))) in *.
  destruct (fresh_walks N s F) as [Ht Hw]. pose proof (fresh_ok a s0 Hi0 N s p F Hp) as Hpok.
  assert (ok_path [0; 1; 0] ∧ ok_path [0; i; j]) as [Ok1 Ok2] by (split; apply ok3; lia).
  destruct (fresh_walk a s0 Hi0 N s _ spt F Ok1 Hspt) as [HsN Hsok].
  destruct (fresh_walk a s0 Hi0 N s _ u F Ok2 Hu) as [HuN Huok].
  assert (spt ≠ p ∧ x ≠ p) as [Hsp Hxp] by (split; intros E; [by rewrite E in HsN|by apply (fresh_old a s0 N s x F Hnf); rewrite E]).
  assert (x ≠ spt) as Hxs by (intros E; apply Hnt; rewrite E; by exists [0; 1; 0]).
  pose proof (entry_addr_ok (ld64 m0 (slot u k))) as Hxok. fold x in Hxok.
  destruct (leaf_indices i j k Hi Hj Hk) as (-> & Hidx & Hoff). set (v := vbase i j + k * 4096) in *.
  unfold copy_user_page_through_scratch. rewrite (scratch_pte N s F). unfold pg_ld.
  assert (ld64 (pg_mem s) (slot spt 0) = 0) as Hs0 by (rewrite (fh_mem _ _ _ _ F) by (done || lia); done). rewrite Hs0, has_0.
  cbv zeta. set (s2 := pg_st s (slot spt 0) (Z.lor p PAGE_KERNEL)).
  destruct (leaf_write (pg_mem s) src 0 1 0 0 spt (Z.lor p PAGE_KERNEL) Ht) as (Ht2 & _ & Hx2); [done|by rewrite Hw|].
  change (st64 _ _ _) with (pg_mem s2) in Ht2, Hx2.
  assert (read_cr3 s2 = src) as Er by (apply (fresh_root N s F)).
  assert (has (Z.lor p PAGE_KERNEL) PAGE_PRESENT = true ∧ entry_addr (Z.lor p PAGE_KERNEL) = p) as [Hkp Hka].
  { split.
    - unfold PAGE_KERNEL, PAGE_PRESENT, PAGE_WRITABLE. rewrite has_bit, !Z.lor_spec, !bit_spec by lia. apply orb_true_r.
    - apply entry_addr_page; [done|]. intros n Hn. unfold PAGE_KERNEL, PAGE_PRESENT, PAGE_WRITABLE. rewrite !Z.lor_spec, !bit_spec by lia. zcases. }
  assert (translate s2 v = Some x) as ->.
  { unfold translate. rewrite Er, translate_walk, Hidx, Hx2 by done. rewrite decide_False by congruence. cbn [xlate].
    rewrite Hw, Hu by done. rewrite (fh_mem _ _ _ _ F) by done. rewrite He, Hoff, Z.lor_0_r. done. }
  assert (translate s2 KERNEL_SCRATCH_VA = Some p) as ->.
  { unfold translate. rewrite Er, translate_walk by done. change (indices KERNEL_SCRATCH_VA) with (0, 1, 0, 0).
    rewrite Hx2 by done. rewrite decide_True by done. rewrite Hkp, Hka. change (Z.land KERNEL_SCRATCH_VA 4095) with 0. by rewrite Z.lor_0_r. }
  cbn [deref mbind outcome_bind]. eexists. split; [done|]. cbn [pg_mem set_mem pg_st]. intros t y Htok Hy.
  rewrite st_ld by (done || lia). fold (pg_mem s2).
  assert (copy_words (pg_mem s2) x p 512 = copy_entries (pg_mem s2) x p 0 512) as -> by (rewrite <- copy_words_entries; f_equal; unfold slot; lia).
  rewrite copy_entries_ld by (done || lia). cbn [s2 pg_st pg_mem set_mem]. rewrite !st_ld by (done || lia).
  rewrite (bool_decide_eq_false_2 (x = spt)) by done. cbn [andb].
  rewrite (proj2 (Z.leb_le 0 y)), (proj2 (Z.ltb_lt y (0 + Z.of_nat 512))), !andb_true_r by lia.
  destruct (decide (t = spt)) as [->|Hts].
  - rewrite (bool_decide_eq_true_2 (spt = spt)), (bool_decide_eq_false_2 (spt = p)) by done. cbn [andb].
    destruct (Z.eqb_spec y 0) as [->|]; done.
  - rewrite (bool_decide_eq_false_2 (t = spt)) by done. cbn [andb]. case_bool_decide; [|done].
    apply (fh_mem _ _ _ _ F); [done|by eapply fresh_old|done].
Qed.
(** ** The loops *)

Context (Huser : ∀ i j k u, 0 ≤ i < 512 → 0 ≤ j < 512 → 0 ≤ k < 512 → i ≠ 1 → PAGING_USER_CODE_ADDR ≤ vbase i j →
  walk m0 src [0; i; j] = Some u → has (ld64 m0 (slot u k)) PAGE_PRESENT && has (ld64 m0 (slot u k)) PAGE_USER = true →
  not_free a (pg_bm s0) (entry_addr (ld64 m0 (slot u k))) ∧ ¬ tbl s0 (entry_addr (ld64 m0 (slot u k)))).

(** The result of a loop over the entries of the table at [path]. *)
Definition ran (l4 : Z) (D : list (list Z * Z)) (path : list Z) (o : outcome (bool * pg)) : Prop :=
  ∃ ok s' D', o = Ret (ok, s') ∧ D ⊆ D' ∧
    if (ok : bool) then cloned l4 D' (path ++ [512]) s' else ∃ c', cloned l4 D' c' s'.

Lemma ran_stop l4 D path c s : cloned l4 D c s → ran l4 D path (Ret (false, s)).
Proof. intros C. exists false, s, D. eauto. Qed.

Lemma ran_more l4 D D1 path o : ran l4 D1 path o → D ⊆ D1 → ran l4 D path o.
Proof. intros (ok & s' & D' & ? & ? & ?) Hs. exists ok, s', D'. split; [done|]. split; [set_solver|done]. Qed.

Lemma fresh_unzero N s1 p : page_ok p → fresh a s0 (p :: N) (zero_table s1 p) → fresh a s0 (p :: N) s1.
Proof.
  intros Hp F. replace s1 with (set_mem (pg_mem s1) (zero_table s1 p)) by (by destruct s1). apply fresh_write; [done|].
  intros t i Ht [Hn _]%not_elem_of_cons Hi. rewrite zero_table_ld by done. by rewrite bool_decide_eq_false_2.
Qed.

Lemma source l4 D c s path u i : cloned l4 D c s → in_tables path → (length path ≤ 3)%nat → walk m0 src path = Some u → 0 ≤ i < 512 →
  pg_ld s (slot u i) = ld64 m0 (slot u i).
Proof using Hi0.
  intros C Hok Hl Hw Hi. destruct (fresh_walk a s0 Hi0 _ _ path u (cl_fresh _ _ _ _ C)) as [Hn Huo]; [by split|done|].
  by apply (fh_mem _ _ _ _ (cl_fresh _ _ _ _ C)).
Qed.

(** A new table is linked at the entry [k]. *)
Lemma link_table l4 D path k s t u f : cloned l4 D (path ++ [k]) s → head (path ++ [k]) = Some 0 → (path, t) ∈ D →
  (length path ≤ 2)%nat → walk m0 src path = Some u → 0 ≤ k < 512 → act path k (ld64 m0 (slot u k)) = Clone f →
  pmm_alloc a s = Ret (0, s) ∨
  ∃ p s1, pmm_alloc a s = Ret (p, s1) ∧ p ≠ 0 ∧
    cloned l4 ((path ++ [k], p) :: D) ((path ++ [k]) ++ [0]) (pg_st (zero_table s1 p) (slot t k) (Z.lor p f)).
Proof using Hi0.
  intros C Hc Hin Hl Hw Hk Hf. pose proof (cl_fresh _ _ _ _ C) as F. pose proof (cl_page _ _ _ _ _ _ C Hin) as Htok.
  destruct (fresh_alloc a s0 Hi0 _ s F) as [(p & s1 & -> & Hp0 & Hpok & HpN & F1 & Hm1)|[-> _]]; [right|by left].
  exists p, s1. split; [done|]. split; [done|].
  assert (t ≠ p) as Htp by (intros ->; by destruct HpN; eapply cl_in).
  eapply (settle_new l4 D path k s t u f p); try done.
  - lia.
  - apply fresh_st; [done..| |done]. apply list_elem_of_further. by eapply cl_in.
  - intros t' j Ht' Hne Hj Hd. cbn [pg_st pg_mem set_mem]. rewrite st_ld, zero_table_ld, Hm1 by done.
    rewrite (bool_decide_eq_false_2 (t' = p)) by done. case_bool_decide; [|done]. destruct (Z.eqb_spec j k); [congruence|done].
  - cbn [pg_st pg_mem set_mem]. apply ld_st_eq.
  - by eapply pass_down.
  - intros _ j Hj. split; [|by apply pend_new]. cbn [pg_st pg_mem set_mem]. rewrite st_ld, zero_table_ld by done.
    by rewrite (bool_decide_eq_false_2 (p = t)), (bool_decide_eq_true_2 (p = p)).
  - lia.
Qed.

Lemma clone_pt_ok l4 i j u t : 0 ≤ i < 512 → 0 ≤ j < 512 → i ≠ 1 → PAGING_USER_CODE_ADDR ≤ vbase i j → walk m0 src [0; i; j] = Some u →
  ∀ n s k D, cloned l4 D ([0; i; j] ++ [k]) s → ([0; i; j], t) ∈ D → 0 ≤ k → k + Z.of_nat n = 512 →
  ran l4 D [0; i; j] (clone_pt a s (vbase i j) u t k n).
Proof using Hi0 Hlow Hspt Hsp0 Huser.
  intros Hi Hj Hi1 Hub Hu n. induction n as [|n IH]; intros s k D C Hin Hk Hkn.
  { exists true, s, D. split; [done|]. split; [done|]. by replace 512 with k by lia. }
  cbn [clone_pt]. cbv zeta. assert (in_tables [0; i; j]) as Hok by (apply ok3; lia).
  rewrite (source _ _ _ _ _ _ k C Hok ltac:(cbn; lia) Hu ltac:(lia)). set (e := ld64 m0 (slot u k)).
  pose proof (cl_fresh _ _ _ _ C) as F. pose proof (cl_page _ _ _ _ _ _ C Hin) as Htok.
  assert (act [0; i; j] k e = if has e PAGE_PRESENT && has e PAGE_USER then Clone (and_not e ADDR_MASK) else Share) as Hact by done.
  rewrite <- negb_andb. destruct (has e PAGE_PRESENT && has e PAGE_USER) eqn:Hpu; cbn [negb].
  2: { apply IH; [|done|lia|lia]. apply (settle_old l4 D [0; i; j] k s t u); try done; [lia|..].
       - intros t' x Ht' Hx Hd. rewrite st_ld by (done || lia). case_bool_decide; [|done]. destruct (Z.eqb_spec x k); [congruence|done].
       - fold e. rewrite Hact. apply ld_st_eq. }
  destruct (fresh_alloc a s0 Hi0 _ s F) as [(p & s1 & -> & Hp0 & Hpok & HpN & F1 & Hm1)|[-> _]]; cbn [mbind outcome_bind].
  2: { rewrite Z.eqb_refl. by eapply ran_stop. }
  rewrite (proj2 (Z.eqb_neq p 0) Hp0). apply fresh_unzero in F1; [|done].
  destruct (Huser i j k u Hi Hj ltac:(lia) Hi1 Hub Hu Hpu) as [Hnf Hnt]. fold e in Hnf, Hnt.
  pose proof Hpu as [Hpr _]%andb_true_iff.
  destruct (copy_page _ s1 i j k u p F1 (list_elem_of_here _ _) Hi Hj ltac:(lia) Hi1 Hu Hpr Hnf Hnt) as (m & -> & Hm).
  cbn [mbind outcome_bind negb].
  assert (t ≠ p) as Htp by (intros ->; by destruct HpN; eapply cl_in).
  set (s2 := pg_st (set_mem m s1) (slot t k) (Z.lor p (and_not e ADDR_MASK))).
  assert (cloned l4 (([0; i; j] ++ [k], p) :: D) ([0; i; j] ++ [k + 1]) s2) as C2.
  { eapply (settle_new l4 D [0; i; j] k s t u (and_not e ADDR_MASK) p); try done; [lia|..].
    - apply fresh_st; [done| |by apply list_elem_of_further; eapply cl_in|lia]. apply fresh_write; [done|].
      intros t' x Ht' [Hn _]%not_elem_of_cons Hx. rewrite Hm by done. by rewrite bool_decide_eq_false_2.
    - intros t' x Ht' Hne Hx Hd. cbn [s2 pg_st pg_mem set_mem]. rewrite st_ld, Hm, Hm1 by (done || lia).
      rewrite (bool_decide_eq_false_2 (t' = p)) by done. case_bool_decide; [|done]. destruct (Z.eqb_spec x k); [congruence|done].
    - cbn [s2 pg_st pg_mem set_mem]. apply ld_st_eq.
    - by eapply pass_next.
    - cbn. lia.
    - intros _ x Hx. cbn [s2 pg_st pg_mem set_mem]. rewrite st_ld, Hm by (done || lia).
      rewrite (bool_decide_eq_false_2 (p = t)), (bool_decide_eq_true_2 (p = p)) by done. done. }
  eapply ran_more; [apply (IH s2 (k + 1) _ C2); [by apply list_elem_of_further|lia|lia]|]. set_solver.
Qed.
Lemma settle_skip l4 D path k s t u : cloned l4 D (path ++ [k]) s → head (path ++ [k]) = Some 0 → (path, t) ∈ D →
  (length path ≤ 3)%nat → walk m0 src path = Some u → 0 ≤ k < 512 → act path k (ld64 m0 (slot u k)) = Skip →
  cloned l4 D (path ++ [k + 1]) s.
Proof using Hi0.
  intros C Hc Hin Hl Hw Hk Ha. replace s with (set_mem (pg_mem s) s) by (by destruct s).
  apply (settle_old l4 D path k s t u); try done. rewrite Ha.
  pose proof (cl_entry _ _ _ _ C path t u k Hin Hl Hw Hk) as He. rewrite Ha in He. by destruct (pend _ _).
Qed.

Lemma settle_share l4 D path k s t u : cloned l4 D (path ++ [k]) s → head (path ++ [k]) = Some 0 → (path, t) ∈ D →
  (length path ≤ 3)%nat → walk m0 src path = Some u → 0 ≤ k < 512 → act path k (ld64 m0 (slot u k)) = Share →
  cloned l4 D (path ++ [k + 1]) (pg_st s (slot t k) (ld64 m0 (slot u k))).
Proof using Hi0.
  intros C Hc Hin Hl Hw Hk Ha. pose proof (cl_page _ _ _ _ _ _ C Hin). apply (settle_old l4 D path k s t u); try done.
  - intros t' x Ht' Hx Hd. rewrite st_ld by (done || lia). case_bool_decide; [|done]. destruct (Z.eqb_spec x k); [congruence|done].
  - rewrite Ha. apply ld_st_eq.
Qed.

(** After a table below: on to the next entry. *)
Lemma ran_then l4 D D1 path k o (f : bool * pg → outcome (bool * pg)) : ran l4 D1 (path ++ [k]) o → D ⊆ D1 →
  (∀ s, f (false, s) = Ret (false, s)) →
  (∀ s D2, D1 ⊆ D2 → cloned l4 D2 (path ++ [k + 1]) s → ran l4 D2 path (f (true, s))) →
  ran l4 D path (o ≫= f).
Proof.
  intros (ok & s' & D2 & -> & Hs & Hr) HD Hfail Hf. cbn [mbind outcome_bind]. destruct ok.
  - eapply ran_more; [apply Hf; [done|by apply cl_leave]|set_solver].
  - rewrite Hfail. destruct Hr as [c' C]. eapply ran_more; [by eapply ran_stop|set_solver].
Qed.

Lemma clone_pd_ok l4 i u t : 0 ≤ i < 512 → i ≠ 1 → walk m0 src [0; i] = Some u →
  ∀ n s k D, cloned l4 D ([0; i] ++ [k]) s → ([0; i], t) ∈ D → 0 ≤ k → k + Z.of_nat n = 512 →
  ran l4 D [0; i] (clone_pd a s true i u t k n).
Proof using Hi0 Hlow Hspt Hsp0 Huser.
  intros Hi Hi1 Hu n. induction n as [|n IH]; intros s k D C Hin Hk Hkn.
  { exists true, s, D. split; [done|]. split; [done|]. by replace 512 with k by lia. }
  cbn [clone_pd]. cbv zeta. assert (in_tables [0; i]) as Hok by (apply ok2; lia).
  rewrite (source _ _ _ _ _ _ k C Hok ltac:(cbn; lia) Hu ltac:(lia)). fold (vbase i k). set (e := ld64 m0 (slot u k)).
  assert (act [0; i] k e = if negb (has e PAGE_PRESENT) then Skip
    else if has e PAGE_HUGE && has e PAGE_USER && (PAGING_USER_CODE_ADDR <? sat_add (vbase i k) (Z.shiftl 1 21)) then Stop
    else if (PAGING_USER_CODE_ADDR <=? vbase i k) && negb (has e PAGE_HUGE) then Clone (and_not e ADDR_MASK) else Share) as Hact by done.
  destruct (has e PAGE_PRESENT) eqn:Hpr; cbn [negb] in *.
  2: { apply IH; [|done|lia|lia]. apply (settle_skip l4 D [0; i] k s t u); try (cbn; lia); done. }
  unfold clone_pde. cbn [andb negb]. rewrite andb_false_r.
  destruct (has e PAGE_HUGE && has e PAGE_USER && (PAGING_USER_CODE_ADDR <? sat_add (vbase i k) (Z.shiftl 1 21))) eqn:Hstop.
  { cbn [mbind outcome_bind negb]. by eapply ran_stop. }
  destruct ((PAGING_USER_CODE_ADDR <=? vbase i k) && negb (has e PAGE_HUGE)) eqn:Hcl.
  - apply andb_true_iff in Hcl as [Hub _]. apply Z.leb_le in Hub.
    assert (walk m0 src ([0; i] ++ [k]) = Some (entry_addr e)) as Hw.
    { destruct (act_clone [0; i] k u (and_not e ADDR_MASK)) as (_ & Hw & _); try (cbn; lia); try done. apply Hw. cbn. lia. }
    destruct (link_table l4 D [0; i] k s t u _ C eq_refl Hin ltac:(cbn; lia) Hu ltac:(lia) Hact) as [->|(p & s1 & -> & Hp0 & C2)];
      cbn [mbind outcome_bind].
    { cbn [Z.eqb mbind outcome_bind negb]. by eapply ran_stop. }
    rewrite (proj2 (Z.eqb_neq p 0) Hp0).
    eapply ran_then; [apply (clone_pt_ok l4 i k _ p); try done; [lia|apply list_elem_of_here]|set_solver|done|].
    intros s' D2 Hs C'. cbn [negb]. apply IH; [done|set_solver|lia|lia].
  - assert (cloned l4 D ([0; i] ++ [k + 1]) (pg_st s (slot t k) e)) as C2 by (apply (settle_share l4 D [0; i] k s t u); try (cbn; lia); done).
    assert ((PAGING_USER_CODE_ADDR <=? vbase i k) && has e PAGE_HUGE && has e PAGE_USER = false) as Hnu.
    { destruct (Z.leb_spec PAGING_USER_CODE_ADDR (vbase i k)) as [Hge|]; [|done]. apply not_true_is_false. intros Ht.
      cbn [andb] in Ht. rewrite Ht in Hstop. cbn [andb] in Hstop. apply Z.ltb_ge in Hstop. unfold sat_add in Hstop. change (Z.shiftl 1 21) with 2097152 in Hstop.
      unfold PAGING_USER_CODE_ADDR, U64_MAX in *. rewrite vbase_eq in * by lia. lia. }
    assert ((if (PAGING_USER_CODE_ADDR <=? vbase i k) && has e PAGE_HUGE
       then if has e PAGE_USER then Ret (false, s) else Ret (true, pg_st s (slot t k) e)
       else Ret (true, pg_st s (slot t k) e)) = Ret (true, pg_st s (slot t k) e)) as ->.
    { destruct ((PAGING_USER_CODE_ADDR <=? vbase i k) && has e PAGE_HUGE); [|done]. cbn [andb] in Hnu. by rewrite Hnu. }
    cbn [mbind outcome_bind negb]. apply IH; [done|done|lia|lia].
Qed.
Abbreviation src_pdpt := (entry_addr e0).

Lemma clone_pdpt_ok l4 t : ∀ n s k D, cloned l4 D ([0] ++ [k]) s → ([0], t) ∈ D → 0 ≤ k → k + Z.of_nat n = 512 →
  ran l4 D [0] (clone_pdpt a s true src_pdpt t k n).
Proof using Hi0 Hlow Hspt Hsp0 Huser.
  pose proof (src_walk1 a s0 Hi0 Hlow) as Hu.
  induction n as [|n IH]; intros s k D C Hin Hk Hkn.
  { exists true, s, D. split; [done|]. split; [done|]. by replace 512 with k by lia. }
  cbn [clone_pdpt]. cbv zeta. assert (in_tables [0]) as Hok by (apply ok1; lia).
  rewrite (source _ _ _ _ _ _ k C Hok ltac:(cbn; lia) Hu ltac:(lia)). set (e := ld64 m0 (slot src_pdpt k)).
  assert (act [0] k e = if negb (has e PAGE_PRESENT) || (k =? 1) then Skip else Clone (table_flags e)) as Hact by done.
  destruct (has e PAGE_PRESENT) eqn:Hpr; cbn [negb orb] in *.
  2: { apply IH; [|done|lia|lia]. apply (settle_skip l4 D [0] k s t src_pdpt); try (cbn; lia); done. }
  unfold clone_pdpte. rewrite scratch_index by lia. case_bool_decide as Hk1.
  { cbn [mbind outcome_bind negb]. rewrite (proj2 (Z.eqb_eq k 1) Hk1) in Hact. apply IH; [|done|lia|lia].
    apply (settle_skip l4 D [0] k s t src_pdpt); try (cbn; lia); done. }
  rewrite (proj2 (Z.eqb_neq k 1) Hk1) in Hact.
  rewrite (src_nohuge a s0 Hi0 Hlow k ltac:(lia) Hpr : has e PAGE_HUGE = false).
  destruct (link_table l4 D [0] k s t src_pdpt _ C eq_refl Hin ltac:(cbn; lia) Hu ltac:(lia) Hact) as [->|(p & s1 & -> & Hp0 & C2)];
    cbn [mbind outcome_bind].
  { cbn [Z.eqb mbind outcome_bind negb]. by eapply ran_stop. }
  rewrite (proj2 (Z.eqb_neq p 0) Hp0).
  eapply ran_then; [apply (clone_pd_ok l4 k (entry_addr e) p); try done; [lia| |apply list_elem_of_here]|set_solver|done|].
  - by apply (src_walk2 a s0 Hi0 Hlow k); [lia|].
  - intros s' D2 Hs C'. cbn [negb]. apply IH; [done|set_solver|lia|lia].
Qed.

Lemma clone_low_ok l4 s : fresh a s0 [l4] s → ld64 (pg_mem s) (slot l4 0) = 0 →
  (∀ i, 1 ≤ i < 512 → ld64 (pg_mem s) (slot l4 i) = ld64 m0 (slot src i)) →
  ∃ ok s' D, clone_low a s true src l4 = Ret (ok, s') ∧ if (ok : bool) then cloned l4 D [1] s' else ∃ c, cloned l4 D c s'.
Proof using Hi0 Hlow Hspt Hsp0 Huser.
  intros F Hz Hhigh.
  assert (cloned l4 [([], l4)] ([] ++ [0]) s) as C.
  { split; [done|apply NoDup_singleton|apply list_elem_of_here|..].
    - intros path t [= -> ->]%list_elem_of_singleton. by apply Forall_nil.
    - intros path i t [= E _]%list_elem_of_singleton. by destruct path.
    - intros path t u i [= -> ->]%list_elem_of_singleton _ [= <-] Hi. cbn [app]. unfold pend. cbn [head].
      destruct (decide (i = 0)) as [->|Hne]; [done|]. rewrite bool_decide_eq_false_2 by congruence. cbn [andb act].
      rewrite (proj2 (Z.eqb_neq i 0) Hne). apply Hhigh. lia.
    - intros path i p u j [= E _]%list_elem_of_singleton. by destruct path. }
  unfold clone_low. rewrite (source l4 _ _ s [] src 0 C) by (by (apply Forall_nil || cbn; lia) || done). rewrite Hlow. cbn [negb].
  destruct (link_table l4 [([], l4)] [] 0 s l4 src (table_flags e0) C) as [->|(p & s1 & -> & Hp0 & C2)];
    try done; [apply list_elem_of_here|cbn; lia|..]; cbn [mbind outcome_bind].
  { cbn [Z.eqb]. exists false, s, [([], l4)]. eauto. }
  rewrite (proj2 (Z.eqb_neq p 0) Hp0).
  destruct (clone_pdpt_ok l4 p 512 _ 0 _ C2) as (ok & s' & D & -> & _ & Hr); [apply list_elem_of_here|lia|lia|].
  exists ok, s', D. split; [done|]. destruct ok; [|done]. by apply (cl_leave l4 D [] 0 s').
Qed.

(** ** What the copy owns *)

Lemma cl_source l4 D c s : cloned l4 D c s → ∀ path t, (path, t) ∈ D → (length path ≤ 3)%nat →
  ∃ u, walk m0 src path = Some u.
Proof using Hi0 Hlow.
  intros C path t Hin Hl. destruct path as [|i path _] using rev_ind; [by exists src|].
  destruct (cl_up _ _ _ _ C _ _ _ Hin) as (_ & _ & t' & u & f & Hq & Hw & Ha). rewrite length_app in Hl. cbn in Hl.
  pose proof (cl_ok _ _ _ _ C _ _ Hin) as [Hok Hi]%in_tables_snoc.
  destruct (act_clone path i u f Hok ltac:(lia) Hw Hi Ha) as (_ & Hn & _). eexists. apply Hn. lia.
Qed.

(** A page of the copy hangs below the page of the parent path. *)
Lemma cl_parent l4 D c s path i p : cloned l4 D c s → (path ++ [i], p) ∈ D →
  ∃ t, (path, t) ∈ D ∧ let e := ld64 (pg_mem s) (slot t i) in
    has e PAGE_PRESENT = true ∧ entry_addr e = p ∧ ((length path ≤ 2)%nat → has e PAGE_HUGE = false) ∧
    (length path = 3%nat → has e PAGE_USER = true).
Proof using Hi0 Hlow.
  intros C Hin. destruct (cl_up _ _ _ _ C _ _ _ Hin) as (Hp & Hl & t & u & f & Hq & Hw & Ha).
  pose proof (cl_ok _ _ _ _ C _ _ Hin) as [Hok Hi]%in_tables_snoc. exists t. split; [done|]. cbv zeta.
  pose proof (cl_entry _ _ _ _ C path t u i Hq Hl Hw Hi) as He. rewrite Hp, Ha in He. destruct He as (p' & Hp' & ->).
  rewrite (cl_fun _ _ _ _ _ _ _ C Hp' Hin) in *. destruct (act_clone path i u f Hok Hl Hw Hi Ha) as (_ & _ & Hx).
  apply Hx. by eapply cl_page.
Qed.
Lemma cl_head l4 D c s path i p : cloned l4 D c s → (path ++ [i], p) ∈ D → head (path ++ [i]) = Some 0.
Proof using Hi0 Hlow.
  intros C. revert i p. induction path as [|j path IH] using rev_ind; intros i p Hin;
    destruct (cl_up _ _ _ _ C _ _ _ Hin) as (_ & _ & t & u & f & Hq & Hw & Ha).
  - cbn [act app head] in *. by destruct (Z.eqb_spec i 0) as [->|].
  - specialize (IH j t Hq). by destruct path.
Qed.

(** An entry of a table of the copy. *)
Lemma cl_child l4 D c s path t i : cloned l4 D c s → (path, t) ∈ D → (length path ≤ 3)%nat → 0 ≤ i < 512 →
  has (ld64 (pg_mem s) (slot t i)) PAGE_PRESENT = true →
  ∃ u, walk m0 src path = Some u ∧
    ((path ++ [i], entry_addr (ld64 (pg_mem s) (slot t i))) ∈ D ∨
     act path i (ld64 m0 (slot u i)) = Share ∧ ld64 (pg_mem s) (slot t i) = ld64 m0 (slot u i)).
Proof using Hi0 Hlow.
  intros C Hin Hl Hi He. destruct (cl_source _ _ _ _ C path t Hin Hl) as [u Hw]. exists u. split; [done|].
  pose proof (cl_entry _ _ _ _ C path t u i Hin Hl Hw Hi) as Ho. destruct (pend _ _); [by rewrite Ho, has_0 in He|].
  destruct (act path i _) eqn:Ha; [by rewrite Ho, has_0 in He|by right|done|]. destruct Ho as (p & Hp & E). left.
  destruct (act_clone path i u flags (cl_ok _ _ _ _ C _ _ Hin) Hl Hw Hi Ha) as (_ & _ & Hx).
  destruct (Hx p (cl_page _ _ _ _ _ _ C Hp)) as (_ & Ea & _). by rewrite E, Ea.
Qed.

Lemma act_pde i j e : act [0; i] j e = Share → has e PAGE_PRESENT = true → PAGING_USER_CODE_ADDR ≤ vbase i j → 0 ≤ i < 512 → 0 ≤ j < 512 →
  has e PAGE_HUGE = true ∧ has e PAGE_USER = false.
Proof.
  cbn [act]. intros Ha Hpr Hub Hi Hj. rewrite Hpr in Ha. cbn [negb] in Ha. rewrite (proj2 (Z.leb_le _ _) Hub) in Ha.
  assert ((PAGING_USER_CODE_ADDR <? sat_add (vbase i j) (Z.shiftl 1 21)) = true) as E.
  { apply Z.ltb_lt. unfold sat_add. change (Z.shiftl 1 21) with 2097152. unfold PAGING_USER_CODE_ADDR, U64_MAX in *.
    rewrite vbase_eq in * by lia. lia. }
  rewrite E, andb_true_r in Ha. by destruct (has e PAGE_HUGE), (has e PAGE_USER).
Qed.

Lemma act_pde_clone i j e f : act [0; i] j e = Clone f → PAGING_USER_CODE_ADDR ≤ vbase i j.
Proof.
  cbn [act]. destruct (negb _); [done|]. destruct (_ && _ && _); [done|]. destruct (Z.leb_spec PAGING_USER_CODE_ADDR (vbase i j)); [done|done].
Qed.

Lemma owned_in l4 D c s x : cloned l4 D c s → owned (pg_mem s) (mkHandle l4 true) x → ∃ path, (path, x) ∈ D.
Proof using Hi0 Hlow.
  intros C. unfold owned. cbn [phys owns_user_leaves]. pose proof (cl_root _ _ _ _ C) as R0.
  intros [->|[P4 Hx]]; [by exists []|].
  destruct (cl_child _ _ _ _ _ _ 0 C R0 ltac:(cbn; lia) ltac:(lia) P4) as (u4 & _ & [R1|[? _]]); [|done]. cbn [app] in R1.
  destruct Hx as [->|(i & Hi & P3 & _ & Hx)]; [by exists [0]|].
  destruct (cl_child _ _ _ _ _ _ i C R1 ltac:(cbn; lia) Hi P3) as (u3 & _ & [R2|[Ha _]]).
  2: { cbn [act] in Ha. by destruct (_ || _). }
  cbn [app] in R2. destruct Hx as [->|(j & Hj & P2 & Hub & Hx)]; [by exists [0; i]|].
  destruct (cl_child _ _ _ _ _ _ j C R2 ltac:(cbn; lia) Hj P2) as (u2 & _ & [R3|[Ha E]]).
  2: { rewrite E in *. destruct (act_pde i j _ Ha P2 Hub Hi Hj) as [Eh Eu]. rewrite Eh, Eu in Hx. by destruct Hx. }
  cbn [app] in R3. destruct (has _ PAGE_HUGE) eqn:Eh.
  { destruct (cl_parent _ _ _ _ [0; i] j _ C R3) as (t & Ht & _ & _ & Hn & _). rewrite (cl_fun _ _ _ _ _ _ _ C Ht R2) in Hn.
    rewrite Hn in Eh; [done|cbn; lia]. }
  destruct Hx as [->|(k & Hk & Hx & ->)]; [by exists [0; i; j]|].
  apply andb_true_iff in Hx as [[_ P1]%andb_true_iff U1].
  destruct (cl_child _ _ _ _ _ _ k C R3 ltac:(cbn; lia) Hk P1) as (u1 & _ & [R4|[Ha E]]); [by exists [0; i; j; k]|].
  rewrite E in *. cbn [act] in Ha. by rewrite P1, U1 in Ha.
Qed.

Lemma in_owned l4 D c s path x : cloned l4 D c s → (path, x) ∈ D → owned (pg_mem s) (mkHandle l4 true) x.
Proof using Hi0 Hlow.
  intros C Hin. unfold owned. cbn [phys owns_user_leaves]. pose proof (cl_root _ _ _ _ C) as R0.
  assert (∀ q i p, (q ++ [i], p) ∈ D → in_tables q ∧ 0 ≤ i < 512) as Hrange by (intros q i p Hq; apply in_tables_snoc; by eapply (cl_ok _ _ _ _ C)).
  assert (∀ i p, ([i], p) ∈ D → i = 0) as Hz by (intros i p Hp; pose proof (cl_head _ _ _ _ [] i p C Hp) as E; by injection E).
  assert (∀ p, ([0], p) ∈ D → has (ld64 (pg_mem s) (slot l4 0)) PAGE_PRESENT = true ∧ entry_addr (ld64 (pg_mem s) (slot l4 0)) = p) as H1.
  { intros p Hp. destruct (cl_parent _ _ _ _ [] 0 p C Hp) as (t & Ht & E1 & E2 & _). by rewrite (cl_fun _ _ _ _ _ _ _ C Ht R0) in *. }
  assert (∀ i p, ([0; i], p) ∈ D → ∃ t, ([0], t) ∈ D ∧ has (ld64 (pg_mem s) (slot t i)) PAGE_PRESENT = true ∧
    has (ld64 (pg_mem s) (slot t i)) PAGE_HUGE = false ∧ entry_addr (ld64 (pg_mem s) (slot t i)) = p) as H2.
  { intros i p Hp. destruct (cl_parent _ _ _ _ [0] i p C Hp) as (t & Ht & E1 & E2 & E3 & _). exists t. split_and!; try done. apply E3. cbn. lia. }
  assert (∀ i j p, ([0; i; j], p) ∈ D → ∃ t, ([0; i], t) ∈ D ∧ has (ld64 (pg_mem s) (slot t j)) PAGE_PRESENT = true ∧
    has (ld64 (pg_mem s) (slot t j)) PAGE_HUGE = false ∧ entry_addr (ld64 (pg_mem s) (slot t j)) = p ∧ PAGING_USER_CODE_ADDR ≤ vbase i j) as H3.
  { intros i j p Hp. destruct (cl_parent _ _ _ _ [0; i] j p C Hp) as (t & Ht & E1 & E2 & E3 & _). exists t. split_and!; try done; [apply E3; cbn; lia|].
    destruct (cl_up _ _ _ _ C [0; i] j p Hp) as (_ & _ & _ & u & f & _ & _ & Ha). by eapply act_pde_clone. }
  destruct path as [|i1 [|i2 [|i3 [|i4 [|i5 path]]]]].
  - left. by rewrite (cl_fun _ _ _ _ _ _ _ C Hin R0).
  - rewrite (Hz i1 x Hin) in Hin. destruct (H1 x Hin) as [-> ->]. auto.
  - pose proof (cl_head _ _ _ _ [i1] i2 x C Hin) as [= ->]. destruct (Hrange [0] i2 x Hin) as [_ Hi].
    destruct (H2 i2 x Hin) as (t & Ht & P & Hh & E). destruct (H1 t Ht) as [-> ->]. right. split; [done|]. right.
    exists i2. split; [done|]. unfold owns_pdpte. rewrite P, Hh, E. auto.
  - pose proof (cl_head _ _ _ _ [i1; i2] i3 x C Hin) as [= ->]. destruct (Hrange [0; i2] i3 x Hin) as [_ Hj].
    destruct (H3 i2 i3 x Hin) as (pd & Hpd & P & Hh & E & Hub). destruct (Hrange [0] i2 pd Hpd) as [_ Hi].
    destruct (H2 i2 pd Hpd) as (t & Ht & P' & Hh' & E'). destruct (H1 t Ht) as [-> ->]. right. split; [done|]. right.
    exists i2. split; [done|]. unfold owns_pdpte. rewrite P', Hh', E'. split_and!; try done. right. exists i3. split; [done|].
    unfold owns_pde. rewrite P, Hh, E. auto.
  - pose proof (cl_head _ _ _ _ [i1; i2; i3] i4 x C Hin) as [= ->]. destruct (Hrange [0; i2; i3] i4 x Hin) as [_ Hk].
    destruct (cl_parent _ _ _ _ [0; i2; i3] i4 x C Hin) as (pt & Hpt & P1 & E1 & _ & U1).
    destruct (H3 i2 i3 pt Hpt) as (pd & Hpd & P & Hh & E & Hub). destruct (Hrange [0; i2] i3 pt Hpt) as [_ Hj]. destruct (Hrange [0] i2 pd Hpd) as [_ Hi].
    destruct (H2 i2 pd Hpd) as (t & Ht & P' & Hh' & E'). destruct (H1 t Ht) as [-> ->]. right. split; [done|]. right.
    exists i2. split; [done|]. unfold owns_pdpte. rewrite P', Hh', E'. split_and!; try done. right. exists i3. split; [done|].
    unfold owns_pde. rewrite P, Hh, E. split_and!; try done. right. exists i4. split; [done|]. unfold owns_leaf. rewrite P1, E1, (U1 eq_refl). done.
  - exfalso. destruct (exists_last (l := i1 :: i2 :: i3 :: i4 :: i5 :: path)) as (q & i & E); [done|]. rewrite E in Hin.
    destruct (cl_up _ _ _ _ C _ _ _ Hin) as (_ & Hl & _). apply (f_equal length) in E. rewrite length_app in E. cbn in E. lia.
Qed.

Lemma owned_cloned l4 D c s x : cloned l4 D c s → owned (pg_mem s) (mkHandle l4 true) x ↔ x ∈ D.*2.
Proof using Hi0 Hlow.
  intros C. split.
  - intros [path Hin]%(owned_in _ _ _ _ _ C). by eapply cl_in.
  - intros ([path y] & -> & Hin)%list_elem_of_fmap. by eapply in_owned.
Qed.
End fork.
