(* ===== verification/ForkSpace.v ===== *)
(** * The address space of a forked process

    What [create_pml4] with user pages builds: an address space in which every user page of the
    parent is a page of its own with the same contents, and that shares the kernel's part; and
    that the parent's address space is as before. *)

From Stdlib Require Import ZArith Lia.
From stdpp Require Import base numbers list list_numbers option gmap.
From S2P Require Import Prelude Pmm Memory Paging PageMaps PageSpec PageFree PageNew PageScratch PageFork.

Local Open Scope Z_scope.

(** ** The tree of the copy *)

Section child.
Context (a : PmmAllocator) (s0 : pg) (Hi0 : pt_inv a s0).
Abbreviation m0 := (pg_mem s0).
Abbreviation src := (read_cr3 s0).
Context (Hlow : has (ld64 m0 (slot src 0)) PAGE_PRESENT = true).
Context (l4 : Z) (D : list (list Z * Z)) (s : pg) (C : cloned a s0 l4 D [1] s).
Abbreviation m := (pg_mem s).

Lemma nothing_pending p : pend [1] p = false.
Proof. unfold pend. destruct p as [|x p]; [done|]. cbn [head lexb]. case_bool_decide as E; [|done]. by injection E as ->. Qed.

Lemma child_entry path t u i : (path, t) ∈ D → (length path ≤ 3)%nat → walk m0 src path = Some u → 0 ≤ i < 512 →
  match act path i (ld64 m0 (slot u i)) with
  | Skip => ld64 m (slot t i) = 0
  | Share => ld64 m (slot t i) = ld64 m0 (slot u i)
  | Stop => False
  | Clone f => ∃ p, (path ++ [i], p) ∈ D ∧ ld64 m (slot t i) = Z.lor p f
  end.
Proof using C. intros Hin Hl Hw Hi. pose proof (cl_entry _ _ _ _ _ _ C path t u i Hin Hl Hw Hi) as He. by rewrite nothing_pending in He. Qed.

(** The tables that the parent has for itself: the ones of the copied and of the skipped part. *)
Definition inner (path : list Z) : Prop := path = [] ∨ path = [0] ∨ [0; 1] `prefix_of` path.

Lemma dir_not_scratch i p : ([0; i], p) ∈ D → i ≠ 1.
Proof using C.
  intros Hin ->. destruct (cl_up _ _ _ _ _ _ C [0] 1 p Hin) as (_ & _ & t & u & f & _ & _ & Ha). cbn [act] in Ha.
  by rewrite orb_true_r in Ha.
Qed.

Lemma child_walk path t : ok_path path → walk m l4 path = Some t →
  (path, t) ∈ D ∨ (t ∉ D.*2) ∧ walk m0 src path = Some t ∧ ¬ inner path.
Proof using Hi0 Hlow C.
  pose proof (cl_fresh _ _ _ _ _ _ C) as F.
  revert t. induction path as [|i path IH] using rev_ind; intros t Hp Hw; [injection Hw as <-; left; apply C|].
  pose proof (ok_path_snoc _ _ Hp) as (Hp' & Hi & Hlen). rewrite walk_snoc in Hw. destruct (walk m l4 path) as [t'|] eqn:Hw'; [|done].
  cbn [mbind option_bind] in Hw. destruct (next_link _ _ _ _ Hw) as (Hpr & Hh & Ea).
  assert (∀ t'', walk m0 src path = Some t'' → next m0 t'' i = Some t → (t ∉ D.*2) ∧ walk m0 src (path ++ [i]) = Some t) as Hold.
  { intros t'' H1 H2. assert (walk m0 src (path ++ [i]) = Some t) as H3 by (rewrite walk_snoc, H1; done). split; [|done].
    by destruct (fresh_walk a s0 Hi0 _ _ _ _ F Hp H3). }
  destruct (IH t' Hp' eq_refl) as [Hin|(Hn & Hw0 & Hout)].
  - destruct (cl_child a s0 Hi0 Hlow l4 D [1] s path t' i C Hin ltac:(lia) Hi Hpr) as (u & Hu & [Hc|[Ha E]]); [left; by rewrite Ea in Hc|right].
    destruct (Hold u Hu) as [H1 H2]; [unfold next in *; by rewrite <- E|]. split; [done|]. split; [done|].
    intros [Hx|[Hx|Hx]].
    + by destruct path.
    + destruct path as [|x [|]]; [|done|done]. injection Hx as ->. done.
    + destruct path as [|x [|y [|z path]]].
      * apply prefix_length in Hx. cbn in Hx. lia.
      * cbn [act] in Ha. by destruct (_ || _).
      * destruct Hx as [r Hx]. injection Hx as -> -> _. by destruct (dir_not_scratch 1 t' Hin).
      * cbn in Hlen. lia.
  - right. destruct (fresh_walk a s0 Hi0 _ _ _ _ F Hp' Hw0) as [_ Hok]. destruct (Hold t' Hw0) as [H1 H2].
    { revert Hw. unfold next. by rewrite (fh_mem _ _ _ _ F t' i). }
    split; [done|]. split; [done|]. intros [Hx|[Hx|Hx]]; [by destruct path| |].
    + destruct path as [|x [|]]; [|done|done]. apply Hout. by left.
    + apply Hout. apply prefix_snoc in Hx as [Hx|Hx]; [|by right; right].
      change [0; 1] with ([0] ++ [1]) in Hx. apply app_inj_2 in Hx as [<- _]; [|done]. right. by left.
Qed.

Lemma child_tree : tree m l4.
Proof using Hi0 Hlow C.
  split.
  - intros path t Hp [Hn|(_ & Hw & _)]%(child_walk _ _ Hp); [by eapply (cl_page a s0 Hi0)|].
    by apply (tr_ok _ _ (pi_tree _ _ Hi0) path).
  - intros p1 p2 t H1 H2 [N1|(N1 & W1 & _)]%(child_walk _ _ H1) [N2|(N2 & W2 & _)]%(child_walk _ _ H2).
    + by eapply (cl_inj a s0).
    + by destruct N2; eapply (cl_in a s0).
    + by destruct N1; eapply (cl_in a s0).
    + by eapply (tr_inj _ _ (pi_tree _ _ Hi0)).
  - intros path t i Hp Hlen Hw Hpr. pose proof (ok_path_snoc _ _ Hp) as (Hp' & Hi & _).
    destruct (child_walk _ _ Hp' Hw) as [Hin|(Hn & Hw0 & _)].
    + destruct (cl_child a s0 Hi0 Hlow l4 D [1] s path t i C Hin ltac:(lia) Hi Hpr) as (u & Hu & [Hc|[Ha E]]).
      * destruct (cl_parent a s0 Hi0 Hlow _ _ _ _ _ _ _ C Hc) as (t' & Ht' & _ & _ & Hh & _).
        rewrite (cl_fun a s0 _ _ _ _ _ _ _ C Ht' Hin) in Hh. apply Hh. lia.
      * rewrite E in *. by apply (tr_nohuge _ _ (pi_tree _ _ Hi0) path u i).
    + destruct (fresh_walk a s0 Hi0 _ _ _ _ (cl_fresh _ _ _ _ _ _ C) Hp' Hw0) as [_ Hok].
      revert Hpr. rewrite (fh_mem _ _ _ _ (cl_fresh _ _ _ _ _ _ C) t i) by done.
      by apply (tr_nohuge _ _ (pi_tree _ _ Hi0) path t i).
Qed.

Lemma child_used path t : ok_path path → walk m l4 path = Some t → not_free a (pg_bm s) t.
Proof using Hi0 Hlow C.
  pose proof (cl_fresh _ _ _ _ _ _ C) as F. pose proof (pi_pmm _ _ Hi0) as (Htp & _).
  intros Hp [Hn|(Hn & Hw & _)]%(child_walk _ _ Hp) k Hk E; (apply (fh_used _ _ _ _ F); [unfold in_range; lia|]).
  - right. rewrite <- E. by eapply (cl_in a s0).
  - left. by apply (pi_used _ _ Hi0 path t).
Qed.
(** ** Translations in the copy *)

Lemma old_mem path t i : ok_path path → walk m0 src path = Some t → 0 ≤ i < 512 → ld64 m (slot t i) = ld64 m0 (slot t i).
Proof using Hi0 C.
  intros Hp Hw Hi. destruct (fresh_walk a s0 Hi0 _ _ _ _ (cl_fresh _ _ _ _ _ _ C) Hp Hw) as [Hn Hok].
  by apply (fh_mem _ _ _ _ (cl_fresh _ _ _ _ _ _ C)).
Qed.

(** Below a shared table everything is shared. *)
Lemma shared_walk q t r : walk m l4 q = Some t → walk m0 src q = Some t → ok_path (q ++ r) → walk m l4 (q ++ r) = walk m0 src (q ++ r).
Proof using Hi0 C.
  intros H1 H2. induction r as [|i r IH] using rev_ind; intros Hp; [by rewrite app_nil_r, H1, H2|].
  rewrite app_assoc in *. pose proof (ok_path_snoc _ _ Hp) as (Hp' & Hi & _). rewrite !walk_snoc, IH by done.
  destruct (walk m0 src (q ++ r)) as [x|] eqn:E; [|done]. cbn [mbind option_bind]. unfold next. by rewrite (old_mem (q ++ r)).
Qed.

Lemma clone_next path t u i f : (path, t) ∈ D → (length path ≤ 2)%nat → walk m l4 path = Some t → walk m0 src path = Some u →
  0 ≤ i < 512 → act path i (ld64 m0 (slot u i)) = Clone f →
  ∃ p, (path ++ [i], p) ∈ D ∧ walk m l4 (path ++ [i]) = Some p ∧ walk m0 src (path ++ [i]) = Some (entry_addr (ld64 m0 (slot u i))).
Proof using Hi0 Hlow C.
  intros Hin Hl Hw Hu Hi Ha. pose proof (child_entry path t u i Hin ltac:(lia) Hu Hi) as He. rewrite Ha in He. destruct He as (p & Hp & E).
  destruct (act_clone a s0 Hi0 Hlow path i u f (cl_ok _ _ _ _ _ _ C _ _ Hin) ltac:(lia) Hu Hi Ha) as (_ & Hn & Hx).
  destruct (Hx p (cl_page a s0 Hi0 _ _ _ _ _ _ C Hp)) as (E1 & E2 & E3 & _). exists p. split; [done|]. split; [|by apply Hn].
  rewrite walk_snoc, Hw. cbn [mbind option_bind]. unfold next, link. by rewrite E, E1, E2, (E3 Hl).
Qed.

Lemma child_pdpt : ∃ p, ([0], p) ∈ D ∧ walk m l4 [0] = Some p.
Proof using Hi0 Hlow C.
  destruct (clone_next [] l4 src 0 (table_flags (ld64 m0 (slot src 0)))) as (p & Hp & Hw & _); try done; [apply C|cbn; lia|].
  by exists p.
Qed.

(** The part under entry 0, by the page directory entry. *)
Lemma child_low i3 i2 i1 v : 0 ≤ i3 < 512 → 0 ≤ i2 < 512 → 0 ≤ i1 < 512 → i3 ≠ 1 →
  match xlate m0 src (0, i3, i2, i1) v with
  | Some (x, true) =>
      if PAGING_USER_CODE_ADDR <=? vbase i3 i2 then
        ∃ u p, walk m0 src [0; i3; i2] = Some u ∧ x = Z.lor (entry_addr (ld64 m0 (slot u i1))) (Z.land v 4095) ∧
          ([0; i3; i2; i1], p) ∈ D ∧ xlate m l4 (0, i3, i2, i1) v = Some (Z.lor p (Z.land v 4095), true)
      else xlate m l4 (0, i3, i2, i1) v = Some (x, true)
  | r => xlate m l4 (0, i3, i2, i1) v = r
  end.
Proof using Hi0 Hlow C.
  intros H3 H2 H1 Hne. destruct child_pdpt as (pdpt & Hpdpt & W1). pose proof (src_walk1 a s0 Hi0 Hlow) as U1.
  set (u3 := entry_addr (ld64 m0 (slot src 0))) in *. assert (ok_path [0; i3] ∧ ok_path [0; i3; i2]) as [Ok2 Ok3] by (split; [apply ok2|apply ok3]; lia).
  cbn [xlate]. destruct (has (ld64 m0 (slot u3 i3)) PAGE_PRESENT) eqn:P3.
  2: { pose proof (child_entry [0] pdpt u3 i3 Hpdpt ltac:(cbn; lia) U1 H3) as He. cbn [act] in He. rewrite P3 in He. cbn [negb orb] in He.
       assert (walk m l4 [0; i3] = None ∧ walk m0 src [0; i3] = None) as [E E'].
       { rewrite !(walk_snoc _ _ [0] i3), W1, U1. cbn [mbind option_bind]. unfold next, link. by rewrite He, P3, has_0. }
       by rewrite !walk3, E, E'. }
  destruct (clone_next [0] pdpt u3 i3 (table_flags (ld64 m0 (slot u3 i3)))) as (pd & Hpd & W2 & U2); try done; [cbn; lia| |].
  { cbn [act]. rewrite P3, (proj2 (Z.eqb_neq i3 1) Hne). done. }
  cbn [app] in W2, U2, Hpd. set (u2 := entry_addr (ld64 m0 (slot u3 i3))) in *. set (e := ld64 m0 (slot u2 i2)).
  pose proof (child_entry [0; i3] pd u2 i2 Hpd ltac:(cbn; lia) U2 H2) as He. fold e in He. destruct (act [0; i3] i2 e) eqn:Ha; [| |done|].
  - assert (has e PAGE_PRESENT = false) as P2.
    { cbn [act] in Ha. destruct (has e PAGE_PRESENT); [|done]. cbn [negb] in Ha. destruct (_ && _ && _); [done|]. by destruct (_ && _). }
    rewrite !walk3, W2, U2. cbn [mbind option_bind]. unfold next, link. fold e. rewrite He, P2, has_0. done.
  - destruct (walk m0 src [0; i3; i2]) as [u1|] eqn:U3.
    + assert (walk m l4 [0; i3; i2] = Some u1) as ->.
      { rewrite walk3, W2. rewrite walk3, U2 in U3. cbn [mbind option_bind] in *. unfold next in *. fold e in U3. by rewrite He. }
      rewrite (old_mem [0; i3; i2]) by done. destruct (has (ld64 m0 (slot u1 i1)) PAGE_PRESENT); [|done].
      destruct (has (ld64 m0 (slot u1 i1)) PAGE_USER); [|done].
      destruct (Z.leb_spec PAGING_USER_CODE_ADDR (vbase i3 i2)) as [Hub|]; [|done]. exfalso.
      rewrite walk3, U2 in U3. cbn [mbind option_bind] in U3. destruct (next_link _ _ _ _ U3) as (Hpr & Hh & _). fold e in Hpr, Hh.
      destruct (act_pde i3 i2 e Ha Hpr Hub H3 H2) as [Hh' _]. congruence.
    + assert (walk m l4 [0; i3; i2] = None) as ->.
      { rewrite walk3, W2. rewrite walk3, U2 in U3. cbn [mbind option_bind] in *. unfold next in *. fold e in U3. by rewrite He. }
      rewrite W2, U2. cbn [mbind option_bind]. fold e. rewrite He. by destruct (has e PAGE_PRESENT && has e PAGE_HUGE).
  - destruct (clone_next [0; i3] pd u2 i2 flags) as (pt & Hpt & W3 & U3); try done. cbn [app] in W3, U3, Hpt. fold e in U3.
    rewrite W3, U3. set (u1 := entry_addr e) in *. set (e1 := ld64 m0 (slot u1 i1)). rewrite (proj2 (Z.leb_le _ _) (act_pde_clone _ _ _ _ Ha)).
    pose proof (child_entry [0; i3; i2] pt u1 i1 Hpt ltac:(cbn; lia) U3 H1) as He1. fold e1 in He1. cbn [act] in He1.
    destruct (has e1 PAGE_PRESENT) eqn:P1, (has e1 PAGE_USER) eqn:Us; cbn [andb] in He1; try (rewrite He1, P1, ?Us; done).
    destruct He1 as (p & Hp & E). destruct (keep_flags_entry p e1 (cl_page a s0 Hi0 _ _ _ _ _ _ C Hp)) as (E1 & _ & E3 & E4).
    exists u1, p. split; [done|]. split; [done|]. split; [done|]. by rewrite E, E1, E3, E4, P1, Us.
Qed.

(** The second GiB, which holds the scratch page, is not in the copy. *)
Lemma child_gap i2 i1 v : xlate m l4 (0, 1, i2, i1) v = None.
Proof using Hi0 Hlow C.
  destruct child_pdpt as (pdpt & Hpdpt & W1). pose proof (src_walk1 a s0 Hi0 Hlow) as U1.
  pose proof (child_entry [0] pdpt _ 1 Hpdpt ltac:(cbn; lia) U1 ltac:(lia)) as He. cbn [act] in He. rewrite orb_true_r in He.
  assert (walk m l4 [0; 1] = None) as E.
  { rewrite (walk_snoc _ _ [0] 1), W1. cbn [mbind option_bind]. unfold next, link. by rewrite He, has_0. }
  cbn [xlate]. rewrite walk3, E. done.
Qed.

Lemma child_high i4 i3 i2 i1 v : idx_ok (i4, i3, i2, i1) → i4 ≠ 0 → xlate m l4 (i4, i3, i2, i1) v = xlate m0 src (i4, i3, i2, i1) v.
Proof using Hi0 Hlow C.
  intros (H4 & H3 & H2 & H1) Hne.
  pose proof (child_entry [] l4 src i4 (cl_root _ _ _ _ _ _ C) ltac:(cbn; lia) eq_refl H4) as He. cbn [act] in He.
  rewrite (proj2 (Z.eqb_neq i4 0) Hne) in He.
  assert (∀ r, ok_path ([i4] ++ r) → walk m l4 ([i4] ++ r) = walk m0 src ([i4] ++ r)) as Hw.
  { intros r Hr. destruct (walk m0 src [i4]) as [t|] eqn:E.
    - apply (shared_walk [i4] t); [|done|done]. change (next m l4 i4 = Some t). change (next m0 src i4 = Some t) in E. unfold next in *. by rewrite He.
    - rewrite (walk_stop _ _ _ _ E). apply walk_stop. change (next m l4 i4 = None). change (next m0 src i4 = None) in E. unfold next in *. by rewrite He. }
  assert (ok_path ([i4] ++ [i3]) ∧ ok_path ([i4] ++ [i3; i2])) as [Ok2 Ok3] by (split; [apply ok2|apply ok3]; lia).
  cbn [xlate]. rewrite (Hw [i3; i2] Ok3 : walk m l4 [i4; i3; i2] = _), (Hw [i3] Ok2 : walk m l4 [i4; i3] = _).
  change ([i4] ++ [i3; i2]) with [i4; i3; i2]. change ([i4] ++ [i3]) with [i4; i3].
  destruct (walk m0 src [i4; i3; i2]) as [l1|] eqn:E3; [by rewrite (old_mem [i4; i3; i2])|].
  destruct (walk m0 src [i4; i3]) as [l2|] eqn:E2; [|done]. cbn [mbind option_bind]. by rewrite (old_mem [i4; i3]).
Qed.
End child.

(** ** Around the copy *)

(** Memory that agrees on the tables gives the same address space. *)
Lemma space_same m m' r : tree m r →
  (∀ path t i, ok_path path → walk m r path = Some t → 0 ≤ i < 512 → ld64 m' (slot t i) = ld64 m (slot t i)) →
  tree m' r ∧ (∀ path, ok_path path → walk m' r path = walk m r path) ∧ ∀ idx v, idx_ok idx → xlate m' r idx v = xlate m r idx v.
Proof.
  intros Ht Hm. destruct (tree_same m m' r Ht) as [Ht' Hw].
  { intros path t i Hp Hw. pose proof (ok_path_snoc _ _ Hp) as (Hp' & Hi & _). rewrite (Hm path) by done. apply same_link_refl. }
  split; [done|]. split; [done|]. intros [[[i4 i3] i2] i1] v (H4 & H3 & H2 & H1). cbn [xlate]. rewrite !Hw by auto with vibix.
  destruct (walk m r [i4; i3; i2]) as [l1|] eqn:E3; [by rewrite (Hm [i4; i3; i2]) by auto with vibix|].
  destruct (walk m r [i4; i3]) as [l2|] eqn:E2; [|done]. cbn [mbind option_bind]. by rewrite (Hm [i4; i3]) by auto with vibix.
Qed.

Lemma owned_same m m' h x : tree m (phys h) →
  (∀ path t i, ok_path path → walk m (phys h) path = Some t → 0 ≤ i < 512 → ld64 m' (slot t i) = ld64 m (slot t i)) →
  owned m h x → owned m' h x.
Proof.
  intros Ht Hm. unfold owned. assert (ok_path []) as Ok0 by (split; [cbn; lia|by apply Forall_nil]).
  rewrite (Hm [] (phys h) 0 Ok0 eq_refl) by lia. set (e0 := ld64 m (slot (phys h) 0)). intros [->|[P4 Hx]]; [by left|right]. split; [done|].
  assert (walk m (phys h) [0] = Some (entry_addr e0)) as W1.
  { change (next m (phys h) 0 = Some (entry_addr e0)). unfold next, link. fold e0.
    by rewrite P4, (tr_nohuge _ _ Ht [] (phys h) 0 (ok1 0 ltac:(lia)) ltac:(cbn; lia) eq_refl P4 : has e0 PAGE_HUGE = false). }
  destruct Hx as [Hx|(i & Hi & P3 & N3 & Hx)]; [by left|right]. exists i. split; [done|].
  assert (walk m (phys h) [0; i] = Some (entry_addr (ld64 m (slot (entry_addr e0) i)))) as W2.
  { rewrite (walk_snoc _ _ [0] i), W1. cbn [mbind option_bind]. unfold next, link. by rewrite P3, N3. }
  unfold owns_pdpte. rewrite (Hm [0] (entry_addr e0) i (ok1 0 ltac:(lia)) W1 Hi). split; [done|]. split; [done|].
  destruct Hx as [Hx|(j & Hj & Hx)]; [by left|right]. exists j. split; [done|]. unfold owns_pde in *. destruct Hx as (P2 & Hub & Hx).
  rewrite (Hm [0; i] _ j (ok2 0 i ltac:(lia) Hi) W2 Hj). split; [done|]. split; [done|].
  cbv zeta in *. destruct (has (ld64 m (slot (entry_addr (ld64 m (slot (entry_addr e0) i))) j)) PAGE_HUGE) eqn:N2; [done|]. destruct Hx as [Hx|(k & Hk & Hx)]; [by left|right]. exists k. split; [done|].
  unfold owns_leaf in *. erewrite (Hm [0; i; j]); [done|by apply ok3; [lia|..]| |done].
  rewrite walk3, W2. cbn [mbind option_bind]. unfold next, link. by rewrite P2, N2.
Qed.

Lemma shiftr_page p v : Z.shiftr (Z.lor p (Z.land v 4095)) 12 = Z.shiftr p 12.
Proof.
  rewrite Z.shiftr_lor, Z.shiftr_land. change (Z.shiftr 4095 12) with 0. by rewrite Z.land_0_r, Z.lor_0_r.
Qed.

(** The number of a page from its indices. *)
Lemma page_number v w : room v → room w → index_at v 30 = index_at w 30 → index_at v 21 = index_at w 21 → index_at v 12 = index_at w 12 →
  Z.shiftr v 12 = Z.shiftr w 12.
Proof.
  assert (∀ v, room v → Z.shiftr v 12 = index_at v 30 * 2 ^ 18 + index_at v 21 * 2 ^ 9 + index_at v 12) as Hn.
  { intros x [Hlo Hhi]. unfold PAGING_USER_CODE_ADDR in Hlo. unfold index_at. change 511 with (Z.ones 9). rewrite !Z.land_ones, !Z.shiftr_div_pow2 by lia.
    change (2 ^ 9) with 512. assert (x / 2 ^ 21 = x / 2 ^ 12 / 512) as E1 by (rewrite Z.div_div by lia; done).
    assert (x / 2 ^ 30 = x / 2 ^ 12 / 512 / 512) as E2 by (rewrite !Z.div_div by lia; done). rewrite E1, E2.
    assert (0 ≤ x / 2 ^ 12 < 2 ^ 27) as Hb by (split; [apply Z.div_pos; lia|apply Z.div_lt_upper_bound; lia]).
    set (y := x / 2 ^ 12) in *. pose proof (Z.div_mod y 512). pose proof (Z.div_mod (y / 512) 512).
    rewrite (Z.mod_small (y / 512 / 512)); [lia|]. split; [apply Z.div_pos; [apply Z.div_pos|]; lia|].
    apply Z.div_lt_upper_bound; [lia|]. apply Z.div_lt_upper_bound; lia. }
  intros Hv Hw E1 E2 E3. by rewrite (Hn v Hv), (Hn w Hw), E1, E2, E3.
Qed.

Section around.
Context (a : PmmAllocator).
Implicit Types s : pg.

Lemma grown_more (A B : Z → Prop) s s1 s2 : pt_inv a s → grown a A s s1 → pg_cr3 s2 = pg_cr3 s1 → bm_wf (pg_bm s2) →
  (∀ j, in_range j → used (pg_bm s2) j = true ↔ used (pg_bm s1) j = true ∨ B (page_addr a j)) →
  (∀ t, B t → ∃ k, 0 ≤ k < total_pages a ∧ t = page_addr a k ∧ used (pg_bm s1) k = false) →
  (∀ t i, page_ok t → not_free a (pg_bm s1) t → 0 ≤ i < 512 → ld64 (pg_mem s2) (slot t i) = ld64 (pg_mem s1) (slot t i)) →
  grown a (λ x, A x ∨ B x) s s2.
Proof.
  intros Hi G Hc Hwf Hu Hnew Hm. pose proof (gn_inv _ _ _ _ G) as Hi1. pose proof (grown_root _ _ _ _ G) as Er.
  pose proof (pi_tree _ _ Hi1) as Ht1. pose proof (pi_used _ _ Hi1) as Hu1. rewrite Er in Ht1, Hu1. pose proof (pi_pmm _ _ Hi) as (Htp & _).
  destruct (space_same (pg_mem s1) (pg_mem s2) (read_cr3 s) Ht1) as (Ht2 & Hw & Hx).
  { intros path t i Hp Hw Hi'. apply Hm; [exact (tr_ok _ _ Ht1 _ _ Hp Hw)|by apply (Hu1 path)|done]. }
  assert (∀ k, 0 ≤ k < total_pages a → used (pg_bm s1) k = true → used (pg_bm s2) k = true) as Hmono.
  { intros k Hk Hk1. apply Hu; [unfold in_range; lia|by left]. }
  assert (∀ k, 0 ≤ k < total_pages a → used (pg_bm s) k = true → used (pg_bm s1) k = true) as Hmono1.
  { intros k Hk Hk1. apply (gn_used _ _ _ _ G); [unfold in_range; lia|by left]. }
  assert (read_cr3 s2 = read_cr3 s) as Er2 by (unfold read_cr3 in *; by rewrite Hc).
  split.
  - split; try apply Hi; [done|by rewrite Er2|]. rewrite Er2. intros path t Hp Hwk k Hk E. rewrite Hw in Hwk by done.
    apply Hmono; [done|]. by apply (Hu1 path t Hp Hwk).
  - rewrite Hc. apply G.
  - intros idx v Hidx. rewrite Hx by done. by apply (gn_xlate _ _ _ _ G).
  - intros path t Hp Hwk. rewrite Hw by done. by apply (gn_keep _ _ _ _ G).
  - intros path t Hp Hwk. rewrite Hw in Hwk by done. destruct (gn_walk _ _ _ _ G path t Hp Hwk); auto.
  - intros t [HA|(k & Hk & E & Hf)%Hnew]; [by apply (gn_new _ _ _ _ G)|]. exists k. split; [done|]. split; [done|].
    destruct (used (pg_bm s) k) eqn:E'; [|done]. by rewrite (Hmono1 k Hk E') in Hf.
  - intros j Hj. rewrite Hu, (gn_used _ _ _ _ G) by done. tauto.
  - intros t i Ht Hn Hnt Hi'. rewrite Hm; [by apply (gn_mem _ _ _ _ G)|done| |done]. intros k Hk E. apply Hmono1; [done|]. by apply Hn.
Qed.

(** ** The frames of the user *)

Definition user_page (v : Z) : Prop := room v ∧ ¬ 2 ^ 30 ≤ v < 2 ^ 31.
#[global] Instance user_page_dec v : Decision (user_page v).
Proof. unfold user_page, room. apply _. Defined.

(** The frames that the user sees are in use and hold no page table. *)
Definition user_frames s : Prop := ∀ v x, user_page v → v mod 4096 = 0 → leaf s v = Some (x, true) → not_free a (pg_bm s) x ∧ ¬ tbl s x.

Lemma user_frames_at A s s1 i j k u : pt_inv a s → grown a A s s1 → user_frames s →
  0 ≤ i < 512 → 0 ≤ j < 512 → 0 ≤ k < 512 → i ≠ 1 → PAGING_USER_CODE_ADDR ≤ vbase i j →
  walk (pg_mem s1) (read_cr3 s1) [0; i; j] = Some u →
  has (ld64 (pg_mem s1) (slot u k)) PAGE_PRESENT && has (ld64 (pg_mem s1) (slot u k)) PAGE_USER = true →
  (not_free a (pg_bm s) (entry_addr (ld64 (pg_mem s1) (slot u k))) ∧ ¬ tbl s (entry_addr (ld64 (pg_mem s1) (slot u k)))) ∧
  not_free a (pg_bm s1) (entry_addr (ld64 (pg_mem s1) (slot u k))) ∧ ¬ tbl s1 (entry_addr (ld64 (pg_mem s1) (slot u k))).
Proof.
  intros Hi G Huf Hi' Hj Hk Hne Hub Hu [Hp Hus]%andb_true_iff. rewrite (grown_root _ _ _ _ G) in Hu. pose proof (pi_pmm _ _ Hi) as (Htp & _).
  destruct (leaf_indices i j k Hi' Hj Hk) as (_ & Hidx & Hoff). set (v := vbase i j + k * 4096) in *. set (x := entry_addr _).
  assert (leaf s v = Some (x, true)) as Hl.
  { unfold leaf. rewrite <- (gn_xlate _ _ _ _ G), Hidx by (apply indices_ok). cbn [xlate]. by rewrite Hu, Hp, Hus, Hoff, Z.lor_0_r. }
  assert (v = i * 2 ^ 30 + j * 2 ^ 21 + k * 4096) as Ev by (unfold v; by rewrite vbase_eq).
  destruct (Huf v x) as [Hnf Hnt]; [| |done|].
  { split; [|lia]. unfold room. unfold PAGING_USER_CODE_ADDR in *. rewrite vbase_eq in Hub by done. lia. }
  { rewrite Ev. replace (i * 2 ^ 30 + j * 2 ^ 21 + k * 4096) with ((i * 2 ^ 18 + j * 2 ^ 9 + k) * 4096) by lia. apply Z.mod_mul. lia. }
  split; [done|]. split.
  - intros y Hy E. apply (gn_used _ _ _ _ G); [unfold in_range; lia|left; by apply Hnf].
  - intros (path & Hpo & Hw). rewrite (grown_root _ _ _ _ G) in Hw. destruct (gn_walk _ _ _ _ G _ _ Hpo Hw) as [Hw0|HA]; [apply Hnt; by exists path|].
    by apply (new_not_old _ _ _ _ _ G HA).
Qed.
End around.

(** ** The whole construction *)

Section whole.
Context (a : PmmAllocator) (s : pg) (Hi : pt_inv a s).
Context (Hlow : has (ld64 (pg_mem s) (slot (read_cr3 s) 0)) PAGE_PRESENT = true) (Huf : user_frames a s).

(** The states of a construction that succeeds: with the scratch tables, with the copy, and without
    the scratch tables that were made. *)
Record forked (h : Pml4Handle) (s1 s2 s' : pg) (prov : ScratchProvision) (l3 l2 spt : Z) (D : list (list Z * Z)) : Prop := {
  fk_owns : owns_user_leaves h = true;
  fk_ready : ready a prov s s1 l3 l2 spt;
  fk_cloned : cloned a s1 (phys h) D [1] s2;
  fk_grown : grown a (λ x, x ∈ D.*2) s s';
  fk_mem : ∀ t j, page_ok t → t ≠ l3 → t ≠ l2 → 0 ≤ j < 512 → ld64 (pg_mem s') (slot t j) = ld64 (pg_mem s2) (slot t j)
}.

Section run.
Context (prov : ScratchProvision) (s1 : pg) (l3 l2 spt : Z) (R : ready a prov s s1 l3 l2 spt).

Lemma run_root : read_cr3 s1 = read_cr3 s.
Proof using R. exact (grown_root _ _ _ _ (rd_grown _ _ _ _ _ _ _ R)). Qed.

Lemma run_low : has (ld64 (pg_mem s1) (slot (read_cr3 s1) 0)) PAGE_PRESENT = true.
Proof using R.
  rewrite run_root. pose proof (rd_l3 _ _ _ _ _ _ _ R) as W. change (next (pg_mem s1) (read_cr3 s) 0 = Some l3) in W.
  by destruct (next_link _ _ _ _ W).
Qed.

(** Pages [B] taken since the scratch tables were made, tables as they were. *)
Lemma run_more (B : Z → Prop) s2 : pg_cr3 s2 = pg_cr3 s1 → bm_wf (pg_bm s2) →
  (∀ j, in_range j → used (pg_bm s2) j = true ↔ used (pg_bm s1) j = true ∨ B (page_addr a j)) →
  (∀ t, B t → ∃ k, 0 ≤ k < total_pages a ∧ t = page_addr a k ∧ used (pg_bm s1) k = false) →
  (∀ t i, page_ok t → not_free a (pg_bm s1) t → 0 ≤ i < 512 → ld64 (pg_mem s2) (slot t i) = ld64 (pg_mem s1) (slot t i)) →
  ∃ s3, cleanup_if a s2 (Some prov) = Ret s3 ∧ grown a B s s3 ∧
    ∀ t j, page_ok t → t ≠ l3 → t ≠ l2 → 0 ≤ j < 512 → ld64 (pg_mem s3) (slot t j) = ld64 (pg_mem s2) (slot t j).
Proof using Hi R.
  intros Hc Hwf Hu Hnew Hm. pose proof (rd_grown _ _ _ _ _ _ _ R) as G.
  pose proof (pi_tree _ _ (gn_inv _ _ _ _ G)) as Ht. pose proof (pi_used _ _ (gn_inv _ _ _ _ G)) as Hus. rewrite run_root in Ht, Hus.
  destruct (cleanup_spec a prov s s1 s2 l3 l2 spt _ Hi R (grown_more a _ _ s s1 s2 Hi G Hc Hwf Hu Hnew Hm)) as (s3 & E & G3 & Hm3); [by left| |].
  { intros path t j Hp Hw Hj. apply Hm; [exact (tr_ok _ _ Ht _ _ Hp Hw)|by apply (Hus path)|done]. }
  exists s3. split; [done|]. split; [|done]. revert G3. apply grown_iff. intros x. split; [tauto|]. intros HB. split; [by right|].
  intros Hmade. destruct (Hnew x HB) as (k & Hk & -> & Hf). pose proof (pi_pmm _ _ Hi) as (Htp & _).
  assert (used (pg_bm s1) k = true); [|congruence]. apply (gn_used _ _ _ _ G); [unfold in_range; lia|by right].
Qed.

Lemma run_undone s2 : undone a s1 s2 → ∃ s3, cleanup_if a s2 (Some prov) = Ret s3 ∧ grown a (λ _, False) s s3.
Proof using Hi R.
  intros [Hc Hwf Hu Hm]. destruct (run_more (λ _, False) s2 Hc Hwf) as (s3 & E & G & _); [|done|done|eauto].
  intros j Hj. rewrite Hu by done. tauto.
Qed.

Lemma run_copied l4 D s2 : cloned a s1 l4 D [1] s2 → ∃ s3, cleanup_if a s2 (Some prov) = Ret s3 ∧ forked (mkHandle l4 true) s1 s2 s3 prov l3 l2 spt D.
Proof using Hi R.
  intros C. pose proof (cl_fresh _ _ _ _ _ _ C) as F.
  destruct (run_more (λ x, x ∈ D.*2) s2 (fh_cr3 _ _ _ _ F) (fh_bm _ _ _ _ F) (fh_used _ _ _ _ F) (fh_new _ _ _ _ F)) as (s3 & E & G & Hm).
  { intros t i Ht Hn Hi'. apply (fh_mem _ _ _ _ F); [done|by eapply fresh_old|done]. }
  exists s3. split; [done|]. by split.
Qed.
End run.

Lemma create_fork : ∃ o s', create_pml4 a s true = Ret (o, s') ∧
  match o with
  | None => grown a (λ _, False) s s'
  | Some h => ∃ s1 s2 prov l3 l2 spt D, forked h s1 s2 s' prov l3 l2 spt D
  end.
Proof using Hi Hlow Huf.
  unfold create_pml4. destruct (provision_spec a s Hi) as (o & s1 & -> & Hr). cbn [mbind outcome_bind].
  destruct o as [prov|]; cbn [negb mbind outcome_bind]; [|by exists None, s1].
  destruct Hr as (l3 & l2 & spt & R). pose proof (gn_inv _ _ _ _ (rd_grown _ _ _ _ _ _ _ R)) as Hi1. pose proof (run_low _ _ _ _ _ R) as Hlow1.
  destruct (fresh_alloc a s1 Hi1 [] s1 (fresh_nil a s1 Hi1)) as [(p & s1' & -> & Hp0 & Hpok & _ & F1 & Hm1)|[-> _]]; cbn [mbind outcome_bind].
  2: { rewrite Z.eqb_refl. destruct (run_undone _ _ _ _ _ R s1) as (s3 & -> & G); [split; auto; apply Hi1|]. by exists None, s3. }
  rewrite (proj2 (Z.eqb_neq p 0) Hp0).
  destruct (fresh_walk a s1 Hi1 _ _ [] (read_cr3 s1) F1) as [[Hne _]%not_elem_of_cons _]; [split; [cbn; lia|by apply Forall_nil]|done|].
  destruct (new_root a s1 Hi1 p s1' ltac:(done) Hpok F1 Hm1) as (F2 & E0 & Eh).
  revert F2 E0 Eh. generalize (set_mem (copy_entries (pg_mem (zero_table s1' p)) (read_cr3 s1) p 1 511) (zero_table s1' p)). intros s2 F2 E0 Eh.
  destruct (clone_low_ok a s1 Hi1 Hlow1 spt) with (l4 := p) (s := s2) as (ok & s' & D & -> & HD); try done.
  { rewrite (run_root _ _ _ _ _ R). exact (rd_spt _ _ _ _ _ _ _ R). }
  { exact (rd_free _ _ _ _ _ _ _ R). }
  { intros i j k u Hi' Hj Hk Hi1' Hub Hu Hpu. exact (proj2 (user_frames_at a _ s s1 i j k u Hi (rd_grown _ _ _ _ _ _ _ R) Huf Hi' Hj Hk Hi1' Hub Hu Hpu)). }
  cbn [mbind outcome_bind]. destruct ok; cbn [negb].
  - destruct (run_copied _ _ _ _ _ R p D s' HD) as (s3 & -> & Fk). exists (Some (mkHandle p true)), s3. split; [done|]. eauto 10.
  - destruct HD as [c C]. pose proof (cl_fresh _ _ _ _ _ _ C) as F.
    destruct (destroy_frees a s' (mkHandle p true) (fh_bm _ _ _ _ F)) as (s'' & -> & Fr). cbn [mbind outcome_bind].
    destruct (run_undone _ _ _ _ _ R s'') as (s3 & -> & G).
    { eapply fresh_undone; [done|done|]. intros x. by eapply (owned_cloned a s1 Hi1 Hlow1). }
    by exists None, s3.
Qed.
(** ** The finished address space *)

Section finished.
Context (h : Pml4Handle) (s1 s2 s' : pg) (prov : ScratchProvision) (l3 l2 spt : Z) (D : list (list Z * Z)).
Context (K : forked h s1 s2 s' prov l3 l2 spt D).
Abbreviation l4 := (phys h).
Abbreviation child := (set_cr3 l4 s').

Lemma fk_inv1 : pt_inv a s1.
Proof using K. exact (gn_inv _ _ _ _ (rd_grown _ _ _ _ _ _ _ (fk_ready _ _ _ _ _ _ _ _ _ K))). Qed.

Lemma fk_low : has (ld64 (pg_mem s1) (slot (read_cr3 s1) 0)) PAGE_PRESENT = true.
Proof using K. exact (run_low _ _ _ _ _ (fk_ready _ _ _ _ _ _ _ _ _ K)). Qed.

Lemma fk_fresh : fresh a s1 D.*2 s2.
Proof using K. exact (cl_fresh _ _ _ _ _ _ (fk_cloned _ _ _ _ _ _ _ _ _ K)). Qed.

Lemma fk_walk1 : walk (pg_mem s1) (read_cr3 s1) [0] = Some l3 ∧ walk (pg_mem s1) (read_cr3 s1) [0; 1] = Some l2 ∧
  walk (pg_mem s1) (read_cr3 s1) [0; 1; 0] = Some spt.
Proof using K. pose proof (fk_ready _ _ _ _ _ _ _ _ _ K) as R. rewrite (run_root _ _ _ _ _ R). by destruct R. Qed.

Lemma fk_new p : p ∈ D.*2 → p ≠ l3 ∧ p ≠ l2.
Proof using K.
  destruct fk_walk1 as (W3 & W2 & _). intros Hp. split; intros ->.
  - by destruct (fresh_walk a s1 fk_inv1 _ _ _ _ fk_fresh (ok1 0 ltac:(lia)) W3).
  - by destruct (fresh_walk a s1 fk_inv1 _ _ _ _ fk_fresh (ok2 0 1 ltac:(lia) ltac:(lia)) W2).
Qed.

Lemma fk_table path t : ok_path path → walk (pg_mem s2) l4 path = Some t → t ≠ l3 ∧ t ≠ l2.
Proof using K.
  intros Hp Hw. destruct fk_walk1 as (W3 & W2 & _). pose proof (tr_inj _ _ (pi_tree _ _ fk_inv1)) as Hinj.
  destruct (child_walk a s1 fk_inv1 fk_low l4 D s2 (fk_cloned _ _ _ _ _ _ _ _ _ K) path t Hp Hw) as [Hin|(_ & Hw0 & Hout)].
  - apply fk_new. apply list_elem_of_fmap. by exists (path, t).
  - split; intros ->; apply Hout.
    + right. left. exact (Hinj _ _ _ Hp (ok1 0 ltac:(lia)) Hw0 W3).
    + right. right. rewrite (Hinj _ _ _ Hp (ok2 0 1 ltac:(lia) ltac:(lia)) Hw0 W2). done.
Qed.

Lemma fk_space : tree (pg_mem s') l4 ∧ (∀ path, ok_path path → walk (pg_mem s') l4 path = walk (pg_mem s2) l4 path) ∧
  ∀ idx v, idx_ok idx → xlate (pg_mem s') l4 idx v = xlate (pg_mem s2) l4 idx v.
Proof using K.
  pose proof (child_tree a s1 fk_inv1 fk_low l4 D s2 (fk_cloned _ _ _ _ _ _ _ _ _ K)) as Ht.
  apply space_same; [done|]. intros path t i Hp Hw Hi'. destruct (fk_table path t Hp Hw).
  apply (fk_mem _ _ _ _ _ _ _ _ _ K); [exact (tr_ok _ _ Ht _ _ Hp Hw)|done..].
Qed.

Lemma fk_root : read_cr3 child = l4.
Proof using K.
  unfold read_cr3. cbn. rewrite <- (Z.lor_0_r l4) at 1. apply entry_addr_page; [|intros; apply Z.bits_0].
  apply (cl_page a s1 fk_inv1 l4 D [1] s2 [] l4); apply (fk_cloned _ _ _ _ _ _ _ _ _ K).
Qed.

Lemma fk_inv : pt_inv a child.
Proof using K Hi.
  destruct fk_space as (Ht & Hw & _). pose proof (fk_grown _ _ _ _ _ _ _ _ _ K) as G. pose proof (pi_pmm _ _ Hi) as (Htp & _).
  split; try apply Hi; [exact (pi_bm _ _ (gn_inv _ _ _ _ G))|by rewrite fk_root|]. rewrite fk_root. intros path t Hp Hx k Hk E.
  cbn [pg_mem set_cr3 pg_bm] in *. rewrite Hw in Hx by done. apply (gn_used _ _ _ _ G); [unfold in_range; lia|].
  destruct (child_walk a s1 fk_inv1 fk_low l4 D s2 (fk_cloned _ _ _ _ _ _ _ _ _ K) path t Hp Hx) as [Hin|(_ & Hw0 & Hout)].
  - right. rewrite <- E. apply list_elem_of_fmap. by exists (path, t).
  - left. pose proof (fk_ready _ _ _ _ _ _ _ _ _ K) as R. pose proof Hw0 as Hw1. rewrite (run_root _ _ _ _ _ R) in Hw1.
    destruct (gn_walk _ _ _ _ (rd_grown _ _ _ _ _ _ _ R) path t Hp Hw1) as [Hws|[Hne Hmade]]; [by apply (pi_used _ _ Hi path t)|].
    exfalso. apply Hout. right. right. destruct fk_walk1 as (_ & W2 & W1). pose proof (tr_inj _ _ (pi_tree _ _ fk_inv1)) as Hinj.
    destruct Hmade as [->| ->].
    + destruct (rd_pd _ _ _ _ _ _ _ R Hne) as (_ & E2 & _). rewrite E2 in Hw0.
      by rewrite (Hinj _ _ _ Hp (ok2 0 1 ltac:(lia) ltac:(lia)) Hw0 W2).
    + destruct (rd_pt _ _ _ _ _ _ _ R Hne) as (E2 & _). rewrite E2 in Hw0.
      rewrite (Hinj _ _ _ Hp (ok3 0 1 0 ltac:(lia) ltac:(lia) ltac:(lia)) Hw0 W1). by exists [0].
Qed.

Lemma fk_owned x : owned (pg_mem s') h x ↔ x ∈ D.*2.
Proof using K.
  rewrite <- (owned_cloned a s1 fk_inv1 fk_low l4 D [1] s2 x (fk_cloned _ _ _ _ _ _ _ _ _ K)).
  replace (mkHandle l4 true) with h by (pose proof (fk_owns _ _ _ _ _ _ _ _ _ K) as Ho; destruct h; cbn in *; by subst).
  pose proof (child_tree a s1 fk_inv1 fk_low l4 D s2 (fk_cloned _ _ _ _ _ _ _ _ _ K)) as Ht. destruct fk_space as (Ht' & Hw & _).
  assert (∀ path t i, ok_path path → walk (pg_mem s2) l4 path = Some t → 0 ≤ i < 512 →
    ld64 (pg_mem s') (slot t i) = ld64 (pg_mem s2) (slot t i)) as Hm.
  { intros path t i Hp Hx Hi'. destruct (fk_table path t Hp Hx). apply (fk_mem _ _ _ _ _ _ _ _ _ K); [exact (tr_ok _ _ Ht _ _ Hp Hx)|done..]. }
  split; apply owned_same; try done. intros path t i Hp Hx Hi'. rewrite Hw in Hx by done. symmetry. by apply (Hm path).
Qed.

Lemma fk_xlate idx v : idx_ok idx → xlate (pg_mem s1) (read_cr3 s1) idx v = xlate (pg_mem s) (read_cr3 s) idx v.
Proof using K.
  intros Hidx. pose proof (fk_ready _ _ _ _ _ _ _ _ _ K) as R. rewrite (run_root _ _ _ _ _ R).
  by apply (gn_xlate _ _ _ _ (rd_grown _ _ _ _ _ _ _ R)).
Qed.

Lemma fk_leaf_child v : leaf child v = xlate (pg_mem s2) l4 (indices v) v.
Proof using K. unfold leaf. rewrite fk_root. cbn [pg_mem set_cr3]. destruct fk_space as (_ & _ & Hx). apply Hx, indices_ok. Qed.

(** The page that holds the copy, and its contents. *)
Lemma fk_page v x : user_page v → leaf s v = Some (x, true) →
  ∃ p q, page_ok q ∧ x = Z.lor q (Z.land v 4095) ∧ ([0; index_at v 30; index_at v 21; index_at v 12], p) ∈ D ∧
    leaf child v = Some (Z.lor p (Z.land v 4095), true) ∧
    ∀ j, 0 ≤ j < 512 → ld64 (pg_mem s') (slot p j) = ld64 (pg_mem s) (slot q j).
Proof using K Hi Huf.
  intros [Hr Hgap] Hl. destruct (room_index v Hr) as [E4 Hub]. pose proof (index_at_range v 30) as H3. pose proof (index_at_range v 21) as H2.
  pose proof (index_at_range v 12) as H1. pose proof (fk_cloned _ _ _ _ _ _ _ _ _ K) as C. pose proof (fk_ready _ _ _ _ _ _ _ _ _ K) as R.
  assert (index_at v 30 ≠ 1) as Hne.
  { intros E. destruct (index_parts v) as (_ & Hp & _); [destruct Hr; unfold PAGING_USER_CODE_ADDR in *; lia|]. specialize (Hp E4). lia. }
  assert (indices v = (0, index_at v 30, index_at v 21, index_at v 12)) as Ei by (unfold indices; by rewrite E4).
  unfold leaf in Hl. rewrite Ei, <- fk_xlate in Hl by (unfold idx_ok; lia).
  pose proof (child_low a s1 fk_inv1 fk_low l4 D s2 C _ _ _ v H3 H2 H1 Hne) as Hc. rewrite Hl, (proj2 (Z.leb_le _ _) Hub) in Hc.
  destruct Hc as (u & p & Hu & -> & Hp & Hx). exists p, (entry_addr (ld64 (pg_mem s1) (slot u (index_at v 12)))).
  split; [apply entry_addr_ok|]. split; [done|]. split; [done|]. split; [by rewrite fk_leaf_child, Ei|]. intros j Hj.
  cbn [xlate] in Hl. rewrite Hu in Hl. destruct (has (ld64 (pg_mem s1) (slot u (index_at v 12))) PAGE_PRESENT) eqn:Hpr; [|done].
  injection Hl as Hus.
  destruct (user_frames_at a _ s s1 _ _ _ u Hi (rd_grown _ _ _ _ _ _ _ R) Huf H3 H2 H1 Hne Hub Hu) as [[Hnf Hnt] _]; [by rewrite Hpr, Hus|].
  destruct (fk_new p) as [Hn3 Hn2]; [apply list_elem_of_fmap; by eexists (_, p)|].
  rewrite (fk_mem _ _ _ _ _ _ _ _ _ K) by (done || by eapply (cl_page a s1 fk_inv1)).
  rewrite (cl_leaf _ _ _ _ _ _ C [0; index_at v 30; index_at v 21] (index_at v 12) p u j Hp eq_refl Hu Hj).
  apply (gn_mem _ _ _ _ (rd_grown _ _ _ _ _ _ _ R)); [apply entry_addr_ok|done..].
Qed.

(** Everything else. *)
Lemma fk_other v : 0 ≤ v < 2 ^ 48 → leaf child v =
  if (2 ^ 30 <=? v) && (v <? 2 ^ 31) then None else
  match leaf s v with Some (x, true) => if decide (user_page v) then leaf child v else Some (x, true) | r => r end.
Proof using K.
  intros Hv. destruct (index_parts v Hv) as (H4 & H3 & H2 & Hlo). pose proof (index_at_range v 39). pose proof (index_at_range v 30).
  pose proof (index_at_range v 21). pose proof (index_at_range v 12). pose proof (fk_cloned _ _ _ _ _ _ _ _ _ K) as C.
  assert (leaf s v = xlate (pg_mem s1) (read_cr3 s1) (indices v) v) as -> by (unfold leaf; by rewrite fk_xlate by apply indices_ok).
  rewrite fk_leaf_child. unfold indices. destruct (decide (index_at v 39 = 0)) as [E4|N4].
  2: { rewrite (proj2 (Z.ltb_ge v (2 ^ 31))), andb_false_r by lia. rewrite (child_high a s1 fk_inv1 fk_low l4 D s2 C) by (done || unfold idx_ok; lia).
       destruct (xlate (pg_mem s1) (read_cr3 s1) (index_at v 39, index_at v 30, index_at v 21, index_at v 12) v) as [[x []]|]; [|reflexivity..].
       by case_decide. }
  specialize (H3 E4). specialize (H2 E4). specialize (Hlo E4). rewrite E4.
  destruct (decide (index_at v 30 = 1)) as [E3|N3].
  { rewrite E3 in *. rewrite (proj2 (Z.leb_le (2 ^ 30) v)), (proj2 (Z.ltb_lt v (2 ^ 31))) by lia. cbn [andb].
    apply (child_gap a s1 fk_inv1 fk_low l4 D s2 C). }
  assert ((2 ^ 30 <=? v) && (v <? 2 ^ 31) = false) as -> by (zcases; lia).
  pose proof (child_low a s1 fk_inv1 fk_low l4 D s2 C (index_at v 30) (index_at v 21) (index_at v 12) v ltac:(done) ltac:(done) ltac:(done) N3) as Hc.
  destruct (xlate (pg_mem s1) (read_cr3 s1) (0, index_at v 30, index_at v 21, index_at v 12) v) as [[x []]|];
    [|exact Hc|exact Hc]. case_decide as Hr; [reflexivity|].
  destruct (Z.leb_spec PAGING_USER_CODE_ADDR (vbase (index_at v 30) (index_at v 21))) as [Hub|]; [|exact Hc]. destruct Hr.
  rewrite vbase_eq in Hub by done. split; [|lia]. unfold room. unfold PAGING_USER_CODE_ADDR in *. lia.
Qed.
(** Two pages of the user do not share a frame. *)
Lemma fk_distinct v w x y x' y' : user_page v → user_page w → leaf s v = Some (x, true) → leaf s w = Some (y, true) →
  leaf child v = Some (x', true) → leaf child w = Some (y', true) → Z.shiftr x' 12 = Z.shiftr y' 12 → Z.shiftr v 12 = Z.shiftr w 12.
Proof using K Hi Huf.
  intros Hv Hw Hx Hy Hx' Hy' E. pose proof (fk_cloned _ _ _ _ _ _ _ _ _ K) as C.
  destruct (fk_page v x Hv Hx) as (p & _ & _ & _ & Hp & Ep & _). destruct (fk_page w y Hw Hy) as (q & _ & _ & _ & Hq & Eq & _).
  rewrite Hx' in Ep. rewrite Hy' in Eq. injection Ep as ->. injection Eq as ->. rewrite !shiftr_page in E.
  assert (p = q) as ->.
  { destruct (cl_page a s1 fk_inv1 _ _ _ _ _ _ C Hp) as [Hp0 _], (cl_page a s1 fk_inv1 _ _ _ _ _ _ C Hq) as [Hq0 _].
    rewrite !Z.shiftr_div_pow2 in E by lia. change (2 ^ 12) with 4096 in E. rewrite (Z.div_mod p 4096), (Z.div_mod q 4096) by lia. lia. }
  pose proof (cl_inj a s1 _ _ _ _ _ _ _ C Hp Hq) as [= E3 E2 E1]. apply page_number; [apply Hv|apply Hw|done..].
Qed.
End finished.
End whole.

(** The contract of [create_pml4] for [fork]. *)
Lemma create_fork_ok (a : PmmAllocator) (s : pg) (Hi : pt_inv a s)
  (Hlow : has (ld64 (pg_mem s) (slot (read_cr3 s) 0)) PAGE_PRESENT = true) (Huf : user_frames a s) :
  ∃ o s', create_pml4 a s true = Ret (o, s') ∧ pg_cr3 s' = pg_cr3 s ∧ pt_inv a s' ∧ (∀ v, leaf s' v = leaf s v) ∧
    (∀ t i, page_ok t → not_free a (pg_bm s) t → ¬ tbl s t → 0 ≤ i < 512 → ld64 (pg_mem s') (slot t i) = ld64 (pg_mem s) (slot t i)) ∧
    match o with
    | None => ∀ j, in_range j → used (pg_bm s') j = used (pg_bm s) j
    | Some h => let child := set_cr3 (phys h) s' in
        owns_user_leaves h = true ∧ pt_inv a child ∧
        (∀ v x, user_page v → leaf s v = Some (x, true) → ∃ p q, page_ok q ∧ x = Z.lor q (Z.land v 4095) ∧
           leaf child v = Some (Z.lor p (Z.land v 4095), true) ∧ owned (pg_mem s') h p ∧
           ∀ j, 0 ≤ j < 512 → ld64 (pg_mem s') (slot p j) = ld64 (pg_mem s) (slot q j)) ∧
        (∀ v w x y x' y', user_page v → user_page w → leaf s v = Some (x, true) → leaf s w = Some (y, true) →
           leaf child v = Some (x', true) → leaf child w = Some (y', true) → Z.shiftr x' 12 = Z.shiftr y' 12 → Z.shiftr v 12 = Z.shiftr w 12) ∧
        (∀ v, 0 ≤ v < 2 ^ 48 → leaf child v =
           if (2 ^ 30 <=? v) && (v <? 2 ^ 31) then None else
           match leaf s v with Some (x, true) => if decide (user_page v) then leaf child v else Some (x, true) | r => r end) ∧
        (∀ x, owned (pg_mem s') h x → ∃ j, 0 ≤ j < total_pages a ∧ x = page_addr a j ∧ used (pg_bm s) j = false) ∧
        (∀ j, in_range j → used (pg_bm s') j = true ↔ used (pg_bm s) j = true ∨ owned (pg_mem s') h (page_addr a j))
    end.
Proof.
  destruct (create_fork a s Hi Hlow Huf) as (o & s' & -> & Hr). exists o, s'. split; [done|].
  assert (∃ A, grown a A s s') as [A G] by (destruct o; [destruct Hr as (? & ? & ? & ? & ? & ? & D & K); eexists; apply (fk_grown _ _ _ _ _ _ _ _ _ _ _ K)|eauto]).
  split; [apply G|]. split; [apply G|]. split.
  { intros v. unfold leaf. rewrite (grown_root _ _ _ _ G). apply (gn_xlate _ _ _ _ G), indices_ok. }
  split; [apply G|]. clear A G. destruct o as [h|].
  - destruct Hr as (s1 & s2 & prov & l3 & l2 & spt & D & K). pose proof (fk_grown _ _ _ _ _ _ _ _ _ _ _ K) as G. cbv zeta.
    pose proof (fk_owned a s h s1 s2 s' prov l3 l2 spt D K) as Ho.
    split; [apply K|]. split; [by apply (fk_inv a s Hi h s1 s2 s' prov l3 l2 spt D)|]. split; [|split; [|split; [|split]]].
    + intros v x Hv Hx. destruct (fk_page a s Hi Huf h s1 s2 s' prov l3 l2 spt D K v x Hv Hx) as (p & q & ? & ? & Hp & ? & ?).
      exists p, q. split_and!; try done. apply Ho, list_elem_of_fmap. by eexists (_, p).
    + by apply (fk_distinct a s Hi Huf h s1 s2 s' prov l3 l2 spt D).
    + by apply (fk_other a s h s1 s2 s' prov l3 l2 spt D).
    + intros x Hx%Ho. by apply (gn_new _ _ _ _ G).
    + intros j Hj. rewrite Ho. by apply (gn_used _ _ _ _ G).
  - intros j Hj. apply eq_true_iff_eq. rewrite (gn_used _ _ _ _ Hr j Hj). tauto.
Qed.

(** C4: Forking an address space.  When the frames that the user sees are in use and are no page
    tables, building the child's address space always returns; the parent's stays well-formed
    with every translation and the contents of every page but the tables as they were.  When it succeeds, every page of
    the user from the start of the user's code to 512 GiB, but for the second GiB, is in the
    child at the same address with the same permission to the user, on a page of the child's own
    with the same contents; no two of them share a page, and the pages taken were free before.
    Nothing of the second GiB, which holds the scratch page, is mapped in the child, whatever the parent has there;
    every other address is translated as in the parent.  When it fails, every page taken has been given back. *)
Theorem create_pml4_fork_spec (a : PmmAllocator) (s : pg) (Hi : pt_inv a s)
  (Hlow : has (ld64 (pg_mem s) (slot (read_cr3 s) 0)) PAGE_PRESENT = true) (Huf : user_frames a s) :
  ∃ o s', create_pml4 a s true = Ret (o, s') ∧ pg_cr3 s' = pg_cr3 s ∧ pt_inv a s' ∧ (∀ v, leaf s' v = leaf s v) ∧
    (∀ t i, page_ok t → not_free a (pg_bm s) t → ¬ tbl s t → 0 ≤ i < 512 → ld64 (pg_mem s') (slot t i) = ld64 (pg_mem s) (slot t i)) ∧
    match o with
    | None => ∀ j, in_range j → used (pg_bm s') j = used (pg_bm s) j
    | Some h => let child := set_cr3 (phys h) s' in
        owns_user_leaves h = true ∧ pt_inv a child ∧
        (∀ v x, user_page v → leaf s v = Some (x, true) → ∃ p q, page_ok q ∧ x = Z.lor q (Z.land v 4095) ∧
           leaf child v = Some (Z.lor p (Z.land v 4095), true) ∧ owned (pg_mem s') h p ∧
           ∀ j, 0 ≤ j < 512 → ld64 (pg_mem s') (slot p j) = ld64 (pg_mem s) (slot q j)) ∧
        (∀ v w x y x' y', user_page v → user_page w → leaf s v = Some (x, true) → leaf s w = Some (y, true) →
           leaf child v = Some (x', true) → leaf child w = Some (y', true) → Z.shiftr x' 12 = Z.shiftr y' 12 → Z.shiftr v 12 = Z.shiftr w 12) ∧
        (∀ v, 0 ≤ v < 2 ^ 48 → leaf child v =
           if (2 ^ 30 <=? v) && (v <? 2 ^ 31) then None else
           match leaf s v with Some (x, true) => if decide (user_page v) then leaf child v else Some (x, true) | r => r end) ∧
        (∀ x, owned (pg_mem s') h x → ∃ j, 0 ≤ j < total_pages a ∧ x = page_addr a j ∧ used (pg_bm s) j = false) ∧
        (∀ j, in_range j → used (pg_bm s') j = true ↔ used (pg_bm s) j = true ∨ owned (pg_mem s') h (page_addr a j))
    end.
Proof. exact (create_fork_ok a s Hi Hlow Huf). Qed.

(** The address space of the demonstration has one user page, at 0x2800000, on a frame outside the
    memory manager's range. *)
Lemma demo_user_frames : user_frames demo_handle demo_mapped.
Proof.
  intros v x _ Hv. unfold demo_mapped.
  destruct (try_map_ok demo_handle demo_space 41943040 2097152 PAGE_USER_RW demo_space_inv) as (b & s' & -> & _ & _ & Ho & Hb & _ & Gr & _).
  { split; done. }
  { split; [done|]. intros n Hn. apply (testbit_high 3); [lia|done|lia]. }
  assert (∀ w, leaf demo_space w = None) as Hnone.
  { intros w. unfold leaf, indices. cbn [xlate]. done. }
  intros Hl. assert (x = 2097152) as ->.
  { destruct (decide (indices v = indices 41943040)) as [E|E]; [|by rewrite Ho, Hnone in Hl].
    destruct b; [|by rewrite (proj1 Hb), Hnone in Hl]. destruct Hb as [_ Hb]. unfold leaf in *. rewrite E in Hl.
    assert (∀ u, v mod 4096 = 0 → u mod 4096 = 0 → xlate (pg_mem s') (read_cr3 s') (indices u) v = xlate (pg_mem s') (read_cr3 s') (indices u) u ∨
      Z.land v 4095 = 0) as Hz by (intros u H1 _; right; change 4095 with (Z.ones 12); by rewrite Z.land_ones).
    destruct (Hz 41943040 Hv eq_refl) as [Hx|Hx]; [rewrite Hx, Hb in Hl; by injection Hl as <-|].
    revert Hl Hb. unfold xlate. destruct (indices 41943040) as [[[? ?] ?] ?]. destruct (walk _ _ [_; _; _]) as [t|].
    - destruct (has _ PAGE_PRESENT); [|done]. rewrite Hx. change (Z.land 41943040 4095) with 0. rewrite !Z.lor_0_r. by intros [= <- _] [= <- _].
    - destruct (walk _ _ [_; _]) as [t|]; [|done]. cbn [mbind option_bind]. by destruct (_ && _). }
  split.
  - intros k Hk E. exfalso. unfold page_addr, demo_handle, PMM_PAGE_SIZE in *. cbn in *. lia.
  - intros [Ht|(k & Hk & E & _)]%(gw_tbl _ _ _ Gr); [|unfold page_addr, demo_handle, PMM_PAGE_SIZE in *; cbn in *; lia].
    destruct Ht as (path & _ & Hw). destruct path as [|j path] using rev_ind; [by injection Hw|].
    rewrite walk_snoc in Hw. by destruct (walk _ _ path).
Qed.

Lemma create_pml4_fork_spec_witness :
  ∃ h s' p, create_pml4 demo_handle demo_mapped true = Ret (Some h, s') ∧
    leaf demo_mapped 41943040 = Some (2097152, true) ∧ leaf (set_cr3 (phys h) s') 41943040 = Some (p, true) ∧ p ≠ 2097152.
Proof.
  destruct (create_pml4_fork_spec demo_handle demo_mapped demo_mapped_inv ltac:(vm_compute; reflexivity) demo_user_frames)
    as (o & s' & E & _ & _ & _ & _ & Hr).
  assert ((match create_pml4 demo_handle demo_mapped true with Ret (Some _, _) => true | _ => false end) = true) as Hs
    by (vm_compute; reflexivity).
  rewrite E in Hs. destruct o as [h|]; [|discriminate]. destruct Hr as (_ & _ & Hp & _ & _ & Hown & _).
  assert (leaf demo_mapped 41943040 = Some (2097152, true)) as Hl by (vm_compute; reflexivity).
  destruct (Hp 41943040 2097152 ltac:(split; [split; done|lia]) Hl) as (p & q & _ & _ & Hc & Ho & _).
  change (Z.land 41943040 4095) with 0 in Hc. rewrite Z.lor_0_r in Hc.
  refine (ex_intro _ h (ex_intro _ s' (ex_intro _ p (conj E (conj Hl (conj Hc _)))))).
  intros ->. destruct (Hown _ Ho) as (j & Hj & Ej & _). clear -Hj Ej. unfold page_addr, demo_handle, PMM_PAGE_SIZE in *. cbn in *. lia.
Defined.
