(* ===== verification/Kernel.v ===== *)
(** * Process system calls (src/kernel_rust/src/process.rs: fork, waitpid,
      start_scheduler; syscall.rs: exit)

    [kernel] puts the parts together: the terminal with the machine, the bitmap of
    physical pages, and the files.  The page tables are those of [Paging] in the
    machine's memory; the words a process reads and writes are kept per address space
    ([m_umem]), and cloning an address space copies them. *)

From Stdlib Require Import ZArith Lia.
From stdpp Require Import base numbers list list_numbers option gmap.
From S2P Require Import Prelude Pmm Memory Heap VfsTypes OpenFiles Names Paging Keyboard Serial Tty Signal Process Sched.

Local Open Scope Z_scope.

Record kernel (H : Type) := mkK {
  k_io : Tty.io;
  k_bm : bitmap;
  k_ns : nstate H
}.
Arguments mkK {H} _ _ _.
Arguments k_io {H} _.
Arguments k_bm {H} _.
Arguments k_ns {H} _.

Section kernel.
Context {H : Type} `{HL : KHeapLaws H}.
Implicit Types k : kernel H.

Definition k_m k : machine := Tty.mach (k_io k).
Definition k_files k : fstate H := ns_files (k_ns k).
Definition set_m k m : kernel H := mkK (Tty.set_mach m (k_io k)) (k_bm k) (k_ns k).
Definition set_kbm k b : kernel H := mkK (k_io k) b (k_ns k).
Definition set_kfiles k f : kernel H := mkK (k_io k) (k_bm k) (set_files (k_ns k) f).

(** The paging code's view of the machine, and what it leaves. *)
Definition k_pg k : pg := mkPg (m_kmem (k_m k)) (k_bm k) (m_cr3 (k_m k)).
Definition put_pg k (p : pg) : kernel H :=
  set_kbm (set_m k (write_cr3 (pg_cr3 p) (set_kmem (pg_mem p) (k_m k)))) (pg_bm p).

(** "forked", NUL-padded to 32 bytes. *)
Definition forked_name : list Z := [102; 111; 114; 107; 101; 100] ++ replicate 26 0.

(** The child of [parent]. *)
Definition fork_child (parent : Process) (parent_pid child_pid child_pml4 rsp ktop krsp base : Z) : Process :=
  mkProc child_pid child_pml4 Ready (entry parent) rsp ktop krsp base parent_pid 0 0 (brk parent) 0 0
    (sigactions parent) false 0 (stack_low parent) forked_name (fd_table parent) (cwd parent).

(** The user memory of a copied address space: [create_pml4] copies the leaves it finds, so what the parent has at an address is
    there for the child if the new tables lead to it, and at the addresses it leaves out, those of the second GiB, there is nothing. *)
Definition copied_memory (p : pg) (root : Z) (um : mem) : mem := filter (λ w, is_Some (translate_in_pml4 p (fst w) root)) um.

Section pmm.
Context (a : PmmAllocator).

Definition sys_fork k : outcome (Z * kernel H) :=
  let parent_pid := CURRENT_PID (k_m k) in
  parent ← process (k_m k) parent_pid;
  '(child_kstack, bm) ← alloc_pages a (k_bm k) 3;
  let k := set_kbm k bm in
  if child_kstack =? 0 then Ret (-1, k)
  else
    let child_ktop := child_kstack + KERNEL_STACK_SIZE in
    '(child_root, p) ← create_pml4 a (k_pg k) true;
    let k := put_pg k p in
    match child_root with
    | None =>
        bm ← free a (k_bm k) child_kstack;
        Ret (-12, set_kbm k bm)
    | Some root =>
        let m := k_m k in
        let m := set_umem (<[phys root := copied_memory p (phys root) (default ∅ (m_umem m !! m_cr3 m))]> (m_umem m)) m in
        let '(child_krsp, mem) := build_fork_frame (m_kmem m) (syscall_state m) child_ktop in
        let m := set_kmem mem m in
        let t := m_table m in
        let child_pid := next_pid t in
        let t := mkTable (slots t) (u64 (next_pid t + 1)) (count t) in
        match position is_none (slots t) 0 with
        | Some idx =>
            let child := fork_child parent parent_pid child_pid (phys root) (sv_rsp (syscall_state m))
                           child_ktop child_krsp child_kstack in
            l ← store (slots t) idx (Some child);
            f ← incref_fds (k_files k) (fd_table child);
            let m := set_table (mkTable l (next_pid t) (count t + 1)) m in
            Ret (i64 child_pid, set_kfiles (set_m k m) f)
        | None =>
            let k := set_m k (set_table t m) in
            p ← destroy_uncommitted_pml4 a (k_pg k) root;
            let k := put_pg k p in
            bm ← free a (k_bm k) child_kstack;
            Ret (-1, set_kbm k bm)
        end
    end.

(** The first child of [cur_pid] that the request matches: its pid and state.
    [requested] is an [i64]; -1 stands for any child. *)
Fixpoint find_child (l : list (option Process)) (cur_pid requested : Z) : option (Z * ProcessState) :=
  match l with
  | [] => None
  | Some child :: l =>
      if (parent_pid child =? cur_pid) && ((requested =? -1) || (pid child =? u64 requested))
      then Some (pid child, state child) else find_child l cur_pid requested
  | None :: l => find_child l cur_pid requested
  end.

(** [for page in page..page+n]: free the kernel stack. *)
Fixpoint free_stack (bm : bitmap) (base page : Z) (n : nat) : outcome bitmap :=
  match n with
  | O => Ret bm
  | S n => bm ← free a bm (u64 (base + page * PMM_PAGE_SIZE)); free_stack bm base (page + 1) n
  end.

Definition sys_waitpid k (requested wstatus flags : Z) : outcome (Z * kernel H) :=
  let cur_pid := CURRENT_PID (k_m k) in
  match find_child (slots (m_table (k_m k))) cur_pid requested with
  | Some (q, Zombie) =>
      child ← process (k_m k) q;
      let m := if negb (wstatus =? 0) then ust64 (k_m k) wstatus (exit_code child) else k_m k in
      let k := set_m k m in
      match find_slot (slots (m_table m)) q with
      | None => Ret (-1, k)
      | Some i =>
          l ← store (slots (m_table m)) i None;
          let t := mkTable l (next_pid (m_table m)) (Z.max 0 (count (m_table m) - 1)) in
          let k := set_m k (set_table t m) in
          '(_, f) ← cleanup_fds (k_files k) (fd_table child);
          let k := set_kfiles k f in
          p ← destroy_uncommitted_pml4 a (k_pg k) (mkHandle (pml4_phys child) true);
          let k := put_pg k p in
          bm ← free_stack (k_bm k) (kernel_stack_base child) 0
                 (Z.to_nat (KERNEL_STACK_SIZE / PMM_PAGE_SIZE));
          Ret (i64 q, set_kbm k bm)
      end
  | Some (q, _) =>
      if negb (Z.land flags WNOHANG =? 0) then Ret (0, k)
      else
        m ← process_mut (k_m k) cur_pid (λ p, set_state Blocked (set_wait_for q p));
        Ret (0, set_m k (set_should_schedule 1 m))
  | None => Ret (-1, k)
  end.

(** [start_scheduler]: the stack pointer [context_switch_to] is called with. *)
Definition start_scheduler (m : machine) (init_pid : Z) : outcome (Z * machine) :=
  let m := set_current_pid init_pid m in
  proc ← process m init_pid;
  let m := set_syscall_kstack (kernel_stack_top proc) m in
  let m := set_rsp0 (kernel_stack_top proc) m in
  let m := write_cr3 (pml4_phys proc) m in
  m ← process_mut m init_pid (set_state Running);
  Ret (kernel_rsp proc, m).

(** The line [sys_exit] prints: one or two characters for a pid and for a code, which are its digits below 100 only. *)
Definition two_digits (first_mod : bool) (x : Z) : list Z :=
  (if 10 <=? x then [u8 (48 + u8 (if first_mod then (x / 10) mod 10 else x / 10))] else [])
  ++ [u8 (48 + u8 (x mod 10))].

Definition exit_message (q code : Z) : list Z :=
  [86; 73; 66; 73; 88; 58; 32; 80; 73; 68; 32] ++ two_digits false q ++
  [32; 101; 120; 105; 116; 101; 100; 32; 119; 105; 116; 104; 32; 99; 111; 100; 101; 32] ++
  two_digits true code ++ [10].

Definition sys_exit k (code : Z) : outcome (Z * kernel H) :=
  let q := CURRENT_PID (k_m k) in
  let s := k_io k in
  let s := Tty.set_com1 (serial_write (Tty.com1 s) (exit_message q code)) s in
  m ← mark_zombie (Tty.mach s) q code;
  Ret (0, mkK (Tty.set_mach (set_should_schedule 1 m) s) (k_bm k) (k_ns k)).
End pmm.
End kernel.

(** Computes the fields of updated kernels and machines. *)
Ltac kfields :=
  cbn [k_io k_bm k_ns Tty.mach Tty.set_mach set_table set_kmem set_umem write_cr3 m_table CURRENT_PID m_kmem
       m_umem m_cr3 syscall_state pg_mem pg_bm pg_cr3 slots next_pid count fst snd ns_files set_files] in *.
