(* ===== verification/ProcSpec.v ===== *)
(** * What fork, waitpid and exit promise

    A child gets its own slot, pid, kernel stack and address space and shares the open
    files of its parent; a zombie is reaped once; an exiting child wakes the parent
    that waits for it. *)

From Stdlib Require Import ZArith Lia.
From stdpp Require Import base numbers list list_numbers option gmap.
From S2P Require Import Prelude Pmm Memory Kmm Heap VfsTypes OpenFiles FdCalls Names Paging PageClone PageFree Keyboard Serial Tty Signal Process Sched Kernel.

Local Open Scope Z_scope.

(** ** Frames *)

Lemma ld_push ws : ∀ k ptr i j, 
  ld64 (push_words k ptr i ws) (ptr - 8 * j) =
    (if (i <=? j) && (j <? i + Z.of_nat (length ws))
     then ws !!! Z.to_nat (j - i) else ld64 k (ptr - 8 * j)).
Proof.
  induction ws as [|w ws IH]; intros k ptr i j; cbn [push_words length].
  - zcases.
  - rewrite IH. destruct (Z.eqb_spec j i) as [->|Hji].
    + rewrite ld_st_eq, Z.sub_diag. zcases.
    + rewrite ld_st_ne by lia.
      destruct (Z.leb_spec (i + 1) j), (Z.leb_spec i j), (Z.ltb_spec j (i + 1 + Z.of_nat (length ws))),
        (Z.ltb_spec j (i + Z.of_nat (S (length ws)))); cbn; try done; try lia.
      by replace (Z.to_nat (j - i)) with (S (Z.to_nat (j - (i + 1)))) by lia.
Qed.

(** The frame of a forked child, read from its saved stack pointer up. *)
Lemma read_fork_frame k s top : let '(krsp, k') := build_fork_frame k s top in
  read_frame k' krsp = replicate 17 0 ++ [sv_rip s; 35; 514; sv_rsp s; 27].
Proof.
  unfold build_fork_frame, read_frame. change (seqZ 0 22) with [0;1;2;3;4;5;6;7;8;9;10;11;12;13;14;15;16;17;18;19;20;21].
  cbn [fmap list_fmap]. 
  repeat match goal with |- context [ld64 (push_words _ top 1 _) (top - 8 * 22 + 8 * ?i)] =>
    replace (top - 8 * 22 + 8 * i) with (top - 8 * (22 - i)) by lia end.
  rewrite !ld_push. reflexivity.
Qed.

(** ** The table *)

Definition fd_tables_of (l : list (option Process)) : list FdTable :=
  (λ o : option Process, from_option fd_table [] o) <$> l.

Lemma lookup_proc_iff l q p : pids_unique l →
  lookup_proc l q = Some p ↔ pid p = q ∧ ∃ i, l !! i = Some (Some p).
Proof.
  intros Hu. split.
  - intros Hp. split; [by eapply lookup_proc_pid|].
    apply lookup_proc_Some in Hp as (i & _ & Hl). eauto.
  - intros [<- [i Hl]]. apply lookup_proc_Some. exists (Z.of_nat i). rewrite Nat2Z.id.
    split; [|done]. apply (find_slot_is _ _ _ p); [done|lia|by rewrite Nat2Z.id|done].
Qed.

(** Two tables with unique pids and the same processes look the same. *)
Lemma lookup_proc_ext l l' q : pids_unique l → pids_unique l' →
  (∀ p, pid p = q → (∃ i, l !! i = Some (Some p)) ↔ ∃ i, l' !! i = Some (Some p)) →
  lookup_proc l q = lookup_proc l' q.
Proof.
  intros Hu Hu' He. apply option_eq. intros p. rewrite !lookup_proc_iff by done.
  split; intros [Hq Hi]; (split; [done|]); by apply (He p Hq).
Qed.

(** A process in a free slot, with a pid no process has. *)
Lemma unique_add l i p : l !! i = Some None → pids_unique l →
  (∀ j p', l !! j = Some (Some p') → pid p' ≠ pid p) → pids_unique (<[i := Some p]> l).
Proof.
  intros Hi Hu Hn j1 j2 p1 p2 H1 H2 He.
  apply list_lookup_insert_Some in H1 as [(<- & [= <-] & _)|[? H1]],
    H2 as [(<- & [= <-] & _)|[? H2]]; auto.
  - by apply Hn in H2.
  - by apply Hn in H1.
  - by eapply Hu.
Qed.

Lemma unique_remove l i : pids_unique l → pids_unique (<[i := None]> l).
Proof.
  intros Hu j1 j2 p1 p2 H1 H2 He.
  apply list_lookup_insert_Some in H1 as [(? & ? & _)|[? H1]], H2 as [(? & ? & _)|[? H2]]; try done.
  by eapply Hu.
Qed.

Lemma lookup_add l i p q : l !! i = Some None → pids_unique l →
  (∀ j p', l !! j = Some (Some p') → pid p' ≠ pid p) →
  lookup_proc (<[i := Some p]> l) q = if q =? pid p then Some p else lookup_proc l q.
Proof.
  intros Hi Hu Hn. assert (i < length l)%nat as Hlt by (by eapply lookup_lt_Some).
  pose proof (unique_add _ _ _ Hi Hu Hn) as Hu'. case_if.
  - apply lookup_proc_iff; [done|]. split; [done|]. exists i. by rewrite list_lookup_insert_eq.
  - apply lookup_proc_ext; [done..|]. intros p' Hq. split; intros [j Hj].
    + apply list_lookup_insert_Some in Hj as [(? & [= ->] & _)|[? Hj]]; [congruence|eauto].
    + exists j. rewrite list_lookup_insert_ne; [done|]. intros <-. congruence.
Qed.

Lemma lookup_remove l i p q : l !! i = Some (Some p) → pids_unique l →
  lookup_proc (<[i := None]> l) q = if q =? pid p then None else lookup_proc l q.
Proof.
  intros Hi Hu. pose proof (unique_remove l i Hu) as Hu'. case_if.
  - apply eq_None_not_Some. intros [p' Hp']. apply lookup_proc_iff in Hp' as [Hp' [j Hj]]; [|done].
    apply list_lookup_insert_Some in Hj as [(? & ? & _)|[Hne Hj]]; [done|]. apply Hne.
    eapply Hu; eauto. congruence.
  - apply lookup_proc_ext; [done..|]. intros p' Hq. split; intros [j Hj].
    + apply list_lookup_insert_Some in Hj as [(? & ? & _)|[? Hj]]; [done|eauto].
    + exists j. rewrite list_lookup_insert_ne; [done|]. intros <-. congruence.
Qed.

(** The table with a new process, and with one process less. *)
Lemma pt_wf_add t i p : pt_wf t → slots t !! i = Some None → pid p = next_pid t → 0 < next_pid t →
  pt_wf (mkTable (<[i := Some p]> (slots t)) (next_pid t + 1) (count t + 1)).
Proof.
  intros [Hsz Hu Hp Hc] Hi Hpid Hpos. split; cbn [slots next_pid count].
  - unfold table_full_size. by rewrite length_insert.
  - apply unique_add; [done..|]. intros j p' Hj. apply Hp in Hj. lia.
  - intros j p' [(_ & [= <-] & _)|[_ Hj]]%list_lookup_insert_Some; [lia|]. apply Hp in Hj. lia.
  - rewrite (countb_insert _ _ _ _ _ Hi), Hc. cbn. lia.
Qed.

Lemma pt_wf_remove t i p : pt_wf t → slots t !! i = Some (Some p) →
  pt_wf (mkTable (<[i := None]> (slots t)) (next_pid t) (Z.max 0 (count t - 1))).
Proof.
  intros [Hsz Hu Hp Hc] Hi. split; cbn [slots next_pid count].
  - unfold table_full_size. by rewrite length_insert.
  - by apply unique_remove.
  - intros j p' [(_ & ? & _)|[_ Hj]]%list_lookup_insert_Some; [done|]. by apply Hp in Hj.
  - rewrite (countb_insert _ _ _ _ _ Hi), Hc. 
    pose proof (countb_pos (λ o : option Process, bool_decide (is_Some o)) _ _ _ Hi eq_refl).
    cbn. lia.
Qed.

Lemma fd_tables_insert l i o : fd_tables_of (<[i := o]> l) = <[i := from_option fd_table [] o]> (fd_tables_of l).
Proof. unfold fd_tables_of. by rewrite list_fmap_insert. Qed.

Lemma fd_tables_lookup l i o : l !! i = Some o → fd_tables_of l !! i = Some (from_option fd_table [] o).
Proof. intros H. unfold fd_tables_of. by rewrite list_lookup_fmap, H. Qed.

(** ** fork *)

(** What the child of [parent] is and what it shares. *)
Record child_of (m : machine) (parent child : Process) (space stack : Z) : Prop := {
  ch_pid : pid child = next_pid (m_table m);
  ch_parent : parent_pid child = CURRENT_PID m;
  ch_state : state child = Ready;
  ch_space : pml4_phys child = space;
  ch_stack : kernel_stack_base child = stack ∧ kernel_stack_top child = stack + KERNEL_STACK_SIZE;
  ch_files : fd_table child = fd_table parent ∧ cwd child = cwd parent;
  ch_heap : brk child = brk parent ∧ stack_low child = stack_low parent;
  ch_signals : sigactions child = sigactions parent ∧ sig_pending child = 0 ∧ in_signal child = false;
  ch_resume : entry child = entry parent ∧ user_rsp child = sv_rsp (syscall_state m);
  ch_fresh : exit_code child = 0 ∧ wait_for_pid child = 0 ∧ errno child = 0
}.

Lemma free_slot_cases (l : list (option Process)) : None ∈ l →
  ∃ i, position is_none l 0 = Some i ∧ 0 ≤ i < Z.of_nat (length l) ∧ l !! Z.to_nat i = Some None.
Proof.
  intros [k Hk]%list_elem_of_lookup. pose proof (position_spec is_none l 0) as Hp.
  destruct (position is_none l 0) as [i|].
  - destruct Hp as (x & Hi & Hl & Hx & _). rewrite Z.sub_0_r in Hl. exists i.
    split; [done|]. split; [lia|]. by destruct x.
  - by specialize (Hp _ _ Hk).
Qed.

Section fork.
Context {H : Type} `{HL : KHeapLaws H} (a : PmmAllocator).
Implicit Types k : kernel H.

Definition fd_tables k : list FdTable := fd_tables_of (slots (m_table (k_m k))).

Lemma sys_fork_run k parent stack bm root p i f :
  procs (k_m k) (CURRENT_PID (k_m k)) = Some parent →
  alloc_pages a (k_bm k) 3 = Ret (stack, bm) → stack ≠ 0 →
  create_pml4 a (k_pg (set_kbm k bm)) true = Ret (Some root, p) →
  position is_none (slots (m_table (k_m k))) 0 = Some i →
  0 ≤ i < Z.of_nat (length (slots (m_table (k_m k)))) →
  incref_fds (k_files k) (fd_table parent) = Ret f → next_pid (m_table (k_m k)) < 2 ^ 63 - 1 →
  0 < next_pid (m_table (k_m k)) →
  let m := k_m k in
  let top := stack + KERNEL_STACK_SIZE in
  let child := fork_child parent (CURRENT_PID m) (next_pid (m_table m)) (phys root)
                 (sv_rsp (syscall_state m)) top (top - 8 * 22) stack in
  let m' := set_table (mkTable (<[Z.to_nat i := Some child]> (slots (m_table m)))
                         (next_pid (m_table m) + 1) (count (m_table m) + 1))
              (set_kmem (build_fork_frame (pg_mem p) (syscall_state m) top).2
                (set_umem (<[phys root := copied_memory p (phys root) (default ∅ (m_umem m !! m_cr3 m))]> (m_umem m)) m)) in
  sys_fork a k = Ret (next_pid (m_table m), mkK (Tty.set_mach m' (k_io k)) (pg_bm p) (set_files (k_ns k) f)).
Proof.
  intros Hp Ha Hs Hc Hi Hlt Hf Hn1 Hn2. pose proof (create_pml4_cr3 _ _ _ _ _ Hc) as Hcr3.
  unfold sys_fork. rewrite (process_ret _ _ _ Hp). cbn [mbind outcome_bind]. rewrite Ha.
  cbn [mbind outcome_bind]. rewrite (proj2 (Z.eqb_neq _ _) Hs), Hc. cbn [mbind outcome_bind].
  clear Ha Hc. destruct k as [[kb com tt m] bm0 ns], m, p as [pmem pbm pcr3].
  unfold k_files, put_pg, set_kbm, set_m, k_m, k_pg in *. kfields. subst pcr3.
  unfold build_fork_frame. rewrite Hi, store_in_range by done. cbn [mbind outcome_bind].
  unfold fork_child in *. cbn [fd_table]. rewrite Hf. cbn [mbind outcome_bind]. unfold set_kfiles. kfields.
  assert (i64 (next_pid m_table) = next_pid m_table) as -> by (unfold i64; rewrite Z.mod_small by lia; lia).
  by rewrite u64_small by lia.
Qed.

Lemma copied_lookup p root um x : copied_memory p root um !! x = match translate_in_pml4 p x root with Some _ => um !! x | None => None end.
Proof.
  unfold copied_memory. destruct (translate_in_pml4 p x root) as [f|] eqn:E.
  - destruct (um !! x) as [w|] eqn:Ex; [apply map_lookup_filter_Some; cbn [fst]; by eauto|]. apply map_lookup_filter_None. by left.
  - apply map_lookup_filter_None. right. intros w _ [y Hy]. cbn [fst] in Hy. congruence.
Qed.

(** C28: fork.  With room in the table, a kernel stack and a copy of the address space
    ([create_pml4] returned one), [fork] returns the child's pid, a pid no process had.  The child
    is ready, runs in the new address space on the new
    stack, with the parent's descriptors, directory, heap and signal dispositions and no pending signal; its saved frame
    resumes at the instruction after the parent's system call with 0 in every general register, the
    result among them.  Its user memory is a copy of the parent's at every address the new tables lead to, and nothing elsewhere.  Every other
    process is unchanged, the table stays well-formed, and every open file counts the
    child's descriptors.  Nothing else changes: the new state is the old one with the child in the table, the counts of the open
    files, the child's user memory, its frame in kernel memory, and the memory and the bitmap that the copying left. *)
Theorem fork_spec (X : gset Z) (k : kernel H) (parent : Process) (stack : Z) (bm : bitmap) (root : Pml4Handle) (p : pg)
  (Hwf : pt_wf (m_table (k_m k)))
  (Hcur : procs (k_m k) (CURRENT_PID (k_m k)) = Some parent)
  (Hfiles : files_wf X (fd_tables k) (k_files k))
  (Hstack : alloc_pages a (k_bm k) 3 = Ret (stack, bm)) (Hnn : stack ≠ 0)
  (Hclone : create_pml4 a (k_pg (set_kbm k bm)) true = Ret (Some root, p))
  (Hroom : None ∈ slots (m_table (k_m k))) (Hpid : next_pid (m_table (k_m k)) < 2 ^ 63 - 1) :
  ∃ k' child um t f, let q := next_pid (m_table (k_m k)) in let s := syscall_state (k_m k) in
    sys_fork a k = Ret (q, k') ∧ procs (k_m k) q = None ∧ procs (k_m k') q = Some child ∧
    child_of (k_m k) parent child (phys root) stack ∧
    read_frame (m_kmem (k_m k')) (kernel_rsp child) = replicate 17 0 ++ [sv_rip s; 35; 514; sv_rsp s; 27] ∧
    (∀ x, um !! x = match translate_in_pml4 p x (phys root) with Some _ => default ∅ (m_umem (k_m k) !! m_cr3 (k_m k)) !! x | None => None end) ∧
    (∀ q', q' ≠ q → procs (k_m k') q' = procs (k_m k) q') ∧
    pt_wf (m_table (k_m k')) ∧ next_pid t = q + 1 ∧ count t = count (m_table (k_m k)) + 1 ∧
    files_wf X (fd_tables k') (k_files k') ∧
    k' = mkK (Tty.set_mach (set_table t (set_kmem (build_fork_frame (pg_mem p) s (stack + KERNEL_STACK_SIZE)).2
           (set_umem (<[phys root := um]> (m_umem (k_m k))) (k_m k)))) (k_io k)) (pg_bm p) (set_files (k_ns k) f).
Proof.
  destruct (free_slot_cases _ Hroom) as (i & Hi & Hlt & Hl).
  pose proof Hcur as (j & _ & Hj)%lookup_proc_Some.
  destruct (fork_fds_inv X (fd_tables k) (Z.to_nat j) (Z.to_nat i) (fd_table parent) (k_files k) Hfiles)
    as (f & Hf & Hfwf); [exact (fd_tables_lookup _ _ _ Hj)|exact (fd_tables_lookup _ _ _ Hl)|].
  assert (0 < next_pid (m_table (k_m k))) as Hpos by (pose proof (pt_pids _ Hwf _ _ Hj); lia).
  assert (∀ j p', slots (m_table (k_m k)) !! j = Some (Some p') → pid p' ≠ next_pid (m_table (k_m k))) as Hnew
    by (intros j' p' Hp'; pose proof (pt_pids _ Hwf _ _ Hp'); lia).
  pose proof (pt_unique _ Hwf) as Hu.
  eexists _, _, (copied_memory p (phys root) _), (mkTable _ (next_pid (m_table (k_m k)) + 1) (count (m_table (k_m k)) + 1)), f. split; [by apply (sys_fork_run k parent stack bm root p i f)|].
  split.
  { apply eq_None_not_Some. intros [p' Hp']. apply lookup_proc_iff in Hp' as [Hp' [j' Hj']]; [|done].
    by apply Hnew in Hj'. }
  unfold k_m at 1. kfields. split; [rewrite lookup_add by done; cbn [pid fork_child]; by rewrite Z.eqb_refl|].
  split; [by split|]. split; [exact (read_fork_frame _ _ _)|].
  split; [intros x; apply copied_lookup|].
  split; [intros q' Hq'; unfold k_m at 1; kfields; rewrite lookup_add by done; cbn [pid fork_child];
    by rewrite (proj2 (Z.eqb_neq _ _) Hq')|].
  split; [by apply pt_wf_add|]. do 2 (split; [done|]). split; [|done].
  unfold fd_tables, k_files, k_m at 1. kfields. by rewrite fd_tables_insert.
Qed.
End fork.

(** ** waitpid *)

Lemma find_child_Some l cur req q st : find_child l cur req = Some (q, st) →
  ∃ i p, l !! i = Some (Some p) ∧ pid p = q ∧ state p = st ∧ parent_pid p = cur ∧ (req = -1 ∨ q = u64 req).
Proof.
  induction l as [|[p|] l IH]; cbn [find_child]; [done| |].
  - destruct ((parent_pid p =? cur) && _) eqn:E.
    + intros [= <- <-]. exists 0%nat, p. split; [done|]. bool_arith. split_and!; [done..|].
      apply orb_true_iff in H0 as [H0|H0]; bool_arith; auto.
    + intros (i & p' & Hi & Hr)%IH. by exists (S i), p'.
  - intros (i & p' & Hi & Hr)%IH. by exists (S i), p'.
Qed.

(** No match: no child, or none with the requested pid. *)
Lemma find_child_None l cur req : find_child l cur req = None ↔
  ∀ i p, l !! i = Some (Some p) → parent_pid p = cur → req ≠ -1 ∧ pid p ≠ u64 req.
Proof.
  split.
  - induction l as [|[p|] l IH]; cbn [find_child]; [done| |].
    + destruct ((parent_pid p =? cur) && _) eqn:E; [done|]. intros HN [|i] p' Hi Hc; [|by eapply IH].
      cbn in Hi. simplify_eq. apply andb_false_iff in E as [E|E]; bool_arith; [done|]. done.
    + intros HN [|i] p' Hi Hc; [done|]. by eapply IH.
  - intros Hn. destruct (find_child l cur req) as [[q st]|] eqn:E; [|done].
    apply find_child_Some in E as (i & p & Hi & <- & _ & Hc & Hr). destruct (Hn i p Hi Hc). naive_solver.
Qed.

Lemma free_stack_spec a base n : ∀ bm page, bm_wf bm → ∃ bm', free_stack a bm base page n = Ret bm' ∧ bm_wf bm' ∧
  ∀ j, in_range j → used bm' j = true ↔ used bm j = true ∧
    ∀ i, page ≤ i < page + Z.of_nat n → ¬ hits a (u64 (base + i * PMM_PAGE_SIZE)) j.
Proof.
  induction n as [|n IH]; intros bm page Hwf; cbn [free_stack].
  - exists bm. split; [done|]. split; [done|]. intros j Hj. split; [|by intros []].
    intros Hu. split; [done|]. lia.
  - destruct (free_spec a bm (u64 (base + page * PMM_PAGE_SIZE)) Hwf) as (bm1 & -> & Hwf1 & Hu1).
    cbn [mbind outcome_bind]. destruct (IH bm1 (page + 1) Hwf1) as (bm2 & -> & Hwf2 & Hu2).
    exists bm2. split; [done|]. split; [done|]. intros j Hj. rewrite (Hu2 j Hj), (Hu1 j Hj). split.
    + intros [[Hu Hp] Hn]. split; [done|]. intros i Hi. destruct (decide (i = page)) as [->|]; [done|]. apply Hn. lia.
    + intros [Hu Hn]. split; [split; [done|]; apply Hn; lia|]. intros i Hi. apply Hn. lia.
Qed.

(** The pages the memory manager gets back from a reaped process. *)
Definition reaped_page (m : mem) (child : Process) (x : Z) : Prop :=
  owned m (mkHandle (pml4_phys child) true) x ∨
  ∃ i, 0 ≤ i < 3 ∧ x = u64 (kernel_stack_base child + i * PMM_PAGE_SIZE).

Section wait.
Context {H : Type} `{HL : KHeapLaws H} (a : PmmAllocator).
Implicit Types k : kernel H.

Lemma sys_waitpid_run k req wstatus flags q child i fds f p bm :
  find_child (slots (m_table (k_m k))) (CURRENT_PID (k_m k)) req = Some (q, Zombie) →
  procs (k_m k) q = Some child → find_slot (slots (m_table (k_m k))) q = Some i →
  slots (m_table (k_m k)) !! Z.to_nat i = Some (Some child) →
  cleanup_fds (k_files k) (fd_table child) = Ret (fds, f) →
  destroy_uncommitted_pml4 a (k_pg k) (mkHandle (pml4_phys child) true) = Ret p →
  p = set_bm (pg_bm p) (k_pg k) →
  free_stack a (pg_bm p) (kernel_stack_base child) 0 3 = Ret bm → 0 < q < 2 ^ 63 →
  let m := k_m k in
  let t := mkTable (<[Z.to_nat i := None]> (slots (m_table m))) (next_pid (m_table m)) (Z.max 0 (count (m_table m) - 1)) in
  sys_waitpid a k req wstatus flags
  = Ret (q, mkK (Tty.set_mach (set_table t (if negb (wstatus =? 0) then ust64 m wstatus (exit_code child) else m)) (k_io k))
              bm (set_files (k_ns k) f)).
Proof.
  intros Hfc Hp Hs Hl Hf Hd He Hb Hq. unfold sys_waitpid. rewrite Hfc, (process_ret _ _ _ Hp). cbn [mbind outcome_bind].
  set (m1 := if negb (wstatus =? 0) then _ else _).
  assert (m1 = set_umem (m_umem m1) (k_m k)) as Hm1
    by (subst m1; destruct (negb _); [done|by destruct (k_m k)]).
  clearbody m1. generalize dependent (m_umem m1). intros u ->.
  destruct k as [[kb com tt m] bm0 ns], m. unfold k_files, k_pg, set_m, k_m in *. kfields.
  rewrite Hs. unfold store. rewrite Hl. cbn [mbind outcome_bind]. rewrite Hf. cbn [mbind outcome_bind].
  unfold set_kfiles. kfields. rewrite Hd. cbn [mbind outcome_bind]. rewrite He.
  unfold put_pg, set_kbm, set_m, k_m, set_bm. kfields.
  change (Z.to_nat (KERNEL_STACK_SIZE / PMM_PAGE_SIZE)) with 3%nat. rewrite Hb. cbn [mbind outcome_bind].
  unfold i64. rewrite Z.mod_small by lia. by rewrite Z.add_simpl_r.
Qed.

Lemma sys_waitpid_none k req wstatus flags :
  find_child (slots (m_table (k_m k))) (CURRENT_PID (k_m k)) req = None →
  sys_waitpid a k req wstatus flags = Ret (-1, k).
Proof. intros Hn. unfold sys_waitpid. by rewrite Hn. Qed.

(** C29: A zombie is reaped exactly once.  When the child that [waitpid] finds is a zombie, [waitpid]
    returns its pid and stores its exit code where the caller asked; the child is gone from the
    table, no other process changes, its descriptors no longer count as references to open files, the pages of its address space and of
    its kernel stack are free and no other page is freed.  Waiting for the same pid again reports that there is
    no such child. *)
Theorem waitpid_reaps (X : gset Z) (k : kernel H) (req wstatus flags q : Z) (child : Process)
  (Hwf : pt_wf (m_table (k_m k))) (Hbm : bm_wf (k_bm k)) (Hfiles : files_wf X (fd_tables k) (k_files k))
  (Hfind : find_child (slots (m_table (k_m k))) (CURRENT_PID (k_m k)) req = Some (q, Zombie))
  (Hchild : procs (k_m k) q = Some child) (Hfds : length (fd_table child) = 16%nat) (Hq : q < 2 ^ 63) :
  ∃ k', sys_waitpid a k req wstatus flags = Ret (q, k') ∧
    (∀ q', procs (k_m k') q' = if q' =? q then None else procs (k_m k) q') ∧
    (wstatus ≠ 0 → uld64 (k_m k') wstatus = exit_code child) ∧
    pt_wf (m_table (k_m k')) ∧ files_wf X (fd_tables k') (k_files k') ∧ bm_wf (k_bm k') ∧
    (∀ j, in_range j → used (k_bm k') j = true ↔
       used (k_bm k) j = true ∧ ∀ x, reaped_page (m_kmem (k_m k)) child x → ¬ hits a x j) ∧
    (∀ w fl, sys_waitpid a k' q w fl = Ret (-1, k')).
Proof.
  pose proof (pt_unique _ Hwf) as Hu. pose proof Hchild as (i & Hi & Hl)%lookup_proc_Some.
  assert (pid child = q) as Hpid by (by eapply lookup_proc_pid).
  assert (0 < q) as Hq0 by (pose proof (pt_pids _ Hwf _ _ Hl); lia).
  destruct (cleanup_fds_inv X (fd_tables k) (Z.to_nat i) (fd_table child) (k_files k) Hfiles)
    as (fds & f & Hf & Hfwf); [exact (fd_tables_lookup _ _ _ Hl)|done|].
  destruct (destroy_frees a (k_pg k) (mkHandle (pml4_phys child) true) Hbm) as (p & Hd & [Ep Wp Up]).
  destruct (free_stack_spec a (kernel_stack_base child) 3 (pg_bm p) 0 Wp) as (bm & Hb & Wb & Ub).
  eexists. split; [by apply (sys_waitpid_run k req wstatus flags q child i fds f p bm)|].
  unfold fd_tables, k_files, k_m. kfields.
  assert (∀ m, m_table (if negb (wstatus =? 0) then ust64 m wstatus (exit_code child) else m) = m_table m) as Hmt
    by (intros; by destruct (negb _)).
  split; [intros q'; rewrite <- Hpid; by apply lookup_remove|].
  split.
  { intros Hw. rewrite (proj2 (Z.eqb_neq _ _) Hw). unfold uld64, ust64, negb. kfields.
    rewrite lookup_insert_eq. apply ld_st_eq. }
  split; [by apply pt_wf_remove with child|]. split; [by rewrite fd_tables_insert|]. split; [done|]. split.
  - intros j Hj. rewrite (Ub j Hj), (Up j Hj). unfold reaped_page. split.
    + intros [[? ?] Hn]. split; [done|]. intros x [Hx|(i' & Hi' & ->)]; [auto|]. apply Hn. lia.
    + intros [? Hn]. split; [split; [done|]; auto|]. intros i' Hi'. apply Hn. right. exists i'. by split; [lia|].
  - intros w fl. apply sys_waitpid_none, find_child_None. unfold k_m. kfields.
    intros j p' [(_ & ? & _)|[Hne Hj]]%list_lookup_insert_Some _; [done|].
    split; [lia|]. rewrite u64_small by lia. intros Hp'. apply Hne. eapply Hu; eauto. congruence.
Qed.
End wait.

(** ** exit and the waiting parent *)

(** [waitpid] looks at pids and parents only. *)
Lemma find_child_keep l l' cur req : Forall2 (λ o o' : option Process,
    (λ p, (pid p, parent_pid p)) <$> o = (λ p, (pid p, parent_pid p)) <$> o') l l' →
  fst <$> find_child l cur req = fst <$> find_child l' cur req.
Proof.
  induction 1 as [|[p|] [p'|] l l' Ho _ IH]; try done. cbn [find_child].
  injection Ho as -> ->. by destruct (_ && _).
Qed.

(** Machines with the same pids in the same slots, whose processes keep their parents. *)
Lemma find_child_evolve m m' cur req : pids_unique (slots (m_table m)) → pids_unique (slots (m_table m')) →
  shape (slots (m_table m')) = shape (slots (m_table m)) →
  (∀ q, parent_pid <$> procs m' q = parent_pid <$> procs m q) →
  fst <$> find_child (slots (m_table m')) cur req = fst <$> find_child (slots (m_table m)) cur req.
Proof.
  intros Hu Hu' Hs Hp. apply find_child_keep. apply Forall2_same_length_lookup_2.
  { apply (f_equal length) in Hs. unfold shape in Hs. by rewrite !length_fmap in Hs. }
  intros i o' o Ho' Ho. assert (shape (slots (m_table m')) !! i = shape (slots (m_table m)) !! i) as Hi by (by rewrite Hs).
  unfold shape in Hi. rewrite !list_lookup_fmap, Ho, Ho' in Hi. cbn in Hi. injection Hi as Hi.
  destruct o as [p|], o' as [p'|]; try done. cbn in Hi |- *. injection Hi as Hi.
  assert (procs m (pid p) = Some p) as E by (apply lookup_proc_iff; eauto).
  assert (procs m' (pid p) = Some p') as E' by (apply lookup_proc_iff; eauto).
  specialize (Hp (pid p)). rewrite E, E' in Hp. injection Hp as Hp. by rewrite Hi, Hp.
Qed.

Lemma find_child_state m cur req q p : pids_unique (slots (m_table m)) → procs m q = Some p →
  fst <$> find_child (slots (m_table m)) cur req = Some q →
  find_child (slots (m_table m)) cur req = Some (q, state p).
Proof.
  intros Hu Hp Hf. destruct (find_child _ cur req) as [[q' st]|] eqn:E; [|done]. injection Hf as Hf. cbn in Hf. subst q'.
  apply find_child_Some in E as (i & p' & Hi & <- & <- & _).
  assert (procs m (pid p') = Some p') as E by (apply lookup_proc_iff; eauto). congruence.
Qed.

Section exit.
Context {H : Type} `{HL : KHeapLaws H} (a : PmmAllocator).
Implicit Types k : kernel H.

(** The machine when process [q] runs next. *)
Definition switch_to k (q : Z) : kernel H := set_m k (set_current_pid q (k_m k)).

Lemma sys_waitpid_blocks k req wstatus flags q st parent :
  find_child (slots (m_table (k_m k))) (CURRENT_PID (k_m k)) req = Some (q, st) → st ≠ Zombie →
  Z.land flags WNOHANG = 0 → procs (k_m k) (CURRENT_PID (k_m k)) = Some parent →
  sys_waitpid a k req wstatus flags = Ret (0, set_m k (set_should_schedule 1
    (upd (k_m k) (CURRENT_PID (k_m k)) (λ p, set_state Blocked (set_wait_for q p))))).
Proof.
  intros Hf Hst Hfl Hp. unfold sys_waitpid. rewrite Hf. destruct st; try done; rewrite Hfl; cbn [Z.eqb negb];
    by rewrite (process_mut_ret _ _ _ _ Hp).
Qed.

Lemma sys_exit_run k code p : procs (k_m k) (CURRENT_PID (k_m k)) = Some p →
  ∃ m' k', zombified (k_m k) (CURRENT_PID (k_m k)) code p m' ∧ sys_exit k code = Ret (0, k') ∧
    k_m k' = set_should_schedule 1 m' ∧ k_bm k' = k_bm k ∧ k_ns k' = k_ns k.
Proof.
  intros Hp. destruct (mark_zombie_cases (k_m k) _ code p Hp) as (m' & Hm & Hz).
  exists m'. unfold sys_exit. cbn [Tty.mach Tty.set_com1]. change (Tty.mach (k_io k)) with (k_m k). rewrite Hm. cbn [mbind outcome_bind].
  eexists. split_and!; done.
Qed.

(** C30: No lost wake-up between [waitpid] and [exit].  A caller whose child is still running
    blocks on it and asks for a switch.  When that child then exits, the caller is ready again, no longer waits,
    and finds the result 0 in its saved frame; the child is a zombie with its exit code, and
    the [waitpid] that the caller repeats finds exactly this zombie. *)
Theorem waitpid_exit_handshake (k : kernel H) (req wstatus flags q code : Z) (st : ProcessState) (parent child : Process)
  (Hwf : pt_wf (m_table (k_m k)))
  (Hcur : procs (k_m k) (CURRENT_PID (k_m k)) = Some parent) (Hne : q ≠ CURRENT_PID (k_m k))
  (Hfind : find_child (slots (m_table (k_m k))) (CURRENT_PID (k_m k)) req = Some (q, st)) (Hst : st ≠ Zombie)
  (Hflags : Z.land flags WNOHANG = 0) (Hchild : procs (k_m k) q = Some child) :
  let c := CURRENT_PID (k_m k) in
  ∃ k1 k2, sys_waitpid a k req wstatus flags = Ret (0, k1) ∧ should_schedule (k_m k1) = 1 ∧
    procs (k_m k1) c = Some (set_state Blocked (set_wait_for q parent)) ∧
    sys_exit (switch_to k1 q) code = Ret (0, k2) ∧ should_schedule (k_m k2) = 1 ∧
    procs (k_m k2) c = Some (set_wait_for 0 (set_state Ready (set_state Blocked (set_wait_for q parent)))) ∧
    (kernel_rsp parent ≠ 0 → ld64 (m_kmem (k_m k2)) (kernel_rsp parent) = 0) ∧
    procs (k_m k2) q = Some (set_exit_code code (set_state Zombie child)) ∧
    find_child (slots (m_table (k_m k2))) c req = Some (q, Zombie) ∧ pt_wf (m_table (k_m k2)).
Proof.
  intros c. set (g := λ p, set_state Blocked (set_wait_for q p)). set (m1 := upd (k_m k) c g).
  assert (∀ x, procs m1 x = if x =? c then Some (g parent) else procs (k_m k) x) as Hm1
    by (intros; by apply procs_upd).
  set (k1 := set_m k (set_should_schedule 1 m1)).
  assert (parent_pid child = c) as Hpar.
  { apply find_child_Some in Hfind as (i & p & Hi & <- & _ & Hc & _).
    assert (procs (k_m k) (pid p) = Some p) as E by (apply lookup_proc_iff; [apply Hwf|eauto]).
    rewrite Hchild in E. injection E as ->. exact Hc. }
  assert (procs m1 q = Some child) as Hq1 by (rewrite Hm1; by destruct (Z.eqb_spec q c)).
  destruct (sys_exit_run (switch_to k1 q) code child Hq1) as (m' & k2 & (Hz & Hs & Hk & _ & Hn & Hct) & Hrun & Hm2 & _ & _).
  change (CURRENT_PID (k_m (switch_to k1 q))) with q in *.
  change (m_table (k_m (switch_to k1 q))) with (m_table m1) in *.
  assert (pt_wf (m_table m')) as Hwf'.
  { refine (pt_wf_shape _ _ _ _ _ Hwf); [rewrite Hs; by apply shape_upd|by rewrite Hn|by rewrite Hct]. }
  assert (wakes (k_m (switch_to k1 q)) q child = true) as Hwk.
  { unfold wakes. change (m_table (k_m (switch_to k1 q))) with (m_table m1). rewrite Hpar, Hm1, Z.eqb_refl.
    assert (0 < c) by (pose proof Hcur as (i & _ & Hi)%lookup_proc_Some; pose proof (pt_pids _ Hwf _ _ Hi) as Hr;
      rewrite (lookup_proc_pid _ _ _ Hcur) in Hr; subst c; lia).
    rewrite (proj2 (Z.eqb_neq c 0)), (proj2 (Z.eqb_neq c q)) by lia. cbn. by rewrite Z.eqb_refl. }
  rewrite Hwk, Hpar in Hz. rewrite Hwk, Hpar, Hm1, Z.eqb_refl in Hk.
  assert (procs m' q = Some (set_exit_code code (set_state Zombie child))) as Hq' by (by rewrite Hz, Z.eqb_refl).
  exists k1, k2. split; [exact (sys_waitpid_blocks k req wstatus flags q st parent Hfind Hst Hflags Hcur)|].
  split; [done|]. split; [change (procs m1 c = Some (g parent)); by rewrite Hm1, Z.eqb_refl|].
  split; [done|]. rewrite Hm2. cbn [should_schedule set_should_schedule m_table m_kmem]. split; [done|].
  split; [rewrite Hz, (proj2 (Z.eqb_neq c q)) by done; by rewrite Z.eqb_refl, Hm1, Z.eqb_refl|].
  split; [intros Hr; rewrite Hk; cbn [kernel_rsp g set_state set_wait_for];
    rewrite (proj2 (Z.eqb_neq _ _) Hr); apply ld_st_eq|].
  split; [done|]. split; [|done].
  apply (find_child_state m' c req q _ (pt_unique _ Hwf') Hq').
  rewrite (find_child_evolve (k_m k)); [subst c; by rewrite Hfind|apply Hwf|apply Hwf'|rewrite Hs; by apply shape_upd|].
  intros x. rewrite Hz, !Hm1. destruct (Z.eqb_spec x q) as [->|]; [by rewrite Hchild|].
  destruct (Z.eqb_spec x c) as [->|]; [subst c; by rewrite Hcur|done].
Qed.
End exit.

(** ** Examples *)

(** No descriptor is open. *)
Lemma refs_closed tabs i : Forall (λ t, t = FdTable_new ∨ t = []) tabs → 0 ≤ i → refs tabs i = 0.
Proof.
  intros Hf Hi. induction Hf as [|t tabs Ht _ IH]; [done|]. cbn [refs]. rewrite IH, Z.add_0_r.
  destruct Ht as [->| ->]; [|done]. apply countb_zero. unfold FdTable_new.
  intros k x [-> _]%lookup_replicate. apply Z.eqb_neq. lia.
Qed.

Lemma fresh_wf tabs : (length tabs ≤ 64)%nat → Forall (λ t, t = FdTable_new ∨ t = []) tabs → files_wf ∅ tabs fresh_files.
Proof.
  intros Hl Hf. split.
  - split; [done|]. eapply Forall_impl; [exact Hf|]. cbn. intros t [->| ->]; [|by split; [cbn; lia|]].
    split; [vm_compute; lia|]. apply Forall_replicate. unfold fd_ok, OFT_SIZE. lia.
  - destruct fresh_files_wf as [_ Hi]. eapply files_inv_ext; [|exact Hi]. intros i Hi'.
    rewrite !refs_closed; [done|done|lia| |lia]. apply List.Forall_cons; [by left|]. by apply List.Forall_cons; [right|].
Qed.

Definition family_child (q : Z) (s : ProcessState) : Process :=
  mkProc q 4096 s 0 0 0 0 1187840 1 7 0 0 0 0 (replicate 32 SigAction_default) false 0 0 [] FdTable_new [].
Definition family (child_state : ProcessState) : list Process :=
  [demo_proc 1 Running; demo_proc 2 Ready; family_child 3 child_state; family_child 4 Zombie].

(** Page tables at 4096 with a user page at 0x2800000 that holds 42. *)
Definition family_mem : mem :=
  list_to_map [(4096, 8199); (8192, 12295); (12448, 16391); (16384, 20487); (20480, 42)].

Definition family_kernel (child_state : ProcessState) : kernel (mem * heap) :=
  mkK (Tty.demo_io (write_cr3 4096 (set_kmem family_mem (demo_machine 1 (family child_state)))))
    (replicate (Z.to_nat BITMAP_SIZE) 0)
    (mkNs fresh_files MountTable_new ChardevTable_new [] None).

Definition family_pmm : PmmAllocator := mkPmm 64 1048576.

Lemma family_wf s : pt_wf (m_table (k_m (family_kernel s))).
Proof. apply (demo_wf 1 (family s)); [cbn; lia|reflexivity]. Qed.

Lemma family_files s : files_wf ∅ (fd_tables (family_kernel s)) (k_files (family_kernel s)).
Proof.
  apply fresh_wf; [vm_compute; lia|]. unfold fd_tables, fd_tables_of. apply Forall_fmap.
  apply Forall_app. split; [|by apply Forall_replicate; right].
  repeat (apply List.Forall_cons; [by left|]). done.
Qed.

Definition cloned (o : outcome (option Pml4Handle * pg)) : option (Pml4Handle * pg) :=
  match o with Ret (Some h, p) => Some (h, p) | _ => None end.

Lemma cloned_ret o x : cloned o = Some x → o = Ret (Some (fst x), snd x).
Proof. destruct o as [[[h|] p]| | |]; [|done..]. by intros [= <-]. Qed.

Definition stack_taken : bitmap := 7 :: replicate (Z.to_nat 8191) 0.

Lemma family_clones : is_Some (cloned (create_pml4 family_pmm (mkPg family_mem stack_taken 4096) true)).
Proof.
  assert (bool_decide (is_Some (cloned (create_pml4 family_pmm (mkPg family_mem stack_taken 4096) true))) = true) as Hb
    by (vm_compute; reflexivity).
  by apply bool_decide_eq_true in Hb.
Qed.

Lemma fork_spec_witness :
  ∃ k' child, sys_fork family_pmm (family_kernel Ready) = Ret (5, k') ∧ procs (k_m k') 5 = Some child ∧ state child = Ready ∧
    parent_pid child = 1.
Proof.
  destruct family_clones as [[h p] Hc].
  destruct (fork_spec family_pmm ∅ (family_kernel Ready) (demo_proc 1 Running) 1048576 stack_taken h p)
    as (k' & child & um & t & f & Hr & _ & Hch & Hof & _).
  - apply family_wf.
  - reflexivity.
  - apply family_files.
  - vm_compute. reflexivity.
  - done.
  - exact (cloned_ret _ _ Hc).
  - apply list_elem_of_lookup. by exists 10%nat.
  - done.
  - exists k', child. split; [exact Hr|]. split; [exact Hch|]. split; apply Hof.
Defined.

Lemma waitpid_reaps_witness :
  ∃ k', sys_waitpid family_pmm (family_kernel Zombie) (-1) 8192 0 = Ret (3, k') ∧ procs (k_m k') 3 = None ∧
    uld64 (k_m k') 8192 = 7 ∧ sys_waitpid family_pmm k' 3 0 0 = Ret (-1, k').
Proof.
  destruct (waitpid_reaps family_pmm ∅ (family_kernel Zombie) (-1) 8192 0 3 (family_child 3 Zombie))
    as (k' & Hr & Hp & Hw & _ & _ & _ & _ & Ha).
  - apply family_wf.
  - split; [reflexivity|]. by apply Forall_replicate.
  - apply family_files.
  - reflexivity.
  - reflexivity.
  - reflexivity.
  - done.
  - exists k'. split; [exact Hr|]. split; [exact (Hp 3)|]. split; [by apply Hw|apply Ha].
Defined.

Lemma waitpid_exit_handshake_witness :
  ∃ k1 k2, sys_waitpid family_pmm (family_kernel Ready) 3 0 0 = Ret (0, k1) ∧
    sys_exit (switch_to k1 3) 9 = Ret (0, k2) ∧
    find_child (slots (m_table (k_m k2))) 1 3 = Some (3, Zombie).
Proof.
  destruct (waitpid_exit_handshake family_pmm (family_kernel Ready) 3 0 0 3 9 Ready (demo_proc 1 Running)
              (family_child 3 Ready)) as (k1 & k2 & Hw & _ & _ & He & _ & _ & _ & _ & Hf & _).
  - apply family_wf.
  - reflexivity.
  - done.
  - reflexivity.
  - done.
  - reflexivity.
  - reflexivity.
  - exists k1, k2. split; [exact Hw|]. split; [exact He|exact Hf].
Defined.

(** [waitpid(-1)] stops at the first child: with a running child in front of a zombie the caller
    blocks, although a child has exited. *)
Theorem waitpid_any_misses_zombie :
  ∃ k', sys_waitpid family_pmm (family_kernel Ready) (-1) 0 0 = Ret (0, k') ∧
    state <$> procs (k_m k') 1 = Some Blocked ∧ state <$> procs (k_m k') 4 = Some Zombie.
Proof. eexists. split; [reflexivity|]. split; reflexivity. Qed.

(** The line that [exit] prints has the decimal digits of a pid or code below 100; of 100 the first digits make one character,
    a colon, in a pid, and are dropped in a code. *)
Theorem exit_message_digits :
  (∀ b x, 0 ≤ x < 100 → two_digits b x = if x <? 10 then [48 + x] else [48 + x / 10; 48 + x mod 10]) ∧
  two_digits false 100 = [58; 48] ∧ two_digits true 137 = [51; 55].
Proof.
  split; [|split; reflexivity]. intros b x Hx. pose proof (Z.mod_pos_bound x 10 ltac:(lia)). assert (0 ≤ x / 10 < 10) as Hd by (split; [apply Z.div_pos; lia|apply Z.div_lt_upper_bound; lia]).
  unfold two_digits. rewrite (Z.mod_small (x / 10) 10) by lia. assert ((if b then x / 10 else x / 10) = x / 10) as -> by (by destruct b).
  unfold u8. destruct (Z.leb_spec 10 x), (Z.ltb_spec x 10); try lia; cbn [app].
  - by rewrite (Z.mod_small (x / 10) (2 ^ 8)), (Z.mod_small (x mod 10) (2 ^ 8)), !Z.mod_small by lia.
  - by rewrite (Z.mod_small (x mod 10) (2 ^ 8)), (Z.mod_small x 10), !Z.mod_small by lia.
Qed.

(** A fork that cannot copy the address space gives back one of the three pages of the
    child's stack: of three free pages, one is left. *)
Theorem fork_failure_leaks_stack :
  match sys_fork (mkPmm 3 1048576) (family_kernel Ready) with
  | Ret (r, k') => r = -12 ∧ available_pages (mkPmm 3 1048576) (k_bm (family_kernel Ready)) = Ret 3 ∧
      available_pages (mkPmm 3 1048576) (k_bm k') = Ret 1
  | _ => False
  end.
Proof. vm_compute. split_and!; reflexivity. Qed.
