(* ===== verification/MemCalls.v ===== *)
(** * The heap of a process (src/kernel_rust/src/syscall.rs: brk, mmap)

    Both calls map fresh zeroed pages one by one; [map_pages] is their loop.  The kernel clears a new frame
    and builds the tables through the identity map of the calling process, so the checked operations of
    [Reach] are used: a frame outside that map ends the run in [Fault]. *)

From Stdlib Require Import ZArith Lia.
From stdpp Require Import base numbers list list_numbers option gmap.
From S2P Require Import Prelude Pmm Memory Heap VfsTypes OpenFiles Names Paging PageMaps Reach PageClone Keyboard Serial Tty Process Kernel.

Local Open Scope Z_scope.

Definition MAP_FIXED : Z := 16.
Definition MAP_ANONYMOUS : Z := 32.
Definition MAP_FAILED : Z := U64_MAX.

(** [(x + 0xFFF) & !0xFFF]. *)
Definition page_up (x : Z) : Z := and_not (u64 (x + 4095)) 4095.

Section mem.
Context {H : Type} `{HL : KHeapLaws H} (a : PmmAllocator).
Implicit Types k : kernel H.

(** [um] with [n] words from [dst] on read from the physical memory [km] at [src]. *)
Fixpoint mirror_words (um km : mem) (src dst : Z) (n : nat) : mem :=
  match n with
  | O => um
  | S n => mirror_words (st64 um dst (ld64 km src)) km (src + 8) (dst + 8) n
  end.

(** At a newly mapped page the user reads what the frame [phys] holds; [map_4k] leaves the scratch page alone. *)
Definition fresh_user_page (m : machine) (vaddr phys : Z) : machine :=
  if overlaps_kernel_scratch vaddr (sat_add vaddr 4096) then m
  else set_umem (<[m_cr3 m := mirror_words (default ∅ (m_umem m !! m_cr3 m)) (m_kmem m) phys (and_not vaddr 4095) 512]> (m_umem m)) m.

(** [while vaddr < end]: false, with [errno] set, when no page is left.  Every round
    takes a page, so a round per page of the memory manager and one more are enough. *)
Fixpoint map_pages k (vaddr stop errno : Z) (fuel : nat) : outcome (bool * kernel H) :=
  if vaddr <? stop then
    match fuel with
    | O => Hang
    | S fuel =>
        '(phys, bm) ← alloc a (k_bm k);
        let k := set_kbm k bm in
        if phys =? 0 then
          m ← process_mut (k_m k) (CURRENT_PID (k_m k)) (set_errno errno);
          Ret (false, set_m k m)
        else
          p ← zero_table_via (k_pg k) phys;
          p ← map_4k_via a p vaddr phys PAGE_USER_RW;
          let k := put_pg k p in
          let k := set_m k (fresh_user_page (k_m k) vaddr phys) in
          map_pages k (u64 (vaddr + 4096)) stop errno fuel
    end
  else Ret (true, k).

Definition map_fuel : nat := Z.to_nat (total_pages a + 1).

Definition sys_brk k (addr : Z) : outcome (Z * kernel H) :=
  let q := CURRENT_PID (k_m k) in
  proc ← process (k_m k) q;
  if addr =? 0 then Ret (brk proc, k)
  else if (addr <? BRK_START) || (addr >? BRK_MAX) then
    m ← process_mut (k_m k) q (set_errno 38);
    Ret (U64_MAX, set_m k m)
  else
    let current_page_end := page_up (brk proc) in
    let new_page_end := page_up addr in
    '(ok, k) ← (if new_page_end >? current_page_end
                then map_pages k current_page_end new_page_end 38 map_fuel else Ret (true, k));
    if negb (ok : bool) then Ret (U64_MAX, k)
    else
      m ← process_mut (k_m k) q (set_brk addr);
      Ret (addr, set_m k m).

Definition sys_mmap k (addr length prot flags : Z) : outcome (Z * kernel H) :=
  let q := CURRENT_PID (k_m k) in
  proc ← process (k_m k) q;
  let fail k errno := m ← process_mut (k_m k) q (set_errno errno); Ret (MAP_FAILED, set_m k m) in
  if length =? 0 then fail k 22
  else if Z.land flags MAP_ANONYMOUS =? 0 then fail k 38
  else
    let page_aligned_len := page_up length in
    if negb (Z.land flags MAP_FIXED =? 0) && negb (Z.land addr 4095 =? 0) then fail k 22
    else
      '(base, k) ← (if negb (Z.land flags MAP_FIXED =? 0) then Ret (addr, k)
                    else
                      m ← process_mut (k_m k) q (set_brk (u64 (brk proc + page_aligned_len)));
                      Ret (brk proc, set_m k m));
      '(ok, k) ← map_pages k base (u64 (base + page_aligned_len)) 12 map_fuel;
      Ret (if (ok : bool) then base else MAP_FAILED, k).
End mem.
