(* ===== verification/MemSpec.v ===== *)
(** * What growing the heap promises

    A successful [brk] maps every new page to its own frame, taken from the free ones and
    zeroed, and touches no other page. *)

From Stdlib Require Import ZArith Lia.
From stdpp Require Import base numbers list list_numbers option gmap.
From S2P Require Import Prelude Pmm Memory Kmm Heap VfsTypes OpenFiles FdCalls Names Paging PageMaps PageSpec Reach Loader PageClone Keyboard Serial Tty Process Kernel MemCalls.

Local Open Scope Z_scope.

(** ** Counting free pages *)

Definition free_count (a : PmmAllocator) (bm : bitmap) : Z :=
  countb (λ j, negb (used bm j)) (seqZ 0 (total_pages a)).

Lemma free_count_alloc a bm : pmm_wf a → bm_wf bm →
  match alloc a bm with
  | Ret (p, bm') => bm_wf bm' ∧ (∀ j, in_range j → used bm j = true → used bm' j = true) ∧
      if p =? 0 then free_count a bm = 0 ∧ bm' = bm else free_count a bm' = free_count a bm - 1
  | _ => False
  end.
Proof.
  intros Ha Hwf. pose proof Ha as (Ht & Hm & _).
  destruct (alloc_cases a bm Ha Hwf) as [(k & bm' & Hk & Hf & _ & -> & _ & Hwf' & Hu)|(Hall & ->)].
  - split; [done|]. split.
    { intros j Hj Hj'. rewrite Hu by done. rewrite Hj'. by rewrite orb_true_r. }
    rewrite (proj2 (Z.eqb_neq _ _)) by (unfold page_addr, PMM_PAGE_SIZE; lia).
    apply (countb_drop_one _ _ _ k); [apply NoDup_seqZ|apply elem_of_seqZ; lia|by rewrite Hf|].
    intros j Hj%elem_of_seqZ. rewrite Hu by (unfold in_range; lia).
    zcases; by rewrite ?andb_true_r, ?andb_false_r.
  - split; [done|]. split; [done|]. rewrite Z.eqb_refl. split; [|done]. apply countb_zero.
    intros i j Hj%list_elem_of_lookup_2%elem_of_seqZ. rewrite Hall by lia. done.
Qed.

(** ** Mapping within a budget *)

Section map.
Context (a : PmmAllocator) (Ha : pmm_wf a).

(** At least [n] pages are free, and what [bm0] uses is in use. *)
Definition budget (n : Z) (bm0 : bitmap) (s : pg) : Prop :=
  bm_wf (pg_bm s) ∧ (∀ j, in_range j → used bm0 j = true → used (pg_bm s) j = true) ∧ n ≤ free_count a (pg_bm s).

Lemma get_table_budget n bm0 s e : budget n bm0 s →
  match get_or_create_table a s e with
  | Ret (_, s') => budget (n - 1) bm0 s'
  | Hang => n ≤ 0
  | _ => False
  end.
Proof.
  intros (Hwf & Hu & Hn). unfold get_or_create_table. destruct (has _ _); [by split_and!; auto; lia|].
  unfold pmm_alloc. pose proof (free_count_alloc a (pg_bm s) Ha Hwf) as Hal.
  destruct (alloc a (pg_bm s)) as [[p bm']| | |]; [|done..]. destruct Hal as (Hwf' & Hm & Hp).
  cbn [mbind outcome_bind]. destruct (p =? 0); [lia|]. split; [done|]. split; [auto|]. cbn. lia.
Qed.

Lemma map_budget n bm0 s v p f : budget n bm0 s →
  match map_4k a s v p f with
  | Ret s' => budget (n - 3) bm0 s'
  | Hang => n ≤ 2
  | _ => False
  end.
Proof.
  intros Hb. unfold map_4k. destruct (has f PAGE_USER && _).
  { destruct Hb as (? & ? & ?). split_and!; auto; lia. }
  cbn [indices].
  pose proof (get_table_budget n bm0 s (slot (read_cr3 s) (index_at v 39)) Hb) as B1.
  destruct (get_or_create_table a s _) as [[l3 s1]| | |]; try done; cbn [mbind outcome_bind]; [|lia].
  pose proof (get_table_budget _ bm0 s1 (slot l3 (index_at v 30)) B1) as B2.
  destruct (get_or_create_table a s1 _) as [[l2 s2]| | |]; try done; cbn [mbind outcome_bind]; [|lia].
  pose proof (get_table_budget _ bm0 s2 (slot l2 (index_at v 21)) B2) as B3.
  destruct (get_or_create_table a s2 _) as [[l1 s3]| | |]; try done; cbn [mbind outcome_bind]; [|lia].
  replace (n - 3) with (n - 1 - 1 - 1) by lia. by destruct (has f PAGE_USER).
Qed.

(** A page that is not a table can be taken and overwritten. *)
Lemma take_frame s k bm' : pt_inv a s → 0 ≤ k < total_pages a → used (pg_bm s) k = false →
  bm_wf bm' → (∀ j, in_range j → used (pg_bm s) j = true → used bm' j = true) →
  let s' := mkPg (zero_words (pg_mem s) (page_addr a k) 512) bm' (pg_cr3 s) in
  pt_inv a s' ∧ ∀ v, translate s' v = translate s v.
Proof.
  intros Hi Hk Hf Hwf' Hu s'. pose proof (page_addr_ok a s k Hi Hk) as Hn. pose proof (pi_tree _ _ Hi) as Ht.
  assert (∀ path t i, ok_path path → 0 ≤ i < 512 → walk (pg_mem s) (read_cr3 s) path = Some t →
    ld64 (pg_mem s') (slot t i) = ld64 (pg_mem s) (slot t i)) as Hsame.
  { intros path t i Hp Hir Hw. cbn [pg_mem s']. rewrite zero_words_ld.
    pose proof (tr_ok _ _ Ht _ _ Hp Hw) as Hok.
    destruct (decide (t = page_addr a k)) as [->|Hne].
    { pose proof (pi_used _ _ Hi _ _ Hp Hw k Hk eq_refl). congruence. }
    destruct Hok as [Ho _], Hn as [Hn _]. apply Z.mod_divide in Ho as [c ->]; [|lia]. apply Z.mod_divide in Hn as [d Hd]; [|lia].
    rewrite Hd in *. unfold slot. zcases. }
  destruct (tree_same (pg_mem s) (pg_mem s') (read_cr3 s) Ht) as [Ht' Hwalk].
  { intros path t i Hp Hw. pose proof (ok_path_snoc _ _ Hp) as (? & ? & _). rewrite (Hsame path) by done. apply same_link_refl. }
  assert (pt_inv a s') as Hi'.
  { split; [apply Hi|apply Hi|done|done|]. change (read_cr3 s') with (read_cr3 s).
    intros path t Hp Hw j Hj Hte. rewrite Hwalk in Hw by done. apply Hu; [|by eapply (pi_used _ _ Hi)].
    unfold in_range. pose proof Ha as (? & _). lia. }
  split; [done|]. intros v. rewrite !(translate_xlate a) by done. change (read_cr3 s') with (read_cr3 s).
  unfold xlate. cbn [indices]. pose proof (index_at_range v 39). pose proof (index_at_range v 30).
  pose proof (index_at_range v 21). pose proof (index_at_range v 12).
  rewrite !Hwalk by auto using ok2, ok3. destruct (walk _ _ [_; _; _]) as [l1|] eqn:W3.
  - by rewrite (Hsame [index_at v 39; index_at v 30; index_at v 21]) by auto using ok3.
  - destruct (walk _ _ [_; _]) as [l2|] eqn:W2; [|done]. cbn [mbind option_bind].
    by rewrite (Hsame [index_at v 39; index_at v 30]) by auto using ok2.
Qed.

(** Mapping an unmapped page: all goes well, or no page is left for a table. *)
Lemma map_new n bm0 s v p f : pt_inv a s → page_ok p → flags_ok f → translate s v = None → budget n bm0 s →
  has f PAGE_USER && overlaps_kernel_scratch v (sat_add v 4096) = false →
  match map_4k a s v p f with
  | Ret s' => pt_inv a s' ∧ pg_cr3 s' = pg_cr3 s ∧ budget (n - 3) bm0 s' ∧
      (∀ v', indices v' ≠ indices v → leaf s' v' = leaf s v') ∧
      leaf s' v = Some (Z.lor p (Z.land v 4095), has f PAGE_USER) ∧ not_huge s' v ∧ confined a (path_of v) s s' ∧ grew a s s'
  | Hang => n ≤ 2
  | _ => False
  end.
Proof using Ha.
  intros Hi Hp Hf Ht Hb Hs. pose proof (map_budget n bm0 s v p f Hb) as B.
  rewrite map_tables in *. rewrite Hs in *.
  destruct (tables_spec a s v Hi (untranslated_not_huge a s v Hi Ht)) as (o & s1 & E & Hi1 & Hc & Hx & Ho & G & C).
  rewrite E in *. cbn [mbind outcome_bind] in *. destruct o as [[[l3 l2] l1]|]; [|done].
  destruct Ho as (W1 & W2 & W3).
  destruct (mapped_spec a s s1 v p f l3 l2 l1 (has f PAGE_USER)) as (Hi' & Hc' & Ho' & Hv' & G' & Hnh & C'); [done..|].
  split_and!; try done; [by eapply confined_trans|by eapply grew_trans].
Qed.

Lemma map_fresh n bm0 s v p : pt_inv a s → page_ok p → translate s v = None → budget n bm0 s →
  overlaps_kernel_scratch v (sat_add v 4096) = false →
  match map_4k a s v p PAGE_USER_RW with
  | Ret s' => pt_inv a s' ∧ pg_cr3 s' = pg_cr3 s ∧ budget (n - 3) bm0 s' ∧
      (∀ v', indices v' ≠ indices v → translate s' v' = translate s v') ∧
      translate s' v = Some (Z.lor p (Z.land v 4095)) ∧ confined a (path_of v) s s'
  | Hang => n ≤ 2
  | _ => False
  end.
Proof using Ha.
  intros Hi Hp Ht Hb Hs. assert (flags_ok PAGE_USER_RW) as Hf
    by (split; [done|]; intros i Hi'; apply (testbit_high 3); [lia|done|lia]).
  pose proof (map_new n bm0 s v p _ Hi Hp Hf Ht Hb ltac:(by rewrite Hs, andb_false_r)) as M.
  destruct (map_4k a s v p PAGE_USER_RW) as [s'| | |]; [|done..]. destruct M as (Hi' & Hc' & Hb' & Ho' & Hv' & _ & C' & _).
  split_and!; try done; [intros v' Hne|]; rewrite !(translate_leaf a) by done; [by rewrite Ho'|by rewrite Hv'].
Qed.
End map.

(** ** Pages and their indices *)

Lemma page_indices v v' : 0 ≤ v < 2 ^ 48 → 0 ≤ v' < 2 ^ 48 → v mod 4096 = 0 → v' mod 4096 = 0 →
  indices v = indices v' → v = v'.
Proof.
  intros Hv Hv' Hm Hm' He.
  pose proof (Z.div_mod v 4096 ltac:(lia)) as E. pose proof (Z.div_mod v' 4096 ltac:(lia)) as E'.
  rewrite Hm, Z.add_0_r in E. rewrite Hm', Z.add_0_r in E'.
  unfold indices, index_at in He. change 511 with (Z.ones 9) in He.
  rewrite !Z.land_ones, !Z.shiftr_div_pow2 in He by lia. injection He as H4 H3 H2 H1.
  change (2 ^ 39) with (2 ^ 12 * 2 ^ 9 * 2 ^ 9 * 2 ^ 9) in *. change (2 ^ 30) with (2 ^ 12 * 2 ^ 9 * 2 ^ 9) in *.
  change (2 ^ 21) with (2 ^ 12 * 2 ^ 9) in *. rewrite <- !Z.div_div in * by lia.
  change (2 ^ 12) with 4096 in *. change (2 ^ 9) with 512 in *.
  revert H1 H2 H3 H4 E E'. generalize (v / 4096) (v' / 4096). intros x y H1 H2 H3 H4 E E'. enough (x = y) by lia.
  assert (∀ z, 0 ≤ z < 2 ^ 36 → z = ((z / 512 / 512 / 512 mod 512 * 512 + z / 512 / 512 mod 512) * 512 +
    z / 512 mod 512) * 512 + z mod 512) as Hz.
  { intros z Hz. rewrite (Z.mod_small (z / 512 / 512 / 512)).
    - pose proof (Z.div_mod z 512). pose proof (Z.div_mod (z / 512) 512). pose proof (Z.div_mod (z / 512 / 512) 512). lia.
    - rewrite !Z.div_div by lia. split; [by apply Z.div_pos; lia|]. by apply Z.div_lt_upper_bound; lia. }
  rewrite (Hz x), (Hz y), H1, H2, H3, H4 by lia. done.
Qed.

(** ** Growing an address space *)

Section grow.
Context {H : Type} `{HL : KHeapLaws H} (a : PmmAllocator) (Ha : pmm_wf a) (L : Z).
Implicit Types k : kernel H.

(** The page at [v], for the pages of [lo, hi). *)
Definition page_in (lo hi v : Z) : Prop := lo ≤ v < hi ∧ v mod 4096 = 0.

(** [k'] is [k] with the pages of [lo, hi) mapped to fresh, distinct, zeroed frames. *)
Record grown k k' (lo hi : Z) : Prop := {
  gr_inv : pt_inv a (k_pg k');
  gr_machine : k_m k' = set_umem (m_umem (k_m k')) (set_kmem (m_kmem (k_m k')) (k_m k));
  gr_rest : k_io k' = Tty.set_mach (k_m k') (k_io k) ∧ k_ns k' = k_ns k;
  gr_used : ∀ j, in_range j → used (k_bm k) j = true → used (k_bm k') j = true;
  gr_count : free_count a (k_bm k) - 4 * ((hi - lo) / 4096) ≤ free_count a (k_bm k');
  gr_other : ∀ v', (∀ v, page_in lo hi v → indices v' ≠ indices v) → translate (k_pg k') v' = translate (k_pg k) v';
  gr_new : ∀ v, page_in lo hi v → ∃ j, 0 ≤ j < total_pages a ∧ used (k_bm k) j = false ∧ used (k_bm k') j = true ∧
    translate (k_pg k') v = Some (page_addr a j);
  gr_inj : ∀ v v', page_in lo hi v → page_in lo hi v' →
    translate (k_pg k') v = translate (k_pg k') v' → v = v';
  gr_zero : ∀ x, x mod 8 = 0 → uld64 (k_m k') x = if (lo <=? x) && (x <? hi) then 0 else uld64 (k_m k) x
}.

Lemma grown_cr3 k k' lo hi : grown k k' lo hi → m_cr3 (k_m k') = m_cr3 (k_m k).
Proof. intros G. by rewrite (gr_machine _ _ _ _ G). Qed.

Lemma grown_refl k lo : pt_inv a (k_pg k) → grown k k lo lo.
Proof.
  intros Hi. split; auto.
  - by destruct (k_m k).
  - split; [|done]. unfold k_m. by destruct (k_io k).
  - replace ((lo - lo) / 4096) with 0 by (by rewrite Z.sub_diag). lia.
  - intros v [? _]. lia.
  - intros v v' [? _]. lia.
  - intros x _. zcases.
Qed.

Lemma grown_app k k1 k2 lo mid hi : 0 ≤ lo ≤ mid → mid ≤ hi < 2 ^ 48 → lo mod 4096 = 0 → mid mod 4096 = 0 →
  grown k k1 lo mid → grown k1 k2 mid hi → grown k k2 lo hi.
Proof.
  intros Hlo Hhi Hm1 Hm2 G1 G2.
  assert (∀ v, page_in lo mid v → translate (k_pg k2) v = translate (k_pg k1) v) as Hkeep.
  { intros v [Hv Hm]. apply (gr_other _ _ _ _ G2). intros v2 [Hv2 Hm3] He.
    apply page_indices in He; [lia|lia|lia|done|done]. }
  assert (∀ v, page_in lo hi v → page_in lo mid v ∨ page_in mid hi v) as Hsplit.
  { intros v [Hv Hm]. unfold page_in. destruct (decide (v < mid)); [left|right]; (split; [lia|done]). }
  assert (∀ v j, in_range j → 0 ≤ j < total_pages a → page_in lo mid v → used (k_bm k1) j = false →
    translate (k_pg k1) v ≠ Some (page_addr a j)) as Hfr.
  { intros v j Hr Hj Hv Hu He. destruct (gr_new _ _ _ _ G1 v Hv) as (j' & _ & _ & Hj' & E).
    rewrite He in E. injection E as E. apply page_addr_inj in E as ->. congruence. }
  assert (∀ j, 0 ≤ j < total_pages a → in_range j) as Hrange
    by (intros; pose proof Ha as (? & _); unfold in_range; lia).
  split; try apply G2.
  - rewrite (gr_machine _ _ _ _ G2), (gr_machine _ _ _ _ G1). done.
  - destruct (gr_rest _ _ _ _ G1) as [E1 E2], (gr_rest _ _ _ _ G2) as [E3 E4]. rewrite E3, E4, E1. done.
  - intros j Hj Hu. apply (gr_used _ _ _ _ G2); [done|]. by apply (gr_used _ _ _ _ G1).
  - pose proof (gr_count _ _ _ _ G1). pose proof (gr_count _ _ _ _ G2).
    assert ((hi - lo) / 4096 = (hi - mid) / 4096 + (mid - lo) / 4096); [|lia].
    apply Z.mod_divide in Hm1 as [c ->]; [|lia]. apply Z.mod_divide in Hm2 as [d ->]; [|lia].
    replace (d * 4096 - c * 4096) with ((d - c) * 4096) by lia. rewrite Z.div_mul by lia.
    replace (hi - c * 4096) with (hi - d * 4096 + (d - c) * 4096) by lia. rewrite Z.div_add by lia. lia.
  - intros v' Hv'. rewrite (gr_other _ _ _ _ G2), (gr_other _ _ _ _ G1); [done|..];
      intros v [Hv Hm]; apply Hv'; split; lia.
  - intros v [Hv|Hv]%Hsplit.
    + rewrite (Hkeep v Hv). destruct (gr_new _ _ _ _ G1 v Hv) as (j & Hj & Hf & Hu & E). exists j.
      split; [done|]. split; [done|]. split; [|done]. apply (gr_used _ _ _ _ G2); auto.
    + destruct (gr_new _ _ _ _ G2 v Hv) as (j & Hj & Hf & Hu & E). exists j. split; [done|]. split; [|done].
      destruct (used (k_bm k) j) eqn:E'; [|done]. apply (gr_used _ _ _ _ G1) in E'; [|auto]. congruence.
  - assert (∀ v v', page_in lo mid v → page_in mid hi v' → translate (k_pg k2) v ≠ translate (k_pg k2) v') as Hx.
    { intros v v' Hv Hv'. rewrite (Hkeep v Hv). destruct (gr_new _ _ _ _ G2 v' Hv') as (j & Hj & Hf & _ & ->). auto. }
    intros v v' [Hv|Hv]%Hsplit [Hv'|Hv']%Hsplit He.
    + rewrite !Hkeep in He by done. by apply (gr_inj _ _ _ _ G1).
    + by destruct (Hx v v').
    + by destruct (Hx v' v).
    + by apply (gr_inj _ _ _ _ G2).
  - intros x Hx. rewrite (gr_zero _ _ _ _ G2), (gr_zero _ _ _ _ G1) by done. zcases.
Qed.

(** One round of the loop. *)
Definition round k (v : Z) (phys : Z) (bm : bitmap) : outcome (kernel H) :=
  let k1 := set_kbm k bm in
  p ← zero_table_via (k_pg k1) phys;
  p ← map_4k_via a p v phys PAGE_USER_RW;
  Ret (set_m (put_pg k1 p) (fresh_user_page (k_m (put_pg k1 p)) v phys)).

Lemma map_pages_round k v stop errno n : v < stop →
  map_pages a k v stop errno (S n) =
  '(phys, bm) ← alloc a (k_bm k);
  if phys =? 0 then m ← process_mut (k_m (set_kbm k bm)) (CURRENT_PID (k_m (set_kbm k bm))) (set_errno errno);
                    Ret (false, set_m (set_kbm k bm) m)
  else k' ← round k v phys bm; map_pages a k' (u64 (v + 4096)) stop errno n.
Proof.
  intros Hv. cbn [map_pages]. rewrite (proj2 (Z.ltb_lt _ _) Hv).
  destruct (alloc a (k_bm k)) as [[phys bm]| | |]; [|done..]. cbn [mbind outcome_bind].
  destruct (phys =? 0); [done|]. unfold round. destruct (zero_table_via _ phys); [|done..]. cbn [mbind outcome_bind].
  by destruct (map_4k_via a _ v phys PAGE_USER_RW).
Qed.

Lemma lor_page p v : page_ok p → v mod 4096 = 0 → Z.lor p (Z.land v 4095) = p.
Proof.
  intros Hp Hv. change 4095 with (Z.ones 12). rewrite Z.land_ones by lia. change (2 ^ 12) with 4096.
  by rewrite Hv, Z.lor_0_r.
Qed.

Lemma mirror_words_ld um km src dst n y : ld64 (mirror_words um km src dst n) y =
  if (dst <=? y) && (y <? dst + 8 * Z.of_nat n) && ((y - dst) mod 8 =? 0) then ld64 km (src + (y - dst)) else ld64 um y.
Proof.
  revert um src dst. induction n as [|n IH]; intros um src dst; cbn [mirror_words].
  - zcases; cbn; try done; lia.
  - rewrite IH. destruct (decide (y = dst)) as [->|Hne].
    + rewrite Z.sub_diag, Z.add_0_r. zcases; try lia; cbn; rewrite ?ld_st_eq; done.
    + rewrite ld_st_ne by done. replace (src + 8 + (y - (dst + 8))) with (src + (y - dst)) by lia.
      replace ((y - (dst + 8)) mod 8) with ((y - dst) mod 8)
        by (replace (y - (dst + 8)) with (y - dst + (-1) * 8) by lia; by rewrite Z.mod_add by lia).
      destruct (Z.eqb_spec ((y - dst) mod 8) 0) as [E|E]; [|by rewrite !andb_false_r].
      rewrite !andb_true_r. zcases; try lia; try done.
      rewrite Z.mod_small in E by lia. lia.
Qed.

(** The frame of a new page is zero when the page is mapped. *)
Lemma frame_zero s f n v s' : pt_inv a s → 0 ≤ n < total_pages a → f = page_addr a n → used (pg_bm s) n = true → untouched_frame s f →
  confined a (path_of v) (zero_table s f) s' → ∀ i, 0 ≤ i < 512 → ld64 (pg_mem s') (slot f i) = 0.
Proof using Type.
  intros Hi Hk Ef Hu Hun C i Hir. pose proof (page_addr_ok a s n Hi Hk) as Hok. rewrite <- Ef in Hok.
  destruct (C (λ x, x = f)) as [_ Hm _].
  - split; [intros j Hj E; rewrite Ef in E; by apply page_addr_inj in E as ->|].
    intros path x Hp Hw. apply (Hun path x); [by apply (ok_path_prefix (path_of v)); [apply ok3; apply index_at_range|]|].
    assert (∀ path, ok_path path → walk (pg_mem (zero_table s f)) (read_cr3 s) path = walk (pg_mem s) (read_cr3 s) path) as Hsame.
    { apply walk_ext. intros q t j Hq Hwq. pose proof (ok_path_snoc _ _ Hq) as (Hq' & Hj & _). unfold next. cbn [pg_mem zero_table set_mem].
      assert (ld64 (zero_words (pg_mem s) f 512) (slot t j) = ld64 (pg_mem s) (slot t j)) as ->; [|done].
      rewrite zero_words_ld. pose proof (Hun q t Hq' Hwq) as Hne. pose proof (tr_ok _ _ (pi_tree _ _ Hi) _ _ Hq' Hwq) as [Ht _].
      destruct Hok as [Hf _]. apply Z.mod_divide in Ht as [c ->]; [|lia]. apply Z.mod_divide in Hf as [d Hd]; [|lia]. rewrite Hd in *. unfold slot. zcases. }
    rewrite <- Hsame by (by apply (ok_path_prefix (path_of v)); [apply ok3; apply index_at_range|]). exact Hw.
  - rewrite Hm by done. cbn [pg_mem zero_table set_mem]. rewrite zero_words_ld. unfold slot.
    rewrite Z.add_simpl_l, (Z.mul_comm 8), Z.mod_mul by lia. zcases.
Qed.

Lemma round_grown k v n : reached a L (k_pg k) → low_first a L n (k_bm k) → 4 ≤ n → 0 ≤ v → v + 4096 ≤ 2 ^ 30 → v mod 4096 = 0 → translate (k_pg k) v = None →
  match alloc a (k_bm k) with
  | Ret (phys, bm) =>
      if phys =? 0 then free_count a (k_bm k) = 0 ∧ bm = k_bm k
      else match round k v phys bm with
           | Ret k' => grown k k' v (v + 4096) ∧ reached a L (k_pg k') ∧ low_first a L (n - 4) (k_bm k')
           | Hang => free_count a (k_bm k) ≤ 3
           | _ => False
           end
  | _ => False
  end.
Proof.
  intros HR Hlow Hn Hv0 Hv Hm Ht. pose proof (re_inv _ _ _ HR) as Hi. pose proof (pi_bm _ _ Hi) as Hbm. cbn [k_pg pg_bm] in Hbm.
  pose proof (free_count_alloc a (k_bm k) Ha Hbm) as Hal. pose proof Ha as (Htp & Hms & _).
  destruct (alloc_take a (k_bm k) Ha Hbm) as [(j & bm & Hj & Hf & Hlo & E & E0 & _ & Hu)|(_ & E)]; rewrite E in *.
  2: { by destruct Hal as (_ & _ & Hal). }
  destruct Hal as (Hwf & Hmono & Hc). rewrite E0 in *.
  destruct (low_first_alloc a L n _ _ bm Hlow Ha Hj Hf Hlo Hu) as [Hlow1 HbL]. specialize (HbL ltac:(lia)).
  assert (used bm j = true) as Huj by (rewrite Hu by (unfold in_range; lia); zcases).
  pose proof (page_addr_ok a _ j Hi Hj) as Hok.
  assert (reached a L (k_pg (set_kbm k bm))) as R0.
  { change (k_pg (set_kbm k bm)) with (set_bm bm (k_pg k)). apply reached_bm; [done|]. split; try apply Hi; [done|].
    intros path x Hpa Hx i Hi' ->. cbn. apply Hmono; [unfold in_range; lia|]. by apply (pi_used _ _ Hi path _ Hpa Hx i). }
  pose proof (free_untouched a (k_pg k) j bm Hi Hj Hf) as Hun. change (set_bm bm (k_pg k)) with (k_pg (set_kbm k bm)) in Hun.
  destruct (zero_table_agree a L _ _ R0 Hok HbL Hun) as (Ez & R1 & _).
  unfold round. cbv zeta. rewrite Ez. cbn [mbind outcome_bind]. clear Ez. set (s1 := zero_table _ _) in *.
  destruct (take_frame a Ha (k_pg k) j bm Hi Hj Hf Hwf Hmono) as [Hi1 Ht1].
  change (mkPg _ bm _) with s1 in Hi1. change (mkPg _ bm _) with s1 in Ht1.
  assert (overlaps_kernel_scratch v (sat_add v 4096) = false) as Hs.
  { unfold overlaps_kernel_scratch, sat_add, KERNEL_SCRATCH_VA, U64_MAX. zcases. }
  destruct (map_agree a L s1 v (page_addr a j) PAGE_USER_RW (n - 1) R1 Hlow1 ltac:(lia) ltac:(by rewrite Ht1)) as [-> Hvia].
  pose proof (map_fresh a Ha (free_count a bm) bm s1 v (page_addr a j) Hi1 Hok ltac:(by rewrite Ht1) ltac:(by split_and!) Hs) as M.
  destruct (map_4k a s1 v (page_addr a j) PAGE_USER_RW) as [p| | |]; [|done|cbn; lia|done].
  destruct (Hvia p eq_refl) as [Rp Hlp]. replace (n - 1 - 3) with (n - 4) in Hlp by lia.
  destruct M as (Hi2 & Hcr & (Hwf2 & Hu2 & Hc2) & Hother & Hnew & C). cbn [mbind outcome_bind].
  pose proof (frame_zero (k_pg (set_kbm k bm)) (page_addr a j) j v p (re_inv _ _ _ R0) Hj eq_refl Huj Hun C) as Hz.
  change (pg_cr3 s1) with (m_cr3 (k_m k)) in Hcr. rewrite (lor_page _ _ Hok Hm) in Hnew.
  set (k' := set_m _ _). assert (k_pg k' = p) as Hp
    by (subst k'; unfold fresh_user_page; rewrite Hs; by destruct p).
  assert (k_bm k' = pg_bm p) as Hb by done.
  assert (∀ v', page_in v (v + 4096) v' → v' = v) as Hone.
  { intros v' [Hr Hm']. apply Z.mod_divide in Hm as [c ->]; [|lia]. apply Z.mod_divide in Hm' as [d ->]; lia. }
  split; [|by rewrite Hp, Hb]. split; rewrite ?Hp, ?Hb; try done.
  - subst k'. unfold fresh_user_page. rewrite Hs. unfold put_pg, set_kbm, set_m, k_m. kfields. rewrite Hcr.
    reflexivity.
  - auto.
  - replace ((v + 4096 - v) / 4096) with 1 by (by rewrite Z.add_simpl_l). lia.
  - intros v' Hv'. rewrite Hother, Ht1; [done|]. apply Hv'. split; [lia|done].
  - intros v' Hv'. apply Hone in Hv' as ->. exists j. split; [done|]. split; [done|]. split; [|done].
    apply Hu2; [unfold in_range; lia|done].
  - intros v1 v2 ->%Hone ->%Hone. done.
  - intros x Hx. subst k'. unfold fresh_user_page. rewrite Hs. unfold uld64, set_m, k_m, put_pg, set_kbm, set_m, k_m. kfields.
    rewrite lookup_insert_eq. cbn [default from_option id]. rewrite mirror_words_ld, and_not_page, Hm, Z.sub_0_r.
    rewrite Hcr. apply Z.mod_divide in Hm as [c ->]; [|lia]. apply Z.mod_divide in Hx as [d ->]; [|lia].
    replace ((d * 8 - c * 4096) mod 8) with 0 by (replace (d * 8 - c * 4096) with ((d - c * 512) * 8) by lia;
      by rewrite Z.mod_mul). rewrite andb_true_r.
    replace (page_addr a j + (d * 8 - c * 4096)) with (slot (page_addr a j) (d - c * 512)) by (unfold slot; lia).
    destruct (Z.leb_spec (c * 4096) (d * 8)), (Z.ltb_spec (d * 8) (c * 4096 + 4096)), (Z.ltb_spec (d * 8) (c * 4096 + 8 * Z.of_nat 512)); cbn [andb]; try lia; try done.
    apply Hz. lia.
Qed.

Lemma grown_current k k' lo hi : grown k k' lo hi → CURRENT_PID (k_m k') = CURRENT_PID (k_m k) ∧ m_table (k_m k') = m_table (k_m k).
Proof. intros G. by rewrite (gr_machine _ _ _ _ G). Qed.

(** The frames taken are no longer free. *)
Lemma grown_less k k' lo hi v : grown k k' lo hi → page_in lo hi v → free_count a (k_bm k') < free_count a (k_bm k).
Proof.
  intros G Hv. destruct (gr_new _ _ _ _ G v Hv) as (j & Hj & Hf & Hu & _).
  apply (countb_lt _ _ _ (Z.to_nat j) j); [| |by rewrite Hu|by rewrite Hf].
  - intros i x Hx%list_elem_of_lookup_2%elem_of_seqZ. destruct (used (k_bm k) x) eqn:E; [|done].
    apply (gr_used _ _ _ _ G) in E; [by rewrite E|]. pose proof Ha as (? & _). unfold in_range. lia.
  - apply lookup_seqZ. lia.
Qed.

Definition pages (lo hi : Z) : Z := (hi - lo) / 4096.

(** What the loop leaves when it stops in the middle. *)
Definition ran_out k (lo hi errno : Z) k' : Prop := ∃ k1 mid, lo ≤ mid < hi ∧ mid mod 4096 = 0 ∧ grown k k1 lo mid ∧
  free_count a (k_bm k1) = 0 ∧ k' = set_m k1 (upd (k_m k1) (CURRENT_PID (k_m k)) (set_errno errno)).

Lemma map_pages_spec errno n : ∀ k v stop p, reached a L (k_pg k) → low_first a L (4 * pages v stop) (k_bm k) → 0 ≤ v ≤ stop → stop ≤ 2 ^ 30 →
  v mod 4096 = 0 → stop mod 4096 = 0 → (∀ v', page_in v stop v' → translate (k_pg k) v' = None) →
  procs (k_m k) (CURRENT_PID (k_m k)) = Some p → free_count a (k_bm k) < Z.of_nat n →
  match map_pages a k v stop errno n with
  | Ret (true, k') => grown k k' v stop
  | Ret (false, k') => free_count a (k_bm k) < 4 * pages v stop ∧ ran_out k v stop errno k'
  | Hang => free_count a (k_bm k) < 4 * pages v stop
  | _ => False
  end.
Proof.
  induction n as [|n IH]; intros k v stop p HR Hlow Hv Hstop Hm1 Hm2 Hfree Hp Hn; pose proof (re_inv _ _ _ HR) as Hi.
  { pose proof (countb_bound (λ j, negb (used (k_bm k) j)) (seqZ 0 (total_pages a))). unfold free_count in Hn. lia. }
  destruct (decide (v = stop)) as [->|Hne].
  { cbn [map_pages]. rewrite (proj2 (Z.ltb_ge stop stop)) by lia. by apply grown_refl. }
  assert (v + 4096 ≤ stop) as Hroom.
  { apply Z.mod_divide in Hm1 as [c ->]; [|lia]. apply Z.mod_divide in Hm2 as [d ->]; lia. }
  assert (pages v stop = 1 + pages (v + 4096) stop ∧ 0 ≤ pages (v + 4096) stop) as [Hpg Hpg0].
  { unfold pages. replace (stop - v) with (stop - (v + 4096) + 1 * 4096) by lia. rewrite Z.div_add by lia.
    split; [lia|]. apply Z.div_pos; lia. }
  rewrite map_pages_round by lia.
  pose proof (round_grown k v (4 * pages v stop) HR Hlow ltac:(lia) ltac:(lia) ltac:(lia) Hm1 ltac:(apply Hfree; split; [lia|done])) as R.
  destruct (alloc a (k_bm k)) as [[phys bm]| | |]; [|done..]. cbn [mbind outcome_bind].
  destruct (phys =? 0).
  - destruct R as [Hc ->].
    assert (set_kbm k (k_bm k) = k) as Hsame by (by destruct k).
    rewrite Hsame, (process_mut_ret _ _ _ _ Hp). cbn [mbind outcome_bind]. split; [lia|].
    exists k, v. split; [lia|]. split; [done|]. split; [by apply grown_refl|]. by split.
  - destruct (round k v phys bm) as [k1| | |]; [|done|cbn; lia|done]. cbn [mbind outcome_bind].
    destruct R as (G & HR1 & Hlow1). replace (4 * pages v stop - 4) with (4 * pages (v + 4096) stop) in Hlow1 by lia. pose proof (grown_current _ _ _ _ G) as [Hcur Htab].
    rewrite u64_small by lia.
    pose proof (grown_less _ _ _ _ v G ltac:(split; [lia|done])).
    pose proof (gr_count _ _ _ _ G) as Hc1. replace ((v + 4096 - v) / 4096) with 1 in Hc1 by (by rewrite Z.add_simpl_l).
    assert ((v + 4096) mod 4096 = 0) as Hm3 by (replace (v + 4096) with (v + 1 * 4096) by lia; by rewrite Z.mod_add).
    pose proof (IH k1 (v + 4096) stop p HR1 Hlow1 ltac:(lia) Hstop Hm3 Hm2) as M.
    rewrite Hcur, Htab in M. specialize (M ltac:(intros v' [Hv' Hm']; rewrite (gr_other _ _ _ _ G);
      [apply Hfree; split; [lia|done]|intros v2 [Hv2 Hm4] He; apply page_indices in He; [lia|lia|lia|done|done]])
      Hp ltac:(lia)).
    destruct (map_pages a k1 (v + 4096) stop errno n) as [[[|] k']| | |]; [|..|done| |done].
    + apply (grown_app k k1 k' v (v + 4096) stop); try done; lia.
    + destruct M as [L1 (k2 & mid & Hmid & Hm4 & G2 & Hz & ->)]. split; [lia|].
      exists k2, mid. split; [lia|]. split; [done|]. split; [|by rewrite Hcur].
      apply (grown_app k k1 k2 v (v + 4096) mid); try done; lia.
    + lia.
Qed.

Lemma page_up_spec x : 0 ≤ x < 2 ^ 63 → page_up x mod 4096 = 0 ∧ x ≤ page_up x < x + 4096.
Proof.
  intros Hx. unfold page_up. rewrite u64_small, and_not_page by lia.
  pose proof (Z.div_mod (x + 4095) 4096). pose proof (Z.mod_pos_bound (x + 4095) 4096).
  replace (x + 4095 - (x + 4095) mod 4096) with ((x + 4095) / 4096 * 4096) by lia.
  rewrite Z.mod_mul by lia. lia.
Qed.

Lemma free_count_fuel bm : free_count a bm < Z.of_nat (map_fuel a).
Proof.
  pose proof (countb_bound (λ j, negb (used bm j)) (seqZ 0 (total_pages a))) as Hb. rewrite length_seqZ in Hb.
  pose proof Ha as (? & _). unfold map_fuel, free_count. lia.
Qed.

(** C32: [brk].  A query returns the break.  An address outside the heap range is refused with
    ENOSYS and nothing else changes.  Otherwise, on an address space that maps the first [L] bytes to themselves, has its tables there, has nothing mapped above the break, and
    with the lowest free pages, four for each page asked for, below [L]: success sets the break, and each page between the old and the new break is
    mapped to a frame of its own that was free, reads as zero, and no other page's translation or
    content changes; failure leaves the break and sets errno, and, like the halt for lack of a page for a table, needs
    fewer free pages than four per page asked for.  No access leaves the identity map. *)
Theorem brk_spec (k : kernel H) (p : Process) (addr : Z)
  (Hreach : reached a L (k_pg k)) (Hp : procs (k_m k) (CURRENT_PID (k_m k)) = Some p)
  (Hbrk : 0 ≤ brk p ≤ BRK_MAX) (Haddr : 0 ≤ addr)
  (Hlow : low_first a L (4 * pages (page_up (brk p)) (page_up addr)) (k_bm k))
  (Hfree : ∀ v, page_in (page_up (brk p)) (page_up addr) v → translate (k_pg k) v = None) :
  let c := CURRENT_PID (k_m k) in
  let lo := page_up (brk p) in let hi := Z.max lo (page_up addr) in
  if addr =? 0 then sys_brk a k addr = Ret (brk p, k)
  else if (addr <? BRK_START) || (addr >? BRK_MAX)
  then sys_brk a k addr = Ret (U64_MAX, set_m k (upd (k_m k) c (set_errno 38)))
  else match sys_brk a k addr with
       | Ret (r, k') =>
           r = addr ∧ (∃ k1, grown k k1 lo hi ∧ k' = set_m k1 (upd (k_m k1) c (set_brk addr))) ∨
           r = U64_MAX ∧ free_count a (k_bm k) < 4 * pages lo hi ∧ ran_out k lo hi 38 k'
       | Hang => free_count a (k_bm k) < 4 * pages lo hi
       | _ => False
       end.
Proof.
  intros c lo hi. unfold sys_brk. rewrite (process_ret _ _ _ Hp). cbn [mbind outcome_bind].
  destruct (addr =? 0); [done|]. destruct (_ || _) eqn:E; [by rewrite (process_mut_ret _ _ _ _ Hp)|].
  apply orb_false_iff in E as [E1 E2]. rewrite Z.gtb_ltb in E2. bool_arith. unfold BRK_MAX, BRK_START in *.
  destruct (page_up_spec (brk p) ltac:(lia)) as [Hm1 Hr1], (page_up_spec addr ltac:(lia)) as [Hm2 Hr2].
  fold lo in Hm1, Hr1, Hfree, Hlow |- *. rewrite Z.gtb_ltb. destruct (Z.ltb_spec lo (page_up addr)) as [Hlt|Hge].
  - assert (hi = page_up addr) as -> by (subst hi; lia).
    assert (0 ≤ lo ≤ page_up addr ∧ page_up addr ≤ 2 ^ 30) as [? ?] by (split; [lia|]; clear Hfree; lia).
    pose proof (map_pages_spec 38 (map_fuel a) k lo (page_up addr) p Hreach Hlow ltac:(done) ltac:(done) Hm1 Hm2 Hfree Hp
      (free_count_fuel _)) as M.
    destruct (map_pages a k lo (page_up addr) 38 (map_fuel a)) as [[[|] k1]| | |]; try done; cbn [mbind outcome_bind negb].
    + destruct (grown_current _ _ _ _ M) as [Hc Ht].
      assert (procs (k_m k1) c = Some p) as Hp1 by (by rewrite Ht).
      rewrite (process_mut_ret _ _ _ _ Hp1). cbn [mbind outcome_bind]. left. eauto.
    + by right.
  - assert (hi = lo) as Hhi by (subst hi; lia). rewrite Hhi. cbn [mbind outcome_bind negb].
    rewrite (process_mut_ret _ _ _ _ Hp). cbn [mbind outcome_bind]. left. split; [done|]. exists k.
    split; [apply grown_refl, Hreach|done].
Qed.
End grow.

(** ** Examples *)

(** A process with an empty heap, in the address space boot.asm leaves on a machine with 16 pages. *)
Definition heap_machine : machine := set_kmem loader_mem (write_cr3 loader_l4 (demo_machine 1 [set_brk BRK_START (demo_proc 1 Running)])).
Definition heap_kernel : kernel (mem * heap) :=
  mkK (Tty.demo_io heap_machine) (replicate (Z.to_nat BITMAP_SIZE) 0) (mkNs fresh_files MountTable_new ChardevTable_new [] None).

Lemma heap_pages : k_pg heap_kernel = mkPg loader_mem (replicate (Z.to_nat BITMAP_SIZE) 0) loader_l4.
Proof. exact eq_refl. Qed.

Lemma heap_reached : reached demo_handle 4194304 (k_pg heap_kernel).
Proof.
  rewrite heap_pages. apply loader_reached; [split_and!; done|done|done|split; [done|by apply Forall_replicate]|].
  intros t Ht j Hj ->. exfalso. unfold page_addr, demo_handle, PMM_PAGE_SIZE, loader_l4, loader_l3, loader_l2 in *. cbn in *. lia.
Qed.

(** All 16 pages are below 4 MiB. *)
Lemma demo_low n bm : low_first demo_handle 4194304 n bm.
Proof. intros j Hj _ HL. unfold page_addr, demo_handle, PMM_PAGE_SIZE in *. cbn in *. lia. Qed.

Lemma heap_unmapped v : page_in (page_up (brk (set_brk BRK_START (demo_proc 1 Running)))) (page_up (BRK_START + 5000)) v → translate (k_pg heap_kernel) v = None.
Proof.
  change (page_up (brk _)) with BRK_START. change (page_up (BRK_START + 5000)) with (BRK_START + 8192). intros [Hv _].
  rewrite heap_pages. unfold BRK_START in *. rewrite loader_lookup by lia. by rewrite (proj2 (Z.ltb_ge _ _)) by lia.
Qed.

Lemma brk_spec_witness : ∃ k', sys_brk demo_handle heap_kernel (BRK_START + 5000) = Ret (BRK_START + 5000, k') ∧
  is_Some (translate (k_pg k') BRK_START) ∧ is_Some (translate (k_pg k') (BRK_START + 4096)).
Proof.
  pose proof (brk_spec demo_handle ltac:(split_and!; done) 4194304 heap_kernel (set_brk BRK_START (demo_proc 1 Running)) (BRK_START + 5000)
    heap_reached eq_refl ltac:(split; done) ltac:(done) (demo_low _ _) heap_unmapped) as B.
  cbv zeta in B. destruct (sys_brk demo_handle heap_kernel (BRK_START + 5000)) as [[r k']| | |]; cbn beta iota in B; [|destruct B| |destruct B].
  2:{ exfalso. vm_compute in B. discriminate. }
  destruct B as [[-> (k1 & G & ->)]|(_ & B & _)]; [|exfalso; vm_compute in B; discriminate].
  change (grown demo_handle heap_kernel k1 BRK_START (BRK_START + 8192)) in G.
  eexists. split; [reflexivity|]. change (k_pg (set_m k1 _)) with (k_pg k1).
  split.
  - destruct (gr_new _ _ _ _ _ G BRK_START) as (j & _ & _ & _ & ->); [split; done|by eexists].
  - destruct (gr_new _ _ _ _ _ G (BRK_START + 4096)) as (j & _ & _ & _ & ->); [split; done|by eexists].
Defined.

(** With no free page but those from 4 MiB on, which the address space does not map, the same call does not get as far as clearing its first frame. *)
Theorem brk_frame_out_of_reach : sys_brk (mkPmm 16 4194304) heap_kernel (BRK_START + 5000) = Fault.
Proof. vm_compute. reflexivity. Qed.

Definition after {A} (o : outcome (A * kernel (mem * heap))) (f : kernel (mem * heap) → bool) : bool :=
  match o with Ret (_, k) => f k | _ => false end.

(** Shrinking the heap unmaps nothing, and growing it again maps new pages over the old ones:
    the old frame stays in use but no longer backs any page. *)
Theorem brk_regrow_leaks :
  after (sys_brk demo_handle heap_kernel (BRK_START + 4096)) (λ k1,
  after (sys_brk demo_handle k1 BRK_START) (λ k2,
  after (sys_brk demo_handle k2 (BRK_START + 4096)) (λ k3,
    bool_decide (translate (k_pg k3) BRK_START ≠ translate (k_pg k1) BRK_START) &&
    (free_count demo_handle (k_bm k1) =? 14) &&
    (free_count demo_handle (k_bm k3) =? 13)))) = true.
Proof. vm_compute. reflexivity. Qed.

(** [mmap] starts at the break even if that is in the middle of a page, and then replaces the
    page in use there: what the process stored on it is gone. *)
Theorem mmap_replaces_heap_page :
  after (sys_brk demo_handle heap_kernel (BRK_START + 100)) (λ k1,
  let k2 := set_m k1 (ust64 (k_m k1) (BRK_START + 8) 42) in
  after (sys_mmap demo_handle k2 0 4096 3 MAP_ANONYMOUS) (λ k3,
    (uld64 (k_m k2) (BRK_START + 8) =? 42) && (uld64 (k_m k3) (BRK_START + 8) =? 0))) = true.
Proof. vm_compute. reflexivity. Qed.
