(* ===== verification/PageHuge.v ===== *)
(** * Mapping with huge pages (src/kernel_rust/src/paging.rs: map_2m, map_range_2m,
      extend_kernel_identity)

    Huge pages only fill entries that are not present; a range mapped to itself leads every
    address of it to itself. *)

From Stdlib Require Import ZArith Lia.
From stdpp Require Import base numbers list list_numbers option gmap.
From S2P Require Import Prelude Pmm Memory Paging PageMaps PageSpec Reach Loader MemSpec.

Local Open Scope Z_scope.

(** ** One huge page *)

Section huge.
Context (a : PmmAllocator) (Ha : pmm_wf a).

(** There is no table of small pages for [v]. *)
Definition untabled (s : pg) (v : Z) : Prop := walk (pg_mem s) (read_cr3 s) (path_of v) = None.

(** The two tables above the huge page; no table of small pages comes or goes. *)
Lemma upper_tables n bm0 s v : pt_inv a s → budget a n bm0 s →
  match ('(l3, s1) ← get_or_create_table a s (slot (read_cr3 s) (index_at v 39)); get_or_create_table a s1 (slot l3 (index_at v 30))) with
  | Ret (l2, s') => pt_inv a s' ∧ pg_cr3 s' = pg_cr3 s ∧ budget a (n - 2) bm0 s' ∧ (∀ v', leaf s' v' = leaf s v') ∧
      walk (pg_mem s') (read_cr3 s) [index_at v 39; index_at v 30] = Some l2 ∧ ∀ v', untabled s v' → untabled s' v'
  | Hang => n ≤ 1
  | _ => False
  end.
Proof using Ha.
  intros Hi Hb. pose proof (index_at_range v 39) as R4. pose proof (index_at_range v 30) as R3.
  pose proof (get_table_budget a Ha n bm0 s (slot (read_cr3 s) (index_at v 39)) Hb) as B1. rewrite get_or_create_try in *.
  destruct (try_get_spec a s [] (index_at v 39) (read_cr3 s)) as (o3 & s1 & E1 & G1); [done|by apply ok1|done| |].
  { apply (tr_nohuge _ _ (pi_tree _ _ Hi) []); [by apply ok1|cbn; lia|done]. }
  rewrite E1 in *. cbn [mbind outcome_bind] in *. destruct o3 as [l3|]; [|cbn in *; lia].
  pose proof G1 as (Hi1 & Hc1 & Hx1 & Hw1 & Ho1 & A1 & C1). pose proof (got_cr3 _ _ _ _ _ _ G1) as Er.
  pose proof (get_table_budget a Ha _ bm0 s1 (slot l3 (index_at v 30)) B1) as B2. cbn [mbind outcome_bind]. rewrite get_or_create_try in *.
  destruct (try_get_spec a s1 [index_at v 39] (index_at v 30) l3) as (o2 & s2 & E2 & G2);
    [done|by apply ok2|by rewrite Er|by eapply (got_nohuge a s [] (index_at v 39)); [exact G1|by apply ok2|cbn; lia|]|].
  rewrite E2 in *. cbn [mbind outcome_bind] in *. destruct o2 as [l2|]; [|lia].
  pose proof G2 as (Hi2 & Hc2 & Hx2 & Hw2 & Ho2 & A2 & C2). pose proof (got_cr3 _ _ _ _ _ _ G2) as Er2. rewrite Er in *.
  split; [done|]. split; [congruence|]. split; [by replace (n - 2) with (n - 1 - 1) by lia|].
  split. { intros v'. unfold leaf. rewrite Er2. by rewrite Hx2, Hx1 by apply indices_ok. }
  split; [done|]. intros v' Hv'. unfold untabled in *. rewrite Er2.
  assert (∀ (x y : pg), read_cr3 x = read_cr3 s → read_cr3 y = read_cr3 s → confined a [index_at v 39; index_at v 30] x y →
    walk (pg_mem x) (read_cr3 s) (path_of v') = None → walk (pg_mem y) (read_cr3 s) (path_of v') = None) as Hkeep.
  { intros x y Ex Ey C Hx. destruct (walk (pg_mem y) _ _) as [t|] eqn:W; [|done]. exfalso.
    destruct (C (λ _, False)) as [_ _ Hoff]; [by split; [|tauto]|].
    assert (walk (pg_mem x) (read_cr3 x) (path_of v') = Some t) as W'; [|rewrite Ex in W'; congruence].
    apply Hoff; [apply ok3; apply index_at_range| |by rewrite Ey].
    intros Hpre%prefix_length. cbn in Hpre. lia. }
  apply (Hkeep s1 s2); [done..| |].
  - apply C2; [by apply ok2|done].
  - apply (Hkeep s s1); [done..| |done]. apply C1; [by apply ok2|]. by exists [index_at v 30].
Qed.

Definition huge_flags (f : Z) : Prop := flags_ok f ∧ has f PAGE_HUGE = true.

Lemma untabled_none s v v' : pt_inv a s → untabled s v → path_of v' = path_of v → leaf s v = None → leaf s v' = None.
Proof.
  intros Hi Hv Hp. unfold untabled, leaf, path_of in *. injection Hp as E4 E3 E2. unfold xlate, indices. rewrite E4, E3, E2, Hv.
  destruct (walk _ _ [_; _]) as [l2|]; [|done]. cbn [mbind option_bind]. by destruct (_ && _).
Qed.

Lemma map_2m_ok n bm0 s v p f : pt_inv a s → budget a n bm0 s → page_ok p → huge_flags f →
  match map_2m a s v p f with
  | Ret s' => pt_inv a s' ∧ pg_cr3 s' = pg_cr3 s ∧ budget a (n - 2) bm0 s' ∧ (∀ v', untabled s v' → untabled s' v') ∧
      (∀ v', path_of v' ≠ path_of v → leaf s' v' = leaf s v') ∧
      (untabled s v → ∀ v', path_of v' = path_of v → leaf s' v' =
         match leaf s v with Some _ => leaf s v' | None => Some (Z.lor p (Z.land v' 2097151), false) end)
  | Hang => n ≤ 1
  | _ => False
  end.
Proof using Ha.
  intros Hi Hb Hp [Hf Hh]. unfold map_2m. cbn [indices]. pose proof (upper_tables n bm0 s v Hi Hb) as U.
  destruct (get_or_create_table a s _) as [[l3 s1]| | |]; [|done..]. cbn [mbind outcome_bind] in *.
  destruct (get_or_create_table a s1 _) as [[l2 s2]| | |]; [|done..]. destruct U as (Hi2 & Hc & Hb2 & Hl & W2 & Hu).
  cbn [mbind outcome_bind]. assert (read_cr3 s2 = read_cr3 s) as Er by (unfold read_cr3; by rewrite Hc).
  destruct (has (pg_ld s2 (slot l2 (index_at v 21))) PAGE_PRESENT) eqn:E; cbn [negb].
  - split_and!; try done. intros Ht%Hu v' Ev. rewrite Hl.
    destruct (leaf s v) as [?|] eqn:El; [done|]. exfalso. rewrite <- Hl in El. revert El. unfold leaf, indices, xlate. rewrite Er.
    unfold untabled, path_of in Ht. rewrite Er in Ht. rewrite Ht, W2. cbn [mbind option_bind].
    rewrite walk3, W2 in Ht. cbn [mbind option_bind] in Ht. unfold next, link in Ht. change (ld64 (pg_mem s2) ?x) with (pg_ld s2 x) in *.
    rewrite E in *. by destruct (has (pg_ld s2 _) PAGE_HUGE).
  - pose proof (index_at_range v 39) as R4. pose proof (index_at_range v 30) as R3. pose proof (index_at_range v 21) as R2.
    destruct (leaf_entry p f Hp Hf) as (Lp & La & _).
    destruct (huge_write (pg_mem s2) (read_cr3 s) _ _ _ l2 (Z.lor p f) ltac:(rewrite <- Er; apply Hi2) R4 R3 R2 W2 E Lp) as (Ht' & Hw' & Hx').
    { unfold PAGE_HUGE in *. rewrite has_bit in * by lia. by rewrite Z.lor_spec, Hh, orb_true_r. }
    assert (∀ v', leaf (pg_st s2 (slot l2 (index_at v 21)) (Z.lor p f)) v' =
      if decide (path_of v' = path_of v) then Some (Z.lor p (Z.land v' 2097151), false) else leaf s v') as Hleaf.
    { intros v'. rewrite <- Hl. unfold leaf at 1. change (read_cr3 (pg_st s2 _ _)) with (read_cr3 s2). rewrite Er.
      unfold indices. cbn [pg_mem pg_st set_mem]. rewrite Hx' by apply indices_ok. rewrite La.
      destruct (decide (path_of v' = path_of v)) as [Ep|Ep].
      - unfold path_of in Ep. injection Ep as -> -> ->. by rewrite decide_True.
      - rewrite decide_False by (intros [= E4 E3 E2]; apply Ep; unfold path_of; by rewrite E4, E3, E2). unfold leaf, indices. by rewrite Er. }
    split_and!.
    + split; cbn [pg_bm pg_st set_mem pg_mem]; try apply Hi2.
      * change (read_cr3 (pg_st s2 _ _)) with (read_cr3 s2). by rewrite Er.
      * intros path t Hpa. change (read_cr3 (pg_st s2 _ _)) with (read_cr3 s2). rewrite Er, Hw', <- Er by done. by apply (pi_used _ _ Hi2).
    + done.
    + done.
    + intros v' Hv'%Hu. unfold untabled in *. change (read_cr3 (pg_st s2 _ _)) with (read_cr3 s2). rewrite Er in *. cbn [pg_mem pg_st set_mem].
      rewrite Hw'; [done|]. apply ok3; apply index_at_range.
    + intros v' Hne. rewrite Hleaf. by rewrite decide_False.
    + intros Hv v' Ev. rewrite Hleaf, decide_True by done. destruct (leaf s v) as [y|] eqn:El; [|done]. exfalso.
      rewrite <- Hl in El. revert El. apply Hu in Hv. unfold leaf, indices, xlate, untabled, path_of in *. rewrite Er in *. rewrite Hv, W2. cbn [mbind option_bind].
      change (ld64 (pg_mem s2) ?x) with (pg_ld s2 x). by rewrite E.
Qed.
End huge.

(** ** A range mapped to itself *)

Section range.
Context (a : PmmAllocator) (Ha : pmm_wf a).

(** Every address of the range leads nowhere or to itself, and has no table of small pages. *)
Definition plain (s : pg) (lo hi : Z) : Prop :=
  ∀ v, lo ≤ v < hi → untabled s v ∧ (translate s v = None ∨ translate s v = Some v).

Lemma identity_loop base f n : base mod HUGE = 0 → 0 ≤ base → huge_flags f → ∀ i s k bm0, pt_inv a s → budget a k bm0 s → 0 ≤ i →
  base + (i + Z.of_nat n) * HUGE ≤ 2 ^ 48 → plain s (base + i * HUGE) (base + (i + Z.of_nat n) * HUGE) →
  match map_2m_loop a s base base f i n with
  | Ret s' => pt_inv a s' ∧ pg_cr3 s' = pg_cr3 s ∧ budget a (k - 2 * Z.of_nat n) bm0 s' ∧ (∀ v, untabled s v → untabled s' v) ∧
      (∀ v, base + i * HUGE ≤ v < base + (i + Z.of_nat n) * HUGE → translate s' v = Some v) ∧
      (∀ v, 0 ≤ v < 2 ^ 48 → ¬ (base + i * HUGE ≤ v < base + (i + Z.of_nat n) * HUGE) → leaf s' v = leaf s v)
  | Hang => k < 2 * Z.of_nat n
  | _ => False
  end.
Proof using Ha.
  intros Hm Hb Hf. induction n as [|n IH]; intros i s k bm0 Hi Hk Hi0 Htop Hpl.
  { cbn [map_2m_loop]. replace (k - 2 * Z.of_nat 0) with k by lia. split_and!; try done. intros v Hv. lia. }
  assert (0 < HUGE) as H0 by done. set (w := base + i * HUGE) in *.
  assert (w mod HUGE = 0) as Hw by (subst w; rewrite Z.mod_add by lia; done).
  assert (w + HUGE ≤ 2 ^ 48) as Hw' by (subst w; nia). assert (0 ≤ w) as Hw0 by (subst w; nia).
  cbn [map_2m_loop]. change 2097152 with HUGE. rewrite !u64_small by (split; [lia|]; apply (Z.lt_trans _ (2 ^ 48)); [lia|done]). fold w.
  assert (page_ok w) as Hp.
  { split; [|lia]. apply Z.mod_divide in Hw as [q ->]; [|lia]. unfold HUGE. replace (q * 2097152) with (q * 512 * 4096) by lia. apply Z.mod_mul. lia. }
  pose proof (map_2m_ok a Ha k bm0 s w w f Hi Hk Hp Hf) as M.
  destruct (map_2m a s w w f) as [s1| | |]; [|done|cbn [mbind outcome_bind]; lia|done]. cbn [mbind outcome_bind].
  destruct M as (Hi1 & Hc1 & Hk1 & Hu1 & Ho1 & Hn1).
  assert (∀ v, 0 ≤ v < 2 ^ 48 → path_of v = path_of w ↔ w ≤ v < w + HUGE) as Hin.
  { intros v Hv. rewrite path_block by lia. apply Z.mod_divide in Hw as [q Eq]; [|lia]. rewrite Eq, Z.div_mul by lia.
    split; intros E; [pose proof (Z.div_mod v HUGE ltac:(lia)); pose proof (Z.mod_pos_bound v HUGE ltac:(lia)); nia|].
    symmetry. apply (Z.div_unique_pos _ _ _ (v - q * HUGE)); lia. }
  assert (∀ v, w ≤ v < w + HUGE → translate s1 v = Some v) as Hnew.
  { intros v Hv. assert (path_of v = path_of w) as Ev by (apply Hin; lia).
    destruct (Hpl w ltac:(subst w; nia)) as [Htw _]. destruct (Hpl v ltac:(subst w; nia)) as [Htv Hv'].
    rewrite (translate_leaf a) by done. rewrite (Hn1 Htw v Ev). destruct (leaf s w) as [y|] eqn:El.
    - rewrite (translate_leaf a) in Hv' by done. destruct Hv' as [Hnone|]; [exfalso|done].
      rewrite (untabled_none a s v w Hi Htv (eq_sym Ev)) in El; [done|]. by destruct (leaf s v).
    - cbn. f_equal. by apply huge_addr. }
  specialize (IH (i + 1) s1 (k - 2) bm0 Hi1 Hk1 ltac:(lia)).
  replace (i + 1 + Z.of_nat n) with (i + Z.of_nat (S n)) in IH by lia. specialize (IH Htop).
  assert (plain s1 (base + (i + 1) * HUGE) (base + (i + Z.of_nat (S n)) * HUGE)) as Hpl1.
  { intros v Hv. destruct (Hpl v ltac:(subst w; nia)) as [Htv Hv']. split; [by apply Hu1|].
    rewrite (translate_leaf a) in * by done. rewrite Ho1; [done|]. rewrite Hin by nia. subst w. nia. }
  specialize (IH Hpl1). destruct (map_2m_loop a s1 base base f (i + 1) n) as [s2| | |]; [|done|lia|done].
  destruct IH as (Hi2 & Hc2 & Hk2 & Hu2 & Hn2 & Ho2). replace (k - 2 - 2 * Z.of_nat n) with (k - 2 * Z.of_nat (S n)) in Hk2 by lia.
  split_and!; try done; [congruence|auto| |].
  - intros v Hv. destruct (decide (v < w + HUGE)) as [Hlt|]; [|apply Hn2; subst w; nia].
    rewrite (translate_leaf a) by done. rewrite Ho2 by (subst w; nia). rewrite <- (translate_leaf a) by done. apply Hnew. lia.
  - intros v Hv Hout. rewrite Ho2 by (done || (subst w; nia)). apply Ho1. rewrite Hin by done. subst w. nia.
Qed.
End range.

(** ** Through the identity map *)

Section reach.
Context (a : PmmAllocator) (L : Z).

Lemma map_2m_agree s v p f n : reached a L s → low_first a L n (pg_bm s) → 2 ≤ n → page_ok p → huge_flags f →
  map_2m_via a s v p f = map_2m a s v p f ∧ ∀ s', map_2m a s v p f = Ret s' → reached a L s' ∧ low_first a L (n - 2) (pg_bm s').
Proof.
  intros R Hl Hn Hp [Hf Hh]. unfold map_2m_via, map_2m. cbn [indices]. pose proof (indices_ok v) as (R4 & R3 & R2 & _).
  destruct (upper_agree a L s v n R Hl Hn) as [-> U].
  destruct (get_or_create_table a s _) as [[l3 s1]| | |] eqn:G1; [|by split..]. destruct (U l3 s1 eq_refl) as [E2 U2]. cbn [mbind outcome_bind]. rewrite E2. clear U E2.
  destruct (get_or_create_table a s1 _) as [[l2 s2]| | |] eqn:G2; [|by split..]. destruct (U2 l2 s2 eq_refl) as (Rs2 & Hl2 & Hc2 & Hlf & _ & _ & W2). cbn [mbind outcome_bind]. clear U2 G1 G2 s1.
  assert (read_cr3 s2 = read_cr3 s) as Er by (unfold read_cr3; by rewrite Hc2). rewrite <- Er in W2.
  rewrite (ld_slot a L s2 [index_at v 39; index_at v 30]) by (done || by apply ok2). cbn [mbind outcome_bind].
  destruct (has (pg_ld s2 (slot l2 (index_at v 21))) PAGE_PRESENT) eqn:E; cbn [negb]; [split; [done|]; by intros s' [= <-]|].
  rewrite (st_slot a L s2 [index_at v 39; index_at v 30]) by (done || by apply ok2). split; [done|]. intros s' [= <-]. split; [|done].
  destruct (leaf_entry p f Hp Hf) as (Lp & La & _). pose proof (re_inv _ _ _ Rs2) as Hi2.
  destruct (huge_write (pg_mem s2) (read_cr3 s2) _ _ _ l2 (Z.lor p f) (pi_tree _ _ Hi2) R4 R3 R2 W2 E Lp) as (Ht' & Hw' & Hx').
  { unfold PAGE_HUGE in *. rewrite has_bit in * by lia. by rewrite Z.lor_spec, Hh, orb_true_r. }
  apply (reached_same a L s2); [done| |done| |].
  - split; cbn [pg_bm pg_st set_mem pg_mem]; try apply Hi2; [done|]. intros path t Hpa. change (read_cr3 (pg_st s2 _ _)) with (read_cr3 s2).
    rewrite Hw' by done. by apply (pi_used _ _ Hi2).
  - intros x Hx. unfold leaf. change (read_cr3 (pg_st s2 _ _)) with (read_cr3 s2). unfold indices. cbn [pg_mem pg_st set_mem].
    rewrite Hx' by apply (indices_ok x). rewrite decide_False; [done|]. intros [= E4 E3 E2].
    pose proof (re_id _ _ _ Rs2 x Hx) as Ht. rewrite (translate_leaf a) in Ht by done. revert Ht. unfold leaf, indices, xlate.
    rewrite E4, E3, E2, walk3, W2. cbn [mbind option_bind]. unfold next, link. change (ld64 (pg_mem s2) ?y) with (pg_ld s2 y). by rewrite E.
  - intros path t Hpa. cbn [pg_mem pg_st set_mem]. rewrite Hw' by done. by left.
Qed.

Lemma map_2m_loop_agree base f k : base mod HUGE = 0 → 0 ≤ base → huge_flags f → ∀ i s n, reached a L s → low_first a L n (pg_bm s) → 2 * Z.of_nat k ≤ n → 0 ≤ i →
  base + (i + Z.of_nat k) * HUGE ≤ 2 ^ 48 →
  map_2m_loop_via a s base base f i k = map_2m_loop a s base base f i k ∧ ∀ s', map_2m_loop a s base base f i k = Ret s' → reached a L s'.
Proof.
  intros Hm Hb Hf. induction k as [|k IH]; intros i s n R Hl Hn Hi Htop; cbn [map_2m_loop_via map_2m_loop]; [split; [done|]; by intros s' [= <-]|].
  assert (0 < HUGE) as H0 by done. set (w := base + i * 2097152). assert (page_ok w ∧ 0 ≤ w < 2 ^ 48) as [Hw Hw0].
  { subst w. unfold HUGE in *. split; [split; [|lia]|lia]. apply Z.mod_divide in Hm as [q ->]; [|lia]. replace (q * 2097152 + i * 2097152) with ((q + i) * 512 * 4096) by lia. apply Z.mod_mul. lia. }
  rewrite !u64_small by (split; [lia|]; apply (Z.lt_trans _ (2 ^ 48)); [lia|done]).
  destruct (map_2m_agree s w w f n R Hl ltac:(lia) Hw Hf) as [-> M]. destruct (map_2m a s w w f) as [s1| | |]; [|by split..]. cbn [mbind outcome_bind].
  destruct (M s1 eq_refl) as [R1 Hl1]. apply (IH (i + 1) s1 (n - 2)); [done|done|lia|lia|]. replace (i + 1 + Z.of_nat k) with (i + Z.of_nat (S k)) by lia. done.
Qed.
End reach.
