(* ===== verification/UserMem.v ===== *)
(** * Bytes of user memory

    A process's memory is kept by words; system calls copy strings, buffers and
    structures byte by byte.  Pointers that user code passes are taken to be mapped. *)

From Stdlib Require Import ZArith Lia.
From stdpp Require Import base numbers list list_numbers option gmap.
From S2P Require Import Prelude Memory Heap VfsTypes OpenFiles Names Tty Process Kernel.

Local Open Scope Z_scope.

Definition word_of (a : Z) : Z := a - a mod 8.
Definition shift_of (a : Z) : Z := 8 * (a mod 8).

Definition ld8 (s : mem) (a : Z) : Z := Z.land (Z.shiftr (ld64 s (word_of a)) (shift_of a)) 255.
Definition st8 (s : mem) (a v : Z) : mem :=
  st64 s (word_of a)
    (Z.lor (and_not (ld64 s (word_of a)) (Z.shiftl 255 (shift_of a))) (Z.shiftl v (shift_of a))).

(** [copy_nonoverlapping] out of and into the bytes at [a]. *)
Definition ld_bytes (s : mem) (a n : Z) : list Z := (λ i, ld8 s (a + i)) <$> seqZ 0 n.
Fixpoint st_bytes (s : mem) (a : Z) (l : list Z) : mem :=
  match l with [] => s | b :: l => st_bytes (st8 s a b) (a + 1) l end.

(** The [n] bytes of a little-endian integer. *)
Definition le_bytes (n : nat) (x : Z) : list Z := (λ i, Z.land (Z.shiftr x (8 * i)) 255) <$> seqZ 0 (Z.of_nat n).

Definition is_byte (b : Z) : Prop := 0 ≤ b < 256.

(** ** Loads and stores *)

Lemma ld8_bit s a n : 0 ≤ n → Z.testbit (ld8 s a) n = (n <? 8) && Z.testbit (ld64 s (word_of a)) (n + shift_of a).
Proof.
  intros Hn. unfold ld8. change 255 with (Z.ones 8). rewrite Z.land_spec, Z.testbit_ones_nonneg by lia.
  rewrite Z.shiftr_spec by lia. apply andb_comm.
Qed.

Lemma ld8_byte s a : is_byte (ld8 s a).
Proof. unfold ld8, is_byte. change 255 with (Z.ones 8). rewrite Z.land_ones by lia. apply Z.mod_pos_bound. lia. Qed.

Lemma byte_high v n : is_byte v → 8 ≤ n → Z.testbit v n = false.
Proof. intros Hv Hn. by apply (testbit_high 8); [lia|exact Hv|]. Qed.

Lemma ld8_st8 s a v b : is_byte v → ld8 (st8 s a v) b = if b =? a then v else ld8 s b.
Proof.
  intros Hv. pose proof (Z.mod_pos_bound a 8). pose proof (Z.mod_pos_bound b 8).
  assert (∀ x, is_byte x → 0 ≤ x < 2 ^ 8) as Hr by (intros x Hx; exact Hx).
  destruct (decide (word_of b = word_of a)) as [Hw|Hw].
  2: { rewrite (proj2 (Z.eqb_neq b a)) by (intros ->; done). unfold ld8, st8. by rewrite ld_st_ne by done. }
  apply (bits_ext 8); [lia|apply Hr, ld8_byte|destruct (b =? a); apply Hr; [done|apply ld8_byte]|].
  intros n Hn. rewrite ld8_bit, Hw by lia. unfold st8. rewrite ld_st_eq, Z.lor_spec.
  unfold and_not. rewrite Z.ldiff_spec. unfold shift_of, word_of in *.
  rewrite (Z.shiftl_spec 255), (Z.shiftl_spec v) by lia.
  change 255 with (Z.ones 8). destruct (Z.eqb_spec b a) as [->|Hne].
  - rewrite Z.add_simpl_r, Z.testbit_ones_nonneg by lia. zcases; try lia. by rewrite andb_false_r.
  - rewrite ld8_bit by lia. unfold shift_of, word_of. rewrite Hw.
    assert (b mod 8 ≠ a mod 8) by lia. destruct (decide (n + 8 * (b mod 8) < 8 * (a mod 8))).
    + rewrite (Z.testbit_neg_r (Z.ones 8)), (Z.testbit_neg_r v) by lia. cbn. rewrite andb_true_r, orb_false_r. done.
    + rewrite Z.testbit_ones_nonneg, (byte_high v) by (done || lia). rewrite orb_false_r. zcases. by rewrite andb_true_r.
Qed.

Lemma ld8_st_bytes l : ∀ s a b, Forall is_byte l →
  ld8 (st_bytes s a l) b = if (a <=? b) && (b <? a + Z.of_nat (length l)) then l !!! Z.to_nat (b - a) else ld8 s b.
Proof.
  induction l as [|x l IH]; intros s a b Hl; cbn [st_bytes length]; [zcases|].
  apply Forall_cons in Hl as [Hx Hl]. rewrite IH, ld8_st8 by done.
  destruct (Z.eqb_spec b a) as [->|Hne].
  - rewrite Z.sub_diag. zcases.
  - zcases. by replace (Z.to_nat (b - a)) with (S (Z.to_nat (b - (a + 1)))) by lia.
Qed.

(** What was copied in can be copied out. *)
Lemma ld_st_bytes s a l : Forall is_byte l → ld_bytes (st_bytes s a l) a (Z.of_nat (length l)) = l.
Proof.
  intros Hl. apply list_eq. intros i. unfold ld_bytes. rewrite list_lookup_fmap.
  destruct (decide (i < length l)%nat) as [Hi|Hi].
  - rewrite lookup_seqZ_lt by lia. cbn. rewrite ld8_st_bytes by done.
    rewrite (proj2 (Z.leb_le a _)), (proj2 (Z.ltb_lt _ _)) by lia. cbn.
    replace (Z.to_nat (a + (0 + Z.of_nat i) - a)) with i by lia.
    destruct (lookup_lt_is_Some_2 l i Hi) as [x Hx]. by rewrite Hx, (list_lookup_total_correct _ _ _ Hx).
  - rewrite lookup_seqZ_ge, lookup_ge_None_2 by lia. done.
Qed.

Lemma ld_bytes_byte s a n : Forall is_byte (ld_bytes s a n).
Proof. unfold ld_bytes. apply Forall_fmap, Forall_true. intros i. apply ld8_byte. Qed.

Lemma length_ld_bytes s a n : length (ld_bytes s a n) = Z.to_nat n.
Proof. unfold ld_bytes. by rewrite length_fmap, length_seqZ. Qed.

(** ** The memory of the current process *)

Definition space (m : machine) : mem := default ∅ (m_umem m !! m_cr3 m).
Definition set_space (s : mem) (m : machine) : machine := set_umem (<[m_cr3 m := s]> (m_umem m)) m.

Lemma space_set s m : space (set_space s m) = s.
Proof. unfold space, set_space. cbn. by rewrite lookup_insert_eq. Qed.

Definition copy_out (m : machine) (a : Z) (l : list Z) : machine := set_space (st_bytes (space m) a l) m.
Definition copy_in (m : machine) (a n : Z) : list Z := ld_bytes (space m) a n.

Lemma copy_roundtrip m a l : Forall is_byte l → copy_in (copy_out m a l) a (Z.of_nat (length l)) = l.
Proof. intros. unfold copy_in, copy_out. rewrite space_set. by apply ld_st_bytes. Qed.

(** ** Strings *)

(** [cstr_from_user]: the 256-byte buffer with the string, or an error. *)
Fixpoint cstr_loop (s : mem) (ptr : Z) (acc : list Z) (n : nat) : res (list Z) :=
  match n with
  | O => inr ENAMETOOLONG
  | S n =>
      let byte := ld8 s ptr in
      if byte =? 0 then inl (acc ++ replicate (Z.to_nat PATH_MAX - length acc) 0)
      else cstr_loop s (ptr + 1) (acc ++ [byte]) n
  end.

Definition cstr_from_user (s : mem) (ptr max_len : Z) : res (list Z) :=
  if ptr =? 0 then inr EFAULT else cstr_loop s ptr [] (Z.to_nat (Z.min PATH_MAX max_len)).

(** [&buf[..buf.iter().position(|&b| b == 0).unwrap_or(default)]]. *)
Definition nul_position (buf : list Z) (dflt : Z) : Z := default dflt (position (λ b, b =? 0) buf 0).
Definition until_nul (buf : list Z) : list Z := take (Z.to_nat (nul_position buf PATH_MAX)) buf.

(** A string in memory: its bytes, none of them NUL, then a NUL. *)
Definition string_at (s : mem) (ptr : Z) (l : list Z) : Prop :=
  ld_bytes s ptr (Z.of_nat (length l) + 1) = l ++ [0] ∧ Forall (λ b, b ≠ 0) l.

Lemma position_nul l r i : Forall (λ b, b ≠ 0) l →
  position (λ b, b =? 0) (l ++ 0 :: r) i = Some (i + Z.of_nat (length l)).
Proof.
  revert i. induction l as [|x l IH]; intros i Hl; cbn [app position length].
  - cbn. f_equal. lia.
  - apply Forall_cons in Hl as [Hx Hl]. rewrite (proj2 (Z.eqb_neq x 0) Hx), IH by done. f_equal. lia.
Qed.

Lemma until_nul_pad l n : Forall (λ b, b ≠ 0) l → (0 < n)%nat → until_nul (l ++ replicate n 0) = l.
Proof.
  intros Hl Hn. destruct n as [|n]; [lia|]. unfold until_nul, nul_position. cbn [replicate].
  rewrite position_nul by done. cbn [default from_option id]. rewrite Z.add_0_l, Nat2Z.id. by apply take_app_length.
Qed.

Lemma cstr_loop_spec s : ∀ l ptr acc n, string_at s ptr l →
  cstr_loop s ptr acc n = if decide (length l < n)%nat
    then inl ((acc ++ l) ++ replicate (256 - length (acc ++ l)) 0) else inr ENAMETOOLONG.
Proof.
  induction l as [|x l IH]; intros ptr acc n [Hb Hnz]; destruct n as [|n]; cbn [cstr_loop].
  - done.
  - unfold ld_bytes in Hb. cbn in Hb. injection Hb as Hb. rewrite Z.add_0_r in Hb. rewrite Hb, Z.eqb_refl.
    rewrite decide_True by (cbn; lia). by rewrite app_nil_r.
  - by rewrite decide_False by lia.
  - apply Forall_cons in Hnz as [Hx Hnz]. cbn [length] in *.
    assert (ld8 s ptr = x ∧ ld_bytes s (ptr + 1) (Z.of_nat (length l) + 1) = l ++ [0]) as [-> Hb'].
    { unfold ld_bytes in *. replace (Z.of_nat (S (length l)) + 1) with (Z.succ (Z.of_nat (length l) + 1)) in Hb by lia.
      rewrite seqZ_cons in Hb by lia. cbn [fmap list_fmap app] in Hb. injection Hb as H1 H2. rewrite Z.add_0_r in H1.
      split; [done|]. rewrite <- H2, Z.pred_succ. change (Z.succ 0) with (1 + 0).
      rewrite <- fmap_add_seqZ, <- list_fmap_compose. apply list_fmap_ext.
      intros _ i _. cbn. f_equal. lia. }
    rewrite (proj2 (Z.eqb_neq x 0) Hx), (IH (ptr + 1) (acc ++ [x]) n) by (split; done).
    replace ((acc ++ [x]) ++ l) with (acc ++ x :: l) by (by rewrite <- app_assoc). do 2 case_decide; done || lia.
Qed.

(** The path a system call reads from a string in user memory. *)
Lemma cstr_from_user_spec s ptr l : string_at s ptr l → ptr ≠ 0 → (length l < 256)%nat →
  ∃ buf, cstr_from_user s ptr PATH_MAX = inl buf ∧ until_nul buf = l.
Proof.
  intros Hs Hp Hl. unfold cstr_from_user. rewrite (proj2 (Z.eqb_neq _ _) Hp).
  change (Z.to_nat (Z.min PATH_MAX PATH_MAX)) with 256%nat. rewrite (cstr_loop_spec s l) by done.
  rewrite decide_True by lia. eexists. split; [done|]. apply until_nul_pad; [apply Hs|cbn; lia].
Qed.
