(* ===== verification/FileCalls.v ===== *)
(** * File system calls (src/kernel_rust/src/vfs/mod.rs, syscall.rs: read, write)

    The system calls on descriptors and paths: from a descriptor to the open file and its
    vnode, from the vnode through its operations table to the filesystem, and the copies
    to and from user memory. *)

From Stdlib Require Import ZArith Lia.
From stdpp Require Import base numbers list list_numbers option gmap.
From S2P Require Import Prelude Memory Heap VfsTypes Pipe OpenFiles Initramfs Names Tty Process Kernel UserMem.

Local Open Scope Z_scope.

Section calls.
Context {H : Type} `{HL : KHeapLaws H}.
Implicit Types k : kernel H.

Definition set_io k (s : Tty.io) : kernel H := mkK s (k_bm k) (k_ns k).
Definition set_kns k (n : nstate H) : kernel H := mkK (k_io k) (k_bm k) n.
Definition cur k : Z := CURRENT_PID (k_m k).
Definition k_copy_out k (a : Z) (l : list Z) : kernel H := set_m k (copy_out (k_m k) a l).

(** [(-e as i64) as u64]. *)
Definition err (e : Z) : Z := u64 (- e).

(** The entry of [fd] in the current process's table; [None] where the handlers return EBADF. *)
Definition fd_entry k (fd : Z) : outcome (option Z) :=
  if MAX_FDS <=? fd then Ret None
  else
    p ← process (k_m k) (cur k);
    e ← index (fd_table p) fd;
    Ret (if e <? 0 then None else Some e).

(** [oft_get] and the vnode of the entry. *)
Definition file_of k (idx : Z) : outcome (option (OpenFile * Vnode)) :=
  o ← oft_get (k_files k) idx;
  match o with
  | None => Ret None
  | Some f =>
      match of_vnode f with
      | None => Ret None
      | Some v => vn ← get_vnode (k_files k) v; Ret (Some (f, vn))
      end
  end.

(** [of.offset = off]. *)
Definition put_offset k (idx : Z) (f : OpenFile) (off : Z) : outcome (kernel H) :=
  o ← store (fs_oft (k_files k)) idx (Some (set_offset f off));
  Ret (set_kfiles k (set_oft (k_files k) o)).

(** ** Vnode operations *)

(** [read_fn]: the result, the bytes stored in the caller's buffer, the offset. *)
Definition vn_read (fn : VnRead) k (vn : Vnode) (len off : Z) : outcome (Z * list Z * Z * kernel H) :=
  match fn with
  | devfs_read_fn => let '(n, bs) := devfs_read vn len in Ret (n, bs, off, k)
  | tty_read_fn => '(bs, s) ← Tty.read (k_io k) len; Ret (Z.of_nat (length bs), bs, off, set_io k s)
  | initramfs_read_fn =>
      match vn_data vn with
      | DArchive data =>
          let '(n, bs, off) := initramfs_read (ns_arc (k_ns k)) data (vn_size vn) len off in Ret (n, bs, off, k)
      | _ => if Z.min len (Z.max 0 (vn_size vn - off)) =? 0 then Ret (0, [], off, k) else Fault
      end
  | pipe_read_fn =>
      match vn_data vn with
      | DPipe p =>
          pb ← deref (fs_pipes (k_files k) !! p);
          '(n, bs, pb) ← pipe_read pb len;
          Ret (n, bs, off, set_kfiles k (set_pipes (k_files k) (<[p := pb]> (fs_pipes (k_files k)))))
      | _ => Fault
      end
  end.

(** [write_fn] of the caller's bytes. *)
Definition vn_write (fn : VnWrite) k (vn : Vnode) (bytes : list Z) : outcome (Z * kernel H) :=
  match fn with
  | devfs_write_fn => Ret (devfs_write vn (Z.of_nat (length bytes)), k)
  | tty_write_fn => let (n, s) := Tty.write (k_io k) bytes in Ret (n, set_io k s)
  | pipe_write_fn =>
      match vn_data vn with
      | DPipe p =>
          pb ← deref (fs_pipes (k_files k) !! p);
          '(n, pb) ← pipe_write pb bytes;
          Ret (n, set_kfiles k (set_pipes (k_files k) (<[p := pb]> (fs_pipes (k_files k)))))
      | _ => Fault
      end
  end.

Definition vn_lseek (fn : VnLseek) (offset whence : Z) : Z :=
  match fn with
  | devfs_lseek_fn => devfs_lseek offset whence
  | pipe_lseek_fn => pipe_lseek offset whence
  end.

Definition vn_readdir (fn : VnReaddir) (vn : Vnode) (idx : Z) : option Dirent :=
  match fn with
  | devfs_readdir_fn => devfs_readdir idx
  | rootfs_readdir_fn => rootfs_readdir vn idx
  end.

(** The call of the read operation and its effects; [None] when there is none. *)
Definition read_file k (idx : Z) (f : OpenFile) (vn : Vnode) (buf len : Z) : outcome (option Z * kernel H) :=
  match op_read (deref_ops (vn_ops vn)) with
  | None => Ret (None, k)
  | Some read_fn =>
      '(n, bs, off, k) ← vn_read read_fn k vn len (of_offset f);
      k ← put_offset (k_copy_out k buf bs) idx f off;
      Ret (Some n, k)
  end.

Definition write_file k (vn : Vnode) (buf len : Z) : outcome (option Z * kernel H) :=
  match op_write (deref_ops (vn_ops vn)) with
  | None => Ret (None, k)
  | Some write_fn =>
      '(n, k) ← vn_write write_fn k vn (copy_in (k_m k) buf len);
      Ret (Some n, k)
  end.

(** ** read and write of syscall.rs *)

Definition sys_write k (fd buf len : Z) : outcome (Z * kernel H) :=
  if (MAX_FDS <=? fd) || (buf =? 0) || (len =? 0) then Ret (0, k)
  else
    e ← fd_entry k fd;
    match e with
    | None => Ret (0, k)
    | Some idx =>
        o ← file_of k idx;
        match o with
        | None => Ret (0, k)
        | Some (_, vn) =>
            '(r, k) ← write_file k vn buf len;
            Ret (match r with Some n => if n <? 0 then 0 else n | None => 0 end, k)
        end
    end.

Definition sys_read k (fd buf len : Z) : outcome (Z * kernel H) :=
  if (MAX_FDS <=? fd) || (buf =? 0) || (len =? 0) then Ret (U64_MAX, k)
  else
    e ← fd_entry k fd;
    match e with
    | None => Ret (U64_MAX, k)
    | Some idx =>
        o ← file_of k idx;
        match o with
        | None => Ret (U64_MAX, k)
        | Some (f, vn) =>
            '(r, k) ← read_file k idx f vn buf len;
            Ret (match r with Some n => if n <? 0 then U64_MAX else n | None => U64_MAX end, k)
        end
    end.

(** ** The calls of vfs/mod.rs *)

(** From the descriptor to the open file, the guard [bad] in between: most handlers
    below begin this way. *)
Definition with_file k (fd : Z) (bad : option Z)
    (body : Z → OpenFile → Vnode → outcome (Z * kernel H)) : outcome (Z * kernel H) :=
  e ← fd_entry k fd;
  match e with
  | None => Ret (err EBADF, k)
  | Some idx =>
      match bad with
      | Some e => Ret (err e, k)
      | None =>
          o ← file_of k idx;
          match o with
          | None => Ret (err EBADF, k)
          | Some (f, vn) => body idx f vn
          end
      end
  end.

Definition guard_inval (b : bool) : option Z := if b then Some EINVAL else None.

Definition sys_read_vfs k (fd buf count : Z) : outcome (Z * kernel H) :=
  with_file k fd (guard_inval ((buf =? 0) || (count =? 0))) (λ idx f vn,
    '(r, k) ← read_file k idx f vn buf count;
    Ret (match r with Some n => u64 n | None => err EBADF end, k)).

Definition sys_write_vfs k (fd buf count : Z) : outcome (Z * kernel H) :=
  with_file k fd (guard_inval ((buf =? 0) || (count =? 0))) (λ idx f vn,
    '(r, k) ← write_file k vn buf count;
    Ret (match r with Some n => u64 n | None => err EBADF end, k)).

Definition sys_lseek k (fd offset whence : Z) : outcome (Z * kernel H) :=
  with_file k fd None (λ idx f vn,
    match op_lseek (deref_ops (vn_ops vn)) with
    | Some lseek_fn =>
        let new_off := vn_lseek lseek_fn (i64 offset) (u32 whence) in
        k ← (if 0 <=? new_off then put_offset k idx f (u64 new_off) else Ret k);
        Ret (u64 new_off, k)
    | None =>
        let new_off :=
          if whence =? 0 then Some (i64 offset)
          else if whence =? 1 then Some (i64 (i64 (of_offset f) + i64 offset))
          else if whence =? 2 then Some (i64 (i64 (vn_size vn) + i64 offset))
          else None in
        match new_off with
        | None => Ret (err EINVAL, k)
        | Some new_off =>
            if new_off <? 0 then Ret (err EINVAL, k)
            else k ← put_offset k idx f (u64 new_off); Ret (u64 new_off, k)
        end
    end).

(** The 280 bytes of a directory entry. *)
Definition dirent_bytes (d : Dirent) : list Z :=
  le_bytes 8 (d_ino d) ++ le_bytes 8 (d_off d) ++ le_bytes 2 (d_reclen d) ++ [d_type d] ++ d_name d ++ replicate 5 0.

(** [while entries_written < count]: the number of entries and the memory with them.  No directory
    has more than [DIR_MAX] entries, so that many rounds and one more are enough. *)
Definition DIR_MAX : nat := 6.

Fixpoint getdents_loop (fn : VnReaddir) (vn : Vnode) (m : machine) (dirent_ptr count written : Z) (fuel : nat)
    : outcome (Z * machine) :=
  if written <? count then
    match fuel with
    | O => Hang
    | S fuel =>
        match vn_readdir fn vn (u32 written) with
        | None => Ret (written, m)
        | Some db =>
            let reclen := d_reclen db in
            if (reclen =? 0) || (reclen >? SIZEOF_DIRENT) then Ret (written, m)
            else
              getdents_loop fn vn (copy_out m dirent_ptr (take (Z.to_nat reclen) (dirent_bytes db)))
                (dirent_ptr + reclen) count (written + 1) fuel
        end
    end
  else Ret (written, m).

Definition sys_getdents k (fd dirent count : Z) : outcome (Z * kernel H) :=
  with_file k fd (guard_inval ((dirent =? 0) || (count =? 0))) (λ idx f vn,
    match op_readdir (deref_ops (vn_ops vn)) with
    | None => Ret (err ENOTTY, k)
    | Some readdir_fn =>
        '(n, m) ← getdents_loop readdir_fn vn (k_m k) dirent count 0 (S DIR_MAX);
        Ret (n, set_m k m)
    end).

(** ** Paths *)

(** The path argument and what the call does with it. *)
Definition with_path k (path : Z) (body : list Z → outcome (Z * kernel H)) : outcome (Z * kernel H) :=
  match cstr_from_user (space (k_m k)) path PATH_MAX with
  | inr e => Ret (err e, k)
  | inl buf => body (until_nul buf)
  end.

Definition sys_open k (path flags mode : Z) : outcome (Z * kernel H) :=
  with_path k path (λ path_slice,
    '(r, n) ← vfs_resolve (k_ns k) path_slice;
    let k := set_kns k n in
    match r with
    | inr e => Ret (err e, k)
    | inl vnode =>
        p ← process (k_m k) (cur k);
        '(r, fds, f) ← open_vnode (k_files k) (fd_table p) vnode (u32 flags) (u32 mode);
        m ← process_mut (k_m k) (cur k) (set_fd_table fds);
        Ret (r, set_kfiles (set_m k m) f)
    end).

(** The 144 bytes of a [Stat]. *)
Definition stat_bytes (st : Stat) : list Z :=
  le_bytes 8 (st_dev st) ++ le_bytes 8 (st_ino st) ++ le_bytes 8 (st_nlink st) ++
  le_bytes 4 (st_mode st) ++ le_bytes 4 (st_uid st) ++ le_bytes 4 (st_gid st) ++ le_bytes 4 0 ++
  le_bytes 8 (st_rdev st) ++ le_bytes 8 (st_size st) ++ le_bytes 8 (st_blksize st) ++ le_bytes 8 (st_blocks st) ++
  replicate 72 0.

(** The current directory up to its NUL. *)
Definition cwd_slice (p : Process) : list Z := until_nul (cwd p).

Definition sys_stat k (path statbuf : Z) : outcome (Z * kernel H) :=
  with_path k path (λ path_slice,
    p ← process (k_m k) (cur k);
    '(r, n) ← vfs_resolve_relative (k_ns k) (cwd_slice p) path_slice;
    let k := set_kns k n in
    match r with
    | inr e => Ret (err e, k)
    | inl v =>
        vn ← get_vnode (k_files k) v;
        Ret (0, k_copy_out k statbuf (stat_bytes (stat_from_vnode vn)))
    end).

Definition sys_fstat k (fd statbuf : Z) : outcome (Z * kernel H) :=
  with_file k fd (if statbuf =? 0 then Some EFAULT else None) (λ idx f vn,
    Ret (0, k_copy_out k statbuf (stat_bytes (stat_from_vnode vn)))).

(** The directory [chdir] stores: [new_cwd_buf] up to [new_cwd_len]. *)
Definition new_cwd (cwd path : list Z) : outcome (list Z) :=
  if bool_decide (head path = Some SLASH)
  then Ret (take (Z.to_nat (Z.min (Z.of_nat (length path)) (PATH_MAX - 1))) path)
  else
    let sep := match last cwd with Some c => negb (c =? SLASH) | None => false end in
    if sep && (PATH_MAX <=? Z.of_nat (length cwd)) then Panic
    else
      let base := if sep then cwd ++ [SLASH] else cwd in
      Ret (base ++ take (Z.to_nat (PATH_MAX - 1) - length base) path).

(** [while i < len { cwd[i] = new[i] }]. *)
Fixpoint write_cwd (cwd : list Z) (i : Z) (new : list Z) : outcome (list Z) :=
  match new with
  | [] => store cwd i 0
  | b :: new => cwd ← store cwd i b; write_cwd cwd (i + 1) new
  end.

Definition sys_chdir k (path : Z) : outcome (Z * kernel H) :=
  with_path k path (λ path_slice,
    p ← process (k_m k) (cur k);
    '(r, n) ← vfs_resolve_relative (k_ns k) (cwd_slice p) path_slice;
    let k := set_kns k n in
    match r with
    | inr e => Ret (err e, k)
    | inl v =>
        vn ← get_vnode (k_files k) v;
        if Z.land (vn_mode vn) V_DIR =? 0 then Ret (err ENOTDIR, k)
        else
          new ← new_cwd (cwd_slice p) path_slice;
          c ← write_cwd (cwd p) 0 (take (Z.to_nat (PATH_MAX - 1)) new);
          m ← process_mut (k_m k) (cur k) (set_cwd c);
          Ret (0, set_m k m)
    end).

Definition sys_getcwd k (buf size : Z) : outcome (Z * kernel H) :=
  p ← process (k_m k) (cur k);
  let cwd_len := nul_position (cwd p) 255 in
  if buf =? 0 then Ret (err EFAULT, k)
  else
    let k := if 0 <? size
             then k_copy_out k buf (take (Z.to_nat (Z.min cwd_len (size - 1))) (cwd p) ++ [0]) else k in
    Ret (buf, k).

(** ** The terminal *)

Definition is_tty (vn : Vnode) : bool := bool_decide (vn_ops vn = at_TTY_OPS).

Definition sys_isatty k (fd : Z) : outcome (Z * kernel H) :=
  with_file k fd None (λ idx f vn, Ret (if is_tty vn then 1 else 0, k)).

(** [tcgetattr] and [tcsetattr]: the terminal's ioctl with [request]. *)
Definition tty_attr (request : Z) k (fd arg : Z) : outcome (Z * kernel H) :=
  if (MAX_FDS <=? fd) || (arg =? 0) then Ret (err EBADF, k)
  else
    with_file k fd None (λ idx f vn,
      if negb (is_tty vn) then Ret (err ENOTTY, k)
      else
        let '(rc, bs) := Tty.tty_ioctl request arg in
        let k := k_copy_out k arg bs in
        Ret (if rc <? 0 then u64 (- rc) else 0, k)).

Definition sys_tcgetattr k (fd arg : Z) : outcome (Z * kernel H) := tty_attr 21505 k fd arg.
Definition sys_tcsetattr k (fd arg : Z) : outcome (Z * kernel H) := tty_attr 21506 k fd arg.
End calls.
