(* ===== verification/FileSpec.v ===== *)
(** * What the file system calls promise *)

From Stdlib Require Import ZArith Lia.
From stdpp Require Import base numbers list list_numbers option gmap.
From S2P Require Import Prelude Ring Memory Kmm Heap VfsTypes Pipe OpenFiles FdCalls Initramfs Names Paths Tty Process Kernel UserMem FileCalls.

Local Open Scope Z_scope.

Lemma mjoin_list_cons {A} (x : list A) (l : list (list A)) : mjoin (x :: l) = x ++ mjoin l.
Proof. done. Qed.

Lemma insert_middle {A} (l1 l2 : list A) x y : <[length l1 := y]> (l1 ++ x :: l2) = l1 ++ y :: l2.
Proof. induction l1; cbn; by f_equal. Qed.

Lemma take_length_take {A} n (l : list A) : take (length (take n l)) l = take n l.
Proof. revert n. induction l; intros [|n]; cbn; by f_equal. Qed.

Section spec.
Context {H : Type} `{HL : KHeapLaws H}.
Implicit Types k : kernel H.

(** ** Descriptors *)

(** The descriptor [fd] of the current process leads to entry [idx], the file [f] and its
    vnode [vn]. *)
Record opened k (fd idx : Z) (f : OpenFile) (vn : Vnode) : Prop := {
  opened_fd : fd_entry k fd = Ret (Some idx);
  opened_file : file_of k idx = Ret (Some (f, vn))
}.

Lemma opened_range k fd idx f vn : opened k fd idx f vn → (MAX_FDS <=? fd) = false.
Proof. intros [He _]. unfold fd_entry in He. by destruct (MAX_FDS <=? fd). Qed.

Lemma opened_entry k fd idx f vn : opened k fd idx f vn → fs_oft (k_files k) !! Z.to_nat idx = Some (Some f).
Proof.
  intros [_ Hf]. unfold file_of, oft_get, index in Hf. destruct (OFT_SIZE <=? idx); [done|].
  destruct (fs_oft (k_files k) !! Z.to_nat idx) as [[f'|]|]; [|done..]. cbn in Hf.
  destruct (of_vnode f') as [v|]; [|done]. destruct (get_vnode (k_files k) v); [|done..]. cbn in Hf. congruence.
Qed.

(** What a descriptor leads to does not depend on memory, the terminal or the pipes. *)
Lemma opened_same k k' fd idx f vn : m_table (k_m k') = m_table (k_m k) → cur k' = cur k →
  fs_oft (k_files k') = fs_oft (k_files k) → fs_vnodes (k_files k') = fs_vnodes (k_files k) →
  fs_statics (k_files k') = fs_statics (k_files k) → opened k fd idx f vn → opened k' fd idx f vn.
Proof.
  intros Ht Hc Ho Hv Hs [He Hf]. split.
  - revert He. unfold fd_entry, process. by rewrite Ht, Hc.
  - revert Hf. unfold file_of, oft_get, get_vnode. by rewrite Ho, Hv, Hs.
Qed.

Lemma put_offset_ret k fd idx f vn off : opened k fd idx f vn →
  put_offset k idx f off = Ret (set_kfiles k (set_oft (k_files k) (<[Z.to_nat idx := Some (set_offset f off)]> (fs_oft (k_files k))))).
Proof. intros Ho. unfold put_offset, store. by rewrite (opened_entry _ _ _ _ _ Ho). Qed.

(** ** Pipes through descriptors *)

(** The descriptors of the two ends of pipe [q]. *)
Record pipe_ends k (fdr fdw q : Z) (pb : PipeBuf) : Prop := {
  pe_read : ∃ idx f vn, opened k fdr idx f vn ∧ vn_ops vn = at_PIPE_READ_OPS ∧ vn_data vn = DPipe q;
  pe_write : ∃ idx f vn, opened k fdw idx f vn ∧ vn_ops vn = at_PIPE_WRITE_OPS ∧ vn_data vn = DPipe q;
  pe_pipe : fs_pipes (k_files k) !! q = Some pb;
  pe_wf : pipe_wf pb;
  pe_bytes : Forall is_byte (pipe_queue pb)
}.

Lemma sys_write_pipe k fdr fdw q pb buf n : pipe_ends k fdr fdw q pb → 0 < n < 2 ^ 63 → buf ≠ 0 →
  let acc := take (Z.to_nat (4095 - Z.of_nat (length (pipe_queue pb)))) (copy_in (k_m k) buf n) in
  ∃ k' pb', sys_write k fdw buf n = Ret (Z.of_nat (length acc), k') ∧ k_io k' = k_io k ∧
    pipe_ends k' fdr fdw q pb' ∧ pipe_queue pb' = pipe_queue pb ++ acc.
Proof.
  intros [(ir & fr & vr & Or & Opr & Dr) (iw & fw & vw & Ow & Opw & Dw) Hp Hwf Hb] Hn Hbuf acc.
  destruct (pipe_write_cases pb (copy_in (k_m k) buf n) Hwf) as (pb' & E & Hwf' & Hq & _).
  { unfold copy_in. rewrite length_ld_bytes. lia. }
  rewrite <- (pipe_queue_length pb Hwf) in E, Hq. change (PIPE_BUF_SIZE - 1 - ?x) with (4095 - x) in E, Hq.
  fold acc in E, Hq. set (k' := set_kfiles k (set_pipes (k_files k) (<[q := pb']> (fs_pipes (k_files k))))).
  exists k', pb'. split; [|split; [done|split; [split|done]]].
  - unfold sys_write. rewrite (opened_range _ _ _ _ _ Ow), (proj2 (Z.eqb_neq _ _) Hbuf), (proj2 (Z.eqb_neq n 0)) by lia.
    cbn [orb]. rewrite (opened_fd _ _ _ _ _ Ow). cbn [mbind outcome_bind]. rewrite (opened_file _ _ _ _ _ Ow).
    cbn [mbind outcome_bind]. unfold write_file. rewrite Opw. cbn [op_write deref_ops PIPE_WRITE_OPS vn_write].
    rewrite Dw, Hp. cbn [deref mbind outcome_bind]. rewrite E. cbn [mbind outcome_bind].
    by rewrite (proj2 (Z.ltb_ge (Z.of_nat (length acc)) 0)) by lia.
  - exists ir, fr, vr. split; [|done]. by apply (opened_same k).
  - exists iw, fw, vw. split; [|done]. by apply (opened_same k).
  - subst k'. cbn. apply lookup_insert_eq.
  - done.
  - rewrite Hq. apply Forall_app. split; [done|]. apply Forall_take, ld_bytes_byte.
Qed.

Lemma sys_read_pipe k fdr fdw q pb buf n : pipe_ends k fdr fdw q pb → 0 < n < 2 ^ 63 → buf ≠ 0 →
  let got := take (Z.to_nat n) (pipe_queue pb) in
  ∃ k' pb', sys_read k fdr buf n = Ret (Z.of_nat (length got), k') ∧
    copy_in (k_m k') buf (Z.of_nat (length got)) = got ∧
    fs_pipes (k_files k') !! q = Some pb' ∧ pipe_wf pb' ∧ pipe_queue pb' = drop (Z.to_nat n) (pipe_queue pb).
Proof.
  intros [(ir & fr & vr & Or & Opr & Dr) _ Hp Hwf Hb] Hn Hbuf got.
  destruct (pipe_read_cases pb n Hwf ltac:(lia)) as (pb' & E & Hwf' & Hq & _). fold got in E.
  assert (Z.min n (pb_used pb) = Z.of_nat (length got)) as Hlen.
  { subst got. rewrite length_take, <- (pipe_queue_length pb Hwf). lia. }
  rewrite Hlen in E.
  set (k1 := k_copy_out (set_kfiles k (set_pipes (k_files k) (<[q := pb']> (fs_pipes (k_files k))))) buf got).
  assert (opened k1 fdr ir fr vr) as O1 by (by apply (opened_same k)).
  eexists _, pb'. split.
  { unfold sys_read. rewrite (opened_range _ _ _ _ _ Or), (proj2 (Z.eqb_neq _ _) Hbuf), (proj2 (Z.eqb_neq n 0)) by lia.
    cbn [orb]. rewrite (opened_fd _ _ _ _ _ Or). cbn [mbind outcome_bind]. rewrite (opened_file _ _ _ _ _ Or).
    cbn [mbind outcome_bind]. unfold read_file. rewrite Opr. cbn [op_read deref_ops PIPE_READ_OPS vn_read].
    rewrite Dr, Hp. cbn [deref mbind outcome_bind]. rewrite E. cbn [mbind outcome_bind]. fold k1.
    rewrite (put_offset_ret _ _ _ _ _ _ O1). cbn [mbind outcome_bind].
    by rewrite (proj2 (Z.ltb_ge (Z.of_nat (length got)) 0)) by lia. }
  split; [|split; [cbn; apply lookup_insert_eq|done]].
  change (copy_in (copy_out (k_m k) buf got) buf (Z.of_nat (length got)) = got).
  apply copy_roundtrip. by apply Forall_take.
Qed.

(** C33: Bytes cross a pipe unchanged, from one buffer to another.  Writing [n] bytes of user memory to
    the write end, with room for them, accepts them all; reading then returns the bytes that
    were waiting followed by these, stores exactly them in the reader's buffer, and leaves the pipe empty. *)
Theorem pipe_transfer (k : kernel H) (fdr fdw q src dst n : Z) (pb : PipeBuf)
  (Hends : pipe_ends k fdr fdw q pb) (Hn : 0 < n) (Hroom : Z.of_nat (length (pipe_queue pb)) + n ≤ 4095)
  (Hsrc : src ≠ 0) (Hdst : dst ≠ 0) :
  let total := Z.of_nat (length (pipe_queue pb)) + n in
  ∃ k1 k2 pb2, sys_write k fdw src n = Ret (n, k1) ∧ sys_read k1 fdr dst total = Ret (total, k2) ∧
    copy_in (k_m k2) dst total = pipe_queue pb ++ copy_in (k_m k) src n ∧
    fs_pipes (k_files k2) !! q = Some pb2 ∧ pipe_queue pb2 = [].
Proof.
  intros total. assert (length (copy_in (k_m k) src n) = Z.to_nat n) as Hl by apply length_ld_bytes.
  destruct (sys_write_pipe k fdr fdw q pb src n Hends ltac:(lia) Hsrc) as (k1 & pb1 & E1 & _ & He1 & Q1).
  rewrite take_ge in E1, Q1 by lia. rewrite Hl, Z2Nat.id in E1 by lia.
  destruct (sys_read_pipe k1 fdr fdw q pb1 dst total He1 ltac:(lia) Hdst) as (k2 & pb2 & E2 & Hc & Hp & _ & Q2).
  assert (length (pipe_queue pb1) = Z.to_nat total) as Hl1 by (rewrite Q1, length_app, Hl; lia).
  rewrite take_ge in E2, Hc by lia. rewrite drop_ge in Q2 by lia. rewrite Hl1, Z2Nat.id in E2, Hc by lia.
  exists k1, k2, pb2. split_and!; try done. by rewrite Hc, Q1.
Qed.


(** ** Directories *)

Lemma st_bytes_app l1 : ∀ s a l2, st_bytes s a (l1 ++ l2) = st_bytes (st_bytes s a l1) (a + Z.of_nat (length l1)) l2.
Proof.
  induction l1 as [|x l1 IH]; intros s a l2; cbn [app st_bytes length]; [by rewrite Z.add_0_r|].
  rewrite IH. f_equal. lia.
Qed.

Lemma copy_out_app m a l1 l2 : copy_out (copy_out m a l1) (a + Z.of_nat (length l1)) l2 = copy_out m a (l1 ++ l2).
Proof.
  unfold copy_out. rewrite space_set, st_bytes_app. unfold set_space. cbn [set_umem m_umem m_cr3].
  unfold set_umem. cbn. by rewrite insert_insert_eq.
Qed.

Lemma le_bytes_byte n x : Forall is_byte (le_bytes n x).
Proof.
  apply Forall_fmap, Forall_true. intros i. cbn. unfold is_byte. change 255 with (Z.ones 8).
  rewrite Z.land_ones by lia. apply Z.mod_pos_bound. lia.
Qed.

(** The entries of a directory, in order. *)
Definition listing (fn : VnReaddir) (vn : Vnode) : list Dirent :=
  let ent ino name dtype := mkDirent ino 0 SIZEOF_DIRENT (u8 dtype) (name_field name) in
  match fn with
  | devfs_readdir_fn =>
      [ent 1 n_dot V_DIR; ent 2 n_dotdot V_DIR; ent 3 n_null V_CHR; ent 4 n_zero V_CHR; ent 5 n_ttyS0 V_CHR]
  | rootfs_readdir_fn =>
      [ent (vn_ino vn) n_dot V_DIR; ent 0 n_dotdot V_DIR] ++
      if vn_ino vn =? 0 then [ent 1 n_sbin V_DIR; ent 2 n_bin V_DIR; ent 3 n_etc V_DIR; ent 4 n_dev V_DIR] else []
  end.

Lemma listing_size fn vn : (2 ≤ length (listing fn vn) ≤ DIR_MAX)%nat.
Proof. unfold DIR_MAX. destruct fn; cbn; [lia|]. destruct (vn_ino vn =? 0); cbn; lia. Qed.

Lemma vn_readdir_listing fn vn i : 0 ≤ i → vn_readdir fn vn i = listing fn vn !! Z.to_nat i.
Proof.
  intros Hi. destruct (decide (i < 6)) as [Hlt|Hge].
  - assert (i = 0 ∨ i = 1 ∨ i = 2 ∨ i = 3 ∨ i = 4 ∨ i = 5) as Hc by lia. unfold vn_readdir, listing, devfs_readdir, rootfs_readdir.
    destruct Hc as [->|[->|[->|[->|[->| ->]]]]]; destruct fn; try reflexivity; cbn; by destruct (vn_ino vn =? 0).
  - rewrite lookup_ge_None_2 by (pose proof (listing_size fn vn); unfold DIR_MAX in *; lia).
    unfold vn_readdir, devfs_readdir, rootfs_readdir. destruct fn; repeat case_if; try done; lia.
Qed.

Lemma name_field_ok name : Forall is_byte name → (length name ≤ 256)%nat →
  Forall is_byte (name_field name) ∧ length (name_field name) = 256%nat.
Proof.
  intros Hn Hl. unfold name_field. split.
  - apply Forall_app. split; [done|]. by apply Forall_replicate.
  - rewrite length_app, length_replicate. lia.
Qed.

Lemma listing_bytes fn vn d : d ∈ listing fn vn →
  d_reclen d = 280 ∧ length (dirent_bytes d) = 280%nat ∧ Forall is_byte (dirent_bytes d).
Proof.
  assert (∀ ino t name, is_byte t → Forall is_byte name → (length name ≤ 256)%nat →
    let d := mkDirent ino 0 SIZEOF_DIRENT t (name_field name) in
    d_reclen d = 280 ∧ length (dirent_bytes d) = 280%nat ∧ Forall is_byte (dirent_bytes d)) as Hd.
  { intros ino t name Ht Hn Hl d0. destruct (name_field_ok name Hn Hl) as [Hb Hlen]. split; [done|].
    unfold dirent_bytes. cbn [d_ino d_off d_reclen d_type d_name d0]. split.
    - rewrite !length_app. unfold le_bytes. rewrite !length_fmap, !length_seqZ, Hlen. done.
    - rewrite !Forall_app. split_and!; try apply le_bytes_byte; try done; [by apply List.Forall_cons|by apply Forall_replicate]. }
  assert (∀ t, is_byte (u8 t)) as Hu by (intros; unfold u8, is_byte; apply Z.mod_pos_bound; lia).
  intros Hin. destruct fn; cbn [listing] in Hin.
  - repeat (apply elem_of_cons in Hin as [->|Hin];
      [apply Hd; [apply Hu|repeat (apply List.Forall_cons; [split; done|]); done|cbn; lia]|]). by apply elem_of_nil in Hin.
  - apply elem_of_app in Hin as [Hin|Hin]; [|destruct (vn_ino vn =? 0)].
    all: repeat (apply elem_of_cons in Hin as [->|Hin];
      [apply Hd; [apply Hu|repeat (apply List.Forall_cons; [split; done|]); done|cbn; lia]|]); by apply elem_of_nil in Hin.
Qed.

(** [l] was written at [a], or there was nothing to write. *)
Definition wrote (m : machine) (a : Z) (l : list Z) (m' : machine) : Prop := l = [] ∧ m' = m ∨ m' = copy_out m a l.

Lemma getdents_loop_spec fn vn count fuel : ∀ m ptr w,
  let ds := listing fn vn in
  0 ≤ w ≤ count → w ≤ Z.of_nat (length ds) → Z.of_nat (length ds) - w < Z.of_nat fuel →
  let n := Z.min count (Z.of_nat (length ds)) in
  ∃ m', getdents_loop fn vn m ptr count w fuel = Ret (n, m') ∧
    wrote m ptr (mjoin (dirent_bytes <$> take (Z.to_nat (n - w)) (drop (Z.to_nat w) ds))) m'.
Proof.
  induction fuel as [|fuel IH]; intros m ptr w ds Hw Hlen Hfuel n; [lia|]. cbn [getdents_loop].
  pose proof (listing_size fn vn) as Hsz. fold ds in Hsz. unfold DIR_MAX in Hsz.
  destruct (Z.ltb_spec w count) as [Hlt|Hge].
  2: { exists m. assert (n = w) as -> by lia. split; [done|]. left. by rewrite Z.sub_diag. }
  replace (u32 w) with w by (symmetry; unfold u32; rewrite Z.mod_small; lia).
  rewrite vn_readdir_listing by lia. fold ds. destruct (ds !! Z.to_nat w) as [d|] eqn:Hd.
  2: { apply lookup_ge_None in Hd. exists m. assert (n = w) as -> by lia. split; [done|]. left. by rewrite Z.sub_diag. }
  destruct (listing_bytes fn vn d) as (Hr & Hl & _); [by eapply list_elem_of_lookup_2|]. rewrite Hr. cbn [Z.eqb orb].
  change (280 >? SIZEOF_DIRENT) with false. cbn iota. change (Z.to_nat 280) with 280%nat.
  rewrite <- Hl, firstn_all. apply lookup_lt_Some in Hd as Hlt'.
  destruct (IH (copy_out m ptr (dirent_bytes d)) (ptr + 280) (w + 1)) as (m' & E & Hwr); [lia|fold ds; lia|fold ds; lia|].
  exists m'. split; [exact E|]. right.
  replace (Z.to_nat (n - w)) with (S (Z.to_nat (n - (w + 1)))) by lia.
  rewrite (drop_S _ _ _ Hd). cbn [take]. rewrite fmap_cons, mjoin_list_cons.
  replace (Z.to_nat (w + 1)) with (S (Z.to_nat w)) in Hwr by lia. fold ds n in Hwr.
  replace (ptr + 280) with (ptr + Z.of_nat (length (dirent_bytes d))) in Hwr by (rewrite Hl; lia).
  destruct Hwr as [[Hnil ->]| ->]; [|by rewrite copy_out_app].
  by rewrite Hnil, app_nil_r.
Qed.

(** C34: [getdents] always returns.  On a directory it reports as many entries as were asked
    for, or all of them when there are fewer, and stores exactly the records of the first entries, one after the
    other; the descriptor's offset plays no part, so every call starts at the first entry. *)
Theorem getdents_spec (k : kernel H) (fd idx dirent count : Z) (f : OpenFile) (vn : Vnode) (fn : VnReaddir)
  (Ho : opened k fd idx f vn) (Hfn : op_readdir (deref_ops (vn_ops vn)) = Some fn)
  (Hd : dirent ≠ 0) (Hc : 0 < count) :
  let n := Z.min count (Z.of_nat (length (listing fn vn))) in
  ∃ k', sys_getdents k fd dirent count = Ret (n, k') ∧ k_ns k' = k_ns k ∧ m_table (k_m k') = m_table (k_m k) ∧
    copy_in (k_m k') dirent (280 * n) = mjoin (dirent_bytes <$> take (Z.to_nat n) (listing fn vn)).
Proof.
  intros n. pose proof (listing_size fn vn) as Hsz. unfold DIR_MAX in Hsz.
  destruct (getdents_loop_spec fn vn count (S DIR_MAX) (k_m k) dirent 0) as (m' & E & Hw); [lia|lia|unfold DIR_MAX; lia|].
  fold n in E, Hw. rewrite Z.sub_0_r in Hw. change (drop (Z.to_nat 0) ?l) with l in Hw.
  exists (set_m k m'). split; [|split; [done|]].
  - unfold sys_getdents, with_file. rewrite (opened_fd _ _ _ _ _ Ho). cbn [mbind outcome_bind].
    rewrite (proj2 (Z.eqb_neq _ _) Hd), (proj2 (Z.eqb_neq count 0)) by lia. cbn [orb guard_inval].
    rewrite (opened_file _ _ _ _ _ Ho). cbn [mbind outcome_bind]. rewrite Hfn, E. done.
  - set (ds := take (Z.to_nat n) (listing fn vn)) in *.
    assert (∀ ds, ds ⊆ listing fn vn → Z.of_nat (length (mjoin (dirent_bytes <$> ds))) = 280 * Z.of_nat (length ds) ∧
      Forall is_byte (mjoin (dirent_bytes <$> ds))) as Hds.
    { clear. intros ds. induction ds as [|d ds IH]; intros Hs; [done|]. rewrite fmap_cons, mjoin_list_cons. cbn [length].
      destruct (listing_bytes fn vn d) as (_ & Hl & Hb); [set_solver|]. destruct IH as [IH1 IH2]; [set_solver|].
      rewrite length_app, Hl. split; [lia|]. by apply Forall_app. }
    destruct (Hds ds) as [Hl Hb]; [apply subseteq_take|].
    assert (length ds = Z.to_nat n) as Hln by (subst ds; rewrite length_take; lia).
    replace (280 * n) with (Z.of_nat (length (mjoin (dirent_bytes <$> ds)))) by lia.
    destruct Hw as [[Hnil _]| ->]; [rewrite Hnil in Hl; cbn in Hl; lia|].
    split; [done|]. by apply copy_roundtrip.
Qed.

(** ** The current directory *)

Lemma until_nul_nz buf : (length buf ≤ 256)%nat → Forall (λ b, b ≠ 0) (until_nul buf).
Proof.
  intros Hl. unfold until_nul, nul_position. apply Forall_lookup. intros i x Hx.
  apply lookup_take_Some in Hx as [Hx Hi]. pose proof (position_spec (λ b, b =? 0) buf 0) as Hp.
  destruct (position _ buf 0) as [j|]; cbn in Hi.
  - destruct Hp as (_ & _ & _ & _ & Hp). apply Z.eqb_neq, (Hp i x); [lia|done].
  - by apply Z.eqb_neq, (Hp i x).
Qed.

Lemma until_nul_app l r : Forall (λ b, b ≠ 0) l → until_nul (l ++ 0 :: r) = l.
Proof.
  intros Hl. unfold until_nul, nul_position. rewrite position_nul by done. cbn.
  rewrite Z.add_0_l, Nat2Z.id. by apply take_app_length.
Qed.

Lemma write_cwd_spec new : ∀ done_ old, (length new < length old)%nat →
  write_cwd (done_ ++ old) (Z.of_nat (length done_)) new = Ret (done_ ++ new ++ 0 :: drop (S (length new)) old).
Proof.
  induction new as [|b new IH]; intros done_ [|o old] Hl; cbn [write_cwd length] in *; try lia.
  - rewrite store_in_range by (rewrite length_app; cbn; lia). by rewrite Nat2Z.id, insert_middle.
  - rewrite store_in_range by (rewrite length_app; cbn; lia). rewrite Nat2Z.id, insert_middle.
    cbn [mbind outcome_bind]. rewrite cons_middle, app_assoc.
    replace (Z.of_nat (length done_) + 1) with (Z.of_nat (length (done_ ++ [b]))) by (rewrite length_app; cbn; lia).
    rewrite IH by lia. cbn [drop app]. by rewrite <- app_assoc.
Qed.

(** The directory [chdir] makes current: the path itself when it is absolute, or appended to
    the current directory. *)
Definition target_cwd (cwd path : list Z) : list Z :=
  if bool_decide (head path = Some SLASH) then path
  else (match last cwd with Some c => if c =? SLASH then cwd else cwd ++ [SLASH] | None => cwd end) ++ path.

Lemma new_cwd_target cwd path : (length (target_cwd cwd path) ≤ 255)%nat → new_cwd cwd path = Ret (target_cwd cwd path).
Proof.
  unfold target_cwd, new_cwd. destruct (bool_decide (head path = Some SLASH)).
  - intros Hl. rewrite take_ge; [done|]. unfold PATH_MAX. lia.
  - set (b1 := match last cwd with Some _ => _ | None => _ end).
    set (sep := match last cwd with Some _ => _ | None => _ end).
    assert (b1 = if sep then cwd ++ [SLASH] else cwd) as ->
      by (subst b1 sep; destruct (last cwd) as [c|]; [by destruct (c =? SLASH)|done]).
    clearbody sep. intros Hl. rewrite length_app in Hl.
    assert (sep && (PATH_MAX <=? Z.of_nat (length cwd)) = false) as ->.
    { destruct sep; [|done]. rewrite length_app in Hl. cbn in *. apply Z.leb_gt. unfold PATH_MAX. lia. }
    f_equal. f_equal. apply take_ge. unfold PATH_MAX. lia.
Qed.

Lemma target_nz cwd path : Forall (λ b, b ≠ 0) cwd → Forall (λ b, b ≠ 0) path → Forall (λ b, b ≠ 0) (target_cwd cwd path).
Proof.
  intros Hc Hp. unfold target_cwd. destruct (bool_decide _); [done|]. apply Forall_app. split; [|done].
  destruct (last cwd) as [c|]; [|done]. destruct (c =? SLASH); [done|]. apply Forall_app. split; [done|].
  by apply List.Forall_cons.
Qed.

Lemma sys_getcwd_spec k p buf size l : procs (k_m k) (cur k) = Some p → cwd_slice p = l → Forall is_byte l →
  (length l < length (cwd p) ≤ 256)%nat → buf ≠ 0 → Z.of_nat (length l) < size →
  ∃ k', sys_getcwd k buf size = Ret (buf, k') ∧ string_at (space (k_m k')) buf l.
Proof.
  intros Hp <- Hby Hlen Hbuf Hsize. unfold sys_getcwd. rewrite (process_ret _ _ _ Hp). cbn [mbind outcome_bind].
  rewrite (proj2 (Z.eqb_neq _ _) Hbuf), (proj2 (Z.ltb_lt 0 size)) by lia. eexists. split; [done|].
  assert (nul_position (cwd p) 255 = Z.of_nat (length (cwd_slice p))) as Hn.
  { unfold cwd_slice, until_nul, nul_position in *. pose proof (position_spec (λ b, b =? 0) (cwd p) 0) as Hs.
    destruct (position _ (cwd p) 0) as [j|]; cbn in *.
    - destruct Hs as (x & Hj & _). rewrite length_take. lia.
    - rewrite length_take in Hlen. unfold PATH_MAX in *. lia. }
  rewrite Hn, Z.min_l by lia. rewrite Nat2Z.id.
  assert (take (length (cwd_slice p)) (cwd p) = cwd_slice p) as -> by apply take_length_take.
  change (space (k_m (k_copy_out k buf ?l))) with (space (copy_out (k_m k) buf l)). unfold copy_out. rewrite space_set.
  split; [|apply until_nul_nz; lia].
  replace (Z.of_nat (length (cwd_slice p)) + 1) with (Z.of_nat (length (cwd_slice p ++ [0]))) by (rewrite length_app; cbn; lia).
  apply ld_st_bytes. apply Forall_app. split; [done|]. by apply List.Forall_cons.
Qed.

Lemma with_path_string k path l body : string_at (space (k_m k)) path l → path ≠ 0 → (length l < 256)%nat →
  with_path k path body = body l.
Proof.
  intros Hs Hp Hl. unfold with_path. destruct (cstr_from_user_spec _ _ _ Hs Hp Hl) as (buf & -> & ->). done.
Qed.

(** [chdir], then [getcwd].  When the path in user memory resolves, from the current directory,
    to a directory, and the resulting name fits, [chdir] succeeds: the current directory becomes the path, or the path appended to the old one; no
    other process changes.  [getcwd] with room for it then stores that name and its NUL in the caller's buffer. *)
Theorem chdir_getcwd (k : kernel H) (p : Process) (path : Z) (l : list Z) (v : vref) (n : nstate H) (vn : Vnode)
  (Hp : procs (k_m k) (cur k) = Some p) (Hcwd : length (cwd p) = 256%nat ∧ Forall is_byte (cwd p))
  (Hs : string_at (space (k_m k)) path l) (Hnull : path ≠ 0)
  (Hfit : (length l ≤ 255)%nat ∧ (length (target_cwd (cwd_slice p) l) ≤ 255)%nat)
  (Hres : vfs_resolve_relative (k_ns k) (cwd_slice p) l = Ret (inl v, n))
  (Hvn : get_vnode (ns_files n) v = Ret vn) (Hdir : Z.land (vn_mode vn) V_DIR ≠ 0) :
  let c := target_cwd (cwd_slice p) l in
  ∃ k1 p1, sys_chdir k path = Ret (0, k1) ∧ cwd_slice p1 = c ∧ k_ns k1 = n ∧
    (∀ q, procs (k_m k1) q = if q =? cur k then Some p1 else procs (k_m k) q) ∧
    ∀ buf size, buf ≠ 0 → Z.of_nat (length c) < size →
      ∃ k2, sys_getcwd k1 buf size = Ret (buf, k2) ∧ string_at (space (k_m k2)) buf c.
Proof.
  intros c. destruct Hcwd as [Hlen Hby], Hfit as [Hl1 Hl2]. fold c in Hl2.
  assert (Forall (λ b, b ≠ 0) c) as Hnz by (apply target_nz; [apply until_nul_nz; lia|apply Hs]).
  assert (Forall is_byte c) as Hbc.
  { assert (Forall is_byte (cwd_slice p)) as Hb1 by (by apply Forall_take).
    assert (Forall is_byte l) as Hb2.
    { destruct Hs as [E _]. pose proof (ld_bytes_byte (space (k_m k)) path (Z.of_nat (length l) + 1)) as Hb.
      rewrite E in Hb. by apply Forall_app in Hb as [Hb _]. }
    subst c. unfold target_cwd. destruct (bool_decide _); [done|]. apply Forall_app. split; [|done].
    destruct (last (cwd_slice p)) as [x|]; [|done]. destruct (x =? SLASH); [done|]. apply Forall_app. split; [done|].
    by apply List.Forall_cons. }
  set (new := c ++ 0 :: drop (S (length c)) (cwd p)).
  set (k1 := set_m (set_kns k n) (upd (k_m k) (cur k) (set_cwd new))).
  assert (cwd_slice (set_cwd new p) = c) as Hslice by (by apply until_nul_app).
  exists k1, (set_cwd new p). split; [|split; [done|split; [done|split]]].
  - unfold sys_chdir. rewrite (with_path_string _ _ l) by (done || lia). rewrite (process_ret _ _ _ Hp).
    cbn [mbind outcome_bind]. rewrite Hres. cbn [mbind outcome_bind]. change (k_files (set_kns k n)) with (ns_files n).
    rewrite Hvn. cbn [mbind outcome_bind]. rewrite (proj2 (Z.eqb_neq _ _) Hdir), new_cwd_target by done.
    cbn [mbind outcome_bind]. fold c. rewrite (take_ge c) by (unfold PATH_MAX; lia).
    change (write_cwd (cwd p) 0 c) with (write_cwd ([] ++ cwd p) (Z.of_nat (length (@nil Z))) c).
    rewrite write_cwd_spec by lia. cbn [mbind outcome_bind app].
    by rewrite (process_mut_ret _ _ _ _ Hp).
  - intros q. by apply procs_upd.
  - intros buf size Hbuf Hsize. apply (sys_getcwd_spec k1 (set_cwd new p)); try done.
    + change (procs (upd (k_m k) (cur k) (set_cwd new)) (cur k) = Some (set_cwd new p)).
      rewrite (procs_upd _ _ p) by done. by rewrite Z.eqb_refl.
    + cbn [cwd set_cwd]. subst new. rewrite length_app. cbn [length]. rewrite length_drop. lia.
Qed.

(** ** Seeking and reading *)

Lemma opened_put k fd idx f vn off : opened k fd idx f vn →
  ∃ k', put_offset k idx f off = Ret k' ∧ opened k' fd idx (set_offset f off) vn ∧ k_io k' = k_io k ∧
    ns_arc (k_ns k') = ns_arc (k_ns k).
Proof.
  intros Ho. eexists. split; [by apply (put_offset_ret _ _ _ _ _ _ Ho)|]. split; [|done].
  pose proof (opened_entry _ _ _ _ _ Ho) as He. destruct Ho as [Hfd Hf]. split; [done|].
  revert Hf. unfold file_of, oft_get, index. cbn [k_files set_kfiles k_ns set_files ns_files set_oft fs_oft].
  destruct (OFT_SIZE <=? idx); [done|].
  rewrite He, list_lookup_insert_eq by (by eapply lookup_lt_Some). cbn [mbind outcome_bind of_vnode set_offset].
  destruct (of_vnode f) as [v|]; [|done]. unfold get_vnode. cbn [fs_statics fs_vnodes].
  destruct v as [s|p]; cbn; [by intros [= ->]|]. by destruct (fs_vnodes (k_files k) !! p); cbn; [intros [= ->]|].
Qed.

Lemma sys_lseek_set k fd idx f vn off : opened k fd idx f vn → op_lseek (deref_ops (vn_ops vn)) = None →
  0 ≤ off < 2 ^ 63 → ∃ k', sys_lseek k fd off 0 = Ret (off, k') ∧ opened k' fd idx (set_offset f off) vn ∧
    k_io k' = k_io k ∧ ns_arc (k_ns k') = ns_arc (k_ns k).
Proof.
  intros Ho Hop Hoff. destruct (opened_put k fd idx f vn off Ho) as (k' & E & Hr). exists k'. split; [|done].
  unfold sys_lseek, with_file. rewrite (opened_fd _ _ _ _ _ Ho). cbn [mbind outcome_bind].
  rewrite (opened_file _ _ _ _ _ Ho). cbn [mbind outcome_bind]. rewrite Hop. cbn [Z.eqb].
  unfold i64. rewrite Z.mod_small by lia. rewrite Z.add_simpl_r, (proj2 (Z.ltb_ge off 0)) by lia.
  rewrite u64_small by lia. by rewrite E.
Qed.

Lemma slice_bytes arc off n : Forall is_byte arc → Forall is_byte (slice arc off n).
Proof.
  intros Ha. unfold slice, byte_at. apply Forall_fmap, Forall_true. intros i. cbn.
  destruct (arc !! Z.to_nat (off + i)) as [b|] eqn:E; cbn; [|done]. rewrite Forall_lookup in Ha. by eapply Ha.
Qed.

Lemma sys_read_archive k fd idx f vn data buf len : opened k fd idx f vn → vn_ops vn = at_INITRAMFS_FILE_OPS →
  vn_data vn = DArchive data → 0 ≤ of_offset f → 0 ≤ vn_size vn < 2 ^ 63 → Forall is_byte (ns_arc (k_ns k)) →
  buf ≠ 0 → 0 < len →
  let n := Z.min len (Z.max 0 (vn_size vn - of_offset f)) in
  ∃ k', sys_read_vfs k fd buf len = Ret (n, k') ∧
    copy_in (k_m k') buf n = slice (ns_arc (k_ns k)) (data + of_offset f) n ∧
    opened k' fd idx (set_offset f (of_offset f + n)) vn.
Proof.
  intros Ho Hops Hdata Hoff Hsz Harc Hbuf Hlen n. unfold sys_read_vfs, with_file.
  rewrite (opened_fd _ _ _ _ _ Ho). cbn [mbind outcome_bind].
  rewrite (proj2 (Z.eqb_neq _ _) Hbuf), (proj2 (Z.eqb_neq len 0)) by lia. cbn [orb guard_inval].
  rewrite (opened_file _ _ _ _ _ Ho). cbn [mbind outcome_bind]. unfold read_file. rewrite Hops.
  cbn [op_read deref_ops INITRAMFS_FILE_OPS vn_read]. rewrite Hdata. unfold initramfs_read. fold n.
  set (bs := slice (ns_arc (k_ns k)) (data + of_offset f) n).
  assert (Z.of_nat (length bs) = n) as Hbl by (subst bs; unfold slice; rewrite length_fmap, length_seqZ; lia).
  assert ((if n =? 0 then (0, [], of_offset f) else (i64 n, bs, u64 (of_offset f + n))) = (n, bs, of_offset f + n)) as ->.
  { destruct (Z.eqb_spec n 0) as [E|E].
    - assert (bs = []) as -> by (apply nil_length_inv; lia). by rewrite E, Z.add_0_r.
    - unfold i64. rewrite Z.mod_small, Z.add_simpl_r, u64_small by lia. done. }
  cbn [mbind outcome_bind]. set (k1 := k_copy_out k buf bs).
  destruct (opened_put k1 fd idx f vn (of_offset f + n)) as (k' & E & Ho' & Hio & _); [by apply (opened_same k)|].
  rewrite E. cbn [mbind outcome_bind]. exists k'. split; [by rewrite u64_small by lia|]. split; [|done].
  unfold k_m. rewrite Hio. change (copy_in (copy_out (k_m k) buf bs) buf n = bs). rewrite <- Hbl.
  by apply copy_roundtrip, slice_bytes.
Qed.

(** Seeking in an archive file, then reading.  [lseek] to an absolute offset returns it; [read] then
    returns as many bytes as were asked for and the file has left, which are the file's bytes
    from that offset on, and leaves the offset behind them.  Past the end it returns 0. *)
Theorem lseek_read (k : kernel H) (fd idx data off buf len : Z) (f : OpenFile) (vn : Vnode)
  (Ho : opened k fd idx f vn) (Hops : vn_ops vn = at_INITRAMFS_FILE_OPS) (Hdata : vn_data vn = DArchive data)
  (Hsize : 0 ≤ vn_size vn < 2 ^ 63) (Harc : Forall is_byte (ns_arc (k_ns k)))
  (Hoff : 0 ≤ off < 2 ^ 63) (Hbuf : buf ≠ 0) (Hlen : 0 < len) :
  let n := Z.min len (Z.max 0 (vn_size vn - off)) in
  ∃ k1 k2, sys_lseek k fd off 0 = Ret (off, k1) ∧ sys_read_vfs k1 fd buf len = Ret (n, k2) ∧
    copy_in (k_m k2) buf n = slice (ns_arc (k_ns k)) (data + off) n ∧
    opened k2 fd idx (set_offset f (off + n)) vn.
Proof.
  intros n. destruct (sys_lseek_set k fd idx f vn off Ho) as (k1 & E1 & O1 & _ & Ha); [by rewrite Hops|done|].
  destruct (sys_read_archive k1 fd idx (set_offset f off) vn data buf len O1 Hops Hdata) as (k2 & E2 & Hc & O2);
    [cbn; lia|done|by rewrite Ha|done|done|].
  exists k1, k2. rewrite Ha in Hc. split_and!; done.
Qed.
End spec.

(** ** Examples *)

(** One process with descriptors [fds], current directory "/", and [bytes] at address 8192
    of its memory. *)
Definition shell_proc (fds : FdTable) : Process :=
  set_cwd (SLASH :: replicate 255 0) (set_fd_table fds (demo_proc 1 Running)).
Definition shell_machine (fds : FdTable) (bytes : list Z) : machine :=
  copy_out (write_cr3 4096 (demo_machine 1 [shell_proc fds])) 8192 bytes.
Definition shell (fds : FdTable) (bytes : list Z) (n : nstate (mem * heap)) : kernel (mem * heap) :=
  mkK (Tty.demo_io (shell_machine fds bytes)) [] n.

Definition put_oft (o : OpenFileTable) (n : nstate (mem * heap)) : nstate (mem * heap) := set_files n (set_oft (ns_files n) o).

(** The booted system with an open file on [v] as descriptor 0. *)
Definition with_open (v : vref) : nstate (mem * heap) :=
  put_oft (<[0%nat := Some (mkOF (Some v) 0 0 0 1)]> OpenFileTable_new) (booted [] None fresh_heap).
Definition fd0 : FdTable := <[0%nat := 0]> FdTable_new.

(** The state after [pipe] on a fresh system. *)
Definition piped : option (FdTable * fstate (mem * heap)) :=
  match sys_pipe fresh_files FdTable_new 4096 with Ret (_, fds, Some _, s) => Some (fds, s) | _ => None end.
Definition pipe_shell : kernel (mem * heap) :=
  let '(fds, s) := default ([], fresh_files) piped in
  shell fds [104; 105] (set_files (booted [] None fresh_heap) s).

Definition pipe_address : Z := default 0 (fst <$> head (map_to_list (fs_pipes (k_files pipe_shell)))).

Lemma pipe_shell_ends : pipe_ends pipe_shell 0 1 pipe_address PipeBuf_new.
Proof.
  split.
  - do 3 eexists. split; [split; vm_compute; reflexivity|]. split; vm_compute; reflexivity.
  - do 3 eexists. split; [split; vm_compute; reflexivity|]. split; vm_compute; reflexivity.
  - vm_compute. reflexivity.
  - apply PipeBuf_new_wf.
  - assert (pipe_queue PipeBuf_new = []) as -> by (vm_compute; reflexivity). done.
Qed.

Lemma pipe_transfer_witness : ∃ k1 k2, sys_write pipe_shell 1 8192 2 = Ret (2, k1) ∧
  sys_read k1 0 12288 2 = Ret (2, k2) ∧ copy_in (k_m k2) 12288 2 = [104; 105].
Proof.
  assert (pipe_queue PipeBuf_new = []) as Hq by (vm_compute; reflexivity).
  destruct (pipe_transfer pipe_shell 0 1 pipe_address 8192 12288 2 PipeBuf_new) as (k1 & k2 & pb2 & E1 & E2 & Hc & _).
  - apply pipe_shell_ends.
  - lia.
  - rewrite Hq. cbn. lia.
  - done.
  - done.
  - rewrite Hq in E2, Hc. change (Z.of_nat (length (@nil Z)) + 2) with 2 in E2, Hc. exists k1, k2. split; [exact E1|]. split; [exact E2|]. rewrite Hc. vm_compute. reflexivity.
Defined.

Lemma getdents_spec_witness : ∃ k', sys_getdents (shell fd0 [] (with_open (VStatic ROOT_DIR))) 0 8192 64 = Ret (6, k') ∧
  length (copy_in (k_m k') 8192 1680) = 1680%nat.
Proof.
  destruct (getdents_spec (shell fd0 [] (with_open (VStatic ROOT_DIR))) 0 0 8192 64 (mkOF (Some (VStatic ROOT_DIR)) 0 0 0 1)
              (static_init ROOT_DIR) rootfs_readdir_fn) as (k' & E & _).
  - split; vm_compute; reflexivity.
  - reflexivity.
  - done.
  - done.
  - exists k'. split; [exact E|]. apply length_ld_bytes.
Defined.

Lemma chdir_getcwd_witness : ∃ k1, sys_chdir (shell fd0 [47; 100; 101; 118; 0] (with_open (VStatic ROOT_DIR))) 8192 = Ret (0, k1) ∧
  ∃ k2, sys_getcwd k1 12288 64 = Ret (12288, k2) ∧ string_at (space (k_m k2)) 12288 [47; 100; 101; 118].
Proof.
  destruct (chdir_getcwd (shell fd0 [47; 100; 101; 118; 0] (with_open (VStatic ROOT_DIR))) (shell_proc fd0) 8192 [47; 100; 101; 118]
              (VStatic DEVFS_ROOT) (with_open (VStatic ROOT_DIR)) (static_init DEVFS_ROOT)) as (k1 & p1 & E & _ & _ & _ & Hg).
  - vm_compute. reflexivity.
  - split; [reflexivity|]. apply List.Forall_cons; [split; done|]. by apply Forall_replicate.
  - split; [vm_compute; reflexivity|]. repeat (apply List.Forall_cons; [done|]). done.
  - done.
  - split; vm_compute; lia.
  - vm_compute. reflexivity.
  - vm_compute. reflexivity.
  - vm_compute. discriminate.
  - exists k1. split; [exact E|]. apply (Hg 12288 64); [done|vm_compute; reflexivity].
Defined.

(** A file of three bytes at the start of the archive. *)
Definition file_vnode : Vnode := mkVnode at_INITRAMFS_FILE_OPS (Z.lor V_FILE 420) 0 3 InitramFS (DArchive 0) None.
Definition file_ns : nstate (mem * heap) :=
  let n := booted [65; 66; 67] None fresh_heap in
  set_files n (set_vnodes (set_oft (ns_files n) (<[0%nat := Some (mkOF (Some (VHeap 65536)) 0 0 0 1)]> OpenFileTable_new))
                 {[ 65536 := file_vnode ]}).

Lemma lseek_read_witness : ∃ k1 k2, sys_lseek (shell fd0 [] file_ns) 0 1 0 = Ret (1, k1) ∧
  sys_read_vfs k1 0 8192 10 = Ret (2, k2) ∧ copy_in (k_m k2) 8192 2 = [66; 67].
Proof.
  destruct (lseek_read (shell fd0 [] file_ns) 0 0 0 1 8192 10 (mkOF (Some (VHeap 65536)) 0 0 0 1) file_vnode)
    as (k1 & k2 & E1 & E2 & Hc & _).
  - split; vm_compute; reflexivity.
  - reflexivity.
  - reflexivity.
  - split; done.
  - repeat (apply List.Forall_cons; [split; done|]). done.
  - done.
  - done.
  - done.
  - change (Z.min 10 (Z.max 0 (vn_size file_vnode - 1))) with 2 in E2, Hc.
    exists k1, k2. split; [exact E1|]. split; [exact E2|]. rewrite Hc. vm_compute. reflexivity.
Defined.

(** A second [getdents] returns the same entries again: the end of the directory is never reported. *)
Theorem getdents_repeats :
  match sys_getdents (shell fd0 [] (with_open (VStatic ROOT_DIR))) 0 8192 64 with
  | Ret (n, k1) => n = 6 ∧ match sys_getdents k1 0 8192 64 with Ret (n, _) => n = 6 | _ => False end
  | _ => False
  end.
Proof. vm_compute. split; reflexivity. Qed.

Definition lseek_tty : Z :=
  match sys_lseek (shell fd0 [] (with_open (VStatic DEV_TTYS0_VNODE))) 0 5 0 with Ret (r, _) => r | _ => -1 end.

(** Seeking on the terminal succeeds. *)
Theorem lseek_on_tty_succeeds : lseek_tty = 5.
Proof. vm_compute. reflexivity. Qed.

(** [chdir(..)] does not canonicalise: from "/" the current directory becomes "/..". *)
Theorem chdir_keeps_dots :
  match sys_chdir (shell fd0 [46; 46; 0] (with_open (VStatic ROOT_DIR))) 8192 with
  | Ret (r, k1) => r = 0 ∧ cwd_slice <$> procs (k_m k1) 1 = Some [47; 46; 46]
  | _ => False
  end.
Proof. vm_compute. split; reflexivity. Qed.
