(* ===== verification/Arena.v ===== *)
(** * The loader's page records (src/kernel_rust/src/elf.rs: LoadedPages)

    The pages one load has mapped are recorded in chunks of 64, taken from a static pool
    of 64 chunks whose free ones are the set bits of a mask.  A chunk pointer is the
    index of the chunk in the pool. *)

From Stdlib Require Import ZArith Lia.
From stdpp Require Import base numbers list list_numbers option.
From S2P Require Import Prelude.

Local Open Scope Z_scope.

Inductive ElfError :=
| BadMagic | BadClass | BadEndian | BadMachine | BadType | InvalidAddress | FixedStackOverlap
| MappingCollision | InvalidEntry | Truncated | Oom | MetadataOom.

#[global] Instance ElfError_eq_dec : EqDecision ElfError.
Proof. solve_decision. Defined.

Definition PROVENANCE_CHUNK_CAP : Z := 64.
Definition PROVENANCE_CHUNK_COUNT : Z := 64.

Record LoadedPage := mkPage { lp_vaddr : Z; lp_paddr : Z }.

Record LoadedPageChunk := mkChunk {
  c_next : option Z;
  c_used : Z;
  c_pages : list LoadedPage
}.

(** [PROVENANCE_POOL] and [PROVENANCE_FREE_MASK]. *)
Record arena := mkArena { pool : list LoadedPageChunk; free_mask : Z }.

Record LoadedPages := mkLoaded { lp_head : option Z; lp_tail : option Z; lp_len : Z }.
Definition LoadedPages_new : LoadedPages := mkLoaded None None 0.

Definition set_chunk (ar : arena) (i : Z) (c : LoadedPageChunk) : outcome arena :=
  p ← store (pool ar) i c; Ret (mkArena p (free_mask ar)).

(** [trailing_zeros] of a 64-bit value. *)
Fixpoint trailing_zeros (x i : Z) (n : nat) : Z :=
  match n with O => i | S n => if Z.testbit x i then i else trailing_zeros x (i + 1) n end.

(** Takes the first free chunk and links it behind the last. *)
Definition new_chunk (ar : arena) (lp : LoadedPages) : outcome (option (arena * LoadedPages)) :=
  if free_mask ar =? 0 then Ret None
  else
    let idx := trailing_zeros (free_mask ar) 0 64 in
    let ar := mkArena (pool ar) (and_not (free_mask ar) (bit idx)) in
    c ← index (pool ar) idx;
    ar ← set_chunk ar idx (mkChunk None 0 (c_pages c));
    match lp_tail lp with
    | None => Ret (Some (ar, mkLoaded (Some idx) (Some idx) (lp_len lp)))
    | Some t =>
        c ← index (pool ar) t;
        ar ← set_chunk ar t (mkChunk (Some idx) (c_used c) (c_pages c));
        Ret (Some (ar, mkLoaded (lp_head lp) (Some idx) (lp_len lp)))
    end.

(** The next slot of the last chunk, as a chunk and a position in it. *)
Definition take_slot (ar : arena) (lp : LoadedPages) : outcome ((Z * Z + ElfError) * arena * LoadedPages) :=
  t ← deref (lp_tail lp);
  c ← index (pool ar) t;
  _ ← index (c_pages c) (c_used c);
  ar ← set_chunk ar t (mkChunk (c_next c) (c_used c + 1) (c_pages c));
  Ret (inl (t, c_used c), ar, mkLoaded (lp_head lp) (lp_tail lp) (lp_len lp + 1)).

Definition reserve (ar : arena) (lp : LoadedPages) : outcome ((Z * Z + ElfError) * arena * LoadedPages) :=
  full ← (match lp_tail lp with
          | None => Ret true
          | Some t => c ← index (pool ar) t; Ret (c_used c =? PROVENANCE_CHUNK_CAP)
          end);
  r ← (if full : bool then new_chunk ar lp else Ret (Some (ar, lp)));
  match r with
  | None => Ret (inr MetadataOom, ar, lp)
  | Some (ar, lp) => take_slot ar lp
  end.

(** Assigning to a reserved slot. *)
Definition write_slot (ar : arena) (slot : Z * Z) (page : LoadedPage) : outcome arena :=
  c ← index (pool ar) (fst slot);
  pages ← store (c_pages c) (snd slot) page;
  set_chunk ar (fst slot) (mkChunk (c_next c) (c_used c) pages).

Definition cancel_reservation (ar : arena) (lp : LoadedPages) : outcome (arena * LoadedPages) :=
  match lp_tail lp with
  | None => Ret (ar, lp)
  | Some t =>
      c ← index (pool ar) t;
      if 0 <? c_used c then
        ar ← set_chunk ar t (mkChunk (c_next c) (c_used c - 1) (c_pages c));
        Ret (ar, mkLoaded (lp_head lp) (lp_tail lp) (lp_len lp - 1))
      else Ret (ar, lp)
  end.

(** The pages in use of a chunk: [&pages[..used]]. *)
Definition used_pages (c : LoadedPageChunk) : list LoadedPage := take (Z.to_nat (c_used c)) (c_pages c).

Fixpoint find_page (l : list LoadedPage) (vaddr : Z) : option Z :=
  match l with
  | [] => None
  | p :: l => if lp_vaddr p =? vaddr then Some (lp_paddr p) else find_page l vaddr
  end.

(** [while !chunk.is_null()]: a chain has at most 64 chunks. *)
Definition CHAIN : nat := 65.

Fixpoint find_from (ar : arena) (chunk : option Z) (vaddr : Z) (fuel : nat) : outcome (option Z) :=
  match chunk, fuel with
  | None, _ => Ret None
  | Some _, O => Hang
  | Some i, S fuel =>
      c ← index (pool ar) i;
      match find_page (used_pages c) vaddr with
      | Some p => Ret (Some p)
      | None => find_from ar (c_next c) vaddr fuel
      end
  end.

Definition lp_find (ar : arena) (lp : LoadedPages) (vaddr : Z) : outcome (option Z) :=
  find_from ar (lp_head lp) vaddr CHAIN.

(** [release_metadata]. *)
Fixpoint release_from (ar : arena) (chunk : option Z) (fuel : nat) : outcome arena :=
  match chunk, fuel with
  | None, _ => Ret ar
  | Some _, O => Hang
  | Some i, S fuel =>
      c ← index (pool ar) i;
      ar ← set_chunk (mkArena (pool ar) (Z.lor (free_mask ar) (bit i))) i (mkChunk None 0 (c_pages c));
      release_from ar (c_next c) fuel
  end.

Definition release_metadata (ar : arena) (lp : LoadedPages) : outcome (arena * LoadedPages) :=
  ar ← release_from ar (lp_head lp) CHAIN; Ret (ar, LoadedPages_new).
