(* ===== verification/ArenaSpec.v ===== *)
(** * What the page records promise

    The chunks of a load, linked from [head] to [tail], hold a list of records: reserving
    appends to it, cancelling drops the last, and releasing gives every chunk back. *)

From Stdlib Require Import ZArith Lia.
From stdpp Require Import base numbers list list_numbers option gmap.
From S2P Require Import Prelude Arena.

Local Open Scope Z_scope.

Definition used_of (ar : arena) (i : Z) : list LoadedPage :=
  match pool ar !! Z.to_nat i with Some c => used_pages c | None => [] end.

(** The arena holds the records [L] of one load in the chunks [ch], and its other chunks are free. *)
Record rep (ar : arena) (lp : LoadedPages) (ch : list Z) (L : list LoadedPage) : Prop := {
  rp_pool : length (pool ar) = 64%nat;
  rp_pages : Forall (λ c, length (c_pages c) = 64%nat) (pool ar);
  rp_nodup : NoDup ch;
  rp_range : Forall (λ i, 0 ≤ i < 64) ch;
  rp_head : lp_head lp = list.head ch;
  rp_tail : lp_tail lp = list.last ch;
  rp_link : ∀ k i, ch !! k = Some i → ∃ c, pool ar !! Z.to_nat i = Some c ∧ c_next c = ch !! S k ∧
    0 ≤ c_used c ≤ 64 ∧ (is_Some (ch !! S k) → c_used c = 64);
  rp_data : L = mjoin (used_of ar <$> ch);
  rp_mask : 0 ≤ free_mask ar < 2 ^ 64;
  rp_free : ∀ i, 0 ≤ i < 64 → Z.testbit (free_mask ar) i = negb (bool_decide (i ∈ ch))
}.

(** No load is under way. *)
Definition idle (ar : arena) : Prop := rep ar LoadedPages_new [] [].

Definition arena_init : arena :=
  mkArena (replicate 64 (mkChunk None 0 (replicate 64 (mkPage 0 0)))) U64_MAX.

Lemma arena_init_idle : idle arena_init.
Proof.
  split; try done.
  - by apply Forall_replicate.
  - apply NoDup_nil_2.
  - intros i Hi. cbn [free_mask arena_init]. change U64_MAX with (Z.ones 64). rewrite Z.testbit_ones_nonneg by lia.
    rewrite bool_decide_eq_false_2 by apply not_elem_of_nil. zcases.
Qed.

Lemma trailing_zeros_spec x n : ∀ i, (∃ j, i ≤ j < i + Z.of_nat n ∧ Z.testbit x j = true) →
  i ≤ trailing_zeros x i n < i + Z.of_nat n ∧ Z.testbit x (trailing_zeros x i n) = true.
Proof.
  induction n as [|n IH]; intros i (j & Hj & Hx); [lia|]. cbn [trailing_zeros].
  destruct (Z.testbit x i) eqn:E; [split; [lia|done]|].
  destruct (IH (i + 1)) as [H1 H2]; [|split; [lia|done]]. exists j. split; [|done].
  destruct (decide (j = i)) as [->|]; [congruence|lia].
Qed.

(** A non-zero mask has a free chunk. *)
Lemma first_free x : 0 ≤ x < 2 ^ 64 → x ≠ 0 →
  0 ≤ trailing_zeros x 0 64 < 64 ∧ Z.testbit x (trailing_zeros x 0 64) = true.
Proof.
  intros Hx Hn. apply (trailing_zeros_spec x 64 0).
  exists (Z.log2 x). split; [|apply Z.bit_log2; lia]. split; [apply Z.log2_nonneg|].
  apply Z.log2_lt_pow2; cbn; lia.
Qed.

Lemma length_used c : length (c_pages c) = 64%nat → 0 ≤ c_used c ≤ 64 → Z.of_nat (length (used_pages c)) = c_used c.
Proof. intros Hl Hu. unfold used_pages. rewrite length_take. lia. Qed.

Lemma rep_chunk ar lp ch L k i : rep ar lp ch L → ch !! k = Some i →
  0 ≤ i < 64 ∧ ∃ c, index (pool ar) i = Ret c ∧ pool ar !! Z.to_nat i = Some c ∧ length (c_pages c) = 64%nat ∧
    c_next c = ch !! S k ∧ 0 ≤ c_used c ≤ 64 ∧ (is_Some (ch !! S k) → c_used c = 64).
Proof.
  intros R Hk. pose proof (rp_range _ _ _ _ R) as Hr. rewrite Forall_lookup in Hr. specialize (Hr k i Hk) as Hi. cbn in Hi.
  split; [done|]. destruct (rp_link _ _ _ _ R k i Hk) as (c & Hc & Hn & Hu & Hf). exists c.
  split; [by apply index_ret|]. split; [done|]. split; [|done].
  pose proof (rp_pages _ _ _ _ R) as Hp. rewrite Forall_lookup in Hp. by apply (Hp _ _ Hc).
Qed.

(** ** Reading along the chain *)

Lemma find_page_app l1 l2 v : find_page (l1 ++ l2) v = match find_page l1 v with Some p => Some p | None => find_page l2 v end.
Proof. induction l1 as [|p l1 IH]; cbn; [done|]. by destruct (lp_vaddr p =? v). Qed.

Lemma drop_cons_lookup {A} (l : list A) k x : l !! k = Some x → drop k l = x :: drop (S k) l.
Proof. intros H. by rewrite (drop_S l x k H). Qed.

Lemma used_of_chunk ar i c : pool ar !! Z.to_nat i = Some c → used_of ar i = used_pages c.
Proof. unfold used_of. by intros ->. Qed.

Lemma find_from_spec ar lp ch L v fuel : rep ar lp ch L → ∀ k, (length ch - k < fuel)%nat →
  find_from ar (ch !! k) v fuel = Ret (find_page (mjoin (used_of ar <$> drop k ch)) v).
Proof.
  intros R. induction fuel as [|fuel IH]; intros k Hf; [lia|]. cbn [find_from].
  destruct (ch !! k) as [i|] eqn:Hk.
  - destruct (rep_chunk _ _ _ _ _ _ R Hk) as (_ & c & -> & Hc & _ & Hn & _). cbn [mbind outcome_bind].
    rewrite (drop_cons_lookup _ _ _ Hk). cbn [fmap list_fmap mjoin list_join]. rewrite (used_of_chunk _ _ _ Hc), find_page_app.
    destruct (find_page (used_pages c) v); [done|]. rewrite Hn. apply IH.
    apply lookup_lt_Some in Hk. lia.
  - rewrite drop_ge by (by apply lookup_ge_None). done.
Qed.

Lemma chain_length ar lp ch L : rep ar lp ch L → (length ch ≤ 64)%nat.
Proof.
  intros R. change 64%nat with (length (seqZ 0 64)). apply submseteq_length, NoDup_submseteq; [apply R|].
  intros i Hi. apply elem_of_seqZ. pose proof (rp_range _ _ _ _ R) as Hr. rewrite list.Forall_forall in Hr. specialize (Hr i Hi). cbn in Hr. lia.
Qed.

Lemma lp_find_spec ar lp ch L v : rep ar lp ch L → lp_find ar lp v = Ret (find_page L v).
Proof.
  intros R. unfold lp_find. rewrite (rp_head _ _ _ _ R), (rp_data _ _ _ _ R).
  replace (list.head ch) with (ch !! 0%nat) by (by destruct ch).
  pose proof (chain_length _ _ _ _ R). rewrite (find_from_spec _ _ _ _ _ _ R) by (unfold CHAIN; lia). done.
Qed.

(** ** Changing the last chunk *)

Lemma used_of_set ar ar' t c i : pool ar' = <[Z.to_nat t := c]> (pool ar) → 0 ≤ t → 0 ≤ i → (Z.to_nat t < length (pool ar))%nat →
  used_of ar' i = if i =? t then used_pages c else used_of ar i.
Proof.
  intros Hp Ht Hi Hl. unfold used_of. rewrite Hp. destruct (Z.eqb_spec i t) as [->|Hne].
  - by rewrite list_lookup_insert_eq.
  - by rewrite list_lookup_insert_ne by lia.
Qed.

Lemma used_of_others ar ar' t c ch : pool ar' = <[Z.to_nat t := c]> (pool ar) → 0 ≤ t → (Z.to_nat t < length (pool ar))%nat →
  Forall (λ i, 0 ≤ i < 64) ch → t ∉ ch → used_of ar' <$> ch = used_of ar <$> ch.
Proof.
  intros Hp Ht Hl Hr Hn. apply list_fmap_ext. intros k i Hi. rewrite Forall_lookup in Hr. pose proof (Hr k i Hi) as Hi'. cbn in Hi'.
  rewrite (used_of_set _ _ _ _ i Hp) by lia. destruct (Z.eqb_spec i t) as [->|]; [|done].
  exfalso. apply Hn. by apply list_elem_of_lookup_2 in Hi.
Qed.

Lemma mjoin_snoc {A} (l : list (list A)) x : mjoin (l ++ [x]) = mjoin l ++ x.
Proof.
  induction l as [|y l IH]; [by rewrite app_nil_l; cbn; rewrite app_nil_r|].
  change (mjoin ((y :: l) ++ [x])) with (y ++ mjoin (l ++ [x])). by rewrite IH, app_assoc.
Qed.

Lemma rep_tail ar lp ch t L c lp' : rep ar lp (ch ++ [t]) L → c_next c = None → length (c_pages c) = 64%nat →
  0 ≤ c_used c ≤ 64 → lp_head lp' = lp_head lp → lp_tail lp' = lp_tail lp →
  ∃ ar', set_chunk ar t c = Ret ar' ∧ rep ar' lp' (ch ++ [t]) (mjoin (used_of ar <$> ch) ++ used_pages c) ∧
    pool ar' = <[Z.to_nat t := c]> (pool ar) ∧ used_of ar' <$> ch = used_of ar <$> ch.
Proof.
  intros R Hn Hl Hu Hh Ht. pose proof (rp_pool _ _ _ _ R) as Hp.
  pose proof (rp_range _ _ _ _ R) as Hr. apply Forall_app in Hr as [Hrc Hrt]. apply Forall_cons in Hrt as [Hrt _].
  pose proof (rp_nodup _ _ _ _ R) as Hd. apply list.NoDup_app in Hd as (_ & Hd & _).
  assert (t ∉ ch) as Htc by (intros Hx; apply (Hd t Hx), list_elem_of_here).
  unfold set_chunk. rewrite store_in_range by (rewrite Hp; lia). cbn [mbind outcome_bind]. eexists. split; [done|].
  set (ar' := mkArena _ _).
  assert (used_of ar' <$> ch = used_of ar <$> ch) as Hsame by (eapply used_of_others; done || lia).
  split; [|by split]. split; try apply R.
  - cbn [pool ar']. by rewrite length_insert.
  - cbn [pool ar']. apply Forall_insert; [apply R|done].
  - rewrite Hh. apply R.
  - rewrite Ht. apply R.
  - intros k i Hk. destruct (rep_chunk _ _ _ _ _ _ R Hk) as (Hi & c0 & _ & Hc0 & _ & Hn0 & Hu0 & Hf0). cbn [pool ar'].
    apply lookup_snoc_Some in Hk as [[Hk Hk']|[-> <-]].
    + exists c0. rewrite list_lookup_insert_ne; [done|].
      intros E. apply Z2Nat.inj in E; [|lia|lia]. subst. by apply Htc, (list_elem_of_lookup_2 _ k).
    + exists c. rewrite list_lookup_insert_eq by lia. split; [done|]. rewrite Hn.
      assert ((ch ++ [t]) !! S (length ch) = None) as -> by (apply lookup_ge_None_2; rewrite length_app; cbn; lia).
      split; [done|]. split; [done|]. by intros [].
  - rewrite fmap_app, Hsame. cbn [fmap list_fmap]. rewrite mjoin_snoc. f_equal.
    unfold used_of. cbn [pool ar']. by rewrite list_lookup_insert_eq by lia.
Qed.

(** The chunks of a load but its last are full. *)
Lemma rep_length ar lp ch t L c : rep ar lp (ch ++ [t]) L → pool ar !! Z.to_nat t = Some c →
  Z.of_nat (length L) = 64 * Z.of_nat (length ch) + c_used c ∧ L = mjoin (used_of ar <$> ch) ++ used_pages c.
Proof.
  intros R Hc. assert (L = mjoin (used_of ar <$> ch) ++ used_pages c) as HL.
  { rewrite (rp_data _ _ _ _ R), fmap_app. cbn [fmap list_fmap]. by rewrite mjoin_snoc, (used_of_chunk _ _ _ Hc). }
  split; [|done]. rewrite HL, length_app.
  destruct (rep_chunk _ _ _ _ (length ch) t R) as (_ & c' & _ & Hc' & Hl & _ & Hu & _); [by apply list_lookup_middle|].
  rewrite Hc in Hc'. injection Hc' as <-. rewrite Nat2Z.inj_add, length_used by done. f_equal.
  assert (∀ k, (k ≤ length ch)%nat → Z.of_nat (length (mjoin (used_of ar <$> take k ch))) = 64 * Z.of_nat k) as Hall.
  { induction k as [|k IH]; intros Hk; [done|]. destruct (lookup_lt_is_Some_2 ch k) as [i Hi]; [lia|].
    rewrite (take_S_r _ _ _ Hi), fmap_app. cbn [fmap list_fmap]. rewrite mjoin_snoc, length_app, Nat2Z.inj_add, IH by lia.
    destruct (rep_chunk _ _ _ _ k i R) as (_ & ck & _ & Hck & Hlk & _ & Huk & Hfk); [by apply lookup_app_l_Some|].
    rewrite (used_of_chunk _ _ _ Hck), length_used, Hfk; [lia| |done|done].
    apply lookup_lt_is_Some. rewrite length_app. cbn. lia. }
  rewrite <- (Hall (length ch)) by lia. by rewrite firstn_all.
Qed.

(** ** Reserving, assigning, cancelling *)

(** A slot for one more record. *)
Definition slot_for (ar : arena) (lp : LoadedPages) (slot : Z * Z) (ch : list Z) (L : list LoadedPage) : Prop :=
  (∀ page, ∃ ar', write_slot ar slot page = Ret ar' ∧ rep ar' lp ch (L ++ [page])) ∧
  (∃ ar' lp', cancel_reservation ar lp = Ret (ar', lp') ∧ rep ar' lp' ch L).

Lemma used_snoc next n pages page : length pages = 64%nat → 0 ≤ n < 64 →
  used_pages (mkChunk next (n + 1) (<[Z.to_nat n := page]> pages)) = used_pages (mkChunk next n pages) ++ [page].
Proof.
  intros Hl Hn. unfold used_pages. cbn [c_used c_pages]. rewrite Z.add_1_r, Z2Nat.inj_succ by lia.
  rewrite (take_S_r _ _ page) by (apply list_lookup_insert_eq; lia). by rewrite take_insert_ge by lia.
Qed.

Lemma take_slot_spec ar lp ch t L c : rep ar lp (ch ++ [t]) L → pool ar !! Z.to_nat t = Some c → c_used c < 64 →
  ∃ slot ar' lp', take_slot ar lp = Ret (inl slot, ar', lp') ∧ slot_for ar' lp' slot (ch ++ [t]) L.
Proof.
  intros R Hc Hroom.
  destruct (rep_chunk _ _ _ _ (length ch) t R) as (Ht & c' & Hidx & Hc' & Hl & Hn & Hu & _); [by apply list_lookup_middle|].
  rewrite Hc in Hc'. injection Hc' as <-. rewrite lookup_ge_None_2 in Hn by (rewrite length_app; cbn; lia).
  pose proof (rp_tail _ _ _ _ R) as Htail. rewrite last_snoc in Htail.
  destruct (rep_length _ _ _ _ _ _ R Hc) as [_ HL].
  unfold take_slot. rewrite Htail. cbn [deref mbind outcome_bind]. rewrite Hidx. cbn [mbind outcome_bind].
  destruct (index_in_range (c_pages c) (c_used c)) as (pg0 & _ & ->); [lia|]. cbn [mbind outcome_bind]. rewrite Hn.
  set (lp' := mkLoaded _ _ _).
  destruct (rep_tail ar lp ch t L (mkChunk None (c_used c + 1) (c_pages c)) lp') as (ar' & -> & R' & Hp' & _);
    [done|done|done|cbn; lia|done|done|]. cbn [mbind outcome_bind].
  eexists _, ar', lp'. split; [done|].
  assert (pool ar' !! Z.to_nat t = Some (mkChunk None (c_used c + 1) (c_pages c))) as Hct.
  { rewrite Hp'. apply list_lookup_insert_eq. rewrite (rp_pool _ _ _ _ R). lia. }
  assert (used_of ar' <$> ch = used_of ar <$> ch) as Hsame.
  { pose proof (rp_range _ _ _ _ R) as Hr. apply Forall_app in Hr as [Hr _].
    pose proof (rp_nodup _ _ _ _ R) as Hd. apply NoDup_app in Hd as (_ & Hd & _).
    eapply used_of_others; [done|lia|rewrite (rp_pool _ _ _ _ R); lia|done|]. intros Hx. apply (Hd t Hx), list_elem_of_here. }
  split.
  - intros page. unfold write_slot. cbn [fst snd]. rewrite (index_ret _ _ _ Hct). cbn [mbind outcome_bind c_pages c_next c_used].
    rewrite store_in_range by lia. cbn [mbind outcome_bind].
    destruct (rep_tail ar' lp' ch t _ (mkChunk None (c_used c + 1) (<[Z.to_nat (c_used c) := page]> (c_pages c))) lp' R')
      as (ar2 & -> & R2 & _); [done|cbn; by rewrite length_insert|cbn; lia|done|done|].
    exists ar2. split; [done|]. rewrite HL, <- app_assoc, <- Hsame. rewrite used_snoc in R2 by lia.
    destruct c as [cn cu cp]. cbn in Hn |- *. rewrite Hn. exact R2.
  - unfold cancel_reservation. cbn [lp_tail lp']. rewrite (index_ret _ _ _ Hct). cbn [mbind outcome_bind c_used].
    rewrite (proj2 (Z.ltb_lt 0 _)) by lia. cbn [c_next c_pages]. rewrite Z.add_simpl_r.
    destruct (rep_tail ar' lp' ch t _ (mkChunk None (c_used c) (c_pages c)) (mkLoaded (lp_head lp') (Some t) (lp_len lp' - 1)) R')
      as (ar2 & -> & R2 & _); [done|done|cbn; lia|done|done|].
    eexists ar2, _. split; [done|]. rewrite HL, <- Hsame. destruct c as [cn cu cp]. cbn in Hn |- *. rewrite Hn. exact R2.
Qed.

(** ** A further chunk *)

(** Linking [idx] behind the chain [ch]. *)
Lemma rep_extend ar lp ch L idx ar' lp' : rep ar lp ch L → 0 ≤ idx < 64 → idx ∉ ch →
  length (pool ar') = 64%nat → Forall (λ c, length (c_pages c) = 64%nat) (pool ar') →
  (∀ k i c, ch !! k = Some i → pool ar !! Z.to_nat i = Some c →
     c_used c = 64 ∧ pool ar' !! Z.to_nat i = Some (mkChunk (if decide (S k = length ch) then Some idx else c_next c) (c_used c) (c_pages c))) →
  (∃ pages, pool ar' !! Z.to_nat idx = Some (mkChunk None 0 pages)) →
  free_mask ar' = and_not (free_mask ar) (bit idx) → lp_head lp' = list.head (ch ++ [idx]) → lp_tail lp' = Some idx →
  rep ar' lp' (ch ++ [idx]) L.
Proof.
  intros R Hidx Hnew Hlen Hpages Hold (pages & Hfresh) Hmask Hh Ht.
  assert (used_of ar' <$> ch = used_of ar <$> ch) as Hsame.
  { apply list_fmap_ext. intros k i Hk. destruct (rep_chunk _ _ _ _ _ _ R Hk) as (_ & c & _ & Hc & _).
    destruct (Hold k i c Hk Hc) as [_ Hc']. by rewrite (used_of_chunk _ _ _ Hc), (used_of_chunk _ _ _ Hc'). }
  split; try done.
  - apply NoDup_app. split; [apply R|]. split; [|apply NoDup_singleton]. by intros i Hi ->%list_elem_of_singleton.
  - apply Forall_app. split; [apply R|]. by apply Forall_singleton.
  - by rewrite last_snoc.
  - intros k i Hk. apply lookup_snoc_Some in Hk as [[Hlt Hk]|[-> <-]].
    + destruct (rep_chunk _ _ _ _ _ _ R Hk) as (_ & c & _ & Hc & _ & Hn & Hu & _). destruct (Hold k i c Hk Hc) as [Hfull Hc'].
      eexists. split; [exact Hc'|]. cbn [c_next c_used]. split; [|by auto].
      case_decide as E; [by rewrite E, list_lookup_middle|]. rewrite Hn, lookup_app_l by lia. done.
    + eexists. split; [exact Hfresh|]. cbn [c_next c_used].
      rewrite lookup_ge_None_2 by (rewrite length_app; cbn; lia). split; [done|]. split; [lia|]. by intros [].
  - rewrite fmap_app, Hsame. cbn [fmap list_fmap]. rewrite mjoin_snoc, (used_of_chunk _ _ _ Hfresh).
    cbn. rewrite app_nil_r. apply R.
  - rewrite Hmask. pose proof (rp_mask _ _ _ _ R) as Hm. apply bits_bound; [lia|unfold and_not; apply Z.ldiff_nonneg; lia|].
    intros n Hn. rewrite and_not_bit_spec by lia. rewrite (testbit_high 64) by (done || lia). by rewrite andb_false_r.
  - intros i Hi. rewrite Hmask, and_not_bit_spec, (rp_free _ _ _ _ R) by lia.
    destruct (Z.eqb_spec idx i) as [->|Hne].
    + rewrite (bool_decide_eq_true_2 (i ∈ ch ++ [i])) by (apply elem_of_app; right; apply list_elem_of_here). done.
    + cbn [negb andb]. f_equal. apply bool_decide_ext. rewrite elem_of_app, list_elem_of_singleton. naive_solver.
Qed.

(** Whether the load needs another chunk. *)
Definition chain_full (ar : arena) (ch : list Z) : Prop :=
  ∀ k i c, ch !! k = Some i → pool ar !! Z.to_nat i = Some c → c_used c = 64.

Lemma set_chunk_ret ar i c : length (pool ar) = 64%nat → 0 ≤ i < 64 →
  set_chunk ar i c = Ret (mkArena (<[Z.to_nat i := c]> (pool ar)) (free_mask ar)).
Proof. intros Hl Hi. unfold set_chunk. by rewrite store_in_range by lia. Qed.

Lemma new_chunk_spec ar lp ch L : rep ar lp ch L → chain_full ar ch → free_mask ar ≠ 0 →
  ∃ ar' lp' idx c, new_chunk ar lp = Ret (Some (ar', lp')) ∧ rep ar' lp' (ch ++ [idx]) L ∧
    pool ar' !! Z.to_nat idx = Some c ∧ c_used c = 0.
Proof.
  intros R Hfull Hm. destruct (first_free _ (rp_mask _ _ _ _ R) Hm) as [Hi Hbit].
  set (idx := trailing_zeros _ _ _) in *. rewrite (rp_free _ _ _ _ R) in Hbit by done.
  assert (idx ∉ ch) as Hnew by (intros Hx; rewrite bool_decide_eq_true_2 in Hbit; done).
  pose proof (rp_pool _ _ _ _ R) as Hl. pose proof (rp_pages _ _ _ _ R) as Hp.
  destruct (index_in_range (pool ar) idx) as (c0 & Hc0 & E0); [lia|].
  pose proof Hp as Hp'. rewrite Forall_lookup in Hp'. pose proof (Hp' _ _ Hc0) as Hl0. cbn in Hl0.
  unfold new_chunk. rewrite (proj2 (Z.eqb_neq _ _) Hm). fold idx. cbn [pool]. rewrite E0. cbn [mbind outcome_bind].
  rewrite set_chunk_ret; [|exact Hl|exact Hi]. cbn [mbind outcome_bind pool free_mask].
  rewrite (rp_tail _ _ _ _ R).
  assert (∀ k i, ch !! k = Some i → 0 ≤ i < 64 ∧ Z.to_nat i ≠ Z.to_nat idx) as Hother.
  { intros k i Hk. destruct (rep_chunk _ _ _ _ _ _ R Hk) as [Hr _]. split; [done|]. intros E. apply Z2Nat.inj in E; [|lia|lia].
    subst i. by apply Hnew, (list_elem_of_lookup_2 _ k). }
  destruct ch as [|t ch _] using rev_ind.
  - cbn [list.last]. eexists _, _, idx, _. split; [done|]. split; [|split; [by apply list_lookup_insert_eq; lia|done]].
    eapply rep_extend; try done; cbn [pool free_mask].
    + by rewrite length_insert.
    + by apply Forall_insert.
    + eexists. apply list_lookup_insert_eq. lia.
  - rewrite last_snoc. assert ((ch ++ [t]) !! length ch = Some t) as Hk by (by apply list_lookup_middle).
    destruct (Hother _ _ Hk) as [Ht Hne]. destruct (rep_chunk _ _ _ _ _ _ R Hk) as (_ & c & _ & Hc & Hcl & _).
    rewrite (index_ret _ _ c) by (by rewrite list_lookup_insert_ne). cbn [mbind outcome_bind].
    rewrite set_chunk_ret by (cbn [pool]; rewrite ?length_insert; lia). cbn [mbind outcome_bind pool free_mask].
    eexists _, _, idx, _. split; [done|]. split; [|split].
    2: { cbn [pool]. rewrite list_lookup_insert_ne by done. apply list_lookup_insert_eq. lia. }
    2: done.
    eapply rep_extend; try done; cbn [pool free_mask].
    + by rewrite !length_insert.
    + by repeat apply Forall_insert.
    + intros k i c' Hk' Hc'. split; [by apply (Hfull k i)|]. destruct (Hother _ _ Hk') as [Hi' Hne'].
      rewrite length_app. cbn [length]. destruct (decide (S k = (length ch + 1)%nat)) as [E|E].
      * assert (k = length ch) as -> by lia. rewrite Hk in Hk'. injection Hk' as <-. rewrite Hc in Hc'. injection Hc' as <-.
        apply list_lookup_insert_eq. rewrite length_insert. lia.
      * rewrite !list_lookup_insert_ne; [by destruct c'|done|]. intros E'. apply Z2Nat.inj in E'; [|lia|lia]. subst i.
        apply E. rewrite (NoDup_lookup _ k (length ch) t (rp_nodup _ _ _ _ R) Hk' Hk). lia.
    + eexists. rewrite list_lookup_insert_ne by done. apply list_lookup_insert_eq. lia.
    + cbn [lp_head]. rewrite (rp_head _ _ _ _ R). by destruct ch.
Qed.

Lemma mask_zero ar lp ch L : rep ar lp ch L → free_mask ar = 0 → length ch = 64%nat.
Proof.
  intros R Hm. apply Nat.le_antisymm; [by eapply chain_length|]. change 64%nat with (length (seqZ 0 64)).
  apply submseteq_length, NoDup_submseteq; [apply NoDup_seqZ|]. intros i Hi%elem_of_seqZ.
  pose proof (rp_free _ _ _ _ R i ltac:(lia)) as Hb. rewrite Hm, Z.testbit_0_l in Hb.
  destruct (bool_decide (i ∈ ch)) eqn:E; [by apply bool_decide_eq_true in E|done].
Qed.

(** Reserving: a slot behind the records so far, until all 4096 are taken. *)
Lemma reserve_spec ar lp ch L : rep ar lp ch L →
  ∃ r ar' lp', reserve ar lp = Ret (r, ar', lp') ∧
    match r with
    | inl slot => ∃ ch', slot_for ar' lp' slot ch' L
    | inr e => e = MetadataOom ∧ Z.of_nat (length L) = 4096 ∧ ar' = ar ∧ lp' = lp
    end.
Proof.
  intros R. unfold reserve. rewrite (rp_tail _ _ _ _ R).
  destruct ch as [|t ch _] using rev_ind.
  - cbn [list.last mbind outcome_bind]. destruct (decide (free_mask ar = 0)) as [Hm|Hm].
    { by pose proof (mask_zero _ _ _ _ R Hm). }
    destruct (new_chunk_spec _ _ _ _ R) as (ar1 & lp1 & idx & c & -> & R1 & Hc & Hu); [by intros k i c|done|].
    cbn [mbind outcome_bind]. destruct (take_slot_spec _ _ _ _ _ _ R1 Hc ltac:(lia)) as (slot & ar2 & lp2 & -> & S2).
    exists (inl slot), ar2, lp2. split; [done|]. by eexists.
  - rewrite last_snoc. destruct (rep_chunk _ _ _ _ (length ch) t R) as (_ & c & -> & Hc & _ & _ & Hu & _); [by apply list_lookup_middle|].
    cbn [mbind outcome_bind]. unfold PROVENANCE_CHUNK_CAP. destruct (Z.eqb_spec (c_used c) 64) as [Hf|Hf].
    2: { cbn [mbind outcome_bind]. destruct (take_slot_spec _ _ _ _ _ _ R Hc ltac:(lia)) as (slot & ar2 & lp2 & -> & S2).
         exists (inl slot), ar2, lp2. split; [done|]. by eexists. }
    destruct (rep_length _ _ _ _ _ _ R Hc) as [HL _].
    destruct (decide (free_mask ar = 0)) as [Hm|Hm].
    { unfold new_chunk. rewrite Hm. cbn [Z.eqb mbind outcome_bind]. eexists _, ar, lp. split; [done|].
      pose proof (mask_zero _ _ _ _ R Hm) as E. rewrite length_app in E. cbn in E. split; [done|]. split; [lia|done]. }
    destruct (new_chunk_spec _ _ _ _ R) as (ar1 & lp1 & idx & c1 & -> & R1 & Hc1 & Hu1); [|done|].
    { intros k i c' Hk Hc'. apply lookup_snoc_Some in Hk as [[Hlt Hk]|[_ <-]]; [|congruence].
      destruct (rep_chunk _ _ _ _ k i R) as (_ & c2 & _ & Hc2 & _ & _ & _ & Hfull); [by apply lookup_app_l_Some|].
      rewrite Hc' in Hc2. injection Hc2 as <-. apply Hfull. apply lookup_lt_is_Some. rewrite length_app. cbn. lia. }
    cbn [mbind outcome_bind]. destruct (take_slot_spec _ _ _ _ _ _ R1 Hc1 ltac:(lia)) as (slot & ar2 & lp2 & -> & S2).
    exists (inl slot), ar2, lp2. split; [done|]. by eexists.
Qed.

(** ** Releasing *)

Lemma release_from_spec fuel : ∀ ar chunk ch, length (pool ar) = 64%nat →
  Forall (λ c, length (c_pages c) = 64%nat) (pool ar) → 0 ≤ free_mask ar < 2 ^ 64 →
  NoDup ch → Forall (λ i, 0 ≤ i < 64) ch → chunk = list.head ch → (length ch < fuel)%nat →
  (∀ k i, ch !! k = Some i → ∃ c, pool ar !! Z.to_nat i = Some c ∧ c_next c = ch !! S k) →
  ∃ ar', release_from ar chunk fuel = Ret ar' ∧ length (pool ar') = 64%nat ∧
    Forall (λ c, length (c_pages c) = 64%nat) (pool ar') ∧ 0 ≤ free_mask ar' < 2 ^ 64 ∧
    ∀ i, 0 ≤ i < 64 → Z.testbit (free_mask ar') i = Z.testbit (free_mask ar) i || bool_decide (i ∈ ch).
Proof.
  induction fuel as [|fuel IH]; intros ar chunk ch Hl Hp Hm Hd Hr Hchunk Hf Hlink; [lia|].
  destruct ch as [|i ch]; cbn in Hchunk; subst chunk; cbn [release_from].
  { exists ar. do 4 (split; [done|]). intros i _. rewrite bool_decide_eq_false_2 by apply not_elem_of_nil. by rewrite orb_false_r. }
  apply NoDup_cons in Hd as [Hi Hd]. apply Forall_cons in Hr as [Hri Hr].
  destruct (Hlink 0%nat i eq_refl) as (c & Hc & Hn). rewrite (index_ret _ _ _ Hc). cbn [mbind outcome_bind].
  rewrite set_chunk_ret by (cbn [pool]; lia). cbn [mbind outcome_bind pool free_mask].
  pose proof Hp as Hp'. rewrite Forall_lookup in Hp'. pose proof (Hp' _ _ Hc) as Hlc. cbn in Hlc.
  destruct (IH (mkArena (<[Z.to_nat i := mkChunk None 0 (c_pages c)]> (pool ar)) (Z.lor (free_mask ar) (bit i))) (c_next c) ch)
    as (ar' & -> & H1 & H2 & H3 & H4); cbn [pool free_mask]; try done.
  - by rewrite length_insert.
  - by apply Forall_insert.
  - apply bits_bound; [lia|apply Z.lor_nonneg; split; [lia|unfold bit; rewrite Z.shiftl_nonneg; lia]|].
    intros n Hn'. rewrite lor_bit_spec, (testbit_high 64); [|lia|done|lia|lia]. zcases.
  - rewrite Hn. by destruct ch.
  - cbn in Hf. lia.
  - intros k x Hk. destruct (Hlink (S k) x Hk) as (c' & Hc' & Hn'). exists c'. split; [|done].
    rewrite list_lookup_insert_ne; [done|]. rewrite Forall_lookup in Hr. specialize (Hr k x Hk). cbn in Hr.
    intros E. apply Z2Nat.inj in E; [|lia|lia]. subst x. by apply Hi, (list_elem_of_lookup_2 _ k).
  - exists ar'. split; [done|]. split; [done|]. split; [done|]. split; [done|]. intros x Hx. rewrite H4 by lia. cbn [free_mask]. rewrite lor_bit_spec by lia.
    rewrite (bool_decide_ext (x ∈ i :: ch) (x = i ∨ x ∈ ch)) by apply elem_of_cons.
    destruct (Z.eqb_spec i x) as [->|Hne]; [rewrite (bool_decide_eq_true_2 (x = x ∨ _)) by auto; by rewrite !orb_true_r|].
    cbn [orb]. f_equal. apply bool_decide_ext. naive_solver.
Qed.

(** Dropping the records gives the arena back. *)
Lemma release_metadata_spec ar lp ch L : rep ar lp ch L →
  ∃ ar', release_metadata ar lp = Ret (ar', LoadedPages_new) ∧ idle ar'.
Proof.
  intros R. unfold release_metadata. pose proof (chain_length _ _ _ _ R).
  destruct (release_from_spec CHAIN ar (lp_head lp) ch) as (ar' & -> & H1 & H2 & H3 & H4); try apply R.
  - unfold CHAIN. lia.
  - intros k i Hk. destruct (rp_link _ _ _ _ R k i Hk) as (c & ? & ? & _). by exists c.
  - cbn [mbind outcome_bind]. exists ar'. split; [done|]. split; try done; [apply NoDup_nil_2|].
    intros i Hi. rewrite H4, (rp_free _ _ _ _ R) by done. rewrite (bool_decide_eq_false_2 (i ∈ [])) by apply not_elem_of_nil.
    by destruct (bool_decide (i ∈ ch)).
Qed.
