(* ===== verification/Elf.v ===== *)
(** * The ELF loader (src/kernel_rust/src/elf.rs)

    The header checks, the validation of the program headers, and the loading of the
    segments into an address space that is not the active one.  [loader] is what a load
    works on: the paging state, the user memory per root, the arena of page records with
    the records of this load, and the failure injection of the debug build, which
    [disabled] turns off.  All error returns of the segment loop roll the load back; here
    the loop returns the error and [load_with_injection] rolls back. *)

From Stdlib Require Import ZArith Lia.
From stdpp Require Import base numbers list list_numbers option gmap.
From S2P Require Import Prelude Pmm Memory Paging Heap VfsTypes OpenFiles Names Tty Process Kernel UserMem Arena.

Local Open Scope Z_scope.

Definition ELF_MAGIC : list Z := [127; 69; 76; 70].
Definition ELFCLASS64 : Z := 2.
Definition ELFDATA2LSB : Z := 1.
Definition ET_EXEC : Z := 2.
Definition PT_LOAD : Z := 1.
Definition PF_X : Z := 1.
Definition EM_X86_64 : Z := 62.
Definition ELF_STACK_PAGES : Z := 16.
Definition ELF_STACK_TOP_PAGE : Z := 35651584.                   (* 0x2200000 *)
Definition ELF_STACK_LOW : Z := ELF_STACK_TOP_PAGE - ELF_STACK_PAGES * 4096.
Definition USER_ADDR_LIMIT : Z := 2 ^ 47.
Definition EHDR_SIZE : Z := 64.
Definition PHDR_SIZE : Z := 56.

(** The fields the loader reads. *)
Record Elf64Ehdr := mkEhdr {
  e_ident : list Z; e_type : Z; e_machine : Z; e_entry : Z; e_phoff : Z; e_phentsize : Z; e_phnum : Z
}.

Record Elf64Phdr := mkPhdr {
  p_type : Z; p_flags : Z; p_offset : Z; p_vaddr : Z; p_filesz : Z; p_memsz : Z
}.

(** A little-endian integer of [n] bytes at [off]; a read outside [data] is an error. *)
Fixpoint le_value (l : list Z) : Z := match l with [] => 0 | b :: l => b + 256 * le_value l end.

Definition rd (data : list Z) (off : Z) (n : nat) : outcome Z :=
  if (0 <=? off) && (off + Z.of_nat n <=? Z.of_nat (length data))
  then Ret (le_value (take n (drop (Z.to_nat off) data))) else Panic.

Definition ehdr_of (data : list Z) : outcome Elf64Ehdr :=
  e_type ← rd data 16 2; e_machine ← rd data 18 2; e_entry ← rd data 24 8; e_phoff ← rd data 32 8;
  e_phentsize ← rd data 54 2; e_phnum ← rd data 56 2;
  Ret (mkEhdr (take 16 data) e_type e_machine e_entry e_phoff e_phentsize e_phnum).

Definition phdr_at (data : list Z) (off : Z) : outcome Elf64Phdr :=
  p_type ← rd data off 4; p_flags ← rd data (off + 4) 4; p_offset ← rd data (off + 8) 8;
  p_vaddr ← rd data (off + 16) 8; p_filesz ← rd data (off + 32) 8; p_memsz ← rd data (off + 40) 8;
  Ret (mkPhdr p_type p_flags p_offset p_vaddr p_filesz p_memsz).

(** ** Validation *)

Definition checked_add (x y : Z) : option Z := if x + y <=? U64_MAX then Some (x + y) else None.
Definition checked_mul (x y : Z) : option Z := if x * y <=? U64_MAX then Some (x * y) else None.

(** The checks up to the program headers. *)
Definition check_header (data : list Z) : outcome (Elf64Ehdr + ElfError) :=
  if Z.of_nat (length data) <? EHDR_SIZE then Ret (inr Truncated)
  else
    ehdr ← ehdr_of data;
    if negb (bool_decide (take 4 (e_ident ehdr) = ELF_MAGIC)) then Ret (inr BadMagic)
    else
      class ← index (e_ident ehdr) 4;
      if negb (class =? ELFCLASS64) then Ret (inr BadClass)
      else
        endian ← index (e_ident ehdr) 5;
        if negb (endian =? ELFDATA2LSB) then Ret (inr BadEndian)
        else if negb (e_machine ehdr =? EM_X86_64) then Ret (inr BadMachine)
        else if negb (e_type ehdr =? ET_EXEC) then Ret (inr BadType)
        else
          match checked_mul (e_phnum ehdr) (e_phentsize ehdr) with
          | None => Ret (inr Truncated)
          | Some ph_table_size =>
              if e_phentsize ehdr <? PHDR_SIZE then Ret (inr Truncated)
              else
                match checked_add (e_phoff ehdr) ph_table_size with
                | Some stop => if stop >? Z.of_nat (length data) then Ret (inr Truncated) else Ret (inl ehdr)
                | None => Ret (inr Truncated)
                end
          end.

(** The offset of program header [i]. *)
Definition phdr_offset (ehdr : Elf64Ehdr) (i : Z) : option Z :=
  x ← checked_mul i (e_phentsize ehdr); checked_add (e_phoff ehdr) x.

(** One program header: whether it is an executable segment with the entry point. *)
Definition check_phdr (size entry : Z) (ph : Elf64Phdr) : bool + ElfError :=
  if negb (p_type ph =? PT_LOAD) then inl false
  else if p_filesz ph >? p_memsz ph then inr Truncated
  else
    match checked_add (p_vaddr ph) (p_memsz ph) with
    | None => inr InvalidAddress
    | Some stop =>
        if p_memsz ph =? 0 then inl false
        else if (p_vaddr ph <? PAGING_USER_CODE_ADDR) || (stop >? USER_ADDR_LIMIT) then inr InvalidAddress
        else
          let page_start := and_not (p_vaddr ph) 4095 in
          match checked_add stop 4095 with
          | None => inr InvalidAddress
          | Some x =>
              let page_end := and_not x 4095 in
              if (page_start <? PAGING_USER_CODE_ADDR) || (page_end >? USER_ADDR_LIMIT) then inr InvalidAddress
              else if overlaps_kernel_scratch page_start page_end then inr InvalidAddress
              else if (page_start <? ELF_STACK_TOP_PAGE + 4096) && (page_end >? ELF_STACK_LOW) then inr FixedStackOverlap
              else
                match checked_add (p_offset ph) (p_filesz ph) with
                | None => inr Truncated
                | Some file_end =>
                    if file_end >? size then inr Truncated
                    else inl (negb (Z.land (p_flags ph) PF_X =? 0) && (p_vaddr ph <=? entry) && (entry <? stop))
                end
          end
    end.

(** [for i in i..i+n]; [acc] is [entry_executable]. *)
Fixpoint check_phdrs (data : list Z) (ehdr : Elf64Ehdr) (i : Z) (acc : bool) (n : nat) : outcome (bool + ElfError) :=
  match n with
  | O => Ret (inl acc)
  | S n =>
      match phdr_offset ehdr i with
      | None => Ret (inr Truncated)
      | Some off =>
          ph ← phdr_at data off;
          match check_phdr (Z.of_nat (length data)) (e_entry ehdr) ph with
          | inr e => Ret (inr e)
          | inl b => check_phdrs data ehdr (i + 1) (acc || b) n
          end
      end
  end.

(** Everything that is checked before a page is allocated. *)
Definition validate (data : list Z) : outcome (Elf64Ehdr + ElfError) :=
  r ← check_header data;
  match r with
  | inr e => Ret (inr e)
  | inl ehdr =>
      r ← check_phdrs data ehdr 0 false (Z.to_nat (e_phnum ehdr));
      match r with
      | inr e => Ret (inr e)
      | inl ok => if ok : bool then Ret (inl ehdr) else Ret (inr InvalidEntry)
      end
  end.

(** ** Failure injection *)

(** Beside the failures to inject, the first four pages mapped and how many there were. *)
Record LoadFailureInjection := mkInj {
  pmm_fail_after : option Z; metadata_fail_after : option Z; pmm_attempts : Z; metadata_attempts : Z;
  mapped_paddrs : list Z; mapped_vaddrs : list Z; mapped_count : Z
}.
Definition disabled : LoadFailureInjection := mkInj None None 0 0 (replicate 4 0) (replicate 4 0) 0.

Definition should_fail_pmm (j : LoadFailureInjection) : bool * LoadFailureInjection :=
  (bool_decide (pmm_fail_after j = Some (pmm_attempts j)),
   mkInj (pmm_fail_after j) (metadata_fail_after j) (pmm_attempts j + 1) (metadata_attempts j)
     (mapped_paddrs j) (mapped_vaddrs j) (mapped_count j)).

Definition should_fail_metadata (j : LoadFailureInjection) : bool * LoadFailureInjection :=
  (bool_decide (metadata_fail_after j = Some (metadata_attempts j)),
   mkInj (pmm_fail_after j) (metadata_fail_after j) (pmm_attempts j) (metadata_attempts j + 1)
     (mapped_paddrs j) (mapped_vaddrs j) (mapped_count j)).

Definition record_mapping (vaddr paddr : Z) (j : LoadFailureInjection) : LoadFailureInjection :=
  let room := mapped_count j <? Z.of_nat (length (mapped_paddrs j)) in
  let at_count (x : Z) (l : list Z) := if room then <[Z.to_nat (mapped_count j) := x]> l else l in
  mkInj (pmm_fail_after j) (metadata_fail_after j) (pmm_attempts j) (metadata_attempts j)
    (at_count paddr (mapped_paddrs j)) (at_count vaddr (mapped_vaddrs j)) (mapped_count j + 1).

(** ** Loading *)

Record loader := mkLoader {
  l_pg : pg; l_um : gmap Z mem; l_ar : arena; l_lp : LoadedPages; l_inj : LoadFailureInjection
}.

Definition put_lpg (p : pg) (s : loader) : loader := mkLoader p (l_um s) (l_ar s) (l_lp s) (l_inj s).
Definition put_um (u : gmap Z mem) (s : loader) : loader := mkLoader (l_pg s) u (l_ar s) (l_lp s) (l_inj s).
Definition put_rec (ar : arena) (lp : LoadedPages) (s : loader) : loader := mkLoader (l_pg s) (l_um s) ar lp (l_inj s).
Definition put_inj (j : LoadFailureInjection) (s : loader) : loader := mkLoader (l_pg s) (l_um s) (l_ar s) (l_lp s) j.

(** Run [f] with [cr3] switched to [target], as the code does around every access to the
    memory of the new address space. *)
Definition in_target {A} (f : loader → outcome (A * loader)) (s : loader) (target : Z) : outcome (A * loader) :=
  let saved := read_cr3 (l_pg s) in
  if saved =? target then f s
  else
    '(r, s) ← f (put_lpg (set_cr3 target (l_pg s)) s);
    Ret (r, put_lpg (set_cr3 saved (l_pg s)) s).

(** An access to [vaddr]: it faults unless the address is canonical and mapped. *)
Definition canonical (vaddr : Z) : bool := (vaddr <? 2 ^ 47) || (2 ^ 64 - 2 ^ 47 <=? vaddr).
Definition access (s : loader) (vaddr : Z) : outcome () :=
  if canonical vaddr then _ ← deref (translate (l_pg s) vaddr); Ret () else Panic.

Fixpoint access_pages (s : loader) (page : Z) (n : nat) : outcome () :=
  match n with O => Ret () | S n => _ ← access s page; access_pages s (page + 4096) n end.

Definition l_space (s : loader) : mem := default ∅ (l_um s !! read_cr3 (l_pg s)).
Definition put_space (m : mem) (s : loader) : loader := put_um (<[read_cr3 (l_pg s) := m]> (l_um s)) s.

(** [write_bytes(vaddr, 0, 4096)] through the mapping. *)
Definition zero_user_page (vaddr : Z) (s : loader) : outcome (() * loader) :=
  _ ← access s vaddr; Ret ((), put_space (zero_words (l_space s) vaddr 512) s).

(** [copy_nonoverlapping] of [l] to [vaddr] through the mapping. *)
Definition copy_user (vaddr : Z) (l : list Z) (s : loader) : outcome (() * loader) :=
  let first := and_not vaddr 4095 in
  _ ← access_pages s first (Z.to_nat ((vaddr + Z.of_nat (length l) + 4095) / 4096 - first / 4096));
  Ret ((), put_space (st_bytes (l_space s) vaddr l) s).

Section pmm.
Context (a : PmmAllocator).

Definition page_flags : Z := Z.lor (Z.lor PAGE_PRESENT PAGE_USER) PAGE_WRITABLE.

(** Allocating, mapping, recording and clearing a new page. *)
Definition place_page (s : loader) (target vaddr_page : Z) (slot : Z * Z) : outcome (option ElfError * loader) :=
  let '(fail, j) := should_fail_pmm (l_inj s) in
  let s := put_inj j s in
  '(paddr, p) ← (if fail : bool then Ret (0, l_pg s) else pmm_alloc a (l_pg s));
  let s := put_lpg p s in
  if paddr =? 0 then
    '(ar, lp) ← cancel_reservation (l_ar s) (l_lp s);
    Ret (Some Oom, put_rec ar lp s)
  else
    '(ok, p) ← try_map_4k_target a (l_pg s) vaddr_page paddr page_flags target;
    let s := put_lpg p s in
    if negb ok then
      p ← pmm_free a (l_pg s) paddr;
      '(ar, lp) ← cancel_reservation (l_ar s) (l_lp s);
      Ret (Some Oom, put_rec ar lp (put_lpg p s))
    else
      ar ← write_slot (l_ar s) slot (mkPage vaddr_page paddr);
      let s := put_inj (record_mapping vaddr_page paddr (l_inj s)) (put_rec ar (l_lp s) s) in
      '(_, s) ← in_target (zero_user_page vaddr_page) s target;
      Ret (None, s).

(** One page of a segment, already recorded or new. *)
Definition load_page (s : loader) (target vaddr_page : Z) : outcome (option ElfError * loader) :=
  tracked ← lp_find (l_ar s) (l_lp s) vaddr_page;
  match tracked with
  | Some _ => Ret (None, s)
  | None =>
      match translate_in_pml4 (l_pg s) vaddr_page target with
      | Some _ => Ret (Some MappingCollision, s)
      | None =>
          let '(fail, j) := should_fail_metadata (l_inj s) in
          let s := put_inj j s in
          '(slot, ar, lp) ← (if fail : bool then Ret (inr MetadataOom, l_ar s, l_lp s) else reserve (l_ar s) (l_lp s));
          let s := put_rec ar lp s in
          match slot with
          | inr e => Ret (Some e, s)
          | inl slot => place_page s target vaddr_page slot
          end
      end
  end.

(** [while vaddr_page < page_end], which makes [n] rounds. *)
Fixpoint load_pages (s : loader) (target vaddr_page : Z) (n : nat) : outcome (option ElfError * loader) :=
  match n with
  | O => Ret (None, s)
  | S n =>
      '(r, s) ← load_page s target vaddr_page;
      match r with
      | Some e => Ret (Some e, s)
      | None =>
          match checked_add vaddr_page 4096 with
          | None => Ret (Some Truncated, s)
          | Some next => load_pages s target next n
          end
      end
  end.

Definition load_segment (data : list Z) (s : loader) (target : Z) (ph : Elf64Phdr) : outcome (option ElfError * loader) :=
  match checked_add (p_vaddr ph) (p_memsz ph) with
  | None => Ret (Some Truncated, s)
  | Some seg_end =>
      match checked_add seg_end 4095 with
      | None => Ret (Some Truncated, s)
      | Some x =>
          let page_start := and_not (p_vaddr ph) 4095 in
          let page_end := and_not x 4095 in
          '(r, s) ← load_pages s target page_start (Z.to_nat ((page_end - page_start) / 4096));
          match r with
          | Some e => Ret (Some e, s)
          | None =>
              if p_filesz ph >? 0 then
                match checked_add (p_offset ph) (p_filesz ph) with
                | None => Ret (Some Truncated, s)
                | Some src_end =>
                    if src_end >? Z.of_nat (length data) then Ret (Some Truncated, s)
                    else
                      let src := take (Z.to_nat (p_filesz ph)) (drop (Z.to_nat (p_offset ph)) data) in
                      let copy_len := Z.min (p_filesz ph) (p_memsz ph) in
                      '(_, s) ← in_target (copy_user (p_vaddr ph) (take (Z.to_nat copy_len) src)) s target;
                      Ret (None, s)
                end
              else Ret (None, s)
          end
      end
  end.

(** [for i in i..i+n] over the program headers. *)
Fixpoint load_segments (data : list Z) (ehdr : Elf64Ehdr) (s : loader) (target i : Z) (n : nat)
    : outcome (option ElfError * loader) :=
  match n with
  | O => Ret (None, s)
  | S n =>
      match phdr_offset ehdr i with
      | None => Ret (Some Truncated, s)
      | Some off =>
          match checked_add off PHDR_SIZE with
          | None => Ret (Some Truncated, s)
          | Some stop =>
              if stop >? Z.of_nat (length data) then Ret (Some Truncated, s)
              else
                ph ← phdr_at data off;
                if negb (p_type ph =? PT_LOAD) then load_segments data ehdr s target (i + 1) n
                else
                  '(r, s) ← load_segment data s target ph;
                  match r with
                  | Some e => Ret (Some e, s)
                  | None => load_segments data ehdr s target (i + 1) n
                  end
          end
      end
  end.

(** ** Rolling back *)

Fixpoint unload_pages (p : pg) (l : list LoadedPage) : outcome pg :=
  match l with
  | [] => Ret p
  | page :: l =>
      '(e, p) ← unmap_and_free_empty a p (lp_vaddr page);
      p ← (match e with Some entry => pmm_free a p (entry_addr entry) | None => Ret p end);
      unload_pages p l
  end.

Fixpoint unload_from (ar : arena) (chunk : option Z) (p : pg) (fuel : nat) : outcome pg :=
  match chunk, fuel with
  | None, _ => Ret p
  | Some _, O => Hang
  | Some i, S fuel =>
      c ← index (pool ar) i;
      p ← unload_pages p (used_pages c);
      unload_from ar (c_next c) p fuel
  end.

Definition rollback (s : loader) (target : Z) : outcome loader :=
  '(_, s) ← in_target (λ s, p ← unload_from (l_ar s) (lp_head (l_lp s)) (l_pg s) CHAIN; Ret ((), put_lpg p s)) s target;
  Ret s.

Definition rollback_error (e : ElfError) (s : loader) (target : Z) : outcome ((Z + ElfError) * loader) :=
  s ← rollback s target; Ret (inr e, s).

(** The entry point or the error, with what was injected; the records are dropped on every path. *)
Definition load_traced (data : list Z) (p : pg) (um : gmap Z mem) (ar : arena) (target : Z)
    (inj : LoadFailureInjection) : outcome ((Z + ElfError) * pg * gmap Z mem * arena * LoadFailureInjection) :=
  v ← validate data;
  match v with
  | inr e => Ret (inr e, p, um, ar, inj)
  | inl ehdr =>
      '(r, s) ← load_segments data ehdr (mkLoader p um ar LoadedPages_new inj) target 0 (Z.to_nat (e_phnum ehdr));
      '(r, s) ← (match r with
                 | Some e => rollback_error e s target
                 | None => Ret (inl (e_entry ehdr), s)
                 end);
      '(ar, _) ← release_metadata (l_ar s) (l_lp s);
      Ret (r, l_pg s, l_um s, ar, l_inj s)
  end.

(** For the callers that do not look at it. *)
Definition load_with_injection (data : list Z) (p : pg) (um : gmap Z mem) (ar : arena) (target : Z)
    (inj : LoadFailureInjection) : outcome ((Z + ElfError) * pg * gmap Z mem * arena) :=
  '(r, p, um, ar, _) ← load_traced data p um ar target inj; Ret (r, p, um, ar).

Definition load (data : list Z) (p : pg) (um : gmap Z mem) (ar : arena) (target : Z)
    : outcome ((Z + ElfError) * pg * gmap Z mem * arena) :=
  load_with_injection data p um ar target disabled.

End pmm.
