(* ===== verification/ElfCheck.v ===== *)
(** * What the checks of an ELF file promise

    The validation before a load terminates on every file without reading outside it, and
    accepts exactly the files whose headers are in order, whose segments lie in user memory
    away from the kernel's scratch page and the fixed stack, and whose entry point is in an
    executable segment. *)

From Stdlib Require Import ZArith Lia.
From stdpp Require Import base numbers list list_numbers option gmap.
From S2P Require Import Prelude Pmm Memory Paging UserMem Arena Elf.

Local Open Scope Z_scope.

Definition ret_opt {A} (o : outcome A) : option A := match o with Ret x => Some x | _ => None end.

Definition phdr_pos (ehdr : Elf64Ehdr) (i : Z) : Z := e_phoff ehdr + i * e_phentsize ehdr.

(** The program headers from [i] on, and the loadable segments. *)
Definition phdrs (data : list Z) (ehdr : Elf64Ehdr) (i n : Z) : list Elf64Phdr :=
  omap (λ j, ret_opt (phdr_at data (phdr_pos ehdr j))) (seqZ i n).
Definition is_load (ph : Elf64Phdr) : Prop := p_type ph = PT_LOAD.
#[global] Instance is_load_dec ph : Decision (is_load ph) := decide (p_type ph = PT_LOAD).
Definition segments (data : list Z) (ehdr : Elf64Ehdr) : list Elf64Phdr := filter is_load (phdrs data ehdr 0 (e_phnum ehdr)).

Record good_header (data : list Z) (ehdr : Elf64Ehdr) : Prop := {
  gh_size : EHDR_SIZE ≤ Z.of_nat (length data);
  gh_fields : ehdr_of data = Ret ehdr;
  gh_magic : take 4 data = ELF_MAGIC;
  gh_class : data !! 4%nat = Some ELFCLASS64;
  gh_endian : data !! 5%nat = Some ELFDATA2LSB;
  gh_machine : e_machine ehdr = EM_X86_64;
  gh_type : e_type ehdr = ET_EXEC;
  gh_entsize : PHDR_SIZE ≤ e_phentsize ehdr;
  gh_table : e_phoff ehdr + e_phnum ehdr * e_phentsize ehdr ≤ Z.of_nat (length data)
}.

(** [lo, hi) and [lo', hi') do not meet. *)
Definition apart (lo hi lo' hi' : Z) : Prop := hi ≤ lo' ∨ hi' ≤ lo.

(** A segment with no bytes in memory is only checked for overflow. *)
Record good_segment (size : Z) (ph : Elf64Phdr) : Prop := {
  gs_sizes : p_filesz ph ≤ p_memsz ph;
  gs_end : p_vaddr ph + p_memsz ph ≤ U64_MAX;
  gs_user : p_memsz ph ≠ 0 → PAGING_USER_CODE_ADDR ≤ p_vaddr ph ∧ p_vaddr ph + p_memsz ph ≤ USER_ADDR_LIMIT;
  gs_scratch : p_memsz ph ≠ 0 →
    apart (p_vaddr ph) (p_vaddr ph + p_memsz ph) KERNEL_SCRATCH_VA (KERNEL_SCRATCH_VA + 4096);
  gs_stack : p_memsz ph ≠ 0 →
    apart (p_vaddr ph) (p_vaddr ph + p_memsz ph) ELF_STACK_LOW (ELF_STACK_TOP_PAGE + 4096);
  gs_file : p_memsz ph ≠ 0 → p_offset ph + p_filesz ph ≤ size
}.

(** The segment is executable and contains the entry point. *)
Definition has_entry (entry : Z) (ph : Elf64Phdr) : Prop :=
  Z.land (p_flags ph) PF_X ≠ 0 ∧ p_vaddr ph ≤ entry < p_vaddr ph + p_memsz ph.

Record good_elf (data : list Z) (ehdr : Elf64Ehdr) : Prop := {
  ge_header : good_header data ehdr;
  ge_segments : Forall (good_segment (Z.of_nat (length data))) (segments data ehdr);
  ge_entry : Exists (has_entry (e_entry ehdr)) (segments data ehdr)
}.

(** ** Reading *)

Lemma le_value_range l : Forall is_byte l → 0 ≤ le_value l < 256 ^ Z.of_nat (length l).
Proof.
  induction l as [|b l IH]; intros Hl; cbn [le_value length]; [done|]. apply Forall_cons in Hl as [Hb Hl].
  specialize (IH Hl). rewrite Nat2Z.inj_succ, Z.pow_succ_r by lia. unfold is_byte in Hb. lia.
Qed.

Lemma rd_ret data off n : Forall is_byte data → 0 ≤ off → off + Z.of_nat n ≤ Z.of_nat (length data) →
  ∃ x, rd data off n = Ret x ∧ 0 ≤ x < 256 ^ Z.of_nat n.
Proof.
  intros Hd Ho Hn. unfold rd. rewrite (proj2 (Z.leb_le 0 off)), (proj2 (Z.leb_le _ _)) by lia. cbn [andb].
  eexists. split; [done|]. pose proof (le_value_range (take n (drop (Z.to_nat off) data)) ltac:(by apply Forall_take, Forall_drop)) as H.
  rewrite length_take, length_drop in H. by replace (n `min` (length data - Z.to_nat off))%nat with n in H by lia.
Qed.

(** The fields of the headers have the widths of their types. *)
Definition phdr_ok (ph : Elf64Phdr) : Prop :=
  0 ≤ p_offset ph < 2 ^ 64 ∧ 0 ≤ p_vaddr ph < 2 ^ 64 ∧ 0 ≤ p_filesz ph < 2 ^ 64 ∧ 0 ≤ p_memsz ph < 2 ^ 64.

Lemma phdr_at_ret data off : Forall is_byte data → 0 ≤ off → off + PHDR_SIZE ≤ Z.of_nat (length data) →
  ∃ ph, phdr_at data off = Ret ph ∧ phdr_ok ph.
Proof.
  unfold PHDR_SIZE. intros Hd Ho Hn. unfold phdr_at.
  destruct (rd_ret data off 4) as (x1 & -> & _); [done|lia|lia|]. cbn [mbind outcome_bind].
  destruct (rd_ret data (off + 4) 4) as (x2 & -> & _); [done|lia|lia|]. cbn [mbind outcome_bind].
  destruct (rd_ret data (off + 8) 8) as (x3 & -> & R3); [done|lia|lia|]. cbn [mbind outcome_bind].
  destruct (rd_ret data (off + 16) 8) as (x4 & -> & R4); [done|lia|lia|]. cbn [mbind outcome_bind].
  destruct (rd_ret data (off + 32) 8) as (x5 & -> & R5); [done|lia|lia|]. cbn [mbind outcome_bind].
  destruct (rd_ret data (off + 40) 8) as (x6 & -> & R6); [done|lia|lia|]. cbn [mbind outcome_bind].
  change (256 ^ Z.of_nat 8) with (2 ^ 64) in *.
  eexists. split; [done|]. repeat split; cbn; lia.
Qed.

Lemma ehdr_of_ret data : Forall is_byte data → EHDR_SIZE ≤ Z.of_nat (length data) →
  ∃ ehdr, ehdr_of data = Ret ehdr ∧ e_ident ehdr = take 16 data ∧ 0 ≤ e_entry ehdr < 2 ^ 64 ∧
    0 ≤ e_phoff ehdr < 2 ^ 64 ∧ 0 ≤ e_phentsize ehdr < 2 ^ 16 ∧ 0 ≤ e_phnum ehdr < 2 ^ 16.
Proof.
  unfold EHDR_SIZE. intros Hd Hn. unfold ehdr_of.
  destruct (rd_ret data 16 2) as (x1 & -> & _); [done|lia|lia|]. cbn [mbind outcome_bind].
  destruct (rd_ret data 18 2) as (x2 & -> & _); [done|lia|lia|]. cbn [mbind outcome_bind].
  destruct (rd_ret data 24 8) as (x3 & -> & R3); [done|lia|lia|]. cbn [mbind outcome_bind].
  destruct (rd_ret data 32 8) as (x4 & -> & R4); [done|lia|lia|]. cbn [mbind outcome_bind].
  destruct (rd_ret data 54 2) as (x5 & -> & R5); [done|lia|lia|]. cbn [mbind outcome_bind].
  destruct (rd_ret data 56 2) as (x6 & -> & R6); [done|lia|lia|]. cbn [mbind outcome_bind].
  change (256 ^ Z.of_nat 8) with (2 ^ 64) in *. change (256 ^ Z.of_nat 2) with (2 ^ 16) in *.
  eexists. split; [done|]. repeat split; cbn; lia.
Qed.

(** ** The checks, one by one *)

Lemma checked_add_spec x y : checked_add x y = if decide (x + y ≤ U64_MAX) then Some (x + y) else None.
Proof. unfold checked_add. case_decide; zcases. Qed.

(** Rounding to pages does not matter against page-aligned bounds. *)
Lemma round_down_lt x b : b mod 4096 = 0 → and_not x 4095 < b ↔ x < b.
Proof.
  intros Hb. rewrite and_not_page. pose proof (Z.mod_pos_bound x 4096). pose proof (Z.div_mod x 4096).
  apply Z.mod_divide in Hb as [c ->]; [|lia]. lia.
Qed.

Lemma round_up_gt x b : b mod 4096 = 0 → b < and_not (x + 4095) 4095 ↔ b < x.
Proof.
  intros Hb. rewrite and_not_page. pose proof (Z.mod_pos_bound (x + 4095) 4096). pose proof (Z.div_mod (x + 4095) 4096).
  apply Z.mod_divide in Hb as [c ->]; [|lia]. lia.
Qed.

Lemma check_phdr_spec size entry ph : phdr_ok ph → size ≤ U64_MAX →
  match check_phdr size entry ph with
  | inl b => (is_load ph → good_segment size ph) ∧ (b = true ↔ is_load ph ∧ has_entry entry ph)
  | inr _ => is_load ph ∧ ¬ good_segment size ph
  end.
Proof.
  intros (Ho & Hv & Hf & Hm) Hs. unfold check_phdr, is_load.
  destruct (Z.eqb_spec (p_type ph) PT_LOAD) as [Hl|Hl]; cbn [negb]; [|split; [done|]; naive_solver].
  rewrite Z.gtb_ltb. destruct (Z.ltb_spec (p_memsz ph) (p_filesz ph)); [split; [done|]; intros []; lia|].
  rewrite checked_add_spec. case_decide as He; [|split; [done|]; intros []; lia].
  destruct (Z.eqb_spec (p_memsz ph) 0) as [E0|E0].
  { split; [intros _; by split|]. split; [done|]. unfold has_entry. intros (_ & _ & ?). lia. }
  set (stop := p_vaddr ph + p_memsz ph) in *.
  destruct ((p_vaddr ph <? PAGING_USER_CODE_ADDR) || (stop >? USER_ADDR_LIMIT)) eqn:E1.
  { split; [done|]. intros [_ _ Hu]. specialize (Hu E0). fold stop in Hu. rewrite Z.gtb_ltb in E1. bool_arith; lia. }
  rewrite Z.gtb_ltb in E1. apply orb_false_iff in E1 as [E1a E1b]. apply Z.ltb_ge in E1a, E1b.
  assert (stop + 4095 ≤ U64_MAX) by (unfold USER_ADDR_LIMIT, U64_MAX in *; lia).
  rewrite checked_add_spec, decide_True by done.
  pose proof (round_down_lt (p_vaddr ph)) as Rd. pose proof (round_up_gt stop) as Ru.
  set (ps := and_not (p_vaddr ph) 4095) in *. set (pe := and_not (stop + 4095) 4095) in *.
  destruct ((ps <? PAGING_USER_CODE_ADDR) || (pe >? USER_ADDR_LIMIT)) eqn:E2.
  { exfalso. rewrite Z.gtb_ltb in E2. apply orb_true_iff in E2 as [E2%Z.ltb_lt|E2%Z.ltb_lt].
    - apply Rd in E2; [lia|done].
    - apply Ru in E2; [lia|done]. }
  unfold overlaps_kernel_scratch. destruct ((ps <? KERNEL_SCRATCH_VA + 4096) && (KERNEL_SCRATCH_VA <? pe)) eqn:E3.
  { split; [done|]. apply andb_true_iff in E3 as [A%Z.ltb_lt B%Z.ltb_lt]. apply Rd in A; [|done]. apply Ru in B; [|done].
    intros [_ _ _ Hsc]. destruct (Hsc E0); unfold stop in *; lia. }
  rewrite Z.gtb_ltb. destruct ((ps <? ELF_STACK_TOP_PAGE + 4096) && (ELF_STACK_LOW <? pe)) eqn:E4.
  { split; [done|]. apply andb_true_iff in E4 as [A%Z.ltb_lt B%Z.ltb_lt]. apply Rd in A; [|done]. apply Ru in B; [|done].
    intros [_ _ _ _ Hst]. destruct (Hst E0); unfold stop in *; lia. }
  assert (∀ lo hi, lo mod 4096 = 0 → hi mod 4096 = 0 → (ps <? hi) && (lo <? pe) = false → apart (p_vaddr ph) stop lo hi) as Hap.
  { intros lo hi Hlo Hhi [A%Z.ltb_ge|A%Z.ltb_ge]%andb_false_iff; [right|left].
    - destruct (Z.lt_ge_cases (p_vaddr ph) hi) as [Hx|]; [apply Rd in Hx; [lia|done]|done].
    - destruct (Z.lt_ge_cases lo stop) as [Hx|]; [apply Ru in Hx; [lia|done]|done]. }
  rewrite checked_add_spec. case_decide as Hoff; [|split; [done|]; intros [_ _ _ _ _ Hfile]; specialize (Hfile E0); lia].
  rewrite Z.gtb_ltb. destruct (Z.ltb_spec size (p_offset ph + p_filesz ph)).
  { split; [done|]. intros [_ _ _ _ _ Hfile]. specialize (Hfile E0). lia. }
  split; [intros _; by split; auto|]. unfold has_entry. fold stop. rewrite !andb_true_iff, negb_true_iff, Z.eqb_neq, Z.leb_le, Z.ltb_lt.
  naive_solver.
Qed.

Lemma check_header_spec data : Forall is_byte data → Z.of_nat (length data) ≤ U64_MAX →
  ∃ r, check_header data = Ret r ∧ ∀ ehdr, r = inl ehdr ↔ good_header data ehdr.
Proof.
  intros Hb Hl. unfold check_header.
  assert (∀ e : ElfError, (∀ ehdr, ¬ good_header data ehdr) →
    ∃ r : Elf64Ehdr + ElfError, Ret (inr e) = Ret r ∧ ∀ ehdr, r = inl ehdr ↔ good_header data ehdr) as Herr.
  { intros e Hno. eexists. split; [done|]. intros ehdr. split; [done|]. by intros ?%Hno. }
  destruct (Z.ltb_spec (Z.of_nat (length data)) EHDR_SIZE) as [Hs|Hs]; [apply Herr; intros ? []; lia|].
  destruct (ehdr_of_ret data Hb Hs) as (eh & He & Hid & Hen & Hoff & Hent & Hnum). rewrite He. cbn [mbind outcome_bind].
  rewrite Hid, take_take. cbn [Nat.min].
  assert (∀ ehdr, good_header data ehdr → ehdr = eh) as Huniq by (intros ehdr []; congruence).
  assert (∀ e : ElfError, ¬ good_header data eh → ∃ r : Elf64Ehdr + ElfError, Ret (inr e) = Ret r ∧ ∀ ehdr, r = inl ehdr ↔ good_header data ehdr) as Herr'.
  { intros e Hno. apply Herr. intros ehdr Hg. by rewrite (Huniq _ Hg) in Hg. }
  destruct (bool_decide (take 4 data = ELF_MAGIC)) eqn:E1; cbn [negb];
    [apply bool_decide_eq_true in E1|apply bool_decide_eq_false in E1; apply Herr'; by intros []].
  unfold EHDR_SIZE in Hs.
  destruct (lookup_lt_is_Some_2 data 4) as [c Hc]; [lia|]. rewrite (index_ret _ 4 c) by (rewrite lookup_take_lt; [done|cbn; lia]). cbn [mbind outcome_bind].
  destruct (Z.eqb_spec c ELFCLASS64) as [->|]; cbn [negb]; [|apply Herr'; intros []; congruence].
  destruct (lookup_lt_is_Some_2 data 5) as [d Hd]; [lia|]. rewrite (index_ret _ 5 d) by (rewrite lookup_take_lt; [done|cbn; lia]). cbn [mbind outcome_bind].
  destruct (Z.eqb_spec d ELFDATA2LSB) as [->|]; cbn [negb]; [|apply Herr'; intros []; congruence].
  destruct (Z.eqb_spec (e_machine eh) EM_X86_64) as [Hm|]; cbn [negb]; [|apply Herr'; by intros []].
  destruct (Z.eqb_spec (e_type eh) ET_EXEC) as [Ht|]; cbn [negb]; [|apply Herr'; by intros []].
  unfold checked_mul. rewrite (proj2 (Z.leb_le _ U64_MAX)) by (unfold U64_MAX; nia).
  destruct (Z.ltb_spec (e_phentsize eh) PHDR_SIZE); [apply Herr'; intros []; lia|].
  rewrite checked_add_spec. case_decide; [|apply Herr'; intros []; lia].
  rewrite Z.gtb_ltb. destruct (Z.ltb_spec (Z.of_nat (length data)) (e_phoff eh + e_phnum eh * e_phentsize eh)); [apply Herr'; intros []; lia|].
  eexists. split; [done|]. intros ehdr. split; [|intros Hg; by rewrite (Huniq _ Hg)]. intros [= <-]. by split.
Qed.

Lemma phdr_offset_spec data ehdr i : good_header data ehdr → Z.of_nat (length data) ≤ U64_MAX → 0 ≤ e_phoff ehdr → 0 ≤ i < e_phnum ehdr →
  phdr_offset ehdr i = Some (phdr_pos ehdr i) ∧ 0 ≤ phdr_pos ehdr i ∧ phdr_pos ehdr i + PHDR_SIZE ≤ Z.of_nat (length data).
Proof.
  intros [_ _ _ _ _ _ _ Hs Ht] Hl Ho Hi. unfold phdr_offset, phdr_pos, checked_mul, PHDR_SIZE in *.
  assert ((i + 1) * e_phentsize ehdr ≤ e_phnum ehdr * e_phentsize ehdr) by (apply Z.mul_le_mono_nonneg_r; lia).
  assert (0 ≤ i * e_phentsize ehdr) by nia.
  rewrite (proj2 (Z.leb_le _ U64_MAX)) by lia. cbn [mbind option_bind]. rewrite checked_add_spec, decide_True by lia.
  split; [done|]. lia.
Qed.

Lemma phdrs_cons data ehdr i n ph : 0 < n → phdr_at data (phdr_pos ehdr i) = Ret ph →
  phdrs data ehdr i n = ph :: phdrs data ehdr (i + 1) (n - 1).
Proof. intros Hn Hp. unfold phdrs. rewrite seqZ_cons by done. cbn. rewrite Hp. by replace (Z.succ i) with (i + 1) by lia. Qed.

Section loop.
Context (data : list Z) (ehdr : Elf64Ehdr) (Hb : Forall is_byte data) (Hl : Z.of_nat (length data) ≤ U64_MAX)
  (Hg : good_header data ehdr) (Ho : 0 ≤ e_phoff ehdr).

Lemma check_phdrs_spec n : ∀ i acc, 0 ≤ i → i + Z.of_nat n = e_phnum ehdr →
  ∃ r, check_phdrs data ehdr i acc n = Ret r ∧
    let segs := filter is_load (phdrs data ehdr i (Z.of_nat n)) in
    match r with
    | inl b => Forall (good_segment (Z.of_nat (length data))) segs ∧ (b = true ↔ acc = true ∨ Exists (has_entry (e_entry ehdr)) segs)
    | inr _ => ¬ Forall (good_segment (Z.of_nat (length data))) segs
    end.
Proof.
  induction n as [|n IH]; intros i acc Hi Hn; cbn [check_phdrs].
  { eexists. split; [done|]. cbn. split; [by apply Forall_nil|]. rewrite Exists_nil. naive_solver. }
  destruct (phdr_offset_spec data ehdr i Hg Hl Ho) as (-> & Hp0 & Hp1); [lia|].
  destruct (phdr_at_ret data _ Hb Hp0 Hp1) as (ph & E & Hok). rewrite E. cbn [mbind outcome_bind].
  pose proof (check_phdr_spec (Z.of_nat (length data)) (e_entry ehdr) ph Hok Hl) as Hc.
  rewrite (phdrs_cons data ehdr i _ ph) by (done || lia). replace (Z.of_nat (S n) - 1) with (Z.of_nat n) by lia.
  rewrite filter_cons. destruct (check_phdr _ _ ph) as [b|e].
  - destruct Hc as [Hgood Hent]. destruct (IH (i + 1) (acc || b)) as (r & -> & Hr); [lia|lia|]. exists r. split; [done|].
    destruct r as [b'|e']; cbv zeta in Hr |- *.
    + destruct Hr as [Hall Hex]. rewrite Hex, orb_true_iff, Hent. destruct (decide (is_load ph)) as [Hld|Hld].
      * split; [apply Forall_cons; by split; [apply Hgood|]|]. rewrite Exists_cons. naive_solver.
      * split; [done|]. naive_solver.
    + destruct (decide (is_load ph)); [|done]. by intros [_ ?]%Forall_cons.
  - destruct Hc as [Hld Hbad]. eexists. split; [done|]. cbv zeta. rewrite decide_True by done. by intros [? _]%Forall_cons.
Qed.
End loop.

Lemma good_header_fields data ehdr : Forall is_byte data → good_header data ehdr →
  0 ≤ e_entry ehdr < 2 ^ 64 ∧ 0 ≤ e_phoff ehdr ∧ 0 ≤ e_phnum ehdr.
Proof.
  intros Hb Hg. destruct (ehdr_of_ret data Hb (gh_size _ _ Hg)) as (eh & E & _ & H1 & H2 & H3 & H4).
  rewrite (gh_fields _ _ Hg) in E. injection E as <-. lia.
Qed.

(** The decision of [validate], for use in other proofs. *)
Lemma validate_ret data : Forall is_byte data → Z.of_nat (length data) ≤ U64_MAX →
  ∃ r, validate data = Ret r ∧ ∀ ehdr, r = inl ehdr ↔ good_elf data ehdr.
Proof.
  intros Hb Hl. unfold validate. destruct (check_header_spec data Hb Hl) as (r & -> & Hr). cbn [mbind outcome_bind].
  destruct r as [eh|e].
  2: { eexists. split; [done|]. intros ehdr. split; [done|]. intros [Hg]. by apply Hr in Hg. }
  pose proof (proj1 (Hr eh) eq_refl) as Hg. destruct (good_header_fields data eh Hb Hg) as (_ & Ho & Hn).
  destruct (check_phdrs_spec data eh Hb Hl Hg Ho (Z.to_nat (e_phnum eh)) 0 false) as (r & -> & Hs); [lia|lia|].
  rewrite Z2Nat.id in Hs by lia. cbv zeta in Hs. fold (segments data eh) in Hs. cbn [mbind outcome_bind].
  assert (∀ ehdr, good_header data ehdr → ehdr = eh) as Huniq by (intros ehdr Hx; by apply Hr in Hx as [= ->]).
  destruct r as [b|e].
  - destruct Hs as [Hall Hex]. destruct b; eexists; (split; [done|]); intros ehdr; split; try done.
    + intros [= <-]. split; [done..|]. destruct (proj1 Hex eq_refl); done.
    + intros [Hh _ _]. by rewrite (Huniq _ Hh).
    + intros [Hh _ He]. rewrite (Huniq _ Hh) in He. assert (false = true) by (apply Hex; by right). done.
  - eexists. split; [done|]. intros ehdr. split; [done|]. intros [Hh Hall _]. by rewrite (Huniq _ Hh) in Hall.
Qed.

(** C35: The validation of an ELF file.  On every byte sequence it terminates without reading outside
    the sequence, and it accepts exactly the files that are in order: 64-bit little-endian x86-64
    executables whose program header table lies inside the file, all of whose loadable segments
    that are not empty lie in user memory, meet neither the kernel's scratch page nor the fixed
    stack and have their bytes inside the file, and whose entry point lies in an executable
    segment. *)
Theorem validate_spec (data : list Z) (Hb : Forall is_byte data) (Hl : Z.of_nat (length data) ≤ U64_MAX) :
  ∃ r, validate data = Ret r ∧ ∀ ehdr, r = inl ehdr ↔ good_elf data ehdr.
Proof. exact (validate_ret data Hb Hl). Qed.

(** ** Example files *)

(** A program header. *)
Definition phdr_bytes (type flags off vaddr filesz memsz : Z) : list Z :=
  le_bytes 4 type ++ le_bytes 4 flags ++ le_bytes 8 off ++ le_bytes 8 vaddr ++ le_bytes 8 0 ++
  le_bytes 8 filesz ++ le_bytes 8 memsz ++ le_bytes 8 4096.

(** A file with the given entry point, program headers, and bytes behind them. *)
Definition elf_file (entry : Z) (phs : list (list Z)) (body : list Z) : list Z :=
  (ELF_MAGIC ++ [2; 1; 1] ++ replicate 9 0) ++ le_bytes 2 ET_EXEC ++ le_bytes 2 EM_X86_64 ++ le_bytes 4 1 ++
  le_bytes 8 entry ++ le_bytes 8 64 ++ le_bytes 8 0 ++ le_bytes 4 0 ++ le_bytes 2 64 ++ le_bytes 2 56 ++
  le_bytes 2 (Z.of_nat (length phs)) ++ le_bytes 2 0 ++ le_bytes 2 0 ++ le_bytes 2 0 ++ mjoin phs ++ body.

(** One executable segment of four bytes in a page of zeros. *)
Definition tiny_elf : list Z := elf_file 33554434 [phdr_bytes PT_LOAD 5 120 33554432 4 4096] [144; 144; 235; 254].

Lemma validate_spec_witness : ∃ ehdr, validate tiny_elf = Ret (inl ehdr) ∧ good_elf tiny_elf ehdr.
Proof.
  destruct (validate_spec tiny_elf) as (r & E & Hr).
  - vm_compute. repeat (constructor; [split; [discriminate|reflexivity]|]). constructor.
  - vm_compute. discriminate.
  - destruct r as [ehdr|e]; [exists ehdr; split; [exact E|by apply Hr]|].
    exfalso. assert (match validate tiny_elf with Ret (inl _) => true | _ => false end = true) as Ht by (vm_compute; reflexivity).
    rewrite E in Ht. discriminate.
Defined.
