(* ===== verification/ElfPages.v ===== *)
(** * The pages of a load

    [mapped s0 s X L] says that the address space [s] is [s0] with the recorded pages [L] added, each on
    a frame of its own that was free in [s0], that the frames [X] are taken but not mapped, and
    accounts for every page of the memory manager.  Mapping a page extends [L]; rolling it
    back shortens it. *)

From Stdlib Require Import ZArith Lia.
From stdpp Require Import base numbers list list_numbers option gmap.
From S2P Require Import Prelude Pmm Memory Kmm Heap VfsTypes OpenFiles Names Paging PageMaps PageSpec PageFree Tty Process Kernel MemCalls MemSpec UserMem Arena Elf.

Local Open Scope Z_scope.

(** The address of a 4 KiB page below 2^48. *)
Definition vpage (v : Z) : Prop := v mod 4096 = 0 ∧ 0 ≤ v < 2 ^ 48.

Lemma vpage_inj v v' : vpage v → vpage v' → indices v = indices v' → v = v'.
Proof. intros [] []. by apply page_indices. Qed.

(** [P] are pages that must not be touched; the loader maps pages in [U]. *)
Section pages.
Context (a : PmmAllocator) (P U : Z → Prop).
Implicit Types s : pg.

(** A frame that was free in [s0] and is in use in [s], not by a table. *)
Definition owned_frame (s0 s : pg) (x : Z) : Prop :=
  ∃ j, 0 ≤ j < total_pages a ∧ x = page_addr a j ∧ used (pg_bm s0) j = false ∧ used (pg_bm s) j = true ∧ ¬ tbl s x.

(** The record [g] of a page that [s] has and [s0] does not. *)
Record added (s0 s : pg) (g : LoadedPage) : Prop := {
  ad_page : vpage (lp_vaddr g);
  ad_in : U (lp_vaddr g);
  ad_before : translate s0 (lp_vaddr g) = None;
  ad_leaf : leaf s (lp_vaddr g) = Some (lp_paddr g, true);
  ad_huge : not_huge s (lp_vaddr g)
}.

Record mapped (s0 s : pg) (X : list Z) (L : list LoadedPage) : Prop := {
  mp_start : pt_inv a s0;
  mp_inv : pt_inv a s;
  mp_cr3 : pg_cr3 s = pg_cr3 s0;
  mp_vaddrs : NoDup (lp_vaddr <$> L);
  mp_frames : NoDup (X ++ (lp_paddr <$> L));
  mp_pages : ∀ g, g ∈ L → added s0 s g;
  mp_owned : ∀ x, x ∈ X ++ (lp_paddr <$> L) → owned_frame s0 s x;
  mp_leaf : ∀ v, (∀ g, g ∈ L → indices v ≠ indices (lp_vaddr g)) → leaf s v = leaf s0 v;
  (** a page in use was in use before, holds a table, or is one of the frames *)
  mp_new : ∀ j, 0 ≤ j < total_pages a → used (pg_bm s) j = true →
    used (pg_bm s0) j = true ∨ tbl s (page_addr a j) ∨ page_addr a j ∈ X ++ (lp_paddr <$> L);
  (** a page in use that held no table still is in use and holds none *)
  mp_old : ∀ j, 0 ≤ j < total_pages a → used (pg_bm s0) j = true → ¬ tbl s0 (page_addr a j) →
    used (pg_bm s) j = true ∧ ¬ tbl s (page_addr a j);
  (** a table in use still is a table *)
  mp_tbl : ∀ j, 0 ≤ j < total_pages a → used (pg_bm s) j = true → tbl s0 (page_addr a j) → tbl s (page_addr a j);
  (** the protected pages are as they were, and the tables off the paths of [U] are old *)
  mp_hold : ∀ k, 0 ≤ k < total_pages a → P (page_addr a k) → used (pg_bm s0) k = true;
  mp_guard : ∀ v, U v → guard a P (path_of v) s;
  mp_mem : ∀ t j, page_ok t → P t → 0 ≤ j < 512 → ld64 (pg_mem s) (slot t j) = ld64 (pg_mem s0) (slot t j);
  mp_off : ∀ path t, ok_path path → (∀ v, U v → ¬ path `prefix_of` path_of v) →
    walk (pg_mem s) (read_cr3 s) path = Some t → walk (pg_mem s0) (read_cr3 s0) path = Some t
}.

Lemma mapped_nil s : pt_inv a s → (∀ k, 0 ≤ k < total_pages a → P (page_addr a k) → used (pg_bm s) k = true) →
  (∀ v, U v → guard a P (path_of v) s) → mapped s s [] [].
Proof. intros Hi Hh Hg. split; auto; try apply NoDup_nil_2; by intros x ?%not_elem_of_nil. Qed.

Lemma mp_other s0 s X L v : mapped s0 s X L → (∀ g, g ∈ L → indices v ≠ indices (lp_vaddr g)) → translate s v = translate s0 v.
Proof. intros M Hv. rewrite !(translate_leaf a) by apply M. by rewrite (mp_leaf _ _ _ _ M). Qed.

Lemma ad_after s0 s X L g : mapped s0 s X L → g ∈ L → translate s (lp_vaddr g) = Some (lp_paddr g).
Proof. intros M Hg. rewrite (translate_leaf a) by apply M. by rewrite (ad_leaf _ _ _ (mp_pages _ _ _ _ M g Hg)). Qed.

(** A run confined to a path of [U] keeps all of them guarded. *)
Lemma guard_all s s' v : (∀ v, U v → guard a P (path_of v) s) → U v → confined a (path_of v) s s' →
  (∀ v, U v → guard a P (path_of v) s') ∧
  (∀ t j, page_ok t → P t → 0 ≤ j < 512 → ld64 (pg_mem s') (slot t j) = ld64 (pg_mem s) (slot t j)) ∧
  (∀ path t, ok_path path → (∀ v, U v → ¬ path `prefix_of` path_of v) →
     walk (pg_mem s') (read_cr3 s') path = Some t → walk (pg_mem s) (read_cr3 s) path = Some t).
Proof.
  intros G Hv C. destruct (C P (G v Hv)) as [G' M' O']. split; [|split; [done|]].
  - intros v' Hv'. split; [apply G'|]. intros path t Hp Hw.
    destruct (decide (path `prefix_of` path_of v)) as [Hp'|Hp']; [by apply (gd_path _ _ _ _ G' path)|].
    apply (gd_path _ _ _ _ (G v' Hv') path); [done|]. apply O'; [|done..]. apply (ok_path_prefix (path_of v')); [|done].
    apply ok3; apply index_at_range.
  - intros path t Hp Hn Hw. apply O'; auto.
Qed.

(** Nothing that was in use has been given back. *)
Definition kept (s0 s : pg) : Prop := ∀ j, 0 ≤ j < total_pages a → used (pg_bm s0) j = true → used (pg_bm s) j = true.

Lemma flags_user : flags_ok page_flags.
Proof. split; [done|]. intros n Hn. apply (testbit_high 3); [lia|done|lia]. Qed.

(** ** Taking a frame *)

Lemma take_step s0 s L k bm : mapped s0 s [] L → kept s0 s → 0 ≤ k < total_pages a → used (pg_bm s) k = false → bm_wf bm →
  (∀ j, 0 ≤ j < total_pages a → used bm j = (k =? j) || used (pg_bm s) j) →
  mapped s0 (set_bm bm s) [page_addr a k] L ∧ kept s0 (set_bm bm s).
Proof.
  intros M K Hk Hf Hwf Hu. pose proof (mp_inv _ _ _ _ M) as Hi.
  assert (∀ j, 0 ≤ j < total_pages a → used (pg_bm s) j = true → used bm j = true) as Hmono.
  { intros j Hj Hj'. rewrite Hu, Hj' by done. apply orb_true_r. }
  split; [|intros j Hj Hx; apply Hmono; auto]. split; try apply M.
  - split; try apply Hi; [done|]. intros path t Hp Hw i Hir Ht. apply Hmono; [done|]. by apply (pi_used _ _ Hi path t).
  - cbn [app]. apply NoDup_cons. split; [|apply M]. intros Hx. destruct (mp_owned _ _ _ _ M _ Hx) as (j & _ & E & _ & Hj & _).
    apply page_addr_inj in E as <-. congruence.
  - intros g Hg. by destruct (mp_pages _ _ _ _ M g Hg).
  - intros x [->|Hx]%elem_of_cons.
    + exists k. split; [done|]. split; [done|]. split.
      { destruct (used (pg_bm s0) k) eqn:E; [|done]. apply K in E; [congruence|done]. }
      split; [cbn; by rewrite Hu, Z.eqb_refl|]. intros (path & Hp & Hw).
      pose proof (pi_used _ _ Hi path _ Hp Hw k Hk eq_refl). congruence.
    + destruct (mp_owned _ _ _ _ M _ Hx) as (j & Hj & E & ? & ? & ?). exists j. split_and!; try done; try lia. by apply Hmono.
  - intros j Hj Hx. cbn in Hx. rewrite Hu in Hx by done. destruct (Z.eqb_spec k j) as [->|]; [right; right; apply list_elem_of_here|].
    destruct (mp_new _ _ _ _ M j Hj Hx) as [|[|]]; [by left|right; by left|right; right]. by apply list_elem_of_further.
  - intros j Hj Hx Hy. destruct (mp_old _ _ _ _ M j Hj Hx Hy). split; [|done]. by apply Hmono.
  - intros j Hj Hx Hy. apply (mp_tbl _ _ _ _ M); [done| |done]. cbn in Hx. rewrite Hu in Hx by done.
    destruct (Z.eqb_spec k j) as [->|]; [|done]. destruct Hy as (path & Hp & Hw).
    apply K; [done|]. by apply (pi_used _ _ (mp_start _ _ _ _ M) path _ Hp Hw).
  - intros v Hv. destruct (mp_guard _ _ _ _ M v Hv) as [Gh Gp]. split; [|done]. intros j Hj Hx. apply Hmono; auto.
Qed.

(** Writing to the frame. *)
Lemma fill_step s0 s L x m : mapped s0 s [x] L →
  (∀ t i, page_ok t → t ≠ x → 0 ≤ i < 512 → ld64 m (slot t i) = ld64 (pg_mem s) (slot t i)) → mapped s0 (set_mem m s) [x] L.
Proof.
  intros M Hm. pose proof (mp_inv _ _ _ _ M) as Hi. pose proof (pi_tree _ _ Hi) as Htr.
  destruct (mp_owned _ _ _ _ M x) as (k & Hk & -> & Hf & _ & Hnt); [apply list_elem_of_here|].
  assert (∀ path t i, ok_path path → walk (pg_mem s) (read_cr3 s) path = Some t → 0 ≤ i < 512 → ld64 m (slot t i) = ld64 (pg_mem s) (slot t i)) as Hld.
  { intros path t i Hp Hw Hir. apply Hm; [exact (tr_ok _ _ Htr _ _ Hp Hw)| |done]. intros ->. apply Hnt. by exists path. }
  destruct (tree_same (pg_mem s) m (read_cr3 s) Htr) as [Ht' Hw'].
  { intros path t i Hp Hw. pose proof (ok_path_snoc _ _ Hp) as (Hp' & Hir & _). rewrite (Hld path) by done. apply same_link_refl. }
  assert (∀ y, tbl (set_mem m s) y ↔ tbl s y) as Htb.
  { intros y. split; intros (path & Hp & Hw); exists path; (split; [done|]); [by rewrite <- (Hw' path Hp)|by rewrite <- (Hw' path Hp) in Hw]. }
  assert (∀ v, leaf (set_mem m s) v = leaf s v) as Hlf.
  { intros v. unfold leaf. pose proof (indices_ok v) as Hx. destruct (indices v) as [[[i4 i3] i2] i1]. destruct Hx as (H4 & H3 & H2 & H1).
    cbn [xlate]. change (read_cr3 (set_mem m s)) with (read_cr3 s). cbn [pg_mem set_mem]. rewrite !Hw' by auto with vibix.
    destruct (walk (pg_mem s) (read_cr3 s) [i4; i3; i2]) as [l1|] eqn:E3; [by rewrite (Hld [i4; i3; i2]) by auto with vibix|].
    destruct (walk (pg_mem s) (read_cr3 s) [i4; i3]) as [l2|] eqn:E2; [|done]. cbn [mbind option_bind]. by rewrite (Hld [i4; i3]) by auto with vibix. }
  assert (∀ v, not_huge s v → not_huge (set_mem m s) v) as Hnh.
  { intros v Hv l2 W. change (read_cr3 (set_mem m s)) with (read_cr3 s) in W. cbn [pg_mem set_mem] in W.
    pose proof (index_at_range v 39). pose proof (index_at_range v 30). pose proof (index_at_range v 21).
    rewrite Hw' in W by auto with vibix. unfold pg_ld. cbn [pg_mem set_mem]. rewrite (Hld [index_at v 39; index_at v 30]) by auto with vibix.
    by apply Hv. }
  split; try apply M.
  - split; try apply Hi; [done|]. intros path t Hp Hw. change (read_cr3 (set_mem m s)) with (read_cr3 s) in Hw. cbn [pg_mem set_mem] in Hw.
    rewrite Hw' in Hw by done. by apply (pi_used _ _ Hi path).
  - intros g Hg. destruct (mp_pages _ _ _ _ M g Hg) as [A1 A2 A3 A4 A5]. split; auto. by rewrite Hlf.
  - intros y Hy. destruct (mp_owned _ _ _ _ M y Hy) as (j & ? & ? & ? & ? & ?). exists j. rewrite Htb. done.
  - intros v Hv. rewrite Hlf. by apply (mp_leaf _ _ _ _ M).
  - intros j Hj Hu. rewrite Htb. by apply (mp_new _ _ _ _ M).
  - intros j Hj Hu Hy. rewrite Htb. by apply (mp_old _ _ _ _ M).
  - intros j Hj Hu Hy. rewrite Htb. by apply (mp_tbl _ _ _ _ M).
  - intros v Hv. destruct (mp_guard _ _ _ _ M v Hv) as [Gh Gp]. split; [done|]. intros path t Hp Hw.
    change (read_cr3 (set_mem m s)) with (read_cr3 s) in Hw. cbn [pg_mem set_mem] in Hw. apply (Gp path t Hp). rewrite <- Hw'; [done|].
    apply (ok_path_prefix (path_of v)); [apply ok3; apply index_at_range|done].
  - intros t j Ht HP Hj. cbn [pg_mem set_mem]. rewrite Hm; [by apply (mp_mem _ _ _ _ M)|done| |done]. intros ->.
    rewrite (mp_hold _ _ _ _ M) in Hf; done.
  - intros path t Hp Hn Hw. apply (mp_off _ _ _ _ M); [done|done|]. rewrite <- Hw'; done.
Qed.

(** ** Mapping it *)

Lemma owned_grew s0 s s' x : owned_frame s0 s x → grew a s s' → owned_frame s0 s' x.
Proof.
  intros (j & Hj & E & Hb & Hu & Hl) G. exists j. split; [done|]. split; [done|]. split; [done|].
  split; [by apply (gw_used _ _ _ G)|]. intros [?|(k & Hk & E' & Hk')]%(gw_tbl _ _ _ G); [done|].
  rewrite E in E'. apply page_addr_inj in E' as ->. congruence.
Qed.

Lemma build_step s0 s L v p : mapped s0 s [p] L → kept s0 s → vpage v → U v → translate s v = None → (∀ g, g ∈ L → lp_vaddr g ≠ v) →
  translate s0 v = None →
  ∃ b s', try_map_4k a s v p page_flags = Ret (b, s') ∧ kept s0 s' ∧
    if (b : bool) then mapped s0 s' [] (L ++ [mkPage v p])
    else mapped s0 s' [p] L ∧ (overlaps_kernel_scratch v (sat_add v 4096) = true ∨ exhausted a s').
Proof.
  intros M K Hv HU Ht Hne Ht0. pose proof (mp_inv _ _ _ _ M) as Hi.
  destruct (mp_owned _ _ _ _ M p) as (k & Hk & -> & _); [apply list_elem_of_here|].
  pose proof (page_addr_ok a s k Hi Hk) as Hok.
  destruct (try_map_ok a s v (page_addr a k) page_flags Hi Hok flags_user) as (b & s' & -> & Hi' & Hc' & Hoth & Hb & _ & G & Hnh & C).
  destruct (guard_all s s' v (mp_guard _ _ _ _ M) HU C) as (Gg & Gm & Go).
  exists b, s'. split; [done|]. split; [intros j Hj Hx; apply (gw_used _ _ _ G); auto|].
  assert (∀ g, g ∈ L → added s0 s' g) as Hkeep.
  { intros g Hg. destruct (mp_pages _ _ _ _ M g Hg) as [A B1 B2 B3 D]. split; [done..| |by apply (gw_huge _ _ _ G)].
    rewrite Hoth; [done|]. intros E. by apply (Hne g Hg), vpage_inj. }
  assert (∀ x, x ∈ [page_addr a k] ++ (lp_paddr <$> L) → owned_frame s0 s' x) as Hown.
  { intros x Hx. eapply owned_grew; [|exact G]. by apply (mp_owned _ _ _ _ M). }
  assert (∀ j, 0 ≤ j < total_pages a → used (pg_bm s') j = true →
    used (pg_bm s0) j = true ∨ tbl s' (page_addr a j) ∨ page_addr a j ∈ [page_addr a k] ++ (lp_paddr <$> L)) as Hnew.
  { intros j Hj [Hx|Hx]%(gw_new _ _ _ G); [|tauto|done]. destruct (mp_new _ _ _ _ M j Hj Hx) as [|[|]]; [tauto| |tauto].
    right. left. by apply (gw_keep _ _ _ G). }
  assert (∀ j, 0 ≤ j < total_pages a → used (pg_bm s0) j = true → ¬ tbl s0 (page_addr a j) →
    used (pg_bm s') j = true ∧ ¬ tbl s' (page_addr a j)) as Hold.
  { intros j Hj Hx Hy. destruct (mp_old _ _ _ _ M j Hj Hx Hy) as [A B]. split; [by apply (gw_used _ _ _ G)|].
    intros [?|(i & _ & E & Hx')]%(gw_tbl _ _ _ G); [done|]. apply page_addr_inj in E as <-. congruence. }
  assert (∀ j, 0 ≤ j < total_pages a → used (pg_bm s') j = true → tbl s0 (page_addr a j) → tbl s' (page_addr a j)) as Htb.
  { intros j Hj [Hx|Hx]%(gw_new _ _ _ G) Hy; [|done|done]. apply (gw_keep _ _ _ G). by apply (mp_tbl _ _ _ _ M). }
  assert (∀ t j, page_ok t → P t → 0 ≤ j < 512 → ld64 (pg_mem s') (slot t j) = ld64 (pg_mem s0) (slot t j)) as Hmm.
  { intros t j Hok' HP Hj. by rewrite Gm, (mp_mem _ _ _ _ M). }
  assert (∀ path t, ok_path path → (∀ v, U v → ¬ path `prefix_of` path_of v) →
    walk (pg_mem s') (read_cr3 s') path = Some t → walk (pg_mem s0) (read_cr3 s0) path = Some t) as Hof.
  { intros path t Hp Hn Hw. apply (mp_off _ _ _ _ M); auto. }
  assert (∀ x, x ∈ (lp_paddr <$> L) ++ [page_addr a k] ↔ x ∈ [page_addr a k] ++ (lp_paddr <$> L)) as Hswap
    by (intros x; rewrite !elem_of_app; tauto).
  pose proof (mp_frames _ _ _ _ M) as Hd. destruct b.
  - destruct Hb as [_ Htr]. rewrite lor_page in Htr by (done || apply Hv). split; try done; try (rewrite fmap_app; cbn [app fmap list_fmap lp_paddr lp_vaddr]).
    + apply M.
    + rewrite Hc'. apply M.
    + apply NoDup_app. split; [apply M|]. split; [|apply NoDup_singleton].
      intros x (g & -> & Hg)%list_elem_of_fmap Hx%list_elem_of_singleton. by apply (Hne g).
    + cbn [app] in Hd. apply NoDup_cons in Hd as [Hd1 Hd2]. apply NoDup_app. split; [done|]. split; [|apply NoDup_singleton].
      by intros x Hx ->%list_elem_of_singleton.
    + intros g [Hg| ->%list_elem_of_singleton]%elem_of_app; [by apply Hkeep|]. split; cbn [lp_vaddr lp_paddr]; auto.
    + intros x Hx. apply Hown. by apply Hswap.
    + intros x Hx. rewrite Hoth; [|apply (Hx (mkPage v (page_addr a k))), elem_of_app; right; apply list_elem_of_here].
      apply (mp_leaf _ _ _ _ M). intros g Hg. apply Hx, elem_of_app. by left.
    + intros j Hj Hx. rewrite Hswap. by apply Hnew.
    + apply M.
  - destruct Hb as [Hsame Hwhy]. split; [|destruct Hwhy as [Hs|[[x Hx]|]]; [by left|congruence|by right]].
    split; try done; try apply M.
    + rewrite Hc'. apply M.
    + intros x Hx. rewrite Hsame. by apply (mp_leaf _ _ _ _ M).
Qed.

(** ** Giving frames back *)

Lemma free_frame s k : pt_inv a s → 0 ≤ k < total_pages a → ¬ tbl s (page_addr a k) →
  ∃ bm, pmm_free a s (page_addr a k) = Ret (set_bm bm s) ∧ pt_inv a (set_bm bm s) ∧
    ∀ j, 0 ≤ j < total_pages a → used bm j = used (pg_bm s) j && negb (j =? k).
Proof.
  intros Hi Hk Hn. destruct (pmm_free_spec a s (page_addr a k) (pi_bm _ _ Hi)) as (s' & E & [Hs Hwf Hu]).
  destruct (pi_pmm _ _ Hi) as (Htp & Hms & _).
  assert (∀ j, 0 ≤ j < total_pages a → used (pg_bm s') j = used (pg_bm s) j && negb (j =? k)) as Hu'.
  { intros j Hj. specialize (Hu j ltac:(unfold in_range; lia)).
    assert (hits a (page_addr a k) j ↔ j = k) as Hh.
    { unfold hits, page_addr, PMM_PAGE_SIZE. rewrite Z.add_simpl_l, Z.div_mul by lia. split; [naive_solver|]. intros ->. lia. }
    destruct (Z.eqb_spec j k) as [->|Hne]; cbn [negb]; rewrite ?andb_true_r, ?andb_false_r.
    - destruct (used (pg_bm s') k); [|done]. destruct (proj1 Hu eq_refl) as [_ Hx]. exfalso. apply (Hx _ eq_refl). by apply Hh.
    - destruct (used (pg_bm s) j).
      + apply Hu. split; [done|]. intros x ->. by rewrite Hh.
      + destruct (used (pg_bm s') j); [|done]. by destruct (proj1 Hu eq_refl). }
  exists (pg_bm s'). rewrite <- Hs. split; [done|]. split; [|done]. rewrite Hs. split; try apply Hi; [done|].
  intros path t Hp Hw j Hj Ht. cbn [set_bm pg_bm]. rewrite Hu' by done. rewrite (pi_used _ _ Hi path t Hp Hw j Hj Ht).
  destruct (Z.eqb_spec j k) as [->|]; [|done]. exfalso. apply Hn. rewrite <- Ht. by exists path.
Qed.

Lemma free_step s0 s L p : mapped s0 s [p] L → ∃ s', pmm_free a s p = Ret s' ∧ mapped s0 s' [] L ∧ (kept s0 s → kept s0 s').
Proof.
  intros M. pose proof (mp_inv _ _ _ _ M) as Hi. pose proof (mp_frames _ _ _ _ M) as Hd. cbn [app] in Hd. apply NoDup_cons in Hd as [Hp Hd].
  destruct (mp_owned _ _ _ _ M p) as (k & Hk & -> & Hf & Hu & Hl); [apply list_elem_of_here|].
  destruct (free_frame s k Hi Hk Hl) as (bm & -> & Hi' & Hu'). eexists. split; [done|].
  assert (∀ j, 0 ≤ j < total_pages a → j ≠ k → used bm j = used (pg_bm s) j) as Hsame.
  { intros j Hj Hne. rewrite Hu' by done. rewrite (proj2 (Z.eqb_neq _ _) Hne). apply andb_true_r. }
  split; [|intros K j Hj Hx; cbn; rewrite Hsame; [by apply K|done|congruence]].
  split; try apply M; try done.
  - intros g Hg. by destruct (mp_pages _ _ _ _ M g Hg).
  - intros x Hx. destruct (mp_owned _ _ _ _ M x) as (j & Hj & -> & ? & ? & ?); [by apply list_elem_of_further|].
    exists j. split_and!; try done; try lia. cbn. rewrite Hsame; [done|done|]. by intros ->.
  - intros j Hj Hx. cbn in Hx. rewrite Hu' in Hx by done. apply andb_true_iff in Hx as [Hx Hjk]. apply negb_true_iff, Z.eqb_neq in Hjk.
    destruct (mp_new _ _ _ _ M j Hj Hx) as [|[|[E|]%elem_of_cons]]; [by left|right; by left| |right; by right].
    by apply page_addr_inj in E.
  - intros j Hj Hx Hy. destruct (mp_old _ _ _ _ M j Hj Hx Hy). split; [|done]. cbn. rewrite Hsame; [done|done|congruence].
  - intros j Hj Hx Hy. cbn in Hx. rewrite Hu' in Hx by done. apply andb_true_iff in Hx as [Hx _]. by apply (mp_tbl _ _ _ _ M).
  - intros v Hv. destruct (mp_guard _ _ _ _ M v Hv) as [Gh Gp]. split; [|done]. intros j Hj Hx. cbn. rewrite Hsame; [by apply Gh|done|].
    intros ->. rewrite (mp_hold _ _ _ _ M) in Hf; done.
Qed.

(** ** Unmapping *)

(** Whether an address is mapped depends on its page only. *)
Lemma unmapped_page s v x : pt_inv a s → indices x = indices v → translate s v = None → translate s x = None.
Proof.
  intros Hi E. rewrite !(leaf_none a) by done. unfold leaf. rewrite E. unfold xlate. destruct (indices v) as [[[i4 i3] i2] i1].
  destruct (walk _ _ [_; _; _]); [by destruct (has _ PAGE_PRESENT)|]. destruct (walk _ _ [_; _]); [|done]. cbn [mbind option_bind].
  by destruct (has _ _ && has _ _).
Qed.

Lemma unmap_step s0 s g L : mapped s0 s [] (g :: L) →
  ∃ e s', unmap_and_free_empty a s (lp_vaddr g) = Ret (Some e, s') ∧ entry_addr e = lp_paddr g ∧ mapped s0 s' [lp_paddr g] L.
Proof.
  intros M. pose proof (mp_inv _ _ _ _ M) as Hi. pose proof (mp_vaddrs _ _ _ _ M) as Hdv. cbn in Hdv. apply NoDup_cons in Hdv as [Hgv Hdv].
  destruct (mp_pages _ _ _ _ M g) as [Hv HU Hb Ha Hh]; [apply list_elem_of_here|].
  destruct (unmap_ok a s (lp_vaddr g) Hi Hh) as (o & s' & Hr & Hi' & Hc' & Hoth & Hnone & Htr & S & C).
  destruct (guard_all s s' _ (mp_guard _ _ _ _ M) HU C) as (Gg & Gm & Go).
  rewrite (ad_after _ _ _ _ g M (list_elem_of_here _ _)) in Htr. destruct o as [e|]; [|done]. cbn in Htr. injection Htr as Htr.
  rewrite lor_page in Htr by (apply entry_addr_ok || apply Hv).
  exists e, s'. split; [done|]. split; [done|]. split; try done; try apply M.
  - rewrite Hc'. apply M.
  - intros x Hx. destruct (mp_pages _ _ _ _ M x) as [A B1 B2 B3 D]; [by apply list_elem_of_further|].
    split; [done..| |by apply (sh_huge _ _ _ S)]. rewrite Hoth; [done|]. intros E. apply Hgv.
    apply vpage_inj in E as <-; [|done|done]. apply list_elem_of_fmap. by exists x.
  - intros x Hx. destruct (mp_owned _ _ _ _ M x Hx) as (j & Hj & E & Hf & Hu & Hl). exists j.
    split; [done|]. split; [done|]. split; [done|]. split; [by rewrite (sh_keep _ _ _ S); [|done|rewrite <- E]|].
    intros Hy. by apply Hl, (sh_tbl _ _ _ S).
  - intros v Hv'. destruct (decide (indices v = indices (lp_vaddr g))) as [Ev|Ev].
    + rewrite (proj1 (leaf_none a s' v Hi')), (proj1 (leaf_none a s0 v (mp_start _ _ _ _ M))); [done|..];
        apply (unmapped_page _ (lp_vaddr g)); try done; apply M.
    + rewrite Hoth by done. apply (mp_leaf _ _ _ _ M). intros x [->|Hx]%elem_of_cons; [done|by apply Hv'].
  - intros j Hj Hx. pose proof (sh_used _ _ _ S j Hj Hx) as Hx'.
    destruct (mp_new _ _ _ _ M j Hj Hx') as [|[Ht'|Hin]]; [by left|right; left|right; by right]. by apply (sh_gone _ _ _ S).
  - intros j Hj Hx Hy. destruct (mp_old _ _ _ _ M j Hj Hx Hy) as [A B]. split.
    + by rewrite (sh_keep _ _ _ S).
    + intros Hz. by apply B, (sh_tbl _ _ _ S).
  - intros j Hj Hx Hy. pose proof (sh_used _ _ _ S j Hj Hx) as Hx'. apply (sh_gone _ _ _ S); [done| |done]. by apply (mp_tbl _ _ _ _ M).
  - intros t j Ht HP Hj. by rewrite Gm, (mp_mem _ _ _ _ M).
  - intros path t Hp Hn Hw. apply (mp_off _ _ _ _ M); auto.
Qed.

(** Rolling back all of them. *)
Lemma unload_pages_spec s0 L : ∀ s, mapped s0 s [] L → ∃ s', unload_pages a s L = Ret s' ∧ mapped s0 s' [] [].
Proof.
  induction L as [|g L IH]; intros s M; cbn [unload_pages]; [by exists s|].
  destruct (unmap_step s0 s g L M) as (e & s1 & -> & E & M1). cbn [mbind outcome_bind]. rewrite E.
  destruct (free_step s0 s1 L _ M1) as (s2 & -> & M2 & _). cbn [mbind outcome_bind]. by apply IH.
Qed.
End pages.
