(* ===== verification/ElfSpec.v ===== *)
(** * What loading an ELF file promises

    A load into an address space that is not active either maps exactly the pages of the
    segments, each on its own frame, with the bytes of the file and zeros elsewhere, or
    fails for a stated reason and leaves every translation and every page of the memory
    manager as it was, up to tables of the new address space. *)

From Stdlib Require Import ZArith Lia.
From stdpp Require Import base numbers list list_numbers option gmap.
From S2P Require Import Prelude Pmm Memory Kmm Heap VfsTypes OpenFiles Names Paging PageMaps PageSpec PageFree Tty Process Kernel MemCalls MemSpec UserMem Arena ArenaSpec Elf ElfCheck ElfPages.

Local Open Scope Z_scope.

(** ** The image of a file in memory *)

Definition page_of (x : Z) : Z := and_not x 4095.

(** The pages of a segment. *)
Definition seg_page (ph : Elf64Phdr) (v : Z) : Prop :=
  v mod 4096 = 0 ∧ page_of (p_vaddr ph) ≤ v < and_not (p_vaddr ph + p_memsz ph + 4095) 4095.

(** The byte of the file that a segment puts at [x]. *)
Definition seg_byte (data : list Z) (x : Z) (ph : Elf64Phdr) : option Z :=
  if decide (p_vaddr ph ≤ x < p_vaddr ph + p_filesz ph)
  then Some (data !!! Z.to_nat (p_offset ph + (x - p_vaddr ph))) else None.

(** Later segments overwrite earlier ones; what no segment fills is zero. *)
Definition image (data : list Z) (segs : list Elf64Phdr) (x : Z) : Z :=
  foldl (λ b ph, default b (seg_byte data x ph)) 0 segs.

Lemma image_snoc data segs ph x : image data (segs ++ [ph]) x = default (image data segs x) (seg_byte data x ph).
Proof. unfold image. by rewrite foldl_app. Qed.

Lemma image_zero data segs x : (∀ ph, ph ∈ segs → ¬ (p_vaddr ph ≤ x < p_vaddr ph + p_filesz ph)) → image data segs x = 0.
Proof.
  induction segs as [|ph segs IH] using rev_ind; intros Hn; [done|]. rewrite image_snoc. unfold seg_byte.
  rewrite decide_False by (apply Hn, elem_of_app; right; apply list_elem_of_here). cbn.
  apply IH. intros ph' Hp. apply Hn, elem_of_app. by left.
Qed.

Lemma page_of_div x : and_not x 4095 = x / 4096 * 4096.
Proof. rewrite and_not_page. pose proof (Z.div_mod x 4096). lia. Qed.

(** The pages of a segment by number. *)
Lemma seg_page_div ph v : seg_page ph v ↔
  ∃ q, v = q * 4096 ∧ p_vaddr ph / 4096 ≤ q < (p_vaddr ph + p_memsz ph + 4095) / 4096.
Proof.
  unfold seg_page, page_of. rewrite !page_of_div. split.
  - intros [[q ->]%Z.mod_divide Hv]; [|lia]. exists q. split; [done|]. nia.
  - intros (q & -> & Hq). split; [by apply Z.mod_mul|]. nia.
Qed.

Lemma page_of_page v x : v mod 4096 = 0 → page_of x = v ↔ v ≤ x < v + 4096.
Proof.
  intros Hv. unfold page_of. rewrite and_not_page. pose proof (Z.div_mod x 4096). pose proof (Z.mod_pos_bound x 4096).
  apply Z.mod_divide in Hv as [c ->]; [|lia]. lia.
Qed.

Lemma page_of_aligned x : page_of x mod 4096 = 0.
Proof. unfold page_of. rewrite and_not_page. pose proof (Z.div_mod x 4096). replace (x - x mod 4096) with (x / 4096 * 4096) by lia. by apply Z.mod_mul. Qed.

Lemma ld8_zero_page m v x : v mod 4096 = 0 → ld8 (zero_words m v 512) x = if decide (page_of x = v) then 0 else ld8 m x.
Proof.
  intros Hv. unfold ld8. rewrite zero_words_ld. unfold word_of.
  pose proof (Z.mod_pos_bound x 8). pose proof (Z.div_mod x 8). pose proof (page_of_page v x Hv) as Hp.
  apply Z.mod_divide in Hv as [c ->]; [|lia].
  replace ((x - x mod 8 - c * 4096) mod 8) with 0
    by (replace (x - x mod 8 - c * 4096) with ((x / 8 - c * 512) * 8) by lia; by rewrite Z.mod_mul).
  rewrite Z.eqb_refl, andb_true_r. case_decide as E.
  - apply Hp in E. zcases. by rewrite Z.shiftr_0_l.
  - zcases; exfalso; apply E, Hp; lia.
Qed.

Lemma find_page_elem L v : match find_page L v with Some p => mkPage v p ∈ L | None => v ∉ lp_vaddr <$> L end.
Proof.
  induction L as [|[va pa] L IH]; cbn; [apply not_elem_of_nil|]. destruct (Z.eqb_spec va v) as [->|Hne]; [apply list_elem_of_here|].
  destruct (find_page L v); [by apply list_elem_of_further|]. rewrite elem_of_cons. naive_solver.
Qed.

(** ** Budgets *)

Section budget.
Context (a : PmmAllocator).

Lemma try_get_count s e o s' : pmm_wf a → bm_wf (pg_bm s) → try_get_or_create_table a s e = Ret (o, s') →
  bm_wf (pg_bm s') ∧ free_count a (pg_bm s) - 1 ≤ free_count a (pg_bm s').
Proof.
  intros Ha Hwf. unfold try_get_or_create_table. destruct (has _ _); [intros [= <- <-]; split; [done|lia]|].
  unfold pmm_alloc. pose proof (free_count_alloc a (pg_bm s) Ha Hwf) as Hal.
  destruct (alloc a (pg_bm s)) as [[p bm']| | |]; [|done..]. destruct Hal as (Hwf' & Hm & Hp). cbn [mbind outcome_bind].
  destruct (p =? 0); intros [= <- <-]; (split; [done|]); cbn; [destruct Hp as [_ ->]|]; lia.
Qed.

Lemma try_map_count s v p f b s' : pt_inv a s → try_map_4k a s v p f = Ret (b, s') →
  free_count a (pg_bm s) - 3 ≤ free_count a (pg_bm s').
Proof.
  intros Hi. pose proof (pi_pmm _ _ Hi) as Ha. pose proof (pi_bm _ _ Hi) as Hwf.
  unfold try_map_4k. destruct (has f PAGE_USER && _); [intros [= <- <-]; lia|].
  destruct (translate_in_pml4 _ _ _); [intros [= <- <-]; lia|]. cbn [indices].
  destruct (try_get_or_create_table a s _) as [[o3 s1]| | |] eqn:E1; [|done..]. cbn [mbind outcome_bind].
  destruct (try_get_count _ _ _ _ Ha Hwf E1) as [W1 C1]. destruct o3 as [l3|]; [|intros [= <- <-]; lia].
  destruct (try_get_or_create_table a s1 _) as [[o2 s2]| | |] eqn:E2; [|done..]. cbn [mbind outcome_bind].
  destruct (try_get_count _ _ _ _ Ha W1 E2) as [W2 C2]. destruct o2 as [l2|]; [|intros [= <- <-]; lia].
  destruct (try_get_or_create_table a s2 _) as [[o1 s3]| | |] eqn:E3; [|done..]. cbn [mbind outcome_bind].
  destruct (try_get_count _ _ _ _ Ha W2 E3) as [W3 C3]. destruct o1 as [l1|]; [|intros [= <- <-]; lia].
  destruct (has f PAGE_USER); intros [= <- <-]; cbn; lia.
Qed.

Lemma exhausted_count s : exhausted a s → free_count a (pg_bm s) = 0.
Proof.
  intros H. apply countb_zero. intros i j Hj%list_elem_of_lookup_2%elem_of_seqZ. by rewrite H by lia.
Qed.
End budget.

(** ** The state of a load *)

Section load.
Context (a : PmmAllocator) (target : Z) (Htgt : page_ok target) (p0 : pg) (Hplain : read_cr3 p0 = pg_cr3 p0)
  (um0 : gmap Z mem) (data : list Z) (Hbytes : Forall is_byte data)
  (Hsize : Z.of_nat (length data) ≤ U64_MAX) (inj0 : LoadFailureInjection) (prot room : Z → Prop).

(** The new address space. *)
Definition view (p : pg) : pg := set_cr3 target p.
Definition uspace (um : gmap Z mem) : mem := default ∅ (um !! target).

Record loaded (segs : list Elf64Phdr) (s : loader) (L : list LoadedPage) : Prop := {
  lo_rec : ∃ ch, rep (l_ar s) (l_lp s) ch L;
  lo_pages : mapped a prot room (view p0) (view (l_pg s)) [] L;
  lo_kept : kept a (view p0) (view (l_pg s));
  lo_cr3 : pg_cr3 (l_pg s) = pg_cr3 p0;
  lo_inj : pmm_fail_after (l_inj s) = pmm_fail_after inj0 ∧ metadata_fail_after (l_inj s) = metadata_fail_after inj0;
  lo_um : ∀ r, r ≠ target → l_um s !! r = um0 !! r;
  lo_mem : ∀ x, ld8 (uspace (l_um s)) x =
    if decide (page_of x ∈ lp_vaddr <$> L) then image data segs x else ld8 (uspace um0) x;
  lo_cover : ∀ ph x, ph ∈ segs → p_vaddr ph ≤ x < p_vaddr ph + p_filesz ph → page_of x ∈ lp_vaddr <$> L
}.

(** At most a frame and three tables have been taken for every page. *)
Definition frugal (s : loader) (L : list LoadedPage) : Prop :=
  free_count a (pg_bm p0) ≤ free_count a (pg_bm (l_pg s)) + 4 * Z.of_nat (length L).

(** Why the page [v] cannot be added to [L]. *)
Definition blocked (v : Z) (L : list LoadedPage) (e : ElfError) : Prop :=
  match e with
  | MappingCollision => is_Some (translate (view p0) v)
  | MetadataOom => is_Some (metadata_fail_after inj0) ∨ Z.of_nat (length L) = 4096
  | Oom => is_Some (pmm_fail_after inj0) ∨ overlaps_kernel_scratch v (sat_add v 4096) = true ∨
      free_count a (pg_bm p0) ≤ 4 * (Z.of_nat (length L) + 1)
  | _ => False
  end.

Lemma entry_addr_target : entry_addr target = target.
Proof. rewrite <- (Z.lor_0_r target) at 1. apply entry_addr_page; [done|]. intros n _. apply Z.testbit_0_l. Qed.

Lemma translate_view p v : translate_in_pml4 p v target = translate (view p) v.
Proof. unfold translate, read_cr3. cbn [view set_cr3 pg_cr3]. by rewrite entry_addr_target. Qed.

Lemma view_back p c : pg_cr3 p = target → view (set_cr3 c p) = p.
Proof. intros Hc. unfold view, set_cr3. cbn. rewrite <- Hc. by destruct p. Qed.

Lemma view_same p : pg_cr3 p = target → view p = p.
Proof. intros Hc. unfold view, set_cr3. cbn. rewrite <- Hc. by destruct p. Qed.

(** Switching to the new address space and back. *)
Lemma with_target {A} (f : pg → outcome (A * pg)) p r p' : read_cr3 p = pg_cr3 p → f (view p) = Ret (r, p') → pg_cr3 p' = target →
  with_cr3 f p target = Ret (r, set_cr3 (pg_cr3 p) p').
Proof.
  intros Hp Hf Hc. unfold with_cr3. rewrite Hp. destruct (Z.eqb_spec target (pg_cr3 p)) as [E|E].
  - rewrite view_same in Hf by done. rewrite Hf, <- E. do 2 f_equal. symmetry. by apply view_same.
  - change (set_cr3 target p) with (view p). by rewrite Hf.
Qed.

Lemma in_target_ret {A} (f : loader → outcome (A * loader)) s r s' : read_cr3 (l_pg s) = pg_cr3 (l_pg s) →
  f (put_lpg (view (l_pg s)) s) = Ret (r, s') → pg_cr3 (l_pg s') = target →
  in_target f s target = Ret (r, put_lpg (set_cr3 (pg_cr3 (l_pg s)) (l_pg s')) s').
Proof.
  intros Hp Hf Hc. unfold in_target. rewrite Hp. destruct (Z.eqb_spec (pg_cr3 (l_pg s)) target) as [E|E].
  - rewrite view_same in Hf by done. replace (put_lpg (l_pg s) s) with s in Hf by (by destruct s). rewrite Hf. do 2 f_equal. destruct s' as [q ? ? ? ?]. cbn in *.
    unfold put_lpg. cbn. f_equal. rewrite E. symmetry. by apply view_same.
  - change (set_cr3 target (l_pg s)) with (view (l_pg s)). by rewrite Hf.
Qed.

Lemma plain segs s L : loaded segs s L → read_cr3 (l_pg s) = pg_cr3 (l_pg s).
Proof. intros H. unfold read_cr3 in *. by rewrite (lo_cr3 _ _ _ H). Qed.

(** The loader's other fields do not matter. *)
Lemma loaded_inj segs s L j : loaded segs s L → pmm_fail_after j = pmm_fail_after inj0 → metadata_fail_after j = metadata_fail_after inj0 →
  loaded segs (put_inj j s) L.
Proof. intros [] H1 H2. by split. Qed.

Lemma loaded_rec segs s L ar lp : loaded segs s L → (∃ ch, rep ar lp ch L) → loaded segs (put_rec ar lp s) L.
Proof. intros [] H1. by split. Qed.

(** ** One page *)

Lemma access_ret s v : canonical v = true → is_Some (translate (l_pg s) v) → access s v = Ret ().
Proof. intros Hc [x Hx]. unfold access. by rewrite Hc, Hx. Qed.

Lemma canonical_low v : v < 2 ^ 47 → canonical v = true.
Proof. intros Hv. unfold canonical. by rewrite (proj2 (Z.ltb_lt v _) Hv). Qed.

Lemma space_view s : l_space (put_lpg (view (l_pg s)) s) = uspace (l_um s).
Proof. unfold l_space, uspace, read_cr3. cbn [l_pg put_lpg l_um view set_cr3 pg_cr3]. by rewrite entry_addr_target. Qed.

Lemma put_space_view m s : put_space m (put_lpg (view (l_pg s)) s) = put_um (<[target := m]> (l_um s)) (put_lpg (view (l_pg s)) s).
Proof. unfold put_space, read_cr3. cbn [l_pg put_lpg l_um view set_cr3 pg_cr3]. by rewrite entry_addr_target. Qed.

(** An access to the memory of the new address space leaves the tables alone. *)
Lemma in_target_mem s (f : loader → outcome (() * loader)) m : read_cr3 (l_pg s) = pg_cr3 (l_pg s) →
  f (put_lpg (view (l_pg s)) s) = Ret ((), put_space m (put_lpg (view (l_pg s)) s)) →
  in_target f s target = Ret ((), put_um (<[target := m]> (l_um s)) s).
Proof.
  intros Hp Hf. rewrite (in_target_ret f s () _ Hp Hf) by done. rewrite put_space_view. do 2 f_equal.
  destruct s as [[] ? ? ? ?]. by cbn.
Qed.

Lemma zero_step segs s0 s L v p : loaded segs s0 L → l_um s = l_um s0 → v < 2 ^ 47 → v ∉ lp_vaddr <$> L →
  (∃ ch, rep (l_ar s) (l_lp s) ch (L ++ [mkPage v p])) → mapped a prot room (view p0) (view (l_pg s)) [] (L ++ [mkPage v p]) →
  kept a (view p0) (view (l_pg s)) → pg_cr3 (l_pg s) = pg_cr3 p0 →
  pmm_fail_after (l_inj s) = pmm_fail_after inj0 ∧ metadata_fail_after (l_inj s) = metadata_fail_after inj0 →
  ∃ s', in_target (zero_user_page v) s target = Ret ((), s') ∧ loaded segs s' (L ++ [mkPage v p]) ∧ l_pg s' = l_pg s.
Proof.
  intros Hl Hum Hv Hn Hrec M K Hc Hj.
  assert (read_cr3 (l_pg s) = pg_cr3 (l_pg s)) as Hp by (unfold read_cr3 in *; by rewrite Hc).
  destruct (mp_pages _ _ _ _ _ _ _ M (mkPage v p)) as [[Hmod _] _ _ _ _]; [apply elem_of_app; right; apply list_elem_of_here|].
  assert (translate (view (l_pg s)) v = Some p) as Htr by (apply (ad_after _ _ _ _ _ _ _ (mkPage v p) M), elem_of_app; right; apply list_elem_of_here).
  cbn [lp_vaddr lp_paddr] in *.
  exists (put_um (<[target := zero_words (uspace (l_um s)) v 512]> (l_um s)) s). split; [|split; [|done]].
  { apply in_target_mem; [done|]. unfold zero_user_page. rewrite access_ret, space_view; [done|by apply canonical_low|by exists p]. }
  split; try done.
  - intros r Hr. cbn [l_um put_um]. rewrite lookup_insert_ne by done. rewrite Hum. by apply (lo_um _ _ _ Hl).
  - intros x. unfold uspace at 1. cbn [l_um put_um]. rewrite lookup_insert_eq. cbn [default from_option id]. rewrite ld8_zero_page by done.
    rewrite fmap_app. rewrite (decide_ext (page_of x ∈ (lp_vaddr <$> L) ++ (lp_vaddr <$> [mkPage v p])) (page_of x ∈ lp_vaddr <$> L ∨ page_of x = v)).
    2: { rewrite elem_of_app. cbn. by rewrite list_elem_of_singleton. }
    rewrite Hum, (lo_mem _ _ _ Hl).
    destruct (decide (page_of x = v)) as [E|E].
    + rewrite decide_True by auto. symmetry. apply image_zero. intros ph Hph Hx. apply Hn. rewrite <- E.
      by apply (lo_cover _ _ _ Hl ph).
    + destruct (decide (page_of x ∈ lp_vaddr <$> L)); [by rewrite decide_True by auto|by rewrite decide_False by tauto].
  - intros ph x Hph Hx. rewrite fmap_app. apply elem_of_app. left. by apply (lo_cover _ _ _ Hl ph).
Qed.

(** Adding [v] to the pages. *)
Definition adds (v : Z) (L L' : list LoadedPage) : Prop := ∀ x, x ∈ lp_vaddr <$> L' ↔ x ∈ lp_vaddr <$> L ∨ x = v.

(** What a slot in the records is good for, with the records otherwise as in [L]. *)
Definition reserved (segs : list Elf64Phdr) (s : loader) (slot : Z * Z) (L : list LoadedPage) : Prop :=
  (∃ ch, slot_for (l_ar s) (l_lp s) slot ch L) ∧ ∀ ar lp, (∃ ch, rep ar lp ch L) → loaded segs (put_rec ar lp s) L.

Lemma place_page_spec segs s slot L v : reserved segs s slot L → frugal s L → vpage v → v < 2 ^ 47 → room v → v ∉ lp_vaddr <$> L →
  translate (view (l_pg s)) v = None → translate (view p0) v = None →
  ∃ r s' L', place_page a s target v slot = Ret (r, s') ∧ loaded segs s' L' ∧
    match r with
    | None => adds v L L' ∧ frugal s' L'
    | Some e => L' = L ∧ blocked v L e
    end.
Proof.
  intros [(ch & Hwrite & ar2 & lp2 & Hcancel & R2) Hrec] Hfr Hv Hlt Hroom Hn Ht Ht0.
  assert (loaded segs (put_rec ar2 lp2 s) L) as Hl by (apply Hrec; by exists ch).
  pose proof (lo_pages _ _ _ Hl) as M. pose proof (lo_kept _ _ _ Hl) as K. pose proof (lo_cr3 _ _ _ Hl) as Hc. cbn [l_pg put_rec] in M, K, Hc.
  destruct (lo_inj _ _ _ Hl) as [Hj1 Hj2]. cbn [l_inj put_rec] in Hj1, Hj2.
  unfold place_page, should_fail_pmm. case_bool_decide as Ef; cbn [mbind outcome_bind].
  { cbn [Z.eqb l_ar l_lp put_lpg put_inj]. rewrite Hcancel. cbn [mbind outcome_bind]. eexists (Some Oom), _, L. split; [done|].
    split; [|split; [done|left; rewrite <- Hj1, Ef; by eexists]].
    replace (put_lpg _ _) with (put_inj (should_fail_pmm (l_inj s)).2 s) by (by destruct s).
    apply (loaded_inj _ (put_rec ar2 lp2 s)); done. }
  unfold pmm_alloc. cbn [l_pg put_inj]. pose proof (mp_inv _ _ _ _ _ _ _ M) as Hi. pose proof (pi_pmm _ _ Hi) as Ha. pose proof (pi_bm _ _ Hi) as Hbm.
  change (pg_bm (view (l_pg s))) with (pg_bm (l_pg s)) in Hbm.
  pose proof (free_count_alloc a (pg_bm (l_pg s)) Ha Hbm) as Hcount.
  destruct (alloc_cases a (pg_bm (l_pg s)) Ha Hbm) as [(k & bm' & Hk & Hfree & _ & Ealloc & _ & Hbm' & Hu)|(Hall & Ealloc)];
    rewrite Ealloc in *; cbn [mbind outcome_bind].
  2: { destruct Hcount as (_ & _ & Hcount). rewrite Z.eqb_refl in *. destruct Hcount as [Hzero _]. cbn [l_ar l_lp put_lpg put_inj]. rewrite Hcancel.
       cbn [mbind outcome_bind]. eexists (Some Oom), _, L. split; [done|]. split.
       - replace (set_bm _ _) with (l_pg s) by (by destruct (l_pg s)).
         apply (loaded_inj _ (put_rec ar2 lp2 s) _ (mkInj _ _ _ _ _ _ _) Hl Hj1 Hj2).
       - split; [done|]. right. right. unfold frugal in Hfr. lia. }
  destruct Hcount as (_ & _ & Hcount).
  assert (page_addr a k ≠ 0) as Hp0 by (destruct Ha as (_ & ? & _); unfold page_addr, PMM_PAGE_SIZE; lia).
  rewrite (proj2 (Z.eqb_neq _ _) Hp0) in *. cbn [l_pg put_lpg put_inj l_ar l_lp].
  destruct (take_step a prot room _ _ L k bm' M K Hk Hfree Hbm') as [M1 K1].
  { intros j Hj. rewrite Hu; [zcases|]. destruct Ha as (Htp & _). unfold in_range. lia. }
  destruct (build_step a prot room _ _ L v _ M1 K1 Hv Hroom Ht ltac:(intros g Hg E; apply Hn; rewrite <- E; apply list_elem_of_fmap; by exists g) Ht0)
    as (b & q & Eq & K2 & Hb).
  pose proof (try_map_count a _ _ _ _ _ _ (mp_inv _ _ _ _ _ _ _ M1) Eq) as Hq. cbn [set_bm pg_bm] in Hq.
  assert (read_cr3 (set_bm bm' (l_pg s)) = pg_cr3 (set_bm bm' (l_pg s))) as Hpl by (unfold read_cr3 in *; cbn; by rewrite Hc).
  assert (pg_cr3 q = target) as Hqc by (destruct b; [apply (mp_cr3 _ _ _ _ _ _ _ Hb)|apply (mp_cr3 _ _ _ _ _ _ _ (proj1 Hb))]).
  unfold try_map_4k_target. rewrite (with_target _ _ b q Hpl Eq Hqc). cbn [mbind outcome_bind]. destruct b; cbn [negb].
  - destruct (Hwrite (mkPage v (page_addr a k))) as (ar3 & Ew & R3). cbn [l_ar l_lp put_lpg put_inj]. rewrite Ew. cbn [mbind outcome_bind].
    set (s1 := put_inj _ (put_rec _ _ _)).
    destruct (zero_step segs (put_rec ar2 lp2 s) s1 L v (page_addr a k) Hl) as (s2 & -> & Hl2 & Hpg); try done.
    + by exists ch.
    + unfold s1. cbn [l_pg put_rec put_lpg put_inj]. by rewrite view_back.
    + exists None, s2, (L ++ [mkPage v (page_addr a k)]). split; [done|]. split; [done|]. split.
      * intros x. rewrite fmap_app, elem_of_app. cbn. by rewrite list_elem_of_singleton.
      * unfold frugal in *. rewrite Hpg, length_app. unfold s1. cbn [l_pg put_rec put_lpg put_inj set_cr3 pg_bm length]. lia.
  - destruct Hb as [Hb Hwhy]. destruct (free_step a prot room _ _ L _ Hb) as (q' & Efree & M3 & K3).
    assert (pmm_free a (set_cr3 (pg_cr3 (l_pg s)) q) (page_addr a k) = Ret (set_cr3 (pg_cr3 (l_pg s)) q')) as Ef'.
    { unfold pmm_free in *. cbn [set_cr3 pg_bm]. destruct (free a (pg_bm q) _); [|done..]. by injection Efree as <-. }
    cbn [set_bm pg_cr3 l_pg put_lpg l_ar l_lp put_inj]. rewrite Ef'. cbn [mbind outcome_bind l_ar l_lp put_lpg put_inj]. rewrite Hcancel.
    cbn [mbind outcome_bind]. eexists (Some Oom), _, L. split; [done|]. split.
    + destruct Hl. split; try done; cbn [l_pg put_rec put_lpg]; rewrite view_back by apply M3; [done|auto].
    + split; [done|]. right. destruct Hwhy as [|Hex]; [by left|right]. apply exhausted_count in Hex. unfold frugal in Hfr. lia.
Qed.

Lemma load_page_spec segs s L v : loaded segs s L → frugal s L → vpage v → v < 2 ^ 47 → room v →
  ∃ r s' L', load_page a s target v = Ret (r, s') ∧ loaded segs s' L' ∧
    match r with
    | None => adds v L L' ∧ frugal s' L'
    | Some e => L' = L ∧ (v ∉ lp_vaddr <$> L) ∧ blocked v L e
    end.
Proof.
  intros Hl Hfr Hv Hlt Hroom. destruct (lo_rec _ _ _ Hl) as [ch R]. unfold load_page. rewrite (lp_find_spec _ _ _ _ v R). cbn [mbind outcome_bind].
  pose proof (find_page_elem L v) as Hfind. destruct (find_page L v) as [pa|].
  { exists None, s, L. split; [done|]. split; [done|]. split; [|done]. intros x. split; [by left|]. intros [| ->]; [done|].
    apply list_elem_of_fmap. by exists (mkPage v pa). }
  rewrite translate_view. pose proof (lo_pages _ _ _ Hl) as M.
  assert (translate (view (l_pg s)) v = translate (view p0) v) as Hsame.
  { apply (mp_other _ _ _ _ _ _ _ _ M). intros g Hg E. apply Hfind. apply vpage_inj in E as ->; [|done|apply (mp_pages _ _ _ _ _ _ _ M g Hg)].
    apply list_elem_of_fmap. by exists g. }
  destruct (translate (view (l_pg s)) v) as [x|] eqn:Ht.
  { exists (Some MappingCollision), s, L. split_and!; try done. unfold blocked. rewrite <- Hsame. by eexists. }
  destruct (lo_inj _ _ _ Hl) as [Hj1 Hj2]. unfold should_fail_metadata. set (s1 := put_inj _ s).
  assert (loaded segs s1 L) as Hl1 by (by apply loaded_inj).
  case_bool_decide as Ef; cbn [mbind outcome_bind].
  { eexists (Some MetadataOom), _, L. split; [done|]. split; [by apply loaded_rec; [|exists ch]|]. split_and!; try done.
    left. rewrite <- Hj2, Ef. by eexists. }
  destruct (reserve_spec _ _ _ _ R) as (r & ar1 & lp1 & Er & Hr). change (l_ar s1) with (l_ar s). change (l_lp s1) with (l_lp s). rewrite Er.
  cbn [mbind outcome_bind]. destruct r as [slot|e].
  2: { destruct Hr as (-> & Hlen & -> & ->). eexists (Some MetadataOom), _, L. split; [done|]. split; [by apply loaded_rec; [|exists ch]|].
       split_and!; try done. by right. }
  destruct Hr as (ch1 & Hslot).
  destruct (place_page_spec segs (put_rec ar1 lp1 s1) slot L v) as (r & s' & L' & -> & Hl' & Hr); try done.
  - split; [by exists ch1|]. intros ar lp Hrep. by apply (loaded_rec _ s1).
  - exists r, s', L'. split; [done|]. split; [done|]. destruct r; [|done]. destruct Hr as [-> ?]. by split_and!.
Qed.

(** ** A segment *)

(** The load stopped at a page of [P]; the pages so far are in [P] as well. *)
Definition stopped (P : Z → Prop) (L : list LoadedPage) (e : ElfError) : Prop :=
  ∃ v, P v ∧ (v ∉ lp_vaddr <$> L) ∧ blocked v L e.

Lemma load_pages_spec segs n : ∀ s L v, loaded segs s L → frugal s L → v mod 4096 = 0 → 0 ≤ v → v + 4096 * Z.of_nat n ≤ 2 ^ 47 →
  let P x := v ≤ x < v + 4096 * Z.of_nat n ∧ x mod 4096 = 0 in (∀ x, P x → room x) →
  ∃ r s' L', load_pages a s target v n = Ret (r, s') ∧ loaded segs s' L' ∧ (∀ x, x ∈ lp_vaddr <$> L' → x ∈ lp_vaddr <$> L ∨ P x) ∧
    match r with
    | None => (∀ x, x ∈ lp_vaddr <$> L ∨ P x → x ∈ lp_vaddr <$> L') ∧ frugal s' L'
    | Some e => stopped P L' e
    end.
Proof.
  induction n as [|n IH]; intros s L v Hl Hf Hm Hv Hle P Hroom; cbn [load_pages].
  { exists None, s, L. split; [done|]. split; [done|]. split; [by left|]. split; [|done]. intros x [|[? _]]; [done|lia]. }
  assert (P v) as Pv by (split; [lia|done]).
  destruct (load_page_spec segs s L v Hl Hf) as (r & s1 & L1 & -> & Hl1 & Hr); [split; [done|lia]|lia|auto|]. cbn [mbind outcome_bind]. destruct r as [e|].
  { destruct Hr as (-> & Hn & Hb). exists (Some e), s1, L. split; [done|]. split; [done|]. split; [by left|]. by exists v. }
  destruct Hr as [Hadd Hf1]. rewrite checked_add_spec, decide_True by (unfold U64_MAX; lia).
  assert ((v + 4096) mod 4096 = 0) as Hm' by (rewrite Z.add_mod, Hm by lia; done).
  assert (∀ x, v + 4096 ≤ x < v + 4096 + 4096 * Z.of_nat n ∧ x mod 4096 = 0 → P x) as Hstep by (intros x []; split; [lia|done]).
  destruct (IH s1 L1 (v + 4096) Hl1 Hf1 Hm') as (r & s2 & L2 & -> & Hl2 & Hin & Hr); [lia|lia|auto|].
  exists r, s2, L2. split; [done|]. split; [done|]. split.
  { intros x [[| ->]%Hadd|Hx]%Hin; [by left|by right|right; by apply Hstep]. }
  destruct r as [e|].
  - destruct Hr as (x & Hx & Hn & Hb). exists x. split; [by apply Hstep|done].
  - destruct Hr as [Hall Hf2]. split; [|done]. intros x [Hx|[Hx Hxm]]; apply Hall.
    + left. apply Hadd. by left.
    + destruct (decide (x = v)) as [->|Hne]; [left; apply Hadd; by right|right]. split; [|done].
      apply Z.mod_divide in Hm as [c ->]; [|lia]. apply Z.mod_divide in Hxm as [d ->]; lia.
Qed.

(** The pages a copy touches are there. *)
Lemma access_pages_ret s n : ∀ v, v + 4096 * Z.of_nat n ≤ 2 ^ 47 →
  (∀ i, 0 ≤ i < Z.of_nat n → is_Some (translate (l_pg s) (v + 4096 * i))) → access_pages s v n = Ret ().
Proof.
  induction n as [|n IH]; intros v Hle Hall; cbn [access_pages]; [done|].
  rewrite access_ret; [|apply canonical_low; lia|replace v with (v + 4096 * 0) by lia; apply Hall; lia]. cbn [mbind outcome_bind].
  apply IH; [lia|]. intros i Hi. replace (v + 4096 + 4096 * i) with (v + 4096 * (i + 1)) by lia. apply Hall. lia.
Qed.

(** A segment that the loader handles as its header says: validated, and without stray pages
    when it is empty. *)
Definition regular (ph : Elf64Phdr) : Prop := p_memsz ph = 0 → p_vaddr ph mod 4096 = 0.

(** The pages of the segment are where the loader may map. *)
Definition fits (ph : Elf64Phdr) : Prop := regular ph ∧ ∀ v, seg_page ph v → room v.

Definition segs_page (segs : list Elf64Phdr) (v : Z) : Prop := ∃ ph, ph ∈ segs ∧ seg_page ph v.

Lemma seg_page_byte ph x : p_filesz ph ≤ p_memsz ph → p_vaddr ph ≤ x < p_vaddr ph + p_filesz ph → seg_page ph (page_of x).
Proof.
  intros Hs Hx. apply seg_page_div. exists (x / 4096). unfold page_of. rewrite page_of_div. split; [done|].
  split; [apply Z.div_le_mono; lia|]. apply (Z.lt_le_trans _ ((x + 4096) / 4096)).
  - replace (x + 4096) with (x + 1 * 4096) by lia. rewrite Z.div_add by lia. lia.
  - apply Z.div_le_mono; lia.
Qed.

Lemma copy_step segs s L ph l : loaded segs s L → phdr_ok ph → good_segment (Z.of_nat (length data)) ph → 0 < p_filesz ph →
  (∀ v, seg_page ph v → v ∈ lp_vaddr <$> L) →
  l = take (Z.to_nat (p_filesz ph)) (drop (Z.to_nat (p_offset ph)) data) →
  ∃ s', in_target (copy_user (p_vaddr ph) l) s target = Ret ((), s') ∧ loaded (segs ++ [ph]) s' L ∧ l_pg s' = l_pg s.
Proof.
  intros Hl (Ho & Hv & Hfs & Hms) [Hsz Hend Hu _ _ Hfile] Hpos Hcov Hlist.
  assert (p_memsz ph ≠ 0) as Hm0 by lia. destruct (Hu Hm0) as [Hu1 Hu2]. specialize (Hfile Hm0). unfold USER_ADDR_LIMIT, PAGING_USER_CODE_ADDR in *.
  assert (Z.of_nat (length l) = p_filesz ph) as Hlen by (rewrite Hlist, length_take, length_drop; lia).
  assert (Forall is_byte l) as Hlb by (rewrite Hlist; by apply Forall_take, Forall_drop).
  assert ((p_vaddr ph + p_filesz ph + 4095) / 4096 ≤ (p_vaddr ph + p_memsz ph + 4095) / 4096) as Hle by (apply Z.div_le_mono; lia).
  assert ((p_vaddr ph + p_memsz ph + 4095) / 4096 ≤ 2 ^ 47 / 4096) as Hlim.
  { apply (Z.le_trans _ ((2 ^ 47 + 4095) / 4096)); [apply Z.div_le_mono; lia|by vm_compute]. }
  assert (p_vaddr ph / 4096 ≤ (p_vaddr ph + p_filesz ph + 4095) / 4096) by (apply Z.div_le_mono; lia).
  change (2 ^ 47 / 4096) with (2 ^ 35) in Hlim. assert (0 ≤ p_vaddr ph / 4096) by (apply Z.div_pos; lia).
  exists (put_um (<[target := st_bytes (uspace (l_um s)) (p_vaddr ph) l]> (l_um s)) s). split; [|split; [|done]].
  - apply in_target_mem; [by eapply plain|]. unfold copy_user. rewrite page_of_div, Z.div_mul, Hlen by lia.
    rewrite access_pages_ret, space_view; [done|lia|]. intros i Hi. cbn [l_pg put_lpg].
    assert (seg_page ph (p_vaddr ph / 4096 * 4096 + 4096 * i)) as Hsp by (apply seg_page_div; exists (p_vaddr ph / 4096 + i); lia).
    apply Hcov, list_elem_of_fmap in Hsp as (g & Eg & Hg). rewrite Eg.
    exists (lp_paddr g). by apply (ad_after _ _ _ _ _ _ _ _ (lo_pages _ _ _ Hl)).
  - assert (∀ x, p_vaddr ph ≤ x < p_vaddr ph + p_filesz ph → page_of x ∈ lp_vaddr <$> L) as Hin
      by (intros x Hx; by apply Hcov, seg_page_byte).
    destruct Hl. split; try done.
    + intros r Hr. cbn [l_um put_um]. rewrite lookup_insert_ne by done. auto.
    + intros x. unfold uspace at 1. cbn [l_um put_um]. rewrite lookup_insert_eq. cbn [default from_option id].
      rewrite ld8_st_bytes, Hlen, lo_mem0, image_snoc by done. unfold seg_byte.
      destruct (decide (p_vaddr ph ≤ x < p_vaddr ph + p_filesz ph)) as [Hx|Hx].
      * rewrite (proj2 (Z.leb_le _ _)), (proj2 (Z.ltb_lt _ _)) by lia. rewrite !decide_True by (by apply Hin). cbn [andb default from_option id].
        rewrite Hlist, !list_lookup_total_alt, lookup_take_lt, lookup_drop by lia.
        by replace (Z.to_nat (p_offset ph + (x - p_vaddr ph))) with (Z.to_nat (p_offset ph) + Z.to_nat (x - p_vaddr ph))%nat by lia.
      * cbn [default from_option]. zcases.
    + intros ph' x [Hp| ->%list_elem_of_singleton]%elem_of_app Hx; [by apply (lo_cover0 ph')|by apply Hin].
Qed.

Lemma loaded_empty segs s L ph : loaded segs s L → p_filesz ph ≤ 0 → loaded (segs ++ [ph]) s L.
Proof.
  intros Hl Hf. pose proof Hl as Hl'. destruct Hl. split; try done.
  - intros x. rewrite lo_mem0, image_snoc. unfold seg_byte.
    destruct (decide (p_vaddr ph ≤ x < p_vaddr ph + p_filesz ph)); [lia|done].
  - intros ph' x [Hp| ->%list_elem_of_singleton]%elem_of_app Hx; [by apply (lo_cover0 ph')|lia].
Qed.

Lemma load_segment_spec segs s L ph : loaded segs s L → frugal s L → phdr_ok ph → good_segment (Z.of_nat (length data)) ph → fits ph →
  ∃ r s' L', load_segment a data s target ph = Ret (r, s') ∧ (∀ x, x ∈ lp_vaddr <$> L' → x ∈ lp_vaddr <$> L ∨ seg_page ph x) ∧
    match r with
    | None => loaded (segs ++ [ph]) s' L' ∧ (∀ x, x ∈ lp_vaddr <$> L ∨ seg_page ph x → x ∈ lp_vaddr <$> L') ∧ frugal s' L'
    | Some e => loaded segs s' L' ∧ stopped (seg_page ph) L' e
    end.
Proof.
  intros Hl Hf Hok Hg [Hreg Hroom]. pose proof Hok as (Ho & Hv & Hfs & Hms). pose proof Hg as [Hsz Hend Hu _ _ Hfile]. unfold load_segment.
  rewrite checked_add_spec, decide_True by done. set (top := p_vaddr ph + p_memsz ph) in *.
  assert (top + 4095 ≤ U64_MAX) as Htop.
  { unfold U64_MAX, USER_ADDR_LIMIT in *. destruct (decide (p_memsz ph = 0)) as [E|E]; [|specialize (Hu E); lia].
    specialize (Hreg E). apply Z.mod_divide in Hreg as [c Hc]; [|lia]. lia. }
  rewrite checked_add_spec, decide_True by done. rewrite !page_of_div.
  set (n := Z.to_nat (((top + 4095) / 4096 * 4096 - p_vaddr ph / 4096 * 4096) / 4096)).
  assert (p_vaddr ph / 4096 ≤ (top + 4095) / 4096) as Hle by (apply Z.div_le_mono; lia).
  assert (p_vaddr ph / 4096 * 4096 + 4096 * Z.of_nat n = (top + 4095) / 4096 * 4096) as Hn.
  { unfold n. rewrite <- Z.mul_sub_distr_r, Z.div_mul by lia. lia. }
  assert (∀ x, (p_vaddr ph / 4096 * 4096 ≤ x < p_vaddr ph / 4096 * 4096 + 4096 * Z.of_nat n ∧ x mod 4096 = 0) ↔ seg_page ph x) as HP.
  { intros x. unfold seg_page, page_of. rewrite !page_of_div, Hn. fold top. tauto. }
  destruct (decide (p_memsz ph = 0)) as [E|E].
  - assert (n = 0%nat) as Hn0.
    { specialize (Hreg E). unfold n, top. rewrite E, Z.add_0_r. apply Z.mod_divide in Hreg as [c ->]; [|lia].
      replace (c * 4096 + 4095) with (4095 + c * 4096) by lia. rewrite Z.div_add, !Z.div_mul by lia. change (4095 / 4096) with 0.
      by replace ((0 + c) * 4096 - c * 4096) with 0 by lia. }
    rewrite Hn0 in *. cbn [load_pages mbind outcome_bind]. rewrite Z.gtb_ltb, (proj2 (Z.ltb_ge 0 _)) by lia.
    exists None, s, L. split; [done|]. split; [by left|]. split; [by apply loaded_empty; [|lia]|]. split; [|done].
    intros x [|[? _]%HP]; [done|lia].
  - specialize (Hu E). specialize (Hfile E). unfold USER_ADDR_LIMIT, PAGING_USER_CODE_ADDR in *.
    destruct (load_pages_spec segs n s L (p_vaddr ph / 4096 * 4096) Hl Hf) as (r & s1 & L1 & -> & Hl1 & Hin & Hr).
    { by apply Z.mod_mul. }
    { apply Z.mul_nonneg_nonneg; [apply Z.div_pos; lia|lia]. }
    { rewrite Hn. assert ((top + 4095) / 4096 ≤ 2 ^ 35); [|lia]. apply (Z.le_trans _ ((2 ^ 47 + 4095) / 4096)); [apply Z.div_le_mono; lia|by vm_compute]. }
    { intros x Hx. by apply Hroom, HP. }
    assert (∀ x, x ∈ lp_vaddr <$> L1 → x ∈ lp_vaddr <$> L ∨ seg_page ph x) as Hin' by (intros x [|Hx]%Hin; [by left|right; by apply HP]).
    cbn [mbind outcome_bind]. destruct r as [e|].
    { exists (Some e), s1, L1. split; [done|]. split; [done|]. split; [done|]. destruct Hr as (v & Pv & ?). exists v. by split; [apply HP|]. }
    destruct Hr as [Hall Hf1].
    assert (∀ x, x ∈ lp_vaddr <$> L ∨ seg_page ph x → x ∈ lp_vaddr <$> L1) as Hall' by (intros x [|?%HP]; auto).
    rewrite Z.gtb_ltb. destruct (Z.ltb_spec 0 (p_filesz ph)) as [Hpos|Hz].
    2: { exists None, s1, L1. split; [done|]. split; [done|]. split; [by apply loaded_empty|done]. }
    rewrite checked_add_spec, decide_True by lia. rewrite Z.gtb_ltb, (proj2 (Z.ltb_ge _ _)) by lia. rewrite Z.min_l, take_take by lia.
    destruct (copy_step segs s1 L1 ph _ Hl1 Hok Hg Hpos (λ v Hv, Hall' v (or_intror Hv)) eq_refl) as (s2 & E2 & Hl2 & Hpg).
    rewrite Nat.min_id, E2. cbn [mbind outcome_bind]. exists None, s2, L1. split; [done|]. split; [done|]. split; [done|].
    split; [done|]. unfold frugal in *. by rewrite Hpg.
Qed.

(** ** All segments *)

Section segments.
Context (ehdr : Elf64Ehdr) (Hhdr : good_header data ehdr).

Lemma segs_page_app segs1 segs2 v : segs_page (segs1 ++ segs2) v ↔ segs_page segs1 v ∨ segs_page segs2 v.
Proof. unfold segs_page. setoid_rewrite elem_of_app. naive_solver. Qed.

Lemma segs_page_one ph v : segs_page [ph] v ↔ seg_page ph v.
Proof. unfold segs_page. setoid_rewrite list_elem_of_singleton. naive_solver. Qed.

Lemma load_segments_spec n : ∀ i segs s L, loaded segs s L → frugal s L → 0 ≤ i → i + Z.of_nat n = e_phnum ehdr →
  let rest := filter is_load (phdrs data ehdr i (Z.of_nat n)) in
  Forall (good_segment (Z.of_nat (length data))) rest → Forall fits rest → (∀ x, x ∈ lp_vaddr <$> L ↔ segs_page segs x) →
  ∃ r s' L', load_segments a data ehdr s target i n = Ret (r, s') ∧
    match r with
    | None => loaded (segs ++ rest) s' L' ∧ ∀ x, x ∈ lp_vaddr <$> L' ↔ segs_page (segs ++ rest) x
    | Some e => ∃ segs', loaded segs' s' L' ∧ (∀ x, x ∈ lp_vaddr <$> L' → segs_page (segs ++ rest) x) ∧ stopped (segs_page (segs ++ rest)) L' e
    end.
Proof.
  destruct (good_header_fields data ehdr Hbytes Hhdr) as (_ & Hoff & _).
  induction n as [|n IH]; intros i segs s L Hl Hf Hi Hn rest Hgood Hreg Hset; cbn [load_segments].
  { exists None, s, L. split; [done|]. unfold rest. cbn. by rewrite app_nil_r. }
  destruct (phdr_offset_spec data ehdr i Hhdr Hsize Hoff) as (-> & Hp0 & Hp1); [lia|].
  rewrite checked_add_spec, decide_True by lia. rewrite Z.gtb_ltb, (proj2 (Z.ltb_ge _ _)) by lia.
  destruct (phdr_at_ret data _ Hbytes Hp0 Hp1) as (ph & E & Hok). rewrite E. cbn [mbind outcome_bind].
  unfold rest in *. clear rest. rewrite (phdrs_cons data ehdr i _ ph) in * by (done || lia).
  replace (Z.of_nat (S n) - 1) with (Z.of_nat n) in * by lia. rewrite filter_cons in *.
  destruct (Z.eqb_spec (p_type ph) PT_LOAD) as [Hld|Hld]; cbn [negb];
    [rewrite decide_True in * by done|rewrite decide_False in * by done; apply (IH (i + 1) segs s L); auto; lia].
  apply Forall_cons in Hgood as [Hg Hgood], Hreg as [Hr Hreg].
  assert (∀ x, segs_page segs x ∨ seg_page ph x ↔ segs_page (segs ++ [ph]) x) as Hsp by (intros x; by rewrite segs_page_app, segs_page_one).
  assert (∀ x, segs_page segs x ∨ seg_page ph x → segs_page (segs ++ ph :: filter is_load (phdrs data ehdr (i + 1) (Z.of_nat n))) x) as Hup.
  { intros x Hx%Hsp. change (ph :: ?l) with ([ph] ++ l). rewrite app_assoc, segs_page_app. by left. }
  destruct (load_segment_spec segs s L ph Hl Hf Hok Hg Hr) as (r & s1 & L1 & -> & Hin & Hres). cbn [mbind outcome_bind].
  destruct r as [e|].
  - destruct Hres as (Hl1 & v & Hv & Hn' & Hb). exists (Some e), s1, L1. split; [done|]. exists segs. split; [done|]. split.
    + intros x Hx%Hin. apply Hup. by rewrite <- Hset.
    + exists v. split; [apply Hup; by right|done].
  - destruct Hres as (Hl1 & Hall & Hf1).
    destruct (IH (i + 1) (segs ++ [ph]) s1 L1 Hl1 Hf1 ltac:(lia) ltac:(lia) Hgood Hreg) as (r & s2 & L2 & -> & Hres2).
    { intros x. rewrite <- Hsp, <- Hset. split; [apply Hin|apply Hall]. }
    exists r, s2, L2. split; [done|]. by rewrite <- app_assoc in Hres2.
Qed.
End segments.

Lemma unload_pages_app l1 : ∀ p l2, unload_pages a p (l1 ++ l2) = p ← unload_pages a p l1; unload_pages a p l2.
Proof.
  induction l1 as [|g l1 IH]; intros p l2; cbn [app unload_pages]; [done|].
  destruct (unmap_and_free_empty a p (lp_vaddr g)) as [[[e|] p1]| | |]; try done; cbn [mbind outcome_bind]; [|by rewrite IH].
  destruct (pmm_free a p1 (entry_addr e)); try done. cbn [mbind outcome_bind]. by rewrite IH.
Qed.

Lemma unload_from_spec ar lp ch L fuel : rep ar lp ch L → ∀ k p, (length ch - k < fuel)%nat →
  unload_from a ar (ch !! k) p fuel = unload_pages a p (mjoin (used_of ar <$> drop k ch)).
Proof.
  intros R. induction fuel as [|fuel IH]; intros k p Hf; [lia|]. cbn [unload_from]. destruct (ch !! k) as [i|] eqn:Hk.
  - destruct (rep_chunk _ _ _ _ _ _ R Hk) as (_ & c & -> & Hc & _ & Hn & _). cbn [mbind outcome_bind].
    rewrite (drop_cons_lookup _ _ _ Hk). cbn [fmap list_fmap mjoin list_join]. rewrite (used_of_chunk _ _ _ Hc).
    rewrite unload_pages_app. apply lookup_lt_Some in Hk. destruct (unload_pages a p (used_pages c)); [|done..]. cbn [mbind outcome_bind].
    rewrite Hn. apply IH. lia.
  - rewrite drop_ge by (by apply lookup_ge_None). done.
Qed.

(** Rolling back. *)
Lemma rollback_spec segs s L : loaded segs s L →
  ∃ s', rollback a s target = Ret s' ∧ l_ar s' = l_ar s ∧ l_lp s' = l_lp s ∧ l_um s' = l_um s ∧
    pg_cr3 (l_pg s') = pg_cr3 p0 ∧ mapped a prot room (view p0) (view (l_pg s')) [] [].
Proof.
  intros Hl. destruct (lo_rec _ _ _ Hl) as [ch R]. destruct (unload_pages_spec a prot room _ L _ (lo_pages _ _ _ Hl)) as (q & Eq & M).
  assert (pg_cr3 q = target) as Hq by apply (mp_cr3 _ _ _ _ _ _ _ M).
  unfold rollback. rewrite (in_target_ret _ s () (put_lpg q (put_lpg (view (l_pg s)) s)) (plain _ _ _ Hl)); [|cbn [l_ar l_lp l_pg put_lpg]|done].
  - cbn [mbind outcome_bind]. eexists. split; [done|]. cbn [l_ar l_lp l_um l_pg put_lpg]. split_and!; try done.
    + apply (lo_cr3 _ _ _ Hl).
    + by rewrite view_back.
  - rewrite (rp_head _ _ _ _ R). replace (list.head ch) with (ch !! 0%nat) by (by destruct ch).
    pose proof (chain_length _ _ _ _ R). rewrite (unload_from_spec _ _ _ _ _ R) by (unfold CHAIN; lia).
    cbn [drop]. rewrite drop_0, <- (rp_data _ _ _ _ R), Eq. done.
Qed.

(** ** The whole load *)

(** What a load promises. *)
Definition load_result (ar : arena) (r : Z + ElfError) (p' : pg) (um' : gmap Z mem) : Prop :=
  pg_cr3 p' = pg_cr3 p0 ∧ (∀ t, t ≠ target → um' !! t = um0 !! t) ∧
  match r with
  | inl entry => ∃ ehdr L, good_elf data ehdr ∧ entry = e_entry ehdr ∧ mapped a prot room (view p0) (view p') [] L ∧ kept a (view p0) (view p') ∧
      (∀ v, v ∈ lp_vaddr <$> L ↔ segs_page (segments data ehdr) v) ∧
      ∀ x, ld8 (uspace um') x =
        if decide (page_of x ∈ lp_vaddr <$> L) then image data (segments data ehdr) x else ld8 (uspace um0) x
  | inr e => mapped a prot room (view p0) (view p') [] [] ∧
      ((∀ ehdr, ¬ good_elf data ehdr) ∨
       ∃ ehdr L, good_elf data ehdr ∧ NoDup (lp_vaddr <$> L) ∧
         (∀ v, v ∈ lp_vaddr <$> L → segs_page (segments data ehdr) v) ∧ stopped (segs_page (segments data ehdr)) L e)
  end.

Lemma load_ret ar : idle ar → pt_inv a (view p0) →
  (∀ k, 0 ≤ k < total_pages a → prot (page_addr a k) → used (pg_bm p0) k = true) →
  (∀ v, room v → guard a prot (path_of v) (view p0)) →
  (∀ ehdr ph, good_elf data ehdr → ph ∈ segments data ehdr → fits ph) →
  ∃ r p' um' ar', load_with_injection a data p0 um0 ar target inj0 = Ret (r, p', um', ar') ∧ idle ar' ∧ load_result ar r p' um'.
Proof.
  intros Hidle Hi Hhold Hguard Hreg. unfold load_with_injection, load_traced. destruct (validate_ret data Hbytes Hsize) as (v & -> & Hv). cbn [mbind outcome_bind].
  destruct v as [ehdr|e].
  2: { exists (inr e), p0, um0, ar. split; [done|]. split; [done|]. split; [done|]. split; [done|]. split; [by apply mapped_nil|left].
       by intros ehdr Hg%Hv. }
  pose proof (proj1 (Hv ehdr) eq_refl) as Hg. destruct (good_header_fields data ehdr Hbytes (ge_header _ _ Hg)) as (_ & _ & Hn).
  set (s0 := mkLoader p0 um0 ar LoadedPages_new inj0).
  assert (loaded [] s0 []) as Hl0.
  { split; try done; [by exists []|by apply mapped_nil|by intros j|by intros ph x ?%not_elem_of_nil]. }
  destruct (load_segments_spec ehdr (ge_header _ _ Hg) (Z.to_nat (e_phnum ehdr)) 0 [] s0 [] Hl0) as (r & s1 & L & -> & Hr); try lia.
  { unfold frugal. cbn. lia. }
  { rewrite Z2Nat.id by lia. apply Hg. }
  { rewrite Z2Nat.id by lia. apply Forall_forall. intros ph. by apply Hreg. }
  { intros x. split; [by intros ?%not_elem_of_nil|]. by intros (ph & ?%not_elem_of_nil & _). }
  rewrite Z2Nat.id in Hr by lia. cbn [app] in Hr. fold (segments data ehdr) in Hr. cbn [mbind outcome_bind]. destruct r as [e|].
  - destruct Hr as (segs' & Hl & Hin & Hst). destruct (rollback_spec segs' s1 L Hl) as (s2 & E2 & Ha & Hlp & Hum & Hc & M).
    unfold rollback_error. rewrite E2. cbn [mbind outcome_bind]. destruct (lo_rec _ _ _ Hl) as [ch R]. rewrite Ha, Hlp.
    destruct (release_metadata_spec _ _ _ _ R) as (ar' & -> & Hid). cbn [mbind outcome_bind].
    eexists _, _, _, ar'. split; [done|]. split; [done|]. split; [done|]. split; [rewrite Hum; apply (lo_um _ _ _ Hl)|].
    split; [done|right]. exists ehdr, L. split; [done|]. split; [apply (mp_vaddrs _ _ _ _ _ _ _ (lo_pages _ _ _ Hl))|done].
  - destruct Hr as [Hl Hset]. cbn [mbind outcome_bind]. destruct (lo_rec _ _ _ Hl) as [ch R].
    destruct (release_metadata_spec _ _ _ _ R) as (ar' & -> & Hid). cbn [mbind outcome_bind].
    eexists _, _, _, ar'. split; [done|]. split; [done|]. split; [apply (lo_cr3 _ _ _ Hl)|]. split; [apply (lo_um _ _ _ Hl)|].
    exists ehdr, L. split; [done|]. split; [done|]. split; [apply (lo_pages _ _ _ Hl)|]. split; [apply (lo_kept _ _ _ Hl)|]. split; [done|]. apply (lo_mem _ _ _ Hl).
Qed.
End load.

(** Without pages to protect, segments may lie anywhere. *)
Lemma load_anywhere a data p um ar target inj : Forall is_byte data → Z.of_nat (length data) ≤ U64_MAX → page_ok target →
  read_cr3 p = pg_cr3 p → pt_inv a (set_cr3 target p) → idle ar →
  (∀ ehdr ph, good_elf data ehdr → ph ∈ segments data ehdr → regular ph) →
  ∃ r p' um' ar', load_with_injection a data p um ar target inj = Ret (r, p', um', ar') ∧ idle ar' ∧
    load_result a target p um data inj (λ _, False) (λ _, True) ar r p' um'.
Proof.
  intros Hbytes Hsize Htgt Hcr3 Hi Har Hreg. apply load_ret; try done.
  - intros v _. by split; [|intros path t _ _ []].
  - intros ehdr ph Hg Hp. split; [by eapply Hreg|done].
Qed.

(** C3: Loading an ELF file into the address space [target].  The load always returns, without a fault
    and without leaving a page record behind, restores [cr3], and touches no other address
    space's memory.  When it succeeds the file was in order, the entry point is the file's, and exactly the
    pages of the segments have been mapped, on distinct frames that were free before; in those
    pages memory holds the bytes of the file, later segments over earlier ones, and zeros
    elsewhere.  When it fails, with an error injected or not, every address translates as before,
    the tables are well-formed, a page that is in use now was in use before or holds a table of
    the address space, and a page that was in use without being a table still is. *)
Theorem load_spec (a : PmmAllocator) (data : list Z) (p : pg) (um : gmap Z mem) (ar : arena) (target : Z) (inj : LoadFailureInjection)
  (Hbytes : Forall is_byte data) (Hsize : Z.of_nat (length data) ≤ U64_MAX) (Htgt : page_ok target)
  (Hcr3 : read_cr3 p = pg_cr3 p) (Hi : pt_inv a (set_cr3 target p)) (Har : idle ar)
  (Hreg : ∀ ehdr ph, good_elf data ehdr → ph ∈ segments data ehdr → regular ph) :
  ∃ r p' um' ar', load_with_injection a data p um ar target inj = Ret (r, p', um', ar') ∧ idle ar' ∧
    pg_cr3 p' = pg_cr3 p ∧ pt_inv a (set_cr3 target p') ∧ (∀ t, t ≠ target → um' !! t = um !! t) ∧
    let before := translate (set_cr3 target p) in
    let after := translate (set_cr3 target p') in
    match r with
    | inl entry => ∃ ehdr, good_elf data ehdr ∧ entry = e_entry ehdr ∧
        let P := segs_page (segments data ehdr) in
        (∀ v, P v → before v = None ∧ ∃ j, 0 ≤ j < total_pages a ∧ after v = Some (page_addr a j) ∧
           used (pg_bm p) j = false ∧ used (pg_bm p') j = true) ∧
        (∀ v v', P v → P v' → after v = after v' → v = v') ∧
        (∀ v, (∀ v', P v' → indices v ≠ indices v') → after v = before v) ∧
        (∀ x, P (page_of x) → ld8 (uspace target um') x = image data (segments data ehdr) x) ∧
        (∀ x, ¬ P (page_of x) → ld8 (uspace target um') x = ld8 (uspace target um) x)
    | inr e => (∀ v, after v = before v) ∧
        (∀ j, 0 ≤ j < total_pages a → used (pg_bm p') j = true →
           used (pg_bm p) j = true ∨ tbl (set_cr3 target p') (page_addr a j)) ∧
        (∀ j, 0 ≤ j < total_pages a → used (pg_bm p) j = true → ¬ tbl (set_cr3 target p) (page_addr a j) →
           used (pg_bm p') j = true)
    end.
Proof.
  destruct (load_anywhere a data p um ar target inj Hbytes Hsize Htgt Hcr3 Hi Har Hreg) as (r & p' & um' & ar' & E & Hid & Hc & Hum & Hr).
  exists r, p', um', ar'. split; [done|]. split; [done|]. split; [done|]. destruct r as [entry|e].
  - destruct Hr as (ehdr & L & Hg & He & M & _ & HP & Hmem). split; [apply (mp_inv _ _ _ _ _ _ _ M)|]. split; [done|].
    exists ehdr. split; [done|]. split; [done|]. cbv zeta. split_and!.
    + intros v (g & -> & Hg')%HP%list_elem_of_fmap. destruct (mp_pages _ _ _ _ _ _ _ M g Hg') as [_ _ Hb _ _]. pose proof (ad_after _ _ _ _ _ _ _ g M Hg') as Ha. split; [done|].
      destruct (mp_owned _ _ _ _ _ _ _ M (lp_paddr g)) as (j & Hj & Ej & Hf & Hu & _); [apply list_elem_of_fmap; by exists g|].
      exists j. rewrite <- Ej. done.
    + intros v v' (g & -> & Hg')%HP%list_elem_of_fmap (g' & -> & Hg'')%HP%list_elem_of_fmap.
      pose proof (ad_after _ _ _ _ _ _ _ g M Hg') as Ha. pose proof (ad_after _ _ _ _ _ _ _ g' M Hg'') as Ha'.
      unfold view in Ha, Ha'. rewrite Ha, Ha'. intros [= Hp]. pose proof (mp_frames _ _ _ _ _ _ _ M) as Hd. cbn [app] in Hd.
      apply list_elem_of_lookup in Hg' as [i Hg'], Hg'' as [i' Hg''].
      assert (i = i') as ->; [|by rewrite Hg' in Hg''; injection Hg'' as ->].
      eapply (NoDup_lookup (lp_paddr <$> L)); [done|by rewrite list_lookup_fmap, Hg'|by rewrite list_lookup_fmap, Hg''; cbn; rewrite Hp].
    + intros v Hv. apply (mp_other _ _ _ _ _ _ _ _ M). intros g Hg'. apply Hv, HP. apply list_elem_of_fmap. by exists g.
    + intros x Hx. rewrite Hmem, decide_True; [done|]. by apply HP.
    + intros x Hx. rewrite Hmem, decide_False; [done|]. by rewrite HP.
  - destruct Hr as [M _]. split; [apply (mp_inv _ _ _ _ _ _ _ M)|]. split; [done|]. cbv zeta. split_and!.
    + intros v. apply (mp_other _ _ _ _ _ _ _ _ M). by intros g ?%not_elem_of_nil.
    + intros j Hj Hu. destruct (mp_new _ _ _ _ _ _ _ M j Hj Hu) as [|[|?%not_elem_of_nil]]; [by left|by right|done].
    + intros j Hj Hu Hn. by destruct (mp_old _ _ _ _ _ _ _ M j Hj Hu Hn).
Qed.

Lemma seg_page_range data ehdr ph v : good_elf data ehdr → ph ∈ segments data ehdr → regular ph → seg_page ph v →
  overlaps_kernel_scratch v (sat_add v 4096) = false.
Proof.
  intros Hg Hph Hreg Hv. pose proof (ge_segments _ _ Hg) as Hall. rewrite Forall_forall in Hall. destruct (Hall ph Hph) as [_ _ _ Hs _ _].
  apply seg_page_div in Hv as (q & -> & Hq). unfold overlaps_kernel_scratch, sat_add.
  destruct (decide (p_memsz ph = 0)) as [E|E].
  { exfalso. specialize (Hreg E). rewrite E, Z.add_0_r in Hq. apply Z.mod_divide in Hreg as [c Hc]; [|lia]. rewrite Hc in Hq.
    replace (c * 4096 + 4095) with (4095 + c * 4096) in Hq by lia. rewrite Z.div_add, Z.div_mul in Hq by lia. change (4095 / 4096) with 0 in Hq. lia. }
  pose proof (Z.div_mod (p_vaddr ph) 4096). pose proof (Z.mod_pos_bound (p_vaddr ph) 4096).
  pose proof (Z.div_mod (p_vaddr ph + p_memsz ph + 4095) 4096). pose proof (Z.mod_pos_bound (p_vaddr ph + p_memsz ph + 4095) 4096).
  unfold apart, KERNEL_SCRATCH_VA in *. destruct (Hs E).
  - apply andb_false_iff. right. apply Z.ltb_ge. lia.
  - apply andb_false_iff. left. apply Z.ltb_ge. lia.
Qed.

(** C36: A load of a file that is in order succeeds when none of the pages of its segments is mapped, they
    are at most 4096, and four free pages are left for each of them. *)
Theorem load_completes (a : PmmAllocator) (data : list Z) (p : pg) (um : gmap Z mem) (ar : arena) (target : Z) (ehdr : Elf64Ehdr) (pages : list Z)
  (Hbytes : Forall is_byte data) (Hsize : Z.of_nat (length data) ≤ U64_MAX) (Htgt : page_ok target)
  (Hcr3 : read_cr3 p = pg_cr3 p) (Hi : pt_inv a (set_cr3 target p)) (Har : idle ar)
  (Hgood : good_elf data ehdr) (Hreg : ∀ ph, ph ∈ segments data ehdr → regular ph)
  (Hpages : ∀ v, segs_page (segments data ehdr) v → v ∈ pages ∧ translate (set_cr3 target p) v = None)
  (Hcap : Z.of_nat (length pages) ≤ 4096) (Hfree : 4 * Z.of_nat (length pages) < free_count a (pg_bm p)) :
  ∃ p' um' ar', load a data p um ar target = Ret (inl (e_entry ehdr), p', um', ar').
Proof.
  assert (∀ ehdr', good_elf data ehdr' → ehdr' = ehdr) as Huniq.
  { intros ehdr' Hg'. pose proof (gh_fields _ _ (ge_header _ _ Hg')) as E. rewrite (gh_fields _ _ (ge_header _ _ Hgood)) in E. by injection E. }
  assert (∀ ehdr' ph, good_elf data ehdr' → ph ∈ segments data ehdr' → regular ph) as Hreg'.
  { intros ehdr' ph Hg'. rewrite (Huniq _ Hg'). apply Hreg. }
  unfold load. destruct (load_anywhere a data p um ar target disabled Hbytes Hsize Htgt Hcr3 Hi Har Hreg') as (r & p' & um' & ar' & -> & _ & _ & _ & Hr).
  exists p', um', ar'. destruct r as [entry|e].
  - destruct Hr as (ehdr' & L & Hg' & -> & _). by rewrite (Huniq _ Hg').
  - exfalso. destruct Hr as [_ [Hno|(ehdr' & L & Hg' & Hd & Hin & v & Hv & Hn & Hb)]]; [by apply (Hno ehdr)|].
    rewrite (Huniq _ Hg') in *.
    assert (Z.of_nat (length L) + 1 ≤ Z.of_nat (length pages)) as Hlen.
    { assert (length (v :: (lp_vaddr <$> L)) ≤ length pages)%nat as Hx; [|cbn in Hx; rewrite length_fmap in Hx; lia].
      apply submseteq_length, NoDup_submseteq; [by apply NoDup_cons|]. intros x [->|Hx]%elem_of_cons; apply Hpages; [done|by apply Hin]. }
    destruct (Hpages v Hv) as [_ Hnone]. destruct Hv as (ph & Hph & Hv). unfold blocked in Hb. destruct e; try done.
    + change (view target p) with (set_cr3 target p) in Hb. rewrite Hnone in Hb. by destruct Hb.
    + destruct Hb as [[]|[Hsc|Hc]]; [done| |lia]. rewrite (seg_page_range data ehdr ph v) in Hsc; auto. done.
    + destruct Hb as [[]|]; [done|lia].
Qed.

(** ** Examples *)

Lemma demo_root_inv r : page_ok r → r < 1048576 → pt_inv demo_handle (set_cr3 r demo_space).
Proof.
  intros Hr Hlt. assert (read_cr3 (set_cr3 r demo_space) = r) as E by (apply entry_addr_target; exact Hr).
  split; try apply demo_space_inv; rewrite E; [by apply tree_empty|].
  intros path t _ Hw k Hk ->. exfalso.
  assert (page_addr demo_handle k = r) as He; [|unfold page_addr, demo_handle, PMM_PAGE_SIZE in *; cbn in *; lia].
  revert Hw. generalize (page_addr demo_handle k). intros t Hw. destruct path as [|j path] using rev_ind; [by injection Hw|].
  rewrite walk_snoc in Hw. by destruct (walk _ _ path).
Qed.

Definition tiny_ehdr : Elf64Ehdr :=
  mkEhdr [127; 69; 76; 70; 2; 1; 1; 0; 0; 0; 0; 0; 0; 0; 0; 0] 2 62 33554434 64 56 1.
Definition tiny_phdr : Elf64Phdr := mkPhdr 1 5 120 33554432 4 4096.

Lemma tiny_bytes : Forall is_byte tiny_elf.
Proof. vm_compute. repeat (constructor; [split; [discriminate|reflexivity]|]). constructor. Qed.

Lemma tiny_good : good_elf tiny_elf tiny_ehdr.
Proof.
  destruct (validate_ret tiny_elf tiny_bytes) as (r & E & Hr); [by vm_compute|].
  assert (validate tiny_elf = Ret (inl tiny_ehdr)) as E' by (vm_compute; reflexivity). rewrite E' in E. injection E as <-. by apply Hr.
Qed.

Lemma tiny_regular ehdr ph : good_elf tiny_elf ehdr → ph ∈ segments tiny_elf ehdr → ph = tiny_phdr.
Proof.
  intros Hg. pose proof (gh_fields _ _ (ge_header _ _ Hg)) as E. rewrite (gh_fields _ _ (ge_header _ _ tiny_good)) in E. injection E as <-.
  assert (segments tiny_elf tiny_ehdr = [tiny_phdr]) as -> by (vm_compute; reflexivity). by intros ->%list_elem_of_singleton.
Qed.

Lemma load_spec_witness : ∃ r p' um' ar',
  load_with_injection demo_handle tiny_elf demo_space ∅ arena_init 8192 disabled = Ret (r, p', um', ar') ∧ idle ar' ∧
  pt_inv demo_handle (set_cr3 8192 p').
Proof.
  destruct (load_spec demo_handle tiny_elf demo_space ∅ arena_init 8192 disabled) as (r & p' & um' & ar' & E & Hid & _ & Hi & _).
  - apply tiny_bytes.
  - vm_compute. discriminate.
  - split; [reflexivity|lia].
  - vm_compute. reflexivity.
  - apply demo_root_inv; [split; [reflexivity|lia]|lia].
  - apply arena_init_idle.
  - intros ehdr ph Hg Hp. rewrite (tiny_regular ehdr ph Hg Hp). intros Hz. vm_compute in Hz. discriminate.
  - exists r, p', um', ar'. split; [exact E|]. split; [exact Hid|exact Hi].
Defined.

Lemma load_completes_witness : ∃ p' um' ar',
  load demo_handle tiny_elf demo_space ∅ arena_init 8192 = Ret (inl 33554434, p', um', ar').
Proof.
  apply (load_completes demo_handle tiny_elf demo_space ∅ arena_init 8192 tiny_ehdr [33554432]).
  - apply tiny_bytes.
  - vm_compute. discriminate.
  - split; [reflexivity|lia].
  - vm_compute. reflexivity.
  - apply demo_root_inv; [split; [reflexivity|lia]|lia].
  - apply arena_init_idle.
  - apply tiny_good.
  - intros ph Hp. rewrite (tiny_regular tiny_ehdr ph tiny_good Hp). intros Hz. vm_compute in Hz. discriminate.
  - intros v (ph & Hp & Hv). rewrite (tiny_regular tiny_ehdr ph tiny_good Hp) in Hv.
    apply seg_page_div in Hv as (q & -> & Hq). change (8192 ≤ q < 8193) in Hq.
    assert (q = 8192) as -> by lia. split; [apply list_elem_of_here|vm_compute; reflexivity].
  - cbn. lia.
  - vm_compute. reflexivity.
Defined.

(** ** Observations *)

(** A file with an empty segment at an address that is not page-aligned: it passes the checks,
    which skip empty segments, but the loader maps the page of the address.  Here the address is
    not even canonical, and clearing the page faults in the kernel. *)
Definition stray_elf : list Z :=
  elf_file 33554434 [phdr_bytes PT_LOAD 5 176 33554432 4 4096; phdr_bytes PT_LOAD 4 0 (2 ^ 47 + 1) 0 0] [144; 144; 235; 254].

Theorem empty_segment_faults :
  (∃ ehdr, validate stray_elf = Ret (inl ehdr)) ∧ load demo_handle stray_elf demo_space ∅ arena_init 8192 = Panic.
Proof. split; [eexists; vm_compute; reflexivity|vm_compute; reflexivity]. Qed.

(** The lowest page the loader maps for the stack lies above [ELF_STACK_LOW], the limit it reports. *)
Theorem stack_low_not_mapped : ELF_STACK_TOP_PAGE - (ELF_STACK_PAGES - 1) * 4096 = ELF_STACK_LOW + 4096.
Proof. reflexivity. Qed.
