(* ===== verification/ExecPages.v ===== *)
(** * Building a program as a transaction

    Between the creation of a root and its publication the pages of the program are
    mapped one by one.  At every point the active address space is untouched, and giving the
    new root back leaves the memory manager as it was at the start. *)

From Stdlib Require Import ZArith Lia.
From stdpp Require Import base numbers list list_numbers option gmap.
From S2P Require Import Prelude Pmm Memory Kmm Heap VfsTypes OpenFiles Names Paging PageMaps PageSpec PageFree PageNew Tty Process Kernel MemCalls MemSpec UserMem Arena Elf ElfPages ElfSpec.

Local Open Scope Z_scope.

Section tx.
Context (a : PmmAllocator) (p : pg) (Hi : pt_inv a p) (Hplain : read_cr3 p = pg_cr3 p).

(** The pages that must not be touched: all that were in use. *)
Definition prot (t : Z) : Prop := not_free a (pg_bm p) t.

(** A root that has just been created. *)
Record born (h : Pml4Handle) (p1 : pg) : Prop := {
  bn_owns : owns_user_leaves h = true;
  bn_phys : page_ok (phys h);
  bn_cr3 : pg_cr3 p1 = pg_cr3 p;
  bn_inv : pt_inv a (set_cr3 (phys h) p1);
  bn_room : ∀ v, 0 ≤ v < 2 ^ 48 → translate (set_cr3 (phys h) p1) v =
    if (PAGING_USER_CODE_ADDR <=? v) && (v <? 2 ^ 39) then None else translate p v;
  bn_mem : ∀ t i, page_ok t → prot t → 0 ≤ i < 512 → ld64 (pg_mem p1) (slot t i) = ld64 (pg_mem p) (slot t i);
  bn_owned : ∀ x, owned (pg_mem p1) h x → ∃ j, 0 ≤ j < total_pages a ∧ x = page_addr a j ∧ used (pg_bm p) j = false;
  bn_used : ∀ j, in_range j → used (pg_bm p1) j = true ↔ used (pg_bm p) j = true ∨ owned (pg_mem p1) h (page_addr a j);
  bn_tbl : ∀ x, owned (pg_mem p1) h x → tbl (set_cr3 (phys h) p1) x;
  bn_guard : ∀ v, room v → guard a prot (path_of v) (set_cr3 (phys h) p1);
  bn_off : ∀ path t, ok_path path → walk (pg_mem p1) (phys h) path = Some t →
    prot t ∨ ∃ v, room v ∧ path `prefix_of` path_of v
}.

Lemma create_born (Hlow : has (ld64 (pg_mem p) (slot (read_cr3 p) 0)) PAGE_PRESENT = true) :
  ∃ o p1, create_pml4 a p false = Ret (o, p1) ∧
    match o with
    | None => pg_cr3 p1 = pg_cr3 p ∧ pt_inv a p1 ∧ (∀ v, translate p1 v = translate p v) ∧
        (∀ j, 0 ≤ j < total_pages a → used (pg_bm p1) j = used (pg_bm p) j) ∧
        ∀ t i, page_ok t → prot t → 0 ≤ i < 512 → ld64 (pg_mem p1) (slot t i) = ld64 (pg_mem p) (slot t i)
    | Some h => born h p1
    end.
Proof using Hi.
  destruct (create_new_ok a p Hi Hlow) as (o & p1 & -> & Hc & Hi1 & Ht & Hm & Hr). exists o, p1. split; [done|].
  pose proof (pi_pmm _ _ Hi) as (Htp & _).
  destruct o as [h|]; [|split_and!; try done; intros j Hj; apply Hr; unfold in_range; lia].
  destruct Hr as (? & ? & ? & ? & ? & ? & ? & ? & ?). by split.
Qed.

Context (h : Pml4Handle) (p1 : pg) (B : born h p1).
Abbreviation view q := (set_cr3 (phys h) q).

(** The state [q] of the transaction: pages [L] mapped, frames [X] taken. *)
Definition tx (q : pg) (X : list Z) (L : list LoadedPage) : Prop :=
  mapped a prot room (view p1) (view q) X L ∧ kept a (view p1) (view q) ∧ pg_cr3 q = pg_cr3 p.

Lemma prot_used k : 0 ≤ k < total_pages a → prot (page_addr a k) ↔ used (pg_bm p) k = true.
Proof. intros Hk. split; [intros H; by apply H|]. intros Hu j Hj E. by apply page_addr_inj in E as <-. Qed.

Lemma held k : 0 ≤ k < total_pages a → prot (page_addr a k) → used (pg_bm p1) k = true.
Proof using Hi B.
  intros Hk Hp. pose proof (pi_pmm _ _ Hi) as (Htp & _). apply (bn_used _ _ B); [unfold in_range; lia|left]. by apply prot_used.
Qed.

Lemma tx_start : tx p1 [] [].
Proof using Hi B.
  split; [|split; [by intros j|apply B]]. apply mapped_nil; [apply B|apply held|apply (bn_guard _ _ B)].
Qed.

Lemma first_room : room PAGING_USER_CODE_ADDR.
Proof. unfold room, PAGING_USER_CODE_ADDR. lia. Qed.

Lemma view_root : read_cr3 (view p1) = phys h.
Proof using B. unfold read_cr3. cbn. rewrite <- (Z.lor_0_r (phys h)) at 1. apply entry_addr_page; [apply B|]. intros. apply Z.bits_0. Qed.

(** ** The active address space *)

Lemma mapped_active q X L : mapped a prot room (view p1) (view q) X L → pg_cr3 q = pg_cr3 p →
  pt_inv a q ∧ (∀ v, translate q v = translate p v) ∧ ∀ j, 0 ≤ j < total_pages a → used (pg_bm p) j = true → used (pg_bm q) j = true.
Proof using Hi B.
  intros M Hc. assert (∀ j, 0 ≤ j < total_pages a → used (pg_bm p) j = true → used (pg_bm q) j = true) as Hu.
  { intros j Hj Hu. apply (gd_hold _ _ _ _ (mp_guard _ _ _ _ _ _ _ M _ first_room) j Hj). by apply prot_used. }
  destruct (active_same a p Hi q) as [Hi' Ht]; [done|apply (mp_inv _ _ _ _ _ _ _ M)|done| |done].
  intros t i Ht Hn Hir. pose proof (mp_mem _ _ _ _ _ _ _ M t i Ht Hn Hir) as E. cbn in E. rewrite E. by apply (bn_mem _ _ B).
Qed.

(** ** Giving the root back *)

(** A table on the way to a user page belongs to the root. *)
Lemma room_owned q v path t : tree (pg_mem q) (phys h) → room v → path `prefix_of` path_of v →
  walk (pg_mem q) (phys h) path = Some t → owned (pg_mem q) h t.
Proof.
  intros Ht Hv Hp Hw. destruct (room_index v Hv) as [H0 Hb]. unfold path_of in Hp. rewrite H0 in Hp.
  pose proof (index_at_range v 30). pose proof (index_at_range v 21).
  assert (∀ t' i x, next (pg_mem q) t' i = Some x → has (ld64 (pg_mem q) (slot t' i)) PAGE_PRESENT = true ∧
    has (ld64 (pg_mem q) (slot t' i)) PAGE_HUGE = false ∧ entry_addr (ld64 (pg_mem q) (slot t' i)) = x) as Hn.
  { intros t' i x. unfold next, link. destruct (has _ PAGE_PRESENT); [|done]. destruct (has _ PAGE_HUGE); [done|]. by intros [= <-]. }
  unfold owned. destruct Hp as [k Hk]. destruct path as [|x [|y [|z path]]].
  - injection Hw as <-. by left.
  - injection Hk as <- Hk. destruct (Hn _ _ _ Hw) as (P0 & _ & E0). right. split; [done|]. by left.
  - injection Hk as <- <- Hk. change [0; index_at v 30] with ([0] ++ [index_at v 30]) in Hw. rewrite walk_snoc in Hw.
    destruct (walk _ _ [0]) as [pdpt|] eqn:W1; [|done]. cbn [mbind option_bind] in Hw.
    destruct (Hn _ _ _ W1) as (P0 & _ & E0). destruct (Hn _ _ _ Hw) as (P1 & G1 & E1). right. split; [done|]. right.
    exists (index_at v 30). split; [done|]. unfold owns_pdpte. rewrite E0. split; [done|]. split; [done|]. by left.
  - injection Hk as <- <- <- Hk. destruct path; [|done]. rewrite walk3 in Hw.
    destruct (walk _ _ [0; index_at v 30]) as [pd|] eqn:W2; [|done]. cbn [mbind option_bind] in Hw.
    change [0; index_at v 30] with ([0] ++ [index_at v 30]) in W2. rewrite walk_snoc in W2.
    destruct (walk _ _ [0]) as [pdpt|] eqn:W1; [|done]. cbn [mbind option_bind] in W2.
    destruct (Hn _ _ _ W1) as (P0 & _ & E0). destruct (Hn _ _ _ W2) as (P1 & G1 & E1). destruct (Hn _ _ _ Hw) as (P2 & G2 & E2).
    right. split; [done|]. right. exists (index_at v 30). split; [done|]. unfold owns_pdpte. rewrite E0. split; [done|]. split; [done|].
    right. exists (index_at v 21). split; [done|]. unfold owns_pde. rewrite E1. split; [done|]. split; [done|]. rewrite G2. by left.
Qed.

Lemma indices_of i j k : 0 ≤ i < 512 → 0 ≤ j < 512 → 0 ≤ k < 512 →
  indices (i * 2 ^ 30 + j * 2 ^ 21 + k * 2 ^ 12) = (0, i, j, k).
Proof.
  intros Hir Hj Hk. set (v := i * 2 ^ 30 + j * 2 ^ 21 + k * 2 ^ 12). unfold indices, index_at. change 511 with (Z.ones 9).
  rewrite !Z.land_ones, !Z.shiftr_div_pow2 by lia. change (2 ^ 9) with 512.
  assert (v / 2 ^ 39 = 0) as -> by (apply Z.div_small; unfold v; lia).
  assert (v / 2 ^ 30 = i) as -> by (symmetry; apply (Z.div_unique _ _ _ (j * 2 ^ 21 + k * 2 ^ 12)); unfold v; lia).
  assert (v / 2 ^ 21 = i * 512 + j) as -> by (symmetry; apply (Z.div_unique _ _ _ (k * 2 ^ 12)); unfold v; lia).
  assert (v / 2 ^ 12 = (i * 512 + j) * 512 + k) as -> by (symmetry; apply (Z.div_unique _ _ _ 0); unfold v; lia).
  assert (∀ x y, 0 ≤ y < 512 → (x * 512 + y) mod 512 = y) as Hm.
  { intros x y Hy. rewrite Z.add_comm, Z.mod_add by lia. by apply Z.mod_small. }
  rewrite !Hm, (Z.mod_small i), (Z.mod_small 0) by lia. done.
Qed.

(** Where the transaction has mapped nothing, a user address leads nowhere. *)
Lemma leaf_only q L v y : mapped a prot room (view p1) (view q) [] L → room v → leaf (view q) v = Some y →
  ∃ g, g ∈ L ∧ indices v = indices (lp_vaddr g).
Proof using B.
  intros M Hv Hl. destruct (decide (Exists (λ g, indices v = indices (lp_vaddr g)) L)) as [He|Hn]; [by apply Exists_exists in He as (g & ? & ?); exists g|].
  exfalso. rewrite (mp_leaf _ _ _ _ _ _ _ M) in Hl by (intros g Hg E; apply Hn, Exists_exists; by exists g).
  assert (translate (view p1) v = None) as Ht.
  { rewrite (bn_room _ _ B) by (unfold room, PAGING_USER_CODE_ADDR in Hv; lia). destruct Hv. by rewrite (proj2 (Z.leb_le _ _)), (proj2 (Z.ltb_lt _ _)). }
  apply (leaf_none a) in Ht; [congruence|apply B].
Qed.

Lemma root_of q X L : mapped a prot room (view p1) (view q) X L → read_cr3 (view q) = phys h.
Proof using B. intros _. apply view_root. Qed.

Lemma page_owned q L g : mapped a prot room (view p1) (view q) [] L → g ∈ L → owned (pg_mem q) h (lp_paddr g).
Proof using B.
  intros M Hg. destruct (mp_pages _ _ _ _ _ _ _ M g Hg) as [[Hal Hr] Hv _ Hl _]. pose proof (mp_inv _ _ _ _ _ _ _ M) as Hiv.
  pose proof (root_of _ _ _ M) as Er. set (v := lp_vaddr g) in *. unfold leaf in Hl. rewrite Er in Hl. cbn [indices xlate] in Hl.
  destruct (walk (pg_mem (view q)) (phys h) [index_at v 39; index_at v 30; index_at v 21]) as [l1|] eqn:W3.
  2: { destruct (walk (pg_mem (view q)) (phys h) [index_at v 39; index_at v 30]); [|done]. cbn [mbind option_bind] in Hl. by destruct (_ && _). }
  rewrite <- Er in W3. destruct (unmap_walk a (view q) v l1 Hiv W3) as (l3 & l2 & W1 & W2 & P4 & E4 & P3 & E3 & P2 & G2 & E2).
  pose proof (index_at_range v 39) as R4. pose proof (index_at_range v 30) as R3. pose proof (index_at_range v 21) as R2. pose proof (index_at_range v 12) as R1.
  pose proof (tr_nohuge _ _ (pi_tree _ _ Hiv) [index_at v 39] l3 _ (ok2 _ _ R4 R3) ltac:(cbn; lia) W1 P3) as G3.
  rewrite Er in *. destruct (room_index v Hv) as [H0 Hb]. rewrite H0 in *. unfold pg_ld in *. cbn [pg_mem set_cr3] in *.
  destruct (has (ld64 (pg_mem q) (slot l1 (index_at v 12))) PAGE_PRESENT) eqn:P1; [|done]. injection Hl as Hp Hu.
  rewrite lor_page in Hp by (done || apply entry_addr_ok).
  right. split; [done|]. right. exists (index_at v 30). split; [done|]. unfold owns_pdpte. rewrite E4. split; [done|]. split; [done|].
  right. exists (index_at v 21). split; [done|]. unfold owns_pde. rewrite E3. split; [done|]. split; [done|]. rewrite G2, E2. right.
  exists (index_at v 12). split; [done|]. unfold owns_leaf. rewrite (bn_owns _ _ B), P1, Hu. done.
Qed.

Lemma owned_cases q L x : mapped a prot room (view p1) (view q) [] L → owned (pg_mem q) h x →
  (∃ v path, room v ∧ path `prefix_of` path_of v ∧ walk (pg_mem q) (phys h) path = Some x) ∨ ∃ g, g ∈ L ∧ x = lp_paddr g.
Proof using B.
  intros M Hx. pose proof (mp_inv _ _ _ _ _ _ _ M) as Hiv. pose proof (root_of _ _ _ M) as Er.
  pose proof (pi_tree _ _ Hiv) as Htr. rewrite Er in Htr. cbn [pg_mem set_cr3] in Htr.
  assert (∀ i j, 0 ≤ i < 512 → 0 ≤ j < 512 → PAGING_USER_CODE_ADDR ≤ vbase i j → room (vbase i j) ∧ path_of (vbase i j) = [0; i; j]) as Hpath.
  { intros i j Hir Hj Hv. rewrite vbase_eq in * by done. unfold room, path_of. destruct (index_of i j Hir Hj) as (-> & -> & ->). split; [lia|done]. }
  assert (∀ i, 0 ≤ i < 512 → ∃ v, room v ∧ [0; i] `prefix_of` path_of v) as Hdir.
  { intros i Hir. exists (vbase i 511). destruct (Hpath i 511) as [Hv ->]; [done|lia| |].
    - rewrite vbase_eq by lia. change PAGING_USER_CODE_ADDR with (16 * 2 ^ 21). lia.
    - split; [done|]. by exists [511]. }
  destruct (Hdir 0) as (v0 & Hv0 & [k0 Hk0]); [lia|].
  destruct Hx as [->|[P0 Hx]]; [left; exists v0, []; split; [done|]; split; [apply prefix_nil|done]|].
  set (e0 := ld64 (pg_mem q) (slot (phys h) 0)) in *.
  assert (walk (pg_mem q) (phys h) [0] = Some (entry_addr e0)) as W1.
  { change (next (pg_mem q) (phys h) 0 = Some (entry_addr e0)). unfold next, link. fold e0. rewrite P0.
    unfold e0. by rewrite (tr_nohuge _ _ Htr [] (phys h) 0 (ok1 0 ltac:(lia)) ltac:(cbn; lia) eq_refl P0). }
  destruct Hx as [->|(i & Hir & Hx)].
  { left. exists v0, [0]. split; [done|]. split; [|done]. rewrite Hk0. by exists (0 :: k0). }
  destruct Hx as (P3 & G3 & Hx). set (e3 := ld64 (pg_mem q) (slot (entry_addr e0) i)) in *.
  assert (walk (pg_mem q) (phys h) [0; i] = Some (entry_addr e3)) as W2.
  { change [0; i] with ([0] ++ [i]). rewrite walk_snoc, W1. cbn [mbind option_bind]. unfold next, link. fold e3. by rewrite P3, G3. }
  destruct Hx as [->|(j & Hj & P2 & Hb & Hx)].
  { left. destruct (Hdir i Hir) as (v & Hv & Hp). exists v, [0; i]. done. }
  set (e2 := ld64 (pg_mem q) (slot (entry_addr e3) j)) in *. fold (vbase i j) in Hb. destruct (Hpath i j Hir Hj Hb) as [Hr Hp].
  assert (walk (pg_mem q) (phys h) [0; i; j] = if has e2 PAGE_HUGE then None else Some (entry_addr e2)) as W3.
  { rewrite walk3, W2. cbn [mbind option_bind]. unfold next, link. fold e2. rewrite P2. by destruct (has e2 PAGE_HUGE). }
  assert (∀ k, 0 ≤ k < 512 → room (vbase i j + k * 2 ^ 12) ∧ indices (vbase i j + k * 2 ^ 12) = (0, i, j, k)) as Hidx.
  { intros k Hk. rewrite vbase_eq in * by done. split; [unfold room in *; lia|by apply indices_of]. }
  destruct (has e2 PAGE_HUGE) eqn:G2.
  - exfalso. destruct (Hidx 0 ltac:(lia)) as [Hr0 E0].
    assert (∀ v, indices v = (0, i, j, 0) → ∃ y, leaf (view q) v = Some (y, false)) as Hlf.
    { intros v E. unfold leaf. rewrite Er, E. cbn [xlate pg_mem set_cr3]. rewrite W3, W2. cbn [mbind option_bind]. fold e2. rewrite P2, G2. by eexists. }
    destruct (Hlf _ E0) as (y & Hy). destruct (leaf_only q L _ _ M Hr0 Hy) as (g & Hg & Eg).
    destruct (mp_pages _ _ _ _ _ _ _ M g Hg) as [_ _ _ Hl _]. destruct (Hlf (lp_vaddr g)) as (y' & Hy'); congruence.
  - destruct Hx as [->|(k & Hk & Hlf & ->)]; [left; exists (vbase i j), [0; i; j]; rewrite Hp; done|right].
    apply andb_true_iff in Hlf as [Hlf Hu]. apply andb_true_iff in Hlf as [_ P1]. destruct (Hidx k Hk) as [Hrk Ek].
    set (pte := ld64 (pg_mem q) (slot (entry_addr e2) k)) in *.
    assert (∀ v, indices v = (0, i, j, k) → leaf (view q) v = Some (Z.lor (entry_addr pte) (Z.land v 4095), true)) as Hlf'.
    { intros v E. unfold leaf. rewrite Er, E. cbn [xlate pg_mem set_cr3]. rewrite W3. fold pte. by rewrite P1, Hu. }
    destruct (leaf_only q L _ _ M Hrk (Hlf' _ Ek)) as (g & Hg & Eg). exists g. split; [done|].
    destruct (mp_pages _ _ _ _ _ _ _ M g Hg) as [[Hal _] _ _ Hl _]. rewrite (Hlf' (lp_vaddr g)) in Hl by congruence. injection Hl as <-.
    symmetry. apply lor_page; [apply entry_addr_ok|done].
Qed.

Lemma room_path path : ok_path path → (∃ v, room v ∧ path `prefix_of` path_of v) ∨ ∀ v, room v → ¬ path `prefix_of` path_of v.
Proof.
  assert (∀ i j, 0 ≤ i < 512 → 0 ≤ j < 512 → PAGING_USER_CODE_ADDR ≤ vbase i j → room (vbase i j) ∧ path_of (vbase i j) = [0; i; j]) as Hpath.
  { intros i j Hir Hj Hv. rewrite vbase_eq in * by done. unfold room, path_of. destruct (index_of i j Hir Hj) as (-> & -> & ->). split; [lia|done]. }
  assert (∀ i, 0 ≤ i < 512 → PAGING_USER_CODE_ADDR ≤ vbase i 511) as Hbig
    by (intros i Hir; rewrite vbase_eq by lia; change PAGING_USER_CODE_ADDR with (16 * 2 ^ 21); lia).
  intros [Hl Hf]. destruct path as [|x path].
  { left. exists (vbase 0 511). split; [apply Hpath; [lia|lia|apply Hbig; lia]|apply prefix_nil]. }
  apply Forall_cons in Hf as [Hx Hf]. destruct (decide (x = 0)) as [->|Hne].
  2: { right. intros v Hv [k Hk]. destruct (room_index v Hv) as [E _]. injection Hk as Hk _. lia. }
  destruct path as [|i path].
  { left. exists (vbase 0 511). destruct (Hpath 0 511) as [Hv ->]; [lia|lia|apply Hbig; lia|]. split; [done|]. by exists [0; 511]. }
  apply Forall_cons in Hf as [Hir Hf]. destruct path as [|j path].
  { left. exists (vbase i 511). destruct (Hpath i 511) as [Hv ->]; [lia|lia|by apply Hbig|]. split; [done|]. by exists [511]. }
  apply Forall_cons in Hf as [Hj _]. cbn in Hl. destruct path; [|cbn in Hl; lia].
  destruct (decide (PAGING_USER_CODE_ADDR ≤ vbase i j)) as [Hb|Hb].
  - left. exists (vbase i j). destruct (Hpath i j) as [Hv ->]; [done..|]. split; [done|]. by exists [].
  - right. intros v Hv [k Hk]. destruct (room_index v Hv) as [_ E]. injection Hk as _ <- <- _. done.
Qed.

(** A page address that lies in page [j] is that page. *)
Lemma hits_addr x j : x mod 4096 = 0 → hits a x j → x = page_addr a j.
Proof using Hi.
  intros Hx [Hle <-]. destruct (pi_range _ _ Hi) as [Ha _]. unfold page_addr, PMM_PAGE_SIZE in *.
  apply Z.mod_divide in Hx as [c ->]; [|lia]. apply Z.mod_divide in Ha as [d Hd]; [|lia]. rewrite Hd.
  rewrite <- Z.mul_sub_distr_r, Z.div_mul by lia. lia.
Qed.

Lemma tx_destroy q L : mapped a prot room (view p1) (view q) [] L → pg_cr3 q = pg_cr3 p →
  ∃ q', destroy_uncommitted_pml4 a q h = Ret q' ∧ pg_cr3 q' = pg_cr3 p ∧ pt_inv a q' ∧ (∀ v, translate q' v = translate p v) ∧
    (∀ j, 0 ≤ j < total_pages a → used (pg_bm q') j = used (pg_bm p) j) ∧
    ∀ t i, page_ok t → prot t → 0 ≤ i < 512 → ld64 (pg_mem q') (slot t i) = ld64 (pg_mem p) (slot t i).
Proof using Hi B.
  intros M Hc. destruct (mapped_active q [] L M Hc) as (Hiq & Htq & Hmono). pose proof (pi_pmm _ _ Hi) as (Htp & _).
  pose proof (mp_inv _ _ _ _ _ _ _ M) as Hiv. pose proof (root_of _ _ _ M) as Er.
  destruct (destroy_frees a q h (pi_bm _ _ Hiq)) as (q' & E & Fr). exists q'. split; [done|].
  assert (∀ j x, 0 ≤ j < total_pages a → used (pg_bm p) j = true → owned (pg_mem q) h x → ¬ hits a x j) as Hsafe.
  { intros j x Hj Hu Hx Hh. destruct (owned_cases q L x M Hx) as [(v & path & Hv & Hp & Hw)|(g & Hg & ->)].
    - assert (ok_path path) as Hok by (apply (ok_path_prefix (path_of v)); [apply ok3; apply index_at_range|done]).
      destruct (tr_ok _ _ (pi_tree _ _ Hiv) path x Hok) as [Hal _]; [by rewrite Er|].
      apply (gd_path _ _ _ _ (mp_guard _ _ _ _ _ _ _ M v Hv) path x Hp); [by rewrite Er|]. rewrite (hits_addr x j Hal Hh). by apply prot_used.
    - destruct (mp_owned _ _ _ _ _ _ _ M (lp_paddr g)) as (k & Hk & Ek & Hf & _); [apply list_elem_of_fmap; by exists g|].
      rewrite Ek in Hh. apply hits_page in Hh as [_ ->]. cbn in Hf. rewrite (held j) in Hf; [done|done|by apply prot_used]. }
  assert (∀ j, 0 ≤ j < total_pages a → used (pg_bm q) j = true → used (pg_bm p) j = false → owned (pg_mem q) h (page_addr a j)) as Hall.
  { intros j Hj Hu Hf. assert (tbl (view q) (page_addr a j) → owned (pg_mem q) h (page_addr a j)) as Htbl.
    { intros (path & Hok & Hw). rewrite Er in Hw. cbn [pg_mem set_cr3] in Hw.
      destruct (room_path path Hok) as [(v & Hv & Hp)|Hn]; [apply (room_owned q v path); try done|].
      { pose proof (pi_tree _ _ Hiv) as Htr. by rewrite Er in Htr. }
      exfalso. pose proof (mp_off _ _ _ _ _ _ _ M path (page_addr a j) Hok Hn) as Hw'. rewrite Er, view_root in Hw'. specialize (Hw' Hw).
      destruct (bn_off _ _ B path _ Hok Hw') as [Hx|(v & Hv & Hp)]; [|by apply (Hn v)]. rewrite prot_used in Hx by done. congruence. }
    destruct (mp_new _ _ _ _ _ _ _ M j Hj Hu) as [Hu1|[Ht|(g & Eg & Hg)%list_elem_of_fmap]]; [|by apply Htbl|rewrite Eg; by apply (page_owned q L)].
    apply (bn_used _ _ B) in Hu1 as [Hu1|Ho]; [congruence| |unfold in_range; lia].
    apply Htbl, (mp_tbl _ _ _ _ _ _ _ M); [done|done|]. by apply (bn_tbl _ _ B). }
  assert (∀ j, 0 ≤ j < total_pages a → used (pg_bm q') j = used (pg_bm p) j) as Hu.
  { intros j Hj. apply eq_true_iff_eq. rewrite (fr_used _ _ _ _ Fr) by (unfold in_range; lia). split.
    - intros [Hu Hn]. destruct (used (pg_bm p) j) eqn:Hf; [done|]. exfalso. apply (Hn (page_addr a j)); [by apply Hall|].
      apply hits_page. split; [|done]. unfold page_addr, PMM_PAGE_SIZE. lia.
    - intros Hu. split; [by apply Hmono|]. intros x Hx. by apply (Hsafe j). }
  pose proof (fr_same _ _ _ _ Fr) as Es.
  assert (pg_cr3 q' = pg_cr3 p) as Hc' by (rewrite Es; done). split; [done|].
  assert (∀ t i, page_ok t → prot t → 0 ≤ i < 512 → ld64 (pg_mem q') (slot t i) = ld64 (pg_mem p) (slot t i)) as Hw.
  { intros t i Ht Hn Hir. rewrite Es. cbn [pg_mem set_bm]. pose proof (mp_mem _ _ _ _ _ _ _ M t i Ht Hn Hir) as E'. cbn in E'.
    rewrite E'. by apply (bn_mem _ _ B). }
  destruct (active_same a p Hi q' Hc' (fr_wf _ _ _ _ Fr)) as [Hi' Ht']; [|done|by split_and!].
  intros j Hj Hx. by rewrite Hu.
Qed.

(** ** Adding a page *)

Lemma tx_map q L v : tx q [] L → vpage v → room v → (v ∉ lp_vaddr <$> L) →
  pmm_alloc a q = Ret (0, q) ∨
  ∃ f q1, pmm_alloc a q = Ret (f, q1) ∧ f ≠ 0 ∧ page_ok f ∧
    ∀ m, (∀ t i, page_ok t → t ≠ f → 0 ≤ i < 512 → ld64 m (slot t i) = ld64 (pg_mem q1) (slot t i)) →
    ∃ b q2, try_map_4k_target a (set_mem m q1) v f PAGE_USER_RW (phys h) = Ret (b, q2) ∧
      if (b : bool) then tx q2 [] (L ++ [mkPage v f])
      else (∃ q3, pmm_free a q2 f = Ret q3 ∧ tx q3 [] L) ∧ (overlaps_kernel_scratch v (sat_add v 4096) = true ∨ exhausted a q2).
Proof using Hi B Hplain.
  intros (M & K & Hc) Hv Hr Hn. pose proof (pi_pmm _ _ Hi) as Ha. pose proof Ha as (Htp & _). unfold pmm_alloc.
  pose proof (pi_bm _ _ (mp_inv _ _ _ _ _ _ _ M)) as Hbm. cbn in Hbm.
  destruct (alloc_cases a (pg_bm q) Ha Hbm) as [(k & bm' & Hk & Hfree & _ & -> & _ & Hbm' & Hu)|(Hall & ->)];
    cbn [mbind outcome_bind]; [right|left; by destruct q].
  exists (page_addr a k), (set_bm bm' q). split; [done|]. assert (page_ok (page_addr a k)) as Hok by (by apply (page_addr_ok a p)).
  split; [destruct (page_addr_u64 a k Ha); [unfold in_range; lia|lia]|]. split; [done|]. intros m Hm.
  destruct (take_step a prot room _ _ L k bm' M K Hk Hfree Hbm') as [M1 K1].
  { intros j Hj. rewrite Hu by (unfold in_range; lia). zcases. }
  pose proof (fill_step a prot room _ _ L _ m M1 Hm) as M2.
  assert (translate (view p1) v = None) as Ht0.
  { rewrite (bn_room _ _ B) by apply Hv. destruct Hr. by rewrite (proj2 (Z.leb_le _ _)), (proj2 (Z.ltb_lt _ _)). }
  assert (∀ g, g ∈ L → lp_vaddr g ≠ v) as Hne by (intros g Hg E; apply Hn; rewrite <- E; apply list_elem_of_fmap; by exists g).
  assert (translate (set_mem m (set_bm bm' (view q))) v = None) as Ht.
  { rewrite (mp_other _ _ _ _ _ _ _ _ M2); [done|]. intros g Hg E. apply vpage_inj in E as ->; [by apply (Hne g)|done|].
    apply (mp_pages _ _ _ _ _ _ _ M g Hg). }
  destruct (build_step a prot room _ _ L v _ M2 K1 Hv Hr Ht Hne Ht0) as (b & q' & Eq & K' & Hb).
  assert (pg_cr3 q' = phys h) as Hq by (destruct b; [apply (mp_cr3 _ _ _ _ _ _ _ Hb)|apply (mp_cr3 _ _ _ _ _ _ _ (proj1 Hb))]).
  assert (∀ c X L', mapped a prot room (view p1) q' X L' → mapped a prot room (view p1) (view (set_cr3 c q')) X L') as Hback
    by (intros c X L' Hx; change (set_cr3 (phys h) ?x) with (ElfSpec.view (phys h) x); by rewrite view_back).
  assert (kept a (view p1) (view (set_cr3 (pg_cr3 q) q'))) as K'' by exact K'.
  exists b, (set_cr3 (pg_cr3 q) q'). split.
  { unfold try_map_4k_target. apply (with_target (phys h) _ (set_mem m (set_bm bm' q))); [|done|done].
    unfold read_cr3 in *. cbn. by rewrite Hc. }
  destruct b; [by split; [apply Hback|]|]. destruct Hb as [M3 Hwhy]. split; [|by destruct Hwhy; [left|right]].
  destruct (free_step a prot room _ _ L _ M3) as (q3 & E3 & M4 & K4). exists (set_cr3 (pg_cr3 q) q3).
  assert (pg_cr3 q3 = phys h) as Hq3 by apply (mp_cr3 _ _ _ _ _ _ _ M4). split; [|split; [|split; [|done]]].
  - unfold pmm_free in *. cbn [pg_bm set_cr3]. destruct (free a (pg_bm q') (page_addr a k)); [|done..]. by injection E3 as <-.
  - change (set_cr3 (phys h) ?x) with (ElfSpec.view (phys h) x). by rewrite view_back.
  - apply K4. exact K'.
Qed.
End tx.
