(* ===== verification/Exec.v ===== *)
(** * Building and running programs (src/kernel_rust/src/elf.rs: build_exec_image;
      process.rs: build_flat_image, sys_exec, spawn_init)

    An image is built in an address space of its own.  [stale] is what the memory of a
    frame holds when the page manager hands it out: frames are not cleared, and neither
    builder clears the pages of the stack.  The page records of the ELF loader ([arena])
    are passed beside the kernel state. *)

From Stdlib Require Import ZArith Lia.
From stdpp Require Import base numbers list list_numbers option gmap.
From S2P Require Import Prelude Pmm Memory Heap VfsTypes OpenFiles Names Paging Reach Tty Process Kernel MemCalls UserMem FileCalls Arena Elf.

Local Open Scope Z_scope.

(** ** Images *)

Record ExecImage := mkExec { ei_root : Pml4Handle; ei_entry : Z; ei_user_rsp : Z; ei_stack_low : Z }.

Inductive FlatLoadError := InvalidSize | AddressOverflow | Oversize | FlatOom | FlatMappingCollision.

Record FlatImage := mkFlat { fi_root : Pml4Handle; fi_user_rsp : Z; fi_stack_low : Z }.

(** The bytes of a frame, seen at the page [v] of the address space [root] from now on. *)
Definition show_page (um : gmap Z mem) (root v : Z) (bytes : list Z) : gmap Z mem :=
  <[root := st_bytes (default ∅ (um !! root)) v bytes]> um.

(** A page cleared and then filled from [bytes], as its user will see it and in the frame.  The kernel
    writes the frame through the active address space, which has to map the frame to itself. *)
Definition page_bytes (bytes : list Z) : list Z := bytes ++ replicate (4096 - length bytes) 0.
Definition fill_frame (p : pg) (page : Z) (bytes : list Z) : outcome pg :=
  if direct p page then Ret (set_mem (st_bytes (zero_words (pg_mem p) page 512) page bytes) p) else Fault.

Section build.
Context (a : PmmAllocator) (stale : Z → list Z).

(** The stack loop from the page [page_addr] downwards; the count is [stack_pages_mapped]. *)
Fixpoint map_stack (p : pg) (um : gmap Z mem) (root page_addr : Z) (fail_after : option Z) (i : Z) (n : nat)
    : outcome (option ElfError * Z * pg * gmap Z mem) :=
  match n with
  | O => Ret (None, i, p, um)
  | S n =>
      if bool_decide (fail_after = Some i) then Ret (Some Oom, i, p, um)
      else
        match translate_in_pml4 p page_addr root with
        | Some _ => Ret (Some MappingCollision, i, p, um)
        | None =>
            '(stack_page, p) ← pmm_alloc a p;
            if stack_page =? 0 then Ret (Some Oom, i, p, um)
            else
              '(ok, p) ← try_map_4k_target a p page_addr stack_page PAGE_USER_RW root;
              if negb ok then
                p ← pmm_free a p stack_page;
                Ret (Some Oom, i, p, um)
              else
                map_stack p (show_page um root page_addr (stale stack_page)) root (page_addr - 4096) fail_after (i + 1) n
        end
  end.

(** Every failure gives the new root back. *)
Definition build_exec_image_inner (data : list Z) (p : pg) (um : gmap Z mem) (ar : arena) (stack_fail_after : option Z)
    : outcome ((ExecImage + ElfError) * Z * pg * gmap Z mem * arena) :=
  '(root, p) ← create_pml4 a p false;
  match root with
  | None => Ret (inr Oom, 0, p, um, ar)
  | Some root =>
      '(r, p, um, ar) ← load_with_injection a data p um ar (phys root) disabled;
      match r with
      | inr e =>
          p ← destroy_uncommitted_pml4 a p root;
          Ret (inr e, 0, p, um, ar)
      | inl entry =>
          '(e, mapped, p, um) ←
            map_stack p um (phys root) ELF_STACK_TOP_PAGE stack_fail_after 0 (Z.to_nat ELF_STACK_PAGES);
          match e with
          | Some e =>
              p ← destroy_uncommitted_pml4 a p root;
              Ret (inr e, mapped, p, um, ar)
          | None => Ret (inl (mkExec root entry (ELF_STACK_TOP_PAGE + 4096) ELF_STACK_LOW), mapped, p, um, ar)
          end
      end
  end.

Definition build_exec_image (data : list Z) (p : pg) (um : gmap Z mem) (ar : arena)
    : outcome ((ExecImage + ElfError) * pg * gmap Z mem * arena) :=
  '(r, _, p, um, ar) ← build_exec_image_inner data p um ar None;
  Ret (r, p, um, ar).

Definition build_exec_image_with_stack_failure (data : list Z) (p : pg) (um : gmap Z mem) (ar : arena) (fail_after : Z)
    : outcome ((ExecImage + ElfError * Z) * pg * gmap Z mem * arena) :=
  '(r, mapped, p, um, ar) ← build_exec_image_inner data p um ar (Some fail_after);
  Ret (match r with inl image => inl image | inr e => inr (e, mapped) end, p, um, ar).

(** ** Flat images *)

(** The [n] code pages left, the next one at [virt_addr] with the bytes of [data] from
    [src_offset]. *)
Fixpoint flat_pages (data : list Z) (p : pg) (um : gmap Z mem) (root virt_addr src_offset bytes_left allocations : Z)
    (fail_after : option Z) (n : nat) : outcome (option FlatLoadError * Z * pg * gmap Z mem) :=
  match n with
  | O => Ret (None, allocations, p, um)
  | S n =>
      if bool_decide (fail_after = Some allocations) then Ret (Some FlatOom, allocations, p, um)
      else
        '(page, p) ← pmm_alloc a p;
        if page =? 0 then Ret (Some FlatOom, allocations + 1, p, um)
        else
          let copy_len := Z.min bytes_left 4096 in
          let bytes := take (Z.to_nat copy_len) (drop (Z.to_nat src_offset) data) in
          p ← fill_frame p page bytes;
          '(ok, p) ← try_map_4k_target a p virt_addr page PAGE_USER_RW root;
          if negb ok then
            p ← pmm_free a p page;
            Ret (Some FlatMappingCollision, allocations + 1, p, um)
          else
            let um := show_page um root virt_addr (page_bytes bytes) in
            match checked_add src_offset 4096, checked_add virt_addr 4096 with
            | Some src_offset, Some virt_addr =>
                flat_pages data p um root virt_addr src_offset (Z.max 0 (bytes_left - 4096)) (allocations + 1) fail_after n
            | _, _ => Ret (Some AddressOverflow, allocations + 1, p, um)
            end
  end.

(** The page of the stack, behind the code. *)
Definition flat_stack (p : pg) (um : gmap Z mem) (root stack_addr allocations : Z) (fail_after : option Z)
    : outcome (option FlatLoadError * pg * gmap Z mem) :=
  if bool_decide (fail_after = Some allocations) then Ret (Some FlatOom, p, um)
  else
    '(stack_page, p) ← pmm_alloc a p;
    if stack_page =? 0 then Ret (Some FlatOom, p, um)
    else
      '(ok, p) ← try_map_4k_target a p stack_addr stack_page PAGE_USER_RW root;
      if negb ok then
        p ← pmm_free a p stack_page;
        Ret (Some FlatMappingCollision, p, um)
      else Ret (None, p, show_page um root stack_addr (stale stack_page)).

(** The pages of code, the address of the stack page and the address behind it. *)
Definition flat_layout (size : Z) : (Z * Z * Z) + FlatLoadError :=
  match checked_add size 4095 with
  | None => inr AddressOverflow
  | Some rounded =>
      let pages := Z.max (rounded / 4096) 2 in
      match checked_mul pages 4096 with
      | None => inr AddressOverflow
      | Some code_bytes =>
          match checked_add USER_CODE_ADDR code_bytes with
          | None => inr AddressOverflow
          | Some stack_addr =>
              match checked_add stack_addr 4096 with
              | None => inr AddressOverflow
              | Some stack_end =>
                  if stack_end >? FLAT_USER_LIMIT then inr Oversize
                  else if overlaps_kernel_scratch USER_CODE_ADDR stack_end then inr Oversize
                  else inl (pages, stack_addr, stack_end)
              end
          end
      end
  end.

(** [data] is the bytes at the pointer; its length is the size. *)
Definition build_flat_image_inner (data : list Z) (p : pg) (um : gmap Z mem) (fail_after : option Z)
    : outcome ((FlatImage + FlatLoadError) * pg * gmap Z mem) :=
  let size := Z.of_nat (length data) in
  if size =? 0 then Ret (inr InvalidSize, p, um)
  else
    match flat_layout size with
    | inr e => Ret (inr e, p, um)
    | inl (pages, stack_addr, stack_end) =>
        '(root, p) ← create_pml4 a p false;
        match root with
        | None => Ret (inr FlatOom, p, um)
        | Some root =>
            '(e, allocations, p, um) ← flat_pages data p um (phys root) USER_CODE_ADDR 0 size 0 fail_after (Z.to_nat pages);
            '(e, p, um) ← (match e with
                           | Some e => Ret (Some e, p, um)
                           | None => flat_stack p um (phys root) stack_addr allocations fail_after
                           end);
            match e with
            | Some e =>
                p ← destroy_uncommitted_pml4 a p root;
                Ret (inr e, p, um)
            | None => Ret (inl (mkFlat root stack_end stack_addr), p, um)
            end
        end
    end.

Definition build_flat_image (data : list Z) (p : pg) (um : gmap Z mem) : outcome ((FlatImage + FlatLoadError) * pg * gmap Z mem) :=
  build_flat_image_inner data p um None.
End build.

(** ** exec *)

(** [from_raw_parts] into the archive. *)
Definition arc_bytes (arc : list Z) (off n : Z) : outcome (list Z) :=
  if off + n <=? Z.of_nat (length arc) then Ret (take (Z.to_nat n) (drop (Z.to_nat off) arc)) else Panic.

(** Where the program is: only the files of the archive have a size. *)
Definition program_at (vn : Vnode) : outcome Z := match vn_data vn with DArchive off => Ret off | _ => Panic end.

Definition elf_errno (e : ElfError) : Z := match e with Oom | MetadataOom => -12 | _ => -22 end.
Definition flat_errno (e : FlatLoadError) : Z := match e with FlatOom => -12 | _ => -22 end.

(** The process record of the new program, before its descriptors are closed. *)
Definition exec_process (root entry user_rsp stack_low : Z) (p : Process) : Process :=
  mkProc (pid p) root (state p) entry user_rsp (kernel_stack_top p) (kernel_rsp p)
    (kernel_stack_base p) (parent_pid p) (exit_code p) (wait_for_pid p) BRK_START 0
    0 (replicate 32 SigAction_default) false 0 stack_low (name p)
    (fd_table p) (cwd p).

(** [write_volatile] of the three saved registers. *)
Definition set_syscall_state (s : SyscallSavedState) (m : machine) : machine :=
  mkM (m_table m) (CURRENT_PID m) (should_schedule m) (m_kmem m) (m_umem m) (m_cr3 m) (m_rsp0 m)
    (current_proc_kernel_rsp m) s (sigreturn_frame m) (sigreturn_pending m).

Section exec.
Context {H : Type} `{HL : KHeapLaws H} (a : PmmAllocator) (stale : Z → list Z).
Implicit Types k : kernel H.

Definition set_built k (p : pg) (um : gmap Z mem) : kernel H :=
  let k := put_pg k p in set_m k (set_umem um (k_m k)).

(** The root, the entry point, the stack pointer and the lower end of the stack. *)
Definition build_image k (ar : arena) (data magic : list Z) : outcome ((Z * Z * Z * Z + Z) * kernel H * arena) :=
  if bool_decide (magic = ELF_MAGIC) then
    '(r, p, um, ar) ← build_exec_image a stale data (k_pg k) (m_umem (k_m k)) ar;
    Ret (match r with
         | inl i => inl (phys (ei_root i), ei_entry i, ei_user_rsp i, ei_stack_low i)
         | inr e => inr (elf_errno e)
         end, set_built k p um, ar)
  else
    '(r, p, um) ← build_flat_image a stale data (k_pg k) (m_umem (k_m k));
    Ret (match r with
         | inl i => inl (phys (fi_root i), USER_CODE_ADDR, fi_user_rsp i, fi_stack_low i)
         | inr e => inr (flat_errno e)
         end, set_built k p um, ar).

(** Publishing the image. *)
Definition commit_exec k (q root entry user_rsp stack_low : Z) : outcome (kernel H) :=
  m ← process_mut (k_m k) q (exec_process root entry user_rsp stack_low);
  let m := write_cr3 root m in
  let m := set_syscall_state (mkSaved user_rsp 514 entry) m in
  proc ← process m q;
  '(fds, f) ← exec_close_fds (k_files k) (fd_table proc);
  m ← process_mut m q (set_fd_table fds);
  Ret (set_kfiles (set_m k m) f).

Definition sys_exec k (ar : arena) (path : Z) : outcome (Z * kernel H * arena) :=
  let q := cur k in
  _ ← process (k_m k) q;
  match cstr_from_user (space (k_m k)) path PATH_MAX with
  | inr e => Ret (- e, k, ar)
  | inl buf =>
      '(r, n) ← vfs_resolve (k_ns k) (until_nul buf);
      let k := set_kns k n in
      match r with
      | inr e => Ret (- e, k, ar)
      | inl v =>
          vn ← get_vnode (k_files k) v;
          if data_is_null (vn_data vn) || (vn_size vn =? 0) then Ret (-2, k, ar)
          else
            off ← program_at vn;
            magic ← arc_bytes (ns_arc (k_ns k)) off 4;
            data ← arc_bytes (ns_arc (k_ns k)) off (vn_size vn);
            '(r, k, ar) ← build_image k ar data magic;
            match r with
            | inr e => Ret (e, k, ar)
            | inl (root, entry, user_rsp, stack_low) =>
                k ← commit_exec k q root entry user_rsp stack_low;
                Ret (0, k, ar)
            end
      end
  end.

(** ** The first processes *)

(** "init" and "idle", NUL-padded to 32 bytes, and the directory "/". *)
Definition init_name : list Z := [105; 110; 105; 116] ++ replicate 28 0.
Definition idle_name : list Z := [105; 100; 108; 101] ++ replicate 28 0.
Definition root_cwd : list Z := 47 :: replicate 255 0.
(** "/sbin/init". *)
Definition init_path : list Z := [47; 115; 98; 105; 110; 47; 105; 110; 105; 116].

Definition first_process (q pml4 entry user_rsp ktop krsp base brk low : Z) (name : list Z) : Process :=
  mkProc q pml4 Ready entry user_rsp ktop krsp base 0 0 0 brk 0 0 (replicate 32 SigAction_default) false 0 low
    name FdTable_new root_cwd.

Definition put_slot k (i : Z) (p : Process) (next_pid count : Z) : outcome (kernel H) :=
  l ← store (slots (m_table (k_m k))) i (Some p);
  Ret (set_m k (set_table (mkTable l next_pid count) (k_m k))).

(** Descriptors 0, 1 and 2 of init: one open file of /dev/ttyS0 with three references.  A
    full table is ignored. *)
Definition init_fds k : outcome (kernel H) :=
  '(r, f) ← oft_alloc (k_files k) (VStatic (devfs_get_vnode TtyS0)) O_RDWR 438;
  let k := set_kfiles k f in
  match r with
  | inr _ => Ret k
  | inl idx =>
      o ← index (slots (m_table (k_m k))) 0;
      p ← deref o;
      fds ← store (fd_table p) 0 (i32 idx);
      fds ← store fds 1 (i32 idx);
      fds ← store fds 2 (i32 idx);
      l ← store (slots (m_table (k_m k))) 0 (Some (set_fd_table fds p));
      let k := set_m k (set_table (mkTable l (next_pid (m_table (k_m k))) (count (m_table (k_m k)))) (k_m k)) in
      entry ← index (fs_oft (k_files k)) idx;
      match entry with
      | None => Ret k
      | Some file =>
          o ← store (fs_oft (k_files k)) idx (Some (set_refcount file 3));
          Ret (set_kfiles k (set_oft (k_files k) o))
      end
  end.

(** The image of init; without one the machine halts. *)
Definition init_image k : outcome (FlatImage * kernel H) :=
  '(r, n) ← vfs_resolve (k_ns k) init_path;
  let k := set_kns k n in
  match r with
  | inr _ => Hang
  | inl v =>
      vn ← get_vnode (k_files k) v;
      if data_is_null (vn_data vn) || negb (vn_size vn >? 0) then Hang
      else
        off ← program_at vn;
        data ← arc_bytes (ns_arc (k_ns k)) off (vn_size vn);
        '(r, p, um) ← build_flat_image a stale data (k_pg k) (m_umem (k_m k));
        match r with
        | inr _ => Hang
        | inl i => Ret (i, set_built k p um)
        end
  end.

(** Three pages of kernel stack with a register frame, or a halt. *)
Definition new_stack k : outcome (Z * kernel H) :=
  '(base, bm) ← alloc_pages a (k_bm k) 3;
  if base =? 0 then Hang else Ret (base, set_kbm k bm).

Definition frame_on k (ktop user_entry rsp command_id : Z) : Z * kernel H :=
  let '(krsp, mem) := build_init_frame (m_kmem (k_m k)) ktop user_entry rsp command_id in
  (krsp, set_m k (set_kmem mem (k_m k))).

(** The second half: the idle process, in kernel mode on its own stack. *)
Definition spawn_idle k (idle_entry : Z) : outcome (kernel H) :=
  '(idle_kstack, k) ← new_stack k;
  let idle_ktop := idle_kstack + KERNEL_STACK_SIZE in
  let '(idle_krsp, k) := frame_on k idle_ktop idle_entry idle_ktop 0 in
  let mem := st64 (m_kmem (k_m k)) (idle_krsp + 144) 8 in
  let mem := st64 mem (idle_krsp + 168) 16 in
  let k := set_m k (set_kmem mem (k_m k)) in
  '(root, p) ← create_pml4 a (k_pg k) false;
  let k := put_pg k p in
  match root with
  | None => Hang
  | Some root =>
      put_slot k 1 (first_process 2 (phys root) idle_entry 0 idle_ktop idle_krsp idle_kstack 0 0 idle_name) 3 2
  end.

Definition spawn_init k (idle_entry : Z) : outcome (Z * kernel H) :=
  '(image, k) ← init_image k;
  let user_rsp := fi_user_rsp image in
  '(kstack, k) ← new_stack k;
  let ktop := kstack + KERNEL_STACK_SIZE in
  let '(krsp, k) := frame_on k ktop USER_CODE_ADDR user_rsp 1 in
  k ← put_slot k 0 (first_process 1 (phys (fi_root image)) USER_CODE_ADDR user_rsp ktop krsp kstack BRK_START
                      (user_rsp - 4096) init_name) 2 1;
  k ← init_fds k;
  k ← spawn_idle k idle_entry;
  Ret (1, k).
End exec.
