(* ===== verification/ExecSpec.v ===== *)
(** * What building and running a program promise

    A builder either returns a root with exactly the pages of the program and its stack,
    or fails with the memory manager, the active address space and the memory of every
    process as they were; [exec] publishes the image of a successful build and nothing of a failed
    one. *)

From Stdlib Require Import ZArith Lia.
From stdpp Require Import base numbers list list_numbers option gmap.
From S2P Require Import Prelude Pmm Memory Kmm Heap VfsTypes OpenFiles Names Paging PageMaps PageSpec Reach PageFree PageNew Tty Process Kernel MemCalls MemSpec UserMem FileCalls Arena ArenaSpec Elf ElfCheck ElfPages ElfSpec ExecPages Exec.

Local Open Scope Z_scope.

(** ** Memory of the pages *)

Lemma uspace_show um root v l : uspace root (show_page um root v l) = st_bytes (uspace root um) v l.
Proof. unfold uspace, show_page. by rewrite lookup_insert_eq. Qed.

Lemma show_other um root v l r : r ≠ root → show_page um root v l !! r = um !! r.
Proof. intros Hr. unfold show_page. by rewrite lookup_insert_ne by congruence. Qed.

(** The words of the other frames stay when a frame is filled. *)
Lemma st_bytes_ld64 l : ∀ m x y, (∀ i, 0 ≤ i < Z.of_nat (length l) → word_of (x + i) ≠ y) → ld64 (st_bytes m x l) y = ld64 m y.
Proof.
  induction l as [|b l IH]; intros m x y Hy; cbn [st_bytes]; [done|]. rewrite IH.
  - unfold st8. apply ld_st_ne. specialize (Hy 0). rewrite Z.add_0_r in Hy. apply Hy. cbn [length]. lia.
  - intros i Hi. replace (x + 1 + i) with (x + (i + 1)) by lia. apply Hy. cbn [length]. lia.
Qed.

Lemma fill_frame_ld p f l t i : page_ok f → page_ok t → t ≠ f → 0 ≤ i < 512 → (length l ≤ 4096)%nat →
  ld64 (st_bytes (zero_words (pg_mem p) f 512) f l) (slot t i) = ld64 (pg_mem p) (slot t i).
Proof.
  intros Hf Ht Hne Hi Hl. pose proof (zero_table_ld p f t i Hf Ht Hi) as Hz. rewrite bool_decide_eq_false_2 in Hz by done.
  rewrite st_bytes_ld64; [exact Hz|]. intros j Hj. unfold word_of, slot.
  destruct Hf as [Hf _], Ht as [Ht _]. apply Z.mod_divide in Hf as [c ->]; [|lia]. apply Z.mod_divide in Ht as [d ->]; [|lia].
  pose proof (Z.div_mod (c * 4096 + j) 8). pose proof (Z.mod_pos_bound (c * 4096 + j) 8).
  replace (c * 4096 + j - (c * 4096 + j) mod 8) with ((c * 4096 + j) / 8 * 8) by lia.
  assert (c * 512 ≤ (c * 4096 + j) / 8 < c * 512 + 512); [|lia].
  split; [apply Z.div_le_lower_bound; lia|apply Z.div_lt_upper_bound; lia].
Qed.

(** The addresses of consecutive pages, upwards or downwards. *)
Lemma seqZ_shift (v d : Z) n : v :: ((λ k, v + d + d * k) <$> seqZ 0 (Z.of_nat n)) = (λ k, v + d * k) <$> seqZ 0 (Z.of_nat (S n)).
Proof.
  replace (Z.of_nat (Datatypes.S n)) with (Z.of_nat n + 1) by lia.
  rewrite (seqZ_cons 0 (Z.of_nat n + 1)) by lia. cbn [fmap list_fmap]. replace (Z.pred (Z.of_nat n + 1)) with (Z.of_nat n) by lia.
  rewrite Z.mul_0_r, Z.add_0_r. f_equal. change (Z.succ 0) with 1. rewrite <- (fmap_add_seqZ 1 0), <- list_fmap_compose. apply list_fmap_ext.
  intros j k _. cbn. lia.
Qed.

Section build.
Context (a : PmmAllocator) (p : pg) (Hi : pt_inv a p) (Hplain : read_cr3 p = pg_cr3 p)
  (Hlow : has (ld64 (pg_mem p) (slot (read_cr3 p) 0)) PAGE_PRESENT = true)
  (stale : Z → list Z) (Hstale : ∀ f, length (stale f) = 4096%nat ∧ Forall is_byte (stale f)).

Section root.
Context (h : Pml4Handle) (p1 : pg) (B : born a p h p1).
Abbreviation txn := (tx a p h p1).

(** The memory of the new address space has changed in the pages [S] only. *)
Definition others (um um' : gmap Z mem) (S : list LoadedPage) : Prop :=
  (∀ r, r ≠ phys h → um' !! r = um !! r) ∧
  ∀ x, (page_of x ∉ lp_vaddr <$> S) → ld8 (uspace (phys h) um') x = ld8 (uspace (phys h) um) x.

Lemma others_show um v f l : (length l ≤ 4096)%nat → Forall is_byte l → v mod 4096 = 0 → others um (show_page um (phys h) v l) [mkPage v f].
Proof.
  intros Hl Hb Hv. split; [intros r; apply show_other|]. intros x Hx. rewrite uspace_show, ld8_st_bytes by done.
  assert (¬ (v ≤ x < v + 4096)) as Hn.
  { intros Hr. apply Hx. apply (page_of_page v x Hv) in Hr. rewrite Hr. apply list_elem_of_here. }
  zcases; try lia; done.
Qed.

Lemma others_trans um um1 um2 S1 S2 : others um um1 S1 → others um1 um2 S2 → others um um2 (S1 ++ S2).
Proof.
  intros [O1 M1] [O2 M2]. split; [intros r Hr; by rewrite O2, O1|]. intros x Hx. rewrite fmap_app in Hx.
  apply not_elem_of_app in Hx as []. by rewrite M2, M1.
Qed.

Lemma others_refl um : others um um [].
Proof. done. Qed.

(** ** The stack of an ELF program *)

Lemma map_stack_spec fail n : ∀ q um L v i, txn q [] L → v mod 4096 = 0 → v < 2 ^ 39 →
  PAGING_USER_CODE_ADDR + 4096 * Z.of_nat n ≤ v + 4096 →
  (∀ k, 0 ≤ k < Z.of_nat n → v - 4096 * k ∉ lp_vaddr <$> L) →
  ∃ e i' q' um' S, map_stack a stale q um (phys h) v fail i n = Ret (e, i', q', um') ∧ txn q' [] (L ++ S) ∧ others um um' S ∧
    match e with
    | None => lp_vaddr <$> S = (λ k, v - 4096 * k) <$> seqZ 0 (Z.of_nat n) ∧
        ∀ g x, g ∈ S → page_of x = lp_vaddr g → ld8 (uspace (phys h) um') x = stale (lp_paddr g) !!! Z.to_nat (x - lp_vaddr g)
    | Some e => e = Oom
    end.
Proof using Hi Hplain Hstale B.
  induction n as [|n IH]; intros q um L v i T Hm Hhi Hlo Hn; cbn [map_stack].
  { exists None, i, q, um, []. rewrite app_nil_r. split; [done|]. split; [done|]. split; [apply others_refl|]. split; [done|].
    by intros g x ?%not_elem_of_nil. }
  case_bool_decide as Ef.
  { exists (Some Oom), i, q, um, []. rewrite app_nil_r. by split_and!. }
  assert (room v) as Hr by (unfold room; lia). assert (vpage v) as Hv by (split; [done|unfold PAGING_USER_CODE_ADDR in *; lia]).
  assert (v ∉ lp_vaddr <$> L) as Hnv by (specialize (Hn 0); rewrite Z.mul_0_r, Z.sub_0_r in Hn; apply Hn; lia).
  pose proof T as (M & _ & _).
  assert (translate_in_pml4 q v (phys h) = None) as ->.
  { rewrite translate_view by apply B. change (ElfSpec.view (phys h) q) with (set_cr3 (phys h) q).
    rewrite (mp_other _ _ _ _ _ _ _ _ M), (bn_room _ _ _ _ B); [|apply Hv|].
    2: { intros g Hg E. apply Hnv. apply vpage_inj in E as ->; [apply list_elem_of_fmap; by exists g|done|apply (mp_pages _ _ _ _ _ _ _ M g Hg)]. }
    destruct Hr. by rewrite (proj2 (Z.leb_le _ _)), (proj2 (Z.ltb_lt _ _)). }
  destruct (tx_map a p Hi Hplain h p1 B q L v T Hv Hr Hnv) as [->|(f & q1 & -> & Hf0 & Hfok & Hmap)]; cbn [mbind outcome_bind].
  { rewrite Z.eqb_refl. exists (Some Oom), i, q, um, []. rewrite app_nil_r. by split_and!. }
  rewrite (proj2 (Z.eqb_neq f 0) Hf0). destruct (Hmap (pg_mem q1)) as (b & q2 & E2 & Hb); [done|].
  replace (set_mem (pg_mem q1) q1) with q1 in E2 by (by destruct q1). rewrite E2. cbn [mbind outcome_bind]. destruct b; cbn [negb].
  2: { destruct Hb as [(q3 & -> & T3) _]. cbn [mbind outcome_bind]. exists (Some Oom), i, q3, um, []. rewrite app_nil_r. by split_and!. }
  destruct (Hstale f) as [Hsl Hsb].
  pose proof (others_show um v f (stale f) ltac:(lia) Hsb Hm) as O1.
  destruct (IH q2 (show_page um (phys h) v (stale f)) (L ++ [mkPage v f]) (v - 4096) (i + 1) Hb) as (e & i' & q' & um' & S & -> & T' & O' & He).
  { rewrite Zminus_mod, Hm. done. } { lia. } { lia. }
  { intros k Hk. rewrite fmap_app. cbn [fmap list_fmap lp_vaddr]. rewrite not_elem_of_app, list_elem_of_singleton. split; [|lia].
    replace (v - 4096 - 4096 * k) with (v - 4096 * (k + 1)) by lia. apply Hn. lia. }
  exists e, i', q', um', (mkPage v f :: S). rewrite <- app_assoc in T'. split; [done|]. split; [done|].
  split; [by apply (others_trans _ _ _ [_] S O1)|]. destruct e; [done|]. destruct He as [HS Hst]. split.
  - cbn [fmap list_fmap lp_vaddr]. rewrite HS. replace (Z.of_nat (Datatypes.S n)) with (Z.of_nat n + 1) by lia.
    rewrite (seqZ_cons 0 (Z.of_nat n + 1)) by lia. cbn [fmap list_fmap]. replace (Z.pred (Z.of_nat n + 1)) with (Z.of_nat n) by lia.
    rewrite Z.mul_0_r, Z.sub_0_r. f_equal. change (Z.succ 0) with 1. rewrite <- (fmap_add_seqZ 1 0), <- list_fmap_compose. apply list_fmap_ext.
    intros j k _. cbn. lia.
  - intros g x [->|Hg]%elem_of_cons Hx; [|by apply Hst]. cbn [lp_vaddr lp_paddr] in *. rewrite (proj2 O').
    + rewrite uspace_show, ld8_st_bytes by done. pose proof (proj1 (page_of_page v x Hm) Hx). zcases; lia || done.
    + rewrite Hx. pose proof T' as (M' & _). pose proof (mp_vaddrs _ _ _ _ _ _ _ M') as Hd. rewrite fmap_app in Hd. cbn in Hd.
      apply NoDup_app in Hd as (_ & _ & Hd). by apply NoDup_cons in Hd as [Hd _].
Qed.

(** ** What a finished image looks like *)

Lemma root_free : ¬ prot a p (phys h).
Proof using B.
  intros Hp. apply (gd_path _ _ _ _ (bn_guard _ _ _ _ B _ first_room) [] (phys h)); [apply prefix_nil| |done].
  by rewrite (view_root a p h p1 B).
Qed.
End root.

(** Everything is as it was. *)
Record unchanged (q : pg) : Prop := {
  uc_cr3 : pg_cr3 q = pg_cr3 p;
  uc_inv : pt_inv a q;
  uc_xlate : ∀ v, translate q v = translate p v;
  uc_used : ∀ j, 0 ≤ j < total_pages a → used (pg_bm q) j = used (pg_bm p) j;
  uc_mem : ∀ t i, page_ok t → prot a p t → 0 ≤ i < 512 → ld64 (pg_mem q) (slot t i) = ld64 (pg_mem p) (slot t i)
}.

(** A root with the pages [V] beside an unchanged active address space. *)
Record made (root : Z) (V : Z → Prop) (q : pg) : Prop := {
  md_root : page_ok root ∧ ¬ prot a p root;
  md_cr3 : pg_cr3 q = pg_cr3 p;
  md_active : pt_inv a q ∧ ∀ v, translate q v = translate p v;
  md_inv : pt_inv a (set_cr3 root q);
  md_mem : ∀ t i, page_ok t → prot a p t → 0 ≤ i < 512 → ld64 (pg_mem q) (slot t i) = ld64 (pg_mem p) (slot t i);
  md_used : ∀ j, 0 ≤ j < total_pages a → used (pg_bm p) j = true → used (pg_bm q) j = true;
  md_pages : ∀ v, V v → ∃ j, 0 ≤ j < total_pages a ∧ translate (set_cr3 root q) v = Some (page_addr a j) ∧
    used (pg_bm p) j = false ∧ used (pg_bm q) j = true;
  md_own : ∀ v v', V v → V v' → translate (set_cr3 root q) v = translate (set_cr3 root q) v' → v = v';
  md_none : ∀ v, room v → (∀ v', V v' → indices v ≠ indices v') → translate (set_cr3 root q) v = None;
  md_kernel : ∀ v, 0 ≤ v < 2 ^ 48 → ¬ room v → translate (set_cr3 root q) v = translate p v
}.

(** The page tables cannot tell addresses with the same indices apart. *)
Lemma room_indices v v' : 0 ≤ v < 2 ^ 48 → room v' → indices v = indices v' → room v.
Proof.
  intros Hv Hr E. destruct (room_index v' Hr) as [H0 Hb]. unfold indices in E. injection E as E4 E3 E2 _. rewrite <- E4 in H0.
  rewrite <- E3, <- E2 in Hb. destruct (index_parts v Hv) as (H4 & _ & H1 & _). specialize (H1 H0). rewrite H0 in H4.
  rewrite vbase_eq in Hb by apply index_at_range. unfold room. lia.
Qed.

Lemma tx_made h p1 q L (V : Z → Prop) : born a p h p1 → tx a p h p1 q [] L → (∀ v, v ∈ lp_vaddr <$> L ↔ V v) → made (phys h) V q.
Proof using Hi.
  intros B (M & K & Hc) HV. destruct (mapped_active a p Hi h p1 B q [] L M Hc) as (Hia & Hta & Hu).
  pose proof (bn_inv _ _ _ _ B) as Hi1.
  split; try done.
  - split; [apply B|by apply (root_free h p1)].
  - apply (mp_inv _ _ _ _ _ _ _ M).
  - intros t i Ht Hp Hir. pose proof (mp_mem _ _ _ _ _ _ _ M t i Ht Hp Hir) as E. cbn in E. rewrite E. by apply (bn_mem _ _ _ _ B).
  - intros v (g & -> & Hg)%HV%list_elem_of_fmap.
    destruct (mp_owned _ _ _ _ _ _ _ M (lp_paddr g)) as (j & Hj & Ej & Hf & Hj' & _); [apply list_elem_of_fmap; by exists g|].
    exists j. rewrite <- Ej. split; [done|]. split; [by apply (ad_after _ _ _ _ _ _ _ g M)|]. split; [|done].
    destruct (used (pg_bm p) j) eqn:E; [|done]. cbn in Hf. rewrite (held a p Hi h p1 B j Hj) in Hf; [done|]. by apply prot_used.
  - intros v v' (g & -> & Hg)%HV%list_elem_of_fmap (g' & -> & Hg')%HV%list_elem_of_fmap.
    rewrite (ad_after _ _ _ _ _ _ _ g M Hg), (ad_after _ _ _ _ _ _ _ g' M Hg'). intros [= E].
    pose proof (mp_frames _ _ _ _ _ _ _ M) as Hd. cbn [app] in Hd. apply list_elem_of_lookup in Hg as [x Hg], Hg' as [y Hg'].
    assert (x = y) as ->; [|by rewrite Hg in Hg'; injection Hg' as ->].
    eapply (NoDup_lookup (lp_paddr <$> L)); [done|by rewrite list_lookup_fmap, Hg|by rewrite list_lookup_fmap, Hg'; cbn; rewrite E].
  - intros v Hv Hn. rewrite (mp_other _ _ _ _ _ _ _ _ M), (bn_room _ _ _ _ B).
    + destruct Hv. by rewrite (proj2 (Z.leb_le _ _)), (proj2 (Z.ltb_lt _ _)).
    + unfold room, PAGING_USER_CODE_ADDR in Hv. lia.
    + intros g Hg. apply Hn, HV, list_elem_of_fmap. by exists g.
  - intros v Hv Hn. rewrite (mp_other _ _ _ _ _ _ _ _ M); [rewrite (bn_room _ _ _ _ B) by done|].
    + unfold room in Hn. destruct (Z.leb_spec PAGING_USER_CODE_ADDR v), (Z.ltb_spec v (2 ^ 39)); [lia|done..].
    + intros g Hg E. destruct (mp_pages _ _ _ _ _ _ _ M g Hg) as [_ Hr _ _ _]. apply Hn. by apply (room_indices v (lp_vaddr g)).
Qed.

Lemma tx_failed h p1 q L : born a p h p1 → tx a p h p1 q [] L →
  ∃ q', destroy_uncommitted_pml4 a q h = Ret q' ∧ unchanged q'.
Proof using Hi.
  intros B (M & _ & Hc). destruct (tx_destroy a p Hi h p1 B q L M Hc) as (q' & E & ? & ? & ? & ? & ?). exists q'. split; [done|by split].
Qed.

(** ** An ELF program *)

(** The pages of the fixed stack. *)
Definition stack_page (v : Z) : Prop := ∃ k, 0 ≤ k < ELF_STACK_PAGES ∧ v = ELF_STACK_TOP_PAGE - 4096 * k.

(** What the loader accepts and an address space can hold privately. *)
Definition low_elf (data : list Z) : Prop := ∀ ehdr ph, good_elf data ehdr → ph ∈ segments data ehdr →
  regular ph ∧ ∀ v, seg_page ph v → v < 2 ^ 39.

Lemma seg_page_apart ph v size : good_segment size ph → regular ph → seg_page ph v → PAGING_USER_CODE_ADDR ≤ v ∧ ¬ stack_page v.
Proof.
  intros [_ _ Hu _ Hst _] Hreg Hv. apply seg_page_div in Hv as (c & -> & Hc). destruct (decide (p_memsz ph = 0)) as [E|E].
  { exfalso. specialize (Hreg E). rewrite E, Z.add_0_r in Hc. apply Z.mod_divide in Hreg as [d Hd]; [|lia]. rewrite Hd in Hc.
    replace (d * 4096 + 4095) with (4095 + d * 4096) in Hc by lia. rewrite Z.div_add, Z.div_mul in Hc by lia. change (4095 / 4096) with 0 in Hc. lia. }
  specialize (Hu E). specialize (Hst E). pose proof (Z.div_mod (p_vaddr ph) 4096). pose proof (Z.mod_pos_bound (p_vaddr ph) 4096).
  pose proof (Z.div_mod (p_vaddr ph + p_memsz ph + 4095) 4096). pose proof (Z.mod_pos_bound (p_vaddr ph + p_memsz ph + 4095) 4096).
  unfold apart, PAGING_USER_CODE_ADDR, ELF_STACK_LOW, stack_page, ELF_STACK_TOP_PAGE, ELF_STACK_PAGES in *. split; [lia|].
  intros (k & Hk & Ek). lia.
Qed.

Lemma build_exec_ok data um ar fail : Forall is_byte data → Z.of_nat (length data) ≤ U64_MAX → idle ar → low_elf data →
  ∃ r n q um' ar', build_exec_image_inner a stale data p um ar fail = Ret (r, n, q, um', ar') ∧ idle ar' ∧
    (∀ t, prot a p t → um' !! t = um !! t) ∧
    match r with
    | inr e => unchanged q
    | inl i => ∃ ehdr, good_elf data ehdr ∧ ei_entry i = e_entry ehdr ∧
        ei_user_rsp i = ELF_STACK_TOP_PAGE + 4096 ∧ ei_stack_low i = ELF_STACK_LOW ∧
        made (phys (ei_root i)) (λ v, segs_page (segments data ehdr) v ∨ stack_page v) q ∧
        ∀ x, segs_page (segments data ehdr) (page_of x) →
          ld8 (uspace (phys (ei_root i)) um') x = image data (segments data ehdr) x
    end.
Proof using Hi Hplain Hlow Hstale.
  intros Hbytes Hsize Hidle Hlow'. unfold build_exec_image_inner.
  destruct (create_born a p Hi Hlow) as (o & p1 & -> & Ho). cbn [mbind outcome_bind]. destruct o as [h|].
  2: { destruct Ho as (? & ? & ? & ? & ?). exists (inr Oom), 0, p1, um, ar. split; [done|]. split; [done|]. split; [done|]. by split. }
  rename Ho into B. pose proof (tx_start a p Hi h p1 B) as (M0 & _ & Hc0).
  assert (read_cr3 p1 = pg_cr3 p1) as Hpl by (unfold read_cr3 in *; by rewrite Hc0).
  destruct (load_ret a (phys h) (bn_phys _ _ _ _ B) p1 Hpl um data Hbytes Hsize disabled (prot a p) room ar Hidle (bn_inv _ _ _ _ B))
    as (r & q & um1 & ar1 & -> & Hid & Hc & Hum & Hr).
  { apply (held a p Hi h p1 B). }
  { apply (bn_guard _ _ _ _ B). }
  { intros ehdr ph Hg Hp. destruct (Hlow' ehdr ph Hg Hp) as [Hreg Hlt]. split; [done|]. intros v Hv. split; [|by apply Hlt].
    pose proof (ge_segments _ _ Hg) as Hall. rewrite Forall_forall in Hall. by destruct (seg_page_apart ph v _ (Hall ph Hp) Hreg Hv). }
  assert (∀ t, prot a p t → um1 !! t = um !! t) as Hum'.
  { intros t Ht. apply Hum. intros ->. by apply (root_free h p1). }
  cbn [mbind outcome_bind]. destruct r as [entry|e].
  2: { destruct Hr as [M _]. destruct (tx_destroy a p Hi h p1 B q [] M) as (q' & -> & ? & ? & ? & ? & ?); [by rewrite Hc|].
       cbn [mbind outcome_bind]. exists (inr e), 0, q', um1, ar1. split; [done|]. split; [done|]. split; [done|]. by split. }
  destruct Hr as (ehdr & L & Hg & -> & M & K & HL & Hmem).
  assert (tx a p h p1 q [] L) as T by (split; [done|]; split; [done|]; by rewrite Hc).
  assert (∀ v, stack_page v → v ∉ lp_vaddr <$> L) as Happart.
  { intros v Hs (ph & Hph & Hv)%HL. destruct (Hlow' ehdr ph Hg Hph) as [Hreg _]. pose proof (ge_segments _ _ Hg) as Hall. rewrite Forall_forall in Hall.
    by apply (seg_page_apart ph v _ (Hall ph Hph) Hreg Hv). }
  destruct (map_stack_spec h p1 B fail (Z.to_nat ELF_STACK_PAGES) q um1 L ELF_STACK_TOP_PAGE 0 T) as (e & n & q2 & um2 & S & -> & T2 & [O1 O2] & He).
  { done. } { done. } { done. }
  { intros k Hk. apply Happart. by exists k. }
  cbn [mbind outcome_bind].
  assert (∀ t, prot a p t → um2 !! t = um !! t) as Hum2.
  { intros t Ht. rewrite O1; [by apply Hum'|]. intros ->. by apply (root_free h p1). }
  destruct e as [e|].
  { destruct (tx_failed h p1 q2 _ B T2) as (q' & -> & Hq). cbn [mbind outcome_bind]. exists (inr e), n, q', um2, ar1. by split_and!. }
  destruct He as [HS _]. assert (∀ v, v ∈ lp_vaddr <$> S ↔ stack_page v) as HS'.
  { intros v. rewrite HS, list_elem_of_fmap. split; [intros (k & -> & Hk%elem_of_seqZ); exists k; split; [|done]; lia|].
    intros (k & Hk & ->). exists k. split; [done|]. apply elem_of_seqZ. lia. }
  eexists (inl _), n, q2, um2, ar1. split; [done|]. split; [done|]. split; [done|]. exists ehdr. cbn [ei_entry ei_user_rsp ei_stack_low ei_root].
  split; [done|]. split; [done|]. split; [done|]. split; [done|]. split.
  - apply (tx_made h p1 q2 (L ++ S) _ B T2). intros v. by rewrite fmap_app, elem_of_app, HL, HS'.
  - intros x Hx. rewrite O2; [rewrite Hmem, decide_True; [done|by apply HL]|]. rewrite HS'. intros Hs. by apply (Happart _ Hs), HL.
Qed.

(** ** A flat program *)

(** The byte of the program at [x]. *)
Definition flat_image (data : list Z) (x : Z) : Z := default 0 (data !! Z.to_nat (x - USER_CODE_ADDR)).

Lemma page_bytes_at data off left i : 0 ≤ off → left = Z.max 0 (Z.of_nat (length data) - off) → 0 ≤ i < 4096 →
  page_bytes (take (Z.to_nat (Z.min left 4096)) (drop (Z.to_nat off) data)) !!! Z.to_nat i = default 0 (data !! Z.to_nat (off + i)).
Proof.
  intros Ho -> Hir. unfold page_bytes. apply list_lookup_total_correct.
  destruct (decide (off + i < Z.of_nat (length data))) as [Hin|Hout].
  - rewrite lookup_app_l by (rewrite length_take, length_drop; lia). rewrite lookup_take_lt by lia.
    rewrite lookup_drop. replace (Z.to_nat off + Z.to_nat i)%nat with (Z.to_nat (off + i)) by lia.
    destruct (lookup_lt_is_Some_2 data (Z.to_nat (off + i))) as [x ->]; [lia|done].
  - rewrite (lookup_ge_None_2 data) by lia. rewrite lookup_app_r by (rewrite length_take, length_drop; lia).
    cbn [default from_option]. apply lookup_replicate_2. rewrite length_take, length_drop. lia.
Qed.

Lemma page_bytes_ok data off left : Forall is_byte data →
  let l := page_bytes (take (Z.to_nat (Z.min left 4096)) (drop (Z.to_nat off) data)) in length l = 4096%nat ∧ Forall is_byte l.
Proof.
  intros Hb. cbv zeta. unfold page_bytes. split; [rewrite length_app, length_replicate, length_take; lia|].
  apply Forall_app. split; [by apply Forall_take, Forall_drop|]. apply Forall_replicate. unfold is_byte. lia.
Qed.

Section flat.
Context (h : Pml4Handle) (p1 : pg) (B : born a p h p1) (data : list Z) (Hbytes : Forall is_byte data).
Context (top : Z) (Hid : ∀ x, 0 ≤ x < top → translate p x = Some x).

(** A frame taken from the lowest pages is one the kernel can write. *)
Lemma frame_direct q X L f q1 n : tx a p h p1 q X L → pmm_alloc a q = Ret (f, q1) → f ≠ 0 → low_first a top n (pg_bm q) → 1 ≤ n → direct q1 f = true.
Proof using Hi B Hid.
  intros (M & _ & Hc) E Hf Hl Hn. destruct (mapped_active a p Hi h p1 B q X L M Hc) as (Hiq & Ht & _). pose proof (pi_pmm _ _ Hi) as Ha. revert E. unfold pmm_alloc.
  destruct (alloc_take a (pg_bm q) Ha (pi_bm _ _ Hiq)) as [(k & b & Hk & Hkf & Hlo & E & _ & _ & Hu)|[_ E]]; rewrite E; cbn [mbind outcome_bind]; [|by intros [= <- _]].
  intros [= <- <-]. apply bool_decide_eq_true_2. change (translate (set_bm b q) (page_addr a k)) with (translate q (page_addr a k)). rewrite Ht. apply Hid.
  destruct (low_first_alloc a top n _ k b Hl Ha Hk Hkf Hlo Hu) as [_ Hb]. specialize (Hb Hn). pose proof (page_addr_ok a p k Hi Hk) as [_ ?]. lia.
Qed.

Lemma flat_pages_spec fail n : ∀ q um L v off left al, tx a p h p1 q [] L → v mod 4096 = 0 → USER_CODE_ADDR ≤ v → off = v - USER_CODE_ADDR →
  left = Z.max 0 (Z.of_nat (length data) - off) → v + 4096 * Z.of_nat n < FLAT_USER_LIMIT →
  (∀ k, 0 ≤ k < Z.of_nat n → v + 4096 * k ∉ lp_vaddr <$> L) → low_first a top (4 * Z.of_nat n) (pg_bm q) →
  ∃ e al' q' um' S, flat_pages a data q um (phys h) v off left al fail n = Ret (e, al', q', um') ∧ tx a p h p1 q' [] (L ++ S) ∧ others h um um' S ∧
    match e with
    | None => lp_vaddr <$> S = (λ k, v + 4096 * k) <$> seqZ 0 (Z.of_nat n) ∧
        ∀ x, page_of x ∈ lp_vaddr <$> S → ld8 (uspace (phys h) um') x = flat_image data x
    | Some e => e = FlatOom ∨ e = FlatMappingCollision
    end.
Proof using Hi Hplain B Hbytes Hid.
  induction n as [|n IH]; intros q um L v off left al T Hm Hlo Hoff Hleft Hhi Hn Hlf; cbn [flat_pages].
  { exists None, al, q, um, []. rewrite app_nil_r. split; [done|]. split; [done|]. split; [apply others_refl|]. split; [done|].
    by intros x ?%not_elem_of_nil. }
  case_bool_decide as Ef.
  { exists (Some FlatOom), al, q, um, []. rewrite app_nil_r. split; [done|]. split; [done|]. split; [apply others_refl|]. by left. }
  change USER_CODE_ADDR with PAGING_USER_CODE_ADDR in *. unfold FLAT_USER_LIMIT, BRK_START in Hhi.
  assert (room v) as Hr by (unfold room; lia). assert (vpage v) as Hv by (split; [done|unfold PAGING_USER_CODE_ADDR in *; lia]).
  assert (v ∉ lp_vaddr <$> L) as Hnv by (specialize (Hn 0); rewrite Z.mul_0_r, Z.add_0_r in Hn; apply Hn; lia).
  destruct (tx_map a p Hi Hplain h p1 B q L v T Hv Hr Hnv) as [->|(f & q1 & Eal & Hf0 & Hfok & Hmap)]; [|rewrite Eal]; cbn [mbind outcome_bind].
  { rewrite Z.eqb_refl. exists (Some FlatOom), (al + 1), q, um, []. rewrite app_nil_r. split; [done|]. split; [done|]. split; [apply others_refl|]. by left. }
  rewrite (proj2 (Z.eqb_neq f 0) Hf0). cbv zeta. destruct (page_bytes_ok data off left Hbytes) as [Hpl Hpb]. cbv zeta in Hpl, Hpb.
  pose proof (λ i, page_bytes_at data off left i ltac:(lia) Hleft) as Hat.
  set (bytes := take (Z.to_nat (Z.min left 4096)) (drop (Z.to_nat off) data)) in *.
  destruct (Hmap (st_bytes (zero_words (pg_mem q1) f 512) f bytes)) as (b & q2 & E2 & Hb).
  { intros t i Ht Hne Hir. apply fill_frame_ld; try done. unfold bytes. rewrite length_take. lia. }
  unfold fill_frame. rewrite (frame_direct q [] L f q1 (4 * Z.of_nat (Datatypes.S n)) T Eal Hf0 Hlf ltac:(lia)). cbn [mbind outcome_bind]. rewrite E2. cbn [mbind outcome_bind].
  assert (low_first a top (4 * Z.of_nat n) (pg_bm q2)) as Hlf2.
  { pose proof (pi_pmm _ _ Hi) as Ha. destruct (mapped_active a p Hi h p1 B q [] L (proj1 T) (proj2 (proj2 T))) as (Hiq & _).
    pose proof (takes_trans a top 1 3 _ _ _ (pmm_alloc_takes a top q f q1 Ha Eal) (try_map_target_takes a top _ _ _ _ _ _ _ Ha E2)) as Tk.
    destruct (Tk (pi_bm _ _ Hiq)) as [_ Hk]. specialize (Hk _ Hlf). replace (4 * Z.of_nat n) with (4 * Z.of_nat (Datatypes.S n) - (1 + 3)) by lia. exact Hk. }
  destruct b; cbn [negb].
  2: { destruct Hb as [(q3 & -> & T3) _]. cbn [mbind outcome_bind]. exists (Some FlatMappingCollision), (al + 1), q3, um, []. rewrite app_nil_r.
       split; [done|]. split; [done|]. split; [apply others_refl|]. by right. }
  pose proof (others_show h um v f (page_bytes bytes) ltac:(lia) Hpb Hm) as O1.
  unfold checked_add. rewrite !(proj2 (Z.leb_le _ _)) by (unfold U64_MAX, PAGING_USER_CODE_ADDR in *; lia).
  destruct (IH q2 (show_page um (phys h) v (page_bytes bytes)) (L ++ [mkPage v f]) (v + 4096) (off + 4096) (Z.max 0 (left - 4096)) (al + 1) Hb)
    as (e & al' & q' & um' & S & -> & T' & O' & He).
  { by rewrite <- Zplus_mod_idemp_l, Hm. } { lia. } { lia. } { lia. } { unfold FLAT_USER_LIMIT, BRK_START. lia. }
  { intros k Hk. rewrite fmap_app. cbn [fmap list_fmap lp_vaddr]. rewrite not_elem_of_app, list_elem_of_singleton. split; [|lia].
    replace (v + 4096 + 4096 * k) with (v + 4096 * (k + 1)) by lia. apply Hn. lia. }
  { exact Hlf2. }
  exists e, al', q', um', (mkPage v f :: S). rewrite <- app_assoc in T'. split; [done|]. split; [done|].
  split; [by apply (others_trans h _ _ _ [_] S O1)|]. destruct e; [done|]. destruct He as [HS Hst]. split.
  - cbn [fmap list_fmap lp_vaddr]. rewrite HS. apply seqZ_shift.
  - intros x Hx. destruct (decide (page_of x ∈ lp_vaddr <$> S)) as [Hin|Hout]; [by apply Hst|].
    cbn [fmap list_fmap lp_vaddr] in Hx. apply elem_of_cons in Hx as [Hx|]; [|done]. rewrite (proj2 O') by done.
    rewrite uspace_show, ld8_st_bytes by done. pose proof (proj1 (page_of_page v x Hm) Hx). unfold flat_image. zcases; try lia.
    change USER_CODE_ADDR with PAGING_USER_CODE_ADDR. rewrite Hat by lia. do 3 f_equal. lia.
Qed.

Lemma flat_stack_spec fail q um L v al : tx a p h p1 q [] L → v mod 4096 = 0 → USER_CODE_ADDR ≤ v < FLAT_USER_LIMIT → (v ∉ lp_vaddr <$> L) →
  ∃ e q' um' S, flat_stack a stale q um (phys h) v al fail = Ret (e, q', um') ∧ tx a p h p1 q' [] (L ++ S) ∧ others h um um' S ∧
    match e with None => lp_vaddr <$> S = [v] | Some e => e = FlatOom ∨ e = FlatMappingCollision end.
Proof using Hi Hplain Hstale B.
  intros T Hm Hlo Hnv. unfold flat_stack. case_bool_decide as Ef.
  { exists (Some FlatOom), q, um, []. rewrite app_nil_r. split; [done|]. split; [done|]. split; [apply others_refl|]. by left. }
  change USER_CODE_ADDR with PAGING_USER_CODE_ADDR in *. unfold FLAT_USER_LIMIT, BRK_START in Hlo.
  assert (room v) as Hr by (unfold room; lia). assert (vpage v) as Hv by (split; [done|unfold PAGING_USER_CODE_ADDR in *; lia]).
  destruct (tx_map a p Hi Hplain h p1 B q L v T Hv Hr Hnv) as [->|(f & q1 & -> & Hf0 & Hfok & Hmap)]; cbn [mbind outcome_bind].
  { rewrite Z.eqb_refl. exists (Some FlatOom), q, um, []. rewrite app_nil_r. split; [done|]. split; [done|]. split; [apply others_refl|]. by left. }
  rewrite (proj2 (Z.eqb_neq f 0) Hf0). destruct (Hmap (pg_mem q1)) as (b & q2 & E2 & Hb); [done|].
  replace (set_mem (pg_mem q1) q1) with q1 in E2 by (by destruct q1). rewrite E2. cbn [mbind outcome_bind]. destruct b; cbn [negb].
  - destruct (Hstale f) as [Hsl Hsb]. exists None, q2, (show_page um (phys h) v (stale f)), [mkPage v f].
    split; [done|]. split; [done|]. split; [|done]. apply others_show; [lia|done|done].
  - destruct Hb as [(q3 & -> & T3) _]. cbn [mbind outcome_bind]. exists (Some FlatMappingCollision), q3, um, []. rewrite app_nil_r.
    split; [done|]. split; [done|]. split; [apply others_refl|]. by right.
Qed.
End flat.

(** The pages of code a program of [size] bytes gets. *)
Definition code_pages (size : Z) : Z := Z.max ((size + 4095) / 4096) 2.

Lemma flat_layout_spec size : 0 ≤ size →
  match flat_layout size with
  | inl (pages, stack_addr, stack_end) => pages = code_pages size ∧ stack_addr = USER_CODE_ADDR + 4096 * pages ∧
      stack_end = stack_addr + 4096 ∧ stack_end ≤ FLAT_USER_LIMIT
  | inr _ => FLAT_USER_LIMIT < USER_CODE_ADDR + 4096 * (code_pages size + 1)
  end.
Proof.
  intros Hs. unfold flat_layout, checked_add, checked_mul, code_pages. change USER_CODE_ADDR with 33554432. unfold FLAT_USER_LIMIT, BRK_START, U64_MAX.
  pose proof (Z.div_mod (size + 4095) 4096). pose proof (Z.mod_pos_bound (size + 4095) 4096).
  destruct (Z.leb_spec (size + 4095) (2 ^ 64 - 1)); [|lia]. cbv zeta.
  destruct (Z.leb_spec (Z.max ((size + 4095) / 4096) 2 * 4096) (2 ^ 64 - 1)); [|lia].
  destruct (Z.leb_spec (33554432 + Z.max ((size + 4095) / 4096) 2 * 4096) (2 ^ 64 - 1)); [|lia].
  destruct (Z.leb_spec (33554432 + Z.max ((size + 4095) / 4096) 2 * 4096 + 4096) (2 ^ 64 - 1)); [|lia].
  rewrite Z.gtb_ltb. destruct (Z.ltb_spec 83886080 (33554432 + Z.max ((size + 4095) / 4096) 2 * 4096 + 4096)); [lia|].
  assert (overlaps_kernel_scratch 33554432 (33554432 + Z.max ((size + 4095) / 4096) 2 * 4096 + 4096) = false) as ->; [|lia].
  unfold overlaps_kernel_scratch, KERNEL_SCRATCH_VA. zcases; lia.
Qed.

Lemma unchanged_refl : unchanged p.
Proof using Hi. by split. Qed.

(** The pages of a flat program: code and, behind it, one page of stack. *)
Definition flat_page (size v : Z) : Prop := v mod 4096 = 0 ∧ USER_CODE_ADDR ≤ v ≤ USER_CODE_ADDR + 4096 * code_pages size.

Lemma page_index lo n v : lo mod 4096 = 0 → 0 ≤ n → v ∈ (λ k, lo + 4096 * k) <$> seqZ 0 n ↔ v mod 4096 = 0 ∧ lo ≤ v < lo + 4096 * n.
Proof.
  intros Hlo Hn. rewrite list_elem_of_fmap. split.
  - intros (k & -> & Hk%elem_of_seqZ). split; [|lia]. by rewrite Z.mul_comm, Z.mod_add by lia.
  - intros [[c ->]%Z.mod_divide Hv]; [|lia]. apply Z.mod_divide in Hlo as [d ->]; [|lia]. exists (c - d).
    split; [lia|]. apply elem_of_seqZ. lia.
Qed.

(** What the kernel writes itself: the address space and, four for each page of code, the code with its tables. *)
Definition flat_need (size : Z) : Z := 514 + 4 * code_pages size.

Lemma build_flat_ok top data um fail : Forall is_byte data → (∀ x, 0 ≤ x < top → translate p x = Some x) → low_first a top (flat_need (Z.of_nat (length data))) (pg_bm p) →
  ∃ r q um', build_flat_image_inner a stale data p um fail = Ret (r, q, um') ∧ (∀ t, prot a p t → um' !! t = um !! t) ∧
    match r with
    | inr e => unchanged q
    | inl i => let size := Z.of_nat (length data) in
        fi_stack_low i = USER_CODE_ADDR + 4096 * code_pages size ∧ fi_user_rsp i = fi_stack_low i + 4096 ∧
        fi_user_rsp i ≤ FLAT_USER_LIMIT ∧ made (phys (fi_root i)) (flat_page size) q ∧
        ∀ x, USER_CODE_ADDR ≤ x < fi_stack_low i → ld8 (uspace (phys (fi_root i)) um') x = flat_image data x
    end.
Proof using Hi Hplain Hlow Hstale.
  intros Hbytes Hid Hlf. unfold build_flat_image_inner. set (size := Z.of_nat (length data)).
  destruct (Z.eqb_spec size 0); [exists (inr InvalidSize), p, um; split; [done|]; split; [done|apply unchanged_refl]|].
  pose proof (flat_layout_spec size ltac:(lia)) as Hly. destruct (flat_layout size) as [[[pages sa] se]|e].
  2: { exists (inr e), p, um. split; [done|]. split; [done|apply unchanged_refl]. }
  destruct Hly as (Hp & Esa & -> & Hend). assert (2 ≤ pages) as Hp2 by (rewrite Hp; unfold code_pages; lia).
  destruct (create_born a p Hi Hlow) as (o & p1 & Ecr & Ho). rewrite Ecr. cbn [mbind outcome_bind]. destruct o as [h|].
  2: { destruct Ho as (? & ? & ? & ? & ?). exists (inr FlatOom), p1, um. split; [done|]. split; [done|]. by split. }
  rename Ho into B. pose proof (tx_start a p Hi h p1 B) as T0.
  destruct (create_takes a top p h p1 (pi_pmm _ _ Hi) Ecr (pi_bm _ _ Hi)) as [_ Hlf1]. specialize (Hlf1 _ Hlf). fold size in Hlf1. unfold flat_need in Hlf1. rewrite <- Hp in Hlf1.
  destruct (flat_pages_spec h p1 B data Hbytes top Hid fail (Z.to_nat pages) p1 um [] USER_CODE_ADDR 0 size 0 T0) as (e & al & q & um1 & S1 & -> & T1 & O1 & He);
    [done|done|done|lia|rewrite Z2Nat.id by lia; lia|by intros k _ ?%not_elem_of_nil|rewrite Z2Nat.id by lia; by replace (4 * pages) with (514 + 4 * pages - 514) by lia|].
  cbn [mbind outcome_bind app] in *.
  assert (∀ um' : gmap Z mem, (∀ r, r ≠ phys h → um' !! r = um !! r) → ∀ t, prot a p t → um' !! t = um !! t) as Hprot.
  { intros um' Ho t Ht. apply Ho. intros ->. by apply (root_free h p1). }
  destruct e as [e|]; cbn [mbind outcome_bind].
  { destruct (tx_failed h p1 q _ B T1) as (q' & -> & Hq). cbn [mbind outcome_bind]. exists (inr e), q', um1. split; [done|]. split; [|done]. apply Hprot, O1. }
  destruct He as [HS1 Hst]. rewrite Z2Nat.id in HS1 by lia.
  assert (∀ v, v ∈ lp_vaddr <$> S1 ↔ v mod 4096 = 0 ∧ USER_CODE_ADDR ≤ v < sa) as HS1' by (intros v; rewrite HS1, Esa; by apply page_index; [|lia]).
  assert (sa mod 4096 = 0) as Hsa by (rewrite Esa; by rewrite Z.mul_comm, Z.mod_add by lia).
  destruct (flat_stack_spec h p1 B fail q um1 S1 sa al T1 Hsa) as (e & q2 & um2 & S2 & -> & T2 & O2 & He); [lia|rewrite HS1'; lia|]. cbn [mbind outcome_bind].
  assert (∀ r, r ≠ phys h → um2 !! r = um !! r) as Hum2 by (intros r Hr; by rewrite (proj1 O2), (proj1 O1)).
  destruct e as [e|].
  { destruct (tx_failed h p1 q2 _ B T2) as (q' & -> & Hq). cbn [mbind outcome_bind]. exists (inr e), q', um2. split; [done|]. split; [by apply Hprot|done]. }
  exists (inl (mkFlat h (sa + 4096) sa)), q2, um2. split; [done|]. split; [by apply Hprot|]. cbn [fi_stack_low fi_user_rsp fi_root].
  rewrite <- Hp. split; [done|]. split; [done|]. split; [done|]. split.
  - apply (tx_made h p1 q2 (S1 ++ S2) _ B T2). intros v. rewrite fmap_app, elem_of_app, HS1', He, list_elem_of_singleton. unfold flat_page. rewrite <- Hp, <- Esa.
    split; [intros [?| ->]; [lia|split; [done|lia]]|]. intros [? ?]. destruct (decide (v = sa)); [by right|left; split; [done|lia]].
  - intros x Hx. assert (page_of x mod 4096 = 0 ∧ USER_CODE_ADDR ≤ page_of x < sa) as Hpx.
    { pose proof (page_of_aligned x) as Hal. split; [done|]. pose proof (proj1 (page_of_page _ x Hal) eq_refl) as Hpx.
      apply Z.mod_divide in Hal as [c Hc]; [|lia]. apply Z.mod_divide in Hsa as [d Hd]; [|lia]. rewrite Hc, Hd in *.
      change USER_CODE_ADDR with (8192 * 4096) in *. lia. }
    rewrite (proj2 O2) by (rewrite He, list_elem_of_singleton; lia). apply Hst. by apply HS1'.
Qed.
End build.
