(* ===== verification/ExecCall.v ===== *)
(** * What the system call exec promises

    The program a path leads to either replaces the image of the current process as a
    whole, or the call fails and the process goes on with the image it had. *)

From Stdlib Require Import ZArith Lia.
From stdpp Require Import base numbers list list_numbers option gmap.
From S2P Require Import Prelude Pmm Memory Kmm Heap VfsTypes OpenFiles Names Paging PageMaps PageSpec Reach Loader PageFree PageNew Tty Process Kernel ProcSpec MemCalls MemSpec UserMem FileCalls FileSpec FdCalls Initramfs Paths Arena ArenaSpec Elf ElfCheck ElfPages ElfSpec ExecPages Exec ExecSpec.

Local Open Scope Z_scope.

(** ** The image of a program *)

(** The pages a program is given and the byte at each address of its code and data. *)
Definition program_pages (data magic : list Z) (v : Z) : Prop :=
  if bool_decide (magic = ELF_MAGIC) then ∃ ehdr, good_elf data ehdr ∧ (segs_page (segments data ehdr) v ∨ stack_page v)
  else flat_page (Z.of_nat (length data)) v.

Definition program_byte (data magic : list Z) (x b : Z) : Prop :=
  if bool_decide (magic = ELF_MAGIC) then ∃ ehdr, good_elf data ehdr ∧ segs_page (segments data ehdr) (page_of x) ∧ b = image data (segments data ehdr) x
  else USER_CODE_ADDR ≤ x < USER_CODE_ADDR + 4096 * code_pages (Z.of_nat (length data)) ∧ b = flat_image data x.

(** Where it starts, its stack pointer and the limit recorded for its stack. *)
Definition program_start (data magic : list Z) (entry rsp low : Z) : Prop :=
  if bool_decide (magic = ELF_MAGIC) then ∃ ehdr, good_elf data ehdr ∧ entry = e_entry ehdr ∧ rsp = ELF_STACK_TOP_PAGE + 4096 ∧ low = ELF_STACK_LOW
  else entry = USER_CODE_ADDR ∧ low = USER_CODE_ADDR + 4096 * code_pages (Z.of_nat (length data)) ∧ rsp = low + 4096 ∧ rsp ≤ FLAT_USER_LIMIT.

Lemma good_unique data ehdr ehdr' : good_elf data ehdr → good_elf data ehdr' → ehdr' = ehdr.
Proof. intros Hg Hg'. pose proof (gh_fields _ _ (ge_header _ _ Hg')) as E. rewrite (gh_fields _ _ (ge_header _ _ Hg)) in E. by injection E. Qed.

Lemma made_ext a p root (V V' : Z → Prop) q : (∀ v, V v ↔ V' v) → made a p root V q → made a p root V' q.
Proof.
  intros HV []. split; try done.
  - intros v Hv. by apply md_pages, HV.
  - intros v v' Hv Hv'. by apply md_own; apply HV.
  - intros v Hv Hn. apply md_none; [done|]. intros v' Hv'. by apply Hn, HV.
Qed.

Section exec.
Context {H : Type} `{HL : KHeapLaws H} (a : PmmAllocator) (stale : Z → list Z)
  (Hstale : ∀ f, length (stale f) = 4096%nat ∧ Forall is_byte (stale f)).
Implicit Types k : kernel H.

Lemma built_fields k q um : let k' := set_built k q um in
  k_pg k' = q ∧ m_umem (k_m k') = um ∧ m_table (k_m k') = m_table (k_m k) ∧ CURRENT_PID (k_m k') = CURRENT_PID (k_m k) ∧
  syscall_state (k_m k') = syscall_state (k_m k) ∧ k_ns k' = k_ns k.
Proof. destruct k as [[kb com tt m] bm ns], m, q. done. Qed.

(** ** Building *)

(** An address space the builders can start from; the kernel writes frames below [top] in it. *)
Record can_build (top : Z) (p : pg) : Prop := {
  cb_inv : pt_inv a p;
  cb_plain : read_cr3 p = pg_cr3 p;
  cb_low : has (ld64 (pg_mem p) (slot (read_cr3 p) 0)) PAGE_PRESENT = true;
  cb_id : ∀ x, 0 ≤ x < top → translate p x = Some x
}.

(** A program the call can be asked to load: an ELF program with its segments below 512 GiB, or
    any other file, with the lowest free pages below [top] for as many as its code may take. *)
Record loadable (top : Z) (bm : bitmap) (data magic : list Z) : Prop := {
  lo_bytes : Forall is_byte data;
  lo_size : Z.of_nat (length data) ≤ U64_MAX;
  lo_elf : magic = ELF_MAGIC → low_elf data;
  lo_flat : magic ≠ ELF_MAGIC → low_first a top (flat_need (Z.of_nat (length data))) bm
}.

Lemma build_image_ok top k ar data magic : can_build top (k_pg k) → loadable top (k_bm k) data magic → idle ar →
  ∃ r q um ar', build_image a stale k ar data magic = Ret (r, set_built k q um, ar') ∧ idle ar' ∧
    (∀ t, prot a (k_pg k) t → um !! t = m_umem (k_m k) !! t) ∧
    match r with
    | inr e => (e = -12 ∨ e = -22) ∧ unchanged a (k_pg k) q
    | inl (root, entry, rsp, low) => program_start data magic entry rsp low ∧ made a (k_pg k) root (program_pages data magic) q ∧
        ∀ x b, program_byte data magic x b → ld8 (uspace root um) x = b
    end.
Proof using Hstale.
  intros [Hi Hp Hl Hself] [Hb Hs Hlow Hflat] Har. unfold build_image, program_start, program_pages, program_byte. case_bool_decide as Em.
  - unfold build_exec_image. destruct (build_exec_ok a (k_pg k) Hi Hp Hl stale Hstale data (m_umem (k_m k)) ar None Hb Hs Har (Hlow Em))
      as (r & n & q & um & ar' & -> & Hid & Hum & Hr). cbn [mbind outcome_bind]. eexists _, q, um, ar'. split; [done|]. split; [done|]. split; [done|].
    destruct r as [i|e]; [|split; [destruct e; cbn; auto|done]]. destruct Hr as (ehdr & Hg & He & Hrsp & Hlo & Hm & Hx).
    split; [by exists ehdr|]. split.
    + eapply made_ext; [|done]. intros v. split; [by exists ehdr|]. intros (ehdr' & Hg' & Hv). by rewrite (good_unique _ _ _ Hg Hg') in Hv.
    + intros x b (ehdr' & Hg' & Hv & ->). rewrite (good_unique _ _ _ Hg Hg') in Hv |- *. by apply Hx.
  - unfold build_flat_image. destruct (build_flat_ok a (k_pg k) Hi Hp Hl stale Hstale top data (m_umem (k_m k)) None Hb Hself (Hflat Em))
      as (r & q & um & -> & Hum & Hr). cbn [mbind outcome_bind]. eexists _, q, um, ar. split; [done|]. split; [done|]. split; [done|].
    destruct r as [i|e]; [|split; [destruct e; cbn; auto|done]]. destruct Hr as (Hlo & Hrsp & Hle & Hm & Hx). rewrite Hlo in *.
    split; [done|]. split; [done|]. intros x b [Hr ->]. by apply Hx.
Qed.

(** ** Publishing *)

Lemma commit_exec_ok X k q proc root entry rsp low : procs (k_m k) q = Some proc → length (fd_table proc) = 16%nat →
  files_wf X (fd_tables k) (k_files k) →
  ∃ fds f, commit_exec k q root entry rsp low =
      Ret (set_kfiles (set_m k (set_syscall_state (mkSaved rsp 514 entry) (write_cr3 root
        (upd (k_m k) q (λ p, set_fd_table fds (exec_process root entry rsp low p)))))) f) ∧
    (∀ j w, fds !! j = Some w → if decide (3 ≤ Z.of_nat j) then w < 0 else fd_table proc !! j = Some w) ∧ length fds = 16%nat ∧
    files_wf X (fd_tables_of (slots (m_table (upd (k_m k) q (λ p, set_fd_table fds (exec_process root entry rsp low p)))))) f.
Proof.
  intros Hq Hl Hwf. unfold commit_exec. rewrite (process_mut_ret _ _ _ _ Hq). cbn [mbind outcome_bind].
  set (m1 := set_syscall_state _ (write_cr3 root _)).
  assert (procs m1 q = Some (exec_process root entry rsp low proc)) as Hq1.
  { change (procs m1 q) with (procs (upd (k_m k) q (exec_process root entry rsp low)) q). by rewrite (procs_upd _ _ proc), Z.eqb_refl. }
  rewrite (process_ret _ _ _ Hq1). cbn [mbind outcome_bind exec_process fd_table].
  pose proof Hq as (i & Hf & Hi)%lookup_proc_Some.
  destruct (close_fds_inv X (Z.to_nat i) (Z.to_nat (MAX_FDS - 3)) (fd_tables k) (fd_table proc) (k_files k) 3 Hwf) as (fds & f & E & Hlf & Hwf' & Hfds);
    [exact (fd_tables_lookup _ _ _ Hi)|done|lia|done|].
  unfold exec_close_fds. rewrite E. cbn [mbind outcome_bind]. rewrite (process_mut_ret _ _ _ _ Hq1). cbn [mbind outcome_bind].
  exists fds, f. split_and!.
  - do 3 f_equal. rewrite <- (upd_upd _ _ (exec_process root entry rsp low)) by done. destruct k as [[kb com tt m] bm ns], m. done.
  - intros j w Hj. specialize (Hfds j w Hj). assert (j < 16)%nat by (rewrite <- Hlf; by eapply lookup_lt_Some).
    change (3 + Z.of_nat (Z.to_nat (MAX_FDS - 3))) with 16 in Hfds. repeat case_decide; (done || lia).
  - done.
  - rewrite (upd_slot _ _ i proc) by done. cbn [m_table set_table slots]. by rewrite fd_tables_insert.
Qed.

(** ** The whole call *)

(** What the path at [path] in user memory leads to: the bytes of a file of the archive and the first four bytes there, or the
    error the path is refused with; with the name space after the resolution. *)
Definition lookup_program k (path : Z) : outcome ((list Z * list Z + Z) * nstate H) :=
  match cstr_from_user (space (k_m k)) path PATH_MAX with
  | inr e => Ret (inr e, k_ns k)
  | inl buf =>
      '(r, n) ← vfs_resolve (k_ns k) (until_nul buf);
      match r with
      | inr e => Ret (inr e, n)
      | inl v =>
          vn ← get_vnode (ns_files n) v;
          if data_is_null (vn_data vn) || (vn_size vn =? 0) then Ret (inr 2, n)
          else
            off ← program_at vn;
            magic ← arc_bytes (ns_arc n) off 4;
            data ← arc_bytes (ns_arc n) off (vn_size vn);
            Ret (inl (data, magic), n)
      end
  end.

Lemma set_kns_same k : set_kns k (k_ns k) = k.
Proof. by destruct k. Qed.

Lemma sys_exec_looked_up k ar path o n proc : procs (k_m k) (cur k) = Some proc → lookup_program k path = Ret (o, n) →
  sys_exec a stale k ar path =
    match o with
    | inr e => Ret (- e, set_kns k n, ar)
    | inl (data, magic) =>
        '(r, k', ar') ← build_image a stale (set_kns k n) ar data magic;
        match r with
        | inr e => Ret (e, k', ar')
        | inl (root, entry, rsp, low) => k' ← commit_exec k' (cur k) root entry rsp low; Ret (0, k', ar')
        end
    end.
Proof.
  intros Hp. unfold sys_exec, lookup_program. rewrite (process_ret _ _ _ Hp). cbn [mbind outcome_bind].
  destruct (cstr_from_user _ path PATH_MAX) as [buf|e]; [|intros [= <- <-]; by rewrite set_kns_same].
  destruct (vfs_resolve (k_ns k) (until_nul buf)) as [[r n1]| | |]; cbn [mbind outcome_bind]; try discriminate.
  destruct r as [v|e]; [|by intros [= <- <-]]. change (k_files (set_kns k n1)) with (ns_files n1). change (k_ns (set_kns k n1)) with n1.
  destruct (get_vnode (ns_files n1) v) as [vn| | |]; cbn [mbind outcome_bind]; try discriminate.
  destruct (data_is_null (vn_data vn) || (vn_size vn =? 0)); [by intros [= <- <-]|].
  destruct (program_at vn) as [off| | |]; cbn [mbind outcome_bind]; try discriminate.
  destruct (arc_bytes (ns_arc n1) off 4) as [magic| | |]; cbn [mbind outcome_bind]; try discriminate.
  destruct (arc_bytes (ns_arc n1) off (vn_size vn)) as [data| | |]; cbn [mbind outcome_bind]; try discriminate. by intros [= <- <-].
Qed.

(** C2: The system call exec.  A path that cannot be read from user memory, does not resolve, or leads to something that is no
    file with contents is refused with its error, and nothing changes but what the resolution did to the name space.  When the path leads to a file of the archive,
    loadable as an ELF program with segments below 512 GiB or as a flat program, the call returns 0 or
    one of -12 and -22.  On 0, the process has the new address space as its own and in
    [cr3]; the saved registers make it resume at the entry point with the new stack pointer; its heap is
    empty, its signal handlers are reset, descriptors 0 to 2 are kept and all others closed, with every open file still counting
    its references.  The new address space has exactly the pages of the program and its stack among the
    user addresses, each on a frame of its own that was free before, maps the kernel as the old one did,
    and holds the bytes of the file.  On failure the process table, the saved registers, the translations of the active
    address space and the page bitmap are as before.  In both cases no word of a page that was in
    use, no memory of an address space in use and no other process is touched. *)
Theorem exec_spec (X : gset Z) (k : kernel H) (ar : arena) (path : Z) (proc : Process) (o : list Z * list Z + Z) (n : nstate H) (top : Z)
  (Hwf : pt_wf (m_table (k_m k))) (Hcur : procs (k_m k) (cur k) = Some proc) (Hfds : length (fd_table proc) = 16%nat)
  (Hfound : lookup_program k path = Ret (o, n)) (Hfiles : files_wf X (fd_tables k) (ns_files n))
  (Hrec : idle ar) (Hspace : can_build top (k_pg k)) (Hload : ∀ data magic, o = inl (data, magic) → loadable top (k_bm k) data magic) :
  match o with
  | inr e => sys_exec a stale k ar path = Ret (- e, set_kns k n, ar)
  | inl (data, magic) =>
  ∃ r k' ar', sys_exec a stale k ar path = Ret (r, k', ar') ∧ idle ar' ∧
    (∀ t i, page_ok t → prot a (k_pg k) t → 0 ≤ i < 512 → ld64 (m_kmem (k_m k')) (slot t i) = ld64 (m_kmem (k_m k)) (slot t i)) ∧
    (∀ t, prot a (k_pg k) t → m_umem (k_m k') !! t = m_umem (k_m k) !! t) ∧
    (∀ q, q ≠ cur k → procs (k_m k') q = procs (k_m k) q) ∧ cur k' = cur k ∧ pt_wf (m_table (k_m k')) ∧
    ((r = 0 ∧ ∃ root entry rsp low fds,
        procs (k_m k') (cur k) = Some (set_fd_table fds (exec_process root entry rsp low proc)) ∧
        m_cr3 (k_m k') = root ∧ syscall_state (k_m k') = mkSaved rsp 514 entry ∧
        length fds = 16%nat ∧
        (∀ j w, fds !! j = Some w → if decide (3 ≤ Z.of_nat j) then w < 0 else fd_table proc !! j = Some w) ∧
        files_wf X (fd_tables k') (k_files k') ∧ program_start data magic entry rsp low ∧
        made a (k_pg k) root (program_pages data magic) (set_cr3 (m_cr3 (k_m k)) (k_pg k')) ∧
        (∀ x b, program_byte data magic x b → ld8 (space (k_m k')) x = b)) ∨
     ((r = -12 ∨ r = -22) ∧ m_table (k_m k') = m_table (k_m k) ∧ syscall_state (k_m k') = syscall_state (k_m k) ∧
        m_cr3 (k_m k') = m_cr3 (k_m k) ∧ unchanged a (k_pg k) (k_pg k') ∧ files_wf X (fd_tables k') (k_files k')))
  end.
Proof using HL Hstale.
  rewrite (sys_exec_looked_up k ar path o n proc Hcur Hfound). destruct o as [[data magic]|e]; [|done].
  destruct (build_image_ok top (set_kns k n) ar data magic Hspace (Hload data magic eq_refl) Hrec) as (r & q & um & ar' & -> & Hid & Hum & Hr).
  cbn [mbind outcome_bind]. destruct (built_fields (set_kns k n) q um) as (Epg & Eum & Et & Ec & Es & En). cbv zeta in *.
  set (k1 := set_built (set_kns k n) q um) in *. change (k_m (set_kns k n)) with (k_m k) in *. change (k_pg (set_kns k n)) with (k_pg k) in *.
  destruct r as [[[[root entry] rsp] low]|e].
  - destruct Hr as (Hst & Hm & Hb). assert (procs (k_m k1) (cur k) = Some proc) as Hcur1 by (unfold procs in *; by rewrite Et).
    destruct (commit_exec_ok X k1 (cur k) proc root entry rsp low Hcur1 Hfds) as (fds & f & -> & Hf & Hlf & Hfw).
    { unfold fd_tables, k_files in *. by rewrite Et, En. }
    cbn [mbind outcome_bind]. eexists 0, _, ar'. split; [done|]. split; [done|].
    set (g := λ p, set_fd_table fds (exec_process root entry rsp low p)) in *.
    assert (∀ p, pid (g p) = pid p) as Hg by done.
    assert (∀ q', procs (upd (k_m k1) (cur k) g) q' = if q' =? cur k then Some (g proc) else procs (k_m k) q') as Hprocs.
    { intros q'. rewrite (procs_upd _ _ proc) by done. destruct (q' =? cur k); [done|]. unfold procs. by rewrite Et. }
    split; [intros t i Ht Hp Hir; pose proof (md_mem _ _ _ _ _ Hm t i Ht Hp Hir) as E; by rewrite <- Epg in E|].
    split; [intros t Ht; by rewrite <- Hum, <- Eum|].
    split; [intros q' Hq'; change (procs (upd (k_m k1) (cur k) g) q' = procs (k_m k) q'); by rewrite Hprocs, (proj2 (Z.eqb_neq _ _) Hq')|].
    split; [by unfold cur in *|]. split.
    { change (pt_wf (m_table (upd (k_m k1) (cur k) g))). apply (pt_wf_shape (m_table (k_m k1))); [by apply shape_upd|done|done|by rewrite Et]. }
    left. split; [done|]. exists root, entry, rsp, low, fds.
    split; [change (procs (upd (k_m k1) (cur k) g) (cur k) = Some (g proc)); by rewrite Hprocs, Z.eqb_refl|].
    do 5 (split; [done|]). split; [done|]. split.
    + assert (set_cr3 (m_cr3 (k_m k)) (k_pg k1) = q) as Eq; [|rewrite <- Eq in Hm; exact Hm]. rewrite Epg. pose proof (md_cr3 _ _ _ _ _ Hm) as Hc. cbn in Hc. rewrite <- Hc. by destruct q.
    + intros x b Hx. rewrite <- (Hb x b Hx). rewrite <- Eum. done.
  - destruct Hr as [He Hu]. exists e, k1, ar'. split; [done|]. split; [done|].
    split; [intros t i Ht Hp Hir; pose proof (uc_mem _ _ _ Hu t i Ht Hp Hir) as E; by rewrite <- Epg in E|].
    split; [intros t Ht; by rewrite Eum, <- Hum|]. split; [intros q' _; unfold procs; by rewrite Et|].
    split; [done|]. split; [by rewrite Et|]. right. split; [done|]. split; [done|]. split; [done|].
    split; [pose proof (uc_cr3 _ _ _ Hu) as Hc; rewrite <- Epg in Hc; exact Hc|].
    split; [by rewrite Epg|]. unfold fd_tables, k_files in *. by rewrite Et, En.
Qed.
End exec.

(** ** Example *)

(** An archive with the flat program "p" of four bytes, and a process that has its name at address 8192. *)
Definition flat_tar : list tar_file := [mkTar [112] [144; 144; 235; 254] 48].
Definition flat_ns : nstate (mem * heap) := booted (tar_encode flat_tar) (Some (entries_from 0 flat_tar)) fresh_heap.
Definition exec_machine : machine := copy_out (write_cr3 loader_l4 (set_kmem loader_mem (demo_machine 1 [shell_proc FdTable_new]))) 8192 [47; 112; 0].
Definition exec_shell : kernel (mem * heap) := mkK (Tty.demo_io exec_machine) (replicate (Z.to_nat BITMAP_SIZE) 0) flat_ns.
Definition exec_stale (f : Z) : list Z := replicate 4096 170.
Definition flat_ns' : nstate (mem * heap) := match vfs_resolve flat_ns [47; 112] with Ret (_, n) => n | _ => flat_ns end.

Lemma exec_tabs_ok : tabs_ok (fd_tables exec_shell).
Proof.
  change (fd_tables exec_shell) with (FdTable_new :: replicate 63 []). split; [rewrite length_cons, length_replicate; lia|].
  apply List.Forall_cons; [split; [unfold FdTable_new; rewrite length_replicate; vm_compute; lia|]; apply Forall_replicate; unfold fd_ok, OFT_SIZE; lia|].
  apply Forall_replicate. split; [cbn; lia|apply List.Forall_nil].
Qed.

Lemma flat_files_wf : files_wf ∅ (fd_tables exec_shell) (ns_files flat_ns).
Proof.
  split; [apply exec_tabs_ok|]. assert (∀ i e, OpenFileTable_new !! i = Some e → e = None) as Hn.
  { intros i e He. by apply lookup_replicate in He as [-> _]. }
  change (fd_tables exec_shell) with (FdTable_new :: replicate 63 []). split; cbn [ns_files flat_ns booted fs_oft fs_vnodes fs_pipes fs_heap fs_statics]; try done.
  - intros i f Hf. by apply Hn in Hf.
  - intros i _ Hi. change (refs (FdTable_new :: replicate 63 []) i) with (countb (λ fd, fd =? i) FdTable_new + 0). cbn. destruct (Z.eqb_spec (-1) i); [lia|]. by destruct i.
  - intros i j f g p Hf. by apply Hn in Hf.
  - intros x. by destruct x.
  - exists ∅. split; [apply fresh_heap_rep|]. rewrite !dom_empty_L. set_solver.
Qed.

Lemma flat_files_wf' : files_wf ∅ (fd_tables exec_shell) (ns_files flat_ns').
Proof.
  destruct flat_files_wf as [Hok Hinv]. split; [done|].
  destruct (alloc_file_vnode_inv ∅ _ _ 512 4 48 Hinv) as (o & s' & E & Hinv' & _).
  assert (match alloc_file_vnode (ns_files flat_ns) 512 4 48 with Ret (_, s) => s | _ => ns_files flat_ns end = ns_files flat_ns') as E'
    by (vm_compute; reflexivity).
  rewrite E in E'. by rewrite <- E'.
Qed.

Lemma exec_pg : k_pg exec_shell = mkPg loader_mem (replicate (Z.to_nat BITMAP_SIZE) 0) loader_l4.
Proof. exact eq_refl. Qed.

Lemma exec_can_build : can_build demo_handle 4194304 (k_pg exec_shell).
Proof.
  pose proof heap_reached as R. rewrite heap_pages in R. rewrite exec_pg. split; [apply R|exact eq_refl|vm_compute; reflexivity|apply R].
Qed.

Lemma exec_stale_page f : length (exec_stale f) = 4096%nat ∧ Forall is_byte (exec_stale f).
Proof. split; [apply length_replicate|]. apply Forall_replicate. split; [discriminate|reflexivity]. Qed.

Lemma exec_table_wf : pt_wf (m_table (k_m exec_shell)).
Proof.
  assert (m_table (k_m exec_shell) = mkTable (Some (shell_proc FdTable_new) :: replicate 63 None) 2 1) as -> by (vm_compute; reflexivity).
  assert (∀ i p, (Some (shell_proc FdTable_new) :: replicate 63 None) !! i = Some (Some p) → i = 0%nat ∧ p = shell_proc FdTable_new) as Hs.
  { intros [|i'] p' Hi; [split; [done|cbn in Hi; congruence]|]. cbn [lookup list_lookup] in Hi. by apply lookup_replicate in Hi as [? _]. }
  split; cbn [slots next_pid count].
  - vm_compute. reflexivity.
  - intros i j p q [-> _]%Hs [-> _]%Hs _. done.
  - intros i p [_ ->]%Hs. vm_compute. by split.
  - vm_compute. reflexivity.
Qed.

(** Each resolution of a path to a file of the archive makes a vnode of its own, which nothing frees: after two of them the heap holds two. *)
Theorem resolve_leaks_vnode :
  ('(_, n) ← vfs_resolve flat_ns [47; 112]; '(_, n) ← vfs_resolve n [47; 112]; Ret (size (fs_vnodes (ns_files n)))) = Ret 2%nat.
Proof. vm_compute. reflexivity. Qed.

Lemma exec_looks_up : lookup_program exec_shell 8192 = Ret (inl ([144; 144; 235; 254], [144; 144; 235; 254]), flat_ns').
Proof. vm_compute. reflexivity. Qed.

Lemma exec_loadable data magic : inl ([144; 144; 235; 254], [144; 144; 235; 254]) = (inl (data, magic) : list Z * list Z + Z) →
  loadable demo_handle 4194304 (k_bm exec_shell) data magic.
Proof.
  intros [= <- <-]. split.
  - repeat (apply List.Forall_cons; [split; [discriminate|reflexivity]|]). apply List.Forall_nil.
  - vm_compute. discriminate.
  - discriminate.
  - intros _. apply demo_low.
Qed.

Lemma exec_spec_witness : ∃ k' ar', sys_exec demo_handle exec_stale exec_shell arena_init 8192 = Ret (0, k', ar') ∧
  m_cr3 (k_m k') ≠ loader_l4 ∧ sv_rip (syscall_state (k_m k')) = USER_CODE_ADDR ∧ ld8 (space (k_m k')) (USER_CODE_ADDR + 2) = 235.
Proof.
  assert (match sys_exec demo_handle exec_stale exec_shell arena_init 8192 with Ret (r, k, _) => (r, negb (m_cr3 (k_m k) =? loader_l4)) | _ => (1, false) end = (0, true)) as Hz
    by (vm_compute; reflexivity).
  pose proof (exec_spec demo_handle exec_stale exec_stale_page ∅ exec_shell arena_init 8192 (shell_proc FdTable_new)
    (inl ([144; 144; 235; 254], [144; 144; 235; 254])) flat_ns' 4194304 exec_table_wf ltac:(vm_compute; reflexivity) eq_refl exec_looks_up flat_files_wf' arena_init_idle
    exec_can_build exec_loadable) as S. cbv beta iota in S.
  destruct S as (r & k' & ar' & E & _ & _ & _ & _ & _ & _ & Hr).
  rewrite E in Hz. destruct Hr as [(-> & root & entry & rsp & low & fds & _ & _ & Hsv & _ & _ & _ & Hst & _ & Hb)|[[-> | ->] _]]; [|discriminate Hz..].
  exists k', ar'. split; [exact E|]. injection Hz as Hz. split; [by apply negb_true_iff, Z.eqb_neq in Hz|]. split.
  - rewrite Hsv. unfold program_start in Hst. rewrite bool_decide_eq_false_2 in Hst by discriminate. destruct Hst as [He _]. exact He.
  - apply Hb. unfold program_byte. rewrite bool_decide_eq_false_2 by discriminate. split; [split; vm_compute; [discriminate|reflexivity]|vm_compute; reflexivity].
Defined.
