(* ===== verification/Syscall.v ===== *)
(** * System calls (src/kernel_rust/src/syscall.rs and the registrations of vfs/mod.rs)

    A function pointer in the table is one of the constructors of [SyscallFn]; [call] is the
    call through it.  The state is the kernel's, the page records of the ELF loader and the
    words written to I/O ports.  The values [get_ticks] returns one after the other are a
    parameter: the timer interrupt sets them. *)

From Stdlib Require Import ZArith Lia.
From stdpp Require Import base numbers list list_numbers option gmap.
From S2P Require Import Prelude Pmm Memory Heap VfsTypes OpenFiles Names Paging Tty Process Signal Kernel MemCalls UserMem FileCalls Arena Elf Exec.

Local Open Scope Z_scope.

Inductive SyscallFn :=
  | fn_exit | fn_write | fn_read | fn_getpid | fn_brk | fn_nanosleep | fn_uname | fn_reboot
  | fn_fork | fn_exec | fn_waitpid | fn_mmap | fn_dup | fn_dup2 | fn_pipe | fn_kill | fn_sigaction | fn_sigreturn
  | fn_open | fn_close | fn_read_vfs | fn_write_vfs | fn_lseek | fn_getdents | fn_stat | fn_fstat | fn_chdir
  | fn_isatty | fn_tcgetattr | fn_tcsetattr | fn_getcwd.

(** ** The table *)

Definition MAX_SYSCALLS : Z := 64.
Definition SYSCALL_TABLE : list (option SyscallFn) := replicate (Z.to_nat MAX_SYSCALLS) None.

Definition register (t : list (option SyscallFn)) (num : Z) (handler : SyscallFn) : outcome (bool * list (option SyscallFn)) :=
  if MAX_SYSCALLS <=? num then Ret (false, t)
  else t ← store t num (Some handler); Ret (true, t).

(** Several registrations, whose results are not looked at. *)
Fixpoint register_all (t : list (option SyscallFn)) (l : list (Z * SyscallFn)) : outcome (list (option SyscallFn)) :=
  match l with
  | [] => Ret t
  | (num, handler) :: l => '(_, t) ← register t num handler; register_all t l
  end.

Definition init (t : list (option SyscallFn)) : outcome (list (option SyscallFn)) :=
  register_all t
    [(0, fn_exit); (1, fn_write); (2, fn_read); (3, fn_getpid); (4, fn_brk); (5, fn_nanosleep); (6, fn_uname);
     (7, fn_reboot); (8, fn_fork); (9, fn_exec); (10, fn_waitpid); (11, fn_mmap); (18, fn_dup); (19, fn_dup2);
     (20, fn_pipe); (28, fn_kill); (29, fn_sigaction); (30, fn_sigreturn)].

Definition vfs_register (t : list (option SyscallFn)) : outcome (list (option SyscallFn)) :=
  register_all t
    [(12, fn_open); (13, fn_close); (14, fn_read_vfs); (15, fn_write_vfs); (16, fn_lseek); (17, fn_getdents);
     (21, fn_stat); (22, fn_fstat); (23, fn_chdir); (24, fn_isatty); (25, fn_tcgetattr); (26, fn_tcsetattr); (27, fn_getcwd)].

Section calls.
Context {H : Type} `{HL : KHeapLaws H} (a : PmmAllocator) (stale : Z → list Z) (get_ticks : nat → Z).

Record sys := mkSys { s_k : kernel H; s_ar : arena; s_out : list (Z * Z) }.

Definition put_k (s : sys) (k : kernel H) : sys := mkSys k (s_ar s) (s_out s).
Definition s_m (s : sys) : machine := k_m (s_k s).
Definition put_m (s : sys) (m : machine) : sys := put_k s (set_m (s_k s) m).

(** ** Handlers of their own *)

Definition sys_getpid (s : sys) : Z := cur (s_k s).

(** The busy wait: the number of the next reading of the clock. *)
Fixpoint wait_ticks (start total_ticks : Z) (i fuel : nat) : outcome () :=
  if u64 (get_ticks i - start) >=? total_ticks then Ret ()
  else match fuel with O => Hang | S fuel => wait_ticks start total_ticks (S i) fuel end.

(** Reading 0 is [start]; [sec * 100] wraps. *)
Definition sys_nanosleep (sec nsec : Z) (fuel : nat) : outcome Z :=
  if 1000000000 <=? nsec then Ret U64_MAX
  else
    let total_ticks := u64 (u64 (sec * 100) + nsec / 10000000) in
    _ ← wait_ticks (get_ticks 0) total_ticks 1 fuel;
    Ret 0.

(** "VIBIX", "vibix", "0.1.0", "#1 PREEMPT Tue Jun 23 2026" and "x86_64", each with its NUL. *)
Definition uname_sysname : list Z := [86; 73; 66; 73; 88; 0].
Definition uname_nodename : list Z := [118; 105; 98; 105; 120; 0].
Definition uname_release : list Z := [48; 46; 49; 46; 48; 0].
Definition uname_version : list Z :=
  [35; 49; 32; 80; 82; 69; 69; 77; 80; 84; 32; 84; 117; 101; 32; 74; 117; 110; 32; 50; 51; 32; 50; 48; 50; 54; 0].
Definition uname_machine : list Z := [120; 56; 54; 95; 54; 52; 0].

Definition sys_uname (m : machine) (buf : Z) : Z * machine :=
  let m := copy_out m buf uname_sysname in
  let m := copy_out m (buf + 65) uname_nodename in
  let m := copy_out m (buf + 130) uname_release in
  let m := copy_out m (buf + 195) uname_version in
  let m := copy_out m (buf + 260) uname_machine in
  let m := copy_out m (buf + 325) uname_sysname in
  (0, m).

(** The result and what goes out to the port. *)
Definition sys_reboot (magic magic2 cmd : Z) : Z * list (Z * Z) :=
  if negb (magic =? 4276215469) || negb (magic2 =? 672274793) then (U64_MAX, [])
  else if cmd =? 3454992675 then (0, [(1540, 8192)])
  else if cmd =? 1126301404 then (0, [(1540, 8192)])
  else (U64_MAX, []).

(** ** Handlers on the descriptors of the current process *)

(** [process_mut(current_pid()).fd_table.fds] changed by [f]. *)
Definition on_fds (k : kernel H) (f : fstate H → FdTable → outcome (Z * FdTable * fstate H)) : outcome (Z * kernel H) :=
  proc ← process (k_m k) (cur k);
  '(r, fds, s) ← f (k_files k) (fd_table proc);
  m ← process_mut (k_m k) (cur k) (set_fd_table fds);
  Ret (r, set_kfiles (set_m k m) s).

(** The two descriptors go to user memory as [u32]s. *)
Definition pipe_call (k : kernel H) (pipefd : Z) : outcome (Z * kernel H) :=
  proc ← process (k_m k) (cur k);
  '(r, fds, out, s) ← sys_pipe (k_files k) (fd_table proc) pipefd;
  m ← process_mut (k_m k) (cur k) (set_fd_table fds);
  let k := set_kfiles (set_m k m) s in
  Ret (u64 r, match out with
              | Some (read_fd, write_fd) => k_copy_out k pipefd (le_bytes 4 read_fd ++ le_bytes 4 write_fd)
              | None => k
              end).

(** ** The call through the table *)

Definition on_kernel (s : sys) (f : kernel H → outcome (Z * kernel H)) : outcome (Z * sys) :=
  '(r, k) ← f (s_k s); Ret (r, put_k s k).

(** [as u64] of an [i64]. *)
Definition as_u64 {A} (o : outcome (Z * A)) : outcome (Z * A) := '(r, x) ← o; Ret (u64 r, x).

Definition on_machine (f : machine → outcome (Z * machine)) (k : kernel H) : outcome (Z * kernel H) :=
  '(r, m) ← f (k_m k); Ret (r, set_m k m).

Definition exec_call (s : sys) (path : Z) : outcome (Z * sys) :=
  '(r, k, ar) ← sys_exec a stale (s_k s) (s_ar s) path;
  Ret (u64 r, mkSys k ar (s_out s)).

Definition call (f : SyscallFn) (s : sys) (arg1 arg2 arg3 arg4 : Z) (fuel : nat) : outcome (Z * sys) :=
  match f with
  | fn_exit => on_kernel s (λ k, sys_exit k arg1)
  | fn_write => on_kernel s (λ k, sys_write k arg1 arg2 arg3)
  | fn_read => on_kernel s (λ k, sys_read k arg1 arg2 arg3)
  | fn_getpid => Ret (sys_getpid s, s)
  | fn_brk => on_kernel s (λ k, sys_brk a k arg1)
  | fn_nanosleep => r ← sys_nanosleep arg1 arg2 fuel; Ret (r, s)
  | fn_uname => let '(r, m) := sys_uname (s_m s) arg1 in Ret (r, put_m s m)
  | fn_reboot => let '(r, out) := sys_reboot arg1 arg2 arg3 in Ret (r, mkSys (s_k s) (s_ar s) (s_out s ++ out))
  | fn_fork => on_kernel s (λ k, as_u64 (sys_fork a k))
  | fn_exec => exec_call s arg1
  | fn_waitpid => on_kernel s (λ k, as_u64 (sys_waitpid a k (i64 arg1) arg2 arg3))
  | fn_mmap => on_kernel s (λ k, sys_mmap a k arg1 arg2 arg3 arg4)
  | fn_dup => on_kernel s (λ k, on_fds k (λ f fds, sys_dup f fds arg1))
  | fn_dup2 => on_kernel s (λ k, on_fds k (λ f fds, sys_dup2 f fds arg1 arg2))
  | fn_pipe => on_kernel s (λ k, pipe_call k arg1)
  | fn_kill => on_kernel s (on_machine (λ m, as_u64 (sys_kill m arg1 arg2)))
  | fn_sigaction => on_kernel s (on_machine (λ m, as_u64 (sys_sigaction m arg1 arg2 arg3)))
  | fn_sigreturn => on_kernel s (on_machine sys_sigreturn)
  | fn_open => on_kernel s (λ k, sys_open k arg1 arg2 arg3)
  | fn_close => on_kernel s (λ k, on_fds k (λ f fds, sys_close f fds arg1))
  | fn_read_vfs => on_kernel s (λ k, sys_read_vfs k arg1 arg2 arg3)
  | fn_write_vfs => on_kernel s (λ k, sys_write_vfs k arg1 arg2 arg3)
  | fn_lseek => on_kernel s (λ k, sys_lseek k arg1 arg2 arg3)
  | fn_getdents => on_kernel s (λ k, sys_getdents k arg1 arg2 arg3)
  | fn_stat => on_kernel s (λ k, sys_stat k arg1 arg2)
  | fn_fstat => on_kernel s (λ k, sys_fstat k arg1 arg2)
  | fn_chdir => on_kernel s (λ k, sys_chdir k arg1)
  | fn_isatty => on_kernel s (λ k, sys_isatty k arg1)
  | fn_tcgetattr => on_kernel s (λ k, sys_tcgetattr k arg1 arg2)
  | fn_tcsetattr => on_kernel s (λ k, sys_tcsetattr k arg1 arg2)
  | fn_getcwd => on_kernel s (λ k, sys_getcwd k arg1 arg2)
  end.

Definition syscall_handler (t : list (option SyscallFn)) (s : sys) (num arg1 arg2 arg3 arg4 : Z) (fuel : nat) : outcome (Z * sys) :=
  '(r, m) ← check_signals_syscall (s_m s) (cur (s_k s));
  match r with
  | Terminated | CustomPending => Ret (0, put_m s (set_should_schedule 1 m))
  | SigNone =>
      let s := put_m s m in
      if num <? MAX_SYSCALLS then
        handler ← index t num;
        match handler with
        | Some f => call f s arg1 arg2 arg3 arg4 fuel
        | None => Ret (U64_MAX, s)
        end
      else Ret (U64_MAX, s)
  end.
End calls.
Arguments sys H : clear implicits.
