(* ===== verification/SyscallSpec.v ===== *)
(** * What the system call entry promises

    Which handler a number leads to, what pending signals do to a call, and what the
    handlers of syscall.rs that have no component of their own do. *)

From Stdlib Require Import ZArith Lia.
From stdpp Require Import base numbers list list_numbers option gmap.
From S2P Require Import Prelude Pmm Memory Kmm Heap VfsTypes OpenFiles FdCalls Names Paths Paging PageSpec Tty Process Signal Kernel MemCalls UserMem FileCalls FileSpec Arena ArenaSpec Elf Exec Syscall.

Local Open Scope Z_scope.

(** ** Numbers *)

(** The system calls of VIBIX by number. *)
Definition syscall_number (num : Z) : option SyscallFn :=
  match num with
  | 0 => Some fn_exit | 1 => Some fn_write | 2 => Some fn_read | 3 => Some fn_getpid | 4 => Some fn_brk
  | 5 => Some fn_nanosleep | 6 => Some fn_uname | 7 => Some fn_reboot | 8 => Some fn_fork | 9 => Some fn_exec
  | 10 => Some fn_waitpid | 11 => Some fn_mmap | 12 => Some fn_open | 13 => Some fn_close | 14 => Some fn_read_vfs
  | 15 => Some fn_write_vfs | 16 => Some fn_lseek | 17 => Some fn_getdents | 18 => Some fn_dup | 19 => Some fn_dup2
  | 20 => Some fn_pipe | 21 => Some fn_stat | 22 => Some fn_fstat | 23 => Some fn_chdir | 24 => Some fn_isatty
  | 25 => Some fn_tcgetattr | 26 => Some fn_tcsetattr | 27 => Some fn_getcwd | 28 => Some fn_kill
  | 29 => Some fn_sigaction | 30 => Some fn_sigreturn
  | _ => None
  end.

Definition numbered : list (option SyscallFn) := syscall_number <$> seqZ 0 MAX_SYSCALLS.

(** The boot code registers the handlers in two places; together they fill the table as numbered. *)
Lemma boot_table : (t ← init SYSCALL_TABLE; vfs_register t) = Ret numbered.
Proof. vm_compute. reflexivity. Qed.

Lemma number_range num : 31 ≤ num → syscall_number num = None.
Proof. intros Hn. destruct num as [|n|n]; [lia| |done]. do 5 (destruct n as [n|n|]; try done; try (cbn; lia)). Qed.

Lemma numbered_index num : 0 ≤ num < MAX_SYSCALLS → index numbered num = Ret (syscall_number num).
Proof.
  intros Hn. unfold index, numbered. rewrite list_lookup_fmap, lookup_seqZ_lt by lia. cbn.
  by replace (Z.of_nat (Z.to_nat num)) with num by lia.
Qed.

(** ** The check for signals *)

(** A signal that ends the process before the call: inside a handler only SIGKILL does. *)
Definition deadly (p : Process) (s : Z) : Prop :=
  if in_signal p then s = SIGKILL ∧ Z.testbit (sig_pending p) SIGKILL = true else 1 ≤ s < 32 ∧ verdict_of p s = Fatal.

(** A signal whose handler must run first. *)
Definition catchable (p : Process) (s : Z) : Prop := in_signal p = false ∧ 1 ≤ s < 32 ∧ ∃ h, verdict_of p s = Custom h.

(** What is left of the pending signals when the call goes ahead: outside a handler ignored signals are dropped. *)
Definition spared (p : Process) (x : Z) : Prop :=
  ∀ s, 0 ≤ s → Z.testbit x s = Z.testbit (sig_pending p) s && (in_signal p || negb ((1 <=? s) && (s <? 32) && discards p s)).

Lemma no_pending p s : sig_pending p = 0 → verdict_of p s = NotPending.
Proof. intros E. unfold verdict_of. by rewrite E, Z.testbit_0_l. Qed.

Lemma check_cases m q p : q ≠ 0 → q ≠ 2 → procs m q = Some p → sigs_wf p →
  (∃ s m', deadly p s ∧ check_signals_syscall m q = Ret (Terminated, m') ∧
     ∃ p', procs m' q = Some p' ∧ state p' = Zombie ∧ exit_code p' = 128 + s) ∨
  ((∀ s, ¬ deadly p s) ∧ (∃ s, catchable p s) ∧ ∃ x, spared p x ∧
     check_signals_syscall m q = Ret (CustomPending, upd m q (set_sig_pending x))) ∨
  ((∀ s, ¬ deadly p s) ∧ (∀ s, ¬ catchable p s) ∧ ∃ x, spared p x ∧
     check_signals_syscall m q = Ret (SigNone, upd m q (set_sig_pending x))).
Proof.
  intros H0 H2 Hp Hwf. unfold check_signals_syscall, deadly, catchable, spared.
  rewrite (proj2 (Z.eqb_neq q 0) H0), (proj2 (Z.eqb_neq q 2) H2). cbn [orb].
  rewrite (process_ret _ _ _ Hp). cbn [mbind outcome_bind].
  assert (upd m q (set_sig_pending (sig_pending p)) = m) as Hid by (rewrite (upd_id _ _ _ p); [done|done|by destruct p]).
  destruct (Z.eqb_spec (sig_pending p) 0) as [E|E].
  { right. right. pose proof (λ s, no_pending p s E) as Hn. split; [|split].
    - intros s. destruct (in_signal p); [rewrite E, Z.testbit_0_l; by intros []|]. rewrite Hn. by intros [].
    - intros s (_ & _ & h & Hh). by rewrite Hn in Hh.
    - exists (sig_pending p). rewrite Hid. split; [|done]. intros s Hs. by rewrite E, Z.testbit_0_l. }
  destruct (in_signal p) eqn:Hin.
  - rewrite land_bit_eqb by done. destruct (Z.testbit (sig_pending p) SIGKILL) eqn:Hk; cbn [negb].
    + left. rewrite (process_mut_ret _ _ p) by done. cbn [mbind outcome_bind].
      destruct (zombie_ret m q (clear_sig SIGKILL) p (128 + SIGKILL)) as (m' & -> & Hz & _); [done|done|].
      exists SIGKILL, m'. split; [done|]. split; [done|]. eexists. rewrite Hz, Z.eqb_refl. done.
    + right. right. split; [by intros s []|]. split; [by intros s []|]. exists (sig_pending p). rewrite Hid. split; [|done].
      intros s Hs. cbn [orb]. by rewrite andb_true_r.
  - destruct (check_loop_cases q 31 1 m p SigNone) as [(s & x & Hs & Hf & _ & _ & Hr)|(Hnf & x & res & Hx & Hr & Hc)]; [lia|lia|done|done|..];
      change (seqZ 1 (Z.of_nat 31)) with all_sigs in Hr; rewrite Hr.
    + left. destruct (zombie_ret m q (λ p, clear_sig s (set_sig_pending x p)) p (128 + s)) as (m' & -> & Hz & _); [done|done|].
      exists s, m'. split; [done|]. split; [done|]. eexists. rewrite Hz, Z.eqb_refl. done.
    + right. assert (∀ s, ¬ (1 ≤ s < 32 ∧ verdict_of p s = Fatal)) as Hnd by (intros s [Hs Hf]; by apply (Hnf s)).
      destruct Hc as [[(s & h & Hs & Hh) ->]|[Hn ->]]; [left|right]; (split; [done|]); split.
      * exists s. split; [done|]. split; [done|by exists h].
      * exists x. split; [|done]. intros s' Hs'. cbn [orb]. rewrite (Hx s' Hs'). done.
      * intros s (_ & Hs & h & Hh). apply Hn. by exists s, h.
      * exists x. split; [|done]. intros s' Hs'. cbn [orb]. rewrite (Hx s' Hs'). done.
Qed.

Section handler.
Context {H : Type} `{HL : KHeapLaws H} (a : PmmAllocator) (stale : Z → list Z) (get_ticks : nat → Z).

(** C5: A system call with the table as the boot code fills it.  If a deadly signal is pending, the
    process becomes a zombie with exit code 128 plus the signal and the handler is not run; if
    one with a handler is pending, the call is abandoned with result 0 for the scheduler to deliver it;
    both ask for a reschedule.  Otherwise, with ignored signals dropped, the result is what the handler registered
    for the number gives, and a number that is not assigned, of any size, gives -1 and changes nothing. *)
Theorem syscall_handler_spec (s : sys H) (p : Process) (num arg1 arg2 arg3 arg4 : Z) (fuel : nat) (table : list (option SyscallFn))
  (Hboot : (t ← init SYSCALL_TABLE; vfs_register t) = Ret table)
  (Hnum : 0 ≤ num) (Hq : cur (s_k s) ≠ 0 ∧ cur (s_k s) ≠ 2) (Hp : procs (s_m s) (cur (s_k s)) = Some p) (Hwf : sigs_wf p) :
  let run := syscall_handler a stale get_ticks table s num arg1 arg2 arg3 arg4 fuel in
  (∃ sig m' p', deadly p sig ∧ run = Ret (0, put_m s m') ∧ should_schedule m' = 1 ∧
     procs m' (cur (s_k s)) = Some p' ∧ state p' = Zombie ∧ exit_code p' = 128 + sig) ∨
  ((∀ sig, ¬ deadly p sig) ∧ (∃ sig, catchable p sig) ∧
     ∃ m' x, run = Ret (0, put_m s m') ∧ should_schedule m' = 1 ∧ spared p x ∧ procs m' (cur (s_k s)) = Some (set_sig_pending x p)) ∨
  ((∀ sig, ¬ deadly p sig) ∧ (∀ sig, ¬ catchable p sig) ∧
     ∃ x, spared p x ∧ let s' := put_m s (upd (s_m s) (cur (s_k s)) (set_sig_pending x)) in
       run = match syscall_number num with
             | Some f => call a stale get_ticks f s' arg1 arg2 arg3 arg4 fuel
             | None => Ret (U64_MAX, s')
             end).
Proof.
  intros run. subst run. unfold syscall_handler. rewrite boot_table in Hboot. injection Hboot as <-.
  set (q := cur (s_k s)) in *. destruct Hq as [Hq0 Hq2].
  destruct (check_cases (s_m s) q p Hq0 Hq2 Hp Hwf) as [(sig & m' & Hd & -> & p' & Hp' & Hz & He)|[(Hd & Hc & x & Hx & ->)|(Hd & Hc & x & Hx & ->)]];
    cbn [mbind outcome_bind].
  - left. exists sig, (set_should_schedule 1 m'), p'. done.
  - right. left. split; [done|]. split; [done|]. exists (set_should_schedule 1 (upd (s_m s) q (set_sig_pending x))), x.
    split; [done|]. split; [done|]. split; [done|]. change (procs (upd (s_m s) q (set_sig_pending x)) q = Some (set_sig_pending x p)).
    by rewrite (procs_upd _ _ p), Z.eqb_refl.
  - right. right. split; [done|]. split; [done|]. exists x. split; [done|]. cbv zeta. destruct (Z.ltb_spec num MAX_SYSCALLS) as [Hl|Hl].
    + by rewrite numbered_index by lia.
    + by rewrite number_range by (unfold MAX_SYSCALLS in Hl; lia).
Qed.

(** ** Sleeping *)

Lemma wait_hangs start total i fuel : (∀ n, u64 (get_ticks n - start) < total) → wait_ticks get_ticks start total i fuel = Hang.
Proof.
  revert i. induction fuel as [|fuel IH]; intros i Hn; cbn [wait_ticks]; specialize (Hn i) as Hi;
    rewrite Z.geb_leb, (proj2 (Z.leb_gt _ _)) by lia; [done|by apply IH].
Qed.

Lemma wait_returns start total n : ∀ i fuel, (i ≤ n)%nat → (n - i ≤ fuel)%nat → total ≤ u64 (get_ticks n - start) →
  wait_ticks get_ticks start total i fuel = Ret ().
Proof.
  intros i fuel. revert i. induction fuel as [|fuel IH]; intros i Hi Hf Hn; cbn [wait_ticks]; rewrite Z.geb_leb.
  - assert (i = n) as -> by lia. by rewrite (proj2 (Z.leb_le _ _)).
  - destruct (Z.leb_spec total (u64 (get_ticks i - start))); [done|]. apply IH; [|lia|done].
    destruct (decide (i = n)) as [->|]; lia.
Qed.

(** Sleeping.  An invalid nanosecond count is refused at once.  If some later reading of the clock is the requested
    time or more after the first, the call returns 0, with as many rounds of fuel as there are readings up to it; and it returns only
    in that case: while no reading is late enough it waits for ever. *)
Theorem nanosleep_spec (sec nsec : Z) (Hsec : 0 ≤ sec) (Hnsec : 0 ≤ nsec) (Hfit : sec * 100 + nsec / 10000000 < 2 ^ 64) :
  let late n := sec * 100 + nsec / 10000000 ≤ u64 (get_ticks n - get_ticks 0) in
  (1000000000 ≤ nsec → ∀ fuel, sys_nanosleep get_ticks sec nsec fuel = Ret U64_MAX) ∧
  (nsec < 1000000000 → ∀ n fuel, (1 ≤ n)%nat → late n → (n ≤ fuel)%nat → sys_nanosleep get_ticks sec nsec fuel = Ret 0) ∧
  (nsec < 1000000000 → (∀ n, ¬ late n) → ∀ fuel, sys_nanosleep get_ticks sec nsec fuel = Hang).
Proof.
  intros late. unfold sys_nanosleep. pose proof (Z.div_pos nsec 10000000 Hnsec ltac:(lia)).
  assert (u64 (u64 (sec * 100) + nsec / 10000000) = sec * 100 + nsec / 10000000) as Et by (rewrite (u64_small (sec * 100)), u64_small by lia; done).
  split; [|split].
  - intros Hn fuel. by rewrite (proj2 (Z.leb_le _ _) Hn).
  - intros Hn n fuel Hi Hl Hf. rewrite (proj2 (Z.leb_gt _ _) Hn). cbv zeta. rewrite Et, (wait_returns _ _ n); [done|done|lia|exact Hl].
  - intros Hn Hl fuel. rewrite (proj2 (Z.leb_gt _ _) Hn). cbv zeta. rewrite Et, wait_hangs; [done|]. intros n. specialize (Hl n). unfold late in Hl. lia.
Qed.
End handler.

Lemma nanosleep_spec_witness : sys_nanosleep (λ n, 7 + Z.of_nat n) 0 50000000 5 = Ret 0.
Proof.
  destruct (nanosleep_spec (λ n, 7 + Z.of_nat n) 0 50000000) as (_ & Hr & _); [lia|lia|vm_compute; reflexivity|].
  apply (Hr ltac:(lia) 5%nat); [lia|vm_compute; discriminate|lia].
Defined.

(** System calls run with interrupts masked ([IA32_FMASK] has the interrupt flag), so no timer tick is counted
    during the wait: a sleep of a tick or more never ends. *)
Theorem nanosleep_never_ends (ticks sec nsec : Z) (fuel : nat) : 0 ≤ sec → 0 ≤ nsec < 1000000000 → 0 < sec * 100 + nsec / 10000000 < 2 ^ 64 →
  sys_nanosleep (λ _, ticks) sec nsec fuel = Hang.
Proof.
  intros Hs Hn Ht. unfold sys_nanosleep. rewrite (proj2 (Z.leb_gt _ _)) by lia. pose proof (Z.div_pos nsec 10000000 ltac:(lia) ltac:(lia)).
  cbv zeta. rewrite wait_hangs; [done|]. intros _. rewrite Z.sub_diag. change (u64 0) with 0. rewrite (u64_small (sec * 100)) by lia. rewrite u64_small by lia. lia.
Qed.

(** ** Examples *)

(** The process of the descriptor examples, with the signals [pending] and the handler [h] for SIGUSR1. *)
Definition sig_shell (pending h : Z) : sys (mem * heap) :=
  let proc := set_sig_pending pending (set_sigactions (<[10%nat := mkSig h 0 0]> (replicate 32 SigAction_default)) (shell_proc FdTable_new)) in
  mkSys (mkK (Tty.demo_io (write_cr3 4096 (demo_machine 1 [proc]))) [] (booted [] None fresh_heap)) arena_init [].

Lemma syscall_handler_spec_witness :
  syscall_handler demo_handle (λ _, []) (λ _, 0) numbered (sig_shell 0 0) 3 0 0 0 0 0 = Ret (1, sig_shell 0 0).
Proof.
  destruct (syscall_handler_spec demo_handle (λ _, []) (λ _, 0) (sig_shell 0 0)
    (set_sigactions (<[10%nat := mkSig 0 0 0]> (replicate 32 SigAction_default)) (shell_proc FdTable_new)) 3 0 0 0 0 0 numbered)
    as [(sig & _ & _ & Hd & _)|[(_ & (sig & _ & _ & h & Hh) & _)|(_ & _ & x & Hx & ->)]].
  - vm_compute. reflexivity.
  - lia.
  - split; discriminate.
  - vm_compute. reflexivity.
  - reflexivity.
  - exfalso. destruct Hd as [_ Hd]. by rewrite no_pending in Hd.
  - exfalso. by rewrite no_pending in Hh.
  - assert (x = 0) as ->.
    { apply Z.bits_inj'. intros n Hn. rewrite (Hx n Hn). change (sig_pending _) with 0. by rewrite Z.testbit_0_l. }
    vm_compute. reflexivity.
Defined.

(** A [fork] with a caught signal pending does not fork and returns 0, the value that tells a program it is the child. *)
Theorem pending_signal_drops_fork :
  match syscall_handler demo_handle (λ _, []) (λ _, 0) numbered (sig_shell (2 ^ 10) 4096) 8 0 0 0 0 0 with
  | Ret (r, s) => r = 0 ∧ count (m_table (s_m s)) = count (m_table (s_m (sig_shell (2 ^ 10) 4096)))
  | _ => False
  end.
Proof. vm_compute. by split. Qed.

(** The commands for a restart and for switching the machine off send the same word to the same port. *)
Theorem restart_is_power_off : sys_reboot 4276215469 672274793 3454992675 = sys_reboot 4276215469 672274793 1126301404.
Proof. reflexivity. Qed.
