(* ===== verification/Interrupts.v ===== *)
(** * Interrupts (src/kernel_rust/src/interrupts.rs, pit.rs)

    The descriptor table, the interrupt controllers and the dispatch of device interrupts.
    The controllers are a parameter: [Ports] is port I/O on a state of the devices, and
    [PicLaws] says what the data sheet of the 8259A promises about the words the kernel writes.  The addresses of the
    entry points in interrupts.asm are parameters too. *)

From Stdlib Require Import ZArith Lia String Ascii.
From stdpp Require Import base numbers list list_numbers option.
From S2P Require Import Prelude Keyboard Serial.

Local Open Scope Z_scope.

(** ** The descriptor table *)

Record IdtEntry := mkIdt {
  offset_low : Z; selector : Z; ist : Z; flags : Z; offset_mid : Z; offset_high : Z; reserved : Z
}.

Definition missing : IdtEntry := mkIdt 0 0 0 0 0 0 0.

Definition set_handler (handler sel dpl : Z) : IdtEntry :=
  mkIdt (u16 handler) sel 0 (Z.lor 142 (u8 (Z.shiftl (Z.land dpl 3) 5))) (u16 (Z.shiftr handler 16)) (u32 (Z.shiftr handler 32)) 0.

Definition Idt_new : list IdtEntry := replicate 256 missing.

Definition Idt_set (idt : list IdtEntry) (index handler sel dpl : Z) : outcome (list IdtEntry) :=
  if index <? 256 then store idt index (set_handler handler sel dpl) else Ret idt.

(** ** Port I/O *)

Class Ports (D : Type) := {
  outb : Z → Z → D → D;
  inb : Z → D → Z
}.

Definition PIC1_COMMAND : Z := 32.
Definition PIC1_DATA : Z := 33.
Definition PIC2_COMMAND : Z := 160.
Definition PIC2_DATA : Z := 161.
Definition PIC_ICW1 : Z := 17.
Definition PIC_ICW4_8086 : Z := 1.

Section pic.
Context {D : Type} `{Ports D}.

Definition remap_pic (master_offset slave_offset : Z) (d : D) : D :=
  let mask1 := inb PIC1_DATA d in
  let mask2 := inb PIC2_DATA d in
  let d := outb PIC1_COMMAND PIC_ICW1 d in
  let d := outb PIC2_COMMAND PIC_ICW1 d in
  let d := outb PIC1_DATA master_offset d in
  let d := outb PIC2_DATA slave_offset d in
  let d := outb PIC1_DATA 4 d in
  let d := outb PIC2_DATA 2 d in
  let d := outb PIC1_DATA PIC_ICW4_8086 d in
  let d := outb PIC2_DATA PIC_ICW4_8086 d in
  let d := outb PIC1_DATA mask1 d in
  outb PIC2_DATA mask2 d.

Definition mask_irq (irq : Z) (d : D) : D :=
  if irq <? 8 then outb PIC1_DATA (Z.lor (inb PIC1_DATA d) (bit irq)) d
  else if irq <? 16 then outb PIC2_DATA (Z.lor (inb PIC2_DATA d) (bit (irq - 8))) d
  else d.

Definition unmask_irq (irq : Z) (d : D) : D :=
  if irq <? 8 then outb PIC1_DATA (and_not (inb PIC1_DATA d) (bit irq)) d
  else if irq <? 16 then outb PIC2_DATA (and_not (inb PIC2_DATA d) (bit (irq - 8))) d
  else d.

(** ** Initialisation *)

Section init.
Context (ISR_STUBS IRQ_STUBS : Z → Z).

(** The entries [first .. first+n-1], entry [first + i] for stub [i]. *)
Fixpoint set_stubs (idt : list IdtEntry) (stubs : Z → Z) (first i : Z) (n : nat) : outcome (list IdtEntry) :=
  match n with
  | O => Ret idt
  | S n =>
      idt ← Idt_set idt (first + i) (stubs i) 8 0;
      set_stubs idt stubs first (i + 1) n
  end.

Definition init_interrupts (idt : list IdtEntry) (d : D) : outcome (list IdtEntry * D) :=
  idt ← set_stubs idt ISR_STUBS 0 0 32;
  idt ← set_stubs idt IRQ_STUBS 32 0 16;
  Ret (idt, remap_pic 32 40 d).
End init.
End pic.

(** The operand of [lidt]. *)
Definition idt_limit : Z := u16 (256 * 16 - 1).

(** ** The timer *)

Definition PIT_CH0 : Z := 64.
Definition PIT_CMD : Z := 67.
Definition PIT_BASE_FREQ : Z := 1193182.
Definition TARGET_FREQ : Z := 100.
Definition PIT_DIVISOR : Z := u16 (PIT_BASE_FREQ / TARGET_FREQ).
Definition PIT_CMD_VALUE : Z := 54.

Definition pit_init {D} `{Ports D} (d : D) : D :=
  let d := outb PIT_CMD PIT_CMD_VALUE d in
  let d := outb PIT_CH0 (u8 (Z.land PIT_DIVISOR 255)) d in
  outb PIT_CH0 (u8 (Z.shiftr PIT_DIVISOR 8)) d.

(** [PIT_TICKS += 1]; the heartbeat is printed by the debug build only. *)
Definition tick (ticks : Z) : Z := u64 (ticks + 1).

(** ** Device interrupts *)

(** What the interrupt handler changes; [status] and [scancode] are what the keyboard ports return. *)
Definition irq_handler (int_no : Z) (ticks : Z) (k : Keyboard.kbd) (status scancode : Z) : outcome (Z * Keyboard.kbd) :=
  let irq := u64 (int_no - 32) in
  if irq =? 0 then Ret (tick ticks, k)
  else if irq =? 1 then k ← Keyboard.handle_keyboard k status scancode; Ret (ticks, k)
  else Ret (ticks, k).

(** ** Exceptions *)

(** The bytes of a string literal. *)
Definition bytes (s : string) : list Z := (λ c, Z.of_N (N_of_ascii c)) <$> list_ascii_of_string s.

Definition EXCEPTION_NAMES : list string :=
  ["Divide-by-zero"; "Debug"; "Non-maskable Interrupt"; "Breakpoint"; "Overflow"; "Bound Range Exceeded"; "Invalid Opcode";
   "Device Not Available"; "Double Fault"; "Coprocessor Segment Overrun"; "Invalid TSS"; "Segment Not Present";
   "Stack-Segment Fault"; "General Protection Fault"; "Page Fault"; "Reserved"; "x87 FPU Error"; "Alignment Check";
   "Machine Check"; "SIMD FP Exception"; "Virtualization Exception"; "Control Protection"; "Reserved"; "Reserved";
   "Reserved"; "Reserved"; "Reserved"; "Reserved"; "Reserved"; "Reserved"; "Security Exception"; "Reserved"]%string.

Definition hex_digit (nibble : Z) : Z := if nibble <? 10 then 48 + nibble else 55 + nibble.

(** [hex_str]: "0x" and sixteen digits, the highest first. *)
Definition hex_str (val : Z) : list Z :=
  [48; 120] ++ ((λ i, hex_digit (Z.land (Z.shiftr val (60 - i * 4)) 15)) <$> seqZ 0 16).

Record SavedRegisters := mkRegs {
  rax : Z; rcx : Z; rdx : Z; rbx : Z; rbp : Z; rsi : Z; rdi : Z; r8 : Z; r9 : Z; r10 : Z; r11 : Z; r12 : Z; r13 : Z; r14 : Z; r15 : Z
}.

Record InterruptFrame := mkFrame {
  regs : SavedRegisters; int_no : Z; err_code : Z; rip : Z; cs : Z; rflags : Z; user_rsp : Z; ss : Z
}.

(** Decimal digits, as [write!] prints an unsigned number of at most 20 digits. *)
Fixpoint decimal (x : Z) (fuel : nat) : list Z :=
  match fuel with
  | O => []
  | S fuel => (if x <? 10 then [] else decimal (x / 10) fuel) ++ [48 + x mod 10]
  end.

Definition report_line (label : string) (val : Z) : list Z := bytes label ++ hex_str val ++ [10].

(** What the release build prints; [cr2] is the register's content. *)
Definition exception_report (f : InterruptFrame) (cr2 : Z) : list Z :=
  let name := if int_no f <? Z.of_nat (length EXCEPTION_NAMES)
              then default EmptyString (EXCEPTION_NAMES !! Z.to_nat (int_no f)) else "Unknown"%string in
  let cr2 := if int_no f =? 14 then cr2 else 0 in
  [10] ++ bytes "========================================" ++ [10] ++ bytes "VIBIX: EXCEPTION: " ++
  bytes name ++ bytes " (#" ++ decimal (int_no f) 20 ++ bytes ")" ++ [10] ++
  report_line "VIBIX:   RIP: " (rip f) ++ report_line "VIBIX:    CS: " (cs f) ++ report_line "VIBIX: RFLAGS: " (rflags f) ++
  report_line "VIBIX:   ERR: " (err_code f) ++ report_line "VIBIX:   CR2: " cr2 ++ bytes "VIBIX: Registers:" ++ [10] ++
  report_line "VIBIX:   RAX: " (rax (regs f)) ++ report_line "VIBIX:   RBX: " (rbx (regs f)) ++
  report_line "VIBIX:   RCX: " (rcx (regs f)) ++ report_line "VIBIX:   RDX: " (rdx (regs f)) ++
  report_line "VIBIX:   RSI: " (rsi (regs f)) ++ report_line "VIBIX:   RDI: " (rdi (regs f)) ++
  report_line "VIBIX:   RBP: " (rbp (regs f)) ++ report_line "VIBIX:    R8: " (r8 (regs f)) ++
  report_line "VIBIX:    R9: " (r9 (regs f)) ++ report_line "VIBIX:   R10: " (r10 (regs f)) ++
  report_line "VIBIX:   R11: " (r11 (regs f)) ++ report_line "VIBIX:   R12: " (r12 (regs f)) ++
  report_line "VIBIX:   R13: " (r13 (regs f)) ++ report_line "VIBIX:   R14: " (r14 (regs f)) ++
  report_line "VIBIX:   R15: " (r15 (regs f)) ++ bytes "========================================" ++ [10].

(** The state of the serial port in which the handler halts for good. *)
Definition interrupt_handler (s : serial) (f : InterruptFrame) (cr2 : Z) : serial := serial_write s (exception_report f cr2).
