(* ===== verification/InterruptSpec.v ===== *)
(** * What the set-up of interrupts promises *)

From Stdlib Require Import ZArith Lia String.
From stdpp Require Import base numbers list list_numbers option.
From S2P Require Import Prelude Keyboard Serial Interrupts.

Local Open Scope Z_scope.

(** ** Gates *)

(** The address the processor jumps to through a gate. *)
Definition gate_offset (e : IdtEntry) : Z := offset_low e + offset_mid e * 2 ^ 16 + offset_high e * 2 ^ 32.

(** A present interrupt gate for ring 0 to [h] in the kernel's code segment, on the current stack. *)
Record gate_to (h : Z) (e : IdtEntry) : Prop := {
  gt_offset : gate_offset e = h;
  gt_segment : selector e = 8;
  gt_type : flags e = 142 ∧ ist e = 0
}.

Lemma set_handler_gate h : 0 ≤ h < 2 ^ 64 → gate_to h (set_handler h 8 0).
Proof.
  intros Hh. split; [|done|done]. unfold gate_offset, set_handler, u16, u32. cbn [offset_low offset_mid offset_high].
  rewrite !Z.shiftr_div_pow2 by lia.
  pose proof (Z.div_mod h (2 ^ 16)). pose proof (Z.div_mod (h / 2 ^ 16) (2 ^ 16)).
  rewrite Z.div_div in * by lia. change (2 ^ 16 * 2 ^ 16) with (2 ^ 32) in *.
  rewrite (Z.mod_small (h / 2 ^ 32)); [lia|]. split; [apply Z.div_pos; lia|apply Z.div_lt_upper_bound; lia].
Qed.

Lemma set_stubs_spec stubs n : ∀ idt first i, length idt = 256%nat → 0 ≤ first + i → first + i + Z.of_nat n ≤ 256 →
  ∃ idt', set_stubs idt stubs first i n = Ret idt' ∧ length idt' = 256%nat ∧
    ∀ v, 0 ≤ v < 256 → idt' !! Z.to_nat v =
      if (first + i <=? v) && (v <? first + i + Z.of_nat n) then Some (set_handler (stubs (v - first)) 8 0) else idt !! Z.to_nat v.
Proof.
  induction n as [|n IH]; intros idt first i Hl Hi Hn; cbn [set_stubs].
  - exists idt. split; [done|]. split; [done|]. intros v Hv. zcases; lia || done.
  - unfold Idt_set. rewrite (proj2 (Z.ltb_lt _ _)) by lia. rewrite store_in_range by (rewrite Hl; lia). cbn [mbind outcome_bind].
    destruct (IH (<[Z.to_nat (first + i) := set_handler (stubs i) 8 0]> idt) first (i + 1)) as (idt' & -> & Hl' & Hv'); [by rewrite length_insert|lia|lia|].
    exists idt'. split; [done|]. split; [done|]. intros v Hv. rewrite (Hv' v Hv). destruct (decide (v = first + i)) as [->|Hne].
    + replace (first + i - first) with i by lia. rewrite list_lookup_insert_eq by lia. zcases; lia || done.
    + rewrite list_lookup_insert_ne by lia. zcases; lia || done.
Qed.

(** ** The controllers *)

(** A chip is the master (false) or the slave (true).  [icw] is the initialisation word a chip waits for, 0 when
    it is in operation; [base] its first vector; [imr] its mask register. *)
Class PicView (D : Type) := {
  icw : bool → D → Z;
  base : bool → D → Z;
  imr : bool → D → Z
}.

Definition command (c : bool) : Z := if c then PIC2_COMMAND else PIC1_COMMAND.
Definition data_port (c : bool) : Z := if c then PIC2_DATA else PIC1_DATA.

(** The data sheet: what the words do to the chip they are written to; the other chip sees nothing. *)
Class PicLaws (D : Type) `{Ports D, PicView D} : Prop := {
  law_icw1 c d : let d' := outb (command c) PIC_ICW1 d in icw c d' = 2 ∧ base c d' = base c d ∧ imr c d' = 0;
  law_icw2 c v d : icw c d = 2 → let d' := outb (data_port c) v d in icw c d' = 3 ∧ base c d' = Z.land v 248 ∧ imr c d' = imr c d;
  law_icw3 c v d : icw c d = 3 → let d' := outb (data_port c) v d in icw c d' = 4 ∧ base c d' = base c d ∧ imr c d' = imr c d;
  law_icw4 c v d : icw c d = 4 → let d' := outb (data_port c) v d in icw c d' = 0 ∧ base c d' = base c d ∧ imr c d' = imr c d;
  law_ocw1 c v d : icw c d = 0 → let d' := outb (data_port c) v d in icw c d' = 0 ∧ base c d' = base c d ∧ imr c d' = v;
  law_read c d : icw c d = 0 → inb (data_port c) d = imr c d;
  law_other c c' p v d : c' ≠ c → p = command c ∨ p = data_port c →
    let d' := outb p v d in icw c' d' = icw c' d ∧ base c' d' = base c' d ∧ imr c' d' = imr c' d
}.

(** The vector at which line [irq] interrupts, and whether it is masked. *)
Definition irq_vector {D} `{PicView D} (d : D) (irq : Z) : Z := if irq <? 8 then base false d + irq else base true d + (irq - 8).
Definition irq_masked {D} `{PicView D} (d : D) (irq : Z) : bool := if irq <? 8 then Z.testbit (imr false d) irq else Z.testbit (imr true d) (irq - 8).

Section pic.
Context {D : Type} `{PicLaws D}.

(** Both chips in operation. *)
Definition running (d : D) : Prop := icw false d = 0 ∧ icw true d = 0.

(** The state of a chip. *)
Definition chip (c : bool) (i b m : Z) (d : D) : Prop := icw c d = i ∧ base c d = b ∧ imr c d = m.

Lemma chip_other c c' p v d i b m : c' ≠ c → p = command c ∨ p = data_port c → chip c' i b m d → chip c' i b m (outb p v d).
Proof. intros Hc Hp (? & ? & ?). destruct (law_other c c' p v d Hc Hp) as (? & ? & ?). unfold chip. split_and!; congruence. Qed.

Lemma chip_icw1 c d i b m : chip c i b m d → chip c 2 b 0 (outb (command c) PIC_ICW1 d).
Proof. intros (? & ? & ?). destruct (law_icw1 c d) as (? & ? & ?). unfold chip. split_and!; congruence. Qed.

Lemma chip_icw2 c v d b m : chip c 2 b m d → chip c 3 (Z.land v 248) m (outb (data_port c) v d).
Proof. intros (? & ? & ?). destruct (law_icw2 c v d) as (? & ? & ?); [done|]. unfold chip. split_and!; congruence. Qed.

Lemma chip_icw3 c v d b m : chip c 3 b m d → chip c 4 b m (outb (data_port c) v d).
Proof. intros (? & ? & ?). destruct (law_icw3 c v d) as (? & ? & ?); [done|]. unfold chip. split_and!; congruence. Qed.

Lemma chip_icw4 c v d b m : chip c 4 b m d → chip c 0 b m (outb (data_port c) v d).
Proof. intros (? & ? & ?). destruct (law_icw4 c v d) as (? & ? & ?); [done|]. unfold chip. split_and!; congruence. Qed.

Lemma chip_ocw1 c v d b m : chip c 0 b m d → chip c 0 b v (outb (data_port c) v d).
Proof. intros (? & ? & ?). destruct (law_ocw1 c v d) as (? & ? & ?); [done|]. unfold chip. split_and!; congruence. Qed.

(** A word for chip [c] passes the other one by. *)
Ltac passes_by C c p v := eapply (chip_other c (negb c) p v) in C; [|done|by (left + right)].

Lemma remap_pic_spec m s d : running d → let d' := remap_pic m s d in
  running d' ∧ base false d' = Z.land m 248 ∧ base true d' = Z.land s 248 ∧ imr false d' = imr false d ∧ imr true d' = imr true d.
Proof.
  intros [R1 R2]. cbv zeta. unfold remap_pic. rewrite (law_read false d R1 : inb PIC1_DATA d = _), (law_read true d R2 : inb PIC2_DATA d = _).
  set (m1 := imr false d) in *. set (m2 := imr true d) in *.
  assert (chip false 0 (base false d) m1 d) as C1 by done. assert (chip true 0 (base true d) m2 d) as C2 by done.
  apply chip_icw1 in C1. passes_by C2 false (command false) PIC_ICW1.
  apply chip_icw1 in C2. passes_by C1 true (command true) PIC_ICW1.
  apply (chip_icw2 _ m) in C1. passes_by C2 false (data_port false) m.
  apply (chip_icw2 _ s) in C2. passes_by C1 true (data_port true) s.
  apply (chip_icw3 _ 4) in C1. passes_by C2 false (data_port false) 4.
  apply (chip_icw3 _ 2) in C2. passes_by C1 true (data_port true) 2.
  apply (chip_icw4 _ PIC_ICW4_8086) in C1. passes_by C2 false (data_port false) PIC_ICW4_8086.
  apply (chip_icw4 _ PIC_ICW4_8086) in C2. passes_by C1 true (data_port true) PIC_ICW4_8086.
  apply (chip_ocw1 _ m1) in C1. passes_by C2 false (data_port false) m1.
  apply (chip_ocw1 _ m2) in C2. passes_by C1 true (data_port true) m2.
  destruct C1 as (? & ? & ?), C2 as (? & ? & ?). by split_and!.
Qed.

(** Masking and unmasking change the one line. *)
Lemma set_mask_spec c v d : running d → let d' := outb (data_port c) v d in
  running d' ∧ (∀ c', base c' d' = base c' d) ∧ imr c d' = v ∧ imr (negb c) d' = imr (negb c) d.
Proof.
  intros [R1 R2]. cbv zeta. assert (∀ c, chip c 0 (base c d) (imr c d) d) as C by (intros []; done).
  destruct c.
  - pose proof (chip_ocw1 true v d _ _ (C true)) as (? & ? & ?). pose proof (C false) as C'. passes_by C' true (data_port true) v.
    destruct C' as (? & ? & ?). split; [by split|]. split; [by intros []|]. by split.
  - pose proof (chip_ocw1 false v d _ _ (C false)) as (? & ? & ?). pose proof (C true) as C'. passes_by C' false (data_port false) v.
    destruct C' as (? & ? & ?). split; [by split|]. split; [by intros []|]. by split.
Qed.

Lemma unmask_irq_spec irq d : running d → 0 ≤ irq < 16 → let d' := unmask_irq irq d in
  running d' ∧ (∀ l, irq_vector d' l = irq_vector d l) ∧
  ∀ l, 0 ≤ l < 16 → irq_masked d' l = irq_masked d l && negb (l =? irq).
Proof.
  intros R Hi. pose proof R as [R1 R2]. cbv zeta. unfold unmask_irq.
  rewrite (law_read false d R1 : inb PIC1_DATA d = _), (law_read true d R2 : inb PIC2_DATA d = _).
  destruct (Z.ltb_spec irq 8).
  - destruct (set_mask_spec false (and_not (imr false d) (bit irq)) d R) as (R' & Hb & Hm & Ho). split; [done|].
    split; [intros l; unfold irq_vector; by rewrite !(Hb : ∀ c', base c' (outb PIC1_DATA _ d) = _)|].
    intros l Hl. unfold irq_masked. rewrite (Hm : imr false (outb PIC1_DATA _ d) = _), (Ho : imr true (outb PIC1_DATA _ d) = _), and_not_bit_spec by lia.
    rewrite (Z.eqb_sym irq). zcases; try lia; by rewrite ?andb_true_r, ?andb_false_r.
  - rewrite (proj2 (Z.ltb_lt irq 16)) by lia.
    destruct (set_mask_spec true (and_not (imr true d) (bit (irq - 8))) d R) as (R' & Hb & Hm & Ho). split; [done|].
    split; [intros l; unfold irq_vector; by rewrite !(Hb : ∀ c', base c' (outb PIC2_DATA _ d) = _)|].
    intros l Hl. unfold irq_masked. rewrite (Hm : imr true (outb PIC2_DATA _ d) = _), (Ho : imr false (outb PIC2_DATA _ d) = _), and_not_bit_spec by lia.
    zcases; try lia; by rewrite ?andb_true_r, ?andb_false_r.
Qed.

(** ** Boot *)

(** C37: After the set-up, vector [v] below 32 is a gate to the exception entry [v]; every device line has a vector of its
    own outside the processor's exceptions, whose gate leads to the entry of that line; all other vectors
    are not present.  No line has been masked or unmasked; unmasking the keyboard and the timer as the boot code
    then does opens exactly those two lines and keeps the vectors. *)
Theorem init_interrupts_spec (ISR_STUBS IRQ_STUBS : Z → Z) (d : D)
  (Hisr : ∀ i, 0 ≤ ISR_STUBS i < 2 ^ 64) (Hirq : ∀ i, 0 ≤ IRQ_STUBS i < 2 ^ 64) (Hrun : running d) :
  ∃ idt d', init_interrupts ISR_STUBS IRQ_STUBS Idt_new d = Ret (idt, d') ∧ running d' ∧ length idt = 256%nat ∧
    (∀ v, 0 ≤ v < 32 → ∃ e, idt !! Z.to_nat v = Some e ∧ gate_to (ISR_STUBS v) e) ∧
    (∀ irq, 0 ≤ irq < 16 → 32 ≤ irq_vector d' irq < 48 ∧ ∃ e, idt !! Z.to_nat (irq_vector d' irq) = Some e ∧ gate_to (IRQ_STUBS irq) e) ∧
    (∀ v, 48 ≤ v < 256 → idt !! Z.to_nat v = Some missing) ∧
    (∀ irq, 0 ≤ irq < 16 → irq_masked d' irq = irq_masked d irq) ∧
    let d2 := unmask_irq 0 (unmask_irq 1 d') in
    (∀ irq, irq_vector d2 irq = irq_vector d' irq) ∧
    ∀ irq, 0 ≤ irq < 16 → irq_masked d2 irq = irq_masked d irq && negb ((irq =? 0) || (irq =? 1)).
Proof.
  unfold init_interrupts. destruct (set_stubs_spec ISR_STUBS 32 Idt_new 0 0) as (idt1 & -> & L1 & E1); [done|done|done|]. cbn [mbind outcome_bind].
  destruct (set_stubs_spec IRQ_STUBS 16 idt1 32 0) as (idt2 & -> & L2 & E2); [done|done|done|]. cbn [mbind outcome_bind].
  destruct (remap_pic_spec 32 40 d Hrun) as (R' & B1 & B2 & M1 & M2). set (d' := remap_pic 32 40 d) in *.
  change (Z.land 32 248) with 32 in B1. change (Z.land 40 248) with 40 in B2.
  assert (∀ irq, irq_vector d' irq = 32 + irq) as Hvec by (intros irq; unfold irq_vector; rewrite B1, B2; destruct (irq <? 8); lia).
  assert (∀ irq, irq_masked d' irq = irq_masked d irq) as Hmask by (intros irq; unfold irq_masked; by rewrite M1, M2).
  exists idt2, d'. split; [done|]. split; [done|]. split; [done|]. split; [|split; [|split; [|split]]].
  - intros v Hv. exists (set_handler (ISR_STUBS v) 8 0). split; [|by apply set_handler_gate]. rewrite E2, E1 by lia. rewrite Z.sub_0_r. zcases; lia || done.
  - intros irq Hr. rewrite Hvec. split; [lia|]. exists (set_handler (IRQ_STUBS irq) 8 0). split; [|by apply set_handler_gate]. rewrite E2 by lia.
    replace (32 + irq - 32) with irq by lia. zcases; lia || done.
  - intros v Hv. rewrite E2, E1 by lia. zcases; try lia. apply lookup_replicate_2. lia.
  - intros irq _. apply Hmask.
  - destruct (unmask_irq_spec 1 d' R') as (R1 & V1 & K1); [lia|]. destruct (unmask_irq_spec 0 _ R1) as (_ & V0 & K0); [lia|].
    split; [intros irq; by rewrite V0, V1|]. intros irq Hr. rewrite K0, K1, Hmask by done. rewrite <- andb_assoc, <- negb_orb, orb_comm. done.
Qed.
End pic.

(** ** A controller pair *)

Record chip_state := mkChip { ch_icw : Z; ch_base : Z; ch_imr : Z }.
Record pics := mkPics { master : chip_state; slave : chip_state }.

Definition chip_command (v : Z) (c : chip_state) : chip_state := if Z.testbit v 4 then mkChip 2 (ch_base c) 0 else c.
Definition chip_data (v : Z) (c : chip_state) : chip_state :=
  if ch_icw c =? 2 then mkChip 3 (Z.land v 248) (ch_imr c)
  else if ch_icw c =? 3 then mkChip 4 (ch_base c) (ch_imr c)
  else if ch_icw c =? 4 then mkChip 0 (ch_base c) (ch_imr c)
  else mkChip (ch_icw c) (ch_base c) v.

#[export] Instance pics_ports : Ports pics := {
  outb p v d :=
    if p =? PIC1_COMMAND then mkPics (chip_command v (master d)) (slave d)
    else if p =? PIC1_DATA then mkPics (chip_data v (master d)) (slave d)
    else if p =? PIC2_COMMAND then mkPics (master d) (chip_command v (slave d))
    else if p =? PIC2_DATA then mkPics (master d) (chip_data v (slave d))
    else d;
  inb p d := if p =? PIC1_DATA then ch_imr (master d) else if p =? PIC2_DATA then ch_imr (slave d) else 255
}.

#[export] Instance pics_view : PicView pics := {
  icw c d := ch_icw (if c then slave d else master d);
  base c d := ch_base (if c then slave d else master d);
  imr c d := ch_imr (if c then slave d else master d)
}.

#[export] Instance pics_laws : PicLaws pics.
Proof.
  split; intros; destruct d as [[i1 b1 m1] [i2 b2 m2]].
  all: try match goal with c : bool, c' : bool |- _ => destruct c, c'; try done end.
  all: try match goal with c : bool |- _ => destruct c end.
  all: unfold chip_data in *; cbn in *; subst; try done.
  all: match goal with H : _ ∨ _ |- _ => destruct H as [-> | ->] end; done.
Qed.

(** The firmware's state: vectors 8 and 112, everything masked. *)
Definition firmware_pics : pics := mkPics (mkChip 0 8 255) (mkChip 0 112 255).

Lemma init_interrupts_spec_witness :
  ∃ idt d', init_interrupts (λ i, 1048576 + 16 * Z.land i 31) (λ i, 1052672 + 16 * Z.land i 15) Idt_new firmware_pics = Ret (idt, d') ∧
    irq_vector d' 1 = 33 ∧ gate_to 1052688 (default missing (idt !! 33%nat)).
Proof.
  assert (∀ b n i, 0 ≤ n → 0 ≤ b → 0 ≤ b + 16 * Z.land i n ≤ b + 16 * n) as Hr.
  { intros b n i Hn Hb. pose proof (Z.land_nonneg i n). assert (Z.land i n ≤ n); [|lia].
    rewrite Z.land_comm. apply Z.ldiff_le; [done|]. apply Z.bits_inj'. intros k Hk. rewrite Z.ldiff_spec, Z.land_spec, Z.bits_0.
    by destruct (Z.testbit n k), (Z.testbit i k). }
  destruct (init_interrupts_spec (λ i, 1048576 + 16 * Z.land i 31) (λ i, 1052672 + 16 * Z.land i 15) firmware_pics)
    as (idt & d' & E & _ & _ & _ & Hirq & _).
  - intros i. specialize (Hr 1048576 31 i). lia.
  - intros i. specialize (Hr 1052672 15 i). lia.
  - done.
  - exists idt, d'. split; [exact E|]. assert (irq_vector d' 1 = 33) as Hv by (vm_compute in E; injection E as <- <-; reflexivity).
    split; [exact Hv|]. destruct (Hirq 1 ltac:(lia)) as (_ & e & He & Hg). rewrite Hv in He. change (Z.to_nat 33) with 33%nat in He. rewrite He. exact Hg.
Defined.
