(* ===== verification/Console.v ===== *)
(** * The kernel's messages (src/kernel_rust/src/lib.rs, multiboot.rs, kmm.rs, pit.rs)

    The routines that print numbers without the formatting machinery, each with the buffer it
    fills, the messages built from them, and that what they print reads back as the number. *)

From Stdlib Require Import ZArith Lia String Ascii.
From stdpp Require Import base numbers list list_numbers option strings.
From S2P Require Import Prelude Memory Pmm Multiboot Serial Interrupts.

Local Open Scope Z_scope.

(** [writestrs]: one slice after the other. *)
Definition writestrs (s : serial) (strs : list (list Z)) : serial := foldl serial_write s strs.

(** ** Hexadecimal *)

Definition HEX_LOWER : list Z := bytes "0123456789abcdef".
Definition HEX_UPPER : list Z := bytes "0123456789ABCDEF".

Definition put_prefix (buf : list Z) : outcome (list Z) :=
  buf ← store buf 0 48; store buf 1 120.

(** [hex_out] of lib.rs fills from the end: [for i in i..i+n]. *)
Fixpoint hex_out_loop (buf : list Z) (val i : Z) (n : nat) : outcome (list Z) :=
  match n with
  | O => Ret buf
  | S n =>
      d ← index HEX_LOWER (Z.land (Z.shiftr val (4 * i)) 15);
      buf ← store buf (17 - i) d;
      hex_out_loop buf val (i + 1) n
  end.

Definition hex_out_buf (val : Z) : outcome (list Z) :=
  buf ← put_prefix (replicate 18 0); hex_out_loop buf val 0 16.

Definition hex_out (s : serial) (label : list Z) (val : Z) : outcome serial :=
  buf ← hex_out_buf val; Ret (writestrs (writestrs s [label]) [buf]).

(** [hex_buf] of multiboot.rs. *)
Fixpoint hex_buf_loop (buf : list Z) (val i : Z) (n : nat) : outcome (list Z) :=
  match n with
  | O => Ret buf
  | S n =>
      d ← index HEX_UPPER (Z.land (Z.shiftr val (28 - i * 4)) 15);
      buf ← store buf (i + 2) d;
      hex_buf_loop buf val (i + 1) n
  end.

Definition hex_buf (val : Z) : outcome (list Z) :=
  buf ← put_prefix (replicate 10 0); hex_buf_loop buf val 0 8.

(** [write_hex] of kmm.rs: the leading zeros and the prefix are not printed. *)
Definition lower_digit (nibble : Z) : Z := if nibble <? 10 then 48 + nibble else 97 + nibble - 10.

Fixpoint write_hex_loop (buf : list Z) (val i : Z) (n : nat) : outcome (list Z) :=
  match n with
  | O => Ret buf
  | S n =>
      buf ← store buf (2 + i) (lower_digit (Z.land (Z.shiftr val (60 - 4 * i)) 15));
      write_hex_loop buf val (i + 1) n
  end.

(** [while start < 17 && buf[start] == b'0'], with the iterations it can take at most. *)
Fixpoint trim (buf : list Z) (start : Z) (n : nat) : outcome Z :=
  match n with
  | O => Ret start
  | S n =>
      if start <? 17 then
        c ← index buf start;
        if c =? 48 then trim buf (start + 1) n else Ret start
      else Ret start
  end.

Definition write_hex_digits (val : Z) : outcome (list Z) :=
  buf ← put_prefix (replicate 18 0);
  buf ← write_hex_loop buf val 0 16;
  start ← trim buf 2 15;
  Ret (drop (Z.to_nat start) buf).

Definition write_hex (s : serial) (val : Z) : outcome serial :=
  l ← write_hex_digits val; Ret (serial_write s l).

(** ** Decimal *)

(** [while val > 0]: digits from the end of a buffer of 20 bytes; 20 rounds are enough for 64 bits. *)
Fixpoint dec_loop (buf : list Z) (i val : Z) (fuel : nat) : outcome (list Z * Z) :=
  if val >? 0 then
    match fuel with
    | O => Hang
    | S fuel =>
        if i =? 0 then Panic
        else
          buf ← store buf (i - 1) (48 + val mod 10);
          dec_loop buf (i - 1) (val / 10) fuel
    end
  else Ret (buf, i).

Definition write_dec_digits (val : Z) : outcome (list Z) :=
  if val =? 0 then Ret [48]
  else '(buf, i) ← dec_loop (replicate 20 0) 20 val 20; Ret (drop (Z.to_nat i) buf).

Definition write_dec (s : serial) (val : Z) : outcome serial :=
  l ← write_dec_digits val; Ret (serial_write s l).

(** The heartbeat of [pit::tick] in the debug build. *)
Definition heartbeat_digits (ticks : Z) : outcome (list Z) :=
  '(digits, i) ← dec_loop (replicate 20 0) 20 ticks 20;
  '(digits, i) ← (if i =? 20 then digits ← store digits 19 48; Ret (digits, 19) else Ret (digits, i));
  Ret (drop (Z.to_nat i) digits).

Definition pit_tick (debug : bool) (s : serial) (ticks : Z) : outcome (Z * serial) :=
  let ticks := tick ticks in
  if debug && (ticks mod 100 =? 0) then
    let s := writestrs s [bytes "VIBIX: PIT tick #"] in
    d ← heartbeat_digits ticks;
    Ret (ticks, writestrs s [d; [10]])
  else Ret (ticks, s).

(** ** The memory map *)

Definition type_name (region_type : Z) : list Z :=
  if region_type =? 1 then bytes "Available"
  else if region_type =? 2 then bytes "Reserved"
  else if region_type =? 3 then bytes "ACPI reclaim"
  else if region_type =? 4 then bytes "ACPI NVS"
  else bytes "Bad RAM".

Definition print_entry (s : serial) (e : MmapEntry) : outcome serial :=
  base_hi ← hex_buf (u32 (Z.shiftr (e_base e) 32));
  base_lo ← hex_buf (u32 (e_base e));
  len_hi ← hex_buf (u32 (Z.shiftr (e_length e) 32));
  len_lo ← hex_buf (u32 (e_length e));
  Ret (writestrs s [bytes "  base="; base_hi; bytes "_"; base_lo; bytes "  len="; len_hi; bytes "_"; len_lo;
                    bytes "  "; type_name (region_type e); [10]]).

Fixpoint print_entries (rd32 : Z → Z) (s : serial) (addr len offset : Z) (fuel : nat) : outcome serial :=
  match fuel with
  | O => Hang
  | S fuel =>
      if offset <? len then
        let e := read_entry rd32 (u32 (addr + offset)) in
        let entry_size := u32 (e_size e + 4) in
        s ← print_entry s e;
        print_entries rd32 s addr len (u32 (offset + entry_size)) fuel
      else Ret s
  end.

Definition print_mmap (rd32 : Z → Z) (mbi : Z) (s : serial) (fuel : nat) : outcome serial :=
  if negb (has_mmap rd32 mbi) then Ret (writestrs s [bytes "VIBIX: No Multiboot memory map available."; [10]])
  else
    let mmap_length := rd32 (mbi + 44) in
    let mmap_addr := rd32 (mbi + 48) in
    let s := writestrs s [bytes "VIBIX: Multiboot memory map:"; [10]] in
    print_entries rd32 s mmap_addr mmap_length 0 fuel.

(** ** The frame before [iretq] *)

Definition out_all (s : serial) (l : list (list Z * Z)) : outcome serial :=
  foldl (λ o p, s ← o; hex_out s p.1 p.2) (Ret s) l.

(** [rd] reads a word of the kernel stack. *)
Definition debug_iretq_ss (debug : bool) (rd : Z → Z) (s : serial) (rsp path : Z) : outcome serial :=
  if negb debug then Ret s
  else
    s ← out_all s [(bytes "DBG iretq_pre: path=", path); (bytes " RSP=", rsp)];
    let s := writestrs s [[10]] in
    s ← out_all s [(bytes "  RIP=", rd rsp); (bytes " CS=", rd (u64 (rsp + 8))); (bytes " RFLAGS=", rd (u64 (rsp + 16)));
                   (bytes " userRSP=", rd (u64 (rsp + 24)))];
    let s := writestrs s [[10]] in
    s ← out_all s [(bytes "  SS=", rd (u64 (rsp + 32))); (bytes " int=", rd (u64 (rsp - 16))); (bytes " err=", rd (u64 (rsp - 8)));
                   (bytes " RAX=", rd (u64 (rsp - 136))); (bytes " RCX=", rd (u64 (rsp - 128)))];
    Ret (writestrs s [[10]]).

(** [panic]: the message, or a placeholder for one that is not a plain string; the processor then
    halts for good. *)
Definition panic_handler (s : serial) (msg : option (list Z)) : serial :=
  let s := writestrs s [bytes "VIBIX: PANIC: "] in
  match msg with
  | Some msg => writestrs s [msg; [10]]
  | None => writestrs s [bytes "<non-string panic message>"; [10]]
  end.

(** ** Reading the numbers back *)

Definition nibble_value (c : Z) : Z := if c <? 58 then c - 48 else if c <? 97 then c - 55 else c - 87.
Definition from_hex (l : list Z) : Z := foldl (λ a c, a * 16 + nibble_value c) 0 l.
Definition from_dec (l : list Z) : Z := foldl (λ a c, a * 10 + (c - 48)) 0 l.

(** The [n] lowest nibbles of [v], the highest first. *)
Fixpoint nibbles (n : nat) (v : Z) : list Z :=
  match n with O => [] | S n => nibbles n (v / 16) ++ [v mod 16] end.

Lemma nibbles_length n v : length (nibbles n v) = n.
Proof. revert v. induction n as [|n IH]; intros v; [done|]. cbn [nibbles]. rewrite length_app, IH. cbn. lia. Qed.

Lemma nibbles_front n v : nibbles (S n) v = (v / 16 ^ Z.of_nat n) mod 16 :: nibbles n v.
Proof.
  revert v. induction n as [|n IH]; intros v; [cbn; by rewrite Z.div_1_r|]. cbn [nibbles] in *. rewrite IH. cbn [app].
  f_equal. rewrite Z.div_div by lia. do 2 f_equal. rewrite Nat2Z.inj_succ, Z.pow_succ_r; lia.
Qed.

Lemma nibbles_range n v : Forall (λ d, 0 ≤ d < 16) (nibbles n v).
Proof.
  revert v. induction n as [|n IH]; intros v; cbn [nibbles]; [apply Forall_nil; done|].
  apply Forall_app. split; [done|]. apply Forall_singleton. apply Z.mod_pos_bound. lia.
Qed.

Lemma shift_nibble v i : 0 ≤ i → Z.land (Z.shiftr v (4 * i)) 15 = (v / 16 ^ i) mod 16.
Proof.
  intros Hi. change 15 with (Z.ones 4). rewrite Z.land_ones, Z.shiftr_div_pow2 by lia. rewrite Z.pow_mul_r by lia. done.
Qed.

(** Any way to write digits whose values can be read. *)
Lemma from_hex_digits (digit : Z → Z) n v : (∀ d, 0 ≤ d < 16 → nibble_value (digit d) = d) → from_hex (digit <$> nibbles n v) = v mod 16 ^ Z.of_nat n.
Proof.
  intros Hd. revert v. induction n as [|n IH]; intros v; [cbn; by rewrite Z.mod_1_r|].
  cbn [nibbles]. unfold from_hex in *. rewrite fmap_app, foldl_app, IH. cbn [fmap list_fmap foldl].
  rewrite Hd by (apply Z.mod_pos_bound; lia). rewrite Nat2Z.inj_succ, Z.pow_succ_r by lia.
  rewrite (Z.rem_mul_r v 16 (16 ^ Z.of_nat n)) by lia. lia.
Qed.

Definition upper_digit (nibble : Z) : Z := if nibble <? 10 then 48 + nibble else 55 + nibble.

Lemma lower_value d : 0 ≤ d < 16 → nibble_value (lower_digit d) = d.
Proof. intros Hd. unfold nibble_value, lower_digit. zcases; lia. Qed.

Lemma upper_value d : 0 ≤ d < 16 → nibble_value (upper_digit d) = d.
Proof. intros Hd. unfold nibble_value, upper_digit. zcases; lia. Qed.

Lemma all_nibbles (P : Z → Prop) : Forall P (seqZ 0 16) → ∀ d, 0 ≤ d < 16 → P d.
Proof. intros Hf d Hd. rewrite Forall_forall in Hf. apply Hf, elem_of_seqZ. lia. Qed.

Lemma hex_lower d : 0 ≤ d < 16 → index HEX_LOWER d = Ret (lower_digit d).
Proof. revert d. apply all_nibbles. repeat constructor. Qed.

Lemma hex_upper d : 0 ≤ d < 16 → index HEX_UPPER d = Ret (upper_digit d).
Proof. revert d. apply all_nibbles. repeat constructor. Qed.

Lemma hex_out_loop_ok v n i : Z.of_nat n + Z.of_nat i = 16 →
  hex_out_loop ([48; 120] ++ replicate n 0 ++ (lower_digit <$> nibbles i v)) v (Z.of_nat i) n =
  Ret ([48; 120] ++ (lower_digit <$> nibbles 16 v)).
Proof.
  revert i. induction n as [|n IH]; intros i Hi; [by replace i with 16%nat by lia|].
  cbn [hex_out_loop]. rewrite shift_nibble by lia. rewrite hex_lower by (apply Z.mod_pos_bound; lia). cbn [mbind outcome_bind].
  rewrite replicate_S_end, <- app_assoc. cbn [app].
  pose proof (store_app (48 :: 120 :: replicate n 0) 0 (lower_digit ((v / 16 ^ Z.of_nat i) mod 16)) (lower_digit <$> nibbles i v) (17 - Z.of_nat i)
    ltac:(cbn [length]; rewrite length_replicate; lia)) as E. cbn [app] in E. rewrite E. cbn [mbind outcome_bind].
  specialize (IH (S i) ltac:(lia)). rewrite nibbles_front in IH. rewrite Nat2Z.inj_succ in IH. unfold Z.succ in IH. exact IH.
Qed.

Lemma hex_out_buf_ok v : hex_out_buf v = Ret ([48; 120] ++ (lower_digit <$> nibbles 16 v)).
Proof. unfold hex_out_buf. cbn [put_prefix mbind outcome_bind store]. exact (hex_out_loop_ok v 16 0 eq_refl). Qed.

(** The loops that fill from the front: digit [i] of [w]. *)
Lemma front_step v w i : 0 ≤ i < w →
  nibbles (S (Z.to_nat i)) (v / 16 ^ (w - 1 - i)) = nibbles (Z.to_nat i) (v / 16 ^ (w - i)) ++ [v / 16 ^ (w - 1 - i) mod 16].
Proof.
  intros Hi. cbn [nibbles]. rewrite Z.div_div by lia. do 3 f_equal.
  rewrite Z.mul_comm, <- Z.pow_succ_r by lia. f_equal. lia.
Qed.

Lemma hex_buf_loop_ok v n i : 0 ≤ i → Z.of_nat n + i = 8 →
  hex_buf_loop ([48; 120] ++ (upper_digit <$> nibbles (Z.to_nat i) (v / 16 ^ (8 - i))) ++ replicate n 0) v i n =
  Ret ([48; 120] ++ (upper_digit <$> nibbles 8 v)).
Proof.
  revert i. induction n as [|n IH]; intros i Hi Hn.
  { replace i with 8 by lia. cbn [hex_buf_loop]. change (16 ^ (8 - 8)) with 1. by rewrite Z.div_1_r, app_nil_r. }
  cbn [hex_buf_loop]. replace (28 - i * 4) with (4 * (8 - 1 - i)) by lia. rewrite shift_nibble by lia.
  rewrite hex_upper by (apply Z.mod_pos_bound; lia). cbn [mbind outcome_bind replicate]. rewrite app_assoc.
  rewrite store_app by (rewrite length_app, length_fmap, nibbles_length; cbn; lia). cbn [mbind outcome_bind].
  rewrite <- (IH (i + 1)) by lia. f_equal. rewrite <- app_assoc. f_equal. replace (8 - (i + 1)) with (8 - 1 - i) by lia.
  replace (Z.to_nat (i + 1)) with (S (Z.to_nat i)) by lia. rewrite (front_step v 8 i ltac:(lia)), fmap_app, <- app_assoc. done.
Qed.

Lemma hex_buf_ok v : hex_buf v = Ret ([48; 120] ++ (upper_digit <$> nibbles 8 v)).
Proof.
  unfold hex_buf. cbn [put_prefix mbind outcome_bind store]. rewrite <- (hex_buf_loop_ok v 8 0) by lia. done.
Qed.

Lemma write_hex_loop_ok v n i : 0 ≤ i → Z.of_nat n + i = 16 →
  write_hex_loop ([48; 120] ++ (lower_digit <$> nibbles (Z.to_nat i) (v / 16 ^ (16 - i))) ++ replicate n 0) v i n =
  Ret ([48; 120] ++ (lower_digit <$> nibbles 16 v)).
Proof.
  revert i. induction n as [|n IH]; intros i Hi Hn.
  { replace i with 16 by lia. cbn [write_hex_loop]. change (16 ^ (16 - 16)) with 1. by rewrite Z.div_1_r, app_nil_r. }
  cbn [write_hex_loop]. replace (60 - 4 * i) with (4 * (16 - 1 - i)) by lia. rewrite shift_nibble by lia. cbn [replicate]. rewrite app_assoc.
  rewrite store_app by (rewrite length_app, length_fmap, nibbles_length; cbn; lia). cbn [mbind outcome_bind].
  rewrite <- (IH (i + 1)) by lia. f_equal. rewrite <- app_assoc. f_equal. replace (16 - (i + 1)) with (16 - 1 - i) by lia.
  replace (Z.to_nat (i + 1)) with (S (Z.to_nat i)) by lia. rewrite (front_step v 16 i ltac:(lia)), fmap_app, <- app_assoc. done.
Qed.

(** Leading zeros do not count. *)
Lemma trim_ok buf n : ∀ start, 0 ≤ start → start + Z.of_nat n = 17 → length buf = 18%nat →
  ∃ k, trim buf start n = Ret k ∧ start ≤ k ≤ 17 ∧ from_hex (drop (Z.to_nat k) buf) = from_hex (drop (Z.to_nat start) buf) ∧
    (k = 17 ∨ buf !! Z.to_nat k ≠ Some 48).
Proof.
  induction n as [|n IH]; intros start H0 Hn Hlen; cbn [trim].
  { exists start. split; [done|]. split; [lia|]. split; [done|]. left. lia. }
  rewrite (proj2 (Z.ltb_lt start 17)) by lia. destruct (lookup_lt_is_Some_2 buf (Z.to_nat start)) as [c Hc]; [lia|].
  unfold index. rewrite Hc. cbn [mbind outcome_bind]. destruct (Z.eqb_spec c 48) as [->|Hne].
  - destruct (IH (start + 1)) as (k & -> & Hk & E & Hd); [lia|lia|done|]. exists k. split; [done|]. split; [lia|]. split; [|done].
    rewrite E, (drop_S buf 48 (Z.to_nat start)) by done. replace (Z.to_nat (start + 1)) with (S (Z.to_nat start)) by lia. done.
  - exists start. split; [done|]. split; [lia|]. split; [done|]. right. rewrite Hc. congruence.
Qed.

Lemma write_hex_ok v : 0 ≤ v < 2 ^ 64 → ∃ l, write_hex_digits v = Ret l ∧ from_hex l = v ∧ (length l = 1%nat ∨ head l ≠ Some 48).
Proof.
  intros Hv. unfold write_hex_digits. change (put_prefix (replicate 18 0)) with (Ret ([48; 120] ++ replicate 16 0)). cbn [mbind outcome_bind].
  pose proof (write_hex_loop_ok v 16 0 ltac:(lia) eq_refl) as E. cbn [nibbles Z.to_nat fmap list_fmap] in E. rewrite app_nil_l in E.
  rewrite E. cbn [mbind outcome_bind]. set (buf := [48; 120] ++ _).
  assert (length buf = 18%nat) as Hlen by reflexivity.
  destruct (trim_ok buf 15 2 ltac:(lia) eq_refl Hlen) as (k & -> & Hk & Ek & Hd). cbn [mbind outcome_bind].
  exists (drop (Z.to_nat k) buf). split; [done|]. split.
  - rewrite Ek. change (drop (Z.to_nat 2) buf) with (lower_digit <$> nibbles 16 v).
    rewrite (from_hex_digits lower_digit 16 v lower_value). apply Z.mod_small. exact Hv.
  - destruct Hd as [->|Hd]; [left; rewrite length_drop, Hlen; done|right]. by rewrite head_lookup, lookup_drop, Nat.add_0_r.
Qed.

Lemma dec_loop_ok fuel : ∀ buf i v, 0 ≤ v < 10 ^ Z.of_nat fuel → Z.of_nat fuel ≤ i → i ≤ Z.of_nat (length buf) →
  ∃ buf' i', dec_loop buf i v fuel = Ret (buf', i') ∧ 0 ≤ i' ≤ i ∧ (v = 0 → i' = i) ∧ (0 < v → i' < i) ∧ length buf' = length buf ∧
    drop (Z.to_nat i') buf' = (if v =? 0 then [] else decimal v fuel) ++ drop (Z.to_nat i) buf.
Proof.
  induction fuel as [|fuel IH]; intros buf i v Hv Hi Hlen.
  { cbn in Hv. replace v with 0 by lia. exists buf, i. split_and!; try done; lia. }
  cbn [dec_loop]. destruct (Z.gtb_spec v 0) as [Hpos|Hz].
  2: { replace v with 0 by lia. exists buf, i. split_and!; try done; lia. }
  rewrite (proj2 (Z.eqb_neq i 0)) by lia. destruct (lookup_lt_is_Some_2 buf (Z.to_nat (i - 1))) as [c Hc]; [lia|].
  unfold store. rewrite Hc. cbn [mbind outcome_bind]. set (buf1 := <[Z.to_nat (i - 1) := 48 + v mod 10]> buf).
  rewrite Nat2Z.inj_succ, Z.pow_succ_r in Hv by lia.
  assert (0 ≤ v / 10 < 10 ^ Z.of_nat fuel) as Hq by (split; [apply Z.div_pos; lia|apply Z.div_lt_upper_bound; lia]).
  destruct (IH buf1 (i - 1) (v / 10) Hq) as (buf' & i' & -> & Hr & H0 & _ & Hl & E); [lia|unfold buf1; rewrite length_insert; lia|].
  exists buf', i'. split; [done|]. split; [lia|]. split; [lia|]. split; [lia|]. split; [by unfold buf1 in Hl; rewrite length_insert in Hl|].
  rewrite E, (proj2 (Z.eqb_neq v 0)) by lia. cbn [decimal].
  assert (drop (Z.to_nat (i - 1)) buf1 = (48 + v mod 10) :: drop (Z.to_nat i) buf) as ->.
  { rewrite (drop_S _ (48 + v mod 10) (Z.to_nat (i - 1))) by (apply list_lookup_insert_eq; apply lookup_lt_is_Some; by exists c).
    f_equal. unfold buf1. replace (Z.to_nat i) with (S (Z.to_nat (i - 1))) by lia. apply drop_insert_lt. lia. }
  rewrite <- app_assoc. cbn [app]. f_equal. destruct (Z.ltb_spec v 10); destruct (Z.eqb_spec (v / 10) 0); try done; exfalso.
  - assert (v / 10 = 0) by (apply Z.div_small; lia). lia.
  - pose proof (Z.div_mod v 10). pose proof (Z.mod_pos_bound v 10). lia.
Qed.

Lemma from_dec_ok fuel : ∀ v, 0 ≤ v < 10 ^ Z.of_nat fuel → from_dec (decimal v fuel) = v.
Proof.
  induction fuel as [|fuel IH]; intros v Hv; [cbn in *; lia|]. rewrite Nat2Z.inj_succ, Z.pow_succ_r in Hv by lia.
  cbn [decimal]. unfold from_dec in *. rewrite foldl_app. cbn [foldl]. pose proof (Z.div_mod v 10). pose proof (Z.mod_pos_bound v 10).
  destruct (Z.ltb_spec v 10); [cbn [foldl]; rewrite (Z.mod_small v 10); lia|].
  rewrite IH; [lia|]. split; [apply Z.div_pos; lia|apply Z.div_lt_upper_bound; lia].
Qed.

Lemma dec_digits_ok v : 0 ≤ v < 2 ^ 64 → write_dec_digits v = Ret (decimal v 20) ∧ heartbeat_digits v = Ret (decimal v 20).
Proof.
  intros Hv. unfold write_dec_digits, heartbeat_digits.
  destruct (dec_loop_ok 20 (replicate 20 0) 20 v) as (buf & i & -> & Hr & H0 & Hp & Hl & E); [cbn; lia|lia|done|].
  cbn [mbind outcome_bind]. rewrite app_nil_r in E.
  destruct (Z.eqb_spec v 0) as [->|Hne].
  - rewrite (H0 eq_refl), Z.eqb_refl. split; [done|]. unfold store.
    destruct (lookup_lt_is_Some_2 buf (Z.to_nat 19)) as [c Hc]; [rewrite Hl; cbn; lia|]. rewrite Hc. cbn [mbind outcome_bind]. f_equal.
    rewrite (drop_S _ 48) by (apply list_lookup_insert_eq; rewrite Hl; cbn; lia).
    rewrite drop_ge; [done|]. rewrite length_insert, Hl. cbn. lia.
  - specialize (Hp ltac:(lia)). rewrite (proj2 (Z.eqb_neq i 20)) by lia. cbn [mbind outcome_bind]. by rewrite E.
Qed.

(** The digits of [hex_str] are the nibbles, the highest first. *)
Lemma shifted_nibbles n v : (λ i, Z.land (Z.shiftr v (4 * (Z.of_nat n - 1 - i))) 15) <$> seqZ 0 (Z.of_nat n) = nibbles n v.
Proof.
  induction n as [|n IH]; [done|]. rewrite nibbles_front, <- IH, seqZ_cons by lia. cbn [fmap list_fmap]. f_equal.
  - change 15 with (Z.ones 4). rewrite Z.land_ones, Z.shiftr_div_pow2 by lia. f_equal. f_equal. change 16 with (2 ^ 4). rewrite <- Z.pow_mul_r by lia. f_equal. lia.
  - replace (Z.pred (Z.of_nat (S n))) with (Z.of_nat n) by lia. change (Z.succ 0) with 1. rewrite <- (fmap_add_seqZ 1 0), <- list_fmap_compose.
    apply list_fmap_ext. intros i x _. cbn. f_equal. f_equal. lia.
Qed.

Lemma hex_str_nibbles v : hex_str v = bytes "0x" ++ (upper_digit <$> nibbles 16 v).
Proof.
  unfold hex_str. change (bytes "0x") with [48; 120]. f_equal. rewrite <- shifted_nibbles, <- list_fmap_compose. change (Z.of_nat 16) with 16.
  apply list_fmap_ext. intros i x _. cbn [compose]. unfold compose, hex_digit, upper_digit. by replace (60 - x * 4) with (4 * (16 - 1 - x)) by lia.
Qed.

(** C38: The numbers of the boot messages, of the memory map, of the heartbeat and of an exception report.  The routines that write
    these digit by digit ([hex_out_buf], [hex_buf], [write_hex_digits], [write_dec_digits], [heartbeat_digits] and [hex_str])
    stay inside their buffers and end, and the digits they send (hexadecimal with and without the
    leading zeros, 32 and 64 bits wide, and decimal) read back as the number. *)
Theorem console_numbers (v : Z) (Hv : 0 ≤ v < 2 ^ 64) :
  (∃ l, hex_out_buf v = Ret (bytes "0x" ++ l) ∧ length l = 16%nat ∧ from_hex l = v) ∧
  (∃ l, hex_buf (u32 v) = Ret (bytes "0x" ++ l) ∧ length l = 8%nat ∧ from_hex l = u32 v) ∧
  (∃ l, write_hex_digits v = Ret l ∧ from_hex l = v ∧ (length l = 1%nat ∨ head l ≠ Some 48)) ∧
  (∃ l, hex_str v = bytes "0x" ++ l ∧ length l = 16%nat ∧ from_hex l = v) ∧
  write_dec_digits v = Ret (decimal v 20) ∧ heartbeat_digits v = Ret (decimal v 20) ∧ from_dec (decimal v 20) = v.
Proof.
  split; [|split; [|split; [by apply write_hex_ok|split]]].
  - exists (lower_digit <$> nibbles 16 v). split; [apply hex_out_buf_ok|]. split; [by rewrite length_fmap, nibbles_length|].
    rewrite (from_hex_digits lower_digit 16 v lower_value). apply Z.mod_small. exact Hv.
  - exists (upper_digit <$> nibbles 8 (u32 v)). split; [apply hex_buf_ok|]. split; [by rewrite length_fmap, nibbles_length|].
    rewrite (from_hex_digits upper_digit 8 (u32 v) upper_value). apply Z.mod_small. unfold u32. apply Z.mod_pos_bound. lia.
  - exists (upper_digit <$> nibbles 16 v). split; [apply hex_str_nibbles|]. split; [by rewrite length_fmap, nibbles_length|].
    rewrite (from_hex_digits upper_digit 16 v upper_value). apply Z.mod_small. exact Hv.
  - destruct (dec_digits_ok v Hv) as [-> ->]. split_and!; try done. apply from_dec_ok. cbn. lia.
Qed.

Lemma console_numbers_witness : write_dec_digits 86400 = Ret (bytes "86400") ∧ from_dec (decimal 86400 20) = 86400.
Proof. destruct (console_numbers 86400 ltac:(lia)) as (_ & _ & _ & _ & H & _ & Hv). split; [rewrite H; reflexivity|exact Hv]. Defined.

(** ** What the memory map prints *)

Definition entry_line (e : MmapEntry) : list Z :=
  bytes "  base=" ++ bytes "0x" ++ (upper_digit <$> nibbles 8 (u32 (Z.shiftr (e_base e) 32))) ++ bytes "_" ++
  bytes "0x" ++ (upper_digit <$> nibbles 8 (u32 (e_base e))) ++ bytes "  len=" ++
  bytes "0x" ++ (upper_digit <$> nibbles 8 (u32 (Z.shiftr (e_length e) 32))) ++ bytes "_" ++
  bytes "0x" ++ (upper_digit <$> nibbles 8 (u32 (e_length e))) ++ bytes "  " ++ type_name (region_type e) ++ [10].

Lemma serial_write_app s l1 l2 : serial_write s (l1 ++ l2) = serial_write (serial_write s l1) l2.
Proof. revert s. induction l1 as [|b l1 IH]; intros s; [done|]. cbn. apply IH. Qed.

Lemma print_entry_ok s e : print_entry s e = Ret (serial_write s (entry_line e)).
Proof.
  unfold print_entry. rewrite !hex_buf_ok. cbn [mbind outcome_bind]. f_equal. unfold writestrs, entry_line. cbn [foldl].
  change (bytes "0x") with [48; 120]. by rewrite !serial_write_app.
Qed.

(** One line for each entry of the map, in order. *)
Lemma print_entries_ok rd32 addr len o l : walk rd32 addr len o l → 0 ≤ o → ∀ s fuel, (length l < fuel)%nat →
  print_entries rd32 s addr len o fuel = Ret (serial_write s (mjoin (entry_line <$> l))).
Proof.
  induction 1 as [o Ho|o e l Ho He Hs Hw _ IH]; intros Hpos s [|fuel] Hf; cbn [print_entries length] in *; try lia.
  { destruct (Z.ltb_spec o len); [lia|done]. }
  destruct (Z.ltb_spec o len); [|lia]. rewrite <- He. cbv zeta. rewrite walk_step_size by done. rewrite print_entry_ok. cbn [mbind outcome_bind].
  rewrite IH by lia. cbn [fmap list_fmap mjoin list_join]. by rewrite serial_write_app.
Qed.
