(* ===== verification/BootMem.v ===== *)
(** * Memory at boot (src/kernel_rust/src/lib.rs: kernel_main, up to the identity map;
      pmm.rs, kmm.rs, paging.rs: the self-tests)

    The first half of the boot sequence: finding the physical memory, keeping the kernel's image
    out of the page manager's hands, the heap, the tests the kernel runs on itself, and the
    identity map.  [kernel_image_end] is the linker's [_kernel_end].  Until the identity map is extended
    the kernel has only the 4 MiB of boot.asm to reach page tables through, so they are written with the checked operations of [Reach]. *)

From Stdlib Require Import ZArith Lia String Ascii.
From stdpp Require Import base numbers list list_numbers option gmap.
From S2P Require Import Prelude Pmm Multiboot Memory Kmm Paging Reach Serial Interrupts Console.

Local Open Scope Z_scope.

Definition say (s : serial) (msg : string) : serial := writestrs s [bytes msg; [10]].

(** ** Finding memory *)

Definition detect_memory (rd32 : Z → Z) (mbi : Z) (bm : bitmap) (s : serial) (fuel : nat)
    : outcome (PmmAllocator * bitmap * serial) :=
  r ← (if negb (mbi =? 0) then apply_mmap_to_pmm rd32 mbi bm fuel else Ret None);
  match r with
  | Some (a, bm) => s ← print_mmap rd32 mbi s fuel; Ret (a, bm, s)
  | None =>
      let s := say s "VIBIX: No Multiboot mmap — using hardcoded range." in
      '(a, bm) ← init 1048576 268435456 bm;
      Ret (a, bm, s)
  end.

Definition KERNEL_START : Z := 2097152.

(** The end of the image, rounded up to a page. *)
Definition kernel_end (kernel_image_end : Z) : Z := and_not (sat_add kernel_image_end 4095) 4095.

Definition reserve_kernel (a : PmmAllocator) (bm : bitmap) (kernel_image_end : Z) : outcome bitmap :=
  reserve a bm KERNEL_START (Z.max (Z.max 0 (kernel_end kernel_image_end - KERNEL_START)) 524288).

(** ** The tests and what they print *)

Definition pmm_test (a : PmmAllocator) (bm : bitmap) (s : serial) : outcome (bitmap * serial) :=
  '(r, bm) ← Pmm.test a bm;
  Ret (bm, say s match r with
                 | AllocationFailed => "PMM: Test failed (allocation)."
                 | ReallocationFailed => "PMM: Test failed (reallocation)."
                 | TestPassed => "PMM: Test passed."
                 end).

Definition kmm_test (m : mem) (h : heap) (s : serial) (fuel : nat) : outcome (mem * heap * serial) :=
  '(r, m, h) ← Kmm.test m h fuel;
  match r with
  | None => Ret (m, h, say s "KMM: Test FAILED — allocation returned null.")
  | Some (reused, count) =>
      let s := say s (if (reused : bool) then "KMM: Test OK — freed block reused." else "KMM: Test FAILED — reuse address mismatch.") in
      if count =? 1 then Ret (m, h, say s "KMM: Coalescing OK — single free block.")
      else
        s ← write_dec (writestrs s [bytes "KMM: Coalescing WARNING — "]) count;
        Ret (m, h, say s " free blocks (expected 1).")
  end.

(** Access through the active address space; an address without a page faults. *)
Definition store_at (p : pg) (v x : Z) : outcome pg :=
  match translate p v with Some pa => Ret (pg_st p pa x) | None => Fault end.
Definition load_at (p : pg) (v : Z) : outcome Z :=
  match translate p v with Some pa => Ret (pg_ld p pa) | None => Fault end.

Definition TEST_VADDR : Z := 536870912.
Definition TEST_PATTERN : Z := 16045690984503111693. (* 0xDEAD_BEEF_CAFE_F00D *)

Definition paging_test (a : PmmAllocator) (p : pg) (s : serial) : outcome (pg * serial) :=
  '(phys, p) ← pmm_alloc a p;
  if phys =? 0 then Ret (p, say s "PAGING: Test failed (alloc).")
  else
    p ← map_4k_via a p TEST_VADDR phys PAGE_KERNEL;
    p ← store_at p TEST_VADDR TEST_PATTERN;
    s ← match translate p TEST_VADDR with
        | Some pa =>
            if pa =? phys then
              val ← load_at p TEST_VADDR;
              Ret (say s (if val =? TEST_PATTERN then "PAGING: Test passed." else "PAGING: Test failed (value mismatch)."))
            else Ret (say s "PAGING: Test failed (translate).")
        | None => Ret (say s "PAGING: Test failed (translate).")
        end;
    '(_, p) ← unmap_via p TEST_VADDR;
    p ← pmm_free a p phys;
    Ret (p, s).

(** ** The sequence *)

Definition boot_memory (rd32 : Z → Z) (mbi kernel_image_end : Z) (p : pg) (m : mem) (h : heap) (s : serial) (fuel : nat)
    : outcome (PmmAllocator * pg * (mem * heap) * serial) :=
  '(pmm, bm, s) ← detect_memory rd32 mbi (pg_bm p) s fuel;
  bm ← reserve_kernel pmm bm kernel_image_end;
  '(bm, s) ← pmm_test pmm bm s;
  let a := init_global pmm PmmAllocator_new in
  '(bm, m, h) ← kmm_init pmm bm m h;
  '(m, h, s) ← kmm_test m h s fuel;
  '(p, s) ← paging_test pmm (set_bm bm p) s;
  p ← extend_kernel_identity_via pmm p 33554432;
  Ret (a, p, (m, h), s).
