(* ===== verification/BootPages.v ===== *)
(** * The paging test of the boot sequence

    The test maps a page of its own, writes and reads through the mapping and takes it down
    again: it passes, and what it leaves behind are at most three empty page tables. *)

From Stdlib Require Import ZArith Lia String.
From stdpp Require Import base numbers list list_numbers option gmap.
From S2P Require Import Prelude Pmm Memory Kmm Paging PageMaps PageSpec Reach Loader MemSpec PageHuge Serial Interrupts Console BootMem.

Local Open Scope Z_scope.

Section pages.
Context (a : PmmAllocator) (L : Z).

Lemma pt_inv_bm s b : pt_inv a s → bm_wf b → (∀ j, 0 ≤ j < total_pages a → used (pg_bm s) j = true → used b j = true) →
  pt_inv a (set_bm b s).
Proof.
  intros Hi Hb Hu. split; try apply Hi; [done|]. intros path t Hp Hw k Hk Ht. cbn. apply Hu; [done|]. by apply (pi_used _ _ Hi path t).
Qed.

(** [unmap] of a mapped small page. *)
Lemma unmap_leaf s v y : pt_inv a s → not_huge s v → leaf s v = Some y →
  ∃ e s', unmap s v = (Some e, s') ∧ pt_inv a s' ∧ pg_cr3 s' = pg_cr3 s ∧ pg_bm s' = pg_bm s ∧
    (∀ path, ok_path path → walk (pg_mem s') (read_cr3 s) path = walk (pg_mem s) (read_cr3 s) path) ∧
    ∀ v', leaf s' v' = if decide (indices v' = indices v) then None else leaf s v'.
Proof.
  intros Hi Hnh Hl. destruct (walk (pg_mem s) (read_cr3 s) [index_at v 39; index_at v 30; index_at v 21]) as [l1|] eqn:W3.
  2:{ exfalso. destruct (unmap_nothing a s v Hi Hnh W3) as [_ Ht]. apply (leaf_none a) in Ht; [|done]. congruence. }
  destruct (unmap_walk a s v l1 Hi W3) as (l3 & l2 & W1 & W2 & P4 & E4 & P3 & E3 & P2 & N2 & E2).
  unfold leaf, xlate, indices in Hl. rewrite W3 in Hl. change (ld64 (pg_mem s) ?x) with (pg_ld s x) in Hl.
  destruct (has (pg_ld s (slot l1 (index_at v 12))) PAGE_PRESENT) eqn:P1; [|done].
  destruct (finish_spec a s (index_at v 39) (index_at v 30) (index_at v 21) (index_at v 12) l3 l2 l1 0 false)
    as (Hi1 & Hc1 & Hx1 & _ & _); [done|apply (indices_ok v)|done..|]. cbn [finish] in Hi1, Hc1, Hx1.
  destruct (leaf_write _ _ (index_at v 39) (index_at v 30) (index_at v 21) (index_at v 12) l1 0 (pi_tree _ _ Hi)
    (indices_ok v) W3) as (_ & Hw & _).
  exists (pg_ld s (slot l1 (index_at v 12))), (pg_st s (slot l1 (index_at v 12)) 0). split.
  { unfold unmap. cbn [indices]. by rewrite P4, E4, P3, E3, P2, N2, E2, P1. }
  split; [done|]. split; [done|]. split; [done|]. split; [exact Hw|].
  intros v'. unfold leaf. change (read_cr3 (pg_st s _ _)) with (read_cr3 s). rewrite Hx1 by apply indices_ok.
  change (index_at v 39, index_at v 30, index_at v 21, index_at v 12) with (indices v). by rewrite has_0.
Qed.

(** The tables that are not on the way to [vp] are what they were, and no table is on a page held. *)
Lemma confined_frame vp s s' f k : pt_inv a s → confined a vp s s' → ok_path vp → pg_cr3 s' = pg_cr3 s →
  0 ≤ k < total_pages a → f = page_addr a k → used (pg_bm s) k = true →
  (∀ path t, ok_path path → walk (pg_mem s) (read_cr3 s) path = Some t → t ≠ f) →
  ∀ path t, ok_path path → walk (pg_mem s') (read_cr3 s') path = Some t → t ≠ f.
Proof.
  intros Hi C Hvp Hc Hk Ef Hu Hne path t Hp Hw. destruct (C (λ x, x = f)) as [[_ Hg] _ Hoff].
  { split; [|intros q x Hq Hx; apply (Hne q x); [by apply (ok_path_prefix vp)|done]]. intros j Hj E. rewrite Ef in E. by apply page_addr_inj in E as ->. }
  destruct (decide (path `prefix_of` vp)) as [Hpre|Hno]; [by apply (Hg path)|]. apply (Hne path); [done|]. by apply Hoff.
Qed.

Lemma confined_untabled v s s' v' : confined a (path_of v) s s' → pg_cr3 s' = pg_cr3 s → path_of v' ≠ path_of v → untabled s v' → untabled s' v'.
Proof.
  intros C Hc Hne Hu. unfold untabled in *. destruct (walk (pg_mem s') _ _) as [t|] eqn:W; [|done]. exfalso.
  destruct (C (λ _, False)) as [_ _ Hoff]; [by split; [|tauto]|].
  rewrite (Hoff (path_of v') t) in Hu; [done|apply ok3; apply index_at_range| |done].
  intros Hpre. apply Hne. by apply prefix_length_eq.
Qed.

Lemma test_flags : flags_ok PAGE_KERNEL.
Proof. split; [done|]. intros i Hi'. apply (testbit_high 2); [lia|done|lia]. Qed.

Lemma paging_test_ok p s n : reached a L p → low_first a L n (pg_bm p) → 4 ≤ n → translate p TEST_VADDR = None → 4 ≤ free_count a (pg_bm p) →
  ∃ p', paging_test a p s = Ret (p', say s "PAGING: Test passed.") ∧ reached a L p' ∧ low_first a L (n - 4) (pg_bm p') ∧ pg_cr3 p' = pg_cr3 p ∧
    (∀ v, 0 ≤ v < 2 ^ 48 → translate p' v = translate p v) ∧
    (∀ v, path_of v ≠ path_of TEST_VADDR → untabled p v → untabled p' v) ∧
    (∀ j, in_range j → used (pg_bm p) j = true → used (pg_bm p') j = true) ∧ free_count a (pg_bm p) - 3 ≤ free_count a (pg_bm p').
Proof.
  intros HR Hlow Hn Ht Hfree. pose proof (re_inv _ _ _ HR) as Hi. pose proof (pi_pmm _ _ Hi) as Ha. pose proof Ha as (Htp & _).
  unfold paging_test, pmm_alloc. pose proof (free_count_alloc a (pg_bm p) Ha (pi_bm _ _ Hi)) as Hc.
  destruct (alloc_take a (pg_bm p) Ha (pi_bm _ _ Hi)) as [(k & b1 & Hk & Hf & Hlo & E & Hnz & Hb1 & Hu1)|[_ E]]; rewrite E in *.
  2:{ destruct Hc as (_ & _ & Hc). cbn in Hc. lia. }
  destruct (low_first_alloc a L n _ _ b1 Hlow Ha Hk Hf Hlo Hu1) as [Hlow1 HkL]. specialize (HkL ltac:(lia)).
  rewrite Hnz in Hc. destruct Hc as (_ & Hmono & Hc). cbn [mbind outcome_bind]. rewrite Hnz.
  set (f := page_addr a k) in *. pose proof (page_addr_ok a p k Hi Hk) as Hfo. fold f in Hfo.
  assert (pt_inv a (set_bm b1 p)) as Hi1 by (apply pt_inv_bm; [done..|]; intros j Hj; apply Hmono; unfold in_range; lia).
  assert (∀ path t, ok_path path → walk (pg_mem p) (read_cr3 p) path = Some t → t ≠ f) as Hnf.
  { intros path t Hp Hw ->. rewrite (pi_used _ _ Hi _ _ Hp Hw k Hk eq_refl) in Hf. done. }
  pose proof (map_new a Ha (free_count a b1) b1 (set_bm b1 p) TEST_VADDR f PAGE_KERNEL Hi1 Hfo test_flags Ht ltac:(by split_and!) eq_refl) as M.
  destruct (map_agree a L (set_bm b1 p) TEST_VADDR f PAGE_KERNEL (n - 1) (reached_bm a L p b1 HR Hi1) Hlow1 ltac:(lia) Ht) as [-> Hvia].
  destruct (map_4k a (set_bm b1 p) TEST_VADDR f PAGE_KERNEL) as [p2| | |]; [|done|lia|done]. cbn [mbind outcome_bind].
  destruct (Hvia p2 eq_refl) as [R2 Hlow2]. replace (n - 1 - 3) with (n - 4) in Hlow2 by lia.
  destruct M as (Hi2 & Hc2 & (Hb2 & Hu2 & Hn2) & Ho2 & Hl2 & Hnh2 & C2 & _).
  rewrite lor_page in Hl2 by done.
  assert (used b1 k = true) as Huk by (rewrite Hu1 by (unfold in_range; lia); by rewrite Z.eqb_refl).
  pose proof (confined_frame (path_of TEST_VADDR) (set_bm b1 p) p2 f k Hi1 C2 (ok3 _ _ _ (index_at_range _ _) (index_at_range _ _) (index_at_range _ _)) Hc2 Hk eq_refl Huk Hnf) as Hnf2.
  assert (slot f 0 = f) as Ef by (unfold slot; lia).
  destruct (data_write a p2 f 0 TEST_PATTERN Hi2 Hfo ltac:(lia) Hnf2) as (Hi3 & Hw3 & Hl3 & Hnh3).
  destruct (reached_data a L p2 f 0 TEST_PATTERN R2 Hfo ltac:(lia) Hnf2) as [R3 _]. rewrite Ef in *.
  assert (translate p2 TEST_VADDR = Some f) as Ht2 by (by rewrite (translate_leaf a), Hl2).
  unfold store_at. rewrite Ht2. cbn [mbind outcome_bind]. set (p3 := pg_st p2 f TEST_PATTERN) in *.
  assert (translate p3 TEST_VADDR = Some f) as Ht3 by (by rewrite (translate_leaf a), Hl3, Hl2).
  rewrite Ht3, Z.eqb_refl. unfold load_at. rewrite Ht3. cbn [mbind outcome_bind].
  replace (pg_ld p3 f) with TEST_PATTERN by (symmetry; apply ld_st_eq). rewrite Z.eqb_refl.
  rewrite (unmap_agree a L p3 TEST_VADDR R3).
  destruct (unmap_leaf p3 TEST_VADDR (f, has PAGE_KERNEL PAGE_USER) Hi3) as (e & p4 & -> & Hi4 & Hc4 & Hb4 & Hw4 & Hl4).
  { by apply Hnh3. }
  { by rewrite Hl3. }
  assert (∀ path t, ok_path path → walk (pg_mem p4) (read_cr3 p4) path = Some t → t ≠ f) as Hnf4.
  { intros path t Hp. replace (read_cr3 p4) with (read_cr3 p2) by (unfold read_cr3; by rewrite Hc4).
    change (read_cr3 p2) with (read_cr3 p3) at 1. rewrite Hw4, Hw3 by done. by apply Hnf2. }
  cbn [mbind outcome_bind]. unfold pmm_free. change (free a (pg_bm p4) f) with (free a (pg_bm p4) (page_addr a k)). rewrite free_page by (done || (unfold in_range; lia)).
  assert (pg_bm p4 = pg_bm p2) as Eb by (by rewrite Hb4). rewrite Eb.
  destruct (bm_clear_spec (pg_bm p2) k Hb2 ltac:(unfold in_range; lia)) as (b5 & -> & Hb5 & Hu5). cbn [mbind outcome_bind].
  assert (∀ j, in_range j → used (pg_bm p) j = true → used b5 j = true) as Hmono5.
  { intros j Hj Hu. rewrite Hu5 by done. rewrite Hu2 by auto. destruct (Z.eqb_spec k j) as [->|]; [congruence|done]. }
  assert (pt_inv a (set_bm b5 p4)) as Hi5.
  { split; try apply Hi4; [done|]. intros path t Hp Hw j Hj Etj. cbn [pg_bm set_bm]. rewrite Hu5 by (unfold in_range; lia).
    destruct (Z.eqb_spec k j) as [->|]; [by apply (Hnf4 path t Hp Hw) in Etj|]. cbn. rewrite <- Eb. by apply (pi_used _ _ Hi4 path t). }
  assert (reached a L p4) as R4.
  { apply (reached_same a L p3); [done|done|done| |].
    - intros x Hx. rewrite Hl4, decide_False; [done|]. apply (off_identity a L p); [done|by apply (leaf_none a)|done].
    - intros path t Hp. rewrite Hw4 by done. by left. }
  exists (set_bm b5 p4). split; [done|]. split; [by apply reached_bm|]. split; [|split; [|split; [|split; [|split]]]].
  - apply (low_first_free a L (n - 4) (pg_bm p2) k); [done|done|done|]. intros j Hj. cbn [pg_bm set_bm]. rewrite Hu5 by done. by destruct (k =? j).
  - cbn. by rewrite Hc4.
  - intros v Hv. change (translate (set_bm b5 p4) v) with (translate p4 v). rewrite !(translate_leaf a) by done. f_equal. rewrite Hl4, Hl3.
    destruct (decide (indices v = indices TEST_VADDR)) as [Ei|Ei].
    + symmetry. apply (leaf_none a) in Ht; [|done]. revert Ht. unfold leaf, xlate. rewrite Ei. cbn [indices].
      destruct (walk _ _ [_; _; _]) as [l1|]; [by destruct (has (ld64 (pg_mem p) (slot l1 _)) PAGE_PRESENT)|].
      destruct (walk _ _ [_; _]) as [l2|]; [|done]. cbn [mbind option_bind]. by destruct (_ && _).
    + by rewrite Ho2.
  - intros v Hne Hv. apply (confined_untabled TEST_VADDR (set_bm b1 p) p2) in Hv; [|done..]. unfold untabled in *.
    change (read_cr3 (set_bm b5 p4)) with (read_cr3 p4). replace (read_cr3 p4) with (read_cr3 p2) by (unfold read_cr3; by rewrite Hc4).
    cbn [pg_mem set_bm]. change (read_cr3 p2) with (read_cr3 p3) at 1. by rewrite Hw4, Hw3 by (apply ok3; apply index_at_range).
  - done.
  - cbn [pg_bm set_bm]. assert (free_count a b5 = free_count a (pg_bm p2) + 1) as ->; [|lia]. unfold free_count.
    rewrite (countb_drop_one (λ j, negb (used b5 j)) (λ j, negb (used (pg_bm p2) j)) _ k); [lia|apply NoDup_seqZ|apply elem_of_seqZ; lia| |].
    + rewrite Hu5 by (unfold in_range; lia). by rewrite Z.eqb_refl.
    + intros j Hj%elem_of_seqZ. rewrite Hu5 by (unfold in_range; lia). rewrite Z.eqb_sym.
      destruct (Z.eqb_spec j k) as [->|]; cbn; [|by rewrite andb_true_r]. by rewrite Hu2 by (done || (unfold in_range; lia)).
Qed.
End pages.
