(* ===== verification/BootSpec.v ===== *)
(** * What the boot sequence promises for memory

    After the first half of the boot sequence every test has passed, the page tables satisfy the
    invariant the paging operations are specified with, the first 32 MiB are mapped to themselves,
    the heap is one free block, and no page of the kernel's image can be handed out. *)

From Stdlib Require Import ZArith Lia String.
From stdpp Require Import base numbers list list_numbers option gmap.
From S2P Require Import Prelude Pmm Multiboot Memory Kmm Paging PageMaps PageSpec Reach Loader MemSpec PageHuge Serial Interrupts Console BootMem BootPages.

Local Open Scope Z_scope.

(** ** What is assumed of the machine *)

(** The size of the reservation. *)
Definition image_size (ke : Z) : Z := Z.max (Z.max 0 (ke - KERNEL_START)) 524288.

(** What the memory map has to offer: the heap's 256 pages below the kernel, where the search for a
    run looks, and 36 pages above it that end below 4 MiB, so that boot.asm has mapped them. *)
Record memory_found (a : PmmAllocator) (bm : bitmap) (ke : Z) : Prop := {
  mf_pmm : pmm_wf a;
  mf_bm : bm_wf bm;
  mf_align : memory_start a mod 4096 = 0;
  mf_top : memory_start a + PMM_MAX_PAGES * PMM_PAGE_SIZE ≤ 2 ^ 52;
  mf_low : memory_start a ≤ KERNEL_START;
  mf_image : KERNEL_START + image_size ke ≤ page_addr a PMM_MAX_PAGES;
  mf_heap : ∃ k, 0 ≤ k ∧ (∀ j, 0 ≤ j < k → used bm j = true) ∧ k + 256 ≤ total_pages a ∧
    (∀ j, k ≤ j < k + 256 → used bm j = false) ∧ page_addr a (k + 256) ≤ KERNEL_START;
  mf_room : ∃ n, 0 ≤ n ∧ KERNEL_START + image_size ke ≤ page_addr a n ∧ n + 36 ≤ total_pages a ∧ page_addr a (n + 36) ≤ 4194304 ∧
    ∀ j, n ≤ j < n + 36 → used bm j = false
}.

(** The page tables the boot loader leaves: inside the kernel's image, with the first 4 MiB mapped to themselves, and huge pages that map the
    first 32 MiB to themselves where they map them at all. *)
Record boot_tables (p : pg) (ke : Z) : Prop := {
  bt_tree : tree (pg_mem p) (read_cr3 p);
  bt_inside : ∀ path t, ok_path path → PageMaps.walk (pg_mem p) (read_cr3 p) path = Some t → KERNEL_START ≤ t < KERNEL_START + image_size ke;
  bt_low : ∀ x, 0 ≤ x < 4194304 → translate p x = Some x;
  bt_plain : plain p 0 33554432;
  bt_test : translate p TEST_VADDR = None
}.

(** ** The steps *)

Section steps.
Context (a : PmmAllocator) (bm : bitmap) (ke : Z) (F : memory_found a bm ke).

Lemma image_reserved kie : ke = kernel_end kie →
  ∃ bm1, reserve_kernel a bm kie = Ret bm1 ∧ bm_wf bm1 ∧ ∀ j, in_range j → used bm1 j = touches a KERNEL_START (image_size ke) j || used bm j.
Proof using F.
  intros ->. apply reserve_inside; [apply F|apply F|apply F|unfold image_size; lia|apply F].
Qed.

(** Before and behind the image nothing is reserved. *)
Lemma untouched j : page_addr a (j + 1) ≤ KERNEL_START ∨ KERNEL_START + image_size ke ≤ page_addr a j → touches a KERNEL_START (image_size ke) j = false.
Proof using Type. unfold touches. intros [|]; zcases. Qed.

Lemma tests_pass bm1 m h s fuel : bm_wf bm1 → (∀ j, in_range j → used bm1 j = touches a KERNEL_START (image_size ke) j || used bm j) → (6 < fuel)%nat →
  pmm_test a bm1 s = Ret (bm1, say s "PMM: Test passed.") ∧
  ∃ bm2 m1 h1 m2 h2, kmm_init a bm1 m h = Ret (bm2, m1, h1) ∧
    kmm_test m1 h1 (say s "PMM: Test passed.") fuel = Ret (m2, h2, foldl say s ["PMM: Test passed."; "KMM: Test OK — freed block reused."; "KMM: Coalescing OK — single free block."]%string) ∧
    heap_inv m2 h2 [(1048576, true)] ∧ bm_wf bm2 ∧ (∀ j, in_range j → used bm1 j = true → used bm2 j = true) ∧
    (∀ j, 0 ≤ j < total_pages a → HEAP_LOW h2 ≤ page_addr a j < HEAP_LOW h2 + 1048576 → used bm2 j = true) ∧ 36 ≤ MemSpec.free_count a bm2 ∧ low_first a 4194304 36 bm2.
Proof using F.
  intros Hb1 Hu1 Hfuel. pose proof (mf_pmm _ _ _ F) as Ha. pose proof Ha as (Ht & _).
  destruct (mf_heap _ _ _ F) as (k & Hk & Hlow & Hkt & Hkf & Hka). destruct (mf_room _ _ _ F) as (n & Hn & Hna & Hnt & Hn4 & Hnf).
  assert (∀ j, k ≤ j < k + 256 → used bm1 j = false) as Hrun.
  { intros j Hj. rewrite Hu1 by (unfold in_range; lia). rewrite (Hkf j Hj), orb_false_r. apply untouched. left. unfold page_addr, PMM_PAGE_SIZE in *. lia. }
  assert (∀ j, n ≤ j < n + 36 → used bm1 j = false) as Hroom.
  { intros j Hj. rewrite Hu1 by (unfold in_range; lia). rewrite (Hnf j Hj), orb_false_r. apply untouched. right. unfold page_addr, PMM_PAGE_SIZE in *. lia. }
  split.
  { unfold pmm_test. rewrite test_ok; [done|done|done|]. exists k, (k + 1), (k + 2). rewrite !Hrun by lia. split_and!; lia || done. }
  destruct (kmm_init_at a bm1 m h k Ha (mf_align _ _ _ F) Hb1 Hk Hkt) as (bm2 & m1 & h1 & E & Hl & Hinv & Hb2 & Hu2); [|done|].
  { intros j Hj. rewrite Hu1 by (unfold in_range; lia). rewrite Hlow by done. apply orb_true_r. }
  destruct (test_fresh m1 h1 1048576 fuel Hinv ltac:(lia) Hfuel) as (m2 & h2 & Et & Hinv2 & Hl2).
  exists bm2, m1, h1, m2, h2. split; [done|]. split; [|split; [done|split; [done|split; [|split]]]].
  - unfold kmm_test. rewrite Et. cbn [mbind outcome_bind Z.eqb Pos.eqb foldl]. exact eq_refl.
  - intros j Hj Hj1. rewrite Hu2, Hj1 by done. apply orb_true_r.
  - intros j Hj Hr. rewrite Hl2, Hl in Hr. rewrite Hu2 by (unfold in_range; lia). unfold page_addr, PMM_PAGE_SIZE in Hr. zcases.
  - assert (∀ j, n ≤ j < n + 36 → used bm2 j = false) as Hfree.
    { intros j Hj. rewrite Hu2 by (unfold in_range; lia). rewrite Hroom by done. assert (k + 256 ≤ n) by (unfold page_addr, PMM_PAGE_SIZE, image_size in *; lia). zcases. }
    split; [by apply (free_before_run bm2 n 36); [lia..|]|]. intros j Hj _ HL. apply (free_before_run bm2 n 36); [lia|lia| |done].
    unfold page_addr, PMM_PAGE_SIZE in *. lia.
Qed.

(** The tables are below 4 MiB. *)
Lemma tables_low p path t : boot_tables p ke → ok_path path → PageMaps.walk (pg_mem p) (read_cr3 p) path = Some t → t + 4096 ≤ 4194304.
Proof using F.
  intros B Hp Hw. destruct (mf_room _ _ _ F) as (n & Hn & Hna & Hnt & Hn4 & _). pose proof (bt_inside _ _ B path t Hp Hw).
  destruct (tr_ok _ _ (bt_tree _ _ B) path t Hp Hw) as [Ht _]. pose proof (mf_align _ _ _ F) as Hm. unfold page_addr, PMM_PAGE_SIZE in *.
  apply Z.mod_divide in Ht as [c ->]; [|lia]. apply Z.mod_divide in Hm as [d Hd]; [|lia]. lia.
Qed.

Lemma tables_kept p bm1 : boot_tables p ke → bm_wf bm1 → (∀ j, in_range j → touches a KERNEL_START (image_size ke) j = true → used bm1 j = true) →
  pt_inv a (set_bm bm1 p).
Proof using F.
  intros B Hb Hu. pose proof (mf_pmm _ _ _ F) as Ha. pose proof Ha as (Ht & _).
  split; [done|split; apply F|done|apply B|]. intros path t Hp Hw k Hk ->. cbn. apply Hu; [unfold in_range; lia|].
  pose proof (bt_inside _ _ B path _ Hp Hw). unfold touches, page_addr, PMM_PAGE_SIZE in *. zcases.
Qed.
End steps.

Lemma identity_flags : huge_flags PAGE_KERNEL_HUGE.
Proof. split; [split; [done|]|done]. intros i Hi'. apply (testbit_high 8); [lia|done|lia]. Qed.

Lemma extend_loop a p : extend_kernel_identity_via a p 33554432 = map_2m_loop_via a p 0 0 PAGE_KERNEL_HUGE 0 16.
Proof. done. Qed.

Lemma boot_memory_ok rd32 mbi kie p m h s fuel a bm s1 :
  detect_memory rd32 mbi (pg_bm p) s fuel = Ret (a, bm, s1) → memory_found a bm (kernel_end kie) → boot_tables p (kernel_end kie) → (6 < fuel)%nat →
  ∃ p' m' h', boot_memory rd32 mbi kie p m h s fuel =
      Ret (a, p', (m', h'), foldl say s1 ["PMM: Test passed."; "KMM: Test OK — freed block reused.";
                                          "KMM: Coalescing OK — single free block."; "PAGING: Test passed."]%string) ∧
    reached a 33554432 p' ∧ pg_cr3 p' = pg_cr3 p ∧ (∀ v, 0 ≤ v < 33554432 → translate p' v = Some v) ∧
    (∀ v, 33554432 ≤ v < 2 ^ 48 → translate p' v = translate p v) ∧ heap_inv m' h' [(1048576, true)] ∧
    (∀ j, 0 ≤ j < total_pages a → page_addr a j < kernel_end kie ∧ KERNEL_START < page_addr a (j + 1) ∨ HEAP_LOW h' ≤ page_addr a j < HEAP_LOW h' + 1048576 →
       used (pg_bm p') j = true) ∧
    (∀ v, path_of v ≠ path_of TEST_VADDR → untabled p v → untabled p' v).
Proof.
  intros Hd F B Hfuel. pose proof (mf_pmm _ _ _ F) as Ha. pose proof Ha as (Ht & _). unfold boot_memory. rewrite Hd. cbn [mbind outcome_bind].
  destruct (image_reserved a bm _ F kie eq_refl) as (bm1 & -> & Hb1 & Hu1). cbn [mbind outcome_bind].
  destruct (tests_pass a bm _ F bm1 m h s1 fuel Hb1 Hu1 Hfuel) as (-> & bm2 & m1 & h1 & m2 & h2 & Ek & Et & Hinv & Hb2 & Hmono & Hheap & Hfree & Hlow).
  cbn [mbind outcome_bind]. rewrite Ek. cbn [mbind outcome_bind]. rewrite Et. cbn [mbind outcome_bind].
  assert (∀ j, in_range j → touches a KERNEL_START (image_size (kernel_end kie)) j = true → used bm2 j = true) as Himg.
  { intros j Hj Htj. apply Hmono; [done|]. by rewrite Hu1, Htj by done. }
  pose proof (tables_kept a bm _ F p bm2 B Hb2 Himg) as Hi2.
  assert (reached a 4194304 (set_bm bm2 p)) as HR.
  { split; [done|exact (bt_low _ _ B)|]. intros path t Hp Hw. by apply (tables_low a bm _ F p path t B). }
  destruct (paging_test_ok a 4194304 (set_bm bm2 p) (foldl say s1 ["PMM: Test passed."; "KMM: Test OK — freed block reused."; "KMM: Coalescing OK — single free block."]%string)
    36 HR Hlow ltac:(lia) (bt_test _ _ B) ltac:(cbn; lia)) as (p3 & -> & R3 & Hlow3 & Hc3 & Ht3 & Hn3 & Hu3 & Hf3). cbn [mbind outcome_bind pg_bm set_bm] in *.
  pose proof (re_inv _ _ _ R3) as Hi3. rewrite extend_loop.
  destruct (map_2m_loop_agree a 4194304 0 PAGE_KERNEL_HUGE 16 eq_refl ltac:(lia) identity_flags 0 p3 (36 - 4) R3 Hlow3 ltac:(lia) ltac:(lia) ltac:(unfold HUGE; lia)) as [-> HR4]. pose proof (identity_loop a Ha 0 PAGE_KERNEL_HUGE 16 eq_refl ltac:(lia) identity_flags 0 p3 33 bm2 Hi3) as L.
  assert (budget a 33 bm2 p3) as Hbud by (split; [apply Hi3|split; [done|lia]]).
  assert (plain p3 0 33554432) as Hpl.
  { intros v Hv. destruct (bt_plain _ _ B v Hv) as [Huv Htv]. split.
    - apply Hn3; [|done]. rewrite path_block by (unfold TEST_VADDR; lia). unfold HUGE, TEST_VADDR. intros E.
      assert (v / 2097152 < 16) by (apply Z.div_lt_upper_bound; lia). rewrite E in *. done.
    - rewrite Ht3 by lia. exact Htv. }
  specialize (L Hbud ltac:(lia) ltac:(unfold HUGE; lia) Hpl). change (0 + (0 + Z.of_nat 16) * HUGE) with 33554432 in L. change (0 + 0 * HUGE) with 0 in L.
  destruct (map_2m_loop a p3 0 0 PAGE_KERNEL_HUGE 0 16) as [p4| | |]; [|done|lia|done].
  destruct L as (Hi4 & Hc4 & (_ & Hu4 & _) & Hut & Hn4 & Ho4). cbn [mbind outcome_bind]. exists p4, m2, h2. split.
  { unfold init_global. clear. destruct a as [x y]. cbn [foldl total_pages memory_start]. exact eq_refl. }
  split. { destruct (HR4 p4 eq_refl) as [_ _ Hl4]. split; [done|done|]. intros path t Hp Hw. pose proof (Hl4 path t Hp Hw). lia. }
  split; [by rewrite Hc4|]. split; [done|]. split; [|split; [done|split]].
  - intros v Hv. rewrite (translate_leaf a), Ho4, <- (translate_leaf a) by (done || lia). rewrite Ht3 by lia. done.
  - intros j Hj Hin. apply Hu4; [unfold in_range; lia|]. destruct Hin as [[H1 H2]|]; [|by apply Hheap].
    apply Himg; [unfold in_range; lia|]. unfold touches, image_size. zcases.
  - intros v Hne Hv. apply Hut, Hn3; [done|exact Hv].
Qed.

(** C7: The first half of the boot sequence.  On a machine whose memory map offers the 256 pages of
    the heap below the kernel and 36 pages above it that end below 4 MiB, with the page tables of the boot loader inside
    the kernel's image and the first 4 MiB mapped to themselves, the sequence runs through with every test passed, and every access to a page table goes
    to an address mapped to itself.  Afterwards the
    page tables satisfy the invariant of all paging operations and lie in the identity map, every address of the first 32 MiB leads to
    itself and every other address where it led before, the heap is one free block of 1 MiB, and
    no page of the kernel's image or of the heap is free, so none of them is ever handed out. *)
Theorem boot_memory_spec (rd32 : Z → Z) (mbi kernel_image_end : Z) (p : pg) (m : mem) (h : heap) (s : serial) (fuel : nat)
    (a : PmmAllocator) (bm : bitmap) (s1 : serial)
    (Hdetect : detect_memory rd32 mbi (pg_bm p) s fuel = Ret (a, bm, s1))
    (Hfound : memory_found a bm (kernel_end kernel_image_end)) (Htables : boot_tables p (kernel_end kernel_image_end))
    (Hfuel : (6 < fuel)%nat) :
  ∃ p' m' h', boot_memory rd32 mbi kernel_image_end p m h s fuel =
      Ret (a, p', (m', h'), foldl say s1 ["PMM: Test passed."; "KMM: Test OK — freed block reused.";
                                          "KMM: Coalescing OK — single free block."; "PAGING: Test passed."]%string) ∧
    reached a 33554432 p' ∧ pg_cr3 p' = pg_cr3 p ∧ (∀ v, 0 ≤ v < 33554432 → translate p' v = Some v) ∧
    (∀ v, 33554432 ≤ v < 2 ^ 48 → translate p' v = translate p v) ∧ heap_inv m' h' [(1048576, true)] ∧
    (∀ j, 0 ≤ j < total_pages a →
       page_addr a j < kernel_end kernel_image_end ∧ KERNEL_START < page_addr a (j + 1) ∨ HEAP_LOW h' ≤ page_addr a j < HEAP_LOW h' + 1048576 →
       used (pg_bm p') j = true).
Proof.
  destruct (boot_memory_ok rd32 mbi kernel_image_end p m h s fuel a bm s1 Hdetect Hfound Htables Hfuel) as (p' & m' & h' & ? & ? & ? & ? & ? & ? & ? & _).
  by exists p', m', h'.
Qed.

(** ** The tables of boot.asm *)

Lemma loader_boot_tables : boot_tables loader_pages (kernel_end 2359296).
Proof.
  destruct loader_walk as (T & W & _). destruct loader_walk2 as (_ & W2).
  assert (∀ path, ok_path path → PageMaps.walk (pg_mem loader_pages) (read_cr3 loader_pages) path =
    if decide (path = []) then Some loader_l4 else if decide (path = [0]) then Some loader_l3 else if decide (path = [0; 0]) then Some loader_l2 else None) as Hw.
  { intros path Hp. change (pg_mem loader_pages) with loader_mem. change (read_cr3 loader_pages) with loader_l4. rewrite (W path Hp). exact (W2 path Hp). }
  split; [exact T|..].
  2:{ intros x Hx. rewrite loader_translate by lia. by rewrite (proj2 (Z.ltb_lt _ _)) by lia. }
  - intros path t Hp. rewrite Hw by exact Hp. change (KERNEL_START + image_size (kernel_end 2359296)) with 2621440. unfold KERNEL_START.
    repeat case_decide; intros [= <-]; unfold loader_l4, loader_l3, loader_l2; lia.
  - intros v Hv. split.
    + unfold untabled. rewrite Hw by (apply ok3; apply index_at_range). rewrite !decide_False by done. exact eq_refl.
    + rewrite loader_translate by lia. case_match; auto.
  - rewrite loader_translate by (unfold TEST_VADDR; lia). exact eq_refl.
Qed.

(** A machine with 16 MiB, the first 636 KiB of which are listed first. *)
Definition boot_rd32 : Z → Z := demo_rd32 0 651264 1048576 15728640.
Definition boot_handle : PmmAllocator := mkPmm 3840 1048576.
Definition boot_bm : bitmap := replicate 480 0 ++ replicate (Z.to_nat BITMAP_SIZE - 480) 255.
Definition quiet : serial := mkSerial [] [] [].
Definition boot_s1 : serial := match print_mmap boot_rd32 32768 quiet 10 with Ret s => s | _ => quiet end.

Lemma boot_detects : detect_memory boot_rd32 32768 (pg_bm loader_pages) quiet 10 = Ret (boot_handle, boot_bm, boot_s1).
Proof. vm_compute. reflexivity. Qed.

Lemma boot_bm_free lo n : forallb (λ j, negb (used boot_bm j)) (seqZ lo n) = true → ∀ j, lo ≤ j < lo + n → used boot_bm j = false.
Proof.
  intros H j Hj. rewrite forallb_forall in H. apply negb_true_iff. apply H.
  apply list_elem_of_In, elem_of_seqZ. lia.
Qed.

Lemma boot_memory_found : memory_found boot_handle boot_bm (kernel_end 2359296).
Proof.
  change (kernel_end 2359296) with 2359296. split; try done.
  - split; [done|]. apply Forall_app. split; by apply Forall_replicate.
  - exists 0. split; [done|]. split; [intros j Hj; lia|]. split; [done|]. split; [|done]. apply (boot_bm_free 0 256). vm_compute. reflexivity.
  - exists 384. split; [done|]. split; [done|]. split; [done|]. split; [done|]. apply (boot_bm_free 384 36). vm_compute. reflexivity.
Qed.

Lemma boot_memory_spec_witness :
  ∃ p' m' h' s', boot_memory boot_rd32 32768 2359296 loader_pages ∅ (mkHeap 0 0 0) quiet 10 = Ret (boot_handle, p', (m', h'), s') ∧
    reached boot_handle 33554432 p' ∧ translate p' 20971520 = Some 20971520 ∧ used (pg_bm p') 256 = true.
Proof.
  destruct (boot_memory_spec boot_rd32 32768 2359296 loader_pages ∅ (mkHeap 0 0 0) quiet 10 boot_handle boot_bm boot_s1
    boot_detects boot_memory_found loader_boot_tables ltac:(lia)) as (p' & m' & h' & E & Hi & _ & Ht & _ & _ & Hu).
  eexists p', m', h', _. split; [exact E|]. split; [exact Hi|]. split; [apply Ht; lia|].
  apply Hu; [split; [lia|reflexivity]|]. left. split; reflexivity.
Defined.

(** ** Without a memory map *)

(** The hard-wired range leaves 252 pages between the first four and the kernel, and the search for
    the heap's 256 pages does not look further: the kernel starts without a heap. *)
Theorem fallback_has_no_heap (rd32 : Z → Z) (bm : bitmap) (s : serial) (m : mem) (h : heap) (fuel : nat) (kernel_image_end : Z)
    (Hbm : bm_wf bm) (Hend : 0 ≤ kernel_image_end ≤ 268435456) :
  ∃ a bm1 s1 bm2, detect_memory rd32 0 bm s fuel = Ret (a, bm1, s1) ∧ reserve_kernel a bm1 kernel_image_end = Ret bm2 ∧
    kmm_init a bm2 m h = Ret (bm2, m, h).
Proof.
  unfold detect_memory. cbn [Z.eqb negb mbind outcome_bind]. unfold init.
  destruct (set_range_spec 4 ((λ _, 0) <$> bm) 0) as (bm1 & E1 & Hb1 & Hu1); [by apply fill_wf|lia|done|]. rewrite E1. cbn [mbind outcome_bind].
  set (a := mkPmm (clamp_pages 1048576 268435456) 1048576). assert (pmm_wf a) as Ha by (split; [done|split; done]).
  assert (∀ j, in_range j → used bm1 j = (j <? 4)) as Hfree.
  { intros j Hj. rewrite Hu1 by done. destruct (bm_lookup bm j Hbm Hj) as (b & Hb & _).
    assert (used ((λ _, 0) <$> bm) j = false) as -> by (unfold used; rewrite list_lookup_fmap, Hb; apply Z.bits_0).
    unfold in_range in Hj. rewrite orb_false_r. zcases. }
  assert (0 ≤ kernel_end kernel_image_end ≤ 268435456) as Hke.
  { unfold kernel_end, sat_add, U64_MAX. rewrite Z.min_l, and_not_page by lia.
    pose proof (Z.div_mod (kernel_image_end + 4095) 4096 ltac:(lia)). pose proof (Z.mod_pos_bound (kernel_image_end + 4095) 4096 ltac:(lia)).
    assert ((kernel_image_end + 4095) / 4096 < 65537) by (apply Z.div_lt_upper_bound; lia). lia. }
  destruct (reserve_inside a bm1 KERNEL_START (image_size (kernel_end kernel_image_end)) Ha Hb1) as (bm2 & E2 & Hb2 & Hu2);
    [done|unfold image_size; lia|unfold image_size, KERNEL_START, page_addr, PMM_MAX_PAGES, PMM_PAGE_SIZE; cbn [memory_start a]; lia|].
  eexists a, bm1, _, bm2. split; [exact eq_refl|]. split; [exact E2|]. unfold kmm_init, INITIAL_HEAP_PAGES.
  destruct (alloc_pages_cases a bm2 256 Ha Hb2 eq_refl) as [(k & bm' & Hk & Hlow & Hle & Hf & _)|[-> _]]; [exfalso|exact eq_refl].
  assert (∀ j, 0 ≤ j < 256 → used bm2 j = (j <? 4)) as Hbelow.
  { intros j Hj. rewrite Hu2, Hfree by (unfold in_range, PMM_MAX_PAGES; lia). rewrite untouched; [done|].
    left. unfold page_addr, KERNEL_START, PMM_PAGE_SIZE. cbn [memory_start a]. lia. }
  assert (k ≤ 4) as Hk4. { destruct (decide (k ≤ 4)); [done|]. specialize (Hlow 4 ltac:(lia)). by rewrite Hbelow in Hlow by lia. }
  assert (4 ≤ k) as H4k.
  { destruct (decide (4 ≤ k)); [done|]. specialize (Hf k ltac:(lia)). rewrite Hbelow in Hf by lia. rewrite (proj2 (Z.ltb_lt _ _)) in Hf by lia. done. }
  specialize (Hf 256 ltac:(lia)). rewrite Hu2 in Hf by done. apply orb_false_elim in Hf as [Hf _]. revert Hf.
  unfold touches, image_size, page_addr, KERNEL_START, PMM_PAGE_SIZE. cbn [memory_start a]. zcases.
Qed.

Lemma fallback_has_no_heap_witness :
  ∃ a bm1 s1 bm2, detect_memory (λ _, 0) 0 (pg_bm loader_pages) quiet 0 = Ret (a, bm1, s1) ∧ reserve_kernel a bm1 2359296 = Ret bm2 ∧
    kmm_init a bm2 ∅ (mkHeap 0 0 0) = Ret (bm2, ∅, mkHeap 0 0 0).
Proof.
  apply (fallback_has_no_heap (λ _, 0) (pg_bm loader_pages) quiet ∅ (mkHeap 0 0 0) 0 2359296); [|lia].
  split; [reflexivity|]. apply Forall_replicate. lia.
Defined.

(** Frames from 4 MiB on are not mapped yet when the test runs: it stops at the first page table it has to clear. *)
Theorem paging_test_out_of_reach : paging_test (mkPmm 16 4194304) loader_pages quiet = Fault.
Proof. vm_compute. reflexivity. Qed.
