(* ===== verification/Gdt.v ===== *)
(** * Segments and the task state (src/kernel_rust/src/gdt.rs)

    The descriptor words, the task state segment and the model-specific registers that [init] writes, as a
    list of register and value.  The addresses of the table, of the segment and of the stack are parameters, and so is what EFER
    holds before. *)

From Stdlib Require Import ZArith Lia.
From stdpp Require Import base numbers list list_numbers option.
From S2P Require Import Prelude Process.

Local Open Scope Z_scope.

(** ** Descriptors *)

Definition seg_entry (access flags : Z) : Z := Z.lor (Z.shiftl flags 48) (Z.shiftl access 40).

Definition GDT_NULL : Z := 0.
Definition GDT_KERNEL_CODE : Z := seg_entry 154 32.
Definition GDT_KERNEL_DATA : Z := seg_entry 146 0.
Definition GDT_USER_DATA : Z := seg_entry 242 0.
Definition GDT_USER_CODE : Z := seg_entry 250 32.
Definition GDT_SYSRET_CODE : Z := seg_entry 250 32.
Definition GDT_SYSRET_DATA : Z := seg_entry 242 0.

Definition KERNEL_CS : Z := Z.shiftl 1 3.
Definition KERNEL_DS : Z := Z.shiftl 2 3.
Definition USER_DS : Z := Z.shiftl 3 3.
Definition USER_CS : Z := Z.shiftl 4 3.
Definition USER_DS_RPL3 : Z := Z.lor USER_DS 3.
Definition USER_CS_RPL3 : Z := Z.lor USER_CS 3.
Definition SYSRET_CS : Z := Z.shiftl 5 3.
Definition SYSRET_DS : Z := Z.shiftl 6 3.

(** ** The task state segment *)

Record TaskStateSegment := mkTss {
  reserved0 : Z; rsp0 : Z; rsp1 : Z; rsp2 : Z; reserved1 : Z;
  ist1 : Z; ist2 : Z; ist3 : Z; ist4 : Z; ist5 : Z; ist6 : Z; ist7 : Z; reserved2 : Z; iomap_base : Z
}.

Definition TaskStateSegment_new : TaskStateSegment := mkTss 0 0 0 0 0 0 0 0 0 0 0 0 0 0.

(** The widths of the fields of the packed structure, in bytes, and its size. *)
Definition tss_widths : list Z := [4; 8; 8; 8; 8; 8; 8; 8; 8; 8; 8; 8; 8; 2].
Definition SIZEOF_TSS : Z := foldr Z.add 0 tss_widths.

Definition tss_set_rsp0 (t : TaskStateSegment) (r : Z) : TaskStateSegment :=
  mkTss (reserved0 t) r (rsp1 t) (rsp2 t) (reserved1 t) (ist1 t) (ist2 t) (ist3 t) (ist4 t) (ist5 t) (ist6 t) (ist7 t)
    (reserved2 t) (iomap_base t).

Definition tss_descriptor (tss_addr size : Z) : Z * Z :=
  let limit := u32 (size - 1) in
  let low := Z.lor (Z.lor (Z.lor (Z.lor
               (Z.land limit 65535)
               (Z.shiftl (Z.land tss_addr 16777215) 16))
               (u64 (Z.shiftl (Z.land tss_addr 4278190080) 32)))
               (Z.shiftl 137 40))
               (Z.shiftl (Z.land (Z.shiftr limit 16) 15) 48) in
  (low, Z.shiftr tss_addr 32).

(** ** The table *)

Definition Gdt_new : list Z :=
  [GDT_NULL; GDT_KERNEL_CODE; GDT_KERNEL_DATA; GDT_USER_DATA; GDT_USER_CODE; GDT_SYSRET_CODE; GDT_SYSRET_DATA; 0; 0].

Definition install_tss (entries : list Z) (tss_addr : Z) : outcome (list Z) :=
  let '(low, high) := tss_descriptor tss_addr SIZEOF_TSS in
  entries ← store entries 7 low;
  store entries 8 high.

(** ** Model-specific registers *)

Definition IA32_EFER : Z := 3221225600.
Definition IA32_STAR : Z := 3221225601.
Definition IA32_LSTAR : Z := 3221225602.
Definition IA32_FMASK : Z := 3221225604.

Definition STAR_SYSRET_SS_BASE : Z := 19.

Definition star : Z := Z.lor (Z.shiftl STAR_SYSRET_SS_BASE 48) (Z.shiftl KERNEL_CS 32).

(** [wrmsr] takes the value in two halves. *)
Definition wrmsr (msr val : Z) : Z * Z := (msr, Z.lor (Z.shiftl (u32 (Z.shiftr val 32)) 32) (u32 val)).

Definition setup_syscall_msrs (syscall_entry : Z) : list (Z * Z) :=
  [wrmsr IA32_STAR star; wrmsr IA32_LSTAR syscall_entry; wrmsr IA32_FMASK 512].

Record cpu := mkCpu {
  gdt : list Z;       (** the table that [lgdt] loads, nine entries *)
  tss : TaskStateSegment;
  code_seg : Z;       (** CS after the far return *)
  data_seg : Z;       (** DS, ES and SS *)
  task_reg : Z;       (** TR after [ltr] *)
  msrs : list (Z * Z) (** the writes, in order *)
}.

Definition init (syscall_entry stack_top tss_addr efer : Z) : outcome cpu :=
  let t := tss_set_rsp0 TaskStateSegment_new stack_top in
  g ← install_tss Gdt_new tss_addr;
  Ret (mkCpu g t KERNEL_CS KERNEL_DS 56
         (if negb (syscall_entry =? 0)
          then setup_syscall_msrs syscall_entry ++ [wrmsr IA32_EFER (Z.lor efer 1)] else [])).

(** ** How the processor reads the tables *)

(** The privilege level, code bit, writable or readable bit, presence and 64-bit flag of a segment. *)
Definition seg_dpl (e : Z) : Z := Z.land (Z.shiftr e 45) 3.
Definition seg_is_code (e : Z) : bool := Z.testbit e 43 && Z.testbit e 44.
Definition seg_is_data (e : Z) : bool := negb (Z.testbit e 43) && Z.testbit e 44 && Z.testbit e 41.
Definition seg_present (e : Z) : bool := Z.testbit e 47.
Definition seg_long (e : Z) : bool := Z.testbit e 53.

(** The descriptor a selector picks. *)
Definition descriptor (g : list Z) (sel : Z) : option Z := g !! Z.to_nat (Z.shiftr sel 3).

(** The selectors that SYSCALL and the 64-bit SYSRET load. *)
Definition syscall_cs (star : Z) : Z := Z.land (Z.shiftr star 32) 65532.
Definition syscall_ss (star : Z) : Z := Z.land (Z.shiftr star 32) 65535 + 8.
Definition sysret_cs (star : Z) : Z := Z.lor (Z.land (Z.shiftr star 48) 65535 + 16) 3.
Definition sysret_ss (star : Z) : Z := Z.lor (Z.land (Z.shiftr star 48) 65535 + 8) 3.

(** Base, limit and access byte of a system descriptor of 16 bytes. *)
Definition sys_base (low high : Z) : Z :=
  Z.lor (Z.lor (Z.land (Z.shiftr low 16) 16777215) (Z.shiftl (Z.land (Z.shiftr low 56) 255) 24)) (Z.shiftl (Z.land high (Z.ones 32)) 32).
Definition sys_limit (low : Z) : Z := Z.lor (Z.land low 65535) (Z.shiftl (Z.land (Z.shiftr low 48) 15) 16).
Definition sys_access (low : Z) : Z := Z.land (Z.shiftr low 40) 255.

(** ** Specification *)

(** The low word by ranges of bits. *)
Lemma tss_low_bits addr k : 0 ≤ addr < 2 ^ 64 → 0 ≤ k →
  Z.testbit (tss_descriptor addr SIZEOF_TSS).1 k =
    if k <? 16 then Z.testbit 101 k
    else if k <? 40 then Z.testbit addr (k - 16)
    else if k <? 48 then Z.testbit 137 (k - 40)
    else if k <? 56 then false
    else if k <? 64 then Z.testbit addr (k - 32) else false.
Proof.
  intros Ha Hk. unfold tss_descriptor. cbn [fst]. change (u32 (SIZEOF_TSS - 1)) with 101. change (Z.land 101 65535) with 101.
  change (Z.shiftl (Z.land (Z.shiftr 101 16) 15) 48) with 0. rewrite Z.lor_0_r. change 16777215 with (Z.ones 24).
  change 4278190080 with (Z.shiftl (Z.ones 8) 24). unfold u64.
  rewrite !Z.lor_spec, Z.testbit_mod_pow2, !Z.shiftl_spec, !Z.land_spec by lia. rewrite Z.testbit_ones by lia.
  assert (Z.testbit (Z.shiftl (Z.ones 8) 24) (k - 32) = (56 <=? k) && (k <? 64)) as ->.
  { destruct (Z.leb_spec 32 k); [rewrite Z.shiftl_spec, Z.testbit_ones by lia; zcases; lia || done|rewrite Z.testbit_neg_r by lia; zcases; lia || done]. }
  assert (Z.testbit 101 k = (k <? 16) && Z.testbit 101 k) as ->.
  { destruct (Z.ltb_spec k 16); [done|]. apply (testbit_high 7); [lia|done|lia]. }
  assert (Z.testbit 137 (k - 40) = (40 <=? k) && (k <? 48) && Z.testbit 137 (k - 40)) as E.
  { destruct (Z.leb_spec 40 k); [|by rewrite Z.testbit_neg_r by lia]. destruct (Z.ltb_spec k 48); [done|]. apply (testbit_high 8); [lia|done|lia]. }
  rewrite E. clear E. zcases; try lia; cbn [andb orb]; rewrite ?andb_true_r, ?andb_false_r, ?orb_false_r; done.
Qed.

Lemma tss_base_roundtrip addr : 0 ≤ addr < 2 ^ 64 → let '(low, high) := tss_descriptor addr SIZEOF_TSS in sys_base low high = addr.
Proof.
  intros Ha. pose proof (tss_low_bits addr) as Hb. unfold tss_descriptor in *. cbn [fst] in Hb. set (low := Z.lor _ _) in *.
  apply Z.bits_inj'. intros n Hn. unfold sys_base. change 16777215 with (Z.ones 24). change 255 with (Z.ones 8).
  rewrite !Z.lor_spec, !Z.shiftl_spec by lia. rewrite (Z.land_spec (Z.shiftr low 16)), Z.testbit_ones, Z.shiftr_spec, Hb by lia.
  destruct (Z.leb_spec 24 n).
  - rewrite (Z.land_spec (Z.shiftr low 56)), Z.testbit_ones, Z.shiftr_spec, Hb by lia. destruct (Z.leb_spec 32 n).
    + rewrite Z.land_spec, Z.testbit_ones, Z.shiftr_spec by lia. replace (n - 32 + 32) with n by lia.
      assert (64 ≤ n → Z.testbit addr n = false) as Hh by (intros; apply (testbit_high 64); lia).
      rewrite (proj2 (Z.ltb_ge n 24)), (proj2 (Z.ltb_ge (n - 24) 8)) by lia. rewrite !andb_false_r. cbn [orb].
      zcases; try lia; rewrite ?andb_false_r, ?andb_true_r; try done; symmetry; apply Hh; lia.
    + rewrite (Z.testbit_neg_r (Z.land _ _) (n - 32)) by lia. replace (n - 24 + 56 - 32) with n by lia.
      rewrite (proj2 (Z.ltb_ge n 24)), (proj2 (Z.ltb_ge (n - 24 + 56) 16)), (proj2 (Z.ltb_ge (n - 24 + 56) 40)), (proj2 (Z.ltb_ge (n - 24 + 56) 48)), (proj2 (Z.ltb_ge (n - 24 + 56) 56)) by lia.
      rewrite andb_false_r. zcases; try lia; rewrite ?andb_false_r, ?andb_true_r, ?orb_false_r; done.
  - rewrite (Z.testbit_neg_r (Z.land _ _) (n - 24)), (Z.testbit_neg_r (Z.land _ _) (n - 32)) by lia.
    replace (n + 16 - 16) with n by lia. zcases; try lia; rewrite ?andb_false_r, ?andb_true_r, ?orb_false_r; done.
Qed.

(** The two halves of a [wrmsr] make up the value. *)
Lemma wrmsr_value msr v : 0 ≤ v < 2 ^ 64 → wrmsr msr v = (msr, v).
Proof.
  intros Hv. unfold wrmsr. f_equal. apply Z.bits_inj'. intros n Hn. unfold u32. rewrite Z.lor_spec, Z.shiftl_spec, !Z.testbit_mod_pow2 by lia.
  destruct (Z.leb_spec 32 n); [rewrite Z.shiftr_spec by lia|rewrite (Z.testbit_neg_r (Z.shiftr v 32)) by lia].
  - replace (n - 32 + 32) with n by lia. assert (64 ≤ n → Z.testbit v n = false) as Hh by (intros; apply (testbit_high 64); lia).
    zcases; try lia; rewrite ?orb_false_r; cbn; try done; symmetry; apply Hh; lia.
  - rewrite andb_false_r. zcases; lia || done.
Qed.

(** A present segment of the given kind and privilege. *)
Definition code_segment (dpl e : Z) : bool := seg_present e && seg_is_code e && seg_long e && (seg_dpl e =? dpl).
Definition data_segment (dpl e : Z) : bool := seg_present e && seg_is_data e && (seg_dpl e =? dpl).

(** What SYSCALL jumps to, the flags it clears and whether it is enabled, after the writes [l]. *)
Definition msr_value (l : list (Z * Z)) (msr : Z) : option Z := snd <$> find (λ w, w.1 =? msr) (reverse l).

(** After the set-up the processor runs on the kernel's segments, interrupts from user mode find
    their stack in the task state segment, whose descriptor gives its address and size, and system calls
    enter at [syscall_entry] in the kernel's 64-bit code segment with interrupts masked.  The 64-bit SYSRET loads the selectors 0x23 and 0x1b, which
    are the user's 64-bit code segment and writable data segment, the same the frames of new processes return with. *)
Theorem gdt_init_spec (syscall_entry stack_top tss_addr efer : Z) (Hentry : 0 < syscall_entry < 2 ^ 64) (Htss : 0 ≤ tss_addr < 2 ^ 64)
  (Hefer : 0 ≤ efer < 2 ^ 64) :
  ∃ c, init syscall_entry stack_top tss_addr efer = Ret c ∧ length (gdt c) = 9%nat ∧ rsp0 (tss c) = stack_top ∧
    (∃ e, descriptor (gdt c) (code_seg c) = Some e ∧ code_segment 0 e = true) ∧
    (∃ e, descriptor (gdt c) (data_seg c) = Some e ∧ data_segment 0 e = true) ∧
    (∃ low high, descriptor (gdt c) (task_reg c) = Some low ∧ descriptor (gdt c) (task_reg c + 8) = Some high ∧
       sys_base low high = tss_addr ∧ sys_limit low = SIZEOF_TSS - 1 ∧ sys_access low = 137) ∧
    msr_value (msrs c) IA32_LSTAR = Some syscall_entry ∧
    (∃ m, msr_value (msrs c) IA32_FMASK = Some m ∧ Z.testbit m 9 = true) ∧
    (∃ v, msr_value (msrs c) IA32_EFER = Some v ∧ Z.testbit v 0 = true ∧ ∀ n, n ≠ 0 → Z.testbit v n = Z.testbit efer n) ∧
    ∃ s, msr_value (msrs c) IA32_STAR = Some s ∧ syscall_cs s = code_seg c ∧ syscall_ss s = data_seg c ∧
      sysret_cs s = USER_CS_RPL3 ∧ sysret_ss s = USER_DS_RPL3 ∧ USER_CS_RPL3 = 35 ∧ USER_DS_RPL3 = 27 ∧
      (∃ e, descriptor (gdt c) (sysret_cs s) = Some e ∧ code_segment 3 e = true) ∧
      (∃ e, descriptor (gdt c) (sysret_ss s) = Some e ∧ data_segment 3 e = true).
Proof.
  pose proof (tss_base_roundtrip tss_addr Htss) as Hbase. pose proof (λ k, tss_low_bits tss_addr k Htss) as Hbits.
  unfold init, install_tss. destruct (tss_descriptor tss_addr SIZEOF_TSS) as [low high]. cbn [fst] in Hbits.
  cbn [mbind outcome_bind store]. eexists. split; [reflexivity|].
  rewrite (proj2 (Z.eqb_neq syscall_entry 0)) by lia. cbn [gdt tss code_seg data_seg task_reg msrs negb].
  unfold setup_syscall_msrs. rewrite (wrmsr_value IA32_LSTAR) by lia.
  assert (0 ≤ Z.lor efer 1 < 2 ^ 64) as He.
  { split; [apply Z.lor_nonneg; lia|]. apply (bits_bound 64); [lia|apply Z.lor_nonneg; lia|]. intros n Hn.
    rewrite Z.lor_spec, (testbit_high 64 efer), (testbit_high 1 1) by lia. done. }
  rewrite (wrmsr_value IA32_EFER) by done.
  split; [done|]. split; [done|]. split; [by eexists|]. split; [by eexists|]. split.
  { exists low, high. split; [done|]. split; [done|]. split; [done|]. unfold sys_limit, sys_access.
    split; apply Z.bits_inj'; intros n Hn.
    - change 65535 with (Z.ones 16). change 15 with (Z.ones 4). change (SIZEOF_TSS - 1) with 101.
      rewrite Z.lor_spec, Z.shiftl_spec, Z.land_spec, Z.testbit_ones, Hbits by lia.
      assert (16 ≤ n → Z.testbit 101 n = false) as Hh by (intros; apply (testbit_high 7); [lia|done|lia]).
      destruct (Z.leb_spec 16 n).
      + rewrite Hh, Z.land_spec, Z.testbit_ones, Z.shiftr_spec, Hbits by lia. zcases; try lia; by rewrite ?andb_false_r.
      + rewrite (Z.testbit_neg_r (Z.land _ _) (n - 16)) by lia. zcases; try lia. by rewrite orb_false_r, andb_true_r.
    - change 255 with (Z.ones 8). rewrite Z.land_spec, Z.testbit_ones, Z.shiftr_spec, Hbits by lia.
      assert (8 ≤ n → Z.testbit 137 n = false) as Hh by (intros; apply (testbit_high 8); [lia|done|lia]).
      replace (n + 40 - 40) with n by lia. destruct (Z.ltb_spec n 8); zcases; try lia; rewrite ?andb_true_r, ?andb_false_r; done || (symmetry; apply Hh; lia). }
  split; [done|]. split; [by eexists|]. split.
  { exists (Z.lor efer 1). split; [reflexivity|]. split; [rewrite Z.lor_spec; by rewrite orb_true_r|]. intros n Hn. rewrite Z.lor_spec.
    destruct (Z.ltb_spec n 0); [by rewrite !Z.testbit_neg_r by lia|]. rewrite (testbit_high 1 1) by lia. by rewrite orb_false_r. }
  exists star. split; [done|]. do 4 (split; [done|]). split; [done|]. split; [done|]. split; by eexists.
Qed.

Lemma gdt_init_spec_witness : ∃ c, init 2101248 2162688 2109440 1280 = Ret c ∧ length (gdt c) = 9%nat ∧ rsp0 (tss c) = 2162688.
Proof.
  destruct (gdt_init_spec 2101248 2162688 2109440 1280) as (c & E & Hl & Hr & _); [lia|lia|lia|].
  exists c. split; [exact E|]. split; [exact Hl|exact Hr].
Defined.

(** The comments give the segment 104 bytes; the packed fields are 102, and the I/O map base sits two bytes
    before the offset where the processor looks for it. *)
Theorem tss_is_102_bytes : SIZEOF_TSS = 102 ∧ foldr Z.add 0 (take 13 tss_widths) = 100.
Proof. done. Qed.
