(* ===== verification/Framebuffer.v ===== *)
(** * The frame buffer (src/kernel_rust/src/fb.rs)

    Programming the adapter over its index and data ports and finding its memory over PCI, on
    devices given by an interface for wide port I/O, and the drawing primitives on video memory, a
    map from the address of a pixel to its 32-bit value. *)

From Stdlib Require Import ZArith Lia String Ascii.
From stdpp Require Import base numbers list list_numbers option gmap.
From S2P Require Import Prelude Pmm Memory Paging Serial Interrupts Console BootMem.

Local Open Scope Z_scope.

Record Framebuffer := mkFb { address : Z; pitch : Z; width : Z; height : Z; bpp : Z }.

Abbreviation vram := (gmap Z Z).

(** ** Initialisation *)

Definition VBE_REG_ID : Z := 0.
Definition VBE_REG_XRES : Z := 1.
Definition VBE_REG_YRES : Z := 2.
Definition VBE_REG_BPP : Z := 3.
Definition VBE_REG_ENABLE : Z := 4.
Definition VBE_ID5 : Z := 45253.

Definition VBE_INDEX : Z := 462.
Definition VBE_DATA : Z := 463.
Definition VBE_ENABLE_FLAG : Z := 1.
Definition VBE_LFB_FLAG : Z := 64.
Definition VBE_NOCLEARMEM_FLAG : Z := 128.
Definition PCI_ADDR_PORT : Z := 3320.
Definition PCI_DATA_PORT : Z := 3324.

(** 16-bit and 32-bit port I/O; reading may change a device. *)
Class WidePorts (D : Type) := {
  out16 : Z → Z → D → D;
  in16 : Z → D → Z * D;
  out32 : Z → Z → D → D;
  in32 : Z → D → Z * D
}.

(** Lower-case hexadecimal digits, as [write!] prints them. *)
Fixpoint lower_hex (x : Z) (fuel : nat) : list Z :=
  match fuel with
  | O => []
  | S fuel => (if x <? 16 then [] else lower_hex (x / 16) fuel) ++ [lower_digit (x mod 16)]
  end.

Section init.
Context {D : Type} `{WidePorts D}.

Definition vbe_write (reg val : Z) (d : D) : D := out16 VBE_DATA val (out16 VBE_INDEX reg d).
Definition vbe_read (reg : Z) (d : D) : Z * D := in16 VBE_DATA (out16 VBE_INDEX reg d).

Definition pci_config_read (bus dev func reg : Z) (d : D) : Z * D :=
  let addr := Z.lor (Z.lor (Z.lor (Z.lor 2147483648 (Z.shiftl bus 16)) (Z.shiftl dev 11)) (Z.shiftl func 8)) (Z.land reg 252) in
  in32 PCI_DATA_PORT (out32 PCI_ADDR_PORT addr d).

(** The identity register keeps a version the adapter supports. *)
Definition vbe_probe (d : D) : Z * D :=
  let '(orig_id, d) := vbe_read VBE_REG_ID d in
  let d := vbe_write VBE_REG_ID VBE_ID5 d in
  let '(probe, d) := vbe_read VBE_REG_ID d in
  (probe, vbe_write VBE_REG_ID orig_id d).

(** 1024 by 768 with 32 bits, and the line that reports what the adapter says about it. *)
Definition vbe_set_mode (s : serial) (d : D) : serial * D :=
  let d := vbe_write VBE_REG_ENABLE 0 d in
  let d := vbe_write VBE_REG_XRES 1024 d in
  let d := vbe_write VBE_REG_YRES 768 d in
  let d := vbe_write VBE_REG_BPP 32 d in
  let d := vbe_write VBE_REG_ENABLE (Z.lor (Z.lor VBE_ENABLE_FLAG VBE_LFB_FLAG) VBE_NOCLEARMEM_FLAG) d in
  let '(actual_x, d) := vbe_read VBE_REG_XRES d in
  let '(actual_y, d) := vbe_read VBE_REG_YRES d in
  let '(actual_b, d) := vbe_read VBE_REG_BPP d in
  let '(actual_e, d) := vbe_read VBE_REG_ENABLE d in
  (writestrs s [bytes "VIBIX: fb: VBE status — "; decimal actual_x 20; bytes "×"; decimal actual_y 20; bytes "×"; decimal actual_b 20;
                bytes " enable=0x"; lower_hex actual_e 16; [10]], d).

(** [None] when the adapter does not answer or has no linear frame buffer. *)
Definition init_vbe (a : PmmAllocator) (p : pg) (s : serial) (d : D) : outcome (option Framebuffer * pg * serial * D) :=
  let '(probe, d) := vbe_probe d in
  if probe <? VBE_ID5 then Ret (None, p, say s "VIBIX: fb: Bochs VBE not detected.", d)
  else
    let s := say s "VIBIX: fb: Bochs VBE detected — setting 1024×768×32." in
    let '(s, d) := vbe_set_mode s d in
    let '(bar0, d) := pci_config_read 0 2 0 16 d in
    let fb_addr := Z.land bar0 4294967280 in
    if fb_addr =? 0 then Ret (None, p, say s "VIBIX: fb: VGA BAR0 is 0 — no LFB.", d)
    else
      let fb := mkFb fb_addr (1024 * 4) 1024 768 32 in
      let digits := lower_hex fb_addr 16 in
      let s := writestrs s [bytes "VIBIX: Framebuffer: "; decimal (width fb) 20; bytes " × "; decimal (height fb) 20; bytes " @ "; decimal (bpp fb) 20;
                            bytes " bpp, addr "; replicate (8 - List.length digits) 48 ++ digits; [10]] in
      p ← map_range_2m a p fb_addr fb_addr (pitch fb * height fb) PAGE_KERNEL_HUGE;
      Ret (Some fb, p, s, d).

Definition fb_init (a : PmmAllocator) (p : pg) (s : serial) (d : D) : outcome (option Framebuffer * pg * serial * D) :=
  '(o, p, s, d) ← init_vbe a p s d;
  match o with
  | Some fb => Ret (Some fb, p, s, d)
  | None => Ret (None, p, say s "VIBIX: No framebuffer available.", d)
  end.
End init.

(** ** Drawing *)

Section draw.
Context (fb : Framebuffer).

Definition plot_pixel (v : vram) (x y colour : Z) : vram :=
  if (width fb <=? x) || (height fb <=? y) then v
  else <[address fb + (y * pitch fb + x * 4) := colour]> v.

(** [n] pixels of a row from [x] on. *)
Fixpoint fill_row (v : vram) (base x colour : Z) (n : nat) : vram :=
  match n with
  | O => v
  | S n => fill_row (<[base + x * 4 := colour]> v) base (x + 1) colour n
  end.

Fixpoint fill_rows (v : vram) (x1 x2 y colour : Z) (n : nat) : vram :=
  match n with
  | O => v
  | S n =>
      let base := address fb + y * pitch fb in
      fill_rows (fill_row v base x1 colour (Z.to_nat (x2 - x1 + 1))) x1 x2 (y + 1) colour n
  end.

Definition fill_rect (v : vram) (x1 y1 x2 y2 colour : Z) : vram :=
  let x1 := Z.min x1 (Z.max 0 (width fb - 1)) in
  let y1 := Z.min y1 (Z.max 0 (height fb - 1)) in
  let x2 := Z.max (Z.min x2 (Z.max 0 (width fb - 1))) x1 in
  let y2 := Z.max (Z.min y2 (Z.max 0 (height fb - 1))) y1 in
  fill_rows v x1 x2 y1 colour (Z.to_nat (y2 - y1 + 1)).

Definition clear (v : vram) (colour : Z) : vram := fill_rect v 0 0 (u32 (width fb - 1)) (u32 (height fb - 1)) colour.

(** ** Text *)

Definition FONT8X16 : list (list Z) :=
  [[0; 0; 0; 0; 0; 0; 0; 0; 0; 0; 0; 0; 0; 0; 0; 0];
   [0; 0; 24; 24; 24; 24; 24; 24; 24; 0; 24; 24; 0; 0; 0; 0];
   [0; 0; 102; 102; 102; 102; 0; 0; 0; 0; 0; 0; 0; 0; 0; 0];
   [0; 0; 0; 36; 36; 126; 36; 36; 126; 36; 36; 0; 0; 0; 0; 0];
   [0; 0; 8; 62; 73; 72; 62; 9; 9; 75; 62; 8; 0; 0; 0; 0];
   [0; 0; 0; 49; 74; 74; 52; 8; 8; 44; 82; 82; 76; 0; 0; 0];
   [0; 0; 0; 28; 34; 34; 20; 24; 41; 69; 66; 57; 0; 0; 0; 0];
   [0; 0; 24; 24; 24; 24; 0; 0; 0; 0; 0; 0; 0; 0; 0; 0];
   [0; 0; 4; 8; 8; 16; 16; 16; 16; 16; 8; 8; 4; 0; 0; 0];
   [0; 0; 32; 16; 16; 8; 8; 8; 8; 8; 16; 16; 32; 0; 0; 0];
   [0; 0; 0; 0; 8; 73; 42; 28; 42; 73; 8; 0; 0; 0; 0; 0];
   [0; 0; 0; 0; 8; 8; 8; 127; 8; 8; 8; 0; 0; 0; 0; 0];
   [0; 0; 0; 0; 0; 0; 0; 0; 0; 24; 24; 24; 8; 0; 0; 0];
   [0; 0; 0; 0; 0; 0; 0; 126; 0; 0; 0; 0; 0; 0; 0; 0];
   [0; 0; 0; 0; 0; 0; 0; 0; 0; 24; 24; 24; 0; 0; 0; 0];
   [0; 0; 0; 2; 4; 4; 8; 16; 32; 32; 64; 0; 0; 0; 0; 0];
   [0; 0; 60; 66; 70; 74; 82; 98; 66; 66; 60; 0; 0; 0; 0; 0];
   [0; 0; 8; 24; 40; 8; 8; 8; 8; 8; 62; 0; 0; 0; 0; 0];
   [0; 0; 60; 66; 66; 2; 4; 8; 16; 32; 126; 0; 0; 0; 0; 0];
   [0; 0; 60; 66; 66; 2; 28; 2; 66; 66; 60; 0; 0; 0; 0; 0];
   [0; 0; 4; 12; 20; 36; 68; 126; 4; 4; 4; 0; 0; 0; 0; 0];
   [0; 0; 126; 64; 64; 92; 98; 2; 2; 66; 60; 0; 0; 0; 0; 0];
   [0; 0; 28; 32; 64; 92; 98; 66; 66; 66; 60; 0; 0; 0; 0; 0];
   [0; 0; 126; 2; 4; 8; 8; 16; 16; 16; 16; 0; 0; 0; 0; 0];
   [0; 0; 60; 66; 66; 66; 60; 66; 66; 66; 60; 0; 0; 0; 0; 0];
   [0; 0; 60; 66; 66; 66; 62; 2; 2; 4; 56; 0; 0; 0; 0; 0];
   [0; 0; 0; 0; 24; 24; 0; 0; 0; 24; 24; 0; 0; 0; 0; 0];
   [0; 0; 0; 0; 24; 24; 0; 0; 0; 24; 24; 8; 0; 0; 0; 0];
   [0; 0; 2; 4; 8; 16; 32; 16; 8; 4; 2; 0; 0; 0; 0; 0];
   [0; 0; 0; 0; 0; 126; 0; 0; 126; 0; 0; 0; 0; 0; 0; 0];
   [0; 0; 64; 32; 16; 8; 4; 8; 16; 32; 64; 0; 0; 0; 0; 0];
   [0; 0; 60; 66; 66; 2; 4; 8; 8; 0; 8; 8; 0; 0; 0; 0];
   [0; 0; 60; 66; 66; 78; 82; 78; 64; 66; 60; 0; 0; 0; 0; 0];
   [0; 0; 24; 36; 66; 66; 126; 66; 66; 66; 66; 0; 0; 0; 0; 0];
   [0; 0; 124; 66; 66; 66; 124; 66; 66; 66; 124; 0; 0; 0; 0; 0];
   [0; 0; 60; 66; 64; 64; 64; 64; 64; 66; 60; 0; 0; 0; 0; 0];
   [0; 0; 120; 68; 66; 66; 66; 66; 66; 68; 120; 0; 0; 0; 0; 0];
   [0; 0; 126; 64; 64; 64; 120; 64; 64; 64; 126; 0; 0; 0; 0; 0];
   [0; 0; 126; 64; 64; 64; 120; 64; 64; 64; 64; 0; 0; 0; 0; 0];
   [0; 0; 60; 66; 64; 64; 78; 66; 66; 70; 58; 0; 0; 0; 0; 0];
   [0; 0; 66; 66; 66; 66; 126; 66; 66; 66; 66; 0; 0; 0; 0; 0];
   [0; 0; 62; 8; 8; 8; 8; 8; 8; 8; 62; 0; 0; 0; 0; 0];
   [0; 0; 31; 4; 4; 4; 4; 4; 68; 68; 56; 0; 0; 0; 0; 0];
   [0; 0; 66; 68; 72; 80; 96; 80; 72; 68; 66; 0; 0; 0; 0; 0];
   [0; 0; 64; 64; 64; 64; 64; 64; 64; 64; 126; 0; 0; 0; 0; 0];
   [0; 0; 66; 102; 90; 90; 66; 66; 66; 66; 66; 0; 0; 0; 0; 0];
   [0; 0; 66; 98; 82; 74; 70; 66; 66; 66; 66; 0; 0; 0; 0; 0];
   [0; 0; 60; 66; 66; 66; 66; 66; 66; 66; 60; 0; 0; 0; 0; 0];
   [0; 0; 124; 66; 66; 66; 124; 64; 64; 64; 64; 0; 0; 0; 0; 0];
   [0; 0; 60; 66; 66; 66; 66; 74; 68; 66; 61; 0; 0; 0; 0; 0];
   [0; 0; 124; 66; 66; 66; 124; 72; 68; 66; 66; 0; 0; 0; 0; 0];
   [0; 0; 60; 66; 64; 48; 12; 2; 66; 66; 60; 0; 0; 0; 0; 0];
   [0; 0; 127; 8; 8; 8; 8; 8; 8; 8; 8; 0; 0; 0; 0; 0];
   [0; 0; 66; 66; 66; 66; 66; 66; 66; 66; 60; 0; 0; 0; 0; 0];
   [0; 0; 66; 66; 66; 66; 66; 66; 36; 24; 0; 0; 0; 0; 0; 0];
   [0; 0; 66; 66; 66; 66; 66; 90; 90; 102; 66; 0; 0; 0; 0; 0];
   [0; 0; 66; 66; 36; 24; 24; 36; 66; 66; 66; 0; 0; 0; 0; 0];
   [0; 0; 65; 34; 20; 8; 8; 8; 8; 8; 8; 0; 0; 0; 0; 0];
   [0; 0; 126; 2; 4; 8; 16; 32; 64; 64; 126; 0; 0; 0; 0; 0];
   [0; 0; 30; 16; 16; 16; 16; 16; 16; 16; 30; 0; 0; 0; 0; 0];
   [0; 0; 0; 64; 32; 32; 16; 8; 4; 4; 2; 0; 0; 0; 0; 0];
   [0; 0; 120; 8; 8; 8; 8; 8; 8; 8; 120; 0; 0; 0; 0; 0];
   [0; 0; 8; 20; 34; 0; 0; 0; 0; 0; 0; 0; 0; 0; 0; 0];
   [0; 0; 0; 0; 0; 0; 0; 0; 0; 0; 0; 127; 0; 0; 0; 0];
   [0; 0; 48; 24; 12; 0; 0; 0; 0; 0; 0; 0; 0; 0; 0; 0];
   [0; 0; 0; 0; 60; 2; 62; 66; 70; 58; 0; 0; 0; 0; 0; 0];
   [0; 0; 64; 64; 92; 98; 66; 66; 66; 98; 92; 0; 0; 0; 0; 0];
   [0; 0; 0; 0; 60; 66; 64; 64; 66; 60; 0; 0; 0; 0; 0; 0];
   [0; 0; 2; 2; 58; 70; 66; 66; 66; 70; 58; 0; 0; 0; 0; 0];
   [0; 0; 0; 0; 60; 66; 126; 64; 66; 60; 0; 0; 0; 0; 0; 0];
   [0; 0; 12; 18; 16; 16; 124; 16; 16; 16; 16; 0; 0; 0; 0; 0];
   [0; 0; 0; 58; 70; 66; 66; 70; 58; 2; 66; 60; 0; 0; 0; 0];
   [0; 0; 64; 64; 92; 98; 66; 66; 66; 66; 66; 0; 0; 0; 0; 0];
   [0; 0; 8; 0; 24; 8; 8; 8; 8; 8; 62; 0; 0; 0; 0; 0];
   [0; 0; 4; 0; 12; 4; 4; 4; 4; 4; 68; 68; 56; 0; 0; 0];
   [0; 0; 64; 64; 66; 68; 72; 112; 72; 68; 66; 0; 0; 0; 0; 0];
   [0; 0; 24; 8; 8; 8; 8; 8; 8; 8; 62; 0; 0; 0; 0; 0];
   [0; 0; 0; 0; 118; 73; 73; 73; 73; 73; 0; 0; 0; 0; 0; 0];
   [0; 0; 0; 0; 92; 98; 66; 66; 66; 66; 0; 0; 0; 0; 0; 0];
   [0; 0; 0; 0; 60; 66; 66; 66; 66; 60; 0; 0; 0; 0; 0; 0];
   [0; 0; 0; 0; 92; 98; 66; 66; 98; 92; 64; 64; 64; 0; 0; 0];
   [0; 0; 0; 0; 58; 70; 66; 66; 70; 58; 2; 2; 2; 0; 0; 0];
   [0; 0; 0; 0; 92; 98; 64; 64; 64; 64; 0; 0; 0; 0; 0; 0];
   [0; 0; 0; 0; 62; 64; 60; 2; 66; 60; 0; 0; 0; 0; 0; 0];
   [0; 0; 16; 16; 124; 16; 16; 16; 16; 18; 12; 0; 0; 0; 0; 0];
   [0; 0; 0; 0; 66; 66; 66; 66; 70; 58; 0; 0; 0; 0; 0; 0];
   [0; 0; 0; 0; 66; 66; 66; 66; 36; 24; 0; 0; 0; 0; 0; 0];
   [0; 0; 0; 0; 66; 66; 66; 73; 73; 54; 0; 0; 0; 0; 0; 0];
   [0; 0; 0; 0; 66; 36; 24; 24; 36; 66; 0; 0; 0; 0; 0; 0];
   [0; 0; 0; 0; 66; 66; 66; 70; 58; 2; 66; 60; 0; 0; 0; 0];
   [0; 0; 0; 0; 126; 4; 8; 16; 32; 126; 0; 0; 0; 0; 0; 0];
   [0; 0; 6; 8; 8; 8; 48; 8; 8; 8; 6; 0; 0; 0; 0; 0];
   [0; 0; 8; 8; 8; 8; 8; 8; 8; 8; 8; 0; 0; 0; 0; 0];
   [0; 0; 96; 16; 16; 16; 12; 16; 16; 16; 96; 0; 0; 0; 0; 0];
   [0; 0; 0; 0; 0; 0; 48; 73; 6; 0; 0; 0; 0; 0; 0; 0]].

(** The columns [col ..] of one row of a glyph. *)
Fixpoint draw_cols (v : vram) (x py row_bits colour : Z) (bg : option Z) (col : Z) (n : nat) : vram :=
  match n with
  | O => v
  | S n =>
      let px := u32 (x + col) in
      let v :=
        if (width fb <=? px) || (height fb <=? py) then v
        else if negb (Z.land row_bits (Z.shiftr 128 col) =? 0) then plot_pixel v px py colour
        else match bg with Some bg_c => plot_pixel v px py bg_c | None => v end in
      draw_cols v x py row_bits colour bg (col + 1) n
  end.

Fixpoint draw_rows (v : vram) (x y colour : Z) (bg : option Z) (glyph : list Z) (row : Z) (n : nat) : outcome vram :=
  match n with
  | O => Ret v
  | S n =>
      row_bits ← index glyph row;
      draw_rows (draw_cols v x (u32 (y + row)) row_bits colour bg 0 8) x y colour bg glyph (row + 1) n
  end.

(** [c] is the code of the character. *)
Definition draw_char (v : vram) (x y c colour : Z) (bg : option Z) : outcome vram :=
  let idx := u64 (c - 32) in
  if Z.of_nat (length FONT8X16) <=? idx then Ret v
  else
    glyph ← index FONT8X16 idx;
    draw_rows v x y colour bg glyph 0 16.

Fixpoint draw_string (v : vram) (x y : Z) (s : list Z) (colour : Z) (bg : option Z) : outcome vram :=
  match s with
  | [] => Ret v
  | c :: s =>
      v ← draw_char v x y c colour bg;
      let cx := u32 (x + 9) in
      if width fb <=? u32 (cx + 8) then Ret v else draw_string v cx y s colour bg
  end.
End draw.

(** ** Specification *)

Record fb_wf (fb : Framebuffer) : Prop := {
  wf_width : 0 < width fb < 2 ^ 32;
  wf_height : 0 < height fb < 2 ^ 32;
  wf_pitch : width fb * 4 ≤ pitch fb
}.

(** The address of a pixel; the pixels of the screen. *)
Definition pixel_addr (fb : Framebuffer) (x y : Z) : Z := address fb + (y * pitch fb + x * 4).
Definition on_screen (fb : Framebuffer) (x y : Z) : Prop := 0 ≤ x < width fb ∧ 0 ≤ y < height fb.

(** A picture [v'] of which the pixels of the screen are given by [f] and everything else is as in [v]. *)
Definition paints (fb : Framebuffer) (v v' : vram) (f : Z → Z → option Z) : Prop :=
  (∀ x y, on_screen fb x y → v' !! pixel_addr fb x y = f x y) ∧
  ∀ a, (∀ x y, on_screen fb x y → a ≠ pixel_addr fb x y) → v' !! a = v !! a.

Section spec.
Context (fb : Framebuffer) (Hwf : fb_wf fb).

Lemma pixel_addr_inj x y x' y' : on_screen fb x y → on_screen fb x' y' → pixel_addr fb x y = pixel_addr fb x' y' → x = x' ∧ y = y'.
Proof using Hwf.
  intros [Hx Hy] [Hx' Hy'] E. destruct Hwf as [Hw _ Hp]. unfold pixel_addr in E.
  assert (y = y') as ->; [|lia]. nia.
Qed.

Lemma paints_refl v : paints fb v v (λ x y, v !! pixel_addr fb x y).
Proof. by split. Qed.

Lemma paints_ext v v' f g : (∀ x y, on_screen fb x y → f x y = g x y) → paints fb v v' f → paints fb v v' g.
Proof. intros He [H1 H2]. split; [|done]. intros x y Hs. by rewrite H1, He. Qed.

(** One pixel more. *)
Lemma paints_store v v' f px py c : on_screen fb px py → paints fb v v' f →
  paints fb v (<[pixel_addr fb px py := c]> v') (λ x y, if (x =? px) && (y =? py) then Some c else f x y).
Proof using Hwf.
  intros Hs [H1 H2]. split.
  - intros x y Hxy. destruct (decide (pixel_addr fb px py = pixel_addr fb x y)) as [E|E].
    + destruct (pixel_addr_inj _ _ _ _ Hs Hxy E) as [<- <-]. by rewrite lookup_insert_eq, !Z.eqb_refl.
    + rewrite lookup_insert_ne, H1 by done. destruct (Z.eqb_spec x px), (Z.eqb_spec y py); subst; done.
  - intros a Ha. rewrite lookup_insert_ne by (intros <-; by apply (Ha px py)). by apply H2.
Qed.

Lemma plot_pixel_spec v v' f px py c : 0 ≤ px → 0 ≤ py → paints fb v v' f →
  paints fb v (plot_pixel fb v' px py c) (λ x y, if (x =? px) && (y =? py) then Some c else f x y).
Proof using Hwf.
  intros Hx Hy P. unfold plot_pixel. destruct (Z.leb_spec (width fb) px) as [Hw|Hw]; cbn [orb].
  - eapply paints_ext; [|done]. intros x y [Hs _]. destruct (Z.eqb_spec x px); [lia|done].
  - destruct (Z.leb_spec (height fb) py) as [Hh|Hh].
    + eapply paints_ext; [|done]. intros x y [_ Hs]. destruct (Z.eqb_spec y py); [lia|by rewrite andb_false_r].
    + by apply paints_store.
Qed.

Lemma fill_row_spec y c n : ∀ v v' f x1, 0 ≤ x1 → x1 + Z.of_nat n ≤ width fb → 0 ≤ y < height fb → paints fb v v' f →
  paints fb v (fill_row v' (address fb + y * pitch fb) x1 c n)
    (λ x y', if (y' =? y) && (x1 <=? x) && (x <? x1 + Z.of_nat n) then Some c else f x y').
Proof using Hwf.
  induction n as [|n IH]; intros v v' f x1 Hx Hn Hy P; cbn [fill_row].
  - eapply paints_ext; [|done]. intros x y' _. zcases; lia || done.
  - replace (address fb + y * pitch fb + x1 * 4) with (pixel_addr fb x1 y) by (unfold pixel_addr; lia).
    pose proof (IH v _ _ (x1 + 1) ltac:(lia) ltac:(lia) Hy (paints_store v v' f x1 y c ltac:(split; lia) P)) as P'.
    eapply paints_ext; [|exact P']. intros x y' _. cbn beta.
    destruct (Z.eqb_spec y' y); destruct (Z.eqb_spec x x1); zcases; lia || done.
Qed.

Lemma fill_rows_spec x1 x2 c n : ∀ v v' f y, 0 ≤ x1 ≤ x2 → x2 < width fb → 0 ≤ y → y + Z.of_nat n ≤ height fb → paints fb v v' f →
  paints fb v (fill_rows fb v' x1 x2 y c n)
    (λ x y', if (y <=? y') && (y' <? y + Z.of_nat n) && (x1 <=? x) && (x <=? x2) then Some c else f x y').
Proof using Hwf.
  induction n as [|n IH]; intros v v' f y Hx Hx2 Hy Hn P; cbn [fill_rows].
  - eapply paints_ext; [|done]. intros x y' _. zcases; lia || done.
  - pose proof (fill_row_spec y c (Z.to_nat (x2 - x1 + 1)) v v' f x1 ltac:(lia) ltac:(lia) ltac:(lia) P) as P'.
    pose proof (IH v _ _ (y + 1) Hx Hx2 ltac:(lia) ltac:(lia) P') as P''. eapply paints_ext; [|exact P'']. intros x y' _. cbn beta.
    rewrite Z2Nat.id by lia. destruct (Z.eqb_spec y' y); zcases; lia || done.
Qed.

(** A coordinate moved into the screen. *)
Definition clip (z lim : Z) : Z := Z.min z (lim - 1).

Lemma fill_rect_ok v x1 y1 x2 y2 colour : 0 ≤ x1 → 0 ≤ y1 → 0 ≤ x2 → 0 ≤ y2 →
  paints fb v (fill_rect fb v x1 y1 x2 y2 colour) (λ x y,
    if (clip x1 (width fb) <=? x) && (x <=? Z.max (clip x1 (width fb)) (clip x2 (width fb))) &&
       (clip y1 (height fb) <=? y) && (y <=? Z.max (clip y1 (height fb)) (clip y2 (height fb)))
    then Some colour else v !! pixel_addr fb x y).
Proof using Hwf.
  intros Ha Hb Hc Hd. destruct Hwf as [Hw Hh _]. unfold fill_rect. rewrite !(Z.max_r 0) by lia.
  eapply paints_ext; [|apply fill_rows_spec; [lia|lia|lia|lia|apply paints_refl]]. intros x y _. cbn beta. unfold clip.
  rewrite Z2Nat.id by lia. zcases; lia || done.
Qed.

(** Filling a rectangle, whatever its corners, stays within the screen: exactly the pixels between the
    corners, each moved to the nearest column and row of the screen, get the colour; no other pixel and no byte outside the
    screen changes.  Clearing colours every pixel. *)
Theorem fill_rect_spec (v : vram) (x1 y1 x2 y2 colour : Z) (Hx1 : 0 ≤ x1) (Hy1 : 0 ≤ y1) (Hx2 : 0 ≤ x2) (Hy2 : 0 ≤ y2) :
  paints fb v (fill_rect fb v x1 y1 x2 y2 colour) (λ x y,
    if (clip x1 (width fb) <=? x) && (x <=? Z.max (clip x1 (width fb)) (clip x2 (width fb))) &&
       (clip y1 (height fb) <=? y) && (y <=? Z.max (clip y1 (height fb)) (clip y2 (height fb)))
    then Some colour else v !! pixel_addr fb x y) ∧
  paints fb v (clear fb v colour) (λ _ _, Some colour).
Proof using Hwf.
  pose proof Hwf as [Hw Hh _]. split; [by apply fill_rect_ok|].
  eapply paints_ext; [|apply fill_rect_ok; try lia; unfold u32; apply Z.mod_pos_bound; lia].
  intros x y [Hx Hy]. cbn beta. unfold clip, u32. rewrite !Z.mod_small by lia. zcases; lia || done.
Qed.


(** ** Characters *)

(** What a set or clear bit of a glyph makes of a pixel. *)
Definition ink (ink_bit : bool) (colour : Z) (bg old : option Z) : option Z :=
  if ink_bit then Some colour else match bg with Some b => Some b | None => old end.

Lemma col_bit col row : 0 ≤ col < 8 → negb (Z.land row (Z.shiftr 128 col) =? 0) = Z.testbit row (7 - col).
Proof.
  intros Hc. replace (Z.shiftr 128 col) with (bit (7 - col)).
  - rewrite land_bit_eqb by lia. apply negb_involutive.
  - unfold bit. rewrite Z.shiftr_div_pow2, Z.shiftl_1_l by lia. change 128 with (2 ^ 7).
    rewrite <- Z.pow_sub_r by lia. done.
Qed.

Lemma draw_cols_spec x py row c bg n : ∀ v v' f col, 0 ≤ col → col + Z.of_nat n ≤ 8 → 0 ≤ x → x + 8 ≤ 2 ^ 32 → 0 ≤ py → paints fb v v' f →
  paints fb v (draw_cols fb v' x py row c bg col n) (λ x' y',
    if (y' =? py) && (x + col <=? x') && (x' <? x + col + Z.of_nat n) then ink (Z.testbit row (7 - (x' - x))) c bg (f x' y') else f x' y').
Proof using Hwf.
  induction n as [|n IH]; intros v v' f col Hc Hn Hx Hx8 Hpy P; cbn [draw_cols].
  { eapply paints_ext; [|done]. intros x' y' _. zcases; lia || done. }
  unfold u32. rewrite Z.mod_small, col_bit by lia.
  set (v1 := if _ || _ then v' else _).
  assert (paints fb v v1 (λ x' y', if (x' =? x + col) && (y' =? py) then ink (Z.testbit row (7 - col)) c bg (f x' y') else f x' y')) as P1.
  { subst v1. destruct (Z.leb_spec (width fb) (x + col)) as [Hw|Hw]; cbn [orb].
    { eapply paints_ext; [|done]. intros x' y' [Hs _]. destruct (Z.eqb_spec x' (x + col)); [lia|done]. }
    destruct (Z.leb_spec (height fb) py) as [Hh|Hh].
    { eapply paints_ext; [|done]. intros x' y' [_ Hs]. destruct (Z.eqb_spec y' py); [lia|by rewrite andb_false_r]. }
    unfold ink. destruct (Z.testbit row (7 - col)); [by apply plot_pixel_spec; [lia|..]|].
    destruct bg; [by apply plot_pixel_spec; [lia|..]|]. eapply paints_ext; [|done]. intros x' y' _. by destruct (_ && _). }
  pose proof (IH v v1 _ (col + 1) ltac:(lia) ltac:(lia) Hx Hx8 Hpy P1) as P2. eapply paints_ext; [|exact P2]. intros x' y' _. cbn beta.
  destruct (Z.eqb_spec x' (x + col)) as [->|]; [replace (x + col - x) with col by lia|]; destruct (Z.eqb_spec y' py); zcases; lia || done.
Qed.

Lemma draw_rows_spec x y c bg glyph n : ∀ v v' f row, 0 ≤ row → row + Z.of_nat n ≤ 16 → length glyph = 16%nat →
  0 ≤ x → x + 8 ≤ 2 ^ 32 → 0 ≤ y → y + 16 ≤ 2 ^ 32 → paints fb v v' f →
  ∃ v2, draw_rows fb v' x y c bg glyph row n = Ret v2 ∧ paints fb v v2 (λ x' y',
    if (y + row <=? y') && (y' <? y + row + Z.of_nat n) && (x <=? x') && (x' <? x + 8)
    then ink (Z.testbit (glyph !!! Z.to_nat (y' - y)) (7 - (x' - x))) c bg (f x' y') else f x' y').
Proof using Hwf.
  induction n as [|n IH]; intros v v' f row Hr Hn Hl Hx Hx8 Hy Hy16 P; cbn [draw_rows].
  { exists v'. split; [done|]. eapply paints_ext; [|done]. intros x' y' _. zcases; lia || done. }
  destruct (index_in_range glyph row) as (bits & Ei & ->); [lia|]. cbn [mbind outcome_bind].
  unfold u32 at 1. rewrite Z.mod_small by lia.
  pose proof (draw_cols_spec x (y + row) bits c bg 8 v v' f 0 ltac:(lia) ltac:(lia) Hx Hx8 ltac:(lia) P) as P1.
  destruct (IH v _ _ (row + 1) ltac:(lia) ltac:(lia) Hl Hx Hx8 Hy Hy16 P1) as (v2 & -> & P2). exists v2. split; [done|].
  eapply paints_ext; [|exact P2]. intros x' y' _. cbn beta. rewrite Z.add_0_r.
  destruct (Z.eqb_spec y' (y + row)) as [->|].
  - replace (y + row - y) with row by lia. rewrite (list_lookup_total_correct _ _ _ Ei). zcases; lia || done.
  - zcases; lia || done.
Qed.

Lemma glyphs_16 : Forall (λ g, length g = 16%nat) FONT8X16.
Proof. repeat (apply List.Forall_cons; [reflexivity|]). apply List.Forall_nil. Qed.

(** Drawing a character at (x, y) never fails; it changes only pixels of the screen within the cell of 8 by 16 pixels
    there: where the character's glyph has a bit the pixel gets the colour, elsewhere in the cell the background if one
    is given.  A character outside the font draws nothing. *)
Theorem draw_char_spec (v : vram) (x y c colour : Z) (bg : option Z)
  (Hx : 0 ≤ x ∧ x + 8 ≤ 2 ^ 32) (Hy : 0 ≤ y ∧ y + 16 ≤ 2 ^ 32) (Hc : 0 ≤ c < 2 ^ 32) :
  ∃ v', draw_char fb v x y c colour bg = Ret v' ∧
    match FONT8X16 !! Z.to_nat (c - 32) with
    | Some glyph => if 32 <=? c then paints fb v v' (λ x' y',
          if (y <=? y') && (y' <? y + 16) && (x <=? x') && (x' <? x + 8)
          then ink (Z.testbit (glyph !!! Z.to_nat (y' - y)) (7 - (x' - x))) colour bg (v !! pixel_addr fb x' y')
          else v !! pixel_addr fb x' y') else v' = v
    | None => v' = v
    end.
Proof using Hwf.
  unfold draw_char. assert (Z.of_nat (length FONT8X16) = 95) as Hl by reflexivity. rewrite Hl.
  destruct (Z.leb_spec 32 c) as [H32|H32].
  - rewrite u64_small by lia. destruct (Z.leb_spec 95 (c - 32)) as [Hb|Hb].
    + exists v. split; [done|]. rewrite (lookup_ge_None_2 FONT8X16) by lia. done.
    + destruct (index_in_range FONT8X16 (c - 32)) as (glyph & Eg & ->); [lia|]. cbn [mbind outcome_bind]. rewrite Eg.
      assert (length glyph = 16%nat) as Hg by (pose proof glyphs_16 as Hf; rewrite Forall_lookup in Hf; by eapply Hf).
      destruct (draw_rows_spec x y colour bg glyph 16 v v _ 0 ltac:(lia) ltac:(lia) Hg (proj1 Hx) (proj2 Hx) (proj1 Hy) (proj2 Hy) (paints_refl v)) as (v2 & -> & P).
      exists v2. split; [done|]. rewrite Z.add_0_r in P. exact P.
  - assert (95 ≤ u64 (c - 32)) as Hb.
    { unfold u64. replace ((c - 32) mod 2 ^ 64) with (c - 32 + 2 ^ 64); [lia|]. apply (Z.mod_unique _ _ (-1)); lia. }
    rewrite (proj2 (Z.leb_le _ _) Hb). exists v. split; [done|]. by destruct (FONT8X16 !! _).
Qed.
End spec.

(** ** Drawing always succeeds *)

Section total.
Context (fb : Framebuffer).

Lemma draw_rows_total x y c bg glyph n : ∀ v row, 0 ≤ row → row + Z.of_nat n ≤ Z.of_nat (length glyph) →
  ∃ v', draw_rows fb v x y c bg glyph row n = Ret v'.
Proof.
  induction n as [|n IH]; intros v row Hr Hn; cbn [draw_rows]; [by eexists|].
  destruct (index_in_range glyph row) as (bits & _ & ->); [lia|]. cbn [mbind outcome_bind]. apply IH; lia.
Qed.

Lemma draw_char_total v x y c colour bg : ∃ v', draw_char fb v x y c colour bg = Ret v'.
Proof.
  unfold draw_char. destruct (Z.leb_spec (Z.of_nat (length FONT8X16)) (u64 (c - 32))) as [_|Hl]; [by eexists|].
  pose proof (u64_range (c - 32)). destruct (index_in_range FONT8X16 (u64 (c - 32))) as (glyph & Eg & ->); [lia|]. cbn [mbind outcome_bind].
  apply draw_rows_total; [lia|]. pose proof glyphs_16 as Hf. rewrite Forall_lookup in Hf. rewrite (Hf _ _ Eg). lia.
Qed.

Lemma draw_string_total s : ∀ v x y colour bg, ∃ v', draw_string fb v x y s colour bg = Ret v'.
Proof.
  induction s as [|c s IH]; intros v x y colour bg; cbn [draw_string]; [by eexists|].
  destruct (draw_char_total v x y c colour bg) as [v1 ->]. cbn [mbind outcome_bind]. cbv zeta. destruct (_ <=? _); [by eexists|apply IH].
Qed.
End total.

(** A small screen. *)
Definition demo_fb : Framebuffer := mkFb 4026531840 4096 1024 768 32.
Lemma demo_fb_wf : fb_wf demo_fb.
Proof. by split; cbn. Qed.

Lemma fill_rect_spec_witness : paints demo_fb ∅ (clear demo_fb ∅ 4122) (λ _ _, Some 4122).
Proof. destruct (fill_rect_spec demo_fb demo_fb_wf ∅ 0 0 0 0 4122) as [_ Hc]; [lia|lia|lia|lia|]. exact Hc. Defined.

Lemma draw_char_spec_witness : ∃ v', draw_char demo_fb ∅ 24 20 86 65450 None = Ret v' ∧ v' !! pixel_addr demo_fb 25 22 = Some 65450.
Proof.
  destruct (draw_char_spec demo_fb demo_fb_wf ∅ 24 20 86 65450 None) as (v' & E & Hp); [lia|lia|lia|]. exists v'. split; [exact E|].
  assert (FONT8X16 !! Z.to_nat (86 - 32) = Some [0; 0; 66; 66; 66; 66; 66; 66; 36; 24; 0; 0; 0; 0; 0; 0]) as Eg by reflexivity.
  rewrite Eg in Hp. change (32 <=? 86) with true in Hp. cbv iota in Hp. rewrite (proj1 Hp) by (split; cbn; lia). reflexivity.
Defined.

(** A rectangle that lies wholly to the right of the screen is drawn on its last column. *)
Theorem fill_rect_outside_draws (v : vram) (c : Z) : fill_rect demo_fb v 2000 5 2001 5 c !! pixel_addr demo_fb 1023 5 = Some c.
Proof.
  destruct (fill_rect_ok demo_fb demo_fb_wf v 2000 5 2001 5 c) as [Hp _]; [lia|lia|lia|lia|].
  by rewrite Hp by (split; cbn; lia).
Qed.
