(* ===== verification/Devices.v ===== *)
(** * Programming the devices (src/kernel_rust/src/serial.rs, keyboard.rs)

    The initialisation of the serial port and of the keyboard controller.  The devices are a
    parameter: reading a port may change a device, so port I/O is a small state monad over
    the devices, and the laws of the two chips are stated on what the data sheets call their
    registers. *)

From Stdlib Require Import ZArith Lia.
From stdpp Require Import base numbers list list_numbers option gmap.
From S2P Require Import Prelude Keyboard.

Local Open Scope Z_scope.

(** ** Port I/O *)

Class PortIO (D : Type) := {
  out8 : Z → Z → D → D;
  in8 : Z → D → Z * D
}.

Definition io (D A : Type) : Type := D → A * D.
#[global] Instance io_ret D : MRet (io D) := λ A x d, (x, d).
#[global] Instance io_bind D : MBind (io D) := λ A B f m d, let '(x, d) := m d in f x d.

Definition outb `{PortIO D} (port val : Z) : io D () := λ d, ((), out8 port val d).
Definition inb `{PortIO D} (port : Z) : io D Z := in8 port.

(** ** The serial port *)

Definition SERIAL_COM1_BASE : Z := 1016.
Definition SERIAL_DATA : Z := 0.
Definition SERIAL_INTR : Z := 1.
Definition SERIAL_FIFO : Z := 2.
Definition SERIAL_LCR : Z := 3.
Definition SERIAL_MCR : Z := 4.

(** [SerialPort::init]; the flag is [SERIAL_INITIALIZED]. *)
Definition serial_init `{PortIO D} (initialized : bool) : io D bool :=
  if initialized then mret true
  else
    _ ← outb (SERIAL_COM1_BASE + SERIAL_INTR) 0;
    _ ← outb (SERIAL_COM1_BASE + SERIAL_LCR) 128;
    _ ← outb (SERIAL_COM1_BASE + SERIAL_DATA) 1;
    _ ← outb (SERIAL_COM1_BASE + SERIAL_INTR) 0;
    _ ← outb (SERIAL_COM1_BASE + SERIAL_LCR) 3;
    _ ← outb (SERIAL_COM1_BASE + SERIAL_FIFO) 199;
    _ ← outb (SERIAL_COM1_BASE + SERIAL_MCR) 11;
    mret true.

(** ** The keyboard controller *)

Definition DATA_PORT : Z := 96.
Definition STATUS_PORT : Z := 100.
Definition STATUS_INPUT_FULL : Z := 2.
Definition WAIT_TIMEOUT : nat := Z.to_nat 100000.

Section kbc.
Context `{PortIO D}.

(** [for _ in 0..n] with the return when the input buffer is empty. *)
Fixpoint wait_write (n : nat) : io D () :=
  match n with
  | O => mret ()
  | S n => st ← inb STATUS_PORT; if Z.land st STATUS_INPUT_FULL =? 0 then mret () else wait_write n
  end.

Fixpoint wait_read (n : nat) : io D () :=
  match n with
  | O => mret ()
  | S n => st ← inb STATUS_PORT; if negb (Z.land st Keyboard.STATUS_OUTPUT_FULL =? 0) then mret () else wait_read n
  end.

(** Drain the output buffer. *)
Fixpoint flush (n : nat) : io D () :=
  match n with
  | O => mret ()
  | S n =>
      st ← inb STATUS_PORT;
      if Z.land st Keyboard.STATUS_OUTPUT_FULL =? 0 then mret () else _ ← inb DATA_PORT; flush n
  end.

Definition command (port val : Z) : io D () := _ ← wait_write WAIT_TIMEOUT; outb port val.
Definition answer : io D Z := _ ← wait_read WAIT_TIMEOUT; inb DATA_PORT.

(** The answer to the reset of the keyboard. *)
Definition keyboard_reset : io D bool :=
  _ ← command DATA_PORT 255;
  resp ← answer;
  if resp =? 250 then r ← answer; mret (r =? 170)
  else mret (resp =? 170).

Definition keyboard_init : io D () :=
  _ ← command STATUS_PORT 173;
  _ ← command STATUS_PORT 167;
  _ ← flush WAIT_TIMEOUT;
  _ ← command STATUS_PORT 170;
  r ← answer;
  if negb (r =? 85) then mret ()
  else
    _ ← command STATUS_PORT 96;
    _ ← command DATA_PORT 71;
    ok ← keyboard_reset;
    if negb ok then mret ()
    else
      _ ← command DATA_PORT 244;
      _ ← answer;
      mret ().
End kbc.

(** ** What the data sheets promise: the 16550 *)

Class UartView (D : Type) := { ier : D → Z; lcr : D → Z; mcr : D → Z; fcr : D → Z; divisor : D → Z * Z }.

Definition uart_regs `{UartView D} (d : D) : Z * Z * Z * Z * (Z * Z) := (ier d, lcr d, mcr d, fcr d, divisor d).

(** Bit 7 of the line control register gives access to the divisor in place of the data and the
    interrupt enable register. *)
Class UartLaws (D : Type) `{PortIO D, UartView D} : Prop := {
  uart_data v d : uart_regs (out8 (SERIAL_COM1_BASE + SERIAL_DATA) v d) =
    (ier d, lcr d, mcr d, fcr d, if Z.testbit (lcr d) 7 then (v, (divisor d).2) else divisor d);
  uart_intr v d : uart_regs (out8 (SERIAL_COM1_BASE + SERIAL_INTR) v d) =
    (if Z.testbit (lcr d) 7 then ier d else v, lcr d, mcr d, fcr d, if Z.testbit (lcr d) 7 then ((divisor d).1, v) else divisor d);
  uart_fifo v d : uart_regs (out8 (SERIAL_COM1_BASE + SERIAL_FIFO) v d) = (ier d, lcr d, mcr d, v, divisor d);
  uart_lcr v d : uart_regs (out8 (SERIAL_COM1_BASE + SERIAL_LCR) v d) = (ier d, v, mcr d, fcr d, divisor d);
  uart_mcr v d : uart_regs (out8 (SERIAL_COM1_BASE + SERIAL_MCR) v d) = (ier d, lcr d, v, fcr d, divisor d)
}.

Section uart.
Context `{UartLaws D}.

Lemma regs_eq (d : D) i l m f v : uart_regs d = (i, l, m, f, v) →
  ier d = i ∧ lcr d = l ∧ mcr d = m ∧ fcr d = f ∧ divisor d = v.
Proof. unfold uart_regs. by intros [= <- <- <- <- <-]. Qed.

(** After the first call the line runs at 115200 baud (divisor 1), eight bits, no parity, one stop
    bit, without interrupts. *)
Lemma serial_init_regs (d : D) : let '(flag, d') := serial_init false d in
  flag = true ∧ (Z.testbit (lcr d) 7 = false → ier d' = 0) ∧ lcr d' = 3 ∧ mcr d' = 11 ∧ fcr d' = 199 ∧ divisor d' = (1, 0).
Proof.
  unfold serial_init, outb, mbind, io_bind, mret, io_ret. cbn iota beta.
  set (d1 := out8 (SERIAL_COM1_BASE + SERIAL_INTR) 0 d). set (d2 := out8 (SERIAL_COM1_BASE + SERIAL_LCR) 128 d1).
  set (d3 := out8 (SERIAL_COM1_BASE + SERIAL_DATA) 1 d2). set (d4 := out8 (SERIAL_COM1_BASE + SERIAL_INTR) 0 d3).
  set (d5 := out8 (SERIAL_COM1_BASE + SERIAL_LCR) 3 d4). set (d6 := out8 (SERIAL_COM1_BASE + SERIAL_FIFO) 199 d5).
  destruct (regs_eq _ _ _ _ _ _ (uart_intr 0 d)) as (I1 & L1 & M1 & F1 & V1).
  destruct (regs_eq _ _ _ _ _ _ (uart_lcr 128 d1)) as (I2 & L2 & M2 & F2 & V2).
  destruct (regs_eq _ _ _ _ _ _ (uart_data 1 d2)) as (I3 & L3 & M3 & F3 & V3).
  destruct (regs_eq _ _ _ _ _ _ (uart_intr 0 d3)) as (I4 & L4 & M4 & F4 & V4).
  destruct (regs_eq _ _ _ _ _ _ (uart_lcr 3 d4)) as (I5 & L5 & M5 & F5 & V5).
  destruct (regs_eq _ _ _ _ _ _ (uart_fifo 199 d5)) as (I6 & L6 & M6 & F6 & V6).
  destruct (regs_eq _ _ _ _ _ _ (uart_mcr 11 d6)) as (I7 & L7 & M7 & F7 & V7).
  fold d1 in I1, L1, M1, F1, V1. fold d2 in I2, L2, M2, F2, V2. fold d3 in I3, L3, M3, F3, V3. fold d4 in I4, L4, M4, F4, V4.
  fold d5 in I5, L5, M5, F5, V5. fold d6 in I6, L6, M6, F6, V6.
  assert (Z.testbit (lcr d2) 7 = true) as T2 by (by rewrite L2). assert (Z.testbit (lcr d3) 7 = true) as T3 by (by rewrite L3, L2).
  rewrite T2 in V3. rewrite T3 in I4, V4. split; [done|]. split.
  { intros T. rewrite I7, I6, I5, I4, I3, I2, I1, T. done. }
  rewrite L7, L6, L5, M7, F7, F6, V7, V6, V5, V4, V3. done.
Qed.

(** A later call does not touch the port. *)
Lemma serial_init_again (d : D) : serial_init true d = (true, d).
Proof. done. Qed.
End uart.

(** ** The keyboard controller and the keyboard *)

(** [busy]: status reads until the input buffer is empty; [queue]: the bytes to be read, each with
    the number of status reads until it shows; [config]: the configuration byte, [writes_config]
    whether the next data byte is one; [scanning]: the keyboard reports keys. *)
Class KbcView (D : Type) := {
  busy : D → Z; queue : D → list (Z * Z); config : D → Z; writes_config : D → bool; scanning : D → bool
}.

Definition soon (k : Z) : Prop := 0 ≤ k < Z.of_nat WAIT_TIMEOUT.

(** One status read later. *)
Definition elapse (q : list (Z * Z)) : list (Z * Z) :=
  match q with (k, b) :: q => (Z.max 0 (k - 1), b) :: q | [] => [] end.

(** The first byte has arrived. *)
Definition arrived (q : list (Z * Z)) : bool := match q with (k, _) :: _ => k =? 0 | [] => false end.

Definition kbc_rest `{KbcView D} (d : D) : Z * bool * bool := (config d, writes_config d, scanning d).

(** A controller and a keyboard that work, with no key pressed: commands are taken and answered
    within the time the driver waits. *)
Class KbcLaws (D : Type) `{PortIO D, KbcView D} : Prop := {
  kbc_status d : let '(st, d') := in8 STATUS_PORT d in
    (Z.land st STATUS_INPUT_FULL =? 0) = (busy d =? 0) ∧ (Z.land st Keyboard.STATUS_OUTPUT_FULL =? 0) = negb (arrived (queue d)) ∧
    busy d' = Z.max 0 (busy d - 1) ∧ queue d' = elapse (queue d) ∧ kbc_rest d' = kbc_rest d;
  kbc_read d b q : queue d = (0, b) :: q →
    let '(x, d') := in8 DATA_PORT d in x = b ∧ queue d' = q ∧ busy d' = busy d ∧ kbc_rest d' = kbc_rest d;
  kbc_disable v d : v = 173 ∨ v = 167 → busy d = 0 →
    let d' := out8 STATUS_PORT v d in soon (busy d') ∧ queue d' = queue d ∧ writes_config d' = false;
  kbc_test d : busy d = 0 →
    let d' := out8 STATUS_PORT 170 d in soon (busy d') ∧ (∃ k, soon k ∧ queue d' = queue d ++ [(k, 85)]) ∧ writes_config d' = false;
  kbc_write_config d : busy d = 0 →
    let d' := out8 STATUS_PORT 96 d in soon (busy d') ∧ queue d' = queue d ∧ writes_config d' = true;
  kbc_config v d : busy d = 0 → writes_config d = true →
    let d' := out8 DATA_PORT v d in soon (busy d') ∧ queue d' = queue d ∧ kbc_rest d' = (v, false, scanning d);
  kbd_reset d : busy d = 0 → writes_config d = false →
    let d' := out8 DATA_PORT 255 d in soon (busy d') ∧
    (∃ k1 k2, soon k1 ∧ soon k2 ∧ (queue d' = queue d ++ [(k1, 250); (k2, 170)] ∨ queue d' = queue d ++ [(k1, 170)])) ∧
    config d' = config d ∧ writes_config d' = false;
  kbd_scan d : busy d = 0 → writes_config d = false →
    let d' := out8 DATA_PORT 244 d in soon (busy d') ∧ (∃ k, soon k ∧ queue d' = queue d ++ [(k, 250)]) ∧
    kbc_rest d' = (config d, false, true)
}.

Section kbc_spec.
Context `{KbcLaws D}.

(** [m] started where [P] holds ends where [Q] holds of its result. *)
Definition runs {A} (P : D → Prop) (m : io D A) (Q : A → D → Prop) : Prop := ∀ d, P d → Q (m d).1 (m d).2.

Lemma runs_bind {A B} P (m : io D A) Q (f : A → io D B) R :
  runs P m Q → (∀ x, runs (Q x) (f x) R) → runs P (m ≫= f) R.
Proof. intros Hm Hf d Hd. specialize (Hm d Hd). unfold mbind, io_bind. destruct (m d) as [x d'] eqn:E. by apply Hf. Qed.

Lemma runs_ret {A} (P : D → Prop) (x : A) (Q : A → D → Prop) : (∀ d, P d → Q x d) → runs P (mret x) Q.
Proof. intros HQ d Hd. by apply HQ. Qed.

(** The bytes [bs] are on their way, with delays that satisfy [L], and the registers satisfy [R]. *)
Definition kst (L : Z → Prop) (bs : list Z) (R : Z * bool * bool → Prop) (d : D) : Prop :=
  soon (busy d) ∧ (queue d).*2 = bs ∧ Forall L (queue d).*1 ∧ R (kbc_rest d).

(** The same when the controller takes input. *)
Definition idle (L : Z → Prop) bs R d : Prop := kst L bs R d ∧ busy d = 0.

Class delay (L : Z → Prop) : Prop := delay_less k : L k → L (Z.max 0 (k - 1)).
#[export] Instance delay_soon : delay soon.
Proof. intros k. unfold soon. lia. Qed.
#[export] Instance delay_none : delay (λ k, k = 0).
Proof. intros k ->. done. Qed.

Lemma elapse_bytes q : (elapse q).*2 = q.*2.
Proof. by destruct q as [|[k b] q]. Qed.
Lemma elapse_delays L q : delay L → Forall L q.*1 → Forall L (elapse q).*1.
Proof. intros HL. destruct q as [|[k b] q]; [done|]. cbn. intros [? ?]%Forall_cons. apply Forall_cons. split; [by apply HL|done]. Qed.

Lemma kst_status L bs R d : delay L → kst L bs R d → kst L bs R (in8 STATUS_PORT d).2.
Proof.
  intros HL (Hb & Hq & Hd & HR). pose proof (kbc_status d) as Hs. destruct (in8 STATUS_PORT d) as [st d']. destruct Hs as (_ & _ & Eb & Eq & Er).
  unfold kst. cbn [snd]. rewrite Eb, Eq, Er, elapse_bytes. split; [unfold soon in *; lia|]. split; [done|]. split; [by apply elapse_delays|done].
Qed.

Lemma wait_write_runs L bs R n : delay L →
  runs (λ d, kst L bs R d ∧ busy d < Z.of_nat n) (wait_write n) (λ _, idle L bs R).
Proof.
  intros HL. induction n as [|n IH]; intros d [Hk Hn]; [destruct Hk as [[? _] _]; lia|]. cbn [wait_write].
  unfold mbind, io_bind, inb. pose proof (kbc_status d) as Hs. pose proof (kst_status _ _ _ _ HL Hk) as Hk'.
  destruct (in8 STATUS_PORT d) as [st d']. destruct Hs as (Es & _ & Eb & _). cbn [snd] in Hk'. rewrite Es.
  pose proof (proj1 Hk) as Hsoon. unfold soon in Hsoon. destruct (Z.eqb_spec (busy d) 0).
  - split; [done|]. cbn. lia.
  - apply IH. split; [done|]. lia.
Qed.

Lemma wait_write_ok L bs R : delay L → runs (kst L bs R) (wait_write WAIT_TIMEOUT) (λ _, idle L bs R).
Proof. intros HL d Hk. apply wait_write_runs; [done|]. split; [done|]. apply Hk. Qed.

(** The first byte comes, and is read. *)
Lemma wait_read_runs b bs R n : runs (λ d, kst soon (b :: bs) R d ∧ ∃ k, head (queue d) = Some (k, b) ∧ 0 ≤ k < Z.of_nat n) (wait_read n)
  (λ _ d, kst soon (b :: bs) R d ∧ head (queue d) = Some (0, b)).
Proof.
  induction n as [|n IH]; intros d (Hk & k & Hh & Hn); [lia|]. cbn [wait_read].
  unfold mbind, io_bind, inb. pose proof (kbc_status d) as Hs. pose proof (kst_status _ _ _ _ delay_soon Hk) as Hk'.
  destruct (in8 STATUS_PORT d) as [st d']. destruct Hs as (_ & Es & _ & Eq & _). cbn [snd] in Hk'. rewrite Es, negb_involutive.
  destruct (queue d) as [|[k0 b0] q] eqn:Q; [done|]. injection Hh as -> ->. cbn [arrived]. destruct (Z.eqb_spec k 0) as [->|].
  - split; [done|]. cbn. by rewrite Eq.
  - apply IH. split; [done|]. exists (Z.max 0 (k - 1)). rewrite Eq. split; [done|]. lia.
Qed.

Lemma answer_ok b bs R : runs (kst soon (b :: bs) R) answer (λ x d, x = b ∧ kst soon bs R d).
Proof.
  unfold answer. eapply (runs_bind _ _ (λ _ d, kst soon (b :: bs) R d ∧ head (queue d) = Some (0, b))).
  - intros d Hk. apply wait_read_runs. split; [done|]. destruct Hk as (_ & Hq & Hd & _).
    destruct (queue d) as [|[k b0] q]; [done|]. cbn in Hq. injection Hq as -> _. apply Forall_cons in Hd as [Hd _]. by exists k.
  - intros [] d (Hk & Hh). destruct Hk as (Hb & Hq & Hd & HR). destruct (queue d) as [|[k b0] q] eqn:Q; [done|]. injection Hh as -> ->.
    pose proof (kbc_read d b q Q) as Hr. unfold inb. destruct (in8 DATA_PORT d) as [x d']. destruct Hr as (-> & Eq & Eb & Er). cbn in *.
    split; [done|]. unfold kst. rewrite Eb, Eq, Er. injection Hq as Hq. apply Forall_cons in Hd as [_ Hd]. done.
Qed.

(** The bytes that have arrived are drained. *)
Lemma flush_ok R n : ∀ bs, (length bs < n)%nat → runs (kst (λ k, k = 0) bs R) (flush n) (λ _, kst soon [] R).
Proof.
  induction n as [|n IH]; intros bs Hn d Hk; [lia|]. cbn [flush]. unfold mbind, io_bind, inb.
  pose proof (kbc_status d) as Hs. pose proof (kst_status _ _ _ _ delay_none Hk) as Hk'.
  destruct (in8 STATUS_PORT d) as [st d']. destruct Hs as (_ & Es & _ & Eq & _). cbn [snd] in Hk'. rewrite Es.
  destruct Hk' as (Hb & Hq & Hd & HR). destruct Hk as (_ & Hq0 & Hd0 & _). rewrite Eq in Hq, Hd.
  destruct (queue d) as [|[k b] q] eqn:Q; cbn [arrived].
  - cbn. unfold kst. rewrite Eq. cbn in *. done.
  - cbn in Hd0, Hq0. apply Forall_cons in Hd0 as [-> Hd0]. cbn [Z.eqb negb]. cbn [elapse] in Eq. change (Z.max 0 (0 - 1)) with 0 in Eq.
    pose proof (kbc_read d' b q Eq) as Hr. destruct (in8 DATA_PORT d') as [x d2]. destruct Hr as (_ & Eq2 & Eb2 & Er2).
    apply (IH (q.*2)); [subst bs; cbn in Hn; lia|]. unfold kst. rewrite Eb2, Eq2, Er2. done.
Qed.

Lemma command_ok L bs R port v Q : delay L → (∀ d, idle L bs R d → Q (out8 port v d)) →
  runs (kst L bs R) (command port v) (λ _, Q).
Proof.
  intros HL HQ. unfold command. eapply runs_bind; [by apply wait_write_ok|]. intros [] d Hd. unfold outb. cbn. by apply HQ.
Qed.

(** The queue after an answer has been added. *)
Lemma kst_answers bs R d d' (q : list (Z * Z)) R' bs' : kst soon bs R d → queue d' = queue d ++ q → Forall soon q.*1 →
  soon (busy d') → R' (kbc_rest d') → bs' = bs ++ q.*2 → kst soon bs' R' d'.
Proof.
  intros (_ & Hq & Hd & _) Eq Hs Hb HR ->. unfold kst. rewrite Eq, !fmap_app, Hq. split; [done|]. split; [done|]. split; [|done].
  by apply Forall_app.
Qed.

Lemma soon1 (k b : Z) : soon k → Forall soon [(k, b)].*1.
Proof. intros. by apply Forall_singleton. Qed.
Lemma soon2 (k b k' b' : Z) : soon k → soon k' → Forall soon [(k, b); (k', b')].*1.
Proof. intros. cbn. by rewrite !Forall_cons, Forall_nil. Qed.
#[local] Hint Resolve soon1 soon2 : core.

Definition no_config : Z * bool * bool → Prop := λ r, r.1.2 = false.
Definition configured : Z * bool * bool → Prop := λ r, r.1 = (71, false).

Lemma keyboard_reset_ok : runs (kst soon [] configured) keyboard_reset (λ ok d, ok = true ∧ kst soon [] configured d).
Proof.
  unfold keyboard_reset. eapply (runs_bind _ _ (λ _ d, kst soon [250; 170] configured d ∨ kst soon [170] configured d)).
  - apply command_ok; [apply _|]. intros d (Hk & Hb). pose proof Hk as (_ & _ & _ & HR). cbn in HR. unfold configured, kbc_rest in HR. cbn in HR.
    injection HR as Hc Hw. destruct (kbd_reset d Hb Hw) as (Hb' & (k1 & k2 & Hk1 & Hk2 & Hq) & Ec & Ew).
    assert (configured (kbc_rest (out8 DATA_PORT 255 d))) as HR' by (unfold configured, kbc_rest; cbn; congruence).
    destruct Hq as [Hq|Hq]; [left|right]; eapply (kst_answers [] configured d _ _ _ _ Hk Hq); auto.
  - intros [] d [Hd|Hd].
    + revert d Hd. change (runs (kst soon [250; 170] configured) (resp ← answer; if resp =? 250 then r ← answer; mret (r =? 170) else mret (resp =? 170))
        (λ ok d, ok = true ∧ kst soon [] configured d)).
      eapply runs_bind; [apply answer_ok|]. intros x d [-> Hd]. cbn [Z.eqb]. revert d Hd.
      change (runs (kst soon [170] configured) (r ← answer; mret (r =? 170)) (λ ok d, ok = true ∧ kst soon [] configured d)).
      eapply runs_bind; [apply answer_ok|]. intros x. apply runs_ret. by intros d [-> Hd].
    + revert d Hd. change (runs (kst soon [170] configured) (resp ← answer; if resp =? 250 then r ← answer; mret (r =? 170) else mret (resp =? 170))
        (λ ok d, ok = true ∧ kst soon [] configured d)).
      eapply runs_bind; [apply answer_ok|]. intros x d [-> Hd]. done.
Qed.

Lemma keyboard_init_ok bs : (length bs < WAIT_TIMEOUT)%nat →
  runs (kst (λ k, k = 0) bs (λ _, True)) keyboard_init (λ _, kst soon [] (λ r, r = (71, false, true))).
Proof.
  intros Hn. unfold keyboard_init.
  assert (∀ L v bs R, delay L → (∀ k, L k → soon k) → v = 173 ∨ v = 167 → runs (kst L bs R) (command STATUS_PORT v) (λ _, kst L bs no_config)) as Hdis.
  { intros L v bs' R HL HLs Hv. apply command_ok; [done|]. intros d (Hk & Hb). destruct (kbc_disable v d Hv Hb) as (Hb' & Eq & Ew).
    destruct Hk as (_ & Hq & Hd & _). unfold kst, no_config, kbc_rest. rewrite Eq. done. }
  eapply runs_bind; [apply Hdis; [apply _|unfold soon; intros; subst; done|by left]|]. intros [].
  eapply runs_bind; [apply Hdis; [apply _|unfold soon; intros; subst; done|by right]|]. intros [].
  eapply runs_bind; [by apply flush_ok|]. intros [].
  eapply (runs_bind _ _ (λ _, kst soon [85] no_config)).
  { apply command_ok; [apply _|]. intros d (Hk & Hb). destruct (kbc_test d Hb) as (Hb' & (k & Hk' & Eq) & Ew).
    eapply (kst_answers [] no_config d _ _ _ _ Hk Eq); auto. }
  intros []. eapply runs_bind; [apply answer_ok|]. intros x d [-> Hd]. cbn [Z.eqb Pos.eqb negb]. revert d Hd.
  change (runs (kst soon [] no_config) (_ ← command STATUS_PORT 96; _ ← command DATA_PORT 71; ok ← keyboard_reset;
    if negb ok then mret () else _ ← command DATA_PORT 244; _ ← answer; mret ()) (λ _, kst soon [] (λ r, r = (71, false, true)))).
  eapply (runs_bind _ _ (λ _, kst soon [] (λ r, r.1.2 = true))).
  { apply command_ok; [apply _|]. intros d (Hk & Hb). destruct (kbc_write_config d Hb) as (Hb' & Eq & Ew).
    destruct Hk as (_ & Hq & Hd & _). unfold kst. rewrite Eq. done. }
  intros []. eapply (runs_bind _ _ (λ _, kst soon [] configured)).
  { apply command_ok; [apply _|]. intros d (Hk & Hb). pose proof Hk as (_ & Hq & Hd & HR). cbn in HR.
    destruct (kbc_config 71 d Hb HR) as (Hb' & Eq & Er). unfold kst, configured. rewrite Eq, Er. done. }
  intros []. eapply runs_bind; [apply keyboard_reset_ok|]. intros ok d [-> Hd]. cbn [negb]. revert d Hd.
  change (runs (kst soon [] configured) (_ ← command DATA_PORT 244; _ ← answer; mret ()) (λ _, kst soon [] (λ r, r = (71, false, true)))).
  eapply (runs_bind _ _ (λ _, kst soon [250] (λ r, r = (71, false, true)))).
  { apply command_ok; [apply _|]. intros d (Hk & Hb). pose proof Hk as (_ & _ & _ & HR). unfold configured, kbc_rest in HR. cbn in HR. injection HR as Hc Hw.
    destruct (kbd_scan d Hb Hw) as (Hb' & (k & Hk' & Eq) & Er). rewrite Hc in Er.
    eapply (kst_answers [] configured d _ _ _ _ Hk Eq); auto. }
  intros []. eapply runs_bind; [apply answer_ok|]. intros x. apply runs_ret. by intros d [_ Hd].
Qed.
End kbc_spec.

(** ** A machine with the two chips *)

Record bench := mkBench {
  b_uart : Z * Z * Z * Z * (Z * Z); b_busy : Z; b_queue : list (Z * Z); b_config : Z; b_writes : bool; b_scanning : bool
}.

Definition set_uart (u : Z * Z * Z * Z * (Z * Z)) (d : bench) : bench :=
  mkBench u (b_busy d) (b_queue d) (b_config d) (b_writes d) (b_scanning d).

(** Commands keep the controller busy for 5 status reads; answers take 40 and more. *)
Definition kbc_out (port v : Z) (d : bench) : bench :=
  if port =? STATUS_PORT then
    mkBench (b_uart d) 5 (b_queue d ++ if v =? 170 then [(40, 85)] else []) (b_config d) (v =? 96) (b_scanning d)
  else if b_writes d then mkBench (b_uart d) 5 (b_queue d) v false (b_scanning d)
  else mkBench (b_uart d) 5 (b_queue d ++ if v =? 255 then [(60, 250); (5000, 170)] else [(60, 250)]) (b_config d) false
         (if v =? 255 then false else true).

Definition uart_out (port v : Z) (d : bench) : bench :=
  let '(i, l, m, f, (dl, dh)) := b_uart d in
  if port =? SERIAL_COM1_BASE + SERIAL_DATA then set_uart (i, l, m, f, if Z.testbit l 7 then (v, dh) else (dl, dh)) d
  else if port =? SERIAL_COM1_BASE + SERIAL_INTR then
    set_uart (if Z.testbit l 7 then i else v, l, m, f, if Z.testbit l 7 then (dl, v) else (dl, dh)) d
  else if port =? SERIAL_COM1_BASE + SERIAL_FIFO then set_uart (i, l, m, v, (dl, dh)) d
  else if port =? SERIAL_COM1_BASE + SERIAL_LCR then set_uart (i, v, m, f, (dl, dh)) d
  else if port =? SERIAL_COM1_BASE + SERIAL_MCR then set_uart (i, l, v, f, (dl, dh)) d
  else d.

Definition bench_in (port : Z) (d : bench) : Z * bench :=
  if port =? STATUS_PORT then
    ((if b_busy d =? 0 then 0 else 2) + (if arrived (b_queue d) then 1 else 0),
     mkBench (b_uart d) (Z.max 0 (b_busy d - 1)) (elapse (b_queue d)) (b_config d) (b_writes d) (b_scanning d))
  else match b_queue d with
       | (_, b) :: q => (b, mkBench (b_uart d) (b_busy d) q (b_config d) (b_writes d) (b_scanning d))
       | [] => (0, d)
       end.

#[export] Instance bench_io : PortIO bench := {
  out8 port v d := if (port =? STATUS_PORT) || (port =? DATA_PORT) then kbc_out port v d else uart_out port v d;
  in8 := bench_in
}.
#[export] Instance bench_uart : UartView bench := {
  ier d := (b_uart d).1.1.1.1; lcr d := (b_uart d).1.1.1.2; mcr d := (b_uart d).1.1.2; fcr d := (b_uart d).1.2; divisor d := (b_uart d).2
}.
#[export] Instance bench_kbc : KbcView bench := {
  busy := b_busy; queue := b_queue; config := b_config; writes_config := b_writes; scanning := b_scanning
}.

#[export] Instance bench_uart_laws : UartLaws bench.
Proof. split; intros v [[[[[i l] m] f] [dl dh]] ? ? ? ? ?]; cbn; try done; by destruct (Z.testbit l 7). Qed.

Lemma soon_lt k : 0 ≤ k < 100000 → soon k.
Proof. unfold soon, WAIT_TIMEOUT. rewrite Z2Nat.id by lia. lia. Qed.

#[export] Instance bench_kbc_laws : KbcLaws bench.
Proof.
  split.
  - intros d. unfold in8, bench_io, bench_in. cbn. destruct (b_busy d =? 0), (arrived (b_queue d)); done.
  - intros d b q. cbn. intros E. unfold bench_in. by rewrite E.
  - intros v d Hv _. cbn. destruct Hv as [-> | ->]; cbn; rewrite app_nil_r; (split; [by apply soon_lt|done]).
  - intros d _. cbn. split; [by apply soon_lt|]. split; [|done]. exists 40. split; [by apply soon_lt|done].
  - intros d _. cbn. rewrite app_nil_r. split; [by apply soon_lt|done].
  - intros v d _ Hw. cbn in *. unfold kbc_out. cbn. rewrite Hw. split; [by apply soon_lt|done].
  - intros d _ Hw. cbn in *. unfold kbc_out. cbn. rewrite Hw. split; [by apply soon_lt|]. split; [|done].
    exists 60, 5000. split; [by apply soon_lt|]. split; [by apply soon_lt|]. by left.
  - intros d _ Hw. cbn in *. unfold kbc_out. cbn. rewrite Hw. split; [by apply soon_lt|]. split; [|done]. exists 60. split; [by apply soon_lt|done].
Qed.

(** ** The contracts *)

(** Setting up the keyboard.  With a controller and a keyboard that answer within the time the
    driver waits, whatever bytes were left to read (fewer than 100000), [init] ends with the
    configuration byte 0x47 (keyboard port and its interrupt on, translation to scan code set 1),
    the keyboard reporting keys, and no byte left to read, so that the first interrupt brings the
    first key. *)
Theorem keyboard_init_spec {D : Type} `{KbcLaws D} (d : D) (Hb : soon (busy d)) (Hz : Forall (λ p, p.1 = 0) (queue d))
  (Hn : (length (queue d) < WAIT_TIMEOUT)%nat) :
  let d' := (keyboard_init d).2 in
  config d' = 71 ∧ writes_config d' = false ∧ scanning d' = true ∧ queue d' = [].
Proof.
  cbv zeta. destruct (keyboard_init_ok ((queue d).*2) ltac:(by rewrite length_fmap) d) as (_ & Hq & _ & HR).
  { split; [done|]. split; [done|]. split; [by apply Forall_fmap|done]. }
  unfold kbc_rest in HR. injection HR as ? ? ?. split_and!; [done|done|done|]. by apply fmap_nil_inv in Hq.
Qed.

Lemma keyboard_init_spec_witness :
  let d := mkBench (0, 0, 0, 0, (0, 0)) 0 [(0, 30); (0, 158)] 0 false false in config (keyboard_init d).2 = 71 ∧ queue (keyboard_init d).2 = [].
Proof.
  destruct (keyboard_init_spec (mkBench (0, 0, 0, 0, (0, 0)) 0 [(0, 30); (0, 158)] 0 false false)) as (Hc & _ & _ & Hq).
  - by apply soon_lt.
  - repeat constructor.
  - apply Nat2Z.inj_lt. unfold WAIT_TIMEOUT. rewrite Z2Nat.id by lia. cbn. lia.
  - split; [exact Hc|exact Hq].
Defined.

(** Setting up the serial port.  The first call programs 115200 baud, eight bits without parity
    and one stop bit, the FIFOs and the modem lines, and leaves the interrupts of the port off;
    every later call leaves the port alone. *)
Theorem serial_init_spec {D : Type} `{UartLaws D} (d : D) (Hl : Z.testbit (lcr d) 7 = false) :
  let '(flag, d') := serial_init false d in
  flag = true ∧ uart_regs d' = (0, 3, 11, 199, (1, 0)) ∧ serial_init flag d' = (true, d').
Proof.
  pose proof (serial_init_regs d) as Hr. destruct (serial_init false d) as [flag d']. destruct Hr as (-> & Hi & E1 & E2 & E3 & E4).
  split; [done|]. split; [|done]. unfold uart_regs. by rewrite Hi, E1, E2, E3, E4.
Qed.

Lemma serial_init_spec_witness : uart_regs (serial_init false (mkBench (15, 3, 0, 0, (12, 0)) 0 [] 0 false false)).2 = (0, 3, 11, 199, (1, 0)).
Proof.
  pose proof (serial_init_spec (mkBench (15, 3, 0, 0, (12, 0)) 0 [] 0 false false) eq_refl) as Hs.
  destruct (serial_init false (mkBench (15, 3, 0, 0, (12, 0)) 0 [] 0 false false)) as [flag d']. destruct Hs as (_ & Hs & _). exact Hs.
Defined.
