(* ===== verification/Evidence.v ===== *)
(** * Scheduler evidence (src/kernel_rust/src/scheduler_evidence.rs)

    The debug build records, for one program under observation, how often it was taken off
    the processor, ran in user mode and was resumed.  The observed program is known by the
    address ranges of its executable segments, which [executable_intervals] merges in a
    table of 64 places.  The lines the code prints are the events of [log], with the values
    that are printed. *)

From Stdlib Require Import ZArith Lia.
From stdpp Require Import base numbers list list_numbers option.
From S2P Require Import Prelude Elf Interrupts.

Local Open Scope Z_scope.

Definition REQUIRED_ROUND_TRIPS : Z := 3.
Definition MAX_EXEC_INTERVALS : Z := 64.

Record ExecInterval := mkInterval { lo : Z; hi : Z }.
Definition EMPTY_INTERVAL : ExecInterval := mkInterval 0 0.

Record Target := mkTarget {
  active : bool; invalid : bool; pid : Z; cr3 : Z; intervals : list ExecInterval; interval_count : Z; entry : Z;
  sequence : Z; round_trips : Z; saw_user_return : bool; saw_switch_out : bool
}.
Definition EMPTY_TARGET : Target :=
  mkTarget false false 0 0 (replicate (Z.to_nat MAX_EXEC_INTERVALS) EMPTY_INTERVAL) 0 0 0 0 false false.

(** ** Reading the file *)

(** [data.get(offset..offset + n)] as a little-endian number. *)
Definition read_le (n : nat) (data : list Z) (offset : Z) : option Z :=
  stop ← checked_add offset (Z.of_nat n);
  if stop <=? Z.of_nat (length data) then Some (le_value (take n (drop (Z.to_nat offset) data))) else None.

Definition read_u16 := read_le 2.
Definition read_u32 := read_le 4.
Definition read_u64 := read_le 8.

Inductive IntervalError := Malformed | Capacity.

(** The header of the file: the offset, the size and the number of the program headers. *)
Definition exec_header (data : list Z) : option (Z * Z * Z) :=
  if (Z.of_nat (length data) <? 64) || negb (bool_decide (take 4 data = ELF_MAGIC)) ||
     negb (bool_decide (data !! 4%nat = Some 2)) then None
  else
    phoff ← read_u64 data 32; phentsize ← read_u16 data 54; phnum ← read_u16 data 56;
    if phentsize <? 56 then None else Some (phoff, phentsize, phnum).

(** The range of program header [i] when it is executable and not empty. *)
Definition exec_range (data : list Z) (phoff phentsize i : Z) : option (option ExecInterval) :=
  x ← checked_mul i phentsize; offset ← checked_add phoff x;
  p_type ← read_u32 data offset;
  o ← checked_add offset 4; p_flags ← read_u32 data o;
  if negb (p_type =? PT_LOAD) || (Z.land p_flags PF_X =? 0) then Some None
  else
    o ← checked_add offset 16; vaddr ← read_u64 data o;
    o ← checked_add offset 40; memsz ← read_u64 data o;
    stop ← checked_add vaddr memsz;
    if (memsz =? 0) || (stop <=? vaddr) then Some None else Some (Some (mkInterval vaddr stop)).

(** ** The table of ranges *)

(** [while first < count && intervals[first].hi < lo]; [n] places are left. *)
Fixpoint find_first (iv : list ExecInterval) (lo first : Z) (n : nat) : outcome Z :=
  match n with
  | O => Ret first
  | S n => x ← index iv first; if hi x <? lo then find_first iv lo (first + 1) n else Ret first
  end.

(** [while last < count && intervals[last].lo <= hi]. *)
Fixpoint merge_from (iv : list ExecInterval) (l h last : Z) (n : nat) : outcome (Z * Z * Z) :=
  match n with
  | O => Ret (l, h, last)
  | S n =>
      x ← index iv last;
      if lo x <=? h then merge_from iv (Z.min l (lo x)) (Z.max h (hi x)) (last + 1) n else Ret (l, h, last)
  end.

(** [for index in (first..first + n).rev() { intervals[index + 1] = intervals[index] }]. *)
Fixpoint shift_up (iv : list ExecInterval) (first : Z) (n : nat) : outcome (list ExecInterval) :=
  match n with
  | O => Ret iv
  | S n =>
      x ← index iv (first + Z.of_nat n); iv ← store iv (first + Z.of_nat n + 1) x; shift_up iv first n
  end.

(** [for index in last..last + n { intervals[index - removed] = intervals[index] }]. *)
Fixpoint shift_down (iv : list ExecInterval) (last removed : Z) (n : nat) : outcome (list ExecInterval) :=
  match n with
  | O => Ret iv
  | S n => x ← index iv last; iv ← store iv (last - removed) x; shift_down iv (last + 1) removed n
  end.

(** Enter the range [r]; [None] when it needs a place and there is none. *)
Definition add_interval (iv : list ExecInterval) (count : Z) (r : ExecInterval)
    : outcome (option (list ExecInterval * Z)) :=
  first ← find_first iv (lo r) 0 (Z.to_nat count);
  '(l, h, last) ← merge_from iv (lo r) (hi r) first (Z.to_nat (count - first));
  if first =? last then
    if count =? MAX_EXEC_INTERVALS then Ret None
    else
      iv ← shift_up iv first (Z.to_nat (count - first));
      iv ← store iv first (mkInterval l h);
      Ret (Some (iv, count + 1))
  else
    iv ← store iv first (mkInterval l h);
    let removed := last - first - 1 in
    iv ← shift_down iv last removed (Z.to_nat (count - last));
    Ret (Some (iv, count - removed)).

(** [for index in i..i + n]. *)
Fixpoint collect (data : list Z) (phoff phentsize : Z) (iv : list ExecInterval) (count i : Z) (n : nat)
    : outcome (list ExecInterval * Z + IntervalError) :=
  match n with
  | O => Ret (inl (iv, count))
  | S n =>
      match exec_range data phoff phentsize i with
      | None => Ret (inr Malformed)
      | Some None => collect data phoff phentsize iv count (i + 1) n
      | Some (Some r) =>
          o ← add_interval iv count r;
          match o with
          | None => Ret (inr Capacity)
          | Some (iv, count) => collect data phoff phentsize iv count (i + 1) n
          end
      end
  end.

Definition executable_intervals (data : list Z) : outcome (list ExecInterval * Z + IntervalError) :=
  match exec_header data with
  | None => Ret (inr Malformed)
  | Some (phoff, phentsize, phnum) =>
      r ← collect data phoff phentsize (replicate (Z.to_nat MAX_EXEC_INTERVALS) EMPTY_INTERVAL) 0 0 (Z.to_nat phnum);
      match r with
      | inr e => Ret (inr e)
      | inl (iv, count) => if count =? 0 then Ret (inr Malformed) else Ret (inl (iv, count))
      end
  end.

Definition in_interval (x : Z) (r : ExecInterval) : bool := (lo r <=? x) && (x <? hi r).
Definition in_intervals (iv : list ExecInterval) (count x : Z) : bool := existsb (in_interval x) (take (Z.to_nat count) iv).
Definition rip_in_intervals (t : Target) (rip : Z) : bool := in_intervals (intervals t) (interval_count t) rip.

(** ** Recording *)

Inductive event :=
| TargetLine (pid cr3 : Z) (iv : list ExecInterval) (entry : Z)
| InvalidCapacity (pid : Z)
| InvalidNoRange (pid : Z)
| InvalidEntryRange (pid entry : Z)
| Conflict (pid existing_pid cr3 existing_cr3 : Z)
| SysretLine (seq round pid cr3 expected rip rflags rsp krsp : Z) (range entry : bool)
| OutLine (seq round pid next cr3 rip cs ss rflags rsp krsp : Z) (range : bool)
| InLine (seq round pid prev cr3 expected rip cs ss rflags rsp krsp : Z) (range : bool)
| UserLine (seq round pid cr3 rip cs ss rflags rsp : Z) (range : bool).

(** [TARGET] and what has been printed. *)
Record evidence := mkEvidence { target : Target; log : list event }.

Definition say (e : event) (v : evidence) : evidence := mkEvidence (target v) (log v ++ [e]).
Definition put (t : Target) (v : evidence) : evidence := mkEvidence t (log v).

Definition set_invalid (t : Target) : Target :=
  mkTarget (active t) true (pid t) (cr3 t) (intervals t) (interval_count t) (entry t) (sequence t) (round_trips t)
    (saw_user_return t) (saw_switch_out t).
Definition next_sequence (t : Target) : Target :=
  mkTarget (active t) (invalid t) (pid t) (cr3 t) (intervals t) (interval_count t) (entry t) (u64 (sequence t + 1)) (round_trips t)
    (saw_user_return t) (saw_switch_out t).
Definition set_seen (user out : bool) (trips : Z) (t : Target) : Target :=
  mkTarget (active t) (invalid t) (pid t) (cr3 t) (intervals t) (interval_count t) (entry t) (sequence t) trips user out.

Definition fail (e : event) (v : evidence) : evidence := say e (put (set_invalid (target v)) v).

Definition register_target (p c : Z) (image : list Z) (en : Z) (v : evidence) : outcome evidence :=
  parsed ← executable_intervals image;
  Ret match parsed with
  | inr Capacity => fail (InvalidCapacity p) v
  | inr Malformed => fail (InvalidNoRange p) v
  | inl (iv, count) =>
      let t := target v in
      if negb (in_intervals iv count en) then fail (InvalidEntryRange p en) v
      else if active t && (REQUIRED_ROUND_TRIPS <=? round_trips t) then v
      else if active t then fail (Conflict p (pid t) c (cr3 t)) v
      else
        say (TargetLine p c (take (Z.to_nat count) iv) en)
          (put (mkTarget true false p c iv count en 0 0 false false) v)
  end.

(** The guard common to the recording functions. *)
Definition observed (t : Target) (p : Z) : bool :=
  active t && negb (invalid t) && (round_trips t <? REQUIRED_ROUND_TRIPS) && (p =? pid t).

Definition sysret_handoff (p c ip ursp fl krsp : Z) (v : evidence) : evidence :=
  if negb (active (target v)) || invalid (target v) || negb (p =? pid (target v)) then v
  else
    let t := next_sequence (target v) in
    say (SysretLine (sequence t) (round_trips t) p c (cr3 t) ip fl ursp krsp (rip_in_intervals t ip) (ip =? entry t)) (put t v).

(** [saved] is the frame at [frame_rsp]. *)
Definition scheduled_out (p next_pid frame_rsp : Z) (saved : InterruptFrame) (active_cr3 : Z) (v : evidence) : evidence :=
  if negb (observed (target v) p) then v
  else
    let t := next_sequence (target v) in
    let range_ok := rip_in_intervals t (rip saved) in
    let t := if negb (next_pid =? pid t) then set_seen (saw_user_return t) true (round_trips t) t else t in
    say (OutLine (sequence t) (round_trips t) p next_pid active_cr3 (rip saved) (cs saved) (ss saved) (rflags saved)
           (user_rsp saved) frame_rsp range_ok) (put t v).

Definition scheduled_in (p previous_pid frame_rsp : Z) (restored : InterruptFrame) (active_cr3 : Z) (v : evidence) : evidence :=
  if negb (observed (target v) p) then v
  else
    let t := target v in
    let range_ok := rip_in_intervals t (rip restored) in
    let t := if negb (previous_pid =? pid t) && saw_switch_out t && saw_user_return t
             then set_seen false false (Z.min (round_trips t + 1) U64_MAX) t else t in
    let t := next_sequence t in
    say (InLine (sequence t) (round_trips t) p previous_pid active_cr3 (cr3 t) (rip restored) (cs restored) (ss restored)
           (rflags restored) (user_rsp restored) frame_rsp range_ok) (put t v).

Definition user_return (p : Z) (f : InterruptFrame) (active_cr3 : Z) (v : evidence) : evidence :=
  if negb (observed (target v) p) || negb (Z.land (cs f) 3 =? 3) || negb (Z.land (ss f) 3 =? 3) then v
  else
    let t := target v in
    let t := next_sequence (set_seen true (saw_switch_out t) (round_trips t) t) in
    say (UserLine (sequence t) (round_trips t) p active_cr3 (rip f) (cs f) (ss f) (rflags f) (user_rsp f)
           (rip_in_intervals t (rip f))) (put t v).
