(* ===== verification/EvidenceSpec.v ===== *)
(** * What the scheduler evidence shows

    The table of ranges holds exactly the addresses of the executable segments, as separate
    ranges in order, and a program that the loader accepts is accepted as the target of an
    observation.  A recorded round trip stands for a stretch of the log in which the target
    was taken off the processor, came back from user mode and was resumed. *)

From Stdlib Require Import ZArith Lia.
From stdpp Require Import base numbers list list_numbers option relations.
From S2P Require Import Prelude UserMem Elf ElfCheck Interrupts Evidence.

Local Open Scope Z_scope.

(** ** Ranges as sets of addresses *)

#[global] Instance interval_elem : ElemOf Z ExecInterval := λ x r, lo r ≤ x < hi r.

Lemma in_interval_spec x r : in_interval x r = true ↔ x ∈ r.
Proof. unfold in_interval, elem_of, interval_elem. rewrite andb_true_iff, Z.leb_le, Z.ltb_lt. done. Qed.

(** [x] lies in one of the ranges. *)
Definition covers (l : list ExecInterval) (x : Z) : Prop := ∃ r, r ∈ l ∧ x ∈ r.

Lemma covers_nil x : ¬ covers [] x.
Proof. by intros (r & ?%not_elem_of_nil & _). Qed.
Lemma covers_cons r l x : covers (r :: l) x ↔ x ∈ r ∨ covers l x.
Proof. unfold covers. setoid_rewrite elem_of_cons. naive_solver. Qed.
Lemma covers_app l l' x : covers (l ++ l') x ↔ covers l x ∨ covers l' x.
Proof. unfold covers. setoid_rewrite elem_of_app. naive_solver. Qed.

Lemma in_intervals_spec iv count x : in_intervals iv count x = true ↔ covers (take (Z.to_nat count) iv) x.
Proof.
  unfold in_intervals, covers. rewrite existsb_exists. setoid_rewrite in_interval_spec.
  setoid_rewrite list_elem_of_In. done.
Qed.

(** Ranges that are not empty, in order, and do not touch. *)
Fixpoint apart_from (b : Z) (l : list ExecInterval) : Prop :=
  match l with
  | [] => True
  | r :: l => b < lo r ∧ lo r < hi r ∧ apart_from (hi r) l
  end.
Definition separate (l : list ExecInterval) : Prop :=
  match l with [] => True | r :: l => lo r < hi r ∧ apart_from (hi r) l end.

Lemma apart_weaken b b' l : b' ≤ b → apart_from b l → apart_from b' l.
Proof. destruct l as [|r l]; cbn; [done|]. intros ? (? & ? & ?). split_and!; [lia|done..]. Qed.

Lemma separate_apart b l : apart_from b l → separate l.
Proof. destruct l; cbn; naive_solver. Qed.

Lemma apart_lo b l r : apart_from b l → r ∈ l → b < lo r ∧ lo r < hi r.
Proof.
  revert b. induction l as [|r' l IH]; intros b H; [by intros ?%not_elem_of_nil|].
  destruct H as (Hb & Hr & Hl). intros [->|Hin]%elem_of_cons; [done|]. destruct (IH _ Hl Hin). lia.
Qed.

(** ** Entering a range in a list *)

Fixpoint absorb (l h : Z) (t : list ExecInterval) : list ExecInterval :=
  match t with
  | [] => [mkInterval l h]
  | x :: t => if lo x <=? h then absorb (Z.min l (lo x)) (Z.max h (hi x)) t else mkInterval l h :: x :: t
  end.

Fixpoint insert_range (l h : Z) (t : list ExecInterval) : list ExecInterval :=
  match t with
  | [] => [mkInterval l h]
  | x :: t' => if hi x <? l then x :: insert_range l h t' else absorb l h t
  end.

(** The first range of [t], if any, reaches to [l]. *)
Definition meets (l : Z) (t : list ExecInterval) : Prop := ∀ r, head t = Some r → l ≤ hi r.

Lemma meets_tail l r t : apart_from (hi r) t → l ≤ hi r → meets (Z.min l (lo r)) t.
Proof. destruct t as [|x t]; [done|]. intros (? & ? & _) ? ? [= <-]. lia. Qed.

Lemma absorb_covers t : ∀ l h x, l < h → separate t → meets l t → covers (absorb l h t) x ↔ l ≤ x < h ∨ covers t x.
Proof.
  induction t as [|r t IH]; intros l h x Hlh Ht Hm; cbn [absorb].
  { rewrite covers_cons. unfold elem_of, interval_elem. cbn. pose proof (covers_nil x). tauto. }
  destruct Ht as [Hr Hrt]. specialize (Hm r eq_refl). destruct (Z.leb_spec (lo r) h).
  - rewrite IH; [|lia|by eapply separate_apart|by apply meets_tail]. rewrite covers_cons. unfold elem_of, interval_elem.
    assert (Z.min l (lo r) ≤ x < Z.max h (hi r) ↔ l ≤ x < h ∨ lo r ≤ x < hi r) as -> by lia. tauto.
  - rewrite !covers_cons. unfold elem_of at 1, interval_elem. cbn. tauto.
Qed.

Lemma absorb_apart t b : ∀ l h, l < h → b < l → apart_from b t → meets l t → apart_from b (absorb l h t).
Proof.
  induction t as [|r t IH]; intros l h Hlh Hb Ht Hm; cbn [absorb]; [cbn; lia|].
  destruct Ht as (Hbr & Hr & Hrt). specialize (Hm r eq_refl). destruct (Z.leb_spec (lo r) h).
  - apply IH; [lia|lia|by eapply apart_weaken; [|exact Hrt]; lia|by apply meets_tail].
  - cbn. split_and!; [lia|lia|lia|done|done].
Qed.

Lemma insert_covers t : ∀ l h x, l < h → separate t → covers (insert_range l h t) x ↔ l ≤ x < h ∨ covers t x.
Proof.
  induction t as [|r t IH]; intros l h x Hlh Ht; cbn [insert_range]; [by apply (absorb_covers [])|].
  destruct (Z.ltb_spec (hi r) l).
  - rewrite !covers_cons, IH; [tauto|done|]. destruct Ht. by eapply separate_apart.
  - apply absorb_covers; [done..|]. by intros ? [= <-].
Qed.

Lemma insert_apart t : ∀ b l h, l < h → b < l → apart_from b t → apart_from b (insert_range l h t).
Proof.
  induction t as [|r t IH]; intros b l h Hlh Hb Ht; cbn [insert_range]; [by apply (absorb_apart [])|].
  destruct (Z.ltb_spec (hi r) l).
  - destruct Ht as (? & ? & ?). cbn. split_and!; [done|done|]. apply IH; [lia|lia|done].
  - apply absorb_apart; [done..|]. by intros ? [= <-].
Qed.

Lemma insert_separate t l h : l < h → separate t → separate (insert_range l h t).
Proof.
  intros Hlh Ht. apply (separate_apart (match t with [] => l | r :: _ => Z.min l (lo r) end - 1)).
  apply insert_apart; [done|destruct t; lia|]. destruct t as [|r t]; [done|]. destruct Ht. cbn. split_and!; [lia|done|done].
Qed.

(** ** The table implements the list *)

Lemma index_app {A} (l : list A) x l' i : i = Z.of_nat (length l) → index (l ++ x :: l') i = Ret x.
Proof. intros ->. apply index_ret. by rewrite Nat2Z.id, list_lookup_middle. Qed.

Lemma find_first_ret l n : ∀ iv k, 0 ≤ k → (Z.to_nat k + n ≤ length iv)%nat → let t := take n (drop (Z.to_nat k) iv) in
  ∃ j, (j ≤ n)%nat ∧ find_first iv l k n = Ret (k + Z.of_nat j) ∧ (∀ h, insert_range l h t = take j t ++ absorb l h (drop j t)) ∧
    meets l (drop j t).
Proof.
  induction n as [|n IH]; intros iv k Hk Hn t; cbn [find_first].
  { exists O. subst t. rewrite Z.add_0_r. done. }
  destruct (lookup_lt_is_Some_2 iv (Z.to_nat k)) as [x Hx]; [lia|]. rewrite (index_ret _ _ x Hx). cbn [mbind outcome_bind].
  assert (t = x :: take n (drop (Z.to_nat (k + 1)) iv)) as -> by (subst t; rewrite (drop_S iv x) by done; by replace (Z.to_nat (k + 1)) with (S (Z.to_nat k)) by lia).
  cbn [insert_range]. destruct (Z.ltb_spec (hi x) l).
  - destruct (IH iv (k + 1)) as (j & Hj & -> & Hi & Hm); [lia|lia|]. exists (S j). split; [lia|]. split; [f_equal; lia|].
    split; [|done]. intros h. by rewrite Hi.
  - exists O. split; [lia|]. split; [f_equal; lia|]. split; [done|]. by intros r [= <-].
Qed.

Lemma merge_from_ret n : ∀ iv l h k, 0 ≤ k → (Z.to_nat k + n ≤ length iv)%nat → let t := take n (drop (Z.to_nat k) iv) in
  ∃ j l' h', (j ≤ n)%nat ∧ merge_from iv l h k n = Ret (l', h', k + Z.of_nat j) ∧ absorb l h t = mkInterval l' h' :: drop j t.
Proof.
  induction n as [|n IH]; intros iv l h k Hk Hn t; cbn [merge_from].
  { exists O, l, h. subst t. rewrite Z.add_0_r. done. }
  destruct (lookup_lt_is_Some_2 iv (Z.to_nat k)) as [x Hx]; [lia|]. rewrite (index_ret _ _ x Hx). cbn [mbind outcome_bind].
  assert (t = x :: take n (drop (Z.to_nat (k + 1)) iv)) as -> by (subst t; rewrite (drop_S iv x) by done; by replace (Z.to_nat (k + 1)) with (S (Z.to_nat k)) by lia).
  cbn [absorb]. destruct (Z.leb_spec (lo x) h).
  - destruct (IH iv (Z.min l (lo x)) (Z.max h (hi x)) (k + 1)) as (j & l' & h' & Hj & -> & Ha); [lia|lia|].
    exists (S j), l', h'. split; [lia|]. split; [do 2 f_equal; lia|]. by rewrite Ha.
  - exists O, l, h. split; [lia|]. split; [do 2 f_equal; lia|]. done.
Qed.

Lemma shift_up_ret B : ∀ A y C, ∃ z, shift_up (A ++ B ++ y :: C) (Z.of_nat (length A)) (length B) = Ret (A ++ z :: B ++ C).
Proof.
  induction B as [|b B IH] using rev_ind; intros A y C; [by exists y|].
  rewrite length_app, Nat.add_1_r. cbn [shift_up].
  replace (A ++ (B ++ [b]) ++ y :: C) with ((A ++ B) ++ b :: y :: C) by (by rewrite <- !app_assoc).
  rewrite index_app by (rewrite length_app; lia). cbn [mbind outcome_bind].
  replace ((A ++ B) ++ b :: y :: C) with ((A ++ B ++ [b]) ++ y :: C) by (by rewrite <- !app_assoc).
  rewrite store_app by (rewrite !length_app; cbn; lia). cbn [mbind outcome_bind].
  destruct (IH A b (b :: C)) as [z Hz]. exists z. rewrite <- !app_assoc. cbn [app] in *. exact Hz.
Qed.

Lemma shift_down_ret B : ∀ A D C, ∃ D', length D' = length D ∧
  shift_down (A ++ D ++ B ++ C) (Z.of_nat (length A + length D)) (Z.of_nat (length D)) (length B) = Ret (A ++ B ++ D' ++ C).
Proof.
  induction B as [|b B IH]; intros A D C; [by exists D|]. cbn [shift_down length].
  assert (∃ D1, length D1 = length D ∧ A ++ D ++ (b :: B) ++ C = (A ++ D) ++ b :: B ++ C ∧
    store (A ++ D ++ (b :: B) ++ C) (Z.of_nat (length A)) b = Ret ((A ++ [b]) ++ D1 ++ B ++ C)) as (D1 & HD & E & Hs).
  { destruct D as [|d D]; [exists []|exists (D ++ [b])]; rewrite ?length_app; cbn [app length]; (split; [lia|]); rewrite <- ?app_assoc;
      (split; [done|]); by rewrite store_app. }
  assert (index (A ++ D ++ (b :: B) ++ C) (Z.of_nat (length A + length D)) = Ret b) as ->.
  { rewrite E. apply index_app. by rewrite length_app. } cbn [mbind outcome_bind].
  replace (Z.of_nat (length A + length D) - Z.of_nat (length D)) with (Z.of_nat (length A)) by lia.
  rewrite Hs. cbn [mbind outcome_bind]. destruct (IH (A ++ [b]) D1 C) as (D' & HD' & Hr). exists D'. split; [lia|].
  rewrite HD in Hr. rewrite length_app in Hr. cbn [length] in Hr.
  replace (Z.of_nat (length A + length D) + 1) with (Z.of_nat (length A + 1 + length D)) by lia. rewrite Hr. by rewrite <- app_assoc.
Qed.

(** The table with [count] entries in use holds the list [t]. *)
Definition holds (iv : list ExecInterval) (count : Z) (t : list ExecInterval) : Prop :=
  Z.of_nat (length iv) = MAX_EXEC_INTERVALS ∧ 0 ≤ count ≤ MAX_EXEC_INTERVALS ∧ take (Z.to_nat count) iv = t.

Lemma holds_app t C : Z.of_nat (length t + length C) = MAX_EXEC_INTERVALS → holds (t ++ C) (Z.of_nat (length t)) t.
Proof. intros H. split; [by rewrite length_app|]. split; [lia|]. by rewrite Nat2Z.id, take_app_length. Qed.

(** Entering a range fails only when the result would need a 65th place. *)
Lemma add_interval_ret iv count t r : holds iv count t → ∃ o, add_interval iv count r = Ret o ∧
  let t' := insert_range (lo r) (hi r) t in
  match o with
  | Some (iv', count') => holds iv' count' t'
  | None => Z.of_nat (length t') = MAX_EXEC_INTERVALS + 1
  end.
Proof.
  intros (Hlen & Hc & Ht). unfold add_interval.
  destruct (find_first_ret (lo r) (Z.to_nat count) iv 0) as (j & Hj & -> & Hins & _); [lia|lia|]. change (drop (Z.to_nat 0) iv) with iv in Hins.
  rewrite Ht in Hins. cbn [mbind outcome_bind]. rewrite Z.add_0_l.
  assert (length t = Z.to_nat count) as Hlt by (rewrite <- Ht, length_take; lia).
  assert (iv = t ++ drop (Z.to_nat count) iv) as Eiv by (rewrite <- Ht; by rewrite take_drop).
  set (C := drop (Z.to_nat count) iv) in *. clearbody C.
  assert (take (Z.to_nat (count - Z.of_nat j)) (drop (Z.to_nat (Z.of_nat j)) iv) = drop j t) as Edr.
  { rewrite Nat2Z.id, <- Ht, skipn_firstn_comm. f_equal. lia. }
  destruct (merge_from_ret (Z.to_nat (count - Z.of_nat j)) iv (lo r) (hi r) (Z.of_nat j)) as (k & l' & h' & Hk & -> & Habs); [lia|lia|].
  rewrite Edr in Habs. cbn [mbind outcome_bind]. rewrite Hins, Habs. rewrite drop_drop.
  assert (length (take j t) = j) as Hlj by (rewrite length_take; lia).
  destruct (Z.eqb_spec (Z.of_nat j) (Z.of_nat j + Z.of_nat k)) as [E|E].
  - assert (k = O) as -> by lia. rewrite Nat.add_0_r. destruct (Z.eqb_spec count MAX_EXEC_INTERVALS) as [Ec|Ec].
    + exists None. split; [done|]. cbv zeta. rewrite length_app. cbn [length]. rewrite length_drop, Hlj. lia.
    + destruct C as [|y C]; [rewrite app_nil_r in Eiv; subst iv; lia|].
      destruct (shift_up_ret (drop j t) (take j t) y C) as [z Hz]. rewrite app_assoc, take_drop, <- Eiv, Hlj, length_drop in Hz.
      replace (Z.to_nat (count - Z.of_nat j)) with (length t - j)%nat by lia. rewrite Hz. cbn [mbind outcome_bind].
      rewrite store_app by lia. cbn [mbind outcome_bind]. eexists. split; [done|]. cbv zeta.
      replace (take j t ++ mkInterval l' h' :: drop j t ++ C) with ((take j t ++ mkInterval l' h' :: drop j t) ++ C) by (by rewrite <- app_assoc).
      assert (length (take j t ++ mkInterval l' h' :: drop j t) = S (length t)) as Hl' by (rewrite length_app; cbn [length]; rewrite length_drop; lia).
      replace (count + 1) with (Z.of_nat (length (take j t ++ mkInterval l' h' :: drop j t))) by lia.
      apply holds_app. subst iv. rewrite length_app in Hlen. cbn [length] in Hlen. lia.
  - destruct k as [|k]; [lia|]. set (q := take (S k) (drop j t)). assert (length q = S k) as Hq by (subst q; rewrite length_take, length_drop; lia).
    assert (t = take j t ++ q ++ drop (j + S k) t) as Et by (subst q; by rewrite <- drop_drop, take_drop, take_drop).
    destruct q as [|x q]; [done|]. assert (iv = take j t ++ x :: (q ++ drop (j + S k) t ++ C)) as Eiv'.
    { etransitivity; [exact Eiv|]. etransitivity; [exact (f_equal (λ y, y ++ C) Et)|]. by rewrite <- app_assoc; cbn; rewrite <- app_assoc. }
    assert (store iv (Z.of_nat j) (mkInterval l' h') = Ret (take j t ++ mkInterval l' h' :: (q ++ drop (j + S k) t ++ C))) as ->
      by (rewrite Eiv'; apply store_app; lia).
    cbn [mbind outcome_bind].
    destruct (shift_down_ret (drop (j + S k) t) (take j t ++ [mkInterval l' h']) q C) as (D & HD & Hs).
    rewrite length_app, Hlj, length_drop in Hs. cbn [length] in Hs, Hq. rewrite <- app_assoc in Hs. cbn [app] in Hs.
    replace (Z.of_nat j + Z.of_nat (S k)) with (Z.of_nat (j + 1 + length q)) by lia.
    replace (Z.of_nat (j + 1 + length q) - Z.of_nat j - 1) with (Z.of_nat (length q)) by lia.
    replace (Z.to_nat (count - Z.of_nat (j + 1 + length q))) with (length t - (j + S k))%nat by lia. rewrite Hs. cbn [mbind outcome_bind].
    eexists. split; [done|]. cbv zeta.
    replace ((take j t ++ [mkInterval l' h']) ++ drop (j + S k) t ++ D ++ C) with ((take j t ++ mkInterval l' h' :: drop (j + S k) t) ++ D ++ C) by (by rewrite <- !app_assoc).
    assert (length (take j t ++ mkInterval l' h' :: drop (j + S k) t) = (length t - k)%nat) as Hl' by (rewrite length_app; cbn [length]; rewrite length_drop; lia).
    replace (count - Z.of_nat (length q)) with (Z.of_nat (length (take j t ++ mkInterval l' h' :: drop (j + S k) t))) by lia.
    apply holds_app. rewrite Eiv in Hlen. rewrite !length_app in *. cbn [length] in *. rewrite length_drop. lia.
Qed.

(** ** All program headers *)

(** The ranges of the executable segments among the first [k] program headers. *)
Definition exec_segments_to (data : list Z) (phoff phentsize k : Z) : option (list ExecInterval) :=
  rs ← mapM (exec_range data phoff phentsize) (seqZ 0 k); Some (omap id rs).

Definition exec_segments (data : list Z) : option (list ExecInterval) :=
  '(phoff, phentsize, phnum) ← exec_header data; exec_segments_to data phoff phentsize phnum.

Lemma mapM_snoc {A B} (f : A → option B) l x : mapM f (l ++ [x]) = (ys ← mapM f l; y ← f x; Some (ys ++ [y])).
Proof.
  induction l as [|a l IH]; cbn; [by destruct (f x)|]. destruct (f a); [|done]. cbn in *. rewrite IH.
  destruct (mapM f l); [|done]. cbn. by destruct (f x).
Qed.

Lemma segments_step data phoff sz k segs : 0 ≤ k → exec_segments_to data phoff sz k = Some segs →
  exec_segments_to data phoff sz (k + 1) = (r ← exec_range data phoff sz k; Some (segs ++ omap id [r])).
Proof.
  intros Hk. unfold exec_segments_to. rewrite seqZ_app by lia.
  replace (seqZ (0 + k) 1) with [k] by (rewrite seqZ_cons by lia; cbn; f_equal; lia). rewrite mapM_snoc. cbn. destruct (mapM _ (seqZ 0 k)) as [rs|]; [|done]. cbn. intros [= <-].
  destruct (exec_range data phoff sz k) as [r|]; [|done]. cbn. by rewrite omap_app.
Qed.

Lemma segments_none data phoff sz k n : 0 ≤ k < n → exec_range data phoff sz k = None → exec_segments_to data phoff sz n = None.
Proof.
  intros Hk E. unfold exec_segments_to. destruct (mapM _ (seqZ 0 n)) as [rs|] eqn:Em; [|done]. exfalso.
  apply mapM_Some in Em. destruct (Forall2_lookup_l _ _ _ (Z.to_nat k) k Em) as (y & _ & Hy); [|congruence].
  apply lookup_seqZ. lia.
Qed.

Lemma exec_range_order data phoff sz i r : exec_range data phoff sz i = Some (Some r) → lo r < hi r.
Proof. unfold exec_range. intros H. repeat (case_match || simplify_option_eq); bool_arith; cbn; lia. Qed.

(** The list [t] stands for the segments [segs]. *)
Record stands_for (t segs : list ExecInterval) : Prop := {
  sf_separate : separate t;
  sf_covers : ∀ x, covers t x ↔ covers segs x;
  sf_length : (length t ≤ length segs)%nat
}.

Lemma absorb_length t : ∀ l h, (length (absorb l h t) ≤ S (length t))%nat.
Proof. induction t as [|r t IH]; intros l h; cbn [absorb length]; [lia|]. case_match; [|cbn; lia]. specialize (IH (Z.min l (lo r)) (Z.max h (hi r))). lia. Qed.

Lemma insert_length t l h : (length (insert_range l h t) ≤ S (length t))%nat.
Proof.
  induction t as [|r t IH]; cbn [insert_range length]; [lia|]. case_match; [cbn; lia|]. apply (absorb_length (r :: t)).
Qed.

Lemma stands_insert t segs r : stands_for t segs → lo r < hi r → stands_for (insert_range (lo r) (hi r) t) (segs ++ [r]).
Proof.
  intros [Hs Hc Hl] Hr. split; [by apply insert_separate| |].
  - intros x. rewrite insert_covers, covers_app, covers_cons, Hc by done. pose proof (covers_nil x). unfold elem_of, interval_elem. tauto.
  - rewrite length_app. pose proof (insert_length t (lo r) (hi r)). cbn. lia.
Qed.

(** The loop over the headers. *)
Lemma collect_ret data phoff sz n : ∀ iv count i t segs, 0 ≤ i → holds iv count t → stands_for t segs →
  exec_segments_to data phoff sz i = Some segs →
  ∃ r, collect data phoff sz iv count i n = Ret r ∧
    match r with
    | inl (iv', count') => ∃ t' segs', exec_segments_to data phoff sz (i + Z.of_nat n) = Some segs' ∧
        holds iv' count' t' ∧ stands_for t' segs'
    | inr Malformed => exec_segments_to data phoff sz (i + Z.of_nat n) = None
    | inr Capacity => ∃ k t' segs', k ≤ i + Z.of_nat n ∧ exec_segments_to data phoff sz k = Some segs' ∧
        Z.of_nat (length t') = MAX_EXEC_INTERVALS + 1 ∧ stands_for t' segs'
    end.
Proof.
  induction n as [|n IH]; intros iv count i t segs Hi Hh Hst Hsegs; cbn [collect].
  { eexists. split; [done|]. rewrite Z.add_0_r. eauto. }
  pose proof (segments_step data phoff sz i segs Hi Hsegs) as Hstep.
  replace (i + Z.of_nat (S n)) with (i + 1 + Z.of_nat n) by lia.
  destruct (exec_range data phoff sz i) as [[r|]|] eqn:Er.
  - destruct (add_interval_ret iv count t r Hh) as (o & -> & Ho). cbn [mbind outcome_bind]. cbn in Hstep.
    pose proof (stands_insert t segs r Hst (exec_range_order _ _ _ _ _ Er)) as Hst'. destruct o as [[iv' count']|].
    + apply (IH iv' count' (i + 1) (insert_range (lo r) (hi r) t) (segs ++ [r])); [lia|done..].
    + eexists. split; [done|]. exists (i + 1), (insert_range (lo r) (hi r) t), (segs ++ [r]). split; [lia|done].
  - apply (IH iv count (i + 1) t segs); [lia|done|done|]. rewrite Hstep. cbn. by rewrite app_nil_r.
  - eexists. split; [done|]. apply (segments_none _ _ _ i); [lia|done].
Qed.

Lemma stands_nil t segs : stands_for t segs → t = [] → Forall (λ r, lo r < hi r) segs → segs = [].
Proof.
  intros [_ Hc _] -> Hf. destruct segs as [|r segs]; [done|]. exfalso. apply Forall_cons in Hf as [Hr _].
  apply (covers_nil (lo r)), Hc, covers_cons. left. unfold elem_of, interval_elem. lia.
Qed.

Lemma segments_order data phoff sz k segs : exec_segments_to data phoff sz k = Some segs → Forall (λ r, lo r < hi r) segs.
Proof.
  unfold exec_segments_to. destruct (mapM _ _) as [rs|] eqn:E; [|done]. cbn. intros [= <-]. apply mapM_Some in E.
  apply Forall_forall. intros r ([r'|] & Hin & [= ->])%list_elem_of_omap. apply list_elem_of_lookup in Hin as [j Hj].
  destruct (Forall2_lookup_r _ _ _ _ _ E Hj) as (i & _ & Hr). by eapply exec_range_order.
Qed.

Lemma read_le_range n data off x : Forall is_byte data → read_le n data off = Some x → 0 ≤ x.
Proof.
  intros Hb. unfold read_le. destruct (checked_add _ _); [|done]. cbn. case_match; [|done]. intros [= <-].
  apply le_value_range. by apply Forall_take, Forall_drop.
Qed.

Lemma exec_header_num data phoff sz num : Forall is_byte data → exec_header data = Some (phoff, sz, num) →
  0 ≤ phoff ∧ 0 ≤ sz ∧ 0 ≤ num.
Proof.
  intros Hb. unfold exec_header. case_match; [done|]. destruct (read_u64 data 32) eqn:E1; [|done].
  destruct (read_u16 data 54) eqn:E2; [|done]. destruct (read_u16 data 56) eqn:E3; [|done]. cbn. case_match; [done|].
  intros [= <- <- <-]. split_and!; by eapply read_le_range.
Qed.

(** The decision on the whole file, for use in other proofs. *)
Lemma intervals_ret data : Forall is_byte data → ∃ r, executable_intervals data = Ret r ∧
  match r with
  | inl (iv, count) => ∃ segs, exec_segments data = Some segs ∧ segs ≠ [] ∧ 0 < count ≤ MAX_EXEC_INTERVALS ∧
      Z.of_nat (length iv) = MAX_EXEC_INTERVALS ∧ separate (take (Z.to_nat count) iv) ∧
      ∀ x, in_intervals iv count x = true ↔ covers segs x
  | inr Malformed => exec_segments data = None ∨ exec_segments data = Some []
  | inr Capacity => ∃ phoff phentsize phnum k t segs, exec_header data = Some (phoff, phentsize, phnum) ∧ k ≤ phnum ∧
      exec_segments_to data phoff phentsize k = Some segs ∧ stands_for t segs ∧ Z.of_nat (length t) = MAX_EXEC_INTERVALS + 1
  end.
Proof.
  intros Hb. unfold executable_intervals, exec_segments. destruct (exec_header data) as [[[phoff sz] num]|] eqn:Eh.
  2: { eexists. split; [done|]. by left. }
  cbn [mbind option_bind].
  assert (0 ≤ num) as Hnum.
  { apply exec_header_num in Eh; [lia|done]. }
  destruct (collect_ret data phoff sz (Z.to_nat num) (replicate (Z.to_nat MAX_EXEC_INTERVALS) EMPTY_INTERVAL) 0 0 [] [])
    as (r & -> & Hr); [done|split; [done|]; split; done|by split|done|].
  cbn [mbind outcome_bind]. rewrite Z.add_0_l, Z2Nat.id in Hr by done. destruct r as [[iv count]|[]].
  - destruct Hr as (t & segs & Hs & (Hlen & Hc & Ht) & Hst). pose proof (segments_order _ _ _ _ _ Hs) as Hord.
    destruct (Z.eqb_spec count 0) as [->|Hne].
    + eexists. split; [done|]. right. rewrite Hs. f_equal. by apply (stands_nil t).
    + eexists. split; [done|]. exists segs. split; [done|]. split.
      { intros ->. destruct Hst as [_ _ Hl]. destruct t as [|]; [|cbn in Hl; lia]. destruct iv; [done|].
        destruct (Z.to_nat count) eqn:E; [lia|done]. }
      split; [lia|]. split; [done|]. rewrite Ht. split; [apply Hst|]. intros x. rewrite in_intervals_spec, Ht. apply Hst.
  - eexists. split; [done|]. by left.
  - destruct Hr as (k & t & segs & Hk & Hs & Hl & Hst). eexists. split; [done|]. exists phoff, sz, num, k, t, segs. done.
Qed.

(** ** Round trips *)

Inductive ev_step : evidence → evidence → Prop :=
| ev_register p c image en v v' : Forall is_byte image → register_target p c image en v = Ret v' → ev_step v v'
| ev_sysret p c ip ursp fl krsp v : ev_step v (sysret_handoff p c ip ursp fl krsp v)
| ev_out p next rsp f c v : ev_step v (scheduled_out p next rsp f c v)
| ev_in p prev rsp f c v : ev_step v (scheduled_in p prev rsp f c v)
| ev_user p f c v : ev_step v (user_return p f c v).

Definition ev_start : evidence := mkEvidence EMPTY_TARGET [].

(** The number a recorded line carries. *)
Definition seq_of (e : event) : option Z :=
  match e with
  | SysretLine seq _ _ _ _ _ _ _ _ _ _ | OutLine seq _ _ _ _ _ _ _ _ _ _ _ | InLine seq _ _ _ _ _ _ _ _ _ _ _ _
  | UserLine seq _ _ _ _ _ _ _ _ _ => Some seq
  | _ => None
  end.

Definition left_for_other (p : Z) (e : event) : Prop :=
  match e with OutLine _ _ p' next _ _ _ _ _ _ _ _ => p' = p ∧ next ≠ p | _ => False end.
Definition back_from_other (p : Z) (e : event) : Prop :=
  match e with InLine _ _ p' prev _ _ _ _ _ _ _ _ _ => p' = p ∧ prev ≠ p | _ => False end.
Definition seen_in_user (p : Z) (e : event) : Prop :=
  match e with UserLine _ _ p' _ _ cs ss _ _ _ => p' = p ∧ Z.land cs 3 = 3 ∧ Z.land ss 3 = 3 | _ => False end.

(** A stretch of the log in which [p] left the processor to another process and was seen in
    user mode, and which ends when it is resumed after another process. *)
Definition is_trip (p : Z) (l : list event) : Prop :=
  ∃ body e, l = body ++ [e] ∧ back_from_other p e ∧ Exists (left_for_other p) body ∧ Exists (seen_in_user p) body.

(** The recorded lines carry the numbers 1, 2, 3, ... *)
Definition numbered (l : list event) (n : Z) : Prop := omap seq_of l = u64 <$> seqZ 1 n ∧ 0 ≤ n.

Record observation (v : evidence) (pre : list event) (trips : list (list event)) (rest : list event) : Prop := {
  ob_log : ∃ c iv en, log v = pre ++ TargetLine (pid (target v)) c iv en :: mjoin trips ++ rest ∧ separate iv ∧ covers iv en;
  ob_trips : Z.of_nat (length trips) = round_trips (target v);
  ob_is : Forall (is_trip (pid (target v))) trips;
  ob_number : ∃ n, numbered (mjoin trips ++ rest) n ∧ sequence (target v) = u64 n;
  ob_out : saw_switch_out (target v) = true → Exists (left_for_other (pid (target v))) rest;
  ob_user : saw_user_return (target v) = true → Exists (seen_in_user (pid (target v))) rest;
  ob_bound : round_trips (target v) ≤ REQUIRED_ROUND_TRIPS
}.

Lemma numbered_skip l e n : seq_of e = None → numbered l n → numbered (l ++ [e]) n.
Proof. intros E [H Hn]. split; [|done]. rewrite omap_app. cbn. by rewrite E, app_nil_r. Qed.

Lemma numbered_snoc l e n k : k = u64 n → seq_of e = Some (u64 (k + 1)) → numbered l n →
  numbered (l ++ [e]) (n + 1) ∧ u64 (k + 1) = u64 (n + 1).
Proof.
  intros -> E [H Hn].
  assert (u64 (u64 n + 1) = u64 (n + 1)) as Eu by (unfold u64; by rewrite Zplus_mod_idemp_l). split; [|done]. split; [|lia].
  rewrite omap_app, H, seqZ_app by lia. rewrite fmap_app. f_equal. cbn. rewrite E, Eu.
  replace (seqZ (1 + n) 1) with [n + 1] by (rewrite seqZ_cons by lia; cbn; f_equal; lia). done.
Qed.

(** Another line is printed for the same target. *)
Record same_target (v v' : evidence) (e : event) : Prop := {
  st_log : log v' = log v ++ [e];
  st_pid : pid (target v') = pid (target v)
}.

Lemma observation_say v v' e pre trips rest : observation v pre trips rest → same_target v v' e →
  round_trips (target v') = round_trips (target v) →
  (seq_of e = None ∧ sequence (target v') = sequence (target v) ∨
   seq_of e = Some (sequence (target v')) ∧ sequence (target v') = u64 (sequence (target v) + 1)) →
  (saw_switch_out (target v') = true → saw_switch_out (target v) = true ∨ left_for_other (pid (target v)) e) →
  (saw_user_return (target v') = true → saw_user_return (target v) = true ∨ seen_in_user (pid (target v)) e) →
  observation v' pre trips (rest ++ [e]).
Proof.
  intros [(c & iv & en & Hlog & Hiv & Hen) Ht Hi (n & Hn & Hs) Ho Hu Hb] [El Ep] Er Hseq Hout Huser.
  split; rewrite ?Ep, ?Er; try done.
  - exists c, iv, en. rewrite El, Hlog. split; [|done]. rewrite <- app_assoc. cbn. by rewrite <- app_assoc.
  - rewrite app_assoc. destruct Hseq as [[E1 E2]|[E1 E2]].
    + exists n. split; [by apply numbered_skip|congruence].
    + rewrite E2 in E1. destruct (numbered_snoc _ e n _ Hs E1 Hn) as [Hn' E]. exists (n + 1). split; [done|congruence].
  - intros [H|H]%Hout; apply Exists_app; [left; by apply Ho|right; by apply Exists_cons; left].
  - intros [H|H]%Huser; apply Exists_app; [left; by apply Hu|right; by apply Exists_cons; left].
Qed.

(** The line completes a round trip. *)
Lemma observation_trip v v' e pre trips rest : observation v pre trips rest → same_target v v' e →
  round_trips (target v) < REQUIRED_ROUND_TRIPS → round_trips (target v') = round_trips (target v) + 1 →
  seq_of e = Some (sequence (target v')) → sequence (target v') = u64 (sequence (target v) + 1) →
  back_from_other (pid (target v)) e → saw_switch_out (target v) = true → saw_user_return (target v) = true →
  saw_switch_out (target v') = false → saw_user_return (target v') = false →
  observation v' pre (trips ++ [rest ++ [e]]) [].
Proof.
  intros [(c & iv & en & Hlog & Hiv & Hen) Ht Hi (n & Hn & Hs) Ho Hu Hb] [El Ep] Hlt Er Hseq Hsq Hback Hso Hsu Fo Fu.
  assert (mjoin (trips ++ [rest ++ [e]]) ++ [] = (mjoin trips ++ rest) ++ [e]) as Ej
    by (rewrite app_nil_r, join_app; cbn; by rewrite app_nil_r, app_assoc).
  split; rewrite ?Ep; try congruence.
  - exists c, iv, en. rewrite El, Hlog, Ej. split; [|done]. by rewrite <- !app_assoc; cbn; rewrite <- !app_assoc.
  - rewrite length_app. cbn. lia.
  - apply Forall_app. split; [done|]. apply Forall_singleton. exists rest, e. split_and!; [done|done|by apply Ho|by apply Hu].
  - rewrite Ej. rewrite Hsq in Hseq. destruct (numbered_snoc _ e n _ Hs Hseq Hn) as [Hn' E]. exists (n + 1). split; [done|congruence].
  - lia.
Qed.

Lemma fail_target e v : target (fail e v) = set_invalid (target v).
Proof. done. Qed.

Lemma observation_fail v e pre trips rest : seq_of e = None → observation v pre trips rest →
  observation (fail e v) pre trips (rest ++ [e]).
Proof. intros E H. by apply (observation_say v); [done|split|done|left|left|left]. Qed.

(** The invariant of the recorded state. *)
Definition evidence_inv (v : evidence) : Prop :=
  if active (target v) then ∃ pre trips rest, observation v pre trips rest
  else omap seq_of (log v) = [] ∧ round_trips (target v) = 0.

Lemma observed_true t p : observed t p = true → active t = true ∧ p = pid t ∧ round_trips t < REQUIRED_ROUND_TRIPS.
Proof. unfold observed. rewrite !andb_true_iff, Z.ltb_lt, Z.eqb_eq. tauto. Qed.

Lemma register_inv p c image en v v' : Forall is_byte image → evidence_inv v → register_target p c image en v = Ret v' →
  evidence_inv v'.
Proof.
  intros Hb Hv. unfold register_target. destruct (intervals_ret image Hb) as (r & -> & Hr). cbn [mbind outcome_bind]. intros [= <-].
  assert (∀ e, seq_of e = None → evidence_inv (fail e v)) as Hfail.
  { intros e He. unfold evidence_inv in *. rewrite fail_target. cbn [active set_invalid]. destruct (active (target v)).
    - destruct Hv as (pre & trips & rest & Ho). exists pre, trips, (rest ++ [e]). by apply observation_fail.
    - cbn [fail say put log target set_invalid round_trips]. rewrite omap_app. cbn. rewrite He. destruct Hv as [-> ?]. done. }
  destruct r as [[iv count]|[]]; [|by apply Hfail..].
  destruct (in_intervals iv count en) eqn:Hen; cbn [negb]; [|by apply Hfail].
  destruct (active (target v)) eqn:Ha; cbn [andb].
  - case_match; [done|by apply Hfail].
  - destruct Hr as (segs & _ & _ & _ & _ & Hsep & Hcov). unfold evidence_inv in *. rewrite Ha in Hv. cbn [say put target active].
    exists (log v), [], []. split; cbn; try done.
    + exists c, (take (Z.to_nat count) iv), en. split; [done|]. split; [done|]. by apply in_intervals_spec.
    + by exists 0.
Qed.

Lemma ev_step_inv v v' : ev_step v v' → evidence_inv v → evidence_inv v'.
Proof.
  intros Hstep Hv. destruct Hstep as [p c image en v v' Hb Hr|p c ip ursp fl krsp v|p next rsp f c v|p prev rsp f c v|p f c v].
  - by eapply register_inv.
  - unfold sysret_handoff. destruct (active (target v)) eqn:Ha; cbn [negb orb]; [|done]. case_match; [done|].
    unfold evidence_inv in *. cbn [say put target next_sequence active]. rewrite Ha in *. destruct Hv as (pre & trips & rest & Ho).
    exists pre, trips. eexists. eapply (observation_say v); [done|split; done|done|right; done|by left|by left].
  - unfold scheduled_out. destruct (observed _ p) eqn:Hob; [|done]. apply observed_true in Hob as (Ha & -> & Hlt). cbn [negb].
    unfold evidence_inv in *. rewrite Ha in Hv. destruct Hv as (pre & trips & rest & Ho). cbn [pid next_sequence].
    destruct (Z.eqb_spec next (pid (target v))); cbn [negb say put target active set_seen next_sequence]; rewrite Ha;
      exists pre, trips; eexists; (eapply (observation_say v); [done|split; done|done|right; done| |by left]); [by left|by right].
  - unfold scheduled_in. destruct (observed _ p) eqn:Hob; [|done]. apply observed_true in Hob as (Ha & -> & Hlt). cbn [negb].
    unfold evidence_inv in *. rewrite Ha in Hv. destruct Hv as (pre & trips & rest & Ho).
    destruct (negb (prev =? pid (target v)) && saw_switch_out (target v) && saw_user_return (target v)) eqn:Hc;
      cbn [say put target active set_seen next_sequence]; rewrite Ha.
    + bool_arith. exists pre. eexists _, []. eapply (observation_trip v); try done.
      cbn. pose proof (ob_trips _ _ _ _ Ho). unfold REQUIRED_ROUND_TRIPS, U64_MAX in *. lia.
    + exists pre, trips. eexists. eapply (observation_say v); [done|split; done|done|right; done|by left|by left].
  - unfold user_return. destruct (observed _ p) eqn:Hob; [|done]. apply observed_true in Hob as (Ha & -> & Hlt). cbn [negb orb].
    destruct (Z.eqb_spec (Z.land (cs f) 3) 3); [|done]. destruct (Z.eqb_spec (Z.land (ss f) 3) 3); [|done]. cbn [negb orb].
    unfold evidence_inv in *. rewrite Ha in Hv. destruct Hv as (pre & trips & rest & Ho).
    cbn [say put target active set_seen next_sequence]. rewrite Ha. exists pre, trips. eexists.
    eapply (observation_say v); [done|split; done|done|right; done|by left|]. intros _. right. done.
Qed.

Lemma ev_reachable_inv v : rtc ev_step ev_start v → evidence_inv v.
Proof.
  intros H. assert (evidence_inv ev_start) as Hs by done. revert Hs. induction H; [done|]. intros Hs. eauto using ev_step_inv.
Qed.

(** ** Files the loader accepts *)

Lemma read_le_rd n data off x : Z.of_nat (length data) ≤ U64_MAX → rd data off n = Ret x → read_le n data off = Some x.
Proof.
  intros Hl. unfold rd, read_le. destruct (Z.leb_spec 0 off); [|done]. cbn [andb].
  destruct (Z.leb_spec (off + Z.of_nat n) (Z.of_nat (length data))); [|done]. intros [= <-].
  rewrite checked_add_spec, decide_True by lia. cbn [mbind option_bind]. by rewrite (proj2 (Z.leb_le _ _)) by done.
Qed.

Section accepted.
Context (data : list Z) (ehdr : Elf64Ehdr) (Hb : Forall is_byte data) (Hl : Z.of_nat (length data) ≤ U64_MAX)
  (Hg : good_elf data ehdr).

(** The range of an executable segment that is not empty. *)
Definition seg_range (ph : Elf64Phdr) : option ExecInterval :=
  if (p_type ph =? PT_LOAD) && negb (Z.land (p_flags ph) PF_X =? 0) && negb (p_memsz ph =? 0)
  then Some (mkInterval (p_vaddr ph) (p_vaddr ph + p_memsz ph)) else None.

Lemma accepted_header : exec_header data = Some (e_phoff ehdr, e_phentsize ehdr, e_phnum ehdr).
Proof using Hg Hl.
  destruct (ge_header _ _ Hg) as [Hsz Hf Hm Hcl _ _ _ Hes _]. unfold exec_header, EHDR_SIZE, PHDR_SIZE in *.
  rewrite (proj2 (Z.ltb_ge _ _)) by lia. rewrite !bool_decide_eq_true_2 by done. cbn [negb orb].
  unfold ehdr_of in Hf. destruct (rd data 16 2); [|done..]. destruct (rd data 18 2); [|done..]. destruct (rd data 24 8); [|done..].
  destruct (rd data 32 8) as [x1| | |] eqn:E1; [|done..]. destruct (rd data 54 2) as [x2| | |] eqn:E2; [|done..].
  destruct (rd data 56 2) as [x3| | |] eqn:E3; [|done..]. cbn in Hf. injection Hf as <-. cbn in *.
  unfold read_u64, read_u16. rewrite (read_le_rd _ _ _ _ Hl E1), (read_le_rd _ _ _ _ Hl E2), (read_le_rd _ _ _ _ Hl E3).
  cbn. by rewrite (proj2 (Z.ltb_ge _ _)) by lia.
Qed.

Lemma accepted_range i : 0 ≤ i < e_phnum ehdr → ∃ ph, phdr_at data (phdr_pos ehdr i) = Ret ph ∧
  exec_range data (e_phoff ehdr) (e_phentsize ehdr) i = Some (seg_range ph).
Proof using Hb Hg Hl.
  intros Hi. pose proof (ge_header _ _ Hg) as Hh. destruct (good_header_fields _ _ Hb Hh) as (_ & Ho & _).
  destruct (phdr_offset_spec data ehdr i Hh Hl Ho Hi) as (Hoff & Hp0 & Hp1).
  destruct (phdr_at_ret data _ Hb Hp0 Hp1) as (ph & E & Hok). exists ph. split; [done|].
  assert (is_load ph → good_segment (Z.of_nat (length data)) ph) as Hgs.
  { intros Hld. pose proof (ge_segments _ _ Hg) as Hf. rewrite Forall_forall in Hf. apply Hf. unfold segments.
    apply list_elem_of_filter. split; [done|]. unfold phdrs. apply list_elem_of_omap. exists i. rewrite E. split; [|done].
    apply elem_of_seqZ. lia. }
  unfold exec_range. unfold phdr_offset in Hoff. destruct (checked_mul i (e_phentsize ehdr)) as [x|]; [|done]. cbn in Hoff |- *.
  rewrite Hoff. cbn. set (off := phdr_pos ehdr i) in *. unfold phdr_at in E. unfold PHDR_SIZE in Hp1.
  destruct (rd data off 4) as [x1| | |] eqn:E1; [|done..]. destruct (rd data (off + 4) 4) as [x2| | |] eqn:E2; [|done..].
  destruct (rd data (off + 8) 8) as [x3| | |]; [|done..]. destruct (rd data (off + 16) 8) as [x4| | |] eqn:E4; [|done..].
  destruct (rd data (off + 32) 8) as [x5| | |]; [|done..]. destruct (rd data (off + 40) 8) as [x6| | |] eqn:E6; [|done..].
  cbn in E. injection E as <-. unfold read_u32, read_u64. rewrite (read_le_rd _ _ _ _ Hl E1). cbn [mbind option_bind].
  rewrite !checked_add_spec, !(decide_True (P := off + _ ≤ U64_MAX)) by lia. cbn [mbind option_bind].
  rewrite (read_le_rd _ _ _ _ Hl E2), (read_le_rd _ _ _ _ Hl E4), (read_le_rd _ _ _ _ Hl E6). cbn [mbind option_bind].
  unfold seg_range. cbn [p_type p_flags p_vaddr p_memsz] in *. destruct Hok as (_ & Hv & _ & Hm). cbn in Hv, Hm.
  destruct (Z.eqb_spec x1 PT_LOAD) as [->|]; [|done]. destruct (Z.land x2 PF_X =? 0); [done|]. cbn [negb orb andb].
  destruct (Hgs eq_refl) as [_ Hend _ _ _ _]. cbn in Hend. rewrite checked_add_spec, decide_True by done. cbn [mbind option_bind].
  destruct (Z.eqb_spec x6 0); [done|]. cbn [orb negb]. by rewrite (proj2 (Z.leb_gt _ _)) by lia.
Qed.

Lemma accepted_segments : exec_segments data = Some (omap seg_range (phdrs data ehdr 0 (e_phnum ehdr))).
Proof using Hb Hg Hl.
  unfold exec_segments. rewrite accepted_header. cbn [mbind option_bind].
  assert (∀ n, 0 ≤ n → n ≤ e_phnum ehdr → exec_segments_to data (e_phoff ehdr) (e_phentsize ehdr) n =
    Some (omap seg_range (phdrs data ehdr 0 n))) as H; [|destruct (good_header_fields _ _ Hb (ge_header _ _ Hg)) as (_ & _ & ?); by apply H].
  intros n Hn. revert n Hn. apply (natlike_ind (λ n, n ≤ e_phnum ehdr → _)); [done|]. intros n Hn IH Hle.
  destruct (accepted_range n) as (ph & E & Er); [lia|].
  rewrite <- Z.add_1_r, (segments_step _ _ _ n _ Hn (IH ltac:(lia))), Er. cbn [mbind option_bind]. f_equal.
  unfold phdrs. rewrite seqZ_app by lia. replace (seqZ (0 + n) 1) with [n] by (rewrite seqZ_cons by lia; cbn; f_equal; lia).
  rewrite !omap_app. cbn. rewrite E. cbn. by destruct (seg_range ph).
Qed.

Lemma accepted_covers x : covers (omap seg_range (phdrs data ehdr 0 (e_phnum ehdr))) x ↔
  Exists (has_entry x) (segments data ehdr).
Proof using.
  unfold covers, segments. rewrite Exists_exists. setoid_rewrite list_elem_of_omap. setoid_rewrite list_elem_of_filter. split.
  - intros (r & (ph & Hin & Hr) & Hx). exists ph. unfold seg_range in Hr. case_match eqn:E; [|done]. injection Hr as <-.
    bool_arith. split; [done|]. by split.
  - intros (ph & (Hld & Hin) & Hx & Hr). exists (mkInterval (p_vaddr ph) (p_vaddr ph + p_memsz ph)). split; [|done].
    exists ph. split; [done|]. unfold seg_range. unfold is_load in Hld. rewrite Hld, Z.eqb_refl. rewrite (proj2 (Z.eqb_neq _ _) Hx).
    by rewrite (proj2 (Z.eqb_neq (p_memsz ph) 0)) by lia.
Qed.
End accepted.

Lemma omap_length {A B} (f : A → option B) l : (length (omap f l) ≤ length l)%nat.
Proof. induction l as [|x l IH]; cbn; [done|]. destruct (f x); cbn; lia. Qed.

Lemma loader_target_ok data ehdr v p c : Forall is_byte data → Z.of_nat (length data) ≤ U64_MAX →
  validate data = Ret (inl ehdr) → e_phnum ehdr ≤ MAX_EXEC_INTERVALS → active (target v) = false →
  ∃ iv count, register_target p c data (e_entry ehdr) v =
      Ret (mkEvidence (mkTarget true false p c iv count (e_entry ehdr) 0 0 false false)
        (log v ++ [TargetLine p c (take (Z.to_nat count) iv) (e_entry ehdr)])) ∧
    ∀ x, in_intervals iv count x = true ↔ Exists (has_entry x) (segments data ehdr).
Proof.
  intros Hb Hl Hv Hn Ha. destruct (validate_ret data Hb Hl) as (r & E & Hr). rewrite Hv in E. injection E as <-.
  pose proof (proj1 (Hr ehdr) eq_refl) as Hg. pose proof (accepted_segments data ehdr Hb Hl Hg) as Hs.
  pose proof (accepted_covers data ehdr) as Hcov. unfold register_target.
  destruct (intervals_ret data Hb) as (r & -> & Hi). cbn [mbind outcome_bind]. destruct r as [[iv count]|[]].
  - destruct Hi as (segs & Es & _ & _ & _ & _ & Hx). rewrite Hs in Es. injection Es as <-.
    assert (∀ x, in_intervals iv count x = true ↔ Exists (has_entry x) (segments data ehdr)) as Hin by (intros x; by rewrite Hx).
    rewrite (proj2 (Hin (e_entry ehdr))) by apply Hg. rewrite Ha. cbn [negb andb]. by exists iv, count.
  - exfalso. destruct (proj2 (Hcov (e_entry ehdr))) as (r & Hin & _); [apply Hg|]. rewrite Hs in Hi. destruct Hi as [|[= Ei]]; [done|].
    rewrite Ei in Hin. by apply not_elem_of_nil in Hin.
  - exfalso. destruct Hi as (phoff & sz & num & k & t & segs & Eh & Hk & Es & [_ _ Hlen] & Ht).
    rewrite (accepted_header data ehdr Hl Hg) in Eh. injection Eh as <- <- <-.
    unfold exec_segments_to in Es. destruct (mapM _ (seqZ 0 k)) as [rs|] eqn:Em; [|done]. injection Es as <-.
    apply length_mapM in Em. rewrite length_seqZ in Em. pose proof (omap_length id rs). unfold MAX_EXEC_INTERVALS in *. lia.
Qed.

(** ** The contracts *)

(** C39: The ranges of a file.  On every byte sequence [executable_intervals] returns without leaving
    its table of 64 places.  When it succeeds, the table holds ranges in ascending order that are
    not empty and do not touch, and an address lies in one of them exactly when it lies in an
    executable segment of the file; it reports a malformed file only when a header cannot be read
    or no segment is executable, and a full table only when some first program headers cover
    addresses that need 65 separate ranges. *)
Theorem executable_intervals_spec (data : list Z) (Hb : Forall is_byte data) :
  ∃ r, executable_intervals data = Ret r ∧
  match r with
  | inl (iv, count) => ∃ segs, exec_segments data = Some segs ∧ segs ≠ [] ∧ 0 < count ≤ MAX_EXEC_INTERVALS ∧
      Z.of_nat (length iv) = MAX_EXEC_INTERVALS ∧ separate (take (Z.to_nat count) iv) ∧
      ∀ x, in_intervals iv count x = true ↔ covers segs x
  | inr Malformed => exec_segments data = None ∨ exec_segments data = Some []
  | inr Capacity => ∃ phoff phentsize phnum k t segs, exec_header data = Some (phoff, phentsize, phnum) ∧ k ≤ phnum ∧
      exec_segments_to data phoff phentsize k = Some segs ∧ stands_for t segs ∧ Z.of_nat (length t) = MAX_EXEC_INTERVALS + 1
  end.
Proof. exact (intervals_ret data Hb). Qed.

Lemma tiny_elf_bytes : Forall is_byte tiny_elf.
Proof. vm_compute. repeat (constructor; [split; [discriminate|reflexivity]|]). constructor. Qed.

Lemma executable_intervals_spec_witness : ∃ iv segs, executable_intervals tiny_elf = Ret (inl (iv, 1)) ∧
  exec_segments tiny_elf = Some segs ∧ ∀ x, in_intervals iv 1 x = true ↔ covers segs x.
Proof.
  destruct (executable_intervals_spec tiny_elf) as (r & E & Hr).
  - exact tiny_elf_bytes.
  - assert ((match executable_intervals tiny_elf with Ret (inl (_, count)) => count =? 1 | _ => false end) = true) as Hc by (vm_compute; reflexivity).
    rewrite E in Hc. destruct r as [[iv count]|]; [|discriminate]. apply Z.eqb_eq in Hc as ->.
    destruct Hr as (segs & Hs & _ & _ & _ & _ & Hx). by exists iv, segs.
Defined.

(** Every program that the loader accepts, with at most 64 program headers, becomes the target
    of the observation when there is none yet: no error is recorded, and the addresses taken for
    its code are exactly those of its executable segments. *)
Theorem loader_target_spec (data : list Z) (ehdr : Elf64Ehdr) (v : evidence) (p c : Z) (Hb : Forall is_byte data)
  (Hl : Z.of_nat (length data) ≤ U64_MAX) (Hv : validate data = Ret (inl ehdr)) (Hn : e_phnum ehdr ≤ MAX_EXEC_INTERVALS)
  (Ha : active (target v) = false) :
  ∃ iv count, register_target p c data (e_entry ehdr) v =
      Ret (mkEvidence (mkTarget true false p c iv count (e_entry ehdr) 0 0 false false)
        (log v ++ [TargetLine p c (take (Z.to_nat count) iv) (e_entry ehdr)])) ∧
    ∀ x, in_intervals iv count x = true ↔ Exists (has_entry x) (segments data ehdr).
Proof. exact (loader_target_ok data ehdr v p c Hb Hl Hv Hn Ha). Qed.

(** A small program with one segment. *)
Lemma loader_target_spec_witness : ∃ ehdr v', register_target 3 4096 tiny_elf 33554434 ev_start = Ret v' ∧
  active (target v') = true ∧ ∀ x, rip_in_intervals (target v') x = true ↔ Exists (has_entry x) (segments tiny_elf ehdr).
Proof.
  assert ((match validate tiny_elf with Ret (inl h) => (e_phnum h <=? 64) && (e_entry h =? 33554434) | _ => false end) = true) as Hc
    by (vm_compute; reflexivity).
  destruct (validate tiny_elf) as [[ehdr|e]| | |] eqn:Hv; try discriminate Hc.
  apply andb_true_iff in Hc as [Hn%Z.leb_le He%Z.eqb_eq].
  destruct (loader_target_spec tiny_elf ehdr ev_start 3 4096) as (iv & count & Hr & Hx).
  - exact tiny_elf_bytes.
  - vm_compute. discriminate.
  - exact Hv.
  - exact Hn.
  - reflexivity.
  - rewrite He in Hr. exists ehdr. eexists. split; [exact Hr|]. split; [reflexivity|exact Hx].
Defined.

(** C40: A counted round trip is backed by the log.  In every state the recording functions reach, a
    target has at most three round trips, and the log after the line that announces it begins with
    that many stretches, one after the other, in each of which the target left the processor to
    another process, was seen in user mode, and at the end was resumed after another process; the
    lines recorded for it are numbered 1, 2, 3, ... *)
Theorem round_trips_sound (v : evidence) (Hr : rtc ev_step ev_start v) (Ha : active (target v) = true) :
  round_trips (target v) ≤ REQUIRED_ROUND_TRIPS ∧
  ∃ pre c iv en trips rest n, log v = pre ++ TargetLine (pid (target v)) c iv en :: mjoin trips ++ rest ∧
    Z.of_nat (length trips) = round_trips (target v) ∧ Forall (is_trip (pid (target v))) trips ∧
    omap seq_of (mjoin trips ++ rest) = u64 <$> seqZ 1 n ∧ sequence (target v) = u64 n.
Proof.
  pose proof (ev_reachable_inv v Hr) as Hi. unfold evidence_inv in Hi. rewrite Ha in Hi.
  destruct Hi as (pre & trips & rest & [(c & iv & en & Hlog & _) Ht Hi (n & [Hn _] & Hs) _ _ Hb]). split; [done|].
  by exists pre, c, iv, en, trips, rest, n.
Qed.

(** The target leaves for process 1, is seen in user mode and comes back. *)
Definition demo_frame : InterruptFrame := mkFrame (mkRegs 0 0 0 0 0 0 0 0 0 0 0 0 0 0 0) 32 0 33554434 35 514 35655680 27.

Definition demo_trip (v : evidence) : evidence :=
  scheduled_in 3 1 0 demo_frame 4096 (user_return 3 demo_frame 4096 (scheduled_out 3 1 0 demo_frame 4096 v)).

Lemma round_trips_sound_witness : ∃ v, rtc ev_step ev_start v ∧ active (target v) = true ∧ round_trips (target v) = 1 ∧
  ∃ pre c iv en trips rest, log v = pre ++ TargetLine (pid (target v)) c iv en :: mjoin trips ++ rest ∧
    Z.of_nat (length trips) = 1 ∧ Forall (is_trip (pid (target v))) trips.
Proof.
  assert ((match register_target 3 4096 tiny_elf 33554434 ev_start with
           | Ret v => active (target (demo_trip v)) && (round_trips (target (demo_trip v)) =? 1) | _ => false end) = true) as Hc
    by (vm_compute; reflexivity).
  destruct (register_target 3 4096 tiny_elf 33554434 ev_start) as [v0| | |] eqn:E; try discriminate Hc.
  apply andb_true_iff in Hc as [Ha Ht%Z.eqb_eq].
  assert (rtc ev_step ev_start (demo_trip v0)) as Hr.
  { eapply rtc_l; [exact (ev_register _ _ _ _ _ _ tiny_elf_bytes E)|]. eapply rtc_l; [apply ev_out|].
    eapply rtc_l; [apply ev_user|]. eapply rtc_l; [apply ev_in|]. apply rtc_refl. }
  exists (demo_trip v0). split; [exact Hr|]. split; [exact Ha|]. split; [exact Ht|].
  destruct (round_trips_sound (demo_trip v0) Hr Ha) as (_ & pre & c & iv & en & trips & rest & n & H1 & H2 & H3 & _).
  rewrite Ht in H2. exists pre, c, iv, en, trips, rest. split; [exact H1|]. split; [exact H2|exact H3].
Defined.
