(* ===== verification/Room.v ===== *)
(** * Enough memory

    When the pages that are free form one run, apart from at most one page below it, allocation never fails as
    long as the run is long enough, also for several pages in a row; what the operations on page
    tables and program images take from it. *)

From Stdlib Require Import ZArith Lia.
From stdpp Require Import base numbers list list_numbers option gmap.
From S2P Require Import Prelude Pmm Memory Paging PageMaps PageSpec Reach PageNew Process MemSpec UserMem Arena Elf ElfPages ElfSpec ExecPages Exec ExecSpec.

Local Open Scope Z_scope.

(** ** Runs of free pages *)

Section run.
Context (a : PmmAllocator) (Ha : pmm_wf a) (top : Z) (b0 : bitmap).

(** From page [top] on everything is as in [b0]. *)
Definition above (b : bitmap) : Prop := bm_wf b ∧ top ≤ total_pages a ∧ ∀ j, top ≤ j < total_pages a → used b j = used b0 j.

(** The lowest free pages are [m] in a row, before page [top]. *)
Definition lined (b : bitmap) (m : Z) : Prop :=
  above b ∧ ∃ n, 0 ≤ n ∧ n + m ≤ top ∧ (∀ j, 0 ≤ j < n → used b j = true) ∧ ∀ j, n ≤ j < n + m → used b j = false.

(** So they are but for one page. *)
Definition spare (b : bitmap) (m : Z) : Prop :=
  above b ∧ ∃ n, 0 ≤ n ∧ n + m ≤ top ∧
    (∀ i j, 0 ≤ i < n → 0 ≤ j < n → used b i = false → used b j = false → i = j) ∧ ∀ j, n ≤ j < n + m → used b j = false.

Lemma lined_spare b m : lined b m → spare b m.
Proof using Type.
  intros (Hb & n & Hn & Ht & Hlo & Hf). split; [done|]. exists n. split_and!; try done. intros i j Hi _ Hu. by rewrite Hlo in Hu.
Qed.

Lemma lined_less b m m' : lined b m → m' ≤ m → lined b m'.
Proof using Type. intros (Hb & n & Hn & Ht & Hlo & Hf) Hm. split; [done|]. exists n. split_and!; try lia; [done|]. intros j Hj. apply Hf. lia. Qed.

Lemma spare_less b m m' : spare b m → m' ≤ m → spare b m'.
Proof using Type. intros (Hb & n & Hn & Ht & Hlo & Hf) Hm. split; [done|]. exists n. split_and!; try lia; [done|]. intros j Hj. apply Hf. lia. Qed.

(** They lie below the address of page [top]. *)
Lemma spare_low b m : spare b m → 0 ≤ m → low_first a (page_addr a top) m b.
Proof using Type.
  intros (_ & n & Hn & Ht & _ & Hf) Hm j Hj _ HL. apply (free_before_run b n m); [done|done| |done]. unfold page_addr, PMM_PAGE_SIZE in HL. lia.
Qed.

Lemma above_set b b' k : above b → bm_wf b' → 0 ≤ k < top → (∀ j, in_range j → j ≠ k → used b' j = used b j) → above b'.
Proof using Ha.
  intros (_ & Ht & Hu) Hb Hk Hsame. pose proof Ha as (Htp & _). split; [done|]. split; [done|]. intros j Hj. rewrite Hsame by (unfold in_range; lia). by apply Hu.
Qed.

Lemma alloc_room b m : spare b (m + 1) → 0 ≤ m → ∃ p b', alloc a b = Ret (p, b') ∧ (p =? 0) = false ∧ lined b' m ∧ ∃ k, 0 ≤ k < top ∧ p = page_addr a k.
Proof using Ha.
  intros (Hab & n & Hn & Ht & Hlo & Hf) Hm. pose proof Ha as (Htp & _). pose proof Hab as (Hb & Htop & _).
  destruct (alloc_take a b Ha Hb) as [(k & b' & Hk & Hkf & Hlow & E & Hnz & Hb' & Hu)|[Hall _]].
  2:{ specialize (Hf n ltac:(lia)). rewrite Hall in Hf by lia. done. }
  exists (page_addr a k), b'. split; [done|]. split; [done|].
  assert (k ≤ n) as Hkn by (destruct (Z.le_gt_cases k n); [done|]; specialize (Hf n ltac:(lia)); rewrite Hlow in Hf by lia; done).
  split; [|exists k; split; [lia|done]]. split.
  { apply (above_set b b' k); [done|done|lia|]. intros j Hj Hne. rewrite Hu by done. by rewrite (proj2 (Z.eqb_neq k j)). }
  destruct (decide (k = n)) as [->|Hne].
  - exists (n + 1). split; [lia|]. split; [lia|]. split; intros j Hj; rewrite Hu by (unfold in_range; lia).
    + destruct (Z.eqb_spec n j); [done|]. rewrite Hlow by lia. apply orb_true_r.
    + rewrite Hf by lia. destruct (Z.eqb_spec n j); [lia|done].
  - exists n. split; [lia|]. split; [lia|]. split; intros j Hj; rewrite Hu by (unfold in_range; lia).
    + destruct (Z.eqb_spec k j) as [|Hkj]; [done|]. destruct (used b j) eqn:Ej; [done|]. destruct Hkj. apply Hlo; [lia|lia|done|done].
    + rewrite Hf by lia. destruct (Z.eqb_spec k j); [lia|done].
Qed.

Lemma alloc_run b m c : lined b (m + c) → 0 ≤ m → 0 < c → ∃ p b', alloc_pages a b c = Ret (p, b') ∧ (p =? 0) = false ∧ lined b' m.
Proof using Ha.
  intros (Hab & n & Hn & Ht & Hlo & Hf) Hm Hc. pose proof Ha as (Htp & _). pose proof Hab as (Hb & Htop & Habu).
  destruct (alloc_pages_cases a b c Ha Hb Hc) as [(k & b' & Hk & Hlow & Hkt & Hkf & E & Hb' & Hu)|[_ Hno]].
  2:{ destruct (Hno n Hn Hlo). split; [lia|]. intros j Hj. apply Hf. lia. }
  assert (k = n) as ->.
  { destruct (Z.lt_trichotomy k n) as [Hlt|[?|Hlt]]; [|done|].
    - specialize (Hkf k ltac:(lia)). rewrite Hlo in Hkf by lia. done.
    - specialize (Hf n ltac:(lia)). rewrite Hlow in Hf by lia. done. }
  exists (page_addr a n), b'. split; [done|]. split; [apply Z.eqb_neq; pose proof (page_addr_u64 a n Ha ltac:(unfold in_range; lia)); lia|].
  split.
  { split; [done|]. split; [done|]. intros j Hj. rewrite Hu by (unfold in_range; lia). rewrite Habu by done. zcases. }
  exists (n + c). split; [lia|]. split; [lia|]. split; intros j Hj; rewrite Hu by (unfold in_range; lia).
  - destruct (Z.leb_spec n j), (Z.ltb_spec j (n + c)); cbn [andb orb]; try done; try lia; apply Hlo; lia.
  - rewrite Hf by lia. zcases.
Qed.

Lemma free_room b m k b' : lined b m → 0 ≤ m → 0 ≤ k < top → free a b (page_addr a k) = Ret b' → spare b' m.
Proof using Ha.
  intros (Hab & n & Hn & Ht & Hlo & Hf) Hm Hk. pose proof Ha as (Htp & _). pose proof Hab as (Hb & Htop & _). rewrite free_page by (done || (unfold in_range; lia)).
  destruct (bm_clear_spec b k Hb) as (b2 & -> & Hb2 & Hu); [unfold in_range; lia|]. cbn [mbind outcome_bind]. intros [= <-].
  split. { apply (above_set b b2 k); [done|done|lia|]. intros j Hj Hne. rewrite Hu by done. by rewrite (proj2 (Z.eqb_neq k j)). }
  exists n. split; [done|]. split; [done|]. split.
  - intros i j Hi Hj. rewrite !Hu by (unfold in_range; lia). destruct (Z.eqb_spec k i), (Z.eqb_spec k j); try lia; rewrite ?(Hlo i Hi), ?(Hlo j Hj); done.
  - intros j Hj. rewrite Hu, (Hf j Hj) by (unfold in_range; lia). by destruct (k =? j).
Qed.

Lemma room_not_exhausted s m : lined (pg_bm s) m → 0 < m → ¬ exhausted a s.
Proof using Type. intros ((_ & Htop & _) & n & Hn & Ht & _ & Hf) Hm He. specialize (Hf n ltac:(lia)). rewrite He in Hf by lia. done. Qed.

(** ** What the operations on tables take *)

Lemma pmm_alloc_room s m : spare (pg_bm s) (m + 1) → 0 ≤ m →
  ∃ p b', pmm_alloc a s = Ret (p, set_bm b' s) ∧ (p =? 0) = false ∧ lined b' m ∧ ∃ k, 0 ≤ k < top ∧ p = page_addr a k.
Proof using Ha.
  intros Hs Hm. destruct (alloc_room _ m Hs Hm) as (p & b' & E & Hp & Hl). exists p, b'. unfold pmm_alloc. by rewrite E.
Qed.

Lemma table_room s e m : spare (pg_bm s) (m + 1) → 0 ≤ m → ∃ r s', get_or_create_table a s e = Ret (r, s') ∧
  spare (pg_bm s') m ∧ (lined (pg_bm s) (m + 1) → lined (pg_bm s') m).
Proof using Ha.
  intros Hs Hm. unfold get_or_create_table. destruct (has (pg_ld s e) PAGE_PRESENT).
  - eexists _, s. split; [done|]. split; [apply (spare_less _ (m + 1)); [done|lia]|]. intros Hl. apply (lined_less _ (m + 1)); [done|lia].
  - destruct (pmm_alloc_room s m Hs Hm) as (p & b' & -> & Hnz & Hl & _). cbn [mbind outcome_bind]. rewrite Hnz. eexists _, _. split; [done|].
    split; [by apply lined_spare|done].
Qed.

Lemma try_table_room s e m : lined (pg_bm s) (m + 1) → 0 ≤ m → ∃ r s', try_get_or_create_table a s e = Ret (r, s') ∧ lined (pg_bm s') m.
Proof using Ha.
  intros Hs Hm. unfold try_get_or_create_table. destruct (has (pg_ld s e) PAGE_PRESENT).
  - eexists _, s. split; [done|]. apply (lined_less _ (m + 1)); [done|lia].
  - destruct (pmm_alloc_room s m (lined_spare _ _ Hs) Hm) as (p & b' & -> & Hnz & Hl & _). cbn [mbind outcome_bind]. rewrite Hnz. by eexists _, _.
Qed.

Lemma map_2m_room s v p f m : spare (pg_bm s) (m + 2) → 0 ≤ m → ∃ s', map_2m a s v p f = Ret s' ∧ spare (pg_bm s') m.
Proof using Ha.
  intros Hs Hm. unfold map_2m. destruct (indices v) as [[[i4 i3] i2] i1]. replace (m + 2) with (m + 1 + 1) in Hs by lia.
  destruct (table_room s (slot (read_cr3 s) i4) (m + 1) Hs ltac:(lia)) as (l3 & s1 & -> & Hs1 & _). cbn [mbind outcome_bind].
  destruct (table_room s1 (slot l3 i3) m Hs1 Hm) as (l2 & s2 & -> & Hs2 & _). cbn [mbind outcome_bind]. destruct (negb _); by eexists.
Qed.

Lemma map_2m_loop_room v p f n : ∀ s i m, spare (pg_bm s) (m + 2 * Z.of_nat n) → 0 ≤ m → ∃ s', map_2m_loop a s v p f i n = Ret s' ∧ spare (pg_bm s') m.
Proof using Ha.
  induction n as [|n IH]; intros s i m Hs Hm; cbn [map_2m_loop]; [exists s; split; [done|]; apply (spare_less _ (m + 2 * Z.of_nat 0)); [done|lia]|].
  replace (m + 2 * Z.of_nat (S n)) with (m + 2 * Z.of_nat n + 2) in Hs by lia.
  destruct (map_2m_room s (u64 (v + i * 2097152)) (u64 (p + i * 2097152)) f _ Hs ltac:(lia)) as (s1 & -> & Hs1). cbn [mbind outcome_bind]. by apply IH.
Qed.

Lemma map_4k_room s v p f m : lined (pg_bm s) (m + 3) → 0 ≤ m → ∃ s', map_4k a s v p f = Ret s' ∧ lined (pg_bm s') m.
Proof using Ha.
  intros Hs Hm. unfold map_4k. destruct (_ && _); [exists s; split; [done|]; apply (lined_less _ (m + 3)); [done|lia]|].
  destruct (indices v) as [[[i4 i3] i2] i1]. replace (m + 3) with (m + 1 + 1 + 1) in Hs by lia.
  destruct (table_room s (slot (read_cr3 s) i4) (m + 1 + 1) (lined_spare _ _ Hs) ltac:(lia)) as (l3 & s1 & -> & _ & Hs1). specialize (Hs1 Hs). cbn [mbind outcome_bind].
  destruct (table_room s1 (slot l3 i3) (m + 1) (lined_spare _ _ Hs1) ltac:(lia)) as (l2 & s2 & -> & _ & Hs2). specialize (Hs2 Hs1). cbn [mbind outcome_bind].
  destruct (table_room s2 (slot l2 i2) m (lined_spare _ _ Hs2) Hm) as (l1 & s3 & -> & _ & Hs3). specialize (Hs3 Hs2). cbn [mbind outcome_bind].
  destruct (has f PAGE_USER); by eexists.
Qed.

(** Whether it succeeds or not, a mapping takes at most three pages. *)
Lemma try_map_room s v p f m b s' : lined (pg_bm s) (m + 3) → 0 ≤ m → try_map_4k a s v p f = Ret (b, s') → lined (pg_bm s') m.
Proof using Ha.
  intros Hs Hm. assert (lined (pg_bm s) m) as Hl by (apply (lined_less _ (m + 3)); [done|lia]). unfold try_map_4k.
  destruct (_ && _); [by intros [= _ <-]|]. destruct (translate_in_pml4 s v (read_cr3 s)); [by intros [= _ <-]|].
  destruct (indices v) as [[[i4 i3] i2] i1]. replace (m + 3) with (m + 1 + 1 + 1) in Hs by lia.
  destruct (try_table_room s (slot (read_cr3 s) i4) (m + 1 + 1) Hs ltac:(lia)) as (o3 & s1 & -> & Hs1). cbn [mbind outcome_bind].
  destruct o3 as [l3|]; [|intros [= _ <-]; apply (lined_less _ (m + 1 + 1)); [done|lia]].
  destruct (try_table_room s1 (slot l3 i3) (m + 1) Hs1 ltac:(lia)) as (o2 & s2 & -> & Hs2). cbn [mbind outcome_bind].
  destruct o2 as [l2|]; [|intros [= _ <-]; apply (lined_less _ (m + 1)); [done|lia]].
  destruct (try_table_room s2 (slot l2 i2) m Hs2 Hm) as (o1 & s3 & -> & Hs3). cbn [mbind outcome_bind].
  destruct o1 as [l1|]; [|by intros [= _ <-]]. destruct (has f PAGE_USER); by intros [= _ <-].
Qed.

Lemma try_map_target_room s v p f t m b s' : lined (pg_bm s) (m + 3) → 0 ≤ m → try_map_4k_target a s v p f t = Ret (b, s') → lined (pg_bm s') m.
Proof using Ha.
  intros Hs Hm. unfold try_map_4k_target, with_cr3. destruct (t =? read_cr3 s); [by apply try_map_room|].
  destruct (try_map_4k a (set_cr3 t s) v p f) as [[b1 s1]| | |] eqn:E; cbn [mbind outcome_bind]; try discriminate. intros [= _ <-].
  cbn [pg_bm set_cr3]. by apply (try_map_room (set_cr3 t s) v p f m b1 s1).
Qed.

(** ** A new address space: at most a root, a directory pointer table and its 512 directories *)

Lemma clone_pdpte_room s e new i m ok s' : lined (pg_bm s) (m + 1) → 0 ≤ m → clone_pdpte a s false e new i = Ret (ok, s') → ok = true ∧ lined (pg_bm s') m.
Proof using Ha.
  intros Hs Hm. assert (lined (pg_bm s) m) as Hl by (apply (lined_less _ (m + 1)); [done|lia]). unfold clone_pdpte. cbv zeta.
  destruct (overlaps_kernel_scratch _ _); [by intros [= <- <-]|]. destruct (has e PAGE_HUGE).
  { cbn [andb]. destruct (_ && _); by intros [= <- <-]. }
  destruct (pmm_alloc_room s m (lined_spare _ _ Hs) Hm) as (p & b' & -> & Hnz & Hl' & _). cbn [mbind outcome_bind]. rewrite Hnz. intros [-> E]%clone_pd_bm. split; [done|]. by rewrite E.
Qed.

Lemma clone_pdpt_room src new n : ∀ s k m ok s', lined (pg_bm s) (m + Z.of_nat n) → 0 ≤ m → clone_pdpt a s false src new k n = Ret (ok, s') →
  ok = true ∧ lined (pg_bm s') m.
Proof using Ha.
  induction n as [|n IH]; intros s k m ok s' Hs Hm; cbn [clone_pdpt]; cbv zeta.
  { intros [= <- <-]. split; [done|]. apply (lined_less _ (m + Z.of_nat 0)); [done|lia]. }
  replace (m + Z.of_nat (S n)) with (m + Z.of_nat n + 1) in Hs by lia. destruct (negb _); [apply IH; [apply (lined_less _ (m + Z.of_nat n + 1)); [done|lia]|done]|].
  destruct (clone_pdpte a s false _ new k) as [[ok1 s1]| | |] eqn:E; cbn [mbind outcome_bind]; try discriminate.
  destruct (clone_pdpte_room _ _ _ _ _ _ _ Hs ltac:(lia) E) as [-> Hs1]. cbn [negb]. by apply IH.
Qed.

Lemma create_room s m o s' : spare (pg_bm s) (m + 514) → 0 ≤ m → create_pml4 a s false = Ret (o, s') → (∃ h, o = Some h) ∧ lined (pg_bm s') m.
Proof using Ha.
  intros Hs Hm. unfold create_pml4. cbn [mbind outcome_bind negb]. replace (m + 514) with (m + 513 + 1) in Hs by lia.
  destruct (pmm_alloc_room s (m + 513) Hs ltac:(lia)) as (l4 & b1 & -> & Hnz & Hs1 & _). cbn [mbind outcome_bind]. rewrite Hnz.
  set (s1 := set_mem _ (zero_table _ _)). assert (lined (pg_bm s1) (m + 513)) as Hs1' by done. clearbody s1.
  destruct (clone_low a s1 false (read_cr3 s) l4) as [[ok s2]| | |] eqn:E; cbn [mbind outcome_bind]; try discriminate.
  assert (ok = true ∧ lined (pg_bm s2) m) as [-> Hl].
  { revert E. unfold clone_low. destruct (negb _); [intros [= <- <-]; split; [done|]; apply (lined_less _ (m + 513)); [done|lia]|].
    replace (m + 513) with (m + 512 + 1) in Hs1' by lia.
    destruct (pmm_alloc_room s1 (m + 512) (lined_spare _ _ Hs1') ltac:(lia)) as (p & b' & -> & Hnz' & Hl' & _). cbn [mbind outcome_bind]. rewrite Hnz'. by apply clone_pdpt_room. }
  cbn [negb cleanup_if mbind outcome_bind]. intros [= <- <-]. split; [by eexists|done].
Qed.
End run.

(** ** The image of a program: four pages for each page of it *)

Section flat.
Context (a : PmmAllocator) (p : pg) (Hi : pt_inv a p) (Hplain : read_cr3 p = pg_cr3 p)
  (Hlow : has (ld64 (pg_mem p) (slot (read_cr3 p) 0)) PAGE_PRESENT = true)
  (stale : Z → list Z) (data : list Z).
Context (h : Pml4Handle) (p1 : pg) (B : born a p h p1) (top : Z) (b0 : bitmap).
Context (Hself : ∀ x, 0 ≤ x < page_addr a top → translate p x = Some x).

(** One page of it. *)
Lemma page_room q L v m : tx a p h p1 q [] L → v mod 4096 = 0 → USER_CODE_ADDR ≤ v < FLAT_USER_LIMIT → (v ∉ lp_vaddr <$> L) →
  lined a top b0 (pg_bm q) (m + 4) → 0 < m →
  ∃ f q1, pmm_alloc a q = Ret (f, q1) ∧ (f =? 0) = false ∧ page_ok f ∧ direct q1 f = true ∧
    ∀ m', (∀ t i, page_ok t → t ≠ f → 0 ≤ i < 512 → ld64 m' (slot t i) = ld64 (pg_mem q1) (slot t i)) →
    ∃ q2, try_map_4k_target a (set_mem m' q1) v f PAGE_USER_RW (phys h) = Ret (true, q2) ∧ tx a p h p1 q2 [] (L ++ [mkPage v f]) ∧ lined a top b0 (pg_bm q2) m.
Proof using Hi Hplain B Hself.
  intros T Hv Hlo Hn Hl Hm. pose proof (pi_pmm _ _ Hi) as Ha. replace (m + 4) with (m + 3 + 1) in Hl by lia.
  change USER_CODE_ADDR with PAGING_USER_CODE_ADDR in *. unfold FLAT_USER_LIMIT, BRK_START in Hlo.
  assert (room v) as Hr by (unfold room; lia). assert (vpage v) as Hvp by (split; [done|unfold PAGING_USER_CODE_ADDR in *; lia]).
  destruct (pmm_alloc_room a Ha top b0 q (m + 3) (lined_spare a top b0 _ _ Hl) ltac:(lia)) as (f & b & E & Hnz & Hl1 & _). exists f, (set_bm b q). split; [done|]. split; [done|].
  destruct (tx_map a p Hi Hplain h p1 B q L v T Hvp Hr Hn) as [E'|(f' & q1 & E' & Hf0 & Hfok & Hmap)]; rewrite E in E'.
  { injection E' as -> _. done. }
  injection E' as <- <-. split; [done|]. split.
  { apply (frame_direct a p Hi h p1 B (page_addr a top) Hself q [] L f _ (m + 4) T E Hf0); [|lia]. apply (spare_low a top b0); [|lia]. apply lined_spare. by replace (m + 4) with (m + 3 + 1) by lia. }
  intros m' Hm'. destruct (Hmap m' Hm') as (ok & q2 & E2 & Hb). exists q2.
  assert (lined a top b0 (pg_bm q2) m) as Hl2 by (apply (try_map_target_room a Ha top b0 _ _ _ _ _ _ _ _ (Hl1 : lined a top b0 (pg_bm (set_mem m' (set_bm b q))) (m + 3)) ltac:(lia) E2)).
  destruct ok; [by split|]. destruct Hb as [_ [Hov|Hex]]; [|by destruct (room_not_exhausted a top b0 q2 m Hl2 Hm)].
  exfalso. revert Hov. unfold overlaps_kernel_scratch, KERNEL_SCRATCH_VA, sat_add, U64_MAX, PAGING_USER_CODE_ADDR in *. zcases.
Qed.

Lemma flat_pages_room n : ∀ q um L v off left al m, tx a p h p1 q [] L → v mod 4096 = 0 → USER_CODE_ADDR ≤ v → off = v - USER_CODE_ADDR →
  v + 4096 * Z.of_nat n < FLAT_USER_LIMIT → (∀ k, 0 ≤ k < Z.of_nat n → v + 4096 * k ∉ lp_vaddr <$> L) →
  lined a top b0 (pg_bm q) (m + 4 * Z.of_nat n) → 0 < m →
  ∃ al' q' um' S, flat_pages a data q um (phys h) v off left al None n = Ret (None, al', q', um') ∧ tx a p h p1 q' [] (L ++ S) ∧ lined a top b0 (pg_bm q') m ∧
    (∀ x, x ∈ lp_vaddr <$> S → x < v + 4096 * Z.of_nat n).
Proof using Hi Hplain B Hself.
  induction n as [|n IH]; intros q um L v off left al m T Hv Hlo Hoff Hhi Hn Hl Hm; cbn [flat_pages].
  { exists al, q, um, []. rewrite app_nil_r. split; [done|]. split; [done|]. split; [apply (lined_less a top b0 _ (m + 4 * Z.of_nat 0)); [done|lia]|]. by intros x ?%not_elem_of_nil. }
  rewrite bool_decide_eq_false_2 by done. replace (m + 4 * Z.of_nat (S n)) with (m + 4 * Z.of_nat n + 4) in Hl by lia.
  assert (v ∉ lp_vaddr <$> L) as Hnv by (specialize (Hn 0); rewrite Z.mul_0_r, Z.add_0_r in Hn; apply Hn; lia).
  destruct (page_room q L v (m + 4 * Z.of_nat n) T Hv ltac:(lia) Hnv Hl ltac:(lia)) as (f & q1 & -> & Hnz & Hfok & Hdir & Hmap). cbn [mbind outcome_bind]. rewrite Hnz. cbv zeta.
  set (bytes := take (Z.to_nat (Z.min left 4096)) (drop (Z.to_nat off) data)).
  destruct (Hmap (st_bytes (zero_words (pg_mem q1) f 512) f bytes)) as (q2 & E2 & T2 & Hl2).
  { intros t i Ht Hne Hir. apply fill_frame_ld; try done. unfold bytes. rewrite length_take. lia. }
  unfold fill_frame. rewrite Hdir. cbn [mbind outcome_bind]. rewrite E2. cbn [mbind outcome_bind negb].
  unfold checked_add. change USER_CODE_ADDR with 33554432 in *. unfold FLAT_USER_LIMIT, BRK_START in *. rewrite !(proj2 (Z.leb_le _ _)) by (unfold U64_MAX; lia).
  destruct (IH q2 (show_page um (phys h) v (page_bytes bytes)) (L ++ [mkPage v f]) (v + 4096) (off + 4096) (Z.max 0 (left - 4096)) (al + 1) m T2)
    as (al' & q' & um' & S & -> & T' & Hl' & HS); try lia.
  { by rewrite <- Zplus_mod_idemp_l, Hv. }
  { intros k Hk. rewrite fmap_app. cbn [fmap list_fmap lp_vaddr]. rewrite not_elem_of_app, list_elem_of_singleton. split; [|lia].
    replace (v + 4096 + 4096 * k) with (v + 4096 * (k + 1)) by lia. apply Hn. lia. }
  { done. }
  exists al', q', um', (mkPage v f :: S). rewrite <- app_assoc in T'. split; [done|]. split; [done|]. split; [done|].
  cbn [fmap list_fmap lp_vaddr]. intros x [->|Hx%HS]%elem_of_cons; lia.
Qed.
End flat.

(** What the image of a program of [size] bytes may take. *)
Definition image_need (size : Z) : Z := 514 + 4 * (code_pages size + 1).

(** The program fits between the start of the code and the start of the heap. *)
Definition flat_fits (size : Z) : Prop := 0 < size ∧ USER_CODE_ADDR + 4096 * (code_pages size + 1) ≤ FLAT_USER_LIMIT.

Lemma build_flat_room a top b0 p stale data um m : pt_inv a p → read_cr3 p = pg_cr3 p → (∀ x, 0 ≤ x < page_addr a top → translate p x = Some x) →
  has (ld64 (pg_mem p) (slot (read_cr3 p) 0)) PAGE_PRESENT = true → flat_fits (Z.of_nat (length data)) →
  spare a top b0 (pg_bm p) (m + image_need (Z.of_nat (length data))) → 0 < m →
  ∃ i q um', build_flat_image a stale data p um = Ret (inl i, q, um') ∧ lined a top b0 (pg_bm q) m.
Proof.
  intros Hi Hpl Hself Hlow [Hpos Hfit] Hs Hm. unfold build_flat_image, build_flat_image_inner. set (size := Z.of_nat (length data)) in *.
  destruct (Z.eqb_spec size 0); [lia|]. pose proof (flat_layout_spec size ltac:(lia)) as Hly. pose proof (pi_pmm _ _ Hi) as Ha.
  destruct (flat_layout size) as [[[pages sa] se]|e]; [|lia]. destruct Hly as (Hp & Esa & -> & Hend).
  assert (2 ≤ pages) as Hp2 by (rewrite Hp; unfold code_pages; lia). unfold image_need in Hs. rewrite <- Hp in *.
  destruct (create_born a p Hi Hlow) as (o & p1 & E & Ho). rewrite E. cbn [mbind outcome_bind].
  destruct (create_room a Ha top b0 p (m + 4 * (pages + 1)) o p1) as [[h ->] Hl]; [by replace (m + 4 * (pages + 1) + 514) with (m + (514 + 4 * (pages + 1))) by lia|lia|done|].
  pose proof (tx_start a p Hi h p1 Ho) as T0.
  destruct (flat_pages_room a p Hi Hpl data h p1 Ho top b0 Hself (Z.to_nat pages) p1 um [] USER_CODE_ADDR 0 size 0 (m + 4) T0) as (al & q & um1 & S1 & -> & T1 & Hl1 & HS);
    [done|done|done|lia|by intros k _ ?%not_elem_of_nil|by replace (m + 4 + 4 * Z.of_nat (Z.to_nat pages)) with (m + 4 * (pages + 1)) by lia|lia|].
  cbn [mbind outcome_bind app] in *.
  assert (sa mod 4096 = 0) as Hsa by (rewrite Esa; by rewrite Z.mul_comm, Z.mod_add by lia).
  destruct (page_room a p Hi Hpl h p1 Ho top b0 Hself q S1 sa m T1 Hsa ltac:(lia)) as (f & q1 & Ea & Hnz & _ & _ & Hmap); [intros Hx%HS; lia|done|done|].
  unfold flat_stack. rewrite bool_decide_eq_false_2 by done. rewrite Ea. cbn [mbind outcome_bind]. rewrite Hnz.
  destruct (Hmap (pg_mem q1) (λ _ _ _ _ _, eq_refl)) as (q2 & E2 & _ & Hl2). replace (set_mem (pg_mem q1) q1) with q1 in E2 by (by destruct q1).
  rewrite E2. cbn [mbind outcome_bind negb]. by eexists _, q2, _.
Qed.
