(* ===== verification/SpawnSpec.v ===== *)
(** * The first two processes (src/kernel_rust/src/process.rs: spawn_init, start_scheduler)

    What [spawn_init] and [start_scheduler] promise: init in an address space of its own with the
    bytes of /sbin/init, idle in one with the kernel only, both with a register frame on a stack
    of their own, descriptors 0 to 2 of init on the terminal, and the invariants that the scheduler,
    the system calls and the descriptor calls start from. *)

From Stdlib Require Import ZArith Lia.
From stdpp Require Import base numbers list list_numbers option gmap.
From S2P Require Import Multiboot Interrupts Console BootMem BootSpec Initramfs Paths Reach Room.
From S2P Require Import Prelude Pmm Memory Kmm Heap VfsTypes OpenFiles FdCalls Names Paging PageMaps PageSpec PageNew Keyboard Serial Tty Signal Process Sched Kernel ProcSpec MemCalls MemSpec UserMem FileCalls Arena Elf ElfCheck ElfPages ElfSpec ExecPages Exec ExecSpec ExecCall BootPages.

Local Open Scope Z_scope.

(** ** Steps that leave what is in use alone *)

Section stays.
Context (a : PmmAllocator).

Record stays (q q' : pg) : Prop := {
  st_cr3 : pg_cr3 q' = pg_cr3 q;
  st_bm : bm_wf (pg_bm q');
  st_used : ∀ j, 0 ≤ j < total_pages a → used (pg_bm q) j = true → used (pg_bm q') j = true;
  st_mem : ∀ t i, page_ok t → not_free a (pg_bm q) t → 0 ≤ i < 512 → ld64 (pg_mem q') (slot t i) = ld64 (pg_mem q) (slot t i)
}.

Lemma stays_not_free q q' t : stays q q' → not_free a (pg_bm q) t → not_free a (pg_bm q') t.
Proof. intros S Hn k Hk E. apply (st_used _ _ S); [done|]. by apply Hn. Qed.

Lemma stays_trans q q1 q2 : stays q q1 → stays q1 q2 → stays q q2.
Proof.
  intros S1 S2. split; [by rewrite (st_cr3 _ _ S2), (st_cr3 _ _ S1)|apply S2|intros j Hj Hu; by apply S2, S1|].
  intros t i Ht Hn Hi. rewrite (st_mem _ _ S2), (st_mem _ _ S1); try done. by apply (stays_not_free q).
Qed.

(** Every address space is what it was. *)
Lemma stays_view q q' r : stays q q' → pt_inv a (set_cr3 r q) →
  pt_inv a (set_cr3 r q') ∧ ∀ v, leaf (set_cr3 r q') v = leaf (set_cr3 r q) v.
Proof.
  intros S Hi. pose proof (pi_tree _ _ Hi) as Ht. change (read_cr3 (set_cr3 r q)) with (entry_addr r) in Ht. change (pg_mem (set_cr3 r q)) with (pg_mem q) in Ht.
  assert (∀ path t i, ok_path path → 0 ≤ i < 512 → walk (pg_mem q) (entry_addr r) path = Some t →
    ld64 (pg_mem q') (slot t i) = ld64 (pg_mem q) (slot t i)) as Hold.
  { intros path t i Hp Hir Hw. apply (st_mem _ _ S); [exact (tr_ok _ _ Ht _ _ Hp Hw)|exact (pi_used _ _ Hi _ _ Hp Hw)|done]. }
  destruct (tree_same (pg_mem q) (pg_mem q') (entry_addr r) Ht) as [Ht' Hw'].
  { intros path t i Hp Hw. pose proof (ok_path_snoc _ _ Hp) as (? & ? & _). rewrite (Hold path) by done. apply same_link_refl. }
  split.
  - split; [apply Hi|apply Hi|apply S|exact Ht'|].
    intros path t Hp Hw. change (walk (pg_mem q') (entry_addr r) path = Some t) in Hw. rewrite Hw' in Hw by done.
    apply (stays_not_free q q' _ S). exact (pi_used _ _ Hi path t Hp Hw).
  - intros v. unfold leaf, xlate, indices. change (read_cr3 (set_cr3 r q')) with (entry_addr r). change (read_cr3 (set_cr3 r q)) with (entry_addr r). cbn [pg_mem set_cr3].
    pose proof (index_at_range v 39). pose proof (index_at_range v 30). pose proof (index_at_range v 21). pose proof (index_at_range v 12).
    rewrite !Hw' by auto using ok2, ok3. destruct (walk _ _ [_; _; _]) as [l1|] eqn:W3.
    + by rewrite (Hold [index_at v 39; index_at v 30; index_at v 21]) by auto using ok3.
    + destruct (walk _ _ [_; _]) as [l2|] eqn:W2; [|done]. cbn [mbind option_bind].
      by rewrite (Hold [index_at v 39; index_at v 30]) by auto using ok2.
Qed.

Lemma stays_translate q q' r v : stays q q' → pt_inv a (set_cr3 r q) → translate (set_cr3 r q') v = translate (set_cr3 r q) v.
Proof. intros S Hi. destruct (stays_view q q' r S Hi) as [Hi' Hl]. by rewrite !(translate_leaf a), Hl. Qed.

Lemma set_cr3_id q : set_cr3 (pg_cr3 q) q = q.
Proof. by destruct q. Qed.

Lemma stays_active q q' : stays q q' → pt_inv a q → pt_inv a q' ∧ ∀ v, translate q' v = translate q v.
Proof.
  intros S Hi. assert (set_cr3 (pg_cr3 q) q' = q') as E by (rewrite <- (st_cr3 _ _ S); apply set_cr3_id).
  rewrite <- (set_cr3_id q) in Hi. pose proof (λ v, stays_translate q q' (pg_cr3 q) v S Hi) as Ht.
  destruct (stays_view q q' (pg_cr3 q) S Hi) as [Hi' _]. rewrite E in *. split; [done|]. intros v. rewrite Ht. by rewrite set_cr3_id.
Qed.

Lemma stays_made p root V q q' : made a p root V q → stays q q' → made a p root V q'.
Proof.
  intros M S. destruct (stays_view q q' root S (md_inv _ _ _ _ _ M)) as [Hi' _]. pose proof (λ v, stays_translate q q' root v S (md_inv _ _ _ _ _ M)) as Ht.
  destruct (stays_active q q' S (proj1 (md_active _ _ _ _ _ M))) as [Hia Hta].
  split; try done.
  - apply M.
  - rewrite (st_cr3 _ _ S). apply M.
  - split; [done|]. intros v. rewrite Hta. apply M.
  - intros t i Hp Hn Hir. rewrite (st_mem _ _ S); [by apply M|done| |done]. intros k Hk E. apply (md_used _ _ _ _ _ M); [done|]. by apply Hn.
  - intros j Hj Hu. apply (st_used _ _ S); [done|]. by apply M.
  - intros v Hv. destruct (md_pages _ _ _ _ _ M v Hv) as (j & Hj & E & Hf & Hu). exists j. rewrite Ht. split; [done|]. split; [done|]. split; [done|]. by apply (st_used _ _ S).
  - intros v v' Hv Hv'. rewrite !Ht. by apply M.
  - intros v Hv Hn. rewrite Ht. by apply M.
  - intros v Hv Hn. rewrite Ht. by apply M.
Qed.

(** ** A stack of three pages *)

Lemma page_slot j x : memory_start a mod 4096 = 0 → ∀ t i, page_ok t → 0 ≤ i < 512 → page_addr a j ≤ slot t i < page_addr a (j + 3) → x = slot t i →
  ∃ d, 0 ≤ d < 3 ∧ t = page_addr a (j + d).
Proof.
  intros Hal t i [Ht _] Hi Hr _. unfold page_addr, PMM_PAGE_SIZE, slot in *. apply Z.mod_divide in Ht as [c ->]; [|lia]. apply Z.mod_divide in Hal as [e He]; [|lia].
  rewrite He in *. exists (c - e - j). split; lia.
Qed.

(** Taking three free pages in a row and writing to them. *)
Lemma stack_stays q j b m' : pt_inv a q → 0 ≤ j → j + 3 ≤ total_pages a → (∀ i, j ≤ i < j + 3 → used (pg_bm q) i = false) →
  bm_wf b → (∀ i, in_range i → used b i = ((j <=? i) && (i <? j + 3)) || used (pg_bm q) i) →
  (∀ x, ¬ (page_addr a j ≤ x < page_addr a (j + 3)) → ld64 m' x = ld64 (pg_mem q) x) → stays q (mkPg m' b (pg_cr3 q)).
Proof.
  intros Hi Hj Ht Hf Hb Hu Hm. pose proof (pi_pmm _ _ Hi) as (Htp & _). split; [done|done| |].
  - intros i Hir Hui. cbn. rewrite Hu, Hui by (unfold in_range; lia). apply orb_true_r.
  - intros t i Hp Hn Hir. cbn [pg_mem]. apply Hm. intros Hr.
    destruct (page_slot j _ (proj1 (pi_range _ _ Hi)) t i Hp Hir Hr eq_refl) as (d & Hd & ->).
    specialize (Hn (j + d) ltac:(lia) eq_refl). rewrite Hf in Hn by lia. done.
Qed.

(** A frame on the last page of such a stack, as long as the stack is in use. *)
Lemma frame_kept q q' j : stays q q' → pt_inv a q → 0 ≤ j → j + 3 ≤ total_pages a → used (pg_bm q) (j + 2) = true →
  let krsp := page_addr a j + KERNEL_STACK_SIZE - 8 * 22 in read_frame (pg_mem q') krsp = read_frame (pg_mem q) krsp.
Proof.
  intros S Hi Hj Ht Hu krsp. unfold read_frame. apply list_fmap_ext. intros n i Hn%list_elem_of_lookup_2%elem_of_seqZ.
  replace (krsp + 8 * i) with (slot (page_addr a (j + 2)) (490 + i)) by (subst krsp; unfold slot, page_addr, PMM_PAGE_SIZE, KERNEL_STACK_SIZE; lia).
  apply (st_mem _ _ S); [by apply (page_addr_ok a q); [|lia]| |lia]. intros k Hk E. by apply page_addr_inj in E as <-.
Qed.
End stays.

Lemma read_init_frame m top entry rsp cmd :
  let '(krsp, m') := build_init_frame m top entry rsp cmd in
  krsp = top - 8 * 22 ∧ read_frame m' krsp = replicate 6 0 ++ [cmd] ++ replicate 10 0 ++ [entry; 35; 514; rsp; 27] ∧
  ∀ x, ¬ (top - 8 * 22 ≤ x < top) → ld64 m' x = ld64 m x.
Proof.
  unfold build_init_frame, read_frame. split; [done|]. split.
  - change (seqZ 0 22) with [0;1;2;3;4;5;6;7;8;9;10;11;12;13;14;15;16;17;18;19;20;21]. cbn [fmap list_fmap].
    repeat match goal with |- context [ld64 (push_words _ top 1 _) (top - 8 * 22 + 8 * ?i)] =>
      replace (top - 8 * 22 + 8 * i) with (top - 8 * (22 - i)) by lia end.
    rewrite !ld_push. reflexivity.
  - intros x Hx. cbn [push_words]. rewrite !ld_st_ne by lia. done.
Qed.

Section spawn.
Context {H : Type} `{HL : KHeapLaws H} (a : PmmAllocator) (stale : Z → list Z)
  (Hstale : ∀ f, length (stale f) = 4096%nat ∧ Forall is_byte (stale f)) (top : Z) (b0 : bitmap).
Implicit Types k : kernel H.

Lemma new_stack_cases k : pt_inv a (k_pg k) →
  new_stack a k = Hang ∧ ¬ lined a top b0 (k_bm k) 3 ∨
  ∃ j b, 0 ≤ j ∧ j + 3 ≤ total_pages a ∧ (∀ i, j ≤ i < j + 3 → used (k_bm k) i = false) ∧ bm_wf b ∧
    (∀ i, in_range i → used b i = ((j <=? i) && (i <? j + 3)) || used (k_bm k) i) ∧ new_stack a k = Ret (page_addr a j, set_kbm k b) ∧
    ∀ m, 0 ≤ m → lined a top b0 (k_bm k) (m + 3) → lined a top b0 b m.
Proof using Type.
  intros Hi. unfold new_stack. pose proof (pi_pmm _ _ Hi) as Ha. pose proof Ha as (Ht & _).
  pose proof (λ m Hl Hm, alloc_run a Ha top b0 (k_bm k) m 3 Hl Hm eq_refl) as Hroom.
  destruct (alloc_pages_cases a (k_bm k) 3 Ha (pi_bm _ _ Hi) eq_refl) as [(j & b & Hj & _ & Hjt & Hf & E & Hb & Hu)|[E _]]; rewrite E in *; cbn [mbind outcome_bind];
    [right|left; split; [done|]; intros Hl; by destruct (Hroom 0 Hl ltac:(lia)) as (? & ? & [= <- <-] & ? & _)].
  assert (∀ m, 0 ≤ m → lined a top b0 (k_bm k) (m + 3) → lined a top b0 b m) as Hr by (intros m Hm Hl; by destruct (Hroom m Hl Hm) as (? & ? & [= <- <-] & _ & ?)).
  exists j, b. rewrite (proj2 (Z.eqb_neq _ _)); [by split_and!|]. pose proof (page_addr_u64 a j Ha ltac:(unfold in_range; lia)). lia.
Qed.

(** The state after new frames: only the bitmap and the kernel's memory differ. *)
Definition with_stack k (b : bitmap) (m' : mem) : kernel H := set_m (set_kbm k b) (set_kmem m' (k_m k)).

Lemma with_stack_pg k b m' : k_pg (with_stack k b m') = mkPg m' b (m_cr3 (k_m k)).
Proof using Type. by destruct k as [[? ? ? []] ? ?]. Qed.

(** A stack with a frame for an entry point. *)
Lemma stack_frame k entry rsp cmd : pt_inv a (k_pg k) →
  new_stack a k = Hang ∧ ¬ lined a top b0 (k_bm k) 3 ∨
  ∃ j b m', 0 ≤ j ∧ j + 3 ≤ total_pages a ∧ new_stack a k = Ret (page_addr a j, set_kbm k b) ∧ (∀ m, 0 ≤ m → lined a top b0 (k_bm k) (m + 3) → lined a top b0 b m) ∧
    let ktop := page_addr a j + KERNEL_STACK_SIZE in
    frame_on (set_kbm k b) ktop entry rsp cmd = (ktop - 8 * 22, with_stack k b m') ∧
    (∀ m2, (∀ x, ¬ (page_addr a j ≤ x < page_addr a (j + 3)) → ld64 m2 x = ld64 m' x) → stays a (k_pg k) (mkPg m2 b (m_cr3 (k_m k)))) ∧
    used b (j + 2) = true ∧ read_frame m' (ktop - 8 * 22) = replicate 6 0 ++ [cmd] ++ replicate 10 0 ++ [entry; 35; 514; rsp; 27].
Proof using Type.
  intros Hi. destruct (new_stack_cases k Hi) as [?|(j & b & Hj & Hjt & Hf & Hb & Hu & -> & Hroom)]; [by left|right].
  pose proof (pi_pmm _ _ Hi) as (Ht & _). set (ktop := page_addr a j + KERNEL_STACK_SIZE).
  pose proof (read_init_frame (m_kmem (k_m k)) ktop entry rsp cmd) as F.
  destruct (build_init_frame (m_kmem (k_m k)) ktop entry rsp cmd) as [krsp m'] eqn:E. destruct F as (-> & Hr & Ho).
  exists j, b, m'. split; [done|]. split; [done|]. split; [done|]. split; [done|]. cbv zeta. fold ktop. unfold frame_on. change (m_kmem (k_m (set_kbm k b))) with (m_kmem (k_m k)). rewrite E. split; [done|]. split; [|split; [|exact Hr]].
  - intros m2 Hm2. apply (stack_stays a (k_pg k) j b m2); try done. intros x Hx. rewrite Hm2 by done. apply Ho.
    unfold ktop, KERNEL_STACK_SIZE, page_addr, PMM_PAGE_SIZE in *. lia.
  - rewrite Hu by (unfold in_range; lia). zcases.
Qed.

(** ** Idle *)

Lemma low_kept q q' : stays a q q' → pt_inv a q → has (ld64 (pg_mem q) (slot (read_cr3 q) 0)) PAGE_PRESENT = true →
  has (ld64 (pg_mem q') (slot (read_cr3 q') 0)) PAGE_PRESENT = true.
Proof using Type.
  intros S Hi Hl. replace (read_cr3 q') with (read_cr3 q) by (unfold read_cr3; by rewrite (st_cr3 _ _ _ S)).
  rewrite (st_mem _ _ _ S); [done|apply entry_addr_ok| |lia]. apply (pi_used _ _ Hi []); [by split; [cbn; lia|constructor]|done].
Qed.

(** The frame the idle process starts with: kernel segments. *)
Definition idle_frame (entry ktop : Z) : list Z := replicate 17 0 ++ [entry; 8; 514; ktop; 16].

Lemma idle_segments m krsp entry ktop : read_frame m krsp = replicate 6 0 ++ [0] ++ replicate 10 0 ++ [entry; 35; 514; ktop; 27] →
  read_frame (st64 (st64 m (krsp + 144) 8) (krsp + 168) 16) krsp = idle_frame entry ktop.
Proof using Type.
  intros Hr. unfold read_frame in *. change (seqZ 0 22) with [0;1;2;3;4;5;6;7;8;9;10;11;12;13;14;15;16;17;18;19;20;21] in *. cbn [fmap list_fmap] in *.
  replace (krsp + 8 * 18) with (krsp + 144) in * by lia. replace (krsp + 8 * 21) with (krsp + 168) in * by lia.
  rewrite ld_st_eq. rewrite (ld_st_ne _ (krsp + 168) (krsp + 144)) by lia. rewrite ld_st_eq.
  rewrite !ld_st_ne by lia. unfold idle_frame. cbn [replicate app] in *. injection Hr. intros. repeat f_equal; assumption.
Qed.

Definition idle_process (root entry base : Z) : Process :=
  let ktop := base + KERNEL_STACK_SIZE in first_process 2 root entry 0 ktop (ktop - 8 * 22) base 0 0 idle_name.

(** What is the same before and after the idle process is made. *)
Definition same_rest k k' : Prop :=
  k_ns k' = k_ns k ∧ m_umem (k_m k') = m_umem (k_m k) ∧ CURRENT_PID (k_m k') = CURRENT_PID (k_m k) ∧
  Tty.kb (k_io k') = Tty.kb (k_io k) ∧ Tty.com1 (k_io k') = Tty.com1 (k_io k) ∧ Tty.tty (k_io k') = Tty.tty (k_io k).

Lemma spawn_idle_ok k idle_entry l : pt_inv a (k_pg k) → has (ld64 (pg_mem (k_pg k)) (slot (read_cr3 (k_pg k)) 0)) PAGE_PRESENT = true →
  slots (m_table (k_m k)) = l → (1 < length l)%nat →
  spawn_idle a k idle_entry = Hang ∧ ¬ lined a top b0 (k_bm k) 517 ∨
  ∃ root j k', spawn_idle a k idle_entry = Ret k' ∧ (∀ m, 0 ≤ m → lined a top b0 (k_bm k) (m + 517) → lined a top b0 (k_bm k') m) ∧ same_rest k k' ∧ 0 ≤ j ∧ j + 3 ≤ total_pages a ∧
    m_table (k_m k') = mkTable (<[1%nat := Some (idle_process root idle_entry (page_addr a j))]> l) 3 2 ∧
    stays a (k_pg k) (k_pg k') ∧
    read_frame (m_kmem (k_m k')) (page_addr a j + KERNEL_STACK_SIZE - 8 * 22) = idle_frame idle_entry (page_addr a j + KERNEL_STACK_SIZE) ∧
    pt_inv a (set_cr3 root (k_pg k')) ∧
    (∀ v, 0 ≤ v < 2 ^ 48 → translate (set_cr3 root (k_pg k')) v =
       if (PAGING_USER_CODE_ADDR <=? v) && (v <? 2 ^ 39) then None else translate (k_pg k) v).
Proof using Type.
  intros Hi Hlow Hl Hlen. unfold spawn_idle.
  pose proof (λ e, stack_frame k idle_entry e 0 Hi) as F.
  destruct (new_stack_cases k Hi) as [[-> Hno]|(j0 & bx & _ & _ & _ & _ & _ & E0 & _)].
  { left. split; [done|]. intros Hli. apply Hno, (lined_less a top b0 _ 517); [done|lia]. }
  destruct (F (page_addr a j0 + KERNEL_STACK_SIZE)) as [[E _]|(j & b & m' & Hj & Hjt & E & Hroom & Hf & Hst & Hu & Hr)]; rewrite E in E0; [done|].
  injection E0 as Ej _. assert (j = j0) as <- by (by apply page_addr_inj in Ej). rewrite E. cbn [mbind outcome_bind]. cbv zeta. rewrite Hf.
  set (krsp := page_addr a j + KERNEL_STACK_SIZE - 8 * 22) in *.
  set (m2 := st64 (st64 m' (krsp + 144) 8) (krsp + 168) 16).
  assert (∀ x, ¬ (page_addr a j ≤ x < page_addr a (j + 3)) → ld64 m2 x = ld64 m' x) as Hm2.
  { intros x Hx. subst m2 krsp. unfold page_addr, PMM_PAGE_SIZE, KERNEL_STACK_SIZE in *. rewrite !ld_st_ne by lia. done. }
  pose proof (Hst m2 Hm2) as S1. set (k2 := set_m (with_stack k b m') _). assert (k_pg k2 = mkPg m2 b (m_cr3 (k_m k))) as E2 by (subst k2; by destruct k as [[? ? ? []] ? ?]).
  rewrite <- E2 in S1. destruct (stays_active a _ _ S1 Hi) as [Hi2 Ht2]. pose proof (low_kept _ _ S1 Hi Hlow) as Hlow2.
  destruct (create_new_ok a (k_pg k2) Hi2 Hlow2) as (o & p3 & Ec & Hc3 & Hi3 & Ht3 & Hm3 & Ho). rewrite Ec. cbn [mbind outcome_bind].
  destruct o as [h|]; [right|left].
  2:{ split; [done|]. intros Hli. specialize (Hroom 514 ltac:(lia) Hli). apply lined_spare in Hroom.
      destruct (create_room a (pi_pmm _ _ Hi) top b0 (k_pg k2) 0 None p3) as [[? [=]] _]; [by rewrite E2|lia|done]. }
  destruct Ho as (_ & _ & Hih & Hth & _ & Hu3 & _).
  assert (stays a (k_pg k2) p3) as S2.
  { split; [done|apply Hi3| |done]. intros i Hir Hui. pose proof (pi_pmm _ _ Hi) as (Htp & _). apply Hu3; [unfold in_range; lia|by left]. }
  unfold put_slot. assert (slots (m_table (k_m (put_pg k2 p3))) = l) as El by (subst k2; by destruct k as [[? ? ? []] ? ?]). rewrite El.
  rewrite store_in_range by lia. cbn [mbind outcome_bind]. change (Z.to_nat 1) with 1%nat.
  set (pr := first_process _ _ _ _ _ _ _ _ _ _). set (k' := set_m _ (set_table _ _)).
  assert (k_pg k' = p3) as E3 by (subst k'; by destruct p3, k2 as [[? ? ? []] ? ?]).
  exists (phys h), j, k'. split; [done|]. split.
  { intros m Hm0 Hli. change (k_bm k') with (pg_bm (k_pg k')). rewrite E3. specialize (Hroom (m + 514) ltac:(lia) ltac:(by replace (m + 514 + 3) with (m + 517) by lia)).
    destruct (create_room a (pi_pmm _ _ Hi) top b0 (k_pg k2) m (Some h) p3) as [_ Hl3]; [rewrite E2; by apply lined_spare|done|done|done]. }
  split; [subst k' k2; by destruct k as [[? ? ? []] ? ?]|]. split; [done|]. split; [done|]. split; [done|].
  rewrite E3. split; [by eapply stays_trans|]. split; [|split; [done|]].
  - change (m_kmem (k_m k')) with (pg_mem (k_pg k')). rewrite E3. subst krsp. rewrite (frame_kept a (k_pg k2) p3 j S2 Hi2 Hj Hjt).
    + rewrite E2. cbn [pg_mem]. by apply idle_segments.
    + by rewrite E2.
  - intros v Hv. rewrite Hth by done. by rewrite Ht2.
Qed.

(** ** The descriptors of init *)

Definition console_fds : FdTable := [0; 0; 0] ++ replicate 13 (-1).

Lemma init_fds_ok X k p l : slots (m_table (k_m k)) = Some p :: l → fd_table p = FdTable_new →
  files_wf X (fd_tables k) (k_files k) → fs_oft (k_files k) !! 0%nat = Some None →
  ∃ k', init_fds k = Ret k' ∧ k_pg k' = k_pg k ∧ same_rest (set_kns k (k_ns k')) k' ∧
    m_table (k_m k') = mkTable (Some (set_fd_table console_fds p) :: l) (next_pid (m_table (k_m k))) (count (m_table (k_m k))) ∧
    files_wf X (fd_tables k') (k_files k') ∧
    fs_oft (k_files k') !! 0%nat = Some (Some (mkOF (Some (VStatic (devfs_get_vnode TtyS0))) 0 O_RDWR 438 3)).
Proof using HL.
  intros Hs Hfd Hwf Hfree. unfold init_fds. set (v := VStatic (devfs_get_vnode TtyS0)).
  destruct (oft_alloc_cases (k_files k) v O_RDWR 438) as [(i & Hi & Hn & Hlow & ->)|[Hall _]]; [|by destruct (Hall 0%nat None)].
  assert (i = 0) as -> by (destruct (decide (i = 0)); [done|]; by destruct (Hlow 0%nat None ltac:(lia) Hfree)).
  cbn [mbind outcome_bind]. change (Z.to_nat 0) with 0%nat in *. set (f1 := set_oft (k_files k) _). set (k1 := set_kfiles k f1).
  change (slots (m_table (k_m k1))) with (slots (m_table (k_m k))). rewrite Hs. cbn [index]. rewrite (index_ret _ 0 (Some p)) by done.
  cbn [mbind outcome_bind deref]. rewrite Hfd. change (store FdTable_new 0 (i32 0)) with (Ret (0 :: replicate 15 (-1))).
  cbn [mbind outcome_bind]. change (store (0 :: replicate 15 (-1)) 1 (i32 0)) with (Ret ([0; 0] ++ replicate 14 (-1))).
  cbn [mbind outcome_bind]. change (store ([0; 0] ++ replicate 14 (-1)) 2 (i32 0)) with (Ret console_fds). cbn [mbind outcome_bind].
  rewrite store_in_range by (cbn; lia). cbn [mbind outcome_bind]. change (Z.to_nat 0) with 0%nat. cbn [list_insert insert].
  destruct Hwf as [Htabs Hinv]. pose proof (inv_add_entry X _ _ 0 v O_RDWR 438 Hinv ltac:(lia) Hn I) as Hinv1. fold f1 in Hinv1.
  assert (fs_oft f1 !! 0%nat = Some (Some (mkOF (Some v) 0 O_RDWR 438 1))) as Hf1.
  { subst f1. cbn. rewrite list_lookup_insert_eq; [done|]. by apply lookup_lt_Some in Hfree. }
  set (k2 := set_m k1 _). change (k_files k2) with f1. rewrite (index_ret _ 0 _ Hf1). cbn [mbind outcome_bind].
  rewrite store_in_range by (apply lookup_lt_Some in Hf1; lia). cbn [mbind outcome_bind]. change (Z.to_nat 0) with 0%nat.
  pose proof (inv_same_vnode X _ f1 0 _ (set_refcount (mkOF (Some v) 0 O_RDWR 438 1) 3) 3 Hinv1 ltac:(lia) Hf1 eq_refl eq_refl ltac:(lia)) as Hinv2.
  eexists. split; [done|]. split; [done|]. split; [done|]. split; [done|].
  assert (fd_tables k = FdTable_new :: fd_tables_of l) as Et by (unfold fd_tables; rewrite Hs; cbn; by rewrite Hfd).
  split.
  - change (fd_tables _) with (console_fds :: fd_tables_of l). rewrite Et in *. split.
    + destruct Htabs as [Hl Hf]. split; [done|]. inversion_clear Hf. constructor; [|done]. split; [cbn; lia|]. unfold console_fds. repeat constructor; done.
    + eapply files_inv_ext; [|exact Hinv2]. intros j Hj. unfold OpenFiles.upd. cbn [refs].
      destruct (Z.eqb_spec j 0) as [->|Hne].
      * pose proof (fi_free _ _ _ Hinv 0 Hn ltac:(lia)) as R0. cbn [refs] in R0. change (countb (λ fd, fd =? 0) FdTable_new) with 0 in R0.
        change (countb (λ fd, fd =? 0) console_fds) with 3. lia.
      * f_equal. change FdTable_new with (replicate 16 (-1)). unfold console_fds. cbn [countb replicate app]. rewrite (proj2 (Z.eqb_neq (-1) j)), (proj2 (Z.eqb_neq 0 j)) by lia. exact eq_refl.
  - cbn. rewrite list_lookup_insert_eq; [done|]. by apply lookup_lt_Some in Hf1.
Qed.

Lemma add_empty_tab X tabs c (s : fstate H) : files_wf X tabs s → tabs !! c = Some [] → files_wf X (<[c := FdTable_new]> tabs) s.
Proof using Type.
  intros [Ht Hi] Hc. split; [apply tabs_ok_insert; [done|unfold FdTable_new; rewrite length_replicate; done|by apply Forall_replicate]|].
  eapply files_inv_ext; [|exact Hi]. intros j Hj. rewrite (refs_insert _ _ _ _ _ Hc). change FdTable_new with (replicate 16 (-1)). cbn [countb replicate].
  rewrite (proj2 (Z.eqb_neq (-1) j)) by lia. cbn. lia.
Qed.

(** ** Both *)

(** /sbin/init is a file of the archive with the contents [data]. *)
Definition init_found k (data : list Z) (n : nstate H) : Prop :=
  ∃ v vn off, vfs_resolve (k_ns k) init_path = Ret (inl v, n) ∧ get_vnode (ns_files n) v = Ret vn ∧ vn_data vn = DArchive off ∧
    0 < vn_size vn ∧ arc_bytes (ns_arc n) off (vn_size vn) = Ret data.

Definition init_process (root rsp base : Z) : Process :=
  let ktop := base + KERNEL_STACK_SIZE in
  set_fd_table console_fds (first_process 1 root USER_CODE_ADDR rsp ktop (ktop - 8 * 22) base BRK_START (rsp - 4096) init_name).

Definition init_frame (rsp : Z) : list Z := replicate 6 0 ++ [1] ++ replicate 10 0 ++ [USER_CODE_ADDR; 35; 514; rsp; 27].

Record first_processes (X : gset Z) k k' (data : list Z) (idle_entry root rsp base iroot ibase : Z) : Prop := {
  fp_table : m_table (k_m k') = mkTable (Some (init_process root rsp base) :: Some (idle_process iroot idle_entry ibase) :: replicate 62 None) 3 2;
  fp_current : CURRENT_PID (k_m k') = CURRENT_PID (k_m k);
  fp_rsp : rsp = USER_CODE_ADDR + 4096 * (code_pages (Z.of_nat (length data)) + 1) ∧ rsp ≤ FLAT_USER_LIMIT;
  fp_space : made a (k_pg k) root (flat_page (Z.of_nat (length data))) (k_pg k');
  fp_bytes : ∀ x, USER_CODE_ADDR ≤ x < rsp - 4096 → ld8 (uspace root (m_umem (k_m k'))) x = flat_image data x;
  fp_frame : read_frame (m_kmem (k_m k')) (base + KERNEL_STACK_SIZE - 8 * 22) = init_frame rsp;
  fp_idle : pt_inv a (set_cr3 iroot (k_pg k')) ∧ ∀ v, 0 ≤ v < 2 ^ 48 → translate (set_cr3 iroot (k_pg k')) v =
    if (PAGING_USER_CODE_ADDR <=? v) && (v <? 2 ^ 39) then None else translate (k_pg k) v;
  fp_idle_frame : read_frame (m_kmem (k_m k')) (ibase + KERNEL_STACK_SIZE - 8 * 22) = idle_frame idle_entry (ibase + KERNEL_STACK_SIZE);
  fp_files : files_wf X (fd_tables k') (k_files k');
  fp_console : fs_oft (k_files k') !! 0%nat = Some (Some (mkOF (Some (VStatic (devfs_get_vnode TtyS0))) 0 O_RDWR 438 3))
}.

Lemma init_image_ok k data n m : can_build a (page_addr a top) (k_pg k) → init_found k data n → Forall is_byte data →
  let size := Z.of_nat (length data) in spare a top b0 (k_bm k) (m + image_need size) → 0 < m →
  init_image a stale k = Hang ∧ ¬ flat_fits size ∨
  ∃ i q um, init_image a stale k = Ret (i, set_built (set_kns k n) q um) ∧ lined a top b0 (pg_bm q) m ∧
    fi_stack_low i = USER_CODE_ADDR + 4096 * code_pages (Z.of_nat (length data)) ∧ fi_user_rsp i = fi_stack_low i + 4096 ∧
    fi_user_rsp i ≤ FLAT_USER_LIMIT ∧ made a (k_pg k) (phys (fi_root i)) (flat_page (Z.of_nat (length data))) q ∧
    ∀ x, USER_CODE_ADDR ≤ x < fi_stack_low i → ld8 (uspace (phys (fi_root i)) um) x = flat_image data x.
Proof using Hstale.
  intros [Hi Hp Hl Hself] (v & vn & off & Hr & Hv & Hd & Hs & Hb) Hbytes size Hsp Hm. unfold init_image. rewrite Hr. cbn [mbind outcome_bind].
  change (k_files (set_kns k n)) with (ns_files n). change (k_ns (set_kns k n)) with n. rewrite Hv. cbn [mbind outcome_bind].
  unfold program_at. rewrite Hd. cbn [data_is_null orb]. rewrite (proj2 (Z.gtb_lt _ _)) by lia. cbn [negb mbind outcome_bind]. rewrite Hb. cbn [mbind outcome_bind].
  change (k_pg (set_kns k n)) with (k_pg k).
  pose proof (λ Hf, build_flat_room a top b0 (k_pg k) stale data (m_umem (k_m (set_kns k n))) m Hi Hp Hself Hl Hf Hsp Hm) as Hroom. unfold build_flat_image in *.
  assert (low_first a (page_addr a top) (flat_need size) (pg_bm (k_pg k))) as Hlf.
  { apply (spare_low a top b0); [|unfold flat_need, code_pages; lia]. apply (spare_less a top b0 _ _ _ Hsp). unfold flat_need, image_need. lia. }
  destruct (build_flat_ok a (k_pg k) Hi Hp Hl stale Hstale (page_addr a top) data (m_umem (k_m (set_kns k n))) None Hbytes Hself Hlf) as (r & q & um & E & _ & Hres).
  rewrite E in *. cbn [mbind outcome_bind]. destruct r as [i|e]; [right|left].
  2:{ split; [done|]. intros Hf. by destruct (Hroom Hf) as (? & ? & ? & [=] & _). }
  destruct Hres as (? & ? & ? & ? & ?). exists i, q, um. split; [done|]. split; [|by split_and!].
  destruct Hroom as (? & ? & ? & [= <- <- <-] & ?); [|done]. split; [|unfold size in *; lia].
  destruct (decide (size = 0)) as [E0|]; [|lia]. unfold build_flat_image_inner in E. fold size in E. rewrite E0 in E. discriminate E.
Qed.

(** What the first two processes may take: the image of init, two stacks and the address space of idle. *)
Definition spawn_need (size : Z) : Z := image_need size + 520.

Lemma spawn_init_ok X k data n idle_entry : can_build a (page_addr a top) (k_pg k) → init_found k data n → Forall is_byte data →
  m_table (k_m k) = mkTable (replicate 64 None) 1 0 → files_wf X (replicate 64 []) (ns_files n) → fs_oft (ns_files n) !! 0%nat = Some None →
  let size := Z.of_nat (length data) in spare a top b0 (k_bm k) (spawn_need size) →
  match spawn_init a stale k idle_entry with
  | Ret (pid, k') => pid = 1 ∧ above a top b0 (k_bm k') ∧ ∃ root rsp base iroot ibase, first_processes X k k' data idle_entry root rsp base iroot ibase
  | Hang => ¬ flat_fits size
  | _ => False
  end.
Proof using HL Hstale.
  intros Hcb Hfound Hbytes Htab Hfiles Hoft size Hsp. pose proof Hcb as [Hi Hplain Hlow _]. unfold spawn_init.
  destruct (init_image_ok k data n 520 Hcb Hfound Hbytes) as [[-> Hno]|(i & q & um & -> & Hroom & Hlo & Hrsp & Hlim & Hm & Hb)];
    [fold size; unfold spawn_need in Hsp; by rewrite Z.add_comm|lia|done|].
  cbn [mbind outcome_bind]. cbv zeta.
  destruct (built_fields (set_kns k n) q um) as (Epg & Eum & Et & Ec & _ & En). cbv zeta in *. set (k1 := set_built (set_kns k n) q um) in *.
  rewrite <- Epg in Hm. pose proof (proj1 (md_active _ _ _ _ _ Hm)) as Hi1.
  destruct (stack_frame k1 USER_CODE_ADDR (fi_user_rsp i) 1 Hi1) as [[-> Hno]|(j & b & m' & Hj & Hjt & -> & Hroom1 & Hf & Hst & Hu & Hr)].
  { exfalso. apply Hno. apply (lined_less a top b0 _ 520); [|lia]. change (k_bm k1) with (pg_bm (k_pg k1)). by rewrite Epg. }
  cbn [mbind outcome_bind]. rewrite Hf. set (ktop := page_addr a j + KERNEL_STACK_SIZE) in *. set (k2 := with_stack k1 b m') in *.
  pose proof (Hst m' (λ x _, eq_refl)) as S2. rewrite <- (with_stack_pg k1 b m') in S2. fold k2 in S2.
  unfold put_slot. assert (m_table (k_m k2) = mkTable (replicate 64 None) 1 0) as E2 by (change (m_table (k_m k2)) with (m_table (k_m k1)); by rewrite Et).
  rewrite E2. rewrite store_in_range by (cbn; lia). cbn [mbind outcome_bind slots]. change (Z.to_nat 0) with 0%nat. cbn [insert list_insert replicate].
  set (p1 := first_process _ _ _ _ _ _ _ _ _ _). set (k3 := set_m k2 _).
  assert (slots (m_table (k_m k3)) = Some p1 :: replicate 63 None) as E3 by done. assert (k_pg k3 = k_pg k2) as Epg3 by done.
  assert (k_ns k3 = n) as En3 by exact En.
  assert (files_wf X (fd_tables k3) (k_files k3)) as Hf3.
  { unfold k_files. rewrite En3. unfold fd_tables. rewrite E3. by apply (add_empty_tab X (replicate 64 []) 0). }
  destruct (init_fds_ok X k3 p1 (replicate 63 None) E3 eq_refl Hf3) as (k4 & -> & Epg4 & (_ & Eum4 & Ecur4 & _) & Et4 & Hf4 & Hcons);
    [by unfold k_files; rewrite En3|]. cbn [mbind outcome_bind].
  assert (stays a (k_pg k1) (k_pg k4)) as S4 by (by rewrite Epg4).
  destruct (stays_active a _ _ S4 Hi1) as [Hi4 Ht4].
  assert (has (ld64 (pg_mem (k_pg k1)) (slot (read_cr3 (k_pg k1)) 0)) PAGE_PRESENT = true) as Hlow1.
  { replace (read_cr3 (k_pg k1)) with (read_cr3 (k_pg k)) by (unfold read_cr3; by rewrite (md_cr3 _ _ _ _ _ Hm)).
    rewrite (md_mem _ _ _ _ _ Hm); [done|apply entry_addr_ok| |lia]. apply (pi_used _ _ Hi []); [by split; [cbn; lia|constructor]|done]. }
  assert (lined a top b0 (k_bm k4) 517) as Hl4.
  { change (k_bm k4) with (pg_bm (k_pg k4)). rewrite Epg4, Epg3. unfold k2. rewrite with_stack_pg. apply Hroom1; [lia|]. change (k_bm k1) with (pg_bm (k_pg k1)). by rewrite Epg. }
  destruct (spawn_idle_ok k4 idle_entry _ Hi4 (low_kept _ _ S4 Hi1 Hlow1) eq_refl) as [[-> Hno]|(iroot & j2 & k5 & -> & Hroom5 & (En5 & Eum5 & Ecur5 & _) & Hj2 & Hjt2 & Et5 & S5 & Hr5 & Hiv & Htr)];
    [rewrite Et4; cbn; lia| |].
  { by destruct Hno. }
  cbn [mbind outcome_bind]. split; [done|]. split; [apply (Hroom5 0 ltac:(lia) Hl4)|].
  exists (phys (fi_root i)), (fi_user_rsp i), (page_addr a j), iroot, (page_addr a j2).
  assert (p1 = first_process 1 (phys (fi_root i)) USER_CODE_ADDR (fi_user_rsp i) ktop (ktop - 8 * 22) (page_addr a j) BRK_START (fi_user_rsp i - 4096) init_name) as Ep1 by done.
  split.
  - rewrite Et5, Et4. cbn [slots insert list_insert replicate]. rewrite Ep1. exact eq_refl.
  - rewrite Ecur5, Ecur4. change (CURRENT_PID (k_m (set_kns k3 (k_ns k4)))) with (CURRENT_PID (k_m k1)). by rewrite Ec.
  - rewrite Hrsp, Hlo in *. split; [lia|done].
  - apply (stays_made a _ _ _ (k_pg k1)); [done|]. by eapply stays_trans.
  - intros x Hx. rewrite Eum5, Eum4. change (m_umem (k_m (set_kns k3 (k_ns k4)))) with (m_umem (k_m k1)). rewrite Eum. apply Hb. lia.
  - change (m_kmem (k_m k5)) with (pg_mem (k_pg k5)). rewrite (frame_kept a (k_pg k4) (k_pg k5) j S5 Hi4 Hj Hjt).
    + rewrite Epg4, Epg3. exact Hr.
    + rewrite Epg4, Epg3. exact Hu.
  - split; [exact Hiv|]. intros v Hv. rewrite (Htr v Hv), Ht4. by rewrite (proj2 (md_active _ _ _ _ _ Hm)).
  - exact Hr5.
  - unfold k_files, fd_tables in *. rewrite En5, Et5. cbn [slots]. rewrite Et4 in *. cbn [slots] in *. apply (add_empty_tab X _ 1) in Hf4; [exact Hf4|done].
  - unfold k_files in *. by rewrite En5.
Qed.

End spawn.

(** ** Starting the scheduler *)

Lemma two_slots (p1 p2 : Process) i p : (Some p1 :: Some p2 :: replicate 62 None) !! i = Some (Some p) → i = 0%nat ∧ p = p1 ∨ i = 1%nat ∧ p = p2.
Proof. destruct i as [|[|i]]; cbn [lookup list_lookup]; [naive_solver|naive_solver|]. intros [? _]%lookup_replicate. done. Qed.

Lemma two_table_wf p1 p2 : pid p1 = 1 → pid p2 = 2 → pt_wf (mkTable (Some p1 :: Some p2 :: replicate 62 None) 3 2).
Proof.
  intros E1 E2. split; cbn [slots next_pid count].
  - done.
  - intros i j q1 q2 H1 H2 E. apply two_slots in H1 as [[-> ->]|[-> ->]], H2 as [[-> ->]|[-> ->]]; done || lia.
  - intros i p [[_ ->]|[_ ->]]%two_slots; lia.
  - done.
Qed.

Lemma two_procs p1 p2 q m : pid p1 = 1 → pid p2 = 2 → slots (m_table m) = Some p1 :: Some p2 :: replicate 62 None →
  procs m q = if q =? 1 then Some p1 else if q =? 2 then Some p2 else None.
Proof.
  intros E1 E2 Es. unfold procs. rewrite Es. pose proof (pt_unique _ (two_table_wf p1 p2 E1 E2)) as Hu. cbn [slots] in Hu.
  apply option_eq. intros p. split; [intros Hl; apply (lookup_proc_iff _ _ _ Hu) in Hl; revert Hl|intros Hl; apply (lookup_proc_iff _ _ _ Hu); revert Hl].
  - intros [<- [i Hi]]. apply two_slots in Hi as [[_ ->]|[_ ->]]; [by rewrite E1|by rewrite E2].
  - destruct (Z.eqb_spec q 1) as [->|]; [intros [= <-]; split; [done|by exists 0%nat]|].
    destruct (Z.eqb_spec q 2) as [->|]; [intros [= <-]; split; [done|by exists 1%nat]|done].
Qed.

(** What the first process is started with. *)
Record started (m m' : machine) (p : Process) : Prop := {
  sd_inv : sched_inv m';
  sd_current : CURRENT_PID m' = 1;
  sd_proc : procs m' 1 = Some (set_state Running p);
  sd_others : ∀ q, q ≠ 1 → procs m' q = procs m q;
  sd_cr3 : m_cr3 m' = pml4_phys p;
  sd_stacks : m_rsp0 m' = kernel_stack_top p ∧ current_proc_kernel_rsp m' = kernel_stack_top p;
  sd_mem : m_kmem m' = m_kmem m ∧ m_umem m' = m_umem m;
  sd_fds : fd_tables_of (slots (m_table m')) = fd_tables_of (slots (m_table m))
}.

Lemma start_ok m p1 p2 : slots (m_table m) = Some p1 :: Some p2 :: replicate 62 None → next_pid (m_table m) = 3 → count (m_table m) = 2 →
  pid p1 = 1 → pid p2 = 2 → sigs_wf p1 → sigs_wf p2 → state p2 = Ready →
  ∃ m', start_scheduler m 1 = Ret (kernel_rsp p1, m') ∧ started m m' p1.
Proof.
  intros Es En Ec E1 E2 W1 W2 R2. unfold start_scheduler.
  assert (procs m 1 = Some p1) as P1 by (by rewrite (two_procs p1 p2)).
  rewrite (process_ret (set_current_pid 1 m) 1 p1 P1). cbn [mbind outcome_bind]. set (m1 := write_cr3 _ _).
  assert (procs m1 1 = Some p1) as P1' by exact P1. rewrite (process_mut_ret m1 1 p1 _ P1'). cbn [mbind outcome_bind].
  eexists. split; [done|]. set (m' := Process.upd m1 1 (set_state Running)).
  assert (∀ q, procs m' q = if q =? 1 then Some (set_state Running p1) else procs m q) as Hp.
  { intros q. subst m'. rewrite (procs_upd m1 1 p1) by done. by destruct (q =? 1). }
  assert (slots (m_table m') = Some (set_state Running p1) :: Some p2 :: replicate 62 None) as Es'.
  { assert (update_slots (slots (m_table m1)) 1 (set_state Running) = Some (Some (set_state Running p1) :: Some p2 :: replicate 62 None)) as Eu.
    { change (slots (m_table m1)) with (slots (m_table m)). rewrite Es. unfold update_slots, find_slot. cbn [position has_pid]. rewrite E1. done. }
    subst m'. unfold Process.upd. cbn [m_table set_table slots]. by rewrite Eu. }
  assert (m_table m' = mkTable (Some (set_state Running p1) :: Some p2 :: replicate 62 None) 3 2) as Et.
  { rewrite <- Es', <- En, <- Ec. subst m'. done. }
  split; [|exact eq_refl| | |exact eq_refl|by split|by split|by rewrite Es', Es].
  - split.
    + rewrite Et. by apply two_table_wf.
    + intros q p. rewrite Hp. destruct (q =? 1); [by intros [= <-]|]. rewrite (two_procs p1 p2) by done. repeat case_match; naive_solver.
    + change (CURRENT_PID m') with 1. rewrite Hp. by eexists.
    + intros q p. rewrite Hp. change (CURRENT_PID m') with 1. destruct (Z.eqb_spec q 1) as [|Hq]; [done|]. rewrite (two_procs p1 p2) by done.
      rewrite (proj2 (Z.eqb_neq _ _) Hq). destruct (q =? 2); [|done]. intros [= <-]. by rewrite R2.
    + exists p2. rewrite Hp. cbn [Z.eqb Pos.eqb]. rewrite (two_procs p1 p2) by done. by split; [|left].
  - by rewrite Hp.
  - intros q Hq. rewrite Hp. by rewrite (proj2 (Z.eqb_neq _ _) Hq).
Qed.

(** ** A timer tick during the start *)

Section race.
Context (m : machine) (p1 p2 : Process) (Hs : slots (m_table m) = Some p1 :: Some p2 :: replicate 62 None)
  (Hn : next_pid (m_table m) = 3) (Hc : count (m_table m) = 2) (E1 : pid p1 = 1) (E2 : pid p2 = 2)
  (W1 : sigs_wf p1) (W2 : sigs_wf p2) (R1 : state p1 = Ready) (R2 : state p2 = Ready).

(** The scheduler's invariant holds as soon as the process to start is the current one. *)
Lemma starting_inv : sched_inv (set_current_pid 1 m).
Proof using All.
  pose proof (λ q, two_procs p1 p2 q (set_current_pid 1 m) E1 E2 Hs) as Hp.
  split; [|intros q p|change (CURRENT_PID _) with 1|intros q p|]; rewrite ?Hp.
  - change (m_table (set_current_pid 1 m)) with (m_table m). destruct (m_table m) as [sl nx ct]. cbn in *. subst. by apply two_table_wf.
  - repeat case_match; naive_solver.
  - by eexists.
  - repeat case_match; [|intros [= <-]; by rewrite R2|done]. intros [= <-]. by rewrite R1.
  - exists p2. by split; [|left].
Qed.

(** What [start_scheduler] jumps to is what is saved for the process. *)
Lemma start_saved m' p : procs m' 1 = Some p → ∃ m'', start_scheduler m' 1 = Ret (kernel_rsp p, m'').
Proof using.
  intros Hp. unfold start_scheduler. rewrite (process_ret (set_current_pid 1 m') 1 p Hp). cbn [mbind outcome_bind].
  set (m1 := write_cr3 _ _). rewrite (process_mut_ret m1 1 p _ Hp). by eexists.
Qed.
End race.

(** A timer tick while the first process is being started.  [kernel_main] enables interrupts before
    it starts the scheduler.  When a tick comes after [start_scheduler] has made init the
    current process, with the boot code interrupted at stack pointer [rsp], the tick saves [rsp] as
    the stack pointer of init; when the boot code goes on, it jumps to that frame and no longer to the one
    [spawn_init] made, which no process slot refers to any more. *)
Theorem tick_loses_first_frame (s : Tty.io) (p1 p2 : Process) (rsp : Z)
  (Hslots : m_table (Tty.mach s) = mkTable (Some p1 :: Some p2 :: replicate 62 None) 3 2)
  (Hpids : pid p1 = 1 ∧ pid p2 = 2) (Hsigs : sigs_wf p1 ∧ sigs_wf p2) (Hready : state p1 = Ready ∧ state p2 = Ready)
  (Htty : Tty.tty_wf (Tty.tty s)) (Hkb : Keyboard.kbd_wf (Tty.kb s)) :
  (∃ m', start_scheduler (Tty.mach s) 1 = Ret (kernel_rsp p1, m')) ∧
  ∃ krsp s' m', scheduler_tick (Tty.set_mach (set_current_pid 1 (Tty.mach s)) s) rsp = Ret (krsp, s') ∧
    start_scheduler (Tty.mach s') 1 = Ret (rsp, m').
Proof.
  destruct Hpids as [E1 E2], Hsigs as [W1 W2], Hready as [R1 R2].
  assert (slots (m_table (Tty.mach s)) = Some p1 :: Some p2 :: replicate 62 None) as Es by (by rewrite Hslots).
  split; [apply start_saved; by rewrite (two_procs p1 p2)|].
  destruct (scheduler_tick_ok (Tty.set_mach (set_current_pid 1 (Tty.mach s)) s) rsp) as (krsp & s' & Et & _ & _ & _ & p & Hp & <-);
    [apply (starting_inv _ p1 p2); by rewrite ?Hslots|done|done|done|].
  destruct (start_saved (Tty.mach s') p Hp) as [m' Em]. by exists krsp, s', m'.
Qed.

(** ** Example *)

(** An archive of one file, sbin/init. *)
Definition init_tar : list tar_file := [mkTar [115; 98; 105; 110; 47; 105; 110; 105; 116] [144; 144; 235; 254] 48].

Definition sched_ready : machine :=
  mkM (mkTable (Some (init_process 4096 8192 12288) :: Some (idle_process 4096 99 24576) :: replicate 62 None) 3 2) 0 0 ∅ ∅ 4096 0 0 (mkSaved 0 0 0) [] 0.

Lemma tick_loses_first_frame_witness : ∃ krsp s' m',
  scheduler_tick (Tty.set_mach (set_current_pid 1 (sched_ready)) (Tty.demo_io sched_ready)) 5000 = Ret (krsp, s') ∧
  start_scheduler (Tty.mach s') 1 = Ret (5000, m').
Proof.
  destruct (tick_loses_first_frame (Tty.demo_io sched_ready) (init_process 4096 8192 12288) (idle_process 4096 99 24576) 5000) as [_ R];
    [reflexivity|split; reflexivity|split; repeat constructor|split; reflexivity|apply Tty.new_wf|split_and!; reflexivity|exact R].
Defined.
