(* ===== verification/BootRoom.v ===== *)
(** * The memory the boot sequence needs

    When the pages behind the kernel's image are one run of free pages, what the memory phase of the
    boot leaves of it. *)

From Stdlib Require Import ZArith Lia String.
From stdpp Require Import base numbers list list_numbers option gmap.
From S2P Require Import Prelude Pmm Memory Kmm Paging PageMaps PageSpec Reach Serial Interrupts Console BootMem BootPages BootSpec Room.

Local Open Scope Z_scope.

(** The heap's 256 pages are the lowest free ones, and all pages that are free below the page [n] behind the kernel's
    image are the heap's or the image's; from [n] on there are [m] free pages before page [top]. *)
Definition enough (a : PmmAllocator) (bm : bitmap) (ke top m : Z) : Prop :=
  ∃ k n, (0 ≤ k ∧ (∀ j, 0 ≤ j < k → used bm j = true) ∧ k + 256 ≤ total_pages a ∧
     (∀ j, k ≤ j < k + 256 → used bm j = false) ∧ page_addr a (k + 256) ≤ KERNEL_START) ∧
    0 ≤ n ∧ n + m ≤ top ∧ top ≤ total_pages a ∧ KERNEL_START + image_size ke ≤ page_addr a n ∧
    (∀ j, 0 ≤ j < n → used bm j = true ∨ k ≤ j < k + 256 ∨ touches a KERNEL_START (image_size ke) j = true) ∧
    ∀ j, n ≤ j < n + m → used bm j = false.

(** ** The checked operations *)

Lemma st_via_bm s x v s' : st_via s x v = Ret s' → pg_bm s' = pg_bm s.
Proof. unfold st_via. destruct (direct s x); [by intros [= <-]|discriminate]. Qed.

Lemma zero_via_bm n : ∀ s x s', zero_words_via s x n = Ret s' → pg_bm s' = pg_bm s.
Proof.
  induction n as [|n IH]; intros s x s'; cbn [zero_words_via]; [by intros [= <-]|].
  destruct (st_via s x 0) as [s1| | |] eqn:E; cbn [mbind outcome_bind]; try discriminate. intros ->%IH. by apply st_via_bm in E.
Qed.

Lemma set_user_via_bm s e s' : set_user_via s e = Ret s' → pg_bm s' = pg_bm s.
Proof. unfold set_user_via. destruct (ld_via s e) as [x| | |]; cbn [mbind outcome_bind]; try discriminate. apply st_via_bm. Qed.

Lemma unmap_via_bm s v o s' : unmap_via s v = Ret (o, s') → pg_bm s' = pg_bm s.
Proof.
  unfold unmap_via. destruct (indices v) as [[[i4 i3] i2] i1]. destruct (ld_via s (slot (read_cr3 s) i4)) as [e4| | |]; cbn [mbind outcome_bind]; try discriminate.
  destruct (negb _); [by intros [= _ <-]|]. destruct (ld_via s _) as [e3| | |]; cbn [mbind outcome_bind]; try discriminate. destruct (negb _); [by intros [= _ <-]|].
  cbv zeta. destruct (ld_via s _) as [e2| | |]; cbn [mbind outcome_bind]; try discriminate. destruct (negb _); [by intros [= _ <-]|].
  assert (∀ x (r : option Z), (s ← st_via s x 0; Ret (r, s)) = Ret (o, s') → pg_bm s' = pg_bm s) as Hst.
  { intros x r. destruct (st_via s x 0) as [s1| | |] eqn:E; cbn [mbind outcome_bind]; try discriminate. intros [= _ <-]. by apply st_via_bm in E. }
  destruct (has e2 PAGE_HUGE); [apply Hst|]. destruct (ld_via s _) as [e1| | |]; cbn [mbind outcome_bind]; try discriminate. destruct (negb _); [by intros [= _ <-]|apply Hst].
Qed.

Section room.
Context (a : PmmAllocator) (Ha : pmm_wf a) (top : Z) (b0 : bitmap).
Implicit Types (s : pg) (m : Z).

Lemma table_via_room s e m r s' : spare a top b0 (pg_bm s) (m + 1) → 0 ≤ m → get_or_create_table_via a s e = Ret (r, s') →
  spare a top b0 (pg_bm s') m ∧ (lined a top b0 (pg_bm s) (m + 1) → lined a top b0 (pg_bm s') m).
Proof using Ha.
  intros Hs Hm. unfold get_or_create_table_via. destruct (ld_via s e) as [x| | |]; cbn [mbind outcome_bind]; try discriminate. destruct (has x PAGE_PRESENT).
  - intros [= _ <-]. split; [apply (spare_less a top b0 _ (m + 1)); [done|lia]|]. intros Hl. apply (lined_less a top b0 _ (m + 1)); [done|lia].
  - destruct (pmm_alloc_room a Ha top b0 s m Hs Hm) as (p & b' & -> & Hnz & Hl & _). cbn [mbind outcome_bind]. rewrite Hnz.
    destruct (zero_table_via _ p) as [s1| | |] eqn:E1; cbn [mbind outcome_bind]; try discriminate. apply zero_via_bm in E1.
    destruct (st_via s1 e _) as [s2| | |] eqn:E2; cbn [mbind outcome_bind]; try discriminate. apply st_via_bm in E2. intros [= _ <-]. rewrite E2, E1.
    split; [by apply lined_spare|done].
Qed.

Lemma map_4k_via_room s v p f m s' : lined a top b0 (pg_bm s) (m + 3) → 0 ≤ m → map_4k_via a s v p f = Ret s' → lined a top b0 (pg_bm s') m.
Proof using Ha.
  intros Hs Hm. unfold map_4k_via. destruct (_ && _); [intros [= <-]; apply (lined_less a top b0 _ (m + 3)); [done|lia]|].
  destruct (indices v) as [[[i4 i3] i2] i1]. replace (m + 3) with (m + 1 + 1 + 1) in Hs by lia.
  destruct (get_or_create_table_via a s _) as [[l3 s1]| | |] eqn:E1; cbn [mbind outcome_bind]; try discriminate.
  apply (table_via_room s _ (m + 1 + 1)) in E1 as [_ H1]; [|by apply lined_spare|lia]. specialize (H1 Hs).
  destruct (get_or_create_table_via a s1 _) as [[l2 s2]| | |] eqn:E2; cbn [mbind outcome_bind]; try discriminate.
  apply (table_via_room s1 _ (m + 1)) in E2 as [_ H2]; [|by apply lined_spare|lia]. specialize (H2 H1).
  destruct (get_or_create_table_via a s2 _) as [[l1 s3]| | |] eqn:E3; cbn [mbind outcome_bind]; try discriminate.
  apply (table_via_room s2 _ m) in E3 as [_ H3]; [|by apply lined_spare|lia]. specialize (H3 H2).
  destruct (st_via s3 _ _) as [s4| | |] eqn:E4; cbn [mbind outcome_bind]; try discriminate. apply st_via_bm in E4. rewrite <- E4 in H3.
  destruct (has f PAGE_USER); [|by intros [= <-]].
  destruct (set_user_via s4 _) as [s5| | |] eqn:E5; cbn [mbind outcome_bind]; try discriminate. apply set_user_via_bm in E5.
  destruct (set_user_via s5 _) as [s6| | |] eqn:E6; cbn [mbind outcome_bind]; try discriminate. apply set_user_via_bm in E6. intros E7%set_user_via_bm. by rewrite E7, E6, E5.
Qed.

Lemma map_2m_loop_via_room v p f n : ∀ s i m s', spare a top b0 (pg_bm s) (m + 2 * Z.of_nat n) → 0 ≤ m → map_2m_loop_via a s v p f i n = Ret s' → spare a top b0 (pg_bm s') m.
Proof using Ha.
  induction n as [|n IH]; intros s i m s' Hs Hm; cbn [map_2m_loop_via]; [intros [= <-]; apply (spare_less a top b0 _ (m + 2 * Z.of_nat 0)); [done|lia]|].
  replace (m + 2 * Z.of_nat (S n)) with (m + 2 * Z.of_nat n + 1 + 1) in Hs by lia. unfold map_2m_via. destruct (indices _) as [[[i4 i3] i2] i1].
  destruct (get_or_create_table_via a s _) as [[l3 s1]| | |] eqn:E1; cbn [mbind outcome_bind]; try discriminate.
  apply (table_via_room s _ (m + 2 * Z.of_nat n + 1)) in E1 as [H1 _]; [|done|lia].
  destruct (get_or_create_table_via a s1 _) as [[l2 s2]| | |] eqn:E2; cbn [mbind outcome_bind]; try discriminate.
  apply (table_via_room s1 _ (m + 2 * Z.of_nat n)) in E2 as [H2 _]; [|done|lia].
  destruct (ld_via s2 _) as [e| | |]; cbn [mbind outcome_bind]; try discriminate. destruct (negb _); cbn [mbind outcome_bind]; [|by apply IH].
  destruct (st_via s2 _ _) as [s3| | |] eqn:E3; cbn [mbind outcome_bind]; try discriminate. apply st_via_bm in E3. apply IH; [by rewrite E3|done].
Qed.

(** The test gives its page back and keeps the tables on the way to it. *)
Lemma paging_test_room p (c : serial) m p' (c' : serial) : lined a top b0 (pg_bm p) (m + 4) → 0 ≤ m → paging_test a p c = Ret (p', c') → spare a top b0 (pg_bm p') m.
Proof using Ha.
  intros Hl Hm. replace (m + 4) with (m + 3 + 1) in Hl by lia. unfold paging_test.
  destruct (pmm_alloc_room a Ha top b0 p (m + 3) (lined_spare a top b0 _ _ Hl) ltac:(lia)) as (f & b & -> & Hnz & Hl1 & k & Hk & ->). cbn [mbind outcome_bind]. rewrite Hnz.
  destruct (map_4k_via a _ _ _ _) as [p1| | |] eqn:E1; cbn [mbind outcome_bind]; try discriminate. apply (map_4k_via_room _ _ _ _ m) in E1; [|done|done].
  unfold store_at. destruct (translate p1 TEST_VADDR); cbn [mbind outcome_bind]; [|discriminate]. set (p2 := pg_st p1 _ _).
  assert (lined a top b0 (pg_bm p2) m) as Hl3 by exact E1. clearbody p2.
  match goal with |- (mbind _ ?o) = _ → _ => destruct o as [s1| | |]; cbn [mbind outcome_bind]; try discriminate end.
  destruct (unmap_via p2 TEST_VADDR) as [[e p3]| | |] eqn:E3; cbn [mbind outcome_bind]; try discriminate. apply unmap_via_bm in E3. unfold pmm_free.
  destruct (free a (pg_bm p3) (page_addr a k)) as [b4| | |] eqn:E; cbn [mbind outcome_bind]; try discriminate. intros [= <- _]. cbn [pg_bm set_bm].
  rewrite E3 in E. by apply (free_room a Ha top b0 (pg_bm p2) m k).
Qed.
End room.

Lemma boot_memory_room rd32 mbi kie p m0 h s fuel a bm s1 p' mh s' m top :
  detect_memory rd32 mbi (pg_bm p) s fuel = Ret (a, bm, s1) → memory_found a bm (kernel_end kie) → (6 < fuel)%nat →
  enough a bm (kernel_end kie) top (m + 36) → 0 ≤ m → boot_memory rd32 mbi kie p m0 h s fuel = Ret (a, p', mh, s') → spare a top bm (pg_bm p') m.
Proof.
  intros Hd F Hfuel (k & n & (Hk & Hklow & Hkt & Hkf & Hka) & Hn & Hnt & Htop & Hna & Hlow & Hf) Hm.
  pose proof (mf_pmm _ _ _ F) as Ha. pose proof Ha as (Ht & _). unfold boot_memory. rewrite Hd. cbn [mbind outcome_bind].
  destruct (image_reserved a bm _ F kie eq_refl) as (bm1 & -> & Hb1 & Hu1). cbn [mbind outcome_bind].
  destruct (tests_pass a bm _ F bm1 m0 h s1 fuel Hb1 Hu1 Hfuel) as (-> & bm2 & m1 & h1 & m2 & h2 & Ek & Et & _). cbn [mbind outcome_bind].
  assert (∀ j, k ≤ j < k + 256 → touches a KERNEL_START (image_size (kernel_end kie)) j = false) as Hkn.
  { intros j Hj. apply (untouched a). left. unfold page_addr, PMM_PAGE_SIZE in *. lia. }
  destruct (kmm_init_at a bm1 m0 h k Ha (mf_align _ _ _ F) Hb1 Hk Hkt) as (bm2' & m1' & h1' & Ek' & _ & _ & Hb2 & Hu2).
  { intros j Hj. rewrite Hu1, Hklow by (unfold in_range; lia || lia). apply orb_true_r. }
  { intros j Hj. rewrite Hu1, Hkf by (unfold in_range; lia || lia). rewrite Hkn by done. done. }
  rewrite Ek in Ek'. injection Ek' as <- <- <-. rewrite Ek. cbn [mbind outcome_bind]. rewrite Et. cbn [mbind outcome_bind].
  assert (k + 256 ≤ n) as Hkn2 by (unfold page_addr, PMM_PAGE_SIZE, image_size in *; lia).
  assert (∀ j, n ≤ j → touches a KERNEL_START (image_size (kernel_end kie)) j = false) as Hbehind by (intros j Hj; apply (untouched a); right; unfold page_addr, PMM_PAGE_SIZE in *; lia).
  assert (lined a top bm bm2 (m + 36)) as Hl.
  { split.
    { split; [done|]. split; [done|]. intros j Hj. rewrite Hu2, Hu1, Hbehind by (unfold in_range; lia || lia). zcases; lia. }
    exists n. split; [done|]. split; [done|]. split; intros j Hj; rewrite Hu2, Hu1 by (unfold in_range; lia).
    - destruct (Hlow j Hj) as [-> |[Hr| ->]]; rewrite ?orb_true_r; [done| |done]. zcases; lia.
    - rewrite Hf, Hbehind by (done || lia). zcases; lia. }
  destruct (paging_test a (set_bm bm2 p) _) as [[p3 s3]| | |] eqn:Ep; cbn [mbind outcome_bind]; try discriminate.
  apply (paging_test_room a Ha top bm (set_bm bm2 p) _ (m + 32)) in Ep; [|by replace (m + 32 + 4) with (m + 36) by lia|lia].
  rewrite extend_loop. destruct (map_2m_loop_via a p3 0 0 PAGE_KERNEL_HUGE 0 16) as [p4| | |] eqn:E4; cbn [mbind outcome_bind]; try discriminate.
  apply (map_2m_loop_via_room a Ha top bm _ _ _ 16 p3 0 m) in E4; [|done|done]. intros [= _ <- _ _]. exact E4.
Qed.
