(* ===== verification/BootFiles.v ===== *)
(** * The archive at boot

    What [vfs_init] makes of the embedded archive on the heap [kmm::init] sets up, and that the
    path of the first program then leads to its file: the link between the boot sequence and
    the first process. *)

From Stdlib Require Import ZArith Lia.
From stdpp Require Import base numbers list list_numbers option gmap fin_maps.
From S2P Require Import Prelude Memory Kmm Heap VfsTypes OpenFiles FdCalls Initramfs Names Paths Process Kernel UserMem Exec SpawnSpec.

Local Open Scope Z_scope.

(** "sbin/init", the name in the archive. *)
Definition init_file : list Z := [115; 98; 105; 110; 47; 105; 110; 105; 116].

(** An archive with a program for the first process. *)
Record archive_ok (fs : list tar_file) (f : tar_file) : Prop := {
  ao_files : Forall tar_ok fs;
  ao_count : (0 < length fs ≤ 128)%nat;
  ao_size : Z.of_nat (length (tar_encode fs)) < 2 ^ 63;
  ao_init : find_tar fs init_file = Some f;
  ao_type : t_type f ≠ 53;
  ao_content : 0 < t_size f ∧ Forall is_byte (t_content f)
}.

(** ** Two allocations on the fresh heap *)

Lemma kmalloc_op_at m h ts1 s ts2 size : heap_inv m h (ts1 ++ (s, true) :: ts2) → 0 < size ≤ 2 ^ 64 - 32 →
  Forall (unfit (needed_size size)) ts1 → needed_size size ≤ s →
  ∃ m' h', kmalloc_op size (m, h) = Ret (HEAP_LOW h + span ts1 + HEADER_SIZE, (m', h')) ∧
    heap_inv m' h' (ts1 ++ split_tile s (needed_size size) ++ ts2) ∧ HEAP_LOW h' = HEAP_LOW h.
Proof.
  intros Hi Hs Hu Hn. destruct (kmalloc_at m h ts1 s ts2 size (heap_fuel h) Hi Hs (tiles_fuel _ _ _ Hi) Hu Hn) as (m' & h' & E & Hi' & Hl).
  exists m', h'. split; [|done]. cbn [kmalloc_op kmm_heap fst snd]. by rewrite E.
Qed.

(** The heap of 1 MiB has room for any smaller request of the boot, at its start, and a large block is left. *)
Lemma first_block m h size : heap_inv m h [(1048576, true)] → 0 < size ≤ 524288 →
  ∃ m' h' t, kmalloc_op size (m, h) = Ret (HEAP_LOW h + HEADER_SIZE, (m', h')) ∧ 0 < HEAP_LOW h ∧
    heap_inv m' h' [(t, false); (1048576 - t, true)] ∧ HEAP_LOW h' = HEAP_LOW h ∧ 0 < t ≤ 524320.
Proof.
  intros Hi Hs. destruct (needed_size_spec size ltac:(lia)) as (_ & Hn & _). unfold HEADER_SIZE in Hn.
  destruct (kmalloc_op_at m h [] 1048576 [] size Hi ltac:(lia) ltac:(constructor) ltac:(lia)) as (m' & h' & E & Hi' & Hl).
  exists m', h', (needed_size size). cbn [span] in E. rewrite Z.add_0_r in E. split; [done|]. split; [apply (inv_low _ _ _ Hi)|].
  unfold split_tile in Hi'. rewrite (proj2 (Z.leb_le _ _)) in Hi' by (unfold MIN_BLOCK_SIZE; lia). split; [exact Hi'|]. split; [done|lia].
Qed.

Lemma second_block m h t size : heap_inv m h [(t, false); (1048576 - t, true)] → 0 < t ≤ 524320 → 0 < size ≤ 4096 →
  ∃ p s', kmalloc_op size (m, h) = Ret (p, s') ∧ p ≠ 0.
Proof.
  intros Hi Ht Hs. destruct (needed_size_spec size ltac:(lia)) as (_ & Hn & _). unfold HEADER_SIZE in Hn.
  destruct (kmalloc_op_at m h [(t, false)] (1048576 - t) [] size Hi ltac:(lia) ltac:(by repeat constructor) ltac:(lia)) as (m' & h' & E & _).
  eexists _, _. split; [done|]. pose proof (inv_low _ _ _ Hi). cbn [span fst]. unfold HEADER_SIZE. lia.
Qed.

(** ** [vfs_init] *)

(** The state of the file system it leaves, with the block of the archive's table. *)
Definition ready_ns (fs : list tar_file) (s : mem * heap) : nstate (mem * heap) := booted (tar_encode fs) (Some (entries_from 0 fs)) s.

Lemma vfs_init_archive m h fs f fuel : heap_inv m h [(1048576, true)] → archive_ok fs f → (length fs < fuel)%nat →
  ∃ m' h' t, vfs_init (boot_ns (tar_encode fs) (m, h)) fuel = Ret (ready_ns fs (m', h')) ∧
    heap_inv m' h' [(t, false); (1048576 - t, true)] ∧ 0 < t ≤ 524320.
Proof.
  intros Hi [Hok Hlen Hsz _ _ _] Hf.
  destruct (first_block m h (Z.of_nat (length fs) * SIZEOF_ENTRY) Hi) as (m' & h' & t & E & Hlo & Hi' & _ & Ht); [unfold SIZEOF_ENTRY; lia|].
  exists m', h', t. split; [|done]. apply vfs_init_booted. eapply initramfs_init_ok; [done|done|done|done|exact E|unfold HEADER_SIZE; lia].
Qed.

Lemma ready_files_wf fs m h t : heap_inv m h [(t, false); (1048576 - t, true)] →
  files_wf {[HEAP_LOW h + HEADER_SIZE]} (replicate 64 []) (ns_files (ready_ns fs (m, h))).
Proof.
  intros Hi. assert (∀ i e, OpenFileTable_new !! i = Some e → e = None) as Hn.
  { intros i e He. by apply lookup_replicate in He as [-> _]. }
  split; [split; [rewrite length_replicate; lia|]; apply Forall_replicate; split; [cbn; lia|apply List.Forall_nil]|].
  split; cbn [ns_files ready_ns booted fs_oft fs_vnodes fs_pipes fs_heap fs_statics]; try done.
  - intros i f Hf. by apply Hn in Hf.
  - intros i j f g p Hf. by apply Hn in Hf.
  - intros x. by destruct x.
  - eexists. split; [by eexists; split|]. cbn [allocs app snd]. rewrite list_to_map_cons, list_to_map_nil. rewrite dom_insert_L, !dom_empty_L. set_solver.
Qed.

(** ** The first program *)

Lemma arc_bytes_content arc off data : 0 ≤ off → off + Z.of_nat (length data) ≤ Z.of_nat (length arc) →
  slice arc off (Z.of_nat (length data)) = data → arc_bytes arc off (Z.of_nat (length data)) = Ret data.
Proof.
  intros Ho Hle Hs. unfold arc_bytes. rewrite (proj2 (Z.leb_le _ _)) by done. f_equal. rewrite <- slice_drop_take by lia. done.
Qed.

Lemma init_names : normalise [] (split_path [] init_path) = [n_sbin; [105; 110; 105; 116]].
Proof. reflexivity. Qed.

Section first.
Context (fs : list tar_file) (f : tar_file) (Hfs : archive_ok fs f).

Lemma init_in_archive : ∃ data, 0 ≤ data ∧ initramfs_find (tar_encode fs) (Some (entries_from 0 fs)) init_file = Some (data, t_size f, t_type f) ∧
  arc_bytes (tar_encode fs) data (t_size f) = Ret (t_content f).
Proof using Hfs.
  destruct Hfs as [Hok _ _ Hin _ _]. pose proof (find_encode init_file fs [] (tar_encode fs) eq_refl Hok) as F. rewrite Hin in F.
  destruct F as (data & H0 & Hf & Hs & Hle); [by repeat constructor|]. exists data. split; [done|]. split; [exact Hf|]. by apply arc_bytes_content.
Qed.

(** /sbin/init is resolved through the root directory to a new vnode of the archive. *)
Lemma lookup_sbin s : vfs_lookup (ready_ns fs s) (VStatic ROOT_DIR) n_sbin = Ret (inl (VStatic SBIN_DIR), ready_ns fs s).
Proof using. reflexivity. Qed.

Lemma lookup_init s data v st : initramfs_find (tar_encode fs) (Some (entries_from 0 fs)) init_file = Some (data, t_size f, t_type f) → t_type f ≠ 53 →
  alloc_file_vnode (ns_files (ready_ns fs s)) data (t_size f) (t_type f) = Ret (Some v, st) →
  vfs_lookup (ready_ns fs s) (VStatic SBIN_DIR) [105; 110; 105; 116] = Ret (inl v, set_files (ready_ns fs s) st).
Proof using.
  intros Hf Ht Ha. unfold vfs_lookup, rootfs_lookup, initramfs_build_vnode. rewrite !bool_decide_eq_false_2 by done. cbn [orb].
  change (get_vnode (ns_files (ready_ns fs s)) (VStatic SBIN_DIR)) with (Ret (static_init SBIN_DIR) : outcome Vnode). cbn [mbind outcome_bind].
  change (vn_fs_type (static_init SBIN_DIR)) with RootFS. cbv iota. change (vn_ino (static_init SBIN_DIR) =? 0) with false. cbn [andb].
  change (dir_prefix (vn_data (static_init SBIN_DIR))) with (Ret (n_sbin ++ [SLASH])). cbn [mbind outcome_bind].
  change ((n_sbin ++ [SLASH]) ++ [105; 110; 105; 116]) with init_file. change (ns_arc (ready_ns fs s)) with (tar_encode fs).
  change (ns_entries (ready_ns fs s)) with (Some (entries_from 0 fs)). rewrite (proj2 (Z.ltb_ge _ _)) by done. rewrite Hf.
  rewrite (proj2 (Z.eqb_neq _ _) Ht). rewrite Ha. reflexivity.
Qed.

Lemma init_resolves m h t : heap_inv m h [(t, false); (1048576 - t, true)] → 0 < t ≤ 524320 →
  ∃ n, (∀ k, k_ns k = ready_ns fs (m, h) → init_found k (t_content f) n) ∧
    files_wf {[HEAP_LOW h + HEADER_SIZE]} (replicate 64 []) (ns_files n) ∧ fs_oft (ns_files n) !! 0%nat = Some None.
Proof using Hfs.
  intros Hi Ht. destruct init_in_archive as (data & H0 & Hf & Hb). pose proof Hfs as [_ _ _ _ Hty [Hsz _]].
  destruct (ready_files_wf fs m h t Hi) as [Hok Hinv].
  destruct (second_block m h t SIZEOF_VNODE Hi Ht ltac:(unfold SIZEOF_VNODE; lia)) as (p & s' & Ek & Hp).
  destruct (alloc_file_vnode_inv _ _ _ data (t_size f) (t_type f) Hinv) as (o & st & Ea & Hinv' & _).
  pose proof Ea as Ea'. unfold alloc_file_vnode in Ea'. change (fs_heap (ns_files (ready_ns fs (m, h)))) with (m, h) in Ea'. rewrite Ek in Ea'.
  cbn [mbind outcome_bind] in Ea'. rewrite (proj2 (Z.eqb_neq _ _) Hp), (proj2 (Z.eqb_neq _ _) Hty) in Ea'. injection Ea' as <- <-.
  set (st := set_vnodes _ _) in *. exists (set_files (ready_ns fs (m, h)) st). split; [|split; [split; [done|exact Hinv']|reflexivity]].
  intros k Hk. assert (get_vnode st (VHeap p) = Ret (mkVnode at_INITRAMFS_FILE_OPS (Z.lor V_FILE 420) 0 (t_size f) InitramFS (DArchive data) None)) as Hv.
  { unfold st, get_vnode. cbn [fs_vnodes set_vnodes]. by rewrite lookup_insert_eq. }
  eexists (VHeap p), _, data. rewrite Hk. split; [|split; [exact Hv|split; [done|split; [exact Hsz|exact Hb]]]].
  apply (vfs_resolve_walk _ _ (VStatic ROOT_DIR)); [reflexivity|cbn; lia|]. rewrite init_names. cbn [Paths.walk]. rewrite lookup_sbin. cbn [mbind outcome_bind].
  change (get_vnode (ns_files (ready_ns fs (m, h))) (VStatic SBIN_DIR)) with (Ret (static_init SBIN_DIR) : outcome Vnode). cbn [mbind outcome_bind].
  change (vn_mount (static_init SBIN_DIR)) with (@None vref). cbn [default]. rewrite (lookup_init (m, h) data (VHeap p) st Hf Hty Ea).
  cbn [mbind outcome_bind ns_files set_files]. rewrite Hv. reflexivity.
Qed.
End first.
