(* ===== verification/Boot.v ===== *)
(** * The boot sequence (src/kernel_rust/src/lib.rs: kernel_main)

    [kernel_main] of the release build, from the initialisation of the serial port to the stack pointer the
    first process is started with.  The state is the kernel's, with the devices, the descriptor
    tables, the system call table and the screen beside it; the addresses fixed by the linker and the
    assembly files are parameters.  [kernel_main] is in the phases in which the source is written. *)

From Stdlib Require Import ZArith Lia String Ascii.
From stdpp Require Import base numbers list list_numbers option gmap.
From S2P Require Import Prelude Pmm Multiboot Memory Kmm Heap VfsTypes OpenFiles Names Paging Keyboard Serial Tty Process Sched Kernel MemCalls UserMem FileCalls Arena Elf Exec Syscall Interrupts Console BootMem Devices Gdt Framebuffer.

Local Open Scope Z_scope.

(** The interrupt controllers and the timer are reached over the same ports; reading one of their
    registers does not change them. *)
#[global] Instance ports_of `{PortIO D} : Ports D := { outb := out8; inb port d := (in8 port d).1 }.

(** ** The state *)

Record system (D : Type) := mkSystem {
  sy_pmm : PmmAllocator;
  sy_k : kernel (mem * heap);
  sy_dev : D;
  sy_idt : list IdtEntry;
  sy_cpu : option cpu;
  sy_calls : list (option SyscallFn);
  sy_screen : vram;
  sy_if : bool
}.
Arguments mkSystem {D} _ _ _ _ _ _ _ _.
Arguments sy_pmm {D} _.
Arguments sy_k {D} _.
Arguments sy_dev {D} _.
Arguments sy_idt {D} _.
Arguments sy_cpu {D} _.
Arguments sy_calls {D} _.
Arguments sy_screen {D} _.
Arguments sy_if {D} _.

(** What the linker, the assembly files and the boot loader provide. *)
Record layout := mkLayout {
  lo_rd32 : Z → Z;                  (** physical memory, for the Multiboot structures *)
  lo_kernel_end : Z;                (** [_kernel_end] *)
  lo_isr_stubs : Z → Z;
  lo_irq_stubs : Z → Z;
  lo_syscall_entry : Z;
  lo_stack_top : Z;
  lo_tss : Z;
  lo_efer : Z;
  lo_idle_entry : Z;
  lo_stale : Z → list Z             (** what a frame holds before it is written *)
}.

Section boot.
Context {D : Type} `{PortIO D} `{WidePorts D} (L : layout).
Implicit Types (y : system D) (k : kernel (mem * heap)).

Definition put_sk y k : system D := mkSystem (sy_pmm y) k (sy_dev y) (sy_idt y) (sy_cpu y) (sy_calls y) (sy_screen y) (sy_if y).
Definition put_dev y (d : D) : system D := mkSystem (sy_pmm y) (sy_k y) d (sy_idt y) (sy_cpu y) (sy_calls y) (sy_screen y) (sy_if y).

Definition set_console k (s : serial) : kernel (mem * heap) := mkK (Tty.set_com1 s (k_io k)) (k_bm k) (k_ns k).
Definition console y : serial := Tty.com1 (k_io (sy_k y)).
Definition print y (msg : string) : system D := put_sk y (set_console (sy_k y) (say (console y) msg)).

Definition k_heap k : mem * heap := fs_heap (k_files k).
Definition set_kheap k (h : mem * heap) : kernel (mem * heap) :=
  let f := k_files k in set_kfiles k (mkFs (fs_oft f) (fs_vnodes f) (fs_pipes f) h (fs_statics f)).

(** ** The phases *)

Definition boot_banner y : system D :=
  let y := put_dev y (serial_init false (sy_dev y)).2 in
  foldl print y [""; "========================================"; "  VIBIX — UNIXoid Kernel (Rust Port)"; "========================================"; "";
                 "VIBIX: Kernel alive!"]%string.

Definition memory_phase y (fuel : nat) : outcome (system D) :=
  let mbi := get_mbi_ptr (lo_rd32 L) in
  let k := sy_k y in
  '(a, p, mh, s) ← boot_memory (lo_rd32 L) mbi (lo_kernel_end L) (k_pg k) (k_heap k).1 (k_heap k).2 (console y) fuel;
  let k := set_kheap (put_pg (set_console k s) p) mh in
  Ret (mkSystem a k (sy_dev y) (sy_idt y) (sy_cpu y) (sy_calls y) (sy_screen y) (sy_if y)).

Definition COLOURS : list Z := [16711680; 65280; 255; 16776960; 16711935; 65535].

(** [for i in i..6]. *)
Fixpoint draw_bars (fb : Framebuffer) (v : vram) (bar_w i : Z) (colours : list Z) : vram :=
  match colours with
  | [] => v
  | c :: colours =>
      let v := fill_rect fb v (u32 (i * bar_w)) (u32 (height fb - 32)) (u32 (u32 ((i + 1) * bar_w) - 1)) (u32 (height fb - 1)) c in
      draw_bars fb v bar_w (i + 1) colours
  end.

Definition boot_graphics (fb : Framebuffer) (v : vram) : outcome vram :=
  let v := clear fb v 4122 in
  v ← draw_string fb v 24 20 (bytes "VIBIX") 65450 (Some 4122);
  v ← draw_string fb v 24 40 (bytes "UNIXoid Kernel (Rust Port)") 8947848 (Some 4122);
  v ← draw_string fb v 24 60 (bytes "VBE Framebuffer") 11184810 (Some 4122);
  Ret (draw_bars fb v (width fb / 6) 0 COLOURS).

Definition screen_phase y : outcome (system D) :=
  let k := sy_k y in
  '(o, p, s, d) ← fb_init (sy_pmm y) (k_pg k) (console y) (sy_dev y);
  let y := put_dev (put_sk y (put_pg (set_console k s) p)) d in
  match o with
  | Some fb =>
      v ← boot_graphics fb (sy_screen y);
      let y := mkSystem (sy_pmm y) (sy_k y) (sy_dev y) (sy_idt y) (sy_cpu y) (sy_calls y) v (sy_if y) in
      Ret (print y "VIBIX: Framebuffer initialised.")
  | None => Ret (print y "VIBIX: No framebuffer — continuing with serial only.")
  end.

Definition interrupt_phase y : outcome (system D) :=
  let y := print y "VIBIX: Initialising interrupts..." in
  '(idt, d) ← init_interrupts (lo_isr_stubs L) (lo_irq_stubs L) (sy_idt y) (sy_dev y);
  let y := mkSystem (sy_pmm y) (sy_k y) d idt (sy_cpu y) (sy_calls y) (sy_screen y) (sy_if y) in
  let y := print y "VIBIX: IDT loaded, PIC remapped." in
  let y := print (put_dev y (pit_init (sy_dev y))) "VIBIX: PIT timer initialised at 100 Hz." in
  let y := print (put_dev y (keyboard_init (sy_dev y)).2) "VIBIX: PS/2 keyboard ready." in
  let y := print (put_dev y (unmask_irq 1 (sy_dev y))) "VIBIX: Keyboard IRQ unmasked -- PS/2 input active." in
  Ret (print (put_dev y (unmask_irq 0 (sy_dev y))) "VIBIX: Timer IRQ unmasked.").

(** Segments, system calls and the file system; [vfs_init] registers the calls of the file system last. *)
Definition call_phase y (fuel : nat) : outcome (system D) :=
  let y := print y "VIBIX: Loading GDT/TSS and enabling SYSCALL." in
  c ← Gdt.init (lo_syscall_entry L) (lo_stack_top L) (lo_tss L) (lo_efer L);
  t ← Syscall.init (sy_calls y);
  let y := mkSystem (sy_pmm y) (sy_k y) (sy_dev y) (sy_idt y) (Some c) t (sy_screen y) (sy_if y) in
  let y := print y "VIBIX: Initialising VFS..." in
  n ← vfs_init (k_ns (sy_k y)) fuel;
  t ← vfs_register (sy_calls y);
  let k := mkK (k_io (sy_k y)) (k_bm (sy_k y)) n in
  let y := mkSystem (sy_pmm y) k (sy_dev y) (sy_idt y) (sy_cpu y) t (sy_screen y) (sy_if y) in
  Ret (print y "VIBIX: VFS ready.").

Definition enable_interrupts y : system D :=
  mkSystem (sy_pmm y) (sy_k y) (sy_dev y) (sy_idt y) (sy_cpu y) (sy_calls y) (sy_screen y) true.

(** The result is the stack pointer of the first process. *)
Definition process_phase y : outcome (Z * system D) :=
  let y := enable_interrupts (print y "VIBIX: Enabling interrupts.") in
  let y := print y "VIBIX: Boot sequence complete — spawning PID 1." in
  '(init_pid, k) ← spawn_init (sy_pmm y) (lo_stale L) (sy_k y) (lo_idle_entry L);
  let y := print (put_sk y k) "VIBIX: Created PID 1 (init)." in
  let y := print y "VIBIX: Starting scheduler..." in
  '(krsp, m) ← start_scheduler (k_m (sy_k y)) init_pid;
  Ret (krsp, put_sk y (set_m (sy_k y) m)).

Definition kernel_main y (fuel : nat) : outcome (Z * system D) :=
  let y := boot_banner y in
  y ← memory_phase y fuel;
  y ← screen_phase y;
  y ← interrupt_phase y;
  y ← call_phase y fuel;
  process_phase y.
End boot.
