(* ===== verification/BootRun.v ===== *)
(** * The boot sequence runs to the first process

    The phases of [kernel_main] put together: from the machine as the boot loader leaves it to the
    stack pointer the first process is started with, with what each phase promises carried to the
    next. *)

From Stdlib Require Import ZArith Lia String.
From stdpp Require Import base numbers list list_numbers option gmap.
From S2P Require Import Multiboot Initramfs Names Paths.
From S2P Require Import Prelude Pmm Memory Kmm Heap VfsTypes OpenFiles FdCalls Paging PageMaps PageSpec Reach Loader PageNew MemSpec PageHuge Keyboard Serial Tty Signal Process Sched Kernel ProcSpec MemCalls UserMem FileCalls Arena Elf ElfCheck ElfSpec ExecPages Exec ExecSpec ExecCall Syscall SyscallSpec Interrupts InterruptSpec Console BootMem BootPages BootSpec Gdt Framebuffer Devices Room SpawnSpec BootRoom BootFiles Boot.

Local Open Scope Z_scope.

(** ** Printing changes the console only *)

(** Everything of the kernel but the console. *)
Definition silent (k k' : kernel (mem * heap)) : Prop := k_m k' = k_m k ∧ k_bm k' = k_bm k ∧ k_ns k' = k_ns k.

Lemma silent_pg k k' : silent k k' → k_pg k' = k_pg k.
Proof. intros (Hm & Hb & _). unfold k_pg. by rewrite Hm, Hb. Qed.

Lemma silent_trans k1 k2 k3 : silent k1 k2 → silent k2 k3 → silent k1 k3.
Proof. intros (? & ? & ?) (? & ? & ?). split_and!; congruence. Qed.

(** ** The screen *)

Section screen.
Context {D : Type} `{WidePorts D}.

(** The address of the display's memory the driver finds. *)
Definition lfb_found (d : D) : option Z :=
  let '(probe, d) := vbe_probe d in
  if probe <? VBE_ID5 then None
  else
    let '(bar0, _) := pci_config_read 0 2 0 16 (vbe_set_mode BootSpec.quiet d).2 in
    let fb_addr := Z.land bar0 4294967280 in
    if fb_addr =? 0 then None else Some fb_addr.

Lemma set_mode_device s s' (d : D) : (vbe_set_mode s d).2 = (vbe_set_mode s' d).2.
Proof.
  unfold vbe_set_mode. cbv zeta. destruct (vbe_read VBE_REG_XRES _) as [ax d1]. destruct (vbe_read VBE_REG_YRES d1) as [ay d2].
  destruct (vbe_read VBE_REG_BPP d2) as [ab d3]. destruct (vbe_read VBE_REG_ENABLE d3) as [ae d4]. cbn [snd]. exact eq_refl.
Qed.

(** The display's memory is aligned to 2 MiB, as the video memory of a PCI card is, lies above the
    kernel and not at the test page, and the tables of the boot loader have nothing else there. *)
Definition display_ok (p : pg) (d : D) : Prop := ∀ fb, lfb_found d = Some fb →
  fb mod HUGE = 0 ∧ 33554432 ≤ fb ∧ (fb + 2 * HUGE ≤ TEST_VADDR ∨ TEST_VADDR + HUGE ≤ fb) ∧ PageHuge.plain p fb (fb + 2 * HUGE).

Lemma lfb_range d fb : lfb_found d = Some fb → 0 ≤ fb < 2 ^ 32.
Proof.
  unfold lfb_found. destruct (vbe_probe d) as [x d1]. destruct (x <? VBE_ID5); [done|]. destruct (pci_config_read _ _ _ _ _) as [b d2].
  destruct (_ =? 0); [done|]. intros [= <-]. change 4294967280 with (Z.land 4294967280 (Z.ones 32)). rewrite Z.land_assoc, Z.land_ones by lia. apply Z.mod_pos_bound. lia.
Qed.

(** A frame buffer of 3 MiB takes two huge pages. *)
Lemma screen_pages a p fb f : fb mod HUGE = 0 → 0 ≤ fb < 2 ^ 32 →
  map_range_2m a p fb fb 3145728 f = map_2m_loop a p fb fb f 0 2.
Proof.
  intros Hm Hr. unfold map_range_2m, HUGE in *. change 2097151 with (2 ^ 21 - 1). rewrite !and_not_ones by lia. change (2 ^ 21) with 2097152. rewrite Hm, Z.sub_0_r.
  rewrite !(u64_small (fb + _)) by (split; [lia|]; change (2 ^ 64) with 18446744073709551616; lia).
  rewrite !(u64_small (fb + _ + _)) by (split; [lia|]; change (2 ^ 64) with 18446744073709551616; lia).
  replace ((fb + 3145728 + (2097152 - 1)) mod 2097152) with 1048575.
  2:{ apply Z.mod_divide in Hm as [q ->]; [|lia]. apply (Z.mod_unique_pos _ _ (q + 2)); lia. }
  replace (fb + 3145728 + (2097152 - 1) - 1048575 - fb) with 4194304 by lia. reflexivity.
Qed.

(** With a display found or not, the tables stay well formed and nothing but the display's memory is mapped. *)
Lemma fb_init_ok a top b0 p s d : pmm_wf a → pt_inv a p → display_ok p d →
  match fb_init a p s d with
  | Ret (o, p', s', d') => pt_inv a p' ∧ pg_cr3 p' = pg_cr3 p ∧ (∀ v, 0 ≤ v < 33554432 → translate p' v = translate p v) ∧
      (∀ m, 0 ≤ m → spare a top b0 (pg_bm p) (m + 4) → spare a top b0 (pg_bm p') m) ∧
      match lfb_found d with
      | Some fb => o = Some (mkFb fb 4096 1024 768 32) ∧ ∀ v, fb ≤ v < fb + 3145728 → translate p' v = Some v
      | None => o = None ∧ p' = p
      end
  | Hang => is_Some (lfb_found d) ∧ ¬ spare a top b0 (pg_bm p) 4
  | _ => False
  end.
Proof.
  intros Ha Hi Hd. assert (∀ m, 0 ≤ m → spare a top b0 (pg_bm p) (m + 4) → spare a top b0 (pg_bm p) m) as Hless by (intros m Hm Hs; apply (spare_less a top b0 _ _ _ Hs); lia). unfold fb_init, init_vbe, lfb_found, display_ok in *. pose proof (lfb_range d) as Hr. unfold lfb_found in Hd, Hr.
  destruct (vbe_probe d) as [x d1]. destruct (x <? VBE_ID5); [done|].
  destruct (vbe_set_mode (say s _) d1) as [s2 d2] eqn:E2.
  assert ((vbe_set_mode BootSpec.quiet d1).2 = d2) as E3 by (rewrite (set_mode_device _ (say s "VIBIX: fb: Bochs VBE detected — setting 1024×768×32.")); by rewrite E2).
  rewrite E3 in *. destruct (pci_config_read 0 2 0 16 d2) as [b d3]. set (fb := Z.land b 4294967280) in *. cbv zeta in *.
  destruct (Z.eqb_spec fb 0) as [|Hnz]; [done|]. destruct (Hd fb eq_refl) as (Hm & Hlo & _ & Hpl). specialize (Hr fb eq_refl).
  cbn [pitch height width bpp]. change (1024 * 4 * 768) with 3145728. rewrite screen_pages by done.
  pose proof (identity_loop a Ha fb PAGE_KERNEL_HUGE 2 Hm ltac:(lia) identity_flags 0 p 0 (pg_bm p) Hi) as I.
  specialize (I ltac:(split; [apply Hi|split; [done|apply countb_bound]]) ltac:(lia) ltac:(unfold HUGE; lia)).
  replace (fb + 0 * HUGE) with fb in I by lia. change (0 + Z.of_nat 2) with 2 in I. specialize (I Hpl).
  pose proof (map_2m_loop_room a Ha top b0 fb fb PAGE_KERNEL_HUGE 2 p 0) as Hroom.
  destruct (map_2m_loop a p fb fb PAGE_KERNEL_HUGE 0 2) as [p'| | |]; [|done| |done].
  2:{ split; [by eexists|]. intros Hs. by destruct (Hroom 0 Hs ltac:(lia)) as (? & [=] & _). }
  cbn [mbind outcome_bind]. destruct I as (Hi' & Hc & _ & _ & Hin & Hout). split; [done|]. split; [done|]. split; [|split; [|split; [done|]]].
  - intros v Hv. by rewrite !(translate_leaf a), Hout by (done || lia).
  - intros m Hm0 Hs. by destruct (Hroom m Hs Hm0) as (? & [= <-] & ?).
  - intros v Hv. apply Hin. unfold HUGE. lia.
Qed.
End screen.

(** ** The phases *)

Section phases.
Context {D : Type} `{PortIO D} `{WidePorts D} (L : layout).
Implicit Types (y : system D).

(** What the phases after the memory is set up keep: the page manager, well-formed tables with the
    first 32 MiB mapped to themselves, and the process table. *)
Record prepared (a : PmmAllocator) y0 y : Prop := {
  pr_pmm : sy_pmm y = a;
  pr_inv : pt_inv a (k_pg (sy_k y));
  pr_cr3 : pg_cr3 (k_pg (sy_k y)) = pg_cr3 (k_pg (sy_k y0));
  pr_low : ∀ v, 0 ≤ v < 33554432 → translate (k_pg (sy_k y)) v = Some v;
  pr_table : m_table (k_m (sy_k y)) = m_table (k_m (sy_k y0))
}.

(** The parts that are not the kernel's. *)
Definition same_parts y y' : Prop :=
  sy_dev y' = sy_dev y ∧ sy_idt y' = sy_idt y ∧ sy_calls y' = sy_calls y ∧ sy_if y' = sy_if y.

Lemma print_silent y msg : silent (sy_k y) (sy_k (print y msg)) ∧ sy_pmm (print y msg) = sy_pmm y ∧ same_parts y (print y msg).
Proof. unfold silent, same_parts. split_and!; exact eq_refl. Qed.

Lemma prepared_silent a y0 y y' : prepared a y0 y → silent (sy_k y) (sy_k y') → sy_pmm y' = sy_pmm y → prepared a y0 y'.
Proof.
  intros [] S Hp. pose proof (silent_pg _ _ S) as E. destruct S as (Hm & _ & _). split; rewrite ?E, ?Hm, ?Hp; done.
Qed.

Lemma banner_silent y : silent (sy_k y) (sy_k (boot_banner y)) ∧ sy_idt (boot_banner y) = sy_idt y ∧ sy_calls (boot_banner y) = sy_calls y.
Proof.
  assert (∀ l y, silent (sy_k y) (sy_k (foldl print y l)) ∧ sy_idt (foldl print y l) = sy_idt y ∧ sy_calls (foldl print y l) = sy_calls y) as Hl.
  { clear y. induction l as [|msg l IH]; intros y; cbn [foldl]; [unfold silent; split_and!; exact eq_refl|]. destruct (IH (print y msg)) as (S & Ei & Ec).
    destruct (print_silent y msg) as (S1 & _ & _). split; [by eapply silent_trans|]. split; [exact Ei|exact Ec]. }
  unfold boot_banner. cbv zeta. exact (Hl _ (put_dev y (serial_init false (sy_dev y)).2)).
Qed.

Lemma memory_phase_ok y fuel a bm s1 arc h0 :
  let k := sy_k y in
  detect_memory (lo_rd32 L) (get_mbi_ptr (lo_rd32 L)) (k_bm k) (console y) fuel = Ret (a, bm, s1) →
  memory_found a bm (kernel_end (lo_kernel_end L)) → boot_tables (k_pg k) (kernel_end (lo_kernel_end L)) → (6 < fuel)%nat → k_ns k = boot_ns arc h0 →
  ∃ y' m h, memory_phase L y fuel = Ret y' ∧ (∀ top n, 0 ≤ n → enough a bm (kernel_end (lo_kernel_end L)) top (n + 36) → spare a top bm (k_bm (sy_k y')) n) ∧ prepared a y y' ∧ same_parts y y' ∧ heap_inv m h [(1048576, true)] ∧
    k_ns (sy_k y') = boot_ns arc (m, h) ∧ (∀ v, 33554432 ≤ v < 2 ^ 48 → translate (k_pg (sy_k y')) v = translate (k_pg k) v) ∧
    (∀ v, path_of v ≠ path_of TEST_VADDR → untabled (k_pg k) v → untabled (k_pg (sy_k y')) v).
Proof.
  intros k Hd F B Hf Hns. unfold memory_phase. fold k.
  destruct (boot_memory_ok (lo_rd32 L) (get_mbi_ptr (lo_rd32 L)) (lo_kernel_end L) (k_pg k) (k_heap k).1 (k_heap k).2 (console y) fuel a bm s1 Hd F B Hf)
    as (p & m & h & E & HR & Hc & Hlo & Hhi & Hh & _ & Hu). pose proof (re_inv _ _ _ HR) as Hi. rewrite E. cbn [mbind outcome_bind].
  set (y' := mkSystem a _ _ _ _ _ _ _). exists y', m, h.
  assert (k_pg (sy_k y') = p) as Ep by (destruct p; exact eq_refl).
  split; [exact eq_refl|]. split.
  { intros top n Hn He. change (k_bm (sy_k y')) with (pg_bm (k_pg (sy_k y'))). rewrite Ep.
    exact (boot_memory_room (lo_rd32 L) (get_mbi_ptr (lo_rd32 L)) (lo_kernel_end L) (k_pg k) (k_heap k).1 (k_heap k).2 (console y) fuel a bm s1 p (m, h) _ n top Hd F Hf He Hn E). }
  split; [|split; [unfold same_parts; split_and!; exact eq_refl|split; [done|split; [|by rewrite Ep]]]].
  - split; rewrite ?Ep; done.
  - subst y'. cbn [sy_k]. unfold set_kheap, set_kfiles, k_files. cbn [k_ns put_pg set_kbm set_m set_console]. by rewrite Hns.
Qed.
(** The display, the boot graphics or the message that there is none. *)
Lemma screen_phase_ok a top b0 y0 y : pmm_wf a → prepared a y0 y → display_ok (k_pg (sy_k y)) (sy_dev y) →
  match screen_phase y with
  | Ret y' => (∀ m, 0 ≤ m → spare a top b0 (k_bm (sy_k y)) (m + 4) → spare a top b0 (k_bm (sy_k y')) m) ∧ prepared a y0 y' ∧ k_ns (sy_k y') = k_ns (sy_k y) ∧ sy_idt y' = sy_idt y ∧ sy_calls y' = sy_calls y ∧
      ∀ fb, lfb_found (sy_dev y) = Some fb → ∀ v, fb ≤ v < fb + 3145728 → translate (k_pg (sy_k y')) v = Some v
  | Hang => is_Some (lfb_found (sy_dev y)) ∧ ¬ spare a top b0 (k_bm (sy_k y)) 4
  | _ => False
  end.
Proof.
  intros Ha [Hp Hi Hc Hlo Ht] Hd. unfold screen_phase. rewrite Hp. pose proof (fb_init_ok a top b0 (k_pg (sy_k y)) (console y) (sy_dev y) Ha Hi Hd) as F.
  destruct (fb_init a (k_pg (sy_k y)) (console y) (sy_dev y)) as [[[[o p] s] d]| | |]; [|done..]. cbn [mbind outcome_bind].
  destruct F as (Hi' & Hc' & Hlo' & Hroom & Hfb). set (y1 := put_dev _ _).
  assert (k_pg (sy_k y1) = p) as Ep by (destruct p; exact eq_refl).
  assert (prepared a y0 y1) as P1.
  { split; rewrite ?Ep; [exact Hp|done|by rewrite Hc'|intros v Hv; rewrite Hlo' by done; by apply Hlo|exact Ht]. }
  assert (∀ v' msg, let y' := print (mkSystem (sy_pmm y1) (sy_k y1) (sy_dev y1) (sy_idt y1) (sy_cpu y1) (sy_calls y1) v' (sy_if y1)) msg in
    prepared a y0 y' ∧ k_ns (sy_k y') = k_ns (sy_k y) ∧ sy_idt y' = sy_idt y ∧ sy_calls y' = sy_calls y ∧ k_pg (sy_k y') = p ∧
    ∀ m, 0 ≤ m → spare a top b0 (k_bm (sy_k y)) (m + 4) → spare a top b0 (k_bm (sy_k y')) m) as Hend.
  { intros v' msg y'. assert (silent (sy_k y1) (sy_k y')) as S by (unfold silent; split_and!; exact eq_refl).
    split; [apply (prepared_silent a y0 y1); [done|done|exact eq_refl]|]. split; [exact eq_refl|]. split; [exact eq_refl|]. split; [exact eq_refl|].
    split; [by rewrite (silent_pg _ _ S)|]. intros m Hm Hs. change (k_bm (sy_k y')) with (pg_bm (k_pg (sy_k y'))).
    rewrite (silent_pg _ _ S), Ep. by apply Hroom. }
  destruct (lfb_found (sy_dev y)) as [fb|].
  - destruct Hfb as [-> Hfb]. unfold boot_graphics. destruct (draw_string_total (mkFb fb 4096 1024 768 32) (bytes "VIBIX") (clear (mkFb fb 4096 1024 768 32) (sy_screen y1) 4122) 24 20 65450 (Some 4122)) as [v1 ->].
    cbn [mbind outcome_bind]. destruct (draw_string_total (mkFb fb 4096 1024 768 32) (bytes "UNIXoid Kernel (Rust Port)") v1 24 40 8947848 (Some 4122)) as [v2 ->].
    cbn [mbind outcome_bind]. destruct (draw_string_total (mkFb fb 4096 1024 768 32) (bytes "VBE Framebuffer") v2 24 60 11184810 (Some 4122)) as [v3 ->].
    cbn [mbind outcome_bind]. set (v4 := draw_bars _ _ _ _ _). destruct (Hend v4 "VIBIX: Framebuffer initialised."%string) as (P2 & E1 & E2 & E3 & E4 & E5).
    split; [exact E5|]. split; [exact P2|]. split; [exact E1|]. split; [exact E2|]. split; [exact E3|]. intros fb' [= <-] v Hv. rewrite E4. by apply Hfb.
  - destruct Hfb as [-> ->]. destruct (Hend (sy_screen y1) "VIBIX: No framebuffer — continuing with serial only."%string) as (P2 & E1 & E2 & E3 & E4 & E5).
    split; [exact E5|]. split; [exact P2|]. split; [exact E1|]. split; [exact E2|]. split; [exact E3|]. done.
Qed.

(** Interrupts: the gates are set. *)
Definition gates_set (idt : list IdtEntry) : Prop :=
  (∀ v, 0 ≤ v < 32 → idt !! Z.to_nat v = Some (set_handler (lo_isr_stubs L v) 8 0)) ∧
  (∀ irq, 0 ≤ irq < 16 → idt !! Z.to_nat (32 + irq) = Some (set_handler (lo_irq_stubs L irq) 8 0)).

Lemma interrupt_phase_ok a y0 y : prepared a y0 y → sy_idt y = Idt_new →
  ∃ y', interrupt_phase L y = Ret y' ∧ prepared a y0 y' ∧ k_ns (sy_k y') = k_ns (sy_k y) ∧ sy_calls y' = sy_calls y ∧ gates_set (sy_idt y') ∧
    silent (sy_k y) (sy_k y').
Proof.
  intros P Hidt. unfold interrupt_phase. set (y1 := print y _). change (sy_idt y1) with (sy_idt y). rewrite Hidt. unfold init_interrupts.
  destruct (set_stubs_spec (lo_isr_stubs L) 32 Idt_new 0 0) as (idt1 & -> & L1 & E1); [done|done|done|]. cbn [mbind outcome_bind].
  destruct (set_stubs_spec (lo_irq_stubs L) 16 idt1 32 0) as (idt2 & -> & L2 & E2); [done|done|done|]. cbn [mbind outcome_bind].
  eexists. split; [exact eq_refl|]. set (y' := print _ _).
  assert (silent (sy_k y) (sy_k y')) as S by (unfold silent; split_and!; exact eq_refl).
  split; [apply (prepared_silent a y0 y); [done|done|exact eq_refl]|]. split; [exact eq_refl|]. split; [exact eq_refl|]. split; [|done].
  change (sy_idt y') with idt2. split; intros v Hv; rewrite E2, ?E1 by lia; zcases; try lia.
  - f_equal. f_equal. f_equal. lia.
  - replace (32 + v - 32) with v by lia. done.
Qed.

(** Segments, system calls and the file system. *)
Lemma call_phase_ok a y0 y fuel m h fs f : prepared a y0 y → sy_calls y = SYSCALL_TABLE → heap_inv m h [(1048576, true)] →
  k_ns (sy_k y) = boot_ns (tar_encode fs) (m, h) → archive_ok fs f → (length fs < fuel)%nat →
  ∃ y' m' h' t, call_phase L y fuel = Ret y' ∧ k_bm (sy_k y') = k_bm (sy_k y) ∧ prepared a y0 y' ∧ k_ns (sy_k y') = ready_ns fs (m', h') ∧ sy_calls y' = numbered ∧ sy_idt y' = sy_idt y ∧
    heap_inv m' h' [(t, false); (1048576 - t, true)] ∧ 0 < t ≤ 524320.
Proof.
  intros P Hcalls Hh Hns Hfs Hf. unfold call_phase. set (y1 := print y _). change (sy_calls y1) with (sy_calls y). rewrite Hcalls.
  destruct (Gdt.init (lo_syscall_entry L) (lo_stack_top L) (lo_tss L) (lo_efer L)) as [c| | |] eqn:Eg; [|discriminate Eg..]. cbn [mbind outcome_bind].
  pose proof boot_table as T. destruct (Syscall.init SYSCALL_TABLE) as [t1| | |]; [|discriminate T..]. cbn [mbind outcome_bind] in *.
  set (y2 := print _ _). change (k_ns (sy_k y2)) with (k_ns (sy_k y)). rewrite Hns.
  destruct (vfs_init_archive m h fs f fuel Hh Hfs Hf) as (m' & h' & t & -> & Hi & Ht). cbn [mbind outcome_bind].
  change (sy_calls y2) with t1. rewrite T. cbn [mbind outcome_bind]. eexists _, m', h', t. split; [exact eq_refl|]. split; [exact eq_refl|].
  split; [|split; [exact eq_refl|split; [exact eq_refl|split; [exact eq_refl|done]]]].
  destruct P as [Hp Hi0 Hc Hlo Htab]. split; [exact Hp|exact Hi0|exact Hc|exact Hlo|exact Htab].
Qed.

(** ** The whole sequence *)

(** The machine when init is entered with stack pointer [krsp]: it runs in an address space [root] of its
    own with stack top [rsp] and a kernel stack at [base]. *)
Record at_init (a : PmmAllocator) (data : list Z) y (krsp root rsp base : Z) : Prop := {
  ai_interrupts : sy_if y = true ∧ gates_set (sy_idt y);
  ai_calls : sy_calls y = numbered;
  ai_current : CURRENT_PID (k_m (sy_k y)) = 1 ∧ procs (k_m (sy_k y)) 1 = Some (set_state Running (init_process root rsp base));
  ai_sched : sched_inv (k_m (sy_k y));
  ai_stacks : m_rsp0 (k_m (sy_k y)) = base + KERNEL_STACK_SIZE ∧ current_proc_kernel_rsp (k_m (sy_k y)) = base + KERNEL_STACK_SIZE;
  ai_frame : krsp = base + KERNEL_STACK_SIZE - 8 * 22 ∧ read_frame (m_kmem (k_m (sy_k y))) krsp = init_frame rsp;
  ai_tables : pg_cr3 (k_pg (sy_k y)) = root ∧ pt_inv a (k_pg (sy_k y));
  ai_kernel : ∀ v, 0 ≤ v < 33554432 → translate (k_pg (sy_k y)) v = Some v;
  ai_user : ∀ v, flat_page (Z.of_nat (List.length data)) v → is_Some (translate (k_pg (sy_k y)) v);
  ai_bytes : ∀ x, USER_CODE_ADDR ≤ x < rsp - 4096 → ld8 (uspace root (m_umem (k_m (sy_k y)))) x = flat_image data x;
  ai_files : ∃ X, files_wf X (fd_tables (sy_k y)) (k_files (sy_k y))
}.

Lemma low_present p : translate p 0 = Some 0 → has (ld64 (pg_mem p) (slot (read_cr3 p) 0)) PAGE_PRESENT = true.
Proof.
  unfold translate, translate_in_pml4. change (indices 0) with (0, 0, 0, 0). cbv iota beta. unfold pg_ld.
  destruct (has (ld64 (pg_mem p) (slot (read_cr3 p) 0)) PAGE_PRESENT); done.
Qed.

Lemma process_phase_ok a top b0 y0 y fs f m h t :
  (∀ x, List.length (lo_stale L x) = 4096%nat ∧ Forall is_byte (lo_stale L x)) →
  prepared a y0 y → m_table (k_m (sy_k y0)) = mkTable (replicate 64 None) 1 0 → read_cr3 (k_pg (sy_k y0)) = pg_cr3 (k_pg (sy_k y0)) →
  k_ns (sy_k y) = ready_ns fs (m, h) → heap_inv m h [(t, false); (1048576 - t, true)] → 0 < t ≤ 524320 → archive_ok fs f →
  sy_calls y = numbered → gates_set (sy_idt y) → page_addr a top ≤ 33554432 →
  let size := Z.of_nat (List.length (t_content f)) in spare a top b0 (k_bm (sy_k y)) (spawn_need size) →
  match process_phase L y with
  | Ret (krsp, y') => (∃ root rsp base, at_init a (t_content f) y' krsp root rsp base) ∧ above a top b0 (k_bm (sy_k y'))
  | Hang => ¬ flat_fits size
  | _ => False
  end.
Proof.
  intros Hst P Htab Hplain Hns Hh Ht Hfs Hcalls Hg Htop size Hsp. unfold process_phase. set (y1 := print (enable_interrupts _) _).
  assert (silent (sy_k y) (sy_k y1)) as S by (unfold silent; split_and!; exact eq_refl).
  assert (prepared a y0 y1) as P1 by (apply (prepared_silent a y0 y); [done|done|exact eq_refl]).
  destruct P1 as [Hp Hi Hc Hlo Htab1]. rewrite Hp. destruct (init_resolves fs f Hfs m h t Hh Ht) as (n & Hfound & Hwf & Hoft).
  specialize (Hfound (sy_k y1) (eq_trans (proj2 (proj2 S)) Hns)).
  assert (can_build a (page_addr a top) (k_pg (sy_k y1))) as Hcb.
  { split; [done| |apply low_present, Hlo; lia|intros x Hx; apply Hlo; lia]. unfold read_cr3 in *. by rewrite Hc. }
  pose proof (spawn_init_ok a (lo_stale L) Hst top b0 _ (sy_k y1) (t_content f) n (lo_idle_entry L) Hcb Hfound
    (proj2 (ao_content _ _ Hfs)) (eq_trans Htab1 Htab) Hwf Hoft Hsp) as Sp.
  destruct (spawn_init a (lo_stale L) (sy_k y1) (lo_idle_entry L)) as [[pid k']| | |]; [|done..]. cbn [mbind outcome_bind].
  destruct Sp as (-> & Hab & root & rsp & base & iroot & ibase & [Ft Fc Fr Fs Fb Ff Fi Fif Ffl Fcon]).
  destruct (start_ok (k_m k') (init_process root rsp base) (idle_process iroot (lo_idle_entry L) ibase)) as (m' & E & St);
    [by rewrite Ft..|done|done|done|done|done|].
  set (y2 := print (print _ _) _). change (k_m (sy_k y2)) with (k_m k'). rewrite E. cbn [mbind outcome_bind].
  destruct St as [Sinv Scur Sproc Soth Scr3 [Sst1 Sst2] [Smem Sum] Sfds]. set (y3 := put_sk _ _). split; [exists root, rsp, base|exact Hab].
  assert (k_pg (sy_k y3) = set_cr3 root (k_pg k')) as Ep.
  { unfold k_pg. change (k_m (sy_k y3)) with m'. rewrite Smem, Scr3. exact eq_refl. }
  assert (k_m (sy_k y3) = m') as Em by exact eq_refl.
  split; rewrite ?Em, ?Ep.
  - split; [exact eq_refl|exact Hg].
  - exact Hcalls.
  - by split.
  - done.
  - by split.
  - split; [done|]. rewrite Smem. exact Ff.
  - split; [done|]. apply (md_inv _ _ _ _ _ Fs).
  - intros v Hv. rewrite (md_kernel _ _ _ _ _ Fs); [by apply Hlo|lia|]. unfold room, PAGING_USER_CODE_ADDR. lia.
  - intros v Hv. destruct (md_pages _ _ _ _ _ Fs v Hv) as (j & _ & -> & _). by eexists.
  - rewrite Sum. exact Fb.
  - eexists. unfold fd_tables, k_files in *. rewrite Em. change (k_ns (sy_k y3)) with (k_ns k').
    rewrite Sfds. exact Ffl.
Qed.

(** The display's pages are as free after the memory phase as the boot loader left them. *)
Lemma display_kept p p' (d : D) : display_ok p d → (∀ v, 33554432 ≤ v < 2 ^ 48 → translate p' v = translate p v) →
  (∀ v, path_of v ≠ path_of TEST_VADDR → untabled p v → untabled p' v) → display_ok p' d.
Proof.
  intros Hd Ht Hu fb Hfb. destruct (Hd fb Hfb) as (Hm & Hlo & Hsep & Hpl). pose proof (lfb_range d fb Hfb) as Hr. do 3 (split; [done|]).
  intros v Hv. destruct (Hpl v Hv) as [Hut Htv]. change (2 * HUGE) with 4194304 in *. change (2 ^ 32) with 4294967296 in Hr.
  assert (33554432 ≤ v < 2 ^ 48) as Hv48 by (change (2 ^ 48) with 281474976710656; lia). split; [|by rewrite Ht]. apply Hu; [|done].
  intros E. apply path_block in E; [|lia|done]. change (TEST_VADDR / HUGE) with 256 in E. unfold HUGE in E.
  change (TEST_VADDR + HUGE) with 538968064 in Hsep. unfold TEST_VADDR in Hsep. pose proof (Z.div_mod v 2097152 ltac:(lia)). pose proof (Z.mod_pos_bound v 2097152 ltac:(lia)). lia.
Qed.

(** What the boot sequence may take behind the kernel: the tables of the paging test and of the first 32 MiB, those of the display, and the first two processes. *)
Definition boot_need (size : Z) : Z := spawn_need size + 40.

(** C1: The boot sequence, end to end.  On a machine with a usable memory map, the page tables of the boot loader, a display whose memory is
    free to map or none, an archive that has a program /sbin/init, and [boot_need] pages in a row free behind the kernel's image and below 32 MiB, the first 36 of
    them below 4 MiB, [kernel_main] never panics, the accesses to page tables made while only the loader's 4 MiB are mapped stay within them, and no page from 32 MiB on, which the kernel's identity map does not
    reach, is taken.  Unless init's program does not fit below the heap, it does not halt either: it enters init.  Then interrupts are enabled with every exception and
    device gate set, every system call is registered under its number, init is the current process, running in an address space of its own
    that holds its program's bytes and maps the first 32 MiB to themselves, on the register frame built for user mode; its kernel
    stack is the one of the task state segment and of the system call entry, and the invariants of the scheduler,
    the page tables and the open files hold. *)
Theorem kernel_main_spec (y : system D) (fuel : nat) (a : PmmAllocator) (bm : bitmap) (s1 : serial) (fs : list tar_file) (f : tar_file) (h0 : mem * heap) (top : Z)
  (Hdetect : detect_memory (lo_rd32 L) (get_mbi_ptr (lo_rd32 L)) (k_bm (sy_k y)) (console (boot_banner y)) fuel = Ret (a, bm, s1))
  (Hfound : memory_found a bm (kernel_end (lo_kernel_end L))) (Htables : boot_tables (k_pg (sy_k y)) (kernel_end (lo_kernel_end L)))
  (Henough : enough a bm (kernel_end (lo_kernel_end L)) top (boot_need (Z.of_nat (List.length (t_content f))))) (Htop : page_addr a top ≤ 33554432)
  (Hcr3 : read_cr3 (k_pg (sy_k y)) = pg_cr3 (k_pg (sy_k y)))
  (Hdisplay : display_ok (k_pg (sy_k y)) (sy_dev (boot_banner y)))
  (Hstatics : sy_idt y = Idt_new ∧ sy_calls y = SYSCALL_TABLE ∧ m_table (k_m (sy_k y)) = mkTable (replicate 64 None) 1 0 ∧
     k_ns (sy_k y) = boot_ns (tar_encode fs) h0)
  (Harchive : archive_ok fs f) (Hfuel : (6 < fuel)%nat ∧ (List.length fs < fuel)%nat)
  (Hstale : ∀ x, List.length (lo_stale L x) = 4096%nat ∧ Forall is_byte (lo_stale L x)) :
  match kernel_main L y fuel with
  | Ret (krsp, y') => (∃ root rsp base, at_init a (t_content f) y' krsp root rsp base) ∧
      ∀ j, top ≤ j < total_pages a → used (k_bm (sy_k y')) j = used bm j
  | Hang => ¬ flat_fits (Z.of_nat (List.length (t_content f)))
  | _ => False
  end.
Proof.
  destruct Hstatics as (Hidt & Hcalls & Htab & Hns), Hfuel as [Hf6 Hf]. unfold kernel_main. set (y1 := boot_banner y) in *.
  destruct (banner_silent y) as (S & Ei & Ec). fold y1 in S, Ei, Ec. pose proof (silent_pg _ _ S) as Epg. destruct S as (Em & Eb & En).
  rewrite <- Epg in *. rewrite <- Eb in Hdetect. rewrite <- En in Hns. rewrite <- Em in Htab. set (size := Z.of_nat (List.length (t_content f))) in *.
  assert (0 ≤ spawn_need size) as Hneed by (unfold spawn_need, image_need, code_pages; lia).
  destruct (memory_phase_ok y1 fuel a bm s1 _ h0 Hdetect Hfound Htables Hf6 Hns) as (y2 & m & h & -> & R2 & P2 & (Ed2 & Ei2 & Ec2 & _) & Hh & Hns2 & Ht2 & Hu2).
  assert (spare a top bm (k_bm (sy_k y2)) (spawn_need size + 4)) as Hs2.
  { apply R2; [lia|]. unfold boot_need in Henough. by replace (spawn_need size + 4 + 36) with (spawn_need size + 40) by lia. }
  cbn [mbind outcome_bind]. pose proof (display_kept _ _ _ Hdisplay Ht2 Hu2) as Hd2. rewrite <- Ed2 in Hd2.
  pose proof (screen_phase_ok a top bm y1 y2 (mf_pmm _ _ _ Hfound) P2 Hd2) as Sc. destruct (screen_phase y2) as [y3| | |]; [|done| |done]; cbn [mbind outcome_bind].
  2:{ exfalso. apply Sc, (spare_less a top bm _ (spawn_need size + 4)); [done|lia]. }
  destruct Sc as (R3 & P3 & Hns3 & Ei3 & Ec3 & _). specialize (R3 _ Hneed Hs2).
  destruct (interrupt_phase_ok a y1 y3 P3) as (y4 & -> & P4 & Hns4 & Ec4 & Hg & S4); [by rewrite Ei3, Ei2, Ei|]. cbn [mbind outcome_bind].
  destruct (call_phase_ok a y1 y4 fuel m h fs f P4) as (y5 & m' & h' & t & -> & R5 & P5 & Hns5 & Ec5 & Ei5 & Hh5 & Ht5);
    [by rewrite Ec4, Ec3, Ec2, Ec|done|by rewrite Hns4, Hns3, Hns2|done|done|]. cbn [mbind outcome_bind].
  rewrite <- (proj1 (proj2 S4)), <- R5 in R3.
  pose proof (process_phase_ok a top bm y1 y5 fs f m' h' t Hstale P5 Htab Hcr3 Hns5 Hh5 Ht5 Harchive Ec5 ltac:(by rewrite Ei5) Htop R3) as Pr.
  destruct (process_phase L y5) as [[krsp y']| | |]; [|done..]. destruct Pr as [A (_ & _ & Hab)]. by split.
Qed.
End phases.

(** ** Example *)

(** A machine without a display, started with the tables of boot.asm, 15 MiB of memory above 1 MiB and an archive of one file. *)
#[export] Instance bench_wide : WidePorts bench := { out16 _ _ d := d; in16 _ d := (0, d); out32 _ _ d := d; in32 _ d := (0, d) }.

Definition start_rd32 (p : Z) : Z := if p =? 20480 then 32768 else boot_rd32 p.
Definition start_layout : layout :=
  mkLayout start_rd32 2359296 (λ i, 2101248 + 16 * i) (λ i, 2102272 + 16 * i) 2103296 2162688 2109440 1280 2101000 exec_stale.
Definition start_machine : machine :=
  mkM (mkTable (replicate 64 None) 1 0) 0 0 (pg_mem loader_pages) ∅ (pg_cr3 loader_pages) 0 0 (mkSaved 0 0 0) [] 0.
Definition start_system : system bench :=
  mkSystem PmmAllocator_new (mkK (Tty.demo_io start_machine) (pg_bm loader_pages) (boot_ns (tar_encode init_tar) (∅, mkHeap 0 0 0)))
    (mkBench (0, 0, 0, 0, (0, 0)) 0 [] 0 false false) Idt_new None SYSCALL_TABLE ∅ false.

Definition serial_of (o : outcome (PmmAllocator * bitmap * serial)) : serial := match o with Ret (_, _, s) => s | _ => BootSpec.quiet end.
Definition start_s1 : serial :=
  serial_of (detect_memory (lo_rd32 start_layout) (get_mbi_ptr (lo_rd32 start_layout)) (k_bm (sy_k start_system)) (console (boot_banner start_system)) 10).

Lemma start_detects :
  detect_memory (lo_rd32 start_layout) (get_mbi_ptr (lo_rd32 start_layout)) (k_bm (sy_k start_system)) (console (boot_banner start_system)) 10 =
  Ret (boot_handle, boot_bm, start_s1).
Proof. vm_compute. reflexivity. Qed.

Lemma start_found : memory_found boot_handle boot_bm (kernel_end (lo_kernel_end start_layout)).
Proof. exact boot_memory_found. Qed.

Lemma start_stale : ∀ x, List.length (lo_stale start_layout x) = 4096%nat ∧ Forall is_byte (lo_stale start_layout x).
Proof. exact exec_stale_page. Qed.

Lemma start_fuel : (6 < 10)%nat ∧ (List.length init_tar < 10)%nat.
Proof. cbn. lia. Qed.

Lemma start_pages : k_pg (sy_k start_system) = loader_pages.
Proof. exact eq_refl. Qed.

Lemma start_tables : boot_tables (k_pg (sy_k start_system)) (kernel_end (lo_kernel_end start_layout)).
Proof. rewrite start_pages. exact loader_boot_tables. Qed.

Lemma start_cr3 : read_cr3 (k_pg (sy_k start_system)) = pg_cr3 (k_pg (sy_k start_system)).
Proof. rewrite start_pages. reflexivity. Qed.

Lemma start_display : display_ok (k_pg (sy_k start_system)) (sy_dev (boot_banner start_system)).
Proof. assert (lfb_found (sy_dev (boot_banner start_system)) = None) as E by (vm_compute; reflexivity). intros fb. by rewrite E. Qed.

Lemma start_statics : sy_idt start_system = Idt_new ∧ sy_calls start_system = SYSCALL_TABLE ∧
  m_table (k_m (sy_k start_system)) = mkTable (replicate 64 None) 1 0 ∧ k_ns (sy_k start_system) = boot_ns (tar_encode init_tar) (∅, mkHeap 0 0 0).
Proof. split_and!; exact eq_refl. Qed.

Lemma start_archive : archive_ok init_tar (mkTar init_file [144; 144; 235; 254] 48).
Proof.
  split; [|cbn; lia|reflexivity|reflexivity|done|].
  - repeat constructor; cbn; try lia; done.
  - split; [reflexivity|]. repeat (apply List.Forall_cons; [split; [discriminate|reflexivity]|]). apply List.Forall_nil.
Qed.

(** 1086 pages behind the kernel's image, which ends at page 384. *)
Lemma start_enough : enough boot_handle boot_bm (kernel_end (lo_kernel_end start_layout)) 3840 (boot_need 4).
Proof.
  change (kernel_end (lo_kernel_end start_layout)) with 2359296. change (boot_need 4) with 1086. exists 0, 384.
  split; [split; [done|]; split; [intros j Hj; lia|]; split; [done|]; split; [|done]; apply (boot_bm_free 0 256); vm_compute; reflexivity|].
  split; [done|]. split; [done|]. split; [done|]. split; [done|]. split; [|apply (boot_bm_free 384 1086); vm_compute; reflexivity].
  intros j Hj. right. destruct (Z.lt_ge_cases j 256); [left; lia|right]. unfold touches, page_addr, PMM_PAGE_SIZE, KERNEL_START, image_size.
  cbn [memory_start boot_handle]. zcases; lia.
Qed.

Lemma start_fits : flat_fits 4.
Proof. split; [lia|]. by vm_compute. Qed.

Lemma kernel_main_spec_witness : ∃ krsp y' root rsp base, kernel_main start_layout start_system 10 = Ret (krsp, y') ∧
  at_init start_layout boot_handle [144; 144; 235; 254] y' krsp root rsp base.
Proof.
  pose proof (@kernel_main_spec bench bench_io bench_wide start_layout start_system 10 boot_handle boot_bm start_s1 init_tar (mkTar init_file [144; 144; 235; 254] 48) (∅, mkHeap 0 0 0) 3840
    start_detects start_found start_tables start_enough ltac:(done) start_cr3 start_display start_statics start_archive start_fuel start_stale) as K.
  destruct (kernel_main start_layout start_system 10) as [[krsp y']| | |]; [|destruct K|destruct (K start_fits)|destruct K].
  destruct K as [(root & rsp & base & A) _]. exists krsp, y', root, rsp, base. split; [reflexivity|exact A].
Defined.
