(* ===== verification/SelfTests.v ===== *)
(** * The self-tests of the debug build (src/kernel_rust/src/elf.rs, process.rs)

    The regressions the debug build runs at boot: the records of the ELF loader, the rollback of a
    failed load and of a failed image, and the flat loader.  They run the loaders of the other files on
    images of their own and compare pages before and after.  [say_raw] prints a string as it is. *)

From Stdlib Require Import ZArith Lia String Ascii.
From stdpp Require Import base numbers list list_numbers option gmap sorting.
From S2P Require Import Prelude Pmm Memory Kmm Heap Paging Process Serial Interrupts Console BootMem UserMem Arena Elf Exec.

Local Open Scope Z_scope.

Definition say_raw (s : serial) (msg : string) : serial := writestrs s [bytes msg].

(** ** The records *)

(** [for index in index..]: reserve a slot and fill it in; [false] after the first failure. *)
Fixpoint fill_records (ar : arena) (lp : LoadedPages) (index : Z) (n : nat) : outcome (bool * arena * LoadedPages) :=
  match n with
  | O => Ret (true, ar, lp)
  | S n =>
      '(slot, ar, lp) ← reserve ar lp;
      match slot with
      | inl slot =>
          ar ← write_slot ar slot (mkPage (33554432 + index * 4096) (4194304 + index * 4096));
          fill_records ar lp (index + 1) n
      | inr _ => Ret (false, ar, lp)
      end
  end.

Fixpoint reserve_records (ar : arena) (lp : LoadedPages) (n : nat) : outcome (bool * arena * LoadedPages) :=
  match n with
  | O => Ret (true, ar, lp)
  | S n =>
      '(slot, ar, lp) ← reserve ar lp;
      match slot with inl _ => reserve_records ar lp n | inr _ => Ret (false, ar, lp) end
  end.

Definition test_provenance_arena (ar : arena) (s : serial) : outcome (arena * serial) :=
  '(ok, ar, pages) ← fill_records ar LoadedPages_new 0 257;
  let ok := ok && (lp_len pages =? 257) in
  first ← lp_find ar pages 33554432;
  let ok := ok && bool_decide (first = Some 4194304) in
  last ← lp_find ar pages (33554432 + 256 * 4096);
  let ok := ok && bool_decide (last = Some (4194304 + 256 * 4096)) in
  '(ar, _) ← release_metadata ar pages;
  '(ok2, ar, pages) ← reserve_records ar LoadedPages_new 257;
  let ok := ok && ok2 && (lp_len pages =? 257) in
  '(ar, _) ← release_metadata ar pages;
  Ret (ar, say_raw s (if ok then "ELF: provenance arena >256 pages and cleanup OK.\n" else "ELF: provenance arena regression FAILED.\n")).

Definition metadata_is_reusable (ar : arena) : outcome (bool * arena) :=
  '(ok, ar, pages) ← reserve_records ar LoadedPages_new (Z.to_nat (PROVENANCE_CHUNK_CAP * PROVENANCE_CHUNK_COUNT));
  '(ar, _) ← release_metadata ar pages;
  Ret (ok, ar).

(** ** The image *)

Definition ROLLBACK_TEST_BASE : Z := 50331648.
Definition ROLLBACK_TEST_INHERITED : Z := ROLLBACK_TEST_BASE + 12288.

(** [image[offset..offset + n].copy_from_slice(&value.to_le_bytes())]. *)
Definition put_slice (image : list Z) (offset : Z) (l : list Z) : outcome (list Z) :=
  if offset + Z.of_nat (length l) <=? Z.of_nat (length image)
  then Ret (take (Z.to_nat offset) image ++ l ++ drop (Z.to_nat offset + length l) image) else Panic.
Definition put_u16 (image : list Z) (offset value : Z) : outcome (list Z) := put_slice image offset (le_bytes 2 value).
Definition put_u32 (image : list Z) (offset value : Z) : outcome (list Z) := put_slice image offset (le_bytes 4 value).
Definition put_u64 (image : list Z) (offset value : Z) : outcome (list Z) := put_slice image offset (le_bytes 8 value).

Definition rollback_image (truncated_later_segment : bool) : outcome (list Z) :=
  let image := replicate (Z.to_nat 4104) 0 in
  image ← put_slice image 0 [127; 69; 76; 70; ELFCLASS64; 1; 1; 0; 0; 0; 0; 0; 0; 0; 0; 0];
  image ← put_u16 image 16 ET_EXEC;
  image ← put_u16 image 18 EM_X86_64;
  image ← put_u32 image 20 1;
  image ← put_u64 image 24 ROLLBACK_TEST_BASE;
  image ← put_u64 image 32 64;
  image ← put_u16 image 52 64;
  image ← put_u16 image 54 56;
  image ← put_u16 image 56 2;
  image ← put_u32 image 64 PT_LOAD;
  image ← put_u32 image 68 5;
  image ← put_u64 image 72 4096;
  image ← put_u64 image 80 ROLLBACK_TEST_BASE;
  image ← put_u64 image 96 1;
  image ← put_u64 image 104 4096;
  let second := 64 + 56 in
  image ← put_u32 image second PT_LOAD;
  image ← put_u32 image (second + 4) 5;
  image ← put_u64 image (second + 8) (if truncated_later_segment then 4104 else 4097);
  image ← put_u64 image (second + 16) (ROLLBACK_TEST_BASE + 4096);
  image ← put_u64 image (second + 32) 1;
  image ← put_u64 image (second + 40) 4096;
  image ← store image 4096 144;
  store image 4097 144.

Section heap.
Context {H : Type} `{KHeap H}.

(** The block with the image in it. *)
Definition build_rollback_elf (truncated_later_segment : bool) (h : H) : outcome (option (Z * list Z) * H) :=
  '(image_ptr, h) ← kmalloc_op 4104 h;
  if image_ptr =? 0 then Ret (None, h)
  else image ← rollback_image truncated_later_segment; Ret (Some (image_ptr, image), h).
End heap.

Definition error_kind (e : ElfError) : Z := match e with Truncated => 1 | Oom => 2 | MetadataOom => 3 | _ => 0 end.

(** ** Pages taken and given back *)

Section frames.
Context (a : PmmAllocator).

(** [for frame in &mut frames]: pages until one is null; the array keeps zeros from there on. *)
Fixpoint take_frames (p : pg) (n : nat) : outcome (bool * list Z * pg) :=
  match n with
  | O => Ret (true, [], p)
  | S n =>
      '(page, p) ← pmm_alloc a p;
      if page =? 0 then Ret (false, replicate (S n) 0, p)
      else '(ok, frames, p) ← take_frames p n; Ret (ok, page :: frames, p)
  end.

Fixpoint free_frames (p : pg) (frames : list Z) : outcome pg :=
  match frames with
  | [] => Ret p
  | frame :: frames => p ← (if negb (frame =? 0) then pmm_free a p frame else Ret p); free_frames p frames
  end.

(** Both: the pages the next allocations would get. *)
Definition frame_window (p : pg) (n : nat) : outcome (bool * list Z * pg) :=
  '(ok, frames, p) ← take_frames p n;
  p ← free_frames p frames;
  Ret (ok, frames, p).

Definition sort_unstable (l : list Z) : list Z := merge_sort Z.le l.

(** The first expected page not matched yet that is [page] gets matched. *)
Fixpoint match_frame (page : Z) (expected : list Z) (matched : list bool) : bool * list bool :=
  match expected, matched with
  | e :: expected, m :: matched =>
      if negb m && (e =? page) then (true, true :: matched)
      else let '(found, matched) := match_frame page expected matched in (found, m :: matched)
  | _, _ => (false, matched)
  end.

Fixpoint match_frames (actual expected : list Z) (matched : list bool) : bool * list bool :=
  match actual with
  | [] => (true, matched)
  | page :: actual =>
      let '(found, matched) := match_frame page expected matched in
      let '(ok, matched) := match_frames actual expected matched in
      (found && ok, matched)
  end.

Definition frames_are_reusable (p : pg) (injection : LoadFailureInjection) : outcome (bool * pg) :=
  let count := Z.to_nat (Z.min (mapped_count injection) (Z.of_nat (length (mapped_paddrs injection)))) in
  '(ok, actual, p) ← take_frames p count;
  let matched := replicate count false in
  let '(ok, matched) :=
    if (ok : bool) then match_frames actual (take count (mapped_paddrs injection)) matched else (false, matched) in
  p ← free_frames p actual;
  Ret (ok && forallb id matched, p).
End frames.

(** ** The rollback of a load *)

(** What the tests work on: the page tables and memory, the contents of user memory, the records,
    the heap, the serial port and the flags register. *)
Record bench_state (H : Type) := mkBS { bs_pg : pg; bs_um : gmap Z mem; bs_ar : arena; bs_heap : H; bs_out : serial; bs_rflags : Z }.
Arguments mkBS {H} _ _ _ _ _ _.
Arguments bs_pg {H} _.
Arguments bs_um {H} _.
Arguments bs_ar {H} _.
Arguments bs_heap {H} _.
Arguments bs_out {H} _.
Arguments bs_rflags {H} _.

Definition show_bool (b : bool) : list Z := bytes (if b then "true" else "false").

Section rollback.
Context {H : Type} `{KHeap H} (a : PmmAllocator) (stale : Z → list Z).
Implicit Types t : bench_state H.

Definition put_bpg t (p : pg) : bench_state H := mkBS p (bs_um t) (bs_ar t) (bs_heap t) (bs_out t) (bs_rflags t).
Definition put_heap t (h : H) : bench_state H := mkBS (bs_pg t) (bs_um t) (bs_ar t) h (bs_out t) (bs_rflags t).
Definition put_ar t (ar : arena) : bench_state H := mkBS (bs_pg t) (bs_um t) ar (bs_heap t) (bs_out t) (bs_rflags t).
Definition tell t (l : list (list Z)) : bench_state H := mkBS (bs_pg t) (bs_um t) (bs_ar t) (bs_heap t) (writestrs (bs_out t) l) (bs_rflags t).
Definition after_load t (p : pg) (um : gmap Z mem) (ar : arena) : bench_state H := mkBS p um ar (bs_heap t) (bs_out t) (bs_rflags t).

Definition run_rollback_case t (label : string) (image : list Z) (expected_error : Z) (injection : LoadFailureInjection)
    (pml4_phys inherited_paddr : Z) : outcome (bool * bench_state H) :=
  let t := tell t [bytes "ELF TEST: "; bytes label; bytes " begin"; [10]] in
  let saved_cr3 := read_cr3 (bs_pg t) in
  let saved_flags := bs_rflags t in
  '(result, p, um, ar, injection) ← load_traced a image (bs_pg t) (bs_um t) (bs_ar t) pml4_phys injection;
  let t := after_load t p um ar in
  let error_ok := match result with inr e => error_kind e =? expected_error | inl _ => false end in
  let cr3_ok := read_cr3 (bs_pg t) =? saved_cr3 in
  let if_ok := Z.land (bs_rflags t) 512 =? Z.land saved_flags 512 in
  let count := Z.to_nat (Z.min (mapped_count injection) (Z.of_nat (length (mapped_vaddrs injection)))) in
  let mappings_removed := forallb (λ vaddr, bool_decide (translate_in_pml4 (bs_pg t) vaddr pml4_phys = None)) (take count (mapped_vaddrs injection)) in
  let inherited_intact := bool_decide (translate_in_pml4 (bs_pg t) ROLLBACK_TEST_INHERITED pml4_phys = Some inherited_paddr) in
  '(frames_reused, p) ← frames_are_reusable a (bs_pg t) injection;
  '(metadata_reused, ar) ← metadata_is_reusable (bs_ar t);
  let t := put_ar (put_bpg t p) ar in
  let ok := error_ok && mappings_removed && inherited_intact && frames_reused && metadata_reused && cr3_ok && if_ok in
  let t := tell t [bytes "ELF TEST: "; bytes label; bytes (if ok then " rollback PASS" else " rollback FAIL"); [10]] in
  Ret (ok, if ok then t
           else tell t [bytes "DBG ELF TEST: "; bytes label; bytes " error="; show_bool error_ok; bytes " maps="; show_bool mappings_removed;
                        bytes " inherited="; show_bool inherited_intact; bytes " frames="; show_bool frames_reused; bytes " metadata="; show_bool metadata_reused;
                        bytes " cr3="; show_bool cr3_ok; bytes " if="; show_bool if_ok; [10]]).

(** Taking the page of the fixture away again; [false] when it was not there. *)
Definition drop_inherited t : outcome (bool * bench_state H) :=
  '(e, p) ← unmap_and_free_empty a (bs_pg t) ROLLBACK_TEST_INHERITED;
  match e with
  | Some entry => p ← pmm_free a p (entry_addr entry); Ret (true, put_bpg t p)
  | None => Ret (false, put_bpg t p)
  end.

Definition say_line t (msg : string) : bench_state H := tell t [bytes msg; [10]].

Definition set_pmm_fail (n : Z) (j : LoadFailureInjection) : LoadFailureInjection :=
  mkInj (Some n) (metadata_fail_after j) (pmm_attempts j) (metadata_attempts j) (mapped_paddrs j) (mapped_vaddrs j) (mapped_count j).
Definition set_metadata_fail (n : Z) (j : LoadFailureInjection) : LoadFailureInjection :=
  mkInj (pmm_fail_after j) (Some n) (pmm_attempts j) (metadata_attempts j) (mapped_paddrs j) (mapped_vaddrs j) (mapped_count j).

(** The three loads that fail. *)
Definition rollback_cases t (pml4_phys inherited_page : Z) : outcome (option bool * bench_state H) :=
  '(image, h) ← build_rollback_elf true (bs_heap t);
  let t := put_heap t h in
  match image with
  | None =>
      let t := say_line t "ELF TEST: rollback fixture allocation FAIL" in
      '(_, t) ← drop_inherited t; Ret (None, t)
  | Some (image_ptr, image) =>
      let t := say_line t "ELF TEST: rollback fixture truncated ready" in
      '(ok1, t) ← run_rollback_case t "truncated-later-segment" image 1 disabled pml4_phys inherited_page;
      h ← kfree_op image_ptr (bs_heap t);
      '(image, h) ← build_rollback_elf false h;
      let t := put_heap t h in
      match image with
      | None => '(_, t) ← drop_inherited t; Ret (None, say_line t "ELF TEST: rollback fixture allocation FAIL")
      | Some (image_ptr, image) =>
          let t := say_line t "ELF TEST: rollback fixture valid ready" in
          '(ok2, t) ← run_rollback_case t "pmm-exhaustion" image 2 (set_pmm_fail 1 disabled) pml4_phys inherited_page;
          '(ok3, t) ← run_rollback_case t "metadata-exhaustion" image 3 (set_metadata_fail 1 disabled) pml4_phys inherited_page;
          h ← kfree_op image_ptr (bs_heap t);
          Ret (Some (ok1 && ok2 && ok3), put_heap t h)
      end
  end.

(** An image whose second stack page cannot be had. *)
Definition stack_rollback t : outcome (bool * bench_state H) :=
  '(window_ok, expected_frames, p) ← frame_window a (bs_pg t) 64;
  '(hook_image, h) ← build_rollback_elf false (bs_heap t);
  let t := put_heap (put_bpg t p) h in
  let old_cr3 := read_cr3 (bs_pg t) in
  let old_mapping := translate_in_pml4 (bs_pg t) ROLLBACK_TEST_INHERITED old_cr3 in
  '(hook_result, t) ←
    match hook_image with
    | Some (image_ptr, image) =>
        '(result, p, um, ar) ← build_exec_image_with_stack_failure a stale image (bs_pg t) (bs_um t) (bs_ar t) 1;
        h ← kfree_op image_ptr (bs_heap t);
        Ret (result, put_heap (after_load t p um ar) h)
    | None => Ret (inr (Oom, 0), t)
    end;
  '(window_ok2, recycled_frames, p) ← frame_window a (bs_pg t) 64;
  let t := put_bpg t p in
  let hook_ok := match hook_result with inr (Oom, 1) => true | _ => false end
    && (read_cr3 (bs_pg t) =? old_cr3)
    && bool_decide (translate_in_pml4 (bs_pg t) ROLLBACK_TEST_INHERITED old_cr3 = old_mapping)
    && (window_ok && window_ok2) && bool_decide (sort_unstable expected_frames = sort_unstable recycled_frames) in
  Ret (hook_ok, tell t [bytes "ELF TEST: stack-allocation rollback "; bytes (if hook_ok then "PASS" else "FAIL"); [10]]).

Definition test_provenance_failures t : outcome (bool * bench_state H) :=
  let t := say_line t "ELF TEST: rollback setup begin" in
  let pml4_phys := read_cr3 (bs_pg t) in
  let inherited_before := translate_in_pml4 (bs_pg t) ROLLBACK_TEST_INHERITED pml4_phys in
  '(inherited_page, p) ← pmm_alloc a (bs_pg t);
  let t := put_bpg t p in
  if (inherited_page =? 0) || negb (bool_decide (inherited_before = None)) then
    let t := say_line t "ELF TEST: setup rollback FAIL" in
    p ← (if negb (inherited_page =? 0) then pmm_free a (bs_pg t) inherited_page else Ret (bs_pg t));
    Ret (false, put_bpg t p)
  else
    p ← map_4k a (bs_pg t) ROLLBACK_TEST_INHERITED inherited_page PAGE_USER_RW;
    let t := say_line (put_bpg t p) "ELF TEST: rollback setup ready" in
    '(r, t) ← rollback_cases t pml4_phys inherited_page;
    match r with
    | None => Ret (false, t)
    | Some ok =>
        '(dropped, t) ← drop_inherited t;
        let ok := ok && dropped in
        let t := say_line t (if ok then "ELF TEST: rollback suite PASS" else "ELF TEST: rollback suite FAIL") in
        '(hook_ok, t) ← stack_rollback t;
        Ret (ok && hook_ok, t)
    end.
End rollback.

(** ** The flat loader *)

Definition FLAT_ROLLBACK_DATA : list Z := replicate 4097 144.
Definition FLAT_SMALL_DATA : list Z := [204].
Definition OLD_ADDR : Z := 4096.

Section flat.
Context {H : Type} (a : PmmAllocator) (stale : Z → list Z).
Implicit Types t : bench_state H.

Definition build_flat_image_with_failure (data : list Z) (p : pg) (um : gmap Z mem) (fail_after_allocations : Z)
    : outcome ((FlatImage + FlatLoadError) * pg * gmap Z mem) :=
  build_flat_image_inner a stale data p um (Some fail_after_allocations).

(** Bytes reached through the active address space. *)
Definition load8_at (p : pg) (v : Z) : outcome Z :=
  match translate p v with Some pa => Ret (ld8 (pg_mem p) pa) | None => Fault end.

(** [write_bytes(page, 0xA5, 0x1000)]. *)
Definition seed_page (p : pg) (page : Z) : outcome pg :=
  match translate p page with Some pa => Ret (set_mem (st_bytes (pg_mem p) pa (replicate 4096 165)) p) | None => Fault end.

Fixpoint seed_frames (p : pg) (n : nat) : outcome (bool * list Z * pg) :=
  match n with
  | O => Ret (true, [], p)
  | S n =>
      '(page, p) ← pmm_alloc a p;
      if page =? 0 then Ret (false, replicate (S n) 0, p)
      else
        p ← seed_page p page;
        '(ok, frames, p) ← seed_frames p n;
        Ret (ok, page :: frames, p)
  end.

(** [for offset in offset..]: are all bytes of the page zero from there on? *)
Fixpoint zero_from (p : pg) (page offset : Z) (n : nat) : outcome bool :=
  match n with
  | O => Ret true
  | S n => b ← load8_at p (page + offset); if negb (b =? 0) then Ret false else zero_from p page (offset + 1) n
  end.

(** The image of one byte: its pages, what they hold and whose they were. *)
Definition small_binary_ok (p : pg) (um : gmap Z mem) (stale_seed_ok : bool) (stale_frames : list Z) : outcome (bool * pg * gmap Z mem) :=
  '(r, p, um) ← build_flat_image a stale FLAT_SMALL_DATA p um;
  match r with
  | inr _ => Ret (false, p, um)
  | inl image =>
      let root := phys (fi_root image) in
      let code_first := translate_in_pml4 p USER_CODE_ADDR root in
      let code_second := translate_in_pml4 p (USER_CODE_ADDR + 4096) root in
      let stack := translate_in_pml4 p (fi_stack_low image) root in
      let reused o := match o with Some page => existsb (λ f, f =? page) stale_frames | None => false end in
      first_tail_zero ← match code_first with
                        | Some page =>
                            b ← load8_at p page;
                            zero ← zero_from p page 1 4095;
                            Ret (bool_decide (Some b = FLAT_SMALL_DATA !! 0%nat) && zero)
                        | None => Ret false
                        end;
      second_page_zero ← match code_second with Some page => zero_from p page 0 4096 | None => Ret false end;
      let layout_ok := match code_first, code_second, stack with Some _, Some _, Some _ => true | _, _, _ => false end
        && (fi_user_rsp image =? fi_stack_low image + 4096) in
      p ← destroy_uncommitted_pml4 a p (fi_root image);
      Ret (stale_seed_ok && (reused code_first || reused code_second) && layout_ok && first_tail_zero && second_page_zero, p, um)
  end.

(** The loader refuses the size before it reads a byte; the bytes past the data do not matter. *)
Definition oversize_ok (p : pg) (um : gmap Z mem) : outcome (bool * pg * gmap Z mem) :=
  let oversize := FLAT_USER_LIMIT - USER_CODE_ADDR in
  '(r, p, um) ← build_flat_image a stale (replicate (Z.to_nat oversize) 144) p um;
  Ret (match r with inr Oversize => true | _ => false end, p, um).

(** A construction whose second page cannot be had: the verdict, and whether the old address space is as it was. *)
Definition failure_ok (p : pg) (um : gmap Z mem) (saved_cr3 : Z) (old_mapping : option Z) : outcome (bool * bool * pg * gmap Z mem) :=
  '(window_ok, expected, p) ← frame_window a p 32;
  '(failed, p, um) ← build_flat_image_with_failure FLAT_ROLLBACK_DATA p um 1;
  let old_state_ok := (read_cr3 p =? saved_cr3) && bool_decide (translate_in_pml4 p OLD_ADDR saved_cr3 = old_mapping)
    && negb (bool_decide (old_mapping = None)) in
  '(window_ok2, recycled, p) ← frame_window a p 32;
  let reuse_ok := window_ok && window_ok2 && bool_decide (sort_unstable expected = sort_unstable recycled) in
  Ret (match failed with inr FlatOom => true | _ => false end && old_state_ok && reuse_ok, old_state_ok, p, um).

Definition verdict (ok : bool) : list Z := bytes (if ok then "PASS" else "FAIL") ++ [10].

(** The four lines. *)
Definition flat_report t (fail_ok over_ok old_state_ok small_ok : bool) : bench_state H :=
  let t := tell t [bytes "FLAT TEST: allocation rollback "; verdict fail_ok] in
  let t := tell t [bytes "FLAT TEST: oversize rejection "; verdict over_ok] in
  let t := tell t [bytes "FLAT TEST: old-root no-overwrite "; verdict old_state_ok] in
  tell t [bytes "FLAT TEST: small-binary zero-tail/no-stale copy "; verdict small_ok].

Definition test_flat_image_failures t : outcome (bool * bench_state H) :=
  let saved_cr3 := read_cr3 (bs_pg t) in
  let old_mapping := translate_in_pml4 (bs_pg t) OLD_ADDR saved_cr3 in
  '(stale_seed_ok, stale_frames, p) ← seed_frames (bs_pg t) 8;
  p ← free_frames a p stale_frames;
  '(small_ok, p, um) ← small_binary_ok p (bs_um t) stale_seed_ok stale_frames;
  '(over_ok, p, um) ← oversize_ok p um;
  '(fail_ok, old_state_ok, p, um) ← failure_ok p um saved_cr3 old_mapping;
  Ret (fail_ok && over_ok && small_ok, flat_report (after_load t p um (bs_ar t)) fail_ok over_ok old_state_ok small_ok).
End flat.
