(* ===== verification/SelfTestSpec.v ===== *)
(** * The self-tests pass

    What the self-tests of the debug build compare is so on every machine that can build a program; on a machine
    with the tables of the boot loader they all pass. *)

From Stdlib Require Import ZArith Lia String Ascii.
From stdpp Require Import base numbers list list_numbers option gmap sorting.
From S2P Require Import Prelude Pmm Memory Kmm Heap FdCalls Paging PageMaps PageSpec Reach Loader PageNew Process Serial Interrupts Console BootMem BootSpec MemSpec UserMem Arena ArenaSpec Elf Exec ExecSpec ExecCall SpawnSpec SelfTests.

Local Open Scope Z_scope.

(** ** Pages taken and given back *)

Section frames.
Context (a : PmmAllocator) (Ha : pmm_wf a).

(** The frames taken are free pages, each once, and are used afterwards. *)
Definition taken_frames (b : bitmap) (frames : list Z) (b' : bitmap) : Prop :=
  ∃ ks, frames = page_addr a <$> ks ∧ NoDup ks ∧ Forall (λ k, 0 ≤ k < total_pages a ∧ used b k = false) ks ∧
    ∀ j, in_range j → used b' j = bool_decide (j ∈ ks) || used b j.

Lemma alloc_first (p : pg) : bm_wf (pg_bm p) → 0 < free_count a (pg_bm p) →
  ∃ k b, 0 ≤ k < total_pages a ∧ used (pg_bm p) k = false ∧ (∀ j, 0 ≤ j < k → used (pg_bm p) j = true) ∧
    pmm_alloc a p = Ret (page_addr a k, set_bm b p) ∧ (page_addr a k =? 0) = false ∧ bm_wf b ∧
    (∀ j, in_range j → used b j = (k =? j) || used (pg_bm p) j) ∧ free_count a b = free_count a (pg_bm p) - 1.
Proof using Ha.
  intros Hwf Hn. pose proof (free_count_alloc a (pg_bm p) Ha Hwf) as F. unfold pmm_alloc.
  destruct (alloc_take a (pg_bm p) Ha Hwf) as [(k & b & Hk & Hf & Hl & E & Hnz & Hwf' & Hu)|[Hall E]]; rewrite E in F |- *.
  - rewrite Hnz in F. cbn [mbind outcome_bind]. exists k, b. split_and!; try done; try lia.
  - cbn in F. lia.
Qed.

Lemma take_frames_ok n : ∀ p, bm_wf (pg_bm p) → Z.of_nat n ≤ free_count a (pg_bm p) →
  ∃ frames b, take_frames a p n = Ret (true, frames, set_bm b p) ∧ bm_wf b ∧ taken_frames (pg_bm p) frames b.
Proof using Ha.
  pose proof Ha as (Ht & _).
  induction n as [|n IH]; intros p Hwf Hn; cbn [take_frames].
  { exists [], (pg_bm p). split; [by destruct p|]. split; [done|]. exists []. split; [done|]. split; [constructor|]. split; [constructor|]. intros j _.
    by rewrite bool_decide_eq_false_2 by apply not_elem_of_nil. }
  destruct (alloc_first p Hwf ltac:(lia)) as (k & b & Hk & Hf & _ & -> & Hnz & Hwf' & Hu & Hc). cbn [mbind outcome_bind]. rewrite Hnz.
  destruct (IH (set_bm b p) Hwf' ltac:(cbn [pg_bm set_bm]; lia)) as (frames & b2 & -> & Hwf2 & ks & -> & Hnd & Hks & Hu2).
  cbn [mbind outcome_bind pg_bm set_bm] in *. exists (page_addr a k :: (page_addr a <$> ks)), b2. split; [done|]. split; [done|]. exists (k :: ks).
  split; [done|]. split.
  - apply NoDup_cons. split; [|done]. intros Hin. rewrite Forall_forall in Hks. destruct (Hks k Hin) as [_ Hk2].
    rewrite Hu in Hk2 by (unfold in_range; lia). by rewrite Z.eqb_refl in Hk2.
  - split.
    + apply Forall_cons. split; [done|]. rewrite Forall_forall in Hks |- *. intros j Hj. destruct (Hks j Hj) as [Hjr Hju]. split; [done|].
      rewrite Hu in Hju by (unfold in_range; lia). by apply orb_false_elim in Hju as [_ ?].
    + intros j Hj. rewrite Hu2, Hu by done. rewrite (bool_decide_ext (j ∈ k :: ks) (j = k ∨ j ∈ ks)) by apply elem_of_cons.
      destruct (Z.eqb_spec k j) as [->|Hne].
      * rewrite (bool_decide_eq_true_2 (j = j ∨ _)) by auto. by rewrite orb_true_l, orb_true_r.
      * cbn [orb]. f_equal. apply bool_decide_ext. naive_solver.
Qed.

(** The pages taken depend on the bitmap only through the pages it has free. *)
Lemma take_frames_same n : ∀ p q, bm_wf (pg_bm p) → bm_wf (pg_bm q) → Z.of_nat n ≤ free_count a (pg_bm p) → Z.of_nat n ≤ free_count a (pg_bm q) →
  (∀ j, 0 ≤ j < total_pages a → used (pg_bm q) j = used (pg_bm p) j) →
  ∃ frames b c, take_frames a p n = Ret (true, frames, set_bm b p) ∧ take_frames a q n = Ret (true, frames, set_bm c q).
Proof using Ha.
  pose proof Ha as (Ht & _).
  induction n as [|n IH]; intros p q Hp Hq Np Nq Hs; cbn [take_frames].
  { exists [], (pg_bm p), (pg_bm q). by destruct p, q. }
  destruct (alloc_first p Hp ltac:(lia)) as (k & b & Hk & Hf & Hl & -> & Hnz & Hwf & Hu & Hc).
  destruct (alloc_first q Hq ltac:(lia)) as (k' & c & Hk' & Hf' & Hl' & -> & _ & Hwf' & Hu' & Hc').
  assert (k' = k) as ->.
  { destruct (Z.lt_trichotomy k' k) as [Hlt|[?|Hlt]]; [|done|]; [rewrite Hs, Hl in Hf' by lia|rewrite <- Hs, Hl' in Hf by lia]; done. }
  cbn [mbind outcome_bind]. rewrite Hnz.
  destruct (IH (set_bm b p) (set_bm c q) Hwf Hwf') as (frames & b2 & c2 & -> & ->); cbn [pg_bm set_bm]; try lia.
  { intros j Hj. by rewrite Hu, Hu', Hs by (unfold in_range; lia). }
  by exists (page_addr a k :: frames), b2, c2.
Qed.

Lemma free_frames_ok ks : ∀ p, bm_wf (pg_bm p) → Forall (λ k, 0 ≤ k < total_pages a) ks →
  ∃ b, free_frames a p (page_addr a <$> ks) = Ret (set_bm b p) ∧ bm_wf b ∧
    ∀ j, in_range j → used b j = negb (bool_decide (j ∈ ks)) && used (pg_bm p) j.
Proof using Ha.
  pose proof Ha as (Ht & _).
  induction ks as [|k ks IH]; intros p Hwf Hks; cbn [fmap list_fmap free_frames].
  { exists (pg_bm p). split; [by destruct p|]. split; [done|]. intros j _. by rewrite bool_decide_eq_false_2 by apply not_elem_of_nil. }
  apply Forall_cons in Hks as [Hk Hks]. assert (in_range k) as Hr by (unfold in_range; lia).
  pose proof (page_addr_u64 a k Ha Hr) as [_ Hpos]. rewrite (proj2 (Z.eqb_neq _ 0)) by lia. cbn [negb]. unfold pmm_free. rewrite free_page by done.
  destruct (bm_clear_spec (pg_bm p) k Hwf Hr) as (b & -> & Hwf' & Hu). cbn [mbind outcome_bind].
  destruct (IH (set_bm b p) Hwf' Hks) as (b2 & -> & Hwf2 & Hu2). exists b2. split; [done|]. split; [done|]. intros j Hj. rewrite Hu2 by done.
  cbn [pg_bm set_bm]. rewrite Hu by done. rewrite (bool_decide_ext (j ∈ k :: ks) (j = k ∨ j ∈ ks)) by apply elem_of_cons.
  destruct (Z.eqb_spec k j) as [->|Hne]; [rewrite (bool_decide_eq_true_2 (j = j ∨ _)) by auto; by rewrite andb_false_r|].
  f_equal. f_equal. apply bool_decide_ext. naive_solver.
Qed.

(** Looking at the next pages changes nothing, and on the same free pages gives the same pages. *)
Lemma frame_window_ok n p q : bm_wf (pg_bm p) → bm_wf (pg_bm q) → Z.of_nat n ≤ free_count a (pg_bm p) → Z.of_nat n ≤ free_count a (pg_bm q) →
  (∀ j, 0 ≤ j < total_pages a → used (pg_bm q) j = used (pg_bm p) j) →
  ∃ frames, frame_window a p n = Ret (true, frames, p) ∧ frame_window a q n = Ret (true, frames, q).
Proof using Ha.
  intros Hp Hq Np Nq Hs. pose proof Ha as (Ht & _). destruct (take_frames_same n p q Hp Hq Np Nq Hs) as (frames & b & c & Ep & Eq).
  assert (∀ p b, bm_wf (pg_bm p) → Z.of_nat n ≤ free_count a (pg_bm p) → take_frames a p n = Ret (true, frames, set_bm b p) →
    frame_window a p n = Ret (true, frames, p)) as Hw; [|by exists frames; split; [apply (Hw p b)|apply (Hw q c)]].
  clear -Ha. intros p b Hp Np E. unfold frame_window. rewrite E. cbn [mbind outcome_bind].
  destruct (take_frames_ok n p Hp Np) as (frames' & b' & E' & Hwf & ks & -> & Hnd & Hks & Hu). rewrite E in E'. injection E' as -> Eb.
  subst b'.
  destruct (free_frames_ok ks (set_bm b p) Hwf) as (b2 & -> & Hwf2 & Hu2); [eapply Forall_impl; [exact Hks|]; by intros k [? _]|].
  cbn [mbind outcome_bind]. assert (b2 = pg_bm p) as ->; [|by destruct p]. apply bm_ext; [done|done|]. intros j Hj. rewrite Hu2 by done.
  cbn [pg_bm set_bm]. rewrite Hu by done. case_bool_decide as Hin; [|done]. cbn. rewrite Forall_forall in Hks. by destruct (Hks j Hin) as [_ ->].
Qed.
End frames.

(** ** The flat loader *)

(** The size the test tries is past the limit: nothing is read, allocated or changed. *)
Lemma oversize_refused a stale p um : oversize_ok a stale p um = Ret (true, p, um).
Proof.
  unfold oversize_ok, build_flat_image, build_flat_image_inner. rewrite length_replicate, Z2Nat.id by done.
  change (FLAT_USER_LIMIT - USER_CODE_ADDR) with 50331648. reflexivity.
Qed.

(** A construction that is to fail after [f] of its code pages does not survive. *)
Lemma flat_pages_injected a data f n : ∀ p um root v off left al e al' p' um', al ≤ f < al + Z.of_nat n →
  flat_pages a data p um root v off left al (Some f) n = Ret (e, al', p', um') → e ≠ None.
Proof.
  induction n as [|n IH]; intros p um root v off left al e al' p' um' Hf; cbn [flat_pages]; [lia|].
  case_bool_decide as Hal; [by intros [= <- _ _ _]|]. assert (al ≠ f) by congruence.
  destruct (pmm_alloc a p) as [[page p1]| | |]; cbn [mbind outcome_bind]; try discriminate.
  destruct (page =? 0); [by intros [= <- _ _ _]|].
  destruct (fill_frame p1 page _) as [p1'| | |]; cbn [mbind outcome_bind]; try discriminate.
  destruct (try_map_4k_target a _ _ _ _ _) as [[ok p2]| | |]; cbn [mbind outcome_bind]; try discriminate. destruct ok; cbn [negb].
  2:{ destruct (pmm_free a p2 page); cbn [mbind outcome_bind]; try discriminate. by intros [= <- _ _ _]. }
  destruct (checked_add off 4096), (checked_add v 4096); try (by intros [= <- _ _ _]). apply IH. lia.
Qed.

Lemma build_flat_injected a stale data p um f r q um' : 0 ≤ f < code_pages (Z.of_nat (length data)) →
  build_flat_image_inner a stale data p um (Some f) = Ret (r, q, um') → ∃ e, r = inr e.
Proof.
  intros Hf. unfold build_flat_image_inner. destruct (_ =? 0); [intros [= <- _ _]; by eexists|].
  pose proof (flat_layout_spec (Z.of_nat (length data)) ltac:(lia)) as Hly.
  destruct (flat_layout (Z.of_nat (length data))) as [[[pages sa] se]|e]; [|intros [= <- _ _]; by eexists]. destruct Hly as [-> _].
  destruct (create_pml4 a p false) as [[[h|] p1]| | |]; cbn [mbind outcome_bind]; try discriminate; [|intros [= <- _ _]; by eexists].
  destruct (flat_pages _ _ _ _ _ _ _ _ _ _ _) as [[[[e al] p2] um2]| | |] eqn:E; cbn [mbind outcome_bind]; try discriminate.
  apply flat_pages_injected in E; [|lia]. destruct e as [e|]; [|done]. cbn [mbind outcome_bind].
  destruct (destroy_uncommitted_pml4 a p2 h); cbn [mbind outcome_bind]; try discriminate. intros [= <- _ _]. by eexists.
Qed.

(** The verdict of the rollback test depends only on the error the construction reports: the old address
    space and the pages the next allocations get are as they were on every machine that can build. *)
Lemma failure_ok_spec a stale top p um : can_build a top p → low_first a top (flat_need (Z.of_nat (length FLAT_ROLLBACK_DATA))) (pg_bm p) → (∀ f, length (stale f) = 4096%nat ∧ Forall is_byte (stale f)) → 32 ≤ free_count a (pg_bm p) →
  ∃ e q um', build_flat_image_with_failure a stale FLAT_ROLLBACK_DATA p um 1 = Ret (inr e, q, um') ∧ unchanged a p q ∧
    let mapped := negb (bool_decide (translate p OLD_ADDR = None)) in
    failure_ok a stale p um (read_cr3 p) (translate p OLD_ADDR) = Ret (match e with FlatOom => true | _ => false end && mapped, mapped, q, um').
Proof.
  intros [Hi Hpl Hl Hself] Hlow Hst Hn. pose proof (pi_pmm _ _ Hi) as Ha. pose proof (pi_bm _ _ Hi) as Hb.
  destruct (build_flat_ok a p Hi Hpl Hl stale Hst top FLAT_ROLLBACK_DATA um (Some 1)) as (r & q & um' & E & _ & Hr); [|done|done|].
  { apply Forall_replicate. unfold is_byte. lia. }
  assert (0 ≤ 1 < code_pages (Z.of_nat (length FLAT_ROLLBACK_DATA))) as Hf by (unfold code_pages; lia).
  destruct (build_flat_injected _ _ _ _ _ _ _ _ _ Hf E) as [e ->]. exists e, q, um'. split; [exact E|]. split; [done|]. cbv zeta.
  pose proof (uc_inv _ _ _ Hr) as Hq. assert (read_cr3 q = read_cr3 p) as Hcr by (unfold read_cr3; by rewrite (uc_cr3 _ _ _ Hr)).
  assert (free_count a (pg_bm q) = free_count a (pg_bm p)) as Hc.
  { apply countb_ext. intros i y Hy%list_elem_of_lookup_2%elem_of_seqZ. by rewrite (uc_used _ _ _ Hr) by lia. }
  destruct (frame_window_ok a Ha 32 p q Hb (pi_bm _ _ Hq)) as (frames & Ep & Eq); [lia|lia|apply (uc_used _ _ _ Hr)|].
  unfold failure_ok. rewrite Ep. cbn [mbind outcome_bind]. unfold build_flat_image_with_failure. rewrite E. cbn [mbind outcome_bind].
  rewrite Eq. cbn [mbind outcome_bind]. rewrite Hcr, Z.eqb_refl.
  pose proof (uc_xlate _ _ _ Hr OLD_ADDR) as Hx. unfold translate in Hx at 1. rewrite Hcr in Hx.
  rewrite (bool_decide_eq_true_2 _ Hx), (bool_decide_eq_true_2 (sort_unstable frames = _)) by done. cbn [andb].
  by rewrite andb_true_r.
Qed.

(** ** The runs *)

(** The tables of the boot loader, the 1.5 MiB behind the kernel's image free, and a fresh heap. *)
Definition bench_pages : pg := set_bm (replicate 48 255 ++ replicate 48 0 ++ replicate (Z.to_nat 8096) 255) loader_pages.
Definition bench_start : bench_state (mem * heap) := mkBS bench_pages ∅ arena_init fresh_heap BootSpec.quiet 2.

(** The records: the lines say OK, and end in a backslash and an n. *)
Example provenance_arena_passes :
  match test_provenance_arena arena_init BootSpec.quiet with
  | Ret (_, s) => bool_decide (tx s = tx (say_raw BootSpec.quiet "ELF: provenance arena >256 pages and cleanup OK.\n"))
  | _ => false
  end = true.
Proof. vm_compute. reflexivity. Qed.

(** The three rollbacks of a load and the rollback of an image. *)
Example provenance_failures_pass :
  match test_provenance_failures boot_handle exec_stale bench_start with Ret (ok, _) => ok | _ => false end = true.
Proof. vm_compute. reflexivity. Qed.

(** The tests of the flat loader but the oversize one, which is settled by [oversize_refused]. *)
Definition flat_cases (a : PmmAllocator) (stale : Z → list Z) {H} (t : bench_state H) : outcome (bool * bool * bool) :=
  '(seeded, frames, p) ← seed_frames a (bs_pg t) 8;
  p ← free_frames a p frames;
  '(small, p, um) ← small_binary_ok a stale p (bs_um t) seeded frames;
  '(failed, old, p, um) ← failure_ok a stale p um (read_cr3 (bs_pg t)) (translate_in_pml4 (bs_pg t) OLD_ADDR (read_cr3 (bs_pg t)));
  Ret (small, failed, old).

(** A step that succeeds and changes nothing can be left out of the sequence. *)
Lemma skip_step {P U F R : Type} (seed : outcome (bool * F * P)) (free : F → P → outcome P) (small : P → bool → F → outcome (bool * P * U))
    (over : P → U → outcome (bool * P * U)) (fail : P → U → outcome (bool * bool * P * U)) (report : bool → bool → bool → bool → P → U → R) s f o :
  (∀ p um, over p um = Ret (true, p, um)) →
  ('(seeded, frames, p) ← seed; p ← free frames p; '(s, p, um) ← small p seeded frames; '(f, o, p, um) ← fail p um; Ret (s, f, o)) = Ret (s, f, o) →
  ∃ p um, ('(seeded, frames, p) ← seed; p ← free frames p; '(s, p, um) ← small p seeded frames; '(v, p, um) ← over p um;
           '(f, o, p, um) ← fail p um; Ret (f && v && s, report f v o s p um)) = Ret (f && s, report f true o s p um).
Proof.
  intros Hover. destruct seed as [[[seeded frames] p]| | |]; cbn [mbind outcome_bind]; try discriminate.
  destruct (free frames p) as [p1| | |]; cbn [mbind outcome_bind]; try discriminate.
  destruct (small p1 seeded frames) as [[[s' p2] um2]| | |]; cbn [mbind outcome_bind]; try discriminate.
  rewrite Hover. cbn [mbind outcome_bind]. destruct (fail p2 um2) as [[[[f' o'] p3] um3]| | |]; cbn [mbind outcome_bind]; try discriminate.
  intros [= -> -> ->]. exists p3, um3. by rewrite andb_true_r.
Qed.

Lemma flat_tests_cases a stale {H} (t : bench_state H) small failed old : flat_cases a stale t = Ret (small, failed, old) →
  ∃ p um, test_flat_image_failures a stale t = Ret (failed && small, flat_report (after_load t p um (bs_ar t)) failed true old small).
Proof.
  intros E. unfold test_flat_image_failures.
  exact (skip_step (seed_frames a (bs_pg t) 8) (λ frames p, free_frames a p frames) (λ p seeded frames, small_binary_ok a stale p (bs_um t) seeded frames)
    (oversize_ok a stale) (λ p um, failure_ok a stale p um _ _) (λ f v o s p um, flat_report (after_load t p um (bs_ar t)) f v o s)
    small failed old (oversize_refused a stale) E).
Qed.

Lemma flat_cases_pass : flat_cases boot_handle exec_stale bench_start = Ret (true, true, true).
Proof. vm_compute. reflexivity. Qed.

(** All of them pass: recycled pages are cleared, and the failed construction gives everything back. *)
Example flat_image_tests_pass : ∃ t, test_flat_image_failures boot_handle exec_stale bench_start = Ret (true, t).
Proof. destruct (flat_tests_cases _ _ _ _ _ _ flat_cases_pass) as (p & um & ->). by eexists. Qed.

(** ** Want of memory reported as a collision *)

(** The same machine with [n] pages free. *)
Definition short_of_memory (n : Z) : pg := set_bm (replicate 95 255 ++ [256 - 2 ^ n] ++ replicate (Z.to_nat 8096) 255) loader_pages.

(** With four pages left the table of the first code page cannot be had: the flat loader reports a
    collision, which [exec] turns into -22; with three it reports want of memory, -12. *)
Lemma flat_reports_collision :
  (λ n, match build_flat_image boot_handle exec_stale FLAT_SMALL_DATA (short_of_memory n) ∅ with
        | Ret (inr e, _, _) => Some (flat_errno e)
        | _ => None
        end) <$> [3; 4; 5] = [Some (-12); Some (-22); Some (-12)].
Proof. vm_compute. reflexivity. Qed.
