(* ===== verification/CloneTest.v ===== *)
(** * Failures injected into fork, and the self-test of fork (src/kernel_rust/src/paging.rs)

    [create_pml4_inner] as it is, with the number of pages copied so far and the number after which the
    next copy is to fail.  Without an injected failure it is [Paging.create_pml4], the definition the
    theorems on fork are about; with one it never copies more pages than it is allowed to.  The
    self-test of the debug build forks a small address space twice, the second time with a failure. *)

From Stdlib Require Import ZArith Lia String Ascii.
From stdpp Require Import base numbers list list_numbers option gmap sorting.
From S2P Require Import Prelude Pmm Memory Kmm Heap Paging Process Serial Interrupts Console BootMem BootSpec UserMem Exec SelfTests SpawnSpec SelfTestSpec.

Local Open Scope Z_scope.

(** ** The construction *)

Section clone.
Context (a : PmmAllocator) (fail_after_clones : option Z).

(** Like [clone_pt]; [cloned] counts the pages copied. *)
Fixpoint clone_pt_counted (s : pg) (cloned vaddr src_pt new_pt k : Z) (n : nat) : outcome (bool * Z * pg) :=
  match n with
  | O => Ret (true, cloned, s)
  | S n =>
      let src_pte := pg_ld s (slot src_pt k) in
      if negb (has src_pte PAGE_PRESENT) || negb (has src_pte PAGE_USER)
      then clone_pt_counted (pg_st s (slot new_pt k) src_pte) cloned vaddr src_pt new_pt (k + 1) n
      else if bool_decide (fail_after_clones = Some cloned) then Ret (false, cloned, s)
      else
        '(child_leaf, s) ← pmm_alloc a s;
        if child_leaf =? 0 then Ret (false, cloned, s)
        else
          '(copied, s) ← copy_user_page_through_scratch s (u64 (vaddr + k * 4096)) child_leaf;
          if negb copied then
            s ← pmm_free a s child_leaf;
            Ret (false, cloned, s)
          else
            clone_pt_counted (pg_st s (slot new_pt k) (Z.lor child_leaf (and_not src_pte ADDR_MASK)))
              (cloned + 1) vaddr src_pt new_pt (k + 1) n
  end.

Definition clone_pde_counted (s : pg) (cloned : Z) (copy_user : bool) (vaddr src_pde new_pd pd_idx : Z) : outcome (bool * Z * pg) :=
  if copy_user && has src_pde PAGE_HUGE && has src_pde PAGE_USER &&
     (PAGING_USER_CODE_ADDR <? sat_add vaddr (Z.shiftl 1 21)) then Ret (false, cloned, s)
  else if (PAGING_USER_CODE_ADDR <=? vaddr) && negb copy_user then Ret (true, cloned, s)
  else if copy_user && (PAGING_USER_CODE_ADDR <=? vaddr) && negb (has src_pde PAGE_HUGE) then
    '(new_pt, s) ← pmm_alloc a s;
    if new_pt =? 0 then Ret (false, cloned, s)
    else
      let s := zero_table s new_pt in
      let s := pg_st s (slot new_pd pd_idx) (Z.lor new_pt (and_not src_pde ADDR_MASK)) in
      clone_pt_counted s cloned vaddr (entry_addr src_pde) new_pt 0 512
  else if copy_user && (PAGING_USER_CODE_ADDR <=? vaddr) && has src_pde PAGE_HUGE then
    if has src_pde PAGE_USER then Ret (false, cloned, s)
    else Ret (true, cloned, pg_st s (slot new_pd pd_idx) src_pde)
  else Ret (true, cloned, pg_st s (slot new_pd pd_idx) src_pde).

Fixpoint clone_pd_counted (s : pg) (cloned : Z) (copy_user : bool) (pdpt_idx src_pd new_pd pd_idx : Z) (n : nat) : outcome (bool * Z * pg) :=
  match n with
  | O => Ret (true, cloned, s)
  | S n =>
      let src_pde := pg_ld s (slot src_pd pd_idx) in
      if negb (has src_pde PAGE_PRESENT) then clone_pd_counted s cloned copy_user pdpt_idx src_pd new_pd (pd_idx + 1) n
      else
        let vaddr := Z.lor (Z.shiftl pdpt_idx 30) (Z.shiftl pd_idx 21) in
        '(ok, cloned, s) ← clone_pde_counted s cloned copy_user vaddr src_pde new_pd pd_idx;
        if negb ok then Ret (false, cloned, s)
        else clone_pd_counted s cloned copy_user pdpt_idx src_pd new_pd (pd_idx + 1) n
  end.

Definition clone_pdpte_counted (s : pg) (cloned : Z) (copy_user : bool) (src_pdpte new_pdpt pdpt_idx : Z) : outcome (bool * Z * pg) :=
  let base_vaddr := Z.shiftl pdpt_idx 30 in
  if overlaps_kernel_scratch base_vaddr (u64 (base_vaddr + Z.shiftl 1 30)) then Ret (true, cloned, s)
  else if has src_pdpte PAGE_HUGE then
    let huge_end := sat_add base_vaddr (Z.shiftl 1 30) in
    if copy_user && has src_pdpte PAGE_USER && (PAGING_USER_CODE_ADDR <? huge_end) then Ret (false, cloned, s)
    else if (PAGING_USER_CODE_ADDR <=? base_vaddr) && negb copy_user then Ret (true, cloned, s)
    else Ret (true, cloned, pg_st s (slot new_pdpt pdpt_idx) (and_not src_pdpte (Z.lor PAGE_ACCESSED PAGE_DIRTY)))
  else
    '(new_pd, s) ← pmm_alloc a s;
    if new_pd =? 0 then Ret (false, cloned, s)
    else
      let s := zero_table s new_pd in
      let s := pg_st s (slot new_pdpt pdpt_idx) (Z.lor new_pd (table_flags src_pdpte)) in
      clone_pd_counted s cloned copy_user pdpt_idx (entry_addr src_pdpte) new_pd 0 512.

Fixpoint clone_pdpt_counted (s : pg) (cloned : Z) (copy_user : bool) (src_pdpt new_pdpt pdpt_idx : Z) (n : nat) : outcome (bool * Z * pg) :=
  match n with
  | O => Ret (true, cloned, s)
  | S n =>
      let src_pdpte := pg_ld s (slot src_pdpt pdpt_idx) in
      if negb (has src_pdpte PAGE_PRESENT) then clone_pdpt_counted s cloned copy_user src_pdpt new_pdpt (pdpt_idx + 1) n
      else
        '(ok, cloned, s) ← clone_pdpte_counted s cloned copy_user src_pdpte new_pdpt pdpt_idx;
        if negb ok then Ret (false, cloned, s)
        else clone_pdpt_counted s cloned copy_user src_pdpt new_pdpt (pdpt_idx + 1) n
  end.

Definition clone_low_counted (s : pg) (copy_user : bool) (src_l4 new_l4 : Z) : outcome (bool * Z * pg) :=
  let src_pml4e_0 := pg_ld s (slot src_l4 0) in
  if negb (has src_pml4e_0 PAGE_PRESENT) then Ret (true, 0, s)
  else
    '(new_pdpt, s) ← pmm_alloc a s;
    if new_pdpt =? 0 then Ret (false, 0, s)
    else
      let s := zero_table s new_pdpt in
      let s := pg_st s (slot new_l4 0) (Z.lor new_pdpt (table_flags src_pml4e_0)) in
      clone_pdpt_counted s 0 copy_user (entry_addr src_pml4e_0) new_pdpt 0 512.

Definition create_pml4_inner (s : pg) (copy_user : bool) : outcome (option Pml4Handle * pg) :=
  '(provisioned, scratch, s) ←
    (if copy_user then
       '(r, s) ← provision_kernel_scratch a s;
       Ret (match r with Some p => (true, Some p, s) | None => (false, None, s) end)
     else Ret (true, None, s));
  if negb (provisioned : bool) then Ret (None, s)
  else
    let src_l4 := read_cr3 s in
    '(new_l4, s) ← pmm_alloc a s;
    if new_l4 =? 0 then s ← cleanup_if a s scratch; Ret (None, s)
    else
      let s := zero_table s new_l4 in
      let s := set_mem (copy_entries (pg_mem s) src_l4 new_l4 1 511) s in
      '(ok, _, s) ← clone_low_counted s copy_user src_l4 new_l4;
      if negb ok then
        s ← destroy_uncommitted_pml4 a s (mkHandle new_l4 true);
        s ← cleanup_if a s scratch;
        Ret (None, s)
      else
        s ← cleanup_if a s scratch;
        Ret (Some (mkHandle new_l4 true), s).
End clone.

Definition create_pml4_with_clone_failure (a : PmmAllocator) (s : pg) (copy_user : bool) (fail_after_clones : Z) : outcome (option Pml4Handle * pg) :=
  create_pml4_inner a (Some fail_after_clones) s copy_user.

(** ** The self-test *)

Section test.
Context {H : Type} (a : PmmAllocator).
Implicit Types t : bench_state H.

Definition FIRST : Z := 33619968.
Definition SECOND : Z := 33624064.

(** [write_volatile] of a byte through the active address space. *)
Definition store8_at (p : pg) (v x : Z) : outcome pg :=
  match translate p v with Some pa => Ret (set_mem (st8 (pg_mem p) pa x) p) | None => Fault end.

(** [!page.is_null() && try_map_4k_target(..)]. *)
Definition map_if (b : bool) (p : pg) (v page root : Z) : outcome (bool * pg) :=
  if b && negb (page =? 0) then try_map_4k_target a p v page PAGE_USER_RW root else Ret (false, p).

(** The fork that is to succeed: is the child's page its own? *)
Definition isolation (p : pg) (mapped : bool) (saved_cr3 parent : Z) (parent_first parent_second : option Z) : outcome (bool * pg) :=
  '(child, p) ← (if mapped then create_pml4_inner a None p true else Ret (None, p));
  match child with
  | Some child_root =>
      let child_first := translate_in_pml4 p FIRST (phys child_root) in
      let child_second := translate_in_pml4 p SECOND (phys child_root) in
      let ok := mapped && (negb (bool_decide (child_first = None)) && negb (bool_decide (child_second = None))
        && negb (bool_decide (child_first = parent_first)) && negb (bool_decide (child_second = parent_second))) in
      let p := set_cr3 (phys child_root) p in
      p ← store8_at p FIRST 204;
      let p := set_cr3 parent p in
      b ← load8_at p FIRST;
      let p := set_cr3 saved_cr3 p in
      p ← destroy_uncommitted_pml4 a p child_root;
      Ret (ok && (b =? 17), p)
  | None => Ret (false, set_cr3 parent p)
  end.

(** The fork whose second copy is to fail. *)
Definition clone_failure (p : pg) (parent : Z) (parent_first parent_second : option Z) (success_cleanup : bool) : outcome (bool * pg) :=
  '(expected_ok, expected, p) ← frame_window a p 16;
  free_before ← available_pages a (pg_bm p);
  '(r, p) ← create_pml4_with_clone_failure a p true 1;
  let injected_failure := bool_decide (r = None) in
  free_after ← available_pages a (pg_bm p);
  let parent_untouched := bool_decide (translate_in_pml4 p FIRST parent = parent_first) && bool_decide (translate_in_pml4 p SECOND parent = parent_second) in
  '(expected_ok2, recycled, p) ← frame_window a p 16;
  Ret (injected_failure && parent_untouched && (expected_ok && expected_ok2)
    && bool_decide (sort_unstable expected = sort_unstable recycled) && success_cleanup && (free_after =? free_before), p).

Definition test_fork_leaf_isolation t : outcome (bench_state H) :=
  let saved_cr3 := read_cr3 (bs_pg t) in
  '(parent, p) ← create_pml4_inner a None (bs_pg t) false;
  match parent with
  | None => Ret (say_line (say_line (put_bpg t p) "PAGING TEST: fork leaf isolation FAIL") "PAGING TEST: fork leaf failure FAIL")
  | Some parent_root =>
      let parent := phys parent_root in
      let p := set_cr3 parent p in
      '(first_page, p) ← pmm_alloc a p;
      '(second_page, p) ← pmm_alloc a p;
      '(first_mapped, p) ← map_if true p FIRST first_page parent;
      '(second_mapped, p) ← map_if first_mapped p SECOND second_page parent;
      let mapped := first_mapped && second_mapped in
      p ← (if mapped then p ← store8_at p FIRST 17; store8_at p SECOND 34 else Ret p);
      let parent_first := translate_in_pml4 p FIRST parent in
      let parent_second := translate_in_pml4 p SECOND parent in
      free_before_success ← available_pages a (pg_bm p);
      '(isolation_ok, p) ← isolation p mapped saved_cr3 parent parent_first parent_second;
      let t := tell t [bytes "PAGING TEST: fork leaf isolation "; verdict isolation_ok] in
      free_after_success ← available_pages a (pg_bm p);
      let scratch_success_cleanup := free_after_success =? free_before_success in
      let t := tell t [bytes "PAGING TEST: scratch success cleanup "; verdict scratch_success_cleanup] in
      let p := set_cr3 parent p in
      '(failure_ok, p) ← clone_failure p parent parent_first parent_second scratch_success_cleanup;
      let t := tell t [bytes "PAGING TEST: fork leaf failure "; verdict failure_ok] in
      let p := set_cr3 saved_cr3 p in
      p ← destroy_uncommitted_pml4 a p parent_root;
      p ← (if negb (first_page =? 0) && negb first_mapped then pmm_free a p first_page else Ret p);
      p ← (if negb (second_page =? 0) && negb second_mapped then pmm_free a p second_page else Ret p);
      Ret (put_bpg t p)
  end.
End test.

(** ** Without an injected failure *)

(** The result without the count. *)
Definition forget (o : outcome (bool * Z * pg)) : outcome (bool * pg) := '(ok, _, s) ← o; Ret (ok, s).

Lemma forget_bind {A} (o : outcome A) f : forget (x ← o; f x) = x ← o; forget (f x).
Proof. by destruct o. Qed.

(** Both sides run the same step: go on with what it returns. *)
Ltac same_step :=
  cbv zeta; repeat match goal with
  | |- forget (Ret _) = _ => reflexivity
  | |- forget (if ?b then _ else _) = _ => destruct b
  | |- forget (mbind _ ?o) = _ => rewrite forget_bind; destruct o as [?| | |]; cbn [mbind outcome_bind]; [|reflexivity..]
  | |- forget (let '(_, _) := ?x in _) = _ => destruct x
  | H : ∀ _, _ |- _ => apply H
  end.

Section none.
Context (a : PmmAllocator).

Lemma clone_pt_none v src new n : ∀ s c k, forget (clone_pt_counted a None s c v src new k n) = clone_pt a s v src new k n.
Proof. induction n as [|n IH]; intros; cbn [clone_pt_counted clone_pt]; [done|]. rewrite bool_decide_eq_false_2 by done. same_step. Qed.

Lemma clone_pde_none s c u v e new i : forget (clone_pde_counted a None s c u v e new i) = clone_pde a s u v e new i.
Proof. pose proof clone_pt_none. unfold clone_pde_counted, clone_pde. same_step. Qed.

(** The count of one entry goes to the next. *)
Lemma forget_next {o : outcome (bool * Z * pg)} {o' f g} : forget o = o' → (∀ ok c s, forget (f ok c s) = g ok s) →
  forget ('(ok, c, s) ← o; f ok c s) = '(ok, s) ← o'; g ok s.
Proof. intros <- H. destruct o as [[[ok c] s]| | |]; cbn [mbind outcome_bind forget]; [apply H|done..]. Qed.

Lemma clone_pd_none u i src new n : ∀ s c k, forget (clone_pd_counted a None s c u i src new k n) = clone_pd a s u i src new k n.
Proof.
  induction n as [|n IH]; intros; cbn [clone_pd_counted clone_pd]; cbv zeta; [done|]. destruct (negb _); [apply IH|].
  apply forget_next; [apply clone_pde_none|]. intros ok c' s'. destruct (negb ok); [done|apply IH].
Qed.

Lemma clone_pdpte_none s c u e new i : forget (clone_pdpte_counted a None s c u e new i) = clone_pdpte a s u e new i.
Proof. pose proof clone_pd_none. unfold clone_pdpte_counted, clone_pdpte. same_step. Qed.

Lemma clone_pdpt_none u src new n : ∀ s c k, forget (clone_pdpt_counted a None s c u src new k n) = clone_pdpt a s u src new k n.
Proof.
  induction n as [|n IH]; intros; cbn [clone_pdpt_counted clone_pdpt]; cbv zeta; [done|]. destruct (negb _); [apply IH|].
  apply forget_next; [apply clone_pdpte_none|]. intros ok c' s'. destruct (negb ok); [done|apply IH].
Qed.

Lemma clone_low_none s u src new : forget (clone_low_counted a None s u src new) = clone_low a s u src new.
Proof. pose proof clone_pdpt_none. unfold clone_low_counted, clone_low. same_step. Qed.

(** [create_pml4] is [create_pml4_inner] without an injected failure. *)
Lemma create_pml4_none s u : create_pml4_inner a None s u = create_pml4 a s u.
Proof.
  unfold create_pml4_inner, create_pml4.
  destruct (if u then _ else _) as [[[provisioned scratch] s1]| | |]; cbn [mbind outcome_bind]; [|done..]. destruct (negb provisioned); [done|].
  destruct (pmm_alloc a s1) as [[new s2]| | |]; cbn [mbind outcome_bind]; [|done..]. destruct (new =? 0); [done|].
  rewrite <- clone_low_none. by destruct (clone_low_counted a None _ u (read_cr3 s1) new) as [[[ok c] s3]| | |].
Qed.
End none.

(** ** The run *)

(** The child's pages are its own, the injected failure gives everything back, and the test
    leaves the bitmap as it was. *)
Example fork_test_passes :
  match test_fork_leaf_isolation boot_handle bench_start with
  | Ret t => bool_decide (tx (bs_out t) = tx (bs_out (tell (tell (tell bench_start [bytes "PAGING TEST: fork leaf isolation "; verdict true])
      [bytes "PAGING TEST: scratch success cleanup "; verdict true]) [bytes "PAGING TEST: fork leaf failure "; verdict true])))
      && bool_decide (pg_bm (bs_pg t) = pg_bm bench_pages) && (pg_cr3 (bs_pg t) =? pg_cr3 bench_pages)
  | _ => false
  end = true.
Proof. vm_compute. reflexivity. Qed.
